(* ===== verification/_CoqProject ===== *)
-Q . S2P
Prelude.v
PyDict.v
Text.v
Sha256.v
PyVal.v
PyNum.v
Json.v
JsonParse.v
Runtime.v
RuntimeTracker.v
DurableAction.v
Canonical.v
Transcript.v
ModelPolicy.v
OperationTypes.v
OperationReducer.v
OperationLifecycle.v
OperationSafety.v
OperationProperties.v
Domain.v
OperationStore.v
OperationLog.v
Service.v
Approvals.v
ToolErrors.v
WriteRecord.v
WriteAgreement.v
WriteService.v
WriteClaim.v
WriteOutcome.v
WritePrepare.v
WriteReconcile.v
WriteExamples.v
Recovery.v
RecoveryPlanning.v
RecoveryService.v
RecoveryLog.v
RecoverySteps.v
RecoverySafety.v
Startup.v
StartupSafety.v
RecoveryExamples.v
PlanTypes.v
PlanPersistence.v
PlanGraph.v
PlanValidator.v
PlanState.v
PlanSafety.v
PlanSnapshot.v
PlanDataflow.v
PlanApproval.v
Messages.v
Tasks.v
PlanExecutor.v
PlanTasks.v
PlanBatch.v
PlanExecution.v
PlanExecutionExamples.v
Retry.v
CircuitBreaker.v
RetryLoop.v
RetryEvents.v
ModelRetry.v
JsonLines.v
JsonlStore.v
SseDecoder.v
SseStream.v
SseChunks.v
AgentTypes.v
AgentWorld.v
AgentTraces.v
ToolDispatch.v
AgentLoop.v
ToolTraces.v
ToolBatches.v
ToolAdmission.v
ToolSafety.v
AgentMessages.v
AgentLoopSafety.v
AgentGuarantees.v
