(* ===== verification/Prelude.v ===== *)
(** * PI agent loop: a verification library for its durable core

    The program (src/agent-loop/src/pi_agent_loop/) runs a language-model agent
    whose side effects must survive crashes and must not happen without consent.
    Everything durable is an event log: the _run_ log records one agent run, the
    _operation_ log records the model requests, tool invocations, approvals and
    external writes of one operation, the _plan_ log the steps of a plan of several
    intents, and every state is a fold over a log.  The agent loop asks the model,
    checks its tool calls and has them dispatched; what it does with them is what the
    logs are to record.
    Several workers share the logs; they are kept apart by compare-and-swap
    appends and by fenced claims.  This library models that core.

    ** Files, from the language up

    - [Prelude]: Python's dynamic values ([pyval], [pynum]) and exceptions, those of the
      program with what they carry, and fallible code ([res], [let!], [check!]); replay as a fold that stops at the first exception ([foldM]), the stable
      sort by a key, the tactics [res_inv] and [eqb_cases].
    - [PyDict], [Text], [PyVal], [Json], [JsonParse], [Sha256]: the part of Python
      and of its standard library that the program computes with: ordered
      dictionaries, text as UTF-8, JSON values with IEEE floats, [json.dumps] and
      [json.loads], SHA-256.  Code behind these is not under src/; they follow the
      documented behaviour, and are executable so that witnesses run on digests.
    - [Runtime] (runtime/states.py, events.py, invariants.py, reducer.py,
      projection.py, session/replay.py, session/store.py): the run of an agent,
      [reduce_runtime_state] with its guard [validate_runtime_transition], replay,
      and the store's compare-and-swap [append_cas].
    - [RuntimeTracker] (runtime/tracker.py): the listener that converts agent events,
      reduces them and appends them.
    - [DurableAction] (durable_action.py): the envelope of one write, its canonical
      digest, and [assert_execution].
    - [Canonical]: what the canonical text of an action is read back to, and so what
      its hash identifies.
    - [Transcript] (transcript.py): pairing of tool calls and results, and repair.
    - [ModelPolicy] (model_policy.py): what a model response is allowed to do.
    - [OperationTypes], [OperationReducer] (session/operation_events.py,
      session/operation_state.py): the operation log's events, state and reducer,
      one definition per event type; replay; validation of candidate events.
    - [OperationLifecycle]: the abstract specification of that reducer (the edges a
      tool invocation, an approval and a write may take, and [op_step]) and the
      lemma that the reducer refines it.  [OperationSafety] derives the invariants
      of every replayable log from the specification; [OperationProperties] states
      the claims, with instances on one complete log of an approved transfer.
    - [OperationStore] (session/operation_store.py): the in-memory event store, its
      batches, globally unique facts and claims, as functions of the store, and
      sequences of calls by competing workers.
    - [OperationLog]: the store and the reducer together - one operation's events as
      the store holds them, read, validated and appended under interleaving.
    - [Service]: what the services over that log share - computations that await the
      store with other workers, clocks and cancellation at every access, and the
      rely-guarantee rules ([triple]) of their proofs.
    - [Approvals] (approval/state_machine.py): the approval service.
    - [ToolErrors] (retry/errors.py): the constructors of the errors a tool may raise
      about its outcome.
    - [WriteRecord], [WriteService] (writes/state_machine.py): the record of an
      external write as its events give it, and the service that prepares, claims,
      executes and reconciles it; [WriteAgreement] relates the record to the reducer's
      state; [WriteClaim], [WriteOutcome], [WritePrepare] and [WriteReconcile] say what
      each call guarantees, and [WriteExamples] runs them on one refund.
    - [Recovery], [RecoveryService] (session/resume.py): the plan of what to do about
      an operation whose process died, and the service that carries it out under a
      fenced claim, one definition per action, in cycles of planning and executing.
      [RecoveryPlanning] says what a plan is justified by; [RecoveryLog], [RecoverySteps]
      and [RecoverySafety] follow the store, what a callback is permitted and what a
      recovery does, action by action, while others use the store, and state what it
      cannot recover.
    - [Startup] (harness/startup_recovery.py): the inspection of all operations when a
      host starts, and their recovery; [StartupSafety] states its guarantees and
      [RecoveryExamples] runs both services.
    - [Domain] (domains/approval_receipt.py, domains/state_machine.py): business
      entity state machines whose transitions consume approval receipts.
    - [PlanTypes] (planning/types.py): references, bindings, conditions, contracts,
      policies, steps, plans, receipts, events and states, checked by their
      constructors; [PlanPersistence] states what a stored plan restores to.
    - [PlanGraph], [PlanValidator] (planning/graph.py): the dependency graph of a
      plan, and the validator that holds a model's plan to the trusted policies.
    - [PlanState] (planning/state_machine.py, synthesizer.py): the plan state
      machine, one definition per event type; [PlanSafety] gives its abstract life
      cycle ([step_move]), the refinement and the invariants of every log;
      [PlanSnapshot] says which states storage gives back.
    - [PlanDataflow] (planning/dataflow.py), [PlanApproval] (planning/approval.py):
      the values a step reads from its dependencies, and the barrier that asks a
      product's services for a decision and has a granted receipt consumed.
    - [Messages] (messages.py): the public text of an error, and redaction.
    - [Tasks]: coroutines.  A task is a program over the actions at which it may be
      suspended, a batch runs its tasks in any order, as asyncio.gather does, and
      everything outside is a world that answers from the history so far; with the rules
      for what a task does ([prog_ok]), that a computation ends ([ends]), and how the
      traces of tasks make the history of a batch.
    - [PlanExecutor] (planning/executor.py): the executor, which takes a plan through its
      steps in batches of concurrent tasks.  [PlanTasks] verifies one
      task by rules for its actions, knowing only what the others cannot change;
      [PlanBatch] lifts this to a batch, [PlanExecution] to the rounds of an execution
      and its guarantees, and [PlanExecutionExamples] runs a plan in two executions.
    - [PyNum]: arithmetic of the interpreter on [int] and [float].
    - [Retry], [CircuitBreaker], [RetryLoop], [RetryEvents], [ModelRetry] (retry/):
      retry policies and delays, the breaker shared by all runs, the retried tool or
      task, the log of retries and its recovery, and the retried model turn, which
      runs behind the breaker while other runs use it.
    - [JsonLines], [JsonlStore] (session/operation_store.py, session/jsonl.py): the
      two event stores over the text of a JSONL file;
      [OperationStore] and [Runtime] are their specifications.
    - [SseDecoder] (providers/sse.py): the incremental decoder of a model's event
      stream, its buffer, cursors and limits; [SseStream] is the decoder of a whole
      response, and [SseChunks] relates the two.
    - [AgentTypes] (types.py, tool_contract.py): tools, their sealed contracts, contexts
      and results.  [AgentWorld]: the actions at which an agent's run looks outside, and
      the budget of a run (loop.py, [_RunBudgetState]), which is its only shared state.
      [AgentTraces]: what a history says of handlers, retries and requests.
    - [ToolDispatch] (tool_runtime.py, retry/tool.py): the runtime's dispatch of a batch
      of calls - registration, canonical calls, guards, attempts under a lease, retries,
      the wait for an execution with its timeout, and the classification of what it ended
      with.  [ToolTraces] follows one call, [ToolBatches] the groups of a batch with the
      bound on a call's actions, [ToolAdmission] what a call owes to its guards, and
      [ToolSafety] the dispatch as a whole.
    - [AgentLoop] (loop.py): the checks of a message, budgets, the request and its
      response, turns, and [run_agent_loop].  [AgentMessages] says what the checks leave
      of a message, [AgentLoopSafety] follows a run turn by turn, and [AgentGuarantees]
      states the claims and runs an agent whose payment fails half-way.

    ** What the theorems show

    The agent: a handler is called only for a call of a batch that was checked as a
    whole, and only after this call was admitted; an effect that may have happened is
    reported as done or as unknown, unless one of the exceptions that leave the outcome
    known was raised for its call - the handler may raise any, and so may the lease, the
    admission of an attempt and the observers; a run stays within its budgets of turns and tool
    calls, ends, and leaves every call of the model answered.
    Safety of side effects: a write put under an approval is let through only with
    that approval granted, consumed and of the same action; it is submitted at
    most once and its approval consumed at most once; a tool is dispatched only as
    the action that was approved; settled facts never change, and a finished
    operation leaves nothing unsettled.  An approval is granted by an entitled
    approver and consumed once for its action, under any interleaving of workers.
    The write service reads what the reducer reads; it calls a handler at most once,
    after the submission is in the log with its consent, and then acts on how the handler
    ended and on nothing else of it; it records an end only if
    the handler reported it, and the unknown otherwise, wherever it is cancelled; a
    repeated idempotency key prepares nothing new; a reconciliation ends a write only
    on an explicit answer about its record, under the claim that it acquired.
    Recovery: what is planned for an interrupted operation is justified by its log, the
    ends and the demands for a person too; a recovery calls back only while it holds its
    own claim, with that claim's fence and right after committing what permits it, and
    dispatches no tool of its operation twice but those that are safe to repeat, if the
    others leave the operation's dispatches alone; and nothing is resumed at start-up
    past an operation whose writes or tools may have taken effect.
    Plans: a validated plan follows its policies; no step starts unapproved or
    before what it depends on; a side effect starts at most once and never beside
    another one it must be ordered with; recovery settles every interrupted step,
    and a pending plan always has a step to start, skip or wait for.  The executor calls
    a step only when it is due, with the arguments its record gives and the consent to
    just that action (the hash on its receipt is that of the payload built for the call); a step with side effects is called at most once over all executions;
    and every execution ends, with a log that replays to the state it leaves and every
    step finished or behind an approval.  Concurrency: a lost lease never writes again, a
    takeover gets a larger fencing token, of two writers that expect the same version one
    is refused, unique facts are unique over the whole store.
    Replay: the exposed state is the replay of the stored events, independent of
    arrival order; validated candidates replay to the validated state.  Error
    behaviour: terminal runs and operations refuse events; divergences between the
    intent and the code are stated as theorems of what the code does.  Retries: no
    delay leaves its bounds, no operation is run more often than its policy allows, the
    events of a chain are those of its runs and of the way it ended, the loops end, a half-open breaker admits a bounded number of probes, a turn's
    output is that of one attempt the breaker admitted, or its rejection, and recovery leaves no chain open.  Round
    trips: events, envelopes, policies, plans and plan states survive serialisation,
    the plan states and the JSONL lines that do not are characterised (one line separator in
    a text makes a store unreadable for ever), and the file
    store refines the store in memory.  A response is decoded the same however it is
    cut into chunks, and never beyond its limits.

    ** Conventions, bounds and fuel

    A method is a function of the object's state, the clock readings and fresh
    identifiers it draws; a method that raises returns [Err].  Asyncio locks make
    a method body atomic, and interleaving is a sequence of calls.  Python integers
    are [Z].  Sets used only for membership are lists or [gset].  Exception
    messages keep their literal part only where the program or a theorem reads it.
    Recursion is structural except where fuel is given: [json_loads] has two units
    per character left plus two, and every canonical text is proved to be read back
    in full; [policy_from_dict] recurses on the depth of the value; the loop of the
    topological sort takes one turn per step and the search for descendants one per
    edge, and both are proved never to run out; the retry loops have one unit more
    than the policy's number of retries, and are proved to end within them; the
    conflict loops of the approval and write services have the code's own bounds
    (MAX_CONFLICT_RETRIES, MAX_WRITE_CONFLICT_RETRIES), those of recovery too (20 rounds
    of a commit, [max_cycles] cycles); the loops of the plan executor have a round for
    each of the four statuses a step can still take, and one more, and a batch 14 actions
    for each task, both proved to be enough; the decoder's loop passes a newline with every
    round and has a round per byte of its buffer and one more; a tool call takes at most
    [task_bound] actions and a group of them their sum ([group_fuel]), which is proved;
    the agent loop has a unit for a turn, and one more than the limit of turns is proved
    to be enough (without a limit a run need not end).  A service call runs in an
    environment that says, for its n-th access to the store, what the other workers
    did before it, the clock readings and whether the task is cancelled there; a
    handler is a computation of the same kind and may do anything.  Lease lengths are
    in units of the store's clock.  Anything outside the
    modelled language (dicts with non-string keys, lone surrogates, parsing a float
    literal) is the error [OutsideModel], which no handler catches.

    ** What is not modelled

    SQLite and network input and output, process locks and the asyncio
    scheduler; the write of a JSONL file is one step that succeeds (what a crash or a
    full disk leaves is not modelled), and its round trip is stated for values
    without floats; of the tool runtime its scheduler and locks, which answer with a
    lease or a refusal, progress updates, telemetry and the dispatch of a single call;
    of the agent loop the older execution paths that nothing calls, and the facade with
    its queues and event streams; hooks and tools are taken not to change the objects
    they are given in place, and the redaction of a text is a parameter; routing, memory, providers, extensions and evaluation,
    which call third-party services; a second cancellation while the plan executor cleans
    a cancelled batch up, the tools behind its step executor, the redaction of its error
    texts (a parameter), and the plan store around it; the sleep between two attempts, which is what the clock shows afterwards,
    and the inside of one model attempt.  Of the write service, the
    constructor's checks of the two intervals and the timing of the heartbeat; what
    the heartbeat noticed is an argument of [reconcile], and of [resume]. *)

From stdpp Require Export base tactics list strings option decidable relations sorting.
From Stdlib Require Export ZArith Lia.
From Stdlib Require Import String Ascii.
From Corelib Require Import SpecFloat.
From Stdlib Require Export Sorting.Permutation Sorting.Sorted.

#[global] Set Default Goal Selector "1".
#[global] Set Warnings "-clear-no-such-hyp".
#[global] Open Scope Z_scope.

(** ** Values

    What [json.loads] can return, which is the dynamically typed data ([Any]) that
    events, messages and policies carry, and numbers.  Floats are IEEE binary64 numbers
    ([spec_float], the kernel-checked specification of floats).  They are here because
    exceptions carry them; [PyVal] has their operations. *)
Abbreviation pyfloat := spec_float.

#[warnings="-register-all"]
Inductive pyval : Type :=
| VNone
| VBool (b : bool)
| VInt (z : Z)
| VFloat (f : pyfloat)
| VStr (s : string)
| VList (l : list pyval)
| VDict (d : list (string * pyval)).

#[export] Instance spec_float_eq_dec : EqDecision spec_float.
Proof. solve_decision. Defined.

#[export] Instance pyval_eq_dec : EqDecision pyval.
Proof.
  refine (fix go x y {struct x} :=
    let _ : EqDecision pyval := @go in
    match x, y with
    | VNone, VNone => left eq_refl
    | VBool a, VBool b => cast_if (decide (a = b))
    | VInt a, VInt b => cast_if (decide (a = b))
    | VFloat a, VFloat b => cast_if (decide (a = b))
    | VStr a, VStr b => cast_if (decide (a = b))
    | VList a, VList b => cast_if (decide (a = b))
    | VDict a, VDict b => cast_if (decide (a = b))
    | _, _ => right _
    end);
    repeat match goal with H : EqDecision pyval |- _ => clear H end;
    clear go; congruence.
Defined.

(** A Python number: an [int] or a [float]. *)
Inductive pynum : Type :=
| NInt (z : Z)
| NFloat (f : pyfloat).

#[export] Instance pynum_eq_dec : EqDecision pynum.
Proof. solve_decision. Defined.

(** [AgentToolResult]; [terminate] and [usage] may be [None]. *)
Record AgentToolResult := mkToolResult {
  tr_content : pyval;
  tr_details : pyval;
  tr_usage : pyval;
  tr_added_tool_names : pyval;
  tr_terminate : pyval
}.

#[export] Instance AgentToolResult_eq_dec : EqDecision AgentToolResult.
Proof. solve_decision. Defined.

(** ** Python exceptions

    One constructor per exception class that the modelled code raises or lets
    escape.  Exceptions that carry a machine-readable [code] keep the code; the
    ones whose only payload is the message keep the message.  [OutsideModel]
    marks a corner of the language the model does not describe (for instance a
    dict with a non-string key); no modelled handler catches it.  [HandlerError] is
    an exception of injected code, with the attributes the program reads from it;
    [CancelledError] is the cancellation of a task, which is no [Exception]. *)
Inductive exn : Type :=
| TypeError
| ValueError
| KeyError
| AttributeError
| OverflowError
| RuntimeError
| PermissionError
| OutsideModel
| RuntimeInvariantError (code : string)
| DomainTransitionError (code : string)
| TranscriptIntegrityError (code : string)
| ApprovalError (code : string)
| DurableActionEnvelopeError
| ModelRequestPolicyError
| OperationLogInvariantError (message : string)
| OperationStoreConflictError
| OperationStoreDeadlineExceeded
| OperationStoreFencedClaimLostError
| RuntimeStoreConflictError
| RuntimeStoreFencedAppendUnsupportedError
| CircuitOpenError
| ProviderProtocolError
| ModelAttemptBudgetExceeded
| PlanBudgetExceeded
| SessionContextProjectionError
| OperationCancelledError
| PlanValidationError
| PlanExecutionError
| WriteOperationError (code : string)
| WriteOutcomeUnknownError (code : string)
| DefinitelyNotCommittedToolError (code public_message : string)
| OutcomeUnknownToolError (operation_id idempotency_key reconciliation_name : string)
| RetryableToolError (code : string) (retry_after_seconds : option pynum) (attempts : Z)
    (retry_id : option string)
| RetryableTaskError (code : string) (retry_after_seconds : option pynum) (attempts : Z)
    (retry_id : option string)
| TimeoutError
| ResourceLockTimeoutError
| ResourceLeaseLostError (outcome_unknown : bool)
| TenantContextError (code : string)
| ToolAttemptAdmissionDenied (result : AgentToolResult)
| HandlerError (outcome_unknown : bool) (operation_id reconciliation_name code : option string)
| CancelledError.

#[export] Instance exn_eq_dec : EqDecision exn.
Proof. solve_decision. Defined.

(** ** Results of fallible code *)
Inductive res (A : Type) : Type :=
| Ok (a : A)
| Err (e : exn).
Arguments Ok {A} a.
Arguments Err {A} e.

Definition rbind {A B : Type} (m : res A) (k : A -> res B) : res B :=
  match m with Ok a => k a | Err e => Err e end.

Declare Scope res_scope.
Delimit Scope res_scope with res.
Notation "'let!' x ':=' m 'in' k" := (rbind m (fun x => k))
  (at level 10, x pattern, m at level 100, k at level 200,
   format "'[v' 'let!'  x  ':='  m  'in' '/' k ']'") : res_scope.
#[global] Open Scope res_scope.

(** Statement-level sequencing for a check that returns no value. *)
Notation "'check!' m 'in' k" := (rbind m (fun _ : unit => k))
  (at level 10, m at level 100, k at level 200,
   format "'[v' 'check!'  m  'in' '/' k ']'") : res_scope.

Definition is_ok {A : Type} (m : res A) : bool :=
  match m with Ok _ => true | Err _ => false end.

Lemma rbind_Ok {A B : Type} (m : res A) (k : A -> res B) (b : B) :
  rbind m k = Ok b <-> exists a, m = Ok a /\ k a = Ok b.
Proof. destruct m; simpl; split; naive_solver. Qed.

(** [res_inv H] reads a successful run backwards: it splits every bind, test
    and match of [H : _ = Ok _] and discards the failing branches. *)
Ltac res_inv_step H :=
  match type of H with
  | rbind ?m _ = Ok _ =>
      let E := fresh "E" in destruct m eqn:E; cbn [rbind] in H; [|discriminate H]
  | (if ?b then _ else _) = Ok _ =>
      let E := fresh "E" in destruct b eqn:E; try discriminate H
  | match ?x with _ => _ end = Ok _ =>
      let E := fresh "E" in destruct x eqn:E; try discriminate H
  end.
Ltac res_inv H := repeat (res_inv_step H; simplify_eq); simplify_eq.

(** [eqb_cases H] walks the [if ty == "a": ... elif ty == "b": ...] dispatch of
    [H : _ = Ok _], leaving one goal per branch with the equation on the type. *)
Ltac eqb_cases H :=
  repeat match type of H with
  | (if String.eqb ?a ?b then _ else _) = _ =>
      let E := fresh "Ety" in destruct (String.eqb_spec a b) as [E|E]; [| clear E]
  end.

(** [dataclasses.replace(s, ...)] as a pipeline of field setters. *)
Notation "x |> f" := (f x) (at level 51, left associativity, only parsing) : res_scope.

(** [x is not None] *)
Definition is_some {A : Type} (o : option A) : bool :=
  match o with Some _ => true | None => false end.

(** ** Lists *)

(** Python's [next((x for x in l if p x), None)]. *)
Fixpoint find_first {A : Type} (p : A -> bool) (l : list A) : option A :=
  match l with
  | [] => None
  | x :: l' => if p x then Some x else find_first p l'
  end.

Lemma find_first_Some {A : Type} (p : A -> bool) l x :
  find_first p l = Some x -> x ∈ l /\ p x = true.
Proof.
  induction l as [|y l IH]; simpl; [done|].
  destruct (p y) eqn:E; intros H; simplify_eq.
  - split; [left | done].
  - destruct (IH H). split; [by right | done].
Qed.

Lemma find_first_None {A : Type} (p : A -> bool) l :
  find_first p l = None <-> (forall x, x ∈ l -> p x = false).
Proof.
  induction l as [|y l IH]; simpl.
  - split; [intros _ x Hx; by apply elem_of_nil in Hx | done].
  - destruct (p y) eqn:E; split.
    + done.
    + intros H. by rewrite (H y (list_elem_of_here _ _)) in E.
    + intros H x [->|Hx]%elem_of_cons; [done | by apply IH].
    + intros H. apply IH. intros x Hx. apply H. by right.
Qed.

Lemma forallb_elem {A : Type} (p : A -> bool) (l : list A) :
  forallb p l = true <-> (forall x, x ∈ l -> p x = true).
Proof. rewrite List.forallb_forall. by setoid_rewrite list_elem_of_In. Qed.

Lemma existsb_elem {A : Type} (p : A -> bool) (l : list A) :
  existsb p l = false <-> (forall x, x ∈ l -> p x = false).
Proof.
  induction l as [|y l IH]; simpl.
  - split; [intros _ x Hx; by apply elem_of_nil in Hx | done].
  - rewrite orb_false_iff, IH. split.
    + intros [Hy Hl] x [->|Hx]%elem_of_cons; auto.
    + intros H. split; [apply H; left | intros x Hx; apply H; by right].
Qed.

Lemma filter_nil_elem {A : Type} (p : A -> bool) (l : list A) :
  List.filter p l = [] <-> (forall x, x ∈ l -> p x = false).
Proof.
  induction l as [|y l IH]; simpl.
  - split; [intros _ x Hx; by apply elem_of_nil in Hx | done].
  - destruct (p y) eqn:E; split; try done.
    + intros H. by rewrite (H y (list_elem_of_here _ _)) in E.
    + intros H x [->|Hx]%elem_of_cons; [done | by apply IH].
    + intros H. apply IH. intros x Hx. apply H. by right.
Qed.

(** [not l] for a list *)
Definition is_nil {A : Type} (l : list A) : bool := match l with [] => true | _ => false end.

Lemma is_nil_false {A : Type} (l : list A) : is_nil l = false <-> l <> [].
Proof. destruct l; naive_solver. Qed.

Lemma elem_of_concat {A : Type} (x : A) (ls : list (list A)) :
  x ∈ List.concat ls <-> exists l, l ∈ ls /\ x ∈ l.
Proof.
  rewrite list_elem_of_In, in_concat. setoid_rewrite <- list_elem_of_In. done.
Qed.

Lemma concat_nil_elem {A : Type} (ls : list (list A)) l :
  List.concat ls = [] -> l ∈ ls -> l = [].
Proof.
  intros H Hl. destruct l as [|x l]; [done|]. exfalso.
  apply (not_elem_of_nil x). rewrite <- H. apply elem_of_concat. exists (x :: l). by split; [|left].
Qed.

(** [[f(x) for x in l]] when [f] may raise: the first exception ends it. *)
Fixpoint mapR {A B : Type} (f : A -> res B) (l : list A) : res (list B) :=
  match l with
  | [] => Ok []
  | x :: l' => let! y := f x in let! ys := mapR f l' in Ok (y :: ys)
  end.

Lemma mapR_Ok {A B : Type} (f : A -> res B) l ys :
  mapR f l = Ok ys <-> Forall2 (fun x y => f x = Ok y) l ys.
Proof.
  revert ys. induction l as [|x l IH]; simpl; intros ys.
  - split; [intros [= <-]; constructor | by inversion 1].
  - split.
    + intros H. res_inv H. constructor; [done | by apply IH].
    + inversion 1 as [|? y ? ys' Hy Hys]; subst. rewrite Hy. simpl.
      by rewrite (proj2 (IH ys') Hys).
Qed.

(** Decoding undoes encoding element by element. *)
Lemma mapR_map {A B : Type} (check : A -> res unit) (decode : B -> res A) (encode : A -> B) l u :
  (forall x, check x = Ok tt -> decode (encode x) = Ok x) ->
  mapR check l = Ok u -> mapR decode (map encode l) = Ok l.
Proof.
  intros Hd H%mapR_Ok. apply mapR_Ok. induction H as [|x [] l u]; simpl; constructor; eauto.
Qed.

(** ** Replaying a log: a left fold that stops at the first exception *)
Section FoldM.
Context {S E : Type}.
Variable step : S -> E -> res S.

Fixpoint foldM (s : S) (es : list E) : res S :=
  match es with
  | [] => Ok s
  | e :: es' => let! s' := step s e in foldM s' es'
  end.

Lemma foldM_app s es1 es2 :
  foldM s (es1 ++ es2) = let! s' := foldM s es1 in foldM s' es2.
Proof.
  revert s; induction es1 as [|e es1 IH]; intros s; simpl; [done|].
  destruct (step s e); simpl; auto.
Qed.

Lemma foldM_snoc s es e :
  foldM s (es ++ [e]) = let! s' := foldM s es in step s' e.
Proof.
  rewrite foldM_app. destruct (foldM s es) as [s'|]; simpl; [|done].
  by destruct (step s' e).
Qed.

Lemma foldM_invariant (P : S -> Prop) :
  (forall s e s', P s -> step s e = Ok s' -> P s') ->
  forall es s s', P s -> foldM s es = Ok s' -> P s'.
Proof.
  intros Hstep es; induction es as [|e es IH]; simpl; intros s s' Hs H.
  - by simplify_eq.
  - res_inv H. eapply IH; [|done]. by eapply Hstep.
Qed.

(** The same with the element at hand known to be one of the list. *)
Lemma foldM_elem_invariant (P : S -> Prop) es :
  (forall s e s', e ∈ es -> P s -> step s e = Ok s' -> P s') ->
  forall s s', P s -> foldM s es = Ok s' -> P s'.
Proof.
  induction es as [|e es IH]; simpl; intros Hstep s s' Hs H.
  - by simplify_eq.
  - res_inv H. eapply IH; [|by eapply Hstep; [left|..]|done].
    intros ? ? ? Hin. apply Hstep. by right.
Qed.

Lemma foldM_rtc (R : S -> S -> Prop) :
  (forall s e s', step s e = Ok s' -> R s s') ->
  forall es s s', foldM s es = Ok s' -> rtc R s s'.
Proof.
  intros Hstep es; induction es as [|e es IH]; simpl; intros s s' H.
  - simplify_eq. apply rtc_refl.
  - res_inv H. eapply rtc_l; [by eapply Hstep | by apply IH].
Qed.
End FoldM.

(** In a list without repeated keys the key determines the element. *)
Lemma NoDup_map_inj {A B : Type} (key : A -> B) l x y :
  NoDup (map key l) -> x ∈ l -> y ∈ l -> key x = key y -> x = y.
Proof.
  induction l as [|z l IH]; simpl; intros Hnd Hx Hy Hxy.
  - by apply elem_of_nil in Hx.
  - apply NoDup_cons in Hnd as [Hz Hnd].
    apply elem_of_cons in Hx as [->|Hx]; apply elem_of_cons in Hy as [->|Hy]; auto.
    + destruct Hz. rewrite Hxy. by apply list_elem_of_fmap_2.
    + destruct Hz. rewrite <- Hxy. by apply list_elem_of_fmap_2.
Qed.

(** ** Stable sort by an integer key: [sorted(l, key=...)] *)
Section SortBy.
Context {A : Type}.
Variable key : A -> Z.

Fixpoint insert_by (x : A) (l : list A) : list A :=
  match l with
  | [] => [x]
  | y :: l' => if key x <=? key y then x :: l else y :: insert_by x l'
  end.

Definition sort_by (l : list A) : list A := foldr insert_by [] l.

Definition sorted_by (l : list A) : Prop :=
  StronglySorted (fun x y => key x <= key y) l.

Lemma insert_by_perm x l : Permutation (insert_by x l) (x :: l).
Proof.
  induction l as [|y l IH]; simpl; [done|].
  destruct (key x <=? key y); [done|].
  rewrite IH. apply perm_swap.
Qed.

Lemma sort_by_perm l : Permutation (sort_by l) l.
Proof.
  induction l as [|x l IH]; simpl; [done|].
  fold (sort_by l). rewrite insert_by_perm. by apply perm_skip.
Qed.

Lemma insert_by_sorted x l : sorted_by l -> sorted_by (insert_by x l).
Proof.
  induction 1 as [|y l Hl IH Hy]; simpl.
  - repeat constructor.
  - destruct (Z.leb_spec (key x) (key y)) as [Hxy|Hxy].
    + constructor; [by constructor|]. constructor; [done|].
      eapply Forall_impl; [done|]. simpl. lia.
    + constructor; [done|]. rewrite insert_by_perm.
      constructor; [lia | done].
Qed.

Lemma sort_by_sorted l : sorted_by (sort_by l).
Proof.
  induction l as [|x l IH]; simpl; [constructor | by apply insert_by_sorted].
Qed.

Lemma insert_by_head x l :
  Forall (fun y => key x <= key y) l -> insert_by x l = x :: l.
Proof.
  destruct l as [|y l]; [done|]. intros [Hy _]%Forall_cons. simpl.
  by rewrite (proj2 (Z.leb_le _ _) Hy).
Qed.

(** A list already in key order is returned unchanged. *)
Lemma sort_by_id l : sorted_by l -> sort_by l = l.
Proof.
  induction 1 as [|x l Hl IH Hx]; simpl; [done|].
  fold (sort_by l). rewrite IH. by apply insert_by_head.
Qed.

(** When no two entries share a key, sorting forgets the arrival order. *)
Lemma sort_by_permutation l l' :
  Permutation l l' -> NoDup (map key l) -> sort_by l = sort_by l'.
Proof.
  intros Hp Hnd.
  apply (StronglySorted_unique_strong (fun x y => key x <= key y));
    [| apply sort_by_sorted | apply sort_by_sorted
     | by rewrite (sort_by_perm l), (sort_by_perm l')].
  intros x y Hx Hy Hxy Hyx.
  rewrite (sort_by_perm l) in Hx. rewrite (sort_by_perm l'), <- Hp in Hy.
  eapply (NoDup_map_inj key); eauto. lia.
Qed.
End SortBy.
