(* ===== verification/PyDict.v ===== *)
(** * Python dictionaries with string keys

    An insertion-ordered association list: [d\[k\] = v] keeps the position of an
    existing key and appends a new one, so [values()] iterates in the order the
    interpreter does.  Equality of dictionaries ignores that order: it is
    [dict_equiv], a setoid equality the lookup and update functions respect. *)

From S2P Require Import Prelude.
From Stdlib Require Import String.

Abbreviation dict V := (list (string * V)).

Section PyDict.
Context {V : Type}.
Implicit Types (d : dict V) (k : string) (v : V).

(** [d.get(k)] *)
Fixpoint dget k d : option V :=
  match d with
  | [] => None
  | (k', v) :: d' => if String.eqb k k' then Some v else dget k d'
  end.

(** [{**d, k: v}] (and [d\[k\] = v]) *)
Fixpoint dset k v d : dict V :=
  match d with
  | [] => [(k, v)]
  | (k', v') :: d' =>
      if String.eqb k k' then (k', v) :: d' else (k', v') :: dset k v d'
  end.

(** [d.pop(k, None)] as a statement *)
Fixpoint dpop k d : dict V :=
  match d with
  | [] => []
  | (k', v') :: d' => if String.eqb k k' then d' else (k', v') :: dpop k d'
  end.

Definition dmem k d : bool := match dget k d with Some _ => true | None => false end.
Definition dkeys d : list string := map fst d.
Definition dvalues d : list V := map snd d.

(** [{**d, **d'}] *)
Definition dmerge d (d' : dict V) : dict V :=
  fold_left (fun acc kv => dset (fst kv) (snd kv) acc) d' d.

(** A value a real interpreter can build: no key twice. *)
Definition dict_wf d : Prop := NoDup (dkeys d).

Lemma dget_dset_eq k v d : dget k (dset k v d) = Some v.
Proof.
  induction d as [|[k' v'] d IH]; simpl.
  - by rewrite String.eqb_refl.
  - destruct (String.eqb k k') eqn:E; simpl; by rewrite E.
Qed.

Lemma dget_dset_ne k k' v d : k <> k' -> dget k' (dset k v d) = dget k' d.
Proof.
  intros Hne. induction d as [|[k'' v''] d IH]; simpl.
  - destruct (String.eqb_spec k' k); [by subst | done].
  - destruct (String.eqb_spec k k'') as [->|]; simpl.
    + destruct (String.eqb_spec k' k''); [by subst | done].
    + by rewrite IH.
Qed.

Lemma dget_dset k k' v d :
  dget k' (dset k v d) = if String.eqb k k' then Some v else dget k' d.
Proof.
  destruct (String.eqb_spec k k') as [->|].
  - apply dget_dset_eq.
  - by apply dget_dset_ne.
Qed.

Lemma dget_Some_elem k v d : dget k d = Some v -> (k, v) ∈ d.
Proof.
  induction d as [|[k' v'] d IH]; simpl; [done|].
  destruct (String.eqb_spec k k') as [->|]; intros H; simplify_eq; [left|].
  right. by apply IH.
Qed.

Lemma dget_Some_value k v d : dget k d = Some v -> v ∈ dvalues d.
Proof.
  intros H%dget_Some_elem. apply list_elem_of_fmap. by exists (k, v).
Qed.

Lemma elem_dget k v d : dict_wf d -> (k, v) ∈ d -> dget k d = Some v.
Proof.
  unfold dict_wf. induction d as [|[k' v'] d IH]; simpl; intros Hd Hin.
  - by apply elem_of_nil in Hin.
  - apply NoDup_cons in Hd as [Hk Hd].
    apply elem_of_cons in Hin as [?|Hin]; simplify_eq.
    + by rewrite String.eqb_refl.
    + destruct (String.eqb_spec k k') as [->|]; [|by apply IH].
      destruct Hk. apply list_elem_of_fmap. by exists (k', v).
Qed.

Lemma dmem_spec k d : dmem k d = true <-> is_Some (dget k d).
Proof. unfold dmem. destruct (dget k d); split; naive_solver. Qed.

Lemma dget_None k d : dget k d = None <-> k ∉ dkeys d.
Proof.
  induction d as [|[k' v'] d IH]; simpl.
  - split; [intros _; by apply not_elem_of_nil | done].
  - rewrite not_elem_of_cons, <- IH.
    destruct (String.eqb_spec k k'); naive_solver.
Qed.

Lemma dkeys_dset k v d :
  dkeys (dset k v d) = if dmem k d then dkeys d else dkeys d ++ [k].
Proof.
  unfold dmem. induction d as [|[k' v'] d IH]; simpl; [done|].
  destruct (String.eqb k k'); simpl; [done|].
  rewrite IH. by destruct (dget k d).
Qed.

Lemma dset_wf k v d : dict_wf d -> dict_wf (dset k v d).
Proof.
  unfold dict_wf. rewrite dkeys_dset. unfold dmem.
  destruct (dget k d) eqn:E; [done|]. intros Hd.
  apply dget_None in E. rewrite NoDup_app. split; [done|]. split.
  - intros x Hx ->%list_elem_of_singleton. done.
  - apply NoDup_singleton.
Qed.

(** The values of an updated dict are the new one and old ones. *)
Lemma dvalues_dset_elem k v d x :
  x ∈ dvalues (dset k v d) -> x = v \/ x ∈ dvalues d.
Proof.
  induction d as [|[k' v'] d IH]; simpl.
  - intros ->%list_elem_of_singleton. by left.
  - destruct (String.eqb k k'); simpl.
    + intros [->|H]%elem_of_cons; [by left | right; by right].
    + intros [->|H]%elem_of_cons; [right; left|].
      destruct (IH H); [by left | right; by right].
Qed.

Lemma dset_Forall (P : V -> Prop) k v d :
  Forall P (dvalues d) -> P v -> Forall P (dvalues (dset k v d)).
Proof.
  rewrite !Forall_forall. intros Hd Hv x [->|Hx]%dvalues_dset_elem; auto.
Qed.

Lemma dvalues_elem_dget x d :
  dict_wf d -> x ∈ dvalues d -> exists k, dget k d = Some x.
Proof.
  intros Hd ([k v] & -> & Hin)%list_elem_of_fmap.
  exists k. by apply elem_dget.
Qed.

(** ** Popping and appending *)
Lemma dpop_perm k v d : dget k d = Some v -> Permutation d ((k, v) :: dpop k d).
Proof.
  induction d as [|[k' v'] d IH]; simpl; [done|].
  destruct (String.eqb_spec k k') as [->|]; intros H; simplify_eq; [done|].
  rewrite (IH H) at 1. apply perm_swap.
Qed.

Lemma dpop_wf k v d : dict_wf d -> dget k d = Some v ->
  dict_wf (dpop k d) /\ k ∉ dkeys (dpop k d).
Proof.
  unfold dict_wf, dkeys. intros Hd H. rewrite (dpop_perm _ _ _ H) in Hd. simpl in Hd.
  apply NoDup_cons in Hd as [? ?]. done.
Qed.

Lemma dset_fresh k v d : k ∉ dkeys d -> dset k v d = (d ++ [(k, v)])%list.
Proof.
  induction d as [|[k' v'] d IH]; simpl; [done|]. intros Hk.
  apply not_elem_of_cons in Hk as [Hne Hk].
  apply String.eqb_neq in Hne as ->. by rewrite IH.
Qed.

Lemma dpop_keys k d x : x ∈ dkeys (dpop k d) -> x ∈ dkeys d.
Proof.
  induction d as [|[k' v'] d IH]; simpl; [done|].
  destruct (String.eqb k k'); simpl; [by right|].
  intros [->|H]%elem_of_cons; [left | right; auto].
Qed.

Lemma dpop_elem k d x : x ∈ dpop k d -> x ∈ d.
Proof.
  induction d as [|[k' v'] d IH]; simpl; [done|].
  destruct (String.eqb k k'); simpl; [by right|].
  intros [->|H]%elem_of_cons; [left | right; auto].
Qed.

(** ** Order-insensitive equality *)
Definition dict_equiv (d1 d2 : dict V) : Prop := forall k, dget k d1 = dget k d2.

#[export] Instance dict_equiv_equivalence : Equivalence dict_equiv.
Proof.
  split.
  - intros d k. done.
  - intros d1 d2 H k. by rewrite H.
  - intros d1 d2 d3 H12 H23 k. by rewrite H12, H23.
Qed.

#[export] Instance dget_proper k : Proper (dict_equiv ==> eq) (dget k).
Proof. intros d1 d2 H. apply H. Qed.

#[export] Instance dmem_proper k : Proper (dict_equiv ==> eq) (dmem k).
Proof. intros d1 d2 H. unfold dmem. by rewrite (H k). Qed.

#[export] Instance dset_proper k v : Proper (dict_equiv ==> dict_equiv) (dset k v).
Proof.
  intros d1 d2 H k'. rewrite !dget_dset. by rewrite (H k').
Qed.

Lemma dset_same k v d : dget k d = Some v -> dset k v d = d.
Proof.
  induction d as [|[k' v'] d IH]; [done|]. cbn.
  destruct (String.eqb_spec k k') as [->|Hne]; [by intros [= ->]|]. intros H. by rewrite IH.
Qed.

Lemma dset_comm k1 k2 v1 v2 d :
  k1 <> k2 -> dict_equiv (dset k1 v1 (dset k2 v2 d)) (dset k2 v2 (dset k1 v1 d)).
Proof.
  intros Hne k. rewrite !dget_dset.
  destruct (String.eqb_spec k1 k), (String.eqb_spec k2 k); congruence.
Qed.
End PyDict.

(** Lookup facts used by [autorewrite with pydict_rw]. *)
Create HintDb pydict.
Create Rewrite HintDb pydict_rw.
#[export] Hint Rewrite @dget_dset_eq : pydict_rw.
#[export] Hint Rewrite @dget_dset_ne using done : pydict_rw.
#[export] Hint Resolve dset_wf dget_Some_value : pydict.
