(* ===== verification/Text.v ===== *)
(** * Python text

    A Python [str] is modelled by its UTF-8 encoding (a [string] of bytes).
    Lengths, whitespace tests and case folding work on code points, which
    [utf8_chars] recovers.  Strings are valid Unicode: lone surrogates, which
    have no UTF-8 encoding, are outside the model. *)

From S2P Require Import Prelude.
From Stdlib Require Import String Ascii.

#[local] Open Scope string_scope.

(** Continuation bytes are [10xxxxxx]. *)
Definition is_continuation (c : ascii) : bool :=
  let n := N_of_ascii c in (N.leb 128 n && N.ltb n 192)%bool.

(** Split a string into its code points (each again a string of bytes). *)
Fixpoint utf8_chars (s : string) : list string :=
  match s with
  | EmptyString => []
  | String c s' =>
      match s' with
      | EmptyString => [String c EmptyString]
      | String c' _ =>
          match utf8_chars s' with
          | x :: xs =>
              if is_continuation c' then String c x :: xs
              else String c EmptyString :: x :: xs
          | [] => [String c EmptyString]
          end
      end
  end.

(** [len(s)] *)
Definition py_len (s : string) : Z := Z.of_nat (List.length (utf8_chars s)).

Definition nonempty (s : string) : bool :=
  match s with EmptyString => false | _ => true end.

Fixpoint bytes (l : list N) : string :=
  match l with [] => EmptyString | n :: l' => String (ascii_of_N n) (bytes l') end.

(** The code points for which [str.isspace] holds, which are also the ones
    [str.strip] removes. *)
Definition whitespace_chars : list string :=
  map (fun n => bytes [n]) [9; 10; 11; 12; 13; 28; 29; 30; 31; 32]%N ++
  [bytes [0xC2; 0x85]%N; bytes [0xC2; 0xA0]%N; bytes [0xE1; 0x9A; 0x80]%N] ++
  map (fun n => bytes [0xE2; 0x80; n]%N)
      [0x80; 0x81; 0x82; 0x83; 0x84; 0x85; 0x86; 0x87; 0x88; 0x89; 0x8A;
       0xA8; 0xA9; 0xAF]%N ++
  [bytes [0xE2; 0x81; 0x9F]%N; bytes [0xE3; 0x80; 0x80]%N].

Definition is_space (ch : string) : bool :=
  existsb (String.eqb ch) whitespace_chars.

(** [not s.strip()] *)
Definition blank (s : string) : bool := forallb is_space (utf8_chars s).

(** Membership of a string in a list or set literal. *)
Definition mem_str (s : string) (l : list string) : bool :=
  existsb (String.eqb s) l.
Arguments mem_str : simpl never.

Lemma mem_str_spec s l : mem_str s l = true <-> s ∈ l.
Proof.
  unfold mem_str. induction l as [|x l IH]; simpl.
  - split; [done | intros H; by apply elem_of_nil in H].
  - rewrite orb_true_iff, IH, elem_of_cons, String.eqb_eq. done.
Qed.

Lemma mem_str_false s l : mem_str s l = false <-> s ∉ l.
Proof. rewrite <- not_true_iff_false, mem_str_spec. done. Qed.

Lemma mem_str_cons s x l : mem_str s (x :: l) = (String.eqb s x || mem_str s l)%bool.
Proof. done. Qed.

Definition in_chars (ch : string) (l : list string) : bool :=
  existsb (String.eqb ch) l.

Definition lower_hex_chars : list string :=
  ["0"; "1"; "2"; "3"; "4"; "5"; "6"; "7"; "8"; "9";
   "a"; "b"; "c"; "d"; "e"; "f"].
Definition upper_hex_chars : list string := ["A"; "B"; "C"; "D"; "E"; "F"].

(** U+FB00, LATIN SMALL LIGATURE FF: the one code point outside ASCII whose
    case folding ("ff") consists of hexadecimal digits. *)
Definition ligature_ff : string := bytes [0xEF; 0xAC; 0x80]%N.

(** [c.casefold()] consists of lower-case hexadecimal digits. *)
Definition casefold_hex (ch : string) : bool :=
  (in_chars ch lower_hex_chars || in_chars ch upper_hex_chars
   || String.eqb ch ligature_ff)%bool.

(** [all(ch in "0123456789abcdef" for ch in s.casefold())] *)
Definition all_casefold_hex (s : string) : bool :=
  forallb casefold_hex (utf8_chars s).

(** [all(ch in "0123456789abcdefABCDEF" for ch in s)] *)
Definition all_hex (s : string) : bool :=
  forallb (fun ch => in_chars ch lower_hex_chars || in_chars ch upper_hex_chars)%bool
          (utf8_chars s).

(** Lower-casing of one ASCII byte; other bytes are unchanged. *)
Definition ascii_lower (c : ascii) : ascii :=
  let n := N_of_ascii c in
  if (N.leb 65 n && N.leb n 90)%bool then ascii_of_N (n + 32) else c.

Fixpoint string_map (f : ascii -> ascii) (s : string) : string :=
  match s with EmptyString => EmptyString | String c s' => String (f c) (string_map f s') end.

(** [s.casefold()] on the strings whose code points are all ASCII (the only
    ones it is applied to after [all_hex]). *)
Definition ascii_casefold : string -> string := string_map ascii_lower.

(** [s.strip()] *)
Fixpoint drop_spaces (l : list string) : list string :=
  match l with
  | ch :: l' => if is_space ch then drop_spaces l' else l
  | [] => []
  end.
Definition strip (s : string) : string :=
  String.concat "" (rev (drop_spaces (rev (drop_spaces (utf8_chars s))))).

(** The code points outside ASCII whose case folding is ASCII. *)
Definition ascii_foldings : list (string * string) :=
  [(bytes [0xC5; 0xBF]%N, "s"); (bytes [0xE2; 0x84; 0xAA]%N, "k");
   (bytes [0xC3; 0x9F]%N, "ss"); (bytes [0xE1; 0xBA; 0x9E]%N, "ss");
   (bytes [0xEF; 0xAC; 0x80]%N, "ff"); (bytes [0xEF; 0xAC; 0x81]%N, "fi");
   (bytes [0xEF; 0xAC; 0x82]%N, "fl"); (bytes [0xEF; 0xAC; 0x83]%N, "ffi");
   (bytes [0xEF; 0xAC; 0x84]%N, "ffl"); (bytes [0xEF; 0xAC; 0x85]%N, "st");
   (bytes [0xEF; 0xAC; 0x86]%N, "st")].

Definition casefold_char (ch : string) : string :=
  match find_first (fun p => String.eqb (fst p) ch) ascii_foldings with
  | Some p => snd p
  | None => string_map ascii_lower ch
  end.

(** [s.casefold()], where the result is only compared to ASCII text: every other
    code point outside ASCII folds to text that is not ASCII, here to itself. *)
Definition casefold_text (s : string) : string :=
  String.concat "" (map casefold_char (utf8_chars s)).

(** [ch.isascii() and ch.isalnum()] *)
Definition ascii_alnum (ch : string) : bool :=
  match ch with
  | String c EmptyString =>
      let n := N_of_ascii c in
      (N.leb 48 n && N.leb n 57 || N.leb 65 n && N.leb n 90 || N.leb 97 n && N.leb n 122)%bool
  | _ => false
  end.

Definition starts_with (p s : string) : bool := String.prefix p s.

Definition str_join (sep : string) (l : list string) : string := String.concat sep l.

Lemma nonempty_spec s : nonempty s = true <-> s <> "".
Proof. destruct s; simpl; split; congruence. Qed.

(** A blank string is one without a visible code point; the empty string is. *)
Lemma blank_nonempty s : blank s = false -> nonempty s = true.
Proof. destruct s; [done | reflexivity]. Qed.

Lemma in_chars_spec ch l : in_chars ch l = true <-> ch ∈ l.
Proof.
  unfold in_chars. induction l as [|x l IH]; simpl.
  - split; [done | intros H; by apply elem_of_nil in H].
  - rewrite orb_true_iff, IH, elem_of_cons, String.eqb_eq. done.
Qed.

(** No string twice: [len(l) == len(set(l))] *)
Fixpoint distinct (l : list string) : bool :=
  match l with [] => true | x :: l' => (negb (mem_str x l') && distinct l')%bool end.

Lemma distinct_spec l : distinct l = true <-> NoDup l.
Proof.
  induction l as [|x l IH]; simpl; [split; [constructor | done]|].
  rewrite andb_true_iff, negb_true_iff, mem_str_false, IH, NoDup_cons. done.
Qed.
