(* ===== verification/Sha256.v ===== *)
(** * SHA-256

    [hashlib.sha256(text.encode("utf-8")).hexdigest()] as an executable function
    on byte strings (FIPS 180-4), so that the digests the program binds approvals
    and writes to can be evaluated in the witnesses. *)

From S2P Require Import Prelude Text.
From Stdlib Require Import String Ascii.

Section Words.
#[local] Open Scope N_scope.

Definition word_mask : N := 0xFFFFFFFF.
Definition wadd (x y : N) : N := N.land (x + y) word_mask.
Definition wnot (x : N) : N := N.lxor x word_mask.
Definition rotr (n x : N) : N :=
  N.lor (N.shiftr x n) (N.land (N.shiftl x (32 - n)) word_mask).

Definition ch (x y z : N) : N := N.lxor (N.land x y) (N.land (wnot x) z).
Definition maj (x y z : N) : N :=
  N.lxor (N.lxor (N.land x y) (N.land x z)) (N.land y z).
Definition bsig0 (x : N) : N := N.lxor (N.lxor (rotr 2 x) (rotr 13 x)) (rotr 22 x).
Definition bsig1 (x : N) : N := N.lxor (N.lxor (rotr 6 x) (rotr 11 x)) (rotr 25 x).
Definition ssig0 (x : N) : N := N.lxor (N.lxor (rotr 7 x) (rotr 18 x)) (N.shiftr x 3).
Definition ssig1 (x : N) : N := N.lxor (N.lxor (rotr 17 x) (rotr 19 x)) (N.shiftr x 10).

(** The constants are the first 32 bits of the fractional parts of the cube
    (square) roots of the first primes; they are computed here, exactly, as
    integer roots of scaled primes. *)
Definition divides_none (l : list N) (n : N) : bool :=
  forallb (fun p => negb (n mod p =? 0)) l.

Fixpoint primes_from (fuel : nat) (n : N) (found : list N) : list N :=
  match fuel with
  | O => found
  | S fuel' => primes_from fuel' (n + 1) (if divides_none found n then found ++ [n] else found)
  end.

(** The greatest [r] with [r ^ 3 <= n], one bit at a time from bit [k]. *)
Fixpoint cube_root (k : nat) (r n : N) : N :=
  let try := r + N.shiftl 1 (N.of_nat k) in
  let r' := if try * try * try <=? n then try else r in
  match k with O => r' | S k' => cube_root k' r' n end.

Definition first_primes : list N := Eval vm_compute in primes_from 310 2 [].

Definition round_constants : list N := Eval vm_compute in
  map (fun p => N.land (cube_root 40 0 (N.shiftl p 96)) word_mask) first_primes.

Definition initial_hash : list N := Eval vm_compute in
  map (fun p => N.land (N.sqrt (N.shiftl p 64)) word_mask) (take 8 first_primes).

(** The message schedule is kept newest word first. *)
Fixpoint schedule (n : nat) (w : list N) : list N :=
  match n with
  | O => w
  | S n' =>
      let next := wadd (wadd (ssig1 (nth 1 w 0)) (nth 6 w 0))
                       (wadd (ssig0 (nth 14 w 0)) (nth 15 w 0)) in
      schedule n' (next :: w)
  end.

Definition sha_round (h : list N) (kw : N * N) : list N :=
  match h with
  | [a; b; c; d; e; f; g; hh] =>
      let t1 := wadd (wadd hh (bsig1 e)) (wadd (ch e f g) (wadd (fst kw) (snd kw))) in
      let t2 := wadd (bsig0 a) (maj a b c) in
      [wadd t1 t2; a; b; c; wadd d t1; e; f; g]
  | _ => h
  end.

Definition sha_block (h : list N) (block : list N) : list N :=
  let w := rev (schedule 48 (rev block)) in
  map (fun p => wadd (fst p) (snd p))
      (combine h (fold_left sha_round (combine round_constants w) h)).
End Words.

Definition byte_values (s : string) : list N :=
  map N_of_ascii (list_ascii_of_string s).

(** Big-endian 64-bit length field. *)
Definition length_bytes (bits : N) : list N :=
  map (fun i => N.land (N.shiftr bits i) 255) [56; 48; 40; 32; 24; 16; 8; 0]%N.

Definition sha_pad (m : list N) : list N :=
  let len := List.length m in
  let zeros := ((119 - len mod 64) mod 64)%nat in
  m ++ [128%N] ++ List.repeat 0%N zeros ++ length_bytes (8 * N.of_nat len).

Fixpoint words_of (l : list N) : list N :=
  match l with
  | a :: b :: c :: d :: l' =>
      N.lor (N.lor (N.shiftl a 24) (N.shiftl b 16)) (N.lor (N.shiftl c 8) d) :: words_of l'
  | _ => []
  end.

Fixpoint sha_blocks (fuel : nat) (h ws : list N) : list N :=
  match fuel with
  | O => h
  | S fuel' =>
      match ws with
      | [] => h
      | _ => sha_blocks fuel' (sha_block h (firstn 16 ws)) (skipn 16 ws)
      end
  end.

Definition hex_digit (n : N) : ascii :=
  if (n <? 10)%N then ascii_of_N (48 + n) else ascii_of_N (87 + n).

Fixpoint hex_digits (count : nat) (n : N) (acc : string) : string :=
  match count with
  | O => acc
  | S c => hex_digits c (N.shiftr n 4) (String (hex_digit (N.land n 15)) acc)
  end.

Definition word_hex (n : N) : string := hex_digits 8 n EmptyString.

(** The fuel is the number of words, at least one block more than needed. *)
Definition sha256_hex (s : string) : string :=
  let ws := words_of (sha_pad (byte_values s)) in
  String.concat "" (map word_hex (sha_blocks (List.length ws) initial_hash ws)).

Example sha256_empty :
  sha256_hex "" = "e3b0c44298fc1c149afbf4c8996fb92427ae41e4649b934ca495991b7852b855"%string.
Proof. vm_compute. reflexivity. Qed.

Example sha256_two_blocks :
  sha256_hex "abcdbcdecdefdefgefghfghighijhijkijkljklmklmnlmnomnopnopq"
  = "248d6a61d20638b8e5c026930c3e6039a33ce45964ff2167f6ecedd419db06c1"%string.
Proof. vm_compute. reflexivity. Qed.
