(* ===== verification/PyVal.v ===== *)
(** * Python values that come from JSON

    Induction over the nested values of [Prelude], and their operations: equality,
    truth, lookups and conversions.  Floats are IEEE binary64 numbers, so comparison,
    finiteness and [repr] are the interpreter's, not an approximation. *)

From S2P Require Import Prelude PyDict Text.
From stdpp Require Import pretty.
From Stdlib Require Import String Ascii.
From Corelib Require Import SpecFloat.

#[local] Open Scope string_scope.
#[local] Open Scope bool_scope.
#[local] Open Scope Z_scope.

Abbreviation pydict := (dict pyval).

(** Induction over nested values. *)
Section PyvalInd.
Variable P : pyval -> Prop.
Hypotheses (HNone : P VNone) (HBool : forall b, P (VBool b))
           (HInt : forall z, P (VInt z)) (HFloat : forall f, P (VFloat f))
           (HStr : forall s, P (VStr s))
           (HList : forall l, Forall P l -> P (VList l))
           (HDict : forall d, Forall P (dvalues d) -> P (VDict d)).

Fixpoint pyval_nested_ind (v : pyval) : P v :=
  match v with
  | VNone => HNone
  | VBool b => HBool b
  | VInt z => HInt z
  | VFloat f => HFloat f
  | VStr s => HStr s
  | VList l =>
      HList l ((fix go l : Forall P l :=
        match l with
        | [] => List.Forall_nil P
        | x :: l' => @List.Forall_cons _ P x l' (pyval_nested_ind x) (go l')
        end) l)
  | VDict d =>
      HDict d ((fix go d : Forall P (dvalues d) :=
        match d with
        | [] => List.Forall_nil P
        | (k, x) :: d' => @List.Forall_cons _ P x (dvalues d') (pyval_nested_ind x) (go d')
        end) d)
  end.
End PyvalInd.

(** ** Numbers *)

(** [math.isfinite] *)
Definition fl_finite (f : pyfloat) : bool :=
  match f with S754_zero _ | S754_finite _ _ _ => true | _ => false end.

(** [float(z)]; [None] is CPython's [OverflowError]. *)
Definition float_of_int (z : Z) : option pyfloat :=
  let f := match z with
           | Z0 => S754_zero false
           | _ => binary_normalize 53 1024 z 0 false
           end in
  if fl_finite f then Some f else None.

(** A finite number as an exact dyadic [m * 2^e]. *)
Definition fl_dyadic (f : pyfloat) : Z * Z :=
  match f with
  | S754_finite s m e => (if s then Z.neg m else Z.pos m, e)
  | _ => (0, 0)
  end.

Definition dyadic_compare (x y : Z * Z) : comparison :=
  let e := Z.min (snd x) (snd y) in
  Z.compare (Z.shiftl (fst x) (snd x - e)) (Z.shiftl (fst y) (snd y - e)).

Definition num_finite (n : pynum) : bool :=
  match n with NInt _ => true | NFloat f => fl_finite f end.

(** Comparison of numbers is exact in Python, also between [int] and [float];
    [None] when an operand is NaN. *)
Definition num_compare (x y : pynum) : option comparison :=
  let view n :=
    match n with
    | NInt z => inl (Some (z, 0))
    | NFloat (S754_infinity s) => inr s
    | NFloat S754_nan => inl None
    | NFloat f => inl (Some (fl_dyadic f))
    end in
  match view x, view y with
  | inl None, _ | _, inl None => None
  | inr false, inr false | inr true, inr true => Some Eq
  | inr true, _ | _, inr false => Some Lt
  | inr false, _ | _, inr true => Some Gt
  | inl (Some a), inl (Some b) => Some (dyadic_compare a b)
  end.

Definition num_lt (x y : pynum) : bool :=
  match num_compare x y with Some Lt => true | _ => false end.
Definition num_le (x y : pynum) : bool :=
  match num_compare x y with Some Lt | Some Eq => true | _ => false end.
Definition num_eq (x y : pynum) : bool :=
  match num_compare x y with Some Eq => true | _ => false end.

(** ** [repr] of a float: the shortest decimal that reads back as the number *)
Section FloatRepr.
Fixpoint strip_zeros (fuel : nat) (d k : Z) : Z * Z :=
  match fuel with
  | O => (d, k)
  | S f => if (d mod 10 =? 0)%Z then strip_zeros f (d / 10) (k + 1) else (d, k)
  end.

(** Number of decimal places by which [num/den] must be shifted so that
    [10^(k-1) <= num/den < 10^k]; 400 covers the binary64 range. *)
Fixpoint scale_down (fuel : nat) (num den k : Z) : Z :=
  match fuel with
  | O => k
  | S f => if (num <? den)%Z then k else scale_down f num (den * 10) (k + 1)
  end.
Fixpoint scale_up (fuel : nat) (num den k : Z) : Z :=
  match fuel with
  | O => k
  | S f => if (num * 10 <? den)%Z then scale_up f (num * 10) den (k - 1) else k
  end.
Definition decimal_exponent (num den : Z) : Z :=
  if (num <? den)%Z then scale_up 400 num den 0 else scale_down 400 num den 0.

(** Closest [n]-digit decimal inside the rounding interval, if any: the digits
    [d] and the exponent [x] with value [d * 10^x]. *)
Definition try_digits (num lo hi den k : Z) (closed : bool) (n : Z) : option (Z * Z) :=
  let x := (k - n)%Z in
  let up := if (x <? 0)%Z then (10 ^ (- x))%Z else 1%Z in
  let dn := if (x <? 0)%Z then 1%Z else (10 ^ x)%Z in
  let inside d :=
    let v := (d * den * dn)%Z in
    if closed then ((lo * up <=? v) && (v <=? hi * up))%Z
    else ((lo * up <? v) && (v <? hi * up))%Z in
  let d0 := (num * up / (den * dn))%Z in
  let d1 := (d0 + 1)%Z in
  let rest0 := (num * up - d0 * (den * dn))%Z in
  let rest1 := (d1 * (den * dn) - num * up)%Z in
  let first_down := if (rest0 =? rest1)%Z then Z.even d0 else (rest0 <? rest1)%Z in
  match inside d0, inside d1 with
  | true, true => Some (if first_down then d0 else d1, x)
  | true, false => Some (d0, x)
  | false, true => Some (d1, x)
  | false, false => None
  end.

Fixpoint shortest (fuel : nat) (num lo hi den k : Z) (closed : bool) (n : Z) : Z * Z :=
  match fuel with
  | O => (0, 0)
  | S f =>
      match try_digits num lo hi den k closed n with
      | Some r => r
      | None => shortest f num lo hi den k closed (n + 1)
      end
  end.

(** 17 significant digits always identify a binary64 number. *)
Definition shortest_decimal (m : positive) (e : Z) : Z * Z :=
  let boundary := (Zpos m =? 2 ^ 52)%Z && (-1074 <? e)%Z in
  let shift := (e - 2)%Z in
  let mul := if (shift <? 0)%Z then 1%Z else (2 ^ shift)%Z in
  let den := if (shift <? 0)%Z then (2 ^ (- shift))%Z else 1%Z in
  let num := (4 * Zpos m * mul)%Z in
  let lo := ((4 * Zpos m - (if boundary then 1 else 2)) * mul)%Z in
  let hi := ((4 * Zpos m + 2) * mul)%Z in
  let '(d, x) := shortest 17 num lo hi den (decimal_exponent num den)
                          (Z.even (Zpos m)) 1 in
  strip_zeros 20 d x.

Fixpoint zeros (n : nat) : string :=
  match n with O => "" | S n' => String "0" (zeros n') end.

Definition format_decimal (d x : Z) : string :=
  let s := pretty d in
  let len := Z.of_nat (String.length s) in
  let point := (len + x)%Z in
  if ((-4 <? point) && (point <=? 16))%Z then
    if (point <=? 0)%Z then "0." ++ zeros (Z.to_nat (- point)) ++ s
    else if (len <=? point)%Z then s ++ zeros (Z.to_nat (point - len)) ++ ".0"
    else String.substring 0 (Z.to_nat point) s ++ "." ++
         String.substring (Z.to_nat point) (Z.to_nat (len - point)) s
  else
    let ex := (point - 1)%Z in
    let digits := pretty (Z.abs ex) in
    let mant := if (len =? 1)%Z then s
                else String.substring 0 1 s ++ "." ++
                     String.substring 1 (Z.to_nat (len - 1)) s in
    mant ++ "e" ++ (if (ex <? 0)%Z then "-" else "+") ++
    (if (Z.abs ex <? 10)%Z then "0" else "") ++ digits.

(** [float.__repr__] *)
Definition float_repr (f : pyfloat) : string :=
  match f with
  | S754_zero s => (if s then "-" else "") ++ "0.0"
  | S754_infinity s => (if s then "-" else "") ++ "inf"
  | S754_nan => "nan"
  | S754_finite s m e =>
      let '(d, x) := shortest_decimal m e in
      (if s then "-" else "") ++ format_decimal d x
  end.
End FloatRepr.

(** ** Conversions and tests *)

(** [str(v)].  The text of lists and dicts depends on the Unicode tables behind
    [str.isprintable] and is not described. *)
Definition py_str (v : pyval) : res string :=
  match v with
  | VNone => Ok "None"
  | VBool b => Ok (if b then "True" else "False")
  | VInt z => Ok (pretty z)
  | VFloat f => Ok (float_repr f)
  | VStr s => Ok s
  | VList _ | VDict _ => Err OutsideModel
  end.

(** [bool(v)] *)
Definition truthy (v : pyval) : bool :=
  match v with
  | VNone => false
  | VBool b => b
  | VInt z => negb (z =? 0)%Z
  | VFloat (S754_zero _) => false
  | VFloat _ => true
  | VStr s => nonempty s
  | VList l => negb (bool_decide (l = []))
  | VDict d => negb (bool_decide (d = []))
  end.

(** [v == "literal"] for a value of unknown type *)
Definition is_str (v : pyval) (s : string) : bool :=
  match v with VStr t => String.eqb t s | _ => false end.

(** [d.get(k)]: a missing key reads as [None]. *)
Definition jget (d : pydict) (k : string) : pyval :=
  match dget k d with Some v => v | None => VNone end.

(** [d.get(k, default)] *)
Definition jget_or (d : pydict) (k : string) (default : pyval) : pyval :=
  match dget k d with Some v => v | None => default end.

Lemma jget_or_jget d k v default :
  jget d k = v -> v <> VNone -> jget_or d k default = v.
Proof. unfold jget, jget_or. by destruct (dget k d). Qed.

(** [v is None] *)
(** [None], or the value of what is there *)
Definition opt_value {A} (f : A -> pyval) (o : option A) : pyval :=
  match o with Some x => f x | None => VNone end.

Definition is_none (v : pyval) : bool := match v with VNone => true | _ => false end.

Definition is_dict (v : pyval) : bool := match v with VDict _ => true | _ => false end.

(** [isinstance(v, (int, float)) and not isinstance(v, bool)] *)
Definition as_number (v : pyval) : option pynum :=
  match v with
  | VInt z => Some (NInt z)
  | VFloat f => Some (NFloat f)
  | _ => None
  end.

(** [not isinstance(v, bool) and isinstance(v, (int, float))
    and math.isfinite(float(v))]; converting a huge [int] overflows. *)
Definition finite_number (v : pyval) : res (option pynum) :=
  match as_number v with
  | None => Ok None
  | Some (NInt z) =>
      match float_of_int z with Some _ => Ok (Some (NInt z)) | None => Err OverflowError end
  | Some (NFloat f) => Ok (if fl_finite f then Some (NFloat f) else None)
  end.

(** [list(v)], also the sequence a [for] loop over [v] visits. *)
Definition py_list (v : pyval) : res (list pyval) :=
  match v with
  | VList l => Ok l
  | VStr s => Ok (map VStr (utf8_chars s))
  | VDict d => Ok (map VStr (dkeys d))
  | _ => Err TypeError
  end.

(** One element of the iterable given to [dict(...)]. *)
Definition dict_pair (v : pyval) : res (string * pyval) :=
  match py_list v with
  | Err e => Err e
  | Ok [VStr k; x] => Ok (k, x)
  | Ok [VList _; _] | Ok [VDict _; _] => Err TypeError
  | Ok [_; _] => Err OutsideModel
  | Ok _ => Err ValueError
  end.

(** [dict(v)] *)
Definition py_dict (v : pyval) : res pydict :=
  match v with
  | VDict d => Ok d
  | _ => let! items := py_list v in
         foldM (fun d x => let! kv := dict_pair x in Ok (dset (fst kv) (snd kv) d))
               [] items
  end.

(** [int(v)].  The text accepted by [int] on a string is not described. *)
Definition py_int (v : pyval) : res Z :=
  match v with
  | VBool b => Ok (if b then 1 else 0)
  | VInt z => Ok z
  | VFloat S754_nan => Err ValueError
  | VFloat (S754_infinity _) => Err OverflowError
  | VFloat f => let (m, e) := fl_dyadic f in
                Ok (if 0 <=? e then Z.shiftl m e else Z.quot m (Z.shiftl 1 (- e)))
  | VStr _ => Err OutsideModel
  | VNone | VList _ | VDict _ => Err TypeError
  end.

(** [v in {"a", ...}]: hashing a list or a dict raises. *)
Definition in_str_set (v : pyval) (l : list string) : res bool :=
  match v with
  | VStr s => Ok (mem_str s l)
  | VList _ | VDict _ => Err TypeError
  | _ => Ok false
  end.

(** [type(a) is type(b)] *)
Definition same_type (a b : pyval) : bool :=
  match a, b with
  | VNone, VNone | VBool _, VBool _ | VInt _, VInt _ | VFloat _, VFloat _
  | VStr _, VStr _ | VList _, VList _ | VDict _, VDict _ => true
  | _, _ => false
  end.

(** [a == b] for scalars of the same type (NaN differs from itself and the two
    zeros are equal). *)
Definition scalar_eq (a b : pyval) : bool :=
  match a, b with
  | VNone, VNone => true
  | VBool x, VBool y => Bool.eqb x y
  | VInt x, VInt y => (x =? y)%Z
  | VFloat x, VFloat y => num_eq (NFloat x) (NFloat y)
  | VStr x, VStr y => String.eqb x y
  | _, _ => false
  end.

(** A number as [==] compares it: [True] is [1]. *)
Definition eq_number (v : pyval) : option pynum :=
  match v with
  | VBool b => Some (NInt (if b then 1 else 0))
  | VInt z => Some (NInt z)
  | VFloat f => Some (NFloat f)
  | _ => None
  end.

(** [a == b] on JSON values: numbers by value across their types, lists and dicts
    by content. *)
Fixpoint py_eq (a b : pyval) {struct a} : bool :=
  match a, b with
  | VNone, VNone => true
  | VStr s, VStr t => String.eqb s t
  | VList l, VList m =>
      (fix all (l m : list pyval) : bool :=
         match l, m with
         | [], [] => true
         | x :: l', y :: m' => py_eq x y && all l' m'
         | _, _ => false
         end) l m
  | VDict d, VDict e =>
      (Z.of_nat (List.length d) =? Z.of_nat (List.length e)) &&
      (fix all (d : pydict) : bool :=
         match d with
         | [] => true
         | (k, x) :: d' =>
             match dget k e with Some y => py_eq x y | None => false end && all d'
         end) d
  | _, _ =>
      match eq_number a, eq_number b with
      | Some x, Some y => num_eq x y
      | _, _ => false
      end
  end.

Definition fl (m e : Z) : pyfloat := binary_normalize 53 1024 m e false.

Example repr_examples :
  map float_repr [fl 3602879701896397 (-55); fl 1 53; fl 1 70; fl 1 (-1074);
                  fl (-123456789) (-1); S754_zero true; fl 7555786372591432 (-76)]
  = ["0.1"; "9007199254740992.0"; "1.1805916207174113e+21"; "5e-324";
     "-61728394.5"; "-0.0"; "1e-07"].
Proof. vm_compute. reflexivity. Qed.

Lemma is_str_spec v s : is_str v s = true <-> v = VStr s.
Proof.
  destruct v; simpl; try (split; congruence). rewrite String.eqb_eq. naive_solver.
Qed.

(** A dyadic as a multiple of [2^k], for any [k] not above its exponent. *)
Definition scaled (k : Z) (x : Z * Z) : Z := fst x * 2 ^ (snd x - k).

Lemma dyadic_compare_scaled k x y :
  k <= snd x -> k <= snd y -> dyadic_compare x y = Z.compare (scaled k x) (scaled k y).
Proof.
  intros Hx Hy. unfold dyadic_compare, scaled.
  set (e := Z.min (snd x) (snd y)).
  rewrite !Z.shiftl_mul_pow2 by lia.
  replace (snd x - k) with ((snd x - e) + (e - k)) by lia.
  replace (snd y - k) with ((snd y - e) + (e - k)) by lia.
  rewrite !Z.pow_add_r, !Z.mul_assoc by lia.
  apply Zmult_compare_compat_r.
  apply Z.lt_gt, Z.pow_pos_nonneg; lia.
Qed.

Lemma dyadic_compare_antisym x y : dyadic_compare y x = CompOpp (dyadic_compare x y).
Proof.
  rewrite !(dyadic_compare_scaled (Z.min (snd x) (snd y))) by lia. apply Z.compare_antisym.
Qed.

Lemma dyadic_compare_refl x : dyadic_compare x x = Eq.
Proof. rewrite (dyadic_compare_scaled (snd x)) by lia. apply Z.compare_refl. Qed.

(** The order of dyadics is a total preorder. *)
Lemma dyadic_le_trans x y z :
  dyadic_compare x y <> Gt -> dyadic_compare y z <> Gt -> dyadic_compare x z <> Gt.
Proof.
  set (k := Z.min (snd x) (Z.min (snd y) (snd z))).
  rewrite !(dyadic_compare_scaled k) by lia.
  rewrite !Z.compare_le_iff. lia.
Qed.

Lemma dyadic_eq_trans x y z :
  dyadic_compare x y = Eq -> dyadic_compare y z = Eq -> dyadic_compare x z = Eq.
Proof.
  set (k := Z.min (snd x) (Z.min (snd y) (snd z))).
  rewrite !(dyadic_compare_scaled k) by lia.
  rewrite !Z.compare_eq_iff. congruence.
Qed.

Definition num_dyadic (n : pynum) : Z * Z :=
  match n with NInt z => (z, 0) | NFloat f => fl_dyadic f end.

Lemma num_compare_finite x y :
  num_finite x = true -> num_finite y = true ->
  num_compare x y = Some (dyadic_compare (num_dyadic x) (num_dyadic y)).
Proof. destruct x as [|[]], y as [|[]]; done. Qed.

Lemma num_eq_refl x : num_finite x = true -> num_eq x x = true.
Proof.
  intros H. unfold num_eq. by rewrite num_compare_finite, dyadic_compare_refl.
Qed.

Lemma num_eq_sym x y :
  num_finite x = true -> num_finite y = true -> num_eq x y = num_eq y x.
Proof.
  intros Hx Hy. unfold num_eq. rewrite !num_compare_finite by done.
  rewrite (dyadic_compare_antisym (num_dyadic x)). by destruct (dyadic_compare _ _).
Qed.

Lemma num_eq_trans x y z :
  num_finite x = true -> num_finite y = true -> num_finite z = true ->
  num_eq x y = true -> num_eq y z = true -> num_eq x z = true.
Proof.
  intros Hx Hy Hz. unfold num_eq. rewrite !num_compare_finite by done.
  destruct (dyadic_compare (num_dyadic x) _) eqn:E1; try done.
  destruct (dyadic_compare (num_dyadic y) _) eqn:E2; try done.
  by rewrite (dyadic_eq_trans _ _ _ E1 E2).
Qed.

(** On comparable (non-NaN) finite numbers [x < y] is [not (y <= x)]. *)
Lemma num_lt_le_negb x y :
  num_finite x = true -> num_finite y = true -> num_lt x y = negb (num_le y x).
Proof.
  intros Hx Hy. unfold num_lt, num_le. rewrite !num_compare_finite by done.
  rewrite (dyadic_compare_antisym (num_dyadic x)). by destruct (dyadic_compare _ _).
Qed.

Lemma num_le_trans x y z :
  num_finite x = true -> num_finite y = true -> num_finite z = true ->
  num_le x y = true -> num_le y z = true -> num_le x z = true.
Proof.
  intros Hx Hy Hz. unfold num_le. rewrite !num_compare_finite by done. intros Hxy Hyz.
  pose proof (dyadic_le_trans (num_dyadic x) (num_dyadic y) (num_dyadic z)) as H.
  destruct (dyadic_compare (num_dyadic x) (num_dyadic z)); try done.
  destruct H; [by destruct (dyadic_compare _ _) | by destruct (dyadic_compare (num_dyadic y) _)
              | done].
Qed.

Lemma num_le_int x y : num_le (NInt x) (NInt y) = (x <=? y)%Z.
Proof.
  unfold num_le, num_compare, dyadic_compare. simpl. rewrite !Z.shiftl_0_r.
  unfold Z.leb. by destruct (x ?= y)%Z.
Qed.

Lemma num_lt_int x y : num_lt (NInt x) (NInt y) = (x <? y)%Z.
Proof.
  unfold num_lt, num_compare, dyadic_compare. simpl. rewrite !Z.shiftl_0_r.
  unfold Z.ltb. by destruct (x ?= y)%Z.
Qed.
