(* ===== verification/PyNum.v ===== *)
(** * Arithmetic on Python numbers

    [+], [-], [*], [/], [min] and [max] of [int] and [float] as the interpreter
    computes them: exact on integers, IEEE binary64 as soon as a float is involved.
    The lemmas bound the result of a rounded operation, which is what time-outs and
    delays computed in floats need. *)

From S2P Require Import Prelude PyVal.
From Corelib Require Import SpecFloat.

#[local] Open Scope bool_scope.
#[local] Open Scope Z_scope.

(** [float(n)]; a huge [int] overflows. *)
Definition num_float (n : pynum) : res pyfloat :=
  match n with
  | NInt z => match float_of_int z with Some f => Ok f | None => Err OverflowError end
  | NFloat f => Ok f
  end.

Definition num_arith (on_int : Z -> Z -> Z) (on_float : pyfloat -> pyfloat -> pyfloat)
    (x y : pynum) : res pynum :=
  match x, y with
  | NInt a, NInt b => Ok (NInt (on_int a b))
  | _, _ => let! a := num_float x in let! b := num_float y in Ok (NFloat (on_float a b))
  end.

Definition fl_add : pyfloat -> pyfloat -> pyfloat := SFadd 53 1024.
Definition fl_sub : pyfloat -> pyfloat -> pyfloat := SFsub 53 1024.
Definition fl_mul : pyfloat -> pyfloat -> pyfloat := SFmul 53 1024.
Definition fl_div : pyfloat -> pyfloat -> pyfloat := SFdiv 53 1024.

Definition num_add : pynum -> pynum -> res pynum := num_arith Z.add fl_add.
Definition num_sub : pynum -> pynum -> res pynum := num_arith Z.sub fl_sub.
Definition num_mul : pynum -> pynum -> res pynum := num_arith Z.mul fl_mul.

(** [min(x, y)] and [max(x, y)]: the first argument unless the second is better. *)
Definition py_min (x y : pynum) : pynum := if num_lt y x then y else x.
Definition py_max (x y : pynum) : pynum := if num_lt x y then y else x.

Example ints_are_exact : num_mul (NInt (2 ^ 60)) (NInt 3) = Ok (NInt (3 * 2 ^ 60)).
Proof. reflexivity. Qed.
Example tenth_plus_fifth :
  num_add (NFloat (fl 3602879701896397 (-55))) (NFloat (fl 3602879701896397 (-54)))
  = Ok (NFloat (fl 1351079888211149 (-52))).
Proof. reflexivity. Qed.
Example huge_int_overflows : num_mul (NInt (2 ^ 1024)) (NFloat (fl 1 (-1))) = Err OverflowError.
Proof. vm_compute. reflexivity. Qed.

(** ** Size of a rounded result *)

Lemma digits_lower p : 2 ^ (Zpos (digits2_pos p) - 1) <= Zpos p.
Proof.
  induction p as [p IH|p IH|]; [| |done]; cbn [digits2_pos];
    rewrite Pos2Z.inj_succ; replace (Z.succ (Zpos (digits2_pos p)) - 1)
      with (Z.succ (Zpos (digits2_pos p) - 1)) by lia;
    rewrite Z.pow_succ_r by lia; lia.
Qed.

Lemma digits_upper p : Zpos p < 2 ^ Zpos (digits2_pos p).
Proof.
  induction p as [p IH|p IH|]; [| |done]; cbn [digits2_pos];
    rewrite Pos2Z.inj_succ, Z.pow_succ_r by lia; lia.
Qed.

(** The number of digits is bounded by any power of two above the number. *)
Lemma digits_le p d : Zpos p < 2 ^ d -> Zpos (digits2_pos p) <= d.
Proof.
  intros H. pose proof (digits_lower p) as Hl.
  destruct (Z.le_gt_cases (Zpos (digits2_pos p)) d) as [|Hgt]; [done|].
  exfalso. assert (2 ^ d <= 2 ^ (Zpos (digits2_pos p) - 1)); [|lia].
  apply Z.pow_le_mono_r; lia.
Qed.

(** Shifting right divides the mantissa and never makes it negative. *)
Lemma iter_shr n : forall mrs, 0 <= shr_m mrs ->
  0 <= shr_m (iter_pos shr_1 n mrs) /\ 2 ^ Zpos n * shr_m (iter_pos shr_1 n mrs) <= shr_m mrs.
Proof.
  assert (H1 : forall mrs, 0 <= shr_m mrs ->
            0 <= shr_m (shr_1 mrs) /\ 2 * shr_m (shr_1 mrs) <= shr_m mrs).
  { intros [[|[p|p|]|[p|p|]] r s]; cbn; lia. }
  assert (H2 : forall n, 2 ^ Zpos n~0 = 2 ^ Zpos n * 2 ^ Zpos n).
  { intros k. rewrite <- Z.pow_add_r by lia. f_equal. lia. }
  assert (H3 : forall n, 2 ^ Zpos n~1 = 2 * (2 ^ Zpos n * 2 ^ Zpos n)).
  { intros k. rewrite <- Z.pow_add_r, <- Z.pow_succ_r by lia. f_equal. lia. }
  induction n as [n IH|n IH|]; cbn [iter_pos]; intros mrs H.
  - destruct (H1 mrs H) as [A1 B1]. destruct (IH _ A1) as [A2 B2]. destruct (IH _ A2) as [A3 B3].
    split; [done|]. rewrite H3. nia.
  - destruct (IH _ H) as [A2 B2]. destruct (IH _ A2) as [A3 B3]. split; [done|].
    rewrite H2. nia.
  - destruct (H1 mrs H). split; [done|]. by rewrite Z.pow_1_r.
Qed.

(** [shr_fexp] moves the exponent to at least [fexp]; mantissa times power of two
    does not grow. *)
Lemma shr_fexp_bound m e l d mrs e' :
  0 <= m < 2 ^ d -> 0 <= d -> shr_fexp 53 1024 m e l = (mrs, e') ->
  e <= e' <= Z.max e (Z.max (d + e - 53) (-1074)) /\
  exists d', 0 <= d' /\ 0 <= shr_m mrs < 2 ^ d' /\ d' + e' <= Z.max (d + e) e'.
Proof.
  intros Hm Hd. unfold shr_fexp, shr.
  assert (Hdig : Zdigits2 m <= d).
  { destruct m as [|p|p]; [done| |lia]. apply digits_le. lia. }
  assert (Hrec : shr_m (shr_record_of_loc m l) = m) by (by destruct l as [|[]]).
  assert (Hfexp : fexp 53 1024 (Zdigits2 m + e) <= Z.max (d + e - 53) (-1074))
    by (unfold fexp, emin; lia).
  destruct (fexp 53 1024 (Zdigits2 m + e) - e) as [|n|n] eqn:En; intros [= <- <-].
  - split; [lia|]. exists d. rewrite Hrec. lia.
  - destruct (iter_shr n (shr_record_of_loc m l)) as [A B]; [lia|]. rewrite Hrec in B.
    split; [lia|]. exists (Z.max 0 (d - Zpos n)). split; [lia|]. split; [split; [done|]|lia].
    apply Z.mul_lt_mono_pos_l with (p := 2 ^ Zpos n); [lia|].
    apply Z.le_lt_trans with m; [done|]. rewrite <- Z.pow_add_r by lia.
    apply Z.lt_le_trans with (2 ^ d); [lia|]. apply Z.pow_le_mono_r; lia.
  - split; [lia|]. exists d. rewrite Hrec. lia.
Qed.

(** A nonnegative float below [2^d] whose exponent is below [d], or a zero *)
Definition small (d : Z) (f : pyfloat) : Prop :=
  match f with
  | S754_zero _ => True
  | S754_finite false m e => Zpos (digits2_pos m) + e <= d /\ e <= d
  | _ => False
  end.

Lemma small_le d d' f : d <= d' -> small d f -> small d' f.
Proof. destruct f as [| | |[]]; simpl; try done. lia. Qed.

Lemma small_finite d f : small d f -> fl_finite f = true.
Proof. by destruct f. Qed.

(** Rounding a positive number below [2^d] gives a float below [2^(d+1)]. *)
Lemma round_small m e l d :
  Zpos (digits2_pos m) + e <= d -> e <= d -> -1000 <= d <= 900 ->
  small (d + 1) (binary_round_aux 53 1024 false (Zpos m) e l).
Proof.
  intros Hm He Hd. unfold binary_round_aux.
  destruct (shr_fexp 53 1024 (Zpos m) e l) as [mrs e'] eqn:E1.
  apply (shr_fexp_bound _ _ _ (Zpos (digits2_pos m))) in E1 as (B1 & d1 & Hd1 & M1 & S1);
    [|pose proof (digits_upper m); lia|lia].
  set (m' := round_nearest_even (shr_m mrs) (loc_of_shr_record mrs)).
  assert (Hm' : 0 <= m' < 2 ^ (d1 + 1)).
  { rewrite Z.pow_add_r, Z.pow_1_r by lia. unfold m', round_nearest_even.
    destruct (loc_of_shr_record mrs) as [|[]]; try destruct (Z.even _); lia. }
  destruct (shr_fexp 53 1024 m' e' loc_Exact) as [mrs2 e2] eqn:E2.
  apply (shr_fexp_bound _ _ _ (d1 + 1)) in E2 as (B2 & d2 & Hd2 & M2 & S2); [|done|lia].
  destruct (shr_m mrs2) as [|p|p] eqn:Ep; [done| |lia].
  pose proof (digits_le p d2) as Hp. rewrite (proj2 (Z.leb_le _ _)) by lia. cbn. lia.
Qed.

(** Aligning a mantissa to a smaller exponent keeps the number. *)
Lemma shl_align_value m e e' :
  let '(m', e2) := shl_align m e e' in
  e2 <= e /\ Zpos m' = Zpos m * 2 ^ (e - e2) /\ (e' <= e -> e2 = e').
Proof.
  assert (Hiter : forall n, Zpos (Pos.iter xO m n) = Zpos m * 2 ^ Zpos n).
  { induction n as [|n IH] using Pos.peano_ind; [cbn; lia|].
    rewrite Pos.iter_succ, Pos2Z.inj_succ, Z.pow_succ_r by lia. lia. }
  unfold shl_align. destruct (e' - e) as [|n|n] eqn:E;
    rewrite ?Z.sub_diag, ?Z.mul_1_r; [lia|lia|].
  rewrite Hiter. replace (e - e') with (Zpos n) by lia. lia.
Qed.

Lemma digits_scaled m m' k d :
  Zpos m' = Zpos m * 2 ^ k -> 0 <= k -> Zpos (digits2_pos m) + k <= d ->
  Zpos (digits2_pos m') <= d.
Proof.
  intros Hm Hk Hd. transitivity (Zpos (digits2_pos m) + k); [|done].
  apply digits_le. rewrite Hm, Z.pow_add_r by lia.
  apply Z.mul_lt_mono_pos_r; [lia|]. apply digits_upper.
Qed.

Lemma normalize_small m e d :
  0 <= m -> (m = 0 \/ m < 2 ^ (d - e)) -> e <= d -> -1000 <= d <= 900 ->
  small (d + 1) (binary_normalize 53 1024 m e false).
Proof.
  intros Hm Hlt He Hd. destruct m as [|p|p]; [done| |lia]. destruct Hlt as [|Hlt]; [done|].
  apply digits_le in Hlt. cbn [binary_normalize]. unfold binary_round.
  pose proof (shl_align_value p e (fexp 53 1024 (Zpos (digits2_pos p) + e))) as Ha.
  destruct (shl_align p e _) as [p' e'] eqn:Ea. destruct Ha as (H1 & H2 & _).
  apply round_small; [|lia|done].
  enough (Zpos (digits2_pos p') <= d - e') by lia.
  eapply digits_scaled; [exact H2|lia|lia].
Qed.

(** *** Products and sums of bounded nonnegative floats *)
Lemma small_mul d d' x y :
  small d x -> small d' y -> -1000 <= d + d' <= 900 -> small (d + d' + 1) (fl_mul x y).
Proof.
  destruct x as [|sx| |sx mx ex], y as [|sy| |sy my ey]; simpl; try done;
    try destruct sx; try destruct sy; try done.
  intros [H1 H2] [H3 H4] H. cbn [fl_mul]. apply round_small; [|lia|done].
  enough (Zpos (digits2_pos (mx * my)) <= d + d' - (ex + ey)) by lia.
  transitivity (Zpos (digits2_pos mx) + Zpos (digits2_pos my)); [|lia].
  apply digits_le. rewrite Pos2Z.inj_mul, Z.pow_add_r by lia.
  apply Z.mul_lt_mono_nonneg; try apply digits_upper; lia.
Qed.

Lemma aligned_small m e ez d :
  Zpos (digits2_pos m) + e <= d -> ez <= e -> Zpos (fst (shl_align m e ez)) < 2 ^ (d - ez).
Proof.
  intros Hd Hz. pose proof (shl_align_value m e ez) as Ha.
  destruct (shl_align m e ez) as [m' e']. destruct Ha as (_ & Hv & He). cbn.
  specialize (He Hz) as ->. pose proof (digits_upper m).
  rewrite Hv. apply Z.lt_le_trans with (2 ^ (Zpos (digits2_pos m) + (e - ez))).
  - rewrite Z.pow_add_r by lia. apply Z.mul_lt_mono_pos_r; lia.
  - apply Z.pow_le_mono_r; lia.
Qed.

Lemma small_add d x y :
  small d x -> small d y -> -1000 <= d <= 800 -> small (d + 2) (fl_add x y).
Proof.
  intros Hx Hy Hd. assert (Hx' := small_le d (d + 2) x ltac:(lia) Hx).
  assert (Hy' := small_le d (d + 2) y ltac:(lia) Hy).
  destruct x as [sx|sx| |[] mx ex], y as [sy|sy| |[] my ey]; try done; [by destruct sx, sy|].
  destruct Hx as [H1 H2], Hy as [H3 H4]. cbn [fl_add SFadd cond_Zopp].
  replace (d + 2) with (d + 1 + 1) by lia.
  pose proof (aligned_small mx ex (Z.min ex ey) d H1 ltac:(lia)).
  pose proof (aligned_small my ey (Z.min ex ey) d H3 ltac:(lia)).
  apply normalize_small; [lia| |lia|lia]. right.
  replace (d + 1 - Z.min ex ey) with (Z.succ (d - Z.min ex ey)) by lia.
  rewrite Z.pow_succ_r by lia. lia.
Qed.

(** ** Nonnegative floats, infinity included *)
Definition nonneg (f : pyfloat) : Prop :=
  match f with S754_zero _ | S754_infinity false | S754_finite false _ _ => True | _ => False end.

Lemma small_nonneg d f : small d f -> nonneg f.
Proof. by destruct f as [| | |[]]. Qed.

Lemma nonneg_mul x y :
  nonneg x -> nonneg y -> fl_finite x = true -> fl_finite y = true -> nonneg (fl_mul x y).
Proof.
  destruct x as [|[]| |[] mx ex], y as [|[]| |[] my ey]; try done. intros _ _ _ _.
  cbn [fl_mul SFmul xorb]. unfold binary_round_aux.
  destruct (shr_fexp 53 1024 (Zpos (mx * my)) _ _) as [mrs e'] eqn:E1.
  apply (shr_fexp_bound _ _ _ (Zpos (digits2_pos (mx * my)))) in E1 as (_ & d1 & Hd1 & M1 & _);
    [|pose proof (digits_upper (mx * my)); lia|lia].
  set (m' := round_nearest_even (shr_m mrs) (loc_of_shr_record mrs)).
  assert (Hm' : 0 <= m' < 2 ^ (d1 + 1)).
  { rewrite Z.pow_add_r, Z.pow_1_r by lia. unfold m', round_nearest_even.
    destruct (loc_of_shr_record mrs) as [|[]]; try destruct (Z.even _); lia. }
  destruct (shr_fexp 53 1024 m' e' loc_Exact) as [mrs2 e2] eqn:E2.
  apply (shr_fexp_bound _ _ _ (d1 + 1)) in E2 as (_ & d2 & _ & M2 & _); [|done|lia].
  destruct (shr_m mrs2) as [|p|p]; [done| |lia]. by destruct (e2 <=? _).
Qed.

Lemma nonneg_spec f : fl_finite f = true -> nonneg f <-> num_le (NInt 0) (NFloat f) = true.
Proof.
  intros Hf. unfold num_le. rewrite num_compare_finite by done.
  rewrite (dyadic_compare_scaled (Z.min 0 (snd (num_dyadic (NFloat f))))) by (simpl; lia).
  destruct f as [| | |[] m e]; try done; unfold scaled; cbn [num_dyadic fl_dyadic fst snd nonneg];
    set (k := 2 ^ (e - _)); rewrite Z.mul_0_l;
    assert (0 < k) by (apply Z.pow_pos_nonneg; lia); split; try done.
  - replace (0 ?= Z.neg m * k) with Gt; [done|]. symmetry. apply Z.compare_gt_iff. nia.
  - replace (0 ?= Z.pos m * k) with Lt; [done|]. symmetry. apply Z.compare_lt_iff. nia.
Qed.

(** A float between 0 and 1 *)
Definition unit_float (f : pyfloat) : Prop :=
  fl_finite f = true /\ nonneg f /\ num_le (NFloat f) (NInt 1) = true.

Lemma unit_mantissa m e : unit_float (S754_finite false m e) ->
  Zpos m * 2 ^ (e - Z.min e 0) <= 2 ^ (- Z.min e 0).
Proof.
  intros (_ & _ & H). unfold num_le in H. rewrite num_compare_finite in H by done.
  rewrite (dyadic_compare_scaled (Z.min e 0)) in H by (simpl; lia).
  unfold scaled in H. cbn [num_dyadic fl_dyadic fst snd] in H.
  rewrite Z.mul_1_l in H. replace (0 - Z.min e 0) with (- Z.min e 0) in H by lia.
  destruct (_ ?= _) eqn:E in H; try done; [apply Z.compare_eq in E; lia|].
  apply Z.lt_le_incl. exact E.
Qed.

Lemma unit_small f : unit_float f -> small 1 f.
Proof.
  destruct f as [| | |[] m e]; try (intros (? & ? & _); done). intros H.
  apply unit_mantissa in H. destruct (Z.le_gt_cases 0 e) as [He|He].
  - rewrite Z.min_r in H by lia. rewrite Z.sub_0_r in H. cbn in H.
    assert (e = 0 /\ m = 1%positive) as [-> ->]; [|done].
    destruct (Z.eq_dec e 0) as [->|]; [split; [done|lia]|].
    pose proof (Z.pow_le_mono_r 2 1 e). nia.
  - rewrite Z.min_l, Z.sub_diag, Z.mul_1_r in H by lia. split; [|lia].
    enough (Zpos (digits2_pos m) <= 1 - e) by lia. apply digits_le.
    replace (1 - e) with (Z.succ (- e)) by lia. rewrite Z.pow_succ_r by lia.
    pose proof (Z.pow_pos_nonneg 2 (- e)). lia.
Qed.

(** [1 - f] for a float between 0 and 1 *)
Definition fl_one : pyfloat := S754_finite false 4503599627370496 (-52).

Lemma one_minus_small f : unit_float f -> small 3 (fl_sub fl_one f).
Proof.
  intros Hf. pose proof (unit_small f Hf) as Hs.
  destruct f as [s|s| |[] m e]; try done. destruct Hs as [H1 H2].
  apply unit_mantissa in Hf. cbn [fl_sub fl_one SFsub cond_Zopp].
  set (ez := Z.min (-52) e). fold ez.
  pose proof (aligned_small 4503599627370496 (-52) ez 1 ltac:(done) ltac:(lia)) as A.
  pose proof (shl_align_value 4503599627370496 (-52) ez) as V1.
  pose proof (shl_align_value m e ez) as V2.
  destruct (shl_align 4503599627370496 (-52) ez) as [m1 e1], (shl_align m e ez) as [m2 e2].
  cbn [fst] in *. destruct V1 as (_ & V1 & E1), V2 as (_ & V2 & E2).
  specialize (E1 ltac:(lia)) as ->. specialize (E2 ltac:(lia)) as ->.
  apply (small_le 2); [lia|]. apply (normalize_small _ _ 1); [|lia|lia|lia].
  enough (Zpos m2 <= Zpos m1) by lia. rewrite V1, V2.
  replace 4503599627370496 with (2 ^ 52) by done. rewrite <- Z.pow_add_r by lia.
  replace (e - ez) with ((e - Z.min e 0) + (Z.min e 0 - ez)) by lia.
  replace (52 + (-52 - ez)) with (- Z.min e 0 + (Z.min e 0 - ez)) by lia.
  rewrite !Z.pow_add_r, Z.mul_assoc by lia. apply Z.mul_le_mono_nonneg_r; lia.
Qed.

Lemma num_lt_le x y : num_lt x y = true -> num_le x y = true.
Proof. unfold num_lt, num_le. by destruct (num_compare x y) as [[]|]. Qed.

(** A number strictly between two finite ones is finite. *)
Lemma num_lt_between x y z :
  num_lt x y = true -> num_lt y z = true -> num_finite x = true -> num_finite z = true ->
  num_finite y = true.
Proof. destruct x as [|[]], y as [|[|[]| |]], z as [|[]]; done. Qed.
