(* ===== verification/Json.v ===== *)
(** * JSON text

    [json.dumps(v, ensure_ascii=False, sort_keys=True, separators=(",", ":"))]:
    the canonical text the program hashes, and the strict-JSON test
    ([allow_nan=False]). *)

From S2P Require Import Prelude PyDict Text Sha256 PyVal.
From stdpp Require Import pretty.
From Stdlib Require Import String Ascii.
From Corelib Require Import SpecFloat.

#[local] Open Scope string_scope.

Definition quote : string := bytes [34%N].
Definition backslash : string := bytes [92%N].

Definition json_escape_char (c : ascii) : string :=
  let n := N_of_ascii c in
  if N.eqb n 34 then backslash ++ quote
  else if N.eqb n 92 then backslash ++ backslash
  else if N.eqb n 10 then backslash ++ "n"
  else if N.eqb n 13 then backslash ++ "r"
  else if N.eqb n 9 then backslash ++ "t"
  else if N.eqb n 8 then backslash ++ "b"
  else if N.eqb n 12 then backslash ++ "f"
  else if N.ltb n 32 then backslash ++ "u" ++ hex_digits 4 n ""
  else String c "".

Fixpoint json_escape (s : string) : string :=
  match s with
  | EmptyString => ""
  | String c s' => json_escape_char c ++ json_escape s'
  end.

Definition json_string (s : string) : string := quote ++ json_escape s ++ quote.

Definition json_float (f : pyfloat) : string :=
  match f with
  | S754_nan => "NaN"
  | S754_infinity s => if s then "-Infinity" else "Infinity"
  | _ => float_repr f
  end.

(** Keys sort by code point, which is the byte order of their UTF-8 text. *)
Fixpoint insert_key {V : Type} (kv : string * V) (l : list (string * V)) : list (string * V) :=
  match l with
  | [] => [kv]
  | kv' :: l' =>
      if String.leb (fst kv) (fst kv') then kv :: l else kv' :: insert_key kv l'
  end.
Definition sort_keys {V : Type} (l : list (string * V)) : list (string * V) :=
  foldr insert_key [] l.

Fixpoint json_canonical (v : pyval) : string :=
  match v with
  | VNone => "null"
  | VBool b => if b then "true" else "false"
  | VInt z => pretty z
  | VFloat f => json_float f
  | VStr s => json_string s
  | VList l => "[" ++ str_join "," (map json_canonical l) ++ "]"
  | VDict d =>
      "{" ++ str_join "," (map (fun kv => json_string (fst kv) ++ ":" ++ snd kv)
                           (sort_keys (map (fun kv => (fst kv, json_canonical (snd kv))) d)))
      ++ "}"
  end.

(** [json.dumps(v, allow_nan=False)] succeeds. *)
Fixpoint strict_json (v : pyval) : bool :=
  match v with
  | VFloat f => fl_finite f
  | VList l => forallb strict_json l
  | VDict d => forallb (fun kv => strict_json (snd kv)) d
  | _ => true
  end.

Definition json_digest (v : pyval) : string := sha256_hex (json_canonical v).

Example json_canonical_example :
  json_canonical (VDict [("b", VList [VNone; VBool true; VInt (-7)]);
                         ("a", VStr (bytes [34; 10; 1]%N))])
  = "{" ++ quote ++ "a" ++ quote ++ ":" ++ quote ++ backslash ++ quote ++ backslash
    ++ "n" ++ backslash ++ "u0001" ++ quote ++ "," ++ quote ++ "b" ++ quote
    ++ ":[null,true,-7]}".
Proof. vm_compute. reflexivity. Qed.
