(* ===== verification/JsonParse.v ===== *)
(** * Reading JSON

    [json.loads] on a string, as an executable function.  Every syntax error is
    [ValueError] ([json.JSONDecodeError] is a subclass).  Numbers with a fraction
    or an exponent, the literals [NaN] and [Infinity], and escapes that denote
    lone surrogates are outside the model. *)

From S2P Require Import Prelude PyDict Text PyVal Json.
From Stdlib Require Import String Ascii.

#[local] Open Scope string_scope.
#[local] Open Scope bool_scope.
#[local] Open Scope Z_scope.

Definition code (c : ascii) : Z := Z.of_N (N_of_ascii c).
Definition chr (n : Z) : ascii := ascii_of_N (Z.to_N n).

Definition json_space (c : ascii) : bool :=
  (code c =? 32) || (code c =? 9) || (code c =? 10) || (code c =? 13).

Fixpoint skip_space (s : string) : string :=
  match s with
  | String c s' => if json_space c then skip_space s' else s
  | EmptyString => s
  end.

Definition digit (c : ascii) : option Z :=
  let n := code c in if (48 <=? n) && (n <=? 57) then Some (n - 48) else None.

Definition hex_digit (c : ascii) : option Z :=
  let n := code c in
  if (48 <=? n) && (n <=? 57) then Some (n - 48)
  else if (97 <=? n) && (n <=? 102) then Some (n - 87)
  else if (65 <=? n) && (n <=? 70) then Some (n - 55)
  else None.

(** The digits at the front of [s], accumulated, and the rest. *)
Fixpoint digits (acc : Z) (s : string) : Z * string :=
  match s with
  | String c s' =>
      match digit c with Some d => digits (10 * acc + d) s' | None => (acc, s) end
  | EmptyString => (acc, s)
  end.

Definition hex4 (s : string) : option (Z * string) :=
  match s with
  | String a (String b (String c (String d s'))) =>
      match hex_digit a, hex_digit b, hex_digit c, hex_digit d with
      | Some a, Some b, Some c, Some d => Some (((a * 16 + b) * 16 + c) * 16 + d, s')
      | _, _, _, _ => None
      end
  | _ => None
  end.

(** UTF-8 of one code point *)
Definition utf8_encode (n : Z) : string :=
  if n <? 128 then String (chr n) ""
  else if n <? 2048 then
    String (chr (192 + n / 64)) (String (chr (128 + n mod 64)) "")
  else if n <? 65536 then
    String (chr (224 + n / 4096))
      (String (chr (128 + (n / 64) mod 64)) (String (chr (128 + n mod 64)) ""))
  else
    String (chr (240 + n / 262144))
      (String (chr (128 + (n / 4096) mod 64))
        (String (chr (128 + (n / 64) mod 64)) (String (chr (128 + n mod 64)) ""))).

Definition surrogate (n : Z) : bool := (55296 <=? n) && (n <=? 57343).

(** A [\uXXXX] escape, with its second half if it opens a surrogate pair. *)
Definition unicode_escape (s : string) : res (string * string) :=
  match hex4 s with
  | None => Err ValueError
  | Some (n, s1) =>
      if negb (surrogate n) then Ok (utf8_encode n, s1) else
      match s1 with
      | String b (String u s2) =>
          if (code b =? 92) && (code u =? 117) then
            match hex4 s2 with
            | Some (m, s3) =>
                if (n <? 56320) && (56320 <=? m) && (m <=? 57343)
                then Ok (utf8_encode (65536 + (n - 55296) * 1024 + (m - 56320)), s3)
                else Err OutsideModel
            | None => Err ValueError
            end
          else Err OutsideModel
      | _ => Err OutsideModel
      end
  end.

(** The characters of the two-character escapes. *)
Definition simple_escape (c : ascii) : option ascii :=
  let n := code c in
  if n =? 34 then Some (chr 34) else if n =? 92 then Some (chr 92)
  else if n =? 47 then Some (chr 47) else if n =? 98 then Some (chr 8)
  else if n =? 102 then Some (chr 12) else if n =? 110 then Some (chr 10)
  else if n =? 114 then Some (chr 13) else if n =? 116 then Some (chr 9)
  else None.

(** A string literal after its opening quote. *)
Fixpoint parse_string (fuel : nat) (s : string) : res (string * string) :=
  match fuel with
  | O => Err ValueError
  | S fuel' =>
      match s with
      | EmptyString => Err ValueError
      | String c s' =>
          if code c =? 34 then Ok ("", s') else
          if code c <? 32 then Err ValueError else
          if code c =? 92 then
            match s' with
            | EmptyString => Err ValueError
            | String e s'' =>
                let! piece :=
                  if code e =? 117 then unicode_escape s''
                  else match simple_escape e with
                       | Some x => Ok (String x "", s'')
                       | None => Err ValueError
                       end in
                let! rest := parse_string fuel' (snd piece) in
                Ok (fst piece ++ fst rest, snd rest)
            end
          else let! rest := parse_string fuel' s' in Ok (String c (fst rest), snd rest)
      end
  end.

(** An integer literal; what follows must not make it a float. *)
Definition parse_number (s : string) : res (pyval * string) :=
  let (negative, s) := match s with
                       | String c s' => if code c =? 45 then (true, s') else (false, s)
                       | EmptyString => (false, s)
                       end in
  match s with
  | String c s' =>
      match digit c with
      | None => if code c =? 73 then Err OutsideModel else Err ValueError
      | Some d =>
          let (n, rest) := if d =? 0 then (0, s') else digits d s' in
          match rest with
          | String c' _ =>
              if (code c' =? 46) || (code c' =? 101) || (code c' =? 69)
              then Err OutsideModel else Ok (VInt (if negative then - n else n), rest)
          | EmptyString => Ok (VInt (if negative then - n else n), rest)
          end
      end
  | EmptyString => Err ValueError
  end.

Definition drop_literal (literal : string) (v : pyval) (s : string) : res (pyval * string) :=
  if starts_with literal s
  then Ok (v, substring (String.length literal) (String.length s) s) else Err ValueError.

Fixpoint parse_value (fuel : nat) (s : string) : res (pyval * string) :=
  match fuel with
  | O => Err ValueError
  | S fuel' =>
      match s with
      | EmptyString => Err ValueError
      | String c s' =>
          if code c =? 34 then
            let! r := parse_string (String.length s) s' in Ok (VStr (fst r), snd r)
          else if code c =? 123 then
            match skip_space s' with
            | String c1 s1 =>
                if code c1 =? 125 then Ok (VDict [], s1)
                else let! r := parse_members fuel' [] (skip_space s') in
                     Ok (VDict (fst r), snd r)
            | EmptyString => Err ValueError
            end
          else if code c =? 91 then
            match skip_space s' with
            | String c1 s1 =>
                if code c1 =? 93 then Ok (VList [], s1)
                else let! r := parse_elements fuel' [] (skip_space s') in
                     Ok (VList (fst r), snd r)
            | EmptyString => Err ValueError
            end
          else if code c =? 110 then drop_literal "null" VNone s
          else if code c =? 116 then drop_literal "true" (VBool true) s
          else if code c =? 102 then drop_literal "false" (VBool false) s
          else if code c =? 78 then Err OutsideModel
          else if code c =? 73 then Err OutsideModel
          else parse_number s
      end
  end
with parse_members (fuel : nat) (d : pydict) (s : string) : res (pydict * string) :=
  match fuel with
  | O => Err ValueError
  | S fuel' =>
      match s with
      | String c s' =>
          if negb (code c =? 34) then Err ValueError else
          let! key := parse_string (String.length s) s' in
          match skip_space (snd key) with
          | String c1 s1 =>
              if negb (code c1 =? 58) then Err ValueError else
              let! v := parse_value fuel' (skip_space s1) in
              let d := dset (fst key) (fst v) d in
              match skip_space (snd v) with
              | String c2 s2 =>
                  if code c2 =? 125 then Ok (d, s2)
                  else if code c2 =? 44 then parse_members fuel' d (skip_space s2)
                  else Err ValueError
              | EmptyString => Err ValueError
              end
          | EmptyString => Err ValueError
          end
      | EmptyString => Err ValueError
      end
  end
with parse_elements (fuel : nat) (l : list pyval) (s : string) : res (list pyval * string) :=
  match fuel with
  | O => Err ValueError
  | S fuel' =>
      let! v := parse_value fuel' s in
      let l := (l ++ [fst v])%list in
      match skip_space (snd v) with
      | String c2 s2 =>
          if code c2 =? 93 then Ok (l, s2)
          else if code c2 =? 44 then parse_elements fuel' l (skip_space s2)
          else Err ValueError
      | EmptyString => Err ValueError
      end
  end.

(** [json.loads(s)].  Every recursive call consumes a character, two calls at
    most per character, so the fuel is enough. *)
Definition json_loads (s : string) : res pyval :=
  let! r := parse_value (2 * String.length s + 2) (skip_space s) in
  match skip_space (snd r) with
  | EmptyString => Ok (fst r)
  | _ => Err ValueError
  end.

Example json_loads_scope :
  json_loads (json_canonical (VDict [("claimType", VStr "write_reconcile"); ("entityId", VStr "w 1");
     ("operationId", VNone); ("sessionId", VStr (bytes [34; 92; 10; 0xC3; 0xA9]%N));
     ("n", VList [VInt (-120); VBool true; VDict []])]))
  = Ok (VDict [("claimType", VStr "write_reconcile"); ("entityId", VStr "w 1");
     ("n", VList [VInt (-120); VBool true; VDict []]);
     ("operationId", VNone); ("sessionId", VStr (bytes [34; 92; 10; 0xC3; 0xA9]%N))]).
Proof. vm_compute. reflexivity. Qed.
