(* ===== verification/Runtime.v ===== *)
(** * Runtime state machine  (src/.../runtime/{states,events,invariants,reducer,projection}.py,
      session/replay.py, session/store.py)

    The run of an agent as a fold over runtime events.  [reduce_runtime_state] is
    the reducer, branch by branch; [validate_runtime_transition] its guard;
    [replay_runtime_events] the reconstruction from a log; [append_cas] the
    compare-and-swap of the in-memory runtime store. *)

From S2P Require Import Prelude PyDict Text PyVal.
From Stdlib Require Import String.

#[local] Open Scope string_scope.
#[local] Open Scope bool_scope.
#[local] Open Scope Z_scope.

(** ** States *)

Inductive RunPhase :=
| idle | running | routing | requesting_model | executing_tools | retrying
| compacting | waiting_approval | phase_outcome_unknown | completed | failed
| cancelled | suspended.

Inductive ToolCallPhase :=
| queued | executing | retry_backoff | succeeded | tool_failed | timed_out
| tool_cancelled | tool_outcome_unknown.

#[export] Instance RunPhase_eq_dec : EqDecision RunPhase.
Proof. solve_decision. Defined.
#[export] Instance ToolCallPhase_eq_dec : EqDecision ToolCallPhase.
Proof. solve_decision. Defined.

Definition terminal_run_phase (p : RunPhase) : bool :=
  match p with completed | failed | cancelled | suspended => true | _ => false end.

Definition terminal_tool_phase (p : ToolCallPhase) : bool :=
  match p with
  | succeeded | tool_failed | timed_out | tool_cancelled | tool_outcome_unknown => true
  | queued | executing | retry_backoff => false
  end.

Record ToolCallState := mkToolCallState {
  tc_id : string;
  tc_name : string;
  tc_phase : ToolCallPhase;
  tc_retry_attempt : Z;
  tc_error_code : option string
}.

Definition tool_terminal (t : ToolCallState) : bool := terminal_tool_phase (tc_phase t).

Record RunState := mkRunState {
  rs_phase : RunPhase;
  rs_run_id : option string;
  rs_sequence : Z;
  rs_turn : Z;
  rs_model_retry_attempt : Z;
  rs_tools : dict ToolCallState;
  rs_failure_code : option string;
  rs_routing_status : option string;
  rs_last_event : option string
}.

(** [RunState()] *)
Definition initial_run_state : RunState :=
  mkRunState idle None (-1) 0 0 [] None None None.

Definition run_terminal (s : RunState) : bool := terminal_run_phase (rs_phase s).

Definition active_tool_count (s : RunState) : Z :=
  Z.of_nat (List.length (List.filter (fun t => negb (tool_terminal t)) (dvalues (rs_tools s)))).

(** Field setters, for [dataclasses.replace]. *)
Definition set_phase (p : RunPhase) (s : RunState) : RunState :=
  mkRunState p (rs_run_id s) (rs_sequence s) (rs_turn s) (rs_model_retry_attempt s)
    (rs_tools s) (rs_failure_code s) (rs_routing_status s) (rs_last_event s).
Definition set_turn (n : Z) (s : RunState) : RunState :=
  mkRunState (rs_phase s) (rs_run_id s) (rs_sequence s) n (rs_model_retry_attempt s)
    (rs_tools s) (rs_failure_code s) (rs_routing_status s) (rs_last_event s).
Definition set_model_retry (n : Z) (s : RunState) : RunState :=
  mkRunState (rs_phase s) (rs_run_id s) (rs_sequence s) (rs_turn s) n
    (rs_tools s) (rs_failure_code s) (rs_routing_status s) (rs_last_event s).
Definition set_tools (ts : dict ToolCallState) (s : RunState) : RunState :=
  mkRunState (rs_phase s) (rs_run_id s) (rs_sequence s) (rs_turn s)
    (rs_model_retry_attempt s) ts (rs_failure_code s) (rs_routing_status s) (rs_last_event s).
Definition set_failure (c : option string) (s : RunState) : RunState :=
  mkRunState (rs_phase s) (rs_run_id s) (rs_sequence s) (rs_turn s)
    (rs_model_retry_attempt s) (rs_tools s) c (rs_routing_status s) (rs_last_event s).
Definition set_routing (c : option string) (s : RunState) : RunState :=
  mkRunState (rs_phase s) (rs_run_id s) (rs_sequence s) (rs_turn s)
    (rs_model_retry_attempt s) (rs_tools s) (rs_failure_code s) c (rs_last_event s).
Definition set_last (n : Z) (ty : string) (s : RunState) : RunState :=
  mkRunState (rs_phase s) (rs_run_id s) n (rs_turn s) (rs_model_retry_attempt s)
    (rs_tools s) (rs_failure_code s) (rs_routing_status s) (Some ty).

(** ** Events *)

Definition RUNTIME_EVENT_TYPES : list string :=
  ["run_started"; "run_finished"; "run_interrupted"; "routing_started";
   "routing_finished"; "turn_started"; "turn_finished"; "model_request_started";
   "model_response_finished"; "model_retry_scheduled"; "model_retry_attempt_started";
   "model_retry_finished"; "context_compaction_started"; "context_compaction_finished";
   "tool_started"; "tool_dispatch_started"; "tool_retry_scheduled";
   "tool_retry_attempt_started"; "tool_retry_finished"; "tool_finished";
   "approval_required"; "approval_granted"; "approval_rejected"; "outcome_unknown";
   "reconciliation_started"; "reconciliation_finished"; "budget_exceeded"].

Definition known_event_type (ty : string) : bool :=
  existsb (String.eqb ty) RUNTIME_EVENT_TYPES.

Record RuntimeEvent := mkRuntimeEvent {
  re_type : string;
  re_run_id : string;
  re_sequence : Z;
  re_timestamp : Z;
  re_data : pydict
}.

(** [RuntimeEvent.__post_init__] on the arguments of the constructor *)
Definition runtime_event (ty run_id : string) (sequence timestamp : Z) (data : pydict)
  : res RuntimeEvent :=
  if negb (nonempty run_id) then Err ValueError else
  if sequence <? 0 then Err ValueError else
  if timestamp <? 0 then Err ValueError else
  Ok (mkRuntimeEvent ty run_id sequence timestamp data).

Definition runtime_event_to_dict (e : RuntimeEvent) : pydict :=
  [("type", VStr (re_type e)); ("runId", VStr (re_run_id e));
   ("sequence", VInt (re_sequence e)); ("timestamp", VInt (re_timestamp e));
   ("data", VDict (re_data e))].

Definition runtime_event_from_dict (value : pyval) : res RuntimeEvent :=
  match value with
  | VDict d =>
      match jget d "type" with
      | VStr ty =>
          if negb (known_event_type ty) then Err ValueError else
          match jget d "runId", jget d "sequence", jget d "timestamp",
                jget_or d "data" (VDict []) with
          | VStr run_id, VInt sequence, VInt timestamp, VDict data =>
              runtime_event ty run_id sequence timestamp data
          | _, _, _, _ => Err ValueError
          end
      | _ => Err ValueError
      end
  | _ => Err ValueError
  end.

(** ** Guards *)

Definition invariant_error {A : Type} (code : string) : res A :=
  Err (RuntimeInvariantError code).

Definition startable_phase (p : RunPhase) : bool :=
  match p with idle | completed | failed | cancelled | suspended => true | _ => false end.

Definition tool_event (ty : string) : bool :=
  existsb (String.eqb ty)
    ["tool_dispatch_started"; "tool_retry_scheduled"; "tool_retry_attempt_started";
     "tool_retry_finished"; "tool_finished"].

(** The check that a tool event names a known, unfinished Tool Call. *)
Definition validate_tool_event (s : RunState) (e : RuntimeEvent) : res unit :=
  if tool_event (re_type e) then
    match jget (re_data e) "toolCallId" with
    | VStr id =>
        match dget id (rs_tools s) with
        | Some t => if tool_terminal t then invariant_error "tool_event_after_terminal"
                    else Ok tt
        | None => invariant_error "unknown_tool_call"
        end
    | _ => invariant_error "unknown_tool_call"
    end
  else Ok tt.

Definition validate_runtime_transition (s : RunState) (e : RuntimeEvent) : res unit :=
  if negb (re_sequence e =? rs_sequence s + 1) then invariant_error "non_consecutive_event" else
  if String.eqb (re_type e) "run_started" then
    if startable_phase (rs_phase s) then Ok tt else invariant_error "run_already_active"
  else
  match rs_run_id s with
  | None => invariant_error "no_active_run"
  | Some run_id =>
      if negb (String.eqb (re_run_id e) run_id) then invariant_error "run_id_mismatch" else
      if run_terminal s then invariant_error "event_after_terminal" else
      check! validate_tool_event s e in
      if (String.eqb (re_type e) "approval_granted" || String.eqb (re_type e) "approval_rejected")
         && negb (bool_decide (rs_phase s = waiting_approval))
      then invariant_error "approval_not_waiting" else
      Ok tt
  end.

(** ** The reducer *)

Definition required_text (data : pydict) (key : string) : res string :=
  match jget data key with
  | VStr s => if nonempty s then Ok s else invariant_error "invalid_event_data"
  | _ => invariant_error "invalid_event_data"
  end.

Definition positive_int (v : pyval) : res Z :=
  match v with
  | VInt z => if z <? 1 then invariant_error "invalid_event_data" else Ok z
  | _ => invariant_error "invalid_event_data"
  end.

Definition update_tool (s : RunState) (e : RuntimeEvent) (phase : ToolCallPhase)
    (retry_attempt : option Z) : res RunState :=
  let! id := required_text (re_data e) "toolCallId" in
  match dget id (rs_tools s) with
  | None => Err KeyError
  | Some current =>
      let updated := mkToolCallState (tc_id current) (tc_name current) phase
        (match retry_attempt with None => tc_retry_attempt current | Some n => n end)
        (tc_error_code current) in
      Ok (s |> set_phase executing_tools |> set_tools (dset id updated (rs_tools s)))
  end.

Definition on_model_response (base : RunState) (data : pydict) : res RunState :=
  let stop := jget data "stopReason" in
  let! failure :=
    if is_str stop "error" then
      let! code := py_str (jget_or data "errorCode" (VStr "model_error")) in
      Ok (Some code)
    else if is_str stop "aborted" then Ok (Some "cancelled")
    else if is_str stop "length" then Ok (Some "model_output_truncated")
    else Ok (rs_failure_code base) in
  Ok (base |> set_phase running |> set_failure failure).

Definition on_model_retry_finished (base : RunState) (data : pydict) : res RunState :=
  match jget data "success" with
  | VBool false =>
      let! code := py_str (jget_or data "finalError" (VStr "model_retry_failed")) in
      Ok (base |> set_phase running |> set_failure (Some code))
  | _ => Ok (base |> set_phase requesting_model)
  end.

Definition on_tool_started (s base : RunState) (data : pydict) : res RunState :=
  let! id := required_text data "toolCallId" in
  if dmem id (rs_tools s) then invariant_error "duplicate_tool_start" else
  let! name := required_text data "toolName" in
  let tool := mkToolCallState id name queued 0 None in
  Ok (base |> set_phase executing_tools |> set_tools (dset id tool (rs_tools s))).

Definition finished_tool_phase (success : bool) (error_code : option string) : ToolCallPhase :=
  if success then succeeded else
  match error_code with
  | Some c => if String.eqb c "tool_timeout" then timed_out
              else if String.eqb c "tool_cancelled" then tool_cancelled
              else if String.eqb c "outcome_unknown" then tool_outcome_unknown
              else tool_failed
  | None => tool_failed
  end.

Definition on_tool_finished (s base : RunState) (data : pydict) : res RunState :=
  let! id := required_text data "toolCallId" in
  match dget id (rs_tools s) with
  | None => Err KeyError
  | Some current =>
      let success := match jget data "success" with VBool true => true | _ => false end in
      let! error_code :=
        if success then Ok None else
        let! c := py_str (jget_or data "errorCode" (VStr "tool_error")) in Ok (Some c) in
      let tool := mkToolCallState (tc_id current) (tc_name current)
        (finished_tool_phase success error_code) (tc_retry_attempt current) error_code in
      let tools := dset id tool (rs_tools s) in
      let active := existsb (fun t => negb (tool_terminal t)) (dvalues tools) in
      Ok (base |> set_phase (if active then executing_tools else running) |> set_tools tools)
  end.

Definition finished_run_phase (outcome : pyval) (failure_code : option string) : RunPhase :=
  if is_str outcome "completed" && bool_decide (failure_code = None) then completed
  else if is_str outcome "cancelled" || bool_decide (failure_code = Some "cancelled")
  then cancelled else failed.

Definition on_run_finished (s base : RunState) (data : pydict) : res RunState :=
  let phase := finished_run_phase (jget data "outcome") (rs_failure_code base) in
  if bool_decide (phase = completed)
     && existsb (fun t => negb (tool_terminal t)) (dvalues (rs_tools s))
  then invariant_error "unfinished_tools_at_completion" else
  Ok (base |> set_phase phase).

(** Dispatch on the event type, after the guard; [base] already carries the new
    sequence number. *)
Definition apply_runtime_event (s base : RunState) (e : RuntimeEvent) : res RunState :=
  let ty := re_type e in
  let data := re_data e in
  if String.eqb ty "run_started" then
    Ok (mkRunState running (Some (re_run_id e)) (re_sequence e) 0 0 [] None None (Some ty))
  else if String.eqb ty "run_interrupted" then
    Ok (base |> set_phase suspended |> set_failure (Some "process_interrupted"))
  else if String.eqb ty "routing_started" then
    Ok (base |> set_phase routing |> set_routing None)
  else if String.eqb ty "routing_finished" then
    let! status := required_text data "status" in
    Ok (base |> set_phase running |> set_routing (Some status))
  else if String.eqb ty "turn_started" then
    let! turn := positive_int (jget data "turn") in
    Ok (base |> set_phase requesting_model |> set_turn turn |> set_model_retry 0)
  else if String.eqb ty "model_request_started" then Ok (base |> set_phase requesting_model)
  else if String.eqb ty "model_response_finished" then on_model_response base data
  else if String.eqb ty "model_retry_scheduled" then
    let! attempt := positive_int (jget data "attempt") in
    Ok (base |> set_phase retrying |> set_model_retry attempt)
  else if String.eqb ty "model_retry_attempt_started" then Ok (base |> set_phase requesting_model)
  else if String.eqb ty "model_retry_finished" then on_model_retry_finished base data
  else if String.eqb ty "context_compaction_started" then Ok (base |> set_phase compacting)
  else if String.eqb ty "context_compaction_finished" then Ok (base |> set_phase requesting_model)
  else if String.eqb ty "tool_started" then on_tool_started s base data
  else if String.eqb ty "tool_dispatch_started" then
    let! attempt := positive_int (jget data "attempt") in
    update_tool base e executing (Some (attempt - 1))
  else if String.eqb ty "tool_retry_scheduled" then
    let! attempt := positive_int (jget data "attempt") in
    update_tool base e retry_backoff (Some attempt)
  else if String.eqb ty "tool_retry_attempt_started" then update_tool base e executing None
  else if String.eqb ty "tool_retry_finished" then update_tool base e executing None
  else if String.eqb ty "tool_finished" then on_tool_finished s base data
  else if String.eqb ty "turn_finished" then Ok (base |> set_phase running)
  else if String.eqb ty "approval_required" then Ok (base |> set_phase waiting_approval)
  else if String.eqb ty "approval_granted" then Ok (base |> set_phase running)
  else if String.eqb ty "approval_rejected" then
    Ok (base |> set_phase running |> set_failure (Some "approval_rejected"))
  else if String.eqb ty "outcome_unknown" then
    Ok (base |> set_phase phase_outcome_unknown |> set_failure (Some "outcome_unknown"))
  else if String.eqb ty "reconciliation_started" then Ok (base |> set_phase phase_outcome_unknown)
  else if String.eqb ty "reconciliation_finished" then
    let success := match jget data "success" with VBool true => true | _ => false end in
    Ok (base |> set_phase running
             |> set_failure (if success then None else Some "reconciliation_failed"))
  else if String.eqb ty "budget_exceeded" then
    Ok (base |> set_phase running |> set_failure (Some "budget_exceeded"))
  else if String.eqb ty "run_finished" then on_run_finished s base data
  else invariant_error "unknown_runtime_event".

Definition reduce_runtime_state (s : RunState) (e : RuntimeEvent) : res RunState :=
  check! validate_runtime_transition s e in
  apply_runtime_event s (s |> set_last (re_sequence e) (re_type e)) e.

(** ** Replay and store *)

Definition replay_runtime_events (events : list RuntimeEvent) : res RunState :=
  foldM reduce_runtime_state initial_run_state (sort_by re_sequence events).

Definition last_sequence (events : list RuntimeEvent) : Z :=
  match last events with Some e => re_sequence e | None => -1 end.

(** [InMemoryRuntimeEventStore.append_cas] on the list of stored events *)
Definition append_cas (events : list RuntimeEvent) (e : RuntimeEvent) (expected : Z)
  : res (list RuntimeEvent) :=
  let current := last_sequence events in
  if negb (current =? expected) || negb (re_sequence e =? current + 1)
  then Err RuntimeStoreConflictError
  else Ok (events ++ [e])%list.

(** [InMemoryRuntimeEventStore.append] *)
Definition store_append (events : list RuntimeEvent) (e : RuntimeEvent)
  : res (list RuntimeEvent) := append_cas events e (last_sequence events).

(** ** Projection for UI and logs *)

Definition run_phase_text (p : RunPhase) : string :=
  match p with
  | idle => "idle" | running => "running" | routing => "routing"
  | requesting_model => "requesting_model" | executing_tools => "executing_tools"
  | retrying => "retrying" | compacting => "compacting"
  | waiting_approval => "waiting_approval" | phase_outcome_unknown => "outcome_unknown"
  | completed => "completed" | failed => "failed" | cancelled => "cancelled"
  | suspended => "suspended"
  end.

Definition tool_phase_text (p : ToolCallPhase) : string :=
  match p with
  | queued => "queued" | executing => "executing" | retry_backoff => "retry_backoff"
  | succeeded => "succeeded" | tool_failed => "failed" | timed_out => "timed_out"
  | tool_cancelled => "cancelled" | tool_outcome_unknown => "outcome_unknown"
  end.

Definition PHASE_LABELS (p : RunPhase) : string :=
  match p with
  | idle => "空闲" | running => "运行中" | routing => "正在理解和路由请求"
  | requesting_model => "正在请求模型" | executing_tools => "正在执行工具"
  | retrying => "正在等待模型重试" | compacting => "正在压缩上下文"
  | waiting_approval => "等待审批" | phase_outcome_unknown => "操作结果待核对"
  | completed => "已完成" | failed => "失败" | cancelled => "已取消"
  | suspended => "已挂起，等待恢复"
  end.

Definition opt_str (o : option string) : pyval :=
  match o with Some s => VStr s | None => VNone end.

Definition project_tool (t : ToolCallState) : pyval :=
  VDict [("toolCallId", VStr (tc_id t)); ("toolName", VStr (tc_name t));
         ("phase", VStr (tool_phase_text (tc_phase t)));
         ("retryAttempt", VInt (tc_retry_attempt t)); ("errorCode", opt_str (tc_error_code t))].

Definition project_runtime_state (s : RunState) : pydict :=
  [("runId", opt_str (rs_run_id s)); ("phase", VStr (run_phase_text (rs_phase s)));
   ("phaseLabel", VStr (PHASE_LABELS (rs_phase s))); ("terminal", VBool (run_terminal s));
   ("turn", VInt (rs_turn s)); ("modelRetryAttempt", VInt (rs_model_retry_attempt s));
   ("activeToolCount", VInt (active_tool_count s));
   ("tools", VList (map project_tool (dvalues (rs_tools s))));
   ("failureCode", opt_str (rs_failure_code s)); ("routingStatus", opt_str (rs_routing_status s));
   ("lastEvent", opt_str (rs_last_event s)); ("sequence", VInt (rs_sequence s))].

(** ** The step relation the reducer implements *)

(** What a finished or unfinished tool records about its error. *)
Definition tool_ok (t : ToolCallState) : Prop :=
  if tool_terminal t then (tc_phase t = succeeded <-> tc_error_code t = None)
  else tc_error_code t = None.

Definition tool_keyed (id : string) (t : ToolCallState) : Prop :=
  tc_id t = id /\ id <> "" /\ tc_name t <> "" /\ 0 <= tc_retry_attempt t /\ tool_ok t.

(** A tool entry may appear, or move on while it is unfinished; its identity
    never changes. *)
Definition tool_edge (old : option ToolCallState) (t : ToolCallState) : Prop :=
  match old with
  | None => tc_phase t = queued
  | Some t0 => tool_terminal t0 = false /\ tc_id t = tc_id t0 /\ tc_name t = tc_name t0
  end.

(** Phases a run may be in between its start and its outcome. *)
Definition flow_phase (p : RunPhase) : bool :=
  match p with idle | completed | failed | cancelled => false | _ => true end.
Definition outcome_phase (p : RunPhase) : bool :=
  match p with completed | failed | cancelled => true | _ => false end.

Inductive run_step (s : RunState) (e : RuntimeEvent) (s' : RunState) : Prop :=
| step_start :
    startable_phase (rs_phase s) = true ->
    re_type e = "run_started" ->
    s' = mkRunState running (Some (re_run_id e)) (re_sequence e) 0 0 [] None None
           (Some "run_started") ->
    run_step s e s'
| step_flow :
    run_terminal s = false -> rs_run_id s = Some (re_run_id e) ->
    rs_run_id s' = rs_run_id s -> rs_tools s' = rs_tools s ->
    flow_phase (rs_phase s') = true ->
    0 <= rs_turn s' \/ rs_turn s' = rs_turn s ->
    run_step s e s'
| step_tool id t :
    run_terminal s = false -> rs_run_id s = Some (re_run_id e) ->
    rs_run_id s' = rs_run_id s -> rs_tools s' = dset id t (rs_tools s) ->
    (rs_phase s' = executing_tools \/ rs_phase s' = running) -> rs_turn s' = rs_turn s ->
    id <> "" -> tool_edge (dget id (rs_tools s)) t ->
    (forall t0, dget id (rs_tools s) = Some t0 -> tool_keyed id t0 -> tool_keyed id t) ->
    (dget id (rs_tools s) = None -> tool_keyed id t) ->
    run_step s e s'
| step_finish :
    run_terminal s = false -> rs_run_id s = Some (re_run_id e) ->
    rs_run_id s' = rs_run_id s -> rs_tools s' = rs_tools s ->
    outcome_phase (rs_phase s') = true -> rs_turn s' = rs_turn s ->
    (rs_phase s' = completed ->
     rs_failure_code s' = None /\ Forall (fun t => tool_terminal t = true) (dvalues (rs_tools s'))) ->
    re_type e = "run_finished" ->
    run_step s e s'.

Lemma required_text_Ok data key v :
  required_text data key = Ok v -> jget data key = VStr v /\ v <> "".
Proof.
  unfold required_text. intros H. res_inv H. split; [done | by apply nonempty_spec].
Qed.

Lemma positive_int_Ok v n : positive_int v = Ok n -> v = VInt n /\ 1 <= n.
Proof. unfold positive_int. intros H. res_inv H. split; [done | lia]. Qed.

Lemma validate_Ok s e :
  validate_runtime_transition s e = Ok tt ->
  re_sequence e = rs_sequence s + 1 /\
  (re_type e = "run_started" /\ startable_phase (rs_phase s) = true \/
   re_type e <> "run_started" /\ rs_run_id s = Some (re_run_id e) /\
   run_terminal s = false /\ validate_tool_event s e = Ok tt).
Proof.
  unfold validate_runtime_transition. intros H.
  destruct (re_sequence e =? rs_sequence s + 1) eqn:Hseq; [|done].
  apply Z.eqb_eq in Hseq. split; [done|]. simpl in H.
  destruct (String.eqb_spec (re_type e) "run_started") as [Ht|Ht].
  - left. split; [done|]. by destruct (startable_phase _).
  - right. destruct (rs_run_id s) as [r|]; [|done].
    destruct (String.eqb_spec (re_run_id e) r) as [->|]; [|done].
    destruct (run_terminal s); [done|]. simpl in H.
    by destruct (validate_tool_event s e) as [[]|].
Qed.

(** A tool event that passes the guard names an unfinished tool. *)
Lemma validate_tool_event_Ok s e id :
  validate_tool_event s e = Ok tt -> tool_event (re_type e) = true ->
  jget (re_data e) "toolCallId" = VStr id ->
  exists t, dget id (rs_tools s) = Some t /\ tool_terminal t = false.
Proof.
  unfold validate_tool_event. intros H Ht Hid. rewrite Ht, Hid in H.
  destruct (dget id (rs_tools s)) as [t|]; [|done]. exists t.
  by destruct (tool_terminal t).
Qed.

Lemma update_tool_step s e s' phase attempt sq ty :
  validate_tool_event s e = Ok tt -> tool_event (re_type e) = true ->
  terminal_tool_phase phase = false ->
  (forall n, attempt = Some n -> 0 <= n) ->
  run_terminal s = false -> rs_run_id s = Some (re_run_id e) ->
  update_tool (set_last sq ty s) e phase attempt = Ok s' ->
  run_step s e s'.
Proof.
  intros Hv Ht Hph Hat Hterm Hrun H. unfold update_tool in H. res_inv H.
  apply required_text_Ok in E as [Hid Hne]. simpl in *.
  destruct (validate_tool_event_Ok _ _ _ Hv Ht Hid) as (t0 & Ht0 & Hnt).
  rewrite Ht0 in E0. simplify_eq.
  eapply step_tool with (id := a) (t := mkToolCallState _ _ phase _ _);
    simpl; rewrite ?Ht0; try done; [by left|].
  intros t1 Ht1 (? & ? & ? & ? & Hok). simplify_eq.
    unfold tool_keyed, tool_ok, tool_terminal in *. simpl. rewrite Hph, Hnt in *.
    destruct attempt; naive_solver.
Qed.

Lemma tool_started_step s s' e sq ty :
  run_terminal s = false -> rs_run_id s = Some (re_run_id e) ->
  on_tool_started s (set_last sq ty s) (re_data e) = Ok s' -> run_step s e s'.
Proof.
  intros Hterm Hrun H. unfold on_tool_started in H. res_inv H.
  apply required_text_Ok in E as [_ Hne], E1 as [_ Hname].
  unfold dmem in E0. destruct (dget a (rs_tools s)) eqn:Hget; [done|].
  eapply step_tool with (id := a) (t := mkToolCallState _ _ queued _ _);
    simpl; rewrite ?Hget; try done. by left.
Qed.

Lemma finished_phase_ok success code :
  (success = true <-> code = None) ->
  terminal_tool_phase (finished_tool_phase success code) = true /\
  (finished_tool_phase success code = succeeded <-> code = None).
Proof.
  intros Hs. unfold finished_tool_phase.
  destruct success; [naive_solver|]. destruct code as [c|]; [|naive_solver].
  repeat case_match; naive_solver.
Qed.

Lemma tool_finished_step s s' e sq ty :
  validate_tool_event s e = Ok tt -> tool_event (re_type e) = true ->
  run_terminal s = false -> rs_run_id s = Some (re_run_id e) ->
  on_tool_finished s (set_last sq ty s) (re_data e) = Ok s' -> run_step s e s'.
Proof.
  intros Hv Ht Hterm Hrun H. unfold on_tool_finished in H.
  destruct (required_text _ _) as [id|] eqn:Eid; [|done]. simpl in H.
  apply required_text_Ok in Eid as [Hid Hne].
  destruct (validate_tool_event_Ok _ _ _ Hv Ht Hid) as (t0 & Ht0 & Hnt).
  rewrite Ht0 in H.
  set (success := match jget (re_data e) "success" with VBool true => true | _ => false end) in *.
  match type of H with rbind ?m _ = _ => destruct m as [code|] eqn:Ecode end; [|done].
  assert (Hs : success = true <-> code = None).
  { destruct success; [naive_solver|]. res_inv Ecode. naive_solver. }
  destruct (finished_phase_ok _ _ Hs) as [Hterm' Hok].
  simpl in H. simplify_eq.
  eapply step_tool with (id := id)
    (t := mkToolCallState (tc_id t0) (tc_name t0) (finished_tool_phase success code)
            (tc_retry_attempt t0) code); simpl; rewrite ?Ht0; try done.
  - destruct (existsb _ _); auto.
  - intros t1 Ht1 (? & ? & ? & ? & _). simplify_eq. unfold tool_keyed, tool_ok, tool_terminal.
    simpl. rewrite Hterm'. done.
Qed.

Lemma run_finished_step s s' e sq ty :
  run_terminal s = false -> rs_run_id s = Some (re_run_id e) ->
  re_type e = "run_finished" ->
  on_run_finished s (set_last sq ty s) (re_data e) = Ok s' -> run_step s e s'.
Proof.
  intros Hterm Hrun Hty H. unfold on_run_finished in H. simpl in H.
  set (phase := finished_run_phase _ _) in *.
  destruct (bool_decide _ && _) eqn:Hchk; [done|]. simplify_eq.
  apply step_finish; simpl; try done.
  - subst phase. unfold finished_run_phase. by repeat case_match.
  - intros Hp. rewrite bool_decide_true in Hchk by done. simpl in Hchk. split.
    + subst phase. unfold finished_run_phase in Hp. repeat case_match; try done.
      match goal with H : _ && _ = true |- _ =>
        apply andb_true_iff in H as [_ H]; by apply bool_decide_eq_true in H end.
    + apply Forall_forall. intros t Hin.
      rewrite existsb_elem in Hchk. specialize (Hchk t Hin).
      by apply negb_false_iff in Hchk.
Qed.

Ltac flow_step :=
  apply step_flow; simpl;
  [done|done|done|done|done|first [by right | left; lia]].

Ltac tool_step H :=
  eapply update_tool_step; [| | | | | | exact H];
  [done | by (match goal with E : re_type _ = _ |- _ => rewrite E end)
  | done | naive_solver lia | done | done].

(** Every accepted event is a step of the relation. *)
Lemma reduce_run_step s e s' : reduce_runtime_state s e = Ok s' -> run_step s e s'.
Proof.
  unfold reduce_runtime_state. intros H.
  destruct (validate_runtime_transition s e) as [[]|] eqn:Hval; [|done]. simpl in H.
  apply validate_Ok in Hval as [_ Hcase].
  unfold apply_runtime_event in H. eqb_cases H.
  all: destruct Hcase as [[Hs Hst]|(Hs & Hrun & Hterm & Hv)]; try congruence.
  all: try done; try (simplify_eq; flow_step).
  - simplify_eq. apply step_start; [done | done | congruence].
  - res_inv H. flow_step.
  - res_inv H. apply positive_int_Ok in E as [_ ?]. flow_step.
  - unfold on_model_response in H. res_inv H; flow_step.
  - res_inv H. flow_step.
  - unfold on_model_retry_finished in H. res_inv H; flow_step.
  - by eapply tool_started_step.
  - res_inv H. apply positive_int_Ok in E as [_ ?]. tool_step H.
  - res_inv H. apply positive_int_Ok in E as [_ ?]. tool_step H.
  - tool_step H.
  - tool_step H.
  - eapply tool_finished_step; eauto. by rewrite Ety.
  - by eapply run_finished_step.
Qed.

(** Every accepted event takes the next sequence number and is remembered. *)
Lemma reduce_sequence s e s' :
  reduce_runtime_state s e = Ok s' ->
  re_sequence e = rs_sequence s + 1 /\ rs_sequence s' = re_sequence e /\
  rs_last_event s' = Some (re_type e).
Proof.
  unfold reduce_runtime_state. intros H.
  destruct (validate_runtime_transition s e) as [[]|] eqn:Hval; [|done]. simpl in H.
  apply validate_Ok in Hval as [Hseq _]. split; [done|].
  unfold apply_runtime_event, on_model_response, on_model_retry_finished, on_tool_started,
    on_tool_finished, on_run_finished, update_tool in H.
  eqb_cases H; res_inv H; done.
Qed.

(** The end of a run is accepted unless it would hide an unfinished tool. *)
Lemma run_finished_accepted s r now outcome :
  rs_run_id s = Some r -> run_terminal s = false ->
  (finished_run_phase (VStr outcome) (rs_failure_code s) = completed ->
   Forall (fun t => tool_terminal t = true) (dvalues (rs_tools s))) ->
  reduce_runtime_state s (mkRuntimeEvent "run_finished" r (rs_sequence s + 1) now
                            [("outcome", VStr outcome)])
  = Ok (s |> set_last (rs_sequence s + 1) "run_finished"
          |> set_phase (finished_run_phase (VStr outcome) (rs_failure_code s))).
Proof.
  intros Hrun Hterm Htools.
  unfold reduce_runtime_state, validate_runtime_transition, validate_tool_event. simpl.
  rewrite Z.eqb_refl, Hrun, String.eqb_refl, Hterm. simpl.
  unfold apply_runtime_event, on_run_finished. simpl.
  case_bool_decide as Hc; simpl; [|done].
  assert (existsb (fun t => negb (tool_terminal t)) (dvalues (rs_tools s)) = false) as ->;
    [|done].
  apply existsb_elem. intros x Hx. specialize (Htools Hc).
  rewrite Forall_forall in Htools. by rewrite Htools.
Qed.

(** ** The invariant of reachable run states *)

Definition tools_finished (s : RunState) : Prop :=
  Forall (fun t => tool_terminal t = true) (dvalues (rs_tools s)).

Record run_wf (s : RunState) : Prop := {
  wf_tools_dict : dict_wf (rs_tools s);
  wf_tools_keyed : forall id t, dget id (rs_tools s) = Some t -> tool_keyed id t;
  wf_run_id : rs_phase s = idle <-> rs_run_id s = None;
  wf_turn : 0 <= rs_turn s;
  wf_completed : rs_phase s = completed -> rs_failure_code s = None /\ tools_finished s
}.

Lemma initial_run_wf : run_wf initial_run_state.
Proof. split; simpl; try done. constructor. Qed.

Lemma run_step_wf s e s' : run_wf s -> run_step s e s' -> run_wf s'.
Proof.
  intros [Hd Hk Hid Ht Hc] Hstep. destruct Hstep as
    [_ _ ->|Hterm Hrun Hr Hts Hp Htu|id t Hterm Hrun Hr Hts Hp Htu Hne Hedge Hold Hnew
    |Hterm Hrun Hr Hts Hp Htu Hcomp _].
  - split; simpl; try done. constructor.
  - split; rewrite ?Hts, ?Hr; auto; [|lia|]; rewrite ?Hrun; by destruct (rs_phase s').
  - split; rewrite ?Hts, ?Hr, ?Htu; auto with pydict.
    + intros id' t'. rewrite dget_dset. destruct (String.eqb_spec id id') as [->|]; [|auto].
      intros [= <-]. destruct (dget id' (rs_tools s)) as [t0|] eqn:E; [|auto].
      by apply (Hold t0), Hk.
    + rewrite Hrun. by destruct Hp as [-> | ->].
    + intros Heq. by destruct Hp as [Hp|Hp]; rewrite Heq in Hp.
  - split; rewrite ?Hts, ?Hr, ?Htu; auto.
    rewrite Hrun. by destruct (rs_phase s').
Qed.

Lemma reduce_run_wf s e s' :
  run_wf s -> reduce_runtime_state s e = Ok s' -> run_wf s'.
Proof. intros Hs H%reduce_run_step. by eapply run_step_wf. Qed.

(** ** Properties *)

Lemma replay_wf events s : replay_runtime_events events = Ok s -> run_wf s.
Proof.
  unfold replay_runtime_events. apply foldM_invariant; [|apply initial_run_wf].
  intros. by eapply reduce_run_wf.
Qed.

(** A small complete run, used to instantiate the theorems below. *)
Definition sample_event (ty : string) (n : Z) (data : pydict) : RuntimeEvent :=
  mkRuntimeEvent ty "run-1" n (100 + n) data.
Definition sample_tool (success : bool) : pydict :=
  [("toolCallId", VStr "t1"); ("toolName", VStr "read_file"); ("success", VBool success)].
Definition sample_log : list RuntimeEvent :=
  [sample_event "run_started" 0 [];
   sample_event "turn_started" 1 [("turn", VInt 1)];
   sample_event "model_request_started" 2 [];
   sample_event "model_response_finished" 3 [("stopReason", VStr "toolUse")];
   sample_event "tool_started" 4 (sample_tool true);
   sample_event "tool_finished" 5 (sample_tool true);
   sample_event "run_finished" 6 [("outcome", VStr "completed")]].
Definition sample_state (n : nat) : RunState :=
  match replay_runtime_events (take n sample_log) with
  | Ok s => s | Err _ => initial_run_state end.

(** Whatever log of events is replayed, if the reducer accepts it then the
    state it yields satisfies the run invariant: tool identifiers are unique keys
    of their own entries, a run id exists exactly when the run has started, the
    turn never goes negative, and a completed run has no failure code and no
    unfinished tool call. *)
Theorem replay_reaches_wf_state events s :
  replay_runtime_events events = Ok s -> run_wf s.
Proof. apply replay_wf. Qed.

Lemma replay_reaches_wf_state_witness :
  rs_phase (sample_state 7) = completed /\ run_wf (sample_state 7).
Proof.
  split; [vm_compute; reflexivity|].
  apply (replay_reaches_wf_state sample_log). vm_compute; reflexivity.
Defined.

(** A run in a terminal phase (completed, failed, cancelled or suspended)
    rejects every event except [run_started], whatever its sequence number, run
    id and data: the reducer raises [RuntimeInvariantError]. *)
Theorem terminal_run_accepts_only_restart s e :
  run_terminal s = true -> re_type e <> "run_started" ->
  exists code, reduce_runtime_state s e = Err (RuntimeInvariantError code).
Proof.
  intros Hterm Hty. unfold reduce_runtime_state, validate_runtime_transition.
  rewrite Hterm. destruct (String.eqb_spec (re_type e) "run_started"); [done|].
  destruct (negb (re_sequence e =? _)); [by eexists|].
  destruct (rs_run_id s); [|by eexists].
  destruct (negb (String.eqb _ _)); by eexists.
Qed.

Lemma terminal_run_accepts_only_restart_witness :
  exists code, reduce_runtime_state (sample_state 7) (sample_event "turn_started" 7 [])
               = Err (RuntimeInvariantError code).
Proof.
  apply terminal_run_accepts_only_restart; [vm_compute; reflexivity | vm_compute; discriminate].
Defined.

Lemma run_step_keeps_finished s e s' id t :
  run_step s e s' -> re_type e <> "run_started" ->
  dget id (rs_tools s) = Some t -> tool_terminal t = true ->
  dget id (rs_tools s') = Some t.
Proof.
  intros Hstep Hty Hget Ht. destruct Hstep as
    [_ ? _|Hterm Hrun Hr Hts Hp Htu|id' t' Hterm Hrun Hr Hts Hp Htu Hne Hedge Hold Hnew
    |Hterm Hrun Hr Hts Hp Htu Hcomp _]; [done|by rewrite Hts| |by rewrite Hts].
  rewrite Hts. destruct (String.eqb_spec id' id) as [->|]; [|by rewrite dget_dset_ne].
  rewrite Hget in Hedge. destruct Hedge as [Hf _]. congruence.
Qed.

(** Once a tool call has reached a terminal phase, no accepted continuation
    of the same run changes its recorded outcome. *)
Theorem finished_tool_never_changes s events s' id t :
  Forall (fun e => re_type e <> "run_started") events ->
  dget id (rs_tools s) = Some t -> tool_terminal t = true ->
  foldM reduce_runtime_state s events = Ok s' ->
  dget id (rs_tools s') = Some t.
Proof.
  intros Hall. revert s. induction Hall as [|e es He Hes IH]; simpl; intros s Hget Ht H.
  - by simplify_eq.
  - res_inv H. eapply IH; [|done|done]. eapply run_step_keeps_finished; eauto.
    by apply reduce_run_step.
Qed.

Lemma finished_tool_never_changes_witness :
  exists t, dget "t1" (rs_tools (sample_state 7)) = Some t /\ tc_phase t = succeeded.
Proof.
  exists (mkToolCallState "t1" "read_file" succeeded 0 None). split; [|reflexivity].
  apply (finished_tool_never_changes (sample_state 6) (drop 6 sample_log));
    [|vm_compute; reflexivity..].
  vm_compute. constructor; [discriminate | constructor].
Defined.

(** An accepted log is numbered consecutively from the state's next number. *)
Lemma foldM_sequences s events s' :
  foldM reduce_runtime_state s events = Ok s' ->
  map re_sequence events = seqZ (rs_sequence s + 1) (Z.of_nat (List.length events)) /\
  rs_sequence s' = rs_sequence s + Z.of_nat (List.length events).
Proof.
  revert s. induction events as [|e es IH]; intros s H; simpl in H.
  - simplify_eq. split; [done | simpl; lia].
  - res_inv H. apply reduce_sequence in E as (Hseq & Hs & _).
    apply IH in H as [Hm Hlen]. rewrite Hs, Hseq in *.
    rewrite seqZ_cons by (simpl; lia). simpl map. rewrite Hm, Hseq.
    split; [f_equal; f_equal; simpl; lia | simpl; lia].
Qed.

(** Replay sorts by sequence number, so a log delivered in any order replays
    to the same state as soon as one order of it is accepted. *)
Theorem replay_ignores_arrival_order events events' s :
  Permutation events events' ->
  replay_runtime_events events = Ok s -> replay_runtime_events events' = Ok s.
Proof.
  unfold replay_runtime_events. intros Hp H.
  rewrite <- (sort_by_permutation _ _ _ Hp); [done|].
  apply foldM_sequences in H as [Hm _].
  rewrite <- (sort_by_perm re_sequence events).
  rewrite Hm. apply NoDup_seqZ.
Qed.

Lemma replay_ignores_arrival_order_witness :
  replay_runtime_events (rev sample_log) = Ok (sample_state 7).
Proof.
  apply (replay_ignores_arrival_order sample_log);
    [apply Permutation_rev | vm_compute; reflexivity].
Defined.

(** A runtime event of a known type that its constructor accepts survives
    [to_dict] followed by [from_dict] unchanged. *)
Theorem runtime_event_round_trip ty run_id sequence timestamp data e :
  runtime_event ty run_id sequence timestamp data = Ok e ->
  known_event_type ty = true ->
  runtime_event_from_dict (VDict (runtime_event_to_dict e)) = Ok e.
Proof.
  intros H Hty. assert (e = mkRuntimeEvent ty run_id sequence timestamp data) as ->.
  { unfold runtime_event in H. by res_inv H. }
  unfold runtime_event_from_dict. simpl. by rewrite Hty.
Qed.

Lemma runtime_event_round_trip_witness :
  runtime_event_from_dict (VDict (runtime_event_to_dict (sample_event "tool_started" 4 (sample_tool true))))
  = Ok (sample_event "tool_started" 4 (sample_tool true)).
Proof.
  apply (runtime_event_round_trip "tool_started" "run-1" 4 104 (sample_tool true));
    vm_compute; reflexivity.
Defined.

(** Whatever JSON value [RuntimeEvent.from_dict] accepts yields a known
    event type, a non-empty run id and non-negative sequence and timestamp. *)
Theorem runtime_event_from_dict_valid v e :
  runtime_event_from_dict v = Ok e ->
  known_event_type (re_type e) = true /\ re_run_id e <> "" /\
  0 <= re_sequence e /\ 0 <= re_timestamp e.
Proof.
  unfold runtime_event_from_dict. intros H. res_inv H.
  unfold runtime_event in H. res_inv H. simpl.
  repeat match goal with E : negb _ = false |- _ => apply negb_false_iff in E end.
  repeat split; try done; [by apply nonempty_spec | lia..].
Qed.

Lemma runtime_event_from_dict_valid_witness :
  known_event_type "turn_started" = true /\ "run-1" <> "" /\ 0 <= 1 /\ 0 <= 101.
Proof.
  apply (runtime_event_from_dict_valid
           (VDict (runtime_event_to_dict (sample_event "turn_started" 1 [("turn", VInt 1)])))
           (sample_event "turn_started" 1 [("turn", VInt 1)])).
  vm_compute; reflexivity.
Defined.
