(* ===== verification/RuntimeTracker.v ===== *)
(** * Runtime state tracker  (src/.../runtime/tracker.py)

    The listener that turns agent events into runtime events, reduces them and
    appends them to the store with compare-and-swap.  The lock makes every call
    atomic, so a call is a function from tracker to tracker; the clock reading
    and the fresh run identifier it uses are arguments. *)

From S2P Require Import Prelude PyDict Text PyVal Runtime.
From Stdlib Require Import String.

#[local] Open Scope string_scope.
#[local] Open Scope bool_scope.
#[local] Open Scope Z_scope.

Record Tracker := mkTracker {
  tk_store : list RuntimeEvent;
  tk_state : RunState;
  tk_model_identity : pydict
}.

(** [RuntimeStateTracker.create] without a fenced claim *)
Definition tracker_create (store : list RuntimeEvent) : res Tracker :=
  let! state := replay_runtime_events store in
  Ok (mkTracker store state []).

(** [_append] (path without a fenced claim) *)
Definition tracker_append (uuid : string) (now : Z) (t : Tracker) (ev : string * pydict)
  : res Tracker :=
  let! run_id :=
    if String.eqb (fst ev) "run_started" then Ok uuid
    else match rs_run_id (tk_state t) with
         | None => Err RuntimeError
         | Some r => Ok r
         end in
  let! e := runtime_event (fst ev) run_id (rs_sequence (tk_state t) + 1) now (snd ev) in
  let! next := reduce_runtime_state (tk_state t) e in
  let! store := append_cas (tk_store t) e (rs_sequence (tk_state t)) in
  Ok (mkTracker store next (tk_model_identity t)).

Definition start_run (uuid : string) (now : Z) (t : Tracker) : res Tracker :=
  tracker_append uuid now t ("run_started", []).

Definition record_external (uuid : string) (now : Z) (t : Tracker) (ty : string) (data : pydict)
  : res Tracker := tracker_append uuid now t (ty, data).

(** [_model_identity_data] *)
Definition model_identity_data (event fallback : pydict) : pydict :=
  fold_left (fun data name =>
    match jget event name with
    | VStr s => if nonempty s then dset name (VStr s) data else data
    | _ => data
    end) ["requestId"; "sessionId"; "operationId"] fallback.

(** [_retry_data]; the source iterates over a set of names, whose order is
    unspecified, and readers only look keys up. *)
Definition retry_data (event : pydict) : pydict :=
  fold_left (fun data name =>
    match dget name event with Some v => dset name v data | None => data end)
    ["retryId"; "toolCallId"; "toolName"; "attempt"; "maxAttempts"; "delayMs";
     "errorCode"; "statusCode"; "success"; "finalError"] [].

(** [x or y] on values *)
Definition py_or (x y : pyval) : pyval := if truthy x then x else y.

(** [d.get("code") if isinstance(d, dict) else None] *)
Definition details_code (d : pyval) : pyval :=
  match d with VDict m => jget m "code" | _ => VNone end.

(** [message = event.get("message", {})] followed by [message.get(...)] *)
Definition event_message (event : pydict) : res pydict :=
  match jget_or event "message" (VDict []) with
  | VDict m => Ok m
  | _ => Err AttributeError
  end.

Definition convert_message_end (t : Tracker) (event : pydict) : res (list (string * pydict)) :=
  let! message := event_message event in
  if negb (is_str (jget message "role") "assistant") then Ok [] else
  let details := py_or (py_or (jget message "providerError") (jget message "policyError"))
                       (VDict []) in
  Ok [("model_response_finished",
       dmerge [("stopReason", jget_or message "stopReason" (VStr "stop"));
               ("errorCode", details_code details)]
              (model_identity_data event (tk_model_identity t)))].

Definition tool_identity (event : pydict) : res pydict :=
  let! id := py_str (jget_or event "toolCallId" (VStr "")) in
  let! name := py_str (jget_or event "toolName" (VStr "")) in
  Ok [("toolCallId", VStr id); ("toolName", VStr name)].

Definition convert_tool_end (event : pydict) : res (list (string * pydict)) :=
  let details := match jget_or event "result" (VDict []) with
                 | VDict r => jget_or r "details" (VDict [])
                 | _ => VDict []
                 end in
  let! ident := tool_identity event in
  Ok [("tool_finished",
       (ident ++ [("success", VBool (negb (truthy (jget event "isError"))));
                  ("errorCode", details_code details)])%list)].

(** [_convert_agent_event] *)
Definition convert_agent_event (t : Tracker) (event : pydict) (cancelled_token : bool)
  : res (list (string * pydict)) :=
  let ty := jget event "type" in
  let s := tk_state t in
  if is_str ty "agent_start" then
    match rs_run_id s with
    | Some _ => if run_terminal s then Ok [("run_started", [])] else Ok []
    | None => Ok [("run_started", [])]
    end
  else if is_str ty "turn_start" then Ok [("turn_started", [("turn", VInt (rs_turn s + 1))])]
  else if is_str ty "model_request_start" then
    Ok [("model_request_started", model_identity_data event [])]
  else if is_str ty "message_start" then
    let! message := event_message event in
    if is_str (jget message "role") "assistant" && negb (dmem "requestId" (tk_model_identity t))
    then Ok [("model_request_started", [])] else Ok []
  else if is_str ty "message_end" then convert_message_end t event
  else if is_str ty "tool_execution_start" then
    let! ident := tool_identity event in Ok [("tool_started", ident)]
  else if is_str ty "tool_execution_dispatch_start" then
    let! ident := tool_identity event in
    Ok [("tool_dispatch_started", (ident ++ [("attempt", jget event "attempt")])%list)]
  else if is_str ty "tool_execution_end" then convert_tool_end event
  else if is_str ty "turn_end" then Ok [("turn_finished", [])]
  else if is_str ty "budget_exceeded" then
    Ok [("budget_exceeded", [("budget", jget event "budget"); ("limit", jget event "limit")])]
  else if is_str ty "model_retry_scheduled" then Ok [("model_retry_scheduled", retry_data event)]
  else if is_str ty "model_retry_attempt_start" then
    Ok [("model_retry_attempt_started", retry_data event)]
  else if is_str ty "model_retry_finished" then Ok [("model_retry_finished", retry_data event)]
  else if is_str ty "tool_retry_scheduled" then Ok [("tool_retry_scheduled", retry_data event)]
  else if is_str ty "tool_retry_attempt_start" then
    Ok [("tool_retry_attempt_started", retry_data event)]
  else if is_str ty "tool_retry_finished" then Ok [("tool_retry_finished", retry_data event)]
  else if is_str ty "context_compaction_started" then Ok [("context_compaction_started", event)]
  else if is_str ty "context_compaction_finished" then Ok [("context_compaction_finished", event)]
  else if is_str ty "agent_end" then
    let outcome :=
      if cancelled_token || bool_decide (rs_failure_code s = Some "cancelled") then "cancelled"
      else match rs_failure_code s with Some _ => "failed" | None => "completed" end in
    Ok [("run_finished", [("outcome", VStr outcome)])]
  else Ok [].

Definition set_identity (d : pydict) (t : Tracker) : Tracker :=
  mkTracker (tk_store t) (tk_state t) d.

(** [listener] *)
Definition listener (uuid : string) (now : Z) (t : Tracker) (event : pydict)
    (cancelled_token : bool) : res Tracker :=
  let! converted := convert_agent_event t event cancelled_token in
  let! t' := foldM (tracker_append uuid now) t converted in
  if is_str (jget event "type") "model_request_start" then
    Ok (set_identity (model_identity_data event []) t')
  else if is_str (jget event "type") "message_end"
       && match jget event "message" with
          | VDict m => is_str (jget m "role") "assistant"
          | _ => false
          end
  then Ok (set_identity [] t')
  else Ok t'.

(** ** The projection is always the replay of what is stored *)

Definition tracker_inv (t : Tracker) : Prop :=
  foldM reduce_runtime_state initial_run_state (tk_store t) = Ok (tk_state t).

Lemma foldM_sorted events s :
  foldM reduce_runtime_state initial_run_state events = Ok s ->
  sort_by re_sequence events = events.
Proof.
  intros [Hm _]%foldM_sequences. apply sort_by_id.
  unfold sorted_by. revert Hm. generalize (rs_sequence initial_run_state + 1).
  induction events as [|e es IH]; intros n; simpl List.length; [constructor|].
  rewrite seqZ_cons by lia. intros [= He Hes].
  replace (Z.pred (Z.of_nat (S (List.length es)))) with (Z.of_nat (List.length es)) in Hes by lia.
  constructor; [by eapply IH|]. apply Forall_forall. intros e' Hin.
  assert (Hk : re_sequence e' ∈ map re_sequence es) by by apply list_elem_of_fmap_2.
  rewrite Hes in Hk. apply elem_of_seqZ in Hk. lia.
Qed.

Lemma tracker_inv_replay t :
  tracker_inv t -> replay_runtime_events (tk_store t) = Ok (tk_state t).
Proof.
  intros H. unfold replay_runtime_events. rewrite (foldM_sorted _ _ H). exact H.
Qed.

Lemma tracker_append_inv uuid now t ev t' :
  tracker_inv t -> tracker_append uuid now t ev = Ok t' ->
  tracker_inv t' /\ tk_model_identity t' = tk_model_identity t /\
  exists e, tk_store t' = (tk_store t ++ [e])%list /\ re_type e = fst ev /\ re_data e = snd ev.
Proof.
  unfold tracker_append, tracker_inv. intros Hinv H.
  match type of H with rbind ?m _ = _ => destruct m as [r|]; [|done] end. simpl in H.
  destruct (runtime_event _ _ _ _ _) as [e|] eqn:He; [|done]. simpl in H.
  destruct (reduce_runtime_state _ _) as [next|] eqn:Hred; [|done]. simpl in H.
  unfold append_cas in H. destruct (_ || _); [done|]. simpl in H. simplify_eq. simpl.
  split; [|split; [done|]].
  - rewrite foldM_snoc, Hinv. exact Hred.
  - exists e. split; [done|]. unfold runtime_event in He. by res_inv He.
Qed.

Lemma tracker_appends_inv uuid now evs t t' :
  tracker_inv t -> foldM (tracker_append uuid now) t evs = Ok t' -> tracker_inv t'.
Proof.
  apply foldM_invariant. intros s ev s' Hs H. by eapply tracker_append_inv in H as [? _].
Qed.

Lemma set_identity_inv d t : tracker_inv t -> tracker_inv (set_identity d t).
Proof. done. Qed.

Lemma listener_inv uuid now t event c t' :
  tracker_inv t -> listener uuid now t event c = Ok t' -> tracker_inv t'.
Proof.
  unfold listener. intros Hinv H.
  destruct (convert_agent_event t event c) as [evs|]; [|done]. simpl in H.
  destruct (foldM _ _ _) as [t1|] eqn:Hf; [|done]. simpl in H.
  apply (tracker_appends_inv _ _ _ _ _ Hinv) in Hf.
  repeat case_match; simplify_eq; auto using set_identity_inv.
Qed.

(** One call of the tracker's interface. *)
Inductive tracker_call :=
| CallListener (event : pydict) (cancelled_token : bool)
| CallStartRun
| CallRecord (ty : string) (data : pydict).

Definition run_call (uuid : string) (now : Z) (t : Tracker) (c : tracker_call) : res Tracker :=
  match c with
  | CallListener event ct => listener uuid now t event ct
  | CallStartRun => start_run uuid now t
  | CallRecord ty data => record_external uuid now t ty data
  end.

(** A failed call raises and leaves the tracker as it was. *)
Definition run_calls (t : Tracker) (calls : list (string * Z * tracker_call)) : Tracker :=
  fold_left (fun t '(uuid, now, c) =>
    match run_call uuid now t c with Ok t' => t' | Err _ => t end) calls t.

Lemma run_calls_inv t calls : tracker_inv t -> tracker_inv (run_calls t calls).
Proof.
  revert t. induction calls as [|[[uuid now] c] calls IH]; intros t Hinv; [done|].
  apply IH. destruct (run_call uuid now t c) as [t1|] eqn:Hc; [|done].
  destruct c; simpl in Hc; [by eapply listener_inv|..];
    by eapply tracker_append_inv in Hc as [? _].
Qed.

(** A tracker over an empty store, and one that has recorded a few calls. *)
Definition sample_tracker : Tracker := mkTracker [] initial_run_state [].
Definition sample_calls : list (string * Z * tracker_call) :=
  [("run-1", 1, CallListener [("type", VStr "agent_start")] false);
   ("", 2, CallListener [("type", VStr "turn_start")] false);
   ("", 3, CallListener [("type", VStr "tool_execution_start");
                         ("toolCallId", VStr "t1"); ("toolName", VStr "read_file")] false)].
Definition sample_running : Tracker := run_calls sample_tracker sample_calls.

Lemma sample_running_inv : tracker_inv sample_running.
Proof. vm_compute. reflexivity. Qed.

(** C33. Whatever agent events, run starts and external records the tracker is
    given, in any order and whether each call succeeds or raises, the state it
    exposes is the replay of the events in its store, and that state is
    well-formed. *)
Theorem tracker_state_is_replay_of_store store t0 calls :
  sort_by re_sequence store = store -> tracker_create store = Ok t0 ->
  let t := run_calls t0 calls in
  replay_runtime_events (tk_store t) = Ok (tk_state t) /\ run_wf (tk_state t).
Proof.
  unfold tracker_create. intros Hsort Hc. res_inv Hc. set (t := run_calls _ calls).
  assert (Hinv : tracker_inv t).
  { apply run_calls_inv. unfold tracker_inv, replay_runtime_events in *. by rewrite Hsort in E. }
  split; [by apply tracker_inv_replay|].
  by eapply replay_wf, tracker_inv_replay.
Qed.

Lemma tracker_state_is_replay_of_store_witness :
  replay_runtime_events (tk_store sample_running) = Ok (tk_state sample_running) /\
  run_wf (tk_state sample_running).
Proof.
  apply (tracker_state_is_replay_of_store [] sample_tracker sample_calls);
    vm_compute; reflexivity.
Defined.

(** Optimistic concurrency: a tracker whose store has been extended by
    another writer cannot append anything, whatever it tries to record. *)
Theorem stale_tracker_cannot_append uuid now t ev others t' :
  tracker_inv t -> others <> [] ->
  (exists s, foldM reduce_runtime_state (tk_state t) others = Ok s) ->
  tracker_append uuid now (mkTracker (tk_store t ++ others) (tk_state t) (tk_model_identity t)) ev
  <> Ok t'.
Proof.
  intros Hinv Hne [s Hs] H. unfold tracker_append in H. simpl in H.
  match type of H with rbind ?m _ = _ => destruct m as [r|]; [|done] end. simpl in H.
  destruct (runtime_event _ _ _ _ _) as [e|] eqn:He; [|done]. simpl in H.
  destruct (reduce_runtime_state _ _) as [next|]; [|done]. simpl in H.
  unfold append_cas in H.
  assert (Hlast : last_sequence (tk_store t ++ others) = rs_sequence s).
  { destruct others as [|e' others] using rev_ind; [done|].
    rewrite app_assoc. unfold last_sequence. rewrite last_snoc.
    rewrite foldM_snoc in Hs. destruct (foldM _ _ others); [|done]. simpl in Hs.
    apply reduce_sequence in Hs as (_ & -> & _). done. }
  apply foldM_sequences in Hs as [_ Hs].
  rewrite Hlast in H. destruct others; [done|]. simpl in Hs.
  destruct (Z.eqb_spec (rs_sequence s) (rs_sequence (tk_state t))); [lia | done].
Qed.

Lemma stale_tracker_cannot_append_witness :
  let behind := run_calls sample_tracker (take 2 sample_calls) in
  let other := drop 2 (tk_store sample_running) in
  other <> [] /\
  tracker_append "" 9 (mkTracker (tk_store behind ++ other) (tk_state behind)
                                 (tk_model_identity behind)) ("turn_finished", [])
  <> Ok sample_running.
Proof.
  split; [vm_compute; discriminate|].
  apply stale_tracker_cannot_append;
    [vm_compute; reflexivity | vm_compute; discriminate |].
  exists (tk_state sample_running). vm_compute. reflexivity.
Defined.

Lemma tracker_last_sequence t :
  tracker_inv t -> last_sequence (tk_store t) = rs_sequence (tk_state t).
Proof.
  unfold tracker_inv, last_sequence. intros Hinv.
  destruct (tk_store t) as [|e es _] using rev_ind.
  { simpl in *. injection Hinv as <-. done. }
  rewrite last_snoc. rewrite foldM_snoc in Hinv.
  destruct (foldM _ _ es); [|done]. simpl in Hinv.
  by apply reduce_sequence in Hinv as (_ & -> & _).
Qed.

(** What the tracker appends is exactly what the reducer accepts. *)
Lemma tracker_append_accepted uuid now t ty data r s' :
  tracker_inv t -> rs_run_id (tk_state t) = Some r -> r <> "" -> 0 <= now ->
  ty <> "run_started" ->
  let e := mkRuntimeEvent ty r (rs_sequence (tk_state t) + 1) now data in
  reduce_runtime_state (tk_state t) e = Ok s' ->
  tracker_append uuid now t (ty, data)
  = Ok (mkTracker (tk_store t ++ [e]) s' (tk_model_identity t)).
Proof.
  intros Hinv Hrun Hr Hnow Hty e Hred. unfold tracker_append. simpl.
  destruct (String.eqb_spec ty "run_started") as [|_]; [done|]. rewrite Hrun. simpl.
  pose proof (foldM_sequences _ _ _ Hinv) as [_ Hlen]. simpl in Hlen.
  unfold runtime_event. rewrite (proj2 (nonempty_spec r) Hr). simpl.
  destruct (Z.ltb_spec (rs_sequence (tk_state t) + 1) 0), (Z.ltb_spec now 0); try lia.
  cbn [rbind]. fold e. rewrite Hred. simpl.
  unfold append_cas. rewrite (tracker_last_sequence _ Hinv), !Z.eqb_refl.
  done.
Qed.

Definition agent_end_outcome (s : RunState) (ct : bool) : string :=
  if ct || bool_decide (rs_failure_code s = Some "cancelled") then "cancelled"
  else match rs_failure_code s with Some _ => "failed" | None => "completed" end.

Lemma agent_end_phase s ct :
  let p := finished_run_phase (VStr (agent_end_outcome s ct)) (rs_failure_code s) in
  terminal_run_phase p = true /\ (p = completed <-> ct = false /\ rs_failure_code s = None).
Proof.
  unfold agent_end_outcome, finished_run_phase.
  destruct ct; simpl; [naive_solver|].
  destruct (rs_failure_code s) as [c|]; simpl; [|naive_solver].
  repeat (case_bool_decide || case_match); naive_solver.
Qed.

(** Unless the run would be reported complete with unfinished tools, the
    agent's [agent_end] event is recorded and leaves the run in a terminal phase;
    that phase is [completed] exactly when no cancellation was requested and no
    failure was recorded. *)
Theorem agent_end_closes_run uuid now t ct r :
  tracker_inv t -> rs_run_id (tk_state t) = Some r -> r <> "" -> 0 <= now ->
  run_terminal (tk_state t) = false ->
  (ct = true \/ rs_failure_code (tk_state t) <> None \/ tools_finished (tk_state t)) ->
  exists t', listener uuid now t [("type", VStr "agent_end")] ct = Ok t' /\
             run_terminal (tk_state t') = true /\
             (rs_phase (tk_state t') = completed <->
              ct = false /\ rs_failure_code (tk_state t) = None).
Proof.
  intros Hinv Hrun Hr Hnow Hterm Hcase.
  destruct (agent_end_phase (tk_state t) ct) as [Hp Hc].
  unfold listener, convert_agent_event. simpl. fold (agent_end_outcome (tk_state t) ct).
  erewrite tracker_append_accepted; try done.
  2: { apply run_finished_accepted; [done | done |]. intros Hcomp. apply Hc in Hcomp.
       naive_solver. }
  simpl. eexists. split; [done|]. by split.
Qed.

Lemma agent_end_closes_run_witness :
  exists t', listener "" 9 sample_running [("type", VStr "agent_end")] true = Ok t' /\
             run_terminal (tk_state t') = true /\
             (rs_phase (tk_state t') = completed <->
              true = false /\ rs_failure_code (tk_state sample_running) = None).
Proof.
  apply (agent_end_closes_run "" 9 sample_running true "run-1");
    [vm_compute; reflexivity | vm_compute; reflexivity | discriminate | lia
     | vm_compute; reflexivity | by left].
Defined.

(** ** A failed tool without an error code *)

Definition failed_tool_end (id name : string) : pydict :=
  [("type", VStr "tool_execution_end"); ("toolCallId", VStr id); ("toolName", VStr name);
   ("isError", VBool true)].

(** A tool that fails without a machine-readable code is recorded with the
    error code ["None"]: the tracker always sets the key [errorCode], to Python's
    [None] here, so the reducer's default [tool_error] is never used. *)
Theorem failed_tool_without_code_recorded_as_None uuid now t id name ct t' :
  listener uuid now t (failed_tool_end id name) ct = Ok t' ->
  exists tool, dget id (rs_tools (tk_state t')) = Some tool /\
               tc_phase tool = tool_failed /\ tc_error_code tool = Some "None".
Proof.
  intros H. unfold listener, convert_agent_event in H. cbn -[tracker_append] in H.
  match type of H with rbind ?m _ = _ => destruct m as [t1|] eqn:Ht end; [|done].
  simpl in H. simplify_eq. simpl in Ht.
  destruct (tracker_append _ _ _ _) as [t2|] eqn:Ha; [|done]. simpl in Ht. simplify_eq.
  unfold tracker_append in Ha. cbn -[runtime_event reduce_runtime_state append_cas] in Ha.
  res_inv Ha. simpl. unfold runtime_event in E0. res_inv E0.
  unfold reduce_runtime_state, apply_runtime_event in E1.
  cbn -[validate_runtime_transition on_tool_finished] in E1. res_inv E1.
  unfold on_tool_finished in E1. cbn -[required_text] in E1. res_inv E1. simpl.
  apply required_text_Ok in E6 as [Hid _]. injection Hid as <-.
  eexists. by rewrite dget_dset_eq.
Qed.

Lemma failed_tool_without_code_recorded_as_None_witness :
  exists t', listener "" 9 sample_running (failed_tool_end "t1" "read_file") false = Ok t' /\
  exists tool, dget "t1" (rs_tools (tk_state t')) = Some tool /\
               tc_phase tool = tool_failed /\ tc_error_code tool = Some "None".
Proof.
  eexists. split; [vm_compute; reflexivity|].
  apply (failed_tool_without_code_recorded_as_None "" 9 sample_running "t1" "read_file" false).
  vm_compute; reflexivity.
Defined.
