(* ===== verification/DurableAction.v ===== *)
(** * Durable action envelope  (src/.../durable_action.py)

    The immutable description of one write that an approval, its resume record,
    the tool intent and the write itself must agree on; its canonical digest is
    the action hash. *)

From S2P Require Import Prelude PyDict Text Sha256 PyVal Json.
From Stdlib Require Import String.

#[local] Open Scope string_scope.
#[local] Open Scope bool_scope.
#[local] Open Scope Z_scope.

Record DurableActionEnvelope := mkEnvelope {
  ea_operation_id : string;
  ea_tool_call_id : string;
  ea_tool_name : string;
  ea_arguments : pydict;
  ea_write_id : string;
  ea_entity_id : option string;
  ea_expected_entity_version : option Z;
  ea_business_preconditions : option pydict;
  ea_version : Z
}.

Definition envelope_error {A : Type} : res A := Err DurableActionEnvelopeError.

(** [_validate_json_value]: every JSON value passes unless it holds a
    non-finite number. *)
Definition validate_json_value (v : pyval) : res unit :=
  if strict_json v then Ok tt else envelope_error.

(** [DurableActionEnvelope.__post_init__] on the constructor's arguments *)
Definition envelope (operation_id tool_call_id tool_name : string) (arguments : pydict)
    (write_id : string) (entity_id : option string) (expected_entity_version : option Z)
    (business_preconditions : option pydict) (version : Z) : res DurableActionEnvelope :=
  if negb (version =? 1) then envelope_error else
  if negb (nonempty operation_id && nonempty tool_call_id && nonempty tool_name
           && nonempty write_id) then envelope_error else
  check! validate_json_value (VDict arguments) in
  if match entity_id with Some i => blank i | None => false end then envelope_error else
  if match expected_entity_version with
     | Some n => (n <? 0) || match entity_id with None => true | Some _ => false end
     | None => false
     end then envelope_error else
  check! match business_preconditions with
         | Some p => validate_json_value (VDict p)
         | None => Ok tt
         end in
  Ok (mkEnvelope operation_id tool_call_id tool_name arguments write_id entity_id
        expected_entity_version business_preconditions version).

Definition opt_field {A : Type} (key : string) (f : A -> pyval) (o : option A) : pydict :=
  match o with Some x => [(key, f x)] | None => [] end.

Definition envelope_to_dict (e : DurableActionEnvelope) : pydict :=
  ([("version", VInt (ea_version e)); ("operationId", VStr (ea_operation_id e));
    ("toolCallId", VStr (ea_tool_call_id e)); ("toolName", VStr (ea_tool_name e));
    ("arguments", VDict (ea_arguments e)); ("writeId", VStr (ea_write_id e))]
   ++ opt_field "entityId" VStr (ea_entity_id e)
   ++ opt_field "expectedEntityVersion" VInt (ea_expected_entity_version e)
   ++ opt_field "businessPreconditions" VDict (ea_business_preconditions e))%list.

Definition env_text (d : pydict) (key : string) : res string :=
  match jget d key with
  | VStr s => if nonempty s then Ok s else envelope_error
  | _ => envelope_error
  end.

Definition env_optional_text (d : pydict) (key : string) : res (option string) :=
  match jget d key with
  | VNone => Ok None
  | VStr s => if nonempty s then Ok (Some s) else envelope_error
  | _ => envelope_error
  end.

Definition env_optional_version (d : pydict) (key : string) : res (option Z) :=
  match jget d key with
  | VNone => Ok None
  | VInt n => if n <? 0 then envelope_error else Ok (Some n)
  | _ => envelope_error
  end.

Definition envelope_from_dict (value : pyval) : res DurableActionEnvelope :=
  match value with
  | VDict d =>
      match jget_or d "version" (VInt 1), jget d "arguments" with
      | VInt version, VDict arguments =>
          let! preconditions :=
            match jget d "businessPreconditions" with
            | VNone => Ok None
            | VDict p => Ok (Some p)
            | _ => envelope_error
            end in
          let! operation_id := env_text d "operationId" in
          let! tool_call_id := env_text d "toolCallId" in
          let! tool_name := env_text d "toolName" in
          let! write_id := env_text d "writeId" in
          let! entity_id := env_optional_text d "entityId" in
          let! expected := env_optional_version d "expectedEntityVersion" in
          envelope operation_id tool_call_id tool_name arguments write_id entity_id expected
            preconditions version
      | _, _ => envelope_error
      end
  | _ => envelope_error
  end.

(** [durable_action_digest] *)
Definition durable_action_digest (value : pydict) : res string :=
  check! validate_json_value (VDict value) in
  Ok (json_digest (VDict value)).

Definition action_hash (e : DurableActionEnvelope) : res string :=
  durable_action_digest (envelope_to_dict e).

(** ** Strict JSON equality *)

Definition same_keys {V : Type} (d1 d2 : dict V) : bool :=
  forallb (fun k => dmem k d2) (dkeys d1) && forallb (fun k => dmem k d1) (dkeys d2).

Fixpoint strict_json_equal (expected actual : pyval) {struct expected} : bool :=
  if negb (same_type expected actual) then false else
  match expected, actual with
  | VDict d1, VDict d2 =>
      same_keys d1 d2 &&
      (fix all (d : pydict) : bool :=
         match d with
         | [] => true
         | (k, v) :: d' =>
             match dget k d2 with Some w => strict_json_equal v w | None => false end && all d'
         end) d1
  | VList l1, VList l2 =>
      (Z.of_nat (List.length l1) =? Z.of_nat (List.length l2)) &&
      (fix all (l1 l2 : list pyval) : bool :=
         match l1, l2 with
         | x :: l1', y :: l2' => strict_json_equal x y && all l1' l2'
         | _, _ => true
         end) l1 l2
  | _, _ => scalar_eq expected actual
  end.

Definition envelope_eq (e1 e2 : DurableActionEnvelope) : bool :=
  strict_json_equal (VDict (envelope_to_dict e1)) (VDict (envelope_to_dict e2)).

(** What the caller is about to execute. *)
Record Execution := mkExecution {
  ex_operation_id : string;
  ex_tool_call_id : string;
  ex_tool_name : string;
  ex_arguments : pydict;
  ex_write_id : string
}.

(** Entity, version and preconditions, when [validate_business_binding] is set. *)
Record BusinessBinding := mkBinding {
  bb_entity_id : option string;
  bb_expected_entity_version : option Z;
  bb_business_preconditions : option pydict
}.

Definition assert_execution (e : DurableActionEnvelope) (x : Execution)
    (binding : option BusinessBinding) : res unit :=
  let own := mkBinding (ea_entity_id e) (ea_expected_entity_version e)
                       (ea_business_preconditions e) in
  let b := match binding with Some b => b | None => own end in
  let! actual := envelope (ex_operation_id x) (ex_tool_call_id x) (ex_tool_name x)
                   (ex_arguments x) (ex_write_id x) (bb_entity_id b)
                   (bb_expected_entity_version b) (bb_business_preconditions b) 1 in
  if strict_json_equal (VDict (envelope_to_dict actual)) (VDict (envelope_to_dict e))
  then Ok tt else envelope_error.

(** ** Persistable values: finite numbers, no duplicate key *)

#[warnings="-register-all"]
Inductive json_wf : pyval -> Prop :=
| wf_none : json_wf VNone
| wf_bool b : json_wf (VBool b)
| wf_int z : json_wf (VInt z)
| wf_float f : fl_finite f = true -> json_wf (VFloat f)
| wf_str s : json_wf (VStr s)
| wf_list l : Forall json_wf l -> json_wf (VList l)
| wf_dict d : dict_wf d -> Forall json_wf (dvalues d) -> json_wf (VDict d).

#[export] Hint Constructors json_wf : pydict.

Lemma json_wf_list l : json_wf (VList l) -> Forall json_wf l.
Proof. by inversion 1. Qed.

Lemma json_wf_dict d : json_wf (VDict d) -> dict_wf d /\ Forall json_wf (dvalues d).
Proof. by inversion 1. Qed.

Lemma json_wf_strict v : json_wf v -> strict_json v = true.
Proof.
  induction v as [| | | | |l IH|d IH] using pyval_nested_ind; intros Hwf;
    inversion Hwf as [| | | | |? Hl|? Hd Hv]; subst; simpl; try done.
  - apply forallb_elem. rewrite Forall_forall in *. auto.
  - apply forallb_elem. intros [k v] Hin. simpl.
    rewrite Forall_forall in *. unfold dvalues in *.
    assert (v ∈ map snd d) by (apply list_elem_of_fmap; by exists (k, v)). auto.
Qed.

(** ** Strict equality, one level at a time *)

Definition list_eqb (l1 l2 : list pyval) : Prop :=
  Forall2 (fun x y => strict_json_equal x y = true) l1 l2.

Definition entry_eqb (o1 o2 : option pyval) : Prop :=
  match o1, o2 with
  | Some v, Some w => strict_json_equal v w = true
  | None, None => True
  | _, _ => False
  end.

Definition dict_eqb (d1 d2 : pydict) : Prop := forall k, entry_eqb (dget k d1) (dget k d2).

Lemma strict_list l1 l2 :
  strict_json_equal (VList l1) (VList l2) = true <-> list_eqb l1 l2.
Proof.
  unfold list_eqb. simpl. rewrite andb_true_iff, Z.eqb_eq.
  revert l2. induction l1 as [|x l1 IH]; intros [|y l2]; simpl.
  - split; [constructor | done].
  - split; [lia | intros H; inversion H].
  - split; [lia | intros H; inversion H].
  - rewrite andb_true_iff, Forall2_cons, <- IH. intuition lia.
Qed.

Lemma same_keys_spec {V : Type} (d1 d2 : dict V) :
  same_keys d1 d2 = true <-> forall k, is_Some (dget k d1) <-> is_Some (dget k d2).
Proof.
  unfold same_keys. rewrite andb_true_iff, !forallb_elem.
  assert (Hk : forall (d : dict V) k, k ∈ dkeys d <-> is_Some (dget k d)).
  { intros d k. rewrite <- not_eq_None_Some, dget_None.
    split; [tauto | intros H; by apply dec_stable]. }
  setoid_rewrite dmem_spec. setoid_rewrite Hk. naive_solver.
Qed.

Definition entries_ok (d1 d2 : pydict) : Prop :=
  forall k v, (k, v) ∈ d1 -> exists w, dget k d2 = Some w /\ strict_json_equal v w = true.

Lemma strict_dict_raw d1 d2 :
  strict_json_equal (VDict d1) (VDict d2) = true <->
  same_keys d1 d2 = true /\ entries_ok d1 d2.
Proof.
  simpl. rewrite andb_true_iff. unfold entries_ok. apply and_iff_compat_l.
  induction d1 as [|[k v] d1 IH].
  - split; [|done]. intros _ k v H. by apply elem_of_nil in H.
  - rewrite andb_true_iff, IH. split.
    + intros [Hv Hd] k' v' [[= -> ->]|Hin]%elem_of_cons; [|by apply Hd].
      destruct (dget k d2); [by eexists | done].
    + intros H. split.
      * destruct (H k v) as (w & -> & Hw); [left | done].
      * intros k' v' Hin. apply H. by right.
Qed.

Lemma strict_dict d1 d2 :
  dict_wf d1 -> strict_json_equal (VDict d1) (VDict d2) = true <-> dict_eqb d1 d2.
Proof.
  intros Hwf. rewrite strict_dict_raw, same_keys_spec. unfold dict_eqb, entries_ok. split.
  - intros [Hk He] k. specialize (Hk k). destruct (dget k d1) as [v|] eqn:E1.
    + apply dget_Some_elem, He in E1 as (w & -> & Hw). done.
    + destruct (dget k d2); [|done]. destruct Hk as [_ Hk]. by destruct Hk.
  - intros H. split.
    + intros k. specialize (H k). unfold entry_eqb in H.
      repeat case_match; naive_solver.
    + intros k v Hin%elem_dget; [|done]. specialize (H k). rewrite Hin in H.
      unfold entry_eqb in H. case_match; [by eexists | done].
Qed.

Lemma dvalues_wf d k v : Forall json_wf (dvalues d) -> dget k d = Some v -> json_wf v.
Proof. rewrite Forall_forall. intros H Hk. by eapply H, dget_Some_value. Qed.

Lemma strict_json_equal_refl v : json_wf v -> strict_json_equal v v = true.
Proof.
  induction v as [|b|z|f|s|l IH|d IH] using pyval_nested_ind; intros Hwf;
    inversion Hwf as [| | | | |? Hl|? Hd Hv]; subst; simpl; try done.
  - by destruct b.
  - apply Z.eqb_refl.
  - by apply num_eq_refl.
  - apply String.eqb_refl.
  - apply strict_list. apply Forall_Forall2_diag. rewrite Forall_forall in *. auto.
  - apply strict_dict; [done|]. intros k. destruct (dget k d) eqn:E; [simpl|done].
    rewrite Forall_forall in IH. apply IH; [by eapply dget_Some_value|].
    by eapply dvalues_wf.
Qed.

Lemma strict_same_type x y : strict_json_equal x y = true -> same_type x y = true.
Proof. destruct x, y; done. Qed.

Lemma strict_json_equal_sym x y :
  json_wf x -> json_wf y -> strict_json_equal x y = true -> strict_json_equal y x = true.
Proof.
  revert y. induction x as [|b|z|f|s|l IH|d IH] using pyval_nested_ind; intros y Hx Hy H;
    pose proof (strict_same_type _ _ H); destruct y; try done;
    inversion Hx; inversion Hy; subst.
  - simpl in *. by destruct b, b0.
  - simpl in *. lia.
  - simpl in *. by rewrite num_eq_sym.
  - simpl in *. by rewrite String.eqb_sym.
  - apply strict_list. apply strict_list in H. unfold list_eqb in *.
    apply json_wf_list in Hx as Wx. apply json_wf_list in Hy as Wy. clear - IH H Wx Wy.
    induction H as [|u v lu lv Huv _ IHl]; constructor.
    + apply Forall_cons in IH as [IH _], Wx as [? _], Wy as [? _]. auto.
    + apply Forall_cons in IH as [_ IH], Wx as [_ ?], Wy as [_ ?]. auto.
  - apply strict_dict; [done|]. apply strict_dict in H; [|done]. intros k.
    specialize (H k). unfold entry_eqb in *.
    destruct (dget k d) eqn:E1, (dget k d0) eqn:E2; try done.
    rewrite Forall_forall in IH. apply IH; eauto using dget_Some_value, dvalues_wf.
Qed.

Definition trans_at (x : pyval) : Prop :=
  forall y z, json_wf x -> json_wf y -> json_wf z ->
  strict_json_equal x y = true -> strict_json_equal y z = true ->
  strict_json_equal x z = true.

Lemma list_eqb_trans l1 l2 l3 :
  Forall trans_at l1 -> Forall json_wf l1 -> Forall json_wf l2 -> Forall json_wf l3 ->
  list_eqb l1 l2 -> list_eqb l2 l3 -> list_eqb l1 l3.
Proof.
  unfold list_eqb. intros IH W1 W2 W3 H. revert l3 W3.
  induction H as [|x y l1 l2 Hxy Hl IHl]; intros l3 W3 H3; inversion H3; subst; constructor.
  - apply Forall_cons in IH as [IH _], W1 as [? _], W2 as [? _], W3 as [? _]. eauto.
  - apply Forall_cons in IH as [_ IH], W1 as [_ ?], W2 as [_ ?], W3 as [_ ?]. auto.
Qed.

Lemma strict_json_equal_trans x : trans_at x.
Proof.
  induction x as [|b|n|f|s|l IH|d IH] using pyval_nested_ind;
    intros y z Hx Hy Hz H1 H2;
    pose proof (strict_same_type _ _ H1); pose proof (strict_same_type _ _ H2);
    destruct y, z; try done; inversion Hx; inversion Hy; inversion Hz; subst.
  - simpl in *. by destruct b, b0, b1.
  - simpl in *. lia.
  - simpl in *. by eapply num_eq_trans with (y := NFloat f0).
  - simpl in *. apply String.eqb_eq in H1, H2. subst. apply String.eqb_refl.
  - apply strict_list. apply strict_list in H1, H2. by apply (list_eqb_trans l l0 l1).
  - apply strict_dict; [done|]. apply strict_dict in H1, H2; [|done|done]. intros k.
    specialize (H1 k). specialize (H2 k). unfold entry_eqb in *.
    destruct (dget k d) eqn:E1, (dget k d0) eqn:E2, (dget k d1) eqn:E3; try done.
    rewrite Forall_forall in IH.
    refine (IH p _ p0 p1 _ _ _ H1 H2); eauto using dget_Some_value, dvalues_wf.
Qed.

(** ** Envelopes *)

(** What the constructor establishes. *)
Record envelope_ok (e : DurableActionEnvelope) : Prop := {
  eok_version : ea_version e = 1;
  eok_operation : ea_operation_id e <> "";
  eok_tool_call : ea_tool_call_id e <> "";
  eok_tool_name : ea_tool_name e <> "";
  eok_write : ea_write_id e <> "";
  eok_arguments : strict_json (VDict (ea_arguments e)) = true;
  eok_entity : forall i, ea_entity_id e = Some i -> blank i = false;
  eok_expected : forall n, ea_expected_entity_version e = Some n ->
                 0 <= n /\ ea_entity_id e <> None;
  eok_preconditions : forall p, ea_business_preconditions e = Some p ->
                      strict_json (VDict p) = true
}.

Lemma validate_json_value_Ok v : validate_json_value v = Ok tt <-> strict_json v = true.
Proof. unfold validate_json_value. destruct (strict_json v); naive_solver. Qed.

Lemma envelope_of_ok e :
  envelope_ok e ->
  envelope (ea_operation_id e) (ea_tool_call_id e) (ea_tool_name e) (ea_arguments e)
    (ea_write_id e) (ea_entity_id e) (ea_expected_entity_version e)
    (ea_business_preconditions e) (ea_version e) = Ok e.
Proof.
  destruct e as [o tc tn a w ei ev bp v]; intros [Hv Ho Htc Htn Hw Ha He Hx Hp];
    cbn -[strict_json] in *.
  unfold envelope. rewrite Hv. change (negb (1 =? 1)) with false.
  repeat (rewrite (proj2 (nonempty_spec _)) by done). cbn [negb andb].
  rewrite (proj2 (validate_json_value_Ok _) Ha). cbn [rbind].
  destruct ei as [i|]; [rewrite (He i) by done|]; cbn [orb].
  - destruct ev as [n|]; [destruct (Hx n) as [Hn _]; [done|];
      rewrite (proj2 (Z.ltb_ge _ _)) by lia; cbn [orb]|];
      (destruct bp as [p|]; [rewrite (proj2 (validate_json_value_Ok _)) by auto|]); done.
  - destruct ev as [n|]; [by destruct (Hx n)|].
    destruct bp as [p|]; [rewrite (proj2 (validate_json_value_Ok _)) by auto|]; done.
Qed.

Lemma envelope_Ok o tc tn a w ei ev bp v e :
  envelope o tc tn a w ei ev bp v = Ok e ->
  e = mkEnvelope o tc tn a w ei ev bp v /\ envelope_ok e.
Proof.
  unfold envelope. intros H.
  destruct (v =? 1) eqn:Hv; [|done]. cbn [negb] in H.
  destruct (_ && _) eqn:Hne; [|done]. cbn [negb] in H.
  rewrite !andb_true_iff, !nonempty_spec in Hne. destruct Hne as [[[? ?] ?] ?].
  destruct (validate_json_value (VDict a)) as [[]|] eqn:Ha; [|done]. cbn [rbind] in H.
  destruct (match ei with Some i => blank i | None => false end) eqn:Hei; [done|].
  match type of H with (if ?b then _ else _) = _ => destruct b eqn:Hev end; [done|].
  match type of H with rbind ?m _ = _ => destruct m as [[]|] eqn:Hbp end; [|done].
  cbn [rbind] in H. simplify_eq. split; [done|].
  split; cbn -[strict_json]; try done; [lia | by apply validate_json_value_Ok| | |].
  - intros i ->. done.
  - intros n ->. apply orb_false_iff in Hev as [? Hi]. split; [lia | by destruct ei].
  - intros p ->. by apply validate_json_value_Ok.
Qed.

Lemma env_text_field d key s :
  jget d key = VStr s -> s <> "" -> env_text d key = Ok s.
Proof. intros H Hs. unfold env_text. by rewrite H, (proj2 (nonempty_spec s)). Qed.

Lemma envelope_from_to_dict e :
  envelope_ok e -> envelope_from_dict (VDict (envelope_to_dict e)) = Ok e.
Proof.
  intros He. rewrite <- (envelope_of_ok e He). destruct He.
  destruct e as [o tc tn a w ei ev bp v]; cbn -[strict_json] in *.
  unfold envelope_from_dict, env_text, envelope_to_dict. cbn -[envelope].
  destruct bp as [p|], ei as [i|], ev as [n|]; cbn -[envelope];
  try (destruct (eok_expected0 _ eq_refl) as [Hn Hne]; try done).
  all: repeat (rewrite (proj2 (nonempty_spec _)) by done); cbn -[envelope].
  all: unfold env_optional_text, env_optional_version; cbn -[envelope].
  all: try rewrite (blank_nonempty _ (eok_entity0 _ eq_refl)); cbn -[envelope].
  all: try (rewrite (proj2 (Z.ltb_ge _ _)) by lia); done.
Qed.

(** A representative envelope. *)
Definition sample_envelope : DurableActionEnvelope :=
  mkEnvelope "op-1" "call-1" "transfer" [("amount", VInt 10); ("to", VStr "acct")] "w-1"
    (Some "acct") (Some 3) None 1.

(** Every envelope the constructor accepts is recovered unchanged from its
    serialised form: [from_dict] is a left inverse of [to_dict], optional fields
    and nested arguments included. *)
Theorem envelope_round_trip o tc tn a w ei ev bp v e :
  envelope o tc tn a w ei ev bp v = Ok e ->
  envelope_from_dict (VDict (envelope_to_dict e)) = Ok e.
Proof. intros [_ He]%envelope_Ok. by apply envelope_from_to_dict. Qed.

Lemma envelope_round_trip_witness :
  envelope_from_dict (VDict (envelope_to_dict sample_envelope)) = Ok sample_envelope.
Proof.
  apply (envelope_round_trip "op-1" "call-1" "transfer"
           [("amount", VInt 10); ("to", VStr "acct")] "w-1" (Some "acct") (Some 3) None 1).
  vm_compute; reflexivity.
Defined.

(** ** Strict equality of envelopes, field by field *)

Lemma dget_app {V : Type} k (d1 d2 : dict V) :
  dget k (d1 ++ d2)%list = match dget k d1 with Some v => Some v | None => dget k d2 end.
Proof.
  induction d1 as [|[k' v] d1 IH]; simpl; [done|]. by destruct (String.eqb k k').
Qed.

Lemma dget_opt_field {A : Type} key (f : A -> pyval) o k :
  dget k (opt_field key f o) = if String.eqb k key then f <$> o else None.
Proof. destruct o; simpl; by destruct (String.eqb k key). Qed.

Lemma dget_envelope e k :
  dget k (envelope_to_dict e) =
  if String.eqb k "version" then Some (VInt (ea_version e))
  else if String.eqb k "operationId" then Some (VStr (ea_operation_id e))
  else if String.eqb k "toolCallId" then Some (VStr (ea_tool_call_id e))
  else if String.eqb k "toolName" then Some (VStr (ea_tool_name e))
  else if String.eqb k "arguments" then Some (VDict (ea_arguments e))
  else if String.eqb k "writeId" then Some (VStr (ea_write_id e))
  else if String.eqb k "entityId" then VStr <$> ea_entity_id e
  else if String.eqb k "expectedEntityVersion" then VInt <$> ea_expected_entity_version e
  else if String.eqb k "businessPreconditions" then VDict <$> ea_business_preconditions e
  else None.
Proof.
  unfold envelope_to_dict. rewrite !dget_app, !dget_opt_field. cbn [dget].
  destruct (String.eqb_spec k "version"); [done|].
  destruct (String.eqb_spec k "operationId"); [done|].
  destruct (String.eqb_spec k "toolCallId"); [done|].
  destruct (String.eqb_spec k "toolName"); [done|].
  destruct (String.eqb_spec k "arguments"); [done|].
  destruct (String.eqb_spec k "writeId"); [done|].
  destruct (String.eqb_spec k "entityId") as [->|]; [by destruct (ea_entity_id e)|].
  destruct (String.eqb_spec k "expectedEntityVersion") as [->|];
    [by destruct (ea_expected_entity_version e)|].
  destruct (String.eqb k "businessPreconditions"); by try destruct (_ <$> _).
Qed.

Lemma envelope_to_dict_wf e : dict_wf (envelope_to_dict e).
Proof.
  unfold dict_wf, envelope_to_dict.
  destruct (ea_entity_id e), (ea_expected_entity_version e), (ea_business_preconditions e);
    apply (bool_decide_unpack _); vm_compute; exact I.
Qed.

Definition opt_json_equal (o1 o2 : option pydict) : bool :=
  match o1, o2 with
  | Some p1, Some p2 => strict_json_equal (VDict p1) (VDict p2)
  | None, None => true
  | _, _ => false
  end.

Record envelope_match (e1 e2 : DurableActionEnvelope) : Prop := {
  em_version : ea_version e1 = ea_version e2;
  em_operation : ea_operation_id e1 = ea_operation_id e2;
  em_tool_call : ea_tool_call_id e1 = ea_tool_call_id e2;
  em_tool_name : ea_tool_name e1 = ea_tool_name e2;
  em_arguments : strict_json_equal (VDict (ea_arguments e1)) (VDict (ea_arguments e2)) = true;
  em_write : ea_write_id e1 = ea_write_id e2;
  em_entity : ea_entity_id e1 = ea_entity_id e2;
  em_expected : ea_expected_entity_version e1 = ea_expected_entity_version e2;
  em_preconditions :
    opt_json_equal (ea_business_preconditions e1) (ea_business_preconditions e2) = true
}.

Lemma entry_eqb_str s1 s2 : entry_eqb (Some (VStr s1)) (Some (VStr s2)) <-> s1 = s2.
Proof. simpl. apply String.eqb_eq. Qed.
Lemma entry_eqb_int n1 n2 : entry_eqb (Some (VInt n1)) (Some (VInt n2)) <-> n1 = n2.
Proof. simpl. apply Z.eqb_eq. Qed.
Lemma entry_eqb_opt_str (o1 o2 : option string) :
  entry_eqb (VStr <$> o1) (VStr <$> o2) <-> o1 = o2.
Proof. destruct o1, o2; simpl; rewrite ?String.eqb_eq; naive_solver. Qed.
Lemma entry_eqb_opt_int (o1 o2 : option Z) :
  entry_eqb (VInt <$> o1) (VInt <$> o2) <-> o1 = o2.
Proof. destruct o1, o2; simpl; rewrite ?Z.eqb_eq; naive_solver. Qed.
Lemma entry_eqb_opt_dict o1 o2 :
  entry_eqb (VDict <$> o1) (VDict <$> o2) <-> opt_json_equal o1 o2 = true.
Proof. destruct o1, o2; done. Qed.

Ltac envelope_field H k :=
  specialize (H k); rewrite !dget_envelope in H; cbn [String.eqb Ascii.eqb Bool.eqb] in H;
  rewrite ?entry_eqb_int, ?entry_eqb_str, ?entry_eqb_opt_str, ?entry_eqb_opt_int,
          ?entry_eqb_opt_dict in H; exact H.

Lemma envelope_eq_match e1 e2 : envelope_eq e1 e2 = true <-> envelope_match e1 e2.
Proof.
  unfold envelope_eq. rewrite strict_dict by apply envelope_to_dict_wf. unfold dict_eqb. split.
  - intros H. split.
    + envelope_field H "version".
    + envelope_field H "operationId".
    + envelope_field H "toolCallId".
    + envelope_field H "toolName".
    + envelope_field H "arguments".
    + envelope_field H "writeId".
    + envelope_field H "entityId".
    + envelope_field H "expectedEntityVersion".
    + envelope_field H "businessPreconditions".
  - intros [Hv Ho Htc Htn Ha Hw He Hx Hp] k. rewrite !dget_envelope.
    repeat match goal with |- context [String.eqb k ?s] => destruct (String.eqb k s) end;
      rewrite ?entry_eqb_int, ?entry_eqb_str, ?entry_eqb_opt_str, ?entry_eqb_opt_int,
              ?entry_eqb_opt_dict; done.
Qed.

(** The envelope an execution with a binding describes. *)
Definition execution_envelope (x : Execution) (b : BusinessBinding) : DurableActionEnvelope :=
  mkEnvelope (ex_operation_id x) (ex_tool_call_id x) (ex_tool_name x) (ex_arguments x)
    (ex_write_id x) (bb_entity_id b) (bb_expected_entity_version b)
    (bb_business_preconditions b) 1.

Definition own_binding (e : DurableActionEnvelope) : BusinessBinding :=
  mkBinding (ea_entity_id e) (ea_expected_entity_version e) (ea_business_preconditions e).

Lemma assert_execution_match e x binding :
  assert_execution e x binding = Ok tt ->
  envelope_match (execution_envelope x (default (own_binding e) binding)) e.
Proof.
  unfold assert_execution. intros H. res_inv H.
  apply envelope_Ok in E as [-> _]. by apply envelope_eq_match.
Qed.

(** The check made before a durable action is executed passes exactly when
    the execution describes a well-formed action every field of which agrees with
    the persisted envelope: identifiers equal, arguments and preconditions equal
    as typed JSON values. *)
Theorem assert_execution_iff e x binding :
  assert_execution e x binding = Ok tt <->
  envelope_ok (execution_envelope x (default (own_binding e) binding)) /\
  envelope_match (execution_envelope x (default (own_binding e) binding)) e.
Proof.
  unfold assert_execution. fold (own_binding e).
  replace (match binding with Some b => b | None => own_binding e end)
    with (default (own_binding e) binding) by by destruct binding.
  set (a := execution_envelope x (default (own_binding e) binding)). split.
  - intros H. res_inv H. apply envelope_Ok in E as [-> Hok].
    split; [exact Hok | by apply envelope_eq_match].
  - intros [Hok Hm]. pose proof (envelope_of_ok _ Hok) as Henv.
    unfold a, execution_envelope in Henv. cbn -[envelope] in Henv. rewrite Henv. cbn [rbind].
    apply envelope_eq_match in Hm. unfold envelope_eq in Hm.
    unfold a, execution_envelope in Hm. by rewrite Hm.
Qed.

(** Strict equality identifies the two float zeros, the digest does not: two
    argument objects that [strict_json_equal] accepts as the same action need not
    have the same action hash. *)
Theorem equal_actions_may_hash_differently :
  exists a b, strict_json_equal (VDict a) (VDict b) = true /\
              durable_action_digest a <> durable_action_digest b.
Proof.
  exists [("amount", VFloat (SpecFloat.S754_zero false))],
         [("amount", VFloat (SpecFloat.S754_zero true))].
  split; [vm_compute; reflexivity|]. vm_compute. discriminate.
Qed.
