(* ===== verification/Canonical.v ===== *)
(** * Canonical JSON text determines the value

    [json_loads] inverts [json_canonical] on values without floats, up to the
    order of dictionary keys.  Hence equal canonical texts - the input of every
    digest an approval is bound to - mean strictly equal values. *)

From S2P Require Import Prelude PyDict Text Sha256 PyVal Json JsonParse DurableAction.
From stdpp Require Import pretty.
From Stdlib Require Import String Ascii.

#[local] Open Scope string_scope.
#[local] Open Scope bool_scope.
#[local] Open Scope Z_scope.

(** ** Text *)

Lemma append_cons c s t : String c s ++ t = String c (s ++ t).
Proof. done. Qed.

Lemma append_assoc s t u : (s ++ t) ++ u = s ++ (t ++ u).
Proof. induction s as [|c s IH]; [done|]. by rewrite !append_cons, IH. Qed.

Lemma append_empty s : s ++ "" = s.
Proof. induction s as [|c s IH]; [done|]. by rewrite append_cons, IH. Qed.

Lemma length_append s t : String.length (s ++ t) = (String.length s + String.length t)%nat.
Proof. induction s as [|c s IH]; [done|]. rewrite append_cons. simpl. by rewrite IH. Qed.

Lemma str_join_cons x y l : str_join "," (x :: y :: l) = x ++ "," ++ str_join "," (y :: l).
Proof. done. Qed.

(** ** Strings *)

Lemma parse_escaped_char fuel c t :
  parse_string (S fuel) (json_escape_char c ++ t) =
  let! rest := parse_string fuel t in Ok (String c (fst rest), snd rest).
Proof. destruct c as [[] [] [] [] [] [] [] []]; reflexivity. Qed.

Lemma escape_char_length c : (1 <= String.length (json_escape_char c))%nat.
Proof. destruct c as [[] [] [] [] [] [] [] []]; simpl; lia. Qed.

Lemma escape_length s : (String.length s <= String.length (json_escape s))%nat.
Proof.
  induction s as [|c s IH]; simpl; [lia|]. rewrite length_append.
  pose proof (escape_char_length c). lia.
Qed.

Lemma parse_escaped s fuel t :
  (String.length s < fuel)%nat -> parse_string fuel (json_escape s ++ quote ++ t) = Ok (s, t).
Proof.
  revert fuel. induction s as [|c s IH]; intros [|fuel] Hf; simpl in Hf; [lia| |lia|].
  - reflexivity.
  - cbn [json_escape]. rewrite append_assoc, parse_escaped_char, IH by lia. done.
Qed.

(** ** Integers *)

(** [t] cannot continue an integer literal. *)
Definition value_end (t : string) : Prop :=
  match t with
  | EmptyString => True
  | String c _ => c ∈ [","%char; "]"%char; "}"%char]
  end.

Lemma pretty_char x : (x < 10)%N ->
  digit (pretty_N_char x) = Some (Z.of_N x) /\ 48 <= code (pretty_N_char x) <= 57.
Proof.
  intros H. assert (x = 0 \/ x = 1 \/ x = 2 \/ x = 3 \/ x = 4 \/ x = 5 \/ x = 6 \/ x = 7 \/ x = 8
    \/ x = 9)%N as Hx by lia.
  repeat destruct Hx as [->|Hx]; subst; vm_compute; done.
Qed.

Lemma pretty_leading_digit x : forall s, (0 < x)%N ->
  exists c r d, pretty_N_go x s = String c r /\ digit c = Some d /\ 0 < d /\
                48 <= code c <= 57 /\ digits d r = digits (Z.of_N x) s.
Proof.
  induction (N.lt_wf_0 x) as [x _ IH]. intros s Hx. rewrite pretty_N_go_step by done.
  pose proof (N.mod_lt x 10 ltac:(done)) as Hm.
  pose proof (N.div_mod x 10 ltac:(done)) as Hdm.
  destruct (pretty_char _ Hm) as [Hd Hc].
  destruct (decide (x / 10 = 0)%N) as [Hz|Hz].
  - rewrite Hz, pretty_N_go_0. eexists _, _, _. split_and!; [done|exact Hd|lia|lia|lia|].
    f_equal. lia.
  - destruct (IH (x / 10)%N ltac:(by apply N.div_lt) (String (pretty_N_char (x mod 10)) s)
      ltac:(lia)) as (c & r & d & He & Hdc & Hpos & Hcode & Hdig).
    exists c, r, d. split_and!; [done|done|done|lia|lia|].
    rewrite Hdig. cbn [digits]. rewrite Hd. f_equal. lia.
Qed.

Lemma digits_end n t : value_end t -> digits n t = (n, t).
Proof.
  destruct t as [|c t]; [done|]. intros H. cbn [digits].
  by repeat (apply elem_of_cons in H as [->|H]; [reflexivity|]); apply elem_of_nil in H.
Qed.

(** The number is complete: what follows does not make it a float. *)
Lemma number_end (n : Z) (t : string) :
  value_end t ->
  match t with
  | String c' _ =>
      if (code c' =? 46) || (code c' =? 101) || (code c' =? 69)
      then Err OutsideModel else Ok (VInt n, t)
  | EmptyString => Ok (VInt n, t)
  end = Ok (VInt n, t).
Proof.
  destruct t as [|c t]; [done|]. intros H.
  by repeat (apply elem_of_cons in H as [->|H]; [reflexivity|]); apply elem_of_nil in H.
Qed.

Lemma parse_digits (negative : bool) x t :
  (0 < x)%N -> value_end t ->
  parse_number ((if negative then "-" else "") ++ pretty_N_go x "" ++ t)
  = Ok (VInt (if negative then - Z.of_N x else Z.of_N x), t).
Proof.
  intros Hx Ht.
  assert (Hgo : pretty_N_go x "" ++ t = pretty_N_go x t).
  { clear Ht. change t with ("" ++ t) at 2. generalize "" as s. revert Hx.
    induction (N.lt_wf_0 x) as [x _ IH]. intros Hx s. rewrite !(pretty_N_go_step x) by done.
    destruct (decide (x / 10 = 0)%N) as [Hz|Hz].
    - rewrite Hz, !pretty_N_go_0. done.
    - rewrite IH; [done|by apply N.div_lt|by apply N.neq_0_lt_0]. }
  rewrite Hgo. destruct (pretty_leading_digit x t Hx) as (c & r & d & -> & Hd & Hpos & Hcode & Hdig).
  assert (Hcore : match digit c with
    | None => if code c =? 73 then Err OutsideModel else Err ValueError
    | Some d =>
        let (n, rest) := if d =? 0 then (0, r) else digits d r in
        match rest with
        | String c' _ =>
            if (code c' =? 46) || (code c' =? 101) || (code c' =? 69)
            then Err OutsideModel else Ok (VInt (if negative then - n else n), rest)
        | EmptyString => Ok (VInt (if negative then - n else n), rest)
        end
    end = Ok (VInt (if negative then - Z.of_N x else Z.of_N x), t)).
  { rewrite Hd, (proj2 (Z.eqb_neq d 0)), Hdig, digits_end by (done || lia).
    by apply number_end. }
  destruct negative; [exact Hcore|].
  change ("" ++ String c r) with (String c r). unfold parse_number.
  rewrite (proj2 (Z.eqb_neq (code c) 45)) by lia. exact Hcore.
Qed.

Lemma parse_integer z t :
  value_end t -> parse_number (pretty z ++ t) = Ok (VInt z, t).
Proof.
  intros Ht. destruct z as [|p|p].
  - change (pretty 0 ++ t) with (String "0" t). unfold parse_number. simpl.
    by apply number_end.
  - exact (parse_digits false (Npos p) t ltac:(done) Ht).
  - exact (parse_digits true (Npos p) t ltac:(done) Ht).
Qed.

(** ** Values *)

Fixpoint float_free (v : pyval) : bool :=
  match v with
  | VFloat _ => false
  | VList l => forallb float_free l
  | VDict d => forallb (fun kv => float_free (snd kv)) d
  | _ => true
  end.

(** The value with the keys of every dictionary sorted. *)
Fixpoint json_sorted (v : pyval) : pyval :=
  match v with
  | VList l => VList (map json_sorted l)
  | VDict d => VDict (sort_keys (map (fun kv => (fst kv, json_sorted (snd kv))) d))
  | _ => v
  end.

Section SortKeys.
Context {V W : Type}.
Variable f : V -> W.

Definition map_values (d : dict V) : dict W := map (fun kv => (fst kv, f (snd kv))) d.

Lemma insert_key_map kv d :
  insert_key (fst kv, f (snd kv)) (map_values d) = map_values (insert_key kv d).
Proof.
  induction d as [|kv' d IH]; [done|]. simpl.
  destruct (String.leb (fst kv) (fst kv')); [done|]. simpl. by rewrite <- IH.
Qed.

Lemma sort_keys_map d : sort_keys (map_values d) = map_values (sort_keys d).
Proof.
  induction d as [|kv d IH]; [done|].
  change (insert_key (fst kv, f (snd kv)) (sort_keys (map_values d))
          = map_values (insert_key kv (sort_keys d))).
  by rewrite IH, insert_key_map.
Qed.

Lemma map_values_keys d : dkeys (map_values d) = dkeys d.
Proof. unfold dkeys, map_values. by rewrite map_map. Qed.
End SortKeys.

Lemma insert_key_perm {V} (kv : string * V) d : Permutation (insert_key kv d) (kv :: d).
Proof.
  induction d as [|kv' d IH]; simpl; [done|].
  destruct (String.leb _ _); [done|]. rewrite IH. apply perm_swap.
Qed.

Lemma sort_keys_perm {V} (d : dict V) : Permutation (sort_keys d) d.
Proof.
  induction d as [|kv d IH]; [done|]. simpl. rewrite insert_key_perm. by apply perm_skip.
Qed.

(** The first character of a canonical text is neither a space nor a closing
    bracket. *)
Definition text_start (s : string) : Prop :=
  exists c r, s = String c r /\ json_space c = false /\
              (code c =? 93) = false /\ (code c =? 125) = false.

Lemma skip_text s t : text_start s -> skip_space (s ++ t) = s ++ t.
Proof. intros (c & r & -> & Hc & _). rewrite append_cons. cbn [skip_space]. by rewrite Hc. Qed.

Lemma skip_end t : value_end t -> skip_space t = t.
Proof.
  destruct t as [|c t]; [done|]. intros H.
  by repeat (apply elem_of_cons in H as [->|H]; [reflexivity|]); apply elem_of_nil in H.
Qed.

Lemma pretty_start (z : Z) : exists c r, pretty z = String c r /\ (c = "-"%char \/ 48 <= code c <= 57).
Proof.
  destruct z as [|p|p].
  - exists "0"%char, "". split; [done|]. by right.
  - destruct (pretty_leading_digit (Npos p) "" ltac:(done)) as (c & r & d & He & _ & _ & Hc & _).
    exists c, r. split; [exact He|]. by right.
  - eexists _, _. split; [reflexivity|]. by left.
Qed.

Lemma digit_start c : 48 <= code c <= 57 ->
  json_space c = false /\ (code c =? 93) = false /\ (code c =? 125) = false.
Proof.
  intros H. unfold json_space. rewrite !(proj2 (Z.eqb_neq _ _)) by lia. done.
Qed.

Lemma canonical_start v : float_free v = true -> text_start (json_canonical v).
Proof.
  intros Hf. unfold text_start.
  destruct v as [|[]|z|f|s|l|d]; try (eexists _, _; split_and!; reflexivity); [|done].
  destruct (pretty_start z) as (c & r & Hz & Hc). exists c, r. split; [exact Hz|].
  destruct Hc as [->|Hc]; [done|]. by apply digit_start.
Qed.

Lemma join_start x l : text_start x -> text_start (str_join "," (x :: l)).
Proof.
  intros (c & r & -> & Hc). destruct l as [|y l]; [by exists c, r|].
  rewrite str_join_cons, append_cons. by eexists _, _.
Qed.

Lemma end_comma t : value_end ("," ++ t).
Proof. left. Qed.
Lemma end_bracket t : value_end ("]" ++ t).
Proof. right. left. Qed.
Lemma end_brace t : value_end ("}" ++ t).
Proof. right. right. left. Qed.
#[local] Hint Resolve end_comma end_bracket end_brace : core.

(** ** Reading back

    A text of values, with the members of each object in some order, and the value
    that reading it returns *)
Section Reading.
Variable text : pyval -> string.
Variable arranged : pyval -> pyval.
Hypothesis Hstart : forall v, float_free v = true -> text_start (text v).

(** [v] can be read back in front of any [t] that ends a value. *)
Definition reads_back (v : pyval) : Prop :=
  forall fuel t, (String.length (text v) < fuel)%nat -> value_end t ->
    parse_value fuel (text v ++ t) = Ok (arranged v, t).

Lemma parse_value_number fuel z t :
  value_end t -> parse_value (S fuel) (pretty z ++ t) = Ok (VInt z, t).
Proof.
  intros Ht. rewrite <- (parse_integer z t Ht).
  destruct (pretty_start z) as (c & r & -> & Hc). rewrite append_cons. cbn [parse_value].
  destruct Hc as [->|Hc]; [reflexivity|].
  by rewrite !(proj2 (Z.eqb_neq (code c) _)) by lia.
Qed.

Lemma reads_elements l : forall acc fuel t,
  l <> [] -> Forall reads_back l -> Forall (fun v => float_free v = true) l ->
  (String.length (str_join "," (map text l)) + 1 < fuel)%nat ->
  parse_elements fuel acc (str_join "," (map text l) ++ "]" ++ t)
  = Ok ((acc ++ map arranged l)%list, t).
Proof.
  induction l as [|v [|w l] IH]; intros acc [|fuel] t Hne Hr Hf Hfuel; try done; try lia.
  - apply Forall_cons in Hr as [Hv _]. cbn [map str_join String.concat parse_elements] in *.
    unfold str_join in *. cbn [map String.concat] in *.
    rewrite Hv; [reflexivity|lia|auto].
  - apply Forall_cons in Hr as [Hv Hr]. apply Forall_cons in Hf as [Hfv Hf].
    cbn [map] in Hfuel |- *. rewrite str_join_cons in Hfuel |- *.
    rewrite !length_append in Hfuel. change (String.length ",") with 1%nat in Hfuel.
    rewrite !append_assoc. cbn [parse_elements].
    rewrite Hv; [|lia|auto]. cbn [rbind fst snd].
    change ("," ++ ?x) with (String "," x). cbn [skip_space].
    change (json_space ",") with false. cbn iota.
    change (code "," =? 93) with false. change (code "," =? 44) with true. cbn iota.
    rewrite <- (map_cons text w l).
    rewrite skip_text by (apply join_start, Hstart; by inversion Hf).
    rewrite (IH (acc ++ [arranged v])%list); [|done|done|done|cbn [map]; lia].
    by rewrite <- app_assoc.
Qed.

(** The double quote. *)
Definition dq : ascii := ascii_of_N 34.

(** One member of an object's text. *)
Definition member_text (kv : string * pyval) : string :=
  json_string (fst kv) ++ ":" ++ text (snd kv).

Lemma member_shape k v t :
  member_text (k, v) ++ t
  = String dq (json_escape k ++ quote ++ String ":" (text v ++ t)).
Proof. unfold member_text, json_string. simpl. by rewrite !append_assoc. Qed.

Lemma member_start kv : text_start (member_text kv).
Proof. destruct kv. eexists _, _. split_and!; reflexivity. Qed.

Lemma parse_member fuel acc k v t u (r : res (pydict * string)) :
  reads_back v -> float_free v = true ->
  (String.length (text v) < fuel)%nat -> value_end t ->
  k ∉ dkeys acc ->
  skip_space t = u ->
  match u with
  | String c2 s2 =>
      if code c2 =? 125 then Ok ((acc ++ [(k, arranged v)])%list, s2)
      else if code c2 =? 44
           then parse_members fuel (acc ++ [(k, arranged v)]) (skip_space s2)
           else Err ValueError
  | EmptyString => Err ValueError
  end = r ->
  parse_members (S fuel) acc (member_text (k, v) ++ t) = r.
Proof.
  intros Hv Hf Hfuel Ht Hk <- Hrest. rewrite member_shape. cbn [parse_members].
  change (code dq =? 34) with true. cbn [negb].
  rewrite parse_escaped.
  2:{ simpl. rewrite length_append. pose proof (escape_length k). lia. }
  cbn [rbind fst snd]. cbn [skip_space]. change (json_space ":") with false. cbn iota.
  change (code ":" =? 58) with true. cbn [negb].
  rewrite skip_text by by apply Hstart.
  rewrite Hv by done. cbn [rbind fst snd]. rewrite dset_fresh by done. exact Hrest.
Qed.

Lemma reads_members d : forall acc fuel t,
  d <> [] -> Forall reads_back (dvalues d) -> Forall (fun v => float_free v = true) (dvalues d) ->
  NoDup (dkeys acc ++ dkeys d) ->
  (String.length (str_join "," (map member_text d)) + 1 < fuel)%nat ->
  parse_members fuel acc (str_join "," (map member_text d) ++ "}" ++ t)
  = Ok ((acc ++ map_values arranged d)%list, t).
Proof.
  induction d as [|[k v] [|[k' w] d] IH]; intros acc [|fuel] t Hne Hr Hf Hnd Hfuel; try done; try lia.
  - apply Forall_cons in Hr as [Hv _]. apply Forall_cons in Hf as [Hfv _].
    unfold str_join in *. cbn [map String.concat] in *.
    assert (Hlen : (String.length (text v) < fuel)%nat).
    { unfold member_text in Hfuel. rewrite !length_append in Hfuel. simpl in Hfuel. lia. }
    eapply parse_member; [done|done|done|auto| |reflexivity|reflexivity].
    apply NoDup_app in Hnd as (_ & Hdis & _). intros Hin. apply (Hdis _ Hin). left.
  - apply Forall_cons in Hr as [Hv Hr]. apply Forall_cons in Hf as [Hfv Hf].
    cbn [map] in Hfuel |- *. rewrite str_join_cons in Hfuel |- *.
    rewrite !length_append in Hfuel. change (String.length ",") with 1%nat in Hfuel.
    rewrite !append_assoc.
    assert (Hlen : (String.length (text v) < fuel)%nat).
    { unfold member_text at 1 in Hfuel. rewrite !length_append in Hfuel. simpl snd in Hfuel. lia. }
    eapply parse_member; [done|done|done|auto| |reflexivity|].
    { apply NoDup_app in Hnd as (_ & Hdis & _). intros Hin. apply (Hdis _ Hin). left. }
    change ("," ++ ?x) with (String "," x). cbn [skip_space].
    change (json_space ",") with false. cbn iota.
    change (code "," =? 125) with false. change (code "," =? 44) with true. cbn iota.
    rewrite <- (map_cons member_text (k', w) d).
    rewrite skip_text by apply join_start, member_start.
    rewrite (IH (acc ++ [(k, arranged v)])%list);
      [|done|done|done| |cbn [map]; lia].
    { by rewrite <- app_assoc. }
    unfold dkeys in *. rewrite map_app. simpl in *. rewrite <- app_assoc. exact Hnd.
Qed.

Lemma substring_all t n : (String.length t <= n)%nat -> substring 0 n t = t.
Proof.
  revert n. induction t as [|c t IH]; intros [|n] H; simpl in *; try done; try lia.
  rewrite IH by lia. done.
Qed.

Lemma drop_literal_Ok literal v t : drop_literal literal v (literal ++ t) = Ok (v, t).
Proof.
  unfold drop_literal, starts_with. rewrite length_append.
  assert (Hp : String.prefix literal (literal ++ t) = true).
  { induction literal as [|c l IH]; [by destruct t|]. rewrite append_cons. simpl.
    destruct (ascii_dec c c) as [_|Hne]; [exact IH|by destruct Hne]. }
  rewrite Hp. do 2 f_equal.
  assert (Hs : forall n, substring (String.length literal) (n + String.length t) (literal ++ t) = t).
  { clear Hp. induction literal as [|c l IH]; intros n.
    - simpl. apply substring_all. lia.
    - rewrite append_cons. simpl. apply IH. }
  apply Hs.
Qed.

Lemma parse_value_list l fuel t :
  Forall reads_back l -> Forall (fun v => float_free v = true) l ->
  (String.length (str_join "," (map text l)) + 1 < fuel)%nat ->
  parse_value (S fuel) (String "[" (str_join "," (map text l) ++ "]" ++ t))
  = Ok (VList (map arranged l), t).
Proof.
  intros Hr Hf Hfuel. destruct l as [|v l]; [done|].
  pose proof (join_start (text v) (map text l)) as Hs.
  apply Forall_cons in Hf as Hf'. destruct Hf' as [Hv _].
  specialize (Hs (Hstart _ Hv)).
  cbn [parse_value]. change (text v :: map text l)
    with (map text (v :: l)) in *.
  rewrite skip_text by done.
  rewrite reads_elements by done.
  destruct Hs as (c & r & -> & _ & Hc & _). rewrite append_cons.
  change (code "[" =? 34) with false. change (code "[" =? 123) with false.
  change (code "[" =? 91) with true. cbn iota. by rewrite Hc.
Qed.

Lemma parse_value_dict d fuel t :
  dict_wf d -> Forall reads_back (dvalues d) ->
  Forall (fun v => float_free v = true) (dvalues d) ->
  (String.length (str_join "," (map member_text d)) + 1 < fuel)%nat ->
  parse_value (S fuel) (String "{" (str_join "," (map member_text d) ++ "}" ++ t))
  = Ok (VDict (map_values arranged d), t).
Proof.
  intros Hd Hr Hf Hfuel. destruct d as [|kv d]; [done|].
  pose proof (join_start (member_text kv) (map member_text d) (member_start kv)) as Hs.
  cbn [parse_value]. change (member_text kv :: map member_text d)
    with (map member_text (kv :: d)) in *.
  rewrite skip_text by done.
  rewrite reads_members by done.
  destruct Hs as (c & r & -> & _ & _ & Hc). rewrite append_cons.
  change (code "{" =? 34) with false.
  change (code "{" =? 123) with true. cbn iota. by rewrite Hc.
Qed.
End Reading.

Lemma canonical_dict d :
  json_canonical (VDict d) = "{" ++ str_join "," (map (member_text json_canonical) (sort_keys d)) ++ "}".
Proof.
  cbn [json_canonical].
  change (map (fun kv => (fst kv, json_canonical (snd kv))) d) with (map_values json_canonical d).
  rewrite sort_keys_map. unfold map_values. by rewrite map_map.
Qed.

Lemma sorted_dict d : json_sorted (VDict d) = VDict (map_values json_sorted (sort_keys d)).
Proof. cbn [json_sorted]. by rewrite <- sort_keys_map. Qed.

Lemma json_reads_back v : json_wf v -> float_free v = true -> reads_back json_canonical json_sorted v.
Proof.
  induction v as [|b|z|f|s|l IH|d IH] using pyval_nested_ind; intros Hwf Hf [|fuel] t Hfuel Ht;
    try lia; try done.
  - apply (drop_literal_Ok "null").
  - destruct b; [apply (drop_literal_Ok "true") | apply (drop_literal_Ok "false")].
  - by apply parse_value_number.
  - unfold json_canonical, json_string in *.
    rewrite !append_assoc. change (quote ++ ?x) with (String dq x) at 1. cbn [parse_value].
    change (code dq =? 34) with true. cbn iota. rewrite parse_escaped; [done|].
    simpl. rewrite length_append. pose proof (escape_length s). lia.
  - assert (Hl : Forall (reads_back json_canonical json_sorted) l /\ Forall (fun v => float_free v = true) l).
    { simpl in Hf. rewrite forallb_elem in Hf. apply json_wf_list in Hwf.
      rewrite !Forall_forall in *. split; auto. }
    destruct Hl as [Hr Hff].
    assert (Ht' : json_canonical (VList l) ++ t
                  = String "[" (str_join "," (map json_canonical l) ++ "]" ++ t)).
    { cbn [json_canonical]. by rewrite !append_assoc. }
    rewrite Ht'. apply parse_value_list; [apply canonical_start|done|done|].
    cbn [json_canonical] in Hfuel. rewrite !length_append in Hfuel. simpl in Hfuel. lia.
  - assert (Hd : dict_wf d /\ Forall (reads_back json_canonical json_sorted) (dvalues d)
                 /\ Forall (fun v => float_free v = true) (dvalues d)).
    { simpl in Hf. rewrite forallb_elem in Hf. apply json_wf_dict in Hwf as [Hd Hw].
      split; [done|]. rewrite !Forall_forall in *. split; [intros x Hx; apply IH; auto|];
        intros; unfold dvalues in *; rewrite list_elem_of_fmap in *; naive_solver. }
    destruct Hd as (Hd & Hr & Hff).
    assert (Hp : Permutation (dvalues (sort_keys d)) (dvalues d)).
    { unfold dvalues. by rewrite sort_keys_perm. }
    rewrite <- Hp in Hr, Hff. rewrite canonical_dict in *. rewrite sorted_dict.
    rewrite !append_assoc. apply parse_value_dict; [apply canonical_start| |done|done|].
    { unfold dict_wf, dkeys. by rewrite sort_keys_perm. }
    rewrite !length_append in Hfuel. simpl in Hfuel. lia.
Qed.

(** Reading back canonical text returns the value with sorted keys. *)
Lemma json_loads_canonical v :
  json_wf v -> float_free v = true -> json_loads (json_canonical v) = Ok (json_sorted v).
Proof.
  intros Hwf Hf. unfold json_loads.
  pose proof (skip_text (json_canonical v) "" (canonical_start v Hf)) as Hs.
  rewrite append_empty in Hs. rewrite Hs.
  rewrite <- (append_empty (json_canonical v)) at 2.
  by rewrite json_reads_back by (done || lia).
Qed.

(** ** Canonical text and strict equality *)

Lemma compare_trans_le s : forall t u,
  String.compare s t <> Gt -> String.compare t u <> Gt -> String.compare s u <> Gt.
Proof.
  induction s as [|c s IH]; intros [|d t] [|e u] H1 H2; simpl in *; try done.
  destruct (Ascii.compare c d) eqn:E1; [|clear H1|done].
  - apply Ascii.compare_eq_iff in E1 as ->.
    destruct (Ascii.compare d e); [by eapply IH|done|done].
  - destruct (Ascii.compare d e) eqn:E2; [| |done];
      unfold Ascii.compare in *; rewrite ?N.compare_lt_iff, ?N.compare_eq_iff in *.
    + assert (N.compare (N_of_ascii c) (N_of_ascii e) = Lt) as -> by (apply N.compare_lt_iff; lia).
      done.
    + assert (N.compare (N_of_ascii c) (N_of_ascii e) = Lt) as -> by (apply N.compare_lt_iff; lia).
      done.
Qed.

Lemma leb_not_Gt s t : String.leb s t = true <-> String.compare s t <> Gt.
Proof. unfold String.leb. destruct (String.compare s t); split; done. Qed.

Lemma leb_trans s t u :
  String.leb s t = true -> String.leb t u = true -> String.leb s u = true.
Proof. rewrite !leb_not_Gt. apply compare_trans_le. Qed.

Lemma leb_flip s t : String.leb s t = false -> String.leb t s = true.
Proof.
  unfold String.leb. rewrite (String.compare_antisym t s). by destruct (String.compare s t).
Qed.

Definition key_le {V} (x y : string * V) : Prop := String.leb (fst x) (fst y) = true.

Lemma insert_key_sorted {V} (kv : string * V) d :
  StronglySorted key_le d -> StronglySorted key_le (insert_key kv d).
Proof.
  induction 1 as [|x d Hd IH Hx]; simpl; [by repeat constructor|].
  destruct (String.leb (fst kv) (fst x)) eqn:E.
  - constructor; [by constructor|]. constructor; [done|].
    eapply Forall_impl; [exact Hx|]. intros y Hy. by eapply leb_trans.
  - constructor; [done|]. rewrite insert_key_perm. constructor; [by apply leb_flip|done].
Qed.

Lemma sort_keys_sorted {V} (d : dict V) : StronglySorted key_le (sort_keys d).
Proof. induction d as [|kv d IH]; [constructor|]. simpl. by apply insert_key_sorted. Qed.

(** Sorting forgets the insertion order of a dictionary. *)
Lemma sort_keys_equiv {V} (d1 d2 : dict V) :
  dict_wf d1 -> dict_wf d2 -> dict_equiv d1 d2 -> sort_keys d1 = sort_keys d2.
Proof.
  intros H1 H2 He.
  assert (Hnd : forall d : dict V, dict_wf d -> NoDup d).
  { intros d Hd. by apply (NoDup_fmap_1 fst). }
  assert (Hp : Permutation d1 d2).
  { apply NoDup_Permutation; [by apply Hnd..|]. intros [k v]. split; intros Hin.
    - apply dget_Some_elem. rewrite <- He. by apply elem_dget.
    - apply dget_Some_elem. rewrite He. by apply elem_dget. }
  apply (StronglySorted_unique_strong key_le);
    [| apply sort_keys_sorted | apply sort_keys_sorted | by rewrite !sort_keys_perm].
  intros [k v] [k' v'] Hx Hy Hxy Hyx. unfold key_le in *. simpl in *.
  rewrite sort_keys_perm in Hx. rewrite sort_keys_perm, <- Hp in Hy.
  pose proof (String.leb_antisym _ _ Hxy Hyx) as ->.
  apply elem_dget in Hx; [|done]. apply elem_dget in Hy; [|done]. congruence.
Qed.

Lemma dget_map_values {V W} (f : V -> W) d k : dget k (map_values f d) = f <$> dget k d.
Proof. induction d as [|[k' v] d IH]; [done|]. simpl. by destruct (String.eqb k k'). Qed.

Lemma map_values_wf {V W} (f : V -> W) (d : dict V) : dict_wf d -> dict_wf (map_values f d).
Proof. unfold dict_wf. by rewrite map_values_keys. Qed.

Lemma sort_keys_wf {V} (d : dict V) : dict_wf d -> dict_wf (sort_keys d).
Proof. unfold dict_wf, dkeys. by rewrite sort_keys_perm. Qed.

Lemma dget_sort_keys {V} (d : dict V) k : dict_wf d -> dget k (sort_keys d) = dget k d.
Proof.
  intros Hd. pose proof (sort_keys_wf _ Hd) as Hs.
  destruct (dget k d) as [v|] eqn:E.
  - apply elem_dget; [done|]. rewrite sort_keys_perm. by apply dget_Some_elem.
  - apply dget_None. apply dget_None in E. unfold dkeys in *. by rewrite sort_keys_perm.
Qed.

Lemma json_sorted_wf v : json_wf v -> json_wf (json_sorted v).
Proof.
  induction v as [|b|z|f|s|l IH|d IH] using pyval_nested_ind; intros Hwf; try done.
  - apply json_wf_list in Hwf. cbn [json_sorted]. constructor. rewrite Forall_fmap.
    rewrite Forall_forall in *. intros x Hx. by apply IH, Hwf.
  - apply json_wf_dict in Hwf as [Hd Hv]. rewrite sorted_dict. constructor.
    { by apply map_values_wf, sort_keys_wf. }
    unfold dvalues, map_values in *. rewrite map_map. simpl.
    rewrite Forall_forall in *. intros x (kv & -> & Hin)%list_elem_of_fmap.
    rewrite sort_keys_perm in Hin. assert (snd kv ∈ map snd d) by by apply list_elem_of_fmap_2.
    by apply IH, Hv.
Qed.

Lemma sorted_strictly_equal v : json_wf v -> strict_json_equal v (json_sorted v) = true.
Proof.
  induction v as [|b|z|f|s|l IH|d IH] using pyval_nested_ind; intros Hwf;
    try (by apply strict_json_equal_refl).
  - apply json_wf_list in Hwf. cbn [json_sorted]. apply strict_list. unfold list_eqb.
    clear - IH Hwf. induction Hwf as [|x l Hx Hl IHl]; [constructor|].
    apply Forall_cons in IH as [IHx IHr]. constructor; auto.
  - apply json_wf_dict in Hwf as [Hd Hv]. rewrite sorted_dict. apply strict_dict; [done|].
    intros k. rewrite dget_map_values, dget_sort_keys by done.
    destruct (dget k d) as [v|] eqn:E; [|done]. simpl.
    rewrite Forall_forall in *. pose proof (dget_Some_value _ _ _ E). auto.
Qed.

Lemma equal_text v : forall w,
  json_wf v -> json_wf w -> float_free v = true -> strict_json_equal v w = true ->
  json_canonical v = json_canonical w.
Proof.
  induction v as [|b|z|f|s|l IH|d IH] using pyval_nested_ind; intros w Hv Hw Hf H;
    pose proof (strict_same_type _ _ H); destruct w as [|b'|z'|f'|s'|l'|d']; try done.
  - by destruct b, b'.
  - simpl in H. apply Z.eqb_eq in H. by subst.
  - simpl in H. apply String.eqb_eq in H. by subst.
  - apply strict_list in H. apply json_wf_list in Hv, Hw. cbn [json_canonical].
    do 3 f_equal. simpl in Hf. rewrite forallb_elem in Hf. clear - IH Hv Hw Hf H.
    induction H as [|x y l l' Hxy H IHl]; [done|]. simpl.
    apply Forall_cons in IH as [IHx IH], Hv as [Hx Hv], Hw as [Hy Hw]. f_equal.
    + apply IHx; [done|done| |done]. apply Hf. left.
    + apply IHl; [done..|]. intros z Hz. apply Hf. by right.
  - apply json_wf_dict in Hv as [Hd Hv], Hw as [Hd' Hw]. apply strict_dict in H; [|done].
    cbn [json_canonical].
    change (map (fun kv => (fst kv, json_canonical (snd kv))) ?x) with (map_values json_canonical x).
    rewrite (sort_keys_equiv (map_values json_canonical d) (map_values json_canonical d'));
      [done|by apply map_values_wf..|].
    intros k. rewrite !dget_map_values. specialize (H k).
    destruct (dget k d) as [x|] eqn:E, (dget k d') as [y|] eqn:E'; simpl in *; try done.
    f_equal. pose proof (dget_Some_value _ _ _ E). pose proof (dget_Some_value _ _ _ E').
    rewrite forallb_elem in Hf. rewrite Forall_forall in *.
    apply IH; [auto..| |done]. apply dget_Some_elem in E. by apply (Hf _ E).
Qed.

(** On values without floats, canonical texts agree exactly when the values are
    strictly equal. *)
Lemma canonical_text_identifies v w :
  json_wf v -> json_wf w -> float_free v = true -> float_free w = true ->
  json_canonical v = json_canonical w <-> strict_json_equal v w = true.
Proof.
  intros Hv Hw Hfv Hfw. split; [|by apply equal_text].
  intros He. assert (Hs : json_sorted v = json_sorted w).
  { pose proof (json_loads_canonical v Hv Hfv) as H1.
    pose proof (json_loads_canonical w Hw Hfw) as H2. congruence. }
  apply (strict_json_equal_trans v (json_sorted v) w);
    [done|by apply json_sorted_wf|done|by apply sorted_strictly_equal|].
  rewrite Hs. apply strict_json_equal_sym; [done|by apply json_sorted_wf|].
  by apply sorted_strictly_equal.
Qed.

(** ** The action hash *)

(** The text the action hash is computed from. *)
Definition action_text (e : DurableActionEnvelope) : string :=
  json_canonical (VDict (envelope_to_dict e)).

(** Arguments and preconditions hold no float and repeat no key. *)
Definition exact_action (e : DurableActionEnvelope) : Prop :=
  json_wf (VDict (envelope_to_dict e)) /\ float_free (VDict (envelope_to_dict e)) = true.

Lemma exact_action_hash e : exact_action e -> action_hash e = Ok (sha256_hex (action_text e)).
Proof.
  intros [Hwf _]. unfold action_hash, durable_action_digest, validate_json_value.
  by rewrite (json_wf_strict _ Hwf).
Qed.

(** C29. The action hash identifies the action: two actions without floats have
    the same hash exactly when they are strictly equal - built in any order - unless
    SHA-256 collides on precisely their two texts. *)
Theorem action_hash_identifies_action e1 e2 :
  exact_action e1 -> exact_action e2 ->
  (sha256_hex (action_text e1) = sha256_hex (action_text e2) -> action_text e1 = action_text e2) ->
  action_hash e1 = action_hash e2 <-> envelope_eq e1 e2 = true.
Proof.
  intros H1 H2 Hsha. rewrite !exact_action_hash by done. unfold envelope_eq.
  destruct H1 as [W1 F1], H2 as [W2 F2].
  rewrite <- (canonical_text_identifies _ _ W1 W2 F1 F2). unfold action_text in *.
  split; [intros [= H]; auto | congruence].
Qed.

Definition transfer (arguments : pydict) : DurableActionEnvelope :=
  mkEnvelope "op-1" "call-1" "transfer" arguments "w-1" None None None 1.

Lemma exact_transfer a :
  json_wf (VDict a) -> float_free (VDict a) = true -> exact_action (transfer a).
Proof.
  intros Hwf Hf. split.
  - constructor; [apply envelope_to_dict_wf|]. repeat constructor; by inversion Hwf.
  - cbn in *. by rewrite Hf.
Qed.

Lemma action_hash_identifies_action_witness :
  action_hash (transfer [("amount", VInt 10); ("to", VStr "acct")])
  = action_hash (transfer [("to", VStr "acct"); ("amount", VInt 10)]) /\
  ~ (action_hash (transfer [("amount", VInt 10)]) = action_hash (transfer [("amount", VInt 11)])).
Proof.
  split.
  - apply action_hash_identifies_action; [| |reflexivity|vm_compute; reflexivity].
    all: apply exact_transfer; [|reflexivity].
    all: constructor; [apply (bool_decide_unpack _); vm_compute; exact I | repeat constructor].
  - intros H. apply action_hash_identifies_action in H; [vm_compute in H; discriminate| | |].
    1-2: apply exact_transfer; [|reflexivity];
         constructor; [apply (bool_decide_unpack _); vm_compute; exact I | repeat constructor].
    intros Hc. vm_compute in Hc. discriminate.
Defined.
