(* ===== verification/Transcript.v ===== *)
(** * Transcript integrity  (src/.../transcript.py)

    Pairing of the tool calls an assistant message announces with the tool
    results that follow it: the analysis, the closed-transcript check and the
    repair that inserts synthetic error results.  Dictionaries of pending calls
    keep the model's order; Python sets are kept as lists used only for
    membership. *)

From S2P Require Import Prelude PyDict Text PyVal.
From Stdlib Require Import String.

#[local] Open Scope string_scope.
#[local] Open Scope bool_scope.

Record UnresolvedToolCall := mkUnresolved {
  un_tool_call_id : string;
  un_tool_name : string;
  un_assistant_index : nat
}.

Definition transcript_error {A : Type} (code : string) : res A :=
  Err (TranscriptIntegrityError code).

(** The loop state of [analyze_tool_call_transcript]. *)
Record Analysis := mkAnalysis {
  an_pending : dict UnresolvedToolCall;
  an_seen_calls : list string;
  an_seen_results : list string;
  an_unresolved : list UnresolvedToolCall
}.

Definition initial_analysis : Analysis := mkAnalysis [] [] [] [].

(** The entry of a non-result message closes the books on pending calls. *)
Definition flush_pending (a : Analysis) : Analysis :=
  mkAnalysis [] (an_seen_calls a) (an_seen_results a)
    (an_unresolved a ++ dvalues (an_pending a)).

Definition is_tool_call_block (block : pyval) : option pydict :=
  match block with
  | VDict b => if is_str (jget b "type") "toolCall" then Some b else None
  | _ => None
  end.

Definition analyze_block (index : nat) (a : Analysis) (block : pyval) : res Analysis :=
  match is_tool_call_block block with
  | None => Ok a
  | Some b =>
      let! call_id := py_str (jget_or b "id" (VStr "")) in
      let! name := py_str (jget_or b "name" (VStr "")) in
      if negb (nonempty call_id) || negb (nonempty name)
      then transcript_error "invalid_tool_call" else
      if mem_str call_id (an_seen_calls a)
      then transcript_error "duplicate_tool_call_id" else
      Ok (mkAnalysis (dset call_id (mkUnresolved call_id name index) (an_pending a))
            (call_id :: an_seen_calls a) (an_seen_results a) (an_unresolved a))
  end.

Definition analyze_result (a : Analysis) (message : pydict) : res Analysis :=
  let! call_id := py_str (jget_or message "toolCallId" (VStr "")) in
  if mem_str call_id (an_seen_results a) then transcript_error "duplicate_tool_result" else
  match dget call_id (an_pending a) with
  | None => transcript_error "orphan_tool_result"
  | Some expected =>
      let! name := py_str (jget_or message "toolName" (VStr "")) in
      if negb (String.eqb name (un_tool_name expected))
      then transcript_error "tool_name_mismatch" else
      Ok (mkAnalysis (dpop call_id (an_pending a)) (an_seen_calls a)
            (call_id :: an_seen_results a) (an_unresolved a))
  end.

Definition analyze_message (index : nat) (a : Analysis) (message : pydict) : res Analysis :=
  let role := jget message "role" in
  let a := if is_str role "toolResult" then a else flush_pending a in
  if is_str role "assistant" then
    let! blocks := py_list (jget_or message "content" (VList [])) in
    foldM (analyze_block index) a blocks
  else if is_str role "toolResult" then analyze_result a message
  else Ok a.

Fixpoint analyze_from (index : nat) (a : Analysis) (messages : list pydict) : res Analysis :=
  match messages with
  | [] => Ok a
  | m :: ms => let! a' := analyze_message index a m in analyze_from (S index) a' ms
  end.

(** [analyze_tool_call_transcript] *)
Definition analyze_tool_call_transcript (messages : list pydict)
  : res (list UnresolvedToolCall) :=
  let! a := analyze_from 0 initial_analysis messages in
  Ok (an_unresolved a ++ dvalues (an_pending a))%list.

(** [validate_closed_tool_call_transcript] *)
Definition validate_closed_tool_call_transcript (messages : list pydict) : res unit :=
  let! unresolved := analyze_tool_call_transcript messages in
  match unresolved with
  | [] => Ok tt
  | _ => transcript_error "unresolved_tool_calls"
  end.

(** ** Repair *)

Definition synthetic_tool_result (now : Z) (tool_call_id tool_name code text : string) : pydict :=
  [("role", VStr "toolResult"); ("toolCallId", VStr tool_call_id);
   ("toolName", VStr tool_name);
   ("content", VList [VDict [("type", VStr "text"); ("text", VStr text)]]);
   ("details", VDict [("code", VStr code); ("synthetic", VBool true)]);
   ("isError", VBool true); ("timestamp", VInt now)].

Record Repair := mkRepair {
  rp_output : list pydict;
  rp_inserted : list pydict;
  rp_pending : dict string  (* call id -> tool name *)
}.

Section Repairing.
(** Clock reading and the texts put in synthetic results. *)
Context (now : Z) (code text : string).

Definition close_pending (r : Repair) : Repair :=
  let results := map (fun p => synthetic_tool_result now (fst p) (snd p) code text)
                     (rp_pending r) in
  mkRepair (rp_output r ++ results) (rp_inserted r ++ results) [].

Definition repair_block (r : Repair) (block : pyval) : res Repair :=
  match is_tool_call_block block with
  | None => Ok r
  | Some b =>
      match dget "id" b, dget "name" b with
      | Some id, Some name =>
          let! call_id := py_str id in
          let! tool_name := py_str name in
          Ok (mkRepair (rp_output r) (rp_inserted r) (dset call_id tool_name (rp_pending r)))
      | _, _ => Err KeyError
      end
  end.

Definition repair_message (r : Repair) (message : pydict) : res Repair :=
  let role := jget message "role" in
  let r := if is_str role "toolResult" then r else close_pending r in
  let r := mkRepair (rp_output r ++ [message]) (rp_inserted r) (rp_pending r) in
  if is_str role "assistant" then
    let! blocks := py_list (jget_or message "content" (VList [])) in
    foldM repair_block r blocks
  else if is_str role "toolResult" then
    let! call_id := py_str (jget_or message "toolCallId" (VStr "")) in
    Ok (mkRepair (rp_output r) (rp_inserted r) (dpop call_id (rp_pending r)))
  else Ok r.

(** [repair_unresolved_tool_calls]: the repaired messages and the inserted ones *)
Definition repair_unresolved_tool_calls (messages : list pydict)
  : res (list pydict * list pydict) :=
  let! _ := analyze_tool_call_transcript messages in
  let! r := foldM repair_message (mkRepair [] [] []) messages in
  let r := close_pending r in
  Ok (rp_output r, rp_inserted r).
End Repairing.

(** [sanitize_terminal_assistant_tool_calls] *)
Definition sanitize_terminal_assistant_tool_calls (message : pydict) : res pydict :=
  if negb (is_str (jget message "role") "assistant") then Ok message else
  let! failed := in_str_set (jget message "stopReason") ["error"; "aborted"] in
  if negb failed then Ok message else
  let! blocks := py_list (jget_or message "content" (VList [])) in
  Ok (dset "content"
        (VList (List.filter (fun b => match is_tool_call_block b with
                                      | Some _ => false | None => true end) blocks))
        message).

(** ** Lemmas *)

Lemma analyze_from_app i a l1 l2 :
  analyze_from i a (l1 ++ l2) =
  let! a' := analyze_from i a l1 in analyze_from (i + List.length l1) a' l2.
Proof.
  revert i a. induction l1 as [|m l1 IH]; intros i a; simpl.
  - by rewrite Nat.add_0_r.
  - destruct (analyze_message i a m); simpl; [|done]. rewrite IH.
    by rewrite Nat.add_succ_comm.
Qed.

(** *** The abstract content of a transcript *)

Definition block_call (b : pyval) : list (string * string) :=
  match is_tool_call_block b with
  | Some d => match py_str (jget_or d "id" (VStr "")), py_str (jget_or d "name" (VStr "")) with
              | Ok i, Ok n => [(i, n)]
              | _, _ => []
              end
  | None => []
  end.

(** The (id, name) pairs an assistant message announces. *)
Definition message_calls (m : pydict) : list (string * string) :=
  if is_str (jget m "role") "assistant" then
    match py_list (jget_or m "content" (VList [])) with
    | Ok bs => bs ≫= block_call
    | Err _ => []
    end
  else [].

(** The (id, name) pair a tool result answers. *)
Definition message_results (m : pydict) : list (string * string) :=
  if is_str (jget m "role") "toolResult" then
    match py_str (jget_or m "toolCallId" (VStr "")), py_str (jget_or m "toolName" (VStr "")) with
    | Ok i, Ok n => [(i, n)]
    | _, _ => []
    end
  else [].

Definition un_pair (u : UnresolvedToolCall) : string * string :=
  (un_tool_call_id u, un_tool_name u).

Definition keyed (d : dict UnresolvedToolCall) : Prop :=
  Forall (fun p => fst p = un_tool_call_id (snd p)) d.

(** What the loop state knows about the calls and results read so far. *)
Record books (calls results : list (string * string)) (a : Analysis) : Prop := {
  bk_perm : Permutation calls
    (results ++ map un_pair (an_unresolved a) ++ map un_pair (dvalues (an_pending a)))%list;
  bk_seen : forall i, i ∈ an_seen_calls a <-> i ∈ map fst calls;
  bk_nodup : NoDup (map fst calls);
  bk_ne : Forall (fun p => fst p <> "" /\ snd p <> "") calls;
  bk_wf : dict_wf (an_pending a);
  bk_keyed : keyed (an_pending a)
}.

Lemma role_exclusive m : is_str (jget m "role") "assistant" = true ->
  is_str (jget m "role") "toolResult" = false.
Proof. intros ->%is_str_spec. done. Qed.

Lemma keyed_get d k u : keyed d -> dget k d = Some u -> un_tool_call_id u = k.
Proof.
  intros Hk H%dget_Some_elem. unfold keyed in Hk. rewrite Forall_forall in Hk.
  symmetry. by apply Hk in H.
Qed.

Lemma books_flush calls results a :
  books calls results a -> books calls results (flush_pending a).
Proof.
  intros [Hp Hs Hn He Hw Hk]. split; simpl; try done; [|constructor..].
  rewrite map_app, app_nil_r. done.
Qed.

Lemma books_block calls results i a b a' :
  books calls results a -> analyze_block i a b = Ok a' ->
  books (calls ++ block_call b) results a'.
Proof.
  intros [Hp Hs Hn Hne Hw Hk] H. unfold analyze_block in H. unfold block_call.
  destruct (is_tool_call_block b) as [d|]; [|simplify_eq; by rewrite app_nil_r].
  destruct (py_str (jget_or d "id" _)) as [id|]; [|done]. cbn [rbind] in H.
  destruct (py_str (jget_or d "name" _)) as [name|]; [|done]. cbn [rbind] in H.
  destruct (nonempty id) eqn:Hid; [|done]. destruct (nonempty name) eqn:Hname; [|done].
  simpl in H. destruct (mem_str id (an_seen_calls a)) eqn:Hm; [done|]. simplify_eq.
  apply nonempty_spec in Hid, Hname. apply mem_str_false in Hm. rewrite Hs in Hm.
  assert (Hfresh : id ∉ dkeys (an_pending a)).
  { intros ([k u] & Heq & Hin)%list_elem_of_fmap. simpl in Heq. subst k. apply Hm.
    unfold keyed in Hk. rewrite Forall_forall in Hk. specialize (Hk _ Hin). simpl in Hk.
    rewrite Hp, !map_app, !elem_of_app. right. right. apply list_elem_of_fmap.
    exists (un_pair u). split; [done|]. apply list_elem_of_fmap. exists u. split; [done|].
    apply list_elem_of_fmap. by exists (id, u). }
  split; simpl.
  - rewrite dset_fresh by done. unfold dvalues. rewrite !map_app. simpl.
    rewrite !app_assoc. apply Permutation_app; [|done]. by rewrite <- !app_assoc.
  - intros j. rewrite elem_of_cons, map_app, elem_of_app, Hs. simpl. rewrite list_elem_of_singleton. tauto.
  - rewrite map_app. apply NoDup_app. split; [done|]. split; [|apply NoDup_singleton].
    intros x Hx ->%list_elem_of_singleton. done.
  - apply Forall_app. split; [done|]. by constructor.
  - by apply dset_wf.
  - unfold keyed in *. rewrite dset_fresh by done. apply Forall_app. split; [done|]. by constructor.
Qed.

Lemma books_blocks calls results i a bs a' :
  books calls results a -> foldM (analyze_block i) a bs = Ok a' ->
  books (calls ++ (bs ≫= block_call)) results a'.
Proof.
  revert calls a. induction bs as [|b bs IH]; simpl; intros calls a Hb H.
  - simplify_eq. by rewrite app_nil_r.
  - res_inv H. rewrite app_assoc. eapply IH; [|done]. by eapply books_block.
Qed.

Lemma books_result calls results a m a' :
  is_str (jget m "role") "toolResult" = true ->
  books calls results a -> analyze_result a m = Ok a' ->
  books calls (results ++ message_results m) a'.
Proof.
  intros Hrole [Hp Hs Hn Hne Hw Hk] H. unfold message_results. rewrite Hrole.
  unfold analyze_result in H.
  destruct (py_str (jget_or m "toolCallId" _)) as [id|]; [|done]. cbn [rbind] in H.
  destruct (mem_str id _); [done|]. destruct (dget id (an_pending a)) as [u|] eqn:Hu; [|done].
  destruct (py_str (jget_or m "toolName" _)) as [name|]; [|done]. cbn [rbind] in H.
  destruct (String.eqb_spec name (un_tool_name u)) as [Hname|]; [|done].
  simpl in H. simplify_eq. simpl.
  pose proof (keyed_get _ _ _ Hk Hu) as Hid. subst id. split; simpl; try done.
  - rewrite Hp. rewrite <- !app_assoc. apply Permutation_app; [done|].
    unfold dvalues at 1. rewrite (dpop_perm _ _ _ Hu) at 1. simpl. fold (un_pair u).
    symmetry. apply Permutation_middle.
  - by eapply dpop_wf.
  - unfold keyed in *. rewrite Forall_forall in *. eauto using dpop_elem.
Qed.

Lemma books_message calls results i a m a' :
  books calls results a -> analyze_message i a m = Ok a' ->
  books (calls ++ message_calls m) (results ++ message_results m) a'.
Proof.
  intros Hb H. unfold analyze_message in H. unfold message_calls.
  destruct (is_str (jget m "role") "assistant") eqn:Ha.
  - pose proof (role_exclusive _ Ha) as Hr. rewrite Hr in H.
    unfold message_results. rewrite Hr, app_nil_r.
    destruct (py_list _) as [bs|]; [|done]. simpl in H.
    eapply books_blocks; [|done]. by apply books_flush.
  - rewrite app_nil_r. destruct (is_str (jget m "role") "toolResult") eqn:Hr.
    + by eapply books_result.
    + unfold message_results. rewrite Hr, app_nil_r. simplify_eq. by apply books_flush.
Qed.

Lemma books_from i calls results a ms a' :
  books calls results a -> analyze_from i a ms = Ok a' ->
  books (calls ++ (ms ≫= message_calls)) (results ++ (ms ≫= message_results)) a'.
Proof.
  revert i calls results a. induction ms as [|m ms IH]; simpl; intros i calls results a Hb H.
  - simplify_eq. by rewrite !app_nil_r.
  - res_inv H. rewrite !app_assoc. eapply IH; [|done]. by eapply books_message.
Qed.

Lemma books_initial : books [] [] initial_analysis.
Proof. split; simpl; try done; try constructor; intros H; by apply elem_of_nil in H. Qed.

Lemma analysis_books ms l :
  analyze_tool_call_transcript ms = Ok l ->
  exists a, analyze_from 0 initial_analysis ms = Ok a /\
            l = (an_unresolved a ++ dvalues (an_pending a))%list /\
            books (ms ≫= message_calls) (ms ≫= message_results) a.
Proof.
  unfold analyze_tool_call_transcript. intros H.
  destruct (analyze_from _ _ _) as [a|] eqn:E; [|done]. simpl in H. simplify_eq.
  exists a. split; [done|]. split; [done|].
  apply (books_from _ [] [] _ _ _ books_initial E).
Qed.

(** ** Repair simulates the analysis of its own output *)
Section RepairSim.
Context (now : Z) (code text : string).

Definition synth (p : string * string) : pydict :=
  synthetic_tool_result now (fst p) (snd p) code text.

Definition pend_names (d : dict UnresolvedToolCall) : dict string :=
  map (fun p => (fst p, un_tool_name (snd p))) d.

(** Analysis [a] of the input, analysis [b] of the repaired output and the
    repair state [r], after the same prefix of the input. *)
Record sim_core (a b : Analysis) (r : Repair) : Prop := {
  sc_pend_a : pend_names (an_pending a) = rp_pending r;
  sc_pend_b : pend_names (an_pending b) = rp_pending r;
  sc_unres : an_unresolved b = [];
  sc_calls : an_seen_calls b = an_seen_calls a;
  sc_wf : dict_wf (an_pending b);
  sc_keyed : keyed (an_pending a);
  sc_fresh : forall k, k ∈ dkeys (an_pending b) -> k ∉ an_seen_results b;
  sc_pend_seen : forall k, k ∈ dkeys (an_pending b) -> k ∈ an_seen_calls b;
  sc_res_seen : forall k, k ∈ an_seen_results b -> k ∈ an_seen_calls b
}.

Record sim (done : list pydict) (a b : Analysis) (r : Repair) : Prop := {
  sm_core : sim_core a b r;
  sm_run : analyze_from 0 initial_analysis (rp_output r) = Ok b;
  sm_ins : rp_inserted r = map synth (map un_pair (an_unresolved a));
  sm_perm : Permutation (rp_output r) (done ++ rp_inserted r);
  sm_sub : sublist done (rp_output r)
}.

Lemma pend_names_keys d : dkeys (pend_names d) = dkeys d.
Proof. unfold dkeys, pend_names. rewrite map_map. done. Qed.

Lemma pend_names_get k d : dget k (pend_names d) = un_tool_name <$> dget k d.
Proof. induction d as [|[k' u] d IH]; simpl; [done|]. by destruct (String.eqb k k'). Qed.

Lemma pend_names_dset k u d :
  pend_names (dset k u d) = dset k (un_tool_name u) (pend_names d).
Proof.
  induction d as [|[k' u'] d IH]; simpl; [done|].
  destruct (String.eqb k k'); simpl; [done | by rewrite IH].
Qed.

Lemma pend_names_dpop k d : pend_names (dpop k d) = dpop k (pend_names d).
Proof.
  induction d as [|[k' u'] d IH]; simpl; [done|].
  destruct (String.eqb k k'); simpl; [done | by rewrite IH].
Qed.

Lemma pend_names_synth d : keyed d ->
  map (fun p => synthetic_tool_result now (fst p) (snd p) code text) (pend_names d)
  = map synth (map un_pair (dvalues d)).
Proof.
  unfold keyed. induction 1 as [|[k u] d Hk _ IH]; [done|].
  simpl in Hk. subst k. simpl. by rewrite IH.
Qed.

Lemma same_pend_keys a b r k : sim_core a b r ->
  k ∈ dkeys (an_pending a) <-> k ∈ dkeys (an_pending b).
Proof.
  intros Hc. rewrite <- (pend_names_keys (an_pending a)), <- (pend_names_keys (an_pending b)).
  by rewrite (sc_pend_a _ _ _ Hc), (sc_pend_b _ _ _ Hc).
Qed.

(** The synthetic results are accepted and empty the output's pending calls. *)
Lemma analyze_synth i b : 
  dict_wf (an_pending b) -> (forall k, k ∈ dkeys (an_pending b) -> k ∉ an_seen_results b) ->
  exists b', analyze_from i b (map synth (pend_names (an_pending b))) = Ok b' /\
    an_pending b' = [] /\ an_unresolved b' = an_unresolved b /\
    an_seen_calls b' = an_seen_calls b /\
    (forall k, k ∈ an_seen_results b' <-> k ∈ dkeys (an_pending b) \/ k ∈ an_seen_results b).
Proof.
  destruct b as [p calls results unres]. simpl. revert i results.
  induction p as [|[k u] p IH]; intros i results Hwf Hfresh; simpl.
  - exists (mkAnalysis [] calls results unres). split; [done|]. simpl.
    repeat split; try done; [by right|]. intros [H|H]; [by apply elem_of_nil in H | done].
  - apply NoDup_cons in Hwf as [Hk Hwf].
    unfold analyze_message. simpl. unfold analyze_result. simpl.
    assert (mem_str k results = false) as ->
      by (apply mem_str_false, Hfresh; left).
    rewrite String.eqb_refl. simpl. rewrite String.eqb_refl. simpl.
    destruct (IH (S i) (k :: results)) as (b' & -> & Hp & Hu & Hc & Hr); [done| |].
    { intros x Hx [->|Hin]%elem_of_cons; [done|]. apply (Hfresh x); [by right | done]. }
    exists b'. repeat split; try done.
    + intros [H|[->|H]%elem_of_cons]%Hr; [left; by right | left; left | by right].
    + intros [[->|H]%elem_of_cons|H]; apply Hr; rewrite elem_of_cons; auto.
Qed.
End RepairSim.
Section RepairSteps.
Context (now : Z) (code text : string).
Local Abbreviation sim := (sim now code text).
Local Abbreviation synth := (synth now code text).

Lemma sim_close done a b r :
  sim done a b r -> exists b', sim done (flush_pending a) b' (close_pending now code text r).
Proof.
  intros [Hc Hrun Hins Hperm Hsub]. pose proof Hc as [Hpa Hpb Hun Hcalls Hwf Hk Hf Hps Hrs].
  destruct (analyze_synth now code text (List.length (rp_output r)) b Hwf Hf)
    as (b' & Hb' & Hp' & Hu' & Hc' & Hr').
  exists b'. unfold close_pending. split; simpl.
  - split; simpl; rewrite ?Hp'; try done; try congruence; try constructor;
      try (intros k Hin; by apply elem_of_nil in Hin).
    intros k [Hin|Hin]%Hr'; rewrite Hc'; auto.
  - rewrite analyze_from_app, Hrun. simpl. rewrite <- Hb', Hpb. done.
  - rewrite Hins, <- Hpa, pend_names_synth by done. by rewrite !map_app.
  - rewrite Hperm. by rewrite app_assoc.
  - by apply sublist_inserts_r.
Qed.

Lemma sim_block i j a b r bl a' :
  sim_core a b r -> analyze_block i a bl = Ok a' ->
  exists b' r', analyze_block j b bl = Ok b' /\ repair_block r bl = Ok r' /\
    sim_core a' b' r' /\ rp_output r' = rp_output r /\ rp_inserted r' = rp_inserted r /\
    an_unresolved a' = an_unresolved a.
Proof.
  intros Hcore H. pose proof Hcore as [Hpa Hpb Hun Hcalls Hwf Hk Hf Hps Hrs].
  unfold analyze_block in *. unfold repair_block.
  destruct (is_tool_call_block bl) as [d|]; [|simplify_eq; by exists b, r].
  unfold jget_or in *.
  destruct (dget "id" d) as [vi|]; [|simpl in H; by destruct (py_str _)].
  destruct (dget "name" d) as [vn|];
    [|by destruct (py_str vi); simpl in H; rewrite ?orb_true_r in H].
  destruct (py_str vi) as [id|]; [|done]. destruct (py_str vn) as [name|]; [|done].
  cbn [rbind] in *. rewrite Hcalls. res_inv H. apply mem_str_false in E0.
  assert (Hfa : id ∉ dkeys (an_pending a)).
  { rewrite (same_pend_keys _ _ _ _ Hcore). intros Hin. apply E0. rewrite <- Hcalls. auto. }
  assert (Hfb : id ∉ dkeys (an_pending b)) by by rewrite <- (same_pend_keys _ _ _ _ Hcore).
  do 2 eexists. split; [done|]. split; [done|]. split; [|done].
  split; simpl; rewrite ?pend_names_dset; simpl; try congruence; try by apply dset_wf.
  - unfold keyed in *. rewrite dset_fresh by done. apply Forall_app. split; [done|]. by constructor.
  - intros k. rewrite dset_fresh by done. unfold dkeys. rewrite map_app, elem_of_app.
    intros [Hin| ->%list_elem_of_singleton]; [by apply Hf|].
    intros Hin%Hrs. rewrite Hcalls in Hin. by apply E0.
  - intros k. rewrite dset_fresh by done. unfold dkeys. rewrite map_app, elem_of_app.
    intros [Hin| ->%list_elem_of_singleton]; [right; rewrite <- Hcalls; by apply Hps | left].
  - intros k Hin. right. rewrite <- Hcalls. by apply Hrs.
Qed.

Lemma sim_blocks i j bls a b r a' :
  sim_core a b r -> foldM (analyze_block i) a bls = Ok a' ->
  exists b' r', foldM (analyze_block j) b bls = Ok b' /\ foldM repair_block r bls = Ok r' /\
    sim_core a' b' r' /\ rp_output r' = rp_output r /\ rp_inserted r' = rp_inserted r /\
    an_unresolved a' = an_unresolved a.
Proof.
  revert a b r. induction bls as [|bl bls IH]; simpl; intros a b r Hcore H.
  - simplify_eq. by exists b, r.
  - res_inv H. destruct (sim_block i j _ _ _ _ _ Hcore E)
      as (b1 & r1 & -> & -> & Hcore1 & Ho & Hi & Hu).
    destruct (IH _ _ _ Hcore1 H) as (b2 & r2 & Hb2 & Hr2 & Hc2 & Ho2 & Hi2 & Hu2).
    exists b2, r2. simpl. repeat split_and!; try done; congruence.
Qed.

Lemma sim_result a b r m a' :
  sim_core a b r -> analyze_result a m = Ok a' ->
  exists b' id, analyze_result b m = Ok b' /\ py_str (jget_or m "toolCallId" (VStr "")) = Ok id /\
    an_unresolved a' = an_unresolved a /\
    sim_core a' b' (mkRepair (rp_output r) (rp_inserted r) (dpop id (rp_pending r))).
Proof.
  intros Hcore H. pose proof Hcore as [Hpa Hpb Hun Hcalls Hwf Hk Hf Hps Hrs].
  unfold analyze_result in *. destruct (py_str (jget_or m "toolCallId" _)) as [id|]; [|done].
  cbn [rbind] in *. destruct (mem_str id (an_seen_results a)); [done|].
  destruct (dget id (an_pending a)) as [u|] eqn:Hu; [|done].
  destruct (py_str (jget_or m "toolName" _)) as [name|]; [|done]. cbn [rbind] in *.
  assert (Hub : exists ub, dget id (an_pending b) = Some ub /\ un_tool_name ub = un_tool_name u).
  { pose proof (f_equal (dget id) (eq_trans Hpa (eq_sym Hpb))) as Heq.
    rewrite !pend_names_get, Hu in Heq.
    destruct (dget id (an_pending b)) as [ub|]; [|done]. injection Heq as Heq.
    exists ub. by rewrite Heq. }
  destruct Hub as (ub & Hub & Hname). rewrite Hub, Hname.
  assert (Hin : id ∈ dkeys (an_pending b)).
  { apply list_elem_of_fmap. exists (id, ub). split; [done | by apply dget_Some_elem]. }
  rewrite (proj2 (mem_str_false _ _) (Hf _ Hin)).
  destruct (String.eqb name (un_tool_name u)); [|done]. simpl in *. simplify_eq.
  do 2 eexists. split; [done|]. split; [done|]. split; [done|].
  destruct (dpop_wf _ _ _ Hwf Hub) as [Hwf' Hnot].
  split; simpl; rewrite ?pend_names_dpop, ?Hpa, ?Hpb; try done.
  - unfold keyed in *. rewrite Forall_forall in *. eauto using dpop_elem.
  - intros k Hk1 [->|Hk2]%elem_of_cons; [done|]. apply (Hf k); [by eapply dpop_keys | done].
  - intros k Hk1%dpop_keys. auto.
  - intros k [->|Hk2]%elem_of_cons; auto.
Qed.
End RepairSteps.

Section RepairRun.
Context (now : Z) (code text : string).
Local Abbreviation sim := (sim now code text).
Local Abbreviation synth := (synth now code text).

Lemma sim_push done a b r m a' b' r' :
  sim done a b r -> analyze_message (List.length (rp_output r)) b m = Ok b' ->
  sim_core a' b' r' -> rp_output r' = (rp_output r ++ [m])%list ->
  rp_inserted r' = rp_inserted r -> an_unresolved a' = an_unresolved a ->
  sim (done ++ [m]) a' b' r'.
Proof.
  intros [_ Hrun Hins Hperm Hsub] Hm Hc Ho Hi Hu. split; rewrite ?Ho, ?Hi, ?Hu; try done.
  - rewrite analyze_from_app, Hrun. simpl. by rewrite Hm.
  - rewrite Hperm, <- !app_assoc. apply Permutation_app; [done|]. apply Permutation_app_comm.
  - by apply sublist_app.
Qed.

Lemma sim_message done i a b r m a' :
  sim done a b r -> analyze_message i a m = Ok a' ->
  exists b' r', repair_message now code text r m = Ok r' /\ sim (done ++ [m]) a' b' r'.
Proof.
  intros Hs H. unfold analyze_message in H. unfold repair_message.
  destruct (is_str (jget m "role") "toolResult") eqn:Hr.
  - assert (is_str (jget m "role") "assistant" = false) as Ha.
    { destruct (is_str _ "assistant") eqn:Ha; [|done]. apply role_exclusive in Ha. congruence. }
    rewrite Ha in *. destruct (sim_result _ _ _ _ _ (sm_core _ _ _ _ _ _ _ Hs) H)
      as (b' & id & Hb & -> & Hu & Hc).
    exists b'. eexists. split; [done|]. eapply sim_push; [done| |by destruct Hc; split|done..].
    unfold analyze_message. by rewrite Hr, Ha, Hb.
  - apply sim_close in Hs as [b1 Hs].
    set (r1 := close_pending now code text r) in *.
    pose proof (sm_core _ _ _ _ _ _ _ Hs) as Hc.
    assert (Hfl : flush_pending b1 = b1).
    { destruct Hc as [Hpa Hpb Hun _ _ _ _ _ _]. simpl in Hpb. destruct b1 as [p c rs u].
      simpl in *. subst u. destruct p; [done | done]. }
    destruct (is_str (jget m "role") "assistant") eqn:Ha.
    + destruct (py_list _) as [bls|] eqn:Hbl; [|done]. simpl in H.
      destruct (sim_blocks i (List.length (rp_output r1)) bls (flush_pending a) b1
                  (mkRepair (rp_output r1 ++ [m]) (rp_inserted r1) (rp_pending r1)) a')
        as (b' & r' & Hb & Hr' & Hc' & Ho & Hi & Hu); [by destruct Hc; split | done |].
      exists b', r'. split; [exact Hr'|]. eapply sim_push; [done| |done..].
      unfold analyze_message. by rewrite Hr, Ha, Hfl, Hbl.
    + simplify_eq. exists b1. eexists. split; [done|].
      eapply sim_push; [done| |by destruct Hc; split|done..].
      unfold analyze_message. by rewrite Hr, Ha, Hfl.
Qed.

Lemma sim_messages done i a b r ms a' :
  sim done a b r -> analyze_from i a ms = Ok a' ->
  exists b' r', foldM (repair_message now code text) r ms = Ok r' /\ sim (done ++ ms) a' b' r'.
Proof.
  revert done i a b r. induction ms as [|m ms IH]; simpl; intros done i a b r Hs H.
  - simplify_eq. exists b, r. by rewrite app_nil_r.
  - res_inv H. destruct (sim_message _ _ _ _ _ _ _ Hs E) as (b1 & r1 & -> & Hs1).
    destruct (IH _ _ _ _ _ Hs1 H) as (b2 & r2 & Hr2 & Hs2). exists b2, r2.
    rewrite cons_middle, app_assoc. done.
Qed.

Lemma sim_initial : sim [] initial_analysis initial_analysis (mkRepair [] [] []).
Proof.
  split; [split|..]; simpl; try done; try constructor; intros k H; by apply elem_of_nil in H.
Qed.

(** Repair after a successful analysis: it returns, and its result simulates. *)
Lemma repair_spec ms l :
  analyze_tool_call_transcript ms = Ok l ->
  exists out, repair_unresolved_tool_calls now code text ms = Ok (out, map synth (map un_pair l)) /\
    analyze_tool_call_transcript out = Ok [] /\
    Permutation out (ms ++ map synth (map un_pair l)) /\ sublist ms out.
Proof.
  intros Hl. pose proof Hl as (a & Ha & -> & _)%analysis_books.
  destruct (sim_messages [] 0 _ _ _ ms a sim_initial Ha) as (b & r & Hr & Hs).
  simpl in Hs. apply sim_close in Hs as [b' Hs].
  unfold repair_unresolved_tool_calls. rewrite Hl. cbn [rbind]. rewrite Hr. cbn [rbind].
  set (r' := close_pending now code text r) in *.
  destruct Hs as [Hc Hrun Hins Hperm Hsub]. simpl in Hins.
  exists (rp_output r'). rewrite <- Hins. split; [done|]. split; [|done].
  unfold analyze_tool_call_transcript. rewrite Hrun. simpl.
  destruct Hc as [_ Hpb Hun _ _ _ _ _ _]. rewrite Hun. simpl in *.
  by destruct (an_pending b').
Qed.
End RepairRun.

Lemma sublist_full {A : Type} (l1 l2 : list A) :
  sublist l1 l2 -> List.length l1 = List.length l2 -> l1 = l2.
Proof.
  induction 1 as [|x l1 l2 _ IH|x l1 l2 Hs _]; simpl; intros Hlen; [done| |].
  - f_equal. apply IH. lia.
  - apply sublist_length in Hs. lia.
Qed.

(** ** Properties *)

(** A transcript whose last assistant message was interrupted: one of its two
    calls was answered. *)
Definition sample_call (id name : string) : pyval :=
  VDict [("type", VStr "toolCall"); ("id", VStr id); ("name", VStr name)].
Definition sample_transcript : list pydict :=
  [[("role", VStr "user"); ("content", VStr "hello")];
   [("role", VStr "assistant");
    ("content", VList [sample_call "t1" "read_file"; sample_call "t2" "bash"])];
   [("role", VStr "toolResult"); ("toolCallId", VStr "t2"); ("toolName", VStr "bash")];
   [("role", VStr "user"); ("content", VStr "go on")]].

(** If the analysis accepts a transcript, every announced call has a distinct
    non-empty id and a non-empty name, and the calls the transcript announces are
    exactly (as multisets of id and tool name) the ones its tool results answer
    together with the ones reported unresolved: no result is orphaned, answered
    twice or carries another tool's name, and no call is lost. *)
Theorem analysis_accounts_for_every_call ms l :
  analyze_tool_call_transcript ms = Ok l ->
  let calls := ms ≫= message_calls in
  Permutation calls ((ms ≫= message_results) ++ map un_pair l) /\
  NoDup (map fst calls) /\ Forall (fun c => fst c <> "" /\ snd c <> "") calls.
Proof.
  intros (a & _ & -> & [Hp Hs Hn Hne Hw Hk])%analysis_books calls.
  split; [by rewrite map_app|]. done.
Qed.

Lemma analysis_accounts_for_every_call_witness :
  let calls := sample_transcript ≫= message_calls in
  Permutation calls ((sample_transcript ≫= message_results) ++ [("t1", "read_file")]) /\
  NoDup (map fst calls) /\ Forall (fun c => fst c <> "" /\ snd c <> "") calls.
Proof.
  apply (analysis_accounts_for_every_call sample_transcript [mkUnresolved "t1" "read_file" 1]).
  vm_compute; reflexivity.
Defined.

(** C34. Repair is total on analysable transcripts and does what it promises: the
    repaired transcript is closed, it contains every original message in order,
    and what was added is exactly one synthetic error result for each unresolved
    call, in the order the analysis reports them. *)
Theorem repair_closes_transcript now code text ms l :
  analyze_tool_call_transcript ms = Ok l ->
  exists out,
    repair_unresolved_tool_calls now code text ms
      = Ok (out, map (fun u => synthetic_tool_result now (un_tool_call_id u) (un_tool_name u)
                                 code text) l) /\
    validate_closed_tool_call_transcript out = Ok tt /\
    sublist ms out /\
    (List.length out = List.length ms + List.length l)%nat.
Proof.
  intros H. destruct (repair_spec now code text ms l H) as (out & Hr & Hcl & Hp & Hsub).
  rewrite map_map in Hr. exists out. split; [exact Hr|]. split_and!; [|done|].
  - unfold validate_closed_tool_call_transcript. by rewrite Hcl.
  - rewrite Hp, List.length_app, !List.length_map. done.
Qed.

Lemma repair_closes_transcript_witness :
  exists out,
    repair_unresolved_tool_calls 7 "c" "t" sample_transcript
      = Ok (out, [synthetic_tool_result 7 "t1" "read_file" "c" "t"]) /\
    validate_closed_tool_call_transcript out = Ok tt /\
    sublist sample_transcript out /\ (List.length out = 4 + 1)%nat.
Proof.
  apply (repair_closes_transcript 7 "c" "t" sample_transcript [mkUnresolved "t1" "read_file" 1]).
  vm_compute; reflexivity.
Defined.

(** A transcript that is already closed is returned by repair unchanged, with
    nothing inserted. *)
Theorem repair_of_closed_is_identity now code text ms :
  validate_closed_tool_call_transcript ms = Ok tt ->
  repair_unresolved_tool_calls now code text ms = Ok (ms, []).
Proof.
  unfold validate_closed_tool_call_transcript. intros H. res_inv H.
  destruct (repair_spec now code text ms [] E) as (out & Hr & _ & Hp & Hsub).
  simpl in *. rewrite app_nil_r in Hp.
  assert (ms = out) as <-; [|done].
  apply sublist_full; [done|]. by rewrite Hp.
Qed.

Lemma repair_of_closed_is_identity_witness :
  repair_unresolved_tool_calls 7 "c" "t" (take 1 sample_transcript)
  = Ok (take 1 sample_transcript, []).
Proof. apply repair_of_closed_is_identity. vm_compute; reflexivity. Defined.
