(* ===== verification/ModelPolicy.v ===== *)
(** * Model request policies  (src/.../model_policy.py)

    The persisted policy of one model request: which tools it shows, the tool
    choice, the arguments it pins, and the policy of the request that continues
    it; its validation, serialisation, and the checks a model response has to
    pass.  Python tuples and lists of names are both [VList]. *)

From S2P Require Import Prelude PyDict Text PyVal DurableAction.
From Stdlib Require Import String.

#[local] Open Scope string_scope.
#[local] Open Scope bool_scope.
#[local] Open Scope Z_scope.

#[warnings="-register-all"]
Inductive ModelRequestPolicy := mkPolicy {
  mp_visible_tool_names : list string;
  mp_tool_choice : pyval;
  mp_required_capabilities : list string;
  mp_allowed_tool_names : list string;
  mp_expected_tool_arguments : option pydict;
  mp_continuation_policy : option ModelRequestPolicy;
  mp_version : Z
}.

Definition policy_error {A : Type} : res A := Err ModelRequestPolicyError.

(** ** Validation of the fields *)

Definition as_str (v : pyval) : option string :=
  match v with VStr s => Some s | _ => None end.

(** [_names] on the elements of the tuple *)
Definition policy_names (values : list pyval) : res (list string) :=
  match mapM as_str values with
  | None => policy_error
  | Some names =>
      if negb (forallb nonempty names) then policy_error else
      if negb (distinct names) then policy_error else
      Ok names
  end.

(** [_json_names] *)
Definition json_names (value : pyval) : res (list pyval) :=
  match value with
  | VList l => match mapM as_str l with Some _ => Ok l | None => policy_error end
  | _ => policy_error
  end.

(** [_tool_choice] *)
Definition tool_choice (value : pyval) : res pyval :=
  match value with
  | VStr s => if mem_str s ["none"; "auto"; "required"] then Ok value else policy_error
  | VDict d =>
      match jget d "type", jget d "function" with
      | VStr "function", VDict f =>
          match jget f "name" with
          | VStr n => if nonempty n then Ok value else policy_error
          | _ => policy_error
          end
      | _, _ => policy_error
      end
  | _ => policy_error
  end.

(** [_named_tool]; the lookups cannot fail on a validated choice. *)
Definition named_tool (value : pyval) : res (option string) :=
  match value with
  | VDict d =>
      match dget "function" d with
      | Some (VDict f) =>
          match dget "name" f with
          | Some n => let! name := py_str n in Ok (Some name)
          | None => Err KeyError
          end
      | Some _ => Err TypeError
      | None => Err KeyError
      end
  | _ => Ok None
  end.

Definition expected_arguments (value : pyval) : res (option pydict) :=
  match value with
  | VNone => Ok None
  | VDict d => Ok (Some d)
  | _ => policy_error
  end.

(** [ModelRequestPolicy.__post_init__] on the constructor's arguments *)
Definition policy (visible_tool_names : list pyval) (choice : pyval)
    (required_capabilities allowed_tool_names : list pyval) (expected : pyval)
    (continuation : option ModelRequestPolicy) (version : Z) : res ModelRequestPolicy :=
  if negb (version =? 1) then policy_error else
  let! visible := policy_names visible_tool_names in
  let! allowed := policy_names allowed_tool_names in
  let! required := policy_names required_capabilities in
  if negb (forallb (fun n => mem_str n visible) allowed) then policy_error else
  let! choice := tool_choice choice in
  let! named := named_tool choice in
  if match named with Some n => negb (mem_str n visible) | None => false end
  then policy_error else
  if is_str choice "required" && bool_decide (visible = []) then policy_error else
  let! arguments := expected_arguments expected in
  Ok (mkPolicy visible choice required allowed arguments continuation version).

(** ** Serialisation *)

Definition names_value (names : list string) : pyval := VList (map VStr names).

Fixpoint policy_to_dict (p : ModelRequestPolicy) : pydict :=
  [("version", VInt (mp_version p));
   ("visibleToolNames", names_value (mp_visible_tool_names p));
   ("toolChoice", mp_tool_choice p);
   ("requiredCapabilities", names_value (mp_required_capabilities p));
   ("allowedToolNames", names_value (mp_allowed_tool_names p));
   ("expectedToolArguments",
    match mp_expected_tool_arguments p with Some d => VDict d | None => VNone end);
   ("continuationPolicy",
    match mp_continuation_policy p with Some c => VDict (policy_to_dict c) | None => VNone end)].

Fixpoint policy_from_dict (value : pyval) {struct value} : res ModelRequestPolicy :=
  match value with
  | VDict d =>
      let! version := py_int (jget_or d "version" (VInt 1)) in
      let! visible := json_names (jget_or d "visibleToolNames" (VList [])) in
      let! required := json_names (jget_or d "requiredCapabilities" (VList [])) in
      let! allowed := json_names (jget_or d "allowedToolNames" (VList [])) in
      let! continuation :=
        (fix find (entries : pydict) : res (option ModelRequestPolicy) :=
           match entries with
           | [] => Ok None
           | (k, v) :: entries' =>
               if String.eqb "continuationPolicy" k then
                 match v with
                 | VNone => Ok None
                 | _ => let! c := policy_from_dict v in Ok (Some c)
                 end
               else find entries'
           end) d in
      policy visible (jget_or d "toolChoice" (VStr "none")) required allowed
        (jget d "expectedToolArguments") continuation version
  | _ => policy_error
  end.

Definition no_tools : res ModelRequestPolicy := policy [] (VStr "none") [] [] VNone None 1.

(** [capture_model_request_policy] *)
Definition capture_model_request_policy (visible_tool_names : pyval) (stream_options : pydict)
  : res ModelRequestPolicy :=
  let! visible := py_list visible_tool_names in
  let default_choice := VStr (if bool_decide (visible = []) then "none" else "auto") in
  let! required := py_list (jget_or stream_options "required_capabilities" (VList [])) in
  let! allowed := py_list (jget_or stream_options "allowed_tool_names" (VList [])) in
  let! continuation :=
    match jget stream_options "recovery_continuation_policy" with
    | VNone => Ok None
    | v => let! c := policy_from_dict v in Ok (Some c)
    end in
  policy visible (jget_or stream_options "tool_choice" default_choice) required allowed
    (jget stream_options "expected_tool_arguments") continuation 1.

(** ** Checking a model response *)

(** [_strict_json_equal], the same code as in durable_action.py *)
Definition policy_json_equal (expected actual : pyval) : bool :=
  strict_json_equal expected actual.

Definition call_blocks (blocks : list pyval) : list pydict :=
  omap (fun b => match b with
                 | VDict d => if is_str (jget d "type") "toolCall" then Some d else None
                 | _ => None
                 end) blocks.

(** [_tool_calls] *)
Definition tool_calls (message : pydict) : res (list pydict) :=
  match jget_or message "content" (VList []) with
  | VList content => Ok (call_blocks content)
  | _ => policy_error
  end.

(** [_model_stop_reason] *)
Definition model_stop_reason (message : pydict) : res pyval :=
  if negb (is_str (jget message "role") "assistant") then policy_error else
  match jget message "content" with
  | VList _ => Ok (jget message "stopReason")
  | _ => policy_error
  end.

(** [tool_calls_match_expected_arguments] *)
Definition tool_calls_match_expected_arguments (calls : list pydict)
    (expected : option pydict) : bool :=
  match expected with
  | None => true
  | Some d =>
      match calls with
      | [call] =>
          match jget call "arguments" with
          | VDict a => policy_json_equal (VDict d) (VDict a)
          | _ => false
          end
      | _ => false
      end
  end.

Fixpoint called_names (calls : list pydict) : res (list string) :=
  match calls with
  | [] => Ok []
  | call :: calls' =>
      let! name := py_str (jget_or call "name" (VStr "")) in
      let! names := called_names calls' in
      Ok (name :: names)
  end.

(** [validate_model_response_policy] *)
Definition validate_model_response_policy (message : pydict) (p : ModelRequestPolicy)
  : res unit :=
  let! blocks := py_list (jget_or message "content" (VList [])) in
  let calls := call_blocks blocks in
  let! names := called_names calls in
  if negb (forallb (fun n => mem_str n (mp_visible_tool_names p)) names) then policy_error else
  if negb (bool_decide (mp_allowed_tool_names p = []))
     && negb (forallb (fun n => mem_str n (mp_allowed_tool_names p)) names)
  then policy_error else
  if is_str (mp_tool_choice p) "none" && negb (bool_decide (calls = [])) then policy_error else
  if is_str (mp_tool_choice p) "required" && bool_decide (calls = []) then policy_error else
  let! named := named_tool (mp_tool_choice p) in
  if match named with Some n => negb (mem_str n names) | None => false end
  then policy_error else
  if negb (tool_calls_match_expected_arguments calls (mp_expected_tool_arguments p))
  then policy_error else
  Ok tt.

(** [validate_recoverable_model_response] *)
Definition validate_recoverable_model_response (message : pydict) (p : ModelRequestPolicy)
  : res unit :=
  let! stop := model_stop_reason message in
  let! failed := in_str_set stop ["error"; "aborted"] in
  if failed then policy_error else
  if is_str stop "length" then policy_error else
  let! finished := in_str_set stop ["stop"; "toolUse"] in
  if negb finished then policy_error else
  let! calls := tool_calls message in
  if is_str stop "toolUse" && bool_decide (calls = []) then policy_error else
  if is_str stop "stop" && negb (bool_decide (calls = [])) then policy_error else
  validate_model_response_policy message p.

(** [validate_persisted_model_response] *)
Definition validate_persisted_model_response (message : pydict)
    (p : option ModelRequestPolicy) : res unit :=
  let! stop := model_stop_reason message in
  let! calls := tool_calls message in
  let! failed := in_str_set stop ["error"; "aborted"] in
  if failed then (if bool_decide (calls = []) then Ok tt else policy_error) else
  match p with
  | None => policy_error
  | Some p => validate_recoverable_model_response message p
  end.

(** ** Lemmas *)

Lemma policy_from_dict_unfold d :
  policy_from_dict (VDict d) =
  let! version := py_int (jget_or d "version" (VInt 1)) in
  let! visible := json_names (jget_or d "visibleToolNames" (VList [])) in
  let! required := json_names (jget_or d "requiredCapabilities" (VList [])) in
  let! allowed := json_names (jget_or d "allowedToolNames" (VList [])) in
  let! continuation :=
    match jget d "continuationPolicy" with
    | VNone => Ok None
    | v => let! c := policy_from_dict v in Ok (Some c)
    end in
  policy visible (jget_or d "toolChoice" (VStr "none")) required allowed
    (jget d "expectedToolArguments") continuation version.
Proof.
  cbn [policy_from_dict]. destruct (py_int _); cbn [rbind]; [|done].
  do 3 (destruct (json_names _); cbn [rbind]; [|done]).
  match goal with |- rbind ?x _ = rbind ?y _ => assert (x = y) as ->; [|done] end.
  unfold jget. induction d as [|[k v] d IH]; [done|].
  cbn [dget]. destruct (String.eqb "continuationPolicy" k); [by destruct v | exact IH].
Qed.

Lemma mapM_as_str l names : mapM as_str l = Some names <-> l = map VStr names.
Proof.
  split.
  - revert names. induction l as [|v l IH]; intros names H.
    + by injection H as <-.
    + destruct v; simpl in H; try done.
      destruct (mapM as_str l) as [ns|]; [|done]. injection H as <-. simpl. by rewrite (IH ns).
  - intros ->. induction names as [|n names IH]; [done|]. simpl. by rewrite IH.
Qed.

Lemma policy_names_Ok l names :
  policy_names l = Ok names <->
  l = map VStr names /\ forallb nonempty names = true /\ distinct names = true.
Proof.
  unfold policy_names. rewrite <- mapM_as_str. split.
  - intros H. res_inv H.
    repeat match goal with E : negb _ = false |- _ => apply negb_false_iff in E end. done.
  - intros (-> & -> & ->). done.
Qed.

Lemma json_names_strings names : json_names (names_value names) = Ok (map VStr names).
Proof. simpl. by rewrite (proj2 (mapM_as_str _ names) eq_refl). Qed.

Lemma tool_choice_Ok v c :
  tool_choice v = Ok c -> c = v /\ exists n, named_tool v = Ok n.
Proof.
  unfold tool_choice. intros H. destruct v; try done; res_inv H.
  - split; [done | by exists None].
  - split; [done|]. unfold jget in *. simpl.
    destruct (dget "function" d) as [f|]; [|done]. simplify_eq.
    destruct (dget "name" d0) as [n|]; [|done]. simplify_eq. by eexists.
Qed.

(** What the constructor guarantees of a policy, its continuation apart. *)
Lemma policy_again vis ch req al ex cont ver p :
  policy vis ch req al ex cont ver = Ok p ->
  policy (map VStr (mp_visible_tool_names p)) (mp_tool_choice p)
    (map VStr (mp_required_capabilities p)) (map VStr (mp_allowed_tool_names p))
    (match mp_expected_tool_arguments p with Some d => VDict d | None => VNone end)
    (mp_continuation_policy p) (mp_version p) = Ok p /\
  mp_continuation_policy p = cont /\ mp_version p = 1 /\
  exists n, named_tool (mp_tool_choice p) = Ok n.
Proof.
  intros H. assert (H0 := H). unfold policy in H. res_inv H. simpl.
  apply policy_names_Ok in E0 as (-> & _), E1 as (-> & _), E2 as (-> & _).
  destruct (tool_choice_Ok _ _ E4) as [-> Hn].
  split_and!; [|done| |done].
  - rewrite <- H0. match goal with E : expected_arguments ex = _ |- _ =>
      destruct ex; simpl in E; simplify_eq; done end.
  - apply negb_false_iff in E. by apply Z.eqb_eq in E.
Qed.

Inductive policy_built : ModelRequestPolicy -> Prop :=
| built vis ch req al ex cont ver p :
    (forall c, cont = Some c -> policy_built c) ->
    policy vis ch req al ex cont ver = Ok p -> policy_built p.

Lemma policy_from_dict_built v p : policy_from_dict v = Ok p -> policy_built p.
Proof.
  revert p. induction v as [| | | | |l _|d IH] using pyval_nested_ind; intros p H; try done.
  rewrite policy_from_dict_unfold in H.
  do 5 match type of H with rbind ?m _ = _ => let E := fresh "E" in
    destruct m eqn:E; [cbn [rbind] in H | done] end.
  eapply built; [|exact H]. intros c ->. clear H E E0 E1 E2.
  unfold jget in E3. destruct (dget "continuationPolicy" d) as [w|] eqn:Hw; [|done].
  apply dget_Some_value in Hw. rewrite Forall_forall in IH. specialize (IH _ Hw).
  assert (Hc : policy_from_dict w = Ok c).
  { destruct w; try done; by destruct (policy_from_dict _); simpl in E3; simplify_eq. }
  by apply IH.
Qed.

Lemma capture_built vis opts p :
  capture_model_request_policy vis opts = Ok p -> policy_built p.
Proof.
  unfold capture_model_request_policy. intros H.
  do 4 match type of H with rbind ?m _ = _ => let E := fresh "E" in
    destruct m eqn:E; [cbn [rbind] in H | done] end.
  eapply built; [|exact H]. intros c ->. clear H E E0 E1.
  destruct (jget opts _); try done;
    match type of E2 with rbind ?m _ = _ => destruct m eqn:Hc end; simpl in E2; simplify_eq;
    by eapply policy_from_dict_built.
Qed.

Lemma policy_round_trip p :
  policy_built p -> policy_from_dict (VDict (policy_to_dict p)) = Ok p.
Proof.
  induction 1 as [vis ch req al ex cont ver p Hcont IH Hp].
  apply policy_again in Hp as (Hp & Hc & Hv & _).
  rewrite policy_from_dict_unfold. destruct p as [v c r a e k n]. simpl in *. subst cont n.
  rewrite !(proj2 (mapM_as_str _ _) eq_refl). simpl.
  destruct k as [k|]; simpl in *.
  - rewrite (IH k eq_refl). simpl. exact Hp.
  - exact Hp.
Qed.

(** *** The checks on a response *)

Record response_permitted (p : ModelRequestPolicy) (calls : list pydict)
    (names : list string) : Prop := {
  pm_names : called_names calls = Ok names;
  pm_visible : Forall (fun n => n ∈ mp_visible_tool_names p) names;
  pm_allowed : mp_allowed_tool_names p <> [] ->
    Forall (fun n => n ∈ mp_allowed_tool_names p) names;
  pm_none : mp_tool_choice p = VStr "none" -> calls = [];
  pm_required : mp_tool_choice p = VStr "required" -> calls <> [];
  pm_named : forall n, named_tool (mp_tool_choice p) = Ok (Some n) -> n ∈ names;
  pm_arguments : forall d, mp_expected_tool_arguments p = Some d ->
    exists call a, calls = [call] /\ jget call "arguments" = VDict a /\
                   strict_json_equal (VDict d) (VDict a) = true
}.

Lemma forallb_mem names l :
  forallb (fun n => mem_str n l) names = true <-> Forall (fun n => n ∈ l) names.
Proof. rewrite forallb_elem, Forall_forall. by setoid_rewrite mem_str_spec. Qed.

Lemma matches_expected calls expected :
  tool_calls_match_expected_arguments calls expected = true <->
  (forall d, expected = Some d -> exists call a, calls = [call] /\
     jget call "arguments" = VDict a /\ strict_json_equal (VDict d) (VDict a) = true).
Proof.
  unfold tool_calls_match_expected_arguments, policy_json_equal.
  destruct expected as [d|]; [|done]. split.
  - intros H d' [= <-]. destruct calls as [|call [|]]; try done.
    destruct (jget call "arguments") as [| | | | | |a] eqn:Ha; try done. by exists call, a.
  - intros H. destruct (H d eq_refl) as (call & a & -> & -> & Heq). exact Heq.
Qed.

Lemma validate_response_iff message p content :
  jget message "content" = VList content ->
  (exists n, named_tool (mp_tool_choice p) = Ok n) ->
  validate_model_response_policy message p = Ok tt <->
  exists names, response_permitted p (call_blocks content) names.
Proof.
  intros Hc [named Hn]. unfold validate_model_response_policy.
  rewrite (jget_or_jget _ _ _ (VList []) Hc) by done.
  simpl. set (calls := call_blocks content). split.
  - clear Hn. intros H. res_inv H.
    repeat match goal with E : negb _ = false |- _ => apply negb_false_iff in E end.
    eexists. split; [done|by apply forallb_mem|..].
    + intros Hne. apply andb_false_iff in E1 as [E1|E1].
      * apply negb_false_iff, bool_decide_eq_true in E1. done.
      * apply negb_false_iff in E1. by apply forallb_mem.
    + intros Hch. rewrite Hch in E2. simpl in E2. by apply negb_false_iff, bool_decide_eq_true in E2.
    + intros Hch. rewrite Hch in E3. simpl in E3. by apply bool_decide_eq_false in E3.
    + intros n Hn'. rewrite Hn' in E4. simplify_eq. apply negb_false_iff in E5.
      by apply mem_str_spec.
    + by apply matches_expected.
  - intros (names & [Hnames Hv Ha Hno Hreq Hnm Harg]). rewrite Hnames. cbn [rbind].
    rewrite (proj2 (forallb_mem _ _) Hv). simpl.
    case_bool_decide as Hal; simpl; [|rewrite (proj2 (forallb_mem _ _) (Ha Hal)); simpl].
    all: rewrite Hn; cbn [rbind].
    all: destruct (is_str (mp_tool_choice p) "none") eqn:E1; simpl;
      [apply is_str_spec, Hno in E1; rewrite (bool_decide_eq_true_2 _ E1); simpl|].
    all: destruct (is_str (mp_tool_choice p) "required") eqn:E2; simpl;
      [apply is_str_spec, Hreq in E2; rewrite ?(bool_decide_eq_false_2 _ E2); simpl|].
    all: try (rewrite E1 in E2; done).
    all: destruct named as [n|]; [rewrite (proj2 (mem_str_spec _ _) (Hnm n Hn)); simpl|].
    all: by rewrite (proj2 (matches_expected _ _) Harg).
Qed.

Lemma policy_built_named p : policy_built p -> exists n, named_tool (mp_tool_choice p) = Ok n.
Proof. intros [vis ch req al ex cont ver p' _ H]. by apply policy_again in H as (_ & _ & _ & ?). Qed.

(** ** Properties *)

Definition sample_options : pydict :=
  [("tool_choice", VDict [("type", VStr "function");
                          ("function", VDict [("name", VStr "transfer")])]);
   ("allowed_tool_names", VList [VStr "transfer"]);
   ("expected_tool_arguments", VDict [("amount", VInt 10)]);
   ("recovery_continuation_policy", VDict [("toolChoice", VStr "none")])].
Definition sample_policy : ModelRequestPolicy :=
  match capture_model_request_policy (VList [VStr "transfer"; VStr "read"]) sample_options with
  | Ok p => p
  | Err _ => mkPolicy [] VNone [] [] None None 0
  end.
Definition sample_response : pydict :=
  [("role", VStr "assistant"); ("stopReason", VStr "toolUse");
   ("content", VList [VDict [("type", VStr "toolCall"); ("name", VStr "transfer");
                             ("arguments", VDict [("amount", VInt 10)])]])].

(** A policy captured from a turn's tools and provider options survives
    persistence: serialising it and reading it back gives the same policy, with
    its whole chain of continuation policies and with absent expected arguments
    kept apart from empty ones. *)
Theorem captured_policy_survives_persistence visible options p :
  capture_model_request_policy visible options = Ok p ->
  policy_from_dict (VDict (policy_to_dict p)) = Ok p.
Proof. intros H%capture_built. by apply policy_round_trip. Qed.

Lemma captured_policy_survives_persistence_witness :
  mp_continuation_policy sample_policy <> None /\
  policy_from_dict (VDict (policy_to_dict sample_policy)) = Ok sample_policy.
Proof.
  split; [vm_compute; discriminate|].
  apply (captured_policy_survives_persistence (VList [VStr "transfer"; VStr "read"])
           sample_options).
  vm_compute; reflexivity.
Defined.

(** A successful response is accepted under a persisted policy exactly when it
    is an assistant message with a content list, it stops with [toolUse] when it
    holds tool calls and with [stop] when it holds none, and its calls are
    permitted: only visible (and, if restricted, allowed) tools, none under
    [none], some under [required], the named tool under a named choice, and a
    single call with exactly the pinned arguments if the policy pins them. *)
Theorem recoverable_response_iff message v p :
  policy_from_dict v = Ok p ->
  validate_recoverable_model_response message p = Ok tt <->
  jget message "role" = VStr "assistant" /\
  exists content names,
    jget message "content" = VList content /\
    jget message "stopReason"
      = VStr (if bool_decide (call_blocks content = []) then "stop" else "toolUse") /\
    response_permitted p (call_blocks content) names.
Proof.
  intros Hp%policy_from_dict_built%policy_built_named.
  unfold validate_recoverable_model_response, model_stop_reason, tool_calls.
  destruct (is_str (jget message "role") "assistant") eqn:Hrole; simpl.
  2: { split; [done|]. intros [Hr _]. rewrite Hr in Hrole. done. }
  apply is_str_spec in Hrole.
  destruct (jget message "content") as [| | | | |content|] eqn:Hc; simpl;
    try (split; [done | by intros (_ & ? & ? & ? & _)]).
  rewrite (jget_or_jget _ _ _ (VList []) Hc) by done.
  pose proof (validate_response_iff message p content Hc Hp) as Hiff.
  simpl. destruct (jget message "stopReason") as [| | | |s| |]; simpl;
    try (split; [done | intros (_ & ? & ? & ? & ? & _); by simplify_eq]).
  split.
  - intros H. split; [done|]. exists content.
    destruct (mem_str s ["error"; "aborted"]); [done|]. destruct (String.eqb s "length"); [done|].
    destruct (mem_str s ["stop"; "toolUse"]) eqn:Hs; [|done]. simpl in H.
    apply mem_str_spec in Hs. rewrite !elem_of_cons, elem_of_nil in Hs.
    case_bool_decide as He; destruct Hs as [->|[->|[]]]; simpl in H; try done;
      apply Hiff in H as [names Hn]; exists names; done.
  - intros (_ & content' & names & [= <-] & [= ->] & Hperm).
    case_bool_decide; simpl; apply Hiff; by exists names.
Qed.

Lemma recoverable_response_iff_witness :
  validate_recoverable_model_response sample_response sample_policy = Ok tt /\
  jget sample_response "role" = VStr "assistant".
Proof.
  assert (H : validate_recoverable_model_response sample_response sample_policy = Ok tt)
    by (vm_compute; reflexivity).
  split; [exact H|].
  apply (recoverable_response_iff sample_response
           (VDict (policy_to_dict sample_policy)) sample_policy); [|exact H].
  vm_compute; reflexivity.
Defined.

Lemma called_names_elem calls names call :
  called_names calls = Ok names -> call ∈ calls ->
  exists name, py_str (jget_or call "name" (VStr "")) = Ok name /\ name ∈ names.
Proof.
  revert names. induction calls as [|c calls IH]; intros names H Hin.
  - by apply elem_of_nil in Hin.
  - simpl in H. res_inv H. apply elem_of_cons in Hin as [->|Hin].
    + eexists. split; [done | left].
    + destruct (IH _ eq_refl Hin) as (name & Hn & Hm). exists name. split; [done | by right].
Qed.

Lemma response_call_visible message p content call :
  validate_model_response_policy message p = Ok tt ->
  jget message "content" = VList content -> call ∈ call_blocks content ->
  exists name, py_str (jget_or call "name" (VStr "")) = Ok name /\
               name ∈ mp_visible_tool_names p.
Proof.
  intros H Hc Hin. unfold validate_model_response_policy in H.
  pose proof (jget_or_jget _ _ _ (VList []) Hc ltac:(done)) as Hl.
  rewrite Hl in H. cbn [py_list rbind] in H.
  destruct (called_names (call_blocks content)) as [names|] eqn:En; [|done]. cbn [rbind] in H.
  destruct (forallb _ names) eqn:Ev; [|done]. apply forallb_mem in Ev.
  destruct (called_names_elem _ _ _ En Hin) as (name & Hn & Hm).
  exists name. split; [done|]. rewrite Forall_forall in Ev. by apply Ev.
Qed.

(** Replaying a completed model request never lets a tool call through
    unchecked: an accepted response holds a tool call only if it stopped with
    [toolUse] and the request has its own persisted policy that shows the tool. *)
Theorem persisted_calls_are_covered message p content call :
  validate_persisted_model_response message p = Ok tt ->
  jget message "content" = VList content -> call ∈ call_blocks content ->
  jget message "stopReason" = VStr "toolUse" /\
  exists q name, p = Some q /\ py_str (jget_or call "name" (VStr "")) = Ok name /\
                 name ∈ mp_visible_tool_names q.
Proof.
  unfold validate_persisted_model_response, model_stop_reason, tool_calls. intros H Hc Hcall.
  pose proof (jget_or_jget _ _ _ (VList []) Hc ltac:(done)) as Hl.
  assert (Hne : call_blocks content <> []).
  { intros Hnil. rewrite Hnil in Hcall. by apply elem_of_nil in Hcall. }
  destruct (is_str (jget message "role") "assistant") eqn:Hrole; [|done].
  rewrite Hc, Hl in H. cbn [negb rbind] in H.
  destruct (in_str_set _ ["error"; "aborted"]) as [[]|] eqn:Hf; cbn [rbind] in H; [|destruct p as [q|]|];
    [by rewrite bool_decide_eq_false_2 in H | | done..].
  unfold validate_recoverable_model_response, model_stop_reason, tool_calls in H.
  rewrite Hrole, Hc, Hl in H. cbn [negb rbind] in H. rewrite Hf in H. cbn [rbind] in H.
  destruct (is_str _ "length"); [done|].
  destruct (in_str_set _ ["stop"; "toolUse"]) as [[]|] eqn:Hs; [|done..]. cbn [negb rbind] in H.
  rewrite (bool_decide_eq_false_2 _ Hne), andb_false_r, andb_true_r in H.
  destruct (is_str (jget message "stopReason") "stop") eqn:Hst; [done|].
  split; [|exists q; destruct (response_call_visible _ _ _ _ H Hc Hcall) as (n & ? & ?); by exists n].
  destruct (jget message "stopReason") as [| | | |s| |]; try done. simpl in Hs, Hst.
  injection Hs as Hs. apply mem_str_spec in Hs. rewrite !elem_of_cons, elem_of_nil in Hs.
  destruct Hs as [->|[->|[]]]; done.
Qed.

Lemma persisted_calls_are_covered_witness :
  let call := [("type", VStr "toolCall"); ("name", VStr "transfer");
               ("arguments", VDict [("amount", VInt 10)])] in
  jget sample_response "stopReason" = VStr "toolUse" /\
  exists q name, Some sample_policy = Some q /\
    py_str (jget_or call "name" (VStr "")) = Ok name /\ name ∈ mp_visible_tool_names q.
Proof.
  apply (persisted_calls_are_covered sample_response (Some sample_policy)
    [VDict [("type", VStr "toolCall"); ("name", VStr "transfer");
            ("arguments", VDict [("amount", VInt 10)])]]);
    [vm_compute; reflexivity | reflexivity | left].
Defined.
