(* ===== verification/OperationTypes.v ===== *)
(** * Durable operation log: events and state
    (src/.../session/operation_events.py and the data of session/operation_state.py)

    Event types stay strings, as in the source, because the reducer also
    dispatches on their prefixes; the phases the reducer itself writes are
    inductive types. *)

From S2P Require Import Prelude PyDict Text PyVal DurableAction ModelPolicy.
From Stdlib Require Import String.

#[local] Open Scope string_scope.
#[local] Open Scope bool_scope.
#[local] Open Scope Z_scope.

(** ** Events *)

Record OperationEvent := mkOperationEvent {
  oe_type : string;
  oe_session_id : string;
  oe_operation_id : string;
  oe_sequence : Z;
  oe_timestamp : Z;
  oe_data : pydict
}.

(** [OperationEvent.__post_init__] on the constructor's arguments *)
Definition operation_event (ty session_id operation_id : string) (sequence timestamp : Z)
    (data : pydict) : res OperationEvent :=
  if negb (nonempty ty && nonempty session_id && nonempty operation_id) then Err ValueError else
  if sequence <? 0 then Err ValueError else
  Ok (mkOperationEvent ty session_id operation_id sequence timestamp data).

Definition operation_event_to_dict (e : OperationEvent) : pydict :=
  [("type", VStr (oe_type e)); ("sessionId", VStr (oe_session_id e));
   ("operationId", VStr (oe_operation_id e)); ("sequence", VInt (oe_sequence e));
   ("timestamp", VInt (oe_timestamp e)); ("data", VDict (oe_data e))].

Definition operation_event_from_dict (value : pyval) : res OperationEvent :=
  match value with
  | VDict d =>
      match jget d "type", jget d "sessionId", jget d "operationId" with
      | VStr ty, VStr session_id, VStr operation_id =>
          if negb (nonempty ty && nonempty session_id && nonempty operation_id)
          then Err ValueError else
          match jget d "sequence", jget d "timestamp", jget_or d "data" (VDict []) with
          | VInt sequence, VInt timestamp, VDict data =>
              operation_event ty session_id operation_id sequence timestamp data
          | _, _, _ => Err ValueError
          end
      | _, _, _ => Err ValueError
      end
  | _ => Err ValueError
  end.

(** ** State *)

Inductive RequestPhase := RequestStarted | RequestCompleted | RequestFailed.

Record ModelRequestState := mkModelRequest {
  mr_request_id : string;
  mr_phase : RequestPhase;
  mr_policy : option ModelRequestPolicy;
  mr_error_code : option string
}.

Inductive ApprovalState :=
| ApWaiting | ApApproved | ApConsumed | ApRejected | ApExpired
| ApResumeStarted | ApResumeCompleted | ApResumeFailed | ApResumeCancelled.

Inductive ResumeState :=
| RsUnregistered | RsRegistered | RsStarted | RsCompleted | RsFailed | RsCancelled.

Record ApprovalSnapshot := mkApproval {
  ap_approval_id : string;
  ap_state : ApprovalState;
  ap_action_hash : string;
  ap_requester_id : string;
  ap_required_role : string;
  ap_action : pydict;
  ap_tool_call_id : option string;
  ap_write_id : option string;
  ap_consumer_id : option string;
  ap_resume_state : ResumeState;
  ap_resume_fencing_token : option Z
}.

Inductive WriteState :=
| WrPrepared | WrWaitingApproval | WrApproved | WrSubmitting | WrSucceeded | WrFailed
| WrOutcomeUnknown | WrReconciling.

Record WriteSnapshot := mkWrite {
  wr_write_id : string;
  wr_state : WriteState;
  wr_tool_name : string;
  wr_arguments : pydict;
  wr_action_hash : string;
  wr_idempotency_key_hash : string;
  wr_idempotency_hash_version : Z;
  wr_entity_id : option string;
  wr_expected_entity_version : option Z;
  wr_business_preconditions : option pydict;
  wr_tool_call_id : option string;
  wr_approval_id : option string;
  wr_result : option pydict;
  wr_reconcile_fencing_token : option Z
}.

Inductive ToolPhase := TiIntentRecorded | TiDispatchStarted | TiOutcomeUnknown | TiCompleted.

Record ToolInvocationState := mkInvocation {
  ti_tool_call_id : string;
  ti_tool_name : string;
  ti_arguments : pydict;
  ti_replay_policy : string;
  ti_security_contract_digest : option string;
  ti_implementation_version : option string;
  ti_security_policy_version : option string;
  ti_phase : ToolPhase;
  ti_attempts : Z;
  ti_result : option pydict;
  ti_reconcile_fencing_token : option Z
}.

Inductive OperationPhase :=
| OpRunning | OpWaitingApproval | OpReadyToResume | OpExecutingWrite | OpOutcomeUnknown
| OpCompleted | OpFailed | OpCancelled.

Record OperationState := mkOperation {
  op_session_id : string;
  op_operation_id : string;
  op_phase : OperationPhase;
  op_last_sequence : Z;
  op_messages : list pydict;
  op_model_requests : dict ModelRequestState;
  op_tools : dict ToolInvocationState;
  op_approvals : dict ApprovalSnapshot;
  op_writes : dict WriteSnapshot;
  op_configuration : pydict;
  op_active_model_policy : option ModelRequestPolicy;
  op_outcome : option string
}.

#[export] Instance RequestPhase_eq_dec : EqDecision RequestPhase.
Proof. solve_decision. Defined.
#[export] Instance ApprovalState_eq_dec : EqDecision ApprovalState.
Proof. solve_decision. Defined.
#[export] Instance ResumeState_eq_dec : EqDecision ResumeState.
Proof. solve_decision. Defined.
#[export] Instance WriteState_eq_dec : EqDecision WriteState.
Proof. solve_decision. Defined.
#[export] Instance ToolPhase_eq_dec : EqDecision ToolPhase.
Proof. solve_decision. Defined.
#[export] Instance OperationPhase_eq_dec : EqDecision OperationPhase.
Proof. solve_decision. Defined.

(** [x in {A, B, ...}] for a phase *)
Definition one_of {A : Type} `{EqDecision A} (x : A) (l : list A) : bool :=
  existsb (fun y => bool_decide (x = y)) l.
Arguments one_of : simpl never.

Lemma one_of_spec {A : Type} `{EqDecision A} (x : A) l : one_of x l = true <-> x ∈ l.
Proof.
  unfold one_of. induction l as [|y l IH]; simpl.
  - split; [done | intros H; by apply elem_of_nil in H].
  - by rewrite orb_true_iff, IH, elem_of_cons, bool_decide_eq_true.
Qed.

Definition terminal_phase (p : OperationPhase) : bool :=
  one_of p [OpCompleted; OpFailed; OpCancelled].

(** ** Field updates, for [dataclasses.replace] *)

Definition op_with_sequence (n : Z) (s : OperationState) : OperationState :=
  mkOperation (op_session_id s) (op_operation_id s) (op_phase s) n (op_messages s)
    (op_model_requests s) (op_tools s) (op_approvals s) (op_writes s) (op_configuration s)
    (op_active_model_policy s) (op_outcome s).
Definition op_with_phase (p : OperationPhase) (s : OperationState) : OperationState :=
  mkOperation (op_session_id s) (op_operation_id s) p (op_last_sequence s) (op_messages s)
    (op_model_requests s) (op_tools s) (op_approvals s) (op_writes s) (op_configuration s)
    (op_active_model_policy s) (op_outcome s).
Definition op_add_message (m : pydict) (s : OperationState) : OperationState :=
  mkOperation (op_session_id s) (op_operation_id s) (op_phase s) (op_last_sequence s)
    (op_messages s ++ [m]) (op_model_requests s) (op_tools s) (op_approvals s) (op_writes s)
    (op_configuration s) (op_active_model_policy s) (op_outcome s).
Definition op_put_request (k : string) (r : ModelRequestState) (s : OperationState)
  : OperationState :=
  mkOperation (op_session_id s) (op_operation_id s) (op_phase s) (op_last_sequence s)
    (op_messages s) (dset k r (op_model_requests s)) (op_tools s) (op_approvals s)
    (op_writes s) (op_configuration s) (op_active_model_policy s) (op_outcome s).
Definition op_put_tool (k : string) (t : ToolInvocationState) (s : OperationState)
  : OperationState :=
  mkOperation (op_session_id s) (op_operation_id s) (op_phase s) (op_last_sequence s)
    (op_messages s) (op_model_requests s) (dset k t (op_tools s)) (op_approvals s)
    (op_writes s) (op_configuration s) (op_active_model_policy s) (op_outcome s).
Definition op_put_approval (k : string) (a : ApprovalSnapshot) (s : OperationState)
  : OperationState :=
  mkOperation (op_session_id s) (op_operation_id s) (op_phase s) (op_last_sequence s)
    (op_messages s) (op_model_requests s) (op_tools s) (dset k a (op_approvals s))
    (op_writes s) (op_configuration s) (op_active_model_policy s) (op_outcome s).
Definition op_put_write (k : string) (w : WriteSnapshot) (s : OperationState)
  : OperationState :=
  mkOperation (op_session_id s) (op_operation_id s) (op_phase s) (op_last_sequence s)
    (op_messages s) (op_model_requests s) (op_tools s) (op_approvals s)
    (dset k w (op_writes s)) (op_configuration s) (op_active_model_policy s) (op_outcome s).
Definition op_with_policy (p : option ModelRequestPolicy) (s : OperationState)
  : OperationState :=
  mkOperation (op_session_id s) (op_operation_id s) (op_phase s) (op_last_sequence s)
    (op_messages s) (op_model_requests s) (op_tools s) (op_approvals s) (op_writes s)
    (op_configuration s) p (op_outcome s).
Definition op_with_outcome (o : string) (s : OperationState) : OperationState :=
  mkOperation (op_session_id s) (op_operation_id s) (op_phase s) (op_last_sequence s)
    (op_messages s) (op_model_requests s) (op_tools s) (op_approvals s) (op_writes s)
    (op_configuration s) (op_active_model_policy s) (Some o).

Definition ti_with (phase : ToolPhase) (attempts : Z) (result : option pydict)
    (token : option Z) (t : ToolInvocationState) : ToolInvocationState :=
  mkInvocation (ti_tool_call_id t) (ti_tool_name t) (ti_arguments t) (ti_replay_policy t)
    (ti_security_contract_digest t) (ti_implementation_version t)
    (ti_security_policy_version t) phase attempts result token.

(** The mutable part of an approval: state, consumer, resume state and token. *)
Definition ap_with (state : ApprovalState) (consumer : option string) (resume : ResumeState)
    (token : option Z) (a : ApprovalSnapshot) : ApprovalSnapshot :=
  mkApproval (ap_approval_id a) state (ap_action_hash a) (ap_requester_id a)
    (ap_required_role a) (ap_action a) (ap_tool_call_id a) (ap_write_id a) consumer resume token.
Definition ap_bind (action : pydict) (tool_call_id write_id : string) (a : ApprovalSnapshot)
  : ApprovalSnapshot :=
  mkApproval (ap_approval_id a) (ap_state a) (ap_action_hash a) (ap_requester_id a)
    (ap_required_role a) action (Some tool_call_id) (Some write_id) (ap_consumer_id a)
    RsRegistered (ap_resume_fencing_token a).

(** The mutable part of a write: state, approval, result and token. *)
Definition wr_with (state : WriteState) (approval : option string) (result : option pydict)
    (token : option Z) (w : WriteSnapshot) : WriteSnapshot :=
  mkWrite (wr_write_id w) state (wr_tool_name w) (wr_arguments w) (wr_action_hash w)
    (wr_idempotency_key_hash w) (wr_idempotency_hash_version w) (wr_entity_id w)
    (wr_expected_entity_version w) (wr_business_preconditions w) (wr_tool_call_id w)
    approval result token.
Definition wr_state_to (state : WriteState) (w : WriteSnapshot) : WriteSnapshot :=
  wr_with state (wr_approval_id w) (wr_result w) (wr_reconcile_fencing_token w) w.
Definition ap_state_to (state : ApprovalState) (a : ApprovalSnapshot) : ApprovalSnapshot :=
  ap_with state (ap_consumer_id a) (ap_resume_state a) (ap_resume_fencing_token a) a.
Definition ap_settle (state : ApprovalState) (resume : ResumeState) (a : ApprovalSnapshot)
  : ApprovalSnapshot :=
  ap_with state (ap_consumer_id a) resume (ap_resume_fencing_token a) a.
