(* ===== verification/OperationReducer.v ===== *)
(** * Durable operation log: the reducer  (src/.../session/operation_state.py)

    One definition per event, composed by [reduce_operation_event]; the checks
    they share come first.  [OperationLogInvariantError] keeps the literal part
    of its message; interpolated details are left out. *)

From S2P Require Import Prelude PyDict Text PyVal Json DurableAction.
From S2P Require Import Transcript ModelPolicy OperationTypes.
From Stdlib Require Import String.

#[local] Open Scope string_scope.
#[local] Open Scope bool_scope.
#[local] Open Scope Z_scope.

Definition log_error {A : Type} (message : string) : res A :=
  Err (OperationLogInvariantError message).

(** [if not ok: raise OperationLogInvariantError(message)] *)
Definition ensure (ok : bool) (message : string) : res unit :=
  if ok then Ok tt else log_error message.

(** ** Reading event data *)

(** [_text] *)
Definition event_text (data : pydict) (key : string) : res string :=
  match jget data key with
  | VStr s => if nonempty s then Ok s else log_error ("事件缺少 " ++ key)
  | _ => log_error ("事件缺少 " ++ key)
  end.

(** [_optional_text] *)
Definition event_optional_text (value : pyval) : res (option string) :=
  match value with
  | VNone => Ok None
  | VStr s => if nonempty s then Ok (Some s)
              else log_error "可选 Tool Security Contract 字段必须非空"
  | _ => log_error "可选 Tool Security Contract 字段必须非空"
  end.

(** [str(value) if value is not None else None] *)
Definition str_or_none (value : pyval) : res (option string) :=
  match value with
  | VNone => Ok None
  | _ => let! s := py_str value in Ok (Some s)
  end.

(** [_optional_fencing_token] *)
Definition optional_fencing_token (data : pydict) : res (option Z) :=
  match jget data "fencingToken" with
  | VNone => Ok None
  | VInt n => if n <? 1 then log_error "事件 fencingToken 必须是正整数" else Ok (Some n)
  | _ => log_error "事件 fencingToken 必须是正整数"
  end.

(** [_required_fencing_token] *)
Definition required_fencing_token (data : pydict) : res Z :=
  let! value := optional_fencing_token data in
  match value with
  | Some n => Ok n
  | None => log_error "重入事件缺少 fencingToken"
  end.

(** [_validate_terminal_fencing_token] *)
Definition validate_terminal_fencing_token (expected : option Z) (data : pydict)
    (label : string) : res unit :=
  match expected with
  | None => Ok tt
  | Some token =>
      let! actual := required_fencing_token data in
      ensure (actual =? token) (label ++ " 终态 Fencing Token 与当前 Claim 不一致")
  end.

(** A re-entry needs a token above the recorded one. *)
Definition next_fencing_token (recorded : option Z) (data : pydict) (message : string)
  : res Z :=
  let! token := required_fencing_token data in
  check! ensure (match recorded with Some n => n <? token | None => true end) message in
  Ok token.

(** [_message] *)
Definition event_message_data (data : pydict) : res pydict :=
  match jget data "message" with
  | VDict m => match jget m "role" with
               | VStr _ => Ok m
               | _ => log_error "事件缺少合法 message"
               end
  | _ => log_error "事件缺少合法 message"
  end.

(** [_model_policy]: the errors [from_dict] raises become log errors. *)
Definition model_policy (value : pyval) : res ModelRequestPolicy :=
  match policy_from_dict value with
  | Err ModelRequestPolicyError | Err TypeError | Err ValueError =>
      log_error "Model Request Policy 无效"
  | r => r
  end.

(** [except DurableActionEnvelopeError] *)
Definition envelope_to_log_error {A : Type} (message : string) (r : res A) : res A :=
  match r with
  | Err DurableActionEnvelopeError => log_error message
  | _ => r
  end.

(** [_action_digest] *)
Definition action_digest (action : pydict) : string := json_digest (VDict action).

(** ** Looking facts up *)

(** [_tool] *)
Definition lookup_tool (s : OperationState) (tool_call_id : string) : res ToolInvocationState :=
  match dget tool_call_id (op_tools s) with
  | Some t => Ok t
  | None => log_error "Tool Event 没有对应 Intent"
  end.

(** [_approval_for_tool_call] *)
Definition approval_for_tool_call (s : OperationState) (tool_call_id : string)
  : option ApprovalSnapshot :=
  find_first (fun a => bool_decide (ap_tool_call_id a = Some tool_call_id))
    (dvalues (op_approvals s)).

(** [_assistant_tool_calls] *)
Fixpoint assistant_tool_calls (messages : list pydict) (tool_call_id : string)
  : res (list pydict) :=
  match messages with
  | [] => Ok []
  | m :: messages' =>
      let! here :=
        if is_str (jget m "role") "assistant" then
          let! blocks := py_list (jget_or m "content" (VList [])) in
          Ok (List.filter (fun b => is_str (jget b "id") tool_call_id) (call_blocks blocks))
        else Ok [] in
      let! rest := assistant_tool_calls messages' tool_call_id in
      Ok (here ++ rest)%list
  end.

(** ** Binding an approval to what it approves *)

(** [_validate_approval_action]; [binding] is given when
    [validate_business_binding] is set. *)
Definition validate_approval_action (a : ApprovalSnapshot) (operation_id : string)
    (tool_call_id : option string) (tool_name : string) (arguments : pydict)
    (write_id : option string) (binding : option BusinessBinding) : res unit :=
  match tool_call_id, write_id with
  | Some tool_call_id, Some write_id =>
      let! e := envelope_to_log_error "Approval Action Envelope 与实际执行不匹配"
        (let! e := envelope_from_dict (VDict (ap_action a)) in
         check! assert_execution e
                  (mkExecution operation_id tool_call_id tool_name arguments write_id) None in
         Ok e) in
      let! hash := action_hash e in
      check! ensure (String.eqb hash (ap_action_hash a))
               "Approval Action Hash 与 Envelope 不匹配" in
      match binding with
      | None => Ok tt
      | Some b =>
          ensure (bool_decide (ea_entity_id e = bb_entity_id b)
                  && bool_decide (ea_expected_entity_version e = bb_expected_entity_version b)
                  && opt_json_equal (ea_business_preconditions e)
                                    (bb_business_preconditions b))
            "Approval Action 与 Write Entity Version/业务前置条件不一致"
      end
  | _, _ => log_error "Approval Action 缺少 Tool Call/Write 绑定"
  end.

Definition write_binding (w : WriteSnapshot) : BusinessBinding :=
  mkBinding (wr_entity_id w) (wr_expected_entity_version w) (wr_business_preconditions w).

(** The call with the fields of a write, business binding included. *)
Definition validate_approval_write (s : OperationState) (a : ApprovalSnapshot)
    (w : WriteSnapshot) : res unit :=
  validate_approval_action a (op_operation_id s) (wr_tool_call_id w) (wr_tool_name w)
    (wr_arguments w) (Some (wr_write_id w)) (Some (write_binding w)).

(** The call with the fields of a tool invocation. *)
Definition validate_approval_tool (s : OperationState) (a : ApprovalSnapshot)
    (t : ToolInvocationState) (write_id : option string) : res unit :=
  validate_approval_action a (op_operation_id s) (Some (ti_tool_call_id t)) (ti_tool_name t)
    (ti_arguments t) write_id None.

(** [if approval is not None and approval.action: _validate_approval_action(...)] *)
Definition validate_tool_approval (s : OperationState) (approval : option ApprovalSnapshot)
    (t : ToolInvocationState) : res unit :=
  match approval with
  | Some a => if bool_decide (ap_action a = []) then Ok tt
              else validate_approval_tool s a t (ap_write_id a)
  | None => Ok tt
  end.

(** [_validate_registered_approval_dependencies] *)
Definition validate_registered_approval_dependencies (s : OperationState)
    (a : ApprovalSnapshot) (require_completed : bool) : res unit :=
  match ap_write_id a, ap_tool_call_id a with
  | Some write_id, Some tool_call_id =>
      check! ensure (negb (bool_decide (ap_action a = [])))
               "Approval Resume 缺少 Durable Action 绑定" in
      match dget write_id (op_writes s) with
      | None => log_error "Approval Resume 缺少绑定的 Write"
      | Some w =>
          check! ensure (bool_decide (wr_approval_id w = Some (ap_approval_id a)))
                   "Approval Resume 缺少绑定的 Write" in
          check! validate_approval_write s a w in
          match dget tool_call_id (op_tools s) with
          | None => log_error "Approval Resume 缺少绑定的 Tool Intent"
          | Some t =>
              check! validate_approval_tool s a t (Some (wr_write_id w)) in
              if negb require_completed then Ok tt else
              check! ensure (bool_decide (wr_state w = WrSucceeded))
                       "Approval Resume Completed 时 Write 尚未成功" in
              check! ensure (bool_decide (ti_phase t = TiCompleted))
                       "Approval Resume Completed 时 Tool 尚未完成" in
              let results := List.filter (fun m => is_str (jget m "role") "toolResult"
                               && is_str (jget m "toolCallId") tool_call_id) (op_messages s) in
              ensure (Nat.eqb (List.length results) 1)
                "Approval Resume Completed 时必须存在唯一 Tool Result"
          end
      end
  | _, _ => log_error "Approval Resume 缺少 Durable Action 绑定"
  end.

(** ** Agreement between tool results and writes *)

(** [_tool_result_is_outcome_unknown] *)
Definition tool_result_is_outcome_unknown (result : pydict) : bool :=
  match jget result "details" with
  | VDict details => truthy (jget details "outcomeUnknown")
                     || is_str (jget details "code") "outcome_unknown"
  | _ => false
  end.

Definition result_is_error (result : pydict) : bool := truthy (jget result "isError").

(** [_validate_tool_write_result_consistency]; [unknown_event] tells the event
    [tool_outcome_unknown] from the other two. *)
Definition validate_tool_write_result_consistency (s : OperationState)
    (t : ToolInvocationState) (unknown_event : bool) (result : pydict) : res unit :=
  let is_error := result_is_error result in
  let is_unknown := tool_result_is_outcome_unknown result in
  check! (if unknown_event
          then ensure (is_error && is_unknown)
                 "Tool OutcomeUnknown Event 必须携带失败且结果未知的 Tool Result"
          else ensure (negb is_unknown)
                 "结果未知的 Tool Result 必须使用 tool_outcome_unknown Event") in
  match find_first (fun w => bool_decide (wr_tool_call_id w = Some (ti_tool_call_id t)))
          (dvalues (op_writes s)) with
  | None => Ok tt
  | Some w =>
      match wr_state w with
      | WrOutcomeUnknown =>
          ensure unknown_event "Write OutcomeUnknown 不能持久化为确定的 Tool Result"
      | WrSucceeded =>
          ensure (negb (unknown_event || is_error || is_unknown))
            "Write Succeeded 与 Tool Result 失败/未知矛盾"
      | WrFailed =>
          ensure (negb (unknown_event || is_unknown || negb is_error))
            "Write Failed 与成功/未知 Tool Result 矛盾"
      | _ => Ok tt
      end
  end.

(** [_validate_write_against_finished_tool] for the write state about to be set *)
Definition validate_write_against_finished_tool (s : OperationState) (w : WriteSnapshot)
    (expected : WriteState) : res unit :=
  match wr_tool_call_id w with
  | None => Ok tt
  | Some tool_call_id =>
      match dget tool_call_id (op_tools s) with
      | None => Ok tt
      | Some t =>
          if negb (one_of (ti_phase t) [TiCompleted; TiOutcomeUnknown]) then Ok tt else
          let result := default [] (ti_result t) in
          let is_error := result_is_error result in
          let is_unknown := tool_result_is_outcome_unknown result in
          let unknown_tool := bool_decide (ti_phase t = TiOutcomeUnknown) in
          match expected with
          | WrSucceeded => ensure (negb (unknown_tool || is_error || is_unknown))
                             "Write Succeeded 与 Tool Result 失败/未知矛盾"
          | WrFailed => ensure (negb (unknown_tool || is_unknown || negb is_error))
                          "Write Failed 与成功/未知 Tool Result 矛盾"
          | WrOutcomeUnknown => ensure (negb (bool_decide (ti_phase t = TiCompleted)))
                                  "Write OutcomeUnknown 与确定 Tool Result 矛盾"
          | _ => Ok tt
          end
      end
  end.

(** ** Tool events *)

(** The registered snapshot of the tool, [configured] in the source. *)
Definition configured_tool (s : OperationState) (tool_name : string) : res (option pydict) :=
  let! items := py_list (jget_or (op_configuration s) "tools" (VList [])) in
  Ok (head (omap (fun item => match item with
                              | VDict d => if is_str (jget d "name") tool_name
                                           then Some d else None
                              | _ => None
                              end) items)).

(** The invocation against the registered snapshot. *)
Definition validate_configured_tool (configured : option pydict) (t : ToolInvocationState)
  : res unit :=
  match configured with
  | None => Ok tt
  | Some c =>
      let replay := jget c "replayPolicy" in
      let digest := jget c "securityContractDigest" in
      check! ensure (is_none replay || is_str replay (ti_replay_policy t))
               "Tool Intent replay_policy 与 Operation 注册快照不一致" in
      check! ensure (is_none digest
                     || match ti_security_contract_digest t with
                        | Some d => is_str digest d
                        | None => true
                        end)
               "Tool Intent Security Contract 与 Operation 注册快照不一致" in
      ensure (is_none digest
              || match ti_security_contract_digest t with Some _ => true | None => false end
              || negb (String.eqb (ti_replay_policy t) "safe"))
        "Safe Replay Tool Intent 缺少 Operation 注册合同"
  end.

(** [tool_intent_recorded] *)
Definition on_tool_intent (s base : OperationState) (data : pydict) : res OperationState :=
  let! id := event_text data "toolCallId" in
  check! ensure (negb (dmem id (op_tools s))) "Tool Intent 重复" in
  let! name := event_text data "toolName" in
  let! arguments := py_dict (jget_or data "arguments" (VDict [])) in
  let! replay := py_str (jget_or data "replayPolicy" (VStr "never")) in
  let! digest := event_optional_text (jget data "securityContractDigest") in
  let! implementation := event_optional_text (jget data "implementationVersion") in
  let! security := event_optional_text (jget data "securityPolicyVersion") in
  let t := mkInvocation id name arguments replay digest implementation security
             TiIntentRecorded 0 None None in
  let! configured := configured_tool s name in
  check! validate_configured_tool configured t in
  check! validate_tool_approval s (approval_for_tool_call s id) t in
  Ok (op_put_tool id t base).

(** [tool_dispatch_started] *)
Definition on_tool_dispatch (s base : OperationState) (data : pydict) : res OperationState :=
  let! id := event_text data "toolCallId" in
  let! t := lookup_tool s id in
  let approval := approval_for_tool_call s id in
  check! match approval with
         | Some a => ensure (one_of (ap_state a) [ApConsumed; ApResumeStarted])
                       "Tool 仍在等待 Approval，禁止 Dispatch"
         | None => Ok tt
         end in
  check! validate_tool_approval s approval t in
  check! ensure (one_of (ti_phase t) [TiIntentRecorded; TiDispatchStarted])
           "Tool 已结束，不能再次 Dispatch" in
  Ok (op_put_tool id (ti_with TiDispatchStarted (ti_attempts t + 1) (ti_result t)
                        (ti_reconcile_fencing_token t) t) base).

(** [tool_reconcile_started] *)
Definition on_tool_reconcile_started (s base : OperationState) (data : pydict)
  : res OperationState :=
  let! id := event_text data "toolCallId" in
  let! t := lookup_tool s id in
  check! ensure (bool_decide (ti_phase t = TiOutcomeUnknown))
           "只有 OutcomeUnknown Tool 可以开始 Reconciliation" in
  let! token := next_fencing_token (ti_reconcile_fencing_token t) data
                  "Tool Reconciliation Fencing Token 必须严格递增" in
  Ok (op_put_tool id (ti_with (ti_phase t) (ti_attempts t) (ti_result t) (Some token) t) base).

(** [tool_completed], [tool_outcome_unknown] and [tool_reconciled] *)
Definition on_tool_finish (s base : OperationState) (ty : string) (data : pydict)
  : res OperationState :=
  let! id := event_text data "toolCallId" in
  let! t := lookup_tool s id in
  let reconciled := String.eqb ty "tool_reconciled" in
  let unknown := String.eqb ty "tool_outcome_unknown" in
  check! ensure (one_of (ti_phase t)
                   (if reconciled then [TiOutcomeUnknown; TiDispatchStarted]
                    else [TiIntentRecorded; TiDispatchStarted]))
           "Tool Result 重复或状态不允许" in
  check! (if reconciled
          then validate_terminal_fencing_token (ti_reconcile_fencing_token t) data
                 "Tool Reconciliation"
          else Ok tt) in
  let! result := py_dict (jget_or data "result" (VDict [])) in
  check! validate_tool_write_result_consistency s t unknown result in
  Ok (op_put_tool id
        (ti_with (if unknown then TiOutcomeUnknown else TiCompleted) (ti_attempts t)
           (Some result) (ti_reconcile_fencing_token t) t) base).

(** ** Model request events *)

(** [model_request_started] *)
Definition on_model_request_started (s base : OperationState) (data : pydict)
  : res OperationState :=
  let! id := event_text data "requestId" in
  check! ensure (negb (dmem id (op_model_requests s))) "Model Request ID 重复" in
  let! policy :=
    match jget data "requestPolicy" with
    | VNone => Ok None
    | raw => let! p := model_policy raw in Ok (Some p)
    end in
  Ok (base |> op_put_request id (mkModelRequest id RequestStarted policy None)
           |> op_with_policy policy).

(** The open request a completion or failure refers to. *)
Definition open_request (s : OperationState) (id : string) : res ModelRequestState :=
  match dget id (op_model_requests s) with
  | Some r => if bool_decide (mr_phase r = RequestStarted) then Ok r
              else log_error "Model Request 完成事件没有对应 Started"
  | None => log_error "Model Request 完成事件没有对应 Started"
  end.

Definition policy_to_log_error {A : Type} (r : res A) : res A :=
  match r with
  | Err ModelRequestPolicyError => log_error "Model Request Completed 响应违反持久策略"
  | _ => r
  end.

(** [model_request_completed] *)
Definition on_model_request_completed (s base : OperationState) (data : pydict)
  : res OperationState :=
  let! id := event_text data "requestId" in
  let! r := open_request s id in
  let! message := event_message_data data in
  check! policy_to_log_error (validate_persisted_model_response message (mr_policy r)) in
  Ok (base |> op_put_request id
                (mkModelRequest (mr_request_id r) RequestCompleted (mr_policy r)
                   (mr_error_code r))
           |> op_add_message message).

(** [model_request_failed] *)
Definition on_model_request_failed (s base : OperationState) (data : pydict)
  : res OperationState :=
  let! id := event_text data "requestId" in
  let! r := open_request s id in
  let! code := py_str (jget_or data "errorCode" (VStr "model_error")) in
  Ok (op_put_request id
        (mkModelRequest (mr_request_id r) RequestFailed (mr_policy r) (Some code)) base).

(** ** Approval events: [_reduce_approval_event] *)

(** [approval_requested] *)
Definition on_approval_requested (s : OperationState) (id : string) (data : pydict)
  : res OperationState :=
  check! ensure (negb (dmem id (op_approvals s))) "Approval Request 重复" in
  let! hash := event_text data "actionHash" in
  let! requester := event_text data "requesterId" in
  let! role := event_text data "requiredRole" in
  Ok (s |> op_put_approval id
             (mkApproval id ApWaiting hash requester role [] None None None RsUnregistered None)
        |> op_with_phase OpWaitingApproval).

(** [approval_resume_registered] *)
Definition on_approval_registered (s : OperationState) (id : string) (a : ApprovalSnapshot)
    (data : pydict) : res OperationState :=
  check! ensure (bool_decide (ap_resume_state a = RsUnregistered))
           "Approval Resume Registered 重复" in
  let! action := py_dict (jget_or data "action" (VDict [])) in
  check! ensure (String.eqb (action_digest action) (ap_action_hash a))
           "Approval Resume Action Hash 不匹配" in
  let! payload := py_dict (jget_or data "resumePayload" (VDict [])) in
  let! envelopes := envelope_to_log_error "Approval Resume Envelope 无效"
    (let! e := envelope_from_dict (VDict action) in
     let! p := envelope_from_dict (jget payload "envelope") in
     Ok (e, p)) in
  let (e, payload_envelope) := envelopes : DurableActionEnvelope * DurableActionEnvelope in
  check! ensure (envelope_eq e payload_envelope)
           "Approval Action 与 Resume Payload Envelope 不一致" in
  check! ensure (String.eqb (ea_operation_id e) (op_operation_id s))
           "Approval Envelope Operation ID 不匹配" in
  match dget (ea_write_id e) (op_writes s) with
  | None => log_error "Approval Resume Envelope 缺少同事务持久化的 Write"
  | Some w =>
      check! ensure (String.eqb (wr_action_hash w) (ap_action_hash a))
               "Approval 与 Write Action Hash 不一致" in
      let! calls := assistant_tool_calls (op_messages s) (ea_tool_call_id e) in
      match calls with
      | [call] =>
          match jget call "arguments" with
          | VDict arguments =>
              let! call_id := event_text call "id" in
              let! name := event_text call "name" in
              check! envelope_to_log_error "Approval Envelope 与 Assistant Tool Call 不匹配"
                (assert_execution e
                   (mkExecution (op_operation_id s) call_id name arguments (wr_write_id w))
                   (Some (write_binding w))) in
              check! ensure
                (forallb (fun item =>
                   negb (negb (String.eqb (ap_approval_id item) id)
                         && (bool_decide (ap_tool_call_id item = Some (ea_tool_call_id e))
                             || bool_decide (ap_write_id item = Some (ea_write_id e)))))
                   (dvalues (op_approvals s)))
                "Approval Resume Tool Call/Write 已绑定其他 Approval" in
              Ok (s |> op_put_approval id
                         (ap_bind (envelope_to_dict e) (ea_tool_call_id e) (ea_write_id e) a)
                    |> op_with_phase (if bool_decide (ap_state a = ApWaiting)
                                      then OpWaitingApproval else op_phase s))
          | _ => log_error "Assistant Tool Call arguments 必须是对象"
          end
      | _ => log_error "Approval Resume 必须绑定唯一的 Assistant Tool Call"
      end
  end.

(** [approval_resume_started]: the approval after the event *)
Definition start_resume (s : OperationState) (a : ApprovalSnapshot) (data : pydict)
  : res ApprovalSnapshot :=
  check! ensure (bool_decide (ap_state a = ApConsumed)) "Approval 未消费，不能开始 Resume" in
  check! ensure (one_of (ap_resume_state a) [RsRegistered; RsStarted])
           "Approval Resume 当前状态不能 Started" in
  check! validate_registered_approval_dependencies s a false in
  let consumer := jget data "consumerId" in
  check! ensure (is_none consumer
                 || match ap_consumer_id a with Some c => is_str consumer c | None => true end)
           "Approval Resume Consumer 与 Approval Consume 不一致" in
  let! token := optional_fencing_token data in
  Ok (ap_with ApResumeStarted (ap_consumer_id a) RsStarted token a).

(** [approval_resume_completed] *)
Definition complete_resume (s : OperationState) (a : ApprovalSnapshot) (data : pydict)
  : res ApprovalSnapshot :=
  check! ensure (bool_decide (ap_state a = ApResumeStarted))
           "Approval Resume 未 Started 不能 Completed" in
  check! validate_registered_approval_dependencies s a true in
  check! validate_terminal_fencing_token (ap_resume_fencing_token a) data "Approval Resume" in
  Ok (ap_settle ApResumeCompleted RsCompleted a).

(** The new approval and operation phase of every other approval event. *)
Definition advance_approval (s : OperationState) (a : ApprovalSnapshot) (ty : string)
    (data : pydict) : res (ApprovalSnapshot * OperationPhase) :=
  if String.eqb ty "approval_granted" then
    check! ensure (bool_decide (ap_state a = ApWaiting)) "只有 Waiting Approval 可以批准" in
    Ok (ap_state_to ApApproved a, OpReadyToResume)
  else if String.eqb ty "approval_consumed" then
    check! ensure (bool_decide (ap_state a = ApApproved)) "只有 Approved Approval 可以消费" in
    let! consumer := py_str (jget_or data "consumerId" (VStr "")) in
    Ok (ap_with ApConsumed (Some consumer) (ap_resume_state a) (ap_resume_fencing_token a) a,
        OpReadyToResume)
  else if String.eqb ty "approval_rejected" then
    check! ensure (bool_decide (ap_state a = ApWaiting)) "只有 Waiting Approval 可以拒绝" in
    Ok (ap_settle ApRejected RsCancelled a, OpRunning)
  else if String.eqb ty "approval_expired" then
    check! ensure (bool_decide (ap_state a = ApWaiting)) "只有 Waiting Approval 可以过期" in
    Ok (ap_settle ApExpired RsCancelled a, OpRunning)
  else if String.eqb ty "approval_resume_started" then
    let! a' := start_resume s a data in Ok (a', OpExecutingWrite)
  else if String.eqb ty "approval_resume_reentered" then
    check! ensure (bool_decide (ap_state a = ApResumeStarted))
             "只有 Started Approval Resume 可以由新 Worker 重入" in
    let! token := next_fencing_token (ap_resume_fencing_token a) data
                    "Approval Resume 重入 Fencing Token 必须严格递增" in
    Ok (ap_with (ap_state a) (ap_consumer_id a) (ap_resume_state a) (Some token) a,
        OpExecutingWrite)
  else if String.eqb ty "approval_resume_completed" then
    let! a' := complete_resume s a data in Ok (a', OpRunning)
  else if String.eqb ty "approval_resume_failed" then
    check! ensure (bool_decide (ap_state a = ApResumeStarted))
             "Approval Resume 未 Started 不能 Failed" in
    check! validate_terminal_fencing_token (ap_resume_fencing_token a) data "Approval Resume" in
    Ok (ap_settle ApResumeFailed RsFailed a, OpRunning)
  else if String.eqb ty "approval_resume_cancelled" then
    check! ensure (one_of (ap_state a) [ApWaiting; ApRejected; ApExpired])
             "当前 Approval 状态不能取消 Resume" in
    Ok (ap_settle ApResumeCancelled RsCancelled a, OpRunning)
  else log_error "未知 Approval Event".

Definition reduce_approval_event (s : OperationState) (e : OperationEvent)
  : res OperationState :=
  let ty := oe_type e in
  let data := oe_data e in
  if String.eqb ty "approval_pending" then Ok (op_with_phase OpWaitingApproval s) else
  let! id := event_text data "approvalId" in
  if String.eqb ty "approval_requested" then on_approval_requested s id data else
  match dget id (op_approvals s) with
  | None => log_error "Approval Event 缺少 Request"
  | Some a =>
      if String.eqb ty "approval_resume_registered" then on_approval_registered s id a data else
      let! next := advance_approval s a ty data in
      Ok (s |> op_put_approval id (fst next) |> op_with_phase (snd next))
  end.

(** ** Write events: [_reduce_write_event] *)

Definition hash_version (value : pyval) : res Z :=
  match value with
  | VInt n => if n <? 1 then log_error "Write Prepared idempotencyHashVersion 无效" else Ok n
  | _ => log_error "Write Prepared idempotencyHashVersion 无效"
  end.

Definition expected_version (value : pyval) : res (option Z) :=
  match value with
  | VNone => Ok None
  | VInt n => if n <? 0 then log_error "Write Prepared expectedEntityVersion 无效" else Ok (Some n)
  | _ => log_error "Write Prepared expectedEntityVersion 无效"
  end.

(** [write_prepared] *)
Definition on_write_prepared (s : OperationState) (id : string) (data : pydict)
  : res OperationState :=
  check! ensure (negb (dmem id (op_writes s))) "Write Prepared 重复" in
  let! version := hash_version (jget_or data "idempotencyHashVersion" (VInt 1)) in
  let! expected := expected_version (jget data "expectedEntityVersion") in
  let! name := event_text data "toolName" in
  let! arguments := py_dict (jget_or data "arguments" (VDict [])) in
  let! hash := event_text data "actionHash" in
  let! key_hash := event_text data "idempotencyKeyHash" in
  let! entity := str_or_none (jget data "entityId") in
  let! preconditions :=
    match jget data "businessPreconditions" with
    | VNone => Ok None
    | v => let! p := py_dict v in Ok (Some p)
    end in
  let! tool_call_id := str_or_none (jget data "toolCallId") in
  let w := mkWrite id WrPrepared name arguments hash key_hash version entity expected
             preconditions tool_call_id None None None in
  check! match find_first (fun a => bool_decide (ap_write_id a = Some id))
                 (dvalues (op_approvals s)) with
         | None => Ok tt
         | Some a =>
             check! ensure (String.eqb (ap_action_hash a) hash)
                      "Approval 与 Write Action Hash 不一致" in
             validate_approval_write s a w
         end in
  Ok (op_put_write id w s).

(** [if approval.action: _validate_approval_action(...)] *)
Definition validate_bound_write (s : OperationState) (a : ApprovalSnapshot) (w : WriteSnapshot)
  : res unit :=
  if bool_decide (ap_action a = []) then Ok tt else validate_approval_write s a w.

(** [write_waiting_approval] *)
Definition wait_for_approval (s : OperationState) (w : WriteSnapshot) (data : pydict)
  : res WriteSnapshot :=
  check! ensure (bool_decide (wr_state w = WrPrepared)) "只有 Prepared Write 可以等待审批" in
  let! approval_id := event_text data "approvalId" in
  match dget approval_id (op_approvals s) with
  | None => log_error "Write Waiting 缺少对应 Approval"
  | Some a =>
      check! ensure (String.eqb (ap_action_hash a) (wr_action_hash w))
               "Approval 与 Write Action Hash 不一致" in
      check! (if bool_decide (ap_action a = []) then Ok tt
              else ensure (bool_decide (ap_write_id a = Some (wr_write_id w)))
                     "Approval Resume 与 Waiting Write 绑定不一致") in
      check! validate_bound_write s a w in
      Ok (wr_with WrWaitingApproval (Some approval_id) (wr_result w)
            (wr_reconcile_fencing_token w) w)
  end.

(** [write_approved] *)
Definition approve_write (s : OperationState) (w : WriteSnapshot) (data : pydict)
  : res WriteSnapshot :=
  check! ensure (one_of (wr_state w) [WrPrepared; WrWaitingApproval])
           "当前 Write 状态不能 Approved" in
  let event_id := jget data "approvalId" in
  check! match wr_approval_id w with
         | None => ensure (is_none event_id) "无需审批的 Write 不能绑定 Approval"
         | Some approval_id =>
             check! ensure (is_str event_id approval_id)
                      "Write Approved 与 Waiting Approval 不一致" in
             match dget approval_id (op_approvals s) with
             | None => log_error "Approval 未消费，Write 不能 Approved"
             | Some a =>
                 check! ensure (one_of (ap_state a) [ApConsumed; ApResumeStarted])
                          "Approval 未消费，Write 不能 Approved" in
                 check! ensure (String.eqb (ap_action_hash a) (wr_action_hash w))
                          "Approval 与 Write Action Hash 不一致" in
                 validate_bound_write s a w
             end
         end in
  Ok (wr_state_to WrApproved w).

(** [write_submitting] *)
Definition submit_write (s : OperationState) (w : WriteSnapshot) : res WriteSnapshot :=
  check! ensure (bool_decide (wr_state w = WrApproved)) "只有 Approved Write 可以提交" in
  check! match wr_tool_call_id w with
         | None => Ok tt
         | Some id =>
             match dget id (op_tools s) with
             | None => log_error "Write Submitting 前必须原子启动对应 Tool Dispatch"
             | Some t =>
                 check! ensure (bool_decide (ti_phase t = TiDispatchStarted))
                          "Write Submitting 前必须原子启动对应 Tool Dispatch" in
                 ensure (String.eqb (ti_tool_name t) (wr_tool_name w)
                         && strict_json_equal (VDict (ti_arguments t)) (VDict (wr_arguments w)))
                   "Write 与 Tool Intent 内容不一致"
             end
         end in
  Ok (wr_state_to WrSubmitting w).

(** The claim check a write under reconciliation needs before it ends. *)
Definition validate_reconciler (w : WriteSnapshot) (data : pydict) : res unit :=
  if bool_decide (wr_state w = WrReconciling)
  then validate_terminal_fencing_token (wr_reconcile_fencing_token w) data "Write Reconciliation"
  else Ok tt.

(** [write_succeeded] *)
Definition succeed_write (s : OperationState) (w : WriteSnapshot) (data : pydict)
  : res WriteSnapshot :=
  check! ensure (one_of (wr_state w) [WrSubmitting; WrReconciling])
           "当前 Write 状态不能 Succeeded" in
  check! validate_reconciler w data in
  check! validate_write_against_finished_tool s w WrSucceeded in
  let! result := py_dict (jget_or data "result" (VDict [])) in
  Ok (wr_with WrSucceeded (wr_approval_id w) (Some result) (wr_reconcile_fencing_token w) w).

(** [write_failed] *)
Definition fail_write (s : OperationState) (w : WriteSnapshot) (data : pydict)
  : res WriteSnapshot :=
  let approval_denied := bool_decide (wr_state w = WrWaitingApproval)
                         && is_str (jget data "reason") "approval_not_granted" in
  check! ensure (one_of (wr_state w) [WrSubmitting; WrReconciling] || approval_denied)
           "当前 Write 状态不能 Failed" in
  check! (if approval_denied then Ok tt else
          check! validate_reconciler w data in
          validate_write_against_finished_tool s w WrFailed) in
  let! result := py_dict (jget_or data "result" (VDict [])) in
  Ok (wr_with WrFailed (wr_approval_id w) (Some result) (wr_reconcile_fencing_token w) w).

(** The new write and operation phase of every write event but [write_prepared]. *)
Definition advance_write (s : OperationState) (w : WriteSnapshot) (ty : string) (data : pydict)
  : res (WriteSnapshot * OperationPhase) :=
  if String.eqb ty "write_waiting_approval" then
    let! w' := wait_for_approval s w data in Ok (w', OpWaitingApproval)
  else if String.eqb ty "write_approved" then
    let! w' := approve_write s w data in Ok (w', OpReadyToResume)
  else if String.eqb ty "write_submitting" then
    let! w' := submit_write s w in Ok (w', OpExecutingWrite)
  else if String.eqb ty "write_succeeded" then
    let! w' := succeed_write s w data in Ok (w', OpRunning)
  else if String.eqb ty "write_failed" then
    let! w' := fail_write s w data in Ok (w', OpRunning)
  else if String.eqb ty "write_outcome_unknown" then
    check! ensure (bool_decide (wr_state w = WrSubmitting))
             "只有 Submitting Write 可变成 OutcomeUnknown" in
    check! validate_write_against_finished_tool s w WrOutcomeUnknown in
    Ok (wr_state_to WrOutcomeUnknown w, OpOutcomeUnknown)
  else if String.eqb ty "write_reconciling" then
    check! ensure (bool_decide (wr_state w = WrOutcomeUnknown))
             "只有 OutcomeUnknown Write 可以核对" in
    let! token := optional_fencing_token data in
    Ok (wr_with WrReconciling (wr_approval_id w) (wr_result w) token w, OpOutcomeUnknown)
  else if String.eqb ty "write_reconcile_reentered" then
    check! ensure (bool_decide (wr_state w = WrReconciling))
             "只有 Reconciling Write 可以由新 Worker 重入" in
    let! token := next_fencing_token (wr_reconcile_fencing_token w) data
                    "Write Reconciliation 重入 Fencing Token 必须严格递增" in
    Ok (wr_with (wr_state w) (wr_approval_id w) (wr_result w) (Some token) w, OpOutcomeUnknown)
  else if String.eqb ty "write_reconcile_failed" then
    check! ensure (bool_decide (wr_state w = WrReconciling))
             "只有 Reconciling Write 可以记录核对失败" in
    check! validate_reconciler w data in
    Ok (wr_state_to WrOutcomeUnknown w, OpOutcomeUnknown)
  else if String.eqb ty "write_reconcile_deferred" then
    check! ensure (bool_decide (wr_state w = WrReconciling))
             "只有 Reconciling Write 可以延后核对" in
    check! validate_reconciler w data in
    let! result := py_dict (jget_or data "result" (VDict [])) in
    Ok (wr_with WrOutcomeUnknown (wr_approval_id w) (Some result)
          (wr_reconcile_fencing_token w) w, OpOutcomeUnknown)
  else log_error "未知 Write Event".

Definition reduce_write_event (s : OperationState) (e : OperationEvent) : res OperationState :=
  let data := oe_data e in
  let! id := event_text data "writeId" in
  if String.eqb (oe_type e) "write_prepared" then on_write_prepared s id data else
  match dget id (op_writes s) with
  | None => log_error "Write Event 缺少 Prepared"
  | Some w =>
      let! next := advance_write s w (oe_type e) data in
      Ok (s |> op_put_write id (fst next) |> op_with_phase (snd next))
  end.

(** ** The end of an operation *)

Definition unresolved_tools (s : OperationState) : list string :=
  map ti_tool_call_id (List.filter (fun t =>
    one_of (ti_phase t) [TiIntentRecorded; TiDispatchStarted; TiOutcomeUnknown])
    (dvalues (op_tools s))).

Definition unresolved_writes (s : OperationState) : list string :=
  map wr_write_id (List.filter (fun w =>
    one_of (wr_state w) [WrPrepared; WrWaitingApproval; WrApproved; WrSubmitting;
                         WrOutcomeUnknown; WrReconciling]) (dvalues (op_writes s))).

Definition unresolved_approvals (s : OperationState) : list string :=
  map ap_approval_id (List.filter (fun a =>
    one_of (ap_state a) [ApWaiting; ApApproved; ApConsumed; ApResumeStarted])
    (dvalues (op_approvals s))).

(** [_validate_operation_terminal_facts] *)
Definition validate_operation_terminal_facts (s : OperationState) : res unit :=
  ensure (bool_decide (unresolved_tools s ++ unresolved_writes s ++ unresolved_approvals s
                       = [])%list) "Operation 不能掩盖未决持久事实".

Definition transcript_to_log_error {A : Type} (r : res A) : res A :=
  match r with
  | Err (TranscriptIntegrityError _) => log_error "Operation Finished 时 Tool Call 未闭合"
  | _ => r
  end.

(** The last assistant message, [last_assistant] *)
Definition last_assistant (messages : list pydict) : option pydict :=
  find_first (fun m => is_str (jget m "role") "assistant") (rev messages).

(** The checks of [outcome == "completed"] *)
Definition validate_completed (s : OperationState) : res unit :=
  let! unsuccessful :=
    match last_assistant (op_messages s) with
    | Some m => in_str_set (jget m "stopReason") ["error"; "aborted"; "length"]
    | None => Ok false
    end in
  check! ensure (negb unsuccessful) "Operation Completed 时存在未成功的模型响应" in
  check! ensure (forallb (fun t => bool_decide (ti_phase t = TiCompleted)) (dvalues (op_tools s)))
           "Operation Completed 时仍有未完成 Tool" in
  check! ensure (negb (existsb (fun a =>
                   one_of (ap_state a) [ApWaiting; ApApproved; ApResumeStarted]
                   || bool_decide (ap_state a = ApConsumed)
                      && negb (bool_decide (ap_resume_state a = RsUnregistered)))
                   (dvalues (op_approvals s))))
           "Operation Completed 时仍有未完成 Approval Resume" in
  ensure (forallb (fun w => one_of (wr_state w) [WrSucceeded; WrFailed]) (dvalues (op_writes s)))
    "Operation Completed 时仍有未完成 Write".

Definition outcome_phase_of (outcome : string) : option OperationPhase :=
  if String.eqb outcome "completed" then Some OpCompleted
  else if String.eqb outcome "failed" then Some OpFailed
  else if String.eqb outcome "cancelled" then Some OpCancelled
  else None.

(** [operation_finished] *)
Definition on_operation_finished (s base : OperationState) (data : pydict)
  : res OperationState :=
  check! ensure (negb (existsb (fun r => bool_decide (mr_phase r = RequestStarted))
                               (dvalues (op_model_requests s))))
           "Operation Finished 时仍有未结束 Model Request" in
  check! transcript_to_log_error (validate_closed_tool_call_transcript (op_messages s)) in
  let! outcome := py_str (jget_or data "outcome" (VStr "failed")) in
  match outcome_phase_of outcome with
  | None => log_error "Operation outcome 无效"
  | Some phase =>
      check! validate_operation_terminal_facts s in
      check! (if bool_decide (phase = OpCompleted) then validate_completed s else Ok tt) in
      Ok (base |> op_with_phase phase |> op_with_outcome outcome)
  end.

(** ** The reducer and replay *)

(** [operation_started], the only event a missing state accepts *)
Definition start_operation (e : OperationEvent) : res OperationState :=
  check! ensure (String.eqb (oe_type e) "operation_started")
           "第一条事件必须是 operation_started" in
  let! configuration := py_dict (jget_or (oe_data e) "configuration" (VDict [])) in
  let! tools := py_list (jget_or (oe_data e) "tools" (VList [])) in
  Ok (mkOperation (oe_session_id e) (oe_operation_id e) OpRunning (oe_sequence e) [] [] [] [] []
        (dset "tools" (VList tools) configuration) None None).

(** The dispatch on the event type, after the common guards. *)
Definition apply_operation_event (s base : OperationState) (e : OperationEvent)
  : res OperationState :=
  let ty := oe_type e in
  let data := oe_data e in
  if String.eqb ty "message_appended" then
    let! message := event_message_data data in Ok (op_add_message message base)
  else if String.eqb ty "model_policy_selected" then
    let! p := model_policy (jget data "policy") in Ok (op_with_policy (Some p) base)
  else if String.eqb ty "model_request_started" then on_model_request_started s base data
  else if String.eqb ty "model_request_completed" then on_model_request_completed s base data
  else if String.eqb ty "model_request_failed" then on_model_request_failed s base data
  else if String.eqb ty "tool_intent_recorded" then on_tool_intent s base data
  else if String.eqb ty "tool_dispatch_started" then on_tool_dispatch s base data
  else if String.eqb ty "tool_reconcile_started" then on_tool_reconcile_started s base data
  else if mem_str ty ["tool_completed"; "tool_outcome_unknown"; "tool_reconciled"] then
    on_tool_finish s base ty data
  else if starts_with "approval_" ty then reduce_approval_event base e
  else if starts_with "write_" ty then reduce_write_event base e
  else if String.eqb ty "operation_finished" then on_operation_finished s base data
  else if starts_with "routing_" ty then Ok base
  else log_error "未知 Operation Event".

(** [reduce_operation_event] *)
Definition reduce_operation_event (state : option OperationState) (e : OperationEvent)
  : res OperationState :=
  match state with
  | None => start_operation e
  | Some s =>
      check! ensure (String.eqb (oe_session_id e) (op_session_id s)
                     && String.eqb (oe_operation_id e) (op_operation_id s))
               "Operation Event 身份不一致" in
      check! ensure (op_last_sequence s <? oe_sequence e) "Operation Event sequence 必须递增" in
      check! ensure (negb (terminal_phase (op_phase s))) "Operation 终态后不能追加事件" in
      apply_operation_event s (op_with_sequence (oe_sequence e) s) e
  end.

Definition reduce_step (state : option OperationState) (e : OperationEvent)
  : res (option OperationState) :=
  let! s := reduce_operation_event state e in Ok (Some s).

(** [replay_operation] *)
Definition replay_operation (events : list OperationEvent) : res OperationState :=
  let! state := foldM reduce_step None (sort_by oe_sequence events) in
  match state with
  | Some s => Ok s
  | None => log_error "Operation Log 为空"
  end.

(** One candidate of [replay_operation_with_specs], numbered after the last event. *)
Definition reduce_spec (now : Z) (acc : OperationState * Z) (spec : string * pydict)
  : res (OperationState * Z) :=
  let (s, sequence) := acc in
  let sequence := sequence + 1 in
  let! e := operation_event (fst spec) (op_session_id s) (op_operation_id s) sequence now
              (snd spec) in
  let! s' := reduce_operation_event (Some s) e in
  Ok (s', sequence).

Definition max_sequence (events : list OperationEvent) : Z :=
  match events with
  | [] => 0
  | e :: es => fold_left Z.max (map oe_sequence es) (oe_sequence e)
  end.

(** [replay_operation_with_specs]; [now] is the clock reading put in the events. *)
Definition replay_operation_with_specs (now : Z) (events : list OperationEvent)
    (specs : list (string * pydict)) : res OperationState :=
  let! s := replay_operation events in
  let! final := foldM (reduce_spec now) (s, max_sequence events) specs in
  Ok (fst final).
