(* ===== verification/OperationLifecycle.v ===== *)
(** * Durable operation log: lifecycles and the step relation

    An abstract specification of the log: how one tool invocation, one approval
    and one write may change ([tool_edge], [approval_edge], [write_edge]) and
    what one event may do to an operation ([op_step]).  [reduce_refines_step]
    shows that the reducer implements it. *)

From S2P Require Import Prelude PyDict Text PyVal Json DurableAction.
From S2P Require Import Transcript ModelPolicy OperationTypes OperationReducer.
From Stdlib Require Import String.

#[local] Open Scope string_scope.
#[local] Open Scope bool_scope.
#[local] Open Scope Z_scope.

(** ** Reading a successful run of the reducer *)

Lemma ensure_Ok b m u : ensure b m = Ok u -> b = true.
Proof. destruct b; [done|]. unfold ensure. done. Qed.

(** Turns the checks left by [res_inv] into facts about the state. *)
Ltac ensure_facts := repeat match goal with
  | E : ensure _ _ = Ok _ |- _ => apply ensure_Ok in E
  | E : bool_decide _ = true |- _ => apply bool_decide_eq_true in E
  | E : negb _ = true |- _ => apply negb_true_iff in E
  | E : one_of _ _ = true |- _ => apply one_of_spec in E
  | E : (_ && _) = true |- _ => apply andb_true_iff in E as [? ?]
  | E : String.eqb _ _ = true |- _ => apply String.eqb_eq in E
  | E : dmem ?k ?d = false |- _ =>
      unfold dmem in E; destruct (dget k d) eqn:?; [discriminate E | clear E]
  end.

(** A token above the recorded one, if any. *)
Definition above (recorded : option Z) (token : Z) : Prop :=
  match recorded with Some n => n < token | None => True end.

Lemma next_fencing_token_Ok recorded data m token :
  next_fencing_token recorded data m = Ok token ->
  required_fencing_token data = Ok token /\ above recorded token.
Proof.
  unfold next_fencing_token. intros H. res_inv H. ensure_facts. split; [done|].
  unfold above. destruct recorded; [by apply Z.ltb_lt | done].
Qed.

(** The claim recorded for a fact is the one the event carries. *)
Definition holds_claim (recorded : option Z) (data : pydict) : Prop :=
  match recorded with Some n => required_fencing_token data = Ok n | None => True end.

Lemma validate_terminal_Ok recorded data label :
  validate_terminal_fencing_token recorded data label = Ok tt -> holds_claim recorded data.
Proof.
  unfold validate_terminal_fencing_token, holds_claim. destruct recorded as [n|]; [|done].
  intros H. res_inv H. ensure_facts. by match goal with E : (_ =? _) = true |- _ =>
    apply Z.eqb_eq in E; subst end.
Qed.

(** ** Lifecycle of a tool invocation *)

Inductive tool_edge (s : OperationState) (id : string) (data : pydict) :
  option ToolInvocationState -> string -> ToolInvocationState -> Prop :=
| te_intent t :
    ti_tool_call_id t = id -> ti_phase t = TiIntentRecorded -> ti_attempts t = 0 ->
    ti_result t = None -> ti_reconcile_fencing_token t = None ->
    validate_tool_approval s (approval_for_tool_call s id) t = Ok tt ->
    tool_edge s id data None "tool_intent_recorded" t
| te_dispatch t :
    ti_phase t ∈ [TiIntentRecorded; TiDispatchStarted] ->
    (forall a, approval_for_tool_call s id = Some a ->
       ap_state a ∈ [ApConsumed; ApResumeStarted]) ->
    validate_tool_approval s (approval_for_tool_call s id) t = Ok tt ->
    tool_edge s id data (Some t) "tool_dispatch_started"
      (ti_with TiDispatchStarted (ti_attempts t + 1) (ti_result t)
         (ti_reconcile_fencing_token t) t)
| te_reconcile t token :
    ti_phase t = TiOutcomeUnknown -> above (ti_reconcile_fencing_token t) token ->
    tool_edge s id data (Some t) "tool_reconcile_started"
      (ti_with (ti_phase t) (ti_attempts t) (ti_result t) (Some token) t)
| te_finish t ty result :
    ty ∈ ["tool_completed"; "tool_outcome_unknown"; "tool_reconciled"] ->
    ti_phase t ∈ (if String.eqb ty "tool_reconciled"
                  then [TiOutcomeUnknown; TiDispatchStarted]
                  else [TiIntentRecorded; TiDispatchStarted]) ->
    (ty = "tool_reconciled" -> holds_claim (ti_reconcile_fencing_token t) data) ->
    validate_tool_write_result_consistency s t (String.eqb ty "tool_outcome_unknown") result
      = Ok tt ->
    tool_edge s id data (Some t) ty
      (ti_with (if String.eqb ty "tool_outcome_unknown" then TiOutcomeUnknown else TiCompleted)
         (ti_attempts t) (Some result) (ti_reconcile_fencing_token t) t).

(** ** Lifecycle of an approval *)

Inductive approval_edge (s : OperationState) (id : string) (data : pydict) :
  option ApprovalSnapshot -> string -> ApprovalSnapshot -> Prop :=
| ae_requested hash requester role :
    event_text data "actionHash" = Ok hash -> event_text data "requesterId" = Ok requester ->
    event_text data "requiredRole" = Ok role ->
    approval_edge s id data None "approval_requested"
      (mkApproval id ApWaiting hash requester role [] None None None RsUnregistered None)
| ae_registered a action e w call call_id name arguments :
    ap_resume_state a = RsUnregistered ->
    py_dict (jget_or data "action" (VDict [])) = Ok action ->
    envelope_from_dict (VDict action) = Ok e -> action_digest action = ap_action_hash a ->
    ea_operation_id e = op_operation_id s ->
    dget (ea_write_id e) (op_writes s) = Some w -> wr_action_hash w = ap_action_hash a ->
    assistant_tool_calls (op_messages s) (ea_tool_call_id e) = Ok [call] ->
    event_text call "id" = Ok call_id -> event_text call "name" = Ok name ->
    jget call "arguments" = VDict arguments ->
    assert_execution e (mkExecution (op_operation_id s) call_id name arguments (wr_write_id w))
      (Some (write_binding w)) = Ok tt ->
    (forall other, other ∈ dvalues (op_approvals s) -> ap_approval_id other <> id ->
       ap_tool_call_id other <> Some (ea_tool_call_id e) /\
       ap_write_id other <> Some (ea_write_id e)) ->
    approval_edge s id data (Some a) "approval_resume_registered"
      (ap_bind (envelope_to_dict e) (ea_tool_call_id e) (ea_write_id e) a)
| ae_granted a :
    ap_state a = ApWaiting ->
    approval_edge s id data (Some a) "approval_granted" (ap_state_to ApApproved a)
| ae_consumed a consumer :
    ap_state a = ApApproved ->
    approval_edge s id data (Some a) "approval_consumed"
      (ap_with ApConsumed (Some consumer) (ap_resume_state a) (ap_resume_fencing_token a) a)
| ae_rejected a :
    ap_state a = ApWaiting ->
    approval_edge s id data (Some a) "approval_rejected" (ap_settle ApRejected RsCancelled a)
| ae_expired a :
    ap_state a = ApWaiting ->
    approval_edge s id data (Some a) "approval_expired" (ap_settle ApExpired RsCancelled a)
| ae_resume_started a token :
    ap_state a = ApConsumed -> ap_resume_state a ∈ [RsRegistered; RsStarted] ->
    validate_registered_approval_dependencies s a false = Ok tt ->
    approval_edge s id data (Some a) "approval_resume_started"
      (ap_with ApResumeStarted (ap_consumer_id a) RsStarted token a)
| ae_resume_reentered a token :
    ap_state a = ApResumeStarted -> above (ap_resume_fencing_token a) token ->
    approval_edge s id data (Some a) "approval_resume_reentered"
      (ap_with (ap_state a) (ap_consumer_id a) (ap_resume_state a) (Some token) a)
| ae_resume_completed a :
    ap_state a = ApResumeStarted -> holds_claim (ap_resume_fencing_token a) data ->
    validate_registered_approval_dependencies s a true = Ok tt ->
    approval_edge s id data (Some a) "approval_resume_completed"
      (ap_settle ApResumeCompleted RsCompleted a)
| ae_resume_failed a :
    ap_state a = ApResumeStarted -> holds_claim (ap_resume_fencing_token a) data ->
    approval_edge s id data (Some a) "approval_resume_failed"
      (ap_settle ApResumeFailed RsFailed a)
| ae_resume_cancelled a :
    ap_state a ∈ [ApWaiting; ApRejected; ApExpired] ->
    approval_edge s id data (Some a) "approval_resume_cancelled"
      (ap_settle ApResumeCancelled RsCancelled a).

(** ** Lifecycle of a write *)

(** The consent a write that refers to an approval has when it is approved. *)
Definition consented (s : OperationState) (w : WriteSnapshot) : Prop :=
  forall id, wr_approval_id w = Some id ->
  exists a, dget id (op_approvals s) = Some a /\
            ap_state a ∈ [ApConsumed; ApResumeStarted] /\
            ap_action_hash a = wr_action_hash w /\ validate_bound_write s a w = Ok tt.

(** The dispatched invocation a write with a tool call is submitted under. *)
Definition dispatched (s : OperationState) (w : WriteSnapshot) : Prop :=
  forall id, wr_tool_call_id w = Some id ->
  exists t, dget id (op_tools s) = Some t /\ ti_phase t = TiDispatchStarted /\
            ti_tool_name t = wr_tool_name w /\
            strict_json_equal (VDict (ti_arguments t)) (VDict (wr_arguments w)) = true.

Inductive write_edge (s : OperationState) (id : string) (data : pydict) :
  option WriteSnapshot -> string -> WriteSnapshot -> Prop :=
| we_prepared w :
    wr_write_id w = id -> wr_state w = WrPrepared -> wr_approval_id w = None ->
    write_edge s id data None "write_prepared" w
| we_waiting w approval_id a :
    wr_state w = WrPrepared -> dget approval_id (op_approvals s) = Some a ->
    ap_action_hash a = wr_action_hash w ->
    write_edge s id data (Some w) "write_waiting_approval"
      (wr_with WrWaitingApproval (Some approval_id) (wr_result w)
         (wr_reconcile_fencing_token w) w)
| we_approved w :
    wr_state w ∈ [WrPrepared; WrWaitingApproval] -> consented s w ->
    write_edge s id data (Some w) "write_approved" (wr_state_to WrApproved w)
| we_submitting w :
    wr_state w = WrApproved -> dispatched s w ->
    write_edge s id data (Some w) "write_submitting" (wr_state_to WrSubmitting w)
| we_succeeded w result :
    wr_state w ∈ [WrSubmitting; WrReconciling] ->
    (wr_state w = WrReconciling -> holds_claim (wr_reconcile_fencing_token w) data) ->
    validate_write_against_finished_tool s w WrSucceeded = Ok tt ->
    write_edge s id data (Some w) "write_succeeded"
      (wr_with WrSucceeded (wr_approval_id w) (Some result) (wr_reconcile_fencing_token w) w)
| we_denied w result :
    wr_state w = WrWaitingApproval -> jget data "reason" = VStr "approval_not_granted" ->
    write_edge s id data (Some w) "write_failed"
      (wr_with WrFailed (wr_approval_id w) (Some result) (wr_reconcile_fencing_token w) w)
| we_failed w result :
    wr_state w ∈ [WrSubmitting; WrReconciling] ->
    (wr_state w = WrReconciling -> holds_claim (wr_reconcile_fencing_token w) data) ->
    validate_write_against_finished_tool s w WrFailed = Ok tt ->
    write_edge s id data (Some w) "write_failed"
      (wr_with WrFailed (wr_approval_id w) (Some result) (wr_reconcile_fencing_token w) w)
| we_unknown w :
    wr_state w = WrSubmitting ->
    validate_write_against_finished_tool s w WrOutcomeUnknown = Ok tt ->
    write_edge s id data (Some w) "write_outcome_unknown" (wr_state_to WrOutcomeUnknown w)
| we_reconciling w token :
    wr_state w = WrOutcomeUnknown ->
    write_edge s id data (Some w) "write_reconciling"
      (wr_with WrReconciling (wr_approval_id w) (wr_result w) token w)
| we_reentered w token :
    wr_state w = WrReconciling -> above (wr_reconcile_fencing_token w) token ->
    write_edge s id data (Some w) "write_reconcile_reentered"
      (wr_with (wr_state w) (wr_approval_id w) (wr_result w) (Some token) w)
| we_reconcile_failed w :
    wr_state w = WrReconciling -> holds_claim (wr_reconcile_fencing_token w) data ->
    write_edge s id data (Some w) "write_reconcile_failed" (wr_state_to WrOutcomeUnknown w)
| we_deferred w result :
    wr_state w = WrReconciling -> holds_claim (wr_reconcile_fencing_token w) data ->
    write_edge s id data (Some w) "write_reconcile_deferred"
      (wr_with WrOutcomeUnknown (wr_approval_id w) (Some result)
         (wr_reconcile_fencing_token w) w).

(** ** One event *)

(** What no event touches, and the guards common to all events. *)
Record common_step (s : OperationState) (e : OperationEvent) (s' : OperationState) : Prop := {
  cs_session : oe_session_id e = op_session_id s /\ op_session_id s' = op_session_id s;
  cs_operation : oe_operation_id e = op_operation_id s /\
                 op_operation_id s' = op_operation_id s;
  cs_sequence : op_last_sequence s < oe_sequence e /\ op_last_sequence s' = oe_sequence e;
  cs_open : terminal_phase (op_phase s) = false
}.

Definition same_tools (s s' : OperationState) := op_tools s' = op_tools s.
Definition same_approvals (s s' : OperationState) := op_approvals s' = op_approvals s.
Definition same_writes (s s' : OperationState) := op_writes s' = op_writes s.
Definition still_open (s' : OperationState) :=
  terminal_phase (op_phase s') = false.

(** The event types that only move an approval or submit a write. *)
Definition tracked_types : list string :=
  ["write_submitting"; "approval_consumed"; "approval_requested"; "approval_granted";
   "approval_rejected"; "approval_expired"].

Inductive op_step (s : OperationState) (e : OperationEvent) (s' : OperationState) : Prop :=
| st_quiet :
    same_tools s s' -> same_approvals s s' -> same_writes s s' -> still_open s' ->
    (op_messages s' = op_messages s \/ exists m, op_messages s' = (op_messages s ++ [m])%list) ->
    oe_type e ∉ tracked_types ->
    op_step s e s'
| st_tool id t' :
    event_text (oe_data e) "toolCallId" = Ok id ->
    tool_edge s id (oe_data e) (dget id (op_tools s)) (oe_type e) t' ->
    op_tools s' = dset id t' (op_tools s) ->
    same_approvals s s' -> same_writes s s' -> still_open s' ->
    op_messages s' = op_messages s -> op_step s e s'
| st_approval id a' :
    event_text (oe_data e) "approvalId" = Ok id ->
    approval_edge s id (oe_data e) (dget id (op_approvals s)) (oe_type e) a' ->
    op_approvals s' = dset id a' (op_approvals s) ->
    same_tools s s' -> same_writes s s' -> still_open s' ->
    op_messages s' = op_messages s -> op_step s e s'
| st_write id w' :
    event_text (oe_data e) "writeId" = Ok id ->
    write_edge s id (oe_data e) (dget id (op_writes s)) (oe_type e) w' ->
    op_writes s' = dset id w' (op_writes s) ->
    same_tools s s' -> same_approvals s s' -> still_open s' ->
    op_messages s' = op_messages s -> op_step s e s'
| st_finished :
    oe_type e = "operation_finished" ->
    on_operation_finished s (op_with_sequence (oe_sequence e) s) (oe_data e) = Ok s' ->
    same_tools s s' -> same_approvals s s' -> same_writes s s' ->
    op_messages s' = op_messages s -> terminal_phase (op_phase s') = true ->
    op_step s e s'.

(** ** The reducer's handlers follow the lifecycles *)

Lemma envelope_to_log_error_Ok {A : Type} m (r : res A) a :
  envelope_to_log_error m r = Ok a -> r = Ok a.
Proof. destruct r as [|[]]; done. Qed.

Lemma unit_Ok (r : res unit) u : r = Ok u -> r = Ok tt.
Proof. by destruct u. Qed.

#[local] Hint Resolve unit_Ok : core.

Lemma tool_intent_step s base data s' :
  on_tool_intent s base data = Ok s' ->
  exists id t, event_text data "toolCallId" = Ok id /\
    tool_edge s id data (dget id (op_tools s)) "tool_intent_recorded" t /\
    s' = op_put_tool id t base.
Proof.
  unfold on_tool_intent. intros H. res_inv H. ensure_facts.
  eexists _, _. split; [done|]. split; [|done].
  rewrite Heqo. constructor; try done; eauto.
Qed.

Lemma tool_dispatch_step s base data s' :
  on_tool_dispatch s base data = Ok s' ->
  exists id t, event_text data "toolCallId" = Ok id /\
    tool_edge s id data (dget id (op_tools s)) "tool_dispatch_started" t /\
    s' = op_put_tool id t base.
Proof.
  unfold on_tool_dispatch, lookup_tool. intros H. res_inv H.
  eexists _, _. split; [done|]. split; [|done].
  match goal with E : match dget ?k ?d with _ => _ end = Ok _ |- _ =>
    destruct (dget k d) eqn:Hget; [|done]; injection E as -> end.
  constructor; eauto.
  - by ensure_facts.
  - intros ap Hap. rewrite Hap in *. by ensure_facts.
Qed.

Lemma tool_reconcile_step s base data s' :
  on_tool_reconcile_started s base data = Ok s' ->
  exists id t, event_text data "toolCallId" = Ok id /\
    tool_edge s id data (dget id (op_tools s)) "tool_reconcile_started" t /\
    s' = op_put_tool id t base.
Proof.
  unfold on_tool_reconcile_started, lookup_tool. intros H. res_inv H.
  eexists _, _. split; [done|]. split; [|done].
  match goal with E : match dget ?k ?d with _ => _ end = Ok _ |- _ =>
    destruct (dget k d) eqn:Hget; [|done]; injection E as -> end.
  ensure_facts. match goal with E : next_fencing_token _ _ _ = _ |- _ =>
    apply next_fencing_token_Ok in E as [_ ?] end.
  by constructor.
Qed.

Lemma tool_finish_step s base ty data s' :
  ty ∈ ["tool_completed"; "tool_outcome_unknown"; "tool_reconciled"] ->
  on_tool_finish s base ty data = Ok s' ->
  exists id t, event_text data "toolCallId" = Ok id /\
    tool_edge s id data (dget id (op_tools s)) ty t /\ s' = op_put_tool id t base.
Proof.
  intros Hty. unfold on_tool_finish, lookup_tool. intros H.
  destruct (event_text data "toolCallId") as [id|]; [|done]. cbn [rbind] in H.
  destruct (dget id (op_tools s)) as [t|] eqn:Hget; [|done]. cbn [rbind] in H.
  do 4 match type of H with rbind ?m _ = _ =>
    let E := fresh "E" in destruct m eqn:E; [cbn [rbind] in H | done] end.
  simplify_eq. eexists id, _. split; [done|]. rewrite Hget. split; [|done].
  apply ensure_Ok, one_of_spec in E. constructor; eauto.
  intros ->. simpl in E0. by eapply validate_terminal_Ok, unit_Ok.
Qed.

Lemma approval_requested_step s id data s' :
  on_approval_requested s id data = Ok s' ->
  exists a, approval_edge s id data (dget id (op_approvals s)) "approval_requested" a /\
    s' = (s |> op_put_approval id a |> op_with_phase OpWaitingApproval).
Proof.
  unfold on_approval_requested. intros H. res_inv H. ensure_facts.
  eexists. split; [by constructor | done].
Qed.

Lemma approval_registered_step s id a data s' :
  dget id (op_approvals s) = Some a -> on_approval_registered s id a data = Ok s' ->
  exists a' p, approval_edge s id data (Some a) "approval_resume_registered" a' /\
    s' = (s |> op_put_approval id a' |> op_with_phase p) /\
    (p = OpWaitingApproval \/ p = op_phase s).
Proof.
  intros Hget. unfold on_approval_registered. intros H.
  do 4 (match type of H with rbind ?m _ = _ =>
    let E := fresh "E" in destruct m eqn:E; [cbn [rbind] in H | done] end).
  match type of H with rbind ?m _ = _ => destruct m as [[e pe]|] eqn:Henv; [|done] end.
  apply envelope_to_log_error_Ok in Henv. res_inv Henv. cbn [rbind] in H.
  do 2 (match type of H with rbind ?m _ = _ =>
    let E := fresh "E" in destruct m eqn:E; [cbn [rbind] in H | done] end).
  res_inv H. ensure_facts.
  eexists _, _. split_and!; [| done | case_bool_decide; auto].
  eapply ae_registered; eauto using unit_Ok.
  - by eapply unit_Ok, envelope_to_log_error_Ok.
  - intros other Hin Hne.
    match goal with E : forallb _ _ = true |- _ =>
      rewrite forallb_elem in E; specialize (E _ Hin); rename E into Hno end.
    apply negb_true_iff, andb_false_iff in Hno as [Hno|Hno].
    { apply negb_false_iff, String.eqb_eq in Hno. done. }
    apply orb_false_iff in Hno as [Hno Hno']. by rewrite !bool_decide_eq_false in *.
Qed.

Lemma advance_approval_step s id a ty data a' p :
  advance_approval s a ty data = Ok (a', p) ->
  approval_edge s id data (Some a) ty a' /\ terminal_phase p = false.
Proof.
  unfold advance_approval. intros H. eqb_cases H; subst;
    try unfold start_resume in H; try unfold complete_resume in H; res_inv H; ensure_facts;
    (split; [|done]).
  - by constructor.
  - by constructor.
  - by constructor.
  - by constructor.
  - unfold start_resume in E. res_inv E. ensure_facts. constructor; eauto using unit_Ok.
  - apply next_fencing_token_Ok in E0 as [_ ?]. by constructor.
  - unfold complete_resume in E. res_inv E. ensure_facts.
    constructor; eauto using unit_Ok, validate_terminal_Ok.
  - constructor; eauto using unit_Ok, validate_terminal_Ok.
  - by constructor.
Qed.

Lemma write_prepared_step s id data s' :
  on_write_prepared s id data = Ok s' ->
  exists w, write_edge s id data (dget id (op_writes s)) "write_prepared" w /\
    s' = op_put_write id w s.
Proof.
  unfold on_write_prepared. intros H. res_inv H. ensure_facts.
  all: eexists; (split; [|done]); by constructor.
Qed.

Lemma validate_reconciler_Ok w data :
  validate_reconciler w data = Ok tt ->
  wr_state w = WrReconciling -> holds_claim (wr_reconcile_fencing_token w) data.
Proof.
  unfold validate_reconciler. intros H Hst. rewrite bool_decide_eq_true_2 in H by done.
  by eapply validate_terminal_Ok.
Qed.

Lemma approve_write_step s w data w' :
  approve_write s w data = Ok w' ->
  w' = wr_state_to WrApproved w /\ wr_state w ∈ [WrPrepared; WrWaitingApproval] /\ consented s w.
Proof.
  unfold approve_write. intros H.
  destruct (ensure (one_of _ _) _) eqn:E; [|done]. cbn [rbind] in H. ensure_facts.
  match type of H with rbind ?m _ = _ => destruct m eqn:Hm; [|done] end.
  cbn [rbind] in H. simplify_eq. split; [done|]. split; [done|].
  intros id Hid. rewrite Hid in Hm. res_inv Hm. ensure_facts.
  eexists. split_and!; eauto using unit_Ok.
Qed.

Lemma submit_write_step s w w' :
  submit_write s w = Ok w' ->
  w' = wr_state_to WrSubmitting w /\ wr_state w = WrApproved /\ dispatched s w.
Proof.
  unfold submit_write. intros H.
  destruct (ensure (bool_decide _) _) eqn:E; [|done]. cbn [rbind] in H. ensure_facts.
  match type of H with rbind ?m _ = _ => destruct m eqn:Hm; [|done] end.
  cbn [rbind] in H. simplify_eq. split; [done|]. split; [done|].
  intros id Hid. rewrite Hid in Hm. res_inv Hm. ensure_facts.
  eexists. split_and!; eauto.
Qed.

Lemma fail_write_step s id w data w' :
  fail_write s w data = Ok w' -> write_edge s id data (Some w) "write_failed" w'.
Proof.
  unfold fail_write. intros H.
  destruct (bool_decide (wr_state w = WrWaitingApproval)) eqn:Hw;
    [destruct (is_str (jget data "reason") "approval_not_granted") eqn:Hr|]; simpl in H;
    rewrite ?orb_false_r in H; res_inv H; ensure_facts.
  - apply we_denied; [done | by apply is_str_spec].
  - res_inv E0. eapply we_failed; eauto using unit_Ok, validate_reconciler_Ok.
  - res_inv E0. eapply we_failed; eauto using unit_Ok, validate_reconciler_Ok.
Qed.

Lemma advance_write_step s id w ty data w' p :
  advance_write s w ty data = Ok (w', p) ->
  write_edge s id data (Some w) ty w' /\ terminal_phase p = false.
Proof.
  unfold advance_write. intros H. eqb_cases H; subst; res_inv H; ensure_facts; (split; [|done]).
  - unfold wait_for_approval in E. res_inv E; ensure_facts; by eapply we_waiting.
  - apply approve_write_step in E as (-> & ? & ?). by constructor.
  - apply submit_write_step in E as (-> & ? & ?). by constructor.
  - unfold succeed_write in E. res_inv E. ensure_facts.
    constructor; eauto using unit_Ok, validate_reconciler_Ok.
  - by apply fail_write_step.
  - constructor; eauto using unit_Ok.
  - by constructor.
  - apply next_fencing_token_Ok in E0 as [_ ?]. by constructor.
  - constructor; eauto using unit_Ok, validate_reconciler_Ok.
  - constructor; eauto using unit_Ok, validate_reconciler_Ok.
Qed.

(** The sequence number is set before the approval and write handlers run; they
    do not look at it. *)
Lemma approval_edge_sequence n s id data o ty a :
  approval_edge (op_with_sequence n s) id data o ty a -> approval_edge s id data o ty a.
Proof. destruct 1; econstructor; try eassumption; done. Qed.

Lemma write_edge_sequence n s id data o ty w :
  write_edge (op_with_sequence n s) id data o ty w -> write_edge s id data o ty w.
Proof. destruct 1; econstructor; try eassumption; done. Qed.

(** Events that touch no tool, approval or write. *)
Lemma quiet_step s e s' x :
  oe_type e = x -> mem_str x tracked_types = false ->
  same_tools s s' -> same_approvals s s' -> same_writes s s' -> still_open s' ->
  (op_messages s' = op_messages s \/ exists m, op_messages s' = (op_messages s ++ [m])%list) ->
  op_step s e s'.
Proof.
  intros <- Hx **. apply st_quiet; try done. by apply mem_str_false.
Qed.

Lemma approval_event_step n s e s' :
  terminal_phase (op_phase s) = false ->
  reduce_approval_event (op_with_sequence n s) e = Ok s' ->
  op_step s e s' /\ op_last_sequence s' = n /\ op_session_id s' = op_session_id s /\
  op_operation_id s' = op_operation_id s.
Proof.
  intros Hopen. unfold reduce_approval_event. intros H.
  destruct (String.eqb_spec (oe_type e) "approval_pending") as [Hty|_].
  { simplify_eq. split; [|done]. eapply quiet_step; try done. by left. }
  destruct (event_text (oe_data e) "approvalId") as [id|] eqn:Hid; [|done]. cbn [rbind] in H.
  destruct (String.eqb_spec (oe_type e) "approval_requested") as [Hty|_].
  { apply approval_requested_step in H as (a & Ha & ->). split; [|done].
    eapply st_approval; try done. rewrite Hty. by eapply approval_edge_sequence. }
  destruct (dget id _) as [a|] eqn:Hget; [|done].
  destruct (String.eqb_spec (oe_type e) "approval_resume_registered") as [Hty|_].
  - apply approval_registered_step in H as (a' & p & Ha & -> & Hp); [|done]. split; [|done].
    eapply st_approval; try done.
    + rewrite Hty. simpl in Hget. rewrite Hget. by eapply approval_edge_sequence.
    + unfold still_open. by destruct Hp as [-> | ->].
  - destruct (advance_approval _ _ _ _) as [[a' p]|] eqn:Hadv; [|done]. simpl in H. simplify_eq.
    apply (advance_approval_step _ id) in Hadv as [Ha Hp]. split; [|done].
    eapply st_approval; try done. simpl in Hget. rewrite Hget.
    by eapply approval_edge_sequence.
Qed.

Lemma write_event_step n s e s' :
  terminal_phase (op_phase s) = false ->
  reduce_write_event (op_with_sequence n s) e = Ok s' ->
  op_step s e s' /\ op_last_sequence s' = n /\ op_session_id s' = op_session_id s /\
  op_operation_id s' = op_operation_id s.
Proof.
  intros Hopen. unfold reduce_write_event. intros H.
  destruct (event_text (oe_data e) "writeId") as [id|] eqn:Hid; [|done]. cbn [rbind] in H.
  destruct (String.eqb_spec (oe_type e) "write_prepared") as [Hty|_].
  { apply write_prepared_step in H as (w & Hw & ->). split; [|done].
    eapply st_write; try done. rewrite Hty. by eapply write_edge_sequence. }
  destruct (dget id _) as [w|] eqn:Hget; [|done].
  destruct (advance_write _ _ _ _) as [[w' p]|] eqn:Hadv; [|done]. simpl in H. simplify_eq.
  apply (advance_write_step _ id) in Hadv as [Hw Hp]. split; [|done].
  eapply st_write; try done. simpl in Hget. rewrite Hget. by eapply write_edge_sequence.
Qed.

Lemma finished_step s base data s' :
  on_operation_finished s base data = Ok s' ->
  op_last_sequence s' = op_last_sequence base /\ op_session_id s' = op_session_id base /\
  op_operation_id s' = op_operation_id base /\ op_tools s' = op_tools base /\
  op_approvals s' = op_approvals base /\ op_writes s' = op_writes base /\
  op_messages s' = op_messages base /\ terminal_phase (op_phase s') = true.
Proof.
  unfold on_operation_finished. intros H.
  do 3 match type of H with rbind ?m _ = _ => destruct m; [cbn [rbind] in H | done] end.
  destruct (outcome_phase_of _) as [p|] eqn:Hp; [|done].
  do 2 match type of H with rbind ?m _ = _ => destruct m; [cbn [rbind] in H | done] end.
  simplify_eq. simpl. split_and!; try done.
  unfold outcome_phase_of in Hp. repeat case_match; simplify_eq; done.
Qed.

(** The step relation covers the dispatch of an accepted event. *)
Lemma apply_event_step s e s' :
  terminal_phase (op_phase s) = false ->
  apply_operation_event s (op_with_sequence (oe_sequence e) s) e = Ok s' ->
  op_step s e s' /\ op_last_sequence s' = oe_sequence e /\ op_session_id s' = op_session_id s /\
  op_operation_id s' = op_operation_id s.
Proof.
  intros Hopen. unfold apply_operation_event. intros H.
  destruct (String.eqb_spec (oe_type e) "message_appended") as [Hty|_].
  { res_inv H. split; [|done]. eapply (quiet_step _ _ _ _ Hty); try done. right. by eexists. }
  destruct (String.eqb_spec (oe_type e) "model_policy_selected") as [Hty|_].
  { res_inv H. split; [|done]. eapply (quiet_step _ _ _ _ Hty); try done. by left. }
  destruct (String.eqb_spec (oe_type e) "model_request_started") as [Hty|_].
  { unfold on_model_request_started in H. res_inv H; (split; [|done]);
      eapply (quiet_step _ _ _ _ Hty); try done; by left. }
  destruct (String.eqb_spec (oe_type e) "model_request_completed") as [Hty|_].
  { unfold on_model_request_completed in H. res_inv H. split; [|done].
    eapply (quiet_step _ _ _ _ Hty); try done. right. by eexists. }
  destruct (String.eqb_spec (oe_type e) "model_request_failed") as [Hty|_].
  { unfold on_model_request_failed in H. res_inv H. split; [|done].
    eapply (quiet_step _ _ _ _ Hty); try done. by left. }
  destruct (String.eqb_spec (oe_type e) "tool_intent_recorded") as [Hty|_].
  { apply tool_intent_step in H as (id & t & Hid & He & ->). split; [|done].
    eapply st_tool; try done. by rewrite Hty. }
  destruct (String.eqb_spec (oe_type e) "tool_dispatch_started") as [Hty|_].
  { apply tool_dispatch_step in H as (id & t & Hid & He & ->). split; [|done].
    eapply st_tool; try done. by rewrite Hty. }
  destruct (String.eqb_spec (oe_type e) "tool_reconcile_started") as [Hty|_].
  { apply tool_reconcile_step in H as (id & t & Hid & He & ->). split; [|done].
    eapply st_tool; try done. by rewrite Hty. }
  destruct (mem_str (oe_type e) _) eqn:Hty.
  { apply mem_str_spec in Hty. apply tool_finish_step in H as (id & t & Hid & He & ->); [|done].
    split; [|done]. by eapply st_tool. }
  clear Hty. destruct (starts_with "approval_" _); [by apply approval_event_step|].
  destruct (starts_with "write_" _) eqn:Hwrite; [by apply write_event_step|].
  destruct (String.eqb_spec (oe_type e) "operation_finished") as [Hty|_].
  { pose proof (finished_step _ _ _ _ H) as (? & ? & ? & ? & ? & ? & ? & ?).
    split; [|done]. by eapply st_finished. }
  destruct (starts_with "routing_" _) eqn:Hr; [|done]. simplify_eq. split; [|done].
  apply st_quiet; try done; [by left|]. intros Hin. unfold tracked_types in Hin.
  repeat (apply elem_of_cons in Hin as [Hin|Hin]; [by rewrite Hin in Hr|]).
  by apply elem_of_nil in Hin.
Qed.

Lemma reduce_event_step s e s' :
  reduce_operation_event (Some s) e = Ok s' -> common_step s e s' /\ op_step s e s'.
Proof.
  unfold reduce_operation_event. intros H. res_inv H.
  do 3 match goal with E : ensure _ _ = Ok _ |- _ => apply ensure_Ok in E end.
  apply negb_true_iff in E1. apply apply_event_step in H as (Hs & Hseq & Hsid & Hoid); [|done].
  apply andb_true_iff in E as [Es%String.eqb_eq Eo%String.eqb_eq]. apply Z.ltb_lt in E0.
  split; [|done]. by split.
Qed.
