(* ===== verification/OperationSafety.v ===== *)
(** * Durable operation log: what accepted logs guarantee

    Invariants of every replayable log, proved on the step relation of
    OperationLifecycle: writes execute only with consent, consent and
    submission happen at most once, settled facts stay settled, and a finished
    operation hides nothing. *)

From S2P Require Import Prelude PyDict Text PyVal Json DurableAction.
From S2P Require Import Transcript ModelPolicy OperationTypes OperationReducer OperationLifecycle.
From Stdlib Require Import String.

#[local] Open Scope string_scope.
#[local] Open Scope bool_scope.
#[local] Open Scope Z_scope.

(** ** Induction over an accepted log *)

Definition step_ok (P : OperationState -> Prop) : Prop :=
  forall s e s', P s -> common_step s e s' -> op_step s e s' -> P s'.

Lemma run_invariant (P : OperationState -> Prop) s events s' :
  step_ok P -> P s -> foldM reduce_step (Some s) events = Ok (Some s') -> P s'.
Proof.
  intros Hstep Hs H.
  apply (foldM_invariant reduce_step (fun o => match o with Some x => P x | None => False end))
    in H; [done| |done].
  intros [x|] e o Hx Hr; [|done]. unfold reduce_step in Hr. res_inv Hr.
  apply reduce_event_step in E as [? ?]. by eapply Hstep.
Qed.

Lemma replay_run events s :
  replay_operation events = Ok s ->
  exists e s0 es, sort_by oe_sequence events = e :: es /\ start_operation e = Ok s0 /\
                  foldM reduce_step (Some s0) es = Ok (Some s).
Proof.
  unfold replay_operation. intros H. destruct (foldM _ _ _) as [o|] eqn:Hf; [|done].
  simpl in H. destruct o as [s'|]; [|done]. simplify_eq.
  destruct (sort_by oe_sequence events) as [|e es]; simpl in Hf; [done|].
  unfold reduce_step in Hf at 1. simpl in Hf.
  destruct (start_operation e) as [s0|] eqn:Hs; [|done]. simpl in Hf. by exists e, s0, es.
Qed.

Lemma replay_invariant (P : OperationState -> Prop) events s :
  (forall e s0, start_operation e = Ok s0 -> P s0) -> step_ok P ->
  replay_operation events = Ok s -> P s.
Proof.
  intros Hinit Hstep (e & s0 & es & _ & Hs & Hf)%replay_run.
  eapply run_invariant; [done| |done]. by eapply Hinit.
Qed.

Lemma start_facts e s : start_operation e = Ok s ->
  op_tools s = [] /\ op_approvals s = [] /\ op_writes s = [] /\ op_messages s = [] /\
  op_phase s = OpRunning /\ op_last_sequence s = oe_sequence e /\
  oe_type e = "operation_started".
Proof. unfold start_operation. intros H. res_inv H. ensure_facts. done. Qed.

(** ** Well-formed dictionaries of facts *)

Record facts_wf (s : OperationState) : Prop := {
  fw_tools : dict_wf (op_tools s);
  fw_approvals : dict_wf (op_approvals s);
  fw_writes : dict_wf (op_writes s);
  fw_tool_id : forall id t, dget id (op_tools s) = Some t -> ti_tool_call_id t = id;
  fw_approval_id : forall id a, dget id (op_approvals s) = Some a -> ap_approval_id a = id;
  fw_write_id : forall id w, dget id (op_writes s) = Some w -> wr_write_id w = id
}.

Lemma tool_edge_id s id data o ty t :
  tool_edge s id data o ty t -> (forall t0, o = Some t0 -> ti_tool_call_id t0 = id) ->
  ti_tool_call_id t = id.
Proof. destruct 1; intros Ho; try done; simpl; by apply Ho. Qed.

Lemma approval_edge_id s id data o ty a :
  approval_edge s id data o ty a -> (forall a0, o = Some a0 -> ap_approval_id a0 = id) ->
  ap_approval_id a = id.
Proof. destruct 1; intros Ho; try done; simpl; by apply Ho. Qed.

Lemma write_edge_id s id data o ty w :
  write_edge s id data o ty w -> (forall w0, o = Some w0 -> wr_write_id w0 = id) ->
  wr_write_id w = id.
Proof. destruct 1; intros Ho; try done; simpl; by apply Ho. Qed.

(** A property of every entry survives an update whose new entry has it. *)
Lemma dset_entries {V : Type} (P : string -> V -> Prop) k v (d : dict V) :
  (forall k' v', dget k' d = Some v' -> P k' v') -> P k v ->
  forall k' v', dget k' (dset k v d) = Some v' -> P k' v'.
Proof.
  intros Hd Hv k' v'. rewrite dget_dset. destruct (String.eqb_spec k k') as [->|]; [|apply Hd].
  by intros [= <-].
Qed.

Lemma facts_wf_step : step_ok facts_wf.
Proof.
  intros s e s' [Ht Ha Hw Hti Hai Hwi] _ Hstep.
  destruct Hstep as [Et Ea Ew _ _ _|id t' _ Hedge Et Ea Ew _ _|id a' _ Hedge Ea Et Ew _ _
    |id w' _ Hedge Ew Et Ea _ _|_ _ Et Ea Ew _ _];
    split; rewrite ?Et, ?Ea, ?Ew; auto using dset_wf.
  - apply (dset_entries (fun k t => ti_tool_call_id t = k)); [done|].
    eapply tool_edge_id; [done|]. auto.
  - apply (dset_entries (fun k t => ap_approval_id t = k)); [done|].
    eapply approval_edge_id; [done|]. auto.
  - apply (dset_entries (fun k t => wr_write_id t = k)); [done|].
    eapply write_edge_id; [done|]. auto.
Qed.

Lemma facts_wf_start e s : start_operation e = Ok s -> facts_wf s.
Proof.
  intros (Ht & Ha & Hw & _)%start_facts. split; rewrite ?Ht, ?Ha, ?Hw; try done; constructor.
Qed.

Lemma replay_facts_wf events s : replay_operation events = Ok s -> facts_wf s.
Proof.
  intros H. by eapply (replay_invariant facts_wf); [exact facts_wf_start|exact facts_wf_step|].
Qed.

(** ** Dispatching on one event type *)

Lemma reduce_apply s e s' :
  reduce_operation_event (Some s) e = Ok s' ->
  apply_operation_event s (op_with_sequence (oe_sequence e) s) e = Ok s'.
Proof. unfold reduce_operation_event. intros H. by res_inv H. Qed.

Lemma apply_dispatch s base e :
  oe_type e = "tool_dispatch_started" ->
  apply_operation_event s base e = on_tool_dispatch s base (oe_data e).
Proof. intros Hty. unfold apply_operation_event. by rewrite Hty. Qed.

(** ** Consent *)

(** The approval has been granted and consumed. *)
Definition consumed_states : list ApprovalState :=
  [ApConsumed; ApResumeStarted; ApResumeCompleted; ApResumeFailed].
(** The write has been let through. *)
Definition executed_states : list WriteState :=
  [WrApproved; WrSubmitting; WrSucceeded; WrOutcomeUnknown; WrReconciling].

Definition has_consent (s : OperationState) (w : WriteSnapshot) : Prop :=
  wr_state w ∈ executed_states ->
  forall id, wr_approval_id w = Some id ->
  exists a, dget id (op_approvals s) = Some a /\ ap_state a ∈ consumed_states /\
            ap_action_hash a = wr_action_hash w.

Definition writes_consented (s : OperationState) : Prop :=
  forall id w, dget id (op_writes s) = Some w -> has_consent s w.

(** Splits memberships in literal lists of states and looks for a clash. *)
Ltac split_states := repeat match goal with
  | E : _ ∈ consumed_states |- _ => unfold consumed_states in E
  | E : _ ∈ executed_states |- _ => unfold executed_states in E
  | E : _ ∈ _ :: _ |- _ => apply elem_of_cons in E as [E|E]
  | E : _ ∈ [] |- _ => apply elem_of_nil in E; destruct E
  end.
Ltac clash := exfalso; split_states; congruence.
Ltac in_states := solve [done | apply one_of_spec; reflexivity | eassumption].

Lemma consumed_stays s id data a ty a' :
  approval_edge s id data (Some a) ty a' -> ap_state a ∈ consumed_states ->
  ap_state a' ∈ consumed_states /\ ap_action_hash a' = ap_action_hash a.
Proof.
  intros Hedge Hin. inversion Hedge; subst; simpl; (split; [|done]);
    first [in_states | clash].
Qed.

(** An edge into an executed state is an approval or comes from one. *)
Lemma executed_edge s id data o w' ty :
  write_edge s id data o ty w' -> wr_state w' ∈ executed_states ->
  exists w, o = Some w /\ wr_approval_id w' = wr_approval_id w /\
            wr_action_hash w' = wr_action_hash w /\
            (consented s w \/ wr_state w ∈ executed_states).
Proof.
  intros Hedge Hex. inversion Hedge; subst; simpl in *; try clash.
  all: eexists; split; [done|]; split; [done|]; split; [done|].
  all: try (by left); right; split_states;
    repeat match goal with E : wr_state ?w = _ |- wr_state ?w ∈ _ => rewrite E; in_states end.
Qed.

Lemma consented_states s w : consented s w -> has_consent s (wr_state_to WrApproved w).
Proof.
  intros Hc _ id Hid. destruct (Hc id Hid) as (a & Ha & Hst & Hh & _). exists a.
  split_and!; [done| |done]. split_states; rewrite Hst; in_states.
Qed.

Lemma writes_consented_step : step_ok writes_consented.
Proof.
  intros s e s' Hs _ Hstep.
  destruct Hstep as [Et Ea Ew _ _ _|id t' _ Hedge Et Ea Ew _ _|id a' _ Hedge Ea Et Ew _ _
    |id w' _ Hedge Ew Et Ea _ _|_ _ Et Ea Ew _ _]; intros k w Hk Hex ap Hap; rewrite ?Ea.
  - rewrite Ew in Hk. by eapply Hs.
  - rewrite Ew in Hk. by eapply Hs.
  - rewrite Ew in Hk. destruct (Hs _ _ Hk Hex _ Hap) as (a & Ha & Hst & Hh).
    rewrite dget_dset. destruct (String.eqb_spec id ap) as [->|]; [|by exists a].
    rewrite Ha in Hedge. destruct (consumed_stays _ _ _ _ _ _ Hedge Hst). exists a'.
    split_and!; [done|done|congruence].
  - rewrite Ew, dget_dset in Hk. destruct (String.eqb_spec id k) as [->|]; [|by eapply Hs].
    injection Hk as ->. destruct (executed_edge _ _ _ _ _ _ Hedge Hex) as (w0 & Ho & Hid & Hh & Hc).
    rewrite Hid in Hap. rewrite Hh. destruct Hc as [Hc|Hc]; [|by eapply Hs].
    by apply (consented_states _ _ Hc); [in_states|].
  - rewrite Ew in Hk. by eapply Hs.
Qed.

(** ** Settled facts *)

Definition settled_write (w : WriteSnapshot) : Prop := wr_state w ∈ [WrSucceeded; WrFailed].
Definition denied_states : list ApprovalState := [ApRejected; ApExpired; ApResumeCancelled].

Lemma no_edge_from_settled s id data w ty w' :
  write_edge s id data (Some w) ty w' -> settled_write w -> False.
Proof. unfold settled_write. intros Hedge Hw. inversion Hedge; subst; clash. Qed.

Lemma no_edge_from_completed_tool s id data t ty t' :
  tool_edge s id data (Some t) ty t' -> ti_phase t = TiCompleted -> False.
Proof.
  intros Hedge Ht. inversion Hedge; subst; try clash.
  rewrite Ht in *. case_match; clash.
Qed.

Lemma write_settled_step id w :
  settled_write w -> step_ok (fun s => dget id (op_writes s) = Some w).
Proof.
  intros Hw s e s' Hs _ Hstep.
  destruct Hstep as [_ _ Ew _ _ _|? ? _ _ _ _ Ew _ _|? ? _ _ _ _ Ew _ _
    |id' w' _ Hedge Ew _ _ _ _|_ _ _ _ Ew _ _]; rewrite Ew; try done.
  rewrite dget_dset. destruct (String.eqb_spec id' id) as [->|]; [|done].
  rewrite Hs in Hedge. exfalso. by eapply no_edge_from_settled.
Qed.

Lemma tool_settled_step id t :
  ti_phase t = TiCompleted -> step_ok (fun s => dget id (op_tools s) = Some t).
Proof.
  intros Ht s e s' Hs _ Hstep.
  destruct Hstep as [Et _ _ _ _ _|id' t' _ Hedge Et _ _ _ _|? ? _ _ _ Et _ _ _
    |? ? _ _ _ Et _ _ _|_ _ Et _ _ _ _]; rewrite Et; try done.
  rewrite dget_dset. destruct (String.eqb_spec id' id) as [->|]; [|done].
  rewrite Hs in Hedge. exfalso. by eapply no_edge_from_completed_tool.
Qed.

Lemma denied_step id :
  step_ok (fun s => exists a, dget id (op_approvals s) = Some a /\ ap_state a ∈ denied_states).
Proof.
  intros s e s' (a & Ha & Hd) _ Hstep.
  destruct Hstep as [_ Ea _ _ _ _|? ? _ _ _ Ea _ _ _|id' a' _ Hedge Ea _ _ _ _
    |? ? _ _ _ _ Ea _ _|_ _ _ Ea _ _ _]; rewrite Ea; try by exists a.
  rewrite dget_dset. destruct (String.eqb_spec id' id) as [->|]; [|by exists a].
  rewrite Ha in Hedge. exists a'. split; [done|]. unfold denied_states in *.
  inversion Hedge; subst; simpl; first [in_states | clash].
Qed.

(** ** A completed resume rests on a succeeded write and a completed tool *)

Definition resume_settled (s : OperationState) (a : ApprovalSnapshot) : Prop :=
  ap_resume_state a = RsCompleted /\
  exists write_id call_id w t,
    ap_write_id a = Some write_id /\ ap_tool_call_id a = Some call_id /\
    dget write_id (op_writes s) = Some w /\ wr_state w = WrSucceeded /\
    wr_approval_id w = Some (ap_approval_id a) /\
    dget call_id (op_tools s) = Some t /\ ti_phase t = TiCompleted.

Definition resumes_settled (s : OperationState) : Prop :=
  forall id a, dget id (op_approvals s) = Some a -> ap_state a = ApResumeCompleted ->
  resume_settled s a.

Lemma registered_dependencies_Ok s a completed :
  validate_registered_approval_dependencies s a completed = Ok tt ->
  exists write_id call_id w t,
    ap_write_id a = Some write_id /\ ap_tool_call_id a = Some call_id /\
    dget write_id (op_writes s) = Some w /\ wr_approval_id w = Some (ap_approval_id a) /\
    dget call_id (op_tools s) = Some t /\
    validate_approval_write s a w = Ok tt /\
    validate_approval_tool s a t (Some (wr_write_id w)) = Ok tt /\
    (completed = true -> wr_state w = WrSucceeded /\ ti_phase t = TiCompleted /\
       List.length (List.filter (fun m => is_str (jget m "role") "toolResult"
                     && is_str (jget m "toolCallId") call_id) (op_messages s)) = 1%nat).
Proof.
  unfold validate_registered_approval_dependencies. intros H.
  destruct (ap_write_id a) as [wid|]; [|done]. destruct (ap_tool_call_id a) as [tc|]; [|done].
  destruct (ensure _ _); [|done]. cbn [rbind] in H.
  destruct (dget wid _) as [w|] eqn:Hw; [|done].
  do 2 match type of H with rbind ?m _ = _ =>
    let E := fresh "E" in destruct m eqn:E; [cbn [rbind] in H | done] end.
  destruct (dget tc _) as [t|] eqn:Ht; [|done].
  destruct (validate_approval_tool _ _ _ _) as [u|] eqn:Ev; [|done]. cbn [rbind] in H.
  ensure_facts. exists wid, tc, w, t. split_and!; eauto using unit_Ok. intros ->.
  simpl in H. res_inv H. ensure_facts. split_and!; try done. by apply Nat.eqb_eq.
Qed.

Lemma resume_settled_step s s' a :
  (forall id w, dget id (op_writes s) = Some w -> settled_write w ->
     dget id (op_writes s') = Some w) ->
  (forall id t, dget id (op_tools s) = Some t -> ti_phase t = TiCompleted ->
     dget id (op_tools s') = Some t) ->
  resume_settled s a -> resume_settled s' a.
Proof.
  intros Hw Ht (Hr & wid & tc & w & t & H1 & H2 & H3 & H4 & H5 & H6 & H7).
  split; [done|]. exists wid, tc, w, t. split_and!; auto.
  apply Hw; [done|]. unfold settled_write. rewrite H4. in_states.
Qed.

Lemma resumes_settled_step : step_ok resumes_settled.
Proof.
  intros s e s' Hs Hcs Hstep k a Hk Hst.
  assert (Hkeep : forall a0, resume_settled s a0 -> resume_settled s' a0).
  { intros a0. apply resume_settled_step.
    - intros id w Hw Hset. by eapply (write_settled_step id w Hset s e s').
    - intros id t Ht Hset. by eapply (tool_settled_step id t Hset s e s'). }
  destruct Hstep as [_ Ea _ _ _ _|? ? _ _ _ Ea _ _ _|id a' _ Hedge Ea Et Ew _ _
    |? ? _ _ _ _ Ea _ _|_ _ _ Ea _ _ _]; rewrite Ea in Hk; try (by eapply Hkeep, Hs).
  rewrite dget_dset in Hk. destruct (String.eqb_spec id k) as [->|]; [|by eapply Hkeep, Hs].
  injection Hk as ->. inversion Hedge; subst; simpl in Hst; try congruence.
  - destruct (Hs _ _ (eq_sym H) Hst) as [Hr _]. congruence.
  - match goal with E : validate_registered_approval_dependencies _ _ true = _ |- _ =>
      apply registered_dependencies_Ok in E as
        (wid & tc & w & t & K1 & K2 & K3 & K4 & K5 & _ & _ & K6) end.
    destruct (K6 eq_refl) as (K7 & K8 & _).
    split; [done|]. exists wid, tc, w, t. rewrite Ew, Et. split_and!; done.
Qed.

(** ** Events that can happen once per identifier *)

Definition count {A : Type} (p : A -> bool) (l : list A) : nat :=
  List.length (List.filter p l).

Lemma count_perm {A : Type} (p : A -> bool) l l' :
  Permutation l l' -> count p l = count p l'.
Proof.
  unfold count. induction 1 as [|x l l' _ IH|x y l|l l' l'' _ IH1 _ IH2]; simpl.
  - done.
  - destruct (p x); simpl; congruence.
  - by destruct (p x), (p y).
  - congruence.
Qed.

Section Once.
Context (happened : OperationState -> bool) (hit : OperationEvent -> bool).
Hypothesis happened_stays : forall s e s',
  op_step s e s' -> happened s = true -> happened s' = true /\ hit e = false.
Hypothesis hit_happens : forall s e s', op_step s e s' -> hit e = true -> happened s' = true.
Hypothesis hit_not_start : forall e s, start_operation e = Ok s -> hit e = false.

Lemma once_from s events s' :
  foldM reduce_step (Some s) events = Ok (Some s') ->
  (count hit events <= (if happened s then 0 else 1))%nat.
Proof.
  revert s. induction events as [|e es IH]; intros s H; [by unfold count; simpl; lia|].
  simpl in H. unfold reduce_step in H at 1.
  destruct (reduce_operation_event (Some s) e) as [s1|] eqn:Hr; [|done]. simpl in H.
  apply reduce_event_step in Hr as [_ Hstep]. specialize (IH _ H).
  unfold count in *. simpl.
  pose proof (happened_stays _ _ _ Hstep) as Hst. pose proof (hit_happens _ _ _ Hstep) as Hh.
  destruct (happened s) eqn:Hs.
  - destruct (Hst eq_refl) as [Hs1 ->]. by rewrite Hs1 in IH.
  - destruct (hit e); simpl; [|destruct (happened s1); lia].
    rewrite (Hh eq_refl) in IH. lia.
Qed.

Lemma once events s : replay_operation events = Ok s -> (count hit events <= 1)%nat.
Proof.
  intros (e & s0 & es & Hsort & Hs & Hf)%replay_run.
  rewrite <- (count_perm hit _ _ (sort_by_perm oe_sequence events)), Hsort.
  apply once_from in Hf. unfold count in *. simpl. rewrite (hit_not_start _ _ Hs).
  destruct (happened s0); lia.
Qed.
End Once.

(** The event of type [ty] that carries [id] under [key]. *)
Definition is_event (ty key id : string) (e : OperationEvent) : bool :=
  String.eqb (oe_type e) ty && is_str (jget (oe_data e) key) id.

Lemma is_event_spec ty key id e :
  is_event ty key id e = true -> oe_type e = ty /\ jget (oe_data e) key = VStr id.
Proof. unfold is_event. intros [H1%String.eqb_eq H2%is_str_spec]%andb_true_iff. done. Qed.

Lemma event_text_of data key id k :
  event_text data key = Ok id -> jget data key = VStr k -> id = k.
Proof. unfold event_text. intros H Hk. rewrite Hk in H. by destruct (nonempty k); simplify_eq. Qed.

(** The write is past the point where it can be handed to the external system. *)
Definition submitted (id : string) (s : OperationState) : bool :=
  match dget id (op_writes s) with
  | Some w => negb (one_of (wr_state w) [WrPrepared; WrWaitingApproval; WrApproved])
  | None => false
  end.

Definition consumed (id : string) (s : OperationState) : bool :=
  match dget id (op_approvals s) with
  | Some a => one_of (ap_state a) consumed_states
  | None => false
  end.

Lemma tool_edge_type s id data o ty t :
  tool_edge s id data o ty t -> ty ∉ tracked_types.
Proof.
  intros Hedge. apply mem_str_false. destruct Hedge as [| | |t ty result Hty]; try done.
  apply mem_str_spec in Hty. unfold mem_str in *. simpl in *.
  repeat match goal with |- context [String.eqb ty ?x] =>
    destruct (String.eqb_spec ty x) as [->|] end; done.
Qed.

Lemma approval_edge_type s id data o ty a :
  approval_edge s id data o ty a -> ty <> "write_submitting".
Proof. by destruct 1. Qed.

Lemma write_edge_type s id data o ty w :
  write_edge s id data o ty w -> ty <> "approval_consumed".
Proof. by destruct 1. Qed.

Lemma submitting_stays id s e s' :
  op_step s e s' -> submitted id s = true ->
  submitted id s' = true /\ is_event "write_submitting" "writeId" id e = false.
Proof.
  intros Hstep Hs. unfold submitted in *.
  assert (Hne : oe_type e <> "write_submitting" ->
    is_event "write_submitting" "writeId" id e = false).
  { intros Hne. unfold is_event. by apply String.eqb_neq in Hne as ->. }
  destruct Hstep as [_ _ Ew _ _ Hty|id' t' _ Hedge _ _ Ew _ _|id' a' _ Hedge _ _ Ew _ _
    |id' w' Hid Hedge Ew _ _ _ _|Hty _ _ _ Ew _ _]; rewrite Ew.
  - split; [done|]. apply Hne. intros Heq. apply Hty. rewrite Heq. left.
  - split; [done|]. apply Hne. intros Heq. apply tool_edge_type in Hedge.
    apply Hedge. rewrite Heq. left.
  - split; [done|]. apply Hne. by eapply approval_edge_type.
  - rewrite dget_dset. destruct (String.eqb_spec id' id) as [->|Hne'].
    + destruct (dget id (op_writes s)) as [w|]; [|done]. apply negb_true_iff in Hs.
      assert (Hns : wr_state w ∉ [WrPrepared; WrWaitingApproval; WrApproved]).
      { intros Hin%one_of_spec. congruence. }
      inversion Hedge; subst; simpl;
        try (exfalso; apply Hns; split_states; match goal with
             E : wr_state ?x = _ |- wr_state ?x ∈ _ => rewrite E; in_states end);
        (split; [try done|apply Hne; congruence]).
      match goal with E : wr_state ?x = _ |- _ => by rewrite E end.
    + split; [done|]. unfold is_event. apply andb_false_iff. right.
      destruct (is_str _ _) eqn:Hstr; [|done]. apply is_str_spec in Hstr.
      by rewrite (event_text_of _ _ _ _ Hid Hstr) in Hne'.
  - split; [done|]. apply Hne. by rewrite Hty.
Qed.

Lemma submitting_happens id s e s' :
  op_step s e s' -> is_event "write_submitting" "writeId" id e = true -> submitted id s' = true.
Proof.
  intros Hstep [Hty Hid]%is_event_spec. unfold submitted.
  destruct Hstep as [_ _ _ _ _ Hn|id' t' _ Hedge _ _ _ _ _|id' a' _ Hedge _ _ _ _ _
    |id' w' Hid' Hedge Ew _ _ _ _|Hty' _ _ _ _ _ _].
  - exfalso. apply Hn. rewrite Hty. left.
  - exfalso. apply tool_edge_type in Hedge. apply Hedge. rewrite Hty. left.
  - by apply approval_edge_type in Hedge.
  - rewrite (event_text_of _ _ _ _ Hid' Hid) in *. rewrite Ew, dget_dset_eq.
    rewrite Hty in Hedge. by inversion Hedge; subst.
  - by rewrite Hty' in Hty.
Qed.

Lemma consuming_stays id s e s' :
  op_step s e s' -> consumed id s = true ->
  consumed id s' = true /\ is_event "approval_consumed" "approvalId" id e = false.
Proof.
  intros Hstep Hs. unfold consumed in *.
  assert (Hne : oe_type e <> "approval_consumed" ->
    is_event "approval_consumed" "approvalId" id e = false).
  { intros Hne. unfold is_event. by apply String.eqb_neq in Hne as ->. }
  destruct Hstep as [_ Ea _ _ _ Hty|id' t' _ Hedge _ Ea _ _ _|id' a' Hid Hedge Ea _ _ _ _
    |id' w' _ Hedge _ _ Ea _ _|Hty _ _ Ea _ _ _]; rewrite Ea.
  - split; [done|]. apply Hne. intros Heq. apply Hty. rewrite Heq. right. left.
  - split; [done|]. apply Hne. intros Heq. apply tool_edge_type in Hedge.
    apply Hedge. rewrite Heq. right. left.
  - rewrite dget_dset. destruct (String.eqb_spec id' id) as [->|Hne'].
    + destruct (dget id (op_approvals s)) as [a|]; [|done]. apply one_of_spec in Hs.
      destruct (consumed_stays _ _ _ _ _ _ Hedge Hs) as [Hc _].
      split; [by apply one_of_spec|]. apply Hne. intros Heq. rewrite Heq in Hedge.
      inversion Hedge; subst. clash.
    + split; [done|]. unfold is_event. apply andb_false_iff. right.
      destruct (is_str _ _) eqn:Hstr; [|done]. apply is_str_spec in Hstr.
      by rewrite (event_text_of _ _ _ _ Hid Hstr) in Hne'.
  - split; [done|]. apply Hne. by eapply write_edge_type.
  - split; [done|]. apply Hne. by rewrite Hty.
Qed.

Lemma consuming_happens id s e s' :
  op_step s e s' -> is_event "approval_consumed" "approvalId" id e = true -> consumed id s' = true.
Proof.
  intros Hstep [Hty Hid]%is_event_spec. unfold consumed.
  destruct Hstep as [_ _ _ _ _ Hn|id' t' _ Hedge _ _ _ _ _|id' a' Hid' Hedge Ea _ _ _ _
    |id' w' _ Hedge _ _ _ _ _|Hty' _ _ _ _ _ _].
  - exfalso. apply Hn. rewrite Hty. right. left.
  - exfalso. apply tool_edge_type in Hedge. apply Hedge. rewrite Hty. right. left.
  - rewrite (event_text_of _ _ _ _ Hid' Hid) in *. rewrite Ea, dget_dset_eq.
    rewrite Hty in Hedge. by inversion Hedge; subst.
  - by apply write_edge_type in Hedge.
  - by rewrite Hty' in Hty.
Qed.

Lemma start_is_no_event ty key id e s :
  ty <> "operation_started" -> start_operation e = Ok s -> is_event ty key id e = false.
Proof.
  intros Hty (_ & _ & _ & _ & _ & _ & He)%start_facts. unfold is_event. rewrite He.
  by apply not_eq_sym, String.eqb_neq in Hty as ->.
Qed.

(** ** Sequence numbers *)

Lemma last_cons (x d : Z) l : List.last (x :: l) d = List.last l x.
Proof.
  revert x d. induction l as [|y l IH]; intros x d; [done|].
  change (List.last (y :: l) d = List.last (y :: l) x). by rewrite !IH.
Qed.

Lemma run_sorted s es s' :
  foldM reduce_step (Some s) es = Ok (Some s') ->
  Sorted Z.lt (op_last_sequence s :: map oe_sequence es) /\
  op_last_sequence s' = List.last (map oe_sequence es) (op_last_sequence s).
Proof.
  revert s. induction es as [|e es IH]; intros s H.
  - simpl in H. simplify_eq. split; [repeat constructor | done].
  - simpl in H. unfold reduce_step in H at 1.
    destruct (reduce_operation_event (Some s) e) as [s1|] eqn:Hr; [|done]. simpl in H.
    apply reduce_event_step in Hr as [[_ _ [Hlt Hs1] _] _].
    apply IH in H as [Hsorted Hlast]. rewrite Hs1 in *. split.
    + simpl. constructor; [done|]. by constructor.
    + rewrite Hlast. simpl map. by rewrite last_cons.
Qed.

Lemma replay_sorted events s :
  replay_operation events = Ok s ->
  StronglySorted Z.lt (map oe_sequence (sort_by oe_sequence events)) /\
  op_last_sequence s = List.last (map oe_sequence (sort_by oe_sequence events)) 0.
Proof.
  intros (e & s0 & es & -> & Hs & Hf)%replay_run.
  apply run_sorted in Hf as [Hsorted Hlast].
  apply start_facts in Hs as (_ & _ & _ & _ & _ & Hseq & _). rewrite Hseq in *.
  split; [|simpl map; by rewrite last_cons].
  apply Sorted_StronglySorted; [|done]. intros x y z. lia.
Qed.

Lemma strongly_sorted_NoDup l : StronglySorted Z.lt l -> NoDup l.
Proof.
  induction 1 as [|x l _ IH Hx]; constructor; [|done].
  intros Hin. rewrite Forall_forall in Hx. specialize (Hx _ Hin). lia.
Qed.

(** Sorting an extended log only sorts the old part. *)
Lemma insert_by_app {A : Type} (key : A -> Z) x l1 l2 :
  Forall (fun y => key x < key y) l2 ->
  insert_by key x (l1 ++ l2) = (insert_by key x l1 ++ l2)%list.
Proof.
  intros Hx. induction l1 as [|y l1 IH]; simpl.
  - destruct l2 as [|z l2]; [done|]. apply Forall_cons in Hx as [Hz _]. simpl.
    by rewrite (proj2 (Z.leb_le _ _)) by lia.
  - destruct (key x <=? key y); [done|]. simpl. by rewrite IH.
Qed.

Lemma sort_by_app {A : Type} (key : A -> Z) l1 l2 :
  sorted_by key l2 -> (forall x y, x ∈ l1 -> y ∈ l2 -> key x < key y) ->
  sort_by key (l1 ++ l2) = (sort_by key l1 ++ l2)%list.
Proof.
  intros Hl2. induction l1 as [|x l1 IH]; intros Hlt; simpl; [by apply sort_by_id|].
  fold (sort_by key (l1 ++ l2)) (sort_by key l1).
  rewrite IH by (intros; apply Hlt; [by right | done]).
  apply insert_by_app. apply Forall_forall. intros y Hy. apply Hlt; [left | done].
Qed.

Lemma max_sequence_spec events e :
  e ∈ events -> oe_sequence e <= max_sequence events.
Proof.
  assert (Hmono : forall l n, n <= fold_left Z.max l n).
  { intros l. induction l as [|x l IH]; intros n; simpl; [lia|]. specialize (IH (Z.max n x)). lia. }
  assert (Hin : forall l n x, x ∈ l -> x <= fold_left Z.max l n).
  { intros l. induction l as [|y l IH]; intros n x Hx; [by apply elem_of_nil in Hx|].
    simpl. apply elem_of_cons in Hx as [->|Hx]; [|by apply IH].
    pose proof (Hmono l (Z.max n y)). lia. }
  destruct events as [|e0 es]; [intros H; by apply elem_of_nil in H|].
  intros [->|He]%elem_of_cons; simpl; [apply Hmono|]. apply Hin.
  by apply list_elem_of_fmap_2.
Qed.

(** The events [replay_operation_with_specs] builds from its candidates. *)
Fixpoint candidate_events (now : Z) (session operation : string) (n : Z)
    (specs : list (string * pydict)) : list OperationEvent :=
  match specs with
  | [] => []
  | (ty, data) :: specs' =>
      mkOperationEvent ty session operation (n + 1) now data
        :: candidate_events now session operation (n + 1) specs'
  end.

Lemma candidates_sorted now sid oid n specs :
  sorted_by oe_sequence (candidate_events now sid oid n specs) /\
  Forall (fun e => n < oe_sequence e) (candidate_events now sid oid n specs).
Proof.
  revert n. induction specs as [|[ty data] specs IH]; intros n; simpl; [by repeat constructor|].
  destruct (IH (n + 1)) as [Hs Hf]. split.
  - constructor; [done|]. eapply Forall_impl; [exact Hf|]. simpl. lia.
  - constructor; simpl; [lia|]. eapply Forall_impl; [exact Hf|]. simpl. lia.
Qed.

Lemma specs_run now s n specs s' m :
  foldM (reduce_spec now) (s, n) specs = Ok (s', m) ->
  foldM reduce_step (Some s) (candidate_events now (op_session_id s) (op_operation_id s) n specs)
  = Ok (Some s').
Proof.
  revert s n. induction specs as [|[ty data] specs IH]; intros s n H.
  - simpl in H. by simplify_eq.
  - cbn [foldM reduce_spec fst snd] in H.
    destruct (operation_event _ _ _ _ _ _) as [e|] eqn:He; [|done]. cbn [rbind] in H.
    destruct (reduce_operation_event (Some s) e) as [s1|] eqn:Hr; [|done]. cbn [rbind] in H.
    unfold operation_event in He. res_inv He. apply IH in H.
    pose proof Hr as [[[_ Hs] [_ Ho] _ _] _]%reduce_event_step. rewrite Hs, Ho in H.
    cbn [candidate_events foldM]. unfold reduce_step at 1. rewrite Hr. cbn [rbind]. exact H.
Qed.

(** ** Finished operations *)

Record settled (s : OperationState) : Prop := {
  sd_requests : forall r, r ∈ dvalues (op_model_requests s) -> mr_phase r <> RequestStarted;
  sd_transcript : validate_closed_tool_call_transcript (op_messages s) = Ok tt;
  sd_tools : forall t, t ∈ dvalues (op_tools s) -> ti_phase t = TiCompleted;
  sd_writes : forall w, w ∈ dvalues (op_writes s) -> settled_write w;
  sd_approvals : forall a, a ∈ dvalues (op_approvals s) ->
    ap_state a ∈ [ApRejected; ApExpired; ApResumeCompleted; ApResumeFailed; ApResumeCancelled];
  sd_answer : op_phase s = OpCompleted -> forall m, last_assistant (op_messages s) = Some m ->
    in_str_set (jget m "stopReason") ["error"; "aborted"; "length"] = Ok false
}.

Lemma map_filter_nil {A B : Type} (f : A -> B) p l :
  map f (List.filter p l) = [] -> forall x, x ∈ l -> p x = false.
Proof. intros H%map_eq_nil. by apply filter_nil_elem. Qed.

(** Nothing is left unresolved. *)
Lemma terminal_facts_Ok s :
  validate_operation_terminal_facts s = Ok tt ->
  (forall t, t ∈ dvalues (op_tools s) -> ti_phase t = TiCompleted) /\
  (forall w, w ∈ dvalues (op_writes s) -> settled_write w) /\
  (forall a, a ∈ dvalues (op_approvals s) ->
     ap_state a ∈ [ApRejected; ApExpired; ApResumeCompleted; ApResumeFailed; ApResumeCancelled]).
Proof.
  unfold validate_operation_terminal_facts. intros H. ensure_facts.
  apply app_eq_nil in H as [Ht H]. apply app_eq_nil in H as [Hw Ha]. split_and!.
  - intros t Hin. apply (map_filter_nil _ _ _ Ht) in Hin.
    destruct (ti_phase t); try done; by vm_compute in Hin.
  - intros w Hin. apply (map_filter_nil _ _ _ Hw) in Hin. unfold settled_write.
    destruct (wr_state w); try in_states; by vm_compute in Hin.
  - intros a Hin. apply (map_filter_nil _ _ _ Ha) in Hin.
    destruct (ap_state a); try in_states; by vm_compute in Hin.
Qed.

Lemma finished_settled s n data s' :
  on_operation_finished s (op_with_sequence n s) data = Ok s' -> settled s'.
Proof.
  unfold on_operation_finished. intros H.
  destruct (ensure _ _) eqn:Er; [|done]. cbn [rbind] in H.
  destruct (transcript_to_log_error _) as [u|] eqn:Et; [|done]. cbn [rbind] in H.
  destruct (py_str _) as [outcome|]; [|done]. cbn [rbind] in H.
  destruct (outcome_phase_of outcome) as [p|]; [|done].
  destruct (validate_operation_terminal_facts s) as [[]|] eqn:Ef; [|done]. cbn [rbind] in H.
  match type of H with rbind ?m _ = _ => destruct m eqn:Ec; [|done] end. cbn [rbind] in H.
  simplify_eq. apply terminal_facts_Ok in Ef as (Ht & Hw & Ha). ensure_facts. split; simpl; try done.
  - intros r Hr Hst. rewrite existsb_elem in Er. specialize (Er _ Hr).
    by rewrite bool_decide_eq_true_2 in Er.
  - destruct (validate_closed_tool_call_transcript (op_messages s)) as [[]|[]]; done.
  - intros -> m Hm. rewrite bool_decide_eq_true_2 in Ec by done.
    unfold validate_completed in Ec. rewrite Hm in Ec. cbn [rbind] in Ec.
    destruct (in_str_set _ _) as [b|]; [|done]. cbn [rbind] in Ec. by destruct b.
Qed.

Lemma finished_step_ok : step_ok (fun s => terminal_phase (op_phase s) = true -> settled s).
Proof.
  intros s e s' _ _ Hstep Hterm.
  destruct Hstep as [_ _ _ Ho _ _|? ? _ _ _ _ _ Ho _|? ? _ _ _ _ _ Ho _|? ? _ _ _ _ _ Ho _
    |_ Hfin _ _ _ _ _]; try (unfold still_open in Ho; congruence).
  by eapply finished_settled.
Qed.

(** ** Approved actions *)

Lemma approval_action_Ok a oid tc name args wid binding :
  validate_approval_action a oid (Some tc) name args (Some wid) binding = Ok tt ->
  exists e, envelope_from_dict (VDict (ap_action a)) = Ok e /\
    action_hash e = Ok (ap_action_hash a) /\
    envelope_match (execution_envelope (mkExecution oid tc name args wid) (own_binding e)) e.
Proof.
  unfold validate_approval_action. intros H.
  destruct (envelope_to_log_error _ _) as [e|] eqn:He; [|done]. cbn [rbind] in H.
  apply envelope_to_log_error_Ok in He.
  destruct (envelope_from_dict _) as [e'|]; [|done]. cbn [rbind] in He.
  destruct (assert_execution _ _ _) as [u|] eqn:Ha; [|done]. cbn [rbind] in He. simplify_eq.
  destruct (action_hash e) as [h|] eqn:Hh; [|done]. cbn [rbind] in H.
  destruct (ensure _ _) eqn:Eh; [|done]. ensure_facts. subst h.
  exists e. split_and!; [done|done|]. by apply (assert_execution_match e _ None (unit_Ok _ _ Ha)).
Qed.
