(* ===== verification/OperationProperties.v ===== *)
(** * Durable operation log: properties

    The claims about replayable operation logs, each with an instance on a
    complete log of one approved transfer. *)

From S2P Require Import Prelude PyDict Text PyVal Json DurableAction.
From S2P Require Import Transcript ModelPolicy OperationTypes OperationReducer OperationLifecycle OperationSafety.
From Stdlib Require Import String.

#[local] Open Scope string_scope.
#[local] Open Scope bool_scope.
#[local] Open Scope Z_scope.

(** ** A complete log *)

Definition transfer_arguments : pydict := [("amount", VInt 10)].
Definition transfer_envelope : DurableActionEnvelope :=
  mkEnvelope "op-1" "call-1" "transfer" transfer_arguments "w-1" (Some "acct") (Some 3) None 1.
Definition transfer_action : pydict := envelope_to_dict transfer_envelope.
Definition transfer_hash : string := Eval vm_compute in action_digest transfer_action.

Definition transfer_call : pyval :=
  VDict [("type", VStr "toolCall"); ("id", VStr "call-1"); ("name", VStr "transfer");
         ("arguments", VDict transfer_arguments)].
Definition assistant (stop : string) (content : list pyval) : pyval :=
  VDict [("role", VStr "assistant"); ("stopReason", VStr stop); ("content", VList content)].
Definition policy_data (choice : string) (names : list pyval) : pyval :=
  VDict [("toolChoice", VStr choice); ("visibleToolNames", VList names)].

Definition transfer_specs : list (string * pydict) :=
  [("operation_started", []);
   ("model_request_started", [("requestId", VStr "r-1");
      ("requestPolicy", policy_data "auto" [VStr "transfer"])]);
   ("model_request_completed", [("requestId", VStr "r-1");
      ("message", assistant "toolUse" [transfer_call])]);
   ("write_prepared", [("writeId", VStr "w-1"); ("toolName", VStr "transfer");
      ("arguments", VDict transfer_arguments); ("actionHash", VStr transfer_hash);
      ("idempotencyKeyHash", VStr "k"); ("entityId", VStr "acct");
      ("expectedEntityVersion", VInt 3); ("toolCallId", VStr "call-1")]);
   ("approval_requested", [("approvalId", VStr "a-1"); ("actionHash", VStr transfer_hash);
      ("requesterId", VStr "alice"); ("requiredRole", VStr "approver")]);
   ("approval_resume_registered", [("approvalId", VStr "a-1");
      ("action", VDict transfer_action);
      ("resumePayload", VDict [("envelope", VDict transfer_action)])]);
   ("write_waiting_approval", [("writeId", VStr "w-1"); ("approvalId", VStr "a-1")]);
   ("approval_granted", [("approvalId", VStr "a-1")]);
   ("approval_consumed", [("approvalId", VStr "a-1"); ("consumerId", VStr "worker-1")]);
   ("tool_intent_recorded", [("toolCallId", VStr "call-1"); ("toolName", VStr "transfer");
      ("arguments", VDict transfer_arguments)]);
   ("approval_resume_started", [("approvalId", VStr "a-1"); ("fencingToken", VInt 1)]);
   ("write_approved", [("writeId", VStr "w-1"); ("approvalId", VStr "a-1")]);
   ("tool_dispatch_started", [("toolCallId", VStr "call-1")]);
   ("write_submitting", [("writeId", VStr "w-1")]);
   ("write_succeeded", [("writeId", VStr "w-1")]);
   ("tool_completed", [("toolCallId", VStr "call-1")]);
   ("message_appended", [("message", VDict [("role", VStr "toolResult");
      ("toolCallId", VStr "call-1"); ("toolName", VStr "transfer")])]);
   ("approval_resume_completed", [("approvalId", VStr "a-1"); ("fencingToken", VInt 1)]);
   ("model_request_started", [("requestId", VStr "r-2"); ("requestPolicy", policy_data "none" [])]);
   ("model_request_completed", [("requestId", VStr "r-2"); ("message", assistant "stop" [])]);
   ("operation_finished", [("outcome", VStr "completed")])].

Definition transfer_log : list OperationEvent :=
  candidate_events 100 "session-1" "op-1" (-1) transfer_specs.

(** The state after the first [n] events. *)
Definition after (n : nat) : OperationState :=
  match replay_operation (take n transfer_log) with
  | Ok s => s
  | Err _ => mkOperation "" "" OpFailed 0 [] [] [] [] [] [] None None
  end.

Definition write_of (s : OperationState) : WriteSnapshot :=
  default (mkWrite "" WrFailed "" [] "" "" 0 None None None None None None None)
    (dget "w-1" (op_writes s)).
Definition approval_of (s : OperationState) : ApprovalSnapshot :=
  default (mkApproval "" ApRejected "" "" "" [] None None None RsCancelled None)
    (dget "a-1" (op_approvals s)).

Example transfer_completes : op_phase (after 21) = OpCompleted.
Proof. vm_compute. reflexivity. Qed.

(** ** Refinement *)

(** C31. The reducer refines the abstract lifecycles: whatever event it accepts
    keeps the identity of the operation, moves the sequence number forward, and
    changes at most one fact - one tool invocation, one approval or one write -
    along an edge of its lifecycle, or ends the operation. *)
Theorem reducer_refines_lifecycles s e s' :
  reduce_operation_event (Some s) e = Ok s' -> common_step s e s' /\ op_step s e s'.
Proof. apply reduce_event_step. Qed.

Lemma reducer_refines_lifecycles_witness :
  exists e, nth_error transfer_log 13 = Some e /\ oe_type e = "write_submitting" /\
            common_step (after 13) e (after 14) /\ op_step (after 13) e (after 14).
Proof.
  eexists. split; [vm_compute; reflexivity|]. split; [reflexivity|].
  apply reducer_refines_lifecycles. vm_compute. reflexivity.
Defined.

(** ** Consent *)

(** C7. No write executes without consent: in every replayable log, a write that
    was put under an approval and has been let through (approved, submitting,
    succeeded, of unknown outcome or under reconciliation) has that approval in
    the log, granted and consumed, with the write's own action hash. *)
Theorem no_write_without_consent events s id w approval_id :
  replay_operation events = Ok s -> dget id (op_writes s) = Some w ->
  wr_approval_id w = Some approval_id -> wr_state w ∈ executed_states ->
  exists a, dget approval_id (op_approvals s) = Some a /\ ap_state a ∈ consumed_states /\
            ap_action_hash a = wr_action_hash w.
Proof.
  intros Hr Hw Hid Hst.
  assert (Hall : writes_consented s); [|by eapply Hall].
  eapply replay_invariant; [|apply writes_consented_step|done].
  intros e s0 (_ & _ & Hws & _)%start_facts k v. by rewrite Hws.
Qed.

Lemma no_write_without_consent_witness :
  wr_state (write_of (after 14)) = WrSubmitting /\
  exists a, dget "a-1" (op_approvals (after 14)) = Some a /\ ap_state a ∈ consumed_states /\
            ap_action_hash a = wr_action_hash (write_of (after 14)).
Proof.
  split; [vm_compute; reflexivity|].
  apply (no_write_without_consent (take 14 transfer_log) (after 14) "w-1");
    [vm_compute; reflexivity..|].
  apply one_of_spec. vm_compute. reflexivity.
Defined.

(** C8. A tool bound to an approved action is dispatched only after the approval
    was consumed, and only as that action: operation, tool call, tool name,
    arguments and write of the recorded invocation agree with an envelope whose
    hash is the approved one. *)
Theorem dispatch_executes_approved_action s e s' id t a write_id :
  reduce_operation_event (Some s) e = Ok s' -> oe_type e = "tool_dispatch_started" ->
  jget (oe_data e) "toolCallId" = VStr id -> dget id (op_tools s) = Some t ->
  approval_for_tool_call s id = Some a -> ap_action a <> [] ->
  ap_write_id a = Some write_id ->
  ap_state a ∈ [ApConsumed; ApResumeStarted] /\
  exists env, action_hash env = Ok (ap_action_hash a) /\
    envelope_match
      (execution_envelope
         (mkExecution (op_operation_id s) (ti_tool_call_id t) (ti_tool_name t)
            (ti_arguments t) write_id) (own_binding env)) env.
Proof.
  intros Hr%reduce_apply Hty Hid Ht Ha Hne Hw. rewrite apply_dispatch in Hr by done.
  apply tool_dispatch_step in Hr as (id' & t' & Hid' & Hedge & _).
  rewrite (event_text_of _ _ _ _ Hid' Hid), Ht in Hedge.
  inversion Hedge as [|t0 _ Hst Hval Heq| |t0 ty result Hin]; subst.
  - split; [by apply Hst|]. unfold validate_tool_approval in Hval. rewrite Ha in Hval.
    rewrite bool_decide_eq_false_2 in Hval by done. rewrite Hw in Hval.
    apply approval_action_Ok in Hval as (env & _ & Hh & Hm). by exists env.
  - apply mem_str_spec in Hin. by vm_compute in Hin.
Qed.

Lemma dispatch_executes_approved_action_witness :
  ap_state (approval_of (after 12)) ∈ [ApConsumed; ApResumeStarted] /\
  exists env, action_hash env = Ok (ap_action_hash (approval_of (after 12))) /\
    envelope_match
      (execution_envelope (mkExecution "op-1" "call-1" "transfer" transfer_arguments "w-1")
         (own_binding env)) env.
Proof.
  apply (dispatch_executes_approved_action (after 12)
           (mkOperationEvent "tool_dispatch_started" "session-1" "op-1" 12 100
              [("toolCallId", VStr "call-1")]) (after 13) "call-1"
           (mkInvocation "call-1" "transfer" transfer_arguments "never" None None None
              TiIntentRecorded 0 None None)); try (vm_compute; reflexivity).
  vm_compute. discriminate.
Defined.

(** ** Once only *)

(** A write is handed to the external system at most once: no replayable log
    holds two [write_submitting] events for the same write, however reconciliation
    and re-entry by other workers interleave. *)
Theorem write_submitted_at_most_once events s id :
  replay_operation events = Ok s ->
  (count (is_event "write_submitting" "writeId" id) events <= 1)%nat.
Proof.
  apply (once (submitted id)).
  - intros x e x'. apply submitting_stays.
  - intros x e x'. apply submitting_happens.
  - intros e x. by apply start_is_no_event.
Qed.

Lemma write_submitted_at_most_once_witness :
  (count (is_event "write_submitting" "writeId" "w-1") transfer_log = 1)%nat /\
  (count (is_event "write_submitting" "writeId" "w-1") transfer_log <= 1)%nat.
Proof.
  split; [vm_compute; reflexivity|].
  apply (write_submitted_at_most_once transfer_log (after 21)). vm_compute. reflexivity.
Defined.

(** An approval is consumed at most once in any replayable log. *)
Theorem approval_consumed_at_most_once events s id :
  replay_operation events = Ok s ->
  (count (is_event "approval_consumed" "approvalId" id) events <= 1)%nat.
Proof.
  apply (once (consumed id)).
  - intros x e x'. apply consuming_stays.
  - intros x e x'. apply consuming_happens.
  - intros e x. by apply start_is_no_event.
Qed.

Lemma approval_consumed_at_most_once_witness :
  (count (is_event "approval_consumed" "approvalId" "a-1") transfer_log <= 1)%nat.
Proof.
  apply (approval_consumed_at_most_once transfer_log (after 21)). vm_compute. reflexivity.
Defined.

(** ** Settled facts *)

(** Settled facts are final: along any accepted continuation of a log, a write
    that succeeded or failed and a tool invocation that completed stay exactly as
    recorded, and an approval that was rejected, expired or cancelled is never
    granted or consumed afterwards. *)
Theorem settled_facts_are_final s events s' :
  foldM reduce_step (Some s) events = Ok (Some s') ->
  (forall id w, dget id (op_writes s) = Some w -> settled_write w ->
     dget id (op_writes s') = Some w) /\
  (forall id t, dget id (op_tools s) = Some t -> ti_phase t = TiCompleted ->
     dget id (op_tools s') = Some t) /\
  (forall id a, dget id (op_approvals s) = Some a -> ap_state a ∈ denied_states ->
     exists a', dget id (op_approvals s') = Some a' /\ ap_state a' ∈ denied_states).
Proof.
  intros Hrun. split_and!.
  - intros id w Hw Hset. by apply (run_invariant _ _ _ _ (write_settled_step id w Hset) Hw Hrun).
  - intros id t Ht Hph. by apply (run_invariant _ _ _ _ (tool_settled_step id t Hph) Ht Hrun).
  - intros id a Ha Hd. apply (run_invariant _ _ _ _ (denied_step id)) in Hrun; [done|].
    by exists a.
Qed.

Lemma settled_facts_are_final_witness :
  dget "w-1" (op_writes (after 21)) = Some (write_of (after 15)).
Proof.
  destruct (settled_facts_are_final (after 15) (drop 15 transfer_log) (after 21)) as [H _];
    [vm_compute; reflexivity|].
  apply H; [vm_compute; reflexivity|]. apply one_of_spec. vm_compute. reflexivity.
Defined.

(** A resume is recorded as completed only on success: whenever a replayable
    log shows an approval's resume completed, the approval's write has succeeded
    and its tool invocation has completed, and they stay so. *)
Theorem completed_resume_rests_on_success events s id a :
  replay_operation events = Ok s -> dget id (op_approvals s) = Some a ->
  ap_state a = ApResumeCompleted -> resume_settled s a.
Proof.
  intros Hr Ha Hst.
  assert (Hall : resumes_settled s); [|by eapply Hall].
  eapply replay_invariant; [|apply resumes_settled_step|done].
  intros e s0 (_ & Has & _)%start_facts k v. by rewrite Has.
Qed.

Lemma completed_resume_rests_on_success_witness :
  resume_settled (after 21) (approval_of (after 21)).
Proof.
  apply (completed_resume_rests_on_success transfer_log _ "a-1"); vm_compute; reflexivity.
Defined.

(** ** The end of an operation *)

(** C30. A finished operation hides nothing: in every replayable log that ends in
    a terminal phase, no model request is open, the transcript is closed, every
    tool invocation has completed, every write has succeeded or failed, every
    approval is denied or its resume settled - and if the operation completed,
    its last answer was not an error, an abort or a truncation. *)
Theorem finished_operation_is_settled events s :
  replay_operation events = Ok s -> terminal_phase (op_phase s) = true -> settled s.
Proof.
  intros Hr.
  apply (replay_invariant (fun s => terminal_phase (op_phase s) = true -> settled s) events s);
    [|apply finished_step_ok|exact Hr].
  intros e s0 (_ & _ & _ & _ & Hp & _)%start_facts. by rewrite Hp.
Qed.

Lemma finished_operation_is_settled_witness : settled (after 21).
Proof. apply (finished_operation_is_settled transfer_log); vm_compute; reflexivity. Defined.

(** A terminal operation accepts no event at all. *)
Theorem terminal_operation_rejects_events s e :
  terminal_phase (op_phase s) = true ->
  exists message, reduce_operation_event (Some s) e = Err (OperationLogInvariantError message).
Proof.
  intros Hterm. unfold reduce_operation_event. rewrite Hterm.
  destruct (String.eqb _ _ && _); [|by eexists]. simpl.
  destruct (op_last_sequence s <? oe_sequence e); by eexists.
Qed.

Lemma terminal_operation_rejects_events_witness :
  exists message,
    reduce_operation_event (Some (after 21))
      (mkOperationEvent "message_appended" "session-1" "op-1" 99 100 [])
    = Err (OperationLogInvariantError message).
Proof. apply terminal_operation_rejects_events. vm_compute. reflexivity. Defined.

(** The separate checks made when the outcome is [completed] - unfinished
    tools, approvals and writes, with an exemption for a consumed approval whose
    resume is unregistered - never decide anything: once the general check on
    unresolved facts has passed, only the last answer's stop reason matters, and
    a consumed approval has failed the general check for every outcome. *)
Theorem completed_checks_are_subsumed s :
  (validate_operation_terminal_facts s = Ok tt ->
   validate_completed s =
     let! unsuccessful :=
       match last_assistant (op_messages s) with
       | Some m => in_str_set (jget m "stopReason") ["error"; "aborted"; "length"]
       | None => Ok false
       end in
     ensure (negb unsuccessful) "Operation Completed 时存在未成功的模型响应") /\
  (forall a, a ∈ dvalues (op_approvals s) -> ap_state a = ApConsumed ->
     exists message, validate_operation_terminal_facts s
                     = Err (OperationLogInvariantError message)).
Proof.
  split.
  - intros (Ht & Hw & Ha)%terminal_facts_Ok. unfold validate_completed.
    match goal with |- rbind ?m _ = _ => destruct m as [b|]; [cbn [rbind] | done] end.
    destruct b; [done|]. cbn [negb ensure rbind].
    rewrite (proj2 (forallb_elem _ _)) by (intros t Hin; by rewrite (Ht _ Hin)). cbn [ensure rbind].
    rewrite (proj2 (existsb_elem _ _)).
    2: { intros a Hin. specialize (Ha _ Hin). split_states; by rewrite Ha. }
    cbn [negb ensure rbind].
    rewrite (proj2 (forallb_elem _ _)); [done|]. intros w Hin. apply one_of_spec. by apply Hw.
  - intros a Hin Hst. destruct (validate_operation_terminal_facts s) as [[]|e] eqn:Hv.
    + apply terminal_facts_Ok in Hv as (_ & _ & Ha). specialize (Ha _ Hin). clash.
    + unfold validate_operation_terminal_facts, ensure in Hv.
      case_bool_decide; simplify_eq. by eexists.
Qed.

Lemma completed_checks_are_subsumed_witness :
  exists message, validate_operation_terminal_facts (after 9)
                  = Err (OperationLogInvariantError message).
Proof.
  apply (proj2 (completed_checks_are_subsumed (after 9)) (approval_of (after 9)));
    [|vm_compute; reflexivity].
  vm_compute. left.
Defined.

(** ** Claims *)

Lemma apply_settle_resume s n e s' :
  oe_type e ∈ ["approval_resume_completed"; "approval_resume_failed"] ->
  apply_operation_event s (op_with_sequence n s) e = Ok s' ->
  exists id a, event_text (oe_data e) "approvalId" = Ok id /\
    dget id (op_approvals s) = Some a /\ ap_state a = ApResumeStarted /\
    holds_claim (ap_resume_fencing_token a) (oe_data e).
Proof.
  intros Hty H.
  assert (Hr : reduce_approval_event (op_with_sequence n s) e = Ok s').
  { unfold apply_operation_event in H. split_states; rewrite Hty in H; exact H. }
  unfold reduce_approval_event in Hr.
  destruct (String.eqb_spec (oe_type e) "approval_pending") as [Hp|_];
    [split_states; congruence|].
  destruct (event_text (oe_data e) "approvalId") as [id|]; [|done]. cbn [rbind] in Hr.
  destruct (String.eqb_spec (oe_type e) "approval_requested") as [Hp|_];
    [split_states; congruence|].
  destruct (dget id _) as [a|] eqn:Hget; [|done].
  destruct (String.eqb_spec (oe_type e) "approval_resume_registered") as [Hp|_];
    [split_states; congruence|].
  destruct (advance_approval _ _ _ _) as [[a' p]|] eqn:Hadv; [|done].
  apply (advance_approval_step _ id) in Hadv as [Hedge _].
  exists id, a. split; [done|]. split; [done|].
  split_states; rewrite Hty in Hedge; by inversion Hedge; subst.
Qed.

(** A worker that lost its claim cannot settle the resume: once the approval
    carries a fencing token, a [completed] or [failed] event with any other token,
    or none, is rejected. *)
Theorem stale_worker_cannot_settle_resume s e id a token s' :
  oe_type e ∈ ["approval_resume_completed"; "approval_resume_failed"] ->
  jget (oe_data e) "approvalId" = VStr id -> dget id (op_approvals s) = Some a ->
  ap_resume_fencing_token a = Some token -> jget (oe_data e) "fencingToken" <> VInt token ->
  reduce_operation_event (Some s) e <> Ok s'.
Proof.
  intros Hty Hid Ha Htok Hne Hr%reduce_apply.
  apply apply_settle_resume in Hr as (id' & a' & Hid' & Ha' & _ & Hclaim); [|done].
  rewrite (event_text_of _ _ _ _ Hid' Hid) in Ha'. rewrite Ha in Ha'. simplify_eq.
  unfold holds_claim in Hclaim. rewrite Htok in Hclaim.
  unfold required_fencing_token, optional_fencing_token in Hclaim.
  destruct (jget (oe_data e) "fencingToken") as [| |n| | | |]; try done. cbn [rbind] in Hclaim.
  destruct (n <? 1); [done|]. cbn [rbind] in Hclaim. congruence.
Qed.

Lemma stale_worker_cannot_settle_resume_witness :
  ap_resume_fencing_token (approval_of (after 17)) = Some 1 /\
  reduce_operation_event (Some (after 17))
    (mkOperationEvent "approval_resume_completed" "session-1" "op-1" 17 100
       [("approvalId", VStr "a-1"); ("fencingToken", VInt 2)]) <> Ok (after 18).
Proof.
  split; [vm_compute; reflexivity|].
  apply (stale_worker_cannot_settle_resume (after 17) _ "a-1" (approval_of (after 17)) 1);
    [left|vm_compute; reflexivity..|discriminate].
Defined.

(** ** Order of the log *)

(** Replay depends only on the set of events: any reordering of a replayable
    log replays to the same state, whose last sequence number is the greatest of
    the log; in particular no two events of it share a sequence number. *)
Theorem operation_replay_ignores_order events events' s :
  replay_operation events = Ok s -> Permutation events events' ->
  replay_operation events' = Ok s /\ NoDup (map oe_sequence events).
Proof.
  intros Hr Hp. pose proof Hr as [Hs _]%replay_sorted.
  assert (Hnd : NoDup (map oe_sequence events)).
  { rewrite <- (sort_by_perm oe_sequence events). by apply strongly_sorted_NoDup. }
  split; [|done]. unfold replay_operation in *.
  by rewrite <- (sort_by_permutation oe_sequence events events').
Qed.

Lemma operation_replay_ignores_order_witness :
  replay_operation (rev transfer_log) = Ok (after 21) /\ NoDup (map oe_sequence transfer_log).
Proof.
  apply operation_replay_ignores_order; [vm_compute; reflexivity | apply Permutation_rev].
Defined.

(** Validating candidate events before they are appended is exact: if the
    candidates are accepted, the log extended with the events they stand for -
    numbered after the greatest sequence number of the log - replays to the state
    the validation computed. *)
Theorem validated_candidates_replay now events specs s s' :
  replay_operation events = Ok s ->
  replay_operation_with_specs now events specs = Ok s' ->
  replay_operation (events ++ candidate_events now (op_session_id s) (op_operation_id s)
                                (max_sequence events) specs) = Ok s'.
Proof.
  unfold replay_operation_with_specs. intros Hr H. rewrite Hr in H. cbn [rbind] in H.
  destruct (foldM _ _ _) as [[s1 m]|] eqn:Hf; [|done]. cbn in H. simplify_eq.
  apply specs_run in Hf.
  destruct (candidates_sorted now (op_session_id s) (op_operation_id s) (max_sequence events) specs)
    as [Hsorted Hlt].
  unfold replay_operation in *. rewrite sort_by_app; [|done|].
  2: { intros x y Hx Hy. rewrite Forall_forall in Hlt. specialize (Hlt _ Hy).
       apply max_sequence_spec in Hx. lia. }
  rewrite foldM_app. destruct (foldM reduce_step None _) as [[s2|]|]; [|done..].
  cbn in Hr. simplify_eq. cbn [rbind]. rewrite Hf. done.
Qed.

Lemma validated_candidates_replay_witness :
  replay_operation (take 9 transfer_log ++
    candidate_events 100 "session-1" "op-1" 8 (take 3 (drop 9 transfer_specs))) = Ok (after 12).
Proof.
  apply (validated_candidates_replay 100 (take 9 transfer_log) _ (after 9));
    vm_compute; reflexivity.
Defined.

(** ** Serialisation *)

(** An operation event its constructor accepts survives [to_dict] followed by
    [from_dict] unchanged. *)
Theorem operation_event_round_trip ty session operation sequence timestamp data e :
  operation_event ty session operation sequence timestamp data = Ok e ->
  operation_event_from_dict (VDict (operation_event_to_dict e)) = Ok e.
Proof.
  intros H. assert (e = mkOperationEvent ty session operation sequence timestamp data) as ->.
  { unfold operation_event in H. by res_inv H. }
  unfold operation_event_from_dict. cbn -[operation_event].
  unfold operation_event in *. destruct (_ && _ && _); [exact H | done].
Qed.

Lemma operation_event_round_trip_witness :
  operation_event_from_dict (VDict (operation_event_to_dict
    (mkOperationEvent "write_submitting" "s" "o" 3 7 [("writeId", VStr "w")])))
  = Ok (mkOperationEvent "write_submitting" "s" "o" 3 7 [("writeId", VStr "w")]).
Proof. by apply (operation_event_round_trip "write_submitting" "s" "o" 3 7 [("writeId", VStr "w")]).
Defined.

(** ** Registered actions and their hashes *)

Lemma envelope_from_dict_round_trip v e :
  envelope_from_dict v = Ok e -> envelope_from_dict (VDict (envelope_to_dict e)) = Ok e.
Proof.
  unfold envelope_from_dict at 1. intros H. destruct v as [| | | | | |d]; try done.
  destruct (jget_or d "version" _); try done. destruct (jget d "arguments"); try done.
  do 7 match type of H with rbind ?m _ = _ => destruct m; [cbn [rbind] in H | done] end.
  apply envelope_Ok in H as [_ He]. by apply envelope_from_to_dict.
Qed.

(** Registration checks the approved hash against the action as submitted, but
    records the envelope read from it.  If the two have different digests - the
    action carries a field the envelope does not know, or leaves the version to
    its default - registration is accepted and every later check of that approval
    against an execution fails, whatever the execution is. *)
Theorem noncanonical_action_blocks_approval s id a data action e s' a' :
  dget id (op_approvals s) = Some a -> on_approval_registered s id a data = Ok s' ->
  jget data "action" = VDict action -> envelope_from_dict (VDict action) = Ok e ->
  action_digest action <> action_digest (envelope_to_dict e) ->
  dget id (op_approvals s') = Some a' ->
  forall operation_id tool_call_id tool_name arguments write_id binding,
    validate_approval_action a' operation_id tool_call_id tool_name arguments write_id binding
    <> Ok tt.
Proof.
  intros Ha H Haction He Hne Ha' oid tc name args wid binding Hval.
  apply approval_registered_step in H as (a1 & p & Hedge & -> & _); [|done].
  simpl in Ha'. rewrite dget_dset_eq in Ha'. injection Ha' as ->.
  destruct tc as [tc|]; [|done]. destruct wid as [wid|]; [|done].
  apply approval_action_Ok in Hval as (e' & He' & Hh & _).
  inversion Hedge as [|a0 action0 e0 w call call_id name0 args0 _ Hact He0 Hdig| | | | | | | | |];
    subst. cbn [ap_bind ap_action ap_action_hash] in He', Hh.
  rewrite (jget_or_jget _ _ _ _ Haction) in Hact by done. injection Hact as <-.
  rewrite He in He0. injection He0 as <-.
  rewrite (envelope_from_dict_round_trip _ _ He) in He'. injection He' as <-.
  unfold action_hash, durable_action_digest in Hh. res_inv Hh. unfold action_digest in *. congruence.
Qed.

(** A submission with a remark next to the envelope's own fields. *)
Definition remarked_action : pydict := (transfer_action ++ [("remark", VStr "urgent")])%list.
Definition remarked_hash : string := Eval vm_compute in action_digest remarked_action.
Definition remarked_state : OperationState :=
  let s := after 3 in
  let w := mkWrite "w-1" WrPrepared "transfer" transfer_arguments remarked_hash "k" 1
             (Some "acct") (Some 3) None (Some "call-1") None None None in
  let a := mkApproval "a-1" ApWaiting remarked_hash "alice" "approver" [] None None None
             RsUnregistered None in
  s |> op_put_write "w-1" w |> op_put_approval "a-1" a.
Definition remarked_data : pydict :=
  [("approvalId", VStr "a-1"); ("action", VDict remarked_action);
   ("resumePayload", VDict [("envelope", VDict remarked_action)])].

Lemma noncanonical_action_blocks_approval_witness :
  exists s' a', on_approval_registered remarked_state "a-1" (approval_of remarked_state)
                  remarked_data = Ok s' /\ dget "a-1" (op_approvals s') = Some a' /\
  validate_approval_action a' "op-1" (Some "call-1") "transfer" transfer_arguments (Some "w-1")
    None <> Ok tt.
Proof.
  eexists _, _. split; [vm_compute; reflexivity|]. split; [vm_compute; reflexivity|].
  eapply (noncanonical_action_blocks_approval remarked_state "a-1" (approval_of remarked_state)
            remarked_data remarked_action transfer_envelope);
    [vm_compute; reflexivity | vm_compute; reflexivity | vm_compute; reflexivity
    | vm_compute; reflexivity | vm_compute; discriminate | vm_compute; reflexivity].
Defined.
