(* ===== verification/Domain.v ===== *)
(** * Business entity state machines  (src/.../domains/)

    Transitions of an entity on events of trusted sources, and the approval
    receipts that some transitions consume.  A [frozenset] is a [gset]; the
    receipt verifier is supplied by the project, so it is an argument whose call
    may return any value or raise. *)

From S2P Require Import Prelude PyDict Text PyVal Json.
From stdpp Require Import gmap.
From Stdlib Require Import String.

#[local] Open Scope string_scope.
#[local] Open Scope bool_scope.
#[local] Open Scope Z_scope.

(** ** Approval receipts  (domains/approval_receipt.py) *)

Record ApprovalReceipt := mkReceipt {
  rc_receipt_id : string;
  rc_action_hash : string;
  rc_approver_id : string;
  rc_entity_id : string;
  rc_event_type : string;
  rc_issued_at : pynum;
  rc_expires_at : pynum;
  rc_consumed_at : pynum;
  rc_verification_id : string
}.

Definition receipt_time (v : pyval) : res pynum :=
  let! n := finite_number v in
  match n with Some n => Ok n | None => Err ValueError end.

(** [ApprovalReceipt.__post_init__] on the constructor's arguments *)
Definition approval_receipt (receipt_id action_hash approver_id entity_id event_type : string)
    (issued_at expires_at consumed_at : pyval) (verification_id : string)
  : res ApprovalReceipt :=
  if existsb blank [receipt_id; action_hash; approver_id; entity_id; event_type; verification_id]
  then Err ValueError else
  if negb (py_len action_hash =? 64) || negb (all_hex action_hash) then Err ValueError else
  let! issued := receipt_time issued_at in
  let! expires := receipt_time expires_at in
  let! consumed := receipt_time consumed_at in
  if negb (num_le issued consumed && num_le consumed expires) then Err ValueError else
  Ok (mkReceipt receipt_id action_hash approver_id entity_id event_type issued expires consumed
        verification_id).

(** [domain_action_hash] *)
Definition domain_action_hash (entity_id event_type : string) (data : pydict) : res string :=
  let value := VDict [("entityId", VStr entity_id); ("eventType", VStr event_type);
                      ("data", VDict data)] in
  if strict_json value then Ok (json_digest value) else Err ValueError.

(** ** The state machine  (domains/state_machine.py) *)

Definition domain_error {A : Type} (code : string) : res A := Err (DomainTransitionError code).

Record DomainTransition := mkTransition {
  dt_event_type : string;
  dt_from_states : gset string;
  dt_to_state : string;
  dt_allowed_sources : gset string;
  dt_requires_approval : bool
}.

(** [DomainTransition.__post_init__] *)
Definition domain_transition (event_type : string) (from_states : gset string)
    (to_state : string) (allowed_sources : gset string) (requires_approval : bool)
  : res DomainTransition :=
  if negb (nonempty event_type) || bool_decide (from_states = ∅) || negb (nonempty to_state)
  then Err ValueError else
  if bool_decide (allowed_sources = ∅) then Err ValueError else
  Ok (mkTransition event_type from_states to_state allowed_sources requires_approval).

Record DomainEvent := mkDomainEvent {
  de_entity_id : string;
  de_type : string;
  de_source : string;
  de_expected_version : Z;
  de_data : pydict;
  de_occurred_at : pyval;
  de_approval_receipt : option ApprovalReceipt
}.

Record EntityState := mkEntity {
  es_entity_id : string;
  es_state : string;
  es_version : Z;
  es_last_event : option string;
  es_consumed_receipts : list string
}.

Record DomainStateMachine := mkMachine {
  dm_initial_state : string;
  dm_transitions : list DomainTransition;
  dm_verifier : option (ApprovalReceipt -> res pyval)
}.

(** The keys (source state, event) one transition claims. *)
Definition transition_keys (t : DomainTransition) : list (string * string) :=
  map (fun s => (s, dt_event_type t)) (elements (dt_from_states t)).

Definition claim_key (seen : gset (string * string)) (key : string * string)
  : res (gset (string * string)) :=
  if bool_decide (key ∈ seen) then Err ValueError else Ok ({[ key ]} ∪ seen).

(** [DomainStateMachine.__init__] *)
Definition domain_state_machine (initial_state : string) (transitions : list DomainTransition)
    (verifier : option (ApprovalReceipt -> res pyval)) : res DomainStateMachine :=
  if negb (nonempty initial_state) then Err ValueError else
  if existsb dt_requires_approval transitions
     && match verifier with None => true | Some _ => false end then Err ValueError else
  let! _ := foldM claim_key ∅ (transitions ≫= transition_keys) in
  Ok (mkMachine initial_state transitions verifier).

Definition domain_initial (m : DomainStateMachine) (entity_id : string) : res EntityState :=
  if nonempty entity_id then Ok (mkEntity entity_id (dm_initial_state m) 0 None [])
  else Err ValueError.

Definition transition_matches (state ty : string) (t : DomainTransition) : bool :=
  String.eqb (dt_event_type t) ty && bool_decide (state ∈ dt_from_states t).

Definition verified_receipt (m : DomainStateMachine) (r : ApprovalReceipt) : bool :=
  match dm_verifier m with
  | None => false
  | Some verify => match verify r with Ok (VBool true) => true | _ => false end
  end.

(** [_validated_approval_receipt]: a verifier that raises and one that does not
    return [True] end in the same error. *)
Definition validated_approval_receipt (m : DomainStateMachine) (s : EntityState)
    (e : DomainEvent) : res ApprovalReceipt :=
  match de_approval_receipt e with
  | None => domain_error "approval_required"
  | Some r =>
      if mem_str (rc_receipt_id r) (es_consumed_receipts s)
      then domain_error "approval_already_consumed" else
      if negb (verified_receipt m r) then domain_error "approval_verification_failed" else
      if negb (String.eqb (rc_entity_id r) (de_entity_id e))
         || negb (String.eqb (rc_event_type r) (de_type e))
      then domain_error "approval_action_mismatch" else
      let! expected := domain_action_hash (de_entity_id e) (de_type e) (de_data e) in
      if negb (String.eqb (ascii_casefold (rc_action_hash r)) expected)
      then domain_error "approval_action_mismatch" else
      let! occurred_at := finite_number (de_occurred_at e) in
      match occurred_at with
      | None => domain_error "approval_event_time_required"
      | Some time =>
          if num_lt time (rc_consumed_at r) then domain_error "approval_not_consumed" else
          if num_lt (rc_expires_at r) time then domain_error "approval_expired" else
          Ok r
      end
  end.

(** [DomainStateMachine.apply] *)
Definition domain_apply (m : DomainStateMachine) (s : EntityState) (e : DomainEvent)
  : res EntityState :=
  if negb (String.eqb (de_entity_id e) (es_entity_id s)) then domain_error "entity_mismatch" else
  if negb (de_expected_version e =? es_version s) then domain_error "stale_version" else
  match find_first (transition_matches (es_state s) (de_type e)) (dm_transitions m) with
  | None => domain_error "invalid_transition"
  | Some t =>
      if negb (bool_decide (de_source e ∈ dt_allowed_sources t))
      then domain_error "untrusted_source" else
      let! consumed :=
        if dt_requires_approval t then
          let! r := validated_approval_receipt m s e in
          Ok (es_consumed_receipts s ++ [rc_receipt_id r])%list
        else Ok (es_consumed_receipts s) in
      Ok (mkEntity (es_entity_id s) (dt_to_state t) (es_version s + 1) (Some (de_type e))
            consumed)
  end.

(** ** Lemmas *)

Lemma claim_keys_NoDup seen keys seen' :
  foldM claim_key seen keys = Ok seen' ->
  NoDup keys /\ forall k, k ∈ keys -> k ∉ seen.
Proof.
  revert seen. induction keys as [|k keys IH]; intros seen H; simpl in H.
  - split; [constructor|]. intros k Hk. by apply elem_of_nil in Hk.
  - unfold claim_key at 1 in H. case_bool_decide as Hk; [done|]. simpl in H.
    apply IH in H as [Hnd Hin]. split.
    + constructor; [|done]. intros Hkk. specialize (Hin _ Hkk). set_solver.
    + intros k' [->|Hk']%elem_of_cons; [done|]. specialize (Hin _ Hk'). set_solver.
Qed.

Lemma matching_key state ty t :
  transition_matches state ty t = true <-> (state, ty) ∈ transition_keys t.
Proof.
  unfold transition_matches, transition_keys.
  rewrite andb_true_iff, String.eqb_eq, bool_decide_eq_true, list_elem_of_fmap. split.
  - intros [<- Hs]. exists state. split; [done|]. by apply elem_of_elements.
  - intros (s & [= -> ->] & Hs). split; [done|]. by apply elem_of_elements.
Qed.

(** In a list whose keys are distinct the first match is the only one. *)
Lemma only_match transitions state ty t :
  NoDup (transitions ≫= transition_keys) -> t ∈ transitions ->
  transition_matches state ty t = true ->
  find_first (transition_matches state ty) transitions = Some t.
Proof.
  intros Hnd Hin Hm. induction transitions as [|u us IH]; [by apply elem_of_nil in Hin|].
  simpl in *. apply NoDup_app in Hnd as (_ & Hdis & Hnd).
  apply elem_of_cons in Hin as [->|Hin]; [by rewrite Hm|].
  destruct (transition_matches state ty u) eqn:Hu; [|by apply IH].
  exfalso. apply matching_key in Hm, Hu. apply (Hdis _ Hu). apply list_elem_of_bind. eauto.
Qed.

Lemma find_first_permutation transitions transitions' state ty :
  NoDup (transitions ≫= transition_keys) -> Permutation transitions transitions' ->
  find_first (transition_matches state ty) transitions
  = find_first (transition_matches state ty) transitions'.
Proof.
  intros Hnd Hp. destruct (find_first _ transitions') as [t|] eqn:H'.
  - apply find_first_Some in H' as [Hin Hm]. apply only_match; [done| |done]. by rewrite Hp.
  - apply find_first_None. intros t Ht. rewrite Hp in Ht.
    by apply (proj1 (find_first_None _ _) H').
Qed.

Lemma receipt_Ok m s e r :
  validated_approval_receipt m s e = Ok r ->
  de_approval_receipt e = Some r /\ (rc_receipt_id r ∉ es_consumed_receipts s) /\
  verified_receipt m r = true /\ rc_entity_id r = de_entity_id e /\
  rc_event_type r = de_type e /\
  domain_action_hash (de_entity_id e) (de_type e) (de_data e)
    = Ok (ascii_casefold (rc_action_hash r)) /\
  exists time, finite_number (de_occurred_at e) = Ok (Some time) /\
    num_lt time (rc_consumed_at r) = false /\ num_lt (rc_expires_at r) time = false.
Proof.
  unfold validated_approval_receipt. intros H. res_inv H.
  repeat match goal with
  | E : negb _ = false |- _ => apply negb_false_iff in E
  | E : _ || _ = false |- _ => apply orb_false_iff in E as [? ?]
  | E : String.eqb _ _ = true |- _ => apply String.eqb_eq in E
  | E : mem_str _ _ = false |- _ => apply mem_str_false in E
  end.
  subst. eauto 10.
Qed.

(** What one accepted event does. *)
Record domain_step (m : DomainStateMachine) (s : EntityState) (e : DomainEvent)
    (s' : EntityState) (t : DomainTransition) : Prop := {
  ds_entity : de_entity_id e = es_entity_id s /\ es_entity_id s' = es_entity_id s;
  ds_version : de_expected_version e = es_version s /\ es_version s' = es_version s + 1;
  ds_transition : t ∈ dm_transitions m /\ transition_matches (es_state s) (de_type e) t = true;
  ds_state : es_state s' = dt_to_state t /\ es_last_event s' = Some (de_type e);
  ds_source : de_source e ∈ dt_allowed_sources t;
  ds_receipts :
    if dt_requires_approval t then
      exists r, validated_approval_receipt m s e = Ok r /\
                es_consumed_receipts s' = (es_consumed_receipts s ++ [rc_receipt_id r])%list
    else es_consumed_receipts s' = es_consumed_receipts s
}.

Lemma domain_apply_Ok m s e s' :
  domain_apply m s e = Ok s' -> exists t, domain_step m s e s' t.
Proof.
  unfold domain_apply. intros H.
  destruct (String.eqb_spec (de_entity_id e) (es_entity_id s)) as [He|]; [|done].
  destruct (Z.eqb_spec (de_expected_version e) (es_version s)) as [Hv|]; [|done]. simpl in H.
  destruct (find_first _ _) as [t|] eqn:Ht; [|done]. apply find_first_Some in Ht.
  case_bool_decide as Hsrc; [|done]. simpl in H. exists t.
  destruct (dt_requires_approval t) eqn:Hreq.
  - destruct (validated_approval_receipt m s e) as [r|] eqn:Hr; [|done]. simpl in H. simplify_eq.
    split; simpl; rewrite ?Hreq; eauto.
  - simpl in H. simplify_eq. split; simpl; rewrite ?Hreq; eauto.
Qed.

Lemma machine_keys i ts v m :
  domain_state_machine i ts v = Ok m ->
  m = mkMachine i ts v /\ NoDup (ts ≫= transition_keys).
Proof.
  unfold domain_state_machine. intros H. res_inv H. split; [done|].
  by eapply claim_keys_NoDup.
Qed.

(** ** Properties *)

(** A machine with one ordinary and one approved transition, and a run of it. *)
Definition order_transitions : list DomainTransition :=
  [mkTransition "submit" {[ "draft" ]} "submitted" {[ "api" ]} false;
   mkTransition "refund" {[ "submitted"; "paid" ]} "refunded" {[ "api"; "bank" ]} true].
Definition order_verifier (r : ApprovalReceipt) : res pyval :=
  Ok (VBool (String.eqb (rc_verification_id r) "proof-1")).
Definition order_machine : DomainStateMachine :=
  mkMachine "draft" order_transitions (Some order_verifier).
Definition refund_hash : string := Eval vm_compute in
  match domain_action_hash "order-1" "refund" [("amount", VInt 5)] with
  | Ok h => h | Err _ => "" end.
Definition refund_receipt : ApprovalReceipt :=
  mkReceipt "receipt-1" refund_hash "bob" "order-1" "refund" (NInt 10) (NInt 20) (NInt 12)
    "proof-1".
Definition order_events : list DomainEvent :=
  [mkDomainEvent "order-1" "submit" "api" 0 [] VNone None;
   mkDomainEvent "order-1" "refund" "bank" 1 [("amount", VInt 5)] (VInt 15) (Some refund_receipt)].
Definition order_state (n : nat) : EntityState :=
  match foldM (domain_apply order_machine) (mkEntity "order-1" "draft" 0 None [])
          (take n order_events) with
  | Ok s => s
  | Err _ => mkEntity "" "" (-1) None []
  end.

(** The machine is deterministic: for a constructed machine, listing its
    transitions in another order changes the outcome of no event. *)
Theorem transition_order_is_irrelevant i ts ts' v m m' s e :
  domain_state_machine i ts v = Ok m -> domain_state_machine i ts' v = Ok m' ->
  Permutation ts ts' -> domain_apply m s e = domain_apply m' s e.
Proof.
  intros [-> Hnd]%machine_keys [-> _]%machine_keys Hp. unfold domain_apply. simpl.
  by rewrite (find_first_permutation _ _ _ _ Hnd Hp).
Qed.

Lemma transition_order_is_irrelevant_witness :
  domain_apply order_machine (order_state 1) (nth 1 order_events (mkDomainEvent "" "" "" 0 [] VNone None))
  = domain_apply (mkMachine "draft" (rev order_transitions) (Some order_verifier)) (order_state 1)
      (nth 1 order_events (mkDomainEvent "" "" "" 0 [] VNone None)).
Proof.
  apply (transition_order_is_irrelevant "draft" order_transitions (rev order_transitions)
           (Some order_verifier)); [vm_compute; reflexivity..|apply Permutation_rev].
Defined.

(** C35. An approved transition happens only on a matching approval: it leaves a
    receipt consumed that the verifier accepted, that no earlier transition of the
    entity consumed, that is bound by hash to exactly this entity, event and data,
    and whose validity interval [consumed_at, expires_at] the trusted event time
    does not leave. *)
Theorem approved_transition_needs_receipt m s e s' t :
  domain_apply m s e = Ok s' ->
  find_first (transition_matches (es_state s) (de_type e)) (dm_transitions m) = Some t ->
  dt_requires_approval t = true ->
  exists r, de_approval_receipt e = Some r /\ verified_receipt m r = true /\
    (rc_receipt_id r ∉ es_consumed_receipts s) /\
    es_consumed_receipts s' = (es_consumed_receipts s ++ [rc_receipt_id r])%list /\
    domain_action_hash (de_entity_id e) (de_type e) (de_data e)
      = Ok (ascii_casefold (rc_action_hash r)) /\
    exists time, finite_number (de_occurred_at e) = Ok (Some time) /\
      num_lt time (rc_consumed_at r) = false /\ num_lt (rc_expires_at r) time = false.
Proof.
  unfold domain_apply. intros H Ht Hreq. rewrite Ht, Hreq in H. res_inv H.
  match goal with E : rbind _ _ = Ok _ |- _ => res_inv E end.
  match goal with E : validated_approval_receipt _ _ _ = _ |- _ => pose proof E as Er end.
  destruct (receipt_Ok _ _ _ _ Er) as (Hr & Hnew & Hver & _ & _ & Hh & Htime).
  eexists. simpl. split_and!; done.
Qed.

(** A receipt is consumed at most once: along any accepted sequence of events
    from a fresh entity the consumed receipts are pairwise distinct, and the
    version counts the events. *)
Theorem receipts_are_single_use m entity events s0 s :
  domain_initial m entity = Ok s0 -> foldM (domain_apply m) s0 events = Ok s ->
  NoDup (es_consumed_receipts s) /\ es_version s = Z.of_nat (List.length events).
Proof.
  unfold domain_initial. intros H0 H. res_inv H0.
  assert (Hgen : forall s0, NoDup (es_consumed_receipts s0) ->
    foldM (domain_apply m) s0 events = Ok s ->
    NoDup (es_consumed_receipts s) /\
    es_version s = es_version s0 + Z.of_nat (List.length events)).
  { clear. induction events as [|e es IH]; intros s0 Hnd H; simpl in H.
    - simplify_eq. split; [done | simpl; lia].
    - destruct (domain_apply m s0 e) as [s1|] eqn:He; [|done]. simpl in H.
      apply domain_apply_Ok in He as (t & [_ [_ Hv] _ _ _ Hr]).
      apply IH in H as [Hnd' ->]; [split; [done | simpl List.length; lia]|].
      destruct (dt_requires_approval t); [|by rewrite Hr].
      destruct Hr as (r & (_ & Hnew & _)%receipt_Ok & ->).
      apply NoDup_app. split; [done|]. split; [|apply NoDup_singleton].
      intros x Hx ->%list_elem_of_singleton. done. }
  apply Hgen in H as [Hnd Hv]; [|constructor]. split; [done|]. by rewrite Hv.
Qed.

Lemma receipts_are_single_use_witness :
  NoDup (es_consumed_receipts (order_state 2)) /\ es_version (order_state 2) = 2.
Proof.
  apply (receipts_are_single_use order_machine "order-1" order_events
           (mkEntity "order-1" "draft" 0 None [])); vm_compute; reflexivity.
Defined.

(** Optimistic concurrency: of two events that expect the same version of the
    same entity, the second to arrive is refused as stale. *)
Theorem concurrent_event_is_stale m s e s' e' :
  domain_apply m s e = Ok s' -> de_entity_id e' = de_entity_id e ->
  de_expected_version e' = de_expected_version e ->
  domain_apply m s' e' = Err (DomainTransitionError "stale_version").
Proof.
  intros (t & [[He Hid] [Hv Hv'] _ _ _ _])%domain_apply_Ok Hent Hver.
  unfold domain_apply. rewrite Hent, He, Hid, String.eqb_refl, Hver, Hv, Hv'. simpl.
  destruct (Z.eqb_spec (es_version s) (es_version s + 1)); [lia | done].
Qed.

Lemma concurrent_event_is_stale_witness :
  domain_apply order_machine (order_state 1)
    (mkDomainEvent "order-1" "refund" "bank" 0 [] VNone None)
  = Err (DomainTransitionError "stale_version").
Proof.
  apply (concurrent_event_is_stale order_machine (order_state 0)
           (mkDomainEvent "order-1" "submit" "api" 0 [] VNone None));
    [vm_compute; reflexivity | reflexivity | reflexivity].
Defined.

Lemma approved_transition_needs_receipt_witness :
  exists r, Some refund_receipt = Some r /\ verified_receipt order_machine r = true /\
    (rc_receipt_id r ∉ es_consumed_receipts (order_state 1)) /\
    es_consumed_receipts (order_state 2)
      = (es_consumed_receipts (order_state 1) ++ [rc_receipt_id r])%list /\
    domain_action_hash "order-1" "refund" [("amount", VInt 5)]
      = Ok (ascii_casefold (rc_action_hash r)) /\
    exists time, finite_number (VInt 15) = Ok (Some time) /\
      num_lt time (rc_consumed_at r) = false /\ num_lt (rc_expires_at r) time = false.
Proof.
  apply (approved_transition_needs_receipt order_machine (order_state 1)
           (mkDomainEvent "order-1" "refund" "bank" 1 [("amount", VInt 5)] (VInt 15)
              (Some refund_receipt)) (order_state 2)
           (mkTransition "refund" {[ "submitted"; "paid" ]} "refunded" {[ "api"; "bank" ]} true));
    vm_compute; reflexivity.
Defined.
