(* ===== verification/OperationStore.v ===== *)
(** * Operation event store  (src/.../session/operation_store.py)

    [InMemoryOperationEventStore]: conditional appends of batches, globally
    unique facts, and fenced claims.  Its lock makes every method atomic, so a
    method is a function of the store.  Clock readings are arguments: [now] of
    the monotonic clock and [now_ms] of the wall clock, both counted in whole
    ticks, so the rounding of [now + lease_seconds] in floating point is not
    modelled. *)

From S2P Require Import Prelude PyDict Text PyVal Json JsonParse.
From S2P Require Import DurableAction Canonical OperationTypes.
From stdpp Require Import gmap.
From Stdlib Require Import String.

#[local] Open Scope string_scope.
#[local] Open Scope bool_scope.
#[local] Open Scope Z_scope.

(** ** Claims *)

Record ClaimLease := mkLease {
  cl_claim_type : string;
  cl_resource_id : string;
  cl_owner_token : string;
  cl_generation : Z
}.

(** [ClaimLease.__post_init__] *)
Definition claim_lease (claim_type resource_id owner_token : string) (generation : Z)
  : res ClaimLease :=
  if negb (nonempty claim_type && nonempty resource_id && nonempty owner_token)
  then Err ValueError else
  if generation <? 1 then Err ValueError else
  Ok (mkLease claim_type resource_id owner_token generation).

Definition fencing_token (lease : ClaimLease) : Z := cl_generation lease.

(** A row of [_claims]: owner, expiry and generation. *)
Record Claim := mkClaim {
  cm_owner : string;
  cm_expiry : Z;
  cm_generation : Z
}.

Record Store := mkStore {
  st_events : list OperationEvent;
  st_claims : gmap (string * string) Claim
}.

Definition empty_store : Store := mkStore [] ∅.

Definition lease_key (lease : ClaimLease) : string * string :=
  (cl_claim_type lease, cl_resource_id lease).

Definition set_claim (k : string * string) (c : Claim) (s : Store) : Store :=
  mkStore (st_events s) (<[k := c]> (st_claims s)).

(** [_validate_claim] *)
Definition validate_claim (claim_type resource_id owner_token : string) (lease_seconds : Z)
  : res unit :=
  if negb (nonempty claim_type && nonempty resource_id && nonempty owner_token)
  then Err ValueError else
  if lease_seconds <=? 0 then Err ValueError else Ok tt.

(** The row holds exactly this lease and has not expired. *)
Definition claim_current (c : option Claim) (lease : ClaimLease) (now : Z) : bool :=
  match c with
  | Some c => String.eqb (cm_owner c) (cl_owner_token lease)
              && (cm_generation c =? cl_generation lease) && (now <? cm_expiry c)
  | None => false
  end.

(** [acquire_fenced_claim] *)
Definition acquire_fenced_claim (s : Store) (now : Z) (claim_type resource_id owner_token : string)
    (lease_seconds : Z) : res (option ClaimLease * Store) :=
  check! validate_claim claim_type resource_id owner_token lease_seconds in
  let key := (claim_type, resource_id) in
  let grant generation :=
    let! lease := claim_lease claim_type resource_id owner_token generation in
    Ok (Some lease, set_claim key (mkClaim owner_token (now + lease_seconds) generation) s) in
  match st_claims s !! key with
  | Some c =>
      if now <? cm_expiry c then
        if negb (String.eqb (cm_owner c) owner_token) then Ok (None, s)
        else grant (cm_generation c)
      else grant (cm_generation c + 1)
  | None => grant 1
  end.

(** [try_acquire_claim] *)
Definition try_acquire_claim (s : Store) (now : Z) (claim_type resource_id owner_token : string)
    (lease_seconds : Z) : res (bool * Store) :=
  check! validate_claim claim_type resource_id owner_token lease_seconds in
  let key := (claim_type, resource_id) in
  match st_claims s !! key with
  | Some c =>
      if negb (String.eqb (cm_owner c) owner_token) && (now <? cm_expiry c) then Ok (false, s) else
      let generation := if String.eqb (cm_owner c) owner_token && (now <? cm_expiry c)
                        then cm_generation c else cm_generation c + 1 in
      Ok (true, set_claim key (mkClaim owner_token (now + lease_seconds) generation) s)
  | None => Ok (true, set_claim key (mkClaim owner_token (now + lease_seconds) 1) s)
  end.

(** [release_claim] *)
Definition release_claim (s : Store) (claim_type resource_id owner_token : string) : Store :=
  let key := (claim_type, resource_id) in
  match st_claims s !! key with
  | Some c => if String.eqb (cm_owner c) owner_token
              then set_claim key (mkClaim (cm_owner c) 0 (cm_generation c + 1)) s else s
  | None => s
  end.

(** [renew_fenced_claim] *)
Definition renew_fenced_claim (s : Store) (now : Z) (lease : ClaimLease) (lease_seconds : Z)
  : res (bool * Store) :=
  check! validate_claim (cl_claim_type lease) (cl_resource_id lease) (cl_owner_token lease)
           lease_seconds in
  let current := st_claims s !! lease_key lease in
  if negb (claim_current current lease now) then Ok (false, s) else
  Ok (true, set_claim (lease_key lease)
              (mkClaim (cl_owner_token lease) (now + lease_seconds) (cl_generation lease)) s).

(** [verify_fenced_claim] *)
Definition verify_fenced_claim (s : Store) (now : Z) (lease : ClaimLease) : bool :=
  claim_current (st_claims s !! lease_key lease) lease now.

(** [release_fenced_claim] *)
Definition release_fenced_claim (s : Store) (lease : ClaimLease) : Store :=
  match st_claims s !! lease_key lease with
  | Some c => if String.eqb (cm_owner c) (cl_owner_token lease)
                 && (cm_generation c =? cl_generation lease)
              then set_claim (lease_key lease) (mkClaim (cm_owner c) 0 (cm_generation c + 1)) s
              else s
  | None => s
  end.

(** ** Claim scopes *)

Definition FENCED_CLAIM_TYPES : list string :=
  ["operation_recovery"; "approval_resume"; "write_reconcile"; "plan_execution"].
Definition ENTITY_CLAIM_TYPES : list string :=
  ["approval_resume"; "write_reconcile"; "plan_execution"].

(** [not s] for an optional string *)
Definition missing (o : option string) : bool :=
  match o with Some s => negb (nonempty s) | None => true end.

Definition opt_text (o : option string) : pyval :=
  match o with Some s => VStr s | None => VNone end.

(** [fenced_claim_resource_id] *)
Definition fenced_claim_resource_id (claim_type session_id : string)
    (operation_id entity_id : option string) : res string :=
  if negb (mem_str claim_type FENCED_CLAIM_TYPES) then Err ValueError else
  if negb (nonempty session_id) then Err ValueError else
  if negb (String.eqb claim_type "plan_execution") && missing operation_id then Err ValueError else
  if mem_str claim_type ENTITY_CLAIM_TYPES && missing entity_id then Err ValueError else
  Ok (json_canonical (VDict [("claimType", VStr claim_type); ("entityId", opt_text entity_id);
                             ("operationId", opt_text operation_id);
                             ("sessionId", VStr session_id)])).

Definition claim_lost {A : Type} : res A := Err OperationStoreFencedClaimLostError.

(** [validate_fenced_claim_scope] *)
Definition validate_fenced_claim_scope (lease : ClaimLease) (session_id operation_id : string)
    (expected_entity_id : option string) : res unit :=
  if String.eqb (cl_claim_type lease) "conversation_session_writer" then
    if String.eqb (cl_resource_id lease) session_id then Ok tt else claim_lost
  else
  if negb (mem_str (cl_claim_type lease) FENCED_CLAIM_TYPES) then claim_lost else
  match json_loads (cl_resource_id lease) with
  | Err ValueError => claim_lost
  | Err e => Err e
  | Ok (VDict scope) =>
      if negb (is_str (jget scope "claimType") (cl_claim_type lease))
         || negb (is_str (jget scope "sessionId") session_id) then claim_lost else
      if negb (String.eqb (cl_claim_type lease) "plan_execution")
         && negb (is_str (jget scope "operationId") operation_id) then claim_lost else
      if mem_str (cl_claim_type lease) ENTITY_CLAIM_TYPES then
        match expected_entity_id with
        | Some expected =>
            if nonempty expected && is_str (jget scope "entityId") expected
            then Ok tt else claim_lost
        | None => claim_lost
        end
      else Ok tt
  | Ok _ => claim_lost
  end.

(** ** Appending *)

Definition EventSpec : Type := string * pydict.

(** [_validate_batch] *)
Definition validate_batch (events : list EventSpec) : res unit :=
  if bool_decide (events = []) then Err ValueError else
  if forallb (fun spec => nonempty (fst spec)) events then Ok tt else Err ValueError.

Definition in_operation (session_id operation_id : string) (e : OperationEvent) : bool :=
  String.eqb (oe_session_id e) session_id && String.eqb (oe_operation_id e) operation_id.

(** [_last_operation_sequence] *)
Definition last_operation_sequence (events : list OperationEvent)
    (session_id operation_id : string) : Z :=
  match find_first (in_operation session_id operation_id) (rev events) with
  | Some e => oe_sequence e
  | None => -1
  end.

(** [_check_expected] *)
Definition check_expected (current : Z) (expected : option Z) : res unit :=
  match expected with
  | Some n => if current =? n then Ok tt else Err OperationStoreConflictError
  | None => Ok tt
  end.

(** [_check_deadline] *)
Definition check_deadline (now_ms : Z) (deadline_ms : option Z) : res unit :=
  match deadline_ms with
  | Some d => if d <=? now_ms then Err OperationStoreDeadlineExceeded else Ok tt
  | None => Ok tt
  end.

Definition UNIQUE_FACTS : list (string * string) :=
  [("approval_requested", "approvalId"); ("write_prepared", "writeId");
   ("write_prepared", "idempotencyKeyHash")].

(** The texts under [key] of the events of type [ty]: [known] and [incoming]. *)
Fixpoint fact_values (ty key : string) (specs : list EventSpec) : res (list string) :=
  match specs with
  | [] => Ok []
  | (candidate, data) :: specs' =>
      if String.eqb candidate ty && negb (is_none (jget data key)) then
        let! v := py_str (jget data key) in
        let! vs := fact_values ty key specs' in
        Ok (v :: vs)
      else fact_values ty key specs'
  end.

Definition event_spec (e : OperationEvent) : EventSpec := (oe_type e, oe_data e).

Definition check_unique_fact (existing : list OperationEvent) (specs : list EventSpec)
    (constraint : string * string) : res unit :=
  let! known := fact_values (fst constraint) (snd constraint) (map event_spec existing) in
  let! incoming := fact_values (fst constraint) (snd constraint) specs in
  if negb (distinct incoming) || existsb (fun v => mem_str v known) incoming
  then Err OperationStoreConflictError else Ok tt.

(** [_check_unique_operation_facts] *)
Definition check_unique_operation_facts (existing : list OperationEvent)
    (specs : list EventSpec) : res unit :=
  foldM (fun _ c => check_unique_fact existing specs c) tt UNIQUE_FACTS.

(** One turn of the appending loop: the store's events and the batch's. *)
Definition append_one (session_id operation_id : string) (now_ms : Z)
    (acc : list OperationEvent * list OperationEvent) (spec : EventSpec)
  : res (list OperationEvent * list OperationEvent) :=
  let! e := operation_event (fst spec) session_id operation_id
              (Z.of_nat (List.length (fst acc))) now_ms (snd spec) in
  Ok (fst acc ++ [e], snd acc ++ [e])%list.

Definition append_events (events : list OperationEvent) (session_id operation_id : string)
    (specs : list EventSpec) (expected_last_sequence deadline_ms : option Z) (now_ms : Z)
  : res (list OperationEvent * list OperationEvent) :=
  let current := last_operation_sequence events session_id operation_id in
  check! check_expected current expected_last_sequence in
  check! check_deadline now_ms deadline_ms in
  check! check_unique_operation_facts events specs in
  foldM (append_one session_id operation_id now_ms) (events, []) specs.

(** [append_batch]: the appended events and the new store *)
Definition append_batch (s : Store) (session_id operation_id : string) (specs : list EventSpec)
    (expected_last_sequence deadline_ms : option Z) (now_ms : Z)
  : res (list OperationEvent * Store) :=
  check! validate_batch specs in
  let! r := append_events (st_events s) session_id operation_id specs expected_last_sequence
              deadline_ms now_ms in
  Ok (snd r, mkStore (fst r) (st_claims s)).

(** [append] *)
Definition store_append_event (s : Store) (ty session_id operation_id : string) (data : pydict)
    (now_ms : Z) : res (list OperationEvent * Store) :=
  append_batch s session_id operation_id [(ty, data)] None None now_ms.

(** [append_batch_if_fenced_claim] *)
Definition append_batch_if_fenced_claim (s : Store) (session_id operation_id : string)
    (specs : list EventSpec) (lease : ClaimLease) (renew_lease_seconds : Z)
    (expected_last_sequence deadline_ms : option Z) (expected_claim_entity_id : option string)
    (now now_ms : Z) : res (list OperationEvent * Store) :=
  check! validate_batch specs in
  check! validate_claim (cl_claim_type lease) (cl_resource_id lease) (cl_owner_token lease)
           renew_lease_seconds in
  check! validate_fenced_claim_scope lease session_id operation_id expected_claim_entity_id in
  if negb (claim_current (st_claims s !! lease_key lease) lease now) then claim_lost else
  let! r := append_events (st_events s) session_id operation_id specs expected_last_sequence
              deadline_ms now_ms in
  Ok (snd r, set_claim (lease_key lease)
               (mkClaim (cl_owner_token lease) (now + renew_lease_seconds) (cl_generation lease))
               (mkStore (fst r) (st_claims s))).

(** [load] *)
Definition store_load (s : Store) (session_id operation_id : option string)
  : list OperationEvent :=
  List.filter (fun e =>
    match session_id with Some i => String.eqb (oe_session_id e) i | None => true end
    && match operation_id with Some i => String.eqb (oe_operation_id e) i | None => true end)
    (st_events s).

(** [operation_last_sequence] *)
Definition operation_last_sequence (events : list OperationEvent) : Z :=
  match last events with Some e => oe_sequence e | None => -1 end.

(** ** One call of the store's interface *)

Inductive store_call :=
| CallAcquire (claim_type resource_id owner_token : string) (lease_seconds : Z)
| CallTryAcquire (claim_type resource_id owner_token : string) (lease_seconds : Z)
| CallRelease (claim_type resource_id owner_token : string)
| CallRenew (lease : ClaimLease) (lease_seconds : Z)
| CallReleaseFenced (lease : ClaimLease)
| CallAppend (session_id operation_id : string) (specs : list EventSpec)
    (expected deadline : option Z)
| CallAppendFenced (session_id operation_id : string) (specs : list EventSpec)
    (lease : ClaimLease) (renew : Z) (expected deadline : option Z) (entity : option string).

Definition store_after {A : Type} (s : Store) (r : res (A * Store)) : Store :=
  match r with Ok (_, s') => s' | Err _ => s end.

(** The store after a call at the clock readings [now] and [now_ms]; a call that
    raises leaves it unchanged. *)
Definition run_store_call (s : Store) (now now_ms : Z) (c : store_call) : Store :=
  match c with
  | CallAcquire ct r o secs => store_after s (acquire_fenced_claim s now ct r o secs)
  | CallTryAcquire ct r o secs => store_after s (try_acquire_claim s now ct r o secs)
  | CallRelease ct r o => release_claim s ct r o
  | CallRenew l secs => store_after s (renew_fenced_claim s now l secs)
  | CallReleaseFenced l => release_fenced_claim s l
  | CallAppend sid oid specs e d => store_after s (append_batch s sid oid specs e d now_ms)
  | CallAppendFenced sid oid specs l renew e d entity =>
      store_after s (append_batch_if_fenced_claim s sid oid specs l renew e d entity now now_ms)
  end.

Definition run_store_calls (s : Store) (calls : list (Z * Z * store_call)) : Store :=
  fold_left (fun s '(now, now_ms, c) => run_store_call s now now_ms c) calls s.

(** Every call is made at time [t] or later, and time does not run backwards. *)
Fixpoint calls_from (t : Z) (calls : list (Z * Z * store_call)) : Prop :=
  match calls with
  | [] => True
  | (now, _, _) :: calls' => t <= now /\ calls_from now calls'
  end.

Fixpoint final_time (t : Z) (calls : list (Z * Z * store_call)) : Z :=
  match calls with
  | [] => t
  | (now, _, _) :: calls' => final_time now calls'
  end.

(** ** Claims only move forward *)

(** How one call may change a claim row. *)
Inductive claim_edge (now : Z) : option Claim -> Claim -> Prop :=
| ce_first owner expiry : claim_edge now None (mkClaim owner expiry 1)
| ce_extend c expiry :
    now < cm_expiry c -> claim_edge now (Some c) (mkClaim (cm_owner c) expiry (cm_generation c))
| ce_next c owner expiry :
    claim_edge now (Some c) (mkClaim owner expiry (cm_generation c + 1)).

Definition claims_step (now : Z) (s s' : Store) : Prop :=
  st_claims s' = st_claims s \/
  exists k c, st_claims s' = <[k := c]> (st_claims s) /\ claim_edge now (st_claims s !! k) c.

Lemma claim_current_Some o lease now :
  claim_current o lease now = true ->
  exists c, o = Some c /\ cm_owner c = cl_owner_token lease /\
            cm_generation c = cl_generation lease /\ now < cm_expiry c.
Proof.
  destruct o as [c|]; [|done]. simpl.
  intros [[Ho%String.eqb_eq Hg%Z.eqb_eq]%andb_true_iff He%Z.ltb_lt]%andb_true_iff. by exists c.
Qed.

Lemma extend_edge now o lease expiry :
  claim_current o lease now = true ->
  claim_edge now o (mkClaim (cl_owner_token lease) expiry (cl_generation lease)).
Proof. intros (c & -> & <- & <- & He)%claim_current_Some. by constructor. Qed.

Lemma acquire_edge s now ct r o secs lease s' :
  acquire_fenced_claim s now ct r o secs = Ok (Some lease, s') ->
  exists c, s' = set_claim (ct, r) c s /\ claim_edge now (st_claims s !! (ct, r)) c /\
            lease = mkLease ct r o (cm_generation c) /\ cm_owner c = o /\
            cm_expiry c = now + secs /\ 0 < secs /\
            (forall old, st_claims s !! (ct, r) = Some old -> cm_owner old <> o ->
               cm_expiry old <= now).
Proof.
  unfold acquire_fenced_claim. intros H. res_inv H.
  all: match goal with E : validate_claim _ _ _ _ = _ |- _ =>
         unfold validate_claim in E; res_inv E end.
  all: match goal with E : claim_lease _ _ _ _ = _ |- _ => unfold claim_lease in E; res_inv E end.
  all: repeat match goal with
       | E : negb _ = false |- _ => apply negb_false_iff in E
       | E : String.eqb _ _ = true |- _ => apply String.eqb_eq in E
       | E : (_ <? _) = true |- _ => apply Z.ltb_lt in E
       end; subst.
  all: eexists; split; [done|]; split; [constructor; done|]; split_and!; try done; try lia.
  all: intros old Hold Hne; simplify_eq; by apply Z.ltb_ge.
Qed.

Lemma try_acquire_edge s now ct r o secs b s' :
  try_acquire_claim s now ct r o secs = Ok (b, s') -> claims_step now s s'.
Proof.
  unfold try_acquire_claim. intros H. res_inv H; [by left| |]; right; simpl.
  - eexists _, _. split; [done|]. rewrite E0.
    destruct (String.eqb_spec (cm_owner c) o) as [<-|]; simpl; [|constructor].
    destruct (Z.ltb_spec now (cm_expiry c)); by constructor.
  - eexists _, _. split; [done|]. rewrite E0. constructor.
Qed.

Lemma append_batch_claims s sid oid specs e d now_ms es s' :
  append_batch s sid oid specs e d now_ms = Ok (es, s') -> st_claims s' = st_claims s.
Proof. unfold append_batch. intros H. by res_inv H. Qed.

Lemma append_fenced_claims s sid oid specs lease renew e d entity now now_ms es s' :
  append_batch_if_fenced_claim s sid oid specs lease renew e d entity now now_ms = Ok (es, s') ->
  verify_fenced_claim s now lease = true /\
  st_claims s' = <[lease_key lease := mkClaim (cl_owner_token lease) (now + renew)
                                        (cl_generation lease)]> (st_claims s).
Proof.
  unfold append_batch_if_fenced_claim. intros H. res_inv H. split; [|done].
  by apply negb_false_iff in E2.
Qed.

Lemma run_call_claims s now now_ms c : claims_step now s (run_store_call s now now_ms c).
Proof.
  destruct c as [ct r o secs|ct r o secs|ct r o|l secs|l|sid oid specs e d
    |sid oid specs l renew e d entity]; simpl.
  - destruct (acquire_fenced_claim _ _ _ _ _ _) as [[[lease|] s']|] eqn:H; simpl; [|left..].
    + apply acquire_edge in H as (c & -> & He & _). right. by eexists _, _.
    + unfold acquire_fenced_claim in H. by res_inv H.
    + done.
  - destruct (try_acquire_claim _ _ _ _ _ _) as [[b s']|] eqn:H; simpl; [|by left].
    by eapply try_acquire_edge.
  - unfold release_claim. destruct (st_claims s !! (ct, r)) as [c|] eqn:E; [|by left].
    destruct (String.eqb _ _); [|by left]. right. eexists _, _. split; [done|]. rewrite E. constructor.
  - unfold renew_fenced_claim. destruct (validate_claim _ _ _ _); simpl; [|by left].
    destruct (claim_current _ l now) eqn:Hc; simpl; [|by left].
    right. eexists _, _. split; [done|]. by apply extend_edge.
  - unfold release_fenced_claim. destruct (st_claims s !! lease_key l) as [c|] eqn:E; [|by left].
    destruct (_ && _); [|by left]. right. eexists _, _. split; [done|]. rewrite E. constructor.
  - destruct (append_batch _ _ _ _ _ _ _) as [[es s']|] eqn:H; simpl; [|by left].
    left. by eapply append_batch_claims.
  - destruct (append_batch_if_fenced_claim _ _ _ _ _ _ _ _ _ _ _) as [[es s']|] eqn:H;
      simpl; [|by left].
    apply append_fenced_claims in H as [Hv Hs]. right. eexists _, _. split; [exact Hs|].
    by apply extend_edge.
Qed.

(** The lease was issued: its generation is not in the future, and the current
    generation has one owner. *)
Definition issued (s : Store) (lease : ClaimLease) : Prop :=
  exists c, st_claims s !! lease_key lease = Some c /\
    (cl_generation lease < cm_generation c \/
     cl_generation lease = cm_generation c /\ cl_owner_token lease = cm_owner c).

(** The lease can no longer be used at time [t]. *)
Definition lost (s : Store) (t : Z) (lease : ClaimLease) : Prop :=
  exists c, st_claims s !! lease_key lease = Some c /\
    (cl_generation lease < cm_generation c \/
     cl_generation lease = cm_generation c /\ cm_expiry c <= t).

Lemma issued_not_current s t lease :
  issued s lease -> verify_fenced_claim s t lease = false -> lost s t lease.
Proof.
  intros (c & Hc & Hg) Hv. exists c. split; [done|]. unfold verify_fenced_claim in Hv.
  rewrite Hc in Hv. simpl in Hv.
  destruct Hg as [Hg|[Hg Ho]]; [by left|right]. split; [done|].
  rewrite Hg, Ho, String.eqb_refl, Z.eqb_refl in Hv. by apply Z.ltb_ge in Hv.
Qed.

Lemma lost_not_current s t now lease :
  lost s t lease -> t <= now -> verify_fenced_claim s now lease = false.
Proof.
  intros (c & Hc & Hl) Hle. unfold verify_fenced_claim.
  destruct (claim_current _ lease now) eqn:Hv; [|done].
  apply claim_current_Some in Hv as (c' & Hc' & Ho & Hg & He). rewrite Hc in Hc'. simplify_eq.
  exfalso. destruct Hl as [?|[??]]; lia.
Qed.

Lemma issued_stays s now now_ms call lease :
  issued s lease -> issued (run_store_call s now now_ms call) lease.
Proof.
  intros (c & Hc & Hg). destruct (run_call_claims s now now_ms call) as [Hs|(k & c' & Hs & He)];
    unfold issued; rewrite Hs; [by exists c|].
  destruct (decide (k = lease_key lease)) as [->|Hne].
  - rewrite lookup_insert_eq. exists c'. split; [done|]. rewrite Hc in He.
    inversion He; subst; simpl; [done|]. left. destruct Hg as [?|[? _]]; lia.
  - rewrite lookup_insert_ne by done. by exists c.
Qed.

(** A lost lease stays lost, whatever is called at a later time. *)
Lemma lost_stays s t now now_ms call lease :
  lost s t lease -> t <= now -> lost (run_store_call s now now_ms call) now lease.
Proof.
  intros (c & Hc & Hl) Hle. destruct (run_call_claims s now now_ms call) as [Hs|(k & c' & Hs & He)];
    unfold lost; rewrite Hs.
  { exists c. split; [done|]. destruct Hl as [?|[??]]; [by left|right; auto with lia]. }
  destruct (decide (k = lease_key lease)) as [->|Hne].
  - rewrite lookup_insert_eq. exists c'. split; [done|]. rewrite Hc in He.
    inversion He as [|c0 expiry Hexp|c0 owner expiry]; subst; simpl.
    + destruct Hl as [?|[??]]; [by left|lia].
    + left. destruct Hl as [?|[? _]]; lia.
  - rewrite lookup_insert_ne by done. exists c. split; [done|].
    destruct Hl as [?|[??]]; [by left|right; auto with lia].
Qed.

Lemma lost_forever s t calls lease :
  lost s t lease -> calls_from t calls ->
  lost (run_store_calls s calls) (final_time t calls) lease.
Proof.
  revert s t. induction calls as [|[[now now_ms] c] calls IH]; intros s t Hl Ht; [done|].
  destruct Ht as [Hle Hcalls]. apply IH; [|done]. by apply (lost_stays _ t).
Qed.

Lemma issued_forever s calls lease : issued s lease -> issued (run_store_calls s calls) lease.
Proof.
  revert s. induction calls as [|[[now now_ms] c] calls IH]; intros s Hi; [done|].
  by apply IH, issued_stays.
Qed.

Lemma acquire_issued s now ct r o secs lease s' :
  acquire_fenced_claim s now ct r o secs = Ok (Some lease, s') ->
  issued s' lease /\ verify_fenced_claim s' now lease = true.
Proof.
  intros (c & -> & _ & -> & Ho & He & Hs & _)%acquire_edge.
  unfold issued, verify_fenced_claim. simpl. unfold lease_key. simpl.
  rewrite lookup_insert_eq. split; [exists c; auto|]. simpl.
  rewrite Ho, String.eqb_refl, Z.eqb_refl. simpl. apply Z.ltb_lt. lia.
Qed.

(** ** Appending *)

(** The events of a batch, numbered from [n]. *)
Definition numbered (session_id operation_id : string) (now_ms : Z) (n : nat)
    (specs : list EventSpec) : list OperationEvent :=
  imap (fun i spec => mkOperationEvent (fst spec) session_id operation_id (Z.of_nat (n + i))
                        now_ms (snd spec)) specs.

Lemma numbered_app sid oid now_ms k specs specs' :
  numbered sid oid now_ms k (specs ++ specs')
  = (numbered sid oid now_ms k specs
     ++ numbered sid oid now_ms (k + List.length specs) specs')%list.
Proof.
  unfold numbered. rewrite imap_app. f_equal. apply imap_ext. intros i x _. simpl.
  by rewrite Nat.add_assoc.
Qed.

Lemma append_loop_exact sid oid now_ms specs : forall events acc events' acc',
  foldM (append_one sid oid now_ms) (events, acc) specs = Ok (events', acc') ->
  let new := numbered sid oid now_ms (List.length events) specs in
  events' = (events ++ new)%list /\ acc' = (acc ++ new)%list.
Proof.
  induction specs as [|[ty d] specs IH]; intros events acc events' acc' H; cbn in H.
  { simplify_eq. unfold numbered. simpl. by rewrite !app_nil_r. }
  unfold append_one at 1, operation_event in H. cbn in H.
  destruct (negb _); [done|]. destruct (_ <? 0); [done|]. cbn in H.
  apply IH in H as [-> ->]. unfold numbered. simpl.
  rewrite <- !app_assoc, length_app, Nat.add_0_r. simpl. split; do 2 f_equal.
  all: apply imap_ext; intros i x _; simpl; do 2 f_equal; lia.
Qed.

Lemma append_loop_total sid oid now_ms specs : forall acc,
  nonempty sid = true -> nonempty oid = true ->
  forallb (fun spec => nonempty (fst spec)) specs = true ->
  is_ok (foldM (append_one sid oid now_ms) acc specs) = true.
Proof.
  induction specs as [|[ty d] specs IH]; intros acc Hs Ho Ht; [done|].
  simpl in Ht. apply andb_true_iff in Ht as [Hty Ht].
  simpl. unfold append_one at 1, operation_event. simpl. rewrite Hty, Hs, Ho. simpl.
  rewrite (proj2 (Z.ltb_ge _ _)) by lia. simpl. by apply IH.
Qed.

Lemma append_events_exact events sid oid specs expected deadline now_ms events' new :
  append_events events sid oid specs expected deadline now_ms = Ok (events', new) ->
  check_expected (last_operation_sequence events sid oid) expected = Ok tt /\
  check_deadline now_ms deadline = Ok tt /\
  check_unique_operation_facts events specs = Ok tt /\
  new = numbered sid oid now_ms (List.length events) specs /\ events' = (events ++ new)%list.
Proof.
  unfold append_events. intros H.
  destruct (check_expected _ _) as [[]|] eqn:H1; [|done]. cbn [rbind] in H.
  destruct (check_deadline _ _) as [[]|] eqn:H2; [|done]. cbn [rbind] in H.
  destruct (check_unique_operation_facts _ _) as [[]|] eqn:H3; [|done]. cbn [rbind] in H.
  apply append_loop_exact in H as [-> ->]. done.
Qed.

Lemma fenced_append_exact s sid oid specs lease renew e d entity now now_ms new s' :
  append_batch_if_fenced_claim s sid oid specs lease renew e d entity now now_ms = Ok (new, s') ->
  append_events (st_events s) sid oid specs e d now_ms = Ok (st_events s', new).
Proof.
  unfold append_batch_if_fenced_claim. intros H. res_inv H.
  by match goal with p : _ * _ |- _ => destruct p end.
Qed.

Lemma append_batch_exact s sid oid specs e d now_ms new s' :
  append_batch s sid oid specs e d now_ms = Ok (new, s') ->
  append_events (st_events s) sid oid specs e d now_ms = Ok (st_events s', new).
Proof.
  unfold append_batch. intros H. res_inv H.
  by match goal with p : _ * _ |- _ => destruct p end.
Qed.

(** A call leaves the log alone or appends one checked batch to it. *)
Lemma run_call_events s now now_ms c :
  st_events (run_store_call s now now_ms c) = st_events s \/
  exists sid oid specs e d new,
    append_events (st_events s) sid oid specs e d now_ms
    = Ok (st_events (run_store_call s now now_ms c), new).
Proof.
  destruct c as [ct r o secs|ct r o secs|ct r o|l secs|l|sid oid specs e d
    |sid oid specs l renew e d entity]; simpl.
  - left. destruct (acquire_fenced_claim _ _ _ _ _ _) as [[lease s']|] eqn:H; simpl; [|done].
    unfold acquire_fenced_claim in H. by res_inv H.
  - left. destruct (try_acquire_claim _ _ _ _ _ _) as [[b s']|] eqn:H; simpl; [|done].
    unfold try_acquire_claim in H. by res_inv H.
  - left. unfold release_claim. destruct (st_claims s !! _); [|done]. by destruct (String.eqb _ _).
  - left. unfold renew_fenced_claim. destruct (validate_claim _ _ _ _); [|done]. simpl.
    by destruct (negb _).
  - left. unfold release_fenced_claim. destruct (st_claims s !! _); [|done]. by destruct (_ && _).
  - destruct (append_batch _ _ _ _ _ _ _) as [[new s']|] eqn:H; simpl; [right|by left].
    eexists _, _, _, _, _, _. by eapply append_batch_exact.
  - destruct (append_batch_if_fenced_claim _ _ _ _ _ _ _ _ _ _ _) as [[new s']|] eqn:H;
      simpl; [right|by left].
    eexists _, _, _, _, _, _. by eapply fenced_append_exact.
Qed.

Lemma run_calls_invariant (P : list OperationEvent -> Prop) :
  (forall events sid oid specs e d now_ms events' new,
     P events -> append_events events sid oid specs e d now_ms = Ok (events', new) -> P events') ->
  forall calls s, P (st_events s) -> P (st_events (run_store_calls s calls)).
Proof.
  intros Hstep calls. induction calls as [|[[now now_ms] c] calls IH]; intros s Hs; [done|].
  apply IH. destruct (run_call_events s now now_ms c) as [->|(?&?&?&?&?&?&H)]; [done|].
  by eapply Hstep.
Qed.

(** Every event's sequence number is its position in the log. *)
Definition positional (events : list OperationEvent) : Prop :=
  forall i e, events !! i = Some e -> oe_sequence e = Z.of_nat i.

Lemma numbered_lookup sid oid now_ms n specs i e :
  numbered sid oid now_ms n specs !! i = Some e ->
  oe_sequence e = Z.of_nat (n + i) /\ oe_session_id e = sid /\ oe_operation_id e = oid.
Proof.
  unfold numbered. rewrite list_lookup_imap. by intros (spec & _ & ->)%fmap_Some.
Qed.

Lemma positional_append events sid oid now_ms specs :
  positional events -> positional (events ++ numbered sid oid now_ms (List.length events) specs).
Proof.
  intros Hp i e [H|[Hle H]]%lookup_app_Some; [by apply Hp|].
  apply numbered_lookup in H as [-> _]. f_equal. lia.
Qed.

Lemma positional_calls calls s :
  positional (st_events s) -> positional (st_events (run_store_calls s calls)).
Proof.
  apply run_calls_invariant. intros events sid oid specs e d now_ms events' new Hp H.
  apply append_events_exact in H as (_ & _ & _ & -> & ->). by apply positional_append.
Qed.

(** The log is append-only. *)
Lemma run_calls_prefix calls : forall s,
  exists more, st_events (run_store_calls s calls) = (st_events s ++ more)%list.
Proof.
  induction calls as [|[[now now_ms] c] calls IH]; intros s; [exists []; by rewrite app_nil_r|].
  change (run_store_calls s ((now, now_ms, c) :: calls))
    with (run_store_calls (run_store_call s now now_ms c) calls).
  destruct (IH (run_store_call s now now_ms c)) as [more Hm]. rewrite Hm.
  destruct (run_call_events s now now_ms c) as [->|(?&?&?&?&?&?&H)]; [by exists more|].
  apply append_events_exact in H as (_ & _ & _ & _ & ->). rewrite <- app_assoc. by eexists.
Qed.

Lemma find_first_app {A : Type} (p : A -> bool) l1 l2 :
  find_first p (l1 ++ l2) = match find_first p l1 with Some x => Some x | None => find_first p l2 end.
Proof. induction l1 as [|x l1 IH]; simpl; [done|]. by destruct (p x). Qed.

(** Appending an event of the operation makes its version at least that event's. *)
Lemma last_sequence_ge events sid oid e :
  positional events -> e ∈ events -> in_operation sid oid e = true ->
  oe_sequence e <= last_operation_sequence events sid oid.
Proof.
  induction events as [|x events IH] using rev_ind; intros Hp He Hin.
  { by apply elem_of_nil in He. }
  unfold last_operation_sequence. rewrite rev_app_distr. simpl.
  assert (Hp' : positional events).
  { intros i y Hy. apply Hp. by apply lookup_app_l_Some. }
  destruct (in_operation sid oid x) eqn:Hx.
  - apply list_elem_of_lookup in He as [i Hi].
    rewrite (Hp i e Hi). rewrite (Hp (List.length events) x) by by rewrite list_lookup_middle.
    apply lookup_lt_Some in Hi. rewrite length_app in Hi. simpl in Hi. lia.
  - apply elem_of_app in He as [He| ->%list_elem_of_singleton]; [by apply IH|].
    by rewrite Hin in Hx.
Qed.

Lemma last_sequence_lt events sid oid :
  positional events -> last_operation_sequence events sid oid < Z.of_nat (List.length events).
Proof.
  intros Hp. unfold last_operation_sequence.
  destruct (find_first _ _) as [e|] eqn:H; [|lia].
  apply find_first_Some in H as [He _]. apply list_elem_of_In, in_rev, list_elem_of_In in He.
  apply list_elem_of_lookup in He as [i Hi]. rewrite (Hp _ _ Hi).
  apply lookup_lt_Some in Hi. lia.
Qed.

(** ** Globally unique facts *)

Lemma fact_values_app ty key l1 l2 :
  fact_values ty key (l1 ++ l2) =
  let! v1 := fact_values ty key l1 in
  let! v2 := fact_values ty key l2 in Ok (v1 ++ v2)%list.
Proof.
  induction l1 as [|[cand data] l1 IH]; simpl; [by destruct (fact_values ty key l2)|].
  destruct (_ && _); [|by rewrite IH].
  destruct (py_str _); simpl; [|done]. rewrite IH.
  destruct (fact_values ty key l1); simpl; [|done]. by destruct (fact_values ty key l2).
Qed.

(** The facts of every unique kind are pairwise distinct over the whole log. *)
Definition facts_unique (events : list OperationEvent) : Prop :=
  Forall (fun c => exists vs, fact_values (fst c) (snd c) (map event_spec events) = Ok vs
                              /\ NoDup vs) UNIQUE_FACTS.

Lemma check_unique_fact_spec existing specs c :
  check_unique_fact existing specs c = Ok tt ->
  exists known incoming,
    fact_values (fst c) (snd c) (map event_spec existing) = Ok known /\
    fact_values (fst c) (snd c) specs = Ok incoming /\
    NoDup incoming /\ (forall v, v ∈ incoming -> v ∉ known).
Proof.
  unfold check_unique_fact. intros H.
  destruct (fact_values _ _ (map event_spec existing)) as [known|]; [|done]. cbn [rbind] in H.
  destruct (fact_values _ _ specs) as [incoming|]; [|done]. cbn [rbind] in H.
  destruct (distinct incoming) eqn:Hd; [|done]. cbn [negb orb] in H.
  destruct (existsb _ _) eqn:He; [done|].
  exists known, incoming. split_and!; [done..|by apply distinct_spec|].
  intros v Hv. rewrite existsb_elem in He. by apply mem_str_false, He.
Qed.

Lemma check_unique_all existing specs :
  check_unique_operation_facts existing specs = Ok tt ->
  Forall (fun c => check_unique_fact existing specs c = Ok tt) UNIQUE_FACTS.
Proof.
  unfold check_unique_operation_facts. generalize UNIQUE_FACTS.
  induction l as [|c l IH]; [constructor|]. simpl.
  destruct (check_unique_fact existing specs c) as [[]|] eqn:Hc; [|done]. simpl. auto.
Qed.

Lemma numbered_specs sid oid now_ms n specs :
  map event_spec (numbered sid oid now_ms n specs) = specs.
Proof.
  unfold numbered. revert n. induction specs as [|[ty d] specs IH]; intros n; [done|].
  simpl. f_equal. rewrite <- (IH (S n)) at 2. f_equal. apply imap_ext. intros i x _. simpl.
  f_equal. lia.
Qed.

Lemma facts_unique_append events sid oid specs e d now_ms events' new :
  facts_unique events ->
  append_events events sid oid specs e d now_ms = Ok (events', new) -> facts_unique events'.
Proof.
  intros Hu (_ & _ & Hc%check_unique_all & -> & ->)%append_events_exact.
  unfold facts_unique in *. rewrite Forall_forall in *. intros c Hin.
  destruct (Hu c Hin) as (vs & Hvs & Hnd).
  destruct (check_unique_fact_spec _ _ _ (Hc c Hin)) as (known & incoming & Hk & Hi & Hndi & Hdis).
  rewrite Hvs in Hk. simplify_eq.
  exists (known ++ incoming)%list. rewrite map_app, fact_values_app, Hvs. cbn [rbind].
  rewrite numbered_specs, Hi. split; [done|].
  apply NoDup_app. split; [done|]. split; [|done]. intros v Hv Hv'. by apply (Hdis v).
Qed.

Lemma facts_unique_empty : facts_unique [].
Proof. apply Forall_forall. intros c _. exists []. split; [done|]. apply NoDup_nil_2. Qed.

Lemma validate_batch_spec specs :
  validate_batch specs = Ok tt ->
  specs <> [] /\ forallb (fun spec => nonempty (fst spec)) specs = true.
Proof.
  unfold validate_batch. case_bool_decide; [done|]. by destruct (forallb _ _).
Qed.

Lemma append_events_ids events sid oid specs e d now_ms r :
  specs <> [] -> append_events events sid oid specs e d now_ms = Ok r -> sid <> "" /\ oid <> "".
Proof.
  intros Hne H. unfold append_events in H.
  destruct (check_expected _ _); [|done]. destruct (check_deadline _ _); [|done].
  destruct (check_unique_operation_facts _ _); [|done]. cbn [rbind] in H.
  destruct specs as [|[ty data] specs]; [done|]. cbn [foldM] in H.
  unfold append_one at 1, operation_event in H. cbn in H.
  destruct (nonempty ty && nonempty sid && nonempty oid) eqn:Hn; [|done].
  apply andb_true_iff in Hn as [[_ Hs]%andb_true_iff Ho]. split; by apply nonempty_spec.
Qed.

(** ** Properties *)

(** Whatever sequence of calls the store has answered, an [approvalId] is
    requested at most once and a [writeId] and an [idempotencyKeyHash] are
    prepared at most once over all sessions and operations, and every event's
    sequence number is its position in the log. *)
Theorem operation_facts_are_globally_unique calls :
  let events := st_events (run_store_calls empty_store calls) in
  facts_unique events /\ positional events.
Proof.
  split; [|by apply positional_calls].
  apply run_calls_invariant; [|apply facts_unique_empty]. intros *. apply facts_unique_append.
Qed.

(** A batch is appended exactly when it is well formed, the operation's
    version is the expected one, the deadline is ahead and no unique fact is
    repeated; then the new events are the given ones, in order, numbered from
    the length of the log, and nothing else changes. *)
Theorem append_batch_iff s session_id operation_id specs expected deadline now_ms new s' :
  append_batch s session_id operation_id specs expected deadline now_ms = Ok (new, s') <->
  validate_batch specs = Ok tt /\ session_id <> "" /\ operation_id <> "" /\
  (forall n, expected = Some n ->
     last_operation_sequence (st_events s) session_id operation_id = n) /\
  (forall d, deadline = Some d -> now_ms < d) /\
  check_unique_operation_facts (st_events s) specs = Ok tt /\
  new = numbered session_id operation_id now_ms (List.length (st_events s)) specs /\
  s' = mkStore (st_events s ++ new) (st_claims s).
Proof.
  assert (Hexp : forall cur, check_expected cur expected = Ok tt
                             <-> (forall n, expected = Some n -> cur = n)).
  { intros cur. destruct expected as [n|]; simpl; [|naive_solver].
    destruct (Z.eqb_spec cur n); naive_solver. }
  assert (Hdl : check_deadline now_ms deadline = Ok tt
                <-> (forall d, deadline = Some d -> now_ms < d)).
  { destruct deadline as [d|]; simpl; [|naive_solver].
    destruct (Z.leb_spec d now_ms) as [Hd|Hd]; split; try naive_solver.
    intros H. specialize (H d eq_refl). lia. }
  rewrite <- Hexp, <- Hdl. unfold append_batch.
  split.
  - intros H. destruct (validate_batch specs) as [[]|] eqn:Hv; [|done]. cbn [rbind] in H.
    destruct (append_events _ _ _ _ _ _ _) as [[events' new']|] eqn:Ha; [|done].
    cbn in H. simplify_eq. split; [done|].
    assert (Hids : session_id <> "" /\ operation_id <> "").
    { eapply append_events_ids; [|done]. by apply validate_batch_spec. }
    apply append_events_exact in Ha as (? & ? & ? & ? & ->).
    destruct Hids. done.
  - intros (Hv & Hs & Ho & He & Hd & Hu & -> & ->). rewrite Hv. cbn [rbind].
    unfold append_events. rewrite He, Hd, Hu. cbn [rbind].
    destruct (foldM _ _ _) as [[events' new']|] eqn:Hf.
    + apply append_loop_exact in Hf as [-> ->]. done.
    + exfalso. pose proof (append_loop_total session_id operation_id now_ms specs (st_events s, [])
        (proj2 (nonempty_spec _) Hs) (proj2 (nonempty_spec _) Ho) (proj2 (validate_batch_spec _ Hv))) as H.
      by rewrite Hf in H.
Qed.

Lemma numbered_first sid oid now_ms n specs :
  specs <> [] ->
  exists e, e ∈ numbered sid oid now_ms n specs /\ oe_sequence e = Z.of_nat n /\
            in_operation sid oid e = true.
Proof.
  destruct specs as [|[ty d] specs]; [done|]. intros _. unfold numbered. cbn [imap].
  eexists. split; [left|]. unfold in_operation. simpl. rewrite !String.eqb_refl.
  split; [f_equal; lia|done].
Qed.


(** Two writers that both expect the same operation version never both
    append: once one of them has, the other's batch is refused with a conflict,
    whatever happened in between. *)
Theorem second_writer_conflicts calls0 s session_id operation_id specs1 specs2 n deadline1 deadline2
    now1 now2 new s1 calls :
  s = run_store_calls empty_store calls0 ->
  append_batch s session_id operation_id specs1 (Some n) deadline1 now1 = Ok (new, s1) ->
  validate_batch specs2 = Ok tt ->
  append_batch (run_store_calls s1 calls) session_id operation_id specs2 (Some n) deadline2 now2
  = Err OperationStoreConflictError.
Proof.
  intros Hs Ha Hv. pose proof Ha as Hiff.
  apply append_batch_iff in Hiff as (Hv1 & _ & _ & Hn & _ & _ & Hnew & Hs1).
  assert (Hp : positional (st_events s)) by (subst s; by apply positional_calls).
  assert (Hp1 : positional (st_events s1)).
  { rewrite Hs1, Hnew. by apply positional_append. }
  destruct (run_calls_prefix calls s1) as [more Hmore].
  destruct (numbered_first session_id operation_id now1 (List.length (st_events s)) specs1)
    as (e & He & Hseq & Hin); [by apply validate_batch_spec|].
  assert (Hlt : n < last_operation_sequence (st_events (run_store_calls s1 calls))
                      session_id operation_id).
  { rewrite <- (Hn n eq_refl). eapply Z.lt_le_trans; [by apply last_sequence_lt|].
    rewrite <- Hseq. apply last_sequence_ge; [by apply positional_calls| |done].
    rewrite Hmore, Hs1. simpl. rewrite Hnew. by apply elem_of_app; left; apply elem_of_app; right. }
  unfold append_batch. rewrite Hv. cbn [rbind]. unfold append_events, check_expected.
  destruct (Z.eqb_spec (last_operation_sequence (st_events (run_store_calls s1 calls))
                          session_id operation_id) n); [lia|done].
Qed.

Definition requested (id : string) : EventSpec := ("approval_requested", [("approvalId", VStr id)]).

Lemma second_writer_conflicts_witness :
  exists new s1,
    append_batch empty_store "s" "o" [requested "a"] (Some (-1)) None 5 = Ok (new, s1) /\
    append_batch (run_store_calls s1 [(7, 7, CallAppend "s" "other" [requested "b"] None None)])
      "s" "o" [requested "c"] (Some (-1)) None 9 = Err OperationStoreConflictError.
Proof.
  do 2 eexists. split; [vm_compute; reflexivity|].
  refine (second_writer_conflicts [] empty_store "s" "o" [requested "a"] [requested "c"] (-1) None
            None 5 9 _ _ [(7, 7, CallAppend "s" "other" [requested "b"] None None)] _ _ _);
    [reflexivity | vm_compute; reflexivity | reflexivity].
Defined.

(** C32. A lease that was granted and has stopped being current never becomes
    current again, whatever is called on the store, and no batch can be
    appended under it any more. *)
Theorem lost_lease_never_writes s0 t0 claim_type resource_id owner secs lease s1 calls t calls' now :
  acquire_fenced_claim s0 t0 claim_type resource_id owner secs = Ok (Some lease, s1) ->
  verify_fenced_claim (run_store_calls s1 calls) t lease = false ->
  calls_from t calls' -> final_time t calls' <= now ->
  let s := run_store_calls (run_store_calls s1 calls) calls' in
  verify_fenced_claim s now lease = false /\
  forall session_id operation_id specs renew expected deadline entity now_ms,
    is_ok (append_batch_if_fenced_claim s session_id operation_id specs lease renew expected
             deadline entity now now_ms) = false.
Proof.
  intros [Hi _]%acquire_issued Hv Hc Ht s.
  assert (Hverify : verify_fenced_claim s now lease = false).
  { eapply lost_not_current; [|exact Ht]. apply lost_forever; [|done].
    apply issued_not_current; [|done]. by apply issued_forever. }
  split; [done|]. intros *.
  destruct (append_batch_if_fenced_claim _ _ _ _ _ _ _ _ _ _ _) as [[es s']|] eqn:H; [|done].
  apply append_fenced_claims in H as [H _]. by rewrite H in Hverify.
Qed.

Definition recovery_lease : ClaimLease := mkLease "operation_recovery" "r" "worker-1" 1.

Lemma lost_lease_never_writes_witness :
  exists s1,
    acquire_fenced_claim empty_store 0 "operation_recovery" "r" "worker-1" 10
    = Ok (Some recovery_lease, s1) /\
    verify_fenced_claim s1 3 recovery_lease = true /\
    verify_fenced_claim
      (run_store_calls (run_store_calls s1 []) [(12, 0, CallRenew recovery_lease 10)]) 13
      recovery_lease = false.
Proof.
  eexists. split; [vm_compute; reflexivity|]. split; [vm_compute; reflexivity|].
  refine (proj1 (lost_lease_never_writes empty_store 0 "operation_recovery" "r" "worker-1" 10
            recovery_lease _ [] 10 [(12, 0, CallRenew recovery_lease 10)] 13 _ _ _ _));
    [vm_compute; reflexivity | vm_compute; reflexivity | split; [lia|done] | simpl; lia].
Defined.

(** While a worker's fenced lease is current, no other owner gets the
    claim; when another owner does get it, the old lease has expired or been
    given up, the new fencing token is strictly larger, the new lease is current
    and the old one never is again. *)
Theorem takeover_fences_the_old_worker s0 t0 claim_type resource_id owner1 secs1 lease1 s1 calls now
    owner2 secs2 answer s3 :
  acquire_fenced_claim s0 t0 claim_type resource_id owner1 secs1 = Ok (Some lease1, s1) ->
  owner1 <> owner2 ->
  let s2 := run_store_calls s1 calls in
  acquire_fenced_claim s2 now claim_type resource_id owner2 secs2 = Ok (answer, s3) ->
  match answer with
  | None => s3 = s2
  | Some lease2 =>
      verify_fenced_claim s2 now lease1 = false /\
      fencing_token lease1 < fencing_token lease2 /\
      verify_fenced_claim s3 now lease2 = true /\
      forall t, verify_fenced_claim s3 t lease1 = false
  end /\
  (verify_fenced_claim s2 now lease1 = true -> answer = None).
Proof.
  intros H1 Hne s2 H2.
  pose proof (issued_forever _ calls _ (proj1 (acquire_issued _ _ _ _ _ _ _ _ H1))) as Hi.
  fold s2 in Hi. apply acquire_edge in H1 as (c1 & _ & _ & -> & _).
  destruct answer as [lease2|].
  2:{ split; [|done]. unfold acquire_fenced_claim in H2. by res_inv H2. }
  pose proof (proj2 (acquire_issued _ _ _ _ _ _ _ _ H2)) as Hv2.
  apply acquire_edge in H2 as (c2 & -> & He & -> & Ho & _ & _ & Hexp).
  destruct Hi as (c & Hc & Hg). cbn in Hc, Hg. unfold lease_key in Hc. cbn in Hc. rewrite Hc in He.
  assert (Hlt : cm_generation c1 < cm_generation c2).
  { inversion He; subst; simpl in *; [|lia]. destruct Hg as [?|[? ?]]; [lia|congruence]. }
  assert (Hold : verify_fenced_claim s2 now (mkLease claim_type resource_id owner1
                   (cm_generation c1)) = false).
  { destruct (verify_fenced_claim s2 now _) eqn:Hv; [|done].
    apply claim_current_Some in Hv as (c' & Hc' & Ho' & Hg' & Hx). unfold lease_key in Hc'.
    cbn in Hc', Ho', Hg'. rewrite Hc in Hc'. injection Hc' as <-.
    assert (cm_expiry c <= now) by (apply (Hexp c Hc); congruence). lia. }
  split; [|by rewrite Hold]. split; [done|]. split; [done|]. split; [done|].
  intros t. unfold verify_fenced_claim. simpl. unfold lease_key. simpl.
  rewrite lookup_insert_eq. simpl. rewrite andb_false_iff. left. apply andb_false_iff. right.
  apply Z.eqb_neq. lia.
Qed.

Lemma takeover_fences_the_old_worker_witness :
  exists s1 s3,
    acquire_fenced_claim empty_store 0 "operation_recovery" "r" "worker-1" 10
    = Ok (Some recovery_lease, s1) /\
    acquire_fenced_claim s1 12 "operation_recovery" "r" "worker-2" 10
    = Ok (Some (mkLease "operation_recovery" "r" "worker-2" 2), s3) /\
    verify_fenced_claim s3 13 recovery_lease = false.
Proof.
  do 2 eexists. split; [vm_compute; reflexivity|]. split; [vm_compute; reflexivity|].
  refine (proj2 (proj2 (proj2 (proj1 (takeover_fences_the_old_worker empty_store 0
            "operation_recovery" "r" "worker-1" 10 recovery_lease _ [] 12 "worker-2" 10
            (Some (mkLease "operation_recovery" "r" "worker-2" 2)) _ _ _ _)))) 13);
    [vm_compute; reflexivity | discriminate | vm_compute; reflexivity].
Defined.

(** ** Claim scopes *)

(** The object a scope text encodes. *)
Definition scope_dict (claim_type session_id : string) (operation_id entity_id : option string)
  : pydict :=
  [("claimType", VStr claim_type); ("entityId", opt_text entity_id);
   ("operationId", opt_text operation_id); ("sessionId", VStr session_id)].

Lemma scope_text claim_type session_id operation_id entity_id r :
  fenced_claim_resource_id claim_type session_id operation_id entity_id = Ok r ->
  r = json_canonical (VDict (scope_dict claim_type session_id operation_id entity_id)) /\
  claim_type ∈ FENCED_CLAIM_TYPES /\ session_id <> "" /\
  (claim_type <> "plan_execution" -> missing operation_id = false) /\
  (claim_type ∈ ENTITY_CLAIM_TYPES -> missing entity_id = false).
Proof.
  unfold fenced_claim_resource_id. intros H. res_inv H.
  apply negb_false_iff, mem_str_spec in E. apply negb_false_iff, nonempty_spec in E0.
  split_and!; [done..| |].
  - intros Hne. apply String.eqb_neq in Hne. rewrite Hne in E1. by destruct (missing operation_id).
  - intros Hin. apply mem_str_spec in Hin. rewrite Hin in E2. by destruct (missing entity_id).
Qed.

Lemma scope_dict_wf claim_type session_id operation_id entity_id :
  json_wf (VDict (scope_dict claim_type session_id operation_id entity_id)).
Proof.
  constructor.
  - apply (bool_decide_unpack _). vm_compute. exact I.
  - repeat constructor; unfold opt_text; destruct entity_id, operation_id; repeat constructor.
Qed.

Lemma scope_loads claim_type session_id operation_id entity_id :
  json_loads (json_canonical (VDict (scope_dict claim_type session_id operation_id entity_id)))
  = Ok (VDict (scope_dict claim_type session_id operation_id entity_id)).
Proof.
  rewrite json_loads_canonical; [|apply scope_dict_wf|by destruct entity_id, operation_id].
  by destruct entity_id, operation_id.
Qed.

(** Claim scopes never collide: two scopes with the same resource id are
    scopes of the same claim type, session, operation and entity, whatever
    characters their identifiers hold. *)
Theorem claim_scopes_never_collide ct1 s1 o1 e1 ct2 s2 o2 e2 r :
  fenced_claim_resource_id ct1 s1 o1 e1 = Ok r ->
  fenced_claim_resource_id ct2 s2 o2 e2 = Ok r ->
  ct1 = ct2 /\ s1 = s2 /\ o1 = o2 /\ e1 = e2.
Proof.
  intros [Hr1 _]%scope_text [Hr2 _]%scope_text.
  pose proof (scope_loads ct1 s1 o1 e1) as H1. pose proof (scope_loads ct2 s2 o2 e2) as H2.
  rewrite <- Hr1 in H1. rewrite <- Hr2 in H2. rewrite H1 in H2.
  injection H2 as -> He Ho ->. split_and!; [done|done| |].
  - by destruct o1, o2; simplify_eq/=.
  - by destruct e1, e2; simplify_eq/=.
Qed.

(** A lease admits events of exactly the stream it was issued for: a lease
    whose resource is the scope of a claim passes the scope check for a session,
    operation and entity exactly when they are the claim's own - the operation is
    not compared for a plan claim, nor the entity for an operation recovery. *)
Theorem scope_check_is_exact ct sid oid eid r owner generation sid' oid' eid' :
  fenced_claim_resource_id ct sid oid eid = Ok r ->
  validate_fenced_claim_scope (mkLease ct r owner generation) sid' oid' eid' = Ok tt <->
  sid' = sid /\ (ct <> "plan_execution" -> oid = Some oid') /\
  (ct ∈ ENTITY_CLAIM_TYPES -> eid' = eid).
Proof.
  intros (-> & Hct & Hsid & Ho & He)%scope_text.
  unfold validate_fenced_claim_scope. cbn [cl_claim_type cl_resource_id].
  destruct (String.eqb_spec ct "conversation_session_writer") as [->|_].
  { exfalso. by apply mem_str_spec in Hct. }
  rewrite (proj2 (mem_str_spec _ _) Hct). cbn [negb]. rewrite scope_loads.
  unfold scope_dict, jget. cbn. rewrite String.eqb_refl. cbn.
  destruct (String.eqb_spec sid sid') as [->|Hs]; cbn; [|split; [done|naive_solver]].
  assert (Hop : (negb (String.eqb ct "plan_execution") && negb (is_str (opt_text oid) oid') = false)
                <-> (ct <> "plan_execution" -> oid = Some oid')).
  { destruct (String.eqb_spec ct "plan_execution") as [->|Hne]; cbn; [naive_solver|].
    destruct oid as [o|]; cbn; [destruct (String.eqb_spec o oid'); cbn|]; naive_solver. }
  destruct (_ && _); [split; [done|intros (_ & H & _); by apply Hop in H]|].
  destruct (mem_str ct ENTITY_CLAIM_TYPES) eqn:Hent.
  - apply mem_str_spec in Hent. specialize (He Hent).
    destruct eid as [e|]; [|done]. cbn in He.
    destruct eid' as [e'|]; cbn; [|naive_solver].
    destruct (String.eqb_spec e e') as [->|Hne]; [|rewrite andb_false_r; naive_solver].
    destruct (nonempty e'); cbn in *; naive_solver.
  - apply mem_str_false in Hent. naive_solver.
Qed.

Definition resume_scope : string :=
  Eval vm_compute in match fenced_claim_resource_id "approval_resume" "s|1" (Some "o") (Some "a")
                     with Ok r => r | Err _ => "" end.

Lemma scope_check_is_exact_witness :
  validate_fenced_claim_scope (mkLease "approval_resume" resume_scope "worker" 1) "s|1" "o"
    (Some "a") = Ok tt /\
  validate_fenced_claim_scope (mkLease "approval_resume" resume_scope "worker" 1) "s|1" "o"
    (Some "b") <> Ok tt.
Proof.
  split.
  - apply (scope_check_is_exact "approval_resume" "s|1" (Some "o") (Some "a"));
      [vm_compute; reflexivity | split_and!; done].
  - intros H.
    apply (scope_check_is_exact "approval_resume" "s|1" (Some "o") (Some "a")) in H;
      [|vm_compute; reflexivity].
    destruct H as (_ & _ & H). discriminate H. left.
Defined.

Lemma claim_scopes_never_collide_witness :
  "operation_recovery" = "operation_recovery" /\ "s|1" = "s|1" /\
  Some "o" = Some "o" /\ (None : option string) = None.
Proof.
  refine (claim_scopes_never_collide "operation_recovery" "s|1" (Some "o") None
            "operation_recovery" "s|1" (Some "o") None
            (match fenced_claim_resource_id "operation_recovery" "s|1" (Some "o") None
             with Ok r => r | Err _ => "" end) _ _);
    vm_compute; reflexivity.
Defined.
