(* ===== verification/OperationLog.v ===== *)
(** * Operation logs inside the store

    The protocol every service follows: load the operation's events, validate
    the candidates by replay, append them with the version that was read.  The
    append is atomic with the read, whatever other workers did in between, and a
    validated append keeps the log replayable.  The store numbers events over all
    operations while validation numbers its candidates densely, so replay is
    first shown not to depend on the numbers, only on their order. *)

From S2P Require Import Prelude PyDict Text PyVal Json DurableAction.
From S2P Require Import Transcript ModelPolicy OperationTypes OperationReducer.
From S2P Require Import OperationLifecycle OperationSafety OperationStore.
From Stdlib Require Import String.

#[local] Open Scope string_scope.
#[local] Open Scope bool_scope.
#[local] Open Scope Z_scope.

(** ** Replay does not read the numbers *)

Definition rmap {A B : Type} (f : A -> B) (r : res A) : res B :=
  match r with Ok a => Ok (f a) | Err e => Err e end.

(** Two handlers' runs that differ in the sequence number only: the tests are
    convertible, so the goal splits along them. *)
Ltac same_run :=
  repeat first
    [ reflexivity
    | match goal with
      | |- rbind ?x _ = rmap _ (rbind ?y _) => change y with x; destruct x; cbn [rbind rmap]
      | |- (if ?x then _ else _) = rmap _ (if ?y then _ else _) => change y with x; destruct x
      | |- match ?x with _ => _ end = rmap _ (match ?y with _ => _ end) =>
          change y with x; destruct x
      end ].

Section Renumber.
Variables (s : OperationState) (k n m : Z).
Let read := op_with_sequence k s.
Let base := op_with_sequence n s.
Let base' := op_with_sequence m s.

Lemma renumber_intent data :
  on_tool_intent read base' data = rmap (op_with_sequence m) (on_tool_intent s base data).
Proof. unfold on_tool_intent. same_run. Qed.

Lemma renumber_dispatch data :
  on_tool_dispatch read base' data = rmap (op_with_sequence m) (on_tool_dispatch s base data).
Proof. unfold on_tool_dispatch. same_run. Qed.

Lemma renumber_reconcile data :
  on_tool_reconcile_started read base' data
  = rmap (op_with_sequence m) (on_tool_reconcile_started s base data).
Proof. unfold on_tool_reconcile_started. same_run. Qed.

Lemma renumber_finish ty data :
  on_tool_finish read base' ty data = rmap (op_with_sequence m) (on_tool_finish s base ty data).
Proof. unfold on_tool_finish. same_run. Qed.

Lemma renumber_request_started data :
  on_model_request_started read base' data
  = rmap (op_with_sequence m) (on_model_request_started s base data).
Proof. unfold on_model_request_started. same_run. Qed.

Lemma renumber_request_completed data :
  on_model_request_completed read base' data
  = rmap (op_with_sequence m) (on_model_request_completed s base data).
Proof. unfold on_model_request_completed. same_run. Qed.

Lemma renumber_request_failed data :
  on_model_request_failed read base' data
  = rmap (op_with_sequence m) (on_model_request_failed s base data).
Proof. unfold on_model_request_failed. same_run. Qed.

Lemma renumber_finished data :
  on_operation_finished read base' data
  = rmap (op_with_sequence m) (on_operation_finished s base data).
Proof. unfold on_operation_finished. same_run. Qed.

Lemma renumber_registered id a data :
  on_approval_registered base' id a data
  = rmap (op_with_sequence m) (on_approval_registered base id a data).
Proof. unfold on_approval_registered. same_run. Qed.

Lemma renumber_approval e e' :
  oe_type e = oe_type e' -> oe_data e = oe_data e' ->
  reduce_approval_event base' e' = rmap (op_with_sequence m) (reduce_approval_event base e).
Proof.
  intros Ht Hd. unfold reduce_approval_event. rewrite Ht, Hd.
  destruct (String.eqb _ _); [reflexivity|].
  destruct (event_text _ _) as [id|]; [|reflexivity]. cbn [rbind rmap].
  destruct (String.eqb _ _); [unfold on_approval_requested; same_run|].
  change (op_approvals base') with (op_approvals base).
  destruct (dget id (op_approvals base)) as [a|]; [|reflexivity].
  destruct (String.eqb _ _); [apply renumber_registered|]. same_run.
Qed.

Lemma renumber_write e e' :
  oe_type e = oe_type e' -> oe_data e = oe_data e' ->
  reduce_write_event base' e' = rmap (op_with_sequence m) (reduce_write_event base e).
Proof.
  intros Ht Hd. unfold reduce_write_event. rewrite Ht, Hd.
  destruct (event_text _ _) as [id|]; [|reflexivity]. cbn [rbind rmap].
  destruct (String.eqb _ _); [unfold on_write_prepared; same_run|].
  change (op_writes base') with (op_writes base).
  destruct (dget id (op_writes base)) as [w|]; [|reflexivity]. same_run.
Qed.

Lemma renumber_apply e e' :
  oe_type e = oe_type e' -> oe_data e = oe_data e' ->
  apply_operation_event read base' e' = rmap (op_with_sequence m) (apply_operation_event s base e).
Proof.
  intros Ht Hd. unfold apply_operation_event. rewrite <- Ht, <- Hd.
  destruct (String.eqb _ _); [same_run|]. destruct (String.eqb _ _); [same_run|].
  destruct (String.eqb _ _); [apply renumber_request_started|].
  destruct (String.eqb _ _); [apply renumber_request_completed|].
  destruct (String.eqb _ _); [apply renumber_request_failed|].
  destruct (String.eqb _ _); [apply renumber_intent|].
  destruct (String.eqb _ _); [apply renumber_dispatch|].
  destruct (String.eqb _ _); [apply renumber_reconcile|].
  destruct (mem_str _ _); [apply renumber_finish|].
  destruct (starts_with _ _); [by apply renumber_approval|].
  destruct (starts_with _ _); [by apply renumber_write|].
  destruct (String.eqb _ _); [apply renumber_finished|]. by destruct (starts_with _ _).
Qed.
End Renumber.

(** The same facts under other numbers and clock readings. *)
Record same_fact (e e' : OperationEvent) : Prop := {
  sf_type : oe_type e' = oe_type e;
  sf_session : oe_session_id e' = oe_session_id e;
  sf_operation : oe_operation_id e' = oe_operation_id e;
  sf_data : oe_data e' = oe_data e
}.

Lemma renumber_event s k e e' s1 :
  reduce_operation_event (Some s) e = Ok s1 -> same_fact e e' -> k < oe_sequence e' ->
  reduce_operation_event (Some (op_with_sequence k s)) e'
  = Ok (op_with_sequence (oe_sequence e') s1).
Proof.
  intros H [Ht Hs Ho Hd] Hk. unfold reduce_operation_event in *. rewrite Hs, Ho.
  cbn [op_session_id op_operation_id op_phase op_last_sequence op_with_sequence].
  destruct (ensure _ _) as [u|]; [|done]. cbn [rbind] in *.
  destruct (ensure (op_last_sequence s <? _) _) as [u'|]; [|done]. cbn [rbind] in H.
  rewrite (proj2 (Z.ltb_lt _ _) Hk). cbn [ensure rbind].
  destruct (ensure (negb _) _) as [u''|]; [|done]. cbn [rbind] in *.
  pose proof (renumber_apply s k (oe_sequence e) (oe_sequence e') e e' (eq_sym Ht) (eq_sym Hd)) as Hr.
  rewrite H in Hr. exact Hr.
Qed.

Lemma renumber_run es : forall es' s k s1,
  foldM reduce_step (Some s) es = Ok (Some s1) -> Forall2 same_fact es es' ->
  StronglySorted Z.lt (k :: map oe_sequence es') ->
  foldM reduce_step (Some (op_with_sequence k s)) es'
  = Ok (Some (op_with_sequence (List.last (map oe_sequence es') k) s1)).
Proof.
  induction es as [|e es IH]; intros es' s k s1 H Hf Hsort.
  { apply Forall2_nil_inv_l in Hf as ->. simpl in *. by simplify_eq. }
  apply Forall2_cons_inv_l in Hf as (e' & es'' & He & Hf & ->).
  cbn [foldM] in H. unfold reduce_step in H at 1.
  destruct (reduce_operation_event (Some s) e) as [s2|] eqn:Hr; [|done]. cbn [rbind] in H.
  cbn [map] in *. apply StronglySorted_inv in Hsort as [Hsort Hk]. apply Forall_cons in Hk as [Hk _].
  cbn [foldM]. unfold reduce_step at 1.
  rewrite (renumber_event _ _ _ _ _ Hr He Hk). cbn [rbind].
  rewrite (IH es'' s2 (oe_sequence e') s1 H Hf Hsort). by rewrite last_cons.
Qed.

(** ** The log of one operation *)

Definition operation_log (st : Store) (session_id operation_id : string) : list OperationEvent :=
  store_load st (Some session_id) (Some operation_id).

Lemma operation_log_filter st sid oid :
  operation_log st sid oid = List.filter (in_operation sid oid) (st_events st).
Proof. done. Qed.

Lemma last_of_filter events sid oid :
  operation_last_sequence (List.filter (in_operation sid oid) events)
  = last_operation_sequence events sid oid.
Proof.
  induction events as [|e events IH] using rev_ind; [done|].
  unfold last_operation_sequence, operation_last_sequence in *.
  rewrite rev_app_distr, List.filter_app. simpl.
  destruct (in_operation sid oid e); [by rewrite last_snoc|]. by rewrite app_nil_r.
Qed.

Lemma operation_last_is_last st sid oid :
  operation_last_sequence (operation_log st sid oid)
  = last_operation_sequence (st_events st) sid oid.
Proof. apply last_of_filter. Qed.

Lemma positional_sorted events :
  positional events -> StronglySorted Z.lt (map oe_sequence events).
Proof.
  induction events as [|e events IH] using rev_ind; intros Hp; [constructor|].
  rewrite map_app. apply StronglySorted_app_2; [|apply IH|by repeat constructor].
  - intros x z (y & -> & [i Hi]%list_elem_of_lookup)%list_elem_of_fmap ->%list_elem_of_singleton.
    rewrite (Hp i y) by by apply lookup_app_l_Some.
    rewrite (Hp (List.length events) e) by by rewrite list_lookup_middle.
    apply lookup_lt_Some in Hi. lia.
  - intros i x Hx. apply Hp. by apply lookup_app_l_Some.
Qed.

Lemma filter_sorted (p : OperationEvent -> bool) events :
  StronglySorted Z.lt (map oe_sequence events) ->
  StronglySorted Z.lt (map oe_sequence (List.filter p events)).
Proof.
  induction events as [|e events IH]; [done|]. simpl. intros [Hs He]%StronglySorted_inv.
  destruct (p e); [|by apply IH]. simpl. constructor; [by apply IH|].
  rewrite Forall_forall in *. intros x (y & -> & Hy)%list_elem_of_fmap. apply He.
  apply list_elem_of_fmap_2. apply list_elem_of_In, filter_In in Hy as [Hy _].
  by apply list_elem_of_In.
Qed.

Lemma operation_log_sorted st sid oid :
  positional (st_events st) -> StronglySorted Z.lt (map oe_sequence (operation_log st sid oid)).
Proof. intros H. by apply filter_sorted, positional_sorted. Qed.

Lemma filter_all {A} (p : A -> bool) l : (forall x, x ∈ l -> p x = true) -> List.filter p l = l.
Proof.
  induction l as [|x l IH]; intros H; [done|]. simpl. rewrite (H x) by left.
  f_equal. apply IH. intros y Hy. apply H. by right.
Qed.

Lemma filter_numbered sid oid now_ms n specs :
  List.filter (in_operation sid oid) (numbered sid oid now_ms n specs)
  = numbered sid oid now_ms n specs.
Proof.
  apply filter_all. intros e [i Hi]%list_elem_of_lookup.
  apply numbered_lookup in Hi as (_ & <- & <-). unfold in_operation. by rewrite !String.eqb_refl.
Qed.

(** Nothing was added to an operation whose version has not moved. *)
Lemma unchanged_version events more sid oid :
  positional (events ++ more) ->
  last_operation_sequence (events ++ more) sid oid = last_operation_sequence events sid oid ->
  List.filter (in_operation sid oid) more = [].
Proof.
  intros Hp Heq. apply filter_nil_elem. intros e He.
  destruct (in_operation sid oid e) eqn:Hin; [|done]. exfalso.
  assert (Hp' : positional events).
  { intros i x Hx. apply Hp. by apply lookup_app_l_Some. }
  pose proof (last_sequence_ge _ sid oid e Hp ltac:(apply elem_of_app; by right) Hin) as Hge.
  pose proof (last_sequence_lt _ sid oid Hp') as Hlt. rewrite Heq in Hge.
  apply list_elem_of_lookup in He as [i Hi].
  rewrite (Hp (List.length events + i)%nat e) in Hge; [lia|].
  rewrite lookup_app_r by lia. by rewrite Nat.add_comm, Nat.add_sub.
Qed.

(** ** Reading, validating and appending *)

(** A store some sequence of calls leads to. *)
Definition reachable (st : Store) : Prop :=
  exists calls, st = run_store_calls empty_store calls.

Lemma reachable_positional st : reachable st -> positional (st_events st).
Proof. intros [calls ->]. by apply positional_calls. Qed.

Lemma operation_log_elem st sid oid e :
  e ∈ operation_log st sid oid -> oe_session_id e = sid /\ oe_operation_id e = oid.
Proof.
  intros [_ H]%list_elem_of_In%filter_In. by apply andb_true_iff in H as [->%String.eqb_eq ->%String.eqb_eq].
Qed.

Lemma replay_identity st sid oid s :
  replay_operation (operation_log st sid oid) = Ok s ->
  op_session_id s = sid /\ op_operation_id s = oid.
Proof.
  intros (e & s0 & es & Hsort & Hs & Hf)%replay_run.
  assert (He : e ∈ operation_log st sid oid).
  { rewrite <- (sort_by_perm oe_sequence). rewrite Hsort. left. }
  apply operation_log_elem in He as [<- <-].
  assert (Hinv : op_session_id s = op_session_id s0 /\ op_operation_id s = op_operation_id s0).
  { clear Hs Hsort. revert s0 Hf. induction es as [|x es IH]; intros s0 Hf; simpl in Hf.
    - by simplify_eq.
    - unfold reduce_step in Hf at 1.
      destruct (reduce_operation_event (Some s0) x) as [s1|] eqn:Hr; [|done].
      apply IH in Hf as [-> ->]. by apply reduce_event_step in Hr as [[[_ ->] [_ ->] _ _] _]. }
  destruct Hinv as [-> ->]. unfold start_operation in Hs. by res_inv Hs.
Qed.

Lemma same_facts_numbered now sid oid n now_ms k specs :
  Forall2 same_fact (candidate_events now sid oid n specs) (numbered sid oid now_ms k specs).
Proof.
  revert n k. induction specs as [|[ty data] specs IH]; intros n k; [constructor|].
  unfold numbered. cbn [candidate_events imap]. constructor; [by split|].
  replace (imap _ specs) with (numbered sid oid now_ms (S k) specs); [apply IH|].
  unfold numbered. apply imap_ext. intros i x _. simpl. do 2 f_equal. lia.
Qed.

Lemma numbered_sorted sid oid now_ms k specs n :
  n < Z.of_nat k -> StronglySorted Z.lt (n :: map oe_sequence (numbered sid oid now_ms k specs)).
Proof.
  revert n k. induction specs as [|spec specs IH]; intros n k Hn; [by repeat constructor|].
  unfold numbered. cbn [imap map]. rewrite Nat.add_0_r.
  assert (Htail : imap ((λ i spec, mkOperationEvent (fst spec) sid oid (Z.of_nat (k + i)) now_ms
                           (snd spec)) ∘ S) specs = numbered sid oid now_ms (S k) specs).
  { unfold numbered. apply imap_ext. intros i x _. simpl. do 2 f_equal. lia. }
  rewrite Htail. pose proof (IH (Z.of_nat k) (S k) ltac:(lia)) as Hs.
  constructor; [exact Hs|]. apply StronglySorted_inv in Hs as [_ Hall].
  constructor; [done|]. eapply Forall_impl; [exact Hall|]. simpl. lia.
Qed.

Lemma run_calls_reachable st calls : reachable st -> reachable (run_store_calls st calls).
Proof.
  intros [calls0 ->]. exists (calls0 ++ calls)%list. unfold run_store_calls. by rewrite fold_left_app.
Qed.

Lemma append_reachable st sid oid specs e d now_ms new st' :
  reachable st -> append_batch st sid oid specs e d now_ms = Ok (new, st') -> reachable st'.
Proof.
  intros Hr H. apply (run_calls_reachable _ [(0, now_ms, CallAppend sid oid specs e d)]) in Hr.
  cbn in Hr. by rewrite H in Hr.
Qed.

Lemma fenced_append_reachable st sid oid specs l renew e d entity now now_ms new st' :
  reachable st ->
  append_batch_if_fenced_claim st sid oid specs l renew e d entity now now_ms = Ok (new, st') ->
  reachable st'.
Proof.
  intros Hr H.
  apply (run_calls_reachable _ [(now, now_ms, CallAppendFenced sid oid specs l renew e d entity)])
    in Hr.
  cbn in Hr. by rewrite H in Hr.
Qed.

Lemma sorted_log st sid oid :
  reachable st -> sort_by oe_sequence (operation_log st sid oid) = operation_log st sid oid.
Proof.
  intros Hr. apply sort_by_id.
  pose proof (operation_log_sorted st sid oid (reachable_positional _ Hr)) as Hs.
  unfold sorted_by. induction (operation_log st sid oid) as [|e l IH]; [constructor|].
  cbn [map] in Hs. apply StronglySorted_inv in Hs as [Hs He]. constructor; [by apply IH|].
  apply Forall_forall. intros x Hx. rewrite Forall_forall in He.
  pose proof (He _ (list_elem_of_fmap_2 oe_sequence _ _ Hx)). lia.
Qed.

(** The log of an operation is replayed in its order. *)
Lemma replay_log st sid oid s :
  reachable st -> replay_operation (operation_log st sid oid) = Ok s ->
  foldM reduce_step None (operation_log st sid oid) = Ok (Some s).
Proof.
  intros Hr H. unfold replay_operation in H. rewrite sorted_log in H by done.
  destruct (foldM _ _ _) as [[s'|]|]; [|done..]. by simplify_eq/=.
Qed.

Lemma last_number es d :
  List.last (map oe_sequence es) d = match last es with Some e => oe_sequence e | None => d end.
Proof.
  induction es as [|e es IH] using rev_ind; [done|].
  rewrite map_app, last_snoc. simpl. by rewrite List.last_last.
Qed.

Lemma operation_last_app es es' :
  operation_last_sequence (es ++ es')
  = List.last (map oe_sequence es') (operation_last_sequence es).
Proof.
  rewrite last_number. unfold operation_last_sequence.
  induction es' as [|e es' _] using rev_ind; [by rewrite app_nil_r|].
  by rewrite app_assoc, !last_snoc.
Qed.

(** The state's number is the version the store compares. *)
Lemma replay_last_sequence st sid oid s :
  reachable st -> replay_operation (operation_log st sid oid) = Ok s ->
  op_last_sequence s = operation_last_sequence (operation_log st sid oid).
Proof.
  intros Hr H. pose proof H as [_ Hlast]%replay_sorted. rewrite sorted_log in Hlast by done.
  rewrite Hlast, last_number. unfold operation_last_sequence.
  destruct (last (operation_log st sid oid)) eqn:E; [done|].
  apply last_None in E. by rewrite E in H.
Qed.

(** Both ways of appending go through [append_events]; first the facts about it. *)
Lemma append_events_atomic st calls session_id operation_id specs deadline now_ms new st' :
  reachable st ->
  append_events (st_events (run_store_calls st calls)) session_id operation_id specs
    (Some (operation_last_sequence (operation_log st session_id operation_id))) deadline now_ms
  = Ok (st_events st', new) ->
  operation_log (run_store_calls st calls) session_id operation_id
    = operation_log st session_id operation_id /\
  operation_log st' session_id operation_id
    = (operation_log st session_id operation_id ++ new)%list /\
  forall other_session other_operation,
    (other_session, other_operation) <> (session_id, operation_id) ->
    operation_log st' other_session other_operation
    = operation_log (run_store_calls st calls) other_session other_operation.
Proof.
  intros Hr Ha. rewrite operation_last_is_last in Ha.
  apply append_events_exact in Ha as (He & _ & _ & Hnew & Hst').
  cbn [check_expected] in He.
  destruct (Z.eqb_spec (last_operation_sequence (st_events (run_store_calls st calls)) session_id
              operation_id)
             (last_operation_sequence (st_events st) session_id operation_id)) as [Heq|]; [|done].
  clear He. rename Heq into He. pose proof (reachable_positional _ Hr) as Hp.
  pose proof (positional_calls calls st Hp) as Hp1.
  destruct (run_calls_prefix calls st) as [more Hmore].
  assert (Hsame : operation_log (run_store_calls st calls) session_id operation_id
                  = operation_log st session_id operation_id).
  { rewrite !operation_log_filter, Hmore, List.filter_app. rewrite Hmore in He, Hp1.
    rewrite (unchanged_version _ _ _ _ Hp1 He). by rewrite app_nil_r. }
  split; [exact Hsame|]. split.
  - rewrite operation_log_filter, Hst'. rewrite List.filter_app.
    rewrite <- operation_log_filter, Hsame, Hnew, filter_numbered. done.
  - intros sid oid Hne. rewrite !operation_log_filter, Hst'.
    rewrite List.filter_app. rewrite <- (app_nil_r (List.filter _ (st_events _))) at 2. f_equal.
    apply filter_nil_elem. intros e Hin. rewrite Hnew in Hin.
    apply list_elem_of_lookup in Hin as [i Hi]. apply numbered_lookup in Hi as (_ & Hs & Ho).
    unfold in_operation. rewrite Hs, Ho. apply andb_false_iff.
    destruct (String.eqb_spec session_id sid) as [->|]; [right|by left].
    apply String.eqb_neq. congruence.
Qed.

Lemma append_events_replayable st calls session_id operation_id specs deadline now now_ms new st' s :
  reachable st -> reachable st' ->
  replay_operation_with_specs now (operation_log st session_id operation_id) specs = Ok s ->
  append_events (st_events (run_store_calls st calls)) session_id operation_id specs
    (Some (operation_last_sequence (operation_log st session_id operation_id))) deadline now_ms
  = Ok (st_events st', new) ->
  replay_operation (operation_log st' session_id operation_id)
  = Ok (op_with_sequence (operation_last_sequence (operation_log st' session_id operation_id)) s).
Proof.
  intros Hr Hr' Hv Ha. pose proof Ha as Hiff.
  apply append_events_exact in Hiff as (_ & _ & _ & Hnew & _).
  apply append_events_atomic in Ha as (Hsame & Hlog & _); [|done].
  unfold replay_operation_with_specs in Hv.
  destruct (replay_operation (operation_log st _ _)) as [s0|] eqn:H0; [|done]. cbn [rbind] in Hv.
  destruct (foldM _ _ _) as [[s1 m]|] eqn:Hf; [|done]. cbn in Hv. simplify_eq.
  apply specs_run in Hf. destruct (replay_identity _ _ _ _ H0) as [Hs Ho]. rewrite Hs, Ho in Hf.
  pose proof (replay_last_sequence _ _ _ _ Hr H0) as Hk.
  assert (Hlt : op_last_sequence s0
                < Z.of_nat (List.length (st_events (run_store_calls st calls)))).
  { rewrite Hk, <- Hsame, operation_last_is_last.
    by apply last_sequence_lt, positional_calls, reachable_positional. }
  unfold replay_operation in H0 |- *. rewrite (sorted_log st') by done.
  rewrite (sorted_log st) in H0 by done. rewrite Hlog, foldM_app.
  destruct (foldM reduce_step None _) as [[s2|]|]; [|done..]. cbn in H0. injection H0 as ->.
  cbn [rbind]. pose proof (renumber_run _ _ _ (op_last_sequence s0) _ Hf
    (same_facts_numbered now session_id operation_id (max_sequence (operation_log st _ _)) now_ms
       (List.length (st_events (run_store_calls st calls))) specs)
    (numbered_sorted _ _ _ _ _ _ Hlt)) as Hrun.
  assert (Heta : op_with_sequence (op_last_sequence s0) s0 = s0) by by destruct s0.
  rewrite Heta in Hrun. rewrite Hrun. cbn [rbind]. by rewrite operation_last_app, <- Hk.
Qed.

(** Reading an operation and appending to it at the version that was read is
    atomic: if the append succeeds, then however other workers used the store in
    between, the operation's log was still the one that was read, it is now that
    log followed by the new events, and no other operation's log has changed. *)
Theorem read_and_append_are_atomic st calls session_id operation_id specs deadline now_ms new st' :
  reachable st ->
  append_batch (run_store_calls st calls) session_id operation_id specs
    (Some (operation_last_sequence (operation_log st session_id operation_id))) deadline now_ms
  = Ok (new, st') ->
  operation_log (run_store_calls st calls) session_id operation_id
    = operation_log st session_id operation_id /\
  operation_log st' session_id operation_id
    = (operation_log st session_id operation_id ++ new)%list /\
  forall other_session other_operation,
    (other_session, other_operation) <> (session_id, operation_id) ->
    operation_log st' other_session other_operation
    = operation_log (run_store_calls st calls) other_session other_operation.
Proof.
  intros Hr Ha. eapply append_events_atomic; [done|]. by apply append_batch_exact.
Qed.

(** A validated append keeps the log replayable: if the candidates were
    accepted by replay on the log that was read, and the append at that version
    succeeds, the operation's log replays - whatever other workers did in between
    and however the store numbered the events - to the very state the validation
    computed, its last sequence number apart. *)
Theorem validated_append_keeps_log_replayable st calls session_id operation_id specs deadline
    now now_ms new st' s :
  reachable st ->
  replay_operation_with_specs now (operation_log st session_id operation_id) specs = Ok s ->
  append_batch (run_store_calls st calls) session_id operation_id specs
    (Some (operation_last_sequence (operation_log st session_id operation_id))) deadline now_ms
  = Ok (new, st') ->
  replay_operation (operation_log st' session_id operation_id)
  = Ok (op_with_sequence (operation_last_sequence (operation_log st' session_id operation_id)) s).
Proof.
  intros Hr Hv Ha. eapply append_events_replayable; [done| |done|by apply append_batch_exact].
  eapply append_reachable; [|exact Ha]. by apply run_calls_reachable.
Qed.

(** A worker grants an approval that it read while another worker logs a routing
    note for a different operation. *)
Definition pending_calls : list (Z * Z * store_call) :=
  [(0, 0, CallAppend "s" "o" [("operation_started", [])] None None);
   (1, 1, CallAppend "s" "o"
            [("approval_requested", [("approvalId", VStr "a"); ("actionHash", VStr "h");
               ("requesterId", VStr "alice"); ("requiredRole", VStr "ops")])] None None)].
Definition pending_store : Store := Eval vm_compute in run_store_calls empty_store pending_calls.
Definition note_calls : list (Z * Z * store_call) :=
  [(2, 2, CallAppend "s" "other" [("operation_started", [])] None None)].
Definition grant_spec : EventSpec := ("approval_granted", [("approvalId", VStr "a")]).
Definition granted : list OperationEvent * Store :=
  Eval vm_compute in
    match append_batch (run_store_calls pending_store note_calls) "s" "o" [grant_spec] (Some 1)
            (Some 100) 50 with Ok r => r | Err _ => ([], empty_store) end.

Lemma pending_reachable : reachable pending_store.
Proof. exists pending_calls. vm_compute. reflexivity. Qed.

Lemma read_and_append_are_atomic_witness :
  operation_log (snd granted) "s" "o" = (operation_log pending_store "s" "o" ++ fst granted)%list.
Proof.
  refine (proj1 (proj2 (read_and_append_are_atomic pending_store note_calls "s" "o" [grant_spec]
            (Some 100) 50 _ _ pending_reachable _))).
  vm_compute. reflexivity.
Defined.

Lemma validated_append_keeps_log_replayable_witness :
  exists s, replay_operation (operation_log (snd granted) "s" "o") = Ok s /\
            op_phase s = OpReadyToResume /\ op_last_sequence s = 3.
Proof.
  eexists. split.
  - refine (validated_append_keeps_log_replayable pending_store note_calls "s" "o" [grant_spec]
              (Some 100) 9 50 (fst granted) _ _ pending_reachable _ _);
      vm_compute; reflexivity.
  - vm_compute. split; reflexivity.
Defined.
