(* ===== verification/Service.v ===== *)
(** * Services over the operation store

    What the services that write operation logs have in common.  Every access to
    the store is an [await]: other workers may have used the store since the
    previous one, and the task may be cancelled there.  The environment says, for
    the n-th access, which calls the others made, what the clocks read and whether
    the access is cancelled; a service call runs in such an environment and
    threads the store and the access counter through.  The rules below reason
    about a call against an environment that keeps the logs replayable. *)

From S2P Require Import Prelude PyDict Text PyVal Json.
From S2P Require Import OperationTypes OperationReducer OperationLifecycle OperationSafety.
From S2P Require Import OperationStore OperationLog.
From Stdlib Require Import String.

#[local] Open Scope string_scope.
#[local] Open Scope bool_scope.
#[local] Open Scope Z_scope.

(** ** Computations that await the store *)

(** Where a cancellation reaches an access: before the store acted on it or after. *)
Inductive cancel_point := CancelBefore | CancelAfter.

(** What happens around one access: the calls other workers made before it, the
    monotonic and the wall clock during it, the wall clock read after it, and a
    cancellation of the task while it awaits. *)
Record Tick := mkTick {
  tk_calls : list (Z * Z * store_call);
  tk_now : Z;
  tk_now_ms : Z;
  tk_clock : Z;
  tk_cancelled : option cancel_point
}.
Definition Env : Type := nat -> Tick.

Record World := mkWorld { w_store : Store; w_access : nat }.

Definition svc (A : Type) : Type := Env -> World -> res A * World.

Definition ret {A} (a : A) : svc A := fun _ w => (Ok a, w).
Definition raise {A} (e : exn) : svc A := fun _ w => (Err e, w).
Definition lift {A} (r : res A) : svc A := fun _ w => (r, w).
Definition bind {A B} (m : svc A) (k : A -> svc B) : svc B :=
  fun env w => match m env w with
               | (Ok a, w') => k a env w'
               | (Err e, w') => (Err e, w')
               end.
(** [try: ... except ...]: the handler sees the outcome. *)
Definition catch {A B} (m : svc A) (k : res A -> svc B) : svc B :=
  fun env w => let (r, w') := m env w in k r env w'.
(** [try: ... finally: ...] *)
Definition finally {A} (m : svc A) (release : svc unit) : svc A :=
  catch m (fun r => bind release (fun _ => lift r)).

Notation "'await!' x ':=' m 'in' k" := (bind m (fun x => k))
  (at level 10, x pattern, m at level 100, k at level 200).

(** One access: the others' calls, then [f] on the store they left. *)
Definition access {A} (f : Tick -> Store -> res A * Store) : svc A :=
  fun env w =>
    let t := env (w_access w) in
    let st1 := run_store_calls (w_store w) (tk_calls t) in
    let (r, st) := f t st1 in
    match tk_cancelled t with
    | None => (r, mkWorld st (S (w_access w)))
    | Some CancelBefore => (Err CancelledError, mkWorld st1 (S (w_access w)))
    | Some CancelAfter => (Err CancelledError, mkWorld st (S (w_access w)))
    end.

(** [int(time.time() * 1000)] read after the last access *)
Definition clock_ms : svc Z := fun env w => (Ok (tk_clock (env (pred (w_access w)))), w).

Definition load (session_id operation_id : option string) : svc (list OperationEvent) :=
  access (fun _ st => (Ok (store_load st session_id operation_id), st)).

Definition on_store {A} (r : res (A * Store)) (st : Store) : res A * Store :=
  match r with Ok (a, st') => (Ok a, st') | Err e => (Err e, st) end.

Definition append_async (session_id operation_id : string) (specs : list EventSpec)
    (expected deadline_ms : option Z) : svc (list OperationEvent) :=
  access (fun t st =>
    on_store (append_batch st session_id operation_id specs expected deadline_ms (tk_now_ms t)) st).

Definition append_fenced_async (session_id operation_id : string) (specs : list EventSpec)
    (lease : ClaimLease) (renew : Z) (expected deadline_ms : option Z) (entity_id : option string)
  : svc (list OperationEvent) :=
  access (fun t st =>
    on_store (append_batch_if_fenced_claim st session_id operation_id specs lease renew expected
                deadline_ms entity_id (tk_now t) (tk_now_ms t)) st).

(** A claim passed along with an append: the lease, how long to renew it and the
    entity its scope must name. *)
Definition AppendFence : Type := option (ClaimLease * Z * option string).

(** [append_batch] or [append_batch_if_fenced_claim] *)
Definition append_specs (fence : AppendFence) (session_id operation_id : string)
    (specs : list EventSpec) (expected : Z) (deadline_ms : option Z)
  : svc (list OperationEvent) :=
  match fence with
  | None => append_async session_id operation_id specs (Some expected) deadline_ms
  | Some (lease, renew, entity_id) =>
      append_fenced_async session_id operation_id specs lease renew (Some expected) deadline_ms
        entity_id
  end.

Definition acquire_async (claim_type resource_id owner_token : string) (lease_seconds : Z)
  : svc (option ClaimLease) :=
  access (fun t st =>
    on_store (acquire_fenced_claim st (tk_now t) claim_type resource_id owner_token lease_seconds)
      st).

Definition renew_async (lease : ClaimLease) (lease_seconds : Z) : svc bool :=
  access (fun t st => on_store (renew_fenced_claim st (tk_now t) lease lease_seconds) st).

Definition release_async (lease : ClaimLease) : svc unit :=
  access (fun _ st => (Ok tt, release_fenced_claim st lease)).

(** [except OperationStoreConflictError], which covers its two subclasses *)
Definition is_conflict (e : exn) : bool :=
  match e with
  | OperationStoreConflictError | OperationStoreDeadlineExceeded
  | OperationStoreFencedClaimLostError => true
  | _ => false
  end.

(** [except Exception]: a cancellation is not one, and what is outside the model is
    not caught. *)
Definition is_exception (e : exn) : bool :=
  match e with CancelledError | OutsideModel => false | _ => true end.

(** ** Reasoning about calls: rely and guarantee *)

(** A store every call keeps: reached by calls, and every operation's log replays. *)
Definition good (st : Store) : Prop :=
  reachable st /\
  forall session_id operation_id, operation_log st session_id operation_id <> [] ->
    exists s, replay_operation (operation_log st session_id operation_id) = Ok s.

(** The other workers keep the store good. *)
Definition cooperative (env : Env) : Prop :=
  forall n st, good st -> good (run_store_calls st (tk_calls (env n))).

(** [m], started in a store with [P], ends with [Q] of its outcome and store. *)
Definition triple {A} (env : Env) (P : Store -> Prop) (m : svc A)
    (Q : res A -> Store -> Prop) : Prop :=
  forall w, P (w_store w) -> Q (fst (m env w)) (w_store (snd (m env w))).

Section Rules.
Variable env : Env.

Lemma triple_ret {A} (a : A) P (Q : res A -> Store -> Prop) :
  (forall st, P st -> Q (Ok a) st) -> triple env P (ret a) Q.
Proof. intros H w. apply H. Qed.

Lemma triple_raise {A} e P (Q : res A -> Store -> Prop) :
  (forall st, P st -> Q (Err e) st) -> triple env P (raise e) Q.
Proof. intros H w. apply H. Qed.

Lemma triple_catch {A B} P (m : svc A) (k : res A -> svc B) R Q :
  triple env P m R -> (forall r, triple env (R r) (k r) Q) -> triple env P (catch m k) Q.
Proof.
  intros Hm Hk w Hw. specialize (Hm w Hw). unfold catch.
  destruct (m env w) as [r w']. apply (Hk r w' Hm).
Qed.

Lemma triple_bind {A B} P (m : svc A) (k : A -> svc B) R Q :
  triple env P m R -> (forall a, triple env (R (Ok a)) (k a) Q) ->
  (forall e st, R (Err e) st -> Q (Err e) st) -> triple env P (bind m k) Q.
Proof.
  intros Hm Hk He w Hw. specialize (Hm w Hw). unfold bind.
  destruct (m env w) as [[a|e] w']; [apply (Hk a w' Hm) | by apply He].
Qed.

(** A pure step: the outcome is known, the store untouched. *)
Lemma triple_lift {A B} P (r : res A) (k : A -> svc B) Q :
  (forall a, r = Ok a -> triple env P (k a) Q) ->
  (forall e st, P st -> Q (Err e) st) -> triple env P (bind (lift r) k) Q.
Proof.
  intros Hk He w Hw. unfold bind, lift. destruct r as [a|e]; [by apply Hk | by apply He].
Qed.

Lemma triple_pure {A} P (r : res A) (Q : res A -> Store -> Prop) :
  (forall st, P st -> Q r st) -> triple env P (lift r) Q.
Proof. intros H w. apply H. Qed.

Lemma triple_clock {B} P (k : Z -> svc B) Q :
  (forall now, triple env P (k now) Q) -> triple env P (bind clock_ms k) Q.
Proof. intros Hk w Hw. by apply Hk. Qed.

Lemma triple_weaken {A} P P' (m : svc A) (Q Q' : res A -> Store -> Prop) :
  triple env P m Q -> (forall st, P' st -> P st) -> (forall r st, Q r st -> Q' r st) ->
  triple env P' m Q'.
Proof. intros Hm HP HQ w Hw. apply HQ, Hm, HP, Hw. Qed.

Lemma triple_access {A} P (f : Tick -> Store -> res A * Store) (Q : res A -> Store -> Prop) :
  (forall n st, P st ->
     let st1 := run_store_calls st (tk_calls (env n)) in
     let out := f (env n) st1 in
     Q (fst out) (snd out) /\ Q (Err CancelledError) st1 /\ Q (Err CancelledError) (snd out)) ->
  triple env P (access f) Q.
Proof.
  intros H w Hw. specialize (H (w_access w) _ Hw). cbv zeta in H. unfold access.
  destruct (f _ _) as [r st]. destruct H as (H1 & H2 & H3).
  by destruct (tk_cancelled _) as [[]|].
Qed.

Lemma triple_finally {A} P (m : svc A) release R Q :
  triple env P m R ->
  (forall r, triple env (R r) release (fun o st =>
     match o with Ok _ => Q r st | Err e => Q (Err e) st end)) ->
  triple env P (finally m release) Q.
Proof.
  intros Hm Hr. eapply triple_catch; [exact Hm|]. intros r.
  eapply triple_bind; [apply Hr| |done]. intros []. by apply triple_pure.
Qed.
End Rules.

(** ** What a store keeps while it grows *)

Lemma operation_log_grows st calls sid oid :
  exists more, operation_log (run_store_calls st calls) sid oid
               = (operation_log st sid oid ++ more)%list.
Proof.
  destruct (run_calls_prefix calls st) as [more H].
  rewrite !operation_log_filter, H, List.filter_app. by eexists.
Qed.

(** A validated append keeps the store good. *)
Lemma good_append st calls sid oid specs deadline now now_ms new st' s :
  good st -> good (run_store_calls st calls) -> reachable st' ->
  replay_operation_with_specs now (operation_log st sid oid) specs = Ok s ->
  append_events (st_events (run_store_calls st calls)) sid oid specs
    (Some (operation_last_sequence (operation_log st sid oid))) deadline now_ms
  = Ok (st_events st', new) ->
  good st'.
Proof.
  intros [Hr _] [_ Hlogs] Hr' Hv Ha. split; [done|]. intros sid' oid' Hne.
  destruct (decide ((sid', oid') = (sid, oid))) as [[= -> ->]|Hother].
  - eexists. by eapply (append_events_replayable st calls).
  - apply append_events_atomic in Ha as (_ & _ & Hrest); [|done].
    rewrite (Hrest _ _ Hother) in *. by apply Hlogs.
Qed.

(** ** The triples of a call *)

Section Service.
Variable env : Env.
Hypothesis Henv : cooperative env.
(** The log when the call starts. *)
Variable base : list OperationEvent.

(** Good, and grown since the start. *)
Definition started (st : Store) : Prop := good st /\ base `prefix_of` st_events st.

Lemma started_others n st : started st -> started (run_store_calls st (tk_calls (env n))).
Proof.
  intros [Hg Hl]. split; [by apply Henv|]. etrans; [done|].
  destruct (run_calls_prefix (tk_calls (env n)) st) as [more ->]. by exists more.
Qed.

Lemma triple_load sid oid :
  triple env started (load sid oid) (fun r st => started st /\
    (r = Ok (store_load st sid oid) \/ r = Err CancelledError)).
Proof.
  apply triple_access. intros n st Hst. split_and!; try by apply started_others.
  all: auto.
Qed.

(** [specs] were appended to the operation whose log was [events]. *)
Definition appended (sid oid : string) (events : list OperationEvent) (specs : list EventSpec)
    (deadline : option Z) (st : Store) : Prop :=
  exists k now_ms,
    operation_log st sid oid = (events ++ numbered sid oid now_ms k specs)%list /\
    (List.length base <= k)%nat /\ forall d, deadline = Some d -> now_ms < d.

Lemma set_claim_current lease seconds now st :
  validate_claim (cl_claim_type lease) (cl_resource_id lease) (cl_owner_token lease) seconds = Ok tt ->
  claim_current (st_claims (set_claim (lease_key lease)
     (mkClaim (cl_owner_token lease) (now + seconds) (cl_generation lease)) st) !! lease_key lease)
    lease now = true.
Proof.
  intros Hv. unfold set_claim. cbn [st_claims]. rewrite fin_maps.lookup_insert_eq. cbn.
  rewrite String.eqb_refl, Z.eqb_refl. cbn. apply Z.ltb_lt.
  assert (0 < seconds); [|lia]. unfold validate_claim in Hv. res_inv Hv. lia.
Qed.

(** Renewing a claim and appending under it leave it held. *)
Lemma renewed_current st st' now lease seconds :
  renew_fenced_claim st now lease seconds = Ok (true, st') ->
  claim_current (st_claims st' !! lease_key lease) lease now = true.
Proof.
  unfold renew_fenced_claim. intros H. apply rbind_Ok in H as ([] & Hv & H).
  destruct (negb _); [done|]. injection H as <-. by eapply set_claim_current.
Qed.

Lemma fenced_append_held st sid oid specs lease renew last deadline entity now now_ms new st' :
  append_batch_if_fenced_claim st sid oid specs lease renew last deadline entity now now_ms
  = Ok (new, st') ->
  claim_current (st_claims st !! lease_key lease) lease now = true /\
  claim_current (st_claims st' !! lease_key lease) lease now = true.
Proof.
  unfold append_batch_if_fenced_claim. intros H. apply rbind_Ok in H as ([] & _ & H).
  apply rbind_Ok in H as ([] & Hv & H). apply rbind_Ok in H as ([] & _ & H).
  destruct (claim_current _ _ _) eqn:Hc; [|done]. cbn [negb] in H.
  apply rbind_Ok in H as (r & _ & [= _ <-]). split; [done|]. by eapply set_claim_current.
Qed.

(** The claim is held at the time of an access: by its owner, in its generation, and
    not expired. *)
Definition claim_held (lease : ClaimLease) (st : Store) : Prop :=
  exists n, claim_current (st_claims st !! lease_key lease) lease (tk_now (env n)) = true.

Definition fence_held (fence : AppendFence) : Store -> Prop :=
  match fence with Some (lease, _, _) => claim_held lease | None => fun _ => True end.

(** The store before the append had [P], [F] let the append through and still holds, and
    [specs] are all that was added. *)
Definition extended (F P : Store -> Prop) (sid oid : string) (specs : list EventSpec) (st : Store)
  : Prop :=
  exists st1 now_ms, P st1 /\ (started st1 /\ F st1) /\ F st /\
    st_events st = (st_events st1
                    ++ numbered sid oid now_ms (List.length (st_events st1)) specs)%list.

(** What others keep while a task waits. *)
Definition stable (P : Store -> Prop) : Prop :=
  forall n st, started st -> P st -> P (run_store_calls st (tk_calls (env n))).

Lemma stable_true : stable (fun _ => True).
Proof. done. Qed.

(** A validated append, cancelled or not, leaves the store as the others left it or
    adds exactly its events to the log that was read; it does the latter if it
    returns, and may do so if it is cancelled. *)
Lemma triple_append_events (F P : Store -> Prop)
    (f : Tick -> Store -> res (list OperationEvent * Store)) sid oid events specs deadline now s :
  stable P ->
  (forall n st new st', f (env n) st = Ok (new, st') ->
     (reachable st -> reachable st') /\ F st /\ F st' /\
     append_events (st_events st) sid oid specs (Some (operation_last_sequence events)) deadline
       (tk_now_ms (env n)) = Ok (st_events st', new)) ->
  replay_operation_with_specs now events specs = Ok s ->
  triple env (fun st => events = operation_log st sid oid /\ started st /\ P st)
    (access (fun t st => on_store (f t st) st))
    (fun r st => started st /\
       (is_ok r = false /\ P st \/
        (is_ok r = true \/ r = Err CancelledError) /\
        appended sid oid events specs deadline st /\ extended F P sid oid specs st)).
Proof.
  intros HP Hf Hv. apply triple_access. intros n st (-> & Hst & Hp) st1.
  pose proof (started_others n st Hst) as Hst1. pose proof (HP n st Hst Hp) as Hp1.
  fold st1 in Hst1, Hp1.
  destruct (f (env n) st1) as [[new st']|e] eqn:Happ; simpl; [|by auto 10].
  apply Hf in Happ as (Hreach & HF & HF' & Ha).
  assert (Hg' : good st').
  { eapply good_append; [apply Hst|apply Hst1| |exact Hv|exact Ha].
    apply Hreach, Hst1. }
  pose proof (append_events_atomic _ _ _ _ _ _ _ _ _ (proj1 (proj1 Hst)) Ha) as (_ & Hlog & _).
  apply append_events_exact in Ha as (_ & Hd & _ & Hnew & Hev).
  assert (Hst' : started st').
  { split; [done|]. rewrite Hev. etrans; [apply Hst1|]. by eexists. }
  assert (Hadded : appended sid oid (operation_log st sid oid) specs deadline st' /\
                   extended F P sid oid specs st').
  { split.
    - exists (List.length (st_events st1)), (tk_now_ms (env n)).
      rewrite <- Hnew. split; [exact Hlog|]. split; [apply prefix_length, Hst1|].
      intros d ->. cbn in Hd. destruct (Z.leb_spec d (tk_now_ms (env n))); [done|lia].
    - exists st1, (tk_now_ms (env n)). split_and!; [done..|]. by rewrite Hev, Hnew. }
  split_and!; auto.
Qed.

Lemma triple_append_specs P fence sid oid events specs deadline now s :
  stable P -> replay_operation_with_specs now events specs = Ok s ->
  triple env (fun st => events = operation_log st sid oid /\ started st /\ P st)
    (append_specs fence sid oid specs (operation_last_sequence events) deadline)
    (fun r st => started st /\
       (is_ok r = false /\ P st \/
        (is_ok r = true \/ r = Err CancelledError) /\
        appended sid oid events specs deadline st /\ extended (fence_held fence) P sid oid specs st)).
Proof.
  intros HP Hv. destruct fence as [[[lease renew] entity]|]; simpl;
    (eapply triple_append_events; [exact HP| |exact Hv]; intros n st new st' H).
  - split; [intros Hr; by eapply fenced_append_reachable|]. pose proof H as Hexact.
    apply fenced_append_exact in Hexact. apply fenced_append_held in H as [H1 H2].
    split_and!; [by exists n..|done].
  - split; [intros Hr; by eapply append_reachable|]. split_and!; [done..|]. by apply append_batch_exact.
Qed.

(** The same for a caller that only needs to know what it appended. *)
Lemma triple_append fence sid oid events specs deadline now s :
  replay_operation_with_specs now events specs = Ok s ->
  triple env (fun st => events = operation_log st sid oid /\ started st)
    (append_specs fence sid oid specs (operation_last_sequence events) deadline)
    (fun r st => started st /\
       forall new, r = Ok new -> appended sid oid events specs deadline st).
Proof.
  intros Hv. eapply triple_weaken; [by eapply (triple_append_specs (fun _ => True))| |].
  - intros st [Hev Hst]. done.
  - intros r st [Hst [[Hr _]|[_ [Happ _]]]]; split; try done. by intros new ->.
Qed.

(** [P] speaks of the events only. *)
Definition events_only (P : Store -> Prop) : Prop :=
  forall st st', st_events st' = st_events st -> P st -> P st'.

(** An access that changes claims and no event. *)
Lemma triple_claims {A} (P : Store -> Prop) (f : Tick -> Store -> res A * Store) :
  stable P -> events_only P ->
  (forall t st, st_events (snd (f t st)) = st_events st /\
     exists c, snd (f t st) = run_store_call st (tk_now t) (tk_now_ms t) c) ->
  triple env (fun st => started st /\ P st) (access f) (fun _ st => started st /\ P st).
Proof.
  intros HP Hev Hf. apply triple_access. intros n st [Hst Hp]. cbv zeta.
  pose proof (started_others n st Hst) as Hst1. pose proof (HP n st Hst Hp) as Hp1.
  destruct (Hf (env n) (run_store_calls st (tk_calls (env n)))) as [He [c Hc]].
  assert (Hst2 : started (snd (f (env n) (run_store_calls st (tk_calls (env n)))))).
  { destruct Hst1 as [[Hr Hlogs] Hpre]. split; [split|by rewrite He].
    - rewrite Hc. by apply (run_calls_reachable _ [(tk_now (env n), tk_now_ms (env n), c)]).
    - intros sid oid. rewrite !operation_log_filter, He. apply Hlogs. }
  split_and!; try done; by eapply Hev.
Qed.

Section Claims.
Variable P : Store -> Prop.
Hypothesis HP : stable P.
Hypothesis Hev : events_only P.

Lemma triple_acquire ty resource token seconds :
  triple env (fun st => started st /\ P st) (acquire_async ty resource token seconds)
    (fun _ st => started st /\ P st).
Proof.
  apply triple_claims; [done..|]. intros t st. split.
  - destruct (acquire_fenced_claim _ _ _ _ _ _) as [[b st']|] eqn:H; [|done]. cbn.
    unfold acquire_fenced_claim in H. by res_inv H.
  - exists (CallAcquire ty resource token seconds). cbn.
    by destruct (acquire_fenced_claim _ _ _ _ _ _) as [[]|].
Qed.

(** The lease that an acquisition returns is one the store gave it. *)
Lemma triple_acquired ty resource token seconds :
  triple env (fun st => started st /\ P st) (acquire_async ty resource token seconds)
    (fun r st => (started st /\ P st) /\ forall lease, r = Ok (Some lease) ->
       exists n st1 st2, started st1 /\
         acquire_fenced_claim st1 (tk_now (env n)) ty resource token seconds = Ok (Some lease, st2)).
Proof.
  intros w [Hst Hp]. split; [by apply triple_acquire|]. intros lease H.
  exists (w_access w). unfold acquire_async, access in H.
  set (st1 := run_store_calls _ _) in H. exists st1.
  assert (Hr : started st1) by by apply started_others.
  destruct (acquire_fenced_claim st1 _ _ _ _ _) as [[o st2]|e] eqn:Ea; cbn [on_store] in H;
    destruct (tk_cancelled _) as [[]|]; try done.
  cbn in H. injection H as ->. by exists st2.
Qed.

Lemma triple_renew lease seconds :
  triple env (fun st => started st /\ P st) (renew_async lease seconds)
    (fun _ st => started st /\ P st).
Proof.
  apply triple_claims; [done..|]. intros t st. split.
  - destruct (renew_fenced_claim _ _ _ _) as [[b st']|] eqn:H; [|done]. cbn.
    unfold renew_fenced_claim in H. by res_inv H.
  - exists (CallRenew lease seconds). cbn. by destruct (renew_fenced_claim _ _ _ _) as [[]|].
Qed.

(** A lease that was renewed is held. *)
Lemma triple_renewed lease seconds :
  triple env (fun st => started st /\ P st) (renew_async lease seconds)
    (fun r st => (started st /\ P st) /\ (r = Ok true -> claim_held lease st)).
Proof.
  intros w [Hst Hp]. split; [by apply triple_renew|]. intros H.
  exists (w_access w). revert H. unfold renew_async, access.
  set (st1 := run_store_calls _ _). destruct (renew_fenced_claim st1 _ _ _) as [[b st2]|e] eqn:Ea;
    cbn [on_store]; destruct (tk_cancelled _) as [[]|]; try done.
  cbn. intros [= ->]. by eapply renewed_current.
Qed.

Lemma triple_release lease :
  triple env (fun st => started st /\ P st) (release_async lease)
    (fun _ st => started st /\ P st).
Proof.
  apply triple_claims; [done..|]. intros t st. split; [|by exists (CallReleaseFenced lease)].
  cbn. unfold release_fenced_claim. by repeat case_match.
Qed.
End Claims.

(** Reading an operation, then going on with its log; the task may be cancelled. *)
Lemma load_then {A} sid oid (k : list OperationEvent -> svc A) (Q : res A -> Store -> Prop) :
  (forall events,
     triple env (fun st => events = operation_log st sid oid /\ started st) (k events) Q) ->
  (forall st, started st -> Q (Err CancelledError) st) ->
  triple env started (bind (load (Some sid) (Some oid)) k) Q.
Proof.
  intros Hk Hc. eapply triple_bind; [apply triple_load| |].
  - intros events. eapply triple_weaken; [apply (Hk events)| |done].
    by intros st [Hst [[= ->]|]].
  - intros e st [Hst [|[= ->]]]; [done|]. by apply Hc.
Qed.

Lemma triple_final_read {A} sid oid (r : list OperationEvent -> res A) (Q : Store -> Prop) :
  stable Q ->
  triple env (fun st => started st /\ Q st)
    (bind (load sid oid) (fun events => lift (r events)))
    (fun _ st => started st /\ Q st).
Proof.
  intros HQ. eapply triple_bind
    with (R := fun _ st => started st /\ Q st).
  - apply triple_access. intros n st [Hst Hq]. split_and!; first [by apply started_others|by apply HQ].
  - intros events. by apply triple_pure.
  - done.
Qed.

End Service.

Lemma started_here st : good st -> started (st_events st) st.
Proof. by split. Qed.


(** Starting an operation nobody has started keeps a store good. *)
Lemma good_start st now now_ms sid oid :
  good st ->
  good (run_store_call st now now_ms
          (CallAppend sid oid [("operation_started", [])] (Some (-1)) None)).
Proof.
  intros [Hr Hlogs]. split.
  { by apply (run_calls_reachable st [(now, now_ms, CallAppend sid oid
      [("operation_started", [])] (Some (-1)) None)]). }
  simpl. destruct (append_batch _ _ _ _ _ _ _) as [[new st']|] eqn:Ha; [|exact Hlogs].
  simpl. pose proof Ha as Hiff. apply append_batch_iff in Hiff as (_ & _ & _ & He & _ & _ & Hnew & _).
  specialize (He _ eq_refl). rewrite <- He in Ha. rewrite <- operation_last_is_last in Ha.
  apply append_batch_exact in Ha.
  destruct (append_events_atomic st [] sid oid _ _ _ new st' Hr Ha) as (_ & Hlog & Hrest).
  intros sid' oid' Hne.
  destruct (decide ((sid', oid') = (sid, oid))) as [[= -> ->]|Hother];
    [|rewrite (Hrest _ _ Hother) in *; by apply Hlogs].
  assert (Hempty : operation_log st sid oid = []).
  { rewrite <- operation_last_is_last in He. unfold operation_last_sequence in He.
    destruct (last (operation_log st sid oid)) as [e|] eqn:El; [|by apply last_None].
    apply last_Some_elem_of in El. apply list_elem_of_In, filter_In in El as [Hin _].
    apply list_elem_of_In, list_elem_of_lookup in Hin as [i Hi].
    rewrite (reachable_positional _ Hr _ _ Hi) in He. lia. }
  rewrite Hlog, Hempty, Hnew. by eexists.
Qed.

