(* ===== verification/Approvals.v ===== *)
(** * Approval service  (src/.../approval/state_machine.py)

    Requests, grants, rejections, expiry and one-time consumption of approvals,
    as transactions on the operation store, run as calls of [Service]. *)

From S2P Require Import Prelude PyDict Text PyVal Json.
From S2P Require Import OperationTypes OperationReducer OperationLifecycle OperationSafety.
From S2P Require Import OperationStore OperationLog Service.
From Stdlib Require Import String.

#[local] Open Scope string_scope.
#[local] Open Scope bool_scope.
#[local] Open Scope Z_scope.

(** ** Records *)

Definition approval_error {A} (code : string) : res A := Err (ApprovalError code).

Inductive RecordState := RecWaiting | RecApproved | RecRejected | RecExpired | RecConsumed.

#[export] Instance RecordState_eq_dec : EqDecision RecordState.
Proof. solve_decision. Defined.

Record ApprovalRecord := mkRecord {
  ar_approval_id : string;
  ar_session_id : string;
  ar_operation_id : string;
  ar_state : RecordState;
  ar_action_hash : string;
  ar_action_summary : string;
  ar_requester_id : string;
  ar_required_role : string;
  ar_expires_at : Z;
  ar_approver_id : option string
}.

Definition ar_with (state : RecordState) (approver : option string) (r : ApprovalRecord)
  : ApprovalRecord :=
  mkRecord (ar_approval_id r) (ar_session_id r) (ar_operation_id r) state (ar_action_hash r)
    (ar_action_summary r) (ar_requester_id r) (ar_required_role r) (ar_expires_at r) approver.

(** The record an [approval_requested] event opens *)
Definition requested_record (approval_id : string) (e : OperationEvent) : res ApprovalRecord :=
  let data := oe_data e in
  let! hash := py_str (jget_or data "actionHash" (VStr "")) in
  let! summary := py_str (jget_or data "actionSummary" (VStr "")) in
  let! requester := py_str (jget_or data "requesterId" (VStr "")) in
  let! role := py_str (jget_or data "requiredRole" (VStr "")) in
  let! expires := py_int (jget_or data "expiresAt" (VInt 0)) in
  Ok (mkRecord approval_id (oe_session_id e) (oe_operation_id e) RecWaiting hash summary requester
        role expires None).

(** Another event on an open record *)
Definition advance_record (e : OperationEvent) (r : ApprovalRecord) : res ApprovalRecord :=
  let ty := oe_type e in
  let settle (from to : RecordState) :=
    if bool_decide (ar_state r = from) then Ok (ar_with to (ar_approver_id r) r)
    else approval_error "invalid_approval_transition" in
  if String.eqb ty "approval_granted" then
    if bool_decide (ar_state r = RecWaiting) then
      let! approver := py_str (jget_or (oe_data e) "approverId" (VStr "")) in
      Ok (ar_with RecApproved (Some approver) r)
    else approval_error "invalid_approval_transition"
  else if String.eqb ty "approval_rejected" then settle RecWaiting RecRejected
  else if String.eqb ty "approval_expired" then settle RecWaiting RecExpired
  else if String.eqb ty "approval_consumed" then settle RecApproved RecConsumed
  else Ok r.

(** One turn of the loop of [_replay_approval] *)
Definition record_step (approval_id : string) (record : option ApprovalRecord)
    (e : OperationEvent) : res (option ApprovalRecord) :=
  if negb (is_str (jget (oe_data e) "approvalId") approval_id) then Ok record else
  if String.eqb (oe_type e) "approval_requested" then
    match record with
    | Some _ => approval_error "duplicate_approval"
    | None => let! r := requested_record approval_id e in Ok (Some r)
    end
  else
    match record with
    | None => approval_error "approval_event_without_request"
    | Some r => let! r' := advance_record e r in Ok (Some r')
    end.

(** [_replay_approval] *)
Definition replay_approval (events : list OperationEvent) (approval_id : string)
  : res ApprovalRecord :=
  let! record := foldM (record_step approval_id) None events in
  match record with
  | Some r => Ok r
  | None => approval_error "approval_not_found"
  end.

(** ** Identities *)

Record VerifiedIdentity := mkIdentity {
  vi_principal_id : string;
  vi_roles : list string;
  vi_issuer : string;
  vi_verification_id : string;
  vi_provenance : option string
}.

(** An argument at the trust boundary: exactly a [VerifiedIdentity] or not. *)
Inductive identity_arg :=
| VerifiedArg (i : VerifiedIdentity)
| ForeignArg.

(** [ApprovalService.__init__]: the session it is limited to and the identity
    validator the project injects, which may return any value or raise. *)
Record ApprovalService := mkService {
  as_session_id : option string;
  as_validator : VerifiedIdentity -> res pyval
}.

Definition assert_trusted_identity (service : ApprovalService) (identity : identity_arg)
  : res VerifiedIdentity :=
  match identity with
  | ForeignArg => approval_error "verified_identity_required"
  | VerifiedArg i =>
      match as_validator service i with
      | Ok (VBool true) => Ok i
      | Ok _ => approval_error "identity_provenance_invalid"
      | Err e => if is_exception e then approval_error "identity_provenance_invalid" else Err e
      end
  end.

(** ** Transactions *)

Definition MAX_CONFLICT_RETRIES : nat := 20.

(** [_expire]; [now] in the candidate events is the clock read after the load *)
Fixpoint expire_attempts (attempts : nat) (record : ApprovalRecord) : svc ApprovalRecord :=
  match attempts with
  | O => raise (ApprovalError "approval_conflict")
  | S attempts' =>
      await! events := load (Some (ar_session_id record)) (Some (ar_operation_id record)) in
      await! current := lift (replay_approval events (ar_approval_id record)) in
      await! now := clock_ms in
      if negb (bool_decide (ar_state current = RecWaiting)) then ret current else
      if now <? ar_expires_at current then ret current else
      let specs := [("approval_expired", [("approvalId", VStr (ar_approval_id current))])] in
      await! _ := lift (replay_operation_with_specs now events specs) in
      catch (append_specs None (ar_session_id current) (ar_operation_id current) specs
               (operation_last_sequence events) None)
        (fun r => match r with
                  | Err e => if is_conflict e then expire_attempts attempts' record else raise e
                  | Ok _ =>
                      await! events :=
                        load (Some (ar_session_id current)) (Some (ar_operation_id current)) in
                      lift (replay_approval events (ar_approval_id current))
                  end)
  end.

Definition expire (record : ApprovalRecord) : svc ApprovalRecord :=
  expire_attempts MAX_CONFLICT_RETRIES record.

(** [get] *)
Definition get (service : ApprovalService) (approval_id : string) : svc ApprovalRecord :=
  await! events := load (as_session_id service) None in
  await! record := lift (replay_approval events approval_id) in
  await! _ := lift (replay_operation
    (List.filter (in_operation (ar_session_id record) (ar_operation_id record)) events)) in
  await! now := clock_ms in
  if bool_decide (ar_state record = RecWaiting) && (ar_expires_at record <=? now)
  then expire record else ret record.

(** A transition: the event, the state it needs and the error if it is missing *)
Record Transition := mkApprovalTransition {
  at_event : EventSpec;
  at_required : RecordState;
  at_invalid_code : string
}.

(** [fenced_claim] and [renew_lease_seconds] *)
Definition Fence : Type := option (ClaimLease * Z).

(** The append inside [_append_transition] *)
Definition transition_append (current : ApprovalRecord) (specs : list EventSpec) (expected : Z)
    (deadline_ms : Z) (fence : Fence) : svc (list OperationEvent) :=
  append_specs (match fence with
                | Some (lease, renew) => Some (lease, renew, Some (ar_approval_id current))
                | None => None
                end)
    (ar_session_id current) (ar_operation_id current) specs expected (Some deadline_ms).

(** [_append_transition] *)
Fixpoint transition_attempts (attempts : nat) (record : ApprovalRecord) (t : Transition)
    (deadline_ms : Z) (fence : Fence) : svc ApprovalRecord :=
  match attempts with
  | O => raise (ApprovalError "approval_conflict")
  | S attempts' =>
      await! events := load (Some (ar_session_id record)) (Some (ar_operation_id record)) in
      await! current := lift (replay_approval events (ar_approval_id record)) in
      if negb (bool_decide (ar_state current = at_required t))
      then raise (ApprovalError (at_invalid_code t)) else
      await! now := clock_ms in
      await! _ := lift (replay_operation_with_specs now events [at_event t]) in
      catch (transition_append current [at_event t] (operation_last_sequence events) deadline_ms
               fence)
        (fun r => match r with
                  | Err OperationStoreDeadlineExceeded =>
                      await! _ := expire current in raise (ApprovalError "approval_expired")
                  | Err OperationStoreFencedClaimLostError =>
                      raise (ApprovalError "approval_resume_claim_lost")
                  | Err OperationStoreConflictError =>
                      transition_attempts attempts' record t deadline_ms fence
                  | Err e => raise e
                  | Ok _ =>
                      await! events :=
                        load (Some (ar_session_id current)) (Some (ar_operation_id current)) in
                      lift (replay_approval events (ar_approval_id current))
                  end)
  end.

Definition append_transition (record : ApprovalRecord) (t : Transition) (deadline_ms : Z)
    (fence : Fence) : svc ApprovalRecord :=
  transition_attempts MAX_CONFLICT_RETRIES record t deadline_ms fence.

(** [grant] *)
Definition grant_event (approval_id : string) (approver : VerifiedIdentity) : EventSpec :=
  ("approval_granted", [("approvalId", VStr approval_id);
                        ("approverId", VStr (vi_principal_id approver));
                        ("approverVerificationId", VStr (vi_verification_id approver))]).

Definition grant (service : ApprovalService) (approval_id : string) (approver : identity_arg)
    (allow_self_approval : bool) (fence : Fence) : svc ApprovalRecord :=
  await! approver := lift (assert_trusted_identity service approver) in
  await! record := get service approval_id in
  if negb (mem_str (ar_required_role record) (vi_roles approver))
  then raise (ApprovalError "approval_role_missing") else
  if negb allow_self_approval && String.eqb (ar_requester_id record) (vi_principal_id approver)
  then raise (ApprovalError "self_approval_forbidden") else
  append_transition record
    (mkApprovalTransition (grant_event approval_id approver) RecWaiting "approval_not_waiting")
    (ar_expires_at record) fence.

(** [reject] *)
Definition reject_event (approval_id reason : string) (approver : VerifiedIdentity) : EventSpec :=
  ("approval_rejected", [("approvalId", VStr approval_id);
                         ("approverId", VStr (vi_principal_id approver));
                         ("approverVerificationId", VStr (vi_verification_id approver));
                         ("reason", VStr reason)]).

Definition reject (service : ApprovalService) (approval_id : string) (approver : identity_arg)
    (reason : string) (fence : Fence) : svc ApprovalRecord :=
  await! approver := lift (assert_trusted_identity service approver) in
  await! record := get service approval_id in
  if negb (mem_str (ar_required_role record) (vi_roles approver))
  then raise (ApprovalError "approval_role_missing") else
  append_transition record
    (mkApprovalTransition (reject_event approval_id reason approver) RecWaiting
       "approval_not_waiting")
    (ar_expires_at record) fence.

(** [consume] *)
Definition consume_event (approval_id : string) (consumer : VerifiedIdentity) : EventSpec :=
  ("approval_consumed", [("approvalId", VStr approval_id);
                         ("consumerId", VStr (vi_principal_id consumer));
                         ("consumerVerificationId", VStr (vi_verification_id consumer))]).

Definition consume (service : ApprovalService) (approval_id : string) (action : pydict)
    (consumer : identity_arg) (fence : Fence) : svc ApprovalRecord :=
  await! consumer := lift (assert_trusted_identity service consumer) in
  await! record := get service approval_id in
  if negb (String.eqb (ar_action_hash record) (action_digest action))
  then raise (ApprovalError "approval_action_mismatch") else
  append_transition record
    (mkApprovalTransition (consume_event approval_id consumer) RecApproved "approval_not_approved")
    (ar_expires_at record) fence.

(** [build_approval_request_event]: [approval_id] is the fresh UUID, [now] the wall
    clock; the time to live is counted in whole milliseconds *)
Definition build_approval_request_event (approval_id : string) (now : Z)
    (requester : VerifiedIdentity) (action : pydict) (action_summary required_role : string)
    (ttl_ms : Z) : res pydict :=
  if ttl_ms <=? 0 then Err ValueError else
  Ok [("approvalId", VStr approval_id); ("actionHash", VStr (action_digest action));
      ("actionSummary", VStr action_summary); ("requesterId", VStr (vi_principal_id requester));
      ("requesterVerificationId", VStr (vi_verification_id requester));
      ("requiredRole", VStr required_role); ("expiresAt", VInt (now + ttl_ms))].

(** The loop of [request] *)
Fixpoint request_attempts (attempts : nat) (service : ApprovalService)
    (session_id operation_id approval_id : string) (data : pydict) : svc ApprovalRecord :=
  match attempts with
  | O => raise (ApprovalError "approval_conflict")
  | S attempts' =>
      await! events := load (Some session_id) (Some operation_id) in
      if bool_decide (events = []) then raise (ApprovalError "operation_not_found") else
      let specs := [("approval_requested", data)] in
      await! now := clock_ms in
      await! _ := lift (replay_operation_with_specs now events specs) in
      catch (await! _ := append_specs None session_id operation_id specs
                           (operation_last_sequence events) None in
             get service approval_id)
        (fun r => match r with
                  | Err e => if is_conflict e
                             then request_attempts attempts' service session_id operation_id
                                    approval_id data
                             else raise e
                  | Ok record => ret record
                  end)
  end.

(** [request] *)
Definition request (service : ApprovalService) (session_id operation_id approval_id : string)
    (now : Z) (requester : identity_arg) (action : pydict) (action_summary required_role : string)
    (ttl_ms : Z) : svc ApprovalRecord :=
  await! requester := lift (assert_trusted_identity service requester) in
  if match as_session_id service with Some i => negb (String.eqb session_id i) | None => false end
  then raise (ApprovalError "approval_session_out_of_scope") else
  await! data := lift (build_approval_request_event approval_id now requester action
                         action_summary required_role ttl_ms) in
  request_attempts MAX_CONFLICT_RETRIES service session_id operation_id approval_id data.

(** ** Records and their requests *)

(** [e] is the event that requested the approval [r] is a record of. *)
Record request_of (id : string) (e : OperationEvent) (r : ApprovalRecord) : Prop := {
  ro_type : oe_type e = "approval_requested";
  ro_approval : jget (oe_data e) "approvalId" = VStr id;
  ro_record : exists r0, requested_record id e = Ok r0 /\
                         r = ar_with (ar_state r) (ar_approver_id r) r0
}.

Lemma requested_record_ids id e r :
  requested_record id e = Ok r ->
  ar_approval_id r = id /\ ar_session_id r = oe_session_id e /\
  ar_operation_id r = oe_operation_id e.
Proof. unfold requested_record. intros H. by res_inv H. Qed.

Lemma advance_record_with e r r' :
  advance_record e r = Ok r' -> r' = ar_with (ar_state r') (ar_approver_id r') r.
Proof. unfold advance_record. intros H. res_inv H; match goal with x : ApprovalRecord |- _ => by destruct x end. Qed.

Lemma advance_record_request id e0 e r r' :
  request_of id e0 r -> advance_record e r = Ok r' -> request_of id e0 r'.
Proof.
  intros [Ht Ha (r0 & H0 & Hr)] H%advance_record_with. split; [done|done|].
  exists r0. split; [done|]. rewrite H at 1. by rewrite Hr.
Qed.

(** An open record has its request among [events]. *)
Definition record_requested (events : list OperationEvent) (id : string)
    (record : option ApprovalRecord) : Prop :=
  forall r, record = Some r -> exists e, e ∈ events /\ request_of id e r.

Lemma record_step_requested events id record e record' :
  e ∈ events -> record_requested events id record -> record_step id record e = Ok record' ->
  record_requested events id record'.
Proof.
  intros Hin Hrec Hs r ->. unfold record_step in Hs.
  destruct (is_str _ id) eqn:Hid; cbn [negb] in Hs; [|apply Hrec; by simplify_eq].
  apply is_str_spec in Hid.
  destruct (String.eqb_spec (oe_type e) "approval_requested") as [Ht|_].
  - destruct record; [done|]. destruct (requested_record id e) as [r1|] eqn:Hr; [|done].
    cbn in Hs. injection Hs as ->. exists e. split; [done|]. split; [done|done|].
    exists r. split; [done|]. by destruct r.
  - destruct record as [r1|]; [|done]. destruct (advance_record e r1) as [r2|] eqn:Hr; [|done].
    cbn in Hs. injection Hs as ->. destruct (Hrec r1 eq_refl) as (e0 & He0 & Hq).
    exists e0. split; [done|]. by eapply advance_record_request.
Qed.

Lemma replay_approval_request events id r :
  replay_approval events id = Ok r -> exists e, e ∈ events /\ request_of id e r.
Proof.
  unfold replay_approval. intros H. destruct (foldM _ _ _) as [[r'|]|] eqn:Hf; [|done..].
  cbn in H. injection H as ->.
  eapply (foldM_elem_invariant _ (record_requested events id)) in Hf; [by apply Hf| |done].
  intros *. apply record_step_requested.
Qed.

Lemma request_of_ids id e r :
  request_of id e r -> ar_approval_id r = id /\ ar_session_id r = oe_session_id e /\
                       ar_operation_id r = oe_operation_id e.
Proof. intros [_ _ (r0 & H0 & ->)]. by apply requested_record_ids in H0. Qed.

(** The record read from one operation's log carries that operation's identity. *)
Lemma replay_approval_ids st sid oid id r :
  replay_approval (operation_log st sid oid) id = Ok r ->
  ar_approval_id r = id /\ ar_session_id r = sid /\ ar_operation_id r = oid.
Proof.
  intros (e & He & Hq)%replay_approval_request. apply operation_log_elem in He as [<- <-].
  by apply request_of_ids.
Qed.

Section Service.
Variable env : Env.
Hypothesis Henv : cooperative env.
(** The log when the call starts. *)
Variable base : list OperationEvent.

#[local] Abbreviation started := (Service.started base).
#[local] Abbreviation appended := (Service.appended base).

(** The record just read belongs to the operation that was loaded. *)
Lemma read_record {A} sid oid id events (k : ApprovalRecord -> svc A) Q :
  (forall current, replay_approval events id = Ok current -> ar_approval_id current = id ->
     ar_session_id current = sid -> ar_operation_id current = oid ->
     triple env (fun st => events = operation_log st sid oid /\ started st) (k current) Q) ->
  (forall e st, started st -> Q (Err e) st) ->
  triple env (fun st => events = operation_log st sid oid /\ started st)
    (bind (lift (replay_approval events id)) k) Q.
Proof.
  intros Hk He w [Hev Hst]. unfold bind, lift.
  destruct (replay_approval events id) as [current|e] eqn:Hr; [|by apply He].
  pose proof Hr as Hids. rewrite Hev in Hids. apply replay_approval_ids in Hids as (Hi & Hs & Ho).
  by apply (Hk current eq_refl Hi Hs Ho w).
Qed.

(** [r] is a record of an approval the store holds the request of. *)
Definition requested (id : string) (st : Store) (r : ApprovalRecord) : Prop :=
  exists e, e ∈ st_events st /\ request_of id e r.

Lemma replay_requested sid oid id st r :
  replay_approval (store_load st sid oid) id = Ok r -> requested id st r.
Proof.
  intros (e & [He _]%list_elem_of_In%filter_In & Hq)%replay_approval_request.
  exists e. split; [by apply list_elem_of_In|done].
Qed.

(** The outcome every reading call guarantees. *)
Definition reads (id : string) (r : res ApprovalRecord) (st : Store) : Prop :=
  started st /\ forall record, r = Ok record -> requested id st record.

Lemma triple_expire n record :
  triple env started (expire_attempts n record) (reads (ar_approval_id record)).
Proof.
  induction n as [|n IH]; [by apply triple_raise|]. apply load_then; [done| |by split].
  intros events. apply read_record; [|by split]. intros current Hr Hid Hs Ho. apply triple_clock. intros now.
  assert (Hret : triple env (fun st => events = operation_log st (ar_session_id record)
      (ar_operation_id record) /\ started st) (ret current) (reads (ar_approval_id record))).
  { apply triple_ret. intros st [-> Hst]. split; [done|]. intros ? [= <-].
    by eapply replay_requested. }
  destruct (negb _); [exact Hret|]. destruct (_ <? _); [exact Hret|].
  apply triple_lift; [|by intros e st [_ ?]]. intros s Hv. rewrite Hs, Ho.
  eapply triple_catch; [by eapply triple_append|].
  intros [new|e].
  - apply (triple_weaken _ started _ _ (reads (ar_approval_id record)));
      [|by intros st [? _]|done].
    apply load_then; [done| |by split]. intros events'. apply triple_pure. intros st [-> Hst]. split; [done|].
    rewrite Hid. intros r. apply replay_requested.
  - destruct (is_conflict e).
    + eapply triple_weaken; [exact IH| |done]. by intros st [? _].
    + apply triple_raise. by intros st [? _].
Qed.

Lemma triple_get service id :
  triple env started (get service id) (reads id).
Proof.
  eapply triple_bind; [by apply triple_load| |by intros e st [? _]]. intros events.
  apply triple_lift; [|by intros e st [? _]]. intros record Hr.
  apply triple_lift; [|by intros e st [? _]]. intros s _. apply triple_clock. intros now.
  assert (Hid : ar_approval_id record = id).
  { apply replay_approval_request in Hr as (e & _ & Hq). by apply request_of_ids in Hq as [-> _]. }
  destruct (_ && _).
  - apply (triple_weaken _ started _ _ (reads id)); [|by intros st [? _]|done].
    rewrite <- Hid. apply triple_expire.
  - apply triple_ret. intros st [Hst [[= ->]|]]; [|done]. split; [done|]. intros ? [= <-].
    by eapply replay_requested.
Qed.

(** [t] was appended to the operation of [record] since the start, before the
    deadline and directly after a log in which the approval was in the state the
    transition needs. *)
Definition decided (record : ApprovalRecord) (t : Transition) (deadline : Z) (st : Store) : Prop :=
  exists before e after current,
    operation_log st (ar_session_id record) (ar_operation_id record)
      = (before ++ e :: after)%list /\
    event_spec e = at_event t /\ Z.of_nat (List.length base) <= oe_sequence e /\ oe_timestamp e < deadline /\
    replay_approval before (ar_approval_id record) = Ok current /\
    ar_state current = at_required t.

Lemma decided_grows record t deadline st calls :
  decided record t deadline st -> decided record t deadline (run_store_calls st calls).
Proof.
  intros (before & e & after & current & Hlog & Hrest).
  destruct (operation_log_grows st calls (ar_session_id record) (ar_operation_id record))
    as [more Hm].
  exists before, e, (after ++ more)%list, current. split; [|done].
  by rewrite Hm, Hlog, <- app_assoc.
Qed.

Lemma appended_decided record t deadline st events current :
  appended (ar_session_id record) (ar_operation_id record) events [at_event t] (Some deadline) st ->
  replay_approval events (ar_approval_id record) = Ok current ->
  ar_state current = at_required t -> decided record t deadline st.
Proof.
  intros (k & now_ms & Hlog & Hk & Hd) Hr Hs. unfold numbered in Hlog. cbn [imap] in Hlog.
  eexists events, _, [], current. split; [exact Hlog|]. unfold event_spec. cbn.
  split; [by destruct (at_event t)|]. split; [lia|]. split; [by apply Hd|]. done.
Qed.

Lemma triple_transition n record t deadline fence :
  triple env started (transition_attempts n record t deadline fence)
    (fun r st => started st /\ (is_ok r = true -> decided record t deadline st)).
Proof.
  induction n as [|n IH]; [by apply triple_raise|]. apply load_then; [done| |by split].
  intros events. apply read_record; [|by split]. intros current Hr Hid Hs Ho.
  destruct (bool_decide (ar_state current = at_required t)) eqn:Hstate; cbn [negb];
    [apply bool_decide_eq_true in Hstate | by apply triple_raise; intros st [_ ?]].
  apply triple_clock. intros now. apply triple_lift; [|by intros e st [_ ?]]. intros s Hv.
  eapply triple_catch.
  { rewrite <- Hs, <- Ho. by eapply triple_append. }
  rewrite Hs, Ho. intros [new|e].
  - eapply triple_weaken;
      [apply (triple_final_read _ Henv base _ _ _ (decided record t deadline))| |].
    + intros m st _. apply decided_grows.
    + intros st [Hst Happ]. split; [exact Hst|].
      eapply appended_decided; [by eapply Happ|done|done].
    + intros r st [? ?]. by split.
  - destruct e; try (apply triple_raise; intros st [Hst _]; by split).
    + eapply triple_weaken; [exact IH| |done]. by intros st [? _].
    + eapply triple_bind; [eapply triple_weaken; [apply triple_expire| |done]; by intros st [? _]| |].
      * intros a. apply triple_raise. by intros st [? _].
      * by intros e st [? _].
Qed.

Lemma requested_others id st r calls :
  requested id st r -> requested id (run_store_calls st calls) r.
Proof.
  intros (e & He & Hq). destruct (run_calls_prefix calls st) as [more Hm].
  exists e. split; [|done]. rewrite Hm. apply elem_of_app. by left.
Qed.

End Service.

Lemma requested_prefix id st st' r :
  requested id st r -> st_events st `prefix_of` st_events st' -> requested id st' r.
Proof.
  intros (e & He & Hq) [more Hm]. exists e. split; [|done]. rewrite Hm. apply elem_of_app. by left.
Qed.

Lemma decided_earlier base base' record t deadline st :
  base `prefix_of` base' -> decided base' record t deadline st ->
  decided base record t deadline st.
Proof.
  intros Hb%prefix_length (before & e & after & current & Hlog & Hev & Hseq & Hrest).
  exists before, e, after, current. split; [done|]. split; [done|]. split; [lia|done].
Qed.

(** A successful transition of an approval: its record, which passes [allowed], and
    the decision in the log of its operation, taken since [base]. *)
Definition settled_by (base : list OperationEvent) (id : string)
    (allowed : ApprovalRecord -> bool) (t : Transition) (st : Store) : Prop :=
  exists record, requested id st record /\ allowed record = true /\
                 decided base record t (ar_expires_at record) st.

Section Calls.
Variable env : Env.
Hypothesis Henv : cooperative env.
Variable base : list OperationEvent.

Lemma triple_settle id record allowed t fence :
  allowed record = true ->
  triple env (fun st => started base st /\ requested id st record)
    (append_transition record t (ar_expires_at record) fence)
    (fun r st => started base st /\ (is_ok r = true -> settled_by base id allowed t st)).
Proof.
  intros Hal w ([Hg Hb] & Hreq).
  destruct (triple_transition env Henv (st_events (w_store w)) MAX_CONFLICT_RETRIES record t
              (ar_expires_at record) fence w (started_here _ Hg)) as [[Hg' Hb'] Hdec].
  split; [split; [exact Hg'|by etrans]|]. intros Hok. exists record.
  split; [by eapply requested_prefix|]. split; [done|]. by eapply decided_earlier; [|apply Hdec].
Qed.

(** The shape of [grant], [reject] and [consume]: read the record, check it and
    append the transition. *)
Lemma triple_guarded service id (body : ApprovalRecord -> svc ApprovalRecord) Q :
  (forall record,
     triple env (fun st => started base st /\ requested id st record) (body record)
       (fun r st => started base st /\ (is_ok r = true -> Q st))) ->
  triple env (started base) (bind (get service id) body)
    (fun r st => started base st /\ (is_ok r = true -> Q st)).
Proof.
  intros Hbody. eapply triple_bind; [by apply triple_get| |by intros e st [? _]].
  intros record. eapply triple_weaken; [apply (Hbody record)| |done].
  intros st [Hst Hr]. split; [done|by apply Hr].
Qed.

Lemma triple_refuse {A} (code : string) P (Q : Store -> Prop) :
  (forall st, P st -> started base st) ->
  triple env P (raise (A := A) (ApprovalError code))
    (fun r st => started base st /\ (is_ok r = true -> Q st)).
Proof. intros HP. apply triple_raise. intros st Hst. split; [by apply HP|done]. Qed.

(** Who may grant or reject. *)
Definition may_grant (i : VerifiedIdentity) (allow_self_approval : bool) (r : ApprovalRecord)
  : bool :=
  mem_str (ar_required_role r) (vi_roles i) &&
  (allow_self_approval || negb (String.eqb (ar_requester_id r) (vi_principal_id i))).

Definition grant_transition (id : string) (i : VerifiedIdentity) : Transition :=
  mkApprovalTransition (grant_event id i) RecWaiting "approval_not_waiting".
Definition reject_transition (id reason : string) (i : VerifiedIdentity) : Transition :=
  mkApprovalTransition (reject_event id reason i) RecWaiting "approval_not_waiting".
Definition consume_transition (id : string) (i : VerifiedIdentity) : Transition :=
  mkApprovalTransition (consume_event id i) RecApproved "approval_not_approved".

Lemma trusted_identity service identity i :
  assert_trusted_identity service identity = Ok i ->
  identity = VerifiedArg i /\ as_validator service i = Ok (VBool true).
Proof.
  unfold assert_trusted_identity. intros Hi. destruct identity as [i'|]; [|done].
  destruct (as_validator service i') as [v|e] eqn:Hv; [|by destruct (is_exception e)].
  destruct v as [|[]| | | | |]; by simplify_eq.
Qed.

Lemma triple_trusted {A} service identity (body : VerifiedIdentity -> svc A)
    (Q : VerifiedIdentity -> Store -> Prop) :
  (forall i, identity = VerifiedArg i -> as_validator service i = Ok (VBool true) ->
     triple env (started base) (body i)
       (fun r st => started base st /\ (is_ok r = true -> Q i st))) ->
  triple env (started base) (bind (lift (assert_trusted_identity service identity)) body)
    (fun r st => started base st /\ (is_ok r = true -> exists i,
       identity = VerifiedArg i /\ as_validator service i = Ok (VBool true) /\ Q i st)).
Proof.
  intros Hbody. apply triple_lift; [|by split]. intros i Hi.
  apply trusted_identity in Hi as [-> Hv].
  eapply triple_weaken; [by apply (Hbody i)|done|]. intros r st [Hst HQ]. split; [done|].
  intros Hok. exists i. auto.
Qed.

Lemma triple_grant service id approver self fence :
  triple env (started base) (grant service id approver self fence)
    (fun r st => started base st /\ (is_ok r = true -> exists i,
       approver = VerifiedArg i /\ as_validator service i = Ok (VBool true) /\
       settled_by base id (may_grant i self) (grant_transition id i) st)).
Proof.
  apply triple_trusted. intros i _ _. apply triple_guarded. intros record.
  destruct (mem_str _ _) eqn:Hrole; cbn [negb]; [|by apply triple_refuse; intros st [? _]].
  destruct (negb self && _) eqn:Hself; [by apply triple_refuse; intros st [? _]|].
  apply triple_settle. unfold may_grant. rewrite Hrole. cbn [andb].
  destruct self; [done|]. cbn in *. by rewrite Hself.
Qed.

Lemma triple_reject service id approver reason fence :
  triple env (started base) (reject service id approver reason fence)
    (fun r st => started base st /\ (is_ok r = true -> exists i,
       approver = VerifiedArg i /\ as_validator service i = Ok (VBool true) /\
       settled_by base id (may_grant i true) (reject_transition id reason i) st)).
Proof.
  apply triple_trusted. intros i _ _. apply triple_guarded. intros record.
  destruct (mem_str _ _) eqn:Hrole; cbn [negb]; [|by apply triple_refuse; intros st [? _]].
  apply triple_settle. unfold may_grant. by rewrite Hrole.
Qed.

Definition of_action (action : pydict) (r : ApprovalRecord) : bool :=
  String.eqb (ar_action_hash r) (action_digest action).

Lemma triple_consume service id action consumer fence :
  triple env (started base) (consume service id action consumer fence)
    (fun r st => started base st /\ (is_ok r = true -> exists i,
       consumer = VerifiedArg i /\ as_validator service i = Ok (VBool true) /\
       settled_by base id (of_action action) (consume_transition id i) st)).
Proof.
  apply triple_trusted. intros i _ _. apply triple_guarded. intros record.
  destruct (String.eqb _ _) eqn:Hhash; cbn [negb]; [|by apply triple_refuse; intros st [? _]].
  by apply triple_settle.
Qed.

Lemma triple_request_attempts n service sid oid id data :
  triple env (started base) (request_attempts n service sid oid id data)
    (fun _ st => started base st).
Proof.
  induction n as [|n IH]; [by apply triple_raise|]. apply load_then; [done| |done]. intros events.
  destruct (bool_decide _); [by apply triple_raise; intros st [_ ?]|].
  apply triple_clock. intros now. apply triple_lift; [|by intros e st [_ ?]]. intros s Hv.
  eapply (triple_catch _ _ _ _ (fun _ st => started base st)).
  - eapply triple_bind; [by eapply triple_append| |by intros e st [? _]].
    intros new. eapply triple_weaken; [by apply triple_get| |].
    + by intros st [? _].
    + by intros r st [? _].
  - intros [r|e]; [by apply triple_ret|]. destruct (is_conflict e); [exact IH|by apply triple_raise].
Qed.

Lemma triple_request service sid oid id now requester action summary role ttl :
  triple env (started base) (request service sid oid id now requester action summary role ttl)
    (fun _ st => started base st).
Proof.
  apply triple_lift; [|done]. intros i _.
  destruct (match as_session_id service with Some _ => _ | None => _ end); [by apply triple_raise|].
  apply triple_lift; [|done]. intros data _. apply triple_request_attempts.
Qed.
End Calls.

(** ** The record and the reducer's approval *)

(** The states of the reducer a record's state stands for: a record does not show
    the resume, nor that an undecided or denied approval was cancelled. *)
Definition shows (r : RecordState) : list ApprovalState :=
  match r with
  | RecWaiting => [ApWaiting; ApResumeCancelled]
  | RecApproved => [ApApproved]
  | RecRejected => [ApRejected; ApResumeCancelled]
  | RecExpired => [ApExpired; ApResumeCancelled]
  | RecConsumed => consumed_states
  end.

Record agrees (r : ApprovalRecord) (a : ApprovalSnapshot) : Prop := {
  ag_state : ap_state a ∈ shows (ar_state r);
  ag_hash : ar_action_hash r = ap_action_hash a;
  ag_requester : ar_requester_id r = ap_requester_id a;
  ag_role : ar_required_role r = ap_required_role a
}.

Definition same_approval (id : string) (record : option ApprovalRecord) (s : OperationState)
  : Prop :=
  match record, dget id (op_approvals s) with
  | Some r, Some a => agrees r a
  | None, None => True
  | _, _ => False
  end.

(** The event types a record follows. *)
Definition decision_types : list string :=
  ["approval_consumed"; "approval_requested"; "approval_granted"; "approval_rejected";
   "approval_expired"].

Lemma tracked_decision ty : ty ∈ decision_types -> ty ∈ tracked_types.
Proof. intros H. by right. Qed.

Lemma write_edge_undecided s id data o ty w :
  write_edge s id data o ty w -> ty ∉ decision_types.
Proof. destruct 1; apply mem_str_false; reflexivity. Qed.

Lemma event_text_str data key v w default :
  event_text data key = Ok v -> py_str (jget_or data key default) = Ok w -> w = v.
Proof.
  unfold event_text. intros Hv Hw. destruct (jget data key) eqn:E; try done.
  rewrite (jget_or_jget _ _ _ default E) in Hw by done. destruct (nonempty s); by simplify_eq/=.
Qed.

(** Events that neither request nor decide leave the record as it is. *)
Lemma record_step_other id record e record' :
  oe_type e ∉ decision_types -> record_step id record e = Ok record' -> record' = record.
Proof.
  intros Hty Hs. apply mem_str_false in Hty. unfold record_step in Hs.
  destruct (negb _); [by simplify_eq|].
  unfold mem_str, decision_types in Hty. cbn in Hty.
  rewrite !orb_false_iff in Hty. destruct Hty as (Hc & Hr & Hg & Hj & Hx & _).
  rewrite Hr in Hs. destruct record as [r|]; [|done].
  unfold advance_record in Hs. by rewrite Hg, Hj, Hx, Hc in Hs; simplify_eq/=.
Qed.

(** An edge outside the decisions keeps what the record shows. *)
Lemma edge_keeps_agreement s id data a ty a' r :
  approval_edge s id data (Some a) ty a' -> ty ∉ decision_types -> agrees r a -> agrees r a'.
Proof.
  intros Hedge Hty [Hst Hh Hq Hr].
  inversion Hedge; subst; try (by destruct Hty; apply mem_str_spec; reflexivity);
    split; try done; cbn in *.
  all: destruct (ar_state r); cbn [shows] in *; first [in_states | clash].
Qed.

Lemma requested_agrees id e r hash requester role :
  event_text (oe_data e) "actionHash" = Ok hash ->
  event_text (oe_data e) "requesterId" = Ok requester ->
  event_text (oe_data e) "requiredRole" = Ok role -> requested_record id e = Ok r ->
  agrees r (mkApproval id ApWaiting hash requester role [] None None None RsUnregistered None).
Proof.
  intros Hh Hq Hr H. unfold requested_record in H. res_inv H.
  apply (event_text_str _ _ _ _ _ Hh) in E as ->. apply (event_text_str _ _ _ _ _ Hq) in E1 as ->.
  apply (event_text_str _ _ _ _ _ Hr) in E2 as ->. split; [left|done..].
Qed.

Lemma decision_agrees s id e a a' r r' :
  approval_edge s id (oe_data e) (Some a) (oe_type e) a' -> oe_type e ∈ decision_types ->
  agrees r a -> advance_record e r = Ok r' -> agrees r' a'.
Proof.
  intros Hedge Hin [Hst Hh Hq Hr] H.
  unfold advance_record in H. remember (oe_type e) as ty eqn:Hty. clear Hty.
  inversion Hedge; subst; cbn in H;
    try (apply mem_str_spec in Hin; vm_compute in Hin; discriminate Hin).
  all: res_inv H; split; try done; left.
Qed.

Lemma record_simulates id record s e s' record' :
  same_approval id record s -> op_step s e s' -> record_step id record e = Ok record' ->
  same_approval id record' s'.
Proof.
  intros Hsame Hstep Hrec.
  assert (Hother : oe_type e ∉ decision_types -> op_approvals s' = op_approvals s ->
                   same_approval id record' s').
  { intros Hty Happ. apply record_step_other in Hrec as ->; [|done].
    unfold same_approval in *. by rewrite Happ. }
  destruct Hstep as [_ Ha _ _ _ Hty|id' t' _ Hedge _ Ha _ _ _|id' a' Hid Hedge Ha _ _ _ _
    |id' w' _ Hedge _ _ Ha _ _|Hty _ _ Ha _ _ _].
  - apply Hother; [|done]. intros H%tracked_decision. done.
  - apply Hother; [|done]. apply tool_edge_type in Hedge. intros H%tracked_decision. done.
  - destruct (decide (id' = id)) as [->|Hne].
    + unfold same_approval in *. rewrite Ha, dget_dset_eq.
      unfold record_step in Hrec. destruct (is_str _ id) eqn:His; cbn [negb] in Hrec.
      2:{ unfold event_text in Hid. destruct (jget (oe_data e) "approvalId"); try done.
          destruct (nonempty s0); [|done]. simplify_eq. cbn in His. by rewrite String.eqb_refl in His. }
      destruct (String.eqb_spec (oe_type e) "approval_requested") as [Hty|Hty].
      * destruct record as [r|]; [done|].
        destruct (requested_record id e) as [r|] eqn:Hr; [|done]. cbn in Hrec. simplify_eq.
        rewrite Hty in Hedge. destruct (dget id (op_approvals s)); [done|].
        inversion Hedge; subst. by eapply requested_agrees.
      * destruct record as [r|]; [|done]. destruct (dget id (op_approvals s)) as [a|]; [|done].
        destruct (advance_record e r) as [r'|] eqn:Hadv; [|done]. cbn in Hrec. simplify_eq.
        destruct (mem_str (oe_type e) decision_types) eqn:Hdec.
        { apply mem_str_spec in Hdec. by eapply decision_agrees. }
        apply mem_str_false in Hdec.
        assert (r' = r) as ->; [|by eapply edge_keeps_agreement].
        assert (Hstep : record_step id (Some r) e = Ok (Some r')).
        { unfold record_step. rewrite His. cbn [negb]. apply String.eqb_neq in Hty as ->.
          by rewrite Hadv. }
        apply record_step_other in Hstep; [|done]. by simplify_eq.
    + unfold same_approval in *. rewrite Ha, dget_dset_ne by done.
      assert (Hskip : is_str (jget (oe_data e) "approvalId") id = false).
      { destruct (is_str _ id) eqn:His; [|done]. apply is_str_spec in His.
        by rewrite (event_text_of _ _ _ _ Hid His) in Hne. }
      unfold record_step in Hrec. rewrite Hskip in Hrec. cbn in Hrec. by simplify_eq.
  - apply Hother; [|done]. by eapply write_edge_undecided.
  - apply Hother; [|done]. rewrite Hty. apply mem_str_false. reflexivity.
Qed.

(** The approval service and the operation reducer agree: when both accept an
    operation's log, the service's record of an approval exists exactly when the
    reducer's does, with the same action hash, requester and role, and its state
    is the one the reducer's state shows. *)
Theorem record_agrees_with_reducer st session_id operation_id id s r :
  reachable st -> replay_operation (operation_log st session_id operation_id) = Ok s ->
  replay_approval (operation_log st session_id operation_id) id = Ok r ->
  exists a, dget id (op_approvals s) = Some a /\ agrees r a.
Proof.
  intros Hreach Hs Hr. apply replay_run in Hs as (e & s0 & es & Hsort & Hstart & Hf).
  rewrite sorted_log in Hsort by done. rewrite Hsort in Hr. unfold replay_approval in Hr.
  destruct (foldM (record_step id) _ _) as [[r'|]|] eqn:Hrec; [|done..]. cbn in Hr.
  injection Hr as ->. cbn [foldM] in Hrec. destruct (record_step id None e) as [record|] eqn:He; [|done].
  cbn [rbind] in Hrec. apply start_facts in Hstart as (_ & Happ & _ & _ & _ & _ & Hty).
  assert (Hgen : forall es s0 record, same_approval id record s0 ->
    foldM reduce_step (Some s0) es = Ok (Some s) ->
    foldM (record_step id) record es = Ok (Some r) -> same_approval id (Some r) s).
  { clear. induction es as [|e es IH]; intros s0 record H0 Hf Hrec; simpl in Hf, Hrec.
    - by simplify_eq.
    - unfold reduce_step in Hf at 1.
      destruct (reduce_operation_event (Some s0) e) as [s1|] eqn:Hred; [|done].
      destruct (record_step id record e) as [record1|] eqn:Hstep; [|done]. cbn [rbind] in *.
      apply reduce_event_step in Hred as [_ Hop].
      eapply IH; [by eapply record_simulates|done|done]. }
  assert (H0 : same_approval id record s0).
  { apply record_step_other in He as ->.
    - unfold same_approval. by rewrite Happ.
    - rewrite Hty. apply mem_str_false. reflexivity. }
  specialize (Hgen es s0 record H0 Hf Hrec). unfold same_approval in Hgen.
  destruct (dget id (op_approvals s)) as [a|]; [by exists a|done].
Qed.

(** ** Calls of the service *)

Inductive service_call :=
| SvcGet (id : string)
| SvcRequest (session_id operation_id id : string) (now : Z) (requester : identity_arg)
    (action : pydict) (summary role : string) (ttl_ms : Z)
| SvcGrant (id : string) (approver : identity_arg) (allow_self_approval : bool) (fence : Fence)
| SvcReject (id : string) (approver : identity_arg) (reason : string) (fence : Fence)
| SvcConsume (id : string) (action : pydict) (consumer : identity_arg) (fence : Fence).

Definition run_service_call (service : ApprovalService) (c : service_call) : svc ApprovalRecord :=
  match c with
  | SvcGet id => get service id
  | SvcRequest sid oid id now requester action summary role ttl =>
      request service sid oid id now requester action summary role ttl
  | SvcGrant id approver self fence => grant service id approver self fence
  | SvcReject id approver reason fence => reject service id approver reason fence
  | SvcConsume id action consumer fence => consume service id action consumer fence
  end.

Lemma triple_call env (Henv : cooperative env) base service c :
  triple env (started base) (run_service_call service c) (fun _ st => started base st).
Proof.
  destruct c as [id|sid oid id now requester action summary role ttl|id approver self fence
    |id approver reason fence|id action consumer fence]; simpl.
  2: by apply triple_request.
  all: eapply triple_weaken;
    [first [by apply triple_get | by apply triple_grant | by apply triple_reject
           | by apply triple_consume]|done|].
  all: by intros r st [? _].
Qed.

(** C11. The approval service never damages a log: whatever call is made, however
    it ends, and however other workers interleave with its reads and appends, a
    store in which every operation's log replays is left a store in which every
    operation's log replays, grown from the one it started from - provided the
    others do as much. *)
Theorem approval_service_keeps_logs_replayable service c env w :
  good (w_store w) -> cooperative env ->
  let st' := w_store (snd (run_service_call service c env w)) in
  good st' /\ st_events (w_store w) `prefix_of` st_events st'.
Proof.
  intros Hg Henv. by apply (triple_call env Henv _ service c w (started_here _ Hg)).
Qed.

(** C10. An approval is granted only by someone entitled to: when [grant] returns,
    the approver is a verified identity, holds the role the approval's request
    asks for and is not the requester unless self-approval was allowed; and the
    grant was appended by this call, before the approval's expiry, to a log in
    which the approval was still waiting. *)
Theorem granted_only_by_entitled_approver service id approver allow_self_approval fence env w r w' :
  good (w_store w) -> cooperative env ->
  grant service id approver allow_self_approval fence env w = (Ok r, w') ->
  exists i, approver = VerifiedArg i /\ as_validator service i = Ok (VBool true) /\
    settled_by (st_events (w_store w)) id (may_grant i allow_self_approval)
      (grant_transition id i) (w_store w').
Proof.
  intros Hg Henv H.
  destruct (triple_grant env Henv _ service id approver allow_self_approval fence w
              (started_here _ Hg)) as [_ Hok].
  rewrite H in Hok. by apply Hok.
Qed.

(** C9. An approval is consumed once, for the action that was approved: when
    [consume] returns, the digest of the action given is the one the approval was
    requested for, the consumption was appended by this call before the approval
    expired, while it was approved and not yet consumed, and it is the only
    consumption of that approval in its operation's log. *)
Theorem consumed_once_for_its_action service id action consumer fence env w r w' :
  good (w_store w) -> cooperative env ->
  consume service id action consumer fence env w = (Ok r, w') ->
  exists i record, consumer = VerifiedArg i /\ as_validator service i = Ok (VBool true) /\
    requested id (w_store w') record /\ ar_action_hash record = action_digest action /\
    decided (st_events (w_store w)) record (consume_transition id i) (ar_expires_at record)
      (w_store w') /\
    count (is_event "approval_consumed" "approvalId" id)
      (operation_log (w_store w') (ar_session_id record) (ar_operation_id record)) = 1%nat.
Proof.
  intros Hg Henv H.
  destruct (triple_consume env Henv _ service id action consumer fence w (started_here _ Hg))
    as [[[Hr' Hlogs] _] Hok].
  rewrite H in Hok, Hr', Hlogs. cbn [fst snd] in *.
  destruct (Hok eq_refl) as (i & Hc & Hv & record & Hreq & Hal & Hdec).
  exists i, record. split_and!; [done..|by apply String.eqb_eq|done|].
  destruct Hdec as (before & e & after & current & Hlog & Hev & _).
  destruct (Hlogs (ar_session_id record) (ar_operation_id record)) as [s Hs].
  { rewrite Hlog. by destruct before. }
  assert (Hhit : is_event "approval_consumed" "approvalId" id e = true).
  { destruct e. unfold event_spec in Hev. cbn in Hev. injection Hev as -> ->.
    unfold is_event. cbn. by rewrite String.eqb_refl. }
  assert (Hle : (count (is_event "approval_consumed" "approvalId" id)
    (operation_log (w_store w') (ar_session_id record) (ar_operation_id record)) <= 1)%nat).
  { apply (once (consumed id)) with (s := s); [|..|done].
    - intros x e' x'. apply consuming_stays.
    - intros x e' x'. apply consuming_happens.
    - intros e' x. by apply start_is_no_event. }
  apply Nat.le_antisymm; [done|]. rewrite Hlog. unfold count.
  rewrite List.filter_app, length_app. simpl. rewrite Hhit. simpl. lia.
Qed.

(** ** A worked example *)

Definition alice : VerifiedIdentity := mkIdentity "alice" ["dev"] "iam" "v-1" None.
Definition bob : VerifiedIdentity := mkIdentity "bob" ["ops"] "iam" "v-2" None.
Definition iam_service : ApprovalService := mkService (Some "s") (fun _ => Ok (VBool true)).
Definition refund : pydict := [("toolName", VStr "refund"); ("amount", VInt 5)].

(** At every access another worker tries to start an operation of its own. *)
Definition busy_env : Env := fun n =>
  mkTick [(0, 0, CallAppend "s" "other" [("operation_started", [])] (Some (-1)) None)]
    (Z.of_nat n) (50 + Z.of_nat n) (50 + Z.of_nat n) None.

Lemma busy_cooperative : cooperative busy_env.
Proof. intros n st. apply good_start. Qed.

Definition started_world : World :=
  mkWorld (run_store_call empty_store 0 0
             (CallAppend "s" "o" [("operation_started", [])] (Some (-1)) None)) 0.

Lemma started_good : good (w_store started_world).
Proof.
  apply good_start. split; [by exists []|]. intros sid oid H. by destruct H.
Qed.

Definition world_after (w : World) (calls : list service_call) : World :=
  fold_left (fun w c => snd (run_service_call iam_service c busy_env w)) calls w.

Lemma world_after_good w calls : good (w_store w) -> good (w_store (world_after w calls)).
Proof.
  revert w. induction calls as [|c calls IH]; intros w Hg; [done|]. apply IH.
  by apply (triple_call busy_env busy_cooperative _ iam_service c w (started_here _ Hg)).
Qed.

Definition ask : service_call :=
  SvcRequest "s" "o" "a-1" 50 (VerifiedArg alice) refund "refund 5" "ops" 1000.
Definition requested_world : World := Eval vm_compute in world_after started_world [ask].
Definition granted_world : World :=
  Eval vm_compute in world_after started_world
                       [ask; SvcGrant "a-1" (VerifiedArg bob) false None].

Lemma requested_good : good (w_store requested_world).
Proof.
  replace requested_world with (world_after started_world [ask]) by (vm_compute; reflexivity).
  apply world_after_good, started_good.
Qed.

Lemma granted_good : good (w_store granted_world).
Proof.
  replace granted_world
    with (world_after started_world [ask; SvcGrant "a-1" (VerifiedArg bob) false None])
    by (vm_compute; reflexivity).
  apply world_after_good, started_good.
Qed.

Lemma approval_service_keeps_logs_replayable_witness :
  good (w_store (snd (run_service_call iam_service (SvcGet "a-1") busy_env requested_world))).
Proof.
  apply (approval_service_keeps_logs_replayable iam_service (SvcGet "a-1") busy_env requested_world);
    [exact requested_good | exact busy_cooperative].
Defined.

Lemma granted_only_by_entitled_approver_witness :
  (exists r, fst (grant iam_service "a-1" (VerifiedArg bob) false None busy_env requested_world)
             = Ok r) /\
  settled_by (st_events (w_store requested_world)) "a-1" (may_grant bob false)
    (grant_transition "a-1" bob)
    (w_store (snd (grant iam_service "a-1" (VerifiedArg bob) false None busy_env requested_world))).
Proof.
  split; [eexists; vm_compute; reflexivity|].
  destruct (granted_only_by_entitled_approver iam_service "a-1" (VerifiedArg bob) false None busy_env
    requested_world
    (match fst (grant iam_service "a-1" (VerifiedArg bob) false None busy_env requested_world) with
     | Ok r => r | Err _ => mkRecord "" "" "" RecWaiting "" "" "" "" 0 None end)
    (snd (grant iam_service "a-1" (VerifiedArg bob) false None busy_env requested_world)))
    as (i & Hi & _ & Hs);
    [exact requested_good | exact busy_cooperative | vm_compute; reflexivity |].
  injection Hi as <-. exact Hs.
Defined.

Lemma consumed_once_for_its_action_witness :
  exists r w',
    consume iam_service "a-1" refund (VerifiedArg alice) None busy_env granted_world = (Ok r, w') /\
    exists i record, VerifiedArg alice = VerifiedArg i /\
      ar_action_hash record = action_digest refund /\
      count (is_event "approval_consumed" "approvalId" "a-1")
        (operation_log (w_store w') (ar_session_id record) (ar_operation_id record)) = 1%nat.
Proof.
  do 2 eexists. split; [vm_compute; reflexivity|].
  edestruct (consumed_once_for_its_action iam_service "a-1" refund (VerifiedArg alice) None busy_env
    granted_world) as (i & record & Hi & _ & _ & Hh & _ & Hc);
    [exact granted_good | exact busy_cooperative | vm_compute; reflexivity |].
  exists i, record. split; [exact Hi|]. split; [exact Hh|exact Hc].
Defined.

Lemma record_agrees_with_reducer_witness :
  exists s r a,
    replay_operation (operation_log (w_store granted_world) "s" "o") = Ok s /\
    replay_approval (operation_log (w_store granted_world) "s" "o") "a-1" = Ok r /\
    dget "a-1" (op_approvals s) = Some a /\ agrees r a.
Proof.
  eexists _, _. destruct (record_agrees_with_reducer (w_store granted_world) "s" "o" "a-1"
    (match replay_operation (operation_log (w_store granted_world) "s" "o") with
     | Ok s => s
     | Err _ => mkOperation "" "" OpRunning 0 [] [] [] [] [] [] None None end)
    (match replay_approval (operation_log (w_store granted_world) "s" "o") "a-1" with
     | Ok r => r | Err _ => mkRecord "" "" "" RecWaiting "" "" "" "" 0 None end))
    as (a & Ha & Hag).
  - exact (proj1 granted_good).
  - vm_compute. reflexivity.
  - vm_compute. reflexivity.
  - exists a. split; [vm_compute; reflexivity|]. split; [vm_compute; reflexivity|].
    split; [exact Ha|exact Hag].
Defined.

(** A cancelled approval still reads as waiting, and granting it fails with an error
    of the log instead of an [ApprovalError]. *)
Definition cancelled_world : World :=
  Eval vm_compute in
    mkWorld (run_store_call (w_store requested_world) 0 60
      (CallAppend "s" "o" [("approval_resume_cancelled", [("approvalId", VStr "a-1")])] None None))
      (w_access requested_world).

Lemma cancelled_approval_reads_as_waiting :
  exists r message w w',
    get iam_service "a-1" busy_env cancelled_world = (Ok r, w) /\ ar_state r = RecWaiting /\
    grant iam_service "a-1" (VerifiedArg bob) false None busy_env cancelled_world
    = (Err (OperationLogInvariantError message), w').
Proof.
  do 4 eexists. split; [vm_compute; reflexivity|]. split; vm_compute; reflexivity.
Qed.
