(* ===== verification/ToolErrors.v ===== *)
(** * Errors of tools  (src/.../retry/errors.py, retry/outcome.py)

    What the exceptions a tool may raise to describe a failure accept: that nothing
    was committed, that the call may be retried, that the outcome is unknown; and the
    registry of those who can find out about an unknown outcome. *)

From S2P Require Import Prelude PyDict Text PyVal.
From Stdlib Require Import String.

#[local] Open Scope string_scope.
#[local] Open Scope bool_scope.
#[local] Open Scope Z_scope.

Definition error_code_char (ch : string) : bool :=
  ascii_alnum ch || in_chars ch ["_"; "-"; "."].

(** [DefinitelyNotCommittedToolError.__init__] *)
Definition definitely_not_committed (code public_message : string) : res exn :=
  let normalized := strip code in
  if blank code then Err ValueError else
  if (128 <? py_len normalized) || negb (forallb error_code_char (utf8_chars normalized))
  then Err ValueError else
  if blank public_message then Err ValueError else
  Ok (DefinitelyNotCommittedToolError normalized (strip public_message)).

(** [RetryableToolError.__init__] *)
Definition retryable_tool_error (code : string) (retry_after_seconds : option pynum) : res exn :=
  if blank code then Err ValueError else
  if match retry_after_seconds with Some s => num_lt s (NInt 0) | None => false end
  then Err ValueError else
  Ok (RetryableToolError code retry_after_seconds 1 None).

(** [OutcomeUnknownToolError.__init__] *)
Definition outcome_unknown_tool_error (operation_id idempotency_key reconciliation_name : string)
  : res exn :=
  if negb (nonempty operation_id && nonempty idempotency_key && nonempty reconciliation_name)
  then Err ValueError else
  Ok (OutcomeUnknownToolError operation_id idempotency_key reconciliation_name).

(** ** Attributes that handlers of exceptions read *)

(** [getattr(error, "code", None)] of an exception that is raised to a handler *)
Definition exn_code (e : exn) : option string :=
  match e with
  | RuntimeInvariantError c | DomainTransitionError c | TranscriptIntegrityError c
  | ApprovalError c | WriteOperationError c | WriteOutcomeUnknownError c => Some c
  | DefinitelyNotCommittedToolError c _ | TenantContextError c
  | RetryableToolError c _ _ _ | RetryableTaskError c _ _ _ => Some c
  | HandlerError _ _ _ c => c
  | _ => None
  end.

(** [getattr(error, "operation_id", None)] *)
Definition exn_operation_id (e : exn) : option string :=
  match e with
  | OutcomeUnknownToolError id _ _ => Some id
  | HandlerError _ id _ _ => id
  | _ => None
  end.

(** [getattr(error, "reconciliation_name", None)] *)
Definition exn_reconciliation_name (e : exn) : option string :=
  match e with
  | OutcomeUnknownToolError _ _ name => Some name
  | HandlerError _ _ name _ => name
  | _ => None
  end.

(** ** Reconcilers by name  (retry/outcome.py, [OutcomeReconciliationRegistry]) *)
Section Reconcilers.
Context {T : Type}.

(** What a reconciler makes of the error; it is a function of injected code. *)
Definition OutcomeReconciler : Type := exn -> res T.
Definition Reconcilers : Type := dict OutcomeReconciler.

(** [register] *)
Definition register_reconciler (name : string) (reconciler : OutcomeReconciler)
    (registry : Reconcilers) : res Reconcilers :=
  if blank name || dmem name registry then Err ValueError
  else Ok (dset name reconciler registry).

(** [reconcile]; [cancelled n] says whether the token is cancelled at its n-th look *)
Definition reconcile_outcome (registry : Reconcilers) (operation_id key name : string)
    (cancelled : nat -> bool) : res T :=
  match dget name registry with
  | None => Err KeyError
  | Some reconciler =>
      if cancelled 0%nat then Err OperationCancelledError else
      let! result := reconciler (OutcomeUnknownToolError operation_id key name) in
      if cancelled 1%nat then Err OperationCancelledError else Ok result
  end.

(** A reconciler is never replaced, and the one registered is the one that is asked. *)
Lemma register_asks name reconciler registry registry' operation_id key cancelled :
  register_reconciler name reconciler registry = Ok registry' ->
  dget name registry = None /\
  reconcile_outcome registry' operation_id key name cancelled
  = (if cancelled 0%nat then Err OperationCancelledError else
     let! result := reconciler (OutcomeUnknownToolError operation_id key name) in
     if cancelled 1%nat then Err OperationCancelledError else Ok result) /\
  forall other, other <> name -> dget other registry' = dget other registry.
Proof.
  unfold register_reconciler, reconcile_outcome, dmem. intros H. destruct (blank name); [done|].
  destruct (dget name registry) eqn:Hd; [done|]. cbn in H. simplify_eq.
  split; [done|]. split; [by rewrite dget_dset_eq|]. intros other Hne. by apply dget_dset_ne.
Qed.
End Reconcilers.
