(* ===== verification/WriteRecord.v ===== *)
(** * Write records  (src/.../writes/state_machine.py, the values)

    What a write is to the service that executes it: the trusted authorization it
    may carry, the record its events replay to, the fence of a reconciliation, the
    hashes that bind an idempotency key to a scope, and the actions whose digests
    are compared. *)

From S2P Require Import Prelude PyDict Text Sha256 PyVal Json PyNum DurableAction.
From S2P Require Import OperationTypes OperationReducer OperationStore Approvals.
From Stdlib Require Import String.

#[local] Open Scope string_scope.
#[local] Open Scope bool_scope.
#[local] Open Scope Z_scope.

Definition write_error {A : Type} (code : string) : res A := Err (WriteOperationError code).

(** [if not p: raise WriteOperationError(code)] *)
Definition write_require (p : bool) (code : string) : res unit :=
  if p then Ok tt else write_error code.

(** ** Trusted authorization *)

Record TrustedWriteAuthorization := mkTrusted {
  ta_receipt_id : string;
  ta_action_hash : string;
  ta_verification_id : string;
  ta_consumed_at : pynum;
  ta_expires_at : pynum;
  ta_subject : pydict
}.

Definition trusted_timestamp (v : pyval) : res pynum :=
  let! n := finite_number v in
  match n with Some n => Ok n | None => Err ValueError end.

(** [TrustedWriteAuthorization.__post_init__] on the constructor's arguments *)
Definition trusted_authorization (receipt_id action_hash verification_id : string)
    (consumed_at expires_at : pyval) (subject : pydict) : res TrustedWriteAuthorization :=
  if blank receipt_id || blank action_hash || blank verification_id then Err ValueError else
  if negb (py_len action_hash =? 64) || negb (all_hex action_hash) then Err ValueError else
  let! consumed := trusted_timestamp consumed_at in
  let! expires := trusted_timestamp expires_at in
  if num_lt expires consumed then Err ValueError else
  if negb (strict_json (VDict subject)) then Err ValueError else
  Ok (mkTrusted receipt_id action_hash verification_id consumed expires subject).

Definition trusted_to_dict (t : TrustedWriteAuthorization) : res pydict :=
  let! consumed := num_float (ta_consumed_at t) in
  let! expires := num_float (ta_expires_at t) in
  Ok [("receiptId", VStr (ta_receipt_id t)); ("actionHash", VStr (ta_action_hash t));
      ("verificationId", VStr (ta_verification_id t)); ("consumedAt", VFloat consumed);
      ("expiresAt", VFloat expires); ("subject", VDict (ta_subject t))].

Definition trusted_fields : list string :=
  ["receiptId"; "actionHash"; "verificationId"; "consumedAt"; "expiresAt"; "subject"].

Definition trusted_from_dict (d : pydict) : res TrustedWriteAuthorization :=
  if negb (forallb (fun k => mem_str k trusted_fields) (dkeys d)
           && forallb (fun k => dmem k d) trusted_fields) then Err ValueError else
  match jget d "subject" with
  | VDict subject =>
      let! consumed := trusted_timestamp (jget d "consumedAt") in
      let! expires := trusted_timestamp (jget d "expiresAt") in
      let! receipt_id := py_str (jget_or d "receiptId" (VStr "")) in
      let! hash := py_str (jget_or d "actionHash" (VStr "")) in
      let! verification_id := py_str (jget_or d "verificationId" (VStr "")) in
      let! consumed := num_float consumed in
      let! expires := num_float expires in
      trusted_authorization receipt_id hash verification_id (VFloat consumed) (VFloat expires)
        subject
  | _ => Err ValueError
  end.

(** ** The record *)

Record WriteOperation := mkWriteOperation {
  wo_write_id : string;
  wo_session_id : string;
  wo_operation_id : string;
  wo_tool_name : string;
  wo_arguments : pyval;
  wo_action_hash : string;
  wo_idempotency_key_hash : string;
  wo_requester_id : string;
  wo_state : WriteState;
  wo_idempotency_hash_version : Z;
  wo_entity_id : option string;
  wo_expected_entity_version : option Z;
  wo_business_preconditions : option pydict;
  wo_tool_call_id : option string;
  wo_approval_id : option string;
  wo_result : option pydict;
  wo_trusted_authorization : option TrustedWriteAuthorization;
  wo_fencing_token : option Z;
  wo_fencing_scope : option string;
  wo_reconcile_fencing_token : option Z;
  wo_reconcile_fencing_scope : option string
}.

(** [replace(record, ...)] *)
Definition wo_update (state : WriteState) (approval_id : option string) (result : option pydict)
    (token : option Z) (scope : option string) (r : WriteOperation) : WriteOperation :=
  mkWriteOperation (wo_write_id r) (wo_session_id r) (wo_operation_id r) (wo_tool_name r)
    (wo_arguments r) (wo_action_hash r) (wo_idempotency_key_hash r) (wo_requester_id r) state
    (wo_idempotency_hash_version r) (wo_entity_id r) (wo_expected_entity_version r)
    (wo_business_preconditions r) (wo_tool_call_id r) approval_id result
    (wo_trusted_authorization r) (wo_fencing_token r) (wo_fencing_scope r) token scope.
Definition wo_to (state : WriteState) (r : WriteOperation) : WriteOperation :=
  wo_update state (wo_approval_id r) (wo_result r) (wo_reconcile_fencing_token r)
    (wo_reconcile_fencing_scope r) r.
Definition wo_settle (state : WriteState) (result : pydict) (r : WriteOperation)
  : WriteOperation :=
  wo_update state (wo_approval_id r) (Some result) (wo_reconcile_fencing_token r)
    (wo_reconcile_fencing_scope r) r.
Definition wo_fence (state : WriteState) (fence : Z * string) (r : WriteOperation)
  : WriteOperation :=
  wo_update state (wo_approval_id r) (wo_result r) (Some (fst fence)) (Some (snd fence)) r.
Definition wo_claimed_by (lease : ClaimLease) (r : WriteOperation) : WriteOperation :=
  mkWriteOperation (wo_write_id r) (wo_session_id r) (wo_operation_id r) (wo_tool_name r)
    (wo_arguments r) (wo_action_hash r) (wo_idempotency_key_hash r) (wo_requester_id r)
    (wo_state r) (wo_idempotency_hash_version r) (wo_entity_id r) (wo_expected_entity_version r)
    (wo_business_preconditions r) (wo_tool_call_id r) (wo_approval_id r) (wo_result r)
    (wo_trusted_authorization r) (Some (cl_generation lease)) (Some (cl_resource_id lease))
    (wo_reconcile_fencing_token r) (wo_reconcile_fencing_scope r).

(** ** The fence of a reconciliation *)

(** [_optional_event_fencing_token] *)
Definition event_fencing_token (data : pydict) : res (option Z) :=
  match jget data "fencingToken" with
  | VNone => Ok None
  | VInt n => if n <? 1 then write_error "invalid_write_fencing_token" else Ok (Some n)
  | _ => write_error "invalid_write_fencing_token"
  end.

(** [_optional_event_fencing_scope] *)
Definition event_fencing_scope (data : pydict) : res (option string) :=
  match jget data "fencingScope" with
  | VNone => Ok None
  | VStr s => if blank s then write_error "invalid_write_fencing_scope" else Ok (Some s)
  | _ => write_error "invalid_write_fencing_scope"
  end.

(** [_required_event_fence_pair] *)
Definition required_event_fence_pair (data : pydict) : res (Z * string) :=
  let! token := event_fencing_token data in
  let! scope := event_fencing_scope data in
  match token, scope with
  | None, None => write_error "write_fencing_pair_missing"
  | Some token, Some scope => Ok (token, scope)
  | _, _ => write_error "write_fencing_pair_incomplete"
  end.

(** [_canonical_reconcile_fencing_scope] *)
Definition canonical_reconcile_scope (r : WriteOperation) : res string :=
  fenced_claim_resource_id "write_reconcile" (wo_session_id r) (Some (wo_operation_id r))
    (Some (wo_write_id r)).

(** [_validate_canonical_reconcile_scope] *)
Definition validate_canonical_scope (r : WriteOperation) (scope : string) : res unit :=
  let! canonical := canonical_reconcile_scope r in
  write_require (String.eqb scope canonical) "invalid_write_fencing_scope".

(** [_validate_reconcile_terminal_fence] *)
Definition validate_reconcile_fence (r : WriteOperation) (data : pydict) : res unit :=
  match wo_reconcile_fencing_token r, wo_reconcile_fencing_scope r with
  | Some token, Some scope =>
      let! fence := required_event_fence_pair data in
      check! validate_canonical_scope r (snd fence) in
      write_require ((fst fence =? token) && String.eqb (snd fence) scope)
        "stale_write_fencing_pair"
  | _, _ => write_error "write_fencing_pair_missing"
  end.

(** ** Replay *)

(** The [expectedEntityVersion] of a [write_prepared] event *)
Definition prepared_version (v : pyval) : res (option Z) :=
  match v with
  | VNone => Ok None
  | VInt n => if n <? 0 then write_error "invalid_expected_entity_version" else Ok (Some n)
  | _ => write_error "invalid_expected_entity_version"
  end.

(** The record a [write_prepared] event opens *)
Definition prepared_write (write_id : string) (e : OperationEvent) : res WriteOperation :=
  let data := oe_data e in
  let! expected := prepared_version (jget data "expectedEntityVersion") in
  let! name := py_str (jget_or data "toolName" (VStr "")) in
  let! hash := py_str (jget_or data "actionHash" (VStr "")) in
  let! key_hash := py_str (jget_or data "idempotencyKeyHash" (VStr "")) in
  let! requester := py_str (jget_or data "requesterId" (VStr "")) in
  let! version := py_int (jget_or data "idempotencyHashVersion" (VInt 1)) in
  let! entity := str_or_none (jget data "entityId") in
  let! trusted := match jget data "trustedAuthorization" with
                  | VDict d => let! t := trusted_from_dict d in Ok (Some t)
                  | _ => Ok None
                  end in
  let! tool_call_id := str_or_none (jget data "toolCallId") in
  Ok (mkWriteOperation write_id (oe_session_id e) (oe_operation_id e) name
        (jget_or data "arguments" (VDict [])) hash key_hash requester WrPrepared version entity
        expected
        (match jget data "businessPreconditions" with VDict p => Some p | _ => None end)
        tool_call_id None None trusted None None None None).

Definition write_state_in (r : WriteOperation) (states : list WriteState) : res unit :=
  write_require (one_of (wo_state r) states) "invalid_write_transition".

(** The fence check of an event that ends a reconciliation *)
Definition fence_if_reconciling (r : WriteOperation) (data : pydict) : res unit :=
  if bool_decide (wo_state r = WrReconciling) then validate_reconcile_fence r data else Ok tt.

(** [write_reconcile_reentered] *)
Definition reenter_write (r : WriteOperation) (data : pydict) : res WriteOperation :=
  check! write_state_in r [WrReconciling] in
  let! fence := required_event_fence_pair data in
  check! validate_canonical_scope r (snd fence) in
  check! write_require (bool_decide (wo_reconcile_fencing_scope r = Some (snd fence)))
           "stale_write_fencing_scope" in
  check! write_require
           (match wo_reconcile_fencing_token r with Some n => n <? fst fence | None => true end)
           "stale_write_fencing_token" in
  Ok (wo_fence (wo_state r) fence r).

(** [write_failed]: also the end of a write whose approval was denied *)
Definition failed_write (r : WriteOperation) (data : pydict) : res WriteOperation :=
  let approval_denied := bool_decide (wo_state r = WrWaitingApproval)
                         && is_str (jget data "reason") "approval_not_granted" in
  check! write_require (one_of (wo_state r) [WrSubmitting; WrReconciling] || approval_denied)
           "invalid_write_transition" in
  check! fence_if_reconciling r data in
  let! result := py_dict (jget_or data "result" (VDict [])) in
  Ok (wo_settle WrFailed result r).

(** Another event on an open record; an event of another type leaves it. *)
Definition advance_write_record (e : OperationEvent) (r : WriteOperation)
  : res WriteOperation :=
  let ty := oe_type e in
  let data := oe_data e in
  if String.eqb ty "write_waiting_approval" then
    check! write_state_in r [WrPrepared] in
    let! approval_id := py_str (jget_or data "approvalId" (VStr "")) in
    Ok (wo_update WrWaitingApproval (Some approval_id) (wo_result r)
          (wo_reconcile_fencing_token r) (wo_reconcile_fencing_scope r) r)
  else if String.eqb ty "write_approved" then
    check! write_state_in r [WrPrepared; WrWaitingApproval] in Ok (wo_to WrApproved r)
  else if String.eqb ty "write_submitting" then
    check! write_state_in r [WrApproved] in Ok (wo_to WrSubmitting r)
  else if String.eqb ty "write_succeeded" then
    check! write_state_in r [WrSubmitting; WrReconciling] in
    check! fence_if_reconciling r data in
    let! result := py_dict (jget_or data "result" (VDict [])) in
    Ok (wo_settle WrSucceeded result r)
  else if String.eqb ty "write_failed" then failed_write r data
  else if String.eqb ty "write_outcome_unknown" then
    check! write_state_in r [WrSubmitting] in Ok (wo_to WrOutcomeUnknown r)
  else if String.eqb ty "write_reconciling" then
    check! write_state_in r [WrOutcomeUnknown] in
    let! fence := required_event_fence_pair data in
    check! validate_canonical_scope r (snd fence) in
    Ok (wo_fence WrReconciling fence r)
  else if String.eqb ty "write_reconcile_reentered" then reenter_write r data
  else if String.eqb ty "write_reconcile_failed" then
    check! write_state_in r [WrReconciling] in
    check! validate_reconcile_fence r data in
    Ok (wo_to WrOutcomeUnknown r)
  else if String.eqb ty "write_reconcile_deferred" then
    check! write_state_in r [WrReconciling] in
    check! validate_reconcile_fence r data in
    let! result := py_dict (jget_or data "result" (VDict [])) in
    Ok (wo_settle WrOutcomeUnknown result r)
  else Ok r.

(** One turn of the loop of [_replay_write] *)
Definition write_record_step (write_id : string) (record : option WriteOperation)
    (e : OperationEvent) : res (option WriteOperation) :=
  if negb (is_str (jget (oe_data e) "writeId") write_id) then Ok record else
  if String.eqb (oe_type e) "write_prepared" then
    match record with
    | Some _ => write_error "duplicate_write"
    | None => let! r := prepared_write write_id e in Ok (Some r)
    end
  else
    match record with
    | None => write_error "write_event_without_prepare"
    | Some r => let! r' := advance_write_record e r in Ok (Some r')
    end.

(** [_replay_write] *)
Definition replay_write (events : list OperationEvent) (write_id : string)
  : res WriteOperation :=
  let! record := foldM (write_record_step write_id) None events in
  match record with
  | Some r => Ok r
  | None => write_error "write_not_found"
  end.

(** ** Idempotency keys *)

Definition SCOPED_IDEMPOTENCY_HASH_VERSION : Z := 2.

Definition hash_idempotency_key (value : string) : res string :=
  if nonempty value then Ok (sha256_hex value) else Err ValueError.

Definition hash_scoped_idempotency_key (value session_id principal_id tool_name : string)
  : res string :=
  if negb (nonempty value) then Err ValueError else
  if negb (nonempty session_id && nonempty principal_id && nonempty tool_name)
  then Err ValueError else
  Ok (sha256_hex (json_canonical
        (VDict [("version", VInt SCOPED_IDEMPOTENCY_HASH_VERSION);
                ("sessionId", VStr session_id); ("principalId", VStr principal_id);
                ("toolName", VStr tool_name); ("key", VStr value)]))).

(** [_idempotency_hash_for_record] *)
Definition idempotency_hash_for_record (r : WriteOperation) (value : string) : res string :=
  if SCOPED_IDEMPOTENCY_HASH_VERSION <=? wo_idempotency_hash_version r
  then hash_scoped_idempotency_key value (wo_session_id r) (wo_requester_id r) (wo_tool_name r)
  else hash_idempotency_key value.

Definition idempotency_key_matches (r : WriteOperation) (value : string) : res bool :=
  let! hash := idempotency_hash_for_record r value in
  Ok (String.eqb (wo_idempotency_key_hash r) hash).

(** ** Actions *)

(** [_validate_write_preconditions] *)
Definition validate_write_preconditions (entity_id : option string)
    (expected_entity_version : option Z) (business_preconditions : option pydict) : res unit :=
  if match entity_id with Some i => negb (nonempty i) | None => false end
  then Err ValueError else
  if match expected_entity_version with
     | Some n => (n <? 0) || match entity_id with None => true | Some _ => false end
     | None => false
     end then Err ValueError else
  if match business_preconditions with
     | Some p => negb (strict_json (VDict p))
     | None => false
     end then Err ValueError else Ok tt.

(** [_write_semantic_action] *)
Definition write_semantic_action (tool_name : string) (arguments : pyval)
    (entity_id : option string) (expected_entity_version : option Z)
    (business_preconditions : option pydict) (authorization_action_hash : option string)
  : pydict :=
  ([("tool", VStr tool_name); ("arguments", arguments)]
   ++ opt_field "entityId" VStr entity_id
   ++ opt_field "expectedEntityVersion" VInt expected_entity_version
   ++ opt_field "businessPreconditions" VDict business_preconditions
   ++ opt_field "authorizationActionHash" VStr authorization_action_hash)%list.

(** [_durable_write_action] *)
Definition durable_write_action (operation_id : string) (tool_call_id : option string)
    (write_id tool_name : string) (arguments : pydict) (entity_id : option string)
    (expected_entity_version : option Z) (business_preconditions : option pydict)
    (authorization_action_hash : option string) : res pydict :=
  let! action :=
    match tool_call_id with
    | Some id =>
        let! e := envelope operation_id id tool_name arguments write_id entity_id
                    expected_entity_version business_preconditions 1 in
        Ok (envelope_to_dict e)
    | None =>
        Ok ([("version", VInt 1); ("operationId", VStr operation_id); ("toolCallId", VNone);
             ("toolName", VStr tool_name); ("arguments", VDict arguments);
             ("writeId", VStr write_id)]
            ++ opt_field "entityId" VStr entity_id
            ++ opt_field "expectedEntityVersion" VInt expected_entity_version
            ++ opt_field "businessPreconditions" VDict business_preconditions)%list
    end in
  Ok (action ++ opt_field "authorizationActionHash" VStr authorization_action_hash)%list.

(** The semantic action of a record, as [_same_idempotent_action] computes it *)
Definition record_semantic_action (r : WriteOperation) : pydict :=
  write_semantic_action (wo_tool_name r) (wo_arguments r) (wo_entity_id r)
    (wo_expected_entity_version r) (wo_business_preconditions r)
    (match wo_trusted_authorization r with Some t => Some (ta_action_hash t) | None => None end).

(** [_same_idempotent_action] *)
Definition same_idempotent_action (existing : WriteOperation) (semantic_digest : string)
  : res WriteOperation :=
  check! write_require (String.eqb (action_digest (record_semantic_action existing))
                          semantic_digest) "idempotency_conflict" in
  Ok existing.

(** ** Claims and tool calls *)

(** [_validate_plan_authorization] *)
Definition validate_plan_authorization (authorization : option TrustedWriteAuthorization)
    (plan_id step_id : option string) : res unit :=
  check! write_require (negb (missing plan_id) && negb (missing step_id))
           "write_plan_claim_scope_missing" in
  match authorization with
  | None => write_error "write_plan_authorization_missing"
  | Some t =>
      let is_opt v o := match o with Some s => is_str v s | None => false end in
      write_require (is_str (jget (ta_subject t) "source") "plan_approval_receipt"
                     && is_opt (jget (ta_subject t) "planId") plan_id
                     && is_opt (jget (ta_subject t) "stepId") step_id)
        "write_plan_claim_scope_mismatch"
  end.

(** [_fenced_write_entity_id] *)
Definition fenced_write_entity_id (r : WriteOperation) (lease : ClaimLease)
  : res (option string) :=
  let ty := cl_claim_type lease in
  if String.eqb ty "conversation_session_writer" then Ok None
  else if String.eqb ty "approval_resume" then
    if missing (wo_approval_id r) then write_error "write_fenced_claim_scope_missing"
    else Ok (wo_approval_id r)
  else if String.eqb ty "write_reconcile" then Ok (Some (wo_write_id r))
  else if String.eqb ty "plan_execution" then
    match wo_trusted_authorization r with
    | Some t =>
        match jget (ta_subject t) "planId" with
        | VStr s => if nonempty s then Ok (Some s)
                    else write_error "write_plan_authorization_missing"
        | _ => write_error "write_plan_authorization_missing"
        end
    | None => write_error "write_plan_authorization_missing"
    end
  else write_error "write_fenced_claim_type_invalid".

(** [_resume_started] *)
Definition resume_started (events : list OperationEvent) (approval_id : string) : bool :=
  existsb (fun e => String.eqb (oe_type e) "approval_resume_started"
                    && is_str (jget (oe_data e) "approvalId") approval_id) events.

(** [_tool_dispatch_specs] *)
Definition tool_dispatch_specs (events : list OperationEvent) (r : WriteOperation)
  : res (list EventSpec) :=
  match wo_tool_call_id r with
  | None => Ok []
  | Some id =>
      check! write_require
        (existsb (fun e => String.eqb (oe_type e) "tool_intent_recorded"
                    && is_str (jget (oe_data e) "toolCallId") id
                    && is_str (jget (oe_data e) "toolName") (wo_tool_name r)
                    && strict_json_equal (jget (oe_data e) "arguments") (wo_arguments r)) events)
        "tool_intent_missing" in
      if existsb (fun e => String.eqb (oe_type e) "tool_dispatch_started"
                           && is_str (jget (oe_data e) "toolCallId") id) events
      then Ok []
      else Ok [("tool_dispatch_started",
                [("toolCallId", VStr id); ("source", VStr "write_claim")])]
  end.

(** ** The context of a handler *)

Record WriteExecutionContext := mkWriteContext {
  wx_write_id : string;
  wx_session_id : string;
  wx_operation_id : string;
  wx_tool_name : string;
  wx_arguments : pyval;
  wx_idempotency_key : string;
  wx_actor : VerifiedIdentity;
  wx_action_hash : string;
  wx_requester_id : string;
  wx_tool_call_id : option string;
  wx_approval_id : option string;
  wx_entity_id : option string;
  wx_expected_entity_version : option Z;
  wx_business_preconditions : option pydict;
  wx_fencing_token : option Z;
  wx_fencing_scope : option string
}.

(** [WriteExecutionContext.__post_init__] *)
Definition write_context_ok (x : WriteExecutionContext) : res unit :=
  if match wx_fencing_token x with Some n => n <? 1 | None => false end then Err ValueError else
  match wx_fencing_token x, wx_fencing_scope x with
  | None, None => Ok tt
  | Some _, Some scope => if blank scope then Err ValueError else Ok tt
  | _, _ => Err ValueError
  end.

(** The context [execute] builds from the record it claimed *)
Definition write_context (r : WriteOperation) (idempotency_key : string)
    (actor : VerifiedIdentity) (fencing_token : option Z) (fencing_scope : option string)
  : res WriteExecutionContext :=
  let x := mkWriteContext (wo_write_id r) (wo_session_id r) (wo_operation_id r) (wo_tool_name r)
             (wo_arguments r) idempotency_key actor (wo_action_hash r) (wo_requester_id r)
             (wo_tool_call_id r) (wo_approval_id r) (wo_entity_id r)
             (wo_expected_entity_version r) (wo_business_preconditions r) fencing_token
             fencing_scope in
  check! write_context_ok x in Ok x.
