(* ===== verification/WriteAgreement.v ===== *)
(** * The write record and the reducer's write

    Two functions of the program replay the events of a write: the write service's
    [_replay_write] and the reducer of the operation log.  On every log that both
    accept they describe the same write. *)

From S2P Require Import Prelude PyDict Text PyVal Json PyNum DurableAction.
From S2P Require Import OperationTypes OperationReducer OperationLifecycle OperationSafety.
From S2P Require Import OperationStore OperationLog Service Approvals WriteRecord.
From Stdlib Require Import String.

#[local] Open Scope string_scope.
#[local] Open Scope bool_scope.
#[local] Open Scope Z_scope.

Record write_agrees (r : WriteOperation) (w : WriteSnapshot) : Prop := {
  wa_id : wo_write_id r = wr_write_id w;
  wa_state : wo_state r = wr_state w;
  wa_tool : wo_tool_name r = wr_tool_name w;
  wa_arguments : py_dict (wo_arguments r) = Ok (wr_arguments w);
  wa_hash : wo_action_hash r = wr_action_hash w;
  wa_key : wo_idempotency_key_hash r = wr_idempotency_key_hash w;
  wa_version : wo_idempotency_hash_version r = wr_idempotency_hash_version w;
  wa_entity : wo_entity_id r = wr_entity_id w;
  wa_expected : wo_expected_entity_version r = wr_expected_entity_version w;
  wa_call : wo_tool_call_id r = wr_tool_call_id w;
  wa_approval : wo_approval_id r = wr_approval_id w;
  wa_result : wo_result r = wr_result w;
  wa_token : wo_reconcile_fencing_token r = wr_reconcile_fencing_token w
}.

Definition same_write (id : string) (record : option WriteOperation) (s : OperationState) : Prop :=
  match record, dget id (op_writes s) with
  | Some r, Some w => write_agrees r w
  | None, None => True
  | _, _ => False
  end.

(** The event types a write record follows. *)
Definition write_types : list string :=
  ["write_prepared"; "write_waiting_approval"; "write_approved"; "write_submitting";
   "write_succeeded"; "write_failed"; "write_outcome_unknown"; "write_reconciling";
   "write_reconcile_reentered"; "write_reconcile_failed"; "write_reconcile_deferred"].

Lemma write_edge_types s id data o ty w : write_edge s id data o ty w -> ty ∈ write_types.
Proof. destruct 1; apply mem_str_spec; reflexivity. Qed.

(** A write event is handled by the write reducer. *)
Lemma reduce_write s e s' :
  reduce_operation_event (Some s) e = Ok s' -> oe_type e ∈ write_types ->
  reduce_write_event (op_with_sequence (oe_sequence e) s) e = Ok s'.
Proof.
  intros H Hty. unfold reduce_operation_event in H. res_inv H.
  unfold apply_operation_event in H.
  repeat (apply elem_of_cons in Hty as [Hty|Hty];
    [rewrite Hty in H; cbn in H; exact H|]).
  by apply elem_of_nil in Hty.
Qed.

Lemma same_token data o z :
  event_fencing_token data = Ok o -> optional_fencing_token data = Ok z -> o = z.
Proof.
  unfold event_fencing_token, optional_fencing_token.
  destruct (jget data "fencingToken"); intros; try done; try congruence. case_match; naive_solver.
Qed.

Lemma fence_token data fence :
  required_event_fence_pair data = Ok fence -> event_fencing_token data = Ok (Some (fst fence)).
Proof.
  unfold required_event_fence_pair. intros H. res_inv H. done.
Qed.

Lemma hash_version_int v z : hash_version v = Ok z -> py_int v = Ok z.
Proof. unfold hash_version. destruct v; try done. by case_match; intros; simplify_eq. Qed.

Lemma same_version v o o' : prepared_version v = Ok o -> expected_version v = Ok o' -> o = o'.
Proof.
  unfold prepared_version, expected_version. destruct v; intros; simplify_eq; try done.
  by destruct (z <? 0); simplify_eq.
Qed.

Lemma agrees_prepared id e r s s' :
  prepared_write id e = Ok r -> on_write_prepared s id (oe_data e) = Ok s' ->
  exists w, op_writes s' = dset id w (op_writes s) /\ write_agrees r w.
Proof.
  unfold prepared_write, on_write_prepared. intros Hr Hw. res_inv Hr. res_inv Hw.
  all: eexists; split; [reflexivity|].
  all: split; cbn; try done.
  all: try by eapply event_text_str.
  all: repeat match goal with H : hash_version _ = Ok _ |- _ => apply hash_version_int in H end.
  all: try congruence.
  all: by eapply same_version.
Qed.

Lemma fence_reenter recorded data message fence token :
  required_event_fence_pair data = Ok fence ->
  next_fencing_token recorded data message = Ok token -> fst fence = token.
Proof.
  intros Hf%fence_token. unfold next_fencing_token, required_fencing_token. intros H.
  destruct (optional_fencing_token data) as [z|] eqn:Ez; [|done].
  pose proof (same_token _ _ _ Hf Ez) as <-. cbn in H. by res_inv H.
Qed.

(** Once both accept an event, the updates are the same. *)
Lemma agrees_advance s e r r' w w' p :
  write_agrees r w -> oe_type e ∈ write_types ->
  advance_write_record e r = Ok r' -> advance_write s w (oe_type e) (oe_data e) = Ok (w', p) ->
  write_agrees r' w'.
Proof.
  intros [Hid Hst Hto Har Hha Hke Hve Hen Hex Hca Hap Hre Hok] Hty Hr Hw.
  repeat (apply elem_of_cons in Hty as [Hty|Hty];
    [unfold advance_write_record in Hr; rewrite Hty in Hr, Hw; cbn in Hr, Hw|]).
  12: by apply elem_of_nil in Hty.
  all: unfold wait_for_approval, approve_write, submit_write, succeed_write, fail_write in Hw.
  all: unfold failed_write, reenter_write in Hr.
  all: res_inv Hr; res_inv Hw.
  all: repeat match goal with E : _ = @Ok WriteSnapshot _ |- _ => progress res_inv E end.
  all: split; cbn; try done; try congruence.
  - f_equal. by eapply event_text_str.
  - eapply same_token; [by apply fence_token|done].
  - f_equal. by eapply fence_reenter.
Qed.

(** Events of other types leave an open record as it is. *)
Lemma advance_other e r r' :
  oe_type e ∉ write_types -> advance_write_record e r = Ok r' -> r' = r.
Proof.
  intros Hty%mem_str_false. unfold mem_str, write_types in Hty. cbn in Hty.
  rewrite !orb_false_iff in Hty. unfold advance_write_record. destruct_and! Hty.
  repeat match goal with E : String.eqb _ _ = false |- _ => rewrite E; clear E end. congruence.
Qed.

Lemma writes_untouched s e s' id :
  op_step s e s' -> oe_type e ∉ write_types \/ jget (oe_data e) "writeId" <> VStr id ->
  dget id (op_writes s') = dget id (op_writes s).
Proof.
  destruct 1 as [_ _ Ew _ _ _|? ? _ _ _ _ Ew _ _|? ? _ _ _ _ Ew _ _|wid w' Ht Hedge Ew _ _ _ _
    |_ _ _ _ Ew _ _]; intros Hno; try by rewrite Ew.
  destruct Hno as [Hno|Hno]; [by apply write_edge_types in Hedge|].
  rewrite Ew, dget_dset_ne; [done|]. intros <-. apply Hno.
  unfold event_text in Ht. destruct (jget _ _); try done. by destruct (nonempty s0); simplify_eq.
Qed.

Lemma write_record_simulates id record record' s e s' :
  same_write id record s -> reduce_operation_event (Some s) e = Ok s' ->
  write_record_step id record e = Ok record' -> same_write id record' s'.
Proof.
  intros Hsame Hred Hrec. pose proof Hred as Hstep. apply reduce_event_step in Hstep as [_ Hstep].
  unfold write_record_step in Hrec.
  destruct (is_str _ id) eqn:Hid; cbn [negb] in Hrec.
  2:{ simplify_eq. unfold same_write. rewrite (writes_untouched _ _ _ id Hstep); [done|].
      right. intros Heq. by rewrite Heq, (proj2 (is_str_spec _ _) eq_refl) in Hid. }
  apply is_str_spec in Hid.
  destruct (decide (oe_type e ∈ write_types)) as [Hty|Hty].
  2:{ destruct (String.eqb_spec (oe_type e) "write_prepared") as [Hp|_].
      { destruct Hty. rewrite Hp. left. }
      destruct record as [r|]; [|done].
      destruct (advance_write_record e r) as [r'|] eqn:Hr; [|done].
      apply advance_other in Hr as ->; [|done]. cbn in Hrec. simplify_eq.
      unfold same_write. by rewrite (writes_untouched _ _ _ id Hstep); [|left]. }
  pose proof (reduce_write _ _ _ Hred Hty) as Hw. unfold reduce_write_event in Hw.
  destruct (event_text _ _) as [k|] eqn:Hk; [|done]. cbn [rbind] in Hw.
  rewrite (event_text_of _ _ _ _ Hk Hid) in Hw. clear k Hk.
  destruct (String.eqb_spec (oe_type e) "write_prepared") as [Hp|Hp].
  - destruct record; [done|]. destruct (prepared_write id e) as [r|] eqn:Hr; [|done].
    cbn in Hrec. simplify_eq.
    destruct (agrees_prepared _ _ _ _ _ Hr Hw) as (w & Ew & Hag).
    unfold same_write. by rewrite Ew, dget_dset_eq.
  - destruct record as [r|]; [|done].
    destruct (advance_write_record e r) as [r'|] eqn:Hr; [|done]. cbn in Hrec. simplify_eq.
    unfold same_write in *. cbn [op_writes op_with_sequence] in Hw.
    destruct (dget id (op_writes s)) as [w|]; [|done].
    destruct (advance_write _ _ _ _) as [[w' p]|] eqn:Ha; [|done]. cbn in Hw. simplify_eq.
    cbn. rewrite dget_dset_eq. by eapply agrees_advance.
Qed.

(** Two replays of one list of events *)
Lemma run_agrees events id s r :
  foldM reduce_step None events = Ok (Some s) -> replay_write events id = Ok r ->
  exists w, dget id (op_writes s) = Some w /\ write_agrees r w.
Proof.
  unfold replay_write. intros Hf Hr.
  destruct (foldM (write_record_step id) _ _) as [[r'|]|] eqn:Hrec; [|done..]. cbn in Hr.
  injection Hr as ->. destruct events as [|e es]; [done|]. cbn [foldM] in Hf, Hrec.
  unfold reduce_step in Hf at 1. cbn [reduce_operation_event] in Hf.
  destruct (start_operation e) as [s0|] eqn:Hstart; [|done]. cbn [rbind] in Hf.
  destruct (write_record_step id None e) as [record|] eqn:He; [|done].
  cbn [rbind] in Hrec. apply start_facts in Hstart as (_ & _ & Hw & _ & _ & _ & Hty).
  assert (H0 : same_write id record s0).
  { unfold write_record_step in He. destruct (negb _); [|by rewrite Hty in He].
    simplify_eq. unfold same_write. by rewrite Hw. }
  clear e He Hty Hw. revert s0 record H0 Hf Hrec.
  induction es as [|e es IH]; intros s0 record H0 Hf Hrec; simpl in Hf, Hrec.
  - simplify_eq. unfold same_write in H0.
    destruct (dget id (op_writes s)) as [w|]; [by exists w|done].
  - unfold reduce_step in Hf at 1.
    destruct (reduce_operation_event (Some s0) e) as [s1|] eqn:Hred; [|done].
    destruct (write_record_step id record e) as [record1|] eqn:Hstep; [|done].
    cbn [rbind] in *. eapply IH; [by eapply write_record_simulates|done|done].
Qed.

Lemma log_agrees st sid oid id s r :
  reachable st -> replay_operation (operation_log st sid oid) = Ok s ->
  replay_write (operation_log st sid oid) id = Ok r ->
  exists w, dget id (op_writes s) = Some w /\ write_agrees r w.
Proof. intros Hr Hs%replay_log; [|done]. by apply run_agrees. Qed.

(** C16. The write service and the log's reducer agree on every write: on an
    operation's log that the reducer accepts, whenever the service can read a
    write's record the reducer has the same write - in the same state, with the same
    tool, arguments, action hash, idempotency key, entity, approval, result and
    reconciliation token. *)
Theorem write_record_agrees_with_reducer st session_id operation_id id s r :
  reachable st -> replay_operation (operation_log st session_id operation_id) = Ok s ->
  replay_write (operation_log st session_id operation_id) id = Ok r ->
  exists w, dget id (op_writes s) = Some w /\ write_agrees r w.
Proof. apply log_agrees. Qed.
