(* ===== verification/WriteService.v ===== *)
(** * The write service  (src/.../writes/state_machine.py, [WriteOperationService])

    An external write as a protocol over the operation log: [prepare] records it
    once per idempotency key, [execute] claims it - consuming its approval and
    recording the submission in one append - before the handler is called and
    records how it ended, [reconcile] asks what became of a write whose outcome is
    unknown.  Handlers are parameters: they may do anything a service call may do,
    and end with any value, exception or cancellation. *)

From S2P Require Import Prelude PyDict Text Sha256 PyVal Json PyNum DurableAction.
From S2P Require Import OperationTypes OperationReducer OperationStore.
From S2P Require Import Service Approvals ToolErrors WriteRecord.
From Stdlib Require Import String.

#[local] Open Scope string_scope.
#[local] Open Scope bool_scope.
#[local] Open Scope Z_scope.

(** The approval service, the lease of a reconciliation, and what the store offers *)
Record WriteOperationService := mkWriteService {
  ws_approvals : ApprovalService;
  ws_reconcile_claim_lease : Z;
  ws_atomic_transactions : bool;
  ws_cross_process_claims : bool;
  ws_fenced_claims : bool
}.

Definition MAX_WRITE_CONFLICT_RETRIES : nat := 20.

Definition write_raise {A} (code : string) : svc A := raise (WriteOperationError code).

(** ** Reading *)

(** [get] *)
Definition get_write (write_id : string) : svc WriteOperation :=
  await! events := load None None in
  await! record := lift (replay_write events write_id) in
  await! _ := lift (replay_operation
    (List.filter (in_operation (wo_session_id record) (wo_operation_id record)) events)) in
  ret record.

Definition prepared_under (key_hashes : list string) (session_id requester_id tool_name : string)
    (e : OperationEvent) : bool :=
  String.eqb (oe_type e) "write_prepared"
  && existsb (is_str (jget (oe_data e) "idempotencyKeyHash")) key_hashes
  && String.eqb (oe_session_id e) session_id
  && is_str (jget (oe_data e) "requesterId") requester_id
  && is_str (jget (oe_data e) "toolName") tool_name.

(** [_find_by_idempotency] *)
Definition find_by_idempotency (key_hashes : list string)
    (session_id requester_id tool_name : string) : svc (option WriteOperation) :=
  await! events := load None None in
  await! write_ids := lift (mapR (fun e => py_str (jget (oe_data e) "writeId"))
    (List.filter (prepared_under key_hashes session_id requester_id tool_name) events)) in
  match last write_ids with
  | Some write_id => await! r := get_write write_id in ret (Some r)
  | None => ret None
  end.

(** ** Transitions after the claim *)

(** A lost claim ends a call, another conflict lets it try again. *)
Definition on_conflict {A} (e : exn) (retry : svc A) : svc A :=
  match e with
  | OperationStoreFencedClaimLostError => write_raise "write_fenced_claim_lost"
  | _ => if is_conflict e then retry else raise e
  end.

(** [fenced_claim] and [fenced_claim_lease_seconds] *)
Definition WriteFence : Type := option ClaimLease * option Z.

(** [fenced_claim_lease_seconds or self.reconcile_claim_lease_seconds] *)
Definition fence_seconds (service : WriteOperationService) (fence : WriteFence) : Z :=
  match snd fence with
  | Some n => if n =? 0 then ws_reconcile_claim_lease service else n
  | None => ws_reconcile_claim_lease service
  end.

Definition finish_fence (service : WriteOperationService) (current : WriteOperation)
    (fence : WriteFence) : res AppendFence :=
  match fst fence with
  | None => Ok None
  | Some lease =>
      let! entity_id := fenced_write_entity_id current lease in
      Ok (Some (lease, fence_seconds service fence, entity_id))
  end.

(** [_finish_transition] *)
Fixpoint finish_attempts (attempts : nat) (service : WriteOperationService)
    (record : WriteOperation) (required : WriteState) (spec : EventSpec) (fence : WriteFence)
  : svc WriteOperation :=
  match attempts with
  | O => write_raise "write_conflict"
  | S attempts' =>
      await! events := load (Some (wo_session_id record)) (Some (wo_operation_id record)) in
      await! current := lift (replay_write events (wo_write_id record)) in
      if String.eqb (fst spec) "write_succeeded" && bool_decide (wo_state current = WrSucceeded)
      then ret current else
      if negb (bool_decide (wo_state current = required))
      then write_raise "invalid_write_transition" else
      await! now := clock_ms in
      await! _ := lift (replay_operation_with_specs now events [spec]) in
      await! fenced := lift (finish_fence service current fence) in
      catch (append_specs fenced (wo_session_id current) (wo_operation_id current) [spec]
               (operation_last_sequence events) None)
        (fun r => match r with
                  | Err e => on_conflict e (finish_attempts attempts' service record required spec
                                              fence)
                  | Ok _ =>
                      await! events :=
                        load (Some (wo_session_id current)) (Some (wo_operation_id current)) in
                      lift (replay_write events (wo_write_id current))
                  end)
  end.

Definition finish_transition (service : WriteOperationService) (record : WriteOperation)
    (required : WriteState) (event_type : string) (data : pydict) (fence : WriteFence)
  : svc WriteOperation :=
  finish_attempts MAX_WRITE_CONFLICT_RETRIES service record required (event_type, data) fence.

(** [_mark_outcome_unknown_if_submitting] *)
Definition mark_outcome_unknown (service : WriteOperationService) (claimed : WriteOperation)
    (reason : string) (fence : WriteFence) : svc unit :=
  await! current := get_write (wo_write_id claimed) in
  if negb (bool_decide (wo_state current = WrSubmitting)) then ret tt else
  await! _ := finish_transition service current WrSubmitting "write_outcome_unknown"
                [("writeId", VStr (wo_write_id current)); ("reason", VStr reason)] fence in
  ret tt.

(** ** Claims passed by the caller *)

Record ClaimArgs := mkClaimArgs {
  ca_claim : option ClaimLease;
  ca_plan_id : option string;
  ca_step_id : option string;
  ca_lease_seconds : option Z
}.

(** [claim_lease_seconds] of [prepare] and [execute] *)
Definition claim_seconds (service : WriteOperationService) (c : ClaimArgs) : res Z :=
  match ca_lease_seconds c with
  | Some n => if n <=? 0 then Err ValueError else Ok n
  | None => Ok (ws_reconcile_claim_lease service)
  end.

(** A plan identity without a plan's claim. *)
Definition names_plan (c : ClaimArgs) : bool := is_some (ca_plan_id c) || is_some (ca_step_id c).

Definition claim_fence (c : ClaimArgs) (seconds : Z) (entity_id : option string) : AppendFence :=
  match ca_claim c with
  | Some lease => Some (lease, seconds, entity_id)
  | None => None
  end.

(** ** Preparing a write *)

(** The keyword arguments of [prepare] *)
Record PrepareRequest := mkPrepare {
  pq_session_id : string;
  pq_operation_id : string;
  pq_tool_name : string;
  pq_arguments : pydict;
  pq_idempotency_key : string;
  pq_requester : identity_arg;
  pq_requires_approval : bool;
  pq_required_approval_role : string;
  pq_tool_call_id : option string;
  pq_entity_id : option string;
  pq_expected_entity_version : option Z;
  pq_business_preconditions : option pydict;
  pq_trusted_authorization : option TrustedWriteAuthorization;
  pq_authorization_action_hash : option string;
  pq_claim : ClaimArgs
}.

(** What [prepare] draws: fresh identifiers, and the clock in seconds and as the
    approval request reads it *)
Record Draws := mkDraws {
  dr_write_id : string;
  dr_approval_id : string;
  dr_now : pynum;
  dr_now_ms : Z
}.

(** [fenced_entity_id] of [prepare] *)
Definition prepare_claim_entity (q : PrepareRequest) : res (option string) :=
  let c := pq_claim q in
  match ca_claim c with
  | Some lease =>
      if String.eqb (cl_claim_type lease) "plan_execution" then
        check! validate_plan_authorization (pq_trusted_authorization q) (ca_plan_id c)
                 (ca_step_id c) in
        Ok (ca_plan_id c)
      else if String.eqb (cl_claim_type lease) "conversation_session_writer" then
        check! write_require (negb (names_plan c)) "write_fenced_claim_scope_conflict" in
        Ok None
      else write_error "write_fenced_claim_type_invalid"
  | None =>
      check! write_require (negb (names_plan c)) "write_fenced_claim_required" in
      Ok None
  end.

(** The authorization and its hash are given together and agree. *)
Definition check_authorization (q : PrepareRequest) : res unit :=
  match pq_trusted_authorization q, pq_authorization_action_hash q with
  | None, None => Ok tt
  | Some t, Some hash =>
      write_require (String.eqb (ta_action_hash t) hash) "trusted_authorization_action_mismatch"
  | _, _ => write_error "trusted_authorization_incomplete"
  end.

(** The authorization is consumed and not yet expired at [now]. *)
Definition check_freshness (q : PrepareRequest) (now : pynum) : res unit :=
  match pq_trusted_authorization q with
  | None => Ok tt
  | Some t =>
      check! write_require (negb (num_lt now (ta_consumed_at t)))
               "trusted_authorization_not_yet_consumed" in
      write_require (negb (num_lt (ta_expires_at t) now)) "trusted_authorization_expired"
  end.

Definition request_semantic_digest (q : PrepareRequest) : string :=
  action_digest (write_semantic_action (pq_tool_name q) (VDict (pq_arguments q)) (pq_entity_id q)
                   (pq_expected_entity_version q) (pq_business_preconditions q)
                   (pq_authorization_action_hash q)).

(** The data of the [write_prepared] event *)
Definition prepared_data (q : PrepareRequest) (d : Draws) (requester : VerifiedIdentity)
    (key_hash digest : string) : res pydict :=
  let! trusted := match pq_trusted_authorization q with
                  | None => Ok VNone
                  | Some t => let! v := trusted_to_dict t in Ok (VDict v)
                  end in
  Ok [("writeId", VStr (dr_write_id d)); ("toolName", VStr (pq_tool_name q));
      ("arguments", VDict (pq_arguments q)); ("actionHash", VStr digest);
      ("idempotencyKeyHash", VStr key_hash);
      ("idempotencyHashVersion", VInt SCOPED_IDEMPOTENCY_HASH_VERSION);
      ("requesterId", VStr (vi_principal_id requester));
      ("requesterVerificationId", VStr (vi_verification_id requester));
      ("toolCallId", opt_value VStr (pq_tool_call_id q));
      ("entityId", opt_value VStr (pq_entity_id q));
      ("expectedEntityVersion", opt_value VInt (pq_expected_entity_version q));
      ("businessPreconditions", opt_value VDict (pq_business_preconditions q));
      ("trustedAuthorization", trusted)].

(** The time to live of the approval a write asks for, 300 seconds *)
Definition APPROVAL_TTL_MS : Z := 300000.

(** The candidate events: prepared, then waiting for an approval or approved *)
Definition prepare_specs (q : PrepareRequest) (d : Draws) (requester : VerifiedIdentity)
    (key_hash : string) : res (list EventSpec) :=
  let! action := durable_write_action (pq_operation_id q) (pq_tool_call_id q) (dr_write_id d)
                   (pq_tool_name q) (pq_arguments q) (pq_entity_id q)
                   (pq_expected_entity_version q) (pq_business_preconditions q)
                   (pq_authorization_action_hash q) in
  let! prepared := prepared_data q d requester key_hash (action_digest action) in
  let! rest :=
    if pq_requires_approval q then
      let! approval := build_approval_request_event (dr_approval_id d) (dr_now_ms d) requester
                         action ("执行写工具 " ++ pq_tool_name q)
                         (pq_required_approval_role q) APPROVAL_TTL_MS in
      Ok [("approval_requested", approval);
          ("write_waiting_approval", [("writeId", VStr (dr_write_id d));
                                      ("approvalId", VStr (dr_approval_id d))])]
    else Ok [("write_approved", [("writeId", VStr (dr_write_id d)); ("approvalId", VNone)])] in
  Ok (("write_prepared", prepared) :: rest).

(** The loop of [prepare]: the key is looked up again before every append. *)
Fixpoint prepare_attempts (attempts : nat) (q : PrepareRequest) (requester : VerifiedIdentity)
    (key_hashes : list string) (write_id : string) (specs : list EventSpec)
    (fence : AppendFence) : svc WriteOperation :=
  match attempts with
  | O => write_raise "write_conflict"
  | S attempts' =>
      await! existing := find_by_idempotency key_hashes (pq_session_id q)
                           (vi_principal_id requester) (pq_tool_name q) in
      match existing with
      | Some r => lift (same_idempotent_action r (request_semantic_digest q))
      | None =>
          await! events := load (Some (pq_session_id q)) (Some (pq_operation_id q)) in
          if bool_decide (events = []) then write_raise "operation_not_found" else
          await! now := clock_ms in
          await! _ := lift (replay_operation_with_specs now events specs) in
          catch (append_specs fence (pq_session_id q) (pq_operation_id q) specs
                   (operation_last_sequence events) None)
            (fun r => match r with
                      | Err e => on_conflict e (prepare_attempts attempts' q requester key_hashes
                                                  write_id specs fence)
                      | Ok _ => get_write write_id
                      end)
      end
  end.

(** [prepare] *)
Definition prepare (service : WriteOperationService) (q : PrepareRequest) (d : Draws)
  : svc WriteOperation :=
  await! seconds := lift (claim_seconds service (pq_claim q)) in
  await! entity_id := lift (prepare_claim_entity q) in
  if pq_requires_approval q && is_some (pq_trusted_authorization q)
  then write_raise "duplicate_approval_boundary" else
  await! requester := lift (assert_trusted_identity (ws_approvals service) (pq_requester q)) in
  await! _ := lift (check_authorization q) in
  if pq_requires_approval q && negb (ws_atomic_transactions service)
  then write_raise "approval_atomic_store_required" else
  await! key_hash := lift (hash_scoped_idempotency_key (pq_idempotency_key q) (pq_session_id q)
                             (vi_principal_id requester) (pq_tool_name q)) in
  await! legacy := lift (hash_idempotency_key (pq_idempotency_key q)) in
  await! _ := lift (validate_write_preconditions (pq_entity_id q)
                      (pq_expected_entity_version q) (pq_business_preconditions q)) in
  await! existing := find_by_idempotency [key_hash; legacy] (pq_session_id q)
                       (vi_principal_id requester) (pq_tool_name q) in
  match existing with
  | Some r => lift (same_idempotent_action r (request_semantic_digest q))
  | None =>
      await! _ := lift (check_freshness q (dr_now d)) in
      await! specs := lift (prepare_specs q d requester key_hash) in
      prepare_attempts MAX_WRITE_CONFLICT_RETRIES q requester [key_hash; legacy] (dr_write_id d)
        specs (claim_fence (pq_claim q) seconds entity_id)
  end.

(** ** Executing a write *)

(** The keyword arguments of [execute], handlers apart *)
Record ExecuteRequest := mkExecute {
  xq_write_id : string;
  xq_actor : identity_arg;
  xq_idempotency_key : string;
  xq_approval_resume_id : option string;
  xq_fencing_token : option Z;
  xq_claim : ClaimArgs
}.

(** [handler] or [context_handler] *)
Inductive WriteCallback :=
| PlainHandler (handler : pyval -> string -> VerifiedIdentity -> svc pyval)
| ContextHandler (handler : WriteExecutionContext -> svc pyval).

(** Exactly one of the two is given. *)
Definition write_callback (handler : option (pyval -> string -> VerifiedIdentity -> svc pyval))
    (context_handler : option (WriteExecutionContext -> svc pyval)) : res WriteCallback :=
  match handler, context_handler with
  | Some h, None => Ok (PlainHandler h)
  | None, Some h => Ok (ContextHandler h)
  | _, _ => Err ValueError
  end.

(** [fenced_entity_id] of [execute]: the claim must be one that may execute this write,
    and nothing that implies a claim may come without one. *)
Definition execute_claim_entity (service : WriteOperationService) (q : ExecuteRequest)
    (record : WriteOperation) : res (option string) :=
  let c := xq_claim q in
  match ca_claim c with
  | Some lease =>
      check! write_require (bool_decide (xq_fencing_token q = Some (cl_generation lease)))
               "write_fencing_token_mismatch" in
      if String.eqb (cl_claim_type lease) "approval_resume" then
        check! write_require (is_some (xq_approval_resume_id q))
                 "write_fenced_claim_scope_missing" in
        check! write_require (negb (names_plan c)) "write_fenced_claim_scope_conflict" in
        Ok (xq_approval_resume_id q)
      else if String.eqb (cl_claim_type lease) "plan_execution" then
        check! write_require (negb (is_some (xq_approval_resume_id q)))
                 "write_fenced_claim_scope_conflict" in
        check! validate_plan_authorization (wo_trusted_authorization record) (ca_plan_id c)
                 (ca_step_id c) in
        Ok (ca_plan_id c)
      else if String.eqb (cl_claim_type lease) "conversation_session_writer" then
        check! write_require (negb (names_plan c)) "write_fenced_claim_scope_conflict" in
        Ok None
      else write_error "write_fenced_claim_type_invalid"
  | None =>
      check! write_require
        (negb (is_some (xq_approval_resume_id q)
               && (is_some (xq_fencing_token q) || ws_cross_process_claims service))
         && negb (names_plan c) && negb (is_some (xq_fencing_token q)))
        "write_fenced_claim_required" in
      Ok None
  end.

(** The events of a write that waits for its approval, and the approval's deadline if
    it is consumed here *)
Definition approval_specs (q : ExecuteRequest) (actor : VerifiedIdentity)
    (events : list OperationEvent) (current : WriteOperation)
  : res (list EventSpec * option Z) :=
  match wo_approval_id current with
  | None => write_error "approval_missing"
  | Some approval_id =>
      let! approval := replay_approval events approval_id in
      if negb (one_of (ar_state approval) [RecApproved; RecConsumed])
      then Err (ApprovalError "approval_not_approved") else
      check! write_require (String.eqb (ar_action_hash approval) (wo_action_hash current))
               "approval_action_mismatch" in
      let consuming := bool_decide (ar_state approval = RecApproved) in
      let consumption :=
        if consuming
        then [("approval_consumed",
               [("approvalId", VStr approval_id); ("consumerId", VStr (vi_principal_id actor));
                ("consumerVerificationId", VStr (vi_verification_id actor))])]
        else [] in
      let resume :=
        match xq_approval_resume_id q with
        | Some resume_id =>
            if resume_started events resume_id then []
            else [("approval_resume_started",
                   [("approvalId", VStr resume_id);
                    ("consumerId", VStr (vi_principal_id actor));
                    ("fencingToken", opt_value VInt (xq_fencing_token q))])]
        | None => []
        end in
      Ok ((consumption ++ resume
           ++ [("write_approved", [("writeId", VStr (xq_write_id q));
                                   ("approvalId", VStr approval_id)])])%list,
          if consuming then Some (ar_expires_at approval) else None)
  end.

Definition submit_event (write_id : string) (actor : VerifiedIdentity) : EventSpec :=
  ("write_submitting", [("writeId", VStr write_id); ("actorId", VStr (vi_principal_id actor));
                        ("actorVerificationId", VStr (vi_verification_id actor))]).

(** Everything one claim appends, in order *)
Definition claim_specs (q : ExecuteRequest) (actor : VerifiedIdentity)
    (events : list OperationEvent) (current : WriteOperation)
  : res (list EventSpec * option Z) :=
  let! approval :=
    if bool_decide (wo_state current = WrWaitingApproval)
    then approval_specs q actor events current
    else check! write_require (bool_decide (wo_state current = WrApproved))
                  "write_not_executable" in
         Ok ([], None) in
  let! dispatch := tool_dispatch_specs events current in
  Ok ((fst approval ++ dispatch ++ [submit_event (xq_write_id q) actor])%list, snd approval).

Inductive claim_outcome :=
| AlreadySucceeded (r : WriteOperation)
| ClaimedWrite (r : WriteOperation).

(** The loop of [execute] that claims the write *)
Fixpoint claim_attempts (attempts : nat) (q : ExecuteRequest) (actor : VerifiedIdentity)
    (record : WriteOperation) (fence : AppendFence) : svc claim_outcome :=
  match attempts with
  | O => write_raise "write_conflict"
  | S attempts' =>
      await! events := load (Some (wo_session_id record)) (Some (wo_operation_id record)) in
      await! current := lift (replay_write events (xq_write_id q)) in
      if match xq_approval_resume_id q with
         | Some id => negb (bool_decide (wo_approval_id current = Some id))
         | None => false
         end
      then write_raise "approval_resume_write_mismatch" else
      if bool_decide (wo_state current = WrSucceeded) then ret (AlreadySucceeded current) else
      await! specs := lift (claim_specs q actor events current) in
      await! now := clock_ms in
      await! _ := lift (replay_operation_with_specs now events (fst specs)) in
      catch (append_specs fence (wo_session_id current) (wo_operation_id current) (fst specs)
               (operation_last_sequence events) (snd specs))
        (fun r => match r with
                  | Err OperationStoreDeadlineExceeded => raise (ApprovalError "approval_expired")
                  | Err e => on_conflict e (claim_attempts attempts' q actor record fence)
                  | Ok _ => ret (ClaimedWrite (wo_to WrSubmitting current))
                  end)
  end.

(** The call of the handler; building the context may raise as well. *)
Definition call_handler (q : ExecuteRequest) (actor : VerifiedIdentity) (callback : WriteCallback)
    (claimed : WriteOperation) : svc pyval :=
  match callback with
  | ContextHandler handler =>
      await! x := lift (write_context claimed (xq_idempotency_key q) actor (xq_fencing_token q)
                          (match ca_claim (xq_claim q) with
                           | Some lease => Some (cl_resource_id lease)
                           | None => None
                           end)) in
      handler x
  | PlainHandler handler => handler (wo_arguments claimed) (xq_idempotency_key q) actor
  end.

(** [is_outcome_unknown_error] *)
Definition is_outcome_unknown_error (e : exn) : bool :=
  match e with
  | OutcomeUnknownToolError _ _ _ | WriteOutcomeUnknownError _ | HandlerError true _ _ _
  | ResourceLeaseLostError true => true
  | _ => false
  end.

Definition text_attribute (key : string) (value : option string) : pydict :=
  match value with
  | Some s => if nonempty s then [(key, VStr s)] else []
  | None => []
  end.

(** [_outcome_unknown_event_data], with the default reason *)
Definition outcome_unknown_data (write_id : string) (e : exn) : pydict :=
  ([("writeId", VStr write_id)]
   ++ text_attribute "operationId" (exn_operation_id e)
   ++ text_attribute "reconciliationName" (exn_reconciliation_name e)
   ++ text_attribute "errorCode" (exn_code e)
   ++ [("reason", VStr "handler_exception_after_dispatch")])%list.

Section Conclude.
Context (service : WriteOperationService) (claimed : WriteOperation) (fence : WriteFence).

(** The shielded cleanup of a cancelled call: it runs to its end, then the
    cancellation goes on. *)
Definition cancel_cleanup (reason : string) : svc WriteOperation :=
  catch (mark_outcome_unknown service claimed reason fence)
    (fun r => match r with
              | Err OutsideModel => raise OutsideModel
              | _ => raise CancelledError
              end).

(** A transition that must be recorded before [e] is raised; if it is not, [code]. *)
Definition record_then_raise (event_type : string) (data : pydict) (code : string) (e : exn)
  : svc WriteOperation :=
  catch (finish_transition service claimed WrSubmitting event_type data fence)
    (fun r => match r with
              | Ok _ => raise e
              | Err e' => if is_exception e' then raise (WriteOutcomeUnknownError code)
                          else raise e'
              end).

(** The handler raised [e]. *)
Definition handler_raised (e : exn) : svc WriteOperation :=
  match e with
  | CancelledError => cancel_cleanup "execution_cancelled"
  | OutsideModel => raise OutsideModel
  | DefinitelyNotCommittedToolError code _ =>
      record_then_raise "write_failed"
        [("writeId", VStr (wo_write_id claimed)); ("errorCode", VStr code);
         ("definitelyNotCommitted", VBool true)]
        "write_failure_persistence_unknown" e
  | _ =>
      record_then_raise "write_outcome_unknown" (outcome_unknown_data (wo_write_id claimed) e)
        "write_outcome_unknown_persistence_failed"
        (if is_outcome_unknown_error e then e
         else WriteOutcomeUnknownError "write_handler_outcome_unknown")
  end.

(** The handler returned: from here on nothing counts as a failure any more. *)
Definition handler_returned (result : pyval) : svc WriteOperation :=
  catch (finish_transition service claimed WrSubmitting "write_succeeded"
           [("writeId", VStr (wo_write_id claimed)); ("result", result)] fence)
    (fun r => match r with
              | Ok final => ret final
              | Err CancelledError => cancel_cleanup "success_persistence_cancelled"
              | Err OutsideModel => raise OutsideModel
              | Err _ =>
                  catch (mark_outcome_unknown service claimed
                           "write_succeeded_persistence_failed" fence)
                    (fun r => match r with
                              | Err e => if is_exception e
                                         then raise (WriteOutcomeUnknownError
                                                       "write_success_persistence_unknown")
                                         else raise e
                              | Ok _ => raise (WriteOutcomeUnknownError
                                                 "write_success_persistence_unknown")
                              end)
              end).

(** What [execute] does with the handler's call [m]. *)
Definition conclude_write (m : svc pyval) : svc WriteOperation :=
  catch m (fun out => match out with
                      | Ok result => handler_returned result
                      | Err e => handler_raised e
                      end).
End Conclude.

(** The claim and what it is made with: actor, seconds of the lease *)
Definition claim_write (service : WriteOperationService) (q : ExecuteRequest)
    (with_context : bool) : svc (claim_outcome * VerifiedIdentity * Z) :=
  if match xq_fencing_token q with Some n => n <? 1 | None => false end
  then raise ValueError else
  await! record := get_write (xq_write_id q) in
  await! actor := lift (assert_trusted_identity (ws_approvals service) (xq_actor q)) in
  await! seconds := lift (claim_seconds service (xq_claim q)) in
  await! entity_id := lift (execute_claim_entity service q record) in
  if is_some (ca_claim (xq_claim q)) && negb with_context
  then write_raise "write_fenced_context_handler_required" else
  if is_some (wo_approval_id record) && negb (ws_atomic_transactions service)
  then write_raise "approval_atomic_store_required" else
  await! matches := lift (idempotency_key_matches record (xq_idempotency_key q)) in
  if negb matches then write_raise "idempotency_key_mismatch" else
  await! outcome := claim_attempts MAX_WRITE_CONFLICT_RETRIES q actor record
                      (claim_fence (xq_claim q) seconds entity_id) in
  ret (outcome, actor, seconds).

(** [execute] *)
Definition execute (service : WriteOperationService) (q : ExecuteRequest)
    (handler : option (pyval -> string -> VerifiedIdentity -> svc pyval))
    (context_handler : option (WriteExecutionContext -> svc pyval)) : svc WriteOperation :=
  await! callback := lift (write_callback handler context_handler) in
  await! claim := claim_write service q
                    (match callback with ContextHandler _ => true | PlainHandler _ => false end) in
  let '(outcome, actor, seconds) := claim in
  match outcome with
  | AlreadySucceeded r => ret r
  | ClaimedWrite claimed =>
      conclude_write service claimed (ca_claim (xq_claim q), Some seconds)
        (call_handler q actor callback claimed)
  end.

(** ** Reconciling a write *)

(** Renewing a reconciliation's claim, any error meaning that it is lost *)
Definition renew_held (service : WriteOperationService) (lease : ClaimLease) : svc bool :=
  catch (renew_async lease (ws_reconcile_claim_lease service))
    (fun r => match r with
              | Ok b => ret b
              | Err e => if is_exception e then ret false else raise e
              end).

(** [_renew_reconcile_claim], the heartbeat that runs beside the handler: whether it
    has noticed within [rounds] turns that the claim is lost *)
Fixpoint renew_reconcile_claim (rounds : nat) (service : WriteOperationService)
    (lease : ClaimLease) : svc bool :=
  match rounds with
  | O => ret false
  | S rounds' =>
      await! held := renew_held service lease in
      if held then renew_reconcile_claim rounds' service lease else ret true
  end.

(** [_assert_reconcile_claim]; [lost] is what the heartbeat has noticed *)
Definition assert_reconcile_claim (service : WriteOperationService) (lease : ClaimLease)
    (lost : bool) : svc unit :=
  await! held := if lost then ret false else renew_held service lease in
  if held then ret tt else write_raise "write_reconcile_claim_lost".

Definition NONTERMINAL_RECONCILE_STATUSES : list string :=
  ["pending"; "outcome_unknown"; "unknown"; "not_found"; "reconciling"].

(** The event a reconciliation's answer leads to, with its result *)
Definition reconcile_verdict (answer : pyval) : string * pydict :=
  let result :=
    match answer with
    | VDict d => d
    | _ => [("status", VStr "unknown"); ("reason", VStr "reconciliation_result_not_an_object")]
    end in
  let status := match jget result "status" with
                | VStr s => casefold_text (strip s)
                | _ => "unknown"
                end in
  if String.eqb status "succeeded" then ("write_succeeded", result)
  else if String.eqb status "failed" then ("write_failed", result)
  else if mem_str status NONTERMINAL_RECONCILE_STATUSES then ("write_reconcile_deferred", result)
  else ("write_reconcile_deferred",
        dset "reason" (VStr "unrecognized_reconciliation_status")
          (dset "status" (VStr "unknown")
             (dset "reportedStatus" (jget result "status") result))).

Definition fence_fields (lease : ClaimLease) : pydict :=
  [("fencingToken", VInt (cl_generation lease)); ("fencingScope", VStr (cl_resource_id lease))].

(** The event that enters the reconciliation, under its claim *)
Definition enter_reconciliation (service : WriteOperationService) (record : WriteOperation)
    (lease : ClaimLease) : svc WriteOperation :=
  let enter (event_type : string) :=
    finish_transition service record (wo_state record) event_type
      (("writeId", VStr (wo_write_id record)) :: fence_fields lease) (Some lease, None) in
  match wo_state record with
  | WrOutcomeUnknown => enter "write_reconciling"
  | WrReconciling => enter "write_reconcile_reentered"
  | _ => write_raise "write_not_uncertain"
  end.

(** What [reconcile] does with the handler's end *)
Definition conclude_reconciliation (service : WriteOperationService) (claimed : WriteOperation)
    (lease : ClaimLease) (lost : bool) (out : res pyval) : svc WriteOperation :=
  let fence : WriteFence := (Some lease, None) in
  let write_id := ("writeId", VStr (wo_write_id claimed)) in
  match out with
  | Err e =>
      if negb (is_exception e) then raise e else
      await! _ := assert_reconcile_claim service lease lost in
      await! _ := finish_transition service claimed WrReconciling "write_reconcile_failed"
                    (write_id :: ("reason", VStr "reconciliation_handler_error") :: fence_fields lease)
                    fence in
      raise e
  | Ok answer =>
      await! _ := assert_reconcile_claim service lease lost in
      let (event_type, result) := reconcile_verdict answer in
      finish_transition service claimed WrReconciling event_type
        (write_id :: ("result", VDict result) :: fence_fields lease) fence
  end.

(** The body of [reconcile] while the claim is held *)
Definition reconcile_held (service : WriteOperationService) (record : WriteOperation)
    (lease : ClaimLease) (handler : WriteOperation -> svc pyval) (lost : bool)
  : svc WriteOperation :=
  await! entered := enter_reconciliation service record lease in
  let claimed := wo_claimed_by lease entered in
  catch (handler claimed) (conclude_reconciliation service claimed lease lost).

(** The record of the write and the claim on its reconciliation *)
Definition claim_reconciliation (service : WriteOperationService) (write_id owner_token : string)
  : svc (WriteOperation * ClaimLease) :=
  if negb (ws_fenced_claims service) then write_raise "write_reconcile_fencing_required" else
  await! record := get_write write_id in
  await! resource_id := lift (fenced_claim_resource_id "write_reconcile" (wo_session_id record)
                                (Some (wo_operation_id record)) (Some write_id)) in
  await! lease := acquire_async "write_reconcile" resource_id owner_token
                    (ws_reconcile_claim_lease service) in
  match lease with
  | None => write_raise "write_reconcile_claimed"
  | Some lease => ret (record, lease)
  end.

(** [reconcile]; [owner_token] is the fresh UUID of the claim *)
Definition reconcile (service : WriteOperationService) (write_id owner_token : string)
    (handler : WriteOperation -> svc pyval) (lost : bool) : svc WriteOperation :=
  await! claim := claim_reconciliation service write_id owner_token in
  let (record, lease) := claim in
  finally (reconcile_held service record lease handler lost) (release_async lease).
