(* ===== verification/WriteClaim.v ===== *)
(** * Claiming a write

    A handler is called only after the write's submission is in the log, with its
    consent, and only once per call: what a claim appends, how the service reads its
    own claim back, and what the store holds when the handler takes over. *)

From S2P Require Import Prelude PyDict Text Sha256 PyVal Json PyNum DurableAction.
From S2P Require Import OperationTypes OperationReducer OperationLifecycle OperationSafety.
From S2P Require Import OperationStore OperationLog Service Approvals ToolErrors.
From S2P Require Import WriteRecord WriteAgreement WriteService.
From Stdlib Require Import String.

#[local] Open Scope string_scope.
#[local] Open Scope bool_scope.
#[local] Open Scope Z_scope.

(** ** Records and their first event *)

(** What the events after the first change of a record. *)
Definition wo_moved (r r0 : WriteOperation) : WriteOperation :=
  wo_update (wo_state r) (wo_approval_id r) (wo_result r) (wo_reconcile_fencing_token r)
    (wo_reconcile_fencing_scope r) r0.

(** [e] is the [write_prepared] event of [id] and [r] a record that began with it. *)
Record prepared_as (id : string) (e : OperationEvent) (r : WriteOperation) : Prop := {
  pa_type : oe_type e = "write_prepared";
  pa_write : jget (oe_data e) "writeId" = VStr id;
  pa_record : exists r0, prepared_write id e = Ok r0 /\ r = wo_moved r r0
}.

Lemma prepared_write_ids id e r :
  prepared_write id e = Ok r ->
  wo_write_id r = id /\ wo_session_id r = oe_session_id e /\ wo_operation_id r = oe_operation_id e
  /\ wo_state r = WrPrepared.
Proof. unfold prepared_write. intros H. by res_inv H. Qed.

Lemma prepared_as_ids id e r :
  prepared_as id e r ->
  wo_write_id r = id /\ wo_session_id r = oe_session_id e /\ wo_operation_id r = oe_operation_id e.
Proof.
  intros [_ _ (r0 & H0 & Hr)]. apply prepared_write_ids in H0 as (<- & <- & <- & _).
  rewrite Hr. done.
Qed.

Lemma advance_moved e r r' : advance_write_record e r = Ok r' -> r' = wo_moved r' r.
Proof.
  unfold advance_write_record, failed_write, reenter_write. intros H. eqb_cases H.
  all: res_inv H; match goal with x : WriteOperation |- _ => by destruct x end.
Qed.

Lemma moved_moved r r' r0 : r = wo_moved r r0 -> r' = wo_moved r' r -> r' = wo_moved r' r0.
Proof. intros Hr Hr'. rewrite Hr' at 1. rewrite Hr at 1. done. Qed.

Lemma replay_write_prepared events id r :
  replay_write events id = Ok r -> exists e, e ∈ events /\ prepared_as id e r.
Proof.
  unfold replay_write. intros H. destruct (foldM _ _ _) as [[r'|]|] eqn:Hf; [|done..].
  cbn in H. injection H as ->.
  assert (Hinv : forall o : option WriteOperation, foldM (write_record_step id) None events = Ok o ->
    forall r, o = Some r -> exists e, e ∈ events /\ prepared_as id e r); [|by apply (Hinv _ Hf)].
  clear. intros o. apply (foldM_elem_invariant (write_record_step id)
    (fun o => forall r, o = Some r -> exists e, e ∈ events /\ prepared_as id e r)); [|done].
  clear. intros o e o' Hin Ho Hs r ->. unfold write_record_step in Hs.
  destruct (is_str _ id) eqn:Hid; cbn [negb] in Hs; [|apply Ho; by simplify_eq].
  apply is_str_spec in Hid.
  destruct (String.eqb_spec (oe_type e) "write_prepared") as [Ht|_].
  - destruct o; [done|]. destruct (prepared_write id e) as [r1|] eqn:Hr; [|done].
    cbn in Hs. simplify_eq. exists e. split; [done|]. split; [done|done|].
    exists r. split; [done|]. by destruct r.
  - destruct o as [r1|]; [|done]. destruct (advance_write_record e r1) as [r2|] eqn:Hr; [|done].
    cbn in Hs. simplify_eq. destruct (Ho r1 eq_refl) as (e0 & He0 & [Ht Hw (r0 & H0 & Hm)]).
    exists e0. split; [done|]. split; [done|done|]. exists r0. split; [done|].
    eapply moved_moved; [exact Hm|]. by eapply advance_moved.
Qed.

Lemma replay_write_ids st sid oid id r :
  replay_write (operation_log st sid oid) id = Ok r ->
  wo_write_id r = id /\ wo_session_id r = sid /\ wo_operation_id r = oid.
Proof.
  intros (e & He & Hp)%replay_write_prepared. apply operation_log_elem in He as [<- <-].
  by apply prepared_as_ids.
Qed.

(** ** Calls *)

Section Calls.
Variable env : Env.
Hypothesis Henv : cooperative env.
Variable base : list OperationEvent.

#[local] Abbreviation started := (Service.started base).
#[local] Abbreviation appended := (Service.appended base).
#[local] Abbreviation stable := (Service.stable env base).

(** A read keeps what is stable. *)
Lemma triple_get_write (P : Store -> Prop) id :
  stable P ->
  triple env (fun st => started st /\ P st) (get_write id)
    (fun r st => started st /\ P st /\ forall record, r = Ok record ->
       replay_write (st_events st) id = Ok record).
Proof.
  intros HP. eapply triple_bind with (R := fun r st => started st /\ P st /\
    (r = Ok (st_events st) \/ r = Err CancelledError)).
  - apply triple_access. intros n st [Hst Hp].
    pose proof (started_others env Henv base n st Hst). pose proof (HP n st Hst Hp).
    unfold store_load. simpl. rewrite filter_all; [|done]. split_and!; auto.
  - intros events. apply triple_lift; [|by intros e st (? & ? & _)]. intros record Hr.
    apply triple_lift; [|by intros e st (? & ? & _)]. intros s _. apply triple_ret.
    intros st (Hst & Hp & [[= ->]|]); [|done]. split_and!; [done..|]. by intros ? [= <-].
  - intros e st (Hst & Hp & _). done.
Qed.

(** The record just read belongs to the operation that was loaded. *)
Lemma read_write {A} (P : Store -> Prop) sid oid id events (k : WriteOperation -> svc A) Q :
  (forall current, replay_write events id = Ok current -> wo_write_id current = id ->
     wo_session_id current = sid -> wo_operation_id current = oid ->
     triple env (fun st => events = operation_log st sid oid /\ P st) (k current) Q) ->
  (forall e st, P st -> Q (Err e) st) ->
  triple env (fun st => events = operation_log st sid oid /\ P st)
    (bind (lift (replay_write events id)) k) Q.
Proof.
  intros Hk He w [Hev Hst]. unfold bind, lift.
  destruct (replay_write events id) as [current|e] eqn:Hr; [|by apply He].
  pose proof Hr as Hids. rewrite Hev in Hids. apply replay_write_ids in Hids as (Hi & Hs & Ho).
  by apply (Hk current eq_refl Hi Hs Ho w).
Qed.

Lemma triple_on_conflict {A} e (retry : svc A) (P : Store -> Prop) Q :
  (forall e st, P st -> Q (Err e) st) -> triple env P retry Q ->
  triple env P (on_conflict e retry) Q.
Proof.
  intros He Hretry. unfold on_conflict.
  destruct e; cbn [is_conflict]; first [exact Hretry | apply triple_raise; apply He].
Qed.

(** The claim appended its events to a log in which the write was ready. *)
Definition claimed_by (q : ExecuteRequest) (actor : VerifiedIdentity) (r : WriteOperation)
    (st : Store) : Prop :=
  exists before current specs deadline now s,
    appended (wo_session_id r) (wo_operation_id r) before specs deadline st /\
    replay_write before (xq_write_id q) = Ok current /\ r = wo_to WrSubmitting current /\
    claim_specs q actor before current = Ok (specs, deadline) /\
    replay_operation_with_specs now before specs = Ok s.

Definition claim_result (q : ExecuteRequest) (actor : VerifiedIdentity) (o : claim_outcome)
    (st : Store) : Prop :=
  match o with AlreadySucceeded _ => True | ClaimedWrite r => claimed_by q actor r st end.

Lemma triple_claim_attempts n q actor record fence :
  triple env started (claim_attempts n q actor record fence)
    (fun r st => started st /\ forall o, r = Ok o -> claim_result q actor o st).
Proof.
  induction n as [|n IH]; [by apply triple_raise|]. apply load_then; [done| |by split].
  intros events. apply read_write; [|by split]. intros current Hr _ Hsid Hoid.
  destruct (match xq_approval_resume_id q with Some _ => _ | None => _ end);
    [by apply triple_raise; intros st [_ ?]|].
  destruct (bool_decide _).
  { apply triple_ret. intros st [_ Hst]. split; [done|]. by intros ? [= <-]. }
  apply triple_lift; [|by intros e st [_ ?]]. intros [specs deadline] Hspecs.
  apply triple_clock. intros now. apply triple_lift; [|by intros e st [_ ?]]. intros s Hv.
  cbn [fst snd] in *. rewrite Hsid, Hoid. eapply triple_catch; [by eapply triple_append|].
  intros [new|e].
  - apply triple_ret. intros st [Hst Happ]. split; [done|]. intros o [= <-].
    exists events, current, specs, deadline, now, s. cbn. rewrite Hsid, Hoid.
    split; [by eapply Happ|]. done.
  - assert (Hretry : forall P, (forall st, P st -> started st) -> triple env P
      (on_conflict e (claim_attempts n q actor record fence))
      (fun r st => started st /\ forall o, r = Ok o -> claim_result q actor o st)).
    { intros P HP. apply triple_on_conflict; [intros e' st Hst; split; [by apply HP|done]|].
      eapply triple_weaken; [exact IH|exact HP|done]. }
    destruct e; try (apply Hretry; by intros st [? _]).
    apply triple_raise. by intros st [? _].
Qed.
End Calls.

(** ** What a claim leaves in the log *)

Lemma replay_write_app events more id r r' :
  replay_write events id = Ok r ->
  foldM (write_record_step id) (Some r) more = Ok (Some r') ->
  replay_write (events ++ more) id = Ok r'.
Proof.
  unfold replay_write. rewrite foldM_app.
  destruct (foldM _ None events) as [[r0|]|]; [|done..]. cbn. intros [= ->] ->. done.
Qed.

(** Candidates that say nothing of any write *)
Definition silent (specs : list EventSpec) : Prop :=
  Forall (fun spec => jget (snd spec) "writeId" = VNone) specs.

Lemma silent_replay sid oid now_ms specs id o : forall k,
  silent specs -> foldM (write_record_step id) o (numbered sid oid now_ms k specs) = Ok o.
Proof.
  induction specs as [|[ty data] specs IH]; intros k Hs; [done|].
  apply Forall_cons in Hs as [Hd Hs]. change ((ty, data) :: specs) with ([(ty, data)] ++ specs)%list.
  rewrite numbered_app, foldM_app. cbn. unfold write_record_step at 1. cbn in *. rewrite Hd.
  cbn. by apply IH.
Qed.

(** The parts of a claim: the approval's consumption, the write's approval, the tool's
    dispatch and the submission. *)
Record claim_shape (q : ExecuteRequest) (actor : VerifiedIdentity) (current : WriteOperation)
    (consume approve dispatch : list EventSpec) : Prop := {
  cs_consume : silent consume;
  cs_dispatch : silent dispatch;
  cs_approve :
    wo_state current = WrApproved /\ consume = [] /\ approve = [] \/
    wo_state current = WrWaitingApproval /\ exists approval_id,
      wo_approval_id current = Some approval_id /\
      approve = [("write_approved", [("writeId", VStr (xq_write_id q));
                                     ("approvalId", VStr approval_id)])]
}.

Lemma dispatch_silent events current specs :
  tool_dispatch_specs events current = Ok specs -> silent specs.
Proof.
  unfold tool_dispatch_specs. destruct (wo_tool_call_id current); [|intros [= <-]; constructor].
  destruct (write_require _ _); [|done]. cbn [rbind].
  destruct (existsb _ _); intros [= <-]; [constructor|by apply Forall_singleton].
Qed.

Lemma claim_specs_shape q actor events current specs deadline :
  claim_specs q actor events current = Ok (specs, deadline) ->
  exists consume approve dispatch,
    specs = (consume ++ approve ++ dispatch ++ [submit_event (xq_write_id q) actor])%list /\
    claim_shape q actor current consume approve dispatch.
Proof.
  unfold claim_specs. intros H.
  destruct (if bool_decide _ then _ else _) as [[approval dl]|] eqn:Ha; [|done]. cbn [rbind] in H.
  destruct (tool_dispatch_specs events current) as [dispatch|] eqn:Hd; [|done].
  cbn in H. simplify_eq. apply dispatch_silent in Hd.
  case_bool_decide as Hst.
  - unfold approval_specs in Ha. destruct (wo_approval_id current) as [id|] eqn:Hid; [|done].
    destruct (replay_approval events id) as [a|]; [|done]. cbn [rbind] in Ha.
    destruct (negb _); [done|]. destruct (write_require _ _); [|done]. cbn [rbind] in Ha.
    match type of Ha with
    | Ok ((?a ++ ?b ++ ?c)%list, _) = _ =>
        injection Ha as <- _; exists (a ++ b)%list, c, dispatch
    end.
    split; [by rewrite <- !app_assoc|].
    split; [|done|right; eauto]. apply Forall_app. split.
    + case_bool_decide; [by apply Forall_singleton|constructor].
    + destruct (xq_approval_resume_id q); [|constructor].
      destruct (resume_started _ _); [constructor|by apply Forall_singleton].
  - destruct (write_require _ _) as [[]|] eqn:Hr; [|done]. cbn in Ha. simplify_eq.
    exists [], [], dispatch. split; [done|]. split; [constructor|done|]. left.
    split; [|done]. unfold write_require in Hr. by case_bool_decide.
Qed.

Lemma one_write_event id sid oid now_ms k ty data r r' :
  ty <> "write_prepared" -> jget data "writeId" = VStr id ->
  (forall e, oe_type e = ty -> oe_data e = data -> advance_write_record e r = Ok r') ->
  foldM (write_record_step id) (Some r) (numbered sid oid now_ms k [(ty, data)]) = Ok (Some r').
Proof.
  intros Hty Hid Hadv. cbn. unfold write_record_step. cbn [oe_type oe_data fst snd].
  rewrite (proj2 (is_str_spec _ _) Hid). cbn [negb].
  destruct (String.eqb_spec ty "write_prepared") as [|_]; [done|]. by rewrite Hadv.
Qed.

(** The service reads its own claim back as a submitting write. *)
Lemma claim_read_back q actor events current specs deadline sid oid now_ms k :
  replay_write events (xq_write_id q) = Ok current ->
  claim_specs q actor events current = Ok (specs, deadline) ->
  replay_write (events ++ numbered sid oid now_ms k specs) (xq_write_id q)
  = Ok (wo_to WrSubmitting current).
Proof.
  intros Hr (consume & approve & dispatch & -> & [Hc Hd Ha])%claim_specs_shape.
  eapply replay_write_app; [done|]. rewrite numbered_app, foldM_app, silent_replay by done.
  cbn [rbind]. rewrite numbered_app, foldM_app.
  assert (Happr : forall k, exists r, foldM (write_record_step (xq_write_id q)) (Some current)
    (numbered sid oid now_ms k approve) = Ok (Some r) /\ wo_state r = WrApproved /\
    wo_to WrSubmitting r = wo_to WrSubmitting current).
  { intros k'. destruct Ha as [(Hst & _ & ->)|(Hst & approval_id & _ & ->)]; [by exists current|].
    exists (wo_to WrApproved current). split; [|done].
    apply one_write_event; [done|done|]. intros e He _.
    unfold advance_write_record, write_state_in. rewrite He. cbn. by rewrite Hst. }
  destruct (Happr (k + List.length consume)%nat) as (r & -> & Hst & Heq). cbn [rbind].
  rewrite numbered_app, foldM_app, silent_replay by done. cbn [rbind]. rewrite <- Heq.
  apply one_write_event; [done|done|]. intros e He _.
  unfold advance_write_record, write_state_in. rewrite He. cbn. by rewrite Hst.
Qed.

(** When a claim returns, the log of its operation replays to a state in which the
    write is submitting, as the record says and with the consent it needs; the
    submission is there once, and it was added by this call. *)
Record dispatchable (base : list OperationEvent) (id : string) (r : WriteOperation)
    (st : Store) : Prop := {
  di_state : exists s w,
    replay_operation (operation_log st (wo_session_id r) (wo_operation_id r)) = Ok s /\
    dget id (op_writes s) = Some w /\ wr_state w = WrSubmitting /\ write_agrees r w /\
    has_consent s w;
  di_once : count (is_event "write_submitting" "writeId" id)
              (operation_log st (wo_session_id r) (wo_operation_id r)) = 1%nat;
  di_ours : exists e,
    last (operation_log st (wo_session_id r) (wo_operation_id r)) = Some e /\
    is_event "write_submitting" "writeId" id e = true /\
    Z.of_nat (List.length base) <= oe_sequence e
}.

Lemma submitted_once events s id :
  replay_operation events = Ok s ->
  (count (is_event "write_submitting" "writeId" id) events <= 1)%nat.
Proof.
  apply (once (submitted id)).
  - intros x e' x'. apply submitting_stays.
  - intros x e' x'. apply submitting_happens.
  - intros e' x. by apply start_is_no_event.
Qed.

Lemma claimed_dispatchable base q actor r st :
  good st -> claimed_by base q actor r st -> dispatchable base (xq_write_id q) r st.
Proof.
  intros [Hreach Hgood] (before & current & specs & deadline & now & s0 & Happ & Hr & -> & Hspecs & Hv).
  destruct Happ as (k & now_ms & Hlog & Hk & _).
  pose proof (claim_read_back _ _ _ _ _ _ (wo_session_id (wo_to WrSubmitting current))
    (wo_operation_id (wo_to WrSubmitting current)) now_ms k Hr Hspecs) as Hback.
  rewrite <- Hlog in Hback.
  destruct (Hgood (wo_session_id (wo_to WrSubmitting current))
              (wo_operation_id (wo_to WrSubmitting current))) as [s Hs].
  { intros Hnil. by rewrite Hnil in Hback. }
  destruct (log_agrees _ _ _ _ _ _ Hreach Hs Hback) as (w & Hw & Hag).
  apply claim_specs_shape in Hspecs as (consume & approve & dispatch & -> & _).
  rewrite !app_assoc, numbered_app, app_assoc in Hlog.
  set (e := mkOperationEvent "write_submitting" (wo_session_id (wo_to WrSubmitting current))
    (wo_operation_id (wo_to WrSubmitting current))
    (Z.of_nat (k + List.length ((consume ++ approve) ++ dispatch) + 0)) now_ms
    (snd (submit_event (xq_write_id q) actor))).
  change (numbered _ _ _ _ [submit_event (xq_write_id q) actor]) with [e] in Hlog.
  assert (Hhit : is_event "write_submitting" "writeId" (xq_write_id q) e = true).
  { unfold is_event. cbn. by rewrite String.eqb_refl. }
  split.
  - exists s, w. split_and!; [done..|by rewrite <- (wa_state _ _ Hag)|done|].
    apply (replay_invariant writes_consented) in Hs; [by eapply Hs| |exact writes_consented_step].
    intros e0 x Hx. apply start_facts in Hx as (_ & _ & Hws & _). intros id' w'. by rewrite Hws.
  - apply Nat.le_antisymm; [by eapply submitted_once|]. rewrite Hlog. unfold count.
    rewrite List.filter_app, length_app. simpl. rewrite Hhit. simpl. lia.
  - exists e. split; [by rewrite Hlog, last_snoc|]. split; [done|]. simpl. lia.
Qed.

(** ** Executing a write *)

Definition takes_context (c : WriteCallback) : bool :=
  match c with ContextHandler _ => true | PlainHandler _ => false end.
Definition plain_of (c : WriteCallback) :=
  match c with PlainHandler h => Some h | ContextHandler _ => None end.
Definition context_of (c : WriteCallback) :=
  match c with ContextHandler h => Some h | PlainHandler _ => None end.

Lemma triple_claim_write env (Henv : cooperative env) base service q with_context :
  triple env (started base) (claim_write service q with_context)
    (fun r st => started base st /\ forall o actor seconds, r = Ok (o, actor, seconds) ->
       claim_result base q actor o st).
Proof.
  unfold claim_write.
  destruct (match xq_fencing_token q with Some _ => _ | None => _ end); [by apply triple_raise|].
  eapply triple_bind with (R := fun _ st => started base st); [| |by split].
  { eapply triple_weaken; [by apply (triple_get_write env Henv base (fun _ => True))| |].
    - by intros st Hst.
    - by intros r st [? _]. }
  intros record. apply triple_lift; [|by split]. intros actor _.
  apply triple_lift; [|by split]. intros seconds _. apply triple_lift; [|by split].
  intros entity _. destruct (is_some _ && _); [by apply triple_raise|].
  destruct (is_some _ && _); [by apply triple_raise|]. apply triple_lift; [|by split].
  intros matches _. destruct (negb matches); [by apply triple_raise|].
  eapply triple_bind; [by apply triple_claim_attempts| |by intros e st [? _]].
  intros o. apply triple_ret. intros st [Hst Ho]. split; [done|].
  intros ? ? ? [= <- <- <-]. by apply Ho.
Qed.

Lemma execute_unfold service q callback env w :
  execute service q (plain_of callback) (context_of callback) env w
  = bind (claim_write service q (takes_context callback)) (fun claim =>
      let '(outcome, actor, seconds) := claim in
      match outcome with
      | AlreadySucceeded r => ret r
      | ClaimedWrite claimed =>
          conclude_write service claimed (ca_claim (xq_claim q), Some seconds)
            (call_handler q actor callback claimed)
      end) env w.
Proof. by destruct callback. Qed.

(** The context a handler gets is the claimed write's. *)
Record given_context (q : ExecuteRequest) (actor : VerifiedIdentity) (claimed : WriteOperation)
    (x : WriteExecutionContext) : Prop := {
  gc_write : wx_write_id x = wo_write_id claimed;
  gc_operation : wx_session_id x = wo_session_id claimed /\ wx_operation_id x = wo_operation_id claimed;
  gc_tool : wx_tool_name x = wo_tool_name claimed;
  gc_arguments : wx_arguments x = wo_arguments claimed;
  gc_key : wx_idempotency_key x = xq_idempotency_key q;
  gc_actor : wx_actor x = actor;
  gc_action : wx_action_hash x = wo_action_hash claimed;
  gc_approval : wx_approval_id x = wo_approval_id claimed;
  gc_fencing : wx_fencing_token x = xq_fencing_token q
}.

(** The one consultation of a handler, with what it is given *)
Inductive consultation (q : ExecuteRequest) (actor : VerifiedIdentity) (claimed : WriteOperation)
  : WriteCallback -> svc pyval -> Prop :=
| consults_plain handler :
    consultation q actor claimed (PlainHandler handler)
      (handler (wo_arguments claimed) (xq_idempotency_key q) actor)
| consults_context handler x :
    given_context q actor claimed x -> consultation q actor claimed (ContextHandler handler) (handler x).

(** What is left to do once the handler has ended, which no longer depends on it *)
Definition after_handler (service : WriteOperationService) (q : ExecuteRequest)
    (claimed : WriteOperation) (seconds : Z) (out : res pyval) : svc WriteOperation :=
  match out with
  | Ok result => handler_returned service claimed (ca_claim (xq_claim q), Some seconds) result
  | Err e => handler_raised service claimed (ca_claim (xq_claim q), Some seconds) e
  end.

Lemma write_context_given q actor claimed scope x :
  write_context claimed (xq_idempotency_key q) actor (xq_fencing_token q) scope = Ok x ->
  given_context q actor claimed x.
Proof. unfold write_context. intros (u & _ & [= <-])%rbind_Ok. by constructor. Qed.

(** Either its context cannot be built, and no handler is consulted, or every handler is. *)
Lemma call_handler_cases q actor claimed with_context :
  (exists e, forall callback, takes_context callback = with_context ->
     forall env w, call_handler q actor callback claimed env w = (Err e, w)) \/
  (forall callback, takes_context callback = with_context ->
     exists m, consultation q actor claimed callback m /\
       forall env w, call_handler q actor callback claimed env w = m env w).
Proof.
  destruct with_context; cycle 1.
  { right. intros [handler|handler] H; try done. eexists. by split; [constructor|]. }
  set (scope := match ca_claim (xq_claim q) with Some l => Some (cl_resource_id l) | None => None end).
  destruct (write_context claimed (xq_idempotency_key q) actor (xq_fencing_token q) scope) as [x|e] eqn:Ex.
  - right. intros [handler|handler] H; try done. exists (handler x).
    split; [apply consults_context; by eapply write_context_given|].
    intros env w. unfold call_handler, bind. fold scope. by rewrite Ex.
  - left. exists e. intros [handler|handler] H; try done. intros env w.
    unfold call_handler, bind. fold scope. by rewrite Ex.
Qed.

