(* ===== verification/WriteOutcome.v ===== *)
(** * How a write ends

    What the log may say of a write once its handler has returned or raised, and
    what the caller may be told of it; everything the store says about one write,
    in order, is the history these rules speak of. *)

From S2P Require Import Prelude PyDict Text Sha256 PyVal Json PyNum DurableAction.
From S2P Require Import OperationTypes OperationReducer OperationLifecycle OperationSafety.
From S2P Require Import OperationStore OperationLog Service Approvals ToolErrors.
From S2P Require Import WriteRecord WriteAgreement WriteService WriteClaim.
From Stdlib Require Import String.

#[local] Open Scope string_scope.
#[local] Open Scope bool_scope.
#[local] Open Scope Z_scope.

(** ** How a write ends in the log *)

(** Everything the store says about a write, in order. *)
Definition about (id : string) (st : Store) : list EventSpec :=
  map event_spec
    (List.filter (fun e => is_str (jget (oe_data e) "writeId") id) (st_events st)).

(** Other workers leave the write alone. *)
Definition leaves_write (id : string) (env : Env) : Prop :=
  forall n st, good st -> about id (run_store_calls st (tk_calls (env n))) = about id st.

(** A computation that keeps the store good and leaves the write alone. *)
Definition harmless {A} (id : string) (env : Env) (m : svc A) : Prop :=
  forall w, good (w_store w) ->
    good (w_store (snd (m env w))) /\
    st_events (w_store w) `prefix_of` st_events (w_store (snd (m env w))) /\
    about id (w_store (snd (m env w))) = about id (w_store w).

Lemma about_numbered id st st1 sid oid now_ms specs :
  st_events st = (st_events st1
                  ++ numbered sid oid now_ms (List.length (st_events st1)) specs)%list ->
  about id st = (about id st1
                 ++ List.filter (fun s => is_str (jget (snd s) "writeId") id) specs)%list.
Proof.
  intros H. unfold about. rewrite H, List.filter_app, map_app. f_equal. clear H.
  generalize (List.length (st_events st1)). intros n. unfold numbered.
  revert n. induction specs as [|[ty data] specs IH]; intros n; [done|].
  change ((ty, data) :: specs) with ([(ty, data)] ++ specs)%list.
  fold (numbered sid oid now_ms n ([(ty, data)] ++ specs)).
  rewrite numbered_app, !List.filter_app, map_app. f_equal; [|apply IH].
  cbn. by destruct (is_str _ id).
Qed.

(** A record read after the write's last event is in the state that event left. *)
Lemma silent_events id o es :
  List.filter (fun e => is_str (jget (oe_data e) "writeId") id) es = [] ->
  foldM (write_record_step id) o es = Ok o.
Proof.
  induction es as [|e es IH]; [done|]. cbn [List.filter foldM]. unfold write_record_step at 1.
  destruct (is_str _ id); [done|]. cbn [negb rbind]. apply IH.
Qed.

Lemma filter_snoc_split {A} (p : A -> bool) l l0 x :
  List.filter p l = (l0 ++ [x])%list ->
  exists l1 l2, l = (l1 ++ x :: l2)%list /\ p x = true /\ List.filter p l2 = [].
Proof.
  induction l as [|y l IH] using rev_ind; [by destruct l0|].
  rewrite List.filter_app. cbn [List.filter]. destruct (p y) eqn:Hy.
  - intros [_ [= ->]]%app_inj_2; [|done]. exists l, []. by rewrite Hy.
  - rewrite app_nil_r. intros (l1 & l2 & -> & Hx & Hl2)%IH.
    exists l1, (l2 ++ [y])%list. split; [by rewrite <- app_assoc|]. split; [done|].
    rewrite List.filter_app, Hl2. cbn. by rewrite Hy.
Qed.

Lemma succeeded_last id st L data r :
  about id st = (L ++ [("write_succeeded", data)])%list ->
  replay_write (st_events st) id = Ok r -> wo_state r = WrSucceeded.
Proof.
  unfold about. intros H Hr.
  apply (fmap_app_inv event_spec) in H as (l0 & l1 & HL & H1 & H).
  destruct l1 as [|x [|]]; try done. cbn in H1. injection H1 as Hty Hdata. apply filter_snoc_split in H as
    (before & after & Hst & Hp & Hnil).
  unfold replay_write in Hr. rewrite Hst, foldM_app in Hr.
  destruct (foldM _ None before) as [o|] eqn:Hb; [|done]. cbn [rbind foldM] in Hr.
  unfold write_record_step at 1 in Hr. rewrite Hp in Hr. cbn [negb] in Hr.
  rewrite <- Hty in Hr. cbn in Hr.
  destruct o as [r0|]; [|done].
  destruct (advance_write_record x r0) as [r1|] eqn:Ha; [|done]. cbn [rbind] in Hr.
  rewrite silent_events in Hr by done. cbn in Hr. simplify_eq.
  unfold advance_write_record in Ha. rewrite <- Hty in Ha. cbn in Ha. by res_inv Ha.
Qed.

(** A record knows the writes it is about. *)
Lemma read_id events id r : replay_write events id = Ok r -> wo_write_id r = id.
Proof. intros (e & _ & Hp)%replay_write_prepared. by apply prepared_as_ids in Hp as [? _]. Qed.

Section Ending.
Variables (env : Env) (id : string).
Hypothesis Henv : cooperative env.
Hypothesis Hothers : leaves_write id env.
Variables (service : WriteOperationService) (fence : WriteFence).

(** Good, and the write's events are [L]. *)
Definition history (L : list EventSpec) (st : Store) : Prop := good st /\ about id st = L.

Lemma stable_about base L : stable env base (fun st => about id st = L).
Proof. intros n st [Hg _] H. by rewrite Hothers. Qed.

(** [spec] was appended to a store in which the claim of the fence, if there is one, was
    held, and is still there. *)
Definition under_lease base (lease : ClaimLease) (spec : EventSpec) (st : Store) : Prop :=
  exists st1 sid oid now_ms, started base st1 /\ claim_held env lease st1 /\
    (st_events st1 ++ numbered sid oid now_ms (List.length (st_events st1)) [spec])%list
      `prefix_of` st_events st.
Definition under_fence base (spec : EventSpec) (st : Store) : Prop :=
  match fst fence with Some lease => under_lease base lease spec st | None => True end.

Lemma under_lease_grows base lease spec st st' :
  st_events st `prefix_of` st_events st' -> under_lease base lease spec st -> under_lease base lease spec st'.
Proof.
  intros Hpre (st1 & sid & oid & now_ms & H1 & H2 & H3). exists st1, sid, oid, now_ms.
  split_and!; [done..|]. by etrans.
Qed.

Lemma under_fence_grows base spec st st' :
  st_events st `prefix_of` st_events st' -> under_fence base spec st -> under_fence base spec st'.
Proof. intros Hpre. unfold under_fence. destruct (fst fence); [by apply under_lease_grows|done]. Qed.

Lemma others_grow n st : st_events st `prefix_of` st_events (run_store_calls st (tk_calls (env n))).
Proof. destruct (run_calls_prefix (tk_calls (env n)) st) as [more ->]. by exists more. Qed.

Lemma extended_under base P current fenced sid oid spec st :
  finish_fence service current fence = Ok fenced ->
  extended base (fence_held env fenced) P sid oid [spec] st -> under_fence base spec st.
Proof.
  unfold finish_fence, under_fence. intros Hf (st1 & now_ms & _ & [Hst1 Hheld] & _ & Hev).
  destruct (fst fence) as [lease|]; [|done].
  apply rbind_Ok in Hf as (entity & _ & [= <-]). exists st1, sid, oid, now_ms.
  split_and!; [done..|]. by rewrite Hev.
Qed.

(** How a transition may leave the store, and what it returns *)
Definition finished base L record spec (r : res WriteOperation) (st : Store) : Prop :=
  started base st /\
  (about id st = L \/ about id st = (L ++ [spec])%list /\ under_fence base spec st) /\
  forall final, r = Ok final ->
    replay_write (operation_log st (wo_session_id record) (wo_operation_id record)) id = Ok final /\
    (about id st = (L ++ [spec])%list \/ fst spec = "write_succeeded").

Lemma finished_untouched base L record spec e st :
  started base st -> about id st = L -> finished base L record spec (Err e) st.
Proof. intros H1 H2. split_and!; auto. done. Qed.

(** [spec] is all that [finish_transition] may add. *)
Lemma triple_finished base n record required spec L :
  wo_write_id record = id -> jget (snd spec) "writeId" = VStr id ->
  triple env (fun st => started base st /\ about id st = L)
    (finish_attempts n service record required spec fence) (finished base L record spec).
Proof.
  intros Hid Hspec. assert (Hraise : forall e st, started base st /\ about id st = L ->
    finished base L record spec (Err e) st) by (intros e st [? ?]; by apply finished_untouched).
  induction n as [|n IH]; [by apply triple_raise, Hraise|].
  cbn [finish_attempts]. set (P := fun st => about id st = L).
  assert (HP : stable env base P) by apply stable_about.
  eapply triple_bind with (R := fun r st => started base st /\ P st /\ forall events,
    r = Ok events -> events = operation_log st (wo_session_id record) (wo_operation_id record)).
  { apply triple_access. intros m st [Hst Hp]. pose proof (started_others env Henv base m st Hst).
    pose proof (HP m st Hst Hp). split_and!; try done. by intros events [= <-]. }
  2:{ intros e st (Hst & Hp & _). by apply Hraise. }
  intros events.
  eapply (triple_weaken _ (fun st => events = operation_log st (wo_session_id record)
    (wo_operation_id record) /\ (started base st /\ P st)) _ _ _);
    [|by intros st (Hst & Hp & Hev); auto|by intros r st H; exact H].
  apply read_write; [|exact Hraise]. intros current Hr Hcid Hsid Hoid.
  destruct (String.eqb (fst spec) "write_succeeded" && _) eqn:Es.
  { apply triple_ret. intros st (Hev & Hst & Hp). split_and!; [done|by left|].
    intros final [= <-]. rewrite <- Hev, <- Hid. split; [done|]. right.
    by apply andb_true_iff in Es as [Es%String.eqb_eq _]. }
  destruct (negb _); [apply triple_raise; intros st (_ & ?); by apply Hraise|].
  apply triple_clock. intros now. apply triple_lift; [|intros e st (_ & ?); by apply Hraise].
  intros s Hv. apply triple_lift; [|intros e st (_ & ?); by apply Hraise]. intros fenced Hfenced.
  rewrite Hsid, Hoid. eapply triple_catch; [eapply (triple_append_specs env Henv base P); [exact HP|exact Hv]|].
  assert (Hfilter : List.filter (fun s => is_str (jget (snd s) "writeId") id) [spec] = [spec]).
  { cbn. by rewrite (proj2 (is_str_spec _ _) Hspec). }
  assert (Hext : forall st, extended base (fence_held env fenced) P (wo_session_id record)
    (wo_operation_id record) [spec] st ->
    about id st = (L ++ [spec])%list /\ under_fence base spec st).
  { intros st Hx. split; [|by eapply extended_under].
    destruct Hx as (st1 & now_ms & Hp & _ & _ & Hev). by rewrite (about_numbered id _ _ _ _ _ _ Hev), Hfilter, Hp. }
  intros [new|e].
  - eapply triple_weaken with (P := fun st => started base st /\
      (about id st = (L ++ [spec])%list /\ under_fence base spec st)); [| |done].
    2: { intros st [Hst [[? _]|[_ [_ Hx]]]]; [done|]. split; [done|]. by apply Hext. }
    eapply triple_bind with (R := fun r st => finished base L record spec (Err CancelledError) st /\
      about id st = (L ++ [spec])%list /\ forall events, r = Ok events ->
        events = operation_log st (wo_session_id record) (wo_operation_id record)).
    + apply triple_access. intros m st [Hst [Hp Hu]]. pose proof (started_others env Henv base m st Hst).
      assert (Hab : about id (run_store_calls st (tk_calls (env m))) = (L ++ [spec])%list)
        by (rewrite Hothers; [done|apply Hst]).
      assert (finished base L record spec (Err CancelledError) (run_store_calls st (tk_calls (env m)))).
      { split_and!; [done| |done]. right. split; [done|].
        eapply under_fence_grows; [apply others_grow|done]. }
      split_and!; try done. by intros ? [= <-].
    + intros events'. apply triple_pure. intros st ((Hst & Hab & _) & Hlast & Hev). split_and!; [done..|].
      intros final Hf. rewrite <- (Hev _ eq_refl). rewrite Hcid, Hid in Hf. split; [done|by left].
    + intros e st ((Hst & Hab & _) & _). by split_and!.
  - destruct (decide (e = CancelledError)) as [->|He].
    + apply triple_raise. intros st [Hst [[_ Hp]|[_ [_ Hx]]]]; [by apply Hraise|].
      split_and!; [done|right; by apply Hext|done].
    + apply (triple_weaken _ (fun st => started base st /\ P st) _ _ (finished base L record spec));
        [|intros st [Hst [[_ Hp]|[[|[=]] _]]]; done|done].
      apply triple_on_conflict; [exact Hraise|]. apply IH.
Qed.

Lemma triple_finish base n record required spec L :
  wo_write_id record = id -> jget (snd spec) "writeId" = VStr id ->
  triple env (fun st => started base st /\ about id st = L)
    (finish_attempts n service record required spec fence)
    (fun r st => started base st /\
       (about id st = L \/ about id st = (L ++ [spec])%list)).
Proof.
  intros Hid Hspec. eapply triple_weaken; [by apply (triple_finished base n record required spec L)|done|].
  intros r st (Hst & [?|[? _]] & _); auto.
Qed.

(** [mark_outcome_unknown] adds at most its event, and nothing to a write that has
    been recorded as succeeded. *)
Lemma triple_mark base claimed reason L :
  wo_write_id claimed = id ->
  triple env (fun st => started base st /\ about id st = L)
    (mark_outcome_unknown service claimed reason fence)
    (fun r st => started base st /\
       (about id st = L \/
        (forall L0 data, L <> L0 ++ [("write_succeeded", data)])%list /\
        about id st = (L ++ [("write_outcome_unknown",
          [("writeId", VStr id); ("reason", VStr reason)])])%list)).
Proof.
  intros Hid. unfold mark_outcome_unknown. rewrite Hid.
  eapply triple_bind; [by apply (triple_get_write env Henv base _ id), stable_about| |].
  2:{ intros e st (? & ? & _). auto. }
  intros current. destruct (bool_decide (wo_state current = WrSubmitting)) eqn:Hst.
  2:{ apply triple_ret. intros st (? & ? & _). auto. }
  apply bool_decide_eq_true in Hst. cbn [negb].
  intros w (Hs & Hp & Hread). specialize (Hread _ eq_refl).
  assert (Hnot : forall L0 data, (L <> L0 ++ [("write_succeeded", data)])%list).
  { intros L0 data HL. rewrite <- Hp in HL. by rewrite (succeeded_last _ _ _ _ _ HL Hread) in Hst. }
  apply read_id in Hread. revert w Hs Hp.
  assert (Ht : triple env (fun st => started base st /\ about id st = L)
    (bind (finish_transition service current WrSubmitting "write_outcome_unknown"
       [("writeId", VStr (wo_write_id current)); ("reason", VStr reason)] fence) (fun _ => ret tt))
    (fun r st => started base st /\ (about id st = L \/
        (forall L0 data, L <> L0 ++ [("write_succeeded", data)])%list /\
        about id st = (L ++ [("write_outcome_unknown",
          [("writeId", VStr id); ("reason", VStr reason)])])%list))).
  { eapply triple_bind; [apply (triple_finish base _ current _ _ L); [done|by rewrite Hread]| |].
    - intros a. apply triple_ret. rewrite Hread. intros st [? [?|?]]; auto.
    - rewrite Hread. intros e st [? [?|?]]; auto. }
  intros w Hs Hp. by apply (Ht w).
Qed.

(** What may be recorded of a call that ended with [out]. *)
Definition truthful (out : res pyval) (spec : EventSpec) : Prop :=
  match out with
  | Ok v => spec = ("write_succeeded", [("writeId", VStr id); ("result", v)]) \/
            fst spec = "write_outcome_unknown"
  | Err (DefinitelyNotCommittedToolError code _) =>
      spec = ("write_failed", [("writeId", VStr id); ("errorCode", VStr code);
                               ("definitelyNotCommitted", VBool true)])
  | Err _ => fst spec = "write_outcome_unknown"
  end.

(** What the caller may be told of it. *)
Definition honest {A} (out : res pyval) (r : res A) : Prop :=
  match r with
  | Ok _ => is_ok out = true
  | Err e => (exists code message, out = Err (DefinitelyNotCommittedToolError code message)) \/
             is_outcome_unknown_error e = true \/ e = CancelledError \/ e = OutsideModel
  end.

(** The write's events are the old ones and at most one that [out] permits. *)
Definition recorded base L (out : res pyval) (st : Store) : Prop :=
  started base st /\
  (about id st = L \/ exists spec, truthful out spec /\ about id st = (L ++ [spec])%list).

Definition concluded {A} base L (out : res pyval) (r : res A) (st : Store) : Prop :=
  honest out r /\ recorded base L out st.

Lemma triple_conclude_raise (A : Type) base L out (P : Store -> Prop) e :
  honest out (@Err A e) -> (forall st, P st -> recorded base L out st) ->
  triple env P (raise (A := A) e) (concluded base L out).
Proof. intros He HP. apply triple_raise. intros st Hst. split; [done|by apply HP]. Qed.

Lemma triple_cleanup base claimed reason out L P :
  triple env P (mark_outcome_unknown service claimed reason fence)
    (fun _ st => recorded base L out st) ->
  triple env P (cancel_cleanup service claimed fence reason) (concluded base L out).
Proof.
  intros Hmark. eapply triple_catch; [exact Hmark|].
  intros r. destruct r as [[]|[]]; apply triple_conclude_raise; cbn; tauto.
Qed.

Lemma triple_mark_recorded base claimed reason out L :
  wo_write_id claimed = id ->
  truthful out ("write_outcome_unknown", [("writeId", VStr id); ("reason", VStr reason)]) ->
  triple env (fun st => started base st /\ about id st = L)
    (mark_outcome_unknown service claimed reason fence) (fun _ st => recorded base L out st).
Proof.
  intros Hid Hout. eapply triple_weaken; [by apply (triple_mark base claimed reason L)|done|].
  intros r st [Hst [H|[_ H]]]; (split; [done|]); [by left|right; by eexists].
Qed.

Lemma triple_record base claimed ty data code e out L :
  wo_write_id claimed = id -> jget data "writeId" = VStr id -> truthful out (ty, data) ->
  (forall A, honest out (@Err A e)) ->
  triple env (fun st => started base st /\ about id st = L)
    (record_then_raise service claimed fence ty data code e) (concluded base L out).
Proof.
  intros Hid Hdata Hout He. eapply triple_catch; [by apply triple_finish|].
  assert (HP : forall st, started base st /\ (about id st = L \/ about id st = (L ++ [(ty, data)])%list)
    -> recorded base L out st).
  { intros st [Hst [H|H]]; (split; [done|]); [by left|right; by eexists]. }
  intros [r|e']; [by apply triple_conclude_raise|].
  destruct (is_exception e') eqn:Hx; apply triple_conclude_raise; try exact HP; cbn; [tauto|].
  destruct e'; try done; auto.
Qed.

Lemma triple_raised base claimed e L :
  wo_write_id claimed = id ->
  triple env (fun st => started base st /\ about id st = L)
    (handler_raised service claimed fence e) (concluded base L (Err e)).
Proof.
  intros Hid.
  assert (Hunknown : forall e', truthful (Err e') ("write_outcome_unknown",
      outcome_unknown_data (wo_write_id claimed) e') ->
    triple env (fun st => started base st /\ about id st = L)
    (record_then_raise service claimed fence "write_outcome_unknown"
       (outcome_unknown_data (wo_write_id claimed) e') "write_outcome_unknown_persistence_failed"
       (if is_outcome_unknown_error e' then e'
        else WriteOutcomeUnknownError "write_handler_outcome_unknown"))
    (concluded base L (Err e'))).
  { intros e' Ht. apply triple_record; [done|by cbn; rewrite Hid|done|].
    intros A. cbn. destruct (is_outcome_unknown_error e') eqn:E; tauto. }
  destruct e; cbn [handler_raised];
    try match goal with
        | |- triple _ _ (record_then_raise _ _ _ "write_outcome_unknown" _ _ _) _ =>
            apply Hunknown; reflexivity
        end.
  - apply triple_conclude_raise; [cbn; tauto|]. intros st [? ?]. split; [done|by left].
  - apply triple_record; [done|by cbn; rewrite Hid|by cbn; rewrite Hid|]. intros A. cbn. eauto.
  - by apply triple_cleanup, triple_mark_recorded.
Qed.

Lemma triple_returned base claimed v L :
  wo_write_id claimed = id ->
  triple env (fun st => started base st /\ about id st = L)
    (handler_returned service claimed fence v) (concluded base L (Ok v)).
Proof.
  intros Hid. set (spec := ("write_succeeded", [("writeId", VStr id); ("result", v)])).
  unfold handler_returned. rewrite Hid.
  eapply triple_catch; [by apply (triple_finish base _ claimed _ spec L)|].
  set (P := fun st => started base st /\ (about id st = L \/ about id st = (L ++ [spec])%list)).
  assert (HP : forall st, P st -> recorded base L (Ok v) st).
  { intros st [Hst [H|H]]; (split; [done|]); [by left|right]. exists spec. split; [by left|done]. }
  (* Marking after the success was recorded adds nothing. *)
  assert (Hmark : forall reason, triple env P (mark_outcome_unknown service claimed reason fence)
    (fun _ st => recorded base L (Ok v) st)).
  { intros reason w [Hst [H|H]].
    - apply (triple_mark_recorded base claimed reason (Ok v) L Hid); [by right|by split].
    - pose proof (triple_mark base claimed reason (L ++ [spec]) Hid w (conj Hst H)) as [Hst' Hm].
      destruct Hm as [Hm|[Hnot _]]; [|by destruct (Hnot L [("writeId", VStr id); ("result", v)])].
      apply HP. split; [done|by right]. }
  intros [final|e].
  { apply triple_ret. intros st Hst. split; [done|by apply HP]. }
  assert (Hlost : triple env P
    (catch (mark_outcome_unknown service claimed "write_succeeded_persistence_failed" fence)
       (fun r => match r with
                 | Err e => if is_exception e
                            then raise (WriteOutcomeUnknownError "write_success_persistence_unknown")
                            else raise e
                 | Ok _ => raise (WriteOutcomeUnknownError "write_success_persistence_unknown")
                 end)) (concluded (A := WriteOperation) base L (Ok v))).
  { eapply triple_catch; [apply Hmark|].
    intros [u|e']; [apply triple_conclude_raise; [cbn; tauto|done]|].
    destruct (is_exception e') eqn:Hx; apply triple_conclude_raise; try done; cbn; [tauto|].
    destruct e'; try done; auto. }
  destruct e; try exact Hlost; [apply triple_conclude_raise; [cbn; tauto|exact HP]|by apply triple_cleanup].
Qed.
(** The handler's call and what follows it *)
Lemma conclude_records base claimed m L w :
  wo_write_id claimed = id -> harmless id env m ->
  started base (w_store w) -> about id (w_store w) = L ->
  let out := conclude_write service claimed fence m env w in
  concluded base L (fst (m env w)) (fst out) (w_store (snd out)).
Proof.
  intros Hid Hm [Hg Hpre] Hab. unfold conclude_write, catch. cbv zeta.
  destruct (Hm w Hg) as (Hg1 & Hpre1 & Hsame). destruct (m env w) as [out w1]. cbn [fst snd] in *.
  rewrite Hab in Hsame.
  assert (Hst : started base (w_store w1)) by (split; [done|by etrans]).
  destruct out as [v|e].
  - by apply (triple_returned base claimed v L Hid w1).
  - by apply (triple_raised base claimed e L Hid w1).
Qed.

End Ending.

(** A call with a harmless handler keeps the store good, whatever it does. *)
Lemma triple_execute env base service q callback :
  cooperative env -> leaves_write (xq_write_id q) env ->
  (forall actor claimed, harmless (xq_write_id q) env (call_handler q actor callback claimed)) ->
  triple env (started base)
    (execute service q (plain_of callback) (context_of callback)) (fun _ st => started base st).
Proof.
  intros Henv Hothers Hm.
  assert (Hext : forall m m' : svc WriteOperation, (forall w, m env w = m' env w) ->
    triple env (started base) m' (fun _ st => started base st) ->
    triple env (started base) m (fun _ st => started base st))
    by (intros m m' Heq H w Hw; rewrite Heq; by apply H).
  eapply Hext; [by apply execute_unfold|].
  eapply triple_bind; [by apply triple_claim_write| |by intros e st [? _]].
  intros [[[r|claimed] actor] seconds]; [by apply triple_ret; intros st [? _]|].
  intros w [Hst Hok]. destruct (Hok _ _ _ eq_refl) as (before & current & ? & ? & ? & ? & _ & Hr & -> & _).
  apply read_id in Hr.
  pose proof (conclude_records env _ Henv Hothers service (ca_claim (xq_claim q), Some seconds) base
    (wo_to WrSubmitting current) _ _ w Hr (Hm actor (wo_to WrSubmitting current)) Hst eq_refl) as Hend.
  exact (proj1 (proj2 Hend)).
Qed.

(** C13. The log tells the truth about a write.  However the handler's call ends -
    with a result, an exception or a cancellation - and however recording the end is
    interrupted, [execute] adds at most one event about the write: a success only
    with the result the handler returned, a failure only if the handler proved that
    nothing was committed, and otherwise that the outcome is unknown.  The caller
    gets a record only if the handler returned, and a definite error only if the
    handler proved it. *)
Theorem outcome_is_recorded_truthfully service fence claimed m env w :
  let id := wo_write_id claimed in
  good (w_store w) -> cooperative env -> leaves_write id env -> harmless id env m ->
  let out := fst (m env w) in
  let (r, w') := conclude_write service claimed fence m env w in
  honest out r /\
  (about id (w_store w') = about id (w_store w) \/
   exists spec, truthful id out spec /\
     about id (w_store w') = (about id (w_store w) ++ [spec])%list).
Proof.
  intros id Hg Henv Hothers Hm out.
  pose proof (conclude_records env id Henv Hothers service fence _ claimed m _ w eq_refl Hm
    (started_here _ Hg) eq_refl) as H.
  destruct (conclude_write service claimed fence m env w). by destruct H as [? [_ ?]].
Qed.
