(* ===== verification/WritePrepare.v ===== *)
(** * Preparing a write

    A repeated idempotency key prepares nothing new: the record [prepare] returns is
    the action that was asked for, and no other write holds its key. *)

From S2P Require Import Prelude PyDict Text Sha256 PyVal Json PyNum DurableAction.
From S2P Require Import OperationTypes OperationReducer OperationLifecycle OperationSafety.
From S2P Require Import OperationStore OperationLog Service Approvals ToolErrors.
From S2P Require Import WriteRecord WriteAgreement WriteService WriteClaim.
From Stdlib Require Import String.

#[local] Open Scope string_scope.
#[local] Open Scope bool_scope.
#[local] Open Scope Z_scope.

(** ** One write per idempotency key *)

Lemma fact_value_elem ty key specs vs data v :
  fact_values ty key specs = Ok vs -> (ty, data) ∈ specs -> jget data key = VStr v -> v ∈ vs.
Proof.
  revert vs. induction specs as [|[ty' data'] specs IH]; intros vs H Hin Hv;
    [by apply elem_of_nil in Hin|]. cbn [fact_values] in H.
  apply elem_of_cons in Hin as [[= <- <-]|Hin].
  - rewrite String.eqb_refl, Hv in H. cbn in H.
    destruct (fact_values ty key specs); [|done]. cbn in H. simplify_eq. left.
  - destruct (_ && _); [|by eapply IH]. destruct (py_str _); [|done]. cbn [rbind] in H.
    destruct (fact_values ty key specs); [|done]. cbn in H. simplify_eq. right. by eapply IH.
Qed.

(** An event is determined by a unique fact it carries. *)
Lemma unique_fact_event events ty key v e e' :
  facts_unique events -> (ty, key) ∈ UNIQUE_FACTS -> e ∈ events -> e' ∈ events ->
  oe_type e = ty -> oe_type e' = ty -> jget (oe_data e) key = VStr v ->
  jget (oe_data e') key = VStr v -> e = e'.
Proof.
  intros Hu Hc He He' Ht Ht' Hv Hv'. unfold facts_unique in Hu. rewrite Forall_forall in Hu.
  destruct (Hu _ Hc) as (vs & Hvs & Hnd). cbn [fst snd] in Hvs. clear Hu Hc.
  assert (Hnot : forall l1 l2 x y, x ∈ l1 -> y ∈ l2 -> oe_type x = ty -> oe_type y = ty ->
    jget (oe_data x) key = VStr v -> jget (oe_data y) key = VStr v ->
    fact_values ty key (map event_spec (l1 ++ l2)) = Ok vs -> False).
  { intros l1 l2 x y Hx Hy Htx Hty Hvx Hvy H. rewrite map_app, fact_values_app in H.
    destruct (fact_values ty key (map event_spec l1)) as [v1|] eqn:H1; [|done].
    destruct (fact_values ty key (map event_spec l2)) as [v2|] eqn:H2; [|done].
    cbn in H. simplify_eq. apply NoDup_app in Hnd as (_ & Hd & _). apply (Hd v).
    - apply (fact_value_elem _ _ _ _ (oe_data x) _ H1); [|done].
      rewrite <- Htx. by apply (list_elem_of_fmap_2 event_spec).
    - apply (fact_value_elem _ _ _ _ (oe_data y) _ H2); [|done].
      rewrite <- Hty. by apply (list_elem_of_fmap_2 event_spec). }
  apply list_elem_of_split in He as (l1 & l2 & ->).
  apply elem_of_app in He' as [He'|[->|He']%elem_of_cons]; [exfalso| done |exfalso].
  - by eapply (Hnot l1 (e :: l2) e' e); [|left|..].
  - change (e :: l2) with ([e] ++ l2)%list in Hvs. rewrite app_assoc in Hvs.
    eapply (Hnot (l1 ++ [e])%list l2 e e'); try done. apply elem_of_app. right. by left.
Qed.

Lemma reachable_unique st : reachable st -> facts_unique (st_events st).
Proof.
  intros [calls ->]. apply run_calls_invariant; [|apply facts_unique_empty].
  intros *. apply facts_unique_append.
Qed.

(** Every prepared event of a good store has a write id. *)
Lemma run_reduces s o es e :
  foldM reduce_step o es = Ok (Some s) -> e ∈ es -> oe_type e <> "operation_started" ->
  exists s0 s1, reduce_operation_event (Some s0) e = Ok s1.
Proof.
  intros Hf (l1 & l2 & ->)%list_elem_of_split Hty. rewrite foldM_app in Hf.
  destruct (foldM reduce_step o l1) as [o1|]; [|done]. cbn [rbind foldM] in Hf.
  unfold reduce_step in Hf at 1. destruct o1 as [s0|].
  - destruct (reduce_operation_event (Some s0) e) as [s1|] eqn:Hr; [by exists s0, s1|done].
  - cbn in Hf. destruct (start_operation e) as [s1|] eqn:Hs; [|done].
    by apply start_facts in Hs as (_ & _ & _ & _ & _ & _ & Hs).
Qed.

Lemma prepared_has_id st e :
  good st -> e ∈ st_events st -> oe_type e = "write_prepared" ->
  exists id, jget (oe_data e) "writeId" = VStr id.
Proof.
  intros [Hr Hlogs] He Hty.
  assert (Hin : e ∈ operation_log st (oe_session_id e) (oe_operation_id e)).
  { apply list_elem_of_In, filter_In. split; [by apply list_elem_of_In|].
    by rewrite !String.eqb_refl. }
  destruct (Hlogs (oe_session_id e) (oe_operation_id e)) as [s Hs].
  { intros Hnil. rewrite Hnil in Hin. by apply elem_of_nil in Hin. }
  apply replay_log in Hs; [|done].
  destruct (run_reduces _ _ _ _ Hs Hin) as (s0 & s1 & Hred); [by intros Heq; rewrite Heq in Hty|].
  apply reduce_write in Hred; [|rewrite Hty; left]. unfold reduce_write_event, event_text in Hred.
  destruct (jget (oe_data e) "writeId"); try done. eauto.
Qed.

(** [r] began with [e]: at most one record of a store does. *)
Lemma same_prepared st id e e' :
  good st -> e ∈ st_events st -> e' ∈ st_events st -> oe_type e = "write_prepared" ->
  oe_type e' = "write_prepared" -> jget (oe_data e) "writeId" = VStr id ->
  jget (oe_data e') "writeId" = VStr id -> e = e'.
Proof.
  intros [Hr _] He He' Ht Ht' Hv Hv'.
  apply (unique_fact_event (st_events st) "write_prepared" "writeId" id); try done.
  - by apply reachable_unique.
  - right. left.
Qed.

Section Preparing.
Variable env : Env.
Hypothesis Henv : cooperative env.
Variable base : list OperationEvent.

Lemma stable_elem e : stable env base (fun st => e ∈ st_events st).
Proof.
  intros n st _ He. destruct (run_calls_prefix (tk_calls (env n)) st) as [more ->].
  apply elem_of_app. by left.
Qed.

(** A record read after its prepared event is known to be in the store. *)
Lemma triple_get_known id e :
  oe_type e = "write_prepared" -> jget (oe_data e) "writeId" = VStr id ->
  triple env (fun st => started base st /\ e ∈ st_events st) (get_write id)
    (fun r st => started base st /\ forall record, r = Ok record ->
       e ∈ st_events st /\ prepared_as id e record).
Proof.
  intros Hty Hid. eapply triple_weaken;
    [apply (triple_get_write env Henv base (fun st => e ∈ st_events st)), stable_elem|done|].
  intros r st (Hst & He & Hr). split; [done|]. intros record Hrec. split; [done|].
  destruct (replay_write_prepared _ _ _ (Hr _ Hrec)) as (e' & He' & Hp).
  pose proof Hp as [Ht Hw _].
  by rewrite (same_prepared st id e e' (proj1 Hst) He He' Hty Ht Hid Hw).
Qed.

Lemma triple_find hashes sid requester tool :
  triple env (started base) (find_by_idempotency hashes sid requester tool)
    (fun r st => started base st /\ forall record, r = Ok (Some record) ->
       exists e, e ∈ st_events st /\ prepared_as (wo_write_id record) e record /\
         prepared_under hashes sid requester tool e = true).
Proof.
  unfold find_by_idempotency.
  eapply triple_bind with (R := fun r st => started base st /\ (r = Ok (st_events st) \/
    r = Err CancelledError)).
  { eapply triple_access. intros n st Hst. pose proof (started_others env Henv base n st Hst).
    unfold store_load. cbn. rewrite filter_all; [|done]. split_and!; auto. }
  2:{ by intros e st [? _]. }
  intros events. apply triple_lift; [|by intros e st [? _]]. intros ids Hids.
  destruct (last ids) as [id|] eqn:Hlast; [|apply triple_ret; intros st [? _]; by split].
  intros w [Hst [[= Hev]|]]; [|done].
  (* the event the id was read from *)
  apply last_Some_elem_of in Hlast. apply mapR_Ok in Hids.
  apply list_elem_of_lookup in Hlast as [i Hi].
  destruct (Forall2_lookup_r _ _ _ _ _ Hids Hi) as (e & He & Hstr).
  apply list_elem_of_lookup_2, list_elem_of_In, filter_In in He as [He Hunder].
  apply list_elem_of_In in He. rewrite Hev in He.
  assert (Hty : oe_type e = "write_prepared").
  { unfold prepared_under in Hunder. rewrite !andb_true_iff in Hunder.
    by destruct_and! Hunder; apply String.eqb_eq. }
  destruct (prepared_has_id _ _ (proj1 Hst) He Hty) as [id' Hid]. rewrite Hid in Hstr.
  injection Hstr as ->.
  assert (Ht : triple env (fun st => started base st /\ e ∈ st_events st)
    (bind (get_write id) (fun r => ret (Some r)))
    (fun r st => started base st /\ forall record, r = Ok (Some record) ->
       exists e, e ∈ st_events st /\ prepared_as (wo_write_id record) e record /\
         prepared_under hashes sid requester tool e = true)).
  { eapply triple_bind; [by apply (triple_get_known id e)| |by intros e' st [? _]].
    intros r. apply triple_ret. intros st [Hs Hr]. split; [done|]. intros record [= <-].
    destruct (Hr _ eq_refl) as [He' Hp]. exists e.
    pose proof (prepared_as_ids _ _ _ Hp) as [-> _]. done. }
  by apply (Ht w).
Qed.
End Preparing.

(** What [prepare] promises of the record it returns: it is the requested action, in
    the requester's scope, and began with a prepared event under one of the hashes of
    the key. *)
Record prepared_for (q : PrepareRequest) (requester : VerifiedIdentity)
    (hashes : list string) (st : Store) (r : WriteOperation) : Prop := {
  pf_action : action_digest (record_semantic_action r) = request_semantic_digest q;
  pf_event : exists e, e ∈ st_events st /\ prepared_as (wo_write_id r) e r /\
    prepared_under hashes (pq_session_id q) (vi_principal_id requester) (pq_tool_name q) e = true
}.

Lemma trusted_hash_kept t v t' :
  trusted_to_dict t = Ok v -> trusted_from_dict v = Ok t' -> ta_action_hash t' = ta_action_hash t.
Proof.
  unfold trusted_to_dict, trusted_from_dict. intros H H'. res_inv H. res_inv H'.
  unfold trusted_authorization in H'. res_inv H'. cbn in *. congruence.
Qed.

Lemma opt_str_kept o o' : str_or_none (opt_value VStr o) = Ok o' -> o' = o.
Proof. destruct o; cbn; congruence. Qed.

Lemma opt_version_kept o o' : prepared_version (opt_value VInt o) = Ok o' -> o' = o.
Proof. destruct o as [n|]; cbn; [destruct (n <? 0)|]; intros; by simplify_eq. Qed.

Lemma prepared_data_read q d requester key_hash digest data e r :
  check_authorization q = Ok tt ->
  prepared_data q d requester key_hash digest = Ok data -> oe_data e = data ->
  prepared_write (dr_write_id d) e = Ok r ->
  action_digest (record_semantic_action r) = request_semantic_digest q.
Proof.
  intros Hauth Hdata He Hr. unfold prepared_data in Hdata.
  destruct (match pq_trusted_authorization q with Some _ => _ | None => _ end)
    as [trusted|] eqn:Ht; [|done]. cbn [rbind] in Hdata. injection Hdata as <-.
  unfold prepared_write in Hr. rewrite He in Hr. cbn in Hr.
  destruct (prepared_version _) as [version|] eqn:Hv; [|done]. cbn [rbind] in Hr.
  destruct (str_or_none (opt_value VStr (pq_entity_id q))) as [entity|] eqn:Hent; [|done].
  cbn [rbind] in Hr.
  destruct (match trusted with VDict _ => _ | _ => _ end) as [authorization|] eqn:Hta; [|done].
  cbn [rbind] in Hr.
  destruct (str_or_none (opt_value VStr (pq_tool_call_id q))) as [call|]; [|done]. cbn [rbind] in Hr.
  injection Hr as <-. apply opt_str_kept in Hent as ->. apply opt_version_kept in Hv as ->.
  assert (Hb : match opt_value VDict (pq_business_preconditions q) with
               | VDict p => Some p | _ => None end = pq_business_preconditions q)
    by by destruct (pq_business_preconditions q).
  assert (Hh : match authorization with Some t => Some (ta_action_hash t) | None => None end
               = pq_authorization_action_hash q).
  { unfold check_authorization in Hauth. destruct (pq_trusted_authorization q) as [t|].
    - destruct (trusted_to_dict t) as [v|] eqn:Hv; [|done]. cbn in Ht. simplify_eq.
      destruct (trusted_from_dict v) as [t'|] eqn:Hf; [|done]. cbn in Hta. simplify_eq.
      destruct (pq_authorization_action_hash q) as [hash|]; [|done].
      unfold write_require in Hauth. destruct (String.eqb_spec (ta_action_hash t) hash); [|done].
      rewrite (trusted_hash_kept _ _ _ Hv Hf). by f_equal.
    - simplify_eq. by destruct (pq_authorization_action_hash q). }
  unfold request_semantic_digest, record_semantic_action.
  cbn [wo_tool_name wo_arguments wo_entity_id wo_expected_entity_version
       wo_business_preconditions wo_trusted_authorization]. by rewrite Hb, Hh.
Qed.

Lemma moved_action r r0 : r = wo_moved r r0 -> record_semantic_action r = record_semantic_action r0.
Proof. intros ->. done. Qed.

Section PreparingCalls.
Variable env : Env.
Hypothesis Henv : cooperative env.
Variable base : list OperationEvent.

(** The key was found: the existing write is returned if it is the same action. *)
Lemma existing_prepared q requester hashes record st :
  (exists e, e ∈ st_events st /\ prepared_as (wo_write_id record) e record /\
    prepared_under hashes (pq_session_id q) (vi_principal_id requester) (pq_tool_name q) e = true) ->
  forall r, same_idempotent_action record (request_semantic_digest q) = Ok r ->
  prepared_for q requester hashes st r.
Proof.
  unfold same_idempotent_action, write_require. intros He r H.
  destruct (String.eqb_spec (action_digest (record_semantic_action record))
              (request_semantic_digest q)) as [Heq|]; [|done].
  cbn in H. simplify_eq. by split.
Qed.

Lemma triple_prepare_attempts n q d requester key_hash hashes specs fence :
  check_authorization q = Ok tt -> key_hash ∈ hashes ->
  prepare_specs q d requester key_hash = Ok specs ->
  triple env (started base) (prepare_attempts n q requester hashes (dr_write_id d) specs fence)
    (fun r st => started base st /\ forall record, r = Ok record ->
       prepared_for q requester hashes st record).
Proof.
  intros Hauth Hkey Hspecs. induction n as [|n IH]; [by apply triple_raise|].
  cbn [prepare_attempts]. eapply triple_bind; [by apply triple_find| |by intros e st [? _]].
  intros [record|].
  { apply triple_pure. intros st [Hst Hr]. split; [done|]. intros r Hsame.
    by eapply existing_prepared; [apply Hr|]. }
  eapply (triple_weaken _ (started base) _ _ (fun r st => started base st /\
    forall record, r = Ok record -> prepared_for q requester hashes st record));
    [|by intros st [? _]|done].
  apply load_then; [done| |by split]. intros events.
  destruct (bool_decide _); [by apply triple_raise; intros st [_ ?]|]. apply triple_clock. intros now.
  apply triple_lift; [|by intros e st [_ ?]]. intros s Hv.
  eapply triple_catch.
  { eapply (triple_weaken _ (fun st => events = operation_log st (pq_session_id q)
      (pq_operation_id q) /\ started base st /\ True));
      [eapply (triple_append_specs env Henv base (fun _ => True)); [done|exact Hv]
      |by intros st [? ?]|intros r st H; exact H]. }
  assert (Hretry : forall e P, (forall st, P st -> started base st) -> triple env P
    (on_conflict e (prepare_attempts n q requester hashes (dr_write_id d) specs fence))
    (fun r st => started base st /\ forall record, r = Ok record ->
       prepared_for q requester hashes st record)).
  { intros e P HP. apply triple_on_conflict; [intros e' st Hst; split; [by apply HP|done]|].
    eapply triple_weaken; [exact IH|exact HP|done]. }
  intros [new|e]; [|by apply Hretry; intros st [? _]].
  unfold prepare_specs in Hspecs.
  destruct (durable_write_action _ _ _ _ _ _ _ _ _) as [action|]; [|done]. cbn [rbind] in Hspecs.
  destruct (prepared_data _ _ _ _ _) as [data|] eqn:Hdata; [|done]. cbn [rbind] in Hspecs.
  destruct (if pq_requires_approval q then _ else _) as [rest|]; [|done]. cbn in Hspecs.
  injection Hspecs as <-.
  intros w [Hst [[? _]|(_ & _ & (st1 & now_ms & _ & _ & _ & Hev))]]; [done|].
  set (e := mkOperationEvent "write_prepared" (pq_session_id q) (pq_operation_id q)
    (Z.of_nat (List.length (st_events st1) + 0)) now_ms data).
  assert (He : e ∈ st_events (w_store w)).
  { rewrite Hev. apply elem_of_app. right. left. }
  assert (Hid : jget (oe_data e) "writeId" = VStr (dr_write_id d)).
  { unfold prepared_data in Hdata. cbn. by res_inv Hdata. }
  assert (Hunder : prepared_under hashes (pq_session_id q) (vi_principal_id requester)
    (pq_tool_name q) e = true).
  { unfold prepared_under, prepared_data in *. cbn. res_inv Hdata; cbn; rewrite !String.eqb_refl;
      rewrite !andb_true_r; apply existsb_exists; exists key_hash;
      (split; [by apply list_elem_of_In|apply String.eqb_refl]). }
  destruct (triple_get_known env Henv base (dr_write_id d) e eq_refl Hid w (conj Hst He))
    as [Hst' Hr]. split; [done|]. intros record Hrec. destruct (Hr _ Hrec) as [He' Hp].
  pose proof (prepared_as_ids _ _ _ Hp) as [Hwid _]. split.
  - destruct Hp as [_ _ (r0 & H0 & Hm)]. rewrite (moved_action _ _ Hm).
    by eapply (prepared_data_read q d requester key_hash _ data e r0).
  - exists e. by rewrite Hwid.
Qed.

Lemma triple_prepare service q d :
  triple env (started base) (prepare service q d) (fun r st =>
    started base st /\ forall record, r = Ok record ->
    exists requester key_hash legacy, pq_requester q = VerifiedArg requester /\
      as_validator (ws_approvals service) requester = Ok (VBool true) /\
      hash_scoped_idempotency_key (pq_idempotency_key q) (pq_session_id q)
        (vi_principal_id requester) (pq_tool_name q) = Ok key_hash /\
      hash_idempotency_key (pq_idempotency_key q) = Ok legacy /\
      prepared_for q requester [key_hash; legacy] st record).
Proof.
  unfold prepare. apply triple_lift; [|by split]. intros seconds _.
  apply triple_lift; [|by split]. intros entity _. destruct (_ && _); [by apply triple_raise|].
  apply triple_lift; [|by split]. intros requester [Hq Hv]%trusted_identity.
  apply triple_lift; [|by split]. intros [] Hauth. destruct (_ && _); [by apply triple_raise|].
  apply triple_lift; [|by split]. intros kh Hkh. apply triple_lift; [|by split]. intros lh Hlh.
  apply triple_lift; [|by split]. intros _ _.
  assert (Hgoal : forall (m : svc WriteOperation) (P : Store -> Prop), triple env P m (fun r st =>
      started base st /\ forall record, r = Ok record ->
        prepared_for q requester [kh; lh] st record) ->
    triple env P m (fun r st => started base st /\ forall record, r = Ok record ->
      exists requester key_hash legacy, pq_requester q = VerifiedArg requester /\
      as_validator (ws_approvals service) requester = Ok (VBool true) /\
      hash_scoped_idempotency_key (pq_idempotency_key q) (pq_session_id q)
        (vi_principal_id requester) (pq_tool_name q) = Ok key_hash /\
      hash_idempotency_key (pq_idempotency_key q) = Ok legacy /\
      prepared_for q requester [key_hash; legacy] st record)).
  { intros m P Hm. eapply triple_weaken; [exact Hm|done|]. intros r st [Hst Hr]. split; [done|].
    intros record Hrec. exists requester, kh, lh. split_and!; try done. by apply Hr. }
  eapply triple_bind; [by apply triple_find| |by intros e st [? _]].
  intros [record|]; apply Hgoal.
  - apply triple_pure. intros st [Hst Hr]. split; [done|]. intros r Hsame.
    by eapply existing_prepared; [apply Hr|].
  - apply triple_lift; [|by intros e st [? _]]. intros _ _.
    apply triple_lift; [|by intros e st [? _]]. intros specs Hspecs.
    eapply triple_weaken; [by eapply (triple_prepare_attempts _ q d requester kh); [|left|]| |done].
    by intros st [? _].
Qed.
End PreparingCalls.

(** C14. Preparing a write is idempotent in its key.  When [prepare] returns, the
    requester is a verified identity and the record is the action that was asked for
    - same tool, arguments, entity, version, preconditions and authorization, by
    digest -, prepared in the same session by the same principal under a hash of the
    same key; and no other write in the store was prepared under that hash.  A
    repeated call, by any worker, cannot prepare the write again. *)
Theorem prepare_is_idempotent service q d env w r w' :
  good (w_store w) -> cooperative env ->
  prepare service q d env w = (Ok r, w') ->
  exists requester key_hash legacy e,
    pq_requester q = VerifiedArg requester /\
    as_validator (ws_approvals service) requester = Ok (VBool true) /\
    hash_scoped_idempotency_key (pq_idempotency_key q) (pq_session_id q)
      (vi_principal_id requester) (pq_tool_name q) = Ok key_hash /\
    hash_idempotency_key (pq_idempotency_key q) = Ok legacy /\
    action_digest (record_semantic_action r) = request_semantic_digest q /\
    prepared_as (wo_write_id r) e r /\
    prepared_under [key_hash; legacy] (pq_session_id q) (vi_principal_id requester)
      (pq_tool_name q) e = true /\
    forall e', e' ∈ st_events (w_store w') -> oe_type e' = "write_prepared" ->
      jget (oe_data e') "idempotencyKeyHash" = jget (oe_data e) "idempotencyKeyHash" -> e' = e.
Proof.
  intros Hg Henv H.
  assert (Ht : triple env (started (st_events (w_store w))) (prepare service q d) (fun r st =>
    started (st_events (w_store w)) st /\ forall record, r = Ok record ->
    exists requester key_hash legacy, pq_requester q = VerifiedArg requester /\
      as_validator (ws_approvals service) requester = Ok (VBool true) /\
      hash_scoped_idempotency_key (pq_idempotency_key q) (pq_session_id q)
        (vi_principal_id requester) (pq_tool_name q) = Ok key_hash /\
      hash_idempotency_key (pq_idempotency_key q) = Ok legacy /\
      prepared_for q requester [key_hash; legacy] st record)) by by apply triple_prepare.
  destruct (Ht w (started_here _ Hg)) as [[Hg' _] Hok]. rewrite H in Hg', Hok. cbn [fst snd] in *.
  destruct (Hok r eq_refl) as (requester & kh & lh & Hq & Hv & Hkh & Hlh & [Hact (e & He & Hp & Hu)]).
  exists requester, kh, lh, e. split_and!; try done. intros e' He' Hty Hkey.
  assert (Hk : exists k, jget (oe_data e) "idempotencyKeyHash" = VStr k).
  { unfold prepared_under in Hu. rewrite !andb_true_iff in Hu. destruct Hu as [[[[_ Hu] _] _] _].
    apply existsb_exists in Hu as (k & _ & Hk%is_str_spec). by exists k. }
  destruct Hk as [k Hk]. rewrite Hk in Hkey.
  apply (unique_fact_event (st_events (w_store w')) "write_prepared" "idempotencyKeyHash" k);
    try done; [by apply reachable_unique, Hg'|do 2 right; left|by destruct Hp].
Qed.
