(* ===== verification/WriteReconcile.v ===== *)
(** * Reconciling a write

    A write whose outcome is unknown ends only on an explicit answer of the
    adapter, under one claim, and is never submitted again. *)

From S2P Require Import Prelude PyDict Text Sha256 PyVal Json PyNum DurableAction.
From S2P Require Import OperationTypes OperationReducer OperationLifecycle OperationSafety.
From S2P Require Import OperationStore OperationLog Service Approvals ToolErrors.
From S2P Require Import WriteRecord WriteAgreement WriteService WriteClaim WriteOutcome.
From Stdlib Require Import String.

#[local] Open Scope string_scope.
#[local] Open Scope bool_scope.
#[local] Open Scope Z_scope.

(** ** Reconciling *)

(** The adapter's answer states [status]. *)
Definition says (answer : pyval) (status : string) : Prop :=
  exists d s, answer = VDict d /\ jget d "status" = VStr s /\ casefold_text (strip s) = status.

Lemma verdict_says answer ty result :
  reconcile_verdict answer = (ty, result) ->
  (ty = "write_succeeded" -> says answer "succeeded") /\
  (ty = "write_failed" -> says answer "failed").
Proof.
  unfold reconcile_verdict. intros H.
  assert (Hcase : ty = "write_reconcile_deferred" \/ exists d s, answer = VDict d /\
    jget d "status" = VStr s /\
    (ty = "write_succeeded" /\ casefold_text (strip s) = "succeeded" \/
     ty = "write_failed" /\ casefold_text (strip s) = "failed")).
  { destruct answer as [|b|n|f|t|l|d]; [vm_compute in H; left; congruence..|].
    cbv beta iota zeta in H.
    destruct (jget d "status") as [| | | |s| |] eqn:Hs;
      lazymatch type of Hs with
      | _ = VStr _ => idtac
      | _ => vm_compute in H; left; congruence
      end.
    destruct (String.eqb_spec (casefold_text (strip s)) "succeeded") as [E|_].
    { right. exists d, s. injection H as <- _. auto. }
    destruct (String.eqb_spec (casefold_text (strip s)) "failed") as [E|_].
    { right. exists d, s. injection H as <- _. auto. }
    left. destruct (mem_str _ _); congruence. }
  destruct Hcase as [->|(d & s & -> & Hs & [[-> E]|[-> E]])]; [done|..];
    (split; [first [done | intros _; by exists d, s] | first [done | intros _; by exists d, s]]).
Qed.

Lemma verdict_types answer ty result :
  reconcile_verdict answer = (ty, result) ->
  ty = "write_succeeded" \/ ty = "write_failed" \/ ty = "write_reconcile_deferred".
Proof. unfold reconcile_verdict. intros H. repeat case_match; simplify_eq; auto. Qed.

Section Reconciling.
Variables (env : Env) (id : string).
Hypothesis Henv : cooperative env.
Hypothesis Hothers : leaves_write id env.
Variables (service : WriteOperationService) (owner_token : string) (lost : bool).
Variables (base : list OperationEvent) (L : list EventSpec).

(** The lease is the one that the store gave this call, for the reconciliation of this
    very write. *)
Definition lease_acquired (lease : ClaimLease) : Prop :=
  exists st0 record resource n st1 st2,
    started base st0 /\ replay_write (st_events st0) id = Ok record /\
    fenced_claim_resource_id "write_reconcile" (wo_session_id record) (Some (wo_operation_id record))
      (Some id) = Ok resource /\
    started base st1 /\
    acquire_fenced_claim st1 (tk_now (env n)) "write_reconcile" resource owner_token
      (ws_reconcile_claim_lease service) = Ok (Some lease, st2).

(** The event that enters the reconciliation *)
Definition entering (lease : ClaimLease) (spec : EventSpec) : Prop :=
  (fst spec = "write_reconciling" \/ fst spec = "write_reconcile_reentered") /\
  snd spec = ("writeId", VStr id) :: fence_fields lease.

(** The one consultation of a reconciliation: in the world [w1], with the record of the
    write as the log gives it after the event that enters the reconciliation; whatever
    adapter is passed, this is where it is asked, and what follows depends on its end alone. *)
Record asked_about (w : World) (lease : ClaimLease) (claimed : WriteOperation) (w1 : World) : Prop := {
  qa_started : started base (w_store w1);
  qa_entered : exists spec, entering lease spec /\ about id (w_store w1) = (L ++ [spec])%list;
  qa_record : exists entered, claimed = wo_claimed_by lease entered /\ wo_write_id entered = id /\
    exists sid oid, replay_write (operation_log (w_store w1) sid oid) id = Ok entered;
  qa_only : forall handler, reconcile service id owner_token handler lost env w
    = let (out, w2) := handler claimed env w1 in
      finally (conclude_reconciliation service claimed lease lost out) (release_async lease) env w2
}.

(** An event a reconciliation under [lease] may add, with the answers it was given *)
Record reconciling_event (lease : ClaimLease) (answered : pyval -> Prop) (spec : EventSpec) : Prop := {
  re_token : jget (snd spec) "fencingToken" = VInt (cl_generation lease);
  re_scope : jget (snd spec) "fencingScope" = VStr (cl_resource_id lease);
  re_succeeded : fst spec = "write_succeeded" -> exists v, answered v /\ says v "succeeded";
  re_failed : fst spec = "write_failed" -> exists v, answered v /\ says v "failed";
  re_not_again : fst spec <> "write_submitting"
}.

(** What was added is of this kind, and was appended while the lease was held. *)
Definition news_of (lease : ClaimLease) (answered : pyval -> Prop) (st : Store) : Prop :=
  exists news, about id st = (L ++ news)%list /\
    Forall (fun spec => reconciling_event lease answered spec /\ under_lease env base lease spec st) news.

Definition reconciled (lease : ClaimLease) (answered : pyval -> Prop) (st : Store) : Prop :=
  started base st /\ news_of lease answered st.

Lemma news_grow lease answered st st' :
  st_events st `prefix_of` st_events st' -> about id st' = about id st ->
  news_of lease answered st -> news_of lease answered st'.
Proof.
  intros Hpre Hab (news & H1 & H2). exists news. rewrite Hab. split; [done|].
  eapply Forall_impl; [exact H2|]. intros spec [? ?]. split; [done|by eapply under_lease_grows].
Qed.

Lemma stable_news lease answered : stable env base (news_of lease answered).
Proof. intros n st [Hg _] H. eapply news_grow; [apply others_grow|by apply Hothers|done]. Qed.

Lemma news_events_only lease answered : events_only (news_of lease answered).
Proof.
  intros st st' He H. apply (news_grow lease answered st st'); [by rewrite He|unfold about; by rewrite He|done].
Qed.
#[local] Hint Resolve stable_news news_events_only : core.

Lemma no_news lease answered st : started base st -> about id st = L -> reconciled lease answered st.
Proof. intros Hst Hab. split; [done|]. exists []. by rewrite app_nil_r. Qed.

Lemma under_lease_base base' lease spec st :
  base `prefix_of` base' -> under_lease env base' lease spec st -> under_lease env base lease spec st.
Proof.
  intros Hb (st1 & sid & oid & now_ms & [Hg Hst1] & H). exists st1, sid, oid, now_ms.
  split; [split; [done|by etrans]|done].
Qed.

Lemma triple_finish_reconcile record required ty data lease answered :
  wo_write_id record = id -> jget data "writeId" = VStr id ->
  reconciling_event lease answered (ty, data) ->
  triple env (reconciled lease answered)
    (finish_transition service record required ty data (Some lease, None))
    (fun _ st => reconciled lease answered st).
Proof.
  intros Hid Hdata Hev w (Hst & news & Habout & Hnews).
  destruct (triple_finished env id Henv Hothers service (Some lease, None) (st_events (w_store w))
    MAX_WRITE_CONFLICT_RETRIES record required (ty, data) (L ++ news) Hid Hdata w
    (conj (started_here _ (proj1 Hst)) Habout)) as ([Hg' Hpre] & Hab' & _).
  split; [split; [done|by etrans; [apply Hst|]]|].
  assert (Hold : Forall (fun spec => reconciling_event lease answered spec /\
    under_lease env base lease spec (w_store (snd (finish_transition service record required ty data
      (Some lease, None) env w)))) news).
  { eapply Forall_impl; [exact Hnews|]. intros spec [? ?]. split; [done|by eapply under_lease_grows]. }
  destruct Hab' as [H|[H Hu]]; [by exists news|].
  exists (news ++ [(ty, data)])%list. rewrite app_assoc. split; [exact H|].
  apply Forall_app. split; [done|]. apply Forall_singleton. split; [done|].
  eapply under_lease_base; [apply Hst|exact Hu].
Qed.

Lemma triple_renew_held lease answered :
  triple env (reconciled lease answered) (renew_held service lease) (fun _ st => reconciled lease answered st).
Proof.
  eapply triple_catch; [by apply (triple_renew env Henv base (news_of lease answered)); auto|].
  intros [b|e]; [by apply triple_ret|]. destruct (is_exception e); [by apply triple_ret|].
  by apply triple_raise.
Qed.

(** The heartbeat says nothing of any write. *)
Lemma triple_heartbeat lease answered rounds :
  triple env (reconciled lease answered) (renew_reconcile_claim rounds service lease)
    (fun _ st => reconciled lease answered st).
Proof.
  induction rounds as [|rounds IH]; [by apply triple_ret|].
  eapply triple_bind; [apply triple_renew_held| |done]. intros []; [exact IH|by apply triple_ret].
Qed.

Lemma triple_assert lease answered :
  triple env (reconciled lease answered) (assert_reconcile_claim service lease lost)
    (fun _ st => reconciled lease answered st).
Proof.
  eapply triple_bind with (R := fun _ st => reconciled lease answered st); [| |done].
  - destruct lost; [by apply triple_ret|apply triple_renew_held].
  - intros []; [by apply triple_ret|by apply triple_raise].
Qed.

(** The end of the adapter is recorded as it says. *)
Lemma triple_conclude claimed lease (answered : pyval -> Prop) out :
  wo_write_id claimed = id -> (forall v, out = Ok v -> answered v) ->
  triple env (reconciled lease answered) (conclude_reconciliation service claimed lease lost out)
    (fun _ st => reconciled lease answered st).
Proof.
  intros Hid Hout. unfold conclude_reconciliation. rewrite Hid. destruct out as [answer|e].
  - eapply triple_bind; [apply triple_assert| |done]. intros [].
    destruct (reconcile_verdict answer) as [ty result] eqn:Hv.
    pose proof (verdict_types _ _ _ Hv) as Hty. apply verdict_says in Hv as [Hs Hf].
    apply triple_finish_reconcile; [done|done|].
    split; [done|done| | |by destruct Hty as [-> | [-> | ->]]]; intros Hend; exists answer; auto.
  - destruct (negb _); [by apply triple_raise|].
    eapply triple_bind; [apply triple_assert| |done]. intros [].
    eapply triple_bind; [apply triple_finish_reconcile; [done|done|by split]| |done].
    intros r. by apply triple_raise.
Qed.

Lemma triple_released lease answered :
  triple env (reconciled lease answered) (release_async lease) (fun _ st => reconciled lease answered st).
Proof. by apply (triple_release env Henv base (news_of lease answered)); auto. Qed.

(** *** Up to the adapter *)

Lemma triple_claim_reconciliation :
  triple env (fun st => started base st /\ about id st = L) (claim_reconciliation service id owner_token)
    (fun r st => (started base st /\ about id st = L) /\ forall record lease, r = Ok (record, lease) ->
       wo_write_id record = id /\ lease_acquired lease).
Proof.
  unfold claim_reconciliation. destruct (negb _); [by apply triple_raise|].
  eapply triple_bind with (R := fun r st => (started base st /\ about id st = L) /\
    forall record, r = Ok record -> exists st0, started base st0 /\ replay_write (st_events st0) id = Ok record).
  { eapply triple_weaken; [by apply (triple_get_write env Henv base (fun st => about id st = L) id), stable_about|done|].
    intros r st (Hst & Hab & Hr). split; [done|]. intros record Hrec. exists st. auto. }
  2:{ intros e st [? _]. by split. }
  intros record. apply triple_lift; [|intros e st [? _]; by split].
  intros resource Hres w [Hst Hrec]. destruct (Hrec _ eq_refl) as (st0 & Hst0 & Hread).
  revert w Hst. assert (Ht : triple env (fun st => started base st /\ about id st = L)
    (bind (acquire_async "write_reconcile" resource owner_token (ws_reconcile_claim_lease service))
       (fun lease => match lease with
                     | None => write_raise "write_reconcile_claimed"
                     | Some lease => ret (record, lease)
                     end))
    (fun r st => (started base st /\ about id st = L) /\ forall record lease, r = Ok (record, lease) ->
       wo_write_id record = id /\ lease_acquired lease)); [|intros w Hw; by apply (Ht w)].
  eapply triple_bind; [apply (triple_acquired env Henv base (fun st => about id st = L));
    [by apply stable_about|intros st st' He; unfold about; by rewrite He]| |by intros e st [? _]].
  intros [lease|]; [|by apply triple_raise; intros st [? _]]. apply triple_ret.
  intros st [Hst Hacq]. split; [done|]. intros record' lease' [= <- <-].
  split; [by eapply read_id|]. destruct (Hacq _ eq_refl) as (n & st1 & st2 & Hst1 & Ha).
  by exists st0, record, resource, n, st1, st2.
Qed.

Lemma entering_event lease answered spec : entering lease spec -> reconciling_event lease answered spec.
Proof.
  destruct spec as [ty data]. intros [Hty Hdata]. cbn [fst snd] in Hty, Hdata. subst data.
  destruct Hty as [-> | ->]; by split.
Qed.

(** What the event that enters the reconciliation leaves *)
Lemma triple_entered record lease answered :
  wo_write_id record = id ->
  triple env (fun st => started base st /\ about id st = L) (enter_reconciliation service record lease)
    (fun r st => reconciled lease answered st /\ forall entered, r = Ok entered ->
       (exists spec, entering lease spec /\ about id st = (L ++ [spec])%list) /\
       wo_write_id entered = id /\
       exists sid oid, replay_write (operation_log st sid oid) id = Ok entered).
Proof.
  intros Hid. unfold enter_reconciliation. rewrite Hid.
  assert (Henter : forall ty required, ty = "write_reconciling" \/ ty = "write_reconcile_reentered" ->
    triple env (fun st => started base st /\ about id st = L)
      (finish_transition service record required ty (("writeId", VStr id) :: fence_fields lease) (Some lease, None))
      (fun r st => reconciled lease answered st /\ forall entered, r = Ok entered ->
       (exists spec, entering lease spec /\ about id st = (L ++ [spec])%list) /\
       wo_write_id entered = id /\
       exists sid oid, replay_write (operation_log st sid oid) id = Ok entered)).
  { intros ty required Hty. set (spec := (ty, ("writeId", VStr id) :: fence_fields lease)).
    assert (Hspec : entering lease spec) by by split.
    eapply triple_weaken; [apply (triple_finished env id Henv Hothers service
      (Some lease, None) base MAX_WRITE_CONFLICT_RETRIES record required spec L Hid eq_refl)| |].
    { intros st H. exact H. }
    intros r st (Hst & Hab & Hret). split.
    - split; [done|]. destruct Hab as [H|[H Hu]]; [by apply no_news|]. eexists. split; [exact H|].
      apply Forall_singleton. split; [by apply entering_event|exact Hu].
    - intros entered Hr. destruct (Hret _ Hr) as [Hread [H|H]].
      2: { cbn in H. rewrite H in Hty. by destruct Hty. }
      split; [by exists spec|]. split; [by eapply read_id|]. by eexists _, _. }
  destruct (wo_state record); first [by apply Henter; auto|apply triple_raise; intros st [? ?]; by split; [apply no_news|]].
Qed.

Variable handler : WriteOperation -> svc pyval.
Hypothesis Hhandler : forall claimed, harmless id env (handler claimed).

(** The adapter was asked in this call, and answered [v]. *)
Definition answered_in (w : World) (lease : ClaimLease) (v : pyval) : Prop :=
  exists claimed w1, asked_about w lease claimed w1 /\ fst (handler claimed env w1) = Ok v.

Lemma reconcile_ends w :
  started base (w_store w) -> about id (w_store w) = L ->
  let w' := snd (reconcile service id owner_token handler lost env w) in
  about id (w_store w') = L \/
  exists lease, lease_acquired lease /\ reconciled lease (answered_in w lease) (w_store w').
Proof.
  intros Hst Hab. cbv zeta.
  pose proof (triple_claim_reconciliation w (conj Hst Hab)) as [[Hst1 Hab1] Hclaim].
  assert (Hunfold : forall h, reconcile service id owner_token h lost env w
    = bind (claim_reconciliation service id owner_token) (fun claim => let (record, lease) := claim in
        finally (reconcile_held service record lease h lost) (release_async lease)) env w) by done.
  rewrite (Hunfold handler). unfold bind in Hunfold |- *.
  destruct (claim_reconciliation service id owner_token env w) as [[[record lease]|e] w1] eqn:Ec; [|by left].
  cbn [fst snd] in *. destruct (Hclaim _ _ eq_refl) as [Hid Hlease]. right. exists lease. split; [done|].
  pose proof (triple_entered record lease (answered_in w lease) Hid w1 (conj Hst1 Hab1)) as [Hrec Hent].
  unfold finally, catch, reconcile_held, bind in Hunfold |- *.
  destruct (enter_reconciliation service record lease env w1) as [[entered|e] w2] eqn:Ee; cbn [fst snd] in *.
  2: { pose proof (triple_released lease (answered_in w lease) w2 Hrec) as H.
       by destruct (release_async lease env w2) as [[u|x] w3]. }
  destruct (Hent _ eq_refl) as (Hspec & Heid & Hread). unfold catch in Hunfold |- *.
  set (claimed := wo_claimed_by lease entered) in *.
  assert (Hasked : asked_about w lease claimed w2).
  { constructor; [apply Hrec|done|by exists entered|]. intros h. rewrite (Hunfold h).
    unfold finally, catch, bind. by destruct (h claimed env w2) as [out w3]. }
  destruct (Hhandler claimed w2 (proj1 (proj1 Hrec))) as (Hg & Hpre & Hsame).
  destruct (handler claimed env w2) as [out w3] eqn:Eh. cbn [fst snd] in *.
  assert (Hrec3 : reconciled lease (answered_in w lease) (w_store w3)).
  { split; [split; [done|by etrans; [apply Hrec|]]|]. eapply news_grow; [done|done|apply Hrec]. }
  assert (Hans : forall v, out = Ok v -> answered_in w lease v).
  { intros v ->. exists claimed, w2. split; [done|]. by rewrite Eh. }
  pose proof (triple_conclude claimed lease _ out Heid Hans w3 Hrec3) as Hrec4.
  destruct (conclude_reconciliation service claimed lease lost out env w3) as [r w4]. cbn [fst snd] in *.
  pose proof (triple_released lease (answered_in w lease) w4 Hrec4) as H.
  by destruct (release_async lease env w4) as [[u|x] w5].
Qed.
End Reconciling.

(** C15. A reconciliation ends a write only on an explicit answer.  However it is
    interrupted and whatever the other workers do elsewhere, a call of [reconcile] adds
    something about the write only under one claim on the reconciliation of this very
    write, which the store gave to this call: every event carries the claim's fencing
    token and scope and was appended while the claim was held.  It says that the write
    succeeded or failed only if the adapter was asked - at the one point where this call
    asks it, with the record of this write that its log gives after the event that enters
    the reconciliation - and answered "succeeded" or "failed" in so many words; and it
    never submits the write again. *)
Theorem reconciliation_needs_an_answer service id owner_token handler lost env w :
  good (w_store w) -> cooperative env -> leaves_write id env ->
  (forall claimed, harmless id env (handler claimed)) ->
  let base := st_events (w_store w) in
  let L := about id (w_store w) in
  let w' := snd (reconcile service id owner_token handler lost env w) in
  exists news, about id (w_store w') = (L ++ news)%list /\
    (news <> [] -> exists lease,
       lease_acquired env id service owner_token base lease /\
       Forall (fun spec =>
         reconciling_event lease (answered_in env id service owner_token lost base L handler w lease) spec /\
         under_lease env base lease spec (w_store w')) news).
Proof.
  intros Hg Henv Hothers Hhandler base L w'.
  destruct (reconcile_ends env id Henv Hothers service owner_token lost base L handler Hhandler w
    (started_here _ Hg) eq_refl) as [H|(lease & Hlease & _ & news & Hab & Hnews)].
  - exists []. by rewrite app_nil_r.
  - exists news. split; [done|]. intros _. by exists lease.
Qed.
