(* ===== verification/WriteExamples.v ===== *)
(** * The write service at work

    A refund prepared by one principal, approved and executed by another while a
    third worker keeps starting an operation of its own; a second refund whose
    handler fails and which is reconciled.  The theorems about the write service
    are applied here. *)

From S2P Require Import Prelude PyDict Text Sha256 PyVal Json PyNum DurableAction.
From S2P Require Import OperationTypes OperationReducer OperationLifecycle OperationSafety.
From S2P Require Import OperationStore OperationLog Service Approvals ToolErrors.
From S2P Require Import WriteRecord WriteAgreement WriteService.
From S2P Require Import WriteClaim WriteOutcome WritePrepare WriteReconcile.
From Stdlib Require Import String.

#[local] Open Scope string_scope.
#[local] Open Scope bool_scope.
#[local] Open Scope Z_scope.

Definition write_service : WriteOperationService := mkWriteService iam_service 30 true true true.
Definition no_claim : ClaimArgs := mkClaimArgs None None None None.

Definition pay : PrepareRequest :=
  mkPrepare "s" "o" "refund" [("amount", VInt 5)] "key-1" (VerifiedArg alice) true "ops" None None
    None None None None no_claim.
Definition drawn : Draws := mkDraws "w-1" "a-9" (NInt 0) 60.
Definition submit : ExecuteRequest :=
  mkExecute "w-1" (VerifiedArg bob) "key-1" None None no_claim.

Definition receipt : pyval := VDict [("receipt", VStr "r-1")].
Definition paying : WriteCallback := PlainHandler (fun _ _ _ => ret receipt).

(** ** Other workers, and the worlds of the example *)

Lemma busy_leaves id : leaves_write id busy_env.
Proof.
  intros n st _. simpl. destruct (append_batch _ _ _ _ _ _ _) as [[new st']|] eqn:Ha; [|done]. simpl.
  apply append_batch_exact, append_events_exact in Ha as (_ & _ & _ & Hnew & Hev).
  rewrite Hnew in Hev. rewrite (about_numbered id st' st _ _ _ _ Hev). cbn. by rewrite app_nil_r.
Qed.

Lemma harmless_ret {A} id env (v : A) : harmless id env (ret v).
Proof. done. Qed.

Definition prepared_world : World :=
  Eval vm_compute in snd (prepare write_service pay drawn busy_env started_world).
Definition approved_world : World :=
  Eval vm_compute in snd (grant iam_service "a-9" (VerifiedArg bob) false None busy_env
                            prepared_world).
Definition crash : exn := HandlerError false None None None.
Definition crashing : WriteCallback := PlainHandler (fun _ _ _ => raise crash).
Definition uncertain_world : World :=
  Eval vm_compute in snd (execute write_service submit (plain_of crashing) None busy_env
                            approved_world).
(** The adapter finds the refund. *)
Definition finding : WriteOperation -> svc pyval :=
  fun _ => ret (VDict [("status", VStr " Succeeded")]).

Lemma prepared_good : good (w_store prepared_world).
Proof.
  replace prepared_world with (snd (prepare write_service pay drawn busy_env started_world))
    by (vm_compute; reflexivity).
  apply (triple_prepare busy_env busy_cooperative (st_events (w_store started_world))
           write_service pay drawn).
  apply started_here, started_good.
Qed.

Lemma approved_good : good (w_store approved_world).
Proof.
  replace approved_world
    with (snd (run_service_call iam_service (SvcGrant "a-9" (VerifiedArg bob) false None) busy_env
                 prepared_world)) by (vm_compute; reflexivity).
  apply (triple_call busy_env busy_cooperative (st_events (w_store prepared_world))).
  apply started_here, prepared_good.
Qed.

Lemma uncertain_good : good (w_store uncertain_world).
Proof.
  replace uncertain_world
    with (snd (execute write_service submit (plain_of crashing) (context_of crashing) busy_env
                 approved_world)) by (vm_compute; reflexivity).
  apply (triple_execute busy_env (st_events (w_store approved_world)) write_service submit crashing
           busy_cooperative (busy_leaves _)); [done|].
  apply started_here, approved_good.
Qed.

(** ** The theorems at work *)

Definition paid_world : World :=
  Eval vm_compute in snd (execute write_service submit (plain_of paying) None busy_env
                            approved_world).

Lemma write_record_agrees_with_reducer_witness :
  exists s r w,
    replay_operation (operation_log (w_store uncertain_world) "s" "o") = Ok s /\
    replay_write (operation_log (w_store uncertain_world) "s" "o") "w-1" = Ok r /\
    wo_state r = WrOutcomeUnknown /\ dget "w-1" (op_writes s) = Some w /\ write_agrees r w.
Proof.
  do 2 eexists.
  edestruct (write_record_agrees_with_reducer (w_store uncertain_world) "s" "o" "w-1")
    as (w & Hw & Hag);
    [exact (proj1 uncertain_good)|vm_compute; reflexivity|vm_compute; reflexivity|].
  exists w. split; [vm_compute; reflexivity|]. split; [vm_compute; reflexivity|].
  split; [reflexivity|]. split; [exact Hw|exact Hag].
Defined.


(** The claimed write, as the handler gets it *)
Definition claimed_write : WriteOperation :=
  Eval vm_compute in
    match fst (claim_write write_service submit false busy_env approved_world) with
    | Ok (ClaimedWrite r, _, _) => r
    | _ => mkWriteOperation "" "" "" "" VNone "" "" "" WrPrepared 0 None None None None None None
             None None None None None
    end.
Definition claimed_world : World :=
  Eval vm_compute in snd (claim_write write_service submit false busy_env approved_world).

Lemma claimed_good : good (w_store claimed_world).
Proof.
  replace claimed_world with (snd (claim_write write_service submit false busy_env approved_world))
    by (vm_compute; reflexivity).
  apply (triple_claim_write busy_env busy_cooperative (st_events (w_store approved_world))).
  apply started_here, approved_good.
Qed.

Lemma outcome_is_recorded_truthfully_witness :
  about "w-1" (w_store (snd (conclude_write write_service claimed_write (None, None)
                               (raise crash) busy_env claimed_world)))
  <> about "w-1" (w_store claimed_world) /\
  exists spec, truthful "w-1" (Err crash) spec /\
    about "w-1" (w_store (snd (conclude_write write_service claimed_write (None, None)
                                 (raise crash) busy_env claimed_world)))
    = (about "w-1" (w_store claimed_world) ++ [spec])%list.
Proof.
  assert (Hne : about "w-1" (w_store (snd (conclude_write write_service claimed_write (None, None)
                               (raise crash) busy_env claimed_world)))
                <> about "w-1" (w_store claimed_world)) by (vm_compute; discriminate).
  split; [exact Hne|].
  pose proof (outcome_is_recorded_truthfully write_service (None, None) claimed_write (raise crash)
    busy_env claimed_world claimed_good busy_cooperative (busy_leaves _) (fun w Hw => conj Hw (conj
      (reflexivity _) eq_refl))) as H.
  destruct (conclude_write write_service claimed_write (None, None) (raise crash) busy_env
              claimed_world) as [r w'].
  destruct H as [_ [H|H]]; [contradiction (Hne H)|exact H].
Defined.

Definition prepared_write_record : WriteOperation :=
  Eval vm_compute in
    match fst (prepare write_service pay drawn busy_env started_world) with
    | Ok r => r
    | Err _ => claimed_write
    end.

Lemma prepare_runs :
  prepare write_service pay drawn busy_env started_world
  = (Ok prepared_write_record, prepared_world).
Proof. vm_compute. reflexivity. Qed.

Lemma prepare_is_idempotent_witness :
  (exists r w', prepare write_service pay (mkDraws "w-2" "a-10" (NInt 9) 90) busy_env paid_world
                = (Ok r, w') /\ wo_write_id r = "w-1" /\
                wo_result r = Some [("receipt", VStr "r-1")]) /\
  exists r w' e,
    prepare write_service pay drawn busy_env started_world = (Ok r, w') /\
    prepared_as (wo_write_id r) e r /\
    action_digest (record_semantic_action r) = request_semantic_digest pay.
Proof.
  split; [do 2 eexists; split; [vm_compute; reflexivity|split; reflexivity]|].
  destruct (prepare_is_idempotent write_service pay drawn busy_env started_world prepared_write_record
    prepared_world started_good busy_cooperative prepare_runs)
    as (_ & _ & _ & e & _ & _ & _ & _ & Hact & Hp & _).
  exists prepared_write_record, prepared_world, e.
  split; [exact prepare_runs|]. split; [exact Hp|exact Hact].
Defined.

Definition reconciled_world : World :=
  Eval vm_compute in snd (reconcile write_service "w-1" "owner" finding false busy_env uncertain_world).

Lemma reconciliation_needs_an_answer_witness :
  (exists r, fst (reconcile write_service "w-1" "owner" finding false busy_env uncertain_world)
             = Ok r /\ wo_state r = WrSucceeded) /\
  exists news lease,
    about "w-1" (w_store reconciled_world) = (about "w-1" (w_store uncertain_world) ++ news)%list /\
    map fst news = ["write_reconciling"; "write_succeeded"] /\
    lease_acquired busy_env "w-1" write_service "owner" (st_events (w_store uncertain_world)) lease /\
    Forall (fun spec =>
      reconciling_event lease (answered_in busy_env "w-1" write_service "owner" false
        (st_events (w_store uncertain_world)) (about "w-1" (w_store uncertain_world)) finding
        uncertain_world lease) spec /\
      under_lease busy_env (st_events (w_store uncertain_world)) lease spec (w_store reconciled_world)) news.
Proof.
  split; [eexists; split; [vm_compute; reflexivity|reflexivity]|].
  assert (Hw : snd (reconcile write_service "w-1" "owner" finding false busy_env uncertain_world)
               = reconciled_world) by (vm_compute; reflexivity).
  destruct (reconciliation_needs_an_answer write_service "w-1" "owner" finding false busy_env
           uncertain_world uncertain_good busy_cooperative (busy_leaves "w-1")) as (news & Hab & Hnews);
    rewrite ?Hw in *.
  { intros claimed w Hg. split; [exact Hg|]. split; reflexivity. }
  assert (Htypes : map fst news = ["write_reconciling"; "write_succeeded"]).
  { apply (f_equal (map fst)) in Hab. rewrite map_app in Hab. vm_compute in Hab.
    injection Hab as Hab. symmetry. exact Hab. }
  destruct Hnews as (lease & Hlease & Hall); [by intros ->|].
  exists news, lease. split; [exact Hab|]. split; [exact Htypes|]. by split.
Defined.
