(* ===== verification/Recovery.v ===== *)
(** * Planning the recovery of an operation  (src/.../session/resume.py)

    What may be done about an operation that a crash left unfinished, decided from
    its replayed state alone: [plan] of [OperationRecoveryPlanner], one definition per
    part, with the action it proposes and the fence it is carried out under. *)

From S2P Require Import Prelude PyDict Text PyVal DurableAction ModelPolicy.
From S2P Require Import OperationTypes OperationReducer.
From Stdlib Require Import String.

#[local] Open Scope string_scope.
#[local] Open Scope bool_scope.
#[local] Open Scope Z_scope.

(** ** Actions *)

Inductive RecoveryKind :=
| ManualIntervention | RetryModelRequest | ContinueModel | FinishOperation
| WaitForApproval | ConsumeApproval | ResumeApprovedWrite | ReconcileWrite
| FinalizeRejectedApproval | ExecuteTool | ReplaySafeTool | ReconcileTool
| MaterializeToolResult.

#[export] Instance RecoveryKind_eq_dec : EqDecision RecoveryKind.
Proof. solve_decision. Defined.

Record RecoveryAction := mkAction {
  ra_kind : RecoveryKind;
  ra_request_id : option string;
  ra_tool_call_id : option string;
  ra_tool_name : option string;
  ra_arguments : pydict;
  ra_reason : string;
  ra_stored_result : option pydict;
  ra_approval_id : option string;
  ra_write_id : option string;
  ra_request_policy : option ModelRequestPolicy;
  ra_expected_replay_policy : option string;
  ra_expected_tool_contract_digest : option string;
  ra_fencing_token : option Z;
  ra_fencing_scope : option string
}.

(** [RecoveryAction.__post_init__] *)
Definition recovery_action (a : RecoveryAction) : res RecoveryAction :=
  if xorb (is_some (ra_fencing_token a)) (is_some (ra_fencing_scope a)) then Err ValueError
  else Ok a.

(** An action about a model request or about nothing in particular *)
Definition plain_action (kind : RecoveryKind) (request_id : option string)
    (policy : option ModelRequestPolicy) (reason : string) : RecoveryAction :=
  mkAction kind request_id None None [] reason None None None policy None None None None.

Definition manual (reason : string) : RecoveryAction :=
  plain_action ManualIntervention None None reason.

(** [_write_recovery_action] *)
Definition write_recovery_action (w : WriteSnapshot) (kind : RecoveryKind) (reason : string)
  : RecoveryAction :=
  mkAction kind None (wr_tool_call_id w) (Some (wr_tool_name w)) (wr_arguments w) reason None
    (wr_approval_id w) (Some (wr_write_id w)) None None None None None.

(** [_approval_recovery_action] *)
Definition approval_recovery_action (a : ApprovalSnapshot) (kind : RecoveryKind)
    (reason : string) (tool_name : option string) (arguments : pydict) : RecoveryAction :=
  mkAction kind None (ap_tool_call_id a) tool_name arguments reason None
    (Some (ap_approval_id a)) (ap_write_id a) None None None None None.

(** [_tool_recovery_action] *)
Definition tool_recovery_action (t : ToolInvocationState) (kind : RecoveryKind)
    (reason : string) (stored_result : option pydict) : RecoveryAction :=
  mkAction kind None (Some (ti_tool_call_id t)) (Some (ti_tool_name t)) (ti_arguments t) reason
    stored_result None None None (Some (ti_replay_policy t)) (ti_security_contract_digest t)
    None None.

Record OperationRecoveryPlan := mkRecoveryPlan {
  rp_operation : OperationState;
  rp_actions : list RecoveryAction
}.

(** ** Writes and approvals *)

Definition approval_state_name (s : ApprovalState) : string :=
  match s with
  | ApWaiting => "waiting" | ApApproved => "approved" | ApConsumed => "consumed"
  | ApRejected => "rejected" | ApExpired => "expired" | ApResumeStarted => "resume_started"
  | ApResumeCompleted => "resume_completed" | ApResumeFailed => "resume_failed"
  | ApResumeCancelled => "resume_cancelled"
  end.

(** What a write that is not settled needs *)
Definition write_actions (s : OperationState) (w : WriteSnapshot) : list RecoveryAction :=
  match wr_state w with
  | WrSubmitting | WrOutcomeUnknown | WrReconciling =>
      [write_recovery_action w ReconcileWrite "写操作已经提交或结果不确定，必须核对状态"]
  | WrWaitingApproval =>
      match match wr_approval_id w with
            | Some id => dget id (op_approvals s)
            | None => None
            end with
      | None => [write_recovery_action w ManualIntervention "Waiting Write 缺少关联 Approval"]
      | Some a =>
          match ap_state a with
          | ApWaiting => [write_recovery_action w WaitForApproval "写操作仍在等待审批"]
          | ApApproved =>
              [write_recovery_action w ConsumeApproval
                 "关联 Approval 已批准，等待可信 Consumer 消费"]
          | ApConsumed | ApResumeStarted =>
              [write_recovery_action w ResumeApprovedWrite
                 "关联 Approval 已消费，可以恢复 Write Claim"]
          | ApRejected | ApExpired | ApResumeCancelled =>
              [write_recovery_action w FinalizeRejectedApproval
                 ("关联 Approval 状态为 " ++ approval_state_name (ap_state a))]
          | ApResumeCompleted | ApResumeFailed =>
              [write_recovery_action w ManualIntervention
                 ("Waiting Write 的 Approval 状态无法自动恢复："
                  ++ approval_state_name (ap_state a))]
          end
      end
  | WrPrepared | WrApproved =>
      [write_recovery_action w ResumeApprovedWrite
         "写操作已准备完成，可以由 Write Runtime 恢复"]
  | WrSucceeded | WrFailed => []
  end.

(** The tool and the arguments an approval's action names, of an envelope or not *)
Definition approval_target (action : pydict) : res (option string * pydict) :=
  match envelope_from_dict (VDict action) with
  | Ok e => Ok (Some (ea_tool_name e), ea_arguments e)
  | Err DurableActionEnvelopeError =>
      let! name := py_str (jget_or action "tool" (VStr "")) in
      let! arguments := py_dict (jget_or action "arguments" (VDict [])) in
      Ok (if nonempty name then Some name else None, arguments)
  | Err e => Err e
  end.

Definition approval_actions (a : ApprovalSnapshot) : res (list RecoveryAction) :=
  if bool_decide (ap_resume_state a = RsUnregistered) && bool_decide (ap_state a = ApConsumed)
  then Ok [] else
  let! target := approval_target (ap_action a) in
  let act (kind : RecoveryKind) (reason : string) :=
    [approval_recovery_action a kind reason (fst target) (snd target)] in
  Ok match ap_state a with
     | ApWaiting => act WaitForApproval "Approval 仍在等待人工批准"
     | ApApproved => act ConsumeApproval "Approval 已批准，等待可信 Consumer 消费"
     | ApConsumed | ApResumeStarted =>
         act ResumeApprovedWrite "Approval 已消费，可以恢复已批准写操作"
     | ApRejected | ApExpired =>
         act FinalizeRejectedApproval ("Approval 状态为 " ++ approval_state_name (ap_state a))
     | ApResumeFailed => act ManualIntervention "Approval Resume 已失败，需要人工核对"
     | ApResumeCompleted | ApResumeCancelled => []
     end.

(** [_approval_write_actions] *)
Definition approval_write_actions (s : OperationState) : res (list RecoveryAction) :=
  let writes := List.concat (map (write_actions s) (dvalues (op_writes s))) in
  if negb (bool_decide (writes = [])) then Ok writes else
  let! approvals := mapR approval_actions (dvalues (op_approvals s)) in
  Ok (List.concat approvals).

(** ** Tool calls *)

(** [_tool_action] *)
Definition tool_action (t : ToolInvocationState) : RecoveryAction :=
  match ti_phase t with
  | TiCompleted =>
      tool_recovery_action t MaterializeToolResult
        "工具结果已持久化，但 ToolResult Message 尚未写入 Context" (ti_result t)
  | TiOutcomeUnknown =>
      tool_recovery_action t ReconcileTool "写操作结果不确定，必须核对状态，不能直接重放" None
  | TiIntentRecorded =>
      tool_recovery_action t ExecuteTool "工具尚未进入 Dispatch，可以安全执行" None
  | TiDispatchStarted =>
      if String.eqb (ti_replay_policy t) "safe" then
        match ti_security_contract_digest t with
        | None =>
            tool_recovery_action t ManualIntervention
              "Safe Replay 缺少持久 Tool Security Contract；无法证明当前 Handler 与原 Dispatch 相同"
              None
        | Some _ => tool_recovery_action t ReplaySafeTool "工具声明 replay_policy=safe" None
        end
      else tool_recovery_action t ReconcileTool "工具已进入 Dispatch 且不可安全重放" None
  end.

(** A call of the last assistant message that is still without a result *)
Definition call_actions (s : OperationState) (results : list string) (call : pydict)
  : res (list RecoveryAction) :=
  let! id := py_str (jget_or call "id" (VStr "")) in
  if negb (nonempty id) || mem_str id results then Ok [] else
  match dget id (op_tools s) with
  | Some t => Ok [tool_action t]
  | None =>
      let! name := py_str (jget_or call "name" (VStr "")) in
      let! arguments := py_dict (jget_or call "arguments" (VDict [])) in
      Ok [mkAction ManualIntervention None (Some id) (Some name) arguments
            "Assistant Tool Call 已持久化，但缺少可信 Dispatch Intent；无法验证 Replay Policy 与 Action Binding"
            None None None None None None None None]
  end.

(** The tool calls that have a result message *)
Definition result_ids (messages : list pydict) : res (list string) :=
  mapR (fun m => py_str (jget m "toolCallId"))
    (List.filter (fun m => is_str (jget m "role") "toolResult") messages).

Definition open_call_actions (s : OperationState) (assistant : option pydict)
  : res (list RecoveryAction) :=
  let! results := result_ids (op_messages s) in
  match assistant with
  | None => Ok []
  | Some m =>
      let! blocks := py_list (jget_or m "content" (VList [])) in
      let! actions := mapR (call_actions s results) (call_blocks blocks) in
      Ok (List.concat actions)
  end.

(** ** The next model request *)

(** The policy of the request that continues after the last message *)
Definition next_policy (s : OperationState) (after_tool : bool) : option ModelRequestPolicy :=
  match op_active_model_policy s with
  | Some p =>
      if after_tool then
        match mp_continuation_policy p with
        | Some next => Some next
        | None => if negb (is_str (mp_tool_choice p) "auto")
                     && negb (is_str (mp_tool_choice p) "none")
                  then None else Some p
        end
      else Some p
  | None => None
  end.

Definition continue_action (s : OperationState) : res RecoveryAction :=
  match last (op_messages s) with
  | None => Ok (manual "Operation 没有可恢复消息 Context")
  | Some m =>
      let role := jget m "role" in
      let! waiting := in_str_set role ["user"; "toolResult"] in
      Ok (if waiting then
            match next_policy s (is_str role "toolResult") with
            | None => manual "待继续 Context 缺少持久化请求策略，禁止扩大工具可见范围"
            | Some p => plain_action ContinueModel None (Some p)
                          "Context 与模型请求策略均完整，可以继续请求模型"
            end
          else plain_action FinishOperation None None
                 "最后 Assistant 已完成且没有未解决 Tool Call")
  end.

(** A request that was started and never ended *)
Definition pending_request_action (r : ModelRequestState) : RecoveryAction :=
  match mr_policy r with
  | None => plain_action ManualIntervention (Some (mr_request_id r)) None
              "未完成 Model Request 缺少持久化请求策略，禁止使用全部工具和 auto 策略恢复"
  | Some p => plain_action RetryModelRequest (Some (mr_request_id r)) (Some p)
                "模型请求已开始但没有完整 Assistant Message"
  end.

(** ** The plan *)

(** The model's part, once no write, approval or request is in the way *)
Definition message_actions (s : OperationState) : res (list RecoveryAction) :=
  let assistant := last_assistant (op_messages s) in
  let! unsuccessful :=
    match assistant with
    | Some m => in_str_set (jget m "stopReason") ["error"; "aborted"; "length"]
    | None => Ok false
    end in
  if unsuccessful then
    let! stop := py_str (match assistant with Some m => jget m "stopReason" | None => VNone end) in
    Ok [manual ("最后 Model Request 未成功结束：" ++ stop)]
  else
    let! calls := open_call_actions s assistant in
    if negb (bool_decide (calls = [])) then Ok calls else
    let! action := continue_action s in
    Ok [action].

Definition plan_actions (s : OperationState) : res (list RecoveryAction) :=
  if terminal_phase (op_phase s) then Ok [] else
  let! guarded := approval_write_actions s in
  if negb (bool_decide (guarded = [])) then Ok guarded else
  if bool_decide (op_phase s = OpWaitingApproval) && bool_decide (op_approvals s = [])
     && bool_decide (op_writes s = [])
  then Ok [manual "Operation 标记 waiting_approval 但缺少 Approval/Write 持久事实，禁止恢复执行 Tool"]
  else
  match last (List.filter (fun r => bool_decide (mr_phase r = RequestStarted))
                (dvalues (op_model_requests s))) with
  | Some r => Ok [pending_request_action r]
  | None => message_actions s
  end.

(** [OperationRecoveryPlanner.plan] *)
Definition plan_recovery (s : OperationState) : res OperationRecoveryPlan :=
  let! actions := plan_actions s in Ok (mkRecoveryPlan s actions).

(** [_fenced_action]: every external callback is bound to the owned generation. *)
Definition fenced_action (a : RecoveryAction) (generation : Z) (scope : string)
  : RecoveryAction :=
  mkAction (ra_kind a) (ra_request_id a) (ra_tool_call_id a) (ra_tool_name a) (ra_arguments a)
    (ra_reason a) (ra_stored_result a) (ra_approval_id a) (ra_write_id a) (ra_request_policy a)
    (ra_expected_replay_policy a) (ra_expected_tool_contract_digest a) (Some generation)
    (Some scope).
