(* ===== verification/RecoveryPlanning.v ===== *)
(** * What a recovery plan may propose

    Every planned action is justified by the facts of the operation: the state of the
    tool, write, approval or request it is about, and the order in which open facts
    are dealt with. *)

From S2P Require Import Prelude PyDict Text PyVal DurableAction ModelPolicy.
From S2P Require Import OperationTypes OperationReducer OperationLifecycle OperationSafety.
From S2P Require Import Recovery.
From Stdlib Require Import String.

#[local] Open Scope string_scope.
#[local] Open Scope bool_scope.
#[local] Open Scope Z_scope.

(** ** Justification of an action by the state it was planned for *)

(** The action is about this tool invocation, write, approval. *)
Definition about_tool (s : OperationState) (a : RecoveryAction) (t : ToolInvocationState) : Prop :=
  dget (ti_tool_call_id t) (op_tools s) = Some t /\
  ra_tool_call_id a = Some (ti_tool_call_id t) /\ ra_tool_name a = Some (ti_tool_name t) /\
  ra_arguments a = ti_arguments t.

Definition about_write (s : OperationState) (a : RecoveryAction) (w : WriteSnapshot) : Prop :=
  dget (wr_write_id w) (op_writes s) = Some w /\
  ra_write_id a = Some (wr_write_id w) /\ ra_arguments a = wr_arguments w /\
  ra_approval_id a = wr_approval_id w.

Definition about_approval (s : OperationState) (a : RecoveryAction) (p : ApprovalSnapshot) : Prop :=
  dget (ap_approval_id p) (op_approvals s) = Some p /\ ra_approval_id a = Some (ap_approval_id p).

Definition uncertain_states : list WriteState := [WrSubmitting; WrOutcomeUnknown; WrReconciling].

(** The approval the action names is in one of these states. *)
Definition rests_on_approval (s : OperationState) (a : RecoveryAction)
    (states : list ApprovalState) : Prop :=
  exists p, about_approval s a p /\ ap_state p ∈ states.

(** No result message answers the tool call. *)
Definition unanswered (s : OperationState) (id : string) : Prop :=
  forall m, m ∈ op_messages s -> jget m "role" = VStr "toolResult" -> py_str (jget m "toolCallId") <> Ok id.

(** A call of the last assistant message that is still without a result *)
Definition open_call (s : OperationState) (call : pydict) (id : string) : Prop :=
  exists m blocks, last_assistant (op_messages s) = Some m /\
    py_list (jget_or m "content" (VList [])) = Ok blocks /\ call ∈ call_blocks blocks /\
    py_str (jget_or call "id" (VStr "")) = Ok id /\ id <> "" /\ unanswered s id.

Definition awaits_result (s : OperationState) (t : ToolInvocationState) : Prop :=
  exists call, open_call s call (ti_tool_call_id t).

(** The model's last answer, if there is one, ended as it should and has no open call. *)
Definition unsuccessful_stops : list string := ["error"; "aborted"; "length"].
Definition context_closed (s : OperationState) : Prop :=
  (forall m, last_assistant (op_messages s) = Some m ->
     forall stop, stop ∈ unsuccessful_stops -> jget m "stopReason" <> VStr stop) /\
  forall call id, ~ open_call s call id.

(** The model has not answered this message yet. *)
Definition waits_for_model (m : pydict) : Prop :=
  jget m "role" = VStr "user" \/ jget m "role" = VStr "toolResult".

(** ** What only a person can decide *)

(** A write waits for an approval that is not there or that cannot be resumed; the
    resumption of an approval failed; or the operation waits for an approval it does not
    know. *)
Definition stuck_fact (s : OperationState) (a : RecoveryAction) : Prop :=
  (exists w, about_write s a w /\ wr_state w = WrWaitingApproval /\
     match match wr_approval_id w with Some id => dget id (op_approvals s) | None => None end with
     | None => True
     | Some p => ap_state p ∈ [ApResumeCompleted; ApResumeFailed]
     end) \/
  (exists p, about_approval s a p /\ ap_state p = ApResumeFailed) \/
  op_phase s = OpWaitingApproval /\ op_approvals s = [] /\ op_writes s = [].

(** A request was left open whose policy was not recorded. *)
Definition stuck_request (s : OperationState) (a : RecoveryAction) : Prop :=
  exists r, r ∈ dvalues (op_model_requests s) /\ mr_phase r = RequestStarted /\ mr_policy r = None /\
    ra_request_id a = Some (mr_request_id r).

(** The model's last answer failed; an open call was never recorded as an invocation, or
    was dispatched under no recorded contract though it may be repeated; there is no
    message, or no policy for what follows the last one. *)
Definition stuck_context (s : OperationState) (a : RecoveryAction) : Prop :=
  (exists m stop, last_assistant (op_messages s) = Some m /\ stop ∈ unsuccessful_stops /\
     jget m "stopReason" = VStr stop) \/
  (exists call id, open_call s call id /\ dget id (op_tools s) = None /\ ra_tool_call_id a = Some id) \/
  (exists t, about_tool s a t /\ awaits_result s t /\ ti_phase t = TiDispatchStarted /\
     ti_replay_policy t = "safe" /\ ti_security_contract_digest t = None) \/
  context_closed s /\
  match last (op_messages s) with
  | None => True
  | Some m => waits_for_model m /\ next_policy s (is_str (jget m "role") "toolResult") = None
  end.

(** What makes an action the right one *)
Definition justified (s : OperationState) (a : RecoveryAction) : Prop :=
  match ra_kind a with
  | ExecuteTool => exists t, about_tool s a t /\ ti_phase t = TiIntentRecorded /\ awaits_result s t
  | ReplaySafeTool => exists t, about_tool s a t /\ ti_phase t = TiDispatchStarted /\
      ti_replay_policy t = "safe" /\ is_some (ti_security_contract_digest t) = true /\
      awaits_result s t
  | ReconcileTool => exists t, about_tool s a t /\
      (ti_phase t = TiOutcomeUnknown \/
       ti_phase t = TiDispatchStarted /\ ti_replay_policy t <> "safe") /\ awaits_result s t
  | MaterializeToolResult => exists t, about_tool s a t /\ ti_phase t = TiCompleted /\
      ra_stored_result a = ti_result t /\ awaits_result s t
  | ReconcileWrite => exists w, about_write s a w /\ wr_state w ∈ uncertain_states
  | ResumeApprovedWrite =>
      (exists w, about_write s a w /\ wr_state w ∈ [WrPrepared; WrApproved]) \/
      rests_on_approval s a [ApConsumed; ApResumeStarted]
  | ConsumeApproval => rests_on_approval s a [ApApproved]
  | WaitForApproval => rests_on_approval s a [ApWaiting]
  | FinalizeRejectedApproval => rests_on_approval s a [ApRejected; ApExpired; ApResumeCancelled]
  | RetryModelRequest => exists r p, r ∈ dvalues (op_model_requests s) /\
      mr_phase r = RequestStarted /\ mr_policy r = Some p /\
      ra_request_id a = Some (mr_request_id r) /\ ra_request_policy a = Some p
  | ContinueModel => exists m p, last (op_messages s) = Some m /\ waits_for_model m /\
      context_closed s /\
      next_policy s (is_str (jget m "role") "toolResult") = Some p /\ ra_request_policy a = Some p
  | FinishOperation => exists m, last (op_messages s) = Some m /\ ~ waits_for_model m /\ context_closed s
  | ManualIntervention => stuck_fact s a \/ stuck_request s a \/ stuck_context s a
  end.

(** The actions that decide about a write or an approval *)
Definition guarded_kinds : list RecoveryKind :=
  [ReconcileWrite; ResumeApprovedWrite; ConsumeApproval; WaitForApproval;
   FinalizeRejectedApproval].

Definition guarded (s : OperationState) (a : RecoveryAction) : Prop :=
  ra_kind a ∈ guarded_kinds \/ ra_kind a = ManualIntervention /\ stuck_fact s a.

(** Everything settled that a request or a tool call could endanger *)
Definition nothing_pending (s : OperationState) : Prop :=
  (forall w, w ∈ dvalues (op_writes s) -> wr_state w ∈ [WrSucceeded; WrFailed]) /\
  (forall p, p ∈ dvalues (op_approvals s) ->
     ap_state p ∈ [ApResumeCompleted; ApResumeCancelled] \/
     ap_state p = ApConsumed /\ ap_resume_state p = RsUnregistered).

Definition no_request_open (s : OperationState) : Prop :=
  forall r, r ∈ dvalues (op_model_requests s) -> mr_phase r <> RequestStarted.

(** Open writes and approvals come first, then an open request, then the rest. *)
Definition in_order (s : OperationState) (a : RecoveryAction) : Prop :=
  guarded s a \/
  nothing_pending s /\
  (ra_kind a = RetryModelRequest \/ ra_kind a = ManualIntervention /\ stuck_request s a \/
   no_request_open s).

Section Planning.
Variable s : OperationState.
Hypothesis Hwf : facts_wf s.

(** A kind that is justified by a write or an approval, or the lack of one *)
Lemma guarded_kind a : ra_kind a ∈ guarded_kinds -> justified s a -> justified s a /\ guarded s a.
Proof. intros Hk Hj. split; [done|by left]. Qed.

Lemma guarded_manual a :
  ra_kind a = ManualIntervention -> stuck_fact s a -> justified s a /\ guarded s a.
Proof. intros Hk Hs. split; [unfold justified; rewrite Hk; by left|right; by split]. Qed.

Lemma write_actions_justified w a :
  dget (wr_write_id w) (op_writes s) = Some w -> a ∈ write_actions s w ->
  justified s a /\ guarded s a.
Proof.
  intros Hw Ha. unfold write_actions in Ha.
  assert (Hab : forall kind reason, about_write s (write_recovery_action w kind reason) w) by done.
  assert (Hrest : forall kind reason p states,
    match wr_approval_id w with Some id => dget id (op_approvals s) | None => None end = Some p ->
    ap_state p ∈ states -> rests_on_approval s (write_recovery_action w kind reason) states).
  { intros kind reason p states Hp Hs. exists p. split; [|done].
    destruct (wr_approval_id w) as [id|] eqn:Hid; [|done].
    pose proof (fw_approval_id _ Hwf _ _ Hp) as Hpid. split; [by rewrite Hpid|].
    cbn. by rewrite Hid, Hpid. }
  destruct (wr_state w) eqn:Hst; try by apply elem_of_nil in Ha.
  2:{ assert (Hstuck : forall reason,
        match match wr_approval_id w with Some id => dget id (op_approvals s) | None => None end with
        | None => True | Some p => ap_state p ∈ [ApResumeCompleted; ApResumeFailed]
        end -> stuck_fact s (write_recovery_action w ManualIntervention reason))
        by (intros reason H; left; by exists w).
      destruct (match wr_approval_id w with Some id => _ | None => None end) as [p|] eqn:Hp;
        [destruct (ap_state p) eqn:Hps|]; apply list_elem_of_singleton in Ha as ->;
        first [apply guarded_manual; [done|apply Hstuck; set_solver]
              |apply guarded_kind; [set_solver|cbn]; try right;
               eapply Hrest; [done|rewrite Hps; set_solver]]. }
  all: apply list_elem_of_singleton in Ha as ->; (apply guarded_kind; [set_solver|cbn]);
    first [left; exists w; rewrite Hst; by split; [|set_solver]
          |exists w; rewrite Hst; by split; [|set_solver]].
Qed.

Lemma approval_actions_justified p l a :
  dget (ap_approval_id p) (op_approvals s) = Some p -> approval_actions p = Ok l -> a ∈ l ->
  justified s a /\ guarded s a.
Proof.
  intros Hp Hl Ha. unfold approval_actions in Hl.
  destruct (bool_decide _ && bool_decide _); [simplify_eq; by apply elem_of_nil in Ha|].
  destruct (approval_target _) as [target|]; [|done]. cbn [rbind] in Hl. injection Hl as <-.
  assert (Hrest : forall kind reason states, ap_state p ∈ states -> rests_on_approval s
    (approval_recovery_action p kind reason (fst target) (snd target)) states)
    by (intros kind reason states Hs; by exists p).
  destruct (ap_state p) eqn:Hps; try by apply elem_of_nil in Ha.
  all: apply list_elem_of_singleton in Ha as ->;
    first [apply guarded_manual; [done|]; right; left; by exists p
          |apply guarded_kind; [set_solver|cbn]; try right; apply Hrest; set_solver].
Qed.

Lemma guarded_justified l a :
  approval_write_actions s = Ok l -> a ∈ l -> justified s a /\ guarded s a.
Proof.
  unfold approval_write_actions. intros Hl Ha. destruct (negb _).
  - injection Hl as <-. apply elem_of_concat in Ha as (l' & Hl' & Ha).
    apply list_elem_of_fmap in Hl' as (w & -> & Hw).
    apply dvalues_elem_dget in Hw as [k Hw]; [|apply Hwf].
    eapply write_actions_justified; [|done]. by rewrite (fw_write_id _ Hwf _ _ Hw).
  - destruct (mapR _ _) as [ls|] eqn:Hls; [|done]. cbn in Hl. injection Hl as <-.
    apply elem_of_concat in Ha as (l' & Hl' & Ha).
    apply mapR_Ok in Hls. apply list_elem_of_lookup in Hl' as [i Hi].
    destruct (Forall2_lookup_r _ _ _ _ _ Hls Hi) as (p & Hp & Hact).
    apply list_elem_of_lookup_2, dvalues_elem_dget in Hp as [k Hp]; [|apply Hwf].
    eapply approval_actions_justified; [|done|done]. by rewrite (fw_approval_id _ Hwf _ _ Hp).
Qed.

(** *** Tools and messages *)

Lemma result_ids_unanswered results id :
  result_ids (op_messages s) = Ok results -> mem_str id results = false -> unanswered s id.
Proof.
  unfold result_ids. intros Hr%mapR_Ok Hid m Hm Hrole Hpy.
  assert (Hin : m ∈ List.filter (fun m => is_str (jget m "role") "toolResult") (op_messages s)).
  { apply list_elem_of_In, filter_In. split; [by apply list_elem_of_In|]. by rewrite Hrole. }
  apply list_elem_of_lookup in Hin as [i Hi].
  destruct (Forall2_lookup_l _ _ _ _ _ Hr Hi) as (id' & Hid' & Heq). rewrite Hpy in Heq.
  injection Heq as <-. apply not_true_iff_false in Hid. apply Hid, mem_str_spec.
  by eapply list_elem_of_lookup_2.
Qed.

Lemma answered_not_unanswered results id :
  result_ids (op_messages s) = Ok results -> mem_str id results = true -> ~ unanswered s id.
Proof.
  unfold result_ids. intros Hr%mapR_Ok Hid%mem_str_spec Hun.
  apply list_elem_of_lookup in Hid as [i Hi].
  destruct (Forall2_lookup_r _ _ _ _ _ Hr Hi) as (m & Hm & Hpy).
  apply list_elem_of_lookup_2, list_elem_of_In, filter_In in Hm as [Hm Hrole].
  apply (Hun m); [by apply list_elem_of_In| |done]. by apply is_str_spec.
Qed.

Lemma tool_action_justified t :
  dget (ti_tool_call_id t) (op_tools s) = Some t -> awaits_result s t -> justified s (tool_action t).
Proof.
  intros Ht Hw. unfold tool_action. destruct (ti_phase t) eqn:Hp.
  - by exists t.
  - destruct (String.eqb_spec (ti_replay_policy t) "safe") as [Hsafe|Hsafe].
    + destruct (ti_security_contract_digest t) eqn:Hd.
      * exists t. by rewrite Hd.
      * right. right. right. right. left. by exists t.
    + exists t. split_and!; auto. done.
  - exists t. split_and!; auto. done.
  - by exists t.
Qed.

Lemma open_call_actions_spec m calls :
  last_assistant (op_messages s) = Some m -> open_call_actions s (Some m) = Ok calls ->
  (forall a, a ∈ calls -> justified s a) /\
  (calls = [] -> forall call id, ~ open_call s call id).
Proof.
  intros Hm Hc. unfold open_call_actions in Hc.
  destruct (result_ids _) as [results|] eqn:Hr; [|done]. cbn [rbind] in Hc.
  destruct (py_list _) as [blocks|] eqn:Hb; [|done]. cbn [rbind] in Hc.
  destruct (mapR _ _) as [ls|] eqn:Hls; [|done]. cbn in Hc. injection Hc as <-.
  apply mapR_Ok in Hls. split.
  - intros a (l' & Hl' & Ha)%elem_of_concat. apply list_elem_of_lookup in Hl' as [i Hi].
    destruct (Forall2_lookup_r _ _ _ _ _ Hls Hi) as (call & Hcall%list_elem_of_lookup_2 & Hact).
    unfold call_actions in Hact. destruct (py_str _) as [id|] eqn:Hid; [|done]. cbn [rbind] in Hact.
    destruct (negb _ || _) eqn:Eskip; [simplify_eq; by apply elem_of_nil in Ha|].
    apply orb_false_iff in Eskip as [Hne%negb_false_iff Hun].
    assert (Hopen : open_call s call id).
    { exists m, blocks. split_and!; [done..| |by eapply result_ids_unanswered]. by intros ->. }
    destruct (dget id (op_tools s)) as [t|] eqn:Ht.
    + injection Hact as <-. apply list_elem_of_singleton in Ha as ->.
      pose proof (fw_tool_id _ Hwf _ _ Ht) as Hti. apply tool_action_justified.
      * by rewrite Hti.
      * exists call. by rewrite Hti.
    + res_inv Hact. apply list_elem_of_singleton in Ha as ->. right. right. right. left. by exists call, id.
  - intros Hnil call id (m' & blocks' & Hm' & Hb' & Hcall & Hid & Hne & Hun).
    rewrite Hm in Hm'. injection Hm' as <-. rewrite Hb in Hb'. injection Hb' as <-.
    apply list_elem_of_lookup in Hcall as [i Hi].
    destruct (Forall2_lookup_l _ _ _ _ _ Hls Hi) as (l & Hl%list_elem_of_lookup_2 & Hact).
    rewrite (concat_nil_elem _ _ Hnil Hl) in Hact. unfold call_actions in Hact. rewrite Hid in Hact.
    cbn [rbind] in Hact. destruct (String.eqb_spec id "") as [|Hne']; [done|].
    destruct (mem_str id results) eqn:Hmem; [by eapply answered_not_unanswered|].
    destruct id as [|c id]; [done|]. cbn in Hact. destruct (dget _ _); [done|by res_inv Hact].
Qed.

Lemma in_str_set_spec v l b : in_str_set v l = Ok b -> b = true <-> exists x, x ∈ l /\ v = VStr x.
Proof.
  intros H. destruct v; try done; injection H as <-; [split; [done|by intros (y & _ & Hy)]..| |].
  all: try (split; [done|by intros (y & _ & Hy)]).
  split; [intros H%mem_str_spec; by eexists|]. intros (y & Hy & [= ->]). by apply mem_str_spec.
Qed.

Lemma message_actions_justified l a : message_actions s = Ok l -> a ∈ l -> justified s a.
Proof.
  unfold message_actions. intros Hl Ha.
  destruct (match last_assistant (op_messages s) with Some _ => in_str_set _ _ | None => _ end)
    as [unsuccessful|] eqn:Eu; [|done]. cbn [rbind] in Hl. destruct unsuccessful.
  { res_inv Hl. apply list_elem_of_singleton in Ha as ->. right. right. left.
    destruct (last_assistant _) as [m|]; [|done].
    apply in_str_set_spec in Eu. destruct (proj1 Eu eq_refl) as (stop & Hstop & Hv). by exists m, stop. }
  assert (Hgood : forall m, last_assistant (op_messages s) = Some m ->
     forall stop, stop ∈ unsuccessful_stops -> jget m "stopReason" <> VStr stop).
  { intros m Hm stop Hstop Hv. rewrite Hm in Eu. apply in_str_set_spec in Eu.
    assert (false = true) by (apply Eu; by exists stop). done. }
  destruct (open_call_actions s _) as [calls|] eqn:Hc; [|done]. cbn [rbind] in Hl.
  assert (Hcalls : (forall a, a ∈ calls -> justified s a) /\ (calls = [] -> forall call id, ~ open_call s call id)).
  { destruct (last_assistant (op_messages s)) as [m|] eqn:Hm; [by eapply open_call_actions_spec|].
    unfold open_call_actions in Hc. destruct (result_ids _); [|done]. injection Hc as <-. split.
    - intros x Hx. by apply elem_of_nil in Hx.
    - intros _ call id (m & ? & Hm' & _). congruence. }
  destruct (bool_decide_reflect (calls = [])) as [->|]; cbn [negb] in Hl;
    [|injection Hl as <-; by apply Hcalls].
  assert (Hclosed : context_closed s) by (split; [done|by apply Hcalls]).
  destruct (continue_action s) as [x|] eqn:Hx; [|done]. cbn in Hl. injection Hl as <-.
  apply list_elem_of_singleton in Ha as ->. unfold continue_action in Hx.
  destruct (last (op_messages s)) as [m|] eqn:Hm.
  2:{ injection Hx as <-. right. right. right. right. right. by rewrite Hm. }
  destruct (in_str_set _ _) as [waiting|] eqn:Ew; [|done]. cbn [rbind] in Hx. injection Hx as <-.
  apply in_str_set_spec in Ew.
  assert (Hwait : waiting = true <-> waits_for_model m).
  { rewrite Ew. unfold waits_for_model. split.
    - intros (y & Hy & ->). apply elem_of_cons in Hy as [->|Hy%list_elem_of_singleton]; [by left|right; by f_equal].
    - intros [H|H]; rewrite H; eexists; (split; [|done]); set_solver. }
  destruct waiting.
  - destruct (next_policy _ _) as [p|] eqn:Hp.
    + exists m, p. split_and!; try done. by apply Hwait.
    + right. right. right. right. right. split; [done|]. rewrite Hm. split; [by apply Hwait|done].
  - exists m. split_and!; try done. intros H%Hwait. done.
Qed.

Lemma pending_request_justified r :
  r ∈ dvalues (op_model_requests s) -> mr_phase r = RequestStarted ->
  justified s (pending_request_action r).
Proof.
  intros Hr Hp. unfold pending_request_action. destruct (mr_policy r) as [p|] eqn:Hpol.
  - by exists r, p.
  - right. left. by exists r.
Qed.

Lemma waiting_is_stuck a :
  bool_decide (op_phase s = OpWaitingApproval) && bool_decide (op_approvals s = [])
    && bool_decide (op_writes s = []) = true -> stuck_fact s a.
Proof.
  intros H. apply andb_true_iff in H as [[H1%bool_decide_eq_true H2%bool_decide_eq_true]%andb_true_iff
    H3%bool_decide_eq_true]. right. by right.
Qed.

Lemma plan_actions_justified l a : plan_actions s = Ok l -> a ∈ l -> justified s a.
Proof.
  unfold plan_actions. intros Hl Ha.
  destruct (terminal_phase _); [simplify_eq; by apply elem_of_nil in Ha|].
  destruct (approval_write_actions s) as [gs|] eqn:Hg; [|done]. cbn [rbind] in Hl.
  destruct (negb _); [injection Hl as <-; by eapply guarded_justified|].
  destruct (_ && _ && _) eqn:Ew.
  { injection Hl as <-. apply list_elem_of_singleton in Ha as ->. left. by apply waiting_is_stuck. }
  destruct (last _) as [r|] eqn:Hr; [|by eapply message_actions_justified].
  injection Hl as <-. apply list_elem_of_singleton in Ha as ->.
  apply last_Some_elem_of, list_elem_of_In, filter_In in Hr as [Hr Hp].
  apply pending_request_justified; [by apply list_elem_of_In|by apply bool_decide_eq_true in Hp].
Qed.

Lemma no_write_action w : write_actions s w = [] -> wr_state w ∈ [WrSucceeded; WrFailed].
Proof.
  unfold write_actions. intros H. destruct (wr_state w); try discriminate H; try set_solver.
  destruct (match wr_approval_id w with Some _ => _ | None => None end) as [p|];
    [destruct (ap_state p)|]; discriminate H.
Qed.

Lemma no_approval_action p :
  approval_actions p = Ok [] ->
  ap_state p ∈ [ApResumeCompleted; ApResumeCancelled] \/
  ap_state p = ApConsumed /\ ap_resume_state p = RsUnregistered.
Proof.
  unfold approval_actions. intros H.
  destruct (bool_decide_reflect (ap_resume_state p = RsUnregistered));
    destruct (bool_decide_reflect (ap_state p = ApConsumed)); cbn in H; [by right|..];
    (destruct (approval_target _); [|done]); cbn in H; destruct (ap_state p); try done; set_solver.
Qed.

Lemma no_guarded_action : approval_write_actions s = Ok [] -> nothing_pending s.
Proof.
  unfold approval_write_actions. intros H.
  destruct (bool_decide_reflect (List.concat (map (write_actions s) (dvalues (op_writes s))) = []))
    as [Hw|]; [|by injection H]. cbn in H. split.
  - intros w Hin. apply no_write_action. apply (concat_nil_elem _ _ Hw).
    apply list_elem_of_fmap. by exists w.
  - destruct (mapR _ _) as [ls|] eqn:Hls; [|done]. cbn in H. injection H as H.
    intros p Hp. apply mapR_Ok in Hls. apply list_elem_of_lookup in Hp as [i Hi].
    destruct (Forall2_lookup_l _ _ _ _ _ Hls Hi) as (l & Hl & Hact).
    apply no_approval_action. rewrite Hact. f_equal.
    apply (concat_nil_elem _ _ H). by eapply list_elem_of_lookup_2.
Qed.

Lemma plan_in_order l a : plan_actions s = Ok l -> a ∈ l -> in_order s a.
Proof.
  unfold plan_actions. intros Hl Ha.
  destruct (terminal_phase _); [simplify_eq; by apply elem_of_nil in Ha|].
  destruct (approval_write_actions s) as [gs|] eqn:Hg; [|done]. cbn [rbind] in Hl.
  destruct (bool_decide_reflect (gs = [])) as [->|Hne]; cbn [negb] in Hl.
  2:{ injection Hl as <-. left. by eapply guarded_justified. }
  destruct (_ && _ && _) eqn:Ew.
  { injection Hl as <-. apply list_elem_of_singleton in Ha as ->. left. right.
    split; [done|by apply waiting_is_stuck]. }
  apply no_guarded_action in Hg. destruct (last _) as [r|] eqn:Hr.
  - injection Hl as <-. apply list_elem_of_singleton in Ha as ->.
    apply last_Some_elem_of, list_elem_of_In, filter_In in Hr as [Hr%list_elem_of_In Hst%bool_decide_eq_true].
    right. split; [done|]. unfold pending_request_action.
    destruct (mr_policy r) eqn:Hp; [by left|]. right. left. split; [done|]. by exists r.
  - right. split; [done|]. right. right. intros x Hx Hst. apply last_None in Hr.
    apply (not_elem_of_nil x). rewrite <- Hr. apply list_elem_of_In, filter_In.
    split; [by apply list_elem_of_In|by apply bool_decide_eq_true].
Qed.

(** An operation that is not finished always gets an action. *)
Lemma plan_actions_nonempty l :
  plan_actions s = Ok l -> (l = [] <-> terminal_phase (op_phase s) = true).
Proof.
  unfold plan_actions, message_actions. intros Hl.
  destruct (terminal_phase _); [by injection Hl as <-|].
  destruct (approval_write_actions s) as [gs|]; [|done]. cbn [rbind] in Hl.
  destruct (bool_decide_reflect (gs = [])); cbn [negb] in Hl; [|by injection Hl as <-].
  destruct (_ && _ && _); [by injection Hl as <-|].
  destruct (last _); [by injection Hl as <-|].
  destruct (match last_assistant _ with Some _ => _ | None => _ end) as [b|]; [|done].
  cbn [rbind] in Hl. destruct b; [by res_inv Hl|].
  destruct (open_call_actions s _) as [calls|]; [|done]. cbn [rbind] in Hl.
  destruct (bool_decide_reflect (calls = [])); cbn [negb] in Hl; [|by injection Hl as <-].
  by res_inv Hl.
Qed.
End Planning.

(** C21. A recovery plan repeats no side effect.  Every action planned for a replayed
    operation is justified by its facts: a tool is executed only if its intent is
    recorded, it was never dispatched and its call has no result yet, and dispatched again
    only if it declared itself safe under a recorded contract; a write is resumed only if
    it is approved or its approval is consumed, and reconciled if its outcome is
    uncertain; a model request is repeated only under its own recorded policy; the model
    is asked to continue only where a user's message or a tool's result waits for it and
    no call is open, and the operation is finished only where nothing waits, no call is
    open and the last answer did not fail; and a person is asked to decide only where the
    facts name nothing to do.  Open writes and approvals come first, then an open request,
    and only then tools and new requests; and an operation that is not finished always
    gets an action. *)
Theorem planned_actions_are_justified events s plan :
  replay_operation events = Ok s -> plan_recovery s = Ok plan ->
  rp_operation plan = s /\
  Forall (fun a => justified s a /\ in_order s a) (rp_actions plan) /\
  (terminal_phase (op_phase s) = true <-> rp_actions plan = []).
Proof.
  intros Hs Hp. pose proof (replay_facts_wf _ _ Hs) as Hwf. unfold plan_recovery in Hp.
  destruct (plan_actions s) as [l|] eqn:Hl; [|done]. cbn in Hp. injection Hp as <-. cbn.
  split; [done|]. split.
  - apply Forall_forall. intros a Ha. split; [by eapply plan_actions_justified|].
    by eapply plan_in_order.
  - apply plan_actions_nonempty in Hl. by destruct (terminal_phase _).
Qed.
