(* ===== verification/RecoveryService.v ===== *)
(** * Carrying out a recovery  (src/.../session/resume.py, [DurableSessionRecovery])

    One worker at a time, the owner of a fenced claim, plans and carries out what is
    left of an operation: every step is committed through the reducer and a
    compare-and-swap under the claim, and what the product has to do is a callback.
    The callbacks are computations like any other: they may use the store, raise or be
    cancelled. *)

From S2P Require Import Prelude PyDict Text PyVal ModelPolicy.
From S2P Require Import OperationTypes OperationReducer OperationStore Service Recovery.
From stdpp Require Import pretty.
From Stdlib Require Import String.

#[local] Open Scope string_scope.
#[local] Open Scope bool_scope.
#[local] Open Scope Z_scope.

(** The length of the claim's lease, and what the store offers *)
Record DurableSessionRecovery := mkRecovery {
  dr_claim_lease : Z;
  dr_cross_process_claims : bool;
  dr_fenced_claims : bool
}.

Record RecoveryCallbacks := mkCallbacks {
  rc_request_model : list pydict -> ModelRequestPolicy -> svc pydict;
  rc_execute_tool : RecoveryAction -> svc pyval;
  rc_reconcile_tool : RecoveryAction -> svc pyval;
  rc_consume_approval : option (RecoveryAction -> svc unit);
  rc_resume_write : option (RecoveryAction -> svc unit);
  rc_reconcile_write : option (RecoveryAction -> svc unit);
  rc_request_model_with_context :
    option (list pydict -> ModelRequestPolicy -> dict string -> svc pydict)
}.

Record RecoveryExecutionResult := mkRecoveryResult {
  rr_operation : OperationState;
  rr_status : string;
  rr_remaining_actions : list RecoveryAction
}.

Definition operation_phase_name (p : OperationPhase) : string :=
  match p with
  | OpRunning => "running" | OpWaitingApproval => "waiting_approval"
  | OpReadyToResume => "ready_to_resume" | OpExecutingWrite => "executing_write"
  | OpOutcomeUnknown => "outcome_unknown" | OpCompleted => "completed"
  | OpFailed => "failed" | OpCancelled => "cancelled"
  end.

Definition MAX_RECOVERY_CONFLICTS : nat := 20.

(** ** Tool results *)

(** [_validate_recovery_tool_result] *)
Definition validate_recovery_tool_result (a : RecoveryAction) (message : pyval) : res pydict :=
  match message with
  | VDict m =>
      if is_str (jget m "role") "toolResult"
         && py_eq (jget m "toolCallId") (opt_value VStr (ra_tool_call_id a))
         && py_eq (jget m "toolName") (opt_value VStr (ra_tool_name a))
         && match jget m "content" with VList _ => true | _ => false end
         && is_dict (jget_or m "details" (VDict []))
         && match jget m "isError" with VBool _ => true | _ => false end
      then Ok m else Err RuntimeError
  | _ => Err RuntimeError
  end.

Definition recovered_field : string * pyval := ("recovery", VBool true).

Definition policy_selected (p : ModelRequestPolicy) : EventSpec :=
  ("model_policy_selected", [("policy", VDict (policy_to_dict p)); recovered_field]).

(** [_continuation_policy_specs] *)
Definition continuation_policy_specs (s : OperationState) : list EventSpec :=
  match op_active_model_policy s with
  | Some p => match mp_continuation_policy p with
              | Some next => [policy_selected next]
              | None => []
              end
  | None => []
  end.

Definition message_appended (m : pydict) : EventSpec :=
  ("message_appended", [("message", VDict m); recovered_field]).

Definition tool_id_field (a : RecoveryAction) : string * pyval :=
  ("toolCallId", opt_value VStr (ra_tool_call_id a)).

Definition tool_intent (a : RecoveryAction) : EventSpec :=
  ("tool_intent_recorded",
   [tool_id_field a; ("toolName", opt_value VStr (ra_tool_name a));
    ("arguments", VDict (ra_arguments a)); ("replayPolicy", VStr "never"); recovered_field]).

(** ** The claim *)
Section Claimed.
Context (service : DurableSessionRecovery) (lease : ClaimLease).
(** Whether the heartbeat has found the claim lost before the n-th access, and the
    fresh identifier drawn there *)
Context (heard : nat -> bool) (uuid : nat -> string).

Definition token_field : string * pyval := ("fencingToken", VInt (cl_generation lease)).

(** [_fenced_action] for this claim *)
Definition fenced (a : RecoveryAction) : RecoveryAction :=
  fenced_action a (cl_generation lease) (cl_resource_id lease).

Definition heartbeat_lost : svc bool := fun _ w => (Ok (heard (w_access w)), w).
Definition fresh_id : svc string := fun _ w => (Ok (uuid (w_access w)), w).

(** [_assert_claim] *)
Definition assert_claim : svc unit :=
  await! lost := heartbeat_lost in
  if lost then raise RuntimeError else
  catch (renew_async lease (dr_claim_lease service))
    (fun r => match r with
              | Ok held => if held then ret tt else raise RuntimeError
              | Err e => raise (if is_exception e then RuntimeError else e)
              end).

(** What a refused append means here: the claim is gone, or another try. *)
Definition on_recovery_conflict {A} (e : exn) (retry : svc A) : svc A :=
  match e with
  | OperationStoreFencedClaimLostError => raise RuntimeError
  | _ => if is_conflict e then retry else raise e
  end.

Definition append_claimed (s : OperationState) (specs : list EventSpec)
    (events : list OperationEvent) : svc (list OperationEvent) :=
  append_specs (Some (lease, dr_claim_lease service, None)) (op_session_id s) (op_operation_id s)
    specs (operation_last_sequence events) None.

(** [_commit_specs] *)
Fixpoint commit_attempts (attempts : nat) (s : OperationState) (specs : list EventSpec)
  : svc OperationState :=
  match attempts with
  | O => raise RuntimeError
  | S attempts' =>
      await! _ := assert_claim in
      await! events := load (Some (op_session_id s)) (Some (op_operation_id s)) in
      await! now := clock_ms in
      await! _ := lift (replay_operation_with_specs now events specs) in
      catch (append_claimed s specs events)
        (fun r => match r with
                  | Ok appended => lift (replay_operation (events ++ appended))
                  | Err e => on_recovery_conflict e (commit_attempts attempts' s specs)
                  end)
  end.

Definition commit_specs (s : OperationState) (specs : list EventSpec) : svc OperationState :=
  commit_attempts MAX_RECOVERY_CONFLICTS s specs.

Definition commit (s : OperationState) (specs : list EventSpec) : svc unit :=
  await! _ := commit_specs s specs in ret tt.

(** [plan] *)
Definition plan_operation (session_id operation_id : string) : svc OperationRecoveryPlan :=
  await! events := load (Some session_id) (Some operation_id) in
  await! s := lift (replay_operation events) in
  lift (plan_recovery s).

(** [_finish_operation] *)
Definition finish_operation (s : OperationState) (outcome : string) : svc unit :=
  commit s [("operation_finished", [("outcome", VStr outcome)])].

(** ** Model requests *)

Definition request_failed (request_id code : string) : EventSpec :=
  ("model_request_failed",
   [("requestId", VStr request_id); ("errorCode", VStr code); recovered_field]).

(** [_fail_model_request_if_started] *)
Definition fail_model_request_if_started (s : OperationState) (request_id code : string)
  : svc unit :=
  await! events := load (Some (op_session_id s)) (Some (op_operation_id s)) in
  await! current := lift (replay_operation events) in
  match dget request_id (op_model_requests current) with
  | None => raise RuntimeError
  | Some r => if bool_decide (mr_phase r = RequestStarted)
              then commit s [request_failed request_id code] else ret tt
  end.

(** The events that open the request: an interrupted one is closed first. *)
Definition request_specs (a : RecoveryAction) (p : ModelRequestPolicy) (request_id : string)
  : res (list EventSpec) :=
  let! interrupted :=
    if bool_decide (ra_kind a = RetryModelRequest) then
      match ra_request_id a with
      | None => Err RuntimeError
      | Some id => Ok [request_failed id "process_interrupted"]
      end
    else Ok [] in
  Ok (interrupted
      ++ [("model_request_started",
           [("requestId", VStr request_id); ("requestPolicy", VDict (policy_to_dict p));
            recovered_field; token_field])])%list.

Definition request_identity (s : OperationState) (request_id run_id : string) : dict string :=
  [("requestId", request_id); ("sessionId", op_session_id s);
   ("operationId", op_operation_id s); ("runId", run_id); ("source", "recovery");
   ("fencingToken", pretty (cl_generation lease)); ("fencingScope", cl_resource_id lease)].

Definition call_model (callbacks : RecoveryCallbacks) (s : OperationState)
    (messages : list pydict) (p : ModelRequestPolicy) (request_id run_id : string) : svc pydict :=
  match rc_request_model_with_context callbacks with
  | Some request => request messages p (request_identity s request_id run_id)
  | None => rc_request_model callbacks messages p
  end.

(** [_request_model] *)
Definition request_model (s : OperationState) (a : RecoveryAction)
    (callbacks : RecoveryCallbacks) (run_id : string) : svc unit :=
  match ra_request_policy a with
  | None => raise RuntimeError
  | Some p =>
      if dr_cross_process_claims service
         && negb (is_some (rc_request_model_with_context callbacks))
      then raise RuntimeError else
      await! request_id := fresh_id in
      await! specs := lift (request_specs a p request_id) in
      await! started := commit_specs s specs in
      await! message :=
        catch (call_model callbacks s (op_messages started) p request_id run_id)
          (fun out => match out with
                      | Ok m => ret m
                      | Err e =>
                          if negb (is_exception e) then raise e else
                          await! _ := fail_model_request_if_started s request_id
                                        "recovery_model_error" in
                          raise e
                      end) in
      match validate_recoverable_model_response message p with
      | Err ModelRequestPolicyError =>
          await! _ := fail_model_request_if_started s request_id
                        "invalid_recovery_model_response" in
          raise ModelRequestPolicyError
      | Err e => raise e
      | Ok _ =>
          commit s [("model_request_completed",
                     [("requestId", VStr request_id); ("message", VDict message); recovered_field])]
      end
  end.

(** ** Tools *)

(** [_store_tool_result] *)
Definition store_tool_result (s : OperationState) (a : RecoveryAction) (message : pyval)
    (event_type : string) : svc unit :=
  await! m := lift (validate_recovery_tool_result a message) in
  let result := [("content", jget_or m "content" (VList []));
                 ("details", jget_or m "details" (VDict []));
                 ("isError", VBool (truthy (jget m "isError")))] in
  commit s
    ((event_type, [tool_id_field a; ("result", VDict result); recovered_field]
                  ++ (if String.eqb event_type "tool_reconciled" then [token_field] else []))%list
     :: message_appended m :: continuation_policy_specs s).

Definition dispatch_specs (s : OperationState) (a : RecoveryAction) : list EventSpec :=
  ((if match ra_tool_call_id a with Some id => dmem id (op_tools s) | None => false end
    then [] else [tool_intent a])
   ++ [("tool_dispatch_started", [tool_id_field a; recovered_field; token_field])])%list.

(** [_execute_tool] *)
Definition execute_tool (s : OperationState) (a : RecoveryAction)
    (callbacks : RecoveryCallbacks) : svc unit :=
  await! _ := commit s (dispatch_specs s a) in
  await! message := rc_execute_tool callbacks (fenced a) in
  store_tool_result s a message "tool_completed".

(** [_reconcile_tool] *)
Definition reconcile_tool (s : OperationState) (a : RecoveryAction)
    (callbacks : RecoveryCallbacks) : svc unit :=
  await! _ := commit s [("tool_reconcile_started", [tool_id_field a; recovered_field; token_field])] in
  await! message := rc_reconcile_tool callbacks (fenced a) in
  store_tool_result s a message "tool_reconciled".

(** [_materialize_result] *)
Definition materialize_result (s : OperationState) (a : RecoveryAction) : svc unit :=
  let result := match ra_stored_result a with Some r => r | None => [] end in
  let message := [("role", VStr "toolResult"); tool_id_field a;
                  ("toolName", opt_value VStr (ra_tool_name a));
                  ("content", jget_or result "content" (VList []));
                  ("details", jget_or result "details" (VDict []));
                  ("isError", VBool (truthy (jget result "isError")))] in
  commit s (message_appended message :: continuation_policy_specs s).

(** ** Approvals that were not granted *)

(** The result message of the call that was not made *)
Definition denied_message (approval_id tool_call_id tool_name : string) : pydict :=
  [("role", VStr "toolResult"); ("toolCallId", VStr tool_call_id); ("toolName", VStr tool_name);
   ("content", VList [VDict [("type", VStr "text");
                             ("text", VStr "工具调用未执行：Approval 已拒绝或过期。")]]);
   ("details", VDict [("code", VStr "approval_not_granted"); ("approvalId", VStr approval_id);
                      ("synthetic", VBool true)]);
   ("isError", VBool true)].

(** What is still missing for the denial to be settled in [current] *)
Definition denial_specs (current : OperationState) (a : RecoveryAction)
    (approval_id tool_call_id tool_name : string) : res (list EventSpec) :=
  let message := denied_message approval_id tool_call_id tool_name in
  let invocation := dget tool_call_id (op_tools current) in
  let intent := if is_some invocation then [] else [tool_intent a] in
  let completed :=
    if match invocation with
       | Some t => negb (bool_decide (ti_phase t = TiCompleted))
       | None => true
       end
    then [("tool_completed",
           [("toolCallId", VStr tool_call_id);
            ("result", VDict [("content", jget message "content");
                              ("details", jget message "details"); ("isError", VBool true)]);
            recovered_field])]
    else [] in
  let has_result :=
    existsb (fun m => is_str (jget m "role") "toolResult"
                      && is_str (jget m "toolCallId") tool_call_id) (op_messages current) in
  match dget approval_id (op_approvals current) with
  | None => Err RuntimeError
  | Some approval =>
      let cancelled :=
        if one_of (ap_state approval) [ApRejected; ApExpired]
        then [("approval_resume_cancelled",
               [("approvalId", VStr approval_id); ("reason", VStr "rejected_or_expired");
                recovered_field])]
        else [] in
      let failed :=
        match ra_write_id a with
        | None => []
        | Some id =>
            match dget id (op_writes current) with
            | Some w =>
                if bool_decide (wr_state w = WrWaitingApproval)
                then [("write_failed",
                       [("writeId", VStr id); ("reason", VStr "approval_not_granted");
                        ("result", VDict [("status", VStr "rejected");
                                          ("approvalId", VStr approval_id)]); recovered_field])]
                else []
            | None => []
            end
        end in
      Ok (intent ++ completed ++ (if has_result then [] else [message_appended message])
          ++ cancelled ++ failed ++ continuation_policy_specs current)%list
  end.

Fixpoint finalize_attempts (attempts : nat) (s : OperationState) (a : RecoveryAction)
    (approval_id tool_call_id tool_name : string) : svc unit :=
  match attempts with
  | O => raise RuntimeError
  | S attempts' =>
      await! _ := assert_claim in
      await! events := load (Some (op_session_id s)) (Some (op_operation_id s)) in
      await! current := lift (replay_operation events) in
      await! specs := lift (denial_specs current a approval_id tool_call_id tool_name) in
      if bool_decide (specs = []) then ret tt else
      await! now := clock_ms in
      await! _ := lift (replay_operation_with_specs now events specs) in
      catch (append_claimed s specs events)
        (fun r => match r with
                  | Ok _ => ret tt
                  | Err e => on_recovery_conflict e
                               (finalize_attempts attempts' s a approval_id tool_call_id tool_name)
                  end)
  end.

(** [_finalize_rejected_approval] *)
Definition finalize_rejected_approval (s : OperationState) (a : RecoveryAction) : svc unit :=
  match ra_approval_id a, ra_tool_call_id a, ra_tool_name a with
  | Some approval_id, Some tool_call_id, Some tool_name =>
      finalize_attempts MAX_RECOVERY_CONFLICTS s a approval_id tool_call_id tool_name
  | _, _, _ => raise RuntimeError
  end.

(** ** The cycles *)

Definition has_kind (kind : RecoveryKind) (plan : OperationRecoveryPlan) : bool :=
  existsb (fun a => bool_decide (ra_kind a = kind)) (rp_actions plan).

Definition plan_result (plan : OperationRecoveryPlan) (status : string)
  : RecoveryExecutionResult :=
  mkRecoveryResult (rp_operation plan) status (rp_actions plan).

(** The plans that are handed back without acting *)
Definition plan_status (callbacks : RecoveryCallbacks) (plan : OperationRecoveryPlan)
  : option string :=
  if bool_decide (rp_actions plan = [])
  then Some (operation_phase_name (op_phase (rp_operation plan)))
  else if has_kind ManualIntervention plan then Some "manual_intervention"
  else if has_kind WaitForApproval plan then Some "waiting_approval"
  else if has_kind ConsumeApproval plan && negb (is_some (rc_consume_approval callbacks))
  then Some "approval_consumer_required"
  else if has_kind ResumeApprovedWrite plan && negb (is_some (rc_resume_write callbacks))
  then Some "approved_write_runtime_required"
  else if has_kind ReconcileWrite plan && negb (is_some (rc_reconcile_write callbacks))
  then Some "write_reconciliation_required"
  else None.

(** A callback outside the log, between two looks at the claim *)
Definition guarded_callback (callback : option (RecoveryAction -> svc unit)) (a : RecoveryAction)
    (missing : RecoveryExecutionResult) : svc (option RecoveryExecutionResult) :=
  match callback with
  | None => ret (Some missing)
  | Some f =>
      await! _ := assert_claim in
      await! _ := f (fenced a) in
      await! _ := assert_claim in
      ret None
  end.

Definition going_on (m : svc unit) : svc (option RecoveryExecutionResult) :=
  await! _ := m in ret None.

(** One action; a result ends the recovery. *)
Definition run_action (plan : OperationRecoveryPlan) (callbacks : RecoveryCallbacks)
    (run_id : string) (a : RecoveryAction) : svc (option RecoveryExecutionResult) :=
  let s := rp_operation plan in
  match ra_kind a with
  | RetryModelRequest | ContinueModel => going_on (request_model s a callbacks run_id)
  | ExecuteTool | ReplaySafeTool => going_on (execute_tool s a callbacks)
  | ReconcileTool => going_on (reconcile_tool s a callbacks)
  | MaterializeToolResult => going_on (materialize_result s a)
  | ConsumeApproval =>
      guarded_callback (rc_consume_approval callbacks) a
        (plan_result plan "approval_consumer_required")
  | ResumeApprovedWrite =>
      guarded_callback (rc_resume_write callbacks) a
        (plan_result plan "approved_write_runtime_required")
  | ReconcileWrite =>
      guarded_callback (rc_reconcile_write callbacks) a
        (plan_result plan "write_reconciliation_required")
  | FinalizeRejectedApproval => going_on (finalize_rejected_approval s a)
  | FinishOperation => going_on (finish_operation s "completed")
  | ManualIntervention | WaitForApproval =>
      ret (Some (mkRecoveryResult s "manual_intervention" [a]))
  end.

Fixpoint run_actions (plan : OperationRecoveryPlan) (callbacks : RecoveryCallbacks)
    (run_id : string) (actions : list RecoveryAction) : svc (option RecoveryExecutionResult) :=
  match actions with
  | [] => ret None
  | a :: actions' =>
      await! r := run_action plan callbacks run_id a in
      match r with
      | Some result => ret (Some result)
      | None => run_actions plan callbacks run_id actions'
      end
  end.

(** [_resume_claimed] *)
Fixpoint resume_claimed (cycles : nat) (session_id operation_id : string)
    (callbacks : RecoveryCallbacks) (run_id : string) : svc RecoveryExecutionResult :=
  await! plan := plan_operation session_id operation_id in
  match cycles with
  | O => ret (plan_result plan "max_recovery_cycles")
  | S cycles' =>
      match plan_status callbacks plan with
      | Some status => ret (plan_result plan status)
      | None =>
          await! r := run_actions plan callbacks run_id (rp_actions plan) in
          match r with
          | Some result => ret result
          | None => resume_claimed cycles' session_id operation_id callbacks run_id
          end
      end
  end.
End Claimed.

(** [resume]; [owner_token] and [run_id] are the fresh identifiers of the claim and of
    the recovery *)
Definition resume (service : DurableSessionRecovery) (heard : nat -> bool) (uuid : nat -> string)
    (session_id operation_id owner_token run_id : string) (callbacks : RecoveryCallbacks)
    (max_cycles : nat) : svc RecoveryExecutionResult :=
  await! resource_id :=
    lift (fenced_claim_resource_id "operation_recovery" session_id (Some operation_id) None) in
  if negb (dr_fenced_claims service) then raise RuntimeError else
  await! lease := acquire_async "operation_recovery" resource_id owner_token
                    (dr_claim_lease service) in
  match lease with
  | None =>
      await! plan := plan_operation session_id operation_id in
      ret (plan_result plan "recovery_claimed")
  | Some lease =>
      finally (resume_claimed service lease heard uuid max_cycles session_id operation_id
                 callbacks run_id)
        (release_async lease)
  end.
