(* ===== verification/RecoveryLog.v ===== *)
(** * The log of an operation that is being recovered

    Every dispatch of a tool counts as an attempt of its invocation; what an invocation
    is does not change as its log grows; and committing adds to the log exactly the
    events that the reducer accepted, or nothing.  What a callback may rely on
    ([polite_callbacks]) is stated here: the claim it runs under, and what was committed
    under it just before. *)

From S2P Require Import Prelude PyDict Text PyVal OperationTypes OperationReducer OperationLifecycle.
From S2P Require Import OperationSafety OperationStore OperationLog Service Recovery RecoveryService.
From S2P Require Import ModelPolicy RecoveryPlanning.
From stdpp Require Import pretty.
From Stdlib Require Import String.

#[local] Open Scope string_scope.
#[local] Open Scope bool_scope.
#[local] Open Scope Z_scope.

(** ** Counting dispatches *)

Definition dispatch_of (id : string) : OperationEvent -> bool :=
  is_event "tool_dispatch_started" "toolCallId" id.

Definition tool_attempts_of (id : string) (s : OperationState) : Z :=
  match dget id (op_tools s) with Some t => ti_attempts t | None => 0 end.

Definition fresh_intents (s : OperationState) : Prop :=
  forall id t, dget id (op_tools s) = Some t -> ti_phase t = TiIntentRecorded -> ti_attempts t = 0.

Lemma fresh_intents_step : step_ok fresh_intents.
Proof.
  intros s e s' Hs _ Hstep.
  destruct Hstep as [Et _ _ _ _ _|id t' _ Hedge Et _ _ _ _|? ? _ _ _ Et _ _ _
    |? ? _ _ _ Et _ _ _|_ _ Et _ _ _ _]; unfold fresh_intents; rewrite Et; try exact Hs.
  apply (dset_entries (fun _ t => ti_phase t = TiIntentRecorded -> ti_attempts t = 0)); [exact Hs|].
  inversion Hedge; subst; cbn; try done.
  - congruence.
  - by destruct (String.eqb _ _).
Qed.

Lemma fresh_intents_replay events s : replay_operation events = Ok s -> fresh_intents s.
Proof.
  apply (replay_invariant fresh_intents); [|exact fresh_intents_step].
  intros e s0 (Ht & _)%start_facts id t H. by rewrite Ht in H.
Qed.

Lemma attempts_step s e s' id :
  reduce_operation_event (Some s) e = Ok s' ->
  tool_attempts_of id s' = tool_attempts_of id s + (if dispatch_of id e then 1 else 0).
Proof.
  intros Hr. unfold dispatch_of. destruct (String.eqb_spec (oe_type e) "tool_dispatch_started") as [Hty|Hty].
  - apply reduce_apply in Hr. rewrite apply_dispatch in Hr by done. unfold on_tool_dispatch in Hr.
    unfold is_event. rewrite Hty, String.eqb_refl. cbn [andb].
    destruct (event_text (oe_data e) "toolCallId") as [id'|] eqn:Hid'; [|done]. cbn [rbind] in Hr.
    assert (Hjid : jget (oe_data e) "toolCallId" = VStr id').
    { unfold event_text in Hid'. destruct (jget _ _); try done.
      by destruct (nonempty _); simplify_eq. }
    rewrite Hjid. cbn [is_str]. unfold lookup_tool in Hr.
    destruct (dget id' (op_tools s)) as [t|] eqn:Ht; [|done]. cbn [rbind] in Hr.
    res_inv Hr. unfold tool_attempts_of. cbn. rewrite dget_dset.
    destruct (String.eqb_spec id' id) as [->|Hne]; [by rewrite Ht|]. lia.
  - assert (Hno : is_event "tool_dispatch_started" "toolCallId" id e = false).
    { unfold is_event. by apply String.eqb_neq in Hty as ->. }
    rewrite Hno. apply reduce_event_step in Hr as [_ Hstep].
    destruct Hstep as [Et _ _ _ _ _|id' t' _ Hedge Et _ _ _ _|? ? _ _ _ Et _ _ _
      |? ? _ _ _ Et _ _ _|_ _ Et _ _ _ _]; unfold tool_attempts_of; rewrite Et; try lia.
    rewrite dget_dset. destruct (String.eqb_spec id' id) as [->|]; [|lia].
    inversion Hedge; subst; cbn; try congruence; lia.
Qed.

Lemma attempts_run events s s' id :
  foldM reduce_step (Some s) events = Ok (Some s') ->
  tool_attempts_of id s' = tool_attempts_of id s + Z.of_nat (count (dispatch_of id) events).
Proof.
  revert s. induction events as [|e events IH]; intros s H; [cbn in H; simplify_eq; unfold count; cbn; lia|].
  cbn in H. unfold reduce_step at 1 in H.
  destruct (reduce_operation_event (Some s) e) as [s1|] eqn:Hr; [|done]. cbn in H.
  rewrite (IH _ H), (attempts_step _ _ _ id Hr). unfold count. cbn.
  destruct (dispatch_of id e); cbn; lia.
Qed.

(** The attempts of a tool are its dispatches in the log. *)
Lemma attempts_count events s id :
  foldM reduce_step None events = Ok (Some s) ->
  tool_attempts_of id s = Z.of_nat (count (dispatch_of id) events).
Proof.
  destruct events as [|e events]; [done|]. cbn. unfold reduce_step at 1. cbn. intros H.
  destruct (start_operation e) as [s0|] eqn:Hs; [|done]. cbn in H.
  rewrite (attempts_run _ _ _ id H). pose proof (start_facts _ _ Hs) as (Ht & _).
  unfold tool_attempts_of at 1. rewrite Ht. unfold count. cbn.
  assert (Hno : dispatch_of id e = false) by by apply (start_is_no_event _ _ _ _ s0).
  by rewrite Hno.
Qed.

(** ** How a log grows *)

(** The parts of an invocation that no event changes *)
Record same_tool (t t' : ToolInvocationState) : Prop := {
  st_id : ti_tool_call_id t' = ti_tool_call_id t;
  st_name : ti_tool_name t' = ti_tool_name t;
  st_arguments : ti_arguments t' = ti_arguments t;
  st_replay : ti_replay_policy t' = ti_replay_policy t;
  st_digest : ti_security_contract_digest t' = ti_security_contract_digest t
}.

#[export] Instance same_tool_preorder : PreOrder same_tool.
Proof.
  split; [by split|]. intros t1 t2 t3 [? ? ? ? ?] [? ? ? ? ?]. split; congruence.
Qed.

Definition knows_tool (id : string) (t : ToolInvocationState) (s : OperationState) : Prop :=
  exists t', dget id (op_tools s) = Some t' /\ same_tool t t'.

Lemma knows_tool_step id t : step_ok (knows_tool id t).
Proof.
  intros s e s' (t0 & Ht0 & Hsame) _ Hstep.
  destruct Hstep as [Et _ _ _ _ _|id' t' _ Hedge Et _ _ _ _|? ? _ _ _ Et _ _ _
    |? ? _ _ _ Et _ _ _|_ _ Et _ _ _ _]; unfold knows_tool; rewrite Et; try by exists t0.
  rewrite dget_dset. destruct (String.eqb_spec id' id) as [->|]; [|by exists t0].
  rewrite Ht0 in Hedge. exists t'. split; [done|]. etrans; [exact Hsame|].
  inversion Hedge; subst; by split.
Qed.

(** A log that grew replays on from the state of its beginning. *)
Lemma replay_grown (events more : list OperationEvent) s s' :
  foldM reduce_step None events = Ok (Some s) ->
  foldM reduce_step None (events ++ more) = Ok (Some s') ->
  foldM reduce_step (Some s) more = Ok (Some s').
Proof. rewrite foldM_app. by intros ->. Qed.

Definition completed_tool (id : string) (s : OperationState) : Prop :=
  exists t, dget id (op_tools s) = Some t /\ ti_phase t = TiCompleted.

Lemma completed_tool_step id : step_ok (completed_tool id).
Proof.
  intros s e s' (t & Ht & Hp) Hc Hstep. exists t. split; [|done].
  by eapply (tool_settled_step id t Hp s e s').
Qed.

Section Operation.
Context (sid oid : string).

Definition op_log (st : Store) : list OperationEvent := operation_log st sid oid.

Definition dispatches (st : Store) (id : string) : nat := count (dispatch_of id) (op_log st).

Lemma log_of_events st st' : st_events st' = st_events st -> op_log st' = op_log st.
Proof. unfold op_log. rewrite !operation_log_filter. by intros ->. Qed.

Lemma log_grows base st :
  started base st -> exists more, op_log st = (List.filter (in_operation sid oid) base ++ more)%list.
Proof.
  intros [_ [more Hm]]. unfold op_log. rewrite operation_log_filter, Hm, List.filter_app. by eexists.
Qed.

Lemma log_replays st s :
  good st -> replay_operation (op_log st) = Ok s -> foldM reduce_step None (op_log st) = Ok (Some s).
Proof. intros [Hr _]. by apply replay_log. Qed.

(** Once a tool's invocation is in a log of a good store it stays there. *)
Lemma good_keeps st0 st s0 (P : OperationState -> Prop) :
  good st0 -> good st -> st_events st0 `prefix_of` st_events st -> step_ok P ->
  replay_operation (op_log st0) = Ok s0 -> P s0 ->
  exists s, replay_operation (op_log st) = Ok s /\ P s.
Proof.
  intros Hg0 Hg Hpre HP Hs0 Hp. apply log_replays in Hs0 as Hf0; [|done].
  destruct (log_grows (st_events st0) st (conj Hg Hpre)) as [more Hm].
  change (List.filter (in_operation sid oid) (st_events st0)) with (op_log st0) in Hm.
  assert (Hne : op_log st <> []).
  { rewrite Hm. intros [Hnil _]%app_eq_nil. by rewrite Hnil in Hs0. }
  destruct (proj2 Hg sid oid Hne) as [s Hs]. exists s. split; [exact Hs|].
  apply log_replays in Hs; [|done]. rewrite Hm in Hs. eapply replay_grown in Hs; [|exact Hf0].
  by eapply run_invariant.
Qed.

(** [id] is completed in the operation's log. *)
Definition completed_in (id : string) (st : Store) : Prop :=
  exists s, replay_operation (op_log st) = Ok s /\ completed_tool id s.

(** [id] is recorded as safe to repeat. *)
Definition safe_in (id : string) (st : Store) : Prop :=
  exists s t, replay_operation (op_log st) = Ok s /\ dget id (op_tools s) = Some t /\
    ti_replay_policy t = "safe".

Lemma completed_in_grows id st st' :
  good st -> good st' -> st_events st `prefix_of` st_events st' -> completed_in id st ->
  completed_in id st'.
Proof.
  intros Hg Hg' Hpre (s & Hs & Hc).
  exact (good_keeps st st' s (completed_tool id) Hg Hg' Hpre (completed_tool_step id) Hs Hc).
Qed.

Lemma safe_in_grows id st st' :
  good st -> good st' -> st_events st `prefix_of` st_events st' -> safe_in id st -> safe_in id st'.
Proof.
  intros Hg Hg' Hpre (s & t & Hs & Ht & Hsafe).
  destruct (good_keeps st st' s (knows_tool id t) Hg Hg' Hpre (knows_tool_step id t) Hs)
    as (s' & Hs' & t' & Ht' & Hsame); [by exists t|].
  exists s', t'. split_and!; try done. by rewrite (st_replay _ _ Hsame).
Qed.

(** Events that dispatch nothing *)
Definition dispatches_nothing (specs : list EventSpec) : Prop :=
  Forall (fun spec => fst spec <> "tool_dispatch_started") specs.

Lemma count_app {A : Type} (p : A -> bool) l l' :
  count p (l ++ l') = (count p l + count p l')%nat.
Proof. unfold count. by rewrite List.filter_app, length_app. Qed.

Lemma numbered_operation now_ms k specs :
  List.filter (in_operation sid oid) (numbered sid oid now_ms k specs)
  = numbered sid oid now_ms k specs.
Proof.
  apply filter_all. intros x Hx. unfold numbered in Hx. apply elem_of_lookup_imap in Hx as (i & y & -> & _).
  unfold in_operation. cbn. by rewrite !String.eqb_refl.
Qed.

Lemma numbered_elsewhere sid' oid' now_ms k specs :
  (sid', oid') <> (sid, oid) ->
  List.filter (in_operation sid' oid') (numbered sid oid now_ms k specs) = [].
Proof.
  intros Hne. apply filter_nil_elem. intros x Hx. unfold numbered in Hx.
  apply elem_of_lookup_imap in Hx as (i & y & -> & _). unfold in_operation. cbn.
  apply andb_false_iff. destruct (String.eqb_spec sid sid') as [->|]; [right|by left].
  apply String.eqb_neq. congruence.
Qed.

Lemma extended_log base F P specs st :
  extended base F P sid oid specs st ->
  exists st1 now_ms k, P st1 /\ started base st1 /\ st_events st1 `prefix_of` st_events st /\
    op_log st = (op_log st1 ++ numbered sid oid now_ms k specs)%list /\
    forall sid' oid', (sid', oid') <> (sid, oid) ->
      operation_log st sid' oid' = operation_log st1 sid' oid'.
Proof.
  intros (st1 & now_ms & Hp & [Hst _] & _ & Hev). exists st1, now_ms, (List.length (st_events st1)).
  split; [done|]. split; [done|]. split; [rewrite Hev; by eexists|]. unfold op_log. split.
  - by rewrite !operation_log_filter, Hev, List.filter_app, numbered_operation.
  - intros sid' oid' Hne. rewrite !operation_log_filter, Hev, List.filter_app.
    by rewrite numbered_elsewhere, app_nil_r.
Qed.

Lemma numbered_quiet now_ms k specs id :
  dispatches_nothing specs -> count (dispatch_of id) (numbered sid oid now_ms k specs) = 0%nat.
Proof.
  intros H. unfold count. rewrite (proj2 (filter_nil_elem _ _)); [done|].
  intros x Hx. unfold numbered in Hx. apply elem_of_lookup_imap in Hx as (i & y & -> & Hy).
  unfold dispatch_of, is_event. cbn. apply list_elem_of_lookup_2 in Hy.
  unfold dispatches_nothing in H. rewrite Forall_forall in H. by apply H, String.eqb_neq in Hy as ->.
Qed.

(** No tool of the operation was dispatched twice, but tools that are safe to repeat. *)
Definition dispatched_once (st : Store) : Prop :=
  forall id, (dispatches st id <= 1)%nat \/ safe_in id st.

(** None of its tools was dispatched in between. *)
Definition same_dispatches (st st' : Store) : Prop :=
  forall id, dispatches st' id = dispatches st id.

Lemma once_grows st st' :
  good st -> good st' -> st_events st `prefix_of` st_events st' -> same_dispatches st st' ->
  dispatched_once st -> dispatched_once st'.
Proof.
  intros Hg Hg' Hpre Hd Ho id. rewrite Hd. destruct (Ho id) as [|Hs]; [by left|]. right.
  by apply (safe_in_grows id st st').
Qed.

Lemma once_events_only : events_only dispatched_once.
Proof.
  intros st st' He Ho id. unfold dispatches, safe_in. rewrite (log_of_events st st' He). apply Ho.
Qed.

(** A store in which nothing was dispatched yet *)
Lemma never_dispatched st :
  forallb (fun e => negb (String.eqb (oe_type e) "tool_dispatch_started")) (st_events st) = true ->
  dispatched_once st.
Proof.
  intros H id. left. unfold dispatches, op_log. rewrite operation_log_filter. unfold count.
  rewrite (proj2 (filter_nil_elem _ _)); [cbn; lia|]. intros e He.
  apply list_elem_of_In, filter_In in He as [He _]. rewrite forallb_forall in H.
  apply H, negb_true_iff in He. unfold dispatch_of, is_event. by rewrite He.
Qed.
End Operation.

(** Appending what dispatches nothing, or what is about another operation *)
Lemma quiet_append sid oid sid' oid' now_ms k specs st st' :
  st_events st' = (st_events st ++ numbered sid' oid' now_ms k specs)%list ->
  (sid, oid) <> (sid', oid') \/ dispatches_nothing specs -> same_dispatches sid oid st st'.
Proof.
  intros Hev Hq id. unfold dispatches, op_log.
  rewrite !operation_log_filter, Hev, List.filter_app, count_app.
  destruct (decide ((sid, oid) = (sid', oid'))) as [[= <- <-]|Hne].
  - destruct Hq as [|Hq]; [done|]. rewrite numbered_operation, numbered_quiet by done. lia.
  - rewrite numbered_elsewhere by done. unfold count. cbn. lia.
Qed.

(** ** Committing under the claim *)

Section Committing.
Context (env : Env).
Hypothesis Henv : cooperative env.
Context (base : list OperationEvent).
Context (service : DurableSessionRecovery) (lease : ClaimLease).
Context (heard : nat -> bool) (uuid : nat -> string).
Context (sid oid : string).

#[local] Abbreviation started := (Service.started base).
#[local] Abbreviation stable := (Service.stable env base).

Definition is_for (s : OperationState) : Prop := op_session_id s = sid /\ op_operation_id s = oid.

Lemma triple_assert_claim P :
  stable P -> events_only P ->
  triple env (fun st => started st /\ P st) (assert_claim service lease heard)
    (fun r st => (started st /\ P st) /\ (is_ok r = true -> claim_held env lease st)).
Proof.
  intros HP He. eapply triple_bind with (R := fun _ st => started st /\ P st); [by intros w Hw| |done].
  intros []; [by apply triple_raise|].
  eapply triple_catch; [by apply (triple_renewed env Henv base P)|].
  intros [[]|e]; [|by apply triple_raise; intros st [? _]..].
  apply triple_ret. intros st [Hst Hheld]. split; [done|]. intros _. by apply Hheld.
Qed.

(** The same for a caller that goes on whatever the claim *)
Lemma triple_claimed P :
  stable P -> events_only P ->
  triple env (fun st => started st /\ P st) (assert_claim service lease heard)
    (fun _ st => started st /\ P st).
Proof.
  intros HP He. eapply triple_weaken; [by apply triple_assert_claim|done|]. by intros r st [? _].
Qed.

(** A commit adds exactly its events to a store that still has [P], or nothing. *)
Definition committed (P : Store -> Prop) (specs : list EventSpec) {A} (r : res A) (st : Store)
  : Prop :=
  started st /\ (is_ok r = false /\ P st \/ extended base (claim_held env lease) P sid oid specs st).

Lemma triple_commit_specs P s specs :
  stable P -> events_only P -> is_for s ->
  triple env (fun st => started st /\ P st) (commit_specs service lease heard s specs)
    (committed P specs).
Proof.
  intros HP He [Hs Ho]. unfold commit_specs. generalize MAX_RECOVERY_CONFLICTS as n.
  induction n as [|n IH].
  { apply triple_raise. intros st [? ?]. split; [done|by left]. }
  cbn [commit_attempts]. rewrite Hs, Ho.
  assert (Hkeep : forall (A : Type) e st, started st /\ P st -> committed P specs (@Err A e) st)
    by (intros A e st [? ?]; split; [done|by left]).
  eapply triple_bind; [by apply (triple_claimed P)| |intros e st H; by apply Hkeep].
  intros []. eapply triple_bind with (R := fun r st => started st /\ P st /\ forall events,
    r = Ok events -> events = operation_log st sid oid).
  { apply triple_access. intros m st [Hst Hp]. pose proof (started_others env Henv base m st Hst).
    pose proof (HP m st Hst Hp). split_and!; try done. by intros events [= <-]. }
  2:{ intros e st (? & ? & _). by apply Hkeep. }
  intros events. apply triple_clock. intros now.
  eapply (triple_weaken _ (fun st => events = operation_log st sid oid /\ started st /\ P st) _ _ _);
    [|by intros st (Hst & Hp & Hev); auto|by intros r st H; exact H].
  apply triple_lift; [|intros e st (_ & ? & ?); by apply Hkeep]. intros s' Hv.
  eapply triple_catch.
  { unfold append_claimed. rewrite Hs, Ho. by eapply (triple_append_specs env Henv base P). }
  intros [new|e].
  - apply triple_pure. intros st [Hst [[? _]|(_ & _ & Hx)]]; [done|]. split; [done|by right].
  - destruct (decide (e = CancelledError)) as [->|Hne].
    + apply triple_raise. intros st [Hst [[_ Hp]|(_ & _ & Hx)]]; split; auto.
    + eapply (triple_weaken _ (fun st => started st /\ P st) _ _ (committed P specs));
        [|intros st [Hst [[_ Hp]|[[|[=]] _]]]; done|done].
      unfold on_recovery_conflict.
      destruct e; cbn [is_conflict]; first [exact IH | apply triple_raise; apply Hkeep].
Qed.

Lemma triple_commit P s specs :
  stable P -> events_only P -> is_for s ->
  triple env (fun st => started st /\ P st) (commit service lease heard s specs)
    (committed P specs).
Proof.
  intros HP He Hs. eapply triple_bind; [by apply (triple_commit_specs P)| |].
  - intros a. apply triple_ret. intros st [Hst [[? _]|H]]; [done|]. split; [done|by right].
  - intros e st [Hst H]. by split.
Qed.
End Committing.

(** * What a recovery hands to its callbacks, and when it may

    A callback is permitted only where the log justifies it and while the recovery's claim
    is held: right after its tool's dispatch, its reconciliation or its model request was
    recorded under the claim, or, right after the claim was renewed, for an action that
    the log justified when the recovery read it.  Callbacks that behave where they are
    permitted are polite. *)

(** ** What the callbacks are given *)

Section Permissions.
Context (env : Env) (sid oid : string).
(** The owner of the recovery's claim, and the events that were there when it began *)
Context (owner : string) (start : list OperationEvent).

(** The lease is on this operation, and the recovery's own. *)
Record claim_of (lease : ClaimLease) : Prop := {
  co_type : cl_claim_type lease = "operation_recovery";
  co_resource : fenced_claim_resource_id "operation_recovery" sid (Some oid) None
                = Ok (cl_resource_id lease);
  co_owner : cl_owner_token lease = owner
}.

(** It is held now: by its owner, in its generation. *)
Definition holds (lease : ClaimLease) (st : Store) : Prop := claim_of lease /\ claim_held env lease st.

(** The action's fence is that of the recovery's claim, which is held. *)
Definition under_claim (a : RecoveryAction) (st : Store) : Prop :=
  exists lease, holds lease st /\ ra_fencing_token a = Some (cl_generation lease) /\
    ra_fencing_scope a = Some (cl_resource_id lease).

(** The last event of the operation *)
Definition last_event_is (ty : string) (st : Store) (about : pydict -> Prop) : Prop :=
  exists e, last (op_log sid oid st) = Some e /\ oe_type e = ty /\ about (oe_data e).

(** The recorded invocation of the action's tool *)
Definition invokes (a : RecoveryAction) (st : Store) (t : ToolInvocationState) : Prop :=
  exists s, replay_operation (op_log sid oid st) = Ok s /\
    dget (ti_tool_call_id t) (op_tools s) = Some t /\
    ra_tool_call_id a = Some (ti_tool_call_id t) /\ ra_tool_name a = Some (ti_tool_name t) /\
    ra_arguments a = ti_arguments t.

(** The last event is about the action's tool and carries its fence. *)
Definition fenced_event (ty : string) (a : RecoveryAction) (st : Store) : Prop :=
  last_event_is ty st (fun data =>
    jget data "toolCallId" = opt_value VStr (ra_tool_call_id a) /\
    jget data "fencingToken" = opt_value VInt (ra_fencing_token a)).

(** A tool may be executed: its dispatch was just recorded under this claim, it is the
    recorded invocation, and it is its first dispatch or the tool is safe to repeat. *)
Definition may_execute (a : RecoveryAction) (st : Store) : Prop :=
  under_claim a st /\ fenced_event "tool_dispatch_started" a st /\
  exists t, invokes a st t /\ ti_phase t = TiDispatchStarted /\
    (ti_attempts t = 1 \/ ti_replay_policy t = "safe").

(** A tool may be asked about: its outcome is unknown, and that it is being reconciled
    was just recorded under this claim. *)
Definition may_reconcile (a : RecoveryAction) (st : Store) : Prop :=
  under_claim a st /\ fenced_event "tool_reconcile_started" a st /\
  exists t, invokes a st t /\ ti_phase t = TiOutcomeUnknown.

(** The model may be asked: the request was just recorded with its policy and under the
    claim that is held; and whoever is told what is asked for is told of this request and
    this claim. *)
Definition may_request (p : ModelRequestPolicy) (identity : option (dict string)) (st : Store) : Prop :=
  exists lease, holds lease st /\
    last_event_is "model_request_started" st (fun data =>
      jget data "requestPolicy" = VDict (policy_to_dict p) /\
      jget data "fencingToken" = VInt (cl_generation lease) /\
      match identity with
      | Some i =>
          jget data "requestId" = opt_value VStr (dget "requestId" i) /\
          dget "sessionId" i = Some sid /\ dget "operationId" i = Some oid /\
          dget "fencingToken" i = Some (pretty (cl_generation lease)) /\
          dget "fencingScope" i = Some (cl_resource_id lease)
      | None => True
      end).

(** An action of this kind was justified by the operation's log as it was read during the
    recovery, and it carries the fence of the claim, which is held. *)
Definition was_planned (kind : RecoveryKind) (a : RecoveryAction) (st : Store) : Prop :=
  exists lease planned read s, holds lease st /\ ra_kind planned = kind /\
    a = fenced_action planned (cl_generation lease) (cl_resource_id lease) /\
    List.filter (in_operation sid oid) start `prefix_of` read /\ read `prefix_of` op_log sid oid st /\
    replay_operation read = Ok s /\ justified s planned.

(** A computation that, where it is permitted, keeps the store good and its log, and
    dispatches none of the operation's tools. *)
Definition polite {A} (permitted : Store -> Prop) (m : svc A) : Prop :=
  forall w, good (w_store w) -> permitted (w_store w) ->
    good (w_store (snd (m env w))) /\
    st_events (w_store w) `prefix_of` st_events (w_store (snd (m env w))) /\
    same_dispatches sid oid (w_store w) (w_store (snd (m env w))).

(** Callbacks that behave where they are permitted; elsewhere they may do anything. *)
Record polite_callbacks (c : RecoveryCallbacks) : Prop := {
  pc_execute a : polite (may_execute a) (rc_execute_tool c a);
  pc_reconcile a : polite (may_reconcile a) (rc_reconcile_tool c a);
  pc_request messages p : polite (may_request p None) (rc_request_model c messages p);
  pc_request_context f messages p identity :
    rc_request_model_with_context c = Some f ->
    polite (may_request p (Some identity)) (f messages p identity);
  pc_consume f a :
    rc_consume_approval c = Some f -> polite (was_planned ConsumeApproval a) (f a);
  pc_resume f a :
    rc_resume_write c = Some f -> polite (was_planned ResumeApprovedWrite a) (f a);
  pc_reconcile_write f a :
    rc_reconcile_write c = Some f -> polite (was_planned ReconcileWrite a) (f a)
}.

(** The other workers dispatch none of the operation's tools. *)
Definition leaves_dispatches : Prop :=
  forall n st, good st -> same_dispatches sid oid st (run_store_calls st (tk_calls (env n))).

(** No tool that is still to be executed, but the one being executed, was dispatched
    without having been completed. *)
Definition undispatched (busy : option string) (rest : list RecoveryAction) (st : Store) : Prop :=
  forall a id, a ∈ rest -> ra_kind a = ExecuteTool -> ra_tool_call_id a = Some id ->
    busy <> Some id -> dispatches sid oid st id = 0%nat \/ completed_in sid oid id st.

Definition tools_ready (busy : option string) (rest : list RecoveryAction) (st : Store) : Prop :=
  undispatched busy rest st /\ dispatched_once sid oid st.

(** What dispatches nothing keeps everything ready. *)
Lemma ready_grows busy rest st st' :
  good st -> good st' -> st_events st `prefix_of` st_events st' -> same_dispatches sid oid st st' ->
  tools_ready busy rest st -> tools_ready busy rest st'.
Proof.
  intros Hg Hg' Hpre Hd [Hr Ho]. split; [|by apply (once_grows sid oid st st')].
  intros a id Ha Hk Hid Hb. rewrite Hd.
  destruct (Hr a id Ha Hk Hid Hb) as [|Hc]; [by left|]. right.
  by apply (completed_in_grows sid oid id st st').
Qed.

Lemma ready_events_only busy rest : events_only (tools_ready busy rest).
Proof.
  intros st st' He [Hr Ho]. split; [|by apply (once_events_only sid oid st st' He)].
  unfold undispatched, dispatches, completed_in. by rewrite (log_of_events sid oid st st' He).
Qed.

Section Growing.
Context (base : list OperationEvent).
Hypothesis Henv : cooperative env.
Hypothesis Hothers : leaves_dispatches.

Lemma stable_ready busy rest : stable env base (tools_ready busy rest).
Proof.
  intros n st Hst Hr. eapply ready_grows; [apply Hst|by apply Henv, Hst| | |exact Hr].
  - destruct (run_calls_prefix (tk_calls (env n)) st) as [more ->]. by exists more.
  - apply Hothers, Hst.
Qed.

Lemma extended_grows F P specs st :
  dispatches_nothing specs -> extended base F P sid oid specs st ->
  exists st1, P st1 /\ started base st1 /\ st_events st1 `prefix_of` st_events st /\
    same_dispatches sid oid st1 st.
Proof.
  intros Hq (st1 & now_ms & Hp & [Hst _] & _ & Hev). exists st1.
  split_and!; [done..|rewrite Hev; by eexists|]. eapply quiet_append; [exact Hev|by right].
Qed.

(** Committing what dispatches nothing *)
Lemma committed_ready {A} lease busy rest specs (r : res A) st :
  dispatches_nothing specs -> committed env base lease sid oid (tools_ready busy rest) specs r st ->
  started base st /\ tools_ready busy rest st.
Proof.
  intros Hq [Hst [[_ Hr]|Hx]]; [done|]. split; [done|].
  destruct (extended_grows _ _ _ _ Hq Hx) as (st1 & Hr & Hst1 & Hpre & Hd).
  by eapply ready_grows; [apply Hst1|apply Hst|..].
Qed.

Lemma triple_polite {A} busy rest permitted (m : svc A) :
  polite permitted m ->
  triple env (fun st => started base st /\ tools_ready busy rest st /\ permitted st) m
    (fun _ st => started base st /\ tools_ready busy rest st).
Proof.
  intros Hm w ([Hg Hpre] & Hr & Hp). destruct (Hm w Hg Hp) as (Hg' & Hpre' & Hd).
  split; [split; [done|by etrans]|]. by apply (ready_grows busy rest (w_store w)).
Qed.
End Growing.
End Permissions.
