(* ===== verification/RecoverySteps.v ===== *)
(** * What each step of a recovery keeps

    Each step of a plan consults callbacks only where they are permitted, keeps the
    store replayable, and leaves the tools that are still to be executed undispatched. *)

From S2P Require Import Prelude PyDict Text PyVal ModelPolicy.
From S2P Require Import OperationTypes OperationReducer OperationLifecycle OperationSafety.
From S2P Require Import OperationStore OperationLog Service Recovery RecoveryPlanning.
From S2P Require Import RecoveryService RecoveryLog.
From Stdlib Require Import String.

#[local] Open Scope string_scope.
#[local] Open Scope bool_scope.
#[local] Open Scope Z_scope.

(** ** What the reducer says of the events of a recovery *)

Lemma apply_reconcile s base e :
  oe_type e = "tool_reconcile_started" ->
  apply_operation_event s base e = on_tool_reconcile_started s base (oe_data e).
Proof. intros Hty. unfold apply_operation_event. by rewrite Hty. Qed.

Lemma apply_finish s base e :
  oe_type e ∈ ["tool_completed"; "tool_reconciled"] ->
  apply_operation_event s base e = on_tool_finish s base (oe_type e) (oe_data e).
Proof.
  intros Hty. unfold apply_operation_event.
  apply elem_of_cons in Hty as [->|[->|[]%elem_of_nil]%elem_of_cons]; done.
Qed.

(** The event just accepted dispatched the tool. *)
Lemma dispatched_tool s e s' id :
  reduce_operation_event (Some s) e = Ok s' -> oe_type e = "tool_dispatch_started" ->
  jget (oe_data e) "toolCallId" = VStr id ->
  exists t, dget id (op_tools s) = Some t /\ ti_phase t ∈ [TiIntentRecorded; TiDispatchStarted] /\
    dget id (op_tools s') = Some (ti_with TiDispatchStarted (ti_attempts t + 1) (ti_result t)
                                    (ti_reconcile_fencing_token t) t).
Proof.
  intros Hr%reduce_apply Hty Hid. rewrite apply_dispatch in Hr by done. unfold on_tool_dispatch in Hr.
  destruct (event_text (oe_data e) "toolCallId") as [id'|] eqn:Hid'; [|done]. cbn [rbind] in Hr.
  rewrite (event_text_of _ _ _ _ Hid' Hid) in Hr. unfold lookup_tool in Hr.
  destruct (dget id (op_tools s)) as [t|] eqn:Ht; [|done]. cbn [rbind] in Hr.
  res_inv Hr. ensure_facts. exists t. split; [done|]. split; [done|]. cbn. by rewrite dget_dset_eq.
Qed.

Lemma reconciling_tool s e s' id :
  reduce_operation_event (Some s) e = Ok s' -> oe_type e = "tool_reconcile_started" ->
  jget (oe_data e) "toolCallId" = VStr id ->
  exists t, dget id (op_tools s') = Some t /\ ti_phase t = TiOutcomeUnknown.
Proof.
  intros Hr%reduce_apply Hty Hid. rewrite apply_reconcile in Hr by done.
  unfold on_tool_reconcile_started in Hr.
  destruct (event_text (oe_data e) "toolCallId") as [id'|] eqn:Hid'; [|done]. cbn [rbind] in Hr.
  rewrite (event_text_of _ _ _ _ Hid' Hid) in Hr. unfold lookup_tool in Hr.
  destruct (dget id (op_tools s)) as [t|] eqn:Ht; [|done]. cbn [rbind] in Hr.
  res_inv Hr. ensure_facts. eexists. cbn. rewrite dget_dset_eq. split; [done|]. done.
Qed.

Lemma finished_tool s e s' id :
  reduce_operation_event (Some s) e = Ok s' -> oe_type e ∈ ["tool_completed"; "tool_reconciled"] ->
  jget (oe_data e) "toolCallId" = VStr id -> completed_tool id s'.
Proof.
  intros Hr%reduce_apply Hty Hid. rewrite apply_finish in Hr by done. unfold on_tool_finish in Hr.
  destruct (event_text (oe_data e) "toolCallId") as [id'|] eqn:Hid'; [|done]. cbn [rbind] in Hr.
  rewrite (event_text_of _ _ _ _ Hid' Hid) in Hr. unfold lookup_tool in Hr.
  destruct (dget id (op_tools s)) as [t|] eqn:Ht; [|done]. cbn [rbind] in Hr.
  res_inv Hr. eexists. cbn. rewrite dget_dset_eq. split; [done|].
  apply elem_of_cons in Hty as [->|[->|[]%elem_of_nil]%elem_of_cons]; done.
Qed.

Lemma start_not_tool s e ty :
  reduce_operation_event None e = Ok s -> oe_type e = ty -> ty = "operation_started".
Proof. cbn. intros (_ & _ & _ & _ & _ & _ & He)%start_facts <-. done. Qed.

(** ** One step of a recovery *)

Section Actions.
Context (env : Env) (sid oid owner : string) (start : list OperationEvent).
Hypothesis Henv : cooperative env.
Hypothesis Hothers : leaves_dispatches env sid oid.
Context (service : DurableSessionRecovery) (lease : ClaimLease).
Hypothesis Hlease : claim_of sid oid owner lease.
Context (heard : nat -> bool) (uuid : nat -> string).
(** The store the plan was made in, and the state it was made from *)
Context (planned : Store) (s0 : OperationState).
Hypothesis Hplanned : good planned.
Hypothesis Hstart : start `prefix_of` st_events planned.
Hypothesis Hs0 : replay_operation (op_log sid oid planned) = Ok s0.

#[local] Abbreviation base := (st_events planned).
#[local] Abbreviation started := (Service.started base).
#[local] Abbreviation op_log := (op_log sid oid).
#[local] Abbreviation tools_ready := (tools_ready sid oid).
#[local] Abbreviation held := (claim_held env lease).
#[local] Abbreviation polite_callbacks := (polite_callbacks env sid oid owner start).

Lemma planned_for : is_for sid oid s0.
Proof. by destruct (replay_identity planned sid oid s0 Hs0). Qed.

(** One of the committed events, as the reducer saw it *)
Record accepted_event (P : Store -> Prop) (specs1 : list EventSpec) (ty : string)
    (data : pydict) (specs2 : list EventSpec) (st st1 : Store)
    (before after : list OperationEvent) (e : OperationEvent) (s1 s2 s : OperationState)
  : Prop := {
  ae_store : P st1 /\ started st1;
  ae_before : specs1 = [] -> before = op_log st1;
  ae_after : specs2 = [] -> after = [];
  ae_log : op_log st = (before ++ e :: after)%list;
  ae_type : oe_type e = ty;
  ae_data : oe_data e = data;
  ae_prior : foldM reduce_step None before = Ok (Some s1);
  ae_step : reduce_operation_event (Some s1) e = Ok s2;
  ae_rest : foldM reduce_step (Some s2) after = Ok (Some s);
  ae_replay : replay_operation (op_log st) = Ok s
}.

Lemma committed_event P specs1 ty data specs2 st :
  extended base held P sid oid (specs1 ++ (ty, data) :: specs2) st -> good st ->
  ty <> "operation_started" ->
  exists st1 before after e s1 s2 s,
    accepted_event P specs1 ty data specs2 st st1 before after e s1 s2 s.
Proof.
  intros (st1 & now_ms & k & Hp & Hst1 & _ & Hlog & _)%extended_log Hg Hty.
  change ((ty, data) :: specs2) with ([(ty, data)] ++ specs2)%list in Hlog.
  rewrite !numbered_app, app_assoc in Hlog.
  set (e := mkOperationEvent ty sid oid (Z.of_nat (k + List.length specs1 + 0)) now_ms data).
  change (numbered sid oid now_ms (k + List.length specs1) [(ty, data)]) with [e] in Hlog.
  set (before := (op_log st1 ++ numbered sid oid now_ms k specs1)%list) in *.
  set (after := numbered sid oid now_ms _ specs2) in Hlog.
  destruct (proj2 Hg sid oid) as [s Hs].
  { change (op_log st <> []). rewrite Hlog. by destruct before. }
  pose proof Hs as Hf. apply log_replays in Hf; [|done]. rewrite Hlog, foldM_app in Hf.
  destruct (foldM reduce_step None before) as [o|] eqn:Hb; [|done]. cbn [rbind] in Hf.
  change ([e] ++ after)%list with (e :: after) in Hf. cbn [foldM] in Hf.
  unfold reduce_step at 1 in Hf. destruct (reduce_operation_event o e) as [s2|] eqn:Hr; [|done].
  cbn [rbind] in Hf. destruct o as [s1|]; [|by apply (start_not_tool _ _ ty) in Hr].
  exists st1, before, after, e, s1, s2, s. split; try done.
  - intros ->. unfold before. by rewrite app_nil_r.
  - by intros ->.
Qed.

Lemma planned_prefix st : started st -> op_log planned `prefix_of` op_log st.
Proof.
  intros Hst. destruct (log_grows sid oid _ _ Hst) as [more Hm]. exists more. exact Hm.
Qed.

Lemma was_planned_here a kind st :
  started st -> held st -> justified s0 a -> ra_kind a = kind ->
  was_planned env sid oid owner start kind (fenced lease a) st.
Proof.
  intros Hst Hheld Hj Hk. exists lease, a, (op_log planned), s0. split_and!; try done.
  - unfold op_log. rewrite operation_log_filter. destruct Hstart as [more ->].
    rewrite List.filter_app. by eexists.
  - by apply planned_prefix.
Qed.

(** What was committed under the claim leaves it held. *)
Lemma extended_held P specs st : extended base held P sid oid specs st -> held st.
Proof. by intros (st1 & now_ms & _ & _ & H & _). Qed.

Lemma fenced_under a P specs st :
  extended base held P sid oid specs st -> under_claim env sid oid owner (fenced lease a) st.
Proof. intros H%extended_held. by exists lease. Qed.

(** A tool of the plan is still the same tool. *)
Lemma still_known t st s :
  started st -> dget (ti_tool_call_id t) (op_tools s0) = Some t ->
  replay_operation (op_log st) = Ok s -> knows_tool (ti_tool_call_id t) t s.
Proof.
  intros [Hg Hpre] Ht Hs.
  destruct (good_keeps sid oid planned st s0 (knows_tool (ti_tool_call_id t) t) Hplanned Hg Hpre
    (knows_tool_step _ t) Hs0) as (s' & Hs' & Hk); [by exists t|]. unfold op_log in *. congruence.
Qed.

#[local] Hint Resolve stable_ready ready_events_only planned_for : core.

Lemma commit_keeps busy rest specs :
  dispatches_nothing specs ->
  triple env (fun st => started st /\ tools_ready busy rest st) (commit service lease heard s0 specs)
    (fun _ st => started st /\ tools_ready busy rest st).
Proof.
  intros Hq. eapply triple_weaken;
    [apply (triple_commit env Henv base service lease heard sid oid (tools_ready busy rest)); auto|done|].
  intros r st. by apply committed_ready.
Qed.

Lemma policy_specs_quiet s : dispatches_nothing (continuation_policy_specs s).
Proof.
  unfold continuation_policy_specs. destruct (op_active_model_policy s) as [p|]; [|constructor].
  destruct (mp_continuation_policy p); [by apply Forall_singleton|constructor].
Qed.

(** How a step leaves the store: ready for the rest, if it went through *)
Definition left_ready (rest : list RecoveryAction) {A} (r : res A) (st : Store) : Prop :=
  started st /\ dispatched_once sid oid st /\ (is_ok r = true -> tools_ready None rest st).

Lemma ready_left busy rest' rest {A} e st :
  started st -> tools_ready busy rest' st -> left_ready rest (@Err A e) st.
Proof. intros Hst [_ Ho]. by split. Qed.

Lemma failed_left {A B} e rest st : left_ready rest (@Err A e) st -> left_ready rest (@Err B e) st.
Proof. intros (Hst & Ho & _). by split. Qed.

#[local] Hint Resolve failed_left : core.

(** Recording a tool's result: it completes the tool that was busy. *)
Lemma store_result_completes busy id rest a message ty :
  ra_tool_call_id a = Some id -> ty ∈ ["tool_completed"; "tool_reconciled"] ->
  busy = None \/ busy = Some id ->
  triple env (fun st => started st /\ tools_ready busy rest st)
    (store_tool_result service lease heard s0 a message ty)
    (left_ready rest).
Proof.
  intros Hid Hty Hbusy. unfold store_tool_result. apply triple_lift; [|intros e st [? ?]; by eapply ready_left].
  intros m _.
  set (specs := (ty, _) :: _).
  assert (Hq : dispatches_nothing specs).
  { constructor; [|constructor; [done|apply policy_specs_quiet]]. cbn.
    apply elem_of_cons in Hty as [->|[->|[]%elem_of_nil]%elem_of_cons]; done. }
  eapply triple_weaken;
    [apply (triple_commit env Henv base service lease heard sid oid (tools_ready busy rest)); auto|done|].
  intros r st Hc. pose proof (committed_ready env sid oid base lease busy rest _ r st Hq Hc) as [Hst Hr].
  split; [done|]. split; [apply Hr|]. intros Hok. destruct Hc as [_ [[Herr _]|Hx]]; [congruence|].
  assert (Hdone : completed_in sid oid id st).
  { destruct (committed_event (tools_ready busy rest) [] _ _ _ st Hx (proj1 Hst))
      as (st1 & before & after & e & s1 & s2 & s & [_ _ _ _ He1 He2 _ Hstep Hafter Hs]).
    { intros ->. apply mem_str_spec in Hty. by vm_compute in Hty. }
    exists s. split; [done|]. eapply run_invariant; [apply completed_tool_step| |exact Hafter].
    eapply finished_tool; [exact Hstep|by rewrite He1|]. rewrite He2. cbn. by rewrite Hid. }
  destruct Hr as [Hr Ho]. split; [|exact Ho].
  intros a' id' Ha' Hk Hid' _. destruct (decide (id' = id)) as [->|Hne]; [by right|].
  apply (Hr a' id' Ha' Hk Hid'). destruct Hbusy as [->| ->]; congruence.
Qed.

(** ** Executing a tool *)

(** The tool of an action that executes or repeats it *)
Definition executable (a : RecoveryAction) (t : ToolInvocationState) : Prop :=
  about_tool s0 a t /\
  (ra_kind a = ExecuteTool /\ ti_phase t = TiIntentRecorded \/
   ra_kind a = ReplaySafeTool /\ ti_phase t = TiDispatchStarted /\ ti_replay_policy t = "safe").

Lemma justified_executable a :
  justified s0 a -> ra_kind a ∈ [ExecuteTool; ReplaySafeTool] -> exists t, executable a t.
Proof.
  unfold justified. intros Hj Hk.
  apply elem_of_cons in Hk as [Hk|[Hk|[]%elem_of_nil]%elem_of_cons]; rewrite Hk in Hj.
  - destruct Hj as (t & Hab & Hp & _). exists t. split; [done|by left].
  - destruct Hj as (t & Hab & Hp & Hsafe & _). exists t. split; [done|by right].
Qed.

(** The dispatch that was just committed *)
Definition dispatch_data (a : RecoveryAction) : pydict :=
  [tool_id_field a; recovered_field; token_field lease].

Lemma count_dispatched st1 st now_ms k a t id :
  ra_tool_call_id a = Some (ti_tool_call_id t) ->
  op_log st = (op_log st1 ++ numbered sid oid now_ms k [("tool_dispatch_started", dispatch_data a)])%list ->
  dispatches sid oid st id
  = (dispatches sid oid st1 id + if String.eqb (ti_tool_call_id t) id then 1 else 0)%nat.
Proof.
  intros Hid Hlog. unfold dispatches. rewrite Hlog, count_app. f_equal. unfold count. cbn.
  unfold dispatch_of, is_event, dispatch_data, tool_id_field. cbn. rewrite Hid. cbn.
  by destruct (String.eqb _ id).
Qed.

Lemma dispatched_permitted a t rest st :
  executable a t -> started st ->
  extended base held (tools_ready None (a :: rest)) sid oid
    [("tool_dispatch_started", dispatch_data a)] st ->
  may_execute env sid oid owner (fenced lease a) st.
Proof.
  intros [(Ht & Hid & Hname & Hargs) Hkind] Hst Hx.
  destruct (committed_event _ [] _ _ [] st Hx (proj1 Hst))
    as (st1 & before & after & e & s1 & s2 & s
        & [[[Hr _] Hst1] Hb Ha Hlog He1 He2 Hprior Hstep Hafter Hs]); [done|].
  specialize (Hb eq_refl). specialize (Ha eq_refl). subst before after. cbn in Hafter. simplify_eq.
  assert (Htid : jget (oe_data e) "toolCallId" = VStr (ti_tool_call_id t)).
  { rewrite He2. cbn. by rewrite Hid. }
  destruct (dispatched_tool _ _ _ _ Hstep He1 Htid) as (t1 & Ht1 & Hp1 & Ht2).
  split; [by eapply fenced_under|]. split.
  { exists e. split; [by rewrite Hlog, last_snoc|]. split; [done|]. rewrite He2. cbn. by rewrite Hid. }
  destruct (still_known t st s Hst Ht Hs) as (t' & Ht' & [Hi Hn Hg Hrep _]).
  rewrite Ht2 in Ht'. injection Ht' as <-. cbn in Hi, Hn, Hg, Hrep.
  exists (ti_with TiDispatchStarted (ti_attempts t1 + 1) (ti_result t1)
            (ti_reconcile_fencing_token t1) t1).
  split; [|split; [reflexivity|]].
  - exists s. cbn. rewrite Hi, Hn, Hg. done.
  - cbn. destruct Hkind as [[Hk Hp]|(Hk & Hp & Hsafe)]; [left|right; congruence].
    destruct (Hr a (ti_tool_call_id t)) as [Hd|(s1' & Hs1' & t1' & Ht1' & Hc)];
      [left|done|done|done| |].
    + pose proof (attempts_count _ _ (ti_tool_call_id t) Hprior) as Hn1. unfold tool_attempts_of in Hn1.
      rewrite Ht1 in Hn1. unfold dispatches in Hd. rewrite Hd in Hn1. lia.
    + apply log_replays in Hs1'; [|apply Hst1]. rewrite Hprior in Hs1'. simplify_eq.
      rewrite Hc in Hp1. by apply elem_of_cons in Hp1 as [|[|[]%elem_of_nil]%elem_of_cons].
Qed.

Lemma dispatched_ready a t rest st :
  executable a t -> started st ->
  extended base held (tools_ready None (a :: rest)) sid oid
    [("tool_dispatch_started", dispatch_data a)] st ->
  tools_ready (Some (ti_tool_call_id t)) rest st.
Proof.
  intros He Hst Hx.
  pose proof (dispatched_permitted a t rest st He Hst Hx)
    as [_ [_ (t' & (s & Hs & Ht' & Hid' & _) & _ & Honce)]].
  destruct He as [(_ & Hid & _) _]. cbn in Hid'. rewrite Hid in Hid'. injection Hid' as Hi.
  destruct (extended_log sid oid base _ _ _ _ Hx)
    as (st1 & now_ms & k & [Hr Ho] & Hst1 & Hpre & Hlog & He).
  pose proof (fun id => count_dispatched st1 st now_ms k a t id Hid Hlog) as Hd. split.
  - intros a' id Ha' Hk Hid' Hne. rewrite Hd.
    destruct (String.eqb_spec (ti_tool_call_id t) id) as [?|_]; [congruence|].
    destruct (Hr a' id) as [Hz|Hc]; [by right|done..|left; lia|right].
    by apply (completed_in_grows sid oid id st1 st); [apply Hst1|apply Hst|..].
  - intros id.
    destruct (String.eqb_spec (ti_tool_call_id t) id) as [<-|Hne].
    + destruct Honce as [Hone|Hsafe]; [left|right; exists s, t'; by rewrite Hi].
      apply log_replays in Hs; [|apply Hst].
      rewrite Hi in *. pose proof (attempts_count _ _ (ti_tool_call_id t') Hs) as Hn.
      unfold tool_attempts_of in Hn. rewrite Ht', Hone in Hn. unfold dispatches, RecoveryLog.op_log in *. lia.
    + rewrite Hd. apply String.eqb_neq in Hne as ->. rewrite Nat.add_0_r.
      destruct (Ho id) as [|Hs']; [by left|right].
      by apply (safe_in_grows sid oid id st1 st); [apply Hst1|apply Hst|..].
Qed.

Lemma triple_execute_tool callbacks a rest :
  polite_callbacks callbacks -> justified s0 a ->
  ra_kind a ∈ [ExecuteTool; ReplaySafeTool] ->
  triple env (fun st => started st /\ tools_ready None (a :: rest) st)
    (execute_tool service lease heard s0 a callbacks)
    (left_ready rest).
Proof.
  intros Hcb Hj Hk. destruct (justified_executable a Hj Hk) as [t Ht].
  pose proof Ht as [(Hdget & Hid & _) _]. unfold execute_tool.
  assert (Hspecs : dispatch_specs lease s0 a = [("tool_dispatch_started", dispatch_data a)]).
  { unfold dispatch_specs, dmem. by rewrite Hid, Hdget. }
  rewrite Hspecs.
  eapply triple_bind;
    [apply (triple_commit env Henv base service lease heard sid oid (tools_ready None (a :: rest))); auto| |].
  2:{ intros e st [Hst [[_ Hr]|Hx]]; [by eapply ready_left|].
      eapply ready_left; [exact Hst|]. by eapply dispatched_ready. }
  intros []. eapply triple_bind.
  - eapply triple_weaken;
      [eapply (triple_polite env sid oid base (Some (ti_tool_call_id t)) rest);
       apply (pc_execute _ _ _ _ _ _ Hcb (fenced lease a))| |intros r st H; exact H].
    intros st [Hst [[? _]|Hx]]; [done|]. split; [done|].
    split; [by eapply dispatched_ready|by eapply dispatched_permitted].
  - intros message. by apply (store_result_completes (Some (ti_tool_call_id t)) (ti_tool_call_id t));
      [|left|right].
  - intros e st [Hst Hr]. by eapply ready_left.
Qed.

(** ** The other steps *)

Lemma ready_less busy rest rest' st : rest ⊆ rest' -> tools_ready busy rest' st -> tools_ready busy rest st.
Proof. intros Hsub [Hr Ho]. split; [|exact Ho]. intros a id Ha. by apply Hr, Hsub. Qed.

Lemma reconcile_permitted a t rest st :
  about_tool s0 a t -> started st ->
  extended base held (tools_ready None rest) sid oid [("tool_reconcile_started", dispatch_data a)] st ->
  may_reconcile env sid oid owner (fenced lease a) st.
Proof.
  intros (Ht & Hid & Hname & Hargs) Hst Hx.
  destruct (committed_event _ [] _ _ [] st Hx (proj1 Hst))
    as (st1 & before & after & e & s1 & s2 & s & [_ _ Ha Hlog He1 He2 _ Hstep Hafter Hs]); [done|].
  specialize (Ha eq_refl). subst after. cbn in Hafter. simplify_eq.
  assert (Htid : jget (oe_data e) "toolCallId" = VStr (ti_tool_call_id t)).
  { rewrite He2. cbn. by rewrite Hid. }
  destruct (reconciling_tool _ _ _ _ Hstep He1 Htid) as (t1 & Ht1 & Hp1).
  split; [by eapply fenced_under|]. split.
  { exists e. split; [by rewrite Hlog, last_snoc|]. split; [done|]. rewrite He2. cbn. by rewrite Hid. }
  destruct (still_known t st s Hst Ht Hs) as (t' & Ht' & [Hi Hn Hg _ _]).
  rewrite Ht1 in Ht'. injection Ht' as <-.
  exists t1. split; [|done]. exists s. rewrite Hi, Hn, Hg. done.
Qed.

Lemma triple_reconcile_tool callbacks a rest :
  polite_callbacks callbacks -> justified s0 a -> ra_kind a = ReconcileTool ->
  triple env (fun st => started st /\ tools_ready None rest st)
    (reconcile_tool service lease heard s0 a callbacks)
    (left_ready rest).
Proof.
  intros Hcb Hj Hk. unfold justified in Hj. rewrite Hk in Hj. destruct Hj as (t & Hab & _).
  pose proof Hab as (_ & Hid & _). unfold reconcile_tool.
  assert (Hq : dispatches_nothing [("tool_reconcile_started", dispatch_data a)]) by by constructor.
  eapply triple_bind;
    [apply (triple_commit env Henv base service lease heard sid oid (tools_ready None rest)); auto| |].
  2:{ intros e st [Hst Hr]%(committed_ready env sid oid base lease None rest); [by eapply ready_left|done]. }
  intros []. eapply triple_bind.
  - eapply triple_weaken;
      [eapply (triple_polite env sid oid base None rest);
       apply (pc_reconcile _ _ _ _ _ _ Hcb (fenced lease a))| |intros r st H; exact H].
    intros st Hc. pose proof (committed_ready env sid oid base lease None rest _ _ st Hq Hc) as [Hst Hr].
    split; [done|]. split; [done|]. destruct Hc as [_ [[? _]|Hx]]; [done|].
    by eapply reconcile_permitted.
  - intros message. by apply (store_result_completes None (ti_tool_call_id t)); [|right; left|left].
  - intros e st [Hst Hr]. by eapply ready_left.
Qed.

Lemma fail_request_keeps busy rest request_id code :
  triple env (fun st => started st /\ tools_ready busy rest st)
    (fail_model_request_if_started service lease heard s0 request_id code)
    (fun _ st => started st /\ tools_ready busy rest st).
Proof.
  eapply triple_bind with (R := fun _ st => started st /\ tools_ready busy rest st); [| |done].
  { apply triple_access. intros n st [Hst Hr]. cbv zeta.
    pose proof (started_others env Henv base n st Hst).
    pose proof (stable_ready env sid oid base Henv Hothers busy rest n st Hst Hr). by split_and!. }
  intros events. apply triple_lift; [|done]. intros current _.
  destruct (dget request_id _) as [r|]; [|by apply triple_raise].
  destruct (bool_decide _); [|by apply triple_ret]. apply commit_keeps. by constructor.
Qed.

(** The request that was just committed, and what is told of it *)
Lemma request_permitted P interrupted p request_id run_id st :
  started st ->
  extended base held P sid oid
    (interrupted ++ [("model_request_started",
       [("requestId", VStr request_id); ("requestPolicy", VDict (policy_to_dict p));
        recovered_field; token_field lease])]) st ->
  may_request env sid oid owner p None st /\
  may_request env sid oid owner p (Some (request_identity lease s0 request_id run_id)) st.
Proof.
  intros Hst Hx. destruct (committed_event P interrupted _ _ [] st Hx (proj1 Hst))
    as (st1 & before & after & e & s1 & s2 & s & [_ _ Ha Hlog He1 He2 _ _ _ _]); [done|].
  rewrite (Ha eq_refl) in Hlog. apply extended_held in Hx. destruct planned_for as [Hsid Hoid].
  assert (Hlast : last (op_log st) = Some e) by by rewrite Hlog, last_snoc.
  split; exists lease; (split; [done|]); exists e; (split; [done|]); (split; [done|]); rewrite He2;
    [done|]. unfold request_identity. by rewrite Hsid, Hoid.
Qed.

Lemma triple_request_model callbacks a rest run_id :
  polite_callbacks callbacks ->
  triple env (fun st => started st /\ tools_ready None rest st)
    (request_model service lease heard uuid s0 a callbacks run_id)
    (fun _ st => started st /\ tools_ready None rest st).
Proof.
  intros Hcb. unfold request_model.
  destruct (ra_request_policy a) as [p|]; [|by apply triple_raise].
  destruct (_ && _); [by apply triple_raise|].
  eapply triple_bind with (R := fun _ st => started st /\ tools_ready None rest st);
    [by intros w Hw| |done].
  intros request_id. apply triple_lift; [|done]. intros specs Hspecs. unfold request_specs in Hspecs.
  destruct (if bool_decide _ then _ else _) as [interrupted|] eqn:Hi in Hspecs; [|done].
  cbn in Hspecs. injection Hspecs as <-.
  assert (Hq : dispatches_nothing (interrupted ++ [("model_request_started",
       [("requestId", VStr request_id); ("requestPolicy", VDict (policy_to_dict p));
        recovered_field; token_field lease])])).
  { apply Forall_app. split; [|by constructor]. destruct (bool_decide _); [|by injection Hi as <-].
    destruct (ra_request_id a); [|done]. injection Hi as <-. by constructor. }
  eapply triple_bind;
    [apply (triple_commit_specs env Henv base service lease heard sid oid (tools_ready None rest)); auto| |].
  2:{ intros e st Hc. exact (committed_ready env sid oid base lease None rest _ _ st Hq Hc). }
  intros s. eapply triple_bind with (R := fun _ st => started st /\ tools_ready None rest st);
    [eapply triple_catch with (R := fun _ st => started st /\ tools_ready None rest st)| |done].
  - eapply (triple_weaken env (fun st => started st /\ tools_ready None rest st /\
        may_request env sid oid owner p None st /\
        may_request env sid oid owner p (Some (request_identity lease s0 request_id run_id)) st));
      [|intros st Hc|intros r st H; exact H].
    + unfold call_model. destruct (rc_request_model_with_context callbacks) as [f|] eqn:Hf;
        (eapply triple_weaken; [eapply (triple_polite env sid oid base None rest)| |done]);
        [|by intros st' (? & ? & ? & ?)|by apply (pc_request _ _ _ _ _ _ Hcb)|by intros st' (? & ? & ? & ?)].
      * by apply (pc_request_context _ _ _ _ _ _ Hcb).
    + pose proof (committed_ready env sid oid base lease None rest _ _ st Hq Hc) as [Hst Hr].
      split; [done|]. split; [done|]. destruct Hc as [_ [[? _]|Hx]]; [done|].
      by eapply request_permitted.
  - intros [m|e]; [by apply triple_ret|]. destruct (negb _); [by apply triple_raise|].
    eapply triple_bind; [apply fail_request_keeps| |done]. intros ?. by apply triple_raise.
  - intros message. destruct (validate_recoverable_model_response message p) as [|e].
    { apply commit_keeps. by constructor. }
    destruct e; try by apply triple_raise.
    eapply triple_bind; [apply fail_request_keeps| |done]. intros ?. by apply triple_raise.
Qed.

Lemma materialize_keeps a rest :
  triple env (fun st => started st /\ tools_ready None rest st) (materialize_result service lease heard s0 a)
    (fun _ st => started st /\ tools_ready None rest st).
Proof. apply commit_keeps. constructor; [done|apply policy_specs_quiet]. Qed.

Lemma denial_quiet current a approval_id tool_call_id tool_name specs :
  denial_specs current a approval_id tool_call_id tool_name = Ok specs -> dispatches_nothing specs.
Proof.
  unfold denial_specs. destruct (dget approval_id _) as [p|]; [|done]. intros [= <-].
  repeat apply Forall_app_2; try apply policy_specs_quiet; repeat case_match; by repeat constructor.
Qed.

Lemma triple_finalize a approval_id tool_call_id tool_name n rest :
  triple env (fun st => started st /\ tools_ready None rest st)
    (finalize_attempts service lease heard n s0 a approval_id tool_call_id tool_name)
    (fun _ st => started st /\ tools_ready None rest st).
Proof.
  pose proof planned_for as [Hsid Hoid].
  induction n as [|n IH]; [by apply triple_raise|]. cbn [finalize_attempts]. rewrite Hsid, Hoid.
  eapply triple_bind; [apply (triple_claimed env Henv base); auto| |done].
  intros []. eapply triple_bind with (R := fun r st => started st /\ tools_ready None rest st /\
    forall events, r = Ok events -> events = operation_log st sid oid).
  { apply triple_access. intros m st [Hst Hr]. cbv zeta.
    pose proof (started_others env Henv base m st Hst).
    pose proof (stable_ready env sid oid base Henv Hothers None rest m st Hst Hr).
    split_and!; try done. by intros events [= <-]. }
  2:{ intros e st (? & ? & _). done. }
  intros events.
  eapply (triple_weaken _ (fun st => events = operation_log st sid oid /\ started st /\ tools_ready None rest st));
    [|by intros st (Hst & Hr & Hev); auto|intros r st H; exact H].
  apply triple_lift; [|by intros e st (_ & ?)]. intros current _.
  apply triple_lift; [|by intros e st (_ & ?)]. intros specs Hspecs%denial_quiet.
  destruct (bool_decide _); [by apply triple_ret; intros st (_ & ?)|].
  apply triple_clock. intros now. apply triple_lift; [|by intros e st (_ & ?)]. intros s' Hv.
  eapply triple_catch with (R := fun _ st => started st /\ tools_ready None rest st).
  - unfold append_claimed. rewrite Hsid, Hoid. eapply triple_weaken;
      [eapply (triple_append_specs env Henv base (tools_ready None rest)); [auto|exact Hv]|done|].
    intros r st [Hst Hc]. apply (committed_ready env sid oid base lease None rest specs r); [done|].
    split; [done|]. destruct Hc as [Hc|(_ & _ & Hx)]; [by left|by right].
  - intros [?|e]; [by apply triple_ret|]. unfold on_recovery_conflict.
    destruct e; cbn [is_conflict]; first [exact IH | by apply triple_raise].
Qed.

Lemma finalize_keeps a rest :
  triple env (fun st => started st /\ tools_ready None rest st)
    (finalize_rejected_approval service lease heard s0 a)
    (fun _ st => started st /\ tools_ready None rest st).
Proof.
  unfold finalize_rejected_approval. repeat case_match; first [apply triple_finalize | by apply triple_raise].
Qed.

(** A callback outside the log, between two looks at the claim *)
Lemma callback_keeps kind callback a missing rest :
  justified s0 a -> ra_kind a = kind ->
  (forall f, callback = Some f ->
     polite env sid oid (was_planned env sid oid owner start kind (fenced lease a)) (f (fenced lease a))) ->
  triple env (fun st => started st /\ tools_ready None rest st)
    (guarded_callback service lease heard callback a missing)
    (fun _ st => started st /\ tools_ready None rest st).
Proof.
  intros Hj Hk Hcb. unfold guarded_callback. destruct callback as [f|]; [|by apply triple_ret].
  eapply triple_bind; [apply (triple_assert_claim env Henv base); auto| |by intros e st [? _]].
  intros []. eapply triple_bind with (R := fun _ st => started st /\ tools_ready None rest st); [| |done].
  - eapply triple_weaken; [by apply (triple_polite env sid oid base None rest), Hcb| |done].
    intros st [[Hst Hr] Hheld]. split; [done|]. split; [done|]. by apply was_planned_here; [|apply Hheld|..].
  - intros []. eapply triple_bind; [apply (triple_claimed env Henv base); auto| |done].
    intros []. by apply triple_ret.
Qed.

Lemma triple_going_on P rest (m : svc unit) :
  triple env P m (left_ready rest) ->
  triple env P (going_on m) (left_ready rest).
Proof.
  intros H. eapply triple_bind; [exact H| |by intros e st ?; eapply failed_left].
  intros []. by apply triple_ret.
Qed.

(** ** The actions of a plan *)

Lemma triple_run_action plan callbacks run_id a rest :
  rp_operation plan = s0 -> polite_callbacks callbacks -> justified s0 a ->
  triple env (fun st => started st /\ tools_ready None (a :: rest) st)
    (run_action service lease heard uuid plan callbacks run_id a)
    (left_ready rest).
Proof.
  intros Hplan Hcb Hj. unfold run_action. rewrite Hplan.
  assert (Hkeep : forall (m : svc (option RecoveryExecutionResult)),
    triple env (fun st => started st /\ tools_ready None rest st) m
      (fun _ st => started st /\ tools_ready None rest st) ->
    triple env (fun st => started st /\ tools_ready None (a :: rest) st) m
      (left_ready rest)).
  { intros m Hm. eapply triple_weaken; [exact Hm| |intros r st [? Hr]; split; [done|]; split; [apply Hr|done]].
    intros st [Hst Hr]. split; [done|]. eapply ready_less; [|exact Hr]. set_solver. }
  assert (Hgo : forall m : svc unit,
    triple env (fun st => started st /\ tools_ready None rest st) m
      (fun _ st => started st /\ tools_ready None rest st) ->
    triple env (fun st => started st /\ tools_ready None rest st) (going_on m)
      (fun _ st => started st /\ tools_ready None rest st)).
  { intros m Hm. eapply triple_bind; [exact Hm| |done]. intros []. by apply triple_ret. }
  destruct (ra_kind a) eqn:Hk.
  - apply Hkeep, triple_ret. intros st H; exact H.
  - apply Hkeep, Hgo, triple_request_model, Hcb.
  - apply Hkeep, Hgo, triple_request_model, Hcb.
  - apply Hkeep, Hgo, commit_keeps. by constructor.
  - apply Hkeep, triple_ret. intros st H; exact H.
  - apply Hkeep, (callback_keeps _ _ a _ rest Hj Hk). intros f Hf. exact (pc_consume _ _ _ _ _ _ Hcb f _ Hf).
  - apply Hkeep, (callback_keeps _ _ a _ rest Hj Hk). intros f Hf. exact (pc_resume _ _ _ _ _ _ Hcb f _ Hf).
  - apply Hkeep, (callback_keeps _ _ a _ rest Hj Hk). intros f Hf.
    exact (pc_reconcile_write _ _ _ _ _ _ Hcb f _ Hf).
  - apply Hkeep, Hgo, finalize_keeps.
  - apply triple_going_on, triple_execute_tool; [exact Hcb|exact Hj|rewrite Hk; set_solver].
  - apply triple_going_on, triple_execute_tool; [exact Hcb|exact Hj|rewrite Hk; set_solver].
  - apply triple_going_on. eapply triple_weaken;
      [apply (triple_reconcile_tool callbacks a rest Hcb Hj Hk)| |intros r st H; exact H].
    intros st [Hst Hr]. split; [exact Hst|]. eapply ready_less; [|exact Hr]. set_solver.
  - apply Hkeep, Hgo, materialize_keeps.
Qed.

Lemma triple_run_actions plan callbacks run_id actions :
  rp_operation plan = s0 -> polite_callbacks callbacks ->
  Forall (justified s0) actions ->
  triple env (fun st => started st /\ tools_ready None actions st)
    (run_actions service lease heard uuid plan callbacks run_id actions)
    (fun _ st => started st /\ dispatched_once sid oid st).
Proof.
  intros Hplan Hcb. induction actions as [|a actions IH]; intros Hj.
  { apply triple_ret. intros st [? [_ ?]]. by split. }
  apply Forall_cons in Hj as [Hj Hrest].
  eapply triple_bind; [by apply triple_run_action| |by intros e st (? & ? & _)].
  intros [result|]; [apply triple_ret; by intros st (? & ? & _)|].
  eapply triple_weaken; [by apply IH| |done]. intros st (Hst & _ & Hr). split; [done|]. by apply Hr.
Qed.
End Actions.
