(* ===== verification/RecoverySafety.v ===== *)
(** * Recoveries repeat no side effect

    The cycles of a recovery keep the store replayable and its log growing, consult the
    callbacks only under the recovery's own claim, and dispatch no tool of its operation
    twice that is not safe to repeat; the other operations of the store are anyone's. *)

From S2P Require Import Prelude PyDict PyVal OperationTypes OperationReducer OperationLifecycle.
From S2P Require Import OperationSafety OperationStore OperationLog Service Recovery.
From S2P Require Import RecoveryPlanning RecoveryService RecoveryLog.
From S2P Require Import RecoverySteps Text ModelPolicy.
From Stdlib Require Import String.

#[local] Open Scope string_scope.
#[local] Open Scope bool_scope.
#[local] Open Scope Z_scope.

(** ** The cycles of a recovery *)

Lemma stable_once env sid oid base :
  cooperative env -> leaves_dispatches env sid oid -> stable env base (dispatched_once sid oid).
Proof.
  intros Henv Hothers n st [Hg _] Ho. eapply once_grows; [exact Hg|by apply Henv| | |exact Ho].
  - destruct (run_calls_prefix (tk_calls (env n)) st) as [more ->]. by eexists.
  - by apply Hothers.
Qed.

(** A lease that was acquired for the operation is the recovery's own. *)
Lemma acquired_claim sid oid owner st st' now resource seconds lease :
  fenced_claim_resource_id "operation_recovery" sid (Some oid) None = Ok resource ->
  acquire_fenced_claim st now "operation_recovery" resource owner seconds = Ok (Some lease, st') ->
  claim_of sid oid owner lease.
Proof.
  intros Hr H. unfold acquire_fenced_claim in H. apply rbind_Ok in H as ([] & _ & H).
  assert (Hlease : exists generation, claim_lease "operation_recovery" resource owner generation = Ok lease).
  { destruct (st_claims st !! _) as [c|].
    - destruct (now <? cm_expiry c); [destruct (negb _); [done|]|];
        apply rbind_Ok in H as (l & Hl & [= -> _]); by eexists.
    - apply rbind_Ok in H as (l & Hl & [= -> _]). by eexists. }
  destruct Hlease as [generation Hl]. unfold claim_lease in Hl. res_inv Hl. by split.
Qed.

Section Cycles.
Context (env : Env) (sid oid owner : string).
Hypothesis Henv : cooperative env.
Hypothesis Hothers : leaves_dispatches env sid oid.
Context (base : list OperationEvent) (callbacks : RecoveryCallbacks).
Hypothesis Hcallbacks : polite_callbacks env sid oid owner base callbacks.

#[local] Abbreviation started := (Service.started base).
#[local] Abbreviation undoubled := (dispatched_once sid oid).

#[local] Hint Resolve stable_once once_events_only : core.

(** A plan is made of the operation's log as it is. *)
Lemma triple_plan :
  triple env (fun st => started st /\ undoubled st) (plan_operation sid oid)
    (fun r st => (started st /\ undoubled st) /\ forall plan, r = Ok plan ->
       replay_operation (op_log sid oid st) = Ok (rp_operation plan) /\
       plan_recovery (rp_operation plan) = Ok plan).
Proof.
  eapply triple_bind with (R := fun r st => (started st /\ undoubled st) /\
    forall events, r = Ok events -> events = op_log sid oid st).
  { apply triple_access. intros n st [Hst Ho]. cbv zeta.
    pose proof (started_others env Henv base n st Hst). pose proof (stable_once env sid oid base Henv Hothers n st Hst Ho).
    split_and!; try done. by intros events [= <-]. }
  2:{ intros e st [H _]. by split. }
  intros events. eapply (triple_weaken _ (fun st => (started st /\ undoubled st) /\ events = op_log sid oid st));
    [|by intros st [? H]; auto|intros r st H; exact H].
  apply triple_lift; [|by intros e st [? _]]. intros s Hs.
  apply triple_pure. intros st [Hst Hev]. split; [done|]. intros plan Hp.
  assert (Hop : rp_operation plan = s).
  { unfold plan_recovery in Hp. destruct (plan_actions s); [|done]. by injection Hp as <-. }
  rewrite Hop, <- Hev. by split.
Qed.

(** A planned tool that is to be executed was never dispatched. *)
Lemma planned_ready st plan :
  good st -> undoubled st -> replay_operation (op_log sid oid st) = Ok (rp_operation plan) ->
  plan_recovery (rp_operation plan) = Ok plan ->
  tools_ready sid oid None (rp_actions plan) st /\ Forall (justified (rp_operation plan)) (rp_actions plan).
Proof.
  intros Hg Ho Hs Hp. pose proof (replay_facts_wf _ _ Hs) as Hwf.
  assert (Hj : Forall (justified (rp_operation plan)) (rp_actions plan)).
  { unfold plan_recovery in Hp. destruct (plan_actions _) as [l|] eqn:Hl; [|done].
    injection Hp as Hp. rewrite <- Hp at 2. cbn. apply Forall_forall. intros a Ha.
    by eapply plan_actions_justified. }
  split; [|done]. split; [|done]. intros a id Ha Hk Hid _. left.
  rewrite Forall_forall in Hj. specialize (Hj a Ha). unfold justified in Hj. rewrite Hk in Hj.
  destruct Hj as (t & (Ht & Hid' & _) & Hphase & _). rewrite Hid' in Hid. injection Hid as <-.
  pose proof (fresh_intents_replay _ _ Hs _ _ Ht Hphase) as Hz. apply log_replays in Hs; [|done].
  pose proof (attempts_count _ _ (ti_tool_call_id t) Hs) as Hn. unfold tool_attempts_of in Hn.
  rewrite Ht in Hn.
  unfold dispatches. lia.
Qed.

Section Claimed.
Context (service : DurableSessionRecovery) (lease : ClaimLease).
Hypothesis Hlease : claim_of sid oid owner lease.
Context (heard : nat -> bool) (uuid : nat -> string) (run_id : string).

Lemma triple_planned_actions plan w :
  started (w_store w) -> undoubled (w_store w) ->
  replay_operation (op_log sid oid (w_store w)) = Ok (rp_operation plan) ->
  plan_recovery (rp_operation plan) = Ok plan ->
  let st := w_store (snd (run_actions service lease heard uuid plan callbacks run_id
                            (rp_actions plan) env w)) in
  started st /\ undoubled st.
Proof.
  intros Hst Ho Hs Hp. destruct (planned_ready _ _ (proj1 Hst) Ho Hs Hp) as [Hr Hj].
  destruct (triple_run_actions env sid oid owner base Henv Hothers service lease Hlease heard uuid (w_store w)
    (rp_operation plan) (proj1 Hst) (proj2 Hst) Hs plan callbacks run_id (rp_actions plan) eq_refl Hcallbacks Hj w)
    as [[Hg Hpre] Ho']; [|split; [|exact Ho']; split; [done|by etrans; [apply Hst|]]].
  split; [by apply started_here, Hst|done].
Qed.

Lemma triple_resume_claimed cycles :
  triple env (fun st => started st /\ undoubled st)
    (resume_claimed service lease heard uuid cycles sid oid callbacks run_id)
    (fun _ st => started st /\ undoubled st).
Proof.
  induction cycles as [|cycles IH];
    (eapply triple_bind; [apply triple_plan| |by intros e st [? _]]; intros plan).
  { by apply triple_ret; intros st [? _]. }
  destruct (plan_status callbacks plan); [by apply triple_ret; intros st [? _]|].
  eapply triple_bind with (R := fun _ st => started st /\ undoubled st); [| |done].
  - intros w [[Hst Ho] H]. destruct (H plan eq_refl) as [Hs Hp]. by apply triple_planned_actions.
  - intros [result|]; [by apply triple_ret|exact IH].
Qed.
End Claimed.

Lemma triple_resume service heard uuid run_id max_cycles :
  triple env (fun st => started st /\ undoubled st)
    (resume service heard uuid sid oid owner run_id callbacks max_cycles)
    (fun _ st => started st /\ undoubled st).
Proof.
  unfold resume. apply triple_lift; [|done]. intros resource Hresource.
  destruct (negb _); [by apply triple_raise|].
  eapply triple_bind; [apply (triple_acquired env Henv base undoubled); auto| |by intros e st [? _]].
  intros [lease|].
  - intros w [Hst Hgot]. destruct (Hgot lease eq_refl) as (n & st1 & st2 & _ & Ha).
    pose proof (acquired_claim _ _ _ _ _ _ _ _ _ Hresource Ha) as Hlease. revert w Hst Hgot.
    assert (Hgoal : triple env (fun st => started st /\ undoubled st)
      (finally (resume_claimed service lease heard uuid max_cycles sid oid callbacks run_id)
         (release_async lease)) (fun _ st => started st /\ undoubled st)).
    { eapply triple_finally; [by apply triple_resume_claimed|]. intros r.
      eapply triple_weaken; [apply (triple_release env Henv base undoubled); auto|done|].
      intros [u|e] st H; exact H. }
    intros w Hst _. by apply Hgoal.
  - eapply (triple_weaken _ (fun st => started st /\ undoubled st)); [|by intros st [? _]|intros r st H; exact H].
    eapply triple_bind; [apply triple_plan| |by intros e st [? _]].
    intros plan. by apply triple_ret; intros st [? _].
Qed.
End Cycles.


(** * Plans that cannot be carried out

    Two plans that the reducer refuses whoever carries them out: reconciling a tool whose
    dispatch was interrupted, and finishing an operation with a consumed approval. *)

(** ** Plans that the reducer refuses *)

(** One event that the reducer refuses refuses the commit. *)
Lemma refused_spec now events s ty data :
  replay_operation events = Ok s ->
  (forall e base, oe_type e = ty -> oe_data e = data -> is_ok (apply_operation_event s base e) = false) ->
  is_ok (replay_operation_with_specs now events [(ty, data)]) = false.
Proof.
  intros Hs He. unfold replay_operation_with_specs. rewrite Hs. cbn [rbind foldM]. unfold reduce_spec.
  cbn [fst snd]. unfold operation_event.
  destruct (negb _); [done|]. destruct (_ <? _); [done|]. cbn [rbind].
  set (e := mkOperationEvent _ _ _ _ _ _).
  destruct (reduce_operation_event (Some s) e) as [s'|] eqn:Hr; [|done]. apply reduce_apply in Hr.
  specialize (He e (op_with_sequence (oe_sequence e) s) eq_refl eq_refl). by rewrite Hr in He.
Qed.

(** An interrupted tool cannot be reconciled.  A tool that was dispatched, whose
    process died, and that is not safe to repeat is planned for reconciliation, but the
    event that opens a reconciliation is refused by the reducer as long as the tool's
    outcome was not recorded as unknown, whatever its log holds besides: the commit
    fails before the callback is asked. *)
Theorem interrupted_dispatch_cannot_be_reconciled now events s id t lease :
  replay_operation events = Ok s -> dget id (op_tools s) = Some t ->
  ti_phase t = TiDispatchStarted -> ti_replay_policy t <> "safe" ->
  ra_kind (tool_action t) = ReconcileTool /\
  is_ok (replay_operation_with_specs now events
    [("tool_reconcile_started", [tool_id_field (tool_action t); recovered_field; token_field lease])])
  = false.
Proof.
  intros Hs Ht Hp Hsafe. apply String.eqb_neq in Hsafe.
  assert (Ha : tool_action t = tool_recovery_action t ReconcileTool
                 "工具已进入 Dispatch 且不可安全重放" None)
    by (unfold tool_action; by rewrite Hp, Hsafe).
  rewrite Ha. split; [done|]. eapply refused_spec; [exact Hs|]. intros e base Hty Hd.
  rewrite apply_reconcile, Hd by done. unfold on_tool_reconcile_started, event_text. cbn.
  rewrite (fw_tool_id _ (replay_facts_wf _ _ Hs) _ _ Ht).
  destruct (nonempty id); [|done]. cbn [rbind]. unfold lookup_tool. rewrite Ht. cbn [rbind].
  by rewrite Hp.
Qed.

(** An operation cannot be finished once an approval of it is consumed and its
    resumption was never registered.  The planner skips such approvals, and finishes the
    operation when nothing else is left; the reducer refuses to finish it. *)
Theorem consumed_approval_cannot_be_finished now events s p outcome :
  replay_operation events = Ok s -> p ∈ dvalues (op_approvals s) ->
  ap_state p = ApConsumed -> ap_resume_state p = RsUnregistered ->
  approval_actions p = Ok [] /\
  is_ok (replay_operation_with_specs now events
    [("operation_finished", [("outcome", VStr outcome)])]) = false.
Proof.
  intros Hs Hin Hp Hres. split; [unfold approval_actions; by rewrite Hp, Hres|].
  eapply refused_spec; [exact Hs|]. intros e base Hty Hd. unfold apply_operation_event.
  rewrite Hty, Hd. cbn. unfold on_operation_finished.
  destruct (ensure (negb _) _); [|done]. cbn [rbind].
  destruct (transcript_to_log_error _); [|done]. cbn [rbind].
  cbn. destruct (outcome_phase_of outcome); [|done].
  assert (Hne : validate_operation_terminal_facts s = log_error "Operation 不能掩盖未决持久事实").
  { unfold validate_operation_terminal_facts. rewrite bool_decide_eq_false_2; [done|].
    intros [_ [_ Hnil]%app_eq_nil]%app_eq_nil. unfold unresolved_approvals in Hnil.
    apply map_eq_nil in Hnil. pose proof (proj1 (filter_nil_elem _ _) Hnil p Hin) as Hf. cbn in Hf. by rewrite Hp in Hf. }
  by rewrite Hne.
Qed.
