(* ===== verification/Startup.v ===== *)
(** * Recovery when a process starts  (src/.../harness/startup_recovery.py)

    Every operation of the session is looked at before anything is recovered; only if
    none of them stands in the way are the unfinished ones resumed, one after another.
    The autonomous worker that resumes planned turns is a parameter.  The counters and
    durations handed to the telemetry are left out: nothing reads them back. *)

From S2P Require Import Prelude PyDict Text PyVal ModelPolicy.
From S2P Require Import OperationTypes OperationReducer OperationStore Service.
From S2P Require Import Recovery RecoveryService.
From stdpp Require Import gmap sets strings.
From Stdlib Require Import String.

#[local] Open Scope string_scope.
#[local] Open Scope bool_scope.
#[local] Open Scope Z_scope.

(** ** The report *)

Record StartupRecoveryReport := mkReport {
  sr_completed : list string;
  sr_waiting_approval : list string;
  sr_ready_to_resume : list string;
  sr_manual_intervention : list string;
  sr_failed : list string;
  sr_auto_recoverable : list string
}.

(** [tuple(dict.fromkeys(ids))] *)
Definition from_keys (ids : list string) : list string :=
  dkeys (fold_left (fun d id => dset id tt d) ids []).

Definition blocking_operation_ids (r : StartupRecoveryReport) : list string :=
  from_keys (sr_ready_to_resume r ++ sr_manual_intervention r ++ sr_failed r)%list.

Definition blocked (r : StartupRecoveryReport) : bool :=
  negb (bool_decide (blocking_operation_ids r = [])).

Definition hard_blocking_operation_ids (r : StartupRecoveryReport) : list string :=
  from_keys (sr_manual_intervention r ++ sr_failed r)%list.

Definition hard_blocked (r : StartupRecoveryReport) : bool :=
  negb (bool_decide (hard_blocking_operation_ids r = [])).

(** The list of the report an operation is put on *)
Inductive Bucket := Completed | Waiting | Ready | Manual | Failed | Automatic.

#[export] Instance Bucket_eq_dec : EqDecision Bucket.
Proof. solve_decision. Defined.

Definition in_bucket (b : Bucket) (found : list (string * Bucket)) : list string :=
  map fst (List.filter (fun p => bool_decide (snd p = b)) found).

(** The report of what was found, in the order of the operations *)
Definition report_of (found : list (string * Bucket)) : StartupRecoveryReport :=
  mkReport (in_bucket Completed found) (in_bucket Waiting found) (in_bucket Ready found)
    (in_bucket Manual found) (in_bucket Failed found) (in_bucket Automatic found).

(** ** Reading an operation's log *)

(** [_group_events]: operations in the order of their first events *)
Definition Groups : Type := list (string * string * list OperationEvent).

Fixpoint add_to_group (e : OperationEvent) (groups : Groups) : Groups :=
  match groups with
  | [] => [(oe_session_id e, oe_operation_id e, [e])]
  | (sid, oid, events) :: groups' =>
      if String.eqb sid (oe_session_id e) && String.eqb oid (oe_operation_id e)
      then (sid, oid, events ++ [e])%list :: groups'
      else (sid, oid, events) :: add_to_group e groups'
  end.

Definition group_operation_events (events : list OperationEvent) : Groups :=
  fold_left (fun groups e => add_to_group e groups) events [].

(** [_autonomous_marker] *)
Definition autonomous_marker (configuration : pydict) : res (option (string * string)) :=
  match jget configuration "autonomousTurn" with
  | VDict marker =>
      match jget marker "planId", jget marker "runId" with
      | VStr plan_id, VStr run_id =>
          if nonempty plan_id && nonempty run_id then Ok (Some (plan_id, run_id))
          else Err ValueError
      | _, _ => Err ValueError
      end
  | _ => Ok None
  end.

(** The approvals that events of these types name *)
Definition named_approvals (types : list string) (events : list OperationEvent)
  : res (list string) :=
  mapR (fun e => py_str (jget (oe_data e) "approvalId"))
    (List.filter (fun e => mem_str (oe_type e) types
                           && truthy (jget (oe_data e) "approvalId")) events).

(** [_has_actionable_approval_resume] *)
Definition has_actionable_approval_resume (events : list OperationEvent) (s : OperationState)
  : res bool :=
  let! registered := named_approvals ["approval_resume_registered"] events in
  let! terminal := named_approvals ["approval_resume_completed"; "approval_resume_failed";
                                    "approval_resume_cancelled"] events in
  Ok (existsb (fun id =>
        negb (mem_str id terminal)
        && match dget id (op_approvals s) with
           | Some a => one_of (ap_state a) [ApApproved; ApConsumed; ApResumeStarted]
                       || bool_decide (ap_resume_state a = RsStarted)
           | None => false
           end) registered).

Definition track_uncertain (uncertain : gset string) (e : OperationEvent) : gset string :=
  match jget (oe_data e) "writeId" with
  | VStr id =>
      if negb (nonempty id) then uncertain
      else if mem_str (oe_type e) ["write_submitting"; "write_outcome_unknown";
             "write_reconciling"; "write_reconcile_failed"; "write_reconcile_deferred"]
      then {[ id ]} ∪ uncertain
      else if mem_str (oe_type e) ["write_succeeded"; "write_failed"]
      then uncertain ∖ {[ id ]} else uncertain
  | _ => uncertain
  end.

(** [_legacy_terminal_uncertain_write_ids], as a set: its order is never looked at *)
Definition legacy_terminal_uncertain_write_ids (events : list OperationEvent) : gset string :=
  if existsb (fun e => String.eqb (oe_type e) "operation_finished") events
  then fold_left track_uncertain (sort_by oe_sequence events) ∅ else ∅.

(** What is wrong with a log that does not replay *)
Definition unreadable (events : list OperationEvent) : Bucket :=
  if bool_decide (legacy_terminal_uncertain_write_ids events = ∅) then Failed else Manual.

Definition has_uncertain_write (s : OperationState) : bool :=
  existsb (fun w => one_of (wr_state w) [WrSubmitting; WrOutcomeUnknown; WrReconciling])
    (dvalues (op_writes s)).

(** ** Looking at every operation *)

(** Where the kinds of action of a plan put its operation *)
Definition plan_bucket (kinds : list RecoveryKind) : Bucket :=
  let meets (other : list RecoveryKind) := existsb (fun k => one_of k other) kinds in
  if bool_decide (kinds = []) then Automatic
  else if meets [ManualIntervention; ReconcileWrite] then Manual
  else if meets [ReconcileTool] then Manual
  else if meets [ConsumeApproval; ExecuteTool; ResumeApprovedWrite] then Ready
  else if forallb (fun k => one_of k [WaitForApproval]) kinds then Waiting
  else if forallb (fun k => one_of k [ContinueModel; FinalizeRejectedApproval; FinishOperation;
                                      MaterializeToolResult; ReplaySafeTool; RetryModelRequest])
            kinds
  then Automatic else Manual.

(** One operation of [inspect_all]; none if there is nothing to do *)
Definition inspect_operation (autonomous : bool) (events : list OperationEvent)
  : res (option Bucket) :=
  match replay_operation events with
  | Err e => if is_exception e then Ok (Some (unreadable events)) else Err e
  | Ok s =>
      let! pending_resume := has_actionable_approval_resume events s in
      if has_uncertain_write s then Ok (Some Manual) else
      if pending_resume then Ok (Some Ready) else
      if terminal_phase (op_phase s) then Ok None else
      let! marker := autonomous_marker (op_configuration s) in
      match marker with
      | Some _ => Ok (Some (if autonomous then Automatic else Ready))
      | None =>
          let! plan := plan_recovery s in
          Ok (Some (plan_bucket (map ra_kind (rp_actions plan))))
      end
  end.

Fixpoint inspect_groups (autonomous : bool) (groups : Groups) : res (list (string * Bucket)) :=
  match groups with
  | [] => Ok []
  | (_, oid, events) :: groups' =>
      let! b := inspect_operation autonomous events in
      let! found := inspect_groups autonomous groups' in
      Ok match b with Some b => (oid, b) :: found | None => found end
  end.

Record StartupRecoveryCoordinator := mkCoordinator {
  sc_session_id : option string;
  sc_recovery : DurableSessionRecovery;
  sc_callbacks : RecoveryCallbacks;
  sc_autonomous_resume : option (string -> string -> svc string)
}.

(** [inspect_all] *)
Definition inspect_all (c : StartupRecoveryCoordinator) : svc StartupRecoveryReport :=
  await! events := load (sc_session_id c) None in
  await! found := lift (inspect_groups (is_some (sc_autonomous_resume c)) (group_operation_events events)) in
  ret (report_of found).

(** ** Resuming the unfinished ones *)

Definition autonomous_bucket (status : string) : Bucket :=
  if String.eqb status "waiting_approval" then Waiting
  else if mem_str status ["completed"; "failed"; "manual_intervention"] then Completed
  else Failed.

Definition resumed_bucket (status : string) : Bucket :=
  if String.eqb status "completed" then Completed
  else if String.eqb status "waiting_approval" then Waiting
  else if mem_str status ["approval_consumer_required"; "approved_write_runtime_required";
                          "recovery_claimed"] then Ready
  else if mem_str status ["manual_intervention"; "write_reconciliation_required"] then Manual
  else Failed.

(** The call's status, or [Failed] if it raises an exception *)
Definition bucket_of (m : svc Bucket) : svc Bucket :=
  catch m (fun r => match r with
                    | Ok b => ret b
                    | Err e => if is_exception e then ret Failed else raise e
                    end).

Section Recovering.
Context (c : StartupRecoveryCoordinator).
(** What the heartbeats hear, and the fresh identifiers of requests, of claim owners
    and of recoveries *)
Context (heard : nat -> bool) (uuid owner run : nat -> string).

Definition drawn_id (ids : nat -> string) : svc string := fun _ w => (Ok (ids (w_access w)), w).

(** One operation of [_recover_all_inspected] *)
Definition recover_operation (sid oid : string) (events : list OperationEvent)
  : svc (option Bucket) :=
  match replay_operation events with
  | Err e => if is_exception e then ret (Some (unreadable events)) else raise e
  | Ok s =>
      if terminal_phase (op_phase s)
      then ret (if has_uncertain_write s then Some Manual else None) else
      await! marker := lift (autonomous_marker (op_configuration s)) in
      match marker, sc_autonomous_resume c with
      | Some _, None => ret (Some Ready)
      | Some (plan_id, run_id), Some autonomous =>
          await! b := bucket_of (await! status := autonomous plan_id run_id in
                                 ret (autonomous_bucket status)) in
          ret (Some b)
      | None, _ =>
          await! b := bucket_of (await! owner_token := drawn_id owner in
                                 await! run_id := drawn_id run in
                                 await! result := resume (sc_recovery c) heard uuid sid oid
                                                    owner_token run_id (sc_callbacks c) 20 in
                                 ret (resumed_bucket (rr_status result))) in
          ret (Some b)
      end
  end.

Fixpoint recover_groups (groups : Groups) : svc (list (string * Bucket)) :=
  match groups with
  | [] => ret []
  | (sid, oid, events) :: groups' =>
      await! b := recover_operation sid oid events in
      await! found := recover_groups groups' in
      ret match b with Some b => (oid, b) :: found | None => found end
  end.

(** [_recover_all_inspected] *)
Definition recover_all_inspected : svc StartupRecoveryReport :=
  await! events := load (sc_session_id c) None in
  await! found := recover_groups (group_operation_events events) in
  ret (report_of found).

(** [recover_all] *)
Definition startup_recover_all : svc StartupRecoveryReport :=
  await! inspection := inspect_all c in
  if blocked inspection then ret inspection else recover_all_inspected.
End Recovering.
