(* ===== verification/StartupSafety.v ===== *)
(** * What recovery at start-up may do

    Nothing is resumed past an operation that was uncertain or unsafe when it was read:
    either the start-up only reads and reports, or there was none. *)

From S2P Require Import Prelude PyDict Text PyVal ModelPolicy.
From S2P Require Import OperationTypes OperationReducer OperationStore OperationLog Service.
From S2P Require Import Recovery RecoveryPlanning RecoveryService Startup.
From stdpp Require Import gmap sets strings.
From Stdlib Require Import String.

#[local] Open Scope string_scope.
#[local] Open Scope bool_scope.
#[local] Open Scope Z_scope.

(** ** Grouping *)

Fixpoint group_lookup (sid oid : string) (groups : Groups) : option (list OperationEvent) :=
  match groups with
  | [] => None
  | (s, o, events) :: groups' =>
      if String.eqb s sid && String.eqb o oid then Some events else group_lookup sid oid groups'
  end.

Lemma group_lookup_in sid oid groups events :
  group_lookup sid oid groups = Some events -> (sid, oid, events) ∈ groups.
Proof.
  induction groups as [|[[s o] l] groups IH]; [done|]. cbn. destruct (_ && _) eqn:Hm.
  - apply andb_true_iff in Hm as [->%String.eqb_eq ->%String.eqb_eq]. intros [= ->]. by left.
  - intros H. right. by apply IH.
Qed.

Lemma lookup_add_to_group sid oid e groups :
  group_lookup sid oid (add_to_group e groups)
  = if in_operation sid oid e
    then Some match group_lookup sid oid groups with Some l => l ++ [e] | None => [e] end%list
    else group_lookup sid oid groups.
Proof.
  unfold in_operation. induction groups as [|[[s o] l] groups IH]; cbn; [by case_match|].
  destruct (String.eqb_spec s (oe_session_id e)) as [Es|Es],
    (String.eqb_spec o (oe_operation_id e)) as [Eo|Eo]; cbn [andb group_lookup];
    rewrite ?IH; clear IH; try subst s; try subst o.
  - by destruct (_ && _).
  - destruct (String.eqb_spec o oid) as [->|]; rewrite ?andb_true_r, ?andb_false_r; [|done].
    destruct (String.eqb_spec (oe_operation_id e) oid) as [<-|]; [done|].
    by rewrite andb_false_r.
  - destruct (String.eqb_spec s sid) as [->|]; cbn [andb]; [|done].
    destruct (String.eqb_spec (oe_session_id e) sid) as [<-|]; [done|]. cbn [andb].
    by destruct (String.eqb _ _).
  - destruct (String.eqb_spec s sid) as [->|]; cbn [andb]; [|done].
    destruct (String.eqb_spec (oe_session_id e) sid) as [<-|]; [done|]. cbn [andb].
    by destruct (String.eqb _ _).
Qed.

(** The groups are the operations' own logs. *)
Lemma group_events_lookup sid oid events :
  group_lookup sid oid (group_operation_events events)
  = match List.filter (in_operation sid oid) events with [] => None | l => Some l end.
Proof.
  unfold group_operation_events. induction events as [|e events IH] using rev_ind; [done|].
  rewrite fold_left_app, List.filter_app. cbn. rewrite lookup_add_to_group, IH.
  destruct (in_operation sid oid e); [|by rewrite app_nil_r].
  by destruct (List.filter _ events).
Qed.

(** What a session's load holds of one of its operations *)
Definition in_session (session : option string) (sid : string) : Prop :=
  match session with Some s => s = sid | None => True end.

Lemma load_operation st session sid oid :
  in_session session sid ->
  List.filter (in_operation sid oid) (store_load st session None) = operation_log st sid oid.
Proof.
  intros Hs. rewrite operation_log_filter. unfold store_load.
  induction (st_events st) as [|e l IH]; [done|]. cbn [List.filter].
  destruct (in_operation sid oid e) eqn:He.
  - assert (Hin : match session with Some i => String.eqb (oe_session_id e) i | None => true end
                  = true).
    { destruct session as [i|]; [|done]. cbn in Hs. subst i. unfold in_operation in He.
      by apply andb_true_iff in He as [? _]. }
    rewrite Hin. cbn. by rewrite He, IH.
  - destruct (_ && _); [|exact IH]. cbn. by rewrite He.
Qed.

(** ** Looking before anything is resumed *)

(** An operation that other recoveries may go past: its log replays, no write of it may
    have been submitted without a known outcome, and what is left of it, unless an
    autonomous worker takes it, neither executes nor reconciles anything that has an
    effect. *)
Definition harmless_operation (autonomous : bool) (events : list OperationEvent) : Prop :=
  exists s, replay_operation events = Ok s /\
    (forall w, w ∈ dvalues (op_writes s) -> wr_state w ∉ uncertain_states) /\
    (terminal_phase (op_phase s) = true \/
     autonomous = true /\ autonomous_marker (op_configuration s) <> Ok None \/
     exists plan, plan_recovery s = Ok plan /\
       forall a, a ∈ rp_actions plan ->
         ra_kind a ∈ [WaitForApproval; ContinueModel; FinalizeRejectedApproval; FinishOperation;
                      MaterializeToolResult; ReplaySafeTool; RetryModelRequest]).

Definition blocks (b : Bucket) : bool := one_of b [Ready; Manual; Failed].

Lemma no_uncertain_write s :
  has_uncertain_write s = false ->
  forall w, w ∈ dvalues (op_writes s) -> wr_state w ∉ uncertain_states.
Proof.
  intros H w Hw Hst. unfold has_uncertain_write in H. rewrite existsb_elem in H.
  specialize (H w Hw). apply one_of_spec in Hst. unfold uncertain_states in Hst. congruence.
Qed.

Lemma harmless_kinds kinds k :
  blocks (plan_bucket kinds) = false -> k ∈ kinds ->
  k ∈ [WaitForApproval; ContinueModel; FinalizeRejectedApproval; FinishOperation;
       MaterializeToolResult; ReplaySafeTool; RetryModelRequest].
Proof.
  intros H Hk. unfold plan_bucket in H.
  destruct (bool_decide_reflect (kinds = [])) as [->|_]; [by apply elem_of_nil in Hk|].
  destruct (existsb _ kinds); [done|]. destruct (existsb _ kinds); [done|].
  destruct (existsb _ kinds); [done|].
  destruct (forallb _ kinds) eqn:Hw; [|destruct (forallb _ kinds) eqn:Ha in H; [|done]].
  - rewrite forallb_forall in Hw. apply list_elem_of_In, Hw, one_of_spec in Hk. set_solver.
  - rewrite forallb_forall in Ha. apply list_elem_of_In, Ha, one_of_spec in Hk. set_solver.
Qed.

Lemma inspect_harmless autonomous events b :
  inspect_operation autonomous events = Ok b ->
  (forall b', b = Some b' -> blocks b' = false) -> harmless_operation autonomous events.
Proof.
  unfold inspect_operation. intros H Hb. destruct (replay_operation events) as [s|e] eqn:Hs.
  2:{ destruct (is_exception e); [|done]. injection H as <-. specialize (Hb _ eq_refl).
      unfold unreadable in Hb. by destruct (bool_decide _). }
  exists s. split; [done|]. destruct (has_actionable_approval_resume events s) as [p|]; [|done].
  cbn [rbind] in H. destruct (has_uncertain_write s) eqn:Hu.
  { injection H as <-. by specialize (Hb _ eq_refl). }
  split; [by apply no_uncertain_write|]. destruct p; [injection H as <-; by specialize (Hb _ eq_refl)|].
  destruct (terminal_phase _); [by left|right].
  destruct (autonomous_marker _) as [m|]; [|done]. cbn [rbind] in H. destruct m as [m|].
  - left. injection H as <-. specialize (Hb _ eq_refl). by destruct autonomous.
  - right. destruct (plan_recovery s) as [plan|]; [|done]. exists plan. split; [done|].
    cbn [rbind] in H. injection H as <-. specialize (Hb _ eq_refl).
    intros a Ha. apply (harmless_kinds (map ra_kind (rp_actions plan))); [done|].
    by apply list_elem_of_fmap_2.
Qed.

Lemma inspect_groups_each autonomous groups found sid oid events :
  inspect_groups autonomous groups = Ok found -> (sid, oid, events) ∈ groups ->
  exists b, inspect_operation autonomous events = Ok b /\
    forall b', b = Some b' -> (oid, b') ∈ found.
Proof.
  revert found. induction groups as [|[[s o] l] groups IH]; intros found H Hin;
    [by apply elem_of_nil in Hin|]. cbn in H.
  destruct (inspect_operation autonomous l) as [b|] eqn:Hb; [|done]. cbn [rbind] in H.
  destruct (inspect_groups autonomous groups) as [rest|]; [|done]. cbn [rbind] in H.
  injection H as <-. apply elem_of_cons in Hin as [[= -> -> ->]|Hin].
  - exists b. split; [done|]. intros b' ->. by left.
  - destruct (IH rest eq_refl Hin) as (b1 & Hb1 & Hin1). exists b1. split; [done|].
    intros b' Hb'. specialize (Hin1 b' Hb'). destruct b; [by right|done].
Qed.

Lemma from_keys_nil ids : from_keys ids = [] -> ids = [].
Proof.
  unfold from_keys. destruct ids as [|id ids]; [done|]. cbn. intros H.
  assert (Hne : forall l (d : dict unit), d <> [] -> fold_left (fun d id => dset id tt d) l d <> []).
  { induction l as [|x l IH]; intros d Hd; [done|]. cbn. apply IH.
    by destruct d as [|[k v] d]; cbn; [|destruct (String.eqb _ _)]. }
  apply map_eq_nil in H. by apply Hne in H.
Qed.

Lemma unblocked found oid b :
  blocked (report_of found) = false -> (oid, b) ∈ found -> blocks b = false.
Proof.
  unfold blocked. intros H%negb_false_iff%bool_decide_eq_true Hin.
  apply from_keys_nil in H. apply app_eq_nil in H as [Hr [Hm Hf]%app_eq_nil]. cbn in Hr, Hm, Hf.
  assert (Hno : forall b', in_bucket b' found = [] -> b <> b').
  { intros b' Hnil ->. apply map_eq_nil in Hnil. rewrite filter_nil_elem in Hnil.
    specialize (Hnil _ Hin). by rewrite bool_decide_true in Hnil. }
  apply Hno in Hr, Hm, Hf. by destruct b.
Qed.

(** C22. Nothing is resumed past an operation that stands in the way.  Either the
    recovery at start-up only reads: it leaves the store to the other workers, its report
    (if it returns one) says that it is blocked, and its outcome would have been the same
    whatever the callbacks and the autonomous worker; or every operation of the session
    was harmless when it was read: its log replays, none of its writes may have taken
    effect without a known outcome, and, unless it is finished or left to an autonomous
    worker, its plan neither executes, reconciles nor resumes anything with an effect. *)
Theorem nothing_is_resumed_past_an_unsafe_operation c heard uuid owner run env w :
  let st := run_store_calls (w_store w) (tk_calls (env (w_access w))) in
  let out := startup_recover_all c heard uuid owner run env w in
  (w_store (snd out) = st /\
   (forall report, fst out = Ok report -> blocked report = true) /\
   forall callbacks autonomous, is_some autonomous = is_some (sc_autonomous_resume c) ->
     startup_recover_all (mkCoordinator (sc_session_id c) (sc_recovery c) callbacks autonomous)
       heard uuid owner run env w = out) \/
  (forall sid oid, in_session (sc_session_id c) sid -> operation_log st sid oid <> [] ->
     harmless_operation (is_some (sc_autonomous_resume c)) (operation_log st sid oid)).
Proof.
  intros st out.
  assert (Hsame : forall callbacks autonomous,
    is_some autonomous = is_some (sc_autonomous_resume c) ->
    inspect_all (mkCoordinator (sc_session_id c) (sc_recovery c) callbacks autonomous) env w
    = inspect_all c env w) by (intros callbacks autonomous Ha; unfold inspect_all; cbn; by rewrite Ha).
  assert (Hstore : w_store (snd (inspect_all c env w)) = st).
  { unfold inspect_all, bind, load, access. destruct (tk_cancelled _) as [[]|]; cbn; try done.
    by destruct (inspect_groups _ _). }
  unfold out, startup_recover_all, bind in *.
  destruct (inspect_all c env w) as [[report|e] w1] eqn:Hi.
  2:{ left. split; [exact Hstore|]. split; [done|]. intros callbacks autonomous Ha. by rewrite Hsame. }
  destruct (blocked report) eqn:Hb.
  { left. split; [exact Hstore|]. split; [by intros r [= <-]|].
    intros callbacks autonomous Ha. by rewrite Hsame, Hb. }
  right. intros sid oid Hsid Hne. unfold inspect_all, bind, load, access in Hi.
  destruct (tk_cancelled _) as [[]|]; [done..|]. cbn in Hi. fold st in Hi.
  destruct (inspect_groups _ _) as [found|] eqn:Hf; [|done]. cbn in Hi. injection Hi as <- _.
  destruct (inspect_groups_each _ _ _ sid oid (operation_log st sid oid) Hf) as (b & Hb1 & Hin).
  { apply group_lookup_in. rewrite group_events_lookup, load_operation by done.
    by destruct (operation_log st sid oid). }
  apply (inspect_harmless _ _ b Hb1). intros b' Hb'. eapply unblocked; [exact Hb|by apply Hin].
Qed.
