(* ===== verification/RecoveryExamples.v ===== *)
(** * A recovery at work

    An operation that died after a tool's intent was recorded, and one that died after
    its dispatch, recovered while another worker keeps starting an operation of its own.
    The theorems about recoveries are applied here. *)

From S2P Require Import Prelude PyDict Text PyVal ModelPolicy.
From S2P Require Import OperationTypes OperationReducer OperationLifecycle OperationSafety.
From S2P Require Import OperationStore OperationLog Service Approvals WriteExamples.
From S2P Require Import Recovery RecoveryPlanning RecoveryService RecoveryLog.
From S2P Require Import RecoverySteps RecoverySafety.
From S2P Require Import Startup StartupSafety.
From stdpp Require Import pretty.
From Stdlib Require Import String.

#[local] Open Scope string_scope.
#[local] Open Scope bool_scope.
#[local] Open Scope Z_scope.

(** ** The worlds *)

Definition asked : EventSpec :=
  ("message_appended", [("message", VDict [("role", VStr "user"); ("content", VStr "hi")])]).
Definition said (m : pydict) : EventSpec := ("message_appended", [("message", VDict m)]).
Definition call_message : pydict :=
  [("role", VStr "assistant"); ("stopReason", VStr "toolUse");
   ("content", VList [VDict [("type", VStr "toolCall"); ("id", VStr "t-1");
                             ("name", VStr "lookup"); ("arguments", VDict [])]])].
Definition model_answer : pydict :=
  [("role", VStr "assistant"); ("stopReason", VStr "stop"); ("content", VList [])].
Definition intended (replay : string) : EventSpec :=
  ("tool_intent_recorded", [("toolCallId", VStr "t-1"); ("toolName", VStr "lookup");
     ("arguments", VDict []); ("replayPolicy", VStr replay)]).
Definition dispatched_event : EventSpec := ("tool_dispatch_started", [("toolCallId", VStr "t-1")]).
Definition silent_policy : ModelRequestPolicy :=
  match no_tools with Ok p => p | Err _ => sample_policy end.

Definition call_specs : list EventSpec :=
  [("operation_started", []);
   ("model_policy_selected", [("policy", VDict (policy_to_dict silent_policy))]);
   asked; said call_message; intended "never"].
Definition store_of (specs : list EventSpec) : Store :=
  run_store_call empty_store 0 0 (CallAppend "s" "o" specs (Some (-1)) None).
Definition call_world : World := mkWorld (store_of call_specs) 0.
Definition dispatched_world : World := mkWorld (store_of (call_specs ++ [dispatched_event])) 0.

(** A store whose events are those of one replayable operation *)
Lemma single_good st sid oid s :
  reachable st -> forallb (in_operation sid oid) (st_events st) = true ->
  replay_operation (operation_log st sid oid) = Ok s -> good st.
Proof.
  intros Hr Hall Hs. split; [done|]. intros sid' oid' Hne.
  destruct (decide ((sid', oid') = (sid, oid))) as [[= -> ->]|Hother]; [by eexists|].
  destruct Hne. rewrite operation_log_filter. apply filter_nil_elem. intros e He.
  rewrite forallb_forall in Hall. apply list_elem_of_In in He. apply Hall in He.
  unfold in_operation in *. apply andb_true_iff in He as [Hs1%String.eqb_eq Ho1%String.eqb_eq].
  rewrite Hs1, Ho1. apply andb_false_iff.
  destruct (String.eqb_spec sid sid') as [->|]; [right|by left]. apply String.eqb_neq. congruence.
Qed.

Lemma store_of_reachable specs : reachable (store_of specs).
Proof.
  apply (run_calls_reachable _ [(0, 0, CallAppend "s" "o" specs (Some (-1)) None)]). by exists [].
Qed.

Lemma call_good : good (w_store call_world).
Proof.
  eapply (single_good _ "s" "o"); [apply store_of_reachable|vm_compute; reflexivity..].
Qed.

Lemma busy_leaves_dispatches : leaves_dispatches busy_env "s" "o".
Proof.
  intros n st _. simpl.
  destruct (append_batch _ _ _ _ _ _ _) as [[new st']|] eqn:Ha; [|done]. simpl.
  apply append_batch_exact, append_events_exact in Ha as (_ & _ & _ & Hnew & Hev).
  rewrite Hnew in Hev. eapply quiet_append; [exact Hev|right; by constructor].
Qed.

(** ** The callbacks *)

Definition lookup_message : pydict :=
  [("role", VStr "toolResult"); ("toolCallId", VStr "t-1"); ("toolName", VStr "lookup");
   ("content", VList []); ("isError", VBool false)].
Definition obliging : RecoveryCallbacks :=
  mkCallbacks (fun _ _ => ret model_answer) (fun _ => ret (VDict lookup_message))
    (fun _ => ret (VDict lookup_message)) None None None None.

Lemma polite_ret {A} env sid oid permitted (v : A) : polite env sid oid permitted (ret v).
Proof. by intros w Hg _. Qed.

Lemma obliging_polite env sid oid owner start : polite_callbacks env sid oid owner start obliging.
Proof. split; intros; first [apply polite_ret|done]. Qed.

Definition recoverer : DurableSessionRecovery := mkRecovery 30 false true.
Definition recover_operation_o (c : RecoveryCallbacks) (env : Env) (w : World)
  : res RecoveryExecutionResult * World :=
  resume recoverer (fun _ => false) pretty "s" "o" "worker" "run" c 5 env w.

(** ** The theorems at work *)

Lemma planned_actions_are_justified_witness :
  exists s plan,
    replay_operation (operation_log (w_store call_world) "s" "o") = Ok s /\
    plan_recovery s = Ok plan /\ map ra_kind (rp_actions plan) = [ExecuteTool] /\
    Forall (fun a => justified s a /\ in_order s a) (rp_actions plan).
Proof.
  do 2 eexists. split; [vm_compute; reflexivity|]. split; [vm_compute; reflexivity|].
  split; [vm_compute; reflexivity|].
  eapply (planned_actions_are_justified (operation_log (w_store call_world) "s" "o"));
    vm_compute; reflexivity.
Defined.


Lemma interrupted_dispatch_cannot_be_reconciled_witness :
  exists s t,
    replay_operation (operation_log (w_store dispatched_world) "s" "o") = Ok s /\
    dget "t-1" (op_tools s) = Some t /\ ra_kind (tool_action t) = ReconcileTool.
Proof.
  do 2 eexists. split; [vm_compute; reflexivity|]. split; [vm_compute; reflexivity|].
  eapply (interrupted_dispatch_cannot_be_reconciled 0
            (operation_log (w_store dispatched_world) "s" "o") _ "t-1" _ (mkLease "" "" "" 1));
    [vm_compute; reflexivity..|]. vm_compute. discriminate.
Defined.

(** Whatever its callbacks would answer, that recovery fails. *)
Lemma interrupted_dispatch_fails c :
  exists m, fst (recover_operation_o c busy_env dispatched_world) = Err (OperationLogInvariantError m).
Proof. destruct c. eexists. vm_compute. reflexivity. Qed.

(** The refund that was paid, and its operation's last messages *)
Definition settled_world : World :=
  mkWorld (run_store_call (w_store paid_world) 0 0
             (CallAppend "s" "o" [asked; said model_answer] None None)) 0.

Lemma consumed_approval_cannot_be_finished_witness :
  exists s p,
    replay_operation (operation_log (w_store settled_world) "s" "o") = Ok s /\
    p ∈ dvalues (op_approvals s) /\ approval_actions p = Ok [].
Proof.
  do 2 eexists. split; [vm_compute; reflexivity|]. split; [vm_compute; constructor|].
  eapply (consumed_approval_cannot_be_finished 0
            (operation_log (w_store settled_world) "s" "o") _ _ "completed");
    [vm_compute; reflexivity|vm_compute; constructor|vm_compute; reflexivity..].
Defined.

Lemma settled_write_fails c :
  exists m, fst (recover_operation_o c busy_env settled_world) = Err (OperationLogInvariantError m).
Proof. destruct c. eexists. vm_compute. reflexivity. Qed.

(** Another worker dispatches the tool after the plan was made: the reducer accepts the
    second dispatch of a tool that must not be repeated, and it is executed again. *)
Definition racing_env : Env := fun n =>
  mkTick (if Nat.eqb n 3 then [(0, 0, CallAppend "s" "o" [dispatched_event] None None)] else [])
    0 0 0 None.

Lemma raced_dispatch_is_repeated :
  dispatches "s" "o" (w_store (snd (recover_operation_o obliging racing_env call_world))) "t-1" = 2%nat.
Proof. vm_compute. reflexivity. Qed.

(** ** Starting up *)

Definition quiet_env : Env := fun _ => mkTick [] 0 0 0 None.

(** A session whose only operation waits for the model *)
Definition asking_world : World := mkWorld (store_of (firstn 3 call_specs)) 0.

Definition starter : StartupRecoveryCoordinator :=
  mkCoordinator (Some "s") recoverer obliging (Some (fun _ _ => ret "completed")).
Definition start_up (w : World) : res StartupRecoveryReport * World :=
  startup_recover_all starter (fun _ => false) pretty (fun _ => "worker") (fun _ => "run") quiet_env w.

Lemma asking_completes : (let! r := fst (start_up asking_world) in Ok (sr_completed r)) = Ok ["o"].
Proof. vm_compute. reflexivity. Qed.

(** A tool that was never dispatched is left for its owner: nothing is resumed. *)
Lemma call_blocks_startup :
  (let! r := fst (start_up call_world) in Ok (blocking_operation_ids r)) = Ok ["o"] /\
  w_store (snd (start_up call_world)) = w_store call_world.
Proof. split; vm_compute; reflexivity. Qed.
