(* ===== verification/PlanTypes.v ===== *)
(** * Plan values  (src/.../planning/types.py)

    The value objects of a multi-intent plan: references into earlier results,
    conditions, parameter and result contracts, the trusted policy of an intent,
    steps, plans, approval receipts and the state of an execution.  A constructor
    is its [__post_init__] check followed by the record ([made]); every value has
    its serialisation, and the theorems say what a persisted value restores to. *)

From S2P Require Import Prelude PyDict Text Sha256 PyVal Json DurableAction Canonical.
From Stdlib Require Import String.

#[local] Open Scope string_scope.
#[local] Open Scope bool_scope.
#[local] Open Scope Z_scope.
#[local] Arguments blank : simpl never.

(** ** Checks shared by the constructors *)

(** [if not b: raise PlanValidationError] *)
Definition demand (b : bool) : res unit := if b then Ok tt else Err PlanValidationError.

(** A dataclass constructor: build the record, then run [__post_init__]. *)
Definition made {A : Type} (post_init : A -> res unit) (x : A) : res A :=
  check! post_init x in Ok x.

Lemma demand_Ok b u : demand b = Ok u <-> b = true.
Proof. destruct u, b; split; done. Qed.

Lemma made_Ok {A} (post : A -> res unit) x y : made post x = Ok y <-> y = x /\ post x = Ok tt.
Proof. unfold made. destruct (post x) as [[]|]; simpl; naive_solver. Qed.

(** [_non_empty], [_text], [_integer], [_mapping] *)
Definition non_empty (s : string) : res unit := demand (negb (blank s)).

Definition text (v : pyval) : res string :=
  match v with VStr s => if blank s then Err PlanValidationError else Ok s
             | _ => Err PlanValidationError end.

Definition integer (v : pyval) : res Z :=
  match v with VInt n => Ok n | _ => Err PlanValidationError end.

Definition boolean (v : pyval) : res bool :=
  match v with VBool b => Ok b | _ => Err PlanValidationError end.

Definition mapping (v : pyval) : res pydict :=
  match v with VDict d => Ok d | _ => Err PlanValidationError end.

Definition array (v : pyval) : res (list pyval) :=
  match v with VList l => Ok l | _ => Err PlanValidationError end.

(** [None if v is None else f(v)] *)
Definition optional {A : Type} (f : pyval -> res A) (v : pyval) : res (option A) :=
  match v with VNone => Ok None | _ => let! x := f v in Ok (Some x) end.

Definition option_value {A : Type} (f : A -> pyval) (o : option A) : pyval :=
  match o with Some x => f x | None => VNone end.

(** A list of non-empty strings *)
Definition texts (v : pyval) : res (list string) := let! l := array v in mapR text l.

(** [_strict_json]: [json.dumps(value, allow_nan=False)] succeeds *)
Definition require_json (v : pyval) : res unit := demand (strict_json v).

(** [set(value) == {...}] and its open variant: all of [required], nothing
    besides [required] and [optional]. *)
Definition has_keys (required optional : list string) (d : pydict) : bool :=
  forallb (fun k => dmem k d) required &&
  forallb (fun k => mem_str k (required ++ optional)%list) (dkeys d).

Definition keys_are (keys : list string) (d : pydict) : bool := has_keys keys [] d.

(** [_sha256] *)
Definition is_sha256 (s : string) : bool := (py_len s =? 64) && all_casefold_hex s.

(** [_finite_timestamp]: the float of a finite number *)
Definition finite_timestamp (v : pyval) : res pyfloat :=
  match v with
  | VInt z => match float_of_int z with Some f => Ok f | None => Err OverflowError end
  | VFloat f => if fl_finite f then Ok f else Err PlanValidationError
  | _ => Err PlanValidationError
  end.

(** [_digest] *)
Definition digest (v : pyval) : res string :=
  if strict_json v then Ok (json_digest v) else Err ValueError.

(** ** JSON paths and references to earlier results *)
Inductive path_part : Type :=
| PKey (field : string)
| PIndex (index : Z).

#[export] Instance path_part_eq_dec : EqDecision path_part.
Proof. solve_decision. Defined.

Definition part_to_json (p : path_part) : pyval :=
  match p with PKey s => VStr s | PIndex n => VInt n end.

(** One element of [_validate_json_path] *)
Definition part_of_json (v : pyval) : res path_part :=
  match v with
  | VStr s => if nonempty s then Ok (PKey s) else Err PlanValidationError
  | VInt n => if n <? 0 then Err PlanValidationError else Ok (PIndex n)
  | _ => Err PlanValidationError
  end.

Definition part_ok (p : path_part) : bool :=
  match p with PKey s => nonempty s | PIndex n => 0 <=? n end.

Definition path_to_json (path : list path_part) : pyval := VList (map part_to_json path).
Definition path_of_json (v : pyval) : res (list path_part) :=
  let! l := array v in mapR part_of_json l.

Lemma path_round_trip path :
  forallb part_ok path = true -> path_of_json (path_to_json path) = Ok path.
Proof.
  unfold path_of_json, path_to_json. cbn [array rbind].
  induction path as [|[s|n] path IH]; cbn [forallb part_ok]; [done|..];
    intros [H1 H2]%andb_true_iff; cbn [map mapR part_to_json part_of_json].
  - rewrite H1. cbn [rbind]. by rewrite IH.
  - rewrite (proj2 (Z.ltb_ge _ _)) by lia. cbn [rbind]. by rewrite IH.
Qed.

Record PlanResultReference := mkResultReference {
  rr_step_id : string;
  rr_path : list path_part
}.

(** The same reference in a policy, by intent instead of by step. *)
Record PlanIntentResultReference := mkIntentReference {
  ir_intent : string;
  ir_path : list path_part
}.

#[export] Instance PlanResultReference_eq_dec : EqDecision PlanResultReference.
Proof. solve_decision. Defined.
#[export] Instance PlanIntentResultReference_eq_dec : EqDecision PlanIntentResultReference.
Proof. solve_decision. Defined.

Definition result_reference_ok (r : PlanResultReference) : res unit :=
  check! non_empty (rr_step_id r) in demand (forallb part_ok (rr_path r)).

Definition result_reference_to_dict (r : PlanResultReference) : pydict :=
  [("stepId", VStr (rr_step_id r)); ("path", path_to_json (rr_path r))].

Definition result_reference_from_dict (v : pyval) : res PlanResultReference :=
  let! d := mapping v in
  check! demand (keys_are ["stepId"; "path"] d) in
  let! step_id := text (jget d "stepId") in
  let! path := path_of_json (jget d "path") in
  Ok (mkResultReference step_id path).

Definition intent_reference_ok (r : PlanIntentResultReference) : res unit :=
  check! non_empty (ir_intent r) in demand (forallb part_ok (ir_path r)).

Definition intent_reference_to_dict (r : PlanIntentResultReference) : pydict :=
  [("intent", VStr (ir_intent r)); ("path", path_to_json (ir_path r))].

Definition intent_reference_from_dict (v : pyval) : res PlanIntentResultReference :=
  let! d := mapping v in
  check! demand (keys_are ["intent"; "path"] d) in
  let! intent := text (jget d "intent") in
  let! path := path_of_json (jget d "path") in
  Ok (mkIntentReference intent path).

(** What bindings and conditions need of the references they hold; both kinds of
    reference provide it. *)
Class Reference (R : Type) := {
  ref_ok : R -> res unit;
  ref_to_dict : R -> pydict;
  ref_from_dict : pyval -> res R;
  ref_round_trip : forall r, ref_ok r = Ok tt -> ref_from_dict (VDict (ref_to_dict r)) = Ok r;
  ref_strict : forall r, strict_json (VDict (ref_to_dict r)) = true
}.

Lemma path_strict path : strict_json (path_to_json path) = true.
Proof. simpl. by induction path as [|[] path IH]. Qed.

Lemma text_VStr s : blank s = false -> text (VStr s) = Ok s.
Proof. intros H. simpl. by rewrite H. Qed.

Lemma non_empty_Ok s u : non_empty s = Ok u <-> blank s = false.
Proof. unfold non_empty. rewrite demand_Ok. by destruct (blank s). Qed.

#[export] Program Instance result_reference : Reference PlanResultReference := {|
  ref_ok := result_reference_ok;
  ref_to_dict := result_reference_to_dict;
  ref_from_dict := result_reference_from_dict
|}.
Next Obligation.
  intros [s path] H. unfold result_reference_ok in H. cbn in H. res_inv H.
  apply non_empty_Ok in E. apply demand_Ok in H.
  unfold result_reference_from_dict, result_reference_to_dict. cbn -[path_of_json path_to_json].
  by rewrite E, path_round_trip.
Qed.
Next Obligation. intros r. cbn -[path_to_json]. by rewrite path_strict. Qed.

#[export] Program Instance intent_reference : Reference PlanIntentResultReference := {|
  ref_ok := intent_reference_ok;
  ref_to_dict := intent_reference_to_dict;
  ref_from_dict := intent_reference_from_dict
|}.
Next Obligation.
  intros [s path] H. unfold intent_reference_ok in H. cbn in H. res_inv H.
  apply non_empty_Ok in E. apply demand_Ok in H.
  unfold intent_reference_from_dict, intent_reference_to_dict. cbn -[path_of_json path_to_json].
  by rewrite E, path_round_trip.
Qed.
Next Obligation. intros r. cbn -[path_to_json]. by rewrite path_strict. Qed.

(** ** Comparisons *)
Inductive PlanComparisonOperator : Type :=
| OpEq | OpNe | OpGt | OpGte | OpLt | OpLte | OpIn | OpNotIn | OpTruthy | OpFalsy.

#[export] Instance PlanComparisonOperator_eq_dec : EqDecision PlanComparisonOperator.
Proof. solve_decision. Defined.

Definition operator_str (op : PlanComparisonOperator) : string :=
  match op with
  | OpEq => "eq" | OpNe => "ne" | OpGt => "gt" | OpGte => "gte" | OpLt => "lt"
  | OpLte => "lte" | OpIn => "in" | OpNotIn => "not_in" | OpTruthy => "truthy"
  | OpFalsy => "falsy"
  end.

Definition operators : list PlanComparisonOperator :=
  [OpEq; OpNe; OpGt; OpGte; OpLt; OpLte; OpIn; OpNotIn; OpTruthy; OpFalsy].

(** [_comparison_operator] *)
Definition comparison_operator (v : pyval) : res PlanComparisonOperator :=
  match v with
  | VStr s => match find_first (fun op => String.eqb (operator_str op) s) operators with
              | Some op => Ok op
              | None => Err PlanValidationError
              end
  | _ => Err PlanValidationError
  end.

Lemma operator_round_trip op : comparison_operator (VStr (operator_str op)) = Ok op.
Proof. by destruct op. Qed.

(** [_validate_comparison]; [has_right] is [expected_from is not None]. *)
Definition validate_comparison (op : PlanComparisonOperator) (expected : pyval)
    (has_right : bool) : res unit :=
  check! demand (negb (has_right && negb (is_none expected))) in
  check! demand (negb (match op with OpTruthy | OpFalsy => true | _ => false end
                       && (negb (is_none expected) || has_right))) in
  check! demand (negb (match op with OpIn | OpNotIn => true | _ => false end
                       && negb has_right
                       && negb (match expected with VList _ => true | _ => false end))) in
  require_json expected.

(** ** Bindings and conditions, over either kind of reference *)
Section OverReferences.
Context {R : Type} `{!Reference R}.

Record argument_binding := mkBinding { bn_target : string; bn_source : R }.

Definition binding_ok (b : argument_binding) : res unit :=
  check! ref_ok (bn_source b) in non_empty (bn_target b).

Definition binding_to_dict (b : argument_binding) : pydict :=
  [("target", VStr (bn_target b)); ("source", VDict (ref_to_dict (bn_source b)))].

Definition binding_from_dict (v : pyval) : res argument_binding :=
  let! d := mapping v in
  check! demand (keys_are ["target"; "source"] d) in
  let! source := mapping (jget d "source") in
  let! target := text (jget d "target") in
  let! source := ref_from_dict (VDict source) in
  Ok (mkBinding target source).

Record condition := mkCondition {
  cd_left : R;
  cd_operator : PlanComparisonOperator;
  cd_expected : pyval;
  cd_expected_from : option R
}.

Definition condition_ok (c : condition) : res unit :=
  check! ref_ok (cd_left c) in
  check! match cd_expected_from c with Some r => ref_ok r | None => Ok tt end in
  validate_comparison (cd_operator c) (cd_expected c) (is_some (cd_expected_from c)).

Definition condition_to_dict (c : condition) : pydict :=
  [("left", VDict (ref_to_dict (cd_left c))); ("operator", VStr (operator_str (cd_operator c)));
   ("expected", cd_expected c);
   ("expectedFrom", option_value (fun r => VDict (ref_to_dict r)) (cd_expected_from c))].

Definition condition_from_dict (v : pyval) : res condition :=
  let! d := mapping v in
  check! demand (keys_are ["left"; "operator"; "expected"; "expectedFrom"] d) in
  let! raw_left := mapping (jget d "left") in
  let! from := optional mapping (jget d "expectedFrom") in
  let! left_reference := ref_from_dict (VDict raw_left) in
  let! op := comparison_operator (jget d "operator") in
  let! from := match from with
               | Some r => let! r := ref_from_dict (VDict r) in Ok (Some r)
               | None => Ok None
               end in
  let c := mkCondition left_reference op (jget d "expected") from in
  check! validate_comparison op (cd_expected c) (is_some from) in
  Ok c.

Lemma binding_round_trip b :
  binding_ok b = Ok tt -> binding_from_dict (VDict (binding_to_dict b)) = Ok b.
Proof.
  destruct b as [t s]. unfold binding_ok. cbn. intros H. res_inv H.
  apply non_empty_Ok in H. destruct a. apply ref_round_trip in E.
  unfold binding_from_dict, binding_to_dict. cbn. by rewrite H, E.
Qed.

Lemma condition_round_trip c :
  condition_ok c = Ok tt -> condition_from_dict (VDict (condition_to_dict c)) = Ok c.
Proof.
  destruct c as [l op e f]. unfold condition_ok. cbn [cd_left cd_operator cd_expected
    cd_expected_from]. intros H. res_inv H. destruct a. apply ref_round_trip in E.
  unfold condition_from_dict, condition_to_dict.
  cbn -[comparison_operator validate_comparison]. destruct f as [r|].
  - destruct a0. apply ref_round_trip in E0.
    cbn -[comparison_operator validate_comparison]. rewrite E. cbn [rbind].
    rewrite operator_round_trip. cbn [rbind]. rewrite E0. cbn [rbind]. by rewrite H.
  - cbn -[comparison_operator validate_comparison]. rewrite E. cbn [rbind].
    rewrite operator_round_trip. cbn [rbind is_some] in *. by rewrite H.
Qed.
End OverReferences.
Arguments argument_binding : clear implicits.
Arguments condition : clear implicits.

#[export] Instance argument_binding_eq_dec {R} `{EqDecision R} : EqDecision (argument_binding R).
Proof. solve_decision. Defined.
#[export] Instance condition_eq_dec {R} `{EqDecision R} : EqDecision (condition R).
Proof. solve_decision. Defined.

Abbreviation PlanArgumentBinding := (argument_binding PlanResultReference).
Abbreviation PlanIntentArgumentBinding := (argument_binding PlanIntentResultReference).
Abbreviation PlanCondition := (condition PlanResultReference).
Abbreviation PlanIntentCondition := (condition PlanIntentResultReference).

(** ** Result contracts *)
Record PlanResultRule := mkRule {
  rl_path : list path_part;
  rl_operator : PlanComparisonOperator;
  rl_expected : pyval
}.

#[export] Instance PlanResultRule_eq_dec : EqDecision PlanResultRule.
Proof. solve_decision. Defined.

Definition rule_ok (r : PlanResultRule) : res unit :=
  check! demand (forallb part_ok (rl_path r)) in
  validate_comparison (rl_operator r) (rl_expected r) false.

Definition rule_to_dict (r : PlanResultRule) : pydict :=
  [("path", path_to_json (rl_path r)); ("operator", VStr (operator_str (rl_operator r)));
   ("expected", rl_expected r)].

Definition rule_from_dict (v : pyval) : res PlanResultRule :=
  let! d := mapping v in
  check! demand (keys_are ["path"; "operator"; "expected"] d) in
  let! path := path_of_json (jget d "path") in
  let! op := comparison_operator (jget d "operator") in
  made rule_ok (mkRule path op (jget d "expected")).

(** A contract is the tuple of its rules. *)
Abbreviation PlanResultContract := (list PlanResultRule).

Definition result_contract_ok (c : PlanResultContract) : res unit :=
  check! demand (negb (bool_decide (c = []))) in
  let! _ := mapR rule_ok c in Ok tt.

Definition result_contract_to_dict (c : PlanResultContract) : pydict :=
  [("rules", VList (map (fun r => VDict (rule_to_dict r)) c))].

Definition result_contract_from_dict (v : pyval) : res PlanResultContract :=
  let! d := mapping v in
  check! demand (keys_are ["rules"] d) in
  let! rules := array (jget d "rules") in
  let! rules := mapR rule_from_dict rules in
  check! demand (negb (bool_decide (rules = []))) in
  Ok rules.

Lemma rule_round_trip r : rule_ok r = Ok tt -> rule_from_dict (VDict (rule_to_dict r)) = Ok r.
Proof.
  intros H. pose proof H as H'. destruct r as [p op e]. unfold rule_ok in H'. cbn in H'.
  res_inv H'. apply demand_Ok in E. unfold rule_from_dict, rule_to_dict.
  cbn -[comparison_operator path_of_json path_to_json rule_ok].
  rewrite (path_round_trip p E). cbn [rbind]. rewrite operator_round_trip. cbn [rbind].
  by apply made_Ok.
Qed.

Lemma result_contract_round_trip c :
  result_contract_ok c = Ok tt ->
  result_contract_from_dict (VDict (result_contract_to_dict c)) = Ok c.
Proof.
  unfold result_contract_ok. intros H. res_inv H. apply demand_Ok in E.
  assert (Hm : mapR rule_from_dict (map (fun r => VDict (rule_to_dict r)) c) = Ok c).
  { exact (mapR_map rule_ok _ _ _ _ rule_round_trip E0). }
  unfold result_contract_from_dict, result_contract_to_dict.
  cbn [mapping rbind]. cbn -[rule_from_dict rule_to_dict mapR]. rewrite Hm. cbn [rbind].
  by rewrite E.
Qed.

(** ** Parameter contracts *)
Inductive PlanParameterType : Type :=
| TString | TInteger | TNumber | TBoolean | TObject | TArray | TNull.

#[export] Instance PlanParameterType_eq_dec : EqDecision PlanParameterType.
Proof. solve_decision. Defined.

Definition parameter_type_str (t : PlanParameterType) : string :=
  match t with
  | TString => "string" | TInteger => "integer" | TNumber => "number" | TBoolean => "boolean"
  | TObject => "object" | TArray => "array" | TNull => "null"
  end.

(** [_PLAN_PARAMETER_TYPES], in the order that normalisation uses *)
Definition parameter_types : list PlanParameterType :=
  [TString; TInteger; TNumber; TBoolean; TObject; TArray; TNull].

Definition parameter_type (v : pyval) : res PlanParameterType :=
  match v with
  | VStr s => match find_first (fun t => String.eqb (parameter_type_str t) s) parameter_types with
              | Some t => Ok t
              | None => Err PlanValidationError
              end
  | _ => Err PlanValidationError
  end.

Definition types_mem (t : PlanParameterType) (l : list PlanParameterType) : bool :=
  existsb (fun u => bool_decide (t = u)) l.

Abbreviation parameter_fields := (dict (list PlanParameterType)).

Record PlanParameterContract := mkContract {
  pc_required : parameter_fields;
  pc_optional : parameter_fields;
  pc_allow_empty : bool
}.

#[export] Instance PlanParameterContract_eq_dec : EqDecision PlanParameterContract.
Proof. solve_decision. Defined.

(** The types declared for one field, in canonical order *)
Definition field_types (raw : pyval) : res (list PlanParameterType) :=
  let! candidates := match raw with
                     | VStr s => Ok [VStr s]
                     | VList l => Ok l
                     | _ => Err PlanValidationError
                     end in
  check! demand (negb (bool_decide (candidates = []))) in
  let! types := mapR parameter_type candidates in
  check! demand (bool_decide (NoDup types)) in
  Ok (List.filter (fun t => types_mem t types) parameter_types).

Definition parameter_field (kv : string * pyval) : res (string * list PlanParameterType) :=
  check! demand (negb (blank (fst kv))) in
  let! types := field_types (snd kv) in
  Ok (fst kv, types).

(** [_normalize_parameter_fields] *)
Definition normalize_parameter_fields (fields : pydict) : res parameter_fields :=
  let! normalized := mapR parameter_field fields in
  Ok (sort_keys normalized).

(** [PlanParameterContract.__init__] *)
Definition parameter_contract (required optional : pydict) (allow_empty : bool)
  : res PlanParameterContract :=
  let! required := normalize_parameter_fields required in
  let! optional := normalize_parameter_fields optional in
  check! demand (forallb (fun k => negb (dmem k optional)) (dkeys required)) in
  Ok (mkContract required optional allow_empty).

Definition types_to_json (types : list PlanParameterType) : pyval :=
  match types with
  | [t] => VStr (parameter_type_str t)
  | _ => VList (map (fun t => VStr (parameter_type_str t)) types)
  end.

(** [_parameter_fields_to_dict] *)
Definition parameter_fields_to_dict (fields : parameter_fields) : pydict :=
  map (fun kv => (fst kv, types_to_json (snd kv))) fields.

Definition contract_to_dict (c : PlanParameterContract) : pydict :=
  [("required", VDict (parameter_fields_to_dict (pc_required c)));
   ("optional", VDict (parameter_fields_to_dict (pc_optional c)));
   ("allowEmpty", VBool (pc_allow_empty c))].

Definition contract_from_dict (v : pyval) : res PlanParameterContract :=
  let! d := mapping v in
  check! demand (keys_are ["required"; "optional"; "allowEmpty"] d) in
  let! required := mapping (jget d "required") in
  let! optional := mapping (jget d "optional") in
  let! allow_empty := boolean (jget d "allowEmpty") in
  parameter_contract required optional allow_empty.

(** [contract_hash] *)
Definition contract_hash (c : PlanParameterContract) : res string :=
  digest (VDict (contract_to_dict c)).

(** [_matches_parameter_type]; [float(value)] of a huge integer overflows. *)
Definition matches_parameter_type (v : pyval) (t : PlanParameterType) : res bool :=
  match t, v with
  | TString, VStr _ | TInteger, VInt _ | TBoolean, VBool _ | TObject, VDict _
  | TArray, VList _ | TNull, VNone => Ok true
  | TNumber, VInt z => match float_of_int z with Some _ => Ok true | None => Err OverflowError end
  | TNumber, VFloat f => Ok (fl_finite f)
  | _, _ => Ok false
  end.

(** [any(matches(v, t) for t in types)] *)
Fixpoint matches_any (v : pyval) (types : list PlanParameterType) : res bool :=
  match types with
  | [] => Ok false
  | t :: types' =>
      let! m := matches_parameter_type v t in
      if m then Ok true else matches_any v types'
  end.

(** [{**required, **optional}] *)
Definition declarations (c : PlanParameterContract) : parameter_fields :=
  dmerge (pc_required c) (pc_optional c).

Definition argument_matches (c : PlanParameterContract) (kv : string * pyval) : res unit :=
  match dget (fst kv) (declarations c) with
  | Some types => let! m := matches_any (snd kv) types in demand m
  | None => Err KeyError
  end.

(** [PlanParameterContract.validate] *)
Definition validate_arguments (c : PlanParameterContract) (arguments : pydict)
    (require_non_empty : bool) : res unit :=
  check! demand (forallb (fun k => negb (blank k)) (dkeys arguments)) in
  check! demand (forallb (fun k => dmem k arguments) (dkeys (pc_required c))) in
  check! demand (forallb (fun k => dmem k (pc_required c) || dmem k (pc_optional c))
                   (dkeys arguments)) in
  check! demand (negb (require_non_empty && bool_decide (arguments = [])
                       && negb (pc_allow_empty c))) in
  let! _ := mapR (argument_matches c) arguments in Ok tt.

(** [PlanParameterContract.validate_unresolved] *)
Definition validate_unresolved (c : PlanParameterContract) (arguments : pydict)
    (bound_fields : list string) (require_non_empty : bool) : res unit :=
  let combined := (dkeys arguments ++ bound_fields)%list in
  check! demand (forallb (fun k => negb (blank k)) bound_fields) in
  check! demand (distinct bound_fields) in
  check! demand (forallb (fun k => negb (dmem k arguments)) bound_fields) in
  check! demand (forallb (fun k => mem_str k combined) (dkeys (pc_required c))) in
  check! demand (forallb (fun k => dmem k (declarations c)) combined) in
  check! demand (negb (require_non_empty && bool_decide (combined = [])
                       && negb (pc_allow_empty c))) in
  let! _ := mapR (argument_matches c) arguments in Ok tt.

(** A contract as the constructor leaves it: sorted fields with non-empty names,
    canonical non-empty type lists, no field both required and optional. *)
Definition types_ok (types : list PlanParameterType) : bool :=
  negb (bool_decide (types = [])) &&
  bool_decide (List.filter (fun t => types_mem t types) parameter_types = types).

Definition field_ok (kv : string * list PlanParameterType) : bool :=
  negb (blank (fst kv)) && types_ok (snd kv).

Record contract_ok (c : PlanParameterContract) : Prop := {
  co_required : forallb field_ok (pc_required c) = true;
  co_optional : forallb field_ok (pc_optional c) = true;
  co_required_sorted : sort_keys (pc_required c) = pc_required c;
  co_optional_sorted : sort_keys (pc_optional c) = pc_optional c;
  co_disjoint : forallb (fun k => negb (dmem k (pc_optional c))) (dkeys (pc_required c)) = true
}.

Lemma parameter_type_round_trip t : parameter_type (VStr (parameter_type_str t)) = Ok t.
Proof. by destruct t. Qed.

Lemma field_types_round_trip types :
  types_ok types = true -> field_types (types_to_json types) = Ok types.
Proof.
  unfold types_ok. intros [Hne Hc%bool_decide_eq_true]%andb_true_iff.
  assert (Hnd : NoDup types).
  { rewrite <- Hc. apply NoDup_ListNoDup, List.NoDup_filter, NoDup_ListNoDup.
    by apply (bool_decide_unpack _). }
  assert (Hm : mapR parameter_type (map (fun t => VStr (parameter_type_str t)) types) = Ok types).
  { clear. induction types as [|t types IH]; [done|]. cbn [map mapR].
    rewrite parameter_type_round_trip. cbn [rbind]. by rewrite IH. }
  assert (Hj : field_types (types_to_json types)
             = field_types (VList (map (fun t => VStr (parameter_type_str t)) types))).
  { by destruct types as [|? [|]]. }
  rewrite Hj. unfold field_types. cbn [rbind]. rewrite Hm. cbn [rbind].
  rewrite (bool_decide_eq_true_2 _ Hnd), Hc. by destruct types.
Qed.

Lemma normalize_round_trip fields :
  forallb field_ok fields = true -> sort_keys fields = fields ->
  normalize_parameter_fields (parameter_fields_to_dict fields) = Ok fields.
Proof.
  unfold normalize_parameter_fields, parameter_fields_to_dict. intros Hf Hs.
  replace (mapR parameter_field _) with (Ok fields); [by cbn; rewrite Hs|].
  clear Hs. induction fields as [|[k types] fields IH]; [done|].
  cbn [forallb] in Hf. apply andb_true_iff in Hf as [Hk Hf].
  unfold field_ok in Hk. cbn [fst snd] in Hk. apply andb_true_iff in Hk as [Hb Ht].
  cbn [map mapR fst snd]. unfold parameter_field at 1. cbn [fst snd].
  rewrite Hb. cbn [demand rbind]. rewrite field_types_round_trip by done. cbn [rbind].
  by rewrite <- IH.
Qed.

Lemma contract_round_trip c :
  contract_ok c -> contract_from_dict (VDict (contract_to_dict c)) = Ok c.
Proof.
  destruct c as [r o e]. intros []. cbn in *.
  unfold contract_from_dict, contract_to_dict. cbn -[parameter_contract].
  unfold parameter_contract. rewrite !normalize_round_trip by done. cbn [rbind].
  unfold dkeys in *. by rewrite co_disjoint0.
Qed.

(** ** Trusted policy of an intent *)
Inductive PlanReplayPolicy : Type := Safe | Never.

#[export] Instance PlanReplayPolicy_eq_dec : EqDecision PlanReplayPolicy.
Proof. solve_decision. Defined.

Definition replay_policy_str (p : PlanReplayPolicy) : string :=
  match p with Safe => "safe" | Never => "never" end.

Definition replay_policy (v : pyval) : res PlanReplayPolicy :=
  let! s := text v in
  if String.eqb s "safe" then Ok Safe else
  if String.eqb s "never" then Ok Never else Err PlanValidationError.

(** [_validate_unique_texts] *)
Definition validate_unique_texts (l : list string) : res unit :=
  check! demand (forallb (fun s => negb (blank s)) l) in demand (distinct l).

(** [_validate_approval_roles] *)
Definition validate_approval_roles (roles : list string) (requires_approval : bool) : res unit :=
  check! validate_unique_texts roles in
  check! demand (negb (requires_approval && bool_decide (roles = []))) in
  demand (negb (negb requires_approval && negb (bool_decide (roles = [])))).

(** The fields an intent's policy shares with the steps made from it. *)
Record step_rules := mkRules {
  sr_requires_approval : bool;
  sr_write : bool;
  sr_replay_policy : PlanReplayPolicy;
  sr_capabilities : list string;
  sr_approval_roles : list string;
  sr_parameter_contract : option PlanParameterContract;
  sr_required_predecessor_intents : list string;
  sr_allow_parallel_side_effects : bool;
  sr_result_contract : option PlanResultContract
}.

#[export] Instance step_rules_eq_dec : EqDecision step_rules.
Proof. solve_decision. Defined.

(** Write or never-replay operations *)
Definition unsafe (r : step_rules) : bool :=
  sr_write r || bool_decide (sr_replay_policy r = Never).

(** The checks that both constructors make on these fields. *)
Definition rules_ok (r : step_rules) : res unit :=
  check! demand (negb (sr_write r && negb (bool_decide (sr_replay_policy r = Never)))) in
  check! demand (negb (sr_write r && negb (sr_requires_approval r))) in
  check! validate_approval_roles (sr_approval_roles r) (sr_requires_approval r) in
  check! validate_unique_texts (sr_required_predecessor_intents r) in
  demand (negb (sr_allow_parallel_side_effects r && negb (unsafe r))).

Record IntentPlanPolicy := mkPolicy {
  ip_intent : string;
  ip_rules : step_rules;
  ip_argument_bindings : list PlanIntentArgumentBinding;
  ip_preconditions : list PlanIntentCondition
}.

(** [IntentPlanPolicy.__post_init__] *)
Definition intent_policy_ok (p : IntentPlanPolicy) : res unit :=
  check! non_empty (ip_intent p) in
  check! demand (forallb (fun s => negb (blank s)) (sr_capabilities (ip_rules p))) in
  check! rules_ok (ip_rules p) in
  demand (distinct (map bn_target (ip_argument_bindings p))).

Definition texts_value (l : list string) : pyval := VList (map VStr l).

(** The shared fields of [to_dict], in two groups as the two classes place them. *)
Definition rules_to_dict (r : step_rules) : pydict :=
  [("requiresApproval", VBool (sr_requires_approval r)); ("write", VBool (sr_write r));
   ("replayPolicy", VStr (replay_policy_str (sr_replay_policy r)));
   ("capabilities", texts_value (sr_capabilities r));
   ("approvalRoles", texts_value (sr_approval_roles r));
   ("parameterContract",
    option_value (fun c => VDict (contract_to_dict c)) (sr_parameter_contract r));
   ("requiredPredecessorIntents", texts_value (sr_required_predecessor_intents r))].

Definition flags_to_dict (r : step_rules) : pydict :=
  [("allowParallelSideEffects", VBool (sr_allow_parallel_side_effects r));
   ("resultContract",
    option_value (fun c => VDict (result_contract_to_dict c)) (sr_result_contract r))].

Section ListsOfReferences.
Context {R : Type} `{!Reference R}.
Definition bindings_value (l : list (argument_binding R)) : pyval :=
  VList (map (fun b => VDict (binding_to_dict b)) l).
Definition conditions_value (l : list (condition R)) : pyval :=
  VList (map (fun c => VDict (condition_to_dict c)) l).

Definition bindings_of (v : pyval) : res (list (argument_binding R)) :=
  let! l := array v in mapR binding_from_dict l.
Definition conditions_of (v : pyval) : res (list (condition R)) :=
  let! l := array v in mapR condition_from_dict l.

Lemma bindings_round_trip l u :
  mapR binding_ok l = Ok u -> bindings_of (bindings_value l) = Ok l.
Proof.
  intros H. unfold bindings_of, bindings_value. cbn [array rbind].
  exact (mapR_map _ _ _ _ _ binding_round_trip H).
Qed.

Lemma conditions_round_trip l u :
  mapR condition_ok l = Ok u -> conditions_of (conditions_value l) = Ok l.
Proof.
  intros H. unfold conditions_of, conditions_value. cbn [array rbind].
  exact (mapR_map _ _ _ _ _ condition_round_trip H).
Qed.
End ListsOfReferences.

(** The shared fields of [from_dict], with the defaults of the optional ones. *)
Definition rules_from_dict (d : pydict) : res step_rules :=
  let! capabilities := texts (jget d "capabilities") in
  let! roles := texts (jget_or d "approvalRoles" (VList [])) in
  let! requires_approval := boolean (jget d "requiresApproval") in
  let! write := boolean (jget d "write") in
  let! predecessors := texts (jget_or d "requiredPredecessorIntents" (VList [])) in
  let! parallel := boolean (jget_or d "allowParallelSideEffects" (VBool false)) in
  let! replay := replay_policy (jget d "replayPolicy") in
  let! contract := optional contract_from_dict (jget d "parameterContract") in
  let! result := optional result_contract_from_dict (jget d "resultContract") in
  Ok (mkRules requires_approval write replay capabilities roles contract predecessors
        parallel result).

Definition required_policy_fields : list string :=
  ["intent"; "requiresApproval"; "write"; "replayPolicy"; "capabilities"].
Definition optional_rule_fields : list string :=
  ["approvalRoles"; "parameterContract"; "requiredPredecessorIntents"; "argumentBindings";
   "preconditions"; "allowParallelSideEffects"; "resultContract"].

Definition intent_policy_to_dict (p : IntentPlanPolicy) : pydict :=
  ([("intent", VStr (ip_intent p))] ++ rules_to_dict (ip_rules p)
   ++ [("argumentBindings", bindings_value (ip_argument_bindings p));
       ("preconditions", conditions_value (ip_preconditions p))]
   ++ flags_to_dict (ip_rules p))%list.

Definition intent_policy_from_dict (v : pyval) : res IntentPlanPolicy :=
  let! d := mapping v in
  check! demand (has_keys required_policy_fields optional_rule_fields d) in
  let! rules := rules_from_dict d in
  let! intent := text (jget d "intent") in
  let! bindings := bindings_of (jget_or d "argumentBindings" (VList [])) in
  let! conditions := conditions_of (jget_or d "preconditions" (VList [])) in
  made intent_policy_ok (mkPolicy intent rules bindings conditions).

(** ** Steps *)
Record PlanStep := mkStep {
  ps_step_id : string;
  ps_intent : string;
  ps_arguments : pydict;
  ps_depends_on : list string;
  ps_rules : step_rules;
  ps_argument_bindings : list PlanArgumentBinding;
  ps_preconditions : list PlanCondition;
  ps_execution_action_hash : option string
}.

(** [PlanStep.__post_init__] *)
Definition plan_step_ok (s : PlanStep) : res unit :=
  check! non_empty (ps_step_id s) in
  check! non_empty (ps_intent s) in
  check! demand (negb (mem_str (ps_step_id s) (ps_depends_on s))) in
  check! demand (distinct (ps_depends_on s)) in
  check! rules_ok (ps_rules s) in
  let targets := map bn_target (ps_argument_bindings s) in
  check! demand (distinct targets) in
  check! demand (forallb (fun k => negb (dmem k (ps_arguments s))) targets) in
  check! match ps_execution_action_hash s with
         | Some h => demand (is_sha256 h)
         | None => Ok tt
         end in
  require_json (VDict (ps_arguments s)).

(** A field that [action_hash] leaves out when it is empty *)
Definition present (key : string) (is_empty : bool) (v : pyval) : pydict :=
  if is_empty then [] else [(key, v)].

(** The value that the action hash digests *)
Definition step_action (s : PlanStep) : pydict :=
  let r := ps_rules s in
  ([("stepId", VStr (ps_step_id s)); ("intent", VStr (ps_intent s));
    ("arguments", VDict (ps_arguments s)); ("dependencies", texts_value (ps_depends_on s));
    ("requiresApproval", VBool (sr_requires_approval r)); ("write", VBool (sr_write r));
    ("replayPolicy", VStr (replay_policy_str (sr_replay_policy r)));
    ("capabilities", texts_value (sr_capabilities r))]
   ++ present "approvalRoles" (bool_decide (sr_approval_roles r = []))
        (texts_value (sr_approval_roles r))
   ++ opt_field "parameterContract" (fun c => VDict (contract_to_dict c))
        (sr_parameter_contract r)
   ++ present "requiredPredecessorIntents"
        (bool_decide (sr_required_predecessor_intents r = []))
        (texts_value (sr_required_predecessor_intents r))
   ++ present "argumentBindings" (bool_decide (ps_argument_bindings s = []))
        (bindings_value (ps_argument_bindings s))
   ++ present "preconditions" (bool_decide (ps_preconditions s = []))
        (conditions_value (ps_preconditions s))
   ++ present "allowParallelSideEffects" (negb (sr_allow_parallel_side_effects r)) (VBool true)
   ++ opt_field "resultContract" (fun c => VDict (result_contract_to_dict c))
        (sr_result_contract r))%list.

(** [PlanStep.action_hash] *)
Definition step_action_hash (s : PlanStep) : res string :=
  match ps_execution_action_hash s with
  | Some h => Ok h
  | None => digest (VDict (step_action s))
  end.

Definition step_fields (s : PlanStep) : pydict :=
  ([("stepId", VStr (ps_step_id s)); ("intent", VStr (ps_intent s));
    ("arguments", VDict (ps_arguments s)); ("dependsOn", texts_value (ps_depends_on s))]
   ++ rules_to_dict (ps_rules s)
   ++ [("argumentBindings", bindings_value (ps_argument_bindings s));
       ("preconditions", conditions_value (ps_preconditions s))]
   ++ flags_to_dict (ps_rules s))%list.

Definition step_to_dict (s : PlanStep) : res pydict :=
  let! hash := step_action_hash s in
  Ok (step_fields s ++ [("actionHash", VStr hash)])%list.

Definition required_step_fields : list string :=
  ["stepId"; "intent"; "arguments"; "dependsOn"; "requiresApproval"; "write"; "replayPolicy";
   "capabilities"; "actionHash"].

(** One step of [MultiIntentPlan.from_dict]: the restored step must have the
    action hash it was stored with. *)
Definition step_from_dict (v : pyval) : res PlanStep :=
  let! d := mapping v in
  check! demand (has_keys required_step_fields optional_rule_fields d) in
  let! arguments := mapping (jget d "arguments") in
  let! depends_on := texts (jget d "dependsOn") in
  let! rules := rules_from_dict d in
  let! step_id := text (jget d "stepId") in
  let! intent := text (jget d "intent") in
  let! bindings := bindings_of (jget_or d "argumentBindings" (VList [])) in
  let! conditions := conditions_of (jget_or d "preconditions" (VList [])) in
  let! step := made plan_step_ok (mkStep step_id intent arguments depends_on rules bindings
                               conditions None) in
  let! hash := step_action_hash step in
  check! demand (is_str (jget d "actionHash") hash) in
  Ok step.

(** ** Plans *)
Record MultiIntentPlan := mkPlan {
  pl_request : string;
  pl_steps : list PlanStep;
  pl_plan_id : string;
  pl_schema_version : Z
}.

(** [MultiIntentPlan.__post_init__] *)
Definition plan_ok (p : MultiIntentPlan) : res unit :=
  check! non_empty (pl_plan_id p) in
  check! non_empty (pl_request p) in
  check! demand (pl_schema_version p =? 1) in
  check! demand (negb (is_nil (pl_steps p))) in
  demand (distinct (map ps_step_id (pl_steps p))).

(** [MultiIntentPlan.step] *)
Definition plan_step (p : MultiIntentPlan) (step_id : string) : res PlanStep :=
  match find_first (fun s => String.eqb (ps_step_id s) step_id) (pl_steps p) with
  | Some s => Ok s
  | None => Err KeyError
  end.

Definition plan_to_dict (p : MultiIntentPlan) : res pydict :=
  let! steps := mapR step_to_dict (pl_steps p) in
  Ok [("schemaVersion", VInt (pl_schema_version p)); ("planId", VStr (pl_plan_id p));
      ("request", VStr (pl_request p)); ("steps", VList (map VDict steps))].

Definition plan_from_dict (d : pydict) : res MultiIntentPlan :=
  check! demand (keys_are ["schemaVersion"; "planId"; "request"; "steps"] d) in
  let! raw_steps := array (jget d "steps") in
  check! demand (negb (is_nil raw_steps)) in
  let! steps := mapR step_from_dict raw_steps in
  let! request := text (jget d "request") in
  let! plan_id := text (jget d "planId") in
  let! version := integer (jget d "schemaVersion") in
  made plan_ok (mkPlan request steps plan_id version).

(** *** What the constructors of the parts have checked *)
Definition opt_ok {A : Type} (P : A -> Prop) (o : option A) : Prop :=
  match o with Some x => P x | None => True end.

Record rules_built (r : step_rules) : Prop := {
  rb_ok : rules_ok r = Ok tt;
  rb_capabilities : forallb (fun s => negb (blank s)) (sr_capabilities r) = true;
  rb_contract : opt_ok contract_ok (sr_parameter_contract r);
  rb_result : opt_ok (fun c => result_contract_ok c = Ok tt) (sr_result_contract r)
}.

(** A step built by the constructors whose dependency names are not blank, and
    without the run-time override of the action hash. *)
Record step_built (s : PlanStep) : Prop := {
  sb_ok : plan_step_ok s = Ok tt;
  sb_rules : rules_built (ps_rules s);
  sb_depends : forallb (fun k => negb (blank k)) (ps_depends_on s) = true;
  sb_bindings : exists u, mapR binding_ok (ps_argument_bindings s) = Ok u;
  sb_conditions : exists u, mapR condition_ok (ps_preconditions s) = Ok u;
  sb_planned : ps_execution_action_hash s = None
}.

Record plan_built (p : MultiIntentPlan) : Prop := {
  pb_ok : plan_ok p = Ok tt;
  pb_steps : Forall step_built (pl_steps p)
}.

Lemma texts_round_trip l :
  forallb (fun s => negb (blank s)) l = true -> texts (texts_value l) = Ok l.
Proof.
  unfold texts, texts_value. cbn [array rbind].
  induction l as [|s l IH]; cbn [forallb map mapR]; [done|].
  intros [Hs Hl]%andb_true_iff. cbn [text]. apply negb_true_iff in Hs. rewrite Hs.
  cbn [rbind]. by rewrite IH.
Qed.

Lemma replay_policy_round_trip p : replay_policy (VStr (replay_policy_str p)) = Ok p.
Proof. by destruct p. Qed.

Lemma unique_texts_nonblank l u :
  validate_unique_texts l = Ok u -> forallb (fun s => negb (blank s)) l = true.
Proof. unfold validate_unique_texts. intros H. res_inv H. by apply demand_Ok in E. Qed.

(** The fields of the shared rules are found wherever they are placed. *)
Record stores_rules (r : step_rules) (d : pydict) : Prop := {
  st_requires : jget d "requiresApproval" = VBool (sr_requires_approval r);
  st_write : jget d "write" = VBool (sr_write r);
  st_replay : jget d "replayPolicy" = VStr (replay_policy_str (sr_replay_policy r));
  st_capabilities : jget d "capabilities" = texts_value (sr_capabilities r);
  st_roles : jget_or d "approvalRoles" (VList []) = texts_value (sr_approval_roles r);
  st_contract : jget d "parameterContract"
    = option_value (fun c => VDict (contract_to_dict c)) (sr_parameter_contract r);
  st_predecessors : jget_or d "requiredPredecessorIntents" (VList [])
    = texts_value (sr_required_predecessor_intents r);
  st_parallel : jget_or d "allowParallelSideEffects" (VBool false)
    = VBool (sr_allow_parallel_side_effects r);
  st_result : jget d "resultContract"
    = option_value (fun c => VDict (result_contract_to_dict c)) (sr_result_contract r)
}.

Lemma optional_round_trip {A} (f : pyval -> res A) (g : A -> pyval) o :
  (forall x, g x <> VNone) -> opt_ok (fun x => f (g x) = Ok x) o ->
  optional f (option_value g o) = Ok o.
Proof.
  intros Hg. destruct o as [x|]; simpl; [|done]. intros H. specialize (Hg x).
  unfold optional. rewrite H. cbn. by destruct (g x).
Qed.

Lemma rules_round_trip r d :
  rules_built r -> stores_rules r d -> rules_from_dict d = Ok r.
Proof.
  intros [Hok Hcap Hcon Hres] [H1 H2 H3 H4 H5 H6 H7 H8 H9]. unfold rules_from_dict.
  unfold rules_ok, validate_approval_roles in Hok. res_inv Hok. res_inv E1.
  rewrite H4, H5, H1, H2, H7, H8, H3, H6, H9. clear H1 H2 H3 H4 H5 H6 H7 H8 H9.
  rewrite !texts_round_trip by eauto using unique_texts_nonblank. cbn [rbind boolean].
  rewrite replay_policy_round_trip. cbn [rbind].
  rewrite !optional_round_trip; try done.
  - by destruct r.
  - destruct (sr_result_contract r); [|done]. by apply result_contract_round_trip.
  - destruct (sr_parameter_contract r); [|done]. by apply contract_round_trip.
Qed.

(** ** Approval receipts of a plan step *)

(** A frozenset of strings, as the sorted list of its elements: it is only ever
    tested for membership or serialised in sorted order. *)
Fixpoint set_insert (s : string) (l : list string) : list string :=
  match l with
  | [] => [s]
  | t :: l' =>
      match String.compare s t with
      | Eq => l
      | Lt => s :: l
      | Gt => t :: set_insert s l'
      end
  end.

Definition frozenset (l : list string) : list string := foldr set_insert [] l.

Definition num_value (n : pynum) : pyval :=
  match n with NInt z => VInt z | NFloat f => VFloat f end.

Record PlanApprovalReceipt := mkPlanReceipt {
  pr_approval_id : string;
  pr_receipt_id : string;
  pr_plan_id : string;
  pr_step_id : string;
  pr_action_hash : string;
  pr_state_version : Z;
  pr_approver_id : string;
  pr_approver_roles : list string;
  pr_approver_issuer : string;
  pr_identity_verification_id : string;
  pr_verification_id : string;
  pr_issued_at : pynum;
  pr_expires_at : pynum;
  pr_consumed_at : option pynum
}.

#[export] Instance PlanApprovalReceipt_eq_dec : EqDecision PlanApprovalReceipt.
Proof. solve_decision. Defined.

(** [PlanApprovalReceipt.__post_init__]; the roles are already a frozenset. *)
Definition plan_receipt_ok (r : PlanApprovalReceipt) : res unit :=
  check! demand (forallb (fun s => negb (blank s))
    [pr_approval_id r; pr_receipt_id r; pr_plan_id r; pr_step_id r; pr_action_hash r;
     pr_approver_id r; pr_approver_issuer r; pr_identity_verification_id r;
     pr_verification_id r]) in
  check! demand (is_sha256 (pr_action_hash r)) in
  check! demand (0 <=? pr_state_version r) in
  check! demand (negb (is_nil (pr_approver_roles r))
                 && forallb (fun s => negb (blank s)) (pr_approver_roles r)) in
  let! issued_at := finite_timestamp (num_value (pr_issued_at r)) in
  let! expires_at := finite_timestamp (num_value (pr_expires_at r)) in
  check! demand (num_lt (NFloat issued_at) (NFloat expires_at)) in
  match pr_consumed_at r with
  | None => Ok tt
  | Some c =>
      let! consumed_at := finite_timestamp (num_value c) in
      demand (negb (num_lt (NFloat consumed_at) (NFloat issued_at)
                    || num_lt (NFloat expires_at) (NFloat consumed_at)))
  end.

(** [PlanApprovalReceipt.consumed] *)
Definition receipt_consumed (consumed_at : pynum) (r : PlanApprovalReceipt)
  : res PlanApprovalReceipt :=
  made plan_receipt_ok
    (mkPlanReceipt (pr_approval_id r) (pr_receipt_id r) (pr_plan_id r) (pr_step_id r)
       (pr_action_hash r) (pr_state_version r) (pr_approver_id r) (pr_approver_roles r)
       (pr_approver_issuer r) (pr_identity_verification_id r) (pr_verification_id r)
       (pr_issued_at r) (pr_expires_at r) (Some consumed_at)).

Definition plan_receipt_to_dict (r : PlanApprovalReceipt) : pydict :=
  [("approvalId", VStr (pr_approval_id r)); ("receiptId", VStr (pr_receipt_id r));
   ("planId", VStr (pr_plan_id r)); ("stepId", VStr (pr_step_id r));
   ("actionHash", VStr (pr_action_hash r)); ("stateVersion", VInt (pr_state_version r));
   ("approverId", VStr (pr_approver_id r)); ("approverRoles", texts_value (pr_approver_roles r));
   ("approverIssuer", VStr (pr_approver_issuer r));
   ("identityVerificationId", VStr (pr_identity_verification_id r));
   ("verificationId", VStr (pr_verification_id r)); ("issuedAt", num_value (pr_issued_at r));
   ("expiresAt", num_value (pr_expires_at r));
   ("consumedAt", option_value num_value (pr_consumed_at r))].

Definition plan_receipt_fields : list string :=
  ["approvalId"; "receiptId"; "planId"; "stepId"; "actionHash"; "stateVersion"; "approverId";
   "approverRoles"; "approverIssuer"; "identityVerificationId"; "verificationId"; "issuedAt";
   "expiresAt"; "consumedAt"].

Definition timestamp (v : pyval) : res pynum :=
  let! f := finite_timestamp v in Ok (NFloat f).

Definition plan_receipt_from_dict (d : pydict) : res PlanApprovalReceipt :=
  check! demand (keys_are plan_receipt_fields d) in
  let! roles := texts (jget d "approverRoles") in
  let! approval_id := text (jget d "approvalId") in
  let! receipt_id := text (jget d "receiptId") in
  let! plan_id := text (jget d "planId") in
  let! step_id := text (jget d "stepId") in
  let! action_hash := text (jget d "actionHash") in
  let! state_version := integer (jget d "stateVersion") in
  let! approver_id := text (jget d "approverId") in
  let! issuer := text (jget d "approverIssuer") in
  let! identity_verification_id := text (jget d "identityVerificationId") in
  let! verification_id := text (jget d "verificationId") in
  let! issued_at := timestamp (jget d "issuedAt") in
  let! expires_at := timestamp (jget d "expiresAt") in
  let! consumed_at := optional timestamp (jget d "consumedAt") in
  made plan_receipt_ok
    (mkPlanReceipt approval_id receipt_id plan_id step_id action_hash state_version approver_id
       (frozenset roles) issuer identity_verification_id verification_id issued_at expires_at
       consumed_at).

(** ** Approval decisions *)
Record PlanApprovalDecision := mkDecision {
  pd_approved : option bool;
  pd_action_hash : string;
  pd_approval_id : option string;
  pd_reason : option string;
  pd_receipt : option PlanApprovalReceipt
}.

Definition opt_blank (o : option string) : bool :=
  match o with Some s => blank s | None => true end.

(** [PlanApprovalDecision.__post_init__] *)
Definition decision_ok (d : PlanApprovalDecision) : res unit :=
  check! non_empty (pd_action_hash d) in
  match pd_approved d with
  | None =>
      check! demand (negb (opt_blank (pd_approval_id d))) in
      demand (negb (is_some (pd_reason d) || is_some (pd_receipt d)))
  | Some true =>
      check! demand (negb (opt_blank (pd_approval_id d))) in
      check! match pd_receipt d with
             | Some r =>
                 check! demand (bool_decide (Some (pr_approval_id r) = pd_approval_id d)) in
                 demand (String.eqb (pr_action_hash r) (pd_action_hash d))
             | None => Ok tt
             end in
      demand (negb (is_some (pd_reason d)))
  | Some false =>
      check! demand (negb (opt_blank (pd_reason d))) in
      check! demand (negb (match pd_approval_id d with Some i => blank i | None => false end)) in
      demand (negb (is_some (pd_receipt d)))
  end.

(** [grant] with a receipt, [pending] and [deny] for a step with this action hash *)
Definition decision_grant (action_hash : string) (r : PlanApprovalReceipt) :=
  made decision_ok (mkDecision (Some true) action_hash (Some (pr_approval_id r)) None (Some r)).
Definition decision_pending (action_hash approval_id : string) :=
  made decision_ok (mkDecision None action_hash (Some approval_id) None None).
Definition decision_deny (action_hash reason : string) (approval_id : option string) :=
  made decision_ok (mkDecision (Some false) action_hash approval_id (Some reason) None).

(** ** Events and execution states *)
Record PlanEvent := mkPlanEvent {
  pe_sequence : Z;
  pe_type : string;
  pe_step_id : string;
  pe_data : pydict;
  pe_schema_version : Z
}.

(** [PlanEvent.__post_init__] *)
Definition plan_event_ok (e : PlanEvent) : res unit :=
  check! demand (1 <=? pe_sequence e) in
  check! non_empty (pe_type e) in
  check! non_empty (pe_step_id e) in
  check! demand (pe_schema_version e =? 1) in
  require_json (VDict (pe_data e)).

Definition plan_event_to_dict (e : PlanEvent) : pydict :=
  [("schemaVersion", VInt (pe_schema_version e)); ("sequence", VInt (pe_sequence e));
   ("type", VStr (pe_type e)); ("stepId", VStr (pe_step_id e)); ("data", VDict (pe_data e))].

Definition plan_event_from_dict (d : pydict) : res PlanEvent :=
  check! demand (keys_are ["schemaVersion"; "sequence"; "type"; "stepId"; "data"] d) in
  let! version := integer (jget d "schemaVersion") in
  let! sequence := integer (jget d "sequence") in
  let! ty := text (jget d "type") in
  let! step_id := text (jget d "stepId") in
  let! data := mapping (jget d "data") in
  made plan_event_ok (mkPlanEvent sequence ty step_id data version).

Inductive PlanStepStatus : Type :=
| StepPending | StepWaitingApproval | StepRunning | StepSucceeded | StepFailed | StepSkipped
| StepNotApplicable | StepManualIntervention.

#[export] Instance PlanStepStatus_eq_dec : EqDecision PlanStepStatus.
Proof. solve_decision. Defined.

Definition step_status_str (s : PlanStepStatus) : string :=
  match s with
  | StepPending => "pending" | StepWaitingApproval => "waiting_approval"
  | StepRunning => "running" | StepSucceeded => "succeeded" | StepFailed => "failed"
  | StepSkipped => "skipped" | StepNotApplicable => "not_applicable"
  | StepManualIntervention => "manual_intervention"
  end.

Definition step_statuses : list PlanStepStatus :=
  [StepPending; StepWaitingApproval; StepRunning; StepSucceeded; StepFailed; StepSkipped;
   StepNotApplicable; StepManualIntervention].

Inductive ValidationStatus : Type := Passed | ValidationFailed.

#[export] Instance ValidationStatus_eq_dec : EqDecision ValidationStatus.
Proof. solve_decision. Defined.

Definition validation_str (s : ValidationStatus) : string :=
  match s with Passed => "passed" | ValidationFailed => "failed" end.

Record PlanStepState := mkStepState {
  ss_status : PlanStepStatus;
  ss_attempts : Z;
  ss_approval_id : option string;
  ss_result : pyval;
  ss_error : option string;
  ss_approval_receipt : option PlanApprovalReceipt;
  ss_validation_status : option ValidationStatus;
  ss_approval_action_hash : option string
}.

#[export] Instance PlanStepState_eq_dec : EqDecision PlanStepState.
Proof. solve_decision. Defined.

(** [PlanStepState()] *)
Definition fresh_step : PlanStepState :=
  mkStepState StepPending 0 None VNone None None None None.

(** [PlanStepState.to_dict] *)
Definition step_state_to_dict (s : PlanStepState) : res pydict :=
  let value :=
    [("status", VStr (step_status_str (ss_status s))); ("attempts", VInt (ss_attempts s));
     ("approvalId", option_value VStr (ss_approval_id s));
     ("approvalActionHash", option_value VStr (ss_approval_action_hash s));
     ("approvalReceipt",
      option_value (fun r => VDict (plan_receipt_to_dict r)) (ss_approval_receipt s));
     ("result", ss_result s); ("error", option_value VStr (ss_error s));
     ("validationStatus",
      option_value (fun v => VStr (validation_str v)) (ss_validation_status s))] in
  check! require_json (VDict value) in Ok value.

Record PlanExecutionState := mkExecutionState {
  xs_plan_id : string;
  xs_steps : dict PlanStepState;
  xs_version : Z
}.

Inductive PlanPhase : Type :=
| PlanPending | PlanRunning | PlanWaitingApproval | PlanCompleted | PlanFailed
| PlanManualIntervention.

#[export] Instance PlanPhase_eq_dec : EqDecision PlanPhase.
Proof. solve_decision. Defined.

Definition plan_phase_str (p : PlanPhase) : string :=
  match p with
  | PlanPending => "pending" | PlanRunning => "running"
  | PlanWaitingApproval => "waiting_approval" | PlanCompleted => "completed"
  | PlanFailed => "failed" | PlanManualIntervention => "manual_intervention"
  end.

Definition status_in (l : list PlanStepStatus) (s : PlanStepStatus) : bool :=
  existsb (fun t => bool_decide (s = t)) l.

(** [PlanExecutionState.phase] *)
Definition plan_phase (s : PlanExecutionState) : PlanPhase :=
  let statuses := map ss_status (dvalues (xs_steps s)) in
  let some l := existsb (status_in l) statuses in
  if some [StepManualIntervention] then PlanManualIntervention else
  if negb (is_nil statuses) && forallb (status_in [StepSucceeded; StepNotApplicable]) statuses
  then PlanCompleted else
  if some [StepRunning] then PlanRunning else
  if some [StepWaitingApproval] then PlanWaitingApproval else
  if some [StepFailed; StepSkipped] && negb (some [StepPending]) then PlanFailed else
  PlanPending.

(** [PlanExecutionState.to_dict] *)
Definition execution_state_to_dict (s : PlanExecutionState) : res pydict :=
  let! steps := mapR (fun kv => let! d := step_state_to_dict (snd kv) in Ok (fst kv, VDict d))
                     (xs_steps s) in
  Ok [("schemaVersion", VInt 1); ("planId", VStr (xs_plan_id s));
      ("version", VInt (xs_version s)); ("phase", VStr (plan_phase_str (plan_phase s)));
      ("steps", VDict steps)].
