(* ===== verification/PlanPersistence.v ===== *)
(** * Persistence of plans  (src/.../planning/types.py)

    Every value the constructors accept restores exactly from its serialised
    form: policies, plans with the action hash of every step, receipts, events;
    and what a restored value is known to satisfy, whatever was stored. *)

From S2P Require Import Prelude PyDict Text Sha256 PyVal Json DurableAction Canonical PlanTypes.
From Stdlib Require Import String.

#[local] Open Scope string_scope.
#[local] Open Scope bool_scope.
#[local] Open Scope Z_scope.
#[local] Arguments blank : simpl never.

(** ** Round trips *)
Lemma text_nonblank s : negb (blank s) = true -> text (VStr s) = Ok s.
Proof. intros H%negb_true_iff. simpl. by rewrite H. Qed.

Lemma step_stores_rules s h :
  stores_rules (ps_rules s) (step_fields s ++ [("actionHash", VStr h)])%list.
Proof. split; reflexivity. Qed.

Lemma intent_policy_stores_rules p : stores_rules (ip_rules p) (intent_policy_to_dict p).
Proof. split; reflexivity. Qed.

(** *** Everything that is hashed is strict JSON *)
Lemma strict_app d1 d2 :
  strict_json (VDict (d1 ++ d2)) = strict_json (VDict d1) && strict_json (VDict d2).
Proof. simpl. apply List.forallb_app. Qed.

Lemma strict_cons k v d :
  strict_json (VDict ((k, v) :: d)) = strict_json v && strict_json (VDict d).
Proof. done. Qed.

Lemma strict_map {A : Type} (f : A -> pyval) l :
  (forall x, x ∈ l -> strict_json (f x) = true) -> strict_json (VList (map f l)) = true.
Proof. intros H. apply forallb_elem. intros v (x & -> & Hx)%list_elem_of_fmap. auto. Qed.

Lemma strict_texts l : strict_json (texts_value l) = true.
Proof. by apply strict_map. Qed.

Lemma strict_present key b v :
  strict_json v = true -> strict_json (VDict (present key b v)) = true.
Proof. intros H. destruct b; simpl; [done|]. by rewrite H. Qed.

Lemma strict_opt_field {A : Type} key (f : A -> pyval) o :
  opt_ok (fun x => strict_json (f x) = true) o -> strict_json (VDict (opt_field key f o)) = true.
Proof. destruct o; simpl; [|done]. by intros ->. Qed.

Lemma comparison_strict op v b u : validate_comparison op v b = Ok u -> strict_json v = true.
Proof. unfold validate_comparison. intros H. res_inv H. by apply demand_Ok in H. Qed.

Lemma contract_strict c : strict_json (VDict (contract_to_dict c)) = true.
Proof.
  assert (H : forall fields, strict_json (VDict (parameter_fields_to_dict fields)) = true).
  { intros fields. apply forallb_elem. intros kv ([k ts] & -> & _)%list_elem_of_fmap. simpl.
    destruct ts as [|t [|]]; [done..|]. by apply strict_map. }
  unfold contract_to_dict. cbn -[strict_json parameter_fields_to_dict].
  cbn [strict_json forallb snd]. cbn [strict_json] in H. by rewrite !H.
Qed.

Lemma result_contract_strict c :
  result_contract_ok c = Ok tt -> strict_json (VDict (result_contract_to_dict c)) = true.
Proof.
  unfold result_contract_ok. intros H. res_inv H. apply mapR_Ok in E0.
  cbn [result_contract_to_dict strict_json forallb snd]. rewrite andb_true_r.
  apply forallb_elem. intros v (r & -> & Hr)%list_elem_of_fmap.
  apply list_elem_of_lookup in Hr as (i & Hi).
  destruct (Forall2_lookup_l _ _ _ _ _ E0 Hi) as (v & _ & Hok).
  unfold rule_ok in Hok. res_inv Hok. apply comparison_strict in Hok.
  unfold rule_to_dict. cbn -[path_to_json strict_json]. cbn [strict_json forallb snd].
  by rewrite Hok, path_strict.
Qed.

Section StrictReferences.
Context {R : Type} `{!Reference R}.

Lemma bindings_strict l : strict_json (bindings_value l) = true.
Proof.
  apply strict_map. intros b _. unfold binding_to_dict. cbn [strict_json forallb snd].
  pose proof (ref_strict (bn_source b)) as H. cbn [strict_json] in H. by rewrite H.
Qed.

Lemma conditions_strict l u :
  mapR condition_ok l = Ok u -> strict_json (conditions_value l) = true.
Proof.
  intros Hl%mapR_Ok. apply strict_map. intros c (i & Hi)%list_elem_of_lookup.
  destruct (Forall2_lookup_l _ _ _ _ _ Hl Hi) as (v & _ & Hok).
  unfold condition_ok in Hok. res_inv Hok. apply comparison_strict in Hok.
  unfold condition_to_dict. cbn [strict_json forallb snd]. rewrite Hok.
  pose proof (ref_strict (cd_left c)) as H. cbn [strict_json] in H. rewrite H.
  destruct (cd_expected_from c) as [r|]; cbn [option_value strict_json]; [|done].
  pose proof (ref_strict r) as Hr. cbn [strict_json] in Hr. by rewrite Hr.
Qed.
End StrictReferences.

Lemma step_ok_arguments s : plan_step_ok s = Ok tt -> strict_json (VDict (ps_arguments s)) = true.
Proof. unfold plan_step_ok. intros H. res_inv H. by apply demand_Ok in H. Qed.

(** A step built by the constructors always has an action hash. *)
Lemma step_hash_total s : step_built s -> exists h, step_action_hash s = Ok h.
Proof.
  intros [Hok [_ _ Hc Hr] _ _ [u Hcs] Hx]. apply step_ok_arguments in Hok.
  unfold step_action_hash. rewrite Hx. unfold digest.
  enough (strict_json (VDict (step_action s)) = true) as -> by eauto.
  unfold step_action. rewrite !strict_app, !strict_present, !strict_opt_field;
    eauto using strict_texts, bindings_strict, conditions_strict.
  - by rewrite !strict_cons, !strict_texts, Hok.
  - destruct (sr_result_contract _); [|done]. by apply result_contract_strict.
  - destruct (sr_parameter_contract _); [|done]. by apply contract_strict.
Qed.

Lemma step_round_trip s h :
  step_built s -> step_action_hash s = Ok h ->
  step_from_dict (VDict (step_fields s ++ [("actionHash", VStr h)])%list) = Ok s.
Proof.
  intros Hs Hh. pose proof (step_stores_rules s h) as Hst. destruct Hs as [Hok Hr Hd [ub Hb] [uc Hc] Hx].
  unfold step_from_dict. cbn [mapping rbind].
  set (d := (step_fields s ++ _)%list) in *.
  assert (Hk : has_keys required_step_fields optional_rule_fields d = true) by reflexivity.
  rewrite Hk. cbn [demand rbind]. rewrite (rules_round_trip _ _ Hr Hst).
  change (jget d "arguments") with (VDict (ps_arguments s)).
  change (jget d "dependsOn") with (texts_value (ps_depends_on s)).
  change (jget d "stepId") with (VStr (ps_step_id s)).
  change (jget d "intent") with (VStr (ps_intent s)).
  change (jget d "actionHash") with (VStr h).
  change (jget_or d "argumentBindings" (VList [])) with (bindings_value (ps_argument_bindings s)).
  change (jget_or d "preconditions" (VList [])) with (conditions_value (ps_preconditions s)).
  rewrite (texts_round_trip _ Hd), (bindings_round_trip _ _ Hb), (conditions_round_trip _ _ Hc).
  pose proof Hok as Hok'. unfold plan_step_ok in Hok'. res_inv Hok'.
  apply non_empty_Ok in E, E0. cbn [mapping rbind]. rewrite !text_VStr by done. cbn [rbind].
  replace (mkStep _ _ _ _ _ _ _ _) with s by (destruct s; simpl in *; by rewrite Hx).
  rewrite (proj2 (made_Ok plan_step_ok s s)) by done. cbn [rbind]. rewrite Hh. cbn [rbind is_str].
  by rewrite String.eqb_refl.
Qed.

(** A persisted plan restores to exactly the plan it was taken from: every plan
    built by the constructors serialises, and the stored value decodes to the same
    plan, every step's action hash agreeing. *)
Theorem plan_survives_persistence p :
  plan_built p -> exists d, (plan_to_dict p = Ok d) /\ (plan_from_dict d = Ok p).
Proof.
  intros [Hok Hs]. unfold plan_to_dict.
  assert (Hd : exists ds, mapR step_to_dict (pl_steps p) = Ok ds /\
                          mapR step_from_dict (map VDict ds) = Ok (pl_steps p)).
  { clear Hok. induction Hs as [|s steps Hs _ (ds & Hd & Hr)]; [by exists []|].
    destruct (step_hash_total s Hs) as [h Hh].
    exists ((step_fields s ++ [("actionHash", VStr h)])%list :: ds).
    cbn [mapR map]. unfold step_to_dict at 1. rewrite Hh. cbn [rbind]. rewrite Hd. cbn [rbind].
    split; [done|]. rewrite (step_round_trip s h Hs Hh). cbn [rbind]. by rewrite Hr. }
  destruct Hd as (ds & Hd & Hr). rewrite Hd. cbn [rbind]. eexists. split; [done|].
  pose proof Hok as Hok'. unfold plan_ok in Hok'. res_inv Hok'.
  apply non_empty_Ok in E, E0. apply demand_Ok in E2.
  unfold plan_from_dict. cbn -[mapR text integer made step_from_dict map is_nil].
  assert (Hn : is_nil (map VDict ds) = false).
  { destruct ds; [|done]. injection Hr as Hr. by rewrite <- Hr in E2. }
  rewrite Hn. cbn [negb demand rbind]. rewrite Hr. cbn [rbind]. rewrite !text_VStr by done.
  cbn [rbind integer]. apply made_Ok. by destruct p.
Qed.

(** *** Contracts, policies and receipts *)
Lemma sort_keys_id {V} (d : dict V) : StronglySorted key_le d -> sort_keys d = d.
Proof.
  induction 1 as [|kv d Hd IH Hk]; [done|]. simpl. fold (sort_keys d). rewrite IH.
  destruct d as [|kv' d]; [done|]. simpl. apply Forall_cons in Hk as [Hk _].
  unfold key_le in Hk. by rewrite Hk.
Qed.

Lemma types_mem_spec t l : types_mem t l = true <-> t ∈ l.
Proof.
  unfold types_mem. rewrite List.existsb_exists. setoid_rewrite <- list_elem_of_In. split.
  - intros (u & Hu & ->%bool_decide_eq_true). done.
  - intros H. exists t. by rewrite bool_decide_eq_true.
Qed.

Definition canonical_types (l : list PlanParameterType) : list PlanParameterType :=
  List.filter (fun t => types_mem t l) parameter_types.

Lemma canonical_types_elem t l : t ∈ canonical_types l <-> t ∈ l.
Proof.
  unfold canonical_types. rewrite list_elem_of_In, List.filter_In, types_mem_spec.
  split; [tauto|]. split; [by destruct t; simpl; tauto | done].
Qed.

Lemma canonical_types_ok l : l <> [] -> types_ok (canonical_types l) = true.
Proof.
  intros Hl. unfold types_ok. apply andb_true_iff. split.
  - apply negb_true_iff, bool_decide_eq_false. destruct l as [|t l]; [done|]. intros Hnil.
    assert (t ∈ canonical_types (t :: l)) as H by (apply canonical_types_elem; left).
    rewrite Hnil in H. by apply elem_of_nil in H.
  - apply bool_decide_eq_true. unfold canonical_types at 2. apply List.filter_ext.
    intros t. apply eq_true_iff_eq. by rewrite !types_mem_spec, canonical_types_elem.
Qed.

Lemma field_types_ok raw types : field_types raw = Ok types -> types_ok types = true.
Proof.
  unfold field_types. intros H. res_inv_step H. apply rbind_Ok in H as (u & Hne & H).
  apply rbind_Ok in H as (ts & Hts & H). apply rbind_Ok in H as (u' & _ & [= <-]).
  apply (canonical_types_ok ts). intros ->. apply mapR_Ok, Forall2_nil_inv_r in Hts as ->.
  by destruct u.
Qed.

Lemma normalize_ok fields normalized :
  normalize_parameter_fields fields = Ok normalized ->
  forallb field_ok normalized = true /\ sort_keys normalized = normalized.
Proof.
  unfold normalize_parameter_fields. intros H. res_inv H. split.
  - apply forallb_elem. intros kv Hkv. rewrite sort_keys_perm in Hkv.
    apply mapR_Ok in E. apply list_elem_of_lookup in Hkv as (i & Hi).
    destruct (Forall2_lookup_r _ _ _ _ _ E Hi) as ([k raw] & _ & Hk).
    unfold parameter_field in Hk. cbn [fst snd] in Hk. res_inv Hk.
    apply demand_Ok in E0. unfold field_ok. cbn [fst snd].
    by rewrite E0, (field_types_ok _ _ E1).
  - apply sort_keys_id, sort_keys_sorted.
Qed.

(** The constructor establishes the invariant of contracts. *)
Lemma parameter_contract_ok r o e c : parameter_contract r o e = Ok c -> contract_ok c.
Proof.
  unfold parameter_contract. intros H. res_inv H. apply demand_Ok in E1.
  destruct (normalize_ok _ _ E), (normalize_ok _ _ E0). by split.
Qed.

Record intent_policy_built (p : IntentPlanPolicy) : Prop := {
  ib_ok : intent_policy_ok p = Ok tt;
  ib_rules : rules_built (ip_rules p);
  ib_bindings : exists u, mapR binding_ok (ip_argument_bindings p) = Ok u;
  ib_conditions : exists u, mapR condition_ok (ip_preconditions p) = Ok u
}.

Lemma intent_policy_round_trip p : intent_policy_built p -> intent_policy_from_dict (VDict (intent_policy_to_dict p)) = Ok p.
Proof.
  intros [Hok Hr [ub Hb] [uc Hc]]. pose proof (intent_policy_stores_rules p) as Hst.
  unfold intent_policy_from_dict. cbn [mapping rbind]. set (d := intent_policy_to_dict p) in *.
  assert (Hk : has_keys required_policy_fields optional_rule_fields d = true) by reflexivity.
  rewrite Hk. cbn [demand rbind]. rewrite (rules_round_trip _ _ Hr Hst).
  change (jget d "intent") with (VStr (ip_intent p)).
  change (jget_or d "argumentBindings" (VList [])) with (bindings_value (ip_argument_bindings p)).
  change (jget_or d "preconditions" (VList [])) with (conditions_value (ip_preconditions p)).
  rewrite (bindings_round_trip _ _ Hb), (conditions_round_trip _ _ Hc).
  pose proof Hok as Hok'. unfold intent_policy_ok in Hok'. res_inv Hok'. apply non_empty_Ok in E.
  cbn [rbind]. rewrite text_VStr by done. cbn [rbind]. apply made_Ok. by destruct p.
Qed.

(** Strictly increasing neighbours *)
Definition text_lt (s t : string) : Prop := String.compare s t = Lt.

Lemma set_insert_sorted s l : Sorted text_lt l -> Sorted text_lt (set_insert s l).
Proof.
  induction 1 as [|t l Hl IH Ht]; simpl; [by repeat constructor|].
  destruct (String.compare s t) eqn:E.
  - by constructor.
  - by repeat constructor.
  - assert (Hts : text_lt t s) by (unfold text_lt; by rewrite String.compare_antisym, E).
    constructor; [done|]. destruct l as [|u l]; simpl; [by constructor|].
    apply HdRel_inv in Ht. destruct (String.compare s u); by constructor.
Qed.

Lemma frozenset_sorted l : Sorted text_lt (frozenset l).
Proof. induction l; simpl; [constructor | by apply set_insert_sorted]. Qed.

Lemma frozenset_id l : Sorted text_lt l -> frozenset l = l.
Proof.
  induction 1 as [|s l Hl IH Hs]; [done|]. simpl. fold (frozenset l). rewrite IH.
  destruct l as [|t l]; [done|]. apply HdRel_inv in Hs. simpl. unfold text_lt in Hs.
  by rewrite Hs.
Qed.

Lemma set_insert_elem x s l : x ∈ set_insert s l <-> x = s \/ x ∈ l.
Proof.
  induction l as [|t l IH]; simpl.
  - rewrite list_elem_of_singleton. split; [by left | intros [|H]; [done|by apply elem_of_nil in H]].
  - destruct (String.compare s t) eqn:E.
    + apply String.compare_eq_iff in E as ->. rewrite !elem_of_cons. tauto.
    + rewrite !elem_of_cons. tauto.
    + rewrite !elem_of_cons, IH. tauto.
Qed.

Lemma frozenset_elem x l : x ∈ frozenset l <-> x ∈ l.
Proof.
  induction l as [|s l IH]; simpl; [done|]. fold (frozenset l).
  by rewrite set_insert_elem, IH, elem_of_cons.
Qed.

Lemma frozenset_nonblank l :
  forallb (fun s => negb (blank s)) (frozenset l) = forallb (fun s => negb (blank s)) l.
Proof.
  apply eq_true_iff_eq. rewrite !forallb_elem. split; intros H x Hx; apply H;
    by apply frozenset_elem.
Qed.

(** A receipt as it comes out of storage: times are floats. *)
Definition is_float (n : pynum) : bool := match n with NFloat _ => true | NInt _ => false end.

Record receipt_stored (r : PlanApprovalReceipt) : Prop := {
  rs_ok : plan_receipt_ok r = Ok tt;
  rs_roles : frozenset (pr_approver_roles r) = pr_approver_roles r;
  rs_issued : is_float (pr_issued_at r) = true;
  rs_expires : is_float (pr_expires_at r) = true;
  rs_consumed : opt_ok (fun n => is_float n = true) (pr_consumed_at r)
}.

Lemma timestamp_is_float v n : timestamp v = Ok n -> is_float n = true.
Proof. unfold timestamp. intros H. by res_inv H. Qed.

Lemma optional_result {A} (P : A -> Prop) f v o :
  (forall w x, f w = Ok x -> P x) -> optional f v = Ok o -> opt_ok P o.
Proof.
  intros Hf H. unfold optional in H. destruct v; [by simplify_eq|..];
    apply rbind_Ok in H as (x & Hx & [= <-]); simpl; by eapply Hf.
Qed.

Lemma receipt_from_dict_stored d r : plan_receipt_from_dict d = Ok r -> receipt_stored r.
Proof.
  unfold plan_receipt_from_dict. intros H. res_inv H. apply made_Ok in H as [-> Hok].
  split; cbn; eauto using timestamp_is_float, optional_result.
  apply frozenset_id, frozenset_sorted.
Qed.

Lemma timestamp_float n f :
  is_float n = true -> finite_timestamp (num_value n) = Ok f -> timestamp (num_value n) = Ok n.
Proof.
  destruct n as [|g]; [done|]. intros _ H. unfold timestamp. rewrite H. simpl in *.
  destruct (fl_finite g); [by simplify_eq | done].
Qed.

Lemma consumed_round_trip r :
  receipt_stored r ->
  optional timestamp (option_value num_value (pr_consumed_at r)) = Ok (pr_consumed_at r).
Proof.
  intros [Hok _ _ _ Hc]. apply optional_round_trip; [by intros []|].
  unfold plan_receipt_ok in Hok. destruct (pr_consumed_at r) as [c|]; [|done].
  res_inv Hok. simpl in *. by eapply timestamp_float.
Qed.

Lemma receipt_round_trip r :
  receipt_stored r -> plan_receipt_from_dict (plan_receipt_to_dict r) = Ok r.
Proof.
  intros Hr. pose proof (consumed_round_trip r Hr) as Hct. destruct Hr as [Hok Hroles Hi He _].
  pose proof Hok as H. unfold plan_receipt_ok in H.
  apply rbind_Ok in H as (u1 & E1%demand_Ok & H). apply rbind_Ok in H as (u2 & _ & H).
  apply rbind_Ok in H as (u3 & _ & H). apply rbind_Ok in H as (u4 & E4%demand_Ok & H).
  apply rbind_Ok in H as (i & Hti & H). apply rbind_Ok in H as (e & Hte & _).
  cbn [forallb] in E1. repeat (apply andb_true_iff in E1 as [? E1]).
  apply andb_true_iff in E4 as [_ E4]. unfold plan_receipt_from_dict.
  cbn -[text texts timestamp finite_timestamp made optional option_value num_value frozenset].
  rewrite texts_round_trip by done. rewrite !text_nonblank by done. cbn [rbind integer].
  rewrite (timestamp_float _ _ Hi Hti), (timestamp_float _ _ He Hte), Hct. cbn [rbind].
  rewrite Hroles. apply made_Ok. by destruct r.
Qed.

Lemma plan_event_round_trip e :
  plan_event_ok e = Ok tt -> plan_event_from_dict (plan_event_to_dict e) = Ok e.
Proof.
  intros Hok. pose proof Hok as H. unfold plan_event_ok in H. res_inv H.
  apply non_empty_Ok in E0, E1. unfold plan_event_from_dict.
  cbn -[text integer mapping made]. cbn [integer rbind]. rewrite !text_VStr by done.
  cbn [rbind mapping]. apply made_Ok. by destruct e.
Qed.

(** What reading a stored step establishes, whatever was stored. *)
Lemma step_from_dict_checked v s :
  step_from_dict v = Ok s ->
  plan_step_ok s = Ok tt /\ ps_execution_action_hash s = None /\
  exists d h, v = VDict d /\ jget d "actionHash" = VStr h /\ step_action_hash s = Ok h.
Proof.
  unfold step_from_dict. intros H.
  apply rbind_Ok in H as (d & Hd & H). destruct v; [done..|]. injection Hd as ->.
  do 8 (apply rbind_Ok in H as (? & _ & H)).
  apply rbind_Ok in H as (s' & Hs & H). apply made_Ok in Hs as [-> Hok].
  apply rbind_Ok in H as (h & Hh & H). apply rbind_Ok in H as (u & Hu%demand_Ok & [= <-]).
  apply is_str_spec in Hu. split_and!; [done|done|]. by exists d, h.
Qed.

(** C28. No stored plan can be altered behind its action hashes: a plan that is
    restored has the identity and version that were stored, distinct well-formed
    steps, and the hash stored with each step is the digest of the step's own
    content. *)
Theorem restored_plan_is_checked d p :
  plan_from_dict d = Ok p ->
  plan_ok p = Ok tt /\
  jget d "planId" = VStr (pl_plan_id p) /\ jget d "schemaVersion" = VInt 1 /\
  exists raw, jget d "steps" = VList raw /\
  Forall2 (fun v s => plan_step_ok s = Ok tt /\
             exists f, v = VDict f /\
                       jget f "actionHash" = VStr (json_digest (VDict (step_action s))))
    raw (pl_steps p).
Proof.
  unfold plan_from_dict. intros H. apply rbind_Ok in H as (u1 & _ & H).
  apply rbind_Ok in H as (raw & Hraw & H). apply rbind_Ok in H as (u2 & _ & H).
  apply rbind_Ok in H as (steps & Hsteps & H). apply rbind_Ok in H as (req & Hreq & H).
  apply rbind_Ok in H as (pid & Hpid & H). apply rbind_Ok in H as (ver & Hver & H).
  apply made_Ok in H as [-> Hok]. split_and!; [done|..].
  - cbn. destruct (jget d "planId"); try done. cbn in Hpid.
    destruct (blank s); [done | by simplify_eq].
  - pose proof Hok as Hv. unfold plan_ok in Hv. cbn -[non_empty] in Hv. res_inv Hv.
    apply demand_Ok, Z.eqb_eq in E1. destruct (jget d "schemaVersion"); try done.
    cbn in Hver. by simplify_eq.
  - exists raw. cbn. split.
    + destruct (jget d "steps"); try done. cbn in Hraw. by simplify_eq.
    + apply mapR_Ok in Hsteps. eapply Forall2_impl; [exact Hsteps|].
      intros v s (Hs & Hx & f & h & -> & Hf & Hh)%step_from_dict_checked.
      split; [done|]. exists f. split; [done|]. rewrite Hf. unfold step_action_hash in Hh.
      rewrite Hx in Hh. unfold digest in Hh. destruct (strict_json _); [by simplify_eq | done].
Qed.

(** ** A worked plan: look a balance up, transfer part of it, tell the customer *)
Definition lookup_rules : step_rules :=
  mkRules false false Safe ["account.read"] [] None [] false
    (Some [mkRule [PKey "amount"] OpGt (VInt 0)]).

Definition transfer_rules : step_rules :=
  mkRules true true Never ["account.write"] ["manager"]
    (Some (mkContract [("amount", [TInteger; TNumber]); ("to", [TString])] [] false))
    ["lookup"] false None.

Definition notify_rules : step_rules :=
  mkRules false false Never ["mail.send"] [] None ["transfer"] false None.

Definition amount_reference : PlanResultReference := mkResultReference "s1" [PKey "amount"].
Definition amount_source : PlanIntentResultReference := mkIntentReference "lookup" [PKey "amount"].

Definition lookup_policy : IntentPlanPolicy := mkPolicy "lookup" lookup_rules [] [].
Definition transfer_policy : IntentPlanPolicy :=
  mkPolicy "transfer" transfer_rules [mkBinding "amount" amount_source]
    [mkCondition amount_source OpLte (VInt 500) None].
Definition notify_policy : IntentPlanPolicy := mkPolicy "notify" notify_rules [] [].

Definition lookup_step : PlanStep :=
  mkStep "s1" "lookup" [("account", VStr "A-17")] [] lookup_rules [] [] None.
Definition transfer_step : PlanStep :=
  mkStep "s2" "transfer" [("to", VStr "B-4")] ["s1"] transfer_rules
    [mkBinding "amount" amount_reference] [mkCondition amount_reference OpLte (VInt 500) None] None.
Definition notify_step : PlanStep :=
  mkStep "s3" "notify" [("text", VStr "done")] ["s2"] notify_rules [] [] None.

Definition sample_plan : MultiIntentPlan :=
  mkPlan "pay B-4 from A-17" [lookup_step; transfer_step; notify_step] "plan-1" 1.

Lemma sample_plan_built : plan_built sample_plan.
Proof.
  assert (Hl : rules_built lookup_rules) by (split; vm_compute; done).
  assert (Ht : rules_built transfer_rules) by (repeat split; vm_compute; reflexivity).
  assert (Hn : rules_built notify_rules) by (split; vm_compute; done).
  split; [vm_compute; reflexivity|].
  repeat constructor; cbn; try assumption; try (vm_compute; reflexivity);
    eexists; vm_compute; reflexivity.
Qed.

Definition stored_plan : pydict :=
  match plan_to_dict sample_plan with Ok d => d | Err _ => [] end.

Lemma plan_survives_persistence_witness :
  exists d, (plan_to_dict sample_plan = Ok d) /\ (plan_from_dict d = Ok sample_plan).
Proof. exact (plan_survives_persistence sample_plan sample_plan_built). Defined.

Lemma restored_plan_is_checked_witness : plan_ok sample_plan = Ok tt.
Proof.
  refine (proj1 (restored_plan_is_checked stored_plan sample_plan _)).
  vm_compute. reflexivity.
Defined.
