(* ===== verification/PlanGraph.v ===== *)
(** * Plan graphs and plan validation  (src/.../planning/graph.py)

    [DependencyGraph]: the dependency maps of a plan, Kahn's topological sort,
    ready and blocked steps, descendants; [PlanValidator]: comparison of a plan
    with the trusted policies and the binding of a model's plan to them. *)

From S2P Require Import Prelude PyDict Text PyVal DurableAction PlanTypes PlanPersistence Canonical.
From Stdlib Require Import String.

#[local] Open Scope string_scope.
#[local] Open Scope bool_scope.
#[local] Open Scope Z_scope.
#[local] Arguments blank : simpl never.

(** ** Construction *)
Record DependencyGraph := mkGraph {
  dg_plan : MultiIntentPlan;
  dg_dependencies : dict (list string);
  dg_dependents : dict (list string);
  dg_topological_order : list string
}.

(** [d\[k\]] on a dict of sets whose keys are the steps *)
Definition set_at (k : string) (d : dict (list string)) : list string :=
  default [] (dget k d).

Definition step_ids (p : MultiIntentPlan) : list string := map ps_step_id (pl_steps p).

(** [{step.step_id: frozenset(step.depends_on) for step in plan.steps}] *)
Definition plan_dependencies (p : MultiIntentPlan) : dict (list string) :=
  fold_left (fun d s => dset (ps_step_id s) (frozenset (ps_depends_on s)) d) (pl_steps p) [].

(** [dependents\[dependency\].add(step_id)], after the existence check *)
Definition add_dependent (step_id : string) (dependents : dict (list string))
    (dependency : string) : res (dict (list string)) :=
  match dget dependency dependents with
  | None => Err PlanValidationError
  | Some l => Ok (dset dependency (set_insert step_id l) dependents)
  end.

Definition add_dependents (dependents : dict (list string)) (kv : string * list string)
  : res (dict (list string)) := foldM (add_dependent (fst kv)) dependents (snd kv).

Definition plan_dependents (p : MultiIntentPlan) : res (dict (list string)) :=
  foldM add_dependents (fold_left (fun d s => dset (ps_step_id s) [] d) (pl_steps p) [])
        (plan_dependencies p).

(** [source_order\[step_id\]] *)
Fixpoint index_of (s : string) (l : list string) : Z :=
  match l with
  | [] => 0
  | t :: l' => if String.eqb s t then 0 else 1 + index_of s l'
  end.

Definition source_order (p : MultiIntentPlan) (step_id : string) : Z :=
  index_of step_id (step_ids p).

(** One dependent of the step just ordered: its indegree drops, and it becomes
    ready when nothing is left. *)
Definition release (acc : list string * dict Z) (dependent : string) : list string * dict Z :=
  let n := default 0 (dget dependent (snd acc)) - 1 in
  let indegree := dset dependent n (snd acc) in
  if n =? 0 then ((fst acc ++ [dependent])%list, indegree) else (fst acc, indegree).

(** [while ready: ...] *)
Fixpoint sort_loop (fuel : nat) (order : string -> Z) (dependents : dict (list string))
    (ready : list string) (indegree : dict Z) (ordered : list string)
  : option (list string * dict Z) :=
  match ready with
  | [] => Some (ordered, indegree)
  | current :: ready' =>
      match fuel with
      | O => None
      | S fuel' =>
          let '(ready'', indegree') :=
            fold_left release (sort_by order (set_at current dependents)) (ready', indegree) in
          sort_loop fuel' order dependents ready'' indegree' (ordered ++ [current])%list
      end
  end.

Definition indegrees (dependencies : dict (list string)) : dict Z :=
  map (fun kv => (fst kv, Z.of_nat (List.length (snd kv)))) dependencies.

(** [_sort]; the loop orders one step per turn, so it turns at most once per step
    (theorem [sort_terminates]). *)
Definition topological_sort (p : MultiIntentPlan) (dependencies dependents : dict (list string))
  : res (list string) :=
  let indegree := indegrees dependencies in
  let ready := sort_by (source_order p)
                 (map fst (List.filter (fun kv => (snd kv =? 0)) indegree)) in
  match sort_loop (List.length (pl_steps p)) (source_order p) dependents ready indegree [] with
  | None => Err OutsideModel
  | Some (ordered, _) =>
      if Nat.eqb (List.length ordered) (List.length indegree) then Ok ordered
      else Err PlanValidationError
  end.

(** [DependencyGraph.__init__] *)
Definition dependency_graph (p : MultiIntentPlan) : res DependencyGraph :=
  let dependencies := plan_dependencies p in
  let! dependents := plan_dependents p in
  let! order := topological_sort p dependencies dependents in
  Ok (mkGraph p dependencies dependents order).

(** ** Queries *)
Definition status_of (st : PlanExecutionState) (step_id : string) : option PlanStepStatus :=
  ss_status <$> dget step_id (xs_steps st).

Definition has_status (st : PlanExecutionState) (l : list PlanStepStatus) (step_id : string)
  : bool := match status_of st step_id with Some s => status_in l s | None => false end.

(** The pending steps that satisfy a test, in topological order; the loop reads
    the state of every step, so a missing one is a [KeyError]. *)
Definition pending_steps (g : DependencyGraph) (st : PlanExecutionState)
    (test : string -> bool) : res (list string) :=
  if forallb (fun i => dmem i (xs_steps st)) (dg_topological_order g)
  then Ok (List.filter (fun i => has_status st [StepPending] i && test i)
             (dg_topological_order g))
  else Err KeyError.

(** [ready_steps] *)
Definition ready_steps (g : DependencyGraph) (st : PlanExecutionState) : res (list string) :=
  pending_steps g st
    (fun i => forallb (has_status st [StepSucceeded]) (set_at i (dg_dependencies g))).

Definition terminal_failures : list PlanStepStatus :=
  [StepFailed; StepSkipped; StepNotApplicable; StepManualIntervention].

(** [blocked_steps] *)
Definition blocked_steps (g : DependencyGraph) (st : PlanExecutionState) : res (list string) :=
  pending_steps g st
    (fun i => existsb (has_status st terminal_failures) (set_at i (dg_dependencies g))).

(** [while queue: ...] of [descendants] *)
Fixpoint reach_loop (fuel : nat) (dependents : dict (list string)) (queue found : list string)
  : option (list string) :=
  match queue with
  | [] => Some found
  | current :: queue' =>
      match fuel with
      | O => None
      | S fuel' =>
          if mem_str current found then reach_loop fuel' dependents queue' found
          else reach_loop fuel' dependents (queue' ++ set_at current dependents)%list
                 (current :: found)
      end
  end.

(** Every edge is queued at most once, and the initial ones once more. *)
Definition edge_count (dependents : dict (list string)) : nat :=
  list_sum (map (fun kv => List.length (snd kv)) dependents).

(** [descendants] *)
Definition descendants (g : DependencyGraph) (step_id : string) : res (list string) :=
  match dget step_id (dg_dependents g) with
  | None => Err KeyError
  | Some first =>
      match reach_loop (List.length first + edge_count (dg_dependents g)) (dg_dependents g)
              first [] with
      | Some found => Ok (List.filter (fun i => mem_str i found) (dg_topological_order g))
      | None => Err OutsideModel
      end
  end.

(** [is_ancestor] *)
Definition is_ancestor (g : DependencyGraph) (ancestor descendant : string) : res bool :=
  let! l := descendants g ancestor in Ok (mem_str descendant l).

(** ** Sets of strings *)
Lemma text_lt_trans s t u : text_lt s t -> text_lt t u -> text_lt s u.
Proof.
  unfold text_lt. intros Hst Htu.
  assert (H : String.compare s u <> Gt) by (apply (compare_trans_le s t u); [by rewrite Hst | by rewrite Htu]).
  destruct (String.compare s u) eqn:E; [|done|done].
  apply String.compare_eq_iff in E as ->. rewrite String.compare_antisym, Htu in Hst. done.
Qed.

Lemma frozenset_NoDup l : NoDup (frozenset l).
Proof.
  pose proof (frozenset_sorted l) as H. apply Sorted_StronglySorted in H;
    [|intros ? ? ?; apply text_lt_trans].
  induction H as [|s l' H IH Hs]; constructor; [|done].
  intros Hin. rewrite Forall_forall in Hs. specialize (Hs s Hin). unfold text_lt in Hs.
  pose proof (String.compare_antisym s s) as Ha. by rewrite Hs in Ha.
Qed.

Lemma set_insert_NoDup s l : Sorted text_lt l -> NoDup (set_insert s l).
Proof.
  intros Hl. apply (set_insert_sorted s) in Hl. rewrite <- (frozenset_id _ Hl).
  apply frozenset_NoDup.
Qed.

(** ** Kahn's algorithm *)
Definition degree (indegree : dict Z) (v : string) : Z := default 0 (dget v indegree).

Lemma release_fold L ready indegree :
  NoDup L ->
  fst (fold_left release L (ready, indegree))
  = (ready ++ List.filter (fun v => (degree indegree v - 1 =? 0)) L)%list /\
  forall v, degree (snd (fold_left release L (ready, indegree))) v
            = degree indegree v - (if mem_str v L then 1 else 0).
Proof.
  revert ready indegree. induction L as [|u L IH]; intros ready indegree Hnd.
  - simpl. rewrite app_nil_r. split; [done|]. intros v. simpl. unfold mem_str. simpl. lia.
  - apply NoDup_cons in Hnd as [Hu HL]. cbn [fold_left].
    set (n := default 0 (dget u indegree) - 1).
    set (i' := dset u n indegree).
    assert (Hdeg : forall v, degree i' v = if String.eqb u v then n else degree indegree v).
    { intros v. unfold degree, i'. rewrite dget_dset. by destruct (String.eqb u v). }
    assert (Hrel : release (ready, indegree) u
              = (if n =? 0 then (ready ++ [u])%list else ready, i')).
    { unfold release. cbn [fst snd]. fold n. fold i'. by destruct (n =? 0). }
    rewrite Hrel. destruct (IH (if n =? 0 then (ready ++ [u])%list else ready) i' HL) as [H1 H2].
    split.
    + rewrite H1. cbn [List.filter]. change (degree indegree u - 1) with n.
      assert (Hf : List.filter (fun v => (degree i' v - 1 =? 0)) L
                 = List.filter (fun v => (degree indegree v - 1 =? 0)) L).
      { apply List.filter_ext_in. intros v Hv%list_elem_of_In. rewrite Hdeg.
        destruct (String.eqb_spec u v) as [->|]; [done|]. done. }
      rewrite Hf. destruct (n =? 0); [by rewrite <- app_assoc | done].
    + intros v. rewrite H2, Hdeg, mem_str_cons.
      rewrite (String.eqb_sym v u). destruct (String.eqb_spec u v) as [->|].
      * rewrite (proj2 (mem_str_false v L) Hu). unfold n, degree. simpl. lia.
      * simpl. done.
Qed.

Section Kahn.
Variable V : list string.
Variable deps : string -> list string.
Variable dependents : dict (list string).
Variable order : string -> Z.
Hypothesis V_NoDup : NoDup V.
Hypothesis deps_NoDup : forall v, NoDup (deps v).
Hypothesis deps_in : forall v d, v ∈ V -> d ∈ deps v -> d ∈ V.
Hypothesis dependents_NoDup : forall u, NoDup (set_at u dependents).
Hypothesis dependents_spec :
  forall u v, u ∈ V -> v ∈ set_at u dependents <-> v ∈ V /\ u ∈ deps v.

(** The dependencies of [v] that are not ordered yet *)
Definition waiting (ordered : list string) (v : string) : list string :=
  List.filter (fun d => negb (mem_str d ordered)) (deps v).

(** Every dependency comes before its dependent. *)
Definition respects (ordered : list string) : Prop :=
  forall l1 v l2, ordered = (l1 ++ v :: l2)%list -> forall d, d ∈ deps v -> d ∈ l1.

Record sort_inv (ready : list string) (indegree : dict Z) (ordered : list string) : Prop := {
  si_NoDup : NoDup (ordered ++ ready);
  si_in : forall v, v ∈ (ordered ++ ready)%list -> v ∈ V;
  si_degree : forall v, v ∈ V -> degree indegree v = Z.of_nat (List.length (waiting ordered v));
  si_ready : forall v, v ∈ V -> v ∈ (ordered ++ ready)%list <-> waiting ordered v = [];
  si_respects : respects ordered
}.

Lemma waiting_nil ordered v : waiting ordered v = [] <-> forall d, d ∈ deps v -> d ∈ ordered.
Proof.
  unfold waiting. rewrite filter_nil_elem. split; intros H d Hd; specialize (H d Hd).
  - apply mem_str_spec. by apply negb_false_iff.
  - by apply negb_false_iff, mem_str_spec.
Qed.

Lemma filter_drop_one (c : string) (l ordered : list string) :
  NoDup l -> c ∉ ordered ->
  Z.of_nat (List.length (List.filter (fun d => negb (mem_str d (ordered ++ [c]))) l))
  = Z.of_nat (List.length (List.filter (fun d => negb (mem_str d ordered)) l))
    - (if mem_str c l then 1 else 0).
Proof.
  intros Hnd Hc. assert (Hm : forall d, mem_str d (ordered ++ [c]) = mem_str d ordered || String.eqb d c).
  { intros d. unfold mem_str. rewrite List.existsb_app. simpl. by rewrite orb_false_r. }
  induction l as [|x l IH]; [done|]. apply NoDup_cons in Hnd as [Hx Hl].
  cbn [List.filter]. rewrite Hm, mem_str_cons.
  specialize (IH Hl). rewrite (String.eqb_sym c x). destruct (String.eqb_spec x c) as [->|Hne].
  - rewrite (proj2 (mem_str_false c l) Hx) in IH. rewrite (proj2 (mem_str_false c ordered) Hc).
    cbn [negb orb List.length]. lia.
  - rewrite orb_false_r. cbn [orb]. destruct (negb (mem_str x ordered)); cbn [List.length]; lia.
Qed.

Lemma respects_snoc ordered c :
  respects ordered -> (forall d, d ∈ deps c -> d ∈ ordered) -> respects (ordered ++ [c]).
Proof.
  intros Hr Hc l1 v l2 Heq d Hd.
  destruct (decide (l2 = [])) as [->|Hne].
  - apply app_inj_tail in Heq as [-> ->]. auto.
  - destruct (exists_last Hne) as (l2' & x & ->).
    change (v :: l2' ++ [x])%list with ((v :: l2') ++ [x])%list in Heq. rewrite app_assoc in Heq.
    apply app_inj_tail in Heq as [Heq _]. eauto.
Qed.

Lemma sort_step current ready indegree ordered :
  sort_inv (current :: ready) indegree ordered ->
  sort_inv (fst (fold_left release (sort_by order (set_at current dependents)) (ready, indegree)))
           (snd (fold_left release (sort_by order (set_at current dependents)) (ready, indegree)))
           (ordered ++ [current]).
Proof.
  intros [Hnd Hin Hdeg Hready Hresp].
  set (L := sort_by order (set_at current dependents)).
  assert (HcV : current ∈ V) by (apply Hin, elem_of_app; right; left).
  assert (HL : forall v, v ∈ L <-> v ∈ V /\ current ∈ deps v).
  { intros v. unfold L. rewrite sort_by_perm. by apply dependents_spec. }
  assert (HLnd : NoDup L) by (unfold L; by rewrite sort_by_perm).
  destruct (release_fold L ready indegree HLnd) as [Hf Hd]. rewrite Hf.
  assert (Hco : current ∉ ordered).
  { apply NoDup_app in Hnd as (_ & Hx & _). intros H. apply (Hx _ H). left. }
  assert (Hcdeps : forall d, d ∈ deps current -> d ∈ ordered).
  { apply waiting_nil, Hready; [done|]. apply elem_of_app. right. left. }
  assert (Hdeg' : forall v, v ∈ V ->
     Z.of_nat (List.length (waiting (ordered ++ [current]) v))
     = Z.of_nat (List.length (waiting ordered v)) - (if mem_str v L then 1 else 0)).
  { intros v Hv. unfold waiting. rewrite filter_drop_one by auto. f_equal.
    replace (mem_str v L) with (mem_str current (deps v)); [done|].
    apply eq_true_iff_eq. rewrite !mem_str_spec, HL. tauto. }
  assert (Hnew : forall v, v ∈ List.filter (fun v => (degree indegree v - 1 =? 0)) L <->
     v ∈ V /\ current ∈ deps v /\ waiting (ordered ++ [current]) v = []).
  { intros v. rewrite list_elem_of_In, List.filter_In, <- list_elem_of_In, HL, Z.eqb_eq.
    rewrite <- (List.length_zero_iff_nil (waiting _ v)). split.
    - intros [[Hv Hcv] Hz]. split_and!; [done..|]. specialize (Hdeg' v Hv). rewrite <- Hdeg in Hdeg' by done.
      rewrite (proj2 (mem_str_spec v L)) in Hdeg' by (by apply HL). lia.
    - intros (Hv & Hcv & Hz). split; [done|]. specialize (Hdeg' v Hv). rewrite <- Hdeg in Hdeg' by done.
      rewrite (proj2 (mem_str_spec v L)) in Hdeg' by (by apply HL). lia. }
  split.
  - rewrite <- app_assoc. simpl. rewrite app_comm_cons, app_assoc. apply NoDup_app. split_and!.
    + done.
    + intros v Hv (HvV & Hcv & Hw)%Hnew. apply Hready in Hv; [|done].
      rewrite waiting_nil in Hv. auto.
    + apply NoDup_ListNoDup, List.NoDup_filter. by apply NoDup_ListNoDup.
  - intros v Hv. rewrite <- app_assoc in Hv. simpl in Hv. rewrite app_comm_cons, app_assoc in Hv.
    apply elem_of_app in Hv as [Hv|Hv]; [by apply Hin|]. by apply Hnew in Hv as [? _].
  - intros v Hv. by rewrite Hd, Hdeg, Hdeg'.
  - intros v Hv. rewrite <- app_assoc. simpl. rewrite app_comm_cons, app_assoc, elem_of_app, Hready by done.
    rewrite Hnew. split.
    + intros [H|(_ & _ & H)]; [|done]. rewrite waiting_nil in *. intros d Hd'%H.
      apply elem_of_app. by left.
    + intros H. destruct (decide (current ∈ deps v)) as [Hcv|Hcv]; [by right|]. left.
      rewrite waiting_nil in *. intros d Hd'. specialize (H d Hd').
      apply elem_of_app in H as [H|H%list_elem_of_singleton]; [done|by subst].
  - by apply respects_snoc.
Qed.

(** The loop ends within one turn per step and keeps the invariant. *)
Lemma sort_loop_ends fuel ready indegree ordered :
  sort_inv ready indegree ordered ->
  (List.length V <= fuel + List.length ordered)%nat ->
  exists ordered' indegree',
    sort_loop fuel order dependents ready indegree ordered = Some (ordered', indegree') /\
    sort_inv [] indegree' ordered'.
Proof.
  revert ready indegree ordered. induction fuel as [|fuel IH]; intros ready indegree ordered Hinv Hlen.
  - destruct ready as [|c ready]; [by eexists _, _|]. exfalso.
    destruct Hinv as [Hnd Hin _ _ _].
    assert (Hle : (List.length (ordered ++ c :: ready) <= List.length V)%nat).
    { by apply submseteq_length, NoDup_submseteq. }
    rewrite length_app in Hle. simpl in Hle. lia.
  - destruct ready as [|c ready]; [by eexists _, _|]. cbn [sort_loop].
    pose proof (sort_step _ _ _ _ Hinv) as Hs.
    destruct (fold_left release _ _) as [r i]. cbn [fst snd] in Hs.
    apply IH; [done|]. rewrite length_app. simpl. lia.
Qed.

Lemma sort_done indegree ordered :
  sort_inv [] indegree ordered -> List.length ordered = List.length V -> Permutation ordered V.
Proof.
  intros [Hnd Hin _ _ _] Hlen. rewrite app_nil_r in *.
  apply submseteq_length_Permutation; [by apply NoDup_submseteq | lia].
Qed.

(** What is left over after the loop waits for something left over. *)
Lemma sort_stuck indegree ordered v :
  sort_inv [] indegree ordered -> v ∈ V -> v ∉ ordered ->
  exists d, d ∈ deps v /\ d ∈ V /\ d ∉ ordered.
Proof.
  intros [Hnd Hin Hdeg Hready _] Hv Hvo. rewrite app_nil_r in *.
  destruct (waiting ordered v) as [|d l] eqn:E; [by apply Hready in E|].
  assert (Hd : d ∈ waiting ordered v) by (rewrite E; left).
  unfold waiting in Hd. rewrite list_elem_of_In, List.filter_In, <- list_elem_of_In in Hd.
  destruct Hd as [Hd Hm]. exists d. split_and!; [done|by eapply deps_in|].
  apply mem_str_false. by apply negb_true_iff.
Qed.
End Kahn.

(** ** The dependency maps of a plan *)

(** Step [v] names step [d] among its dependencies. *)
Definition depends (p : MultiIntentPlan) (v d : string) : Prop :=
  exists s, s ∈ pl_steps p /\ ps_step_id s = v /\ d ∈ ps_depends_on s.

Lemma fold_dset_map {A B : Type} (key : A -> string) (val : A -> B) l acc :
  NoDup (dkeys acc ++ map key l) ->
  fold_left (fun d s => dset (key s) (val s) d) l acc
  = (acc ++ map (fun s => (key s, val s)) l)%list.
Proof.
  revert acc. induction l as [|s l IH]; intros acc Hnd; cbn [fold_left map].
  - by rewrite app_nil_r.
  - assert (Hs : key s ∉ dkeys acc).
    { apply NoDup_app in Hnd as (_ & H & _). intros Hin. apply (H _ Hin). left. }
    rewrite dset_fresh by done. rewrite IH.
    + by rewrite <- app_assoc.
    + unfold dkeys in *. rewrite map_app, <- app_assoc. done.
Qed.

Lemma set_at_map (p : MultiIntentPlan) (f : PlanStep -> list string) s :
  NoDup (step_ids p) -> s ∈ pl_steps p ->
  set_at (ps_step_id s) (map (fun s => (ps_step_id s, f s)) (pl_steps p)) = f s.
Proof.
  intros Hnd Hs. unfold set_at. erewrite elem_dget; [done| |].
  - unfold dict_wf, dkeys. rewrite map_map. exact Hnd.
  - apply list_elem_of_fmap. by exists s.
Qed.

Lemma plan_dependencies_eq p :
  NoDup (step_ids p) ->
  plan_dependencies p
  = map (fun s => (ps_step_id s, frozenset (ps_depends_on s))) (pl_steps p).
Proof. intros H. unfold plan_dependencies. by rewrite fold_dset_map. Qed.

Lemma step_ids_elem p v : v ∈ step_ids p <-> exists s, s ∈ pl_steps p /\ ps_step_id s = v.
Proof. unfold step_ids. rewrite list_elem_of_fmap. naive_solver. Qed.

Lemma set_at_missing k d : k ∉ dkeys d -> set_at k d = [].
Proof. intros H. unfold set_at. by rewrite (proj2 (dget_None _ _) H). Qed.

Lemma plan_dependencies_keys p : NoDup (step_ids p) -> dkeys (plan_dependencies p) = step_ids p.
Proof. intros H. rewrite plan_dependencies_eq by done. unfold dkeys. by rewrite map_map. Qed.

Lemma plan_dependencies_spec p v d :
  NoDup (step_ids p) -> d ∈ set_at v (plan_dependencies p) <-> depends p v d.
Proof.
  intros Hnd. unfold depends. destruct (decide (v ∈ step_ids p)) as [Hv|Hv].
  - apply step_ids_elem in Hv as (s & Hs & <-). rewrite plan_dependencies_eq by done.
    rewrite (set_at_map p (fun s => frozenset (ps_depends_on s))) by done.
    rewrite frozenset_elem. split; [by exists s|]. intros (s' & Hs' & Heq & Hd).
    by rewrite <- (NoDup_map_inj ps_step_id (pl_steps p) s' s).
  - rewrite set_at_missing by by rewrite plan_dependencies_keys.
    split; [intros H; by apply elem_of_nil in H|]. intros (s & Hs & Heq & _).
    destruct Hv. apply step_ids_elem. by exists s.
Qed.

(** [D'] is [D] with the dependents [P] added. *)
Record added (P : string -> string -> Prop) (D D' : dict (list string)) : Prop := {
  ad_keys : dkeys D' = dkeys D;
  ad_sorted : (forall u, Sorted text_lt (set_at u D)) -> forall u, Sorted text_lt (set_at u D');
  ad_spec : forall u x, x ∈ set_at u D' <-> x ∈ set_at u D \/ P x u
}.

Lemma added_trans P Q D1 D2 D3 :
  added P D1 D2 -> added Q D2 D3 -> added (fun x u => P x u \/ Q x u) D1 D3.
Proof.
  intros [K1 S1 E1] [K2 S2 E2]. split; [congruence|auto|].
  intros u x. rewrite E2, E1. tauto.
Qed.

Lemma added_proper P Q D D' :
  (forall x u, P x u <-> Q x u) -> added P D D' -> added Q D D'.
Proof. intros H [K S E]. split; [done..|]. intros u x. by rewrite E, H. Qed.

Lemma set_at_dset k k' l D :
  set_at k' (dset k l D) = if String.eqb k k' then l else set_at k' D.
Proof. unfold set_at. rewrite dget_dset. by destruct (String.eqb k k'). Qed.

Lemma add_dependent_spec v D d :
  match add_dependent v D d with
  | Ok D' => d ∈ dkeys D /\ added (fun x u => x = v /\ u = d) D D'
  | Err e => e = PlanValidationError /\ d ∉ dkeys D
  end.
Proof.
  unfold add_dependent. destruct (dget d D) as [l|] eqn:E; [|by apply dget_None in E].
  assert (Hd : d ∈ dkeys D).
  { apply dget_Some_elem in E. apply list_elem_of_fmap. by exists (d, l). }
  assert (Hl : set_at d D = l) by (unfold set_at; by rewrite E).
  split; [done|]. split.
  - rewrite dkeys_dset. unfold dmem. by rewrite E.
  - intros H u. rewrite set_at_dset. destruct (String.eqb_spec d u) as [->|]; [|done].
    apply set_insert_sorted. by rewrite <- Hl.
  - intros u x. rewrite set_at_dset. destruct (String.eqb_spec d u) as [->|].
    + rewrite set_insert_elem, Hl. tauto.
    + split; [by left|]. intros [H|[_ ->]]; done.
Qed.

Lemma add_dependents_spec v ds : forall D,
  match foldM (add_dependent v) D ds with
  | Ok D' => (forall d, d ∈ ds -> d ∈ dkeys D) /\ added (fun x u => x = v /\ u ∈ ds) D D'
  | Err e => e = PlanValidationError /\ exists d, d ∈ ds /\ d ∉ dkeys D
  end.
Proof.
  induction ds as [|d ds IH]; intros D; cbn [foldM].
  - split; [intros d Hd; by apply elem_of_nil in Hd|]. split; [done|done|].
    intros u x. rewrite elem_of_nil. tauto.
  - pose proof (add_dependent_spec v D d) as Hd.
    destruct (add_dependent v D d) as [D1|e]; cbn [rbind].
    + destruct Hd as [Hin Hadd]. specialize (IH D1).
      destruct (foldM (add_dependent v) D1 ds) as [D2|e].
      * destruct IH as [Hall Hadd2]. split.
        -- intros x [->|Hx]%elem_of_cons; [done|]. rewrite <- (ad_keys _ _ _ Hadd). auto.
        -- eapply added_proper; [|by eapply added_trans]. intros x u. cbn.
           rewrite elem_of_cons. tauto.
      * destruct IH as (-> & d' & Hd' & Hn). split; [done|]. exists d'.
        rewrite <- (ad_keys _ _ _ Hadd). split; [by right|done].
    + destruct Hd as [-> Hn]. split; [done|]. exists d. split; [left|done].
Qed.

Lemma all_dependents_spec kvs : forall D,
  match foldM add_dependents D kvs with
  | Ok D' => (forall v ds d, (v, ds) ∈ kvs -> d ∈ ds -> d ∈ dkeys D) /\
             added (fun x u => exists ds, (x, ds) ∈ kvs /\ u ∈ ds) D D'
  | Err e => e = PlanValidationError /\ exists v ds d, (v, ds) ∈ kvs /\ d ∈ ds /\ d ∉ dkeys D
  end.
Proof.
  induction kvs as [|[v ds] kvs IH]; intros D; cbn [foldM].
  - split; [intros v ds d H; by apply elem_of_nil in H|]. split; [done|done|].
    intros u x. split; [by left|]. intros [H|(ds & H & _)]; [done|]. by apply elem_of_nil in H.
  - pose proof (add_dependents_spec v ds D) as Hd. unfold add_dependents at 1. cbn [fst snd].
    destruct (foldM (add_dependent v) D ds) as [D1|e]; cbn [rbind].
    + destruct Hd as [Hin Hadd]. specialize (IH D1).
      destruct (foldM add_dependents D1 kvs) as [D2|e].
      * destruct IH as [Hall Hadd2]. split.
        -- intros v' ds' d [[= -> ->]|H]%elem_of_cons Hd; [auto|].
           rewrite <- (ad_keys _ _ _ Hadd). eauto.
        -- eapply added_proper; [|by eapply added_trans]. intros x u. cbn.
           setoid_rewrite elem_of_cons. split; [naive_solver|].
           intros (ds' & [[= -> ->]|H] & Hu); [by left|right; eauto].
      * destruct IH as (-> & v' & ds' & d & H & Hd & Hn). split; [done|].
        exists v', ds', d. rewrite <- (ad_keys _ _ _ Hadd). split_and!; [by right|done|done].
    + destruct Hd as (-> & d & Hd & Hn). split; [done|]. exists v, ds, d.
      split_and!; [left|done|done].
Qed.

Lemma plan_dependents_spec p :
  NoDup (step_ids p) ->
  match plan_dependents p with
  | Ok D => (forall v d, depends p v d -> d ∈ step_ids p) /\ dkeys D = step_ids p /\
            (forall u, NoDup (set_at u D)) /\
            (forall u v, v ∈ set_at u D <-> depends p v u)
  | Err e => e = PlanValidationError /\ exists v d, depends p v d /\ d ∉ step_ids p
  end.
Proof.
  intros Hnd. unfold plan_dependents. rewrite fold_dset_map by done. cbn [app].
  set (D0 := map (fun s => (ps_step_id s, [])) (pl_steps p)).
  assert (HK : dkeys D0 = step_ids p) by (unfold D0, dkeys, step_ids; by rewrite map_map).
  assert (H0 : forall u, set_at u D0 = []).
  { intros u. destruct (decide (u ∈ dkeys D0)) as [Hu|Hu]; [|by apply set_at_missing].
    rewrite HK in Hu. apply step_ids_elem in Hu as (s & Hs & <-).
    by rewrite (set_at_map p (fun _ => [])). }
  assert (Hkv : forall v ds, (v, ds) ∈ plan_dependencies p -> set_at v (plan_dependencies p) = ds).
  { intros v ds H. unfold set_at. erewrite elem_dget; [done| |done].
    unfold dict_wf. by rewrite plan_dependencies_keys. }
  pose proof (all_dependents_spec (plan_dependencies p) D0) as H.
  destruct (foldM add_dependents D0 (plan_dependencies p)) as [D|e].
  - destruct H as [Hin [K S E]].
    assert (Hdep : forall v d, depends p v d <->
              exists ds, (v, ds) ∈ plan_dependencies p /\ d ∈ ds).
    { intros v d. rewrite <- plan_dependencies_spec by done. split.
      - intros Hd. unfold set_at in Hd. destruct (dget v (plan_dependencies p)) as [ds|] eqn:E';
          [|by apply elem_of_nil in Hd]. exists ds. split; [by apply dget_Some_elem|done].
      - intros (ds & Hds & Hd). by rewrite (Hkv _ _ Hds). }
    split_and!.
    + intros v d (ds & Hds & Hd)%Hdep. rewrite <- HK. eauto.
    + congruence.
    + intros u. assert (Hs : Sorted text_lt (set_at u D)) by (apply S; intros u'; by rewrite H0).
      rewrite <- (frozenset_id _ Hs). apply frozenset_NoDup.
    + intros u v. rewrite E, H0, Hdep. split; [|by right].
      intros [Hx|Hx]; [by apply elem_of_nil in Hx | done].
  - destruct H as (-> & v & ds & d & Hds & Hd & Hn). split; [done|]. exists v, d.
    rewrite <- plan_dependencies_spec, (Hkv _ _ Hds), <- HK by done. done.
Qed.

Lemma NoDup_map_filter {A B : Type} (f : A -> B) (p : A -> bool) l :
  NoDup (map f l) -> NoDup (map f (List.filter p l)).
Proof.
  induction l as [|x l IH]; cbn [map List.filter]; [done|]. intros [Hx Hl]%NoDup_cons.
  destruct (p x); [|auto]. cbn [map]. apply NoDup_cons. split; [|auto].
  intros (y & Heq & Hy)%list_elem_of_fmap. apply Hx, list_elem_of_fmap. exists y.
  split; [done|]. apply list_elem_of_In in Hy. apply list_elem_of_In.
  by apply List.filter_In in Hy as [? _].
Qed.

(** ** A cycle among steps that all wait for each other *)
Section Walk.
Variable R : string -> string -> Prop.
Variable next : string -> string.

Fixpoint walk (n : nat) (v : string) : list string :=
  match n with O => [] | S n' => v :: walk n' (next v) end.

Lemma walk_tc n v l1 a l2 b l3 :
  (forall x, x ∈ walk n v -> R x (next x)) ->
  walk n v = (l1 ++ a :: l2 ++ b :: l3)%list -> tc R a b.
Proof.
  revert v l1 a l2. induction n as [|n IH]; intros v l1 a l2 HR Heq; [by destruct l1|].
  cbn [walk] in *. destruct l1 as [|c l1]; simplify_eq/=.
  - assert (Hv : R a (next a)) by (apply HR; left).
    destruct l2 as [|c l2].
    + destruct n; simplify_eq/=. by apply tc_once.
    + assert (c = next a) as -> by (destruct n; by simplify_eq/=).
      eapply tc_l; [exact Hv|]. apply (IH (next a) [] (next a) l2); [|done].
      intros x Hx. apply HR. by right.
  - eapply IH; [|done]. intros x Hx. apply HR. by right.
Qed.

Lemma walk_length n v : List.length (walk n v) = n.
Proof. revert v. induction n; intros v; simpl; auto. Qed.

(** A walk that never leaves a finite set of related steps closes a cycle. *)
Lemma walk_cycle (W : list string) v :
  v ∈ W -> (forall x, x ∈ W -> R x (next x) /\ next x ∈ W) -> exists x, tc R x x.
Proof.
  intros Hv HW. set (n := S (List.length W)).
  assert (Hin : forall x, x ∈ walk n v -> x ∈ W).
  { clear -Hv HW. revert v Hv. generalize n. clear n. intros n.
    induction n as [|n IH]; intros v Hv x; cbn [walk].
    - intros H. by apply elem_of_nil in H.
    - intros [->|Hx]%elem_of_cons; [done|]. eapply IH; [|exact Hx]. by apply HW. }
  assert (Hdup : ~ List.NoDup (walk n v)).
  { intros Hnd%NoDup_ListNoDup. assert (Hle : (List.length (walk n v) <= List.length W)%nat).
    { by apply submseteq_length, NoDup_submseteq. }
    rewrite walk_length in Hle. unfold n in Hle. lia. }
  assert (Hdec : forall x y : string, Decidable.decidable (x = y))
    by (intros x y; destruct (decide (x = y)); [by left | by right]).
  apply (ListDec.not_NoDup Hdec) in Hdup as (a & l1 & l2 & l3 & Heq).
  exists a. eapply (walk_tc n v l1 a l2 a l3); [|exact Heq]. intros x Hx. by apply HW, Hin.
Qed.
End Walk.

Lemma plan_ids_nodup p : plan_ok p = Ok tt -> NoDup (step_ids p).
Proof. unfold plan_ok. intros H. res_inv H. apply distinct_spec. by apply demand_Ok in H. Qed.

(** ** What a constructed graph is *)
Record graph_of (p : MultiIntentPlan) (g : DependencyGraph) : Prop := {
  go_plan : dg_plan g = p;
  go_closed : forall v d, depends p v d -> d ∈ step_ids p;
  go_dependencies : forall v d, d ∈ set_at v (dg_dependencies g) <-> depends p v d;
  go_dependents : forall u v, v ∈ set_at u (dg_dependents g) <-> depends p v u;
  go_keys : dkeys (dg_dependents g) = step_ids p;
  go_order : Permutation (dg_topological_order g) (step_ids p);
  go_respects : forall l1 v l2, dg_topological_order g = (l1 ++ v :: l2)%list ->
                forall d, depends p v d -> d ∈ l1
}.

Lemma depends_in p v d : depends p v d -> v ∈ step_ids p.
Proof. intros (s & Hs & Heq & _). apply step_ids_elem. by exists s. Qed.

Lemma indegrees_degree D v : degree (indegrees D) v = Z.of_nat (List.length (set_at v D)).
Proof.
  unfold degree, set_at, indegrees. induction D as [|[k l] D IH]; [done|]. cbn.
  by destruct (String.eqb v k).
Qed.

Section Construction.
Variable p : MultiIntentPlan.
Variable D : dict (list string).
Hypothesis Hnd : NoDup (step_ids p).
Hypothesis Hclosed : forall v d, depends p v d -> d ∈ step_ids p.
Hypothesis HDnd : forall u, NoDup (set_at u D).
Hypothesis HD : forall u v, v ∈ set_at u D <-> depends p v u.

Let deps (v : string) : list string := set_at v (plan_dependencies p).

Lemma deps_nodup v : NoDup (deps v).
Proof.
  unfold deps. destruct (decide (v ∈ step_ids p)) as [Hv|Hv].
  - apply step_ids_elem in Hv as (s & Hs & <-). rewrite plan_dependencies_eq by done.
    rewrite (set_at_map p (fun s => frozenset (ps_depends_on s))) by done. apply frozenset_NoDup.
  - rewrite set_at_missing; [constructor|]. by rewrite plan_dependencies_keys.
Qed.

Lemma waiting_start v : waiting deps [] v = deps v.
Proof.
  unfold waiting. generalize (deps v). intros l. induction l as [|x l IH]; [done|]. cbn [List.filter]. unfold mem_str at 1. cbn. by rewrite IH.
Qed.

Lemma sort_start :
  sort_inv (step_ids p) deps
    (sort_by (source_order p)
       (map fst (List.filter (fun kv => (snd kv =? 0)) (indegrees (plan_dependencies p)))))
    (indegrees (plan_dependencies p)) [].
Proof.
  set (roots := map fst (List.filter (fun kv => (snd kv =? 0)) (indegrees (plan_dependencies p)))).
  assert (Hmap : map fst (indegrees (plan_dependencies p)) = step_ids p).
  { rewrite <- plan_dependencies_keys by done. unfold indegrees. by rewrite map_map. }
  assert (Hroot : forall v, v ∈ roots <-> v ∈ step_ids p /\ deps v = []).
  { intros v. unfold roots. rewrite list_elem_of_In, List.in_map_iff.
    assert (Hw : dict_wf (indegrees (plan_dependencies p))) by (unfold dict_wf, dkeys; by rewrite Hmap).
    assert (Hdeg : forall z, (v, z) ∈ indegrees (plan_dependencies p) ->
              z = Z.of_nat (List.length (deps v))).
    { intros z Hz%elem_dget; [|done]. pose proof (indegrees_degree (plan_dependencies p) v) as H.
      unfold degree in H. by rewrite Hz in H. }
    split.
    - intros ([v' z] & <- & Hin%List.filter_In). cbn [fst snd] in *. destruct Hin as [Hin Hz].
      apply list_elem_of_In in Hin. split.
      + rewrite <- Hmap. apply list_elem_of_fmap. by exists (v', z).
      + apply Hdeg in Hin. apply List.length_zero_iff_nil. lia.
    - intros [Hv Hz]. rewrite <- Hmap in Hv. apply list_elem_of_fmap in Hv as ([v' z] & -> & Hin).
      exists (v', z). split; [done|]. apply List.filter_In. split; [by apply list_elem_of_In|].
      cbn [fst snd] in *. apply Hdeg in Hin. rewrite Hz in Hin. by subst z. }
  split.
  - simpl. rewrite sort_by_perm. unfold roots.
    apply NoDup_map_filter. by rewrite Hmap.
  - intros v Hv. simpl in Hv. rewrite sort_by_perm in Hv. by apply Hroot in Hv as [? _].
  - intros v _. rewrite waiting_start. apply indegrees_degree.
  - intros v Hv. simpl. rewrite sort_by_perm, Hroot, waiting_start. tauto.
  - intros l1 v l2 H. by destruct l1.
Qed.

Lemma topological_sort_spec :
  match topological_sort p (plan_dependencies p) D with
  | Ok order => Permutation order (step_ids p) /\ respects deps order
  | Err e => e = PlanValidationError /\ exists v, tc (depends p) v v
  end.
Proof.
  assert (Hdeps : forall v d, d ∈ deps v <-> depends p v d)
    by (intros v d; by apply plan_dependencies_spec).
  unfold topological_sort.
  destruct (sort_loop_ends (step_ids p) deps D (source_order p)) with
    (fuel := List.length (pl_steps p))
    (ready := sort_by (source_order p)
       (map fst (List.filter (fun kv => (snd kv =? 0)) (indegrees (plan_dependencies p)))))
    (indegree := indegrees (plan_dependencies p)) (ordered := @nil string)
    as (ordered & ind & Hloop & Hinv).
  - apply deps_nodup.
  - done.
  - intros u v _. rewrite HD, Hdeps. split; [|tauto]. intros H. split; [|done].
    by eapply depends_in.
  - apply sort_start.
  - unfold step_ids. rewrite length_map. simpl. lia.
  - rewrite Hloop.
    assert (Hlen : List.length (indegrees (plan_dependencies p)) = List.length (step_ids p)).
    { unfold indegrees. rewrite length_map, plan_dependencies_eq, length_map by done.
      unfold step_ids. by rewrite length_map. }
    rewrite Hlen. destruct (Nat.eqb_spec (List.length ordered) (List.length (step_ids p))) as [He|Hne].
    + split; [by eapply sort_done | by destruct Hinv].
    + split; [done|].
      set (W := List.filter (fun v => negb (mem_str v ordered)) (step_ids p)).
      assert (HW : forall v, v ∈ W <-> v ∈ step_ids p /\ v ∉ ordered).
      { intros v. unfold W. rewrite list_elem_of_In, List.filter_In, <- list_elem_of_In,
          negb_true_iff, mem_str_false. done. }
      set (next := fun v => hd v (waiting deps ordered v)).
      destruct W as [|v W'] eqn:EW.
      * exfalso. apply Hne. destruct Hinv as [Hnd' Hin _ _ _]. rewrite app_nil_r in *.
        apply Nat.le_antisymm; [by apply submseteq_length, NoDup_submseteq|].
        apply submseteq_length, NoDup_submseteq; [done|]. intros v Hv.
        destruct (decide (v ∈ ordered)) as [|Hno]; [done|].
        assert (Hx : v ∈ @nil string) by by apply HW. by apply elem_of_nil in Hx.
      * apply (walk_cycle (depends p) next (v :: W') v); [left|].
        intros x [Hx Hxo]%HW.
        destruct (sort_stuck (step_ids p) deps) with (indegree := ind) (ordered := ordered) (v := x)
          as (d & Hd & HdV & Hdo); try done.
        { intros a b _ Hb. by eapply Hclosed, Hdeps. }
        assert (Hw : d ∈ waiting deps ordered x).
        { unfold waiting. rewrite list_elem_of_In, List.filter_In, <- list_elem_of_In.
          split; [done|]. by apply negb_true_iff, mem_str_false. }
        unfold next. destruct (waiting deps ordered x) as [|c l] eqn:E; [by apply elem_of_nil in Hw|].
        cbn [hd]. assert (Hc : c ∈ waiting deps ordered x) by (rewrite E; left).
        unfold waiting in Hc. rewrite list_elem_of_In, List.filter_In, <- list_elem_of_In in Hc.
        destruct Hc as [Hc Hm]. split; [by apply Hdeps|]. apply HW. split.
        -- eapply Hclosed. by apply Hdeps.
        -- apply mem_str_false. by apply negb_true_iff.
Qed.
End Construction.

Lemma graph_of_sort p D order :
  NoDup (step_ids p) -> (forall v d, depends p v d -> d ∈ step_ids p) ->
  (forall u, NoDup (set_at u D)) -> dkeys D = step_ids p ->
  (forall u v, v ∈ set_at u D <-> depends p v u) ->
  topological_sort p (plan_dependencies p) D = Ok order ->
  graph_of p (mkGraph p (plan_dependencies p) D order).
Proof.
  intros Hnd Hclosed HDnd HK HD E.
  pose proof (topological_sort_spec p D Hnd Hclosed HDnd HD) as Hs. rewrite E in Hs.
  destruct Hs as [Hperm Hresp]. split; cbn; try done.
  - intros v d. by apply plan_dependencies_spec.
  - intros l1 v l2 Heq d Hdep. eapply Hresp; [done|]. by apply plan_dependencies_spec.
Qed.

(** What building the graph finds, for the validator *)
Lemma dependency_graph_spec p :
  plan_ok p = Ok tt ->
  match dependency_graph p with
  | Ok g => graph_of p g
  | Err e => e = PlanValidationError /\
             ((exists v d, depends p v d /\ d ∉ step_ids p) \/ (exists v, tc (depends p) v v))
  end.
Proof.
  intros Hok. pose proof (plan_ids_nodup p Hok) as Hnd.
  unfold dependency_graph. pose proof (plan_dependents_spec p Hnd) as Hd.
  destruct (plan_dependents p) as [D|e]; cbn [rbind].
  - destruct Hd as (Hclosed & HK & HDnd & HD).
    destruct (topological_sort p (plan_dependencies p) D) as [order|e] eqn:E; cbn [rbind].
    + by apply (graph_of_sort p D order).
    + pose proof (topological_sort_spec p D Hnd Hclosed HDnd HD) as Hs. rewrite E in Hs.
      destruct Hs as [-> Hc]. split; [done|]. by right.
  - destruct Hd as [-> Hm]. split; [done|]. by left.
Qed.

(** C24. Building the graph of a plan always ends, and decides whether the plan can
    be ordered: it returns the dependency maps and a permutation of the steps in
    which each comes after everything it depends on, or it refuses the plan, with
    a missing dependency or a dependency cycle to show for it. *)
Theorem dependency_graph_decides p :
  plan_ok p = Ok tt ->
  match dependency_graph p with
  | Ok g => graph_of p g
  | Err e => e = PlanValidationError /\
             ((exists v d, depends p v d /\ d ∉ step_ids p) \/ (exists v, tc (depends p) v v))
  end.
Proof. intros Hok. by apply dependency_graph_spec. Qed.

(** ** Descendants *)
Section Reach.
Variable D : dict (list string).
Variable start : list string.
Hypothesis Hwf : dict_wf D.

(** Reachable along [D] from a member of [start] *)
Inductive reachable_from : string -> Prop :=
| reach_start x : x ∈ start -> reachable_from x
| reach_next u x : reachable_from u -> x ∈ set_at u D -> reachable_from x.

(** Edges out of the steps not found yet *)
Definition remaining (found : list string) : nat :=
  list_sum (map (fun kv => if mem_str (fst kv) found then 0%nat else List.length (snd kv)) D).

Lemma remaining_found c found :
  c ∉ found ->
  (remaining (c :: found) + List.length (set_at c D) = remaining found)%nat.
Proof.
  intros Hc. unfold remaining, set_at. revert Hwf. unfold dict_wf, dkeys.
  induction D as [|[k l] E IH]; cbn [map dget fst snd];
    intros Hnd; [done|].
  apply NoDup_cons in Hnd as [Hk Hnd]. rewrite mem_str_cons, (String.eqb_sym k c).
  unfold list_sum in *. cbn [foldr map] in *.
  destruct (String.eqb_spec c k) as [->|Hne].
  - rewrite (proj2 (mem_str_false _ _) Hc). cbn [orb default].
    assert (dget k E = None) as HE by by apply dget_None.
    specialize (IH Hnd). rewrite HE in IH. cbn [default List.length] in IH.
    cbn [id default]. change (id l) with l. lia.
  - cbn [orb]. specialize (IH Hnd). destruct (mem_str k found); lia.
Qed.

Record reach_inv (queue found : list string) : Prop := {
  ri_sound : forall x, x ∈ (queue ++ found)%list -> reachable_from x;
  ri_start : forall x, x ∈ start -> x ∈ (queue ++ found)%list;
  ri_closed : forall u x, u ∈ found -> x ∈ set_at u D -> x ∈ (queue ++ found)%list
}.

Lemma reach_loop_ends fuel queue found :
  reach_inv queue found -> (List.length queue + remaining found <= fuel)%nat ->
  exists found', reach_loop fuel D queue found = Some found' /\ reach_inv [] found'.
Proof.
  revert queue found. induction fuel as [|fuel IH]; intros queue found Hinv Hlen;
    (destruct queue as [|c queue]; [by eexists|]); [simpl in Hlen; lia|].
  cbn [reach_loop]. destruct Hinv as [Hs Hst Hc].
  destruct (mem_str c found) eqn:Hm.
  - apply mem_str_spec in Hm. apply IH; [|simpl in Hlen; lia].
    assert (Hsame : forall x, x ∈ ((c :: queue) ++ found)%list <-> x ∈ (queue ++ found)%list) by set_solver.
    split; intros; rewrite <- ?Hsame in *; eauto.
  - apply mem_str_false in Hm. pose proof (remaining_found c found Hm) as Hr.
    apply IH; [|rewrite length_app; simpl in Hlen; lia]. split.
    + intros x Hx. rewrite !elem_of_app, elem_of_cons in Hx.
      destruct Hx as [[Hx|Hx]|[->|Hx]].
      * apply Hs. set_solver.
      * eapply reach_next; [|exact Hx]. apply Hs. set_solver.
      * apply Hs. set_solver.
      * apply Hs. set_solver.
    + intros x Hx%Hst. set_solver.
    + intros u x [->|Hu]%elem_of_cons Hx; [set_solver|]. specialize (Hc u x Hu Hx). set_solver.
Qed.

Lemma reach_loop_spec :
  exists found, reach_loop (List.length start + edge_count D) D start [] = Some found /\
                forall x, x ∈ found <-> reachable_from x.
Proof.
  destruct (reach_loop_ends (List.length start + edge_count D) start []) as (found & Hf & [Hs Hst Hc]).
  - split.
    + intros x Hx. rewrite app_nil_r in Hx. by constructor.
    + intros x Hx. by rewrite app_nil_r.
    + intros u x Hu. by apply elem_of_nil in Hu.
  - unfold remaining, edge_count. done.
  - exists found. split; [done|]. simpl in *. intros x. split; [apply Hs|].
    induction 1 as [x Hx|u x _ IH Hx]; eauto.
Qed.
End Reach.

Lemma reachable_tc p D v x :
  (forall u y, y ∈ set_at u D <-> depends p y u) ->
  reachable_from D (set_at v D) x <-> tc (depends p) x v.
Proof.
  intros HD. split.
  - induction 1 as [x Hx|u x _ IH Hx]; apply HD in Hx; [by apply tc_once|].
    by eapply tc_l.
  - induction 1 as [x y Hxy|x y z Hxy _ IH].
    + constructor. by apply HD.
    + eapply reach_next; [exact IH|]. by apply HD.
Qed.

(** Asking for the descendants of a step of a graph always ends and returns
    exactly the steps that depend on it, directly or through others, each once,
    in topological order. *)
Theorem descendants_are_exact p g v :
  graph_of p g -> NoDup (step_ids p) -> v ∈ step_ids p ->
  exists l, descendants g v = Ok l /\ NoDup l /\ l `sublist_of` dg_topological_order g /\
            forall x, x ∈ l <-> tc (depends p) x v.
Proof.
  intros Hg Hnd Hv. destruct Hg as [_ _ _ Hdt HK Hord _]. unfold descendants.
  assert (Hwf : dict_wf (dg_dependents g)) by (unfold dict_wf; by rewrite HK).
  destruct (dget v (dg_dependents g)) as [first|] eqn:E.
  2:{ apply dget_None in E. by rewrite HK in E. }
  assert (Hfirst : set_at v (dg_dependents g) = first) by (unfold set_at; by rewrite E).
  destruct (reach_loop_spec (dg_dependents g) first Hwf) as (found & -> & Hfound).
  assert (Hno : NoDup (dg_topological_order g)) by by rewrite Hord.
  assert (Hsub : List.filter (fun i => mem_str i found) (dg_topological_order g)
                 `sublist_of` dg_topological_order g).
  { clear. induction (dg_topological_order g) as [|i l IH]; cbn [List.filter]; [done|].
    destruct (mem_str i found); by constructor. }
  eexists. split; [done|]. split; [by eapply sublist_NoDup|]. split; [done|].
  intros x. rewrite list_elem_of_In, List.filter_In, <- list_elem_of_In, mem_str_spec, Hfound, Hord.
  rewrite <- Hfirst, (reachable_tc p) by done. split; [tauto|]. intros Hx. split; [|done].
  destruct Hx as [x y Hxy|x y z Hxy _]; by eapply depends_in.
Qed.

Lemma is_ancestor_spec p g a d :
  graph_of p g -> NoDup (step_ids p) -> a ∈ step_ids p ->
  exists b, is_ancestor g a d = Ok b /\ (b = true <-> tc (depends p) d a).
Proof.
  intros Hg Hnd Ha. destruct (descendants_are_exact p g a Hg Hnd Ha) as (l & Hl & _ & _ & Hx).
  unfold is_ancestor. rewrite Hl. cbn [rbind]. eexists. split; [done|].
  by rewrite mem_str_spec, Hx.
Qed.

(** A graph has no cycle. *)
Lemma graph_acyclic p g : graph_of p g -> NoDup (step_ids p) -> forall v, ~ tc (depends p) v v.
Proof.
  intros [_ Hcl _ _ _ Hord Hresp] Hnd.
  assert (Hrank : forall v d, depends p v d ->
            exists l1 l2 l3, dg_topological_order g = (l1 ++ d :: l2 ++ v :: l3)%list).
  { intros v d Hvd. assert (Hv : v ∈ dg_topological_order g) by (rewrite Hord; by eapply depends_in).
    apply list_elem_of_split in Hv as (l1 & l3 & Heq).
    pose proof (Hresp _ _ _ Heq d Hvd) as Hd. apply list_elem_of_split in Hd as (la & lb & ->).
    exists la, lb, l3. by rewrite Heq, <- app_assoc. }
  assert (Hno : NoDup (dg_topological_order g)) by by rewrite Hord.
  set (order := dg_topological_order g) in *.
  assert (Hlt : forall v d, tc (depends p) v d -> index_of d order < index_of v order).
  { assert (Hone : forall v d, depends p v d -> index_of d order < index_of v order).
    { intros v d (l1 & l2 & l3 & Heq)%Hrank. rewrite Heq in Hno |- *. clear -Hno.
      induction l1 as [|x l1 IH]; simpl in *.
      - apply NoDup_cons in Hno as [Hd _]. rewrite String.eqb_refl.
        destruct (String.eqb_spec v d) as [->|]; [destruct Hd; set_solver|].
        assert (Hpos : forall l, 0 <= index_of v l).
        { induction l as [|y l IHl]; simpl; [lia|]. destruct (String.eqb v y); lia. }
        specialize (Hpos (l2 ++ v :: l3)%list). lia.
      - apply NoDup_cons in Hno as [Hx Hno]. specialize (IH Hno).
        destruct (String.eqb_spec d x) as [->|]; [destruct Hx; set_solver|].
        destruct (String.eqb_spec v x) as [->|]; [destruct Hx; set_solver|]. lia. }
    induction 1 as [v d H|v d z H _ IH]; [by apply Hone|]. specialize (Hone _ _ H). lia. }
  intros v Hv%Hlt. lia.
Qed.

(** ** Progress *)
Lemma has_status_spec st l i :
  has_status st l i = true <-> exists s, status_of st i = Some s /\ s ∈ l.
Proof.
  unfold has_status, status_in. destruct (status_of st i) as [s|]; [|naive_solver].
  rewrite List.existsb_exists. setoid_rewrite <- list_elem_of_In.
  setoid_rewrite bool_decide_eq_true. naive_solver.
Qed.

Lemma pending_steps_spec g st test :
  (forall i, i ∈ dg_topological_order g -> dmem i (xs_steps st) = true) ->
  exists l, pending_steps g st test = Ok l /\
  forall i, i ∈ l <-> i ∈ dg_topological_order g /\ status_of st i = Some StepPending /\ test i = true.
Proof.
  intros H. unfold pending_steps. rewrite (proj2 (forallb_elem _ _) H). eexists. split; [done|].
  intros i. rewrite list_elem_of_In, List.filter_In, <- list_elem_of_In, andb_true_iff, has_status_spec.
  set_solver.
Qed.

Lemma first_elem {A : Type} (P : A -> Prop) `{!forall x, Decision (P x)} (l : list A) x :
  x ∈ l -> P x -> exists l1 y l2, l = (l1 ++ y :: l2)%list /\ P y /\ forall z, z ∈ l1 -> ~ P z.
Proof.
  induction l as [|y l IH]; intros Hx HP; [by apply elem_of_nil in Hx|].
  destruct (decide (P y)) as [Hy|Hy].
  - exists [], y, l. split_and!; [done..|]. intros z Hz. by apply elem_of_nil in Hz.
  - apply elem_of_cons in Hx as [->|Hx]; [done|].
    destruct (IH Hx HP) as (l1 & z & l2 & -> & Hz & Hl1).
    exists (y :: l1), z, l2. split_and!; [done..|]. intros w [->|Hw]%elem_of_cons; auto.
Qed.

(** What moves next while a step is pending, for the executor *)
Lemma pending_progress p g st i :
  graph_of p g -> (forall j, j ∈ step_ids p -> dmem j (xs_steps st) = true) ->
  i ∈ step_ids p -> status_of st i = Some StepPending ->
  exists ready blocked,
    ready_steps g st = Ok ready /\ blocked_steps g st = Ok blocked /\
    (ready <> [] \/ blocked <> [] \/
     exists j, j ∈ step_ids p /\
       (status_of st j = Some StepRunning \/ status_of st j = Some StepWaitingApproval)).
Proof.
  intros [_ Hcl Hdeps _ _ Hord Hresp] Hst Hi Hpend.
  assert (Hall : forall j, j ∈ dg_topological_order g -> dmem j (xs_steps st) = true)
    by (intros j; rewrite Hord; auto).
  unfold ready_steps, blocked_steps.
  destruct (pending_steps_spec g st (fun i => forallb (has_status st [StepSucceeded])
              (set_at i (dg_dependencies g))) Hall) as (ready & -> & Hready).
  destruct (pending_steps_spec g st (fun i => existsb (has_status st terminal_failures)
              (set_at i (dg_dependencies g))) Hall) as (blocked & -> & Hblocked).
  exists ready, blocked. split_and!; [done..|].
  destruct (first_elem (fun j => status_of st j = Some StepPending) (dg_topological_order g) i)
    as (l1 & j & l2 & Heq & Hj & Hl1); [by rewrite Hord|done|].
  assert (Hjo : j ∈ dg_topological_order g) by (rewrite Heq; set_solver).
  destruct (existsb (has_status st terminal_failures) (set_at j (dg_dependencies g))) eqn:Eb.
  { right. left. intros ->. assert (Hn : j ∈ @nil string) by by apply Hblocked.
    by apply elem_of_nil in Hn. }
  destruct (forallb (has_status st [StepSucceeded]) (set_at j (dg_dependencies g))) eqn:Er.
  { left. intros ->. assert (Hn : j ∈ @nil string) by by apply Hready. by apply elem_of_nil in Hn. }
  right. right.
  apply not_true_iff_false in Er. rewrite List.forallb_forall in Er.
  assert (Hd : exists d, d ∈ set_at j (dg_dependencies g) /\ has_status st [StepSucceeded] d = false).
  { destruct (find_first (fun d => negb (has_status st [StepSucceeded] d))
                (set_at j (dg_dependencies g))) as [d|] eqn:Ef.
    - apply find_first_Some in Ef as [Hd Hf]. exists d. split; [done|]. by apply negb_true_iff.
    - destruct Er. intros d Hd%list_elem_of_In. by apply negb_false_iff, (proj1 (find_first_None _ _) Ef). }
  destruct Hd as (d & Hd & Hns). pose proof (proj1 (existsb_elem _ _) Eb d Hd) as Hnf.
  apply Hdeps in Hd. pose proof (Hresp _ _ _ Heq d Hd) as Hd1. apply Hl1 in Hd1.
  exists d. split; [by eapply Hcl|]. specialize (Hst d (Hcl _ _ Hd)).
  apply dmem_spec in Hst as [x Hx]. unfold has_status, status_of in *. rewrite Hx in *.
  cbn in *. destruct (ss_status x); try done; auto.
Qed.

(** C25. A plan never gets stuck: while a step is pending, some step is ready to
    start, or some step is blocked by a failure and will be skipped, or a step is
    still running or waiting for an approval. *)
Theorem pending_plan_makes_progress p g st i :
  graph_of p g -> (forall j, j ∈ step_ids p -> dmem j (xs_steps st) = true) ->
  i ∈ step_ids p -> status_of st i = Some StepPending ->
  exists ready blocked,
    ready_steps g st = Ok ready /\ blocked_steps g st = Ok blocked /\
    (ready <> [] \/ blocked <> [] \/
     exists j, j ∈ step_ids p /\
       (status_of st j = Some StepRunning \/ status_of st j = Some StepWaitingApproval)).
Proof. intros Hg Hst Hi Hp. by apply (pending_progress p g st i). Qed.

(** ** The worked plan *)
Definition sample_graph : DependencyGraph :=
  match dependency_graph sample_plan with
  | Ok g => g | Err _ => mkGraph sample_plan [] [] [] end.

Lemma dependency_graph_decides_witness :
  match dependency_graph sample_plan with
  | Ok g => graph_of sample_plan g
  | Err e => e = PlanValidationError /\
             ((exists v d, depends sample_plan v d /\ d ∉ step_ids sample_plan) \/
              (exists v, tc (depends sample_plan) v v))
  end.
Proof. exact (dependency_graph_decides sample_plan eq_refl). Defined.

Lemma sample_ids_nodup : NoDup (step_ids sample_plan).
Proof. by apply (bool_decide_unpack _). Qed.

Lemma sample_graph_of : graph_of sample_plan sample_graph.
Proof.
  assert (Hok : plan_ok sample_plan = Ok tt) by (vm_compute; reflexivity).
  assert (E : dependency_graph sample_plan = Ok sample_graph) by (vm_compute; reflexivity).
  pose proof (plan_ids_nodup _ Hok) as Hnd.
  unfold dependency_graph in E. apply rbind_Ok in E as (D & HD & E).
  apply rbind_Ok in E as (order & Ho & E).
  pose proof (plan_dependents_spec sample_plan Hnd) as Hs. rewrite HD in Hs.
  destruct Hs as (Hcl & HK & HDnd & HDs).
  pose proof (graph_of_sort sample_plan D order Hnd Hcl HDnd HK HDs Ho) as Hg.
  assert (Hinj : forall a b : DependencyGraph, Ok a = Ok b -> a = b) by (by intros a b [= ->]).
  by rewrite (Hinj _ _ E) in Hg.
Qed.

Lemma descendants_are_exact_witness :
  exists l, descendants sample_graph "s1" = Ok l /\ NoDup l /\
            l `sublist_of` dg_topological_order sample_graph /\
            forall x, x ∈ l <-> tc (depends sample_plan) x "s1".
Proof.
  refine (descendants_are_exact sample_plan sample_graph "s1" sample_graph_of sample_ids_nodup _).
  left.
Defined.

Definition sample_start : PlanExecutionState :=
  mkExecutionState "plan-1" [("s1", fresh_step); ("s2", fresh_step); ("s3", fresh_step)] 0.

Lemma pending_plan_makes_progress_witness :
  exists ready blocked,
    ready_steps sample_graph sample_start = Ok ready /\
    blocked_steps sample_graph sample_start = Ok blocked /\
    (ready <> [] \/ blocked <> [] \/
     exists j, j ∈ step_ids sample_plan /\
       (status_of sample_start j = Some StepRunning \/
        status_of sample_start j = Some StepWaitingApproval)).
Proof.
  refine (pending_plan_makes_progress sample_plan sample_graph sample_start "s1" sample_graph_of
            _ _ _).
  - intros j Hj. repeat (apply elem_of_cons in Hj as [->|Hj]; [reflexivity|]).
    by apply elem_of_nil in Hj.
  - left.
  - reflexivity.
Defined.
