(* ===== verification/PlanValidator.v ===== *)
(** * Plan validation against trusted policies  (src/.../planning/graph.py)

    [PlanValidator]: a plan proposed by a model is accepted only with the rules,
    data flow, predecessors and side-effect order its trusted policies call for;
    [bind_trusted_dependencies] adds what the policies require. *)

From S2P Require Import Prelude PyDict Text PyVal DurableAction PlanTypes PlanPersistence PlanGraph.
From Stdlib Require Import String.

#[local] Open Scope string_scope.
#[local] Open Scope bool_scope.
#[local] Open Scope Z_scope.
#[local] Arguments blank : simpl never.

(** ** Equality of the dataclasses that carry an expected value *)
Definition rule_eq (a b : PlanResultRule) : bool :=
  bool_decide (rl_path a = rl_path b) && bool_decide (rl_operator a = rl_operator b)
  && py_eq (rl_expected a) (rl_expected b).

Fixpoint list_eq {A : Type} (eq : A -> A -> bool) (l m : list A) : bool :=
  match l, m with
  | [], [] => true
  | x :: l', y :: m' => eq x y && list_eq eq l' m'
  | _, _ => false
  end.

Definition option_eq {A : Type} (eq : A -> A -> bool) (o p : option A) : bool :=
  match o, p with Some x, Some y => eq x y | None, None => true | _, _ => false end.

Definition condition_eq {R : Type} `{EqDecision R} (a b : condition R) : bool :=
  bool_decide (cd_left a = cd_left b) && bool_decide (cd_operator a = cd_operator b)
  && py_eq (cd_expected a) (cd_expected b)
  && bool_decide (cd_expected_from a = cd_expected_from b).

(** The comparison of [validate_step]: every trusted field is the policy's. *)
Definition rules_match (s p : step_rules) : bool :=
  Bool.eqb (sr_requires_approval s) (sr_requires_approval p)
  && Bool.eqb (sr_write s) (sr_write p)
  && bool_decide (sr_replay_policy s = sr_replay_policy p)
  && bool_decide (sr_capabilities s = sr_capabilities p)
  && bool_decide (sr_approval_roles s = sr_approval_roles p)
  && bool_decide (sr_parameter_contract s = sr_parameter_contract p)
  && bool_decide (sr_required_predecessor_intents s = sr_required_predecessor_intents p)
  && Bool.eqb (sr_allow_parallel_side_effects s) (sr_allow_parallel_side_effects p)
  && option_eq (list_eq rule_eq) (sr_result_contract s) (sr_result_contract p).

(** ** The validator *)
Abbreviation policy_catalog := (dict IntentPlanPolicy).

(** [PlanValidator.__init__] *)
Definition plan_validator (policies : policy_catalog) : res policy_catalog :=
  check! demand (negb (is_nil policies)) in
  check! demand (forallb (fun kv => String.eqb (fst kv) (ip_intent (snd kv))) policies) in
  Ok policies.

(** [self.policies.get(intent)], or the error for an intent without policy *)
Definition policy_for (policies : policy_catalog) (intent : string) : res IntentPlanPolicy :=
  match dget intent policies with Some p => Ok p | None => Err PlanValidationError end.

(** [self.policies\[intent\]] *)
Definition policy_at (policies : policy_catalog) (intent : string) : res IntentPlanPolicy :=
  match dget intent policies with Some p => Ok p | None => Err KeyError end.

(** [validate_step] *)
Definition validate_step (policies : policy_catalog) (s : PlanStep) : res unit :=
  let! policy := policy_for policies (ps_intent s) in
  check! demand (rules_match (ps_rules s) (ip_rules policy)) in
  match sr_parameter_contract (ip_rules policy) with
  | None => demand (negb (unsafe (ip_rules policy) && is_nil (ps_arguments s)
                          && is_nil (ps_argument_bindings s)))
  | Some contract =>
      validate_unresolved contract (ps_arguments s) (map bn_target (ps_argument_bindings s))
        (unsafe (ip_rules policy))
  end.

(** [_source_step_for_intent] *)
Definition source_step_for_intent (source_intent : string) (p : MultiIntentPlan)
    (dependencies : list string) : res string :=
  match List.filter (fun s => mem_str (ps_step_id s) dependencies
                              && String.eqb (ps_intent s) source_intent) (pl_steps p) with
  | [s] => Ok (ps_step_id s)
  | _ => Err PlanValidationError
  end.

(** [_bind_reference] *)
Definition bind_reference (r : PlanIntentResultReference) (p : MultiIntentPlan)
    (dependencies : list string) : res PlanResultReference :=
  let! source := source_step_for_intent (ir_intent r) p dependencies in
  made result_reference_ok (mkResultReference source (ir_path r)).

(** [_bind_argument_template] *)
Definition bind_argument_template (t : PlanIntentArgumentBinding) (p : MultiIntentPlan)
    (dependencies : list string) : res PlanArgumentBinding :=
  let! source := bind_reference (bn_source t) p dependencies in
  made binding_ok (mkBinding (bn_target t) source).

(** [_bind_condition_template] *)
Definition bind_condition_template (t : PlanIntentCondition) (p : MultiIntentPlan)
    (dependencies : list string) : res PlanCondition :=
  let! source := bind_reference (cd_left t) p dependencies in
  let! from := match cd_expected_from t with
               | None => Ok None
               | Some r => let! r := bind_reference r p dependencies in Ok (Some r)
               end in
  made condition_ok (mkCondition source (cd_operator t) (cd_expected t) from).

(** What a step reads, through its bindings and its conditions *)
Definition step_references (s : PlanStep) : list PlanResultReference :=
  (map bn_source (ps_argument_bindings s)
   ++ List.flat_map (fun c => cd_left c :: match cd_expected_from c with
                                           | Some r => [r] | None => [] end)
        (ps_preconditions s))%list.

(** One step of [_validate_dataflow] *)
Definition validate_step_dataflow (policies : policy_catalog) (p : MultiIntentPlan)
    (g : DependencyGraph) (s : PlanStep) : res unit :=
  let! policy := policy_at policies (ps_intent s) in
  let! bindings := mapR (fun t => bind_argument_template t p (ps_depends_on s))
                        (ip_argument_bindings policy) in
  let! conditions := mapR (fun t => bind_condition_template t p (ps_depends_on s))
                          (ip_preconditions policy) in
  check! demand (bool_decide (ps_argument_bindings s = bindings)) in
  check! demand (list_eq condition_eq (ps_preconditions s) conditions) in
  demand (forallb (fun r => mem_str (rr_step_id r) (set_at (ps_step_id s) (dg_dependencies g)))
            (step_references s)).

(** [any(test(x) for x in l)] when the test may raise *)
Fixpoint anyR {A : Type} (test : A -> res bool) (l : list A) : res bool :=
  match l with
  | [] => Ok false
  | x :: l' => let! b := test x in if b then Ok true else anyR test l'
  end.

(** One step of [_validate_required_predecessors] *)
Definition validate_step_predecessors (policies : policy_catalog) (p : MultiIntentPlan)
    (g : DependencyGraph) (s : PlanStep) : res unit :=
  let! policy := policy_at policies (ps_intent s) in
  let! _ := mapR (fun intent =>
    let! found := anyR (fun c => if String.eqb (ps_intent c) intent
                                 then is_ancestor g (ps_step_id c) (ps_step_id s)
                                 else Ok false) (pl_steps p) in
    demand found) (sr_required_predecessor_intents (ip_rules policy)) in
  Ok tt.

(** The rules of a step's policy; every step has one once [validate_step] has
    passed. *)
Definition policy_of (policies : policy_catalog) (s : PlanStep) : step_rules :=
  match dget (ps_intent s) policies with
  | Some p => ip_rules p
  | None => ps_rules s
  end.

(** Two unsafe steps must be ordered unless both may run in parallel. *)
Definition ordered_pair (policies : policy_catalog) (g : DependencyGraph) (l r : PlanStep)
  : res unit :=
  if sr_allow_parallel_side_effects (policy_of policies l)
     && sr_allow_parallel_side_effects (policy_of policies r) then Ok tt else
  let! before := is_ancestor g (ps_step_id l) (ps_step_id r) in
  if before then Ok tt else
  let! after := is_ancestor g (ps_step_id r) (ps_step_id l) in
  demand after.

Fixpoint ordered_pairs (policies : policy_catalog) (g : DependencyGraph) (unsafe_steps : list PlanStep)
  : res unit :=
  match unsafe_steps with
  | [] => Ok tt
  | l :: rest =>
      let! _ := mapR (ordered_pair policies g l) rest in
      ordered_pairs policies g rest
  end.

(** [_validate_side_effect_order] *)
Definition validate_side_effect_order (policies : policy_catalog) (p : MultiIntentPlan)
    (g : DependencyGraph) : res unit :=
  ordered_pairs policies g (List.filter (fun s => unsafe (policy_of policies s)) (pl_steps p)).

(** [PlanValidator.validate] *)
Definition validate_plan (policies : policy_catalog) (p : MultiIntentPlan) : res DependencyGraph :=
  let! _ := mapR (validate_step policies) (pl_steps p) in
  let! g := dependency_graph p in
  let! _ := mapR (validate_step_dataflow policies p g) (pl_steps p) in
  let! _ := mapR (validate_step_predecessors policies p g) (pl_steps p) in
  check! validate_side_effect_order policies p g in
  Ok g.

(** ** Binding a model's plan to the policies *)
Section Binding.

(** The order in which the interpreter enumerates a set of strings: it depends on
    the process's hash seed and is only known to be some order of the elements. *)
Variable set_order : list string -> list string.
Variable policies : policy_catalog.
Variable p : MultiIntentPlan.

(** [list(dict.fromkeys(l))] *)
Definition fromkeys (l : list string) : list string :=
  fold_left (fun acc s => if mem_str s acc then acc else (acc ++ [s])%list) l [].

Definition append_new (l : list string) (s : string) : list string :=
  if mem_str s l then l else (l ++ [s])%list.

(** The intents whose steps must come before a step with this policy *)
Definition predecessor_intents (policy : IntentPlanPolicy) : list string :=
  frozenset (sr_required_predecessor_intents (ip_rules policy)
             ++ map (fun b => ir_intent (bn_source b)) (ip_argument_bindings policy)
             ++ List.flat_map (fun c => ir_intent (cd_left c) ::
                                match cd_expected_from c with
                                | Some r => [ir_intent r] | None => [] end)
                  (ip_preconditions policy)).

(** The steps of an intent that come before [s] in the plan's own order *)
Definition candidates (s : PlanStep) (intent : string) : list string :=
  map ps_step_id
    (List.filter (fun c => String.eqb (ps_intent c) intent
                  && (source_order p (ps_step_id c) <? source_order p (ps_step_id s)))
       (pl_steps p)).

Definition add_candidates (s : PlanStep) (direct : list string) (intent : string)
  : res (list string) :=
  match candidates s intent with
  | [] => Err PlanValidationError
  | l => Ok (fold_left append_new l direct)
  end.

(** The earlier unsafe steps that [s] has to follow *)
Definition add_unsafe (rules : step_rules) (direct : list string) (previous : PlanStep)
  : list string :=
  if sr_allow_parallel_side_effects rules
     && sr_allow_parallel_side_effects (policy_of policies previous)
  then direct else append_new direct (ps_step_id previous).

(** One turn of the loop over the steps: the dependencies collected so far, and
    the unsafe steps seen. *)
Definition bind_dependencies (acc : list (list string) * list PlanStep) (s : PlanStep)
  : res (list (list string) * list PlanStep) :=
  let! policy := policy_for policies (ps_intent s) in
  let! direct := foldM (add_candidates s) (fromkeys (ps_depends_on s))
                       (set_order (predecessor_intents policy)) in
  if unsafe (ip_rules policy)
  then Ok ((fst acc ++ [fold_left (add_unsafe (ip_rules policy)) (snd acc) direct])%list,
           (snd acc ++ [s])%list)
  else Ok ((fst acc ++ [direct])%list, snd acc).

(** [replace(step, depends_on=..., ...)] *)
Definition bind_step (s : PlanStep) (direct : list string) : res PlanStep :=
  let! policy := policy_for policies (ps_intent s) in
  let! bindings := mapR (fun t => bind_argument_template t p direct)
                        (ip_argument_bindings policy) in
  let! conditions := mapR (fun t => bind_condition_template t p direct)
                          (ip_preconditions policy) in
  made plan_step_ok
    (mkStep (ps_step_id s) (ps_intent s) (ps_arguments s) direct (ip_rules policy)
       bindings conditions (ps_execution_action_hash s)).

Fixpoint bind_steps (steps : list PlanStep) (directs : list (list string)) : res (list PlanStep) :=
  match steps, directs with
  | s :: steps', direct :: directs' =>
      let! s' := bind_step s direct in
      let! rest := bind_steps steps' directs' in
      Ok (s' :: rest)
  | _, _ => Ok []
  end.

(** [bind_trusted_dependencies] *)
Definition bind_trusted_dependencies : res MultiIntentPlan :=
  let! _ := mapR (fun s => policy_for policies (ps_intent s)) (pl_steps p) in
  let! acc := foldM bind_dependencies ([], []) (pl_steps p) in
  let! steps := bind_steps (pl_steps p) (fst acc) in
  let! bound := made plan_ok (mkPlan (pl_request p) steps (pl_plan_id p) (pl_schema_version p)) in
  let! _ := validate_plan policies bound in
  Ok bound.
End Binding.

(** ** What validation establishes *)
Record plan_valid (policies : policy_catalog) (p : MultiIntentPlan) (g : DependencyGraph) : Prop := {
  pv_graph : graph_of p g;
  pv_policy : forall s, s ∈ pl_steps p ->
    exists policy, dget (ps_intent s) policies = Some policy /\
                   rules_match (ps_rules s) (ip_rules policy) = true;
  pv_references : forall s r, s ∈ pl_steps p -> r ∈ step_references s ->
    depends p (ps_step_id s) (rr_step_id r);
  pv_predecessors : forall s intent, s ∈ pl_steps p ->
    intent ∈ sr_required_predecessor_intents (ps_rules s) ->
    exists c, c ∈ pl_steps p /\ ps_intent c = intent /\
              tc (depends p) (ps_step_id s) (ps_step_id c);
  pv_ordered : forall l r, l ∈ pl_steps p -> r ∈ pl_steps p -> l <> r ->
    unsafe (ps_rules l) = true -> unsafe (ps_rules r) = true ->
    (sr_allow_parallel_side_effects (ps_rules l) = true /\
     sr_allow_parallel_side_effects (ps_rules r) = true) \/
    tc (depends p) (ps_step_id l) (ps_step_id r) \/
    tc (depends p) (ps_step_id r) (ps_step_id l)
}.

Lemma rules_match_fields s p :
  rules_match s p = true ->
  unsafe s = unsafe p /\ sr_requires_approval s = sr_requires_approval p /\
  sr_write s = sr_write p /\ sr_replay_policy s = sr_replay_policy p /\
  sr_approval_roles s = sr_approval_roles p /\
  sr_allow_parallel_side_effects s = sr_allow_parallel_side_effects p /\
  sr_required_predecessor_intents s = sr_required_predecessor_intents p.
Proof.
  unfold rules_match, unsafe. rewrite !andb_true_iff, !bool_decide_eq_true.
  intros ((((((((->%Bool.eqb_prop & ->%Bool.eqb_prop) & ->) & _) & ->) & _) & ->) &
    ->%Bool.eqb_prop) & _). done.
Qed.

Lemma mapR_elem {A B : Type} (f : A -> res B) l ys x :
  mapR f l = Ok ys -> x ∈ l -> exists y, f x = Ok y.
Proof.
  intros H%mapR_Ok (i & Hi)%list_elem_of_lookup.
  destruct (Forall2_lookup_l _ _ _ _ _ H Hi) as (y & _ & Hy). by exists y.
Qed.

Lemma anyR_true {A : Type} (test : A -> res bool) l :
  anyR test l = Ok true -> exists x, x ∈ l /\ test x = Ok true.
Proof.
  induction l as [|x l IH]; simpl; [done|]. intros H. res_inv H.
  - exists x. split; [left|done].
  - destruct (IH H) as (y & Hy & Ht). exists y. split; [by right|done].
Qed.

Section Validated.
Variable policies : policy_catalog.
Variable p : MultiIntentPlan.
Variable g : DependencyGraph.
Hypothesis Hg : graph_of p g.
Hypothesis Hnd : NoDup (step_ids p).

Lemma step_id_in s : s ∈ pl_steps p -> ps_step_id s ∈ step_ids p.
Proof. intros H. apply step_ids_elem. by exists s. Qed.

Lemma ancestor_tc a d : a ∈ pl_steps p ->
  is_ancestor g (ps_step_id a) d = Ok true -> tc (depends p) d (ps_step_id a).
Proof.
  intros Ha H.
  destruct (is_ancestor_spec p g (ps_step_id a) d Hg Hnd (step_id_in a Ha)) as (b & Hb & Hiff).
  rewrite H in Hb. injection Hb as <-. by apply Hiff.
Qed.

Lemma ordered_pair_sound l r u :
  l ∈ pl_steps p -> r ∈ pl_steps p -> ordered_pair policies g l r = Ok u ->
  (sr_allow_parallel_side_effects (policy_of policies l) = true /\
   sr_allow_parallel_side_effects (policy_of policies r) = true) \/
  tc (depends p) (ps_step_id l) (ps_step_id r) \/
  tc (depends p) (ps_step_id r) (ps_step_id l).
Proof.
  intros Hl Hr. unfold ordered_pair. intros H. destruct (_ && _) eqn:E.
  { left. by apply andb_true_iff in E. }
  right. apply rbind_Ok in H as ([|] & Hb & H).
  - right. by apply ancestor_tc.
  - left. apply rbind_Ok in H as (b & Ha & Hd%demand_Ok). subst b. by apply ancestor_tc.
Qed.

Lemma ordered_pairs_sound steps u l r :
  (forall s, s ∈ steps -> s ∈ pl_steps p) -> NoDup (map ps_step_id steps) ->
  ordered_pairs policies g steps = Ok u -> l ∈ steps -> r ∈ steps -> l <> r ->
  (sr_allow_parallel_side_effects (policy_of policies l) = true /\
   sr_allow_parallel_side_effects (policy_of policies r) = true) \/
  tc (depends p) (ps_step_id l) (ps_step_id r) \/
  tc (depends p) (ps_step_id r) (ps_step_id l).
Proof.
  induction steps as [|s steps IH]; cbn [ordered_pairs map]; intros Hin Hnds H Hl Hr Hne.
  - by apply elem_of_nil in Hl.
  - apply NoDup_cons in Hnds as [_ Hnds]. apply rbind_Ok in H as (us & Hus & H).
    apply elem_of_cons in Hl as [->|Hl]; apply elem_of_cons in Hr as [->|Hr].
    + done.
    + destruct (mapR_elem _ _ _ _ Hus Hr) as (u' & Hu').
      apply (ordered_pair_sound s r u'); [apply Hin; left | apply Hin; by right | done].
    + destruct (mapR_elem _ _ _ _ Hus Hl) as (u' & Hu').
      destruct (ordered_pair_sound s l u') as [[? ?]|[?|?]];
        [apply Hin; left | apply Hin; by right | done | by left | by right; right | by right; left].
    + apply IH; auto. intros x Hx. apply Hin. by right.
Qed.
End Validated.

(** What an accepted plan is, for the machine and the executor *)
Lemma validate_plan_Ok policies p g :
  plan_ok p = Ok tt -> validate_plan policies p = Ok g -> plan_valid policies p g.
Proof.
  intros Hok H. pose proof (plan_ids_nodup p Hok) as Hnd. unfold validate_plan in H.
  apply rbind_Ok in H as (us & Hsteps & H). apply rbind_Ok in H as (g' & Hgraph & H).
  apply rbind_Ok in H as (ud & Hdata & H). apply rbind_Ok in H as (up & Hpred & H).
  apply rbind_Ok in H as ([] & Hord & [= ->]).
  pose proof (dependency_graph_spec p Hok) as Hg. rewrite Hgraph in Hg.
  assert (Hpol : forall s, s ∈ pl_steps p -> exists policy,
     dget (ps_intent s) policies = Some policy /\ rules_match (ps_rules s) (ip_rules policy) = true).
  { intros s Hs. destruct (mapR_elem _ _ _ _ Hsteps Hs) as ([] & Hv). unfold validate_step in Hv.
    apply rbind_Ok in Hv as (policy & Hp & Hv). apply rbind_Ok in Hv as ([] & Hm%demand_Ok & _).
    unfold policy_for in Hp. exists policy. destruct (dget (ps_intent s) policies); by simplify_eq. }
  assert (Hrules : forall s, s ∈ pl_steps p -> rules_match (ps_rules s) (policy_of policies s) = true).
  { intros s Hs. destruct (Hpol s Hs) as (policy & Hp & Hm). unfold policy_of. by rewrite Hp. }
  split; [done|done| | |].
  - intros s r Hs Hr. destruct (mapR_elem _ _ _ _ Hdata Hs) as ([] & Hv).
    unfold validate_step_dataflow in Hv. apply rbind_Ok in Hv as (? & _ & Hv).
    do 4 (apply rbind_Ok in Hv as (? & _ & Hv)). apply demand_Ok in Hv.
    apply (go_dependencies _ _ Hg). apply mem_str_spec. by apply (proj1 (forallb_elem _ _) Hv).
  - intros s intent Hs Hi. destruct (mapR_elem _ _ _ _ Hpred Hs) as ([] & Hv).
    unfold validate_step_predecessors in Hv. apply rbind_Ok in Hv as (policy & Hp & Hv).
    apply rbind_Ok in Hv as (us' & Hv & _).
    destruct (Hpol s Hs) as (policy' & Hp' & Hm). unfold policy_at in Hp. rewrite Hp' in Hp.
    injection Hp as <-. apply rules_match_fields in Hm as (_ & _ & _ & _ & _ & _ & Hri).
    rewrite Hri in Hi. destruct (mapR_elem _ _ _ _ Hv Hi) as ([] & Hf).
    apply rbind_Ok in Hf as (found & Hf & ->%demand_Ok). apply anyR_true in Hf as (c & Hc & Ht).
    destruct (String.eqb_spec (ps_intent c) intent); [|done]. exists c. split_and!; [done..|].
    by apply (ancestor_tc p g Hg Hnd).
  - intros l r Hl Hr Hne Hul Hur.
    destruct (rules_match_fields _ _ (Hrules l Hl)) as (El & _ & _ & _ & _ & Pl & _).
    destruct (rules_match_fields _ _ (Hrules r Hr)) as (Er & _ & _ & _ & _ & Pr & _).
    rewrite Pl, Pr. unfold validate_side_effect_order in Hord.
    apply (ordered_pairs_sound policies p g Hg Hnd
             (List.filter (fun s => unsafe (policy_of policies s)) (pl_steps p)) tt l r); try done.
    + intros s Hs. apply list_elem_of_In in Hs. apply list_elem_of_In.
      by apply List.filter_In in Hs as [? _].
    + by apply NoDup_map_filter.
    + apply list_elem_of_In, List.filter_In. rewrite <- El. split; [by apply list_elem_of_In|done].
    + apply list_elem_of_In, List.filter_In. rewrite <- Er. split; [by apply list_elem_of_In|done].
Qed.

(** C23. A plan accepted by validation follows its trusted policies: the graph is
    well formed, every step carries its policy's rules, reads results of direct
    dependencies only, comes after a step of each required intent, and of any two
    steps with side effects that may not run in parallel one depends on the other. *)
Theorem validated_plan_is_valid policies p g :
  plan_ok p = Ok tt -> validate_plan policies p = Ok g -> plan_valid policies p g.
Proof. intros Hok H. by apply validate_plan_Ok. Qed.

(** ** What binding keeps and adds *)
Lemma append_new_elem l s x : x ∈ append_new l s <-> x ∈ l \/ x = s.
Proof.
  unfold append_new. destruct (mem_str s l) eqn:E.
  - apply mem_str_spec in E. naive_solver.
  - by rewrite elem_of_app, list_elem_of_singleton.
Qed.

Lemma fold_append_new_elem l acc x : x ∈ fold_left append_new l acc <-> x ∈ acc \/ x ∈ l.
Proof.
  revert acc. induction l as [|s l IH]; intros acc; cbn [fold_left].
  - set_solver.
  - rewrite IH, append_new_elem, elem_of_cons. tauto.
Qed.

Lemma fromkeys_elem l x : x ∈ fromkeys l <-> x ∈ l.
Proof.
  unfold fromkeys. change (fun acc s => if mem_str s acc then acc else (acc ++ [s])%list)
    with append_new. rewrite fold_append_new_elem. set_solver.
Qed.

Section Bound.
Variable set_order : list string -> list string.
Variable policies : policy_catalog.
Variable p : MultiIntentPlan.

Lemma add_candidates_keeps s l : forall direct direct' x,
  foldM (add_candidates p s) direct l = Ok direct' -> x ∈ direct -> x ∈ direct'.
Proof.
  induction l as [|i l IH]; cbn [foldM]; intros direct direct' x H Hx; [by simplify_eq|].
  apply rbind_Ok in H as (d & Hd & H). eapply IH; [exact H|]. unfold add_candidates in Hd.
  destruct (candidates p s i) as [|c cs]; [done|]. injection Hd as <-.
  apply (fold_append_new_elem (c :: cs)). by left.
Qed.

Lemma add_unsafe_keeps rules l : forall direct x,
  x ∈ direct -> x ∈ fold_left (add_unsafe policies rules) l direct.
Proof.
  induction l as [|s l IH]; cbn [fold_left]; intros direct x Hx; [done|]. apply IH.
  unfold add_unsafe. destruct (_ && _); [done|]. apply append_new_elem. by left.
Qed.

(** The dependencies collected for a step contain the ones it declared. *)
Definition keeps (s : PlanStep) (direct : list string) : Prop :=
  forall d, d ∈ ps_depends_on s -> d ∈ direct.

Lemma bind_dependencies_keeps steps : forall acc acc',
  foldM (bind_dependencies set_order policies p) acc steps = Ok acc' ->
  exists new, fst acc' = (fst acc ++ new)%list /\ Forall2 keeps steps new.
Proof.
  induction steps as [|s steps IH]; cbn [foldM]; intros acc acc' H.
  - simplify_eq. exists []. by rewrite app_nil_r.
  - apply rbind_Ok in H as (acc1 & H1 & H). apply IH in H as (new & Hnew & Hk).
    unfold bind_dependencies in H1. apply rbind_Ok in H1 as (policy & _ & H1).
    apply rbind_Ok in H1 as (direct & Hd & H1).
    assert (Hkeep : keeps s direct).
    { intros d Hd'. eapply add_candidates_keeps; [exact Hd|]. by apply fromkeys_elem. }
    destruct (unsafe (ip_rules policy)); injection H1 as <-; cbn [fst] in Hnew.
    + eexists (_ :: new). rewrite Hnew, <- app_assoc. split; [done|]. constructor; [|done].
      intros d Hd'. apply add_unsafe_keeps. by apply Hkeep.
    + eexists (_ :: new). rewrite Hnew, <- app_assoc. split; [done|]. by constructor.
Qed.

(** [b] is the step [s] as the policies complete it. *)
Definition completes (s b : PlanStep) : Prop :=
  ps_step_id b = ps_step_id s /\ ps_intent b = ps_intent s /\
  ps_arguments b = ps_arguments s /\ keeps s (ps_depends_on b) /\ plan_step_ok b = Ok tt /\
  exists policy, dget (ps_intent s) policies = Some policy /\ ps_rules b = ip_rules policy.

Lemma bind_steps_completes steps : forall directs bound,
  Forall2 keeps steps directs -> bind_steps policies p steps directs = Ok bound ->
  Forall2 completes steps bound.
Proof.
  induction steps as [|s steps IH]; intros directs bound Hk H.
  - apply Forall2_nil_inv_l in Hk as ->. cbn in H. simplify_eq. constructor.
  - apply Forall2_cons_inv_l in Hk as (direct & directs' & Hd & Hk & ->). cbn [bind_steps] in H.
    apply rbind_Ok in H as (b & Hb & H). apply rbind_Ok in H as (rest & Hr & [= <-]).
    constructor; [|by eapply IH]. unfold bind_step in Hb.
    apply rbind_Ok in Hb as (policy & Hp & Hb). do 2 (apply rbind_Ok in Hb as (? & _ & Hb)).
    apply made_Ok in Hb as [-> Hok]. unfold completes. cbn. split_and!; try done.
    exists policy. unfold policy_for in Hp. destruct (dget (ps_intent s) policies); naive_solver.
Qed.

(** Binding a model's plan to the trusted policies only ever restricts it: the
    bound plan has the same steps, intents and arguments, keeps every dependency
    the model asked for, carries exactly the rules of the policies, and is valid;
    so a model can neither drop a prerequisite nor relax a side effect. *)
Theorem bound_plan_is_trusted bound :
  bind_trusted_dependencies set_order policies p = Ok bound ->
  pl_request bound = pl_request p /\ pl_plan_id bound = pl_plan_id p /\
  Forall2 completes (pl_steps p) (pl_steps bound) /\
  exists g, validate_plan policies bound = Ok g /\ plan_valid policies bound g.
Proof.
  unfold bind_trusted_dependencies. intros H. apply rbind_Ok in H as (? & _ & H).
  apply rbind_Ok in H as (acc & Hacc & H). apply rbind_Ok in H as (steps & Hsteps & H).
  apply rbind_Ok in H as (b & Hb & H). apply rbind_Ok in H as (g & Hg & [= <-]).
  apply made_Ok in Hb as [-> Hok]. split_and!; [done|done| |].
  - destruct (bind_dependencies_keeps _ _ _ Hacc) as (new & Heq & Hk). cbn [fst app] in Heq.
    rewrite Heq in Hsteps. by eapply bind_steps_completes.
  - exists g. split; [done|]. by apply validate_plan_Ok.
Qed.
End Bound.

(** ** The worked plan *)
Definition sample_policies : policy_catalog :=
  [("lookup", lookup_policy); ("transfer", transfer_policy); ("notify", notify_policy)].

(** What a model proposes for it: intents and arguments, no data flow, no rules. *)
Definition no_rules : step_rules := mkRules false false Safe [] [] None [] false None.
Definition proposed_plan : MultiIntentPlan :=
  mkPlan "pay B-4 from A-17"
    [mkStep "s1" "lookup" [("account", VStr "A-17")] [] no_rules [] [] None;
     mkStep "s2" "transfer" [("to", VStr "B-4")] [] no_rules [] [] None;
     mkStep "s3" "notify" [("text", VStr "done")] [] no_rules [] [] None] "plan-1" 1.

Example binding_completes_the_plan :
  bind_trusted_dependencies (fun l => l) sample_policies proposed_plan = Ok sample_plan.
Proof. vm_compute. reflexivity. Qed.

Lemma validated_plan_is_valid_witness : plan_valid sample_policies sample_plan sample_graph.
Proof.
  refine (validated_plan_is_valid sample_policies sample_plan sample_graph _ _);
    vm_compute; reflexivity.
Defined.

Lemma bound_plan_is_trusted_witness :
  pl_request sample_plan = pl_request proposed_plan.
Proof.
  refine (proj1 (bound_plan_is_trusted (fun l => l) sample_policies proposed_plan sample_plan _)).
  vm_compute. reflexivity.
Defined.
