(* ===== verification/PlanState.v ===== *)
(** * Plan execution state machine  (src/.../planning/state_machine.py, synthesizer.py)

    [TaskStateMachine]: one function per event type, [apply], replay, recovery of
    interrupted steps, and the restoring of snapshots with their coherence check;
    the summary of an execution. *)

From S2P Require Import Prelude PyDict Text PyVal Json DurableAction PlanTypes PlanGraph.
From Stdlib Require Import String.

#[local] Open Scope string_scope.
#[local] Open Scope bool_scope.
#[local] Open Scope Z_scope.
#[local] Arguments blank : simpl never.

(** ** Fields of event data *)

(** [_required_text], [_sha256_text], [_required_sha256], [_required_timestamp] *)
Definition plan_event_text (d : pydict) (key : string) : res string := text (jget d key).

Definition sha256_text (s : string) : res string :=
  check! demand (is_sha256 s) in Ok s.

Definition plan_event_sha256 (d : pydict) (key : string) : res string :=
  let! s := plan_event_text d key in sha256_text s.

Definition plan_event_timestamp (d : pydict) (key : string) : res pyfloat :=
  finite_timestamp (jget d key).

(** [None if raw is None else _required_text(event.data, key)] *)
Definition plan_event_optional_text (d : pydict) (key : string) : res (option string) :=
  optional text (jget d key).

(** [s or default] *)
Definition or_text (o : option string) (default : string) : string :=
  match o with Some s => if nonempty s then s else default | None => default end.

(** ** [replace(current, ...)] *)
Definition set_status (x : PlanStepStatus) (s : PlanStepState) : PlanStepState :=
  mkStepState x (ss_attempts s) (ss_approval_id s) (ss_result s) (ss_error s)
    (ss_approval_receipt s) (ss_validation_status s) (ss_approval_action_hash s).
Definition set_attempts (x : Z) (s : PlanStepState) : PlanStepState :=
  mkStepState (ss_status s) x (ss_approval_id s) (ss_result s) (ss_error s)
    (ss_approval_receipt s) (ss_validation_status s) (ss_approval_action_hash s).
Definition set_approval_id (x : option string) (s : PlanStepState) : PlanStepState :=
  mkStepState (ss_status s) (ss_attempts s) x (ss_result s) (ss_error s)
    (ss_approval_receipt s) (ss_validation_status s) (ss_approval_action_hash s).
Definition set_result (x : pyval) (s : PlanStepState) : PlanStepState :=
  mkStepState (ss_status s) (ss_attempts s) (ss_approval_id s) x (ss_error s)
    (ss_approval_receipt s) (ss_validation_status s) (ss_approval_action_hash s).
Definition set_error (x : option string) (s : PlanStepState) : PlanStepState :=
  mkStepState (ss_status s) (ss_attempts s) (ss_approval_id s) (ss_result s) x
    (ss_approval_receipt s) (ss_validation_status s) (ss_approval_action_hash s).
Definition set_receipt (x : option PlanApprovalReceipt) (s : PlanStepState) : PlanStepState :=
  mkStepState (ss_status s) (ss_attempts s) (ss_approval_id s) (ss_result s) (ss_error s)
    x (ss_validation_status s) (ss_approval_action_hash s).
Definition set_validation (x : option ValidationStatus) (s : PlanStepState) : PlanStepState :=
  mkStepState (ss_status s) (ss_attempts s) (ss_approval_id s) (ss_result s) (ss_error s)
    (ss_approval_receipt s) x (ss_approval_action_hash s).
Definition set_action_hash (x : option string) (s : PlanStepState) : PlanStepState :=
  mkStepState (ss_status s) (ss_attempts s) (ss_approval_id s) (ss_result s) (ss_error s)
    (ss_approval_receipt s) (ss_validation_status s) x.

(** [current.status in {...}] *)
Definition is_in (l : list PlanStepStatus) (s : PlanStepState) : bool := status_in l (ss_status s).

Definition before_dispatch : list PlanStepStatus := [StepPending; StepWaitingApproval].

(** ** One function per event type *)
Section Events.
Variable st : PlanExecutionState.
Variable step : PlanStep.
Variable current : PlanStepState.
Variable data : pydict.

Definition on_waiting_approval : res PlanStepState :=
  check! demand (is_in [StepPending] current && sr_requires_approval (ps_rules step)) in
  check! demand (negb (is_some (ss_approval_receipt current))) in
  let! action_hash := plan_event_sha256 data "actionHash" in
  let! approval_id := plan_event_optional_text data "approvalId" in
  Ok (current |> set_status StepWaitingApproval |> set_approval_id approval_id
              |> set_action_hash (Some action_hash)).

(** The action hash the approval must name: the one waited for, if there is one. *)
Definition expected_action_hash (action_hash : string) : res string :=
  let expected := or_text (ss_approval_action_hash current) action_hash in
  check! demand (String.eqb action_hash expected) in Ok expected.

Definition placeholder_id (approval_id : string) : bool :=
  starts_with "plan-approval-request-" approval_id.

(** [frozenset(a).isdisjoint(b)], negated *)
Definition share_member (a b : list string) : bool := existsb (fun s => mem_str s b) a.

Definition on_approval_granted : res PlanStepState :=
  check! demand (is_in before_dispatch current) in
  let! action_hash := plan_event_sha256 data "actionHash" in
  let! expected := expected_action_hash action_hash in
  let! approval_id := plan_event_text data "approvalId" in
  let! raw := mapping (jget data "receipt") in
  let! receipt := plan_receipt_from_dict raw in
  check! demand (is_some (pr_consumed_at receipt)) in
  check! demand (String.eqb (pr_approval_id receipt) approval_id
                 && String.eqb (pr_plan_id receipt) (xs_plan_id st)
                 && String.eqb (pr_step_id receipt) (ps_step_id step)
                 && String.eqb (pr_action_hash receipt) expected
                 && (pr_state_version receipt =? xs_version st)) in
  check! demand (match ss_approval_id current with
                 | Some i => String.eqb i approval_id || placeholder_id i
                 | None => true
                 end) in
  check! demand (share_member (sr_approval_roles (ps_rules step)) (pr_approver_roles receipt)) in
  Ok (current |> set_status StepPending |> set_approval_id (Some approval_id)
              |> set_action_hash (Some expected) |> set_receipt (Some receipt)
              |> set_error None).

Definition on_approval_denied : res PlanStepState :=
  check! demand (is_in before_dispatch current) in
  let! action_hash := plan_event_sha256 data "actionHash" in
  let! expected := expected_action_hash action_hash in
  let! decision_id := plan_event_optional_text data "approvalId" in
  check! demand (match ss_approval_id current, decision_id with
                 | Some i, Some j => String.eqb i j
                 | _, _ => true
                 end) in
  let! reason := plan_event_text data "reason" in
  Ok (current |> set_status StepFailed
              |> set_approval_id (match decision_id with
                                  | Some _ => decision_id | None => ss_approval_id current end)
              |> set_action_hash (Some expected) |> set_error (Some reason)).

(** The approval check of a step that starts *)
Definition check_start_receipt : res unit :=
  match ss_approval_id current, ss_approval_receipt current with
  | Some _, Some receipt =>
      check! demand (is_str (jget data "approvalReceiptId") (pr_receipt_id receipt)) in
      let! started_at := plan_event_timestamp data "startedAt" in
      match pr_consumed_at receipt with
      | None => Err TypeError
      | Some consumed_at =>
          check! demand (negb (num_lt (NFloat started_at) consumed_at)) in
          demand (negb (num_lt (pr_expires_at receipt) (NFloat started_at)))
      end
  | _, _ => Err PlanValidationError
  end.

Definition on_started : res PlanStepState :=
  check! demand (is_in [StepPending] current) in
  check! demand (forallb (has_status st [StepSucceeded]) (ps_depends_on step)) in
  check! (if sr_requires_approval (ps_rules step) then check_start_receipt else Ok tt) in
  Ok (current |> set_status StepRunning |> set_attempts (ss_attempts current + 1)
              |> set_error None |> set_validation None).

Definition on_validation_passed : res PlanStepState :=
  check! demand (is_in [StepRunning] current) in
  let! _ := plan_event_sha256 data "resultDigest" in
  Ok (current |> set_validation (Some Passed)).

(** Where a step goes whose effects can no longer be known: [write] or [never]. *)
Definition failure_status : PlanStepStatus :=
  if unsafe (ps_rules step) then StepManualIntervention else StepFailed.

Definition on_validation_failed : res PlanStepState :=
  check! demand (is_in [StepRunning] current) in
  let! error := plan_event_text data "error" in
  Ok (current |> set_status failure_status |> set_validation (Some ValidationFailed)
              |> set_error (Some error)).

Definition on_succeeded : res PlanStepState :=
  check! demand (is_in [StepRunning] current) in
  check! demand (negb (is_some (sr_result_contract (ps_rules step))
                       && negb (bool_decide (ss_validation_status current = Some Passed)))) in
  let result := jget data "result" in
  check! require_json result in
  Ok (current |> set_status StepSucceeded |> set_result result |> set_error None).

Definition on_failed : res PlanStepState :=
  check! demand (is_in [StepRunning] current) in
  let! error := plan_event_text data "error" in
  Ok (current |> set_status StepFailed |> set_error (Some error)).

Definition on_outcome_unknown : res PlanStepState :=
  check! demand (is_in [StepRunning] current) in
  check! demand (bool_decide (sr_replay_policy (ps_rules step) = Never)) in
  let! error := plan_event_text data "error" in
  Ok (current |> set_status StepManualIntervention |> set_error (Some error)).

Definition on_skipped : res PlanStepState :=
  check! demand (is_in before_dispatch current) in
  let! reason := plan_event_text data "reason" in
  Ok (current |> set_status StepSkipped |> set_error (Some reason)).

Definition on_dispatch_failed : res PlanStepState :=
  check! demand (is_in before_dispatch current) in
  let! error := plan_event_text data "error" in
  Ok (current |> set_status StepFailed |> set_error (Some error)).

Definition on_not_applicable : res PlanStepState :=
  check! demand (is_in before_dispatch current) in
  let! reason := plan_event_text data "reason" in
  Ok (current |> set_status StepNotApplicable
              |> set_approval_id (if is_some (ss_approval_receipt current)
                                  then ss_approval_id current else None)
              |> set_error (Some reason)).

(** What an interrupted step recovers to *)
Definition recovery_status : PlanStepStatus :=
  if bool_decide (sr_replay_policy (ps_rules step) = Safe) then StepPending
  else StepManualIntervention.

Definition interrupted_error : string :=
  "never replay Step 中断，结果必须人工核对".

Definition on_recovered : res PlanStepState :=
  check! demand (is_in [StepRunning] current) in
  check! demand (is_str (jget data "targetStatus") (step_status_str recovery_status)) in
  Ok (current |> set_status recovery_status |> set_validation None
              |> set_error (if bool_decide (recovery_status = StepPending) then None
                            else Some interrupted_error)).

Definition apply_step_event (ty : string) : res PlanStepState :=
  if String.eqb ty "step_waiting_approval" then on_waiting_approval else
  if String.eqb ty "step_approval_granted" then on_approval_granted else
  if String.eqb ty "step_approval_denied" then on_approval_denied else
  if String.eqb ty "step_started" then on_started else
  if String.eqb ty "step_validation_passed" then on_validation_passed else
  if String.eqb ty "step_validation_failed" then on_validation_failed else
  if String.eqb ty "step_succeeded" then on_succeeded else
  if String.eqb ty "step_failed" then on_failed else
  if String.eqb ty "step_outcome_unknown" then on_outcome_unknown else
  if String.eqb ty "step_skipped" then on_skipped else
  if mem_str ty ["step_arguments_invalid"; "step_precondition_failed"] then on_dispatch_failed else
  if String.eqb ty "step_not_applicable" then on_not_applicable else
  if String.eqb ty "step_recovered" then on_recovered else
  Err PlanValidationError.
End Events.

(** ** The machine *)
Section Machine.
Variable p : MultiIntentPlan.

(** [set(steps) == {step.step_id for step in plan.steps}] *)
Definition same_step_set {V : Type} (steps : dict V) : bool :=
  forallb (fun i => dmem i steps) (step_ids p)
  && forallb (fun i => mem_str i (step_ids p)) (dkeys steps).

(** [_validate_state_identity] *)
Definition validate_state_identity (st : PlanExecutionState) : res unit :=
  check! demand (String.eqb (xs_plan_id st) (pl_plan_id p)) in
  demand (same_step_set (xs_steps st)).

(** [initial_state] *)
Definition initial_state : PlanExecutionState :=
  mkExecutionState (pl_plan_id p)
    (fold_left (fun d s => dset (ps_step_id s) fresh_step d) (pl_steps p) []) 0.

(** [state.steps\[step_id\]] *)
Definition step_state (st : PlanExecutionState) (step_id : string) : res PlanStepState :=
  match dget step_id (xs_steps st) with Some s => Ok s | None => Err KeyError end.

(** [apply] *)
Definition apply_plan_event (st : PlanExecutionState) (e : PlanEvent) : res PlanExecutionState :=
  check! validate_state_identity st in
  check! demand (pe_sequence e =? xs_version st + 1) in
  let! step := plan_step p (pe_step_id e) in
  let! current := step_state st (pe_step_id e) in
  let! updated := apply_step_event st step current (pe_data e) (pe_type e) in
  Ok (mkExecutionState (xs_plan_id st) (dset (pe_step_id e) updated (xs_steps st))
        (pe_sequence e)).

(** [replay] *)
Definition replay_plan (events : list PlanEvent) : res PlanExecutionState :=
  foldM apply_plan_event initial_state events.

(** The event [recover_interrupted] makes for one interrupted step *)
Definition recovery_event (st : PlanExecutionState) (step : PlanStep) : res PlanEvent :=
  made plan_event_ok
    (mkPlanEvent (xs_version st + 1) "step_recovered" (ps_step_id step)
       [("targetStatus", VStr (step_status_str (recovery_status step)))] 1).

Definition recover_step (acc : PlanExecutionState * list PlanEvent) (step_id : string)
  : res (PlanExecutionState * list PlanEvent) :=
  let! current := step_state (fst acc) step_id in
  if negb (is_in [StepRunning] current) then Ok acc else
  let! step := plan_step p step_id in
  let! e := recovery_event (fst acc) step in
  let! st' := apply_plan_event (fst acc) e in
  Ok (st', (snd acc ++ [e])%list).

(** [recover_interrupted] *)
Definition recover_interrupted (g : DependencyGraph) (st : PlanExecutionState)
  : res (PlanExecutionState * list PlanEvent) :=
  foldM recover_step (st, []) (dg_topological_order g).

(** ** Snapshots *)

(** [all(state.steps\[d\].status == "succeeded" for d in step.depends_on)] *)
Definition dependencies_succeeded (st : PlanExecutionState) (step : PlanStep) : bool :=
  forallb (has_status st [StepSucceeded]) (ps_depends_on step).

Definition executed_statuses : list PlanStepStatus :=
  [StepRunning; StepSucceeded; StepManualIntervention].

(** One step of [_validate_state_coherence] *)
Definition coherent_step (st : PlanExecutionState) (step : PlanStep) (s : PlanStepState) : bool :=
  let rules := ps_rules step in
  let has_id := is_some (ss_approval_id s) in
  let has_receipt := is_some (ss_approval_receipt s) in
  let has_hash := is_some (ss_approval_action_hash s) in
  let no_result := is_none (ss_result s) in
  let no_error := negb (is_some (ss_error s)) in
  let implb' a b := negb a || b in
  implb' (is_in [StepWaitingApproval; StepRunning; StepSucceeded; StepFailed; StepNotApplicable;
                 StepManualIntervention] s)
         (dependencies_succeeded st step)
  && implb' (is_in [StepWaitingApproval] s)
       (sr_requires_approval rules && negb has_receipt && (ss_attempts s =? 0)
        && no_result && no_error)
  && implb' (is_in executed_statuses s)
       ((1 <=? ss_attempts s) && implb' (sr_requires_approval rules) (has_id && has_receipt))
  && implb' (negb has_id) (negb has_receipt)
  && implb' (negb has_id && has_hash) (is_in [StepWaitingApproval] s)
  && implb' has_id has_hash
  && implb' (has_id && negb has_receipt) (is_in [StepWaitingApproval; StepFailed] s)
  && implb' (is_in [StepPending; StepRunning] s) (no_result && no_error)
  && implb' (is_in [StepSucceeded] s) no_error
  && implb' (is_in terminal_failures s)
       (no_result && match ss_error s with Some e => nonempty e | None => false end)
  && implb' (bool_decide (ss_validation_status s = Some ValidationFailed))
       (is_in [StepFailed; StepManualIntervention] s)
  && implb' (bool_decide (ss_validation_status s = Some Passed))
       (is_in [StepRunning; StepSucceeded] s)
  && implb' (is_some (sr_result_contract rules) && is_in [StepSucceeded] s)
       (bool_decide (ss_validation_status s = Some Passed))
  && implb' (sr_requires_approval rules && is_in [StepFailed] s && (0 <? ss_attempts s))
       (has_id && has_receipt).

(** [_validate_state_coherence]: every refusal is the same error, so the checks
    of a step are one conjunction. *)
Definition validate_state_coherence (st : PlanExecutionState) : res unit :=
  let! _ := mapR (fun step => let! s := step_state st (ps_step_id step) in
                              demand (coherent_step st step s)) (pl_steps p) in
  Ok tt.

(** [value in {...}] of strings, where an unhashable value raises *)
Definition snapshot_status (v : pyval) : res PlanStepStatus :=
  match v with
  | VStr s => match find_first (fun t => String.eqb (step_status_str t) s) step_statuses with
              | Some t => Ok t | None => Err PlanValidationError end
  | VList _ | VDict _ => Err TypeError
  | _ => Err PlanValidationError
  end.

Definition snapshot_validation (v : pyval) : res (option ValidationStatus) :=
  match v with
  | VNone => Ok None
  | VStr s => if String.eqb s "passed" then Ok (Some Passed) else
              if String.eqb s "failed" then Ok (Some ValidationFailed)
              else Err PlanValidationError
  | VList _ | VDict _ => Err TypeError
  | _ => Err PlanValidationError
  end.

Definition snapshot_step_fields : list string :=
  ["status"; "attempts"; "approvalId"; "result"; "error"].

(** The checks on the receipt of a restored step *)
Definition snapshot_receipt_ok (step : PlanStep) (approval_id approval_action_hash : option string)
    (receipt : PlanApprovalReceipt) : res unit :=
  check! demand (sr_requires_approval (ps_rules step)) in
  check! demand (bool_decide (approval_id = Some (pr_approval_id receipt))
                 && String.eqb (pr_plan_id receipt) (pl_plan_id p)
                 && String.eqb (pr_step_id receipt) (ps_step_id step)
                 && bool_decide (approval_action_hash = Some (pr_action_hash receipt))
                 && is_some (pr_consumed_at receipt)) in
  demand (share_member (sr_approval_roles (ps_rules step)) (pr_approver_roles receipt)).

(** One step of [state_from_dict] *)
Definition snapshot_step (step : PlanStep) (raw : pyval) : res PlanStepState :=
  let! d := mapping raw in
  check! demand (has_keys snapshot_step_fields
                   ["approvalReceipt"; "approvalActionHash"; "validationStatus"] d) in
  let! status := snapshot_status (jget d "status") in
  let! attempts := integer (jget d "attempts") in
  check! demand (0 <=? attempts) in
  let! approval_id := optional text (jget d "approvalId") in
  check! demand (negb (negb (sr_requires_approval (ps_rules step)) && is_some approval_id)) in
  check! demand (negb (sr_requires_approval (ps_rules step)
                       && status_in [StepRunning; StepSucceeded] status
                       && negb (is_some approval_id))) in
  let! approval_action_hash :=
    match jget d "approvalActionHash" with
    | VNone => if is_some approval_id then let! h := step_action_hash step in Ok (Some h)
               else Ok None
    | VStr h => let! h := sha256_text h in Ok (Some h)
    | _ => Err PlanValidationError
    end in
  let! receipt :=
    match jget d "approvalReceipt" with
    | VNone => Ok None
    | VDict r => let! r := plan_receipt_from_dict r in Ok (Some r)
    | _ => Err PlanValidationError
    end in
  check! match receipt with
         | Some r => snapshot_receipt_ok step approval_id approval_action_hash r
         | None => Ok tt
         end in
  let result := jget d "result" in
  check! require_json result in
  let! error := match jget d "error" with
                | VNone => Ok None
                | VStr s => Ok (Some s)
                | _ => Err PlanValidationError
                end in
  let! validation := snapshot_validation (jget d "validationStatus") in
  Ok (mkStepState status attempts approval_id result error receipt validation
        approval_action_hash).

Definition snapshot_steps (raw : pydict) : res (dict PlanStepState) :=
  foldM (fun acc step => let! s := snapshot_step step (jget raw (ps_step_id step)) in
                         Ok (dset (ps_step_id step) s acc)) [] (pl_steps p).

(** [state_from_dict] *)
Definition state_from_dict (d : pydict) : res PlanExecutionState :=
  check! demand (keys_are ["schemaVersion"; "planId"; "version"; "phase"; "steps"] d) in
  check! demand (py_eq (jget d "schemaVersion") (VInt 1)
                 && is_str (jget d "planId") (pl_plan_id p)) in
  let! raw := mapping (jget d "steps") in
  check! demand (same_step_set raw) in
  let! steps := snapshot_steps raw in
  let! version := integer (jget d "version") in
  check! demand (0 <=? version) in
  let st := mkExecutionState (pl_plan_id p) steps version in
  check! demand (is_str (jget d "phase") (plan_phase_str (plan_phase st))) in
  check! validate_state_identity st in
  check! validate_state_coherence st in
  Ok st.
End Machine.

(** ** Summary of an execution  (synthesizer.py) *)
Record SynthesizedPlanResult := mkSynthesized {
  sy_plan_id : string;
  sy_status : PlanPhase;
  sy_ordered_results : list (string * pyval);
  sy_failures : list (string * string);
  sy_manual_intervention : list string;
  sy_not_applicable : list (string * string)
}.

Definition synthesize_step (st : PlanExecutionState) (acc : SynthesizedPlanResult)
    (step_id : string) : res SynthesizedPlanResult :=
  let! s := step_state st step_id in
  let '(mkSynthesized i ph results failures manual na) := acc in
  Ok match ss_status s with
     | StepSucceeded => mkSynthesized i ph (results ++ [(step_id, ss_result s)]) failures manual na
     | StepFailed | StepSkipped =>
         mkSynthesized i ph results
           (failures ++ [(step_id, or_text (ss_error s) (step_status_str (ss_status s)))]) manual na
     | StepManualIntervention => mkSynthesized i ph results failures (manual ++ [step_id]) na
     | StepNotApplicable =>
         mkSynthesized i ph results failures manual
           (na ++ [(step_id, or_text (ss_error s) "condition_not_met")])
     | _ => acc
     end%list.

(** [ResultSynthesizer.synthesize] *)
Definition synthesize (p : MultiIntentPlan) (st : PlanExecutionState) (g : DependencyGraph)
  : res SynthesizedPlanResult :=
  foldM (synthesize_step st) (mkSynthesized (pl_plan_id p) (plan_phase st) [] [] [] [])
        (dg_topological_order g).
