(* ===== verification/PlanSafety.v ===== *)
(** * Safety of plan executions

    [step_move] is the abstract specification of a step's life cycle; the state
    machine refines it, and the invariants of every reachable execution follow
    from it alone. *)

From S2P Require Import Prelude PyDict Text PyVal Json DurableAction PlanTypes PlanPersistence PlanGraph PlanValidator PlanState.
From Stdlib Require Import String.

#[local] Open Scope string_scope.
#[local] Open Scope bool_scope.
#[local] Open Scope Z_scope.
#[local] Arguments blank : simpl never.

(** ** The life cycle of a step *)

(** The receipt [r] approves the action [h] of this step in this state. *)
Record approves (st : PlanExecutionState) (step : PlanStep) (r : PlanApprovalReceipt) (h : string)
  : Prop := {
  ap_stored : receipt_stored r;
  ap_consumed : is_some (pr_consumed_at r) = true;
  ap_plan : pr_plan_id r = xs_plan_id st;
  ap_step : pr_step_id r = ps_step_id step;
  ap_hash : pr_action_hash r = h;
  ap_version : pr_state_version r = xs_version st;
  ap_role : share_member (sr_approval_roles (ps_rules step)) (pr_approver_roles r) = true
}.

(** A step with this receipt may start at [time]. *)
Definition valid_at (r : PlanApprovalReceipt) (time : pyfloat) : Prop :=
  exists c, pr_consumed_at r = Some c /\ num_lt (NFloat time) c = false /\
            num_lt (pr_expires_at r) (NFloat time) = false.

Inductive step_move (st : PlanExecutionState) (step : PlanStep) (s : PlanStepState)
  : PlanStepState -> Prop :=
| move_wait approval_id h :
    ss_status s = StepPending -> sr_requires_approval (ps_rules step) = true ->
    ss_approval_receipt s = None -> is_sha256 h = true ->
    opt_ok (fun i => blank i = false) approval_id ->
    step_move st step s (s |> set_status StepWaitingApproval |> set_approval_id approval_id
                           |> set_action_hash (Some h))
| move_grant r h :
    is_in before_dispatch s = true -> approves st step r h -> is_sha256 h = true ->
    h = or_text (ss_approval_action_hash s) h ->
    step_move st step s (s |> set_status StepPending |> set_approval_id (Some (pr_approval_id r))
                           |> set_action_hash (Some h) |> set_receipt (Some r) |> set_error None)
| move_deny approval_id h reason :
    is_in before_dispatch s = true -> is_sha256 h = true -> blank reason = false ->
    opt_ok (fun i => blank i = false) approval_id ->
    h = or_text (ss_approval_action_hash s) h ->
    (forall i j, ss_approval_id s = Some i -> approval_id = Some j -> i = j) ->
    step_move st step s (s |> set_status StepFailed
                           |> set_approval_id (match approval_id with
                                               | Some _ => approval_id
                                               | None => ss_approval_id s end)
                           |> set_action_hash (Some h) |> set_error (Some reason))
| move_start :
    ss_status s = StepPending -> dependencies_succeeded st step = true ->
    (sr_requires_approval (ps_rules step) = true ->
     is_some (ss_approval_id s) = true /\
     exists r time, ss_approval_receipt s = Some r /\ valid_at r time) ->
    step_move st step s (s |> set_status StepRunning |> set_attempts (ss_attempts s + 1)
                           |> set_error None |> set_validation None)
| move_validated :
    ss_status s = StepRunning -> step_move st step s (s |> set_validation (Some Passed))
| move_invalid error :
    ss_status s = StepRunning -> blank error = false ->
    step_move st step s (s |> set_status (failure_status step)
                           |> set_validation (Some ValidationFailed) |> set_error (Some error))
| move_succeed result :
    ss_status s = StepRunning -> strict_json result = true ->
    (is_some (sr_result_contract (ps_rules step)) = true -> ss_validation_status s = Some Passed) ->
    step_move st step s (s |> set_status StepSucceeded |> set_result result |> set_error None)
| move_fail error :
    ss_status s = StepRunning -> blank error = false ->
    step_move st step s (s |> set_status StepFailed |> set_error (Some error))
| move_unknown error :
    ss_status s = StepRunning -> sr_replay_policy (ps_rules step) = Never -> blank error = false ->
    step_move st step s (s |> set_status StepManualIntervention |> set_error (Some error))
| move_skip reason :
    is_in before_dispatch s = true -> blank reason = false ->
    step_move st step s (s |> set_status StepSkipped |> set_error (Some reason))
| move_not_dispatched error :
    is_in before_dispatch s = true -> blank error = false ->
    step_move st step s (s |> set_status StepFailed |> set_error (Some error))
| move_not_applicable reason :
    is_in before_dispatch s = true -> blank reason = false ->
    step_move st step s (s |> set_status StepNotApplicable
                           |> set_approval_id (if is_some (ss_approval_receipt s)
                                               then ss_approval_id s else None)
                           |> set_error (Some reason))
| move_recover :
    ss_status s = StepRunning ->
    step_move st step s (s |> set_status (recovery_status step) |> set_validation None
                           |> set_error (if bool_decide (recovery_status step = StepPending)
                                         then None else Some interrupted_error)).

Lemma is_in_one x s : is_in [x] s = true <-> ss_status s = x.
Proof.
  unfold is_in, status_in. cbn [existsb]. by rewrite orb_false_r, bool_decide_eq_true.
Qed.

Lemma is_in_spec l s : is_in l s = true <-> ss_status s ∈ l.
Proof.
  unfold is_in, status_in. rewrite List.existsb_exists. setoid_rewrite <- list_elem_of_In.
  setoid_rewrite bool_decide_eq_true. naive_solver.
Qed.

Lemma text_Ok v s : text v = Ok s <-> v = VStr s /\ blank s = false.
Proof.
  destruct v; simpl; try (split; [done | by intros [? _]]).
  destruct (blank s0) eqn:E; split;
    [done | intros [[= ->] ?]; congruence | by intros [= ->] | by intros [[= ->] _]].
Qed.

Lemma required_sha256_Ok d k h : plan_event_sha256 d k = Ok h -> is_sha256 h = true.
Proof.
  unfold plan_event_sha256, sha256_text. intros H. apply rbind_Ok in H as (s & _ & H).
  apply rbind_Ok in H as (? & Hs%demand_Ok & [= <-]). done.
Qed.

Lemma optional_text_Ok d k o : plan_event_optional_text d k = Ok o -> opt_ok (fun i => blank i = false) o.
Proof. apply optional_result. intros w x H. by apply text_Ok in H as [_ H]. Qed.

Lemma expected_hash_Ok s h h' :
  expected_action_hash s h = Ok h' -> h' = h /\ h = or_text (ss_approval_action_hash s) h.
Proof.
  unfold expected_action_hash. intros H. apply rbind_Ok in H as (? & He%demand_Ok & [= <-]).
  by apply String.eqb_eq in He.
Qed.

Lemma check_start_Ok s d u :
  check_start_receipt s d = Ok u ->
  is_some (ss_approval_id s) = true /\
  exists r time, ss_approval_receipt s = Some r /\ valid_at r time.
Proof.
  unfold check_start_receipt, valid_at.
  destruct (ss_approval_id s) as [i|]; [|done]. destruct (ss_approval_receipt s) as [r|]; [|done].
  intros H. apply rbind_Ok in H as (? & _ & H). apply rbind_Ok in H as (time & _ & H).
  destruct (pr_consumed_at r) as [c|] eqn:Ec; [|done].
  apply rbind_Ok in H as (? & H1%demand_Ok & H2%demand_Ok). split; [done|].
  exists r, time. split; [done|]. exists c. by apply negb_true_iff in H1, H2.
Qed.

Ltac split_checks H :=
  repeat match type of H with
  | rbind (demand _) _ = Ok _ =>
      let E := fresh "Hc" in apply rbind_Ok in H as (? & E%demand_Ok & H)
  | rbind (plan_event_text _ _) _ = Ok _ =>
      let E := fresh "Ht" in
      apply rbind_Ok in H as (? & E & H); unfold plan_event_text in E; apply text_Ok in E as [_ E]
  | rbind _ _ = Ok _ => let E := fresh "Hr" in apply rbind_Ok in H as (? & E & H)
  end.

(** Every accepted event moves its step along the specification. *)
Lemma apply_step_event_moves st step s d ty s' :
  apply_step_event st step s d ty = Ok s' -> step_move st step s s'.
Proof.
  unfold apply_step_event. intros H. eqb_cases H.
  - unfold on_waiting_approval in H. split_checks H. injection H as <-.
    apply andb_true_iff in Hc as [Hs%is_in_one Hq].
    constructor; eauto using required_sha256_Ok, optional_text_Ok.
    by destruct (ss_approval_receipt s).
  - unfold on_approval_granted in H. split_checks H. injection H as <-.
    apply expected_hash_Ok in Hr0 as [-> Hexp]. rewrite !andb_true_iff in Hc1.
    destruct Hc1 as [[[[Hid%String.eqb_eq Hp%String.eqb_eq] Hst%String.eqb_eq] Hh%String.eqb_eq] Hv%Z.eqb_eq].
    rewrite <- Hid. apply move_grant; eauto using required_sha256_Ok.
    split; eauto using receipt_from_dict_stored.
  - unfold on_approval_denied in H. split_checks H. injection H as <-.
    apply expected_hash_Ok in Hr0 as [-> Hexp].
    apply move_deny; eauto using required_sha256_Ok, optional_text_Ok.
    intros i j Hi ->. rewrite Hi in Hc0. by apply String.eqb_eq.
  - unfold on_started in H. apply rbind_Ok in H as (? & Hs%demand_Ok & H).
    apply rbind_Ok in H as (? & Hd%demand_Ok & H). apply rbind_Ok in H as (u & Hu & H).
    injection H as <-. apply move_start; [by apply is_in_one|done|].
    intros Hq. rewrite Hq in Hu. by eapply check_start_Ok.
  - unfold on_validation_passed in H. split_checks H. injection H as <-.
    constructor. by apply is_in_one.
  - unfold on_validation_failed in H. split_checks H. injection H as <-.
    constructor; [by apply is_in_one|done].
  - unfold on_succeeded in H. split_checks H. unfold require_json in Hr. apply demand_Ok in Hr.
    injection H as <-. constructor; [by apply is_in_one|done|].
    intros Hk. rewrite Hk in Hc0. cbn [andb] in Hc0.
    by apply negb_true_iff, negb_false_iff, bool_decide_eq_true in Hc0.
  - unfold on_failed in H. split_checks H. injection H as <-. constructor; [by apply is_in_one|done].
  - unfold on_outcome_unknown in H. split_checks H. injection H as <-.
    apply bool_decide_eq_true in Hc0. constructor; [by apply is_in_one|done|done].
  - unfold on_skipped in H. split_checks H. injection H as <-. by constructor.
  - destruct (mem_str ty _) eqn:Em.
    + unfold on_dispatch_failed in H. split_checks H. injection H as <-. by constructor.
    + clear Em. eqb_cases H; [| |done].
      * unfold on_not_applicable in H. split_checks H. injection H as <-. by constructor.
      * unfold on_recovered in H. split_checks H. injection H as <-.
        constructor. by apply is_in_one.
Qed.

(** ** The life cycle of a plan *)

Inductive plan_move (p : MultiIntentPlan) (st : PlanExecutionState) : PlanExecutionState -> Prop :=
| plan_move_step step s s' :
    step ∈ pl_steps p -> dget (ps_step_id step) (xs_steps st) = Some s -> step_move st step s s' ->
    xs_plan_id st = pl_plan_id p ->
    plan_move p st (mkExecutionState (xs_plan_id st) (dset (ps_step_id step) s' (xs_steps st))
                      (xs_version st + 1)).

Lemma plan_step_Ok p i step : plan_step p i = Ok step -> step ∈ pl_steps p /\ ps_step_id step = i.
Proof.
  unfold plan_step. destruct (find_first _ _) as [s|] eqn:E; [|done]. intros [= <-].
  apply find_first_Some in E as [H Hi%String.eqb_eq]. done.
Qed.

Lemma step_state_Ok st i s : step_state st i = Ok s <-> dget i (xs_steps st) = Some s.
Proof. unfold step_state. destruct (dget i (xs_steps st)); naive_solver. Qed.

(** What an accepted event does: its number is the next one, its step is one of
    the plan's, and that step alone changes. *)
Lemma apply_plan_event_Ok p st e st' :
  apply_plan_event p st e = Ok st' ->
  exists step s s', step ∈ pl_steps p /\ ps_step_id step = pe_step_id e /\
    dget (pe_step_id e) (xs_steps st) = Some s /\
    apply_step_event st step s (pe_data e) (pe_type e) = Ok s' /\
    xs_plan_id st = pl_plan_id p /\ pe_sequence e = xs_version st + 1 /\
    st' = mkExecutionState (xs_plan_id st) (dset (pe_step_id e) s' (xs_steps st))
            (xs_version st + 1).
Proof.
  unfold apply_plan_event. intros H. apply rbind_Ok in H as ([] & Hid & H).
  apply rbind_Ok in H as (? & Hseq%demand_Ok%Z.eqb_eq & H).
  apply rbind_Ok in H as (step & Hstep & H). apply rbind_Ok in H as (s & Hs & H).
  apply rbind_Ok in H as (s' & Hev & [= <-]).
  apply plan_step_Ok in Hstep as [Hin Heq]. apply step_state_Ok in Hs.
  unfold validate_state_identity in Hid. apply rbind_Ok in Hid as (? & Hp%demand_Ok%String.eqb_eq & _).
  exists step, s, s'. split_and!; try done. by rewrite Hseq.
Qed.

Lemma apply_plan_event_moves p st e st' : apply_plan_event p st e = Ok st' -> plan_move p st st'.
Proof.
  intros (step & s & s' & Hin & Heq & Hs & Hev & Hp & _ & ->)%apply_plan_event_Ok.
  rewrite <- Heq in *. econstructor; eauto using apply_step_event_moves.
Qed.

(** A plan whose constructors have run. *)
Definition checked_plan (p : MultiIntentPlan) : Prop :=
  plan_ok p = Ok tt /\ Forall (fun s => plan_step_ok s = Ok tt) (pl_steps p).

Definition plan_reachable (p : MultiIntentPlan) : PlanExecutionState -> Prop :=
  rtc (plan_move p) (initial_state p).

Lemma replay_reachable p events st : replay_plan p events = Ok st -> plan_reachable p st.
Proof. apply foldM_rtc. apply apply_plan_event_moves. Qed.

(** The steps and rules of a checked plan *)
Lemma rules_need_approval step :
  plan_step_ok step = Ok tt -> sr_approval_roles (ps_rules step) <> [] ->
  sr_requires_approval (ps_rules step) = true.
Proof.
  unfold plan_step_ok, rules_ok, validate_approval_roles. intros H Hne.
  do 4 (apply rbind_Ok in H as (? & _ & H)). apply rbind_Ok in H as ([] & Hr & _).
  do 2 (apply rbind_Ok in Hr as (? & _ & Hr)). apply rbind_Ok in Hr as ([] & Hv & _).
  do 2 (apply rbind_Ok in Hv as (? & _ & Hv)). apply demand_Ok in Hv.
  destruct (sr_requires_approval (ps_rules step)); [done|].
  rewrite bool_decide_eq_false_2 in Hv by done. done.
Qed.

Lemma unsafe_never step :
  plan_step_ok step = Ok tt -> unsafe (ps_rules step) = true ->
  sr_replay_policy (ps_rules step) = Never.
Proof.
  unfold plan_step_ok, rules_ok, unsafe. intros H Hu.
  do 4 (apply rbind_Ok in H as (? & _ & H)). apply rbind_Ok in H as ([] & Hr & _).
  apply rbind_Ok in Hr as (? & Hw%demand_Ok & _).
  destruct (sr_replay_policy (ps_rules step)); [|done]. by destruct (sr_write (ps_rules step)).
Qed.

Lemma share_member_nonempty a b : share_member a b = true -> a <> [].
Proof. by destruct a. Qed.

(** ** The invariant of a step *)
Definition open_statuses : list PlanStepStatus := [StepPending; StepWaitingApproval; StepRunning].

(** What a step keeps of the approval it was granted *)
Record step_granted (plan_id : string) (step : PlanStep) (s : PlanStepState) (r : PlanApprovalReceipt)
  : Prop := {
  gr_stored : receipt_stored r;
  gr_consumed : is_some (pr_consumed_at r) = true;
  gr_plan : pr_plan_id r = plan_id;
  gr_step : pr_step_id r = ps_step_id step;
  gr_id : ss_approval_id s = Some (pr_approval_id r);
  gr_hash : ss_approval_action_hash s = Some (pr_action_hash r);
  gr_role : share_member (sr_approval_roles (ps_rules step)) (pr_approver_roles r) = true
}.

Record step_inv (plan_id : string) (step : PlanStep) (s : PlanStepState) : Prop := {
  si_attempts : 0 <= ss_attempts s;
  si_executed : ss_status s ∈ executed_statuses -> 1 <= ss_attempts s;
  si_never : sr_replay_policy (ps_rules step) = Never ->
    ss_attempts s <= 1 /\ (ss_status s ∈ before_dispatch -> ss_attempts s = 0);
  si_granted : forall r, ss_approval_receipt s = Some r -> step_granted plan_id step s r;
  si_approved : sr_requires_approval (ps_rules step) = true -> 1 <= ss_attempts s ->
    is_some (ss_approval_receipt s) = true;
  si_checked : ss_status s = StepSucceeded -> is_some (sr_result_contract (ps_rules step)) = true ->
    ss_validation_status s = Some Passed
}.

Lemma step_move_open st step s s' : step_move st step s s' -> ss_status s ∈ open_statuses.
Proof.
  unfold open_statuses.
  destruct 1; try (match goal with H : is_in before_dispatch _ = true |- _ =>
                     apply is_in_spec in H; unfold before_dispatch in H end);
    try congruence; set_solver.
Qed.

Lemma or_text_sha256 o h : opt_ok (fun x => is_sha256 x = true) o -> or_text o h = default h o.
Proof. destruct o as [[|]|]; done. Qed.

Lemma granted_hash plan_id step s r h :
  step_granted plan_id step s r -> h = or_text (ss_approval_action_hash s) h -> Some h = ss_approval_action_hash s.
Proof.
  intros [[Hok _ _ _ _] _ _ _ _ Hh _]. rewrite Hh. unfold plan_receipt_ok in Hok.
  apply rbind_Ok in Hok as (? & _ & Hok). apply rbind_Ok in Hok as (? & Hs%demand_Ok & _).
  rewrite or_text_sha256 by done. simpl. by intros ->.
Qed.

Lemma granted_fields plan_id step s s' r :
  step_granted plan_id step s r -> ss_approval_id s' = ss_approval_id s ->
  ss_approval_action_hash s' = ss_approval_action_hash s -> step_granted plan_id step s' r.
Proof. intros [] Hi Hh. split; congruence. Qed.

(** Membership of a known status in a list of statuses, by computation *)
Ltac status :=
  repeat match goal with
  | H : is_in _ _ = true |- _ => apply is_in_spec in H
  end;
  first
    [ by apply (bool_decide_unpack _)
    | match goal with
      | H : ss_status ?s = _ |- ss_status ?s ∈ _ => rewrite H; by apply (bool_decide_unpack _)
      | H : _ ∈ _ |- _ => exfalso; by apply (bool_decide_eq_true_2 _) in H
      end ].

(** Leaving the states before dispatch without starting keeps the counters. *)
Lemma settle_inv plan_id step s s' :
  step_inv plan_id step s -> ss_attempts s' = ss_attempts s ->
  (ss_status s' ∈ executed_statuses -> 1 <= ss_attempts s) ->
  (ss_status s' ∈ before_dispatch -> sr_replay_policy (ps_rules step) = Never -> ss_attempts s = 0) ->
  ss_approval_receipt s' = ss_approval_receipt s ->
  (forall r, ss_approval_receipt s = Some r -> step_granted plan_id step s r ->
     ss_approval_id s' = ss_approval_id s /\
     ss_approval_action_hash s' = ss_approval_action_hash s) ->
  (ss_status s' = StepSucceeded -> is_some (sr_result_contract (ps_rules step)) = true ->
     ss_validation_status s' = Some Passed) ->
  step_inv plan_id step s'.
Proof.
  intros [Ha He Hn Hg Hp Hc] Ea Ee En Er Ei Ec. split.
  - by rewrite Ea.
  - intros H. rewrite Ea. auto.
  - intros H. rewrite Ea. split; [by apply Hn|]. intros H'. by apply En.
  - intros r Hr. rewrite Er in Hr. destruct (Ei r Hr (Hg r Hr)). by eapply granted_fields; [by apply Hg|..].
  - intros H H'. rewrite Ea in H'. rewrite Er. auto.
  - done.
Qed.

Lemma step_move_inv st step s s' :
  step_inv (xs_plan_id st) step s -> step_move st step s s' ->
  step_inv (xs_plan_id st) step s'.
Proof.
  intros I M. pose proof I as [Ha He Hn Hg Hp Hc].
  assert (Hrun : ss_status s = StepRunning -> 1 <= ss_attempts s)
    by (intros E; apply He; status).
  destruct M.
  - apply (settle_inv _ _ s); cbn; try done; try (intros; status).
    + intros _ Hv. apply Hn; [done|]. status.
    + intros r Hr. congruence.
  - destruct H0 as [Hst Hcon Hpl Hsp Hha _ Hro]. apply is_in_spec in H. split; cbn; try done.
    + intros; status.
    + intros Hv. destruct (Hn Hv). split; auto.
    + intros r' [= <-]. split; try done. cbn. by rewrite Hha.
  - apply (settle_inv _ _ s); cbn; try done; try (intros; status).
    intros r Hr G. split.
    + destruct approval_id as [j|]; [|done]. pose proof (gr_id _ _ _ _ G) as Hi.
      rewrite Hi. f_equal. by rewrite (H4 _ j Hi).
    + by eapply granted_hash.
  - split; cbn; try done; try lia.
    + intros Hv. destruct (Hn Hv) as [_ Hz]. rewrite Hz by status. split; [done|]. intros; status.
    + intros r Hr. by eapply granted_fields; [by apply Hg|..].
    + intros Hq _. destruct (H1 Hq) as (_ & r & time & -> & _). done.
  - apply (settle_inv _ _ s); cbn; try done; auto; try (intros; congruence).
    rewrite H. intros; status.
  - apply (settle_inv _ _ s); cbn; try done; auto;
      unfold failure_status; destruct (unsafe _); try done; intros; status.
  - apply (settle_inv _ _ s); cbn; try done; auto. intros; status.
  - apply (settle_inv _ _ s); cbn; try done; auto; intros; status.
  - apply (settle_inv _ _ s); cbn; try done; auto. intros; status.
  - apply (settle_inv _ _ s); cbn; try done; intros; status.
  - apply (settle_inv _ _ s); cbn; try done; intros; status.
  - apply (settle_inv _ _ s); cbn; try done; try (intros; status). by intros r ->.
  - apply (settle_inv _ _ s); cbn; try done; auto.
    + intros Hs Hv. unfold recovery_status in Hs. rewrite Hv in Hs. cbn in Hs. status.
    + unfold recovery_status. by destruct (bool_decide _).
Qed.

(** ** The invariant of an execution *)
Record plan_inv (p : MultiIntentPlan) (st : PlanExecutionState) : Prop := {
  vi_id : xs_plan_id st = pl_plan_id p;
  vi_keys : dkeys (xs_steps st) = step_ids p;
  vi_steps : forall step s, step ∈ pl_steps p -> dget (ps_step_id step) (xs_steps st) = Some s ->
    step_inv (pl_plan_id p) step s /\
    (1 <= ss_attempts s -> dependencies_succeeded st step = true)
}.

Lemma dget_elem {V} (d : dict V) k : k ∈ dkeys d -> exists v, dget k d = Some v.
Proof.
  intros H. destruct (dget k d) as [v|] eqn:E; [by exists v|]. by apply dget_None in E.
Qed.

Lemma initial_steps p :
  NoDup (step_ids p) ->
  xs_steps (initial_state p) = map (fun s => (ps_step_id s, fresh_step)) (pl_steps p).
Proof. intros H. cbn. by rewrite (fold_dset_map ps_step_id (fun _ => fresh_step)). Qed.

Lemma fresh_inv plan_id step : step_inv plan_id step fresh_step.
Proof. split; cbn; try done; try lia; intros; status. Qed.

Lemma initial_inv p : NoDup (step_ids p) -> plan_inv p (initial_state p).
Proof.
  intros Hnd. split; [done|..].
  - rewrite initial_steps by done. unfold dkeys, step_ids. by rewrite map_map.
  - intros step s _ Hs. rewrite initial_steps in Hs by done.
    apply dget_Some_elem, list_elem_of_fmap in Hs as (step' & [= Hid ->] & _).
    split; [apply fresh_inv|]. cbn. lia.
Qed.

Lemma has_status_dset st i j s s' v :
  dget i (xs_steps st) = Some s -> ss_status s <> StepSucceeded ->
  has_status st [StepSucceeded] j = true ->
  has_status (mkExecutionState (xs_plan_id st) (dset i s' (xs_steps st)) v) [StepSucceeded] j = true.
Proof.
  intros Hs Hne. unfold has_status, status_of. cbn. rewrite dget_dset.
  destruct (String.eqb_spec i j) as [<-|]; [|done]. rewrite Hs. cbn.
  by rewrite bool_decide_eq_false_2.
Qed.

Lemma dependencies_kept st step i s s' v :
  dget i (xs_steps st) = Some s -> ss_status s <> StepSucceeded ->
  dependencies_succeeded st step = true ->
  dependencies_succeeded (mkExecutionState (xs_plan_id st) (dset i s' (xs_steps st)) v) step = true.
Proof.
  unfold dependencies_succeeded. rewrite !forallb_elem. intros Hs Hne H j Hj.
  eapply has_status_dset; eauto.
Qed.

Lemma open_not_succeeded s : ss_status s ∈ open_statuses -> ss_status s <> StepSucceeded.
Proof. intros H E. rewrite E in H. status. Qed.

Lemma step_move_attempts st step s s' :
  step_move st step s s' ->
  ss_attempts s' = ss_attempts s \/
  (ss_attempts s' = ss_attempts s + 1 /\ dependencies_succeeded st step = true).
Proof. destruct 1; cbn; auto. Qed.

Lemma plan_move_inv p st st' :
  NoDup (step_ids p) -> plan_inv p st -> plan_move p st st' -> plan_inv p st'.
Proof.
  intros Hnd [Hid Hk Hsteps] M. destruct M as [step s s' Hin Hs M _].
  assert (Hne : ss_status s <> StepSucceeded) by eauto using open_not_succeeded, step_move_open.
  split; cbn [xs_plan_id xs_steps]; [done|..].
  - rewrite dkeys_dset. unfold dmem. by rewrite Hs.
  - intros step2 s2 Hin2 Hs2. rewrite dget_dset in Hs2.
    destruct (String.eqb_spec (ps_step_id step) (ps_step_id step2)) as [E|E].
    + simplify_eq. rewrite (NoDup_map_inj ps_step_id (pl_steps p) step2 step) by done.
      destruct (Hsteps _ _ Hin Hs) as [I Hd]. split.
      * rewrite <- Hid in *. by eapply step_move_inv.
      * destruct (step_move_attempts _ _ _ _ M) as [->|[_ Hds]];
          [intros Ha%Hd | intros _]; by eapply dependencies_kept.
    + destruct (Hsteps _ _ Hin2 Hs2) as [I Hd]. split; [done|]. intros Ha%Hd.
      by eapply dependencies_kept.
Qed.

Lemma reachable_inv p st : NoDup (step_ids p) -> plan_reachable p st -> plan_inv p st.
Proof.
  intros Hnd. unfold plan_reachable.
  apply (rtc_ind_r (fun st => plan_inv p st)); [by apply initial_inv|].
  intros st1 st2 _ M I. by eapply plan_move_inv.
Qed.

Lemma replay_inv p events st :
  plan_ok p = Ok tt -> replay_plan p events = Ok st -> plan_inv p st.
Proof. eauto using reachable_inv, plan_ids_nodup, replay_reachable. Qed.

(** ** Counting what the log records *)
Definition event_of (ty step_id : string) (e : PlanEvent) : bool :=
  String.eqb (pe_type e) ty && String.eqb (pe_step_id e) step_id.

Definition starts (step_id : string) (events : list PlanEvent) : Z :=
  Z.of_nat (List.length (List.filter (event_of "step_started" step_id) events)).

Lemma apply_step_event_attempts st step s d ty s' :
  apply_step_event st step s d ty = Ok s' ->
  ss_attempts s' = ss_attempts s + (if String.eqb ty "step_started" then 1 else 0).
Proof.
  unfold apply_step_event. intros H.
  assert (Hm : ty = "step_started" \/ String.eqb ty "step_started" = false)
    by (destruct (String.eqb_spec ty "step_started"); auto).
  destruct Hm as [->|Hm].
  - cbn [String.eqb Ascii.eqb Bool.eqb] in *. cbn in H. unfold on_started in H.
    split_checks H. injection H as <-. cbn. lia.
  - rewrite Hm in *. rewrite Z.add_0_r. eqb_cases H; try destruct (mem_str ty _); eqb_cases H;
      try done; unfold on_waiting_approval, on_approval_granted, on_approval_denied,
        on_validation_passed, on_validation_failed, on_succeeded, on_failed, on_outcome_unknown,
        on_skipped, on_dispatch_failed, on_not_applicable, on_recovered in H;
      split_checks H; by injection H as <-.
Qed.

Lemma starts_snoc step_id events e :
  starts step_id (events ++ [e])
  = starts step_id events + (if event_of "step_started" step_id e then 1 else 0).
Proof.
  unfold starts. rewrite List.filter_app, length_app. cbn.
  destruct (event_of _ _ e); cbn; lia.
Qed.

Definition attempts_of (st : PlanExecutionState) (step_id : string) : Z :=
  match dget step_id (xs_steps st) with Some s => ss_attempts s | None => 0 end.

Lemma apply_plan_event_attempts p st e st' i :
  apply_plan_event p st e = Ok st' ->
  attempts_of st' i = attempts_of st i + (if event_of "step_started" i e then 1 else 0).
Proof.
  intros (step & s & s' & _ & _ & Hs & Hev & _ & _ & ->)%apply_plan_event_Ok.
  apply apply_step_event_attempts in Hev. unfold attempts_of, event_of. cbn. rewrite dget_dset.
  destruct (String.eqb_spec (pe_step_id e) i) as [<-|].
  - rewrite Hs, Hev, andb_true_r. done.
  - rewrite andb_false_r. lia.
Qed.

(** The log determines the version and the number of starts of every step. *)
Lemma replay_counts p events st :
  NoDup (step_ids p) -> replay_plan p events = Ok st ->
  xs_version st = Z.of_nat (List.length events) /\
  forall i, attempts_of st i = starts i events.
Proof.
  intros Hnd. revert st. induction events as [|e events IH] using rev_ind; intros st.
  - intros [= <-]. split; [done|]. intros i. unfold attempts_of. rewrite initial_steps by done.
    destruct (dget i _) as [s|] eqn:E; [|done].
    by apply dget_Some_elem, list_elem_of_fmap in E as (s0 & [= _ ->] & _).
  - unfold replay_plan. rewrite foldM_snoc. intros H. apply rbind_Ok in H as (st1 & H1 & H).
    destruct (IH _ H1) as [Hv Ha]. split.
    + apply apply_plan_event_Ok in H as (? & ? & ? & _ & _ & _ & _ & _ & _ & ->). cbn.
      rewrite length_app. cbn. lia.
    + intros i. rewrite (apply_plan_event_attempts _ _ _ _ i H), starts_snoc. by rewrite Ha.
Qed.

(** ** What holds in every execution *)

(** C26. The event log of an execution is a path of the life cycle: each accepted
    event moves one step of the plan along its life cycle and leaves the others,
    there are as many moves as events, and the version counts them. *)
Theorem plan_replay_refines_life_cycle p events st :
  plan_ok p = Ok tt -> replay_plan p events = Ok st ->
  nsteps (plan_move p) (List.length events) (initial_state p) st /\
  xs_version st = Z.of_nat (List.length events) /\
  dkeys (xs_steps st) = step_ids p.
Proof.
  intros Hok H. pose proof (plan_ids_nodup p Hok) as Hnd.
  split; [|split; [by eapply replay_counts|by eapply vi_keys, replay_inv]].
  clear Hok Hnd. revert st H. induction events as [|e events IH] using rev_ind; intros st H.
  - injection H as <-. constructor.
  - unfold replay_plan in H. rewrite foldM_snoc in H. apply rbind_Ok in H as (st1 & H1 & H).
    rewrite length_app. cbn. rewrite Nat.add_1_r.
    eapply nsteps_r; [by apply IH | by eapply apply_plan_event_moves].
Qed.

Lemma attempts_of_state st i s : dget i (xs_steps st) = Some s -> attempts_of st i = ss_attempts s.
Proof. unfold attempts_of. by intros ->. Qed.

(** The starts of a step in a log, for the executor *)
Lemma starts_spec p events st step :
  checked_plan p -> replay_plan p events = Ok st -> step ∈ pl_steps p ->
  (exists s, dget (ps_step_id step) (xs_steps st) = Some s /\
             ss_attempts s = starts (ps_step_id step) events) /\
  (unsafe (ps_rules step) = true -> starts (ps_step_id step) events <= 1).
Proof.
  intros [Hok Hsteps] H Hin. pose proof (replay_inv _ _ _ Hok H) as [_ Hk Hi].
  destruct (replay_counts _ _ _ (plan_ids_nodup _ Hok) H) as [_ Hc].
  assert (Hm : ps_step_id step ∈ dkeys (xs_steps st)) by (rewrite Hk; apply step_ids_elem; eauto).
  destruct (dget_elem _ _ Hm) as (s & Hs). rewrite <- Hc, (attempts_of_state _ _ _ Hs).
  split; [by exists s|]. intros Hu. eapply Forall_forall in Hsteps; [|done].
  by apply (proj1 (Hi _ _ Hin Hs)), unsafe_never.
Qed.

(** A step that must never be replayed - every write among them - starts at
    most once in an execution, however it is interrupted, recovered or resumed;
    and the attempts that a state shows are the starts that its log records. *)
Theorem never_replayed_step_starts_once p events st step :
  checked_plan p -> replay_plan p events = Ok st -> step ∈ pl_steps p ->
  (exists s, dget (ps_step_id step) (xs_steps st) = Some s /\
             ss_attempts s = starts (ps_step_id step) events) /\
  (unsafe (ps_rules step) = true -> starts (ps_step_id step) events <= 1).
Proof. intros Hc H Hin. by apply (starts_spec p events st step). Qed.

(** No step that needs an approval is ever started without one: a step that
    was started, whatever became of it, holds a consumed receipt issued for this
    plan and this step, for the action that was waited for, by an approver with
    one of the step's roles. *)
Theorem started_step_was_approved p events st step s :
  checked_plan p -> replay_plan p events = Ok st -> step ∈ pl_steps p ->
  dget (ps_step_id step) (xs_steps st) = Some s ->
  sr_requires_approval (ps_rules step) = true -> 1 <= ss_attempts s ->
  exists r, ss_approval_receipt s = Some r /\ step_granted (pl_plan_id p) step s r.
Proof.
  intros [Hok _] H Hin Hs Hq Ha. pose proof (replay_inv _ _ _ Hok H) as [_ _ Hi].
  destruct (Hi _ _ Hin Hs) as [[_ _ _ Hg Hp _] _]. specialize (Hp Hq Ha).
  destruct (ss_approval_receipt s) as [r|] eqn:E; [|done]. exists r. split; [done|]. by apply Hg.
Qed.

(** A started step has every step it depends on, directly or not, behind it. *)
Lemma started_after_ancestors p st :
  plan_inv p st -> forall v u, tc (depends p) v u -> 1 <= attempts_of st v ->
  status_of st u = Some StepSucceeded.
Proof.
  intros [_ _ Hi].
  assert (Hone : forall v u, depends p v u -> 1 <= attempts_of st v ->
            status_of st u = Some StepSucceeded).
  { intros v u (step & Hin & <- & Hu) Ha. unfold attempts_of in Ha.
    destruct (dget (ps_step_id step) (xs_steps st)) as [s|] eqn:Hs; [|lia].
    destruct (Hi _ _ Hin Hs) as [_ Hd]. specialize (Hd Ha).
    unfold dependencies_succeeded in Hd. pose proof (proj1 (forallb_elem _ _) Hd u Hu) as Hx.
    apply has_status_spec in Hx as (x & Hx & ->%list_elem_of_singleton). done. }
  assert (Hsucc : forall v u, depends p v u -> status_of st v = Some StepSucceeded ->
            1 <= attempts_of st v).
  { intros v u (step & Hin & <- & _) Hs. unfold status_of in Hs.
    destruct (dget (ps_step_id step) (xs_steps st)) as [s|] eqn:E; [|done].
    injection Hs as Hs. rewrite (attempts_of_state _ _ _ E).
    destruct (Hi _ _ Hin E) as [[_ He _ _ _ _] _]. apply He. rewrite Hs. status. }
  induction 1 as [v u H|v d u H Ht IH]; intros Ha; [by eapply Hone|].
  apply IH. assert (Hd : status_of st d = Some StepSucceeded) by by eapply Hone.
  assert (exists w, depends p d w) as [w Hw] by (destruct Ht; eauto). by eapply Hsucc.
Qed.

Definition running (st : PlanExecutionState) (step : PlanStep) : Prop :=
  status_of st (ps_step_id step) = Some StepRunning.

(** In a plan accepted by validation, two steps with side effects never run at
    the same time unless both were declared safe to run in parallel; and a step
    never runs before everything it depends on, directly or not, has succeeded. *)
Theorem side_effects_never_overlap policies p g events st l r :
  checked_plan p -> validate_plan policies p = Ok g -> replay_plan p events = Ok st ->
  l ∈ pl_steps p -> r ∈ pl_steps p -> l <> r -> running st l ->
  (forall u, tc (depends p) (ps_step_id l) u -> status_of st u = Some StepSucceeded) /\
  (unsafe (ps_rules l) = true -> unsafe (ps_rules r) = true ->
   sr_allow_parallel_side_effects (ps_rules l) && sr_allow_parallel_side_effects (ps_rules r)
     = false ->
   ~ running st r).
Proof.
  intros [Hok _] Hv H Hl Hr Hne Hrun. pose proof (replay_inv _ _ _ Hok H) as I.
  assert (Hafter : forall s, s ∈ pl_steps p -> running st s -> 1 <= attempts_of st (ps_step_id s)).
  { intros s Hs Hrs. unfold running, status_of in Hrs.
    destruct (dget (ps_step_id s) (xs_steps st)) as [x|] eqn:E; [|done]. injection Hrs as Hrs.
    rewrite (attempts_of_state _ _ _ E). destruct (vi_steps _ _ I _ _ Hs E) as [[_ He _ _ _ _] _].
    apply He. status. }
  split; [intros u Hu; eapply started_after_ancestors; eauto|].
  intros Hul Hur Hp Hrr. unfold running in *.
  destruct (pv_ordered _ _ _ (validate_plan_Ok _ _ _ Hok Hv) l r Hl Hr Hne Hul Hur)
    as [[El Er]|[Ht|Ht]]; [by rewrite El, Er in Hp|..].
  - assert (Some StepRunning = Some StepSucceeded); [|done].
    rewrite <- Hrr. eapply started_after_ancestors; eauto.
  - assert (Some StepRunning = Some StepSucceeded); [|done].
    rewrite <- Hrun. eapply started_after_ancestors; eauto.
Qed.

Lemma finished_step_kept p st more st' i s :
  foldM (apply_plan_event p) st more = Ok st' -> dget i (xs_steps st) = Some s ->
  status_in open_statuses (ss_status s) = false -> dget i (xs_steps st') = Some s.
Proof.
  intros H Hs Hf.
  refine (foldM_invariant (apply_plan_event p) (fun st => dget i (xs_steps st) = Some s)
            _ more st st' Hs H).
  intros st1 e st2 H1 (step & x & x' & _ & _ & Hx & Hev & _ & _ & ->)%apply_plan_event_Ok.
  cbn. rewrite dget_dset. destruct (String.eqb_spec (pe_step_id e) i) as [E|]; [|done].
  rewrite E, H1 in Hx. injection Hx as <-. apply apply_step_event_moves, step_move_open in Hev.
  apply not_true_iff_false in Hf. destruct Hf. by apply is_in_spec.
Qed.

(** A finished step is final: whatever events follow, a step that succeeded,
    failed, was skipped, was not applicable or was handed to manual intervention
    keeps its state, result and approval included. *)
Theorem finished_step_is_final p events more st st' i s :
  replay_plan p events = Ok st -> replay_plan p (events ++ more) = Ok st' ->
  dget i (xs_steps st) = Some s -> status_in open_statuses (ss_status s) = false ->
  dget i (xs_steps st') = Some s.
Proof.
  unfold replay_plan. rewrite foldM_app. intros -> H. by apply (finished_step_kept p st more).
Qed.

(** ** Recovery of interrupted steps *)

(** The state a running step recovers to *)
Definition recovered (step : PlanStep) (s : PlanStepState) : PlanStepState :=
  s |> set_status (recovery_status step) |> set_validation None
    |> set_error (if bool_decide (recovery_status step = StepPending) then None
                  else Some interrupted_error).

Section Recovery.
Variable p : MultiIntentPlan.
Hypothesis Hchecked : checked_plan p.

(** Where a state stands that the machine may be applied to. *)
Record machine_state (st : PlanExecutionState) : Prop := {
  ms_id : xs_plan_id st = pl_plan_id p;
  ms_keys : dkeys (xs_steps st) = step_ids p;
  ms_version : 0 <= xs_version st
}.

Lemma plan_step_found step : step ∈ pl_steps p -> plan_step p (ps_step_id step) = Ok step.
Proof.
  intros Hin. pose proof (plan_ids_nodup _ (proj1 Hchecked)) as Hnd. unfold plan_step.
  destruct (find_first _ _) as [s|] eqn:E.
  - apply find_first_Some in E as [Hs Hi%String.eqb_eq].
    by rewrite (NoDup_map_inj ps_step_id (pl_steps p) s step).
  - apply find_first_None with (x := step) in E; [|done]. by rewrite String.eqb_refl in E.
Qed.

Lemma machine_state_identity st : machine_state st -> validate_state_identity p st = Ok tt.
Proof.
  intros [Hid Hk _]. unfold validate_state_identity. rewrite Hid, String.eqb_refl. cbn.
  apply demand_Ok. unfold same_step_set. rewrite Hk. apply andb_true_iff. split; apply forallb_elem.
  - intros i Hi. apply dmem_spec. rewrite <- Hk in Hi. by apply dget_elem in Hi.
  - intros i Hi. by apply mem_str_spec.
Qed.

(** The recovery event of a running step is well formed and accepted. *)
Lemma recover_running st evs step s :
  machine_state st -> step ∈ pl_steps p -> dget (ps_step_id step) (xs_steps st) = Some s ->
  ss_status s = StepRunning ->
  exists e, recover_step p (st, evs) (ps_step_id step)
            = Ok (mkExecutionState (xs_plan_id st)
                    (dset (ps_step_id step) (recovered step s) (xs_steps st)) (xs_version st + 1),
                  evs ++ [e])%list /\
    plan_event_ok e = Ok tt /\ pe_type e = "step_recovered" /\ pe_step_id e = ps_step_id step /\
    apply_plan_event p st e
    = Ok (mkExecutionState (xs_plan_id st)
            (dset (ps_step_id step) (recovered step s) (xs_steps st)) (xs_version st + 1)).
Proof.
  intros Hst Hin Hs Hr.
  set (e := mkPlanEvent (xs_version st + 1) "step_recovered" (ps_step_id step)
              [("targetStatus", VStr (step_status_str (recovery_status step)))] 1).
  assert (He : plan_event_ok e = Ok tt).
  { unfold plan_event_ok. cbn -[non_empty]. rewrite (proj2 (Z.leb_le _ _)) by (pose proof (ms_version _ Hst); lia).
    cbn -[non_empty]. pose proof (proj2 Hchecked) as Hf. eapply Forall_forall in Hf; [|done].
    unfold plan_step_ok in Hf. apply rbind_Ok in Hf as (u & Hn & _).
    destruct u. by rewrite Hn. }
  assert (Ha : apply_plan_event p st e = Ok (mkExecutionState (xs_plan_id st)
            (dset (ps_step_id step) (recovered step s) (xs_steps st)) (xs_version st + 1))).
  { unfold apply_plan_event. rewrite machine_state_identity by done.
    cbn [rbind e pe_sequence pe_step_id pe_type pe_data]. rewrite Z.eqb_refl. cbn [demand rbind].
    rewrite plan_step_found by done. cbn [rbind].
    rewrite (proj2 (step_state_Ok _ _ s) Hs). cbn [rbind].
    replace (apply_step_event _ _ _ _ _) with (Ok (recovered step s)); [done|].
    unfold apply_step_event. cbn. unfold on_recovered, is_in. rewrite Hr. cbn.
    unfold jget. cbn. by rewrite String.eqb_refl. }
  exists e. split_and!; try done. unfold recover_step. cbn [fst snd].
  rewrite (proj2 (step_state_Ok _ _ s) Hs). cbn [rbind]. unfold is_in. rewrite Hr. cbn [status_in existsb].
  cbn -[plan_step recovery_event apply_plan_event]. rewrite plan_step_found by done. cbn [rbind].
  replace (recovery_event st step) with (Ok e); [|symmetry; by apply made_Ok].
  cbn [rbind]. by rewrite Ha.
Qed.

(** What recovery has done once the steps of [order] have been visited. *)
Record recovery_inv (start : PlanExecutionState) (order : list string)
    (acc : PlanExecutionState * list PlanEvent) : Prop := {
  ri_state : machine_state (fst acc);
  ri_events : foldM (apply_plan_event p) start (snd acc) = Ok (fst acc);
  ri_ok : Forall (fun e => plan_event_ok e = Ok tt /\ pe_type e = "step_recovered") (snd acc);
  ri_done : forall step s, step ∈ pl_steps p -> dget (ps_step_id step) (xs_steps start) = Some s ->
    dget (ps_step_id step) (xs_steps (fst acc))
    = Some (if bool_decide (ps_step_id step ∈ order /\ ss_status s = StepRunning)
            then recovered step s else s)
}.

Lemma recovered_not_running step s : ss_status (recovered step s) <> StepRunning.
Proof. cbn. unfold recovery_status. by destruct (bool_decide _). Qed.

Lemma recover_one start order acc step s :
  recovery_inv start order acc -> step ∈ pl_steps p -> ps_step_id step ∉ order ->
  dget (ps_step_id step) (xs_steps start) = Some s ->
  exists acc', recover_step p acc (ps_step_id step) = Ok acc' /\
               recovery_inv start (order ++ [ps_step_id step]) acc'.
Proof.
  intros [Hst Hev Hok Hd] Hin Hnew Hs. destruct acc as [st evs]. cbn [fst snd] in *.
  pose proof (Hd _ _ Hin Hs) as Hcur. rewrite bool_decide_eq_false_2 in Hcur by naive_solver.
  destruct (decide (ss_status s = StepRunning)) as [Hr|Hr].
  - destruct (recover_running st evs step s Hst Hin Hcur Hr) as (e & Hrec & He & Hty & Hid & Ha).
    eexists. split; [exact Hrec|]. split; cbn [fst snd].
    + destruct Hst as [H1 H2 H3]. split; cbn [xs_plan_id xs_steps xs_version]; [done| |lia].
      rewrite dkeys_dset. unfold dmem. by rewrite Hcur.
    + rewrite foldM_snoc, Hev. done.
    + apply Forall_app. split; [done|]. by repeat constructor.
    + intros step2 s2 Hin2 Hs2. cbn [xs_steps]. rewrite dget_dset.
      destruct (String.eqb_spec (ps_step_id step) (ps_step_id step2)) as [E|E].
      * assert (step2 = step) as ->.
        { eapply (NoDup_map_inj ps_step_id); eauto.
          exact (plan_ids_nodup _ (proj1 Hchecked)). }
        simplify_eq. rewrite bool_decide_eq_true_2; [done|]. split; [set_solver|done].
      * rewrite (Hd _ _ Hin2 Hs2). f_equal. erewrite bool_decide_ext; [done|]. set_solver.
  - eexists. split.
    + unfold recover_step. cbn [fst snd]. rewrite (proj2 (step_state_Ok _ _ s) Hcur). cbn [rbind].
      replace (is_in [StepRunning] s) with false; [done|]. symmetry. apply not_true_iff_false.
      by rewrite is_in_one.
    + split; cbn [fst snd]; try done. intros step2 s2 Hin2 Hs2. rewrite (Hd _ _ Hin2 Hs2).
      f_equal. erewrite bool_decide_ext; [done|].
      destruct (decide (ps_step_id step2 = ps_step_id step)) as [E|E]; [|set_solver].
      rewrite E, Hs in Hs2. injection Hs2 as <-. naive_solver.
Qed.

Lemma recover_all start rest : forall order acc,
  recovery_inv start order acc -> dkeys (xs_steps start) = step_ids p ->
  NoDup (order ++ rest) -> (forall i, i ∈ rest -> i ∈ step_ids p) ->
  exists acc', foldM (recover_step p) acc rest = Ok acc' /\
               recovery_inv start (order ++ rest) acc'.
Proof.
  induction rest as [|i rest IH]; intros order acc I Hk Hnd Hin.
  - rewrite app_nil_r. by exists acc.
  - assert (Hi : i ∈ step_ids p) by (apply Hin; left).
    pose proof Hi as (step & Hstep & <-)%step_ids_elem. rewrite <- Hk in Hi.
    destruct (dget_elem _ _ Hi) as (s & Hs).
    assert (Hnew : ps_step_id step ∉ order).
    { apply NoDup_app in Hnd as (_ & Hdis & _). intros Ho. apply (Hdis _ Ho). left. }
    destruct (recover_one _ _ _ _ _ I Hstep Hnew Hs) as (acc1 & H1 & I1).
    destruct (IH _ _ I1 Hk) as (acc' & H' & I').
    + by rewrite <- app_assoc.
    + intros j Hj. apply Hin. by right.
    + exists acc'. cbn [foldM]. rewrite H1. cbn [rbind]. split; [done|].
      by rewrite <- app_assoc in I'.
Qed.
End Recovery.

(** Recovery after a crash always succeeds, and its events can be appended to
    the log: they replay from the crashed state to the recovered one.  In it no
    step is running: a step that may be replayed is pending again, any other step
    that was interrupted is handed to manual intervention, and a step that was not
    running is untouched. *)
Theorem recovery_settles_interrupted_steps p g events st :
  checked_plan p -> graph_of p g -> replay_plan p events = Ok st ->
  exists st' more,
    recover_interrupted p g st = Ok (st', more) /\
    replay_plan p (events ++ more) = Ok st' /\
    Forall (fun e => plan_event_ok e = Ok tt /\ pe_type e = "step_recovered") more /\
    forall step s, step ∈ pl_steps p -> dget (ps_step_id step) (xs_steps st) = Some s ->
      dget (ps_step_id step) (xs_steps st')
      = Some (if bool_decide (ss_status s = StepRunning) then recovered step s else s) /\
      ss_status (recovered step s)
      = (if bool_decide (sr_replay_policy (ps_rules step) = Safe) then StepPending
         else StepManualIntervention).
Proof.
  intros Hch Hg H. pose proof (plan_ids_nodup _ (proj1 Hch)) as Hnd.
  pose proof (replay_inv _ _ _ (proj1 Hch) H) as [Hid Hk _].
  assert (Hv : 0 <= xs_version st) by (destruct (replay_counts _ _ _ Hnd H) as [-> _]; lia).
  destruct (recover_all p Hch st (dg_topological_order g) [] (st, [])) as ([st' more] & Hr & I).
  - split; cbn [fst snd]; [by split|done|by constructor|].
    intros step s _ Hs. rewrite bool_decide_eq_false_2; [done|].
    intros [Hn _]. by apply elem_of_nil in Hn.
  - done.
  - cbn. by rewrite (go_order _ _ Hg).
  - intros i Hi. by rewrite <- (go_order _ _ Hg).
  - destruct I as [_ He Hok Hd]. cbn [fst snd app] in *. exists st', more. split_and!; try done.
    + unfold replay_plan. rewrite foldM_app. unfold replay_plan in H. rewrite H. exact He.
    + intros step s Hin Hs. split; [|done]. rewrite (Hd _ _ Hin Hs). f_equal.
      erewrite bool_decide_ext; [done|]. rewrite (go_order _ _ Hg), step_ids_elem. naive_solver.
Qed.

(** ** A worked execution of the sample plan *)

(** The hash of the transfer with its amount resolved, as the executor passes it *)
Definition transfer_digest : string :=
  json_digest (VDict [("amount", VInt 100); ("to", VStr "B-4")]).

Definition transfer_receipt : PlanApprovalReceipt :=
  mkPlanReceipt "approval-7" "receipt-7" "plan-1" "s2" transfer_digest 4 "mia" ["manager"] "idp"
    "identity-3" "verification-9" (NFloat (fl 100 0)) (NFloat (fl 400 0)) (Some (NFloat (fl 120 0))).

Definition plan_log : list PlanEvent :=
  [mkPlanEvent 1 "step_started" "s1" [] 1;
   mkPlanEvent 2 "step_validation_passed" "s1"
     [("resultDigest", VStr (json_digest (VDict [("amount", VInt 100)])))] 1;
   mkPlanEvent 3 "step_succeeded" "s1" [("result", VDict [("amount", VInt 100)])] 1;
   mkPlanEvent 4 "step_waiting_approval" "s2"
     [("approvalId", VStr "plan-approval-request-1"); ("actionHash", VStr transfer_digest)] 1;
   mkPlanEvent 5 "step_approval_granted" "s2"
     [("approvalId", VStr "approval-7"); ("actionHash", VStr transfer_digest);
      ("receipt", VDict (plan_receipt_to_dict transfer_receipt))] 1;
   mkPlanEvent 6 "step_started" "s2"
     [("approvalReceiptId", VStr "receipt-7"); ("startedAt", VFloat (fl 130 0))] 1].

(** The state after these events: the transfer is running. *)
Definition sample_running_plan : PlanExecutionState :=
  match replay_plan sample_plan plan_log with Ok st => st | Err _ => sample_start end.

Definition running_transfer : PlanStepState :=
  match dget "s2" (xs_steps sample_running_plan) with Some s => s | None => fresh_step end.

Lemma sample_log_replays : replay_plan sample_plan plan_log = Ok sample_running_plan.
Proof. vm_compute. reflexivity. Qed.

Lemma sample_plan_checked : checked_plan sample_plan.
Proof.
  split; [vm_compute; reflexivity|]. repeat constructor; vm_compute; reflexivity.
Qed.

Lemma transfer_in_plan : transfer_step ∈ pl_steps sample_plan.
Proof. right. left. Qed.

Lemma plan_replay_refines_life_cycle_witness :
  nsteps (plan_move sample_plan) 6 (initial_state sample_plan) sample_running_plan.
Proof.
  refine (proj1 (plan_replay_refines_life_cycle sample_plan plan_log sample_running_plan
                   (proj1 sample_plan_checked) sample_log_replays)).
Defined.

Lemma never_replayed_step_starts_once_witness : starts "s2" plan_log <= 1.
Proof.
  refine (proj2 (never_replayed_step_starts_once sample_plan plan_log sample_running_plan
                   transfer_step sample_plan_checked sample_log_replays transfer_in_plan) _).
  vm_compute. reflexivity.
Defined.

Lemma started_step_was_approved_witness :
  exists r, ss_approval_receipt running_transfer = Some r /\
            step_granted "plan-1" transfer_step running_transfer r.
Proof.
  refine (started_step_was_approved sample_plan plan_log sample_running_plan transfer_step
            running_transfer sample_plan_checked sample_log_replays transfer_in_plan _ _ _).
  - vm_compute. reflexivity.
  - reflexivity.
  - by vm_compute.
Defined.

Lemma side_effects_never_overlap_witness : ~ running sample_running_plan notify_step.
Proof.
  refine (proj2 (side_effects_never_overlap sample_policies sample_plan sample_graph plan_log
            sample_running_plan transfer_step notify_step sample_plan_checked _
            sample_log_replays transfer_in_plan _ _ _) _ _ _); try (vm_compute; reflexivity).
  - right. right. left.
  - done.
Defined.

Lemma finished_step_is_final_witness :
  dget "s1" (xs_steps sample_running_plan)
  = Some (mkStepState StepSucceeded 1 None (VDict [("amount", VInt 100)]) None None (Some Passed) None).
Proof.
  refine (finished_step_is_final sample_plan (firstn 3 plan_log) (skipn 3 plan_log)
            (match replay_plan sample_plan (firstn 3 plan_log) with
             | Ok st => st | Err _ => sample_start end)
            sample_running_plan "s1" _ _ sample_log_replays _ _); vm_compute; reflexivity.
Defined.

Lemma recovery_settles_interrupted_steps_witness :
  exists st' more,
    recover_interrupted sample_plan sample_graph sample_running_plan = Ok (st', more) /\
    status_of st' "s2" = Some StepManualIntervention.
Proof.
  destruct (recovery_settles_interrupted_steps sample_plan sample_graph plan_log
              sample_running_plan sample_plan_checked sample_graph_of sample_log_replays)
    as (st' & more & Hr & _ & _ & Hd).
  exists st', more. split; [exact Hr|].
  destruct (Hd transfer_step running_transfer transfer_in_plan) as [H1 H2];
    [vm_compute; reflexivity|]. unfold status_of. change "s2" with (ps_step_id transfer_step).
  rewrite H1. vm_compute. reflexivity.
Defined.
