(* ===== verification/PlanSnapshot.v ===== *)
(** * Snapshots of plan executions

    An execution state is stored as its [to_dict] and restored by
    [state_from_dict], which also rejects states it holds to be impossible.  The
    theorem says exactly which states of the machine come back. *)

From S2P Require Import Prelude PyDict Text PyVal Json DurableAction Canonical PlanTypes PlanPersistence PlanGraph PlanState PlanSafety.
From Stdlib Require Import String.

#[local] Open Scope string_scope.
#[local] Open Scope bool_scope.
#[local] Open Scope Z_scope.
#[local] Arguments blank : simpl never.

(** ** What every reachable step can be stored as *)
Record step_typed (s : PlanStepState) : Prop := {
  sy_id : opt_ok (fun i => blank i = false) (ss_approval_id s);
  sy_hash : opt_ok (fun h => is_sha256 h = true) (ss_approval_action_hash s);
  sy_pair : is_some (ss_approval_id s) = true -> is_some (ss_approval_action_hash s) = true;
  sy_result : strict_json (ss_result s) = true
}.

Lemma receipt_id_nonblank r : receipt_stored r -> blank (pr_approval_id r) = false.
Proof.
  intros [H _ _ _ _]. unfold plan_receipt_ok in H.
  apply rbind_Ok in H as (? & Hb%demand_Ok & _). cbn [forallb] in Hb.
  apply andb_true_iff in Hb as [Hb _]. by apply negb_true_iff.
Qed.

Lemma step_move_typed st step s s' : step_typed s -> step_move st step s s' -> step_typed s'.
Proof.
  intros [Hi Hh Hp Hr] M. destruct M; try (split; cbn; done).
  - split; cbn; auto. by eapply receipt_id_nonblank, ap_stored.
  - split; cbn; auto. by destruct approval_id.
  - split; cbn; auto; by destruct (ss_approval_receipt s).
Qed.

Lemma reachable_typed p st :
  NoDup (step_ids p) -> plan_reachable p st ->
  forall i s, dget i (xs_steps st) = Some s -> step_typed s.
Proof.
  intros Hnd. unfold plan_reachable.
  apply (rtc_ind_r (fun st => forall i s, dget i (xs_steps st) = Some s -> step_typed s)).
  - intros i s Hs. rewrite initial_steps in Hs by done.
    apply dget_Some_elem, list_elem_of_fmap in Hs as (? & [= _ ->] & _). by split.
  - intros st1 st2 _ M IH i s. destruct M as [step x x' Hin Hx M _]. cbn. rewrite dget_dset.
    destruct (String.eqb _ _); [|apply IH]. intros [= <-]. eauto using step_move_typed.
Qed.

Lemma receipt_ok_strict r :
  plan_receipt_ok r = Ok tt -> strict_json (VDict (plan_receipt_to_dict r)) = true.
Proof.
  intros H. unfold plan_receipt_ok in H.
  do 4 (apply rbind_Ok in H as (? & _ & H)). apply rbind_Ok in H as (i & Hi & H).
  apply rbind_Ok in H as (e & He & H). apply rbind_Ok in H as (? & _ & H).
  assert (Hn : forall n f, finite_timestamp (num_value n) = Ok f -> strict_json (num_value n) = true).
  { intros [|g] f Hf; [done|]. cbn in *. by destruct (fl_finite g). }
  cbn -[num_value texts_value]. rewrite strict_texts, (Hn _ _ Hi), (Hn _ _ He). cbn -[num_value].
  destruct (pr_consumed_at r) as [c|]; [|done]. apply rbind_Ok in H as (f & Hc & _).
  cbn -[num_value]. by rewrite (Hn _ _ Hc).
Qed.

Lemma receipt_strict r : receipt_stored r -> strict_json (VDict (plan_receipt_to_dict r)) = true.
Proof. intros [H _ _ _ _]. by apply receipt_ok_strict. Qed.

(** The dictionary of a step state *)
Definition step_fields_of (s : PlanStepState) : pydict :=
  [("status", VStr (step_status_str (ss_status s))); ("attempts", VInt (ss_attempts s));
   ("approvalId", option_value VStr (ss_approval_id s));
   ("approvalActionHash", option_value VStr (ss_approval_action_hash s));
   ("approvalReceipt",
    option_value (fun r => VDict (plan_receipt_to_dict r)) (ss_approval_receipt s));
   ("result", ss_result s); ("error", option_value VStr (ss_error s));
   ("validationStatus",
    option_value (fun v => VStr (validation_str v)) (ss_validation_status s))].

Lemma step_state_stored plan_id step s :
  step_typed s -> step_inv plan_id step s -> step_state_to_dict s = Ok (step_fields_of s).
Proof.
  intros [_ _ _ Hr] [_ _ _ Hg _ _]. unfold step_state_to_dict. fold (step_fields_of s).
  cbn zeta. replace (require_json (VDict (step_fields_of s))) with (@Ok unit tt); [done|].
  symmetry. apply demand_Ok. unfold step_fields_of. rewrite !strict_cons, Hr.
  assert (Ho : forall A (f : A -> string) o, strict_json (option_value (fun x => VStr (f x)) o) = true)
    by (by intros A f []).
  rewrite (Ho _ validation_str), !(Ho string (fun x => x)).
  destruct (ss_approval_receipt s) as [r|]; [|done]. cbn [option_value].
  by rewrite (receipt_strict r (gr_stored _ _ _ _ (Hg r eq_refl))).
Qed.

Lemma snapshot_status_str x : snapshot_status (VStr (step_status_str x)) = Ok x.
Proof. by destruct x. Qed.

Lemma snapshot_validation_str o :
  snapshot_validation (option_value (fun v => VStr (validation_str v)) o) = Ok o.
Proof. by destruct o as [[]|]. Qed.

Lemma granted_receipt_ok p step s r :
  plan_step_ok step = Ok tt -> step_granted (pl_plan_id p) step s r ->
  snapshot_receipt_ok p step (ss_approval_id s) (ss_approval_action_hash s) r = Ok tt.
Proof.
  intros Hok [_ Hc Hp Hs Hi Hh Hr]. unfold snapshot_receipt_ok.
  rewrite rules_need_approval by eauto using share_member_nonempty. cbn [demand rbind].
  rewrite Hi, Hh, Hp, Hs, Hc, !String.eqb_refl, !bool_decide_eq_true_2 by done. cbn.
  by rewrite Hr.
Qed.

(** The check of [state_from_dict] that is on the step alone *)
Definition snapshot_allowed (step : PlanStep) (s : PlanStepState) : bool :=
  sr_requires_approval (ps_rules step) || negb (is_some (ss_approval_id s)).

Lemma executed_has_id plan_id step s :
  step_inv plan_id step s ->
  negb (sr_requires_approval (ps_rules step) && status_in [StepRunning; StepSucceeded] (ss_status s)
        && negb (is_some (ss_approval_id s))) = true.
Proof.
  intros [_ He _ Hg Hap _]. apply negb_true_iff, not_true_iff_false. rewrite !andb_true_iff.
  intros [[Hq Hs] Hn].
  assert (Hx : is_some (ss_approval_receipt s) = true).
  { apply Hap, He; [done|]. apply is_in_spec in Hs. unfold executed_statuses. set_solver. }
  destruct (ss_approval_receipt s) as [r|]; [|done].
  by rewrite (gr_id _ _ _ _ (Hg r eq_refl)) in Hn.
Qed.

Lemma snapshot_step_spec p step s :
  plan_step_ok step = Ok tt -> step_typed s -> step_inv (pl_plan_id p) step s ->
  snapshot_step p step (VDict (step_fields_of s))
  = if snapshot_allowed step s then Ok s else Err PlanValidationError.
Proof.
  intros Hok [Hi Hh Hp Hr] I. pose proof I as [Ha He _ Hg Hap _].
  unfold snapshot_step. cbn [mapping rbind].
  replace (has_keys _ _ (step_fields_of s)) with true by reflexivity. cbn [demand rbind].
  change (jget (step_fields_of s) "status") with (VStr (step_status_str (ss_status s))).
  change (jget (step_fields_of s) "attempts") with (VInt (ss_attempts s)).
  change (jget (step_fields_of s) "approvalId") with (option_value VStr (ss_approval_id s)).
  change (jget (step_fields_of s) "approvalActionHash")
    with (option_value VStr (ss_approval_action_hash s)).
  change (jget (step_fields_of s) "approvalReceipt")
    with (option_value (fun r => VDict (plan_receipt_to_dict r)) (ss_approval_receipt s)).
  change (jget (step_fields_of s) "result") with (ss_result s).
  change (jget (step_fields_of s) "error") with (option_value VStr (ss_error s)).
  change (jget (step_fields_of s) "validationStatus")
    with (option_value (fun v => VStr (validation_str v)) (ss_validation_status s)).
  rewrite snapshot_status_str. cbn [rbind integer]. rewrite (proj2 (Z.leb_le _ _) Ha).
  cbn [demand rbind].
  rewrite (optional_round_trip text VStr) by
    (done || (destruct (ss_approval_id s); [by apply text_VStr|done])).
  cbn [rbind].
  replace (negb (negb (sr_requires_approval (ps_rules step)) && is_some (ss_approval_id s)))
    with (snapshot_allowed step s)
    by (unfold snapshot_allowed; by destruct (sr_requires_approval (ps_rules step)), (ss_approval_id s)).
  destruct (snapshot_allowed step s); [|done]. cbn [demand rbind].
  rewrite (executed_has_id _ _ _ I). cbn [demand rbind].
  assert (Hreceipt : match ss_approval_receipt s with
     | Some r => snapshot_receipt_ok p step (ss_approval_id s) (ss_approval_action_hash s) r
     | None => Ok tt end = Ok tt).
  { destruct (ss_approval_receipt s) as [r|]; [|done]. eauto using granted_receipt_ok. }
  assert (Hread : match option_value (fun r => VDict (plan_receipt_to_dict r)) (ss_approval_receipt s) with
     | VNone => Ok None
     | VDict r => let! r := plan_receipt_from_dict r in Ok (Some r)
     | _ => Err PlanValidationError end = Ok (ss_approval_receipt s)).
  { destruct (ss_approval_receipt s) as [r|]; [|done]. cbn [option_value].
    by rewrite receipt_round_trip by exact (gr_stored _ _ _ _ (Hg r eq_refl)). }
  rewrite Hread, snapshot_validation_str. clear Hread. unfold require_json. rewrite Hr.
  destruct s as [status attempts id result error receipt validation [h|]]; cbn in *.
  - unfold sha256_text. rewrite Hh. cbn [demand rbind]. rewrite Hreceipt. by destruct error.
  - destruct id as [i|]; [by discriminate Hp|]. cbn [is_some rbind]. rewrite Hreceipt. by destruct error.
Qed.

(** ** The whole state *)
Definition snapshot_accepts (p : MultiIntentPlan) (st : PlanExecutionState) : bool :=
  forallb (fun step => match dget (ps_step_id step) (xs_steps st) with
                       | Some s => snapshot_allowed step s && coherent_step st step s
                       | None => false
                       end) (pl_steps p).

Definition state_fields (st : PlanExecutionState) : pydict :=
  [("schemaVersion", VInt 1); ("planId", VStr (xs_plan_id st)); ("version", VInt (xs_version st));
   ("phase", VStr (plan_phase_str (plan_phase st)));
   ("steps", VDict (map_values (fun s => VDict (step_fields_of s)) (xs_steps st)))].

(** Facts about one state, for a plan whose steps have been checked. *)
Section OneState.
Variable p : MultiIntentPlan.
Variable st : PlanExecutionState.
Hypothesis Hchecked : checked_plan p.
Hypothesis Hinv : plan_inv p st.
Hypothesis Htyped : forall i s, dget i (xs_steps st) = Some s -> step_typed s.

Lemma step_of_plan step : step ∈ pl_steps p ->
  exists s, dget (ps_step_id step) (xs_steps st) = Some s /\ step_typed s /\
            step_inv (pl_plan_id p) step s.
Proof.
  intros Hin. destruct (dget_elem (xs_steps st) (ps_step_id step)) as (s & Hs).
  - rewrite (vi_keys _ _ Hinv). apply step_ids_elem. by exists step.
  - exists s. split_and!; [done|by eapply Htyped|]. by apply (vi_steps _ _ Hinv).
Qed.

Lemma steps_nodup : NoDup (dkeys (xs_steps st)).
Proof. rewrite (vi_keys _ _ Hinv). by apply plan_ids_nodup, Hchecked. Qed.

Lemma state_stored : execution_state_to_dict st = Ok (state_fields st).
Proof.
  unfold execution_state_to_dict.
  replace (mapR _ (xs_steps st))
    with (Ok (map (fun kv => (fst kv, VDict (step_fields_of (snd kv)))) (xs_steps st))); [done|].
  symmetry. apply mapR_Ok. rewrite Forall2_fmap_r. apply Forall_Forall2_diag, Forall_forall.
  intros [k s] Hks. cbn [fst snd].
  assert (Hk : k ∈ step_ids p).
  { rewrite <- (vi_keys _ _ Hinv). apply list_elem_of_fmap. by exists (k, s). }
  apply (elem_dget _ _ _ steps_nodup) in Hks. apply step_ids_elem in Hk as (step & Hin & <-).
  destruct (step_of_plan step Hin) as (s' & Hs' & Ht & I). rewrite Hks in Hs'. injection Hs' as <-.
  by rewrite (step_state_stored _ _ _ Ht I).
Qed.

Definition raw_steps : pydict :=
  map_values (fun s => VDict (step_fields_of s)) (xs_steps st).

Lemma raw_step step s : dget (ps_step_id step) (xs_steps st) = Some s ->
  jget raw_steps (ps_step_id step) = VDict (step_fields_of s).
Proof.
  intros H. unfold jget, raw_steps. by rewrite (dget_map_values (fun s => VDict (step_fields_of s))), H.
Qed.

(** The entries for some steps of the plan *)
Definition entries (steps : list PlanStep) : dict PlanStepState :=
  map (fun step => (ps_step_id step, default fresh_step (dget (ps_step_id step) (xs_steps st)))) steps.

Lemma steps_are_entries : xs_steps st = entries (pl_steps p).
Proof.
  pose proof (vi_keys _ _ Hinv) as Hk. pose proof steps_nodup as Hnd.
  assert (He : forall d1 d2 : dict PlanStepState, dkeys d1 = dkeys d2 -> NoDup (dkeys d1) ->
    (forall k, dget k d1 = dget k d2) -> d1 = d2).
  { clear. induction d1 as [|[k v] d1 IH]; intros [|[k' v'] d2]; cbn; intros E Hnd Hd; try done.
    injection E as Ek E. subst k'. apply NoDup_cons in Hnd as [Hn Hnd].
    pose proof (Hd k) as H. rewrite String.eqb_refl in H. injection H as ->. f_equal.
    apply IH; [done|done|]. intros i. specialize (Hd i).
    destruct (String.eqb_spec i k) as [E'|]; [|done]. rewrite E'.
    rewrite (proj2 (dget_None k d1) Hn). symmetry. apply dget_None. unfold dkeys in *. by rewrite <- E. }
  apply He; [|done|].
  - rewrite Hk. unfold dkeys, entries, step_ids. by rewrite map_map.
  - intros k. destruct (dget k (xs_steps st)) as [s|] eqn:Es.
    + assert (Hin : k ∈ step_ids p).
      { rewrite <- Hk. apply list_elem_of_fmap. exists (k, s). split; [done|]. by apply dget_Some_elem. }
      pose proof Hin as (step & Hstep & <-)%step_ids_elem. symmetry. apply elem_dget.
      * unfold dict_wf, dkeys, entries. rewrite map_map. by apply plan_ids_nodup, Hchecked.
      * apply list_elem_of_fmap. exists step. by rewrite Es.
    + symmetry. apply dget_None. apply dget_None in Es. rewrite Hk in Es.
      unfold dkeys, entries. rewrite map_map. done.
Qed.

Definition allowed (step : PlanStep) : bool :=
  match dget (ps_step_id step) (xs_steps st) with
  | Some s => snapshot_allowed step s | None => false end.

Lemma snapshot_fold steps : forall acc,
  (forall step, step ∈ steps -> step ∈ pl_steps p) ->
  (forall step, step ∈ steps -> ps_step_id step ∉ dkeys acc) -> NoDup (map ps_step_id steps) ->
  foldM (fun acc step => let! s := snapshot_step p step (jget raw_steps (ps_step_id step)) in
                         Ok (dset (ps_step_id step) s acc)) acc steps
  = if forallb allowed steps then Ok (acc ++ entries steps)%list else Err PlanValidationError.
Proof.
  induction steps as [|step steps IH]; intros acc Hin Hnew Hnd; cbn [foldM forallb].
  - by rewrite app_nil_r.
  - apply NoDup_cons in Hnd as [Hn Hnd].
    assert (Hstep : step ∈ pl_steps p) by (apply Hin; left).
    destruct (step_of_plan step Hstep) as (s & Hs & Ht & I).
    assert (Hok : plan_step_ok step = Ok tt)
      by (destruct Hchecked as [_ Hf]; by eapply Forall_forall in Hf).
    rewrite (raw_step _ _ Hs), (snapshot_step_spec p step s Hok Ht I). unfold allowed at 1.
    rewrite Hs. destruct (snapshot_allowed step s); [|done]. cbn [rbind andb].
    rewrite dset_fresh by (apply Hnew; left). rewrite IH.
    + cbn [entries map]. rewrite Hs. cbn [default]. by rewrite <- app_assoc.
    + intros x Hx. apply Hin. by right.
    + intros x Hx. unfold dkeys. rewrite map_app. apply not_elem_of_app. split.
      * apply Hnew. by right.
      * cbn. intros E%list_elem_of_singleton. destruct Hn. rewrite <- E.
        by apply list_elem_of_fmap_2.
    + done.
Qed.

Lemma snapshot_steps_spec :
  snapshot_steps p raw_steps
  = if forallb allowed (pl_steps p) then Ok (xs_steps st) else Err PlanValidationError.
Proof.
  unfold snapshot_steps. rewrite snapshot_fold.
  - by rewrite <- steps_are_entries.
  - done.
  - intros step _ H. by apply elem_of_nil in H.
  - by apply plan_ids_nodup, Hchecked.
Qed.

Lemma coherence_spec :
  validate_state_coherence p st
  = if forallb (fun step => match dget (ps_step_id step) (xs_steps st) with
                            | Some s => coherent_step st step s | None => false end) (pl_steps p)
    then Ok tt else Err PlanValidationError.
Proof.
  unfold validate_state_coherence.
  assert (Hin : forall step, step ∈ pl_steps p -> step ∈ pl_steps p) by done.
  revert Hin. generalize (pl_steps p) at 1 3 4. intros steps.
  induction steps as [|step steps IH]; intros Hin; cbn [mapR forallb]; [done|].
  destruct (step_of_plan step (Hin _ (list_elem_of_here _ _))) as (s & Hs & _ & _).
  rewrite (proj2 (step_state_Ok _ _ s) Hs), Hs. cbn [rbind].
  destruct (coherent_step st step s); [|done]. cbn [demand rbind andb].
  rewrite <- IH by (intros x Hx; apply Hin; by right). by destruct (mapR _ steps).
Qed.

Lemma forallb_and {A : Type} (f g : A -> bool) l :
  forallb (fun x => f x && g x) l = forallb f l && forallb g l.
Proof.
  induction l as [|x l IH]; cbn; [done|]. rewrite IH.
  by destruct (f x), (g x), (forallb f l).
Qed.

Lemma accepts_split :
  snapshot_accepts p st
  = forallb allowed (pl_steps p)
    && forallb (fun step => match dget (ps_step_id step) (xs_steps st) with
                            | Some s => coherent_step st step s | None => false end) (pl_steps p).
Proof.
  rewrite <- forallb_and. unfold snapshot_accepts, allowed.
  induction (pl_steps p) as [|step steps IH]; cbn; [done|]. rewrite IH.
  by destruct (dget _ _).
Qed.

Lemma raw_steps_same : 0 <= xs_version st -> same_step_set p raw_steps = true.
Proof.
  intros Hv.
  assert (Hm : machine_state p st) by (split; [apply Hinv|apply Hinv|done]).
  apply machine_state_identity in Hm. unfold validate_state_identity in Hm.
  apply rbind_Ok in Hm as (? & _ & Hm%demand_Ok). rewrite <- Hm.
  unfold same_step_set, raw_steps. rewrite map_values_keys. f_equal.
  clear. generalize (step_ids p). intros ids. induction ids as [|i l IH]; cbn [forallb]; [done|].
  rewrite IH. f_equal. unfold dmem. rewrite dget_map_values. by destruct (dget i _).
Qed.

Lemma state_restored :
  0 <= xs_version st ->
  state_from_dict p (state_fields st)
  = if snapshot_accepts p st then Ok st else Err PlanValidationError.
Proof.
  intros Hv.
  unfold state_from_dict, state_fields. rewrite (vi_id _ _ Hinv).
  cbn -[same_step_set snapshot_steps plan_phase_str plan_phase validate_state_identity
        validate_state_coherence integer map_values]. rewrite String.eqb_refl. cbn [andb demand rbind].
  fold raw_steps.
  replace (same_step_set p raw_steps) with true.
  2: { symmetry. by apply raw_steps_same. }
  cbn [demand rbind]. rewrite snapshot_steps_spec, accepts_split.
  destruct (forallb allowed (pl_steps p)); [|done]. cbn [rbind andb].
  cbn [integer]. cbn [rbind]. rewrite (proj2 (Z.leb_le _ _) Hv). cbn [demand rbind].
  rewrite <- (vi_id _ _ Hinv).
  replace (mkExecutionState (xs_plan_id st) (xs_steps st) (xs_version st)) with st by by destruct st.
  unfold is_str. rewrite String.eqb_refl. cbn [demand rbind].
  rewrite machine_state_identity by (split; [apply Hinv|apply Hinv|done]). cbn [rbind].
  rewrite coherence_spec. by destruct (forallb _ _).
Qed.

End OneState.

Lemma replay_facts p events st :
  plan_ok p = Ok tt -> replay_plan p events = Ok st ->
  plan_inv p st /\ (forall i s, dget i (xs_steps st) = Some s -> step_typed s) /\
  0 <= xs_version st.
Proof.
  intros Hok H. pose proof (plan_ids_nodup _ Hok) as Hnd.
  pose proof (replay_reachable _ _ _ H) as Hr.
  split; [by apply reachable_inv|]. split; [by eapply reachable_typed|].
  destruct (replay_counts _ _ _ Hnd H) as [-> _]. lia.
Qed.

(** C27. A stored execution comes back exactly as it was: every state the machine
    reaches can be stored, and restoring it gives the same state when the restoring
    code accepts it and the same error otherwise.  It accepts exactly the states
    whose steps are coherent and hold an approval id only where their step needs an
    approval. *)
Theorem stored_state_restores_exactly p events st :
  checked_plan p -> replay_plan p events = Ok st ->
  exists d, execution_state_to_dict st = Ok d /\
    state_from_dict p d = if snapshot_accepts p st then Ok st else Err PlanValidationError.
Proof.
  intros Hch H. pose proof (replay_facts _ _ _ (proj1 Hch) H) as (I & Ht & Hv).
  exists (state_fields st). split; [by eapply state_stored | by apply state_restored].
Qed.

(** ** Instances on the sample plan *)
Definition state_after (events : list PlanEvent) : PlanExecutionState :=
  match replay_plan sample_plan events with Ok st => st | Err _ => sample_start end.

Lemma stored_state_restores_exactly_witness :
  exists d, execution_state_to_dict sample_running_plan = Ok d /\
            state_from_dict sample_plan d = Ok sample_running_plan.
Proof.
  destruct (stored_state_restores_exactly sample_plan plan_log sample_running_plan
              sample_plan_checked sample_log_replays) as (d & Hd & Hr).
  exists d. split; [exact Hd|]. rewrite Hr.
  replace (snapshot_accepts sample_plan sample_running_plan) with true
    by (vm_compute; reflexivity). reflexivity.
Defined.

(** The log of an execution whose first step succeeded, then [rest] *)
Definition log_with (rest : list PlanEvent) : list PlanEvent := (firstn 3 plan_log ++ rest)%list.

(** The transfer waits for its approval when the rest of the plan is cancelled. *)
Definition cancelled_while_waiting : list PlanEvent :=
  log_with
    [mkPlanEvent 4 "step_waiting_approval" "s2"
       [("approvalId", VStr "plan-approval-request-1"); ("actionHash", VStr transfer_digest)] 1;
     mkPlanEvent 5 "step_skipped" "s2" [("reason", VStr "Plan fail_fast")] 1].

(** The approval service denies the transfer at once, without an approval id. *)
Definition denied_at_once : list PlanEvent :=
  log_with
    [mkPlanEvent 4 "step_approval_denied" "s2"
       [("approvalId", VNone); ("reason", VStr "over the limit"); ("actionHash", VStr transfer_digest)] 1].

(** Two states that the machine does reach cannot be restored: a step skipped
    while it waited for an approval, and a step denied without an approval id.
    The executor restores the state it is given when it resumes, so a plan stored
    in either state can never be resumed. *)
Theorem reached_states_that_cannot_be_restored :
  Forall (fun events =>
    exists st d, replay_plan sample_plan events = Ok st /\ execution_state_to_dict st = Ok d /\
                 state_from_dict sample_plan d = Err PlanValidationError)
    [cancelled_while_waiting; denied_at_once].
Proof.
  assert (H : forall events st, replay_plan sample_plan events = Ok st ->
    snapshot_accepts sample_plan st = false ->
    exists st d, replay_plan sample_plan events = Ok st /\ execution_state_to_dict st = Ok d /\
                 state_from_dict sample_plan d = Err PlanValidationError).
  { intros events st Hr Ha.
    pose proof (replay_facts _ _ _ (proj1 sample_plan_checked) Hr) as (I & Ht & Hv).
    exists st, (state_fields st). split_and!; [done|by exact (state_stored sample_plan st sample_plan_checked I Ht)|].
    rewrite (state_restored sample_plan st sample_plan_checked I Ht Hv). by rewrite Ha. }
  repeat constructor.
  - apply (H _ (state_after cancelled_while_waiting)); vm_compute; reflexivity.
  - apply (H _ (state_after denied_at_once)); vm_compute; reflexivity.
Qed.
