(* ===== verification/PlanDataflow.v ===== *)
(** * Data flow between plan steps  (src/.../planning/dataflow.py)

    A step reads the results of its direct dependencies through its argument
    bindings and its preconditions; a result contract is checked on what it
    returns.  Comparisons are total on comparable values and consistent. *)

From S2P Require Import Prelude PyDict Text PyVal Json Sha256 DurableAction Canonical PlanTypes PlanPersistence PlanGraph PlanValidator PlanState PlanSafety.
From stdpp Require Import pretty.
From Stdlib Require Import String.

#[local] Open Scope string_scope.
#[local] Open Scope bool_scope.
#[local] Open Scope Z_scope.
#[local] Arguments blank : simpl never.

(** [if not b: raise PlanExecutionError] *)
Definition require (b : bool) : res unit := if b then Ok tt else Err PlanExecutionError.

Lemma require_Ok b u : require b = Ok u <-> b = true.
Proof. destruct u, b; split; done. Qed.

(** ** Values *)

(** [_canonical_json], [_strict_json], [result_digest] *)
Definition canonical_json (v : pyval) : res string :=
  if strict_json v then Ok (json_canonical v) else Err PlanExecutionError.

Definition require_strict (v : pyval) : res unit := require (strict_json v).

Definition result_digest (v : pyval) : res string :=
  let! t := canonical_json v in Ok (sha256_hex t).

(** [_number] *)
Definition plan_number (v : pyval) : res (option pynum) :=
  match v with
  | VInt z => match float_of_int z with
              | Some _ => Ok (Some (NInt z)) | None => Err OverflowError end
  | VFloat f => if fl_finite f then Ok (Some (NFloat f)) else Err PlanExecutionError
  | _ => Ok None
  end.

(** [_canonical_json(left) == _canonical_json(right)] *)
Definition same_json (l r : pyval) : res bool :=
  let! s := canonical_json l in
  let! t := canonical_json r in
  Ok (String.eqb s t).

(** An ordering operator on two numbers or on two strings, from "less" and
    "less or equal" *)
Definition ordered {A : Type} (lt le : A -> A -> bool) (op : PlanComparisonOperator) (l r : A)
  : res bool :=
  match op with
  | OpGt => Ok (lt r l)
  | OpGte => Ok (le r l)
  | OpLt => Ok (lt l r)
  | OpLte => Ok (le l r)
  | _ => Err PlanExecutionError
  end.

Definition str_lt (s t : string) : bool :=
  match String.compare s t with Lt => true | _ => false end.
Definition str_le (s t : string) : bool :=
  match String.compare s t with Gt => false | _ => true end.

(** [compare_json] *)
Definition compare_json (l : pyval) (op : PlanComparisonOperator) (r : pyval) : res bool :=
  match op with
  | OpTruthy => Ok (truthy l)
  | OpFalsy => Ok (negb (truthy l))
  | OpEq => same_json l r
  | OpNe => let! b := same_json l r in Ok (negb b)
  | OpIn | OpNotIn =>
      match r with
      | VList items =>
          let! contains := anyR (same_json l) items in
          Ok (match op with OpIn => contains | _ => negb contains end)
      | _ => Err PlanExecutionError
      end
  | _ =>
      let! ln := plan_number l in
      let! rn := plan_number r in
      match ln, rn, l, r with
      | Some x, Some y, _, _ => ordered num_lt num_le op x y
      | _, _, VStr s, VStr t => ordered str_lt str_le op s t
      | _, _, _, _ => Err PlanExecutionError
      end
  end.

(** One step of [resolve_json_path] *)
Definition path_step (v : pyval) (part : path_part) : res pyval :=
  match part, v with
  | PKey k, VDict d => match dget k d with Some x => Ok x | None => Err PlanExecutionError end
  | PIndex n, VList l =>
      if (0 <=? n) && (n <? Z.of_nat (List.length l)) then
        match l !! Z.to_nat n with Some x => Ok x | None => Err PlanExecutionError end
      else Err PlanExecutionError
  | _, _ => Err PlanExecutionError
  end.

(** [resolve_json_path] *)
Definition resolve_json_path (v : pyval) (path : list path_part) : res pyval :=
  foldM path_step v path.

(** ** What a step reads *)

(** One dependency of [dependency_results] *)
Definition add_result (st : PlanExecutionState) (acc : pydict) (i : string) : res pydict :=
  match dget i (xs_steps st) with
  | Some s => if bool_decide (ss_status s = StepSucceeded) then Ok (dset i (ss_result s) acc)
              else Err PlanExecutionError
  | None => Err PlanExecutionError
  end.

(** [dependency_results] *)
Definition dependency_results (step : PlanStep) (st : PlanExecutionState) : res pydict :=
  foldM (add_result st) [] (ps_depends_on step).

(** [resolve_reference] *)
Definition resolve_reference (r : PlanResultReference) (results : pydict) : res pyval :=
  match dget (rr_step_id r) results with
  | Some v => resolve_json_path v (rr_path r)
  | None => Err PlanExecutionError
  end.

(** [_resolve_declared] *)
Definition resolve_declared (r : PlanResultReference) (step : PlanStep) (results : pydict)
  : res pyval :=
  check! require (mem_str (rr_step_id r) (ps_depends_on step)) in
  resolve_reference r results.

(** One binding of [resolve_step_arguments] *)
Definition bind_argument (step : PlanStep) (results : pydict) (resolved : pydict)
    (b : PlanArgumentBinding) : res pydict :=
  let! v := resolve_declared (bn_source b) step results in
  Ok (dset (bn_target b) v resolved).

(** The checks on the resolved arguments *)
Definition check_arguments (step : PlanStep) (resolved : pydict) : res unit :=
  check! match sr_parameter_contract (ps_rules step) with
         | None => demand (negb (unsafe (ps_rules step) && is_nil resolved))
         | Some contract => validate_arguments contract resolved (unsafe (ps_rules step))
         end in
  require_strict (VDict resolved).

(** [resolve_step_arguments] *)
Definition resolve_step_arguments (step : PlanStep) (results : pydict) : res pydict :=
  let! resolved := foldM (bind_argument step results) (ps_arguments step)
                         (ps_argument_bindings step) in
  check! check_arguments step resolved in
  Ok resolved.

(** ** Conditions and contracts *)
Record PlanConditionEvaluation := mkEvaluation {
  ev_passed : bool;
  ev_description : string
}.

Definition evaluate_condition (step : PlanStep) (results : pydict) (index : N) (c : PlanCondition)
  : res PlanConditionEvaluation :=
  let! source := resolve_declared (cd_left c) step results in
  let! other := match cd_expected_from c with
                | Some r => resolve_declared r step results
                | None => Ok (cd_expected c)
                end in
  let! passed := compare_json source (cd_operator c) other in
  Ok (mkEvaluation passed ("condition#" ++ pretty index ++ ":" ++ operator_str (cd_operator c))).

(** [enumerate(l, start=n)] with a body that may raise *)
Fixpoint evaluate_from (step : PlanStep) (results : pydict) (n : N) (l : list PlanCondition)
  : res (list PlanConditionEvaluation) :=
  match l with
  | [] => Ok []
  | c :: l' =>
      let! e := evaluate_condition step results n c in
      let! rest := evaluate_from step results (n + 1) l' in
      Ok (e :: rest)
  end.

(** [evaluate_preconditions] *)
Definition evaluate_preconditions (step : PlanStep) (results : pydict)
  : res (list PlanConditionEvaluation) :=
  evaluate_from step results 1 (ps_preconditions step).

(** One rule of [validate_step_result] *)
Definition check_rule (result : pyval) (r : PlanResultRule) : res unit :=
  let! actual := resolve_json_path result (rl_path r) in
  let! passed := compare_json actual (rl_operator r) (rl_expected r) in
  require passed.

(** [validate_step_result] *)
Definition validate_step_result (result : pyval) (contract : option PlanResultContract) : res unit :=
  check! require_strict result in
  match contract with
  | None => Ok tt
  | Some rules => let! _ := mapR (check_rule result) rules in Ok tt
  end.

(** ** Comparisons *)

(** The operator that gives the opposite answer *)
Definition negation (op : PlanComparisonOperator) : PlanComparisonOperator :=
  match op with
  | OpEq => OpNe | OpNe => OpEq | OpGt => OpLte | OpLte => OpGt | OpGte => OpLt | OpLt => OpGte
  | OpIn => OpNotIn | OpNotIn => OpIn | OpTruthy => OpFalsy | OpFalsy => OpTruthy
  end.

Lemma plan_number_finite v n : plan_number v = Ok (Some n) -> num_finite n = true.
Proof.
  destruct v; simpl; try done.
  - destruct (float_of_int z); by intros [= <-].
  - destruct (fl_finite f) eqn:E; by intros [= <-].
Qed.

Lemma plan_number_str v n s : plan_number v = Ok (Some n) -> v <> VStr s.
Proof. by intros H ->. Qed.

Lemma str_lt_le s t : str_lt s t = negb (str_le t s).
Proof. unfold str_lt, str_le. rewrite (String.compare_antisym s t). by destruct (String.compare t s). Qed.

(** The four operators that order two values *)
Definition ordering : list PlanComparisonOperator := [OpGt; OpGte; OpLt; OpLte].

Lemma ordered_negation {A : Type} (lt le : A -> A -> bool) op x y :
  lt x y = negb (le y x) -> lt y x = negb (le x y) -> op ∈ ordering ->
  ordered lt le (negation op) x y = let! b := ordered lt le op x y in Ok (negb b).
Proof.
  intros Hxy Hyx Hop. destruct op; try (by apply (bool_decide_eq_true_2 _) in Hop);
    simpl; by rewrite ?Hxy, ?Hyx, ?negb_involutive.
Qed.

(** [compare_json] of an ordering operator *)
Definition compare_ordered (op : PlanComparisonOperator) (l r : pyval) (ln rn : option pynum)
  : res bool :=
  match ln, rn, l, r with
  | Some x, Some y, _, _ => ordered num_lt num_le op x y
  | _, _, VStr s, VStr t => ordered str_lt str_le op s t
  | _, _, _, _ => Err PlanExecutionError
  end.

Lemma compare_ordering l op r :
  op ∈ ordering ->
  compare_json l op r
  = let! ln := plan_number l in let! rn := plan_number r in compare_ordered op l r ln rn.
Proof. intros Hop. by destruct op; try (by apply (bool_decide_eq_true_2 _) in Hop). Qed.

Lemma compare_ordered_negation l r op ln rn :
  plan_number l = Ok ln -> plan_number r = Ok rn -> op ∈ ordering ->
  compare_ordered (negation op) l r ln rn
  = let! b := compare_ordered op l r ln rn in Ok (negb b).
Proof.
  intros Hl Hr Hop. unfold compare_ordered.
  assert (Hs : forall s t, ordered str_lt str_le (negation op) s t
                           = let! b := ordered str_lt str_le op s t in Ok (negb b))
    by (intros s t; apply ordered_negation; auto using str_lt_le).
  destruct ln as [x|], rn as [y|]; try (by destruct l, r).
  apply plan_number_finite in Hl, Hr. apply ordered_negation; auto using num_lt_le_negb.
Qed.

(** The negated operator gives the opposite answer, and raises when the operator does. *)
Lemma compare_negation l op r :
  compare_json l (negation op) r = let! b := compare_json l op r in Ok (negb b).
Proof.
  destruct (decide (op ∈ ordering)) as [Hop|Hop].
  - assert (Hop' : negation op ∈ ordering)
      by (destruct op; try (by apply (bool_decide_eq_true_2 _) in Hop);
          by apply (bool_decide_unpack _)).
    rewrite !compare_ordering by done.
    destruct (plan_number l) as [ln|] eqn:El; [|done].
    destruct (plan_number r) as [rn|] eqn:Er; [|done]. by apply compare_ordered_negation.
  - destruct op; try (by destruct Hop; apply (bool_decide_unpack _)); simpl.
    + done.
    + destruct (same_json l r); simpl; [by rewrite negb_involutive|done].
    + destruct r; try done. by destruct (anyR _ _).
    + destruct r; try done. destruct (anyR _ _); simpl; [by rewrite negb_involutive|done].
    + done.
    + by rewrite negb_involutive.
Qed.

Lemma same_json_strict l r b : same_json l r = Ok b -> strict_json l = true /\ strict_json r = true.
Proof.
  unfold same_json, canonical_json. destruct (strict_json l), (strict_json r); done.
Qed.

(** Conditions never contradict each other: the operator and its negation (eq
    and ne, gt and lte, lt and gte, in and not_in, truthy and falsy) give opposite
    answers or raise the same error; and eq means equality of the JSON values
    themselves - not of Python, where 1 == True - on values without floats. *)
Theorem comparisons_are_consistent l op r :
  compare_json l (negation op) r = (let! b := compare_json l op r in Ok (negb b)) /\
  (json_wf l -> json_wf r -> float_free l = true -> float_free r = true ->
   compare_json l OpEq r = Ok (strict_json_equal l r)).
Proof.
  split; [apply compare_negation|]. intros Hl Hr Fl Fr. simpl. unfold same_json, canonical_json.
  rewrite (json_wf_strict _ Hl), (json_wf_strict _ Hr). cbn [rbind]. f_equal.
  pose proof (canonical_text_identifies l r Hl Hr Fl Fr) as [H1 H2].
  destruct (strict_json_equal l r); [by rewrite H2 by done; apply String.eqb_refl|].
  apply String.eqb_neq. intros E. by apply H1 in E.
Qed.

(** ** Results of dependencies *)
Lemma add_results_Ok st l : forall acc r,
  foldM (add_result st) acc l = Ok r ->
  (forall i, i ∈ l -> exists s, dget i (xs_steps st) = Some s /\ ss_status s = StepSucceeded /\
                                dget i r = Some (ss_result s)) /\
  (forall i, i ∉ l -> dget i r = dget i acc).
Proof.
  induction l as [|i l IH]; cbn [foldM]; intros acc r H.
  - injection H as <-. split; [|done]. intros i Hi. by apply elem_of_nil in Hi.
  - apply rbind_Ok in H as (acc1 & H1 & H). destruct (IH _ _ H) as [Ha Hb].
    unfold add_result in H1. destruct (dget i (xs_steps st)) as [s|] eqn:Es; [|done].
    destruct (bool_decide _) eqn:Eb; [|done]. apply bool_decide_eq_true in Eb.
    injection H1 as <-. split.
    + intros j [->|Hj]%elem_of_cons; [|by apply Ha].
      destruct (decide (i ∈ l)) as [Hi|Hi]; [by apply Ha|].
      exists s. rewrite (Hb i Hi), dget_dset_eq. done.
    + intros j [Hne Hj]%not_elem_of_cons. rewrite (Hb j Hj). by rewrite dget_dset_ne.
Qed.

Lemma add_results_total st l : forall acc,
  forallb (has_status st [StepSucceeded]) l = true -> exists r, foldM (add_result st) acc l = Ok r.
Proof.
  induction l as [|i l IH]; cbn [foldM forallb]; intros acc H; [by eexists|].
  apply andb_true_iff in H as [(s & Hs & ->%list_elem_of_singleton)%has_status_spec H].
  unfold add_result at 1. unfold status_of in Hs.
  destruct (dget i (xs_steps st)) as [x|]; [|done]. injection Hs as ->. cbn.
  by apply IH.
Qed.

Lemma dependency_results_agree step st st' r :
  (forall i, i ∈ ps_depends_on step -> dget i (xs_steps st') = dget i (xs_steps st)) ->
  dependency_results step st = Ok r -> dependency_results step st' = Ok r.
Proof.
  unfold dependency_results. generalize (@nil (string * pyval)) as acc.
  induction (ps_depends_on step) as [|i l IH]; cbn [foldM]; intros acc Hag H; [done|].
  apply rbind_Ok in H as (acc1 & H1 & H). unfold add_result at 1. rewrite Hag by left.
  unfold add_result in H1. rewrite H1. cbn [rbind]. apply IH; [|done].
  intros j Hj. apply Hag. by right.
Qed.

Lemma bind_arguments_Ok step results l : forall acc r,
  foldM (bind_argument step results) acc l = Ok r -> NoDup (map bn_target l) ->
  (forall b, b ∈ l -> exists v, resolve_declared (bn_source b) step results = Ok v /\
                                dget (bn_target b) r = Some v) /\
  (forall k, k ∉ map bn_target l -> dget k r = dget k acc).
Proof.
  induction l as [|b l IH]; cbn [foldM map]; intros acc r H Hnd.
  - injection H as <-. split; [|done]. intros b Hb. by apply elem_of_nil in Hb.
  - apply NoDup_cons in Hnd as [Hn Hnd]. apply rbind_Ok in H as (acc1 & H1 & H).
    destruct (IH _ _ H Hnd) as [Ha Hb]. unfold bind_argument in H1.
    apply rbind_Ok in H1 as (v & Hv & [= <-]). split.
    + intros c [->|Hc]%elem_of_cons; [|by apply Ha].
      exists v. rewrite (Hb _ Hn), dget_dset_eq. done.
    + intros k [Hne Hk]%not_elem_of_cons. rewrite (Hb k Hk). by rewrite dget_dset_ne.
Qed.

Lemma step_targets step :
  plan_step_ok step = Ok tt ->
  NoDup (map bn_target (ps_argument_bindings step)) /\
  (forall k, k ∈ map bn_target (ps_argument_bindings step) -> dget k (ps_arguments step) = None).
Proof.
  unfold plan_step_ok. intros H. do 5 (apply rbind_Ok in H as (? & _ & H)).
  apply rbind_Ok in H as (? & Hd%demand_Ok%distinct_spec & H).
  apply rbind_Ok in H as (? & Hk%demand_Ok & _). split; [done|]. intros k Hin.
  pose proof (proj1 (forallb_elem _ _) Hk k Hin) as E. apply negb_true_iff in E.
  unfold dmem in E. by destruct (dget k (ps_arguments step)).
Qed.

(** What a step is executed with comes only from the plan and from recorded
    results: every constant argument is the plan's, every bound argument is the
    value at its path in the recorded result of a direct dependency that succeeded,
    there is no other argument, and the whole satisfies the step's parameter
    contract. *)
Theorem resolved_arguments_are_recorded step st results args :
  plan_step_ok step = Ok tt ->
  dependency_results step st = Ok results -> resolve_step_arguments step results = Ok args ->
  (forall b, b ∈ ps_argument_bindings step ->
     exists s v, rr_step_id (bn_source b) ∈ ps_depends_on step /\
       dget (rr_step_id (bn_source b)) (xs_steps st) = Some s /\ ss_status s = StepSucceeded /\
       resolve_json_path (ss_result s) (rr_path (bn_source b)) = Ok v /\
       dget (bn_target b) args = Some v) /\
  (forall k, k ∉ map bn_target (ps_argument_bindings step) ->
     dget k args = dget k (ps_arguments step)) /\
  check_arguments step args = Ok tt.
Proof.
  intros Hok Hres H. destruct (step_targets step Hok) as [Hnd _].
  unfold resolve_step_arguments in H. apply rbind_Ok in H as (args' & Hb & H).
  apply rbind_Ok in H as ([] & Hc & [= ->]).
  destruct (bind_arguments_Ok _ _ _ _ _ Hb Hnd) as [Ht Hk]. split_and!; [|done|done].
  intros b Hin. destruct (Ht b Hin) as (v & Hv & Hg). unfold resolve_declared in Hv.
  apply rbind_Ok in Hv as (? & Hd%require_Ok%mem_str_spec & Hv).
  destruct (proj1 (add_results_Ok _ _ _ _ Hres) _ Hd) as (s & Hs & Hsucc & Hr).
  exists s, v. split_and!; try done. unfold resolve_reference in Hv. by rewrite Hr in Hv.
Qed.

(** What a step reads cannot change once it may run: when its dependencies have
    succeeded their results are available, and no later event of the execution
    changes them - so the arguments that are approved, hashed and dispatched at
    different times are the same. *)
Theorem step_inputs_are_stable p events more st st' step :
  replay_plan p events = Ok st -> replay_plan p (events ++ more) = Ok st' ->
  dependencies_succeeded st step = true ->
  exists results, dependency_results step st = Ok results /\
                  dependency_results step st' = Ok results.
Proof.
  intros H H' Hd. destruct (add_results_total st (ps_depends_on step) [] Hd) as (r & Hr).
  exists r. split; [done|]. apply (dependency_results_agree step st st' r); [|done].
  intros i Hi. destruct (proj1 (add_results_Ok _ _ _ _ Hr) i Hi) as (s & Hs & Hsucc & _).
  rewrite Hs. unfold replay_plan in H, H'. rewrite foldM_app, H in H'. cbn [rbind] in H'.
  apply (finished_step_kept p st more); [done..|]. by rewrite Hsucc.
Qed.

(** ** Result contracts *)

(** A value satisfies a rule. *)
Definition rule_holds (result : pyval) (r : PlanResultRule) : Prop :=
  exists v, resolve_json_path result (rl_path r) = Ok v /\
            compare_json v (rl_operator r) (rl_expected r) = Ok true.

(** The check of a result is exact: it passes when the result is strict JSON
    and every rule of the contract holds of the value at its path, and only then. *)
Theorem validate_step_result_iff result contract :
  validate_step_result result contract = Ok tt <->
  strict_json result = true /\
  match contract with Some rules => Forall (rule_holds result) rules | None => True end.
Proof.
  assert (Hrule : forall r, check_rule result r = Ok tt <-> rule_holds result r).
  { intros r. unfold check_rule, rule_holds. rewrite rbind_Ok. split.
    - intros (v & Hv & H). apply rbind_Ok in H as (b & Hb & ->%require_Ok). by exists v.
    - intros (v & Hv & Hb). exists v. split; [done|]. by rewrite Hb. }
  unfold validate_step_result, require_strict. rewrite rbind_Ok. split.
  - intros (u & Hs%require_Ok & H). split; [done|]. destruct contract as [rules|]; [|done].
    apply rbind_Ok in H as (us & Hm%mapR_Ok & _). apply Forall_forall. intros r Hr.
    apply Hrule. destruct (list_elem_of_lookup_1 _ _ Hr) as (i & Hi).
    by destruct (Forall2_lookup_l _ _ _ _ _ Hm Hi) as ([] & _ & ?).
  - intros [Hs H]. exists tt. split; [by apply require_Ok|]. destruct contract as [rules|]; [|done].
    apply rbind_Ok. exists (map (fun _ => tt) rules). split; [|done]. apply mapR_Ok.
    rewrite Forall2_fmap_r. apply Forall_Forall2_diag. eapply Forall_impl; [exact H|].
    intros r. apply Hrule.
Qed.

(** ** Instances on the sample plan *)
Definition lookup_results : pydict := [("s1", VDict [("amount", VInt 100)])].

Lemma comparisons_are_consistent_witness :
  compare_json (VBool true) OpEq (VInt 1) = Ok false.
Proof.
  refine (proj2 (comparisons_are_consistent (VBool true) OpEq (VInt 1)) _ _ _ _);
    try reflexivity; by constructor.
Defined.

Lemma resolved_arguments_are_recorded_witness :
  exists args, resolve_step_arguments transfer_step lookup_results = Ok args /\
               dget "to" args = Some (VStr "B-4").
Proof.
  eexists. split; [vm_compute; reflexivity|].
  refine (eq_trans (proj1 (proj2 (resolved_arguments_are_recorded transfer_step
            sample_running_plan lookup_results _ _ _ _)) "to" _) _);
    try (vm_compute; reflexivity).
  by apply (bool_decide_unpack _).
Defined.

Lemma step_inputs_are_stable_witness :
  exists results, dependency_results transfer_step sample_running_plan = Ok results.
Proof.
  destruct (step_inputs_are_stable sample_plan (firstn 3 plan_log) (skipn 3 plan_log)
    (match replay_plan sample_plan (firstn 3 plan_log) with Ok st => st | Err _ => sample_start end)
    sample_running_plan transfer_step) as (results & _ & H); [vm_compute; reflexivity..|].
  by exists results.
Defined.

Example lookup_result_passes :
  validate_step_result (VDict [("amount", VInt 100)]) (sr_result_contract lookup_rules) = Ok tt.
Proof. vm_compute. reflexivity. Qed.

Example transfer_precondition :
  evaluate_preconditions transfer_step lookup_results
  = Ok [mkEvaluation true "condition#1:lte"].
Proof. vm_compute. reflexivity. Qed.
