(* ===== verification/PlanApproval.v ===== *)
(** * The approval barrier of a plan  (src/.../planning/approval.py)

    [ApprovalBarrier] asks a product's approval service for a decision on a step
    and has a granted receipt consumed; [DurablePlanApprovalAdapter] reads the
    decisions of a durable backend.  Services are parameters: they answer with
    anything, and the theorems hold whatever they answer. *)

From S2P Require Import Prelude PyDict Text PyVal Json DurableAction PlanTypes PlanPersistence PlanGraph PlanState PlanSafety PlanSnapshot.
From Stdlib Require Import String.

#[local] Open Scope string_scope.
#[local] Open Scope bool_scope.
#[local] Open Scope Z_scope.
#[local] Arguments blank : simpl never.

Definition barrier_require (b : bool) : res unit := if b then Ok tt else Err PlanExecutionError.

Lemma barrier_require_Ok b u : barrier_require b = Ok u <-> b = true.
Proof. destruct u, b; split; done. Qed.

(** A reply of a service: the object that is asked for, a mapping, or anything
    else; an exception it raises passes through. *)
Inductive reply (A : Type) : Type :=
| Replied (x : A)
| RepliedMapping (d : pydict)
| RepliedOther.
Arguments Replied {A} x.
Arguments RepliedMapping {A} d.
Arguments RepliedOther {A}.

(** [except (TypeError, ValueError) as error: raise PlanExecutionError(...)];
    [PlanValidationError] is a [ValueError]. *)
Definition wrap_value_errors {A : Type} (m : res A) : res A :=
  match m with
  | Err (TypeError | ValueError | PlanValidationError) => Err PlanExecutionError
  | _ => m
  end.

(** [_clock_value] *)
Definition clock_value (v : pyval) : res pyfloat :=
  match v with
  | VInt z => match float_of_int z with Some f => Ok f | None => Err OverflowError end
  | VFloat f => if fl_finite f then Ok f else Err PlanExecutionError
  | _ => Err PlanExecutionError
  end.

(** ** The barrier *)
Section Barrier.

(** What the barrier is built with, what its two clock readings return, and
    whether the caller has cancelled when each check is made. *)
Variable resolver : PlanStep -> PlanExecutionState -> res (reply PlanApprovalDecision).
Variable receipt_consumer :
  option (PlanApprovalReceipt -> PlanStep -> PlanExecutionState -> res (reply PlanApprovalReceipt)).
Variable clock : nat -> pyval.
Variable cancelled : nat -> bool.

Definition throw_if_cancelled (n : nat) : res unit :=
  if cancelled n then Err OperationCancelledError else Ok tt.

(** [a == b] of the tuples [authorization_binding] *)
Definition same_binding (a b : PlanApprovalReceipt) : bool :=
  String.eqb (pr_approval_id a) (pr_approval_id b)
  && String.eqb (pr_receipt_id a) (pr_receipt_id b)
  && String.eqb (pr_plan_id a) (pr_plan_id b)
  && String.eqb (pr_step_id a) (pr_step_id b)
  && String.eqb (pr_action_hash a) (pr_action_hash b)
  && (pr_state_version a =? pr_state_version b)
  && String.eqb (pr_approver_id a) (pr_approver_id b)
  && bool_decide (pr_approver_roles a = pr_approver_roles b)
  && String.eqb (pr_approver_issuer a) (pr_approver_issuer b)
  && String.eqb (pr_identity_verification_id a) (pr_identity_verification_id b)
  && String.eqb (pr_verification_id a) (pr_verification_id b)
  && num_eq (pr_issued_at a) (pr_issued_at b)
  && num_eq (pr_expires_at a) (pr_expires_at b).

(** [_validate_issued_receipt] *)
Definition validate_issued_receipt (r : PlanApprovalReceipt) (step : PlanStep)
    (st : PlanExecutionState) (now : pyfloat) : res unit :=
  check! barrier_require (negb (is_some (pr_consumed_at r))) in
  check! barrier_require (String.eqb (pr_plan_id r) (xs_plan_id st)
                          && String.eqb (pr_step_id r) (ps_step_id step)
                          && (pr_state_version r =? xs_version st)) in
  let! h := step_action_hash step in
  check! barrier_require (String.eqb (pr_action_hash r) h) in
  check! barrier_require (negb (is_nil (sr_approval_roles (ps_rules step)))) in
  check! barrier_require (share_member (sr_approval_roles (ps_rules step)) (pr_approver_roles r)) in
  check! barrier_require (negb (num_lt (NFloat now) (pr_issued_at r))) in
  barrier_require (negb (num_lt (pr_expires_at r) (NFloat now))).

(** [_validate_consumed_receipt] *)
Definition validate_consumed_receipt (issued consumed : PlanApprovalReceipt) (step : PlanStep)
    (st : PlanExecutionState) (now : pyfloat) : res unit :=
  check! barrier_require (same_binding consumed issued) in
  match pr_consumed_at consumed with
  | None => Err PlanExecutionError
  | Some c =>
      check! barrier_require (negb (num_lt (NFloat now) c)) in
      check! barrier_require (negb (num_lt (pr_expires_at consumed) (NFloat now))) in
      validate_issued_receipt issued step st now
  end.

(** The part of [_consume_receipt] under the lock: the consumed receipt, before
    its id is recorded *)
Definition consume_locked (consumed_ids : list string) (r : PlanApprovalReceipt) (step : PlanStep)
    (st : PlanExecutionState) : res PlanApprovalReceipt :=
  check! barrier_require (negb (mem_str (pr_receipt_id r) consumed_ids)) in
  check! throw_if_cancelled 1 in
  match receipt_consumer with
  | None => Err PlanExecutionError
  | Some consumer =>
      let! value := consumer r step st in
      match value with
      | Replied consumed =>
          let! now := clock_value (clock 1) in
          check! validate_consumed_receipt r consumed step st now in
          Ok consumed
      | _ => Err PlanExecutionError
      end
  end.

(** [_consume_receipt]: the ids the barrier has consumed, and the decision *)
Definition consume_receipt (consumed_ids : list string) (d : PlanApprovalDecision) (step : PlanStep)
    (st : PlanExecutionState) : list string * res PlanApprovalDecision :=
  match pd_receipt d, receipt_consumer with
  | None, _ | _, None => (consumed_ids, Err PlanExecutionError)
  | Some r, Some _ =>
      match (let! now := clock_value (clock 0) in
             check! validate_issued_receipt r step st now in
             consume_locked consumed_ids r step st) with
      | Err e => (consumed_ids, Err e)
      | Ok consumed =>
          (pr_receipt_id consumed :: consumed_ids,
           let! h := step_action_hash step in decision_grant h consumed)
      end
  end.

(** The checks of [authorize] on the resolver's decision *)
Definition check_decision (d : PlanApprovalDecision) (step : PlanStep) (st : PlanExecutionState)
  : res unit :=
  let! h := step_action_hash step in
  check! barrier_require (String.eqb (pd_action_hash d) h) in
  match dget (ps_step_id step) (xs_steps st) with
  | None => Err PlanExecutionError
  | Some current =>
      barrier_require match ss_approval_id current, pd_approval_id d with
                      | Some i, Some j => String.eqb i j || placeholder_id i
                      | _, _ => true
                      end
  end.

(** [authorize]: the ids the barrier has consumed, and the decision *)
Definition authorize (consumed_ids : list string) (step : PlanStep) (st : PlanExecutionState)
  : list string * res PlanApprovalDecision :=
  match (check! throw_if_cancelled 0 in
         let! value := resolver step st in
         match value with
         | Replied d => check! check_decision d step st in Ok d
         | _ => Err PlanExecutionError
         end) with
  | Err e => (consumed_ids, Err e)
  | Ok d =>
      let '(ids, decision) :=
        if bool_decide (pd_approved d = Some true) then consume_receipt consumed_ids d step st
        else (consumed_ids, Ok d) in
      (ids, let! d := decision in check! throw_if_cancelled 2 in Ok d)
  end.
End Barrier.

(** ** A durable backend behind the barrier *)
Section Adapter.

(** The backend's two operations; the second may be missing. *)
Variable authorize_plan_step :
  string -> string -> string -> Z -> res (reply PlanApprovalDecision).
Variable consume_plan_approval_receipt :
  option (pydict -> string -> string -> string -> list string -> Z ->
          res (reply PlanApprovalReceipt)).
Variable cancelled : nat -> bool.

Definition decision_fields : list string :=
  ["status"; "approved"; "actionHash"; "approvalId"; "reason"; "receipt"].

(** [approved] of a reply: from its [status], or given directly *)
Definition decided_approval (d : pydict) : res (option bool) :=
  if dmem "status" d then
    check! barrier_require (negb (dmem "approved" d)) in
    match jget d "status" with
    | VStr s => if String.eqb s "pending" then Ok None else
                if String.eqb s "approved" then Ok (Some true) else
                if String.eqb s "denied" then Ok (Some false) else Err PlanExecutionError
    | VList _ | VDict _ => Err TypeError
    | _ => Err PlanExecutionError
    end
  else match jget d "approved" with VBool b => Ok (Some b) | _ => Err PlanExecutionError end.

Definition text_or_none (v : pyval) : option string :=
  match v with VStr s => Some s | _ => None end.

(** The decision a mapping stands for *)
Definition decision_of_mapping (d : pydict) : res PlanApprovalDecision :=
  check! barrier_require (forallb (fun k => mem_str k decision_fields) (dkeys d)) in
  let! approved := decided_approval d in
  let! action_hash := match jget d "actionHash" with
                      | VStr s => if nonempty s then Ok s else Err PlanExecutionError
                      | _ => Err PlanExecutionError
                      end in
  let! receipt := match jget d "receipt" with
                  | VDict r => let! r := wrap_value_errors (plan_receipt_from_dict r) in Ok (Some r)
                  | VNone => Ok None
                  | _ => Err PlanExecutionError
                  end in
  made decision_ok (mkDecision approved action_hash (text_or_none (jget d "approvalId"))
                      (text_or_none (jget d "reason")) receipt).

(** [DurablePlanApprovalAdapter._resolve]; 3 and 4 number its own checks for a
    cancellation. *)
Definition adapter_resolve (step : PlanStep) (st : PlanExecutionState)
  : res (reply PlanApprovalDecision) :=
  check! throw_if_cancelled cancelled 3 in
  let! h := step_action_hash step in
  let! value := authorize_plan_step (xs_plan_id st) (ps_step_id step) h (xs_version st) in
  let! d := match value with
            | RepliedMapping m => decision_of_mapping m
            | Replied d => Ok d
            | RepliedOther => Err PlanExecutionError
            end in
  check! barrier_require (String.eqb (pd_action_hash d) h) in
  check! throw_if_cancelled cancelled 4 in
  Ok (Replied d).

(** [DurablePlanApprovalAdapter._consume] *)
Definition adapter_consume (r : PlanApprovalReceipt) (step : PlanStep) (st : PlanExecutionState)
  : res (reply PlanApprovalReceipt) :=
  match consume_plan_approval_receipt with
  | None => Err PlanExecutionError
  | Some consumer =>
      let! h := step_action_hash step in
      let! value := consumer (plan_receipt_to_dict r) (xs_plan_id st) (ps_step_id step) h
                      (sr_approval_roles (ps_rules step)) (xs_version st) in
      match value with
      | RepliedMapping m =>
          let! r := wrap_value_errors (plan_receipt_from_dict m) in Ok (Replied r)
      | Replied r => Ok (Replied r)
      | RepliedOther => Err PlanExecutionError
      end
  end.

(** [DurablePlanApprovalAdapter.authorize], inherited *)
Definition durable_authorize (clock : nat -> pyval) (consumed_ids : list string) (step : PlanStep)
    (st : PlanExecutionState) : list string * res PlanApprovalDecision :=
  authorize adapter_resolve (Some adapter_consume) clock cancelled consumed_ids step st.
End Adapter.

(** ** What an approved decision is *)

(** A receipt as [PlanApprovalReceipt(...)] builds it *)
Definition receipt_built (r : PlanApprovalReceipt) : Prop :=
  plan_receipt_ok r = Ok tt /\ frozenset (pr_approver_roles r) = pr_approver_roles r.

Lemma built_receipt_strict r :
  receipt_built r -> strict_json (VDict (plan_receipt_to_dict r)) = true.
Proof. intros [H _]. by apply receipt_ok_strict. Qed.

Section Approved.
Variable resolver : PlanStep -> PlanExecutionState -> res (reply PlanApprovalDecision).
Variable receipt_consumer :
  option (PlanApprovalReceipt -> PlanStep -> PlanExecutionState -> res (reply PlanApprovalReceipt)).
Variable clock : nat -> pyval.
Variable cancelled : nat -> bool.

(** The objects that the services return have been built by their classes. *)
Definition services_typed : Prop :=
  (forall step st d, resolver step st = Ok (Replied d) -> decision_ok d = Ok tt) /\
  (forall consumer r step st c, receipt_consumer = Some consumer ->
     consumer r step st = Ok (Replied c) -> receipt_built c).

Record approved_by_barrier (step : PlanStep) (st : PlanExecutionState) (h : string)
    (d : PlanApprovalDecision) (r : PlanApprovalReceipt) (now : pyfloat) : Prop := {
  bb_built : receipt_built r;
  bb_approved : pd_approved d = Some true;
  bb_receipt : pd_receipt d = Some r;
  bb_hash : step_action_hash step = Ok h;
  bb_decision : pd_action_hash d = h /\ pd_approval_id d = Some (pr_approval_id r);
  bb_plan : pr_plan_id r = xs_plan_id st;
  bb_step : pr_step_id r = ps_step_id step;
  bb_version : pr_state_version r = xs_version st;
  bb_action : pr_action_hash r = h;
  bb_role : share_member (sr_approval_roles (ps_rules step)) (pr_approver_roles r) = true;
  bb_time : exists c, pr_consumed_at r = Some c /\ num_lt (NFloat now) c = false /\
                      num_lt (pr_expires_at r) (NFloat now) = false;
  bb_request : forall s i, dget (ps_step_id step) (xs_steps st) = Some s ->
    ss_approval_id s = Some i -> (String.eqb i (pr_approval_id r) || placeholder_id i) = true
}.

Lemma same_binding_fields a b :
  same_binding a b = true ->
  pr_approval_id a = pr_approval_id b /\ pr_receipt_id a = pr_receipt_id b /\
  pr_plan_id a = pr_plan_id b /\ pr_step_id a = pr_step_id b /\
  pr_action_hash a = pr_action_hash b /\ pr_state_version a = pr_state_version b /\
  pr_approver_roles a = pr_approver_roles b.
Proof.
  unfold same_binding. rewrite !andb_true_iff, !String.eqb_eq, bool_decide_eq_true, Z.eqb_eq.
  tauto.
Qed.

Lemma issued_receipt_Ok r step st now u :
  validate_issued_receipt r step st now = Ok u ->
  pr_plan_id r = xs_plan_id st /\ pr_step_id r = ps_step_id step /\
  pr_state_version r = xs_version st /\ step_action_hash step = Ok (pr_action_hash r) /\
  share_member (sr_approval_roles (ps_rules step)) (pr_approver_roles r) = true.
Proof.
  unfold validate_issued_receipt. intros H. apply rbind_Ok in H as (? & _ & H).
  apply rbind_Ok in H as (? & Hb%barrier_require_Ok & H). apply rbind_Ok in H as (h & Hh & H).
  apply rbind_Ok in H as (? & Ha%barrier_require_Ok%String.eqb_eq & H).
  apply rbind_Ok in H as (? & _ & H). apply rbind_Ok in H as (? & Hr%barrier_require_Ok & _).
  rewrite !andb_true_iff, !String.eqb_eq, Z.eqb_eq in Hb. destruct Hb as [[Hp Hs] Hv].
  by rewrite Ha.
Qed.

Lemma consume_locked_Ok (ids : list string) r step st consumed :
  consume_locked receipt_consumer clock cancelled ids r step st = Ok consumed ->
  (pr_receipt_id r ∉ ids) /\
  (exists now u, validate_consumed_receipt r consumed step st now = Ok u) /\
  exists consumer, receipt_consumer = Some consumer /\ consumer r step st = Ok (Replied consumed).
Proof.
  unfold consume_locked. intros H. apply rbind_Ok in H as (? & Hm%barrier_require_Ok & H).
  apply rbind_Ok in H as (? & _ & H). destruct receipt_consumer as [consumer|]; [|done].
  apply rbind_Ok in H as ([y|m|] & Hy & H); [|done|done].
  apply rbind_Ok in H as (now & _ & H). apply rbind_Ok in H as (u & Hv & [= ->]).
  split; [by apply negb_true_iff, mem_str_false in Hm|]. split; [by exists now, u|].
  by exists consumer.
Qed.

Lemma consumed_receipt_Ok r consumed step st now u :
  validate_consumed_receipt r consumed step st now = Ok u ->
  same_binding consumed r = true /\
  (exists c, pr_consumed_at consumed = Some c /\ num_lt (NFloat now) c = false /\
             num_lt (pr_expires_at consumed) (NFloat now) = false) /\
  exists u, validate_issued_receipt r step st now = Ok u.
Proof.
  unfold validate_consumed_receipt. intros H.
  apply rbind_Ok in H as (? & Hb%barrier_require_Ok & H).
  destruct (pr_consumed_at consumed) as [c|]; [|done].
  apply rbind_Ok in H as (? & Hc%barrier_require_Ok & H).
  apply rbind_Ok in H as (? & He%barrier_require_Ok & H).
  apply negb_true_iff in Hc, He. split; [done|]. split; [by exists c|]. by exists u.
Qed.

(** An approval id answers the request that the step waits for. *)
Lemma check_decision_Ok d step st u :
  check_decision d step st = Ok u ->
  step_action_hash step = Ok (pd_action_hash d) /\
  forall s i j, dget (ps_step_id step) (xs_steps st) = Some s -> ss_approval_id s = Some i ->
    pd_approval_id d = Some j -> (String.eqb i j || placeholder_id i) = true.
Proof.
  unfold check_decision. intros H. apply rbind_Ok in H as (h & Hh & H).
  apply rbind_Ok in H as (? & Ha%barrier_require_Ok%String.eqb_eq & H). rewrite Ha. split; [done|].
  intros s i j Hs Hi Hj. rewrite Hs in H. apply barrier_require_Ok in H. by rewrite Hi, Hj in H.
Qed.

Lemma decision_ok_approved h i rs r :
  decision_ok (mkDecision (Some true) h i rs (Some r)) = Ok tt ->
  i = Some (pr_approval_id r) /\ pr_action_hash r = h.
Proof.
  unfold decision_ok. intros H. do 2 (apply rbind_Ok in H as (? & _ & H)).
  apply rbind_Ok in H as (? & H & _). cbn in H.
  apply rbind_Ok in H as (? & Hi%demand_Ok%bool_decide_eq_true & Hh%demand_Ok%String.eqb_eq). done.
Qed.

(** One call: the ids it leaves, and what it may return. *)
Lemma authorize_Ok ids step st ids' d :
  authorize resolver receipt_consumer clock cancelled ids step st = (ids', Ok d) ->
  services_typed ->
  (decision_ok d = Ok tt /\ step_action_hash step = Ok (pd_action_hash d) /\
   forall s i j, dget (ps_step_id step) (xs_steps st) = Some s -> ss_approval_id s = Some i ->
     pd_approval_id d = Some j -> (String.eqb i j || placeholder_id i) = true) /\
  ((pd_approved d <> Some true /\ ids' = ids) \/
  exists r h now, approved_by_barrier step st h d r now /\ (pr_receipt_id r ∉ ids) /\
                  ids' = pr_receipt_id r :: ids).
Proof.
  unfold authorize. intros H [Hres Hcon].
  destruct (rbind (throw_if_cancelled cancelled 0) _) as [d0|] eqn:E0; [|done].
  apply rbind_Ok in E0 as (? & _ & E0). apply rbind_Ok in E0 as ([d1|m|] & Hr & E0); [|done|done].
  apply rbind_Ok in E0 as (u & Hck & [= ->]). specialize (Hres _ _ _ Hr).
  apply check_decision_Ok in Hck as [Hh Hreq].
  destruct (bool_decide (pd_approved d0 = Some true)) eqn:Ea.
  - apply bool_decide_eq_true in Ea. unfold consume_receipt in H.
    destruct (pd_receipt d0) as [r|] eqn:Er; [|done].
    destruct receipt_consumer as [consumer|] eqn:Ec; [|done].
    destruct (rbind (clock_value _) _) as [c|] eqn:E1; [|done].
    injection H as <- H. apply rbind_Ok in H as (d1 & Hd & H).
    apply rbind_Ok in H as (? & _ & [= ->]). rewrite Hh in Hd. cbn [rbind] in Hd.
    unfold decision_grant in Hd. apply made_Ok in Hd as [-> Hok].
    apply rbind_Ok in E1 as (now0 & _ & E1). apply rbind_Ok in E1 as (u0 & _ & E1).
    rewrite <- Ec in E1. apply consume_locked_Ok in E1 as (Hn & (now & u1 & Hv) & consumer' & Hco & Hcr).
    apply consumed_receipt_Ok in Hv as (Hb & Ht & u2 & Hi).
    apply same_binding_fields in Hb as (B1 & B2 & B3 & B4 & B5 & B6 & B7).
    apply issued_receipt_Ok in Hi as (I1 & I2 & I3 & I4 & I5).
    destruct d0 as [ap ah ai rs rc]. cbn in *. subst ap rc.
    apply decision_ok_approved in Hres as [-> _].
    assert (Hreq' : forall s i j, dget (ps_step_id step) (xs_steps st) = Some s ->
      ss_approval_id s = Some i -> Some (pr_approval_id c) = Some j ->
      (String.eqb i j || placeholder_id i) = true).
    { intros s i j Hs Hi [= <-]. apply (Hreq s i _ Hs Hi). by rewrite B1. }
    split; [by split_and!|]. right. exists c, ah, now. split; [|split; [by rewrite B2|done]].
    split; cbn; try done; try congruence.
    + apply (Hcon consumer' r step st); congruence.
    + intros s i Hs Hi. by apply (Hreq' s i).
  - injection H as <- H. apply rbind_Ok in H as (? & _ & [= ->]). split; [by split_and!|]. left.
    by apply bool_decide_eq_false in Ea.
Qed.

(** The ids only grow, by an id that was not there. *)
Lemma authorize_ids ids step st :
  fst (authorize resolver receipt_consumer clock cancelled ids step st) = ids \/
  exists i, (i ∉ ids) /\ fst (authorize resolver receipt_consumer clock cancelled ids step st) = i :: ids.
Proof.
  unfold authorize. destruct (rbind (throw_if_cancelled cancelled 0) _) as [d0|]; [|by left].
  destruct (bool_decide _); [|by left]. unfold consume_receipt.
  destruct (pd_receipt d0) as [r|]; [|by left]. destruct receipt_consumer as [consumer|] eqn:Ec; [|by left].
  destruct (rbind (clock_value _) _) as [c|] eqn:E1; [|by left]. right. exists (pr_receipt_id c).
  split; [|done]. apply rbind_Ok in E1 as (now0 & _ & E1). apply rbind_Ok in E1 as (u0 & _ & E1).
  rewrite <- Ec in E1. apply consume_locked_Ok in E1 as (Hn & (now & u1 & Hv) & _).
  apply consumed_receipt_Ok in Hv as (Hb & _ & _).
  by apply same_binding_fields in Hb as (_ & -> & _).
Qed.
End Approved.

(** ** Sequences of calls on one barrier *)
Record barrier_call := mkCall {
  bc_resolver : PlanStep -> PlanExecutionState -> res (reply PlanApprovalDecision);
  bc_consumer :
    option (PlanApprovalReceipt -> PlanStep -> PlanExecutionState -> res (reply PlanApprovalReceipt));
  bc_clock : nat -> pyval;
  bc_cancelled : nat -> bool;
  bc_step : PlanStep;
  bc_state : PlanExecutionState
}.

(** Each call sees the services as they are then, and the ids consumed before. *)
Fixpoint run_barrier (ids : list string) (calls : list barrier_call)
  : list (res PlanApprovalDecision) :=
  match calls with
  | [] => []
  | c :: calls' =>
      let '(ids', d) := authorize (bc_resolver c) (bc_consumer c) (bc_clock c) (bc_cancelled c)
                          ids (bc_step c) (bc_state c) in
      d :: run_barrier ids' calls'
  end.

(** The receipt of a returned approval *)
Definition spent_receipt (d : res PlanApprovalDecision) : list string :=
  match d with
  | Ok (mkDecision (Some true) _ _ _ (Some r)) => [pr_receipt_id r]
  | _ => []
  end.

Definition call_typed (c : barrier_call) : Prop := services_typed (bc_resolver c) (bc_consumer c).

Lemma run_barrier_fresh calls : forall ids,
  Forall call_typed calls ->
  NoDup (List.flat_map spent_receipt (run_barrier ids calls)) /\
  forall i, i ∈ List.flat_map spent_receipt (run_barrier ids calls) -> i ∉ ids.
Proof.
  induction calls as [|c calls IH]; intros ids Ht; cbn [run_barrier].
  - split; [constructor|]. intros i Hi. by apply elem_of_nil in Hi.
  - apply Forall_cons in Ht as [Hc Ht].
    pose proof (authorize_ids (bc_resolver c) (bc_consumer c) (bc_clock c) (bc_cancelled c)
                  ids (bc_step c) (bc_state c)) as Hids.
    destruct (authorize _ _ _ _ _ _ _) as [ids' d] eqn:E. cbn [fst] in Hids.
    destruct (IH ids' Ht) as [Hnd Hfresh]. cbn [List.flat_map].
    assert (Hsub : forall i, i ∉ ids' -> i ∉ ids).
    { intros i Hi Hin. apply Hi. destruct Hids as [->|(j & _ & ->)]; [done|by right]. }
    assert (Hspent : spent_receipt d = [] \/
      exists i, spent_receipt d = [i] /\ (i ∉ ids) /\ i ∈ ids').
    { destruct d as [d|e]; [|by left]. apply authorize_Ok in E as [_ [[Hn _]|H]]; [|..|exact Hc].
      - left. destruct d as [[[]|] ? ? ? ?]; try done.
      - right. destruct H as (r & h & now & B & Hn & ->). exists (pr_receipt_id r).
        destruct B. destruct d as [ap ? ? ? rc]. cbn in *. subst ap rc.
        split; [done|]. split; [done|left]. }
    destruct Hspent as [->|(i & -> & Hn & Hi)]; cbn [app].
    + split; [done|]. intros i Hi. apply Hsub. by apply Hfresh.
    + split.
      * constructor; [|done]. intros Hin. by apply (Hfresh i).
      * intros j [->|Hj]%elem_of_cons; [done|]. apply Hsub. by apply Hfresh.
Qed.

(** One barrier spends a receipt at most once, whatever the services answer:
    over any sequence of authorizations, for any steps and states, no two returned
    approvals carry the same receipt. *)
Theorem receipt_spent_once calls :
  Forall call_typed calls -> NoDup (List.flat_map spent_receipt (run_barrier [] calls)).
Proof. intros H. by apply run_barrier_fresh. Qed.

(** ** From a decision to an event  (executor.py) *)

(** [replace(step, _execution_action_hash=action_hash)] *)
Definition authorized_step (step : PlanStep) (h : string) : PlanStep :=
  mkStep (ps_step_id step) (ps_intent step) (ps_arguments step) (ps_depends_on step)
    (ps_rules step) (ps_argument_bindings step) (ps_preconditions step) (Some h).

(** [if self.event_sink is not None: value = self.event_sink(event)] *)
Definition sink_event (sink : option (PlanEvent -> res unit)) (e : PlanEvent) : res unit :=
  match sink with Some f => f e | None => Ok tt end.

(** [PlanExecutor._transition]: the new state, and the event added to the log; an
    exception of the sink leaves both as they were. *)
Definition transition (sink : option (PlanEvent -> res unit)) (p : MultiIntentPlan) (st : PlanExecutionState)
    (ty step_id : string) (data : pydict) : res (PlanExecutionState * PlanEvent) :=
  let! e := made plan_event_ok (mkPlanEvent (xs_version st + 1) ty step_id data 1) in
  let! st' := apply_plan_event p st e in
  check! sink_event sink e in
  Ok (st', e).

Definition grant_data (d : PlanApprovalDecision) : pydict :=
  [("approvalId", option_value VStr (pd_approval_id d)); ("actionHash", VStr (pd_action_hash d));
   ("receipt", option_value (fun r => VDict (plan_receipt_to_dict r)) (pd_receipt d))].

Definition deny_data (d : PlanApprovalDecision) (current : PlanStepState) : pydict :=
  [("approvalId",
    option_value VStr (match pd_approval_id d with
                       | Some i => if nonempty i then Some i else ss_approval_id current
                       | None => ss_approval_id current end));
   ("reason", option_value VStr (pd_reason d)); ("actionHash", VStr (pd_action_hash d))].

(** The rest of [_resolve_approval], once the barrier has decided: no event for a
    request that is still pending. *)
Definition apply_decision (sink : option (PlanEvent -> res unit)) (p : MultiIntentPlan) (st : PlanExecutionState)
    (step : PlanStep) (d : PlanApprovalDecision) : res (option (PlanExecutionState * PlanEvent)) :=
  let! current := step_state st (ps_step_id step) in
  match pd_approved d with
  | None =>
      if is_in [StepWaitingApproval] current then Ok None else
      let! t := transition sink p st "step_waiting_approval" (ps_step_id step)
                  [("approvalId", option_value VStr (pd_approval_id d));
                   ("actionHash", VStr (pd_action_hash d))] in
      Ok (Some t)
  | Some true =>
      let! t := transition sink p st "step_approval_granted" (ps_step_id step) (grant_data d) in
      Ok (Some t)
  | Some false =>
      let! t := transition sink p st "step_approval_denied" (ps_step_id step) (deny_data d current) in
      Ok (Some t)
  end.

(** *** A built receipt is read back from its event with its times as floats *)
Lemma finite_timestamp_float v f : finite_timestamp v = Ok f -> fl_finite f = true.
Proof.
  destruct v; simpl; try done.
  - unfold float_of_int. destruct (fl_finite _) eqn:E; [|done]. by intros [= <-].
  - destruct (fl_finite f0) eqn:E; [|done]. by intros [= <-].
Qed.

Lemma timestamp_value n f : finite_timestamp (num_value n) = Ok f -> timestamp (num_value n) = Ok (NFloat f).
Proof. unfold timestamp. by intros ->. Qed.

Definition same_grant (r r' : PlanApprovalReceipt) : Prop :=
  pr_approval_id r' = pr_approval_id r /\ pr_plan_id r' = pr_plan_id r /\
  pr_step_id r' = pr_step_id r /\ pr_action_hash r' = pr_action_hash r /\
  pr_state_version r' = pr_state_version r /\ pr_approver_roles r' = pr_approver_roles r /\
  is_some (pr_consumed_at r') = is_some (pr_consumed_at r).

Lemma receipt_reads_back r :
  receipt_built r -> exists r', plan_receipt_from_dict (plan_receipt_to_dict r) = Ok r' /\ same_grant r r'.
Proof.
  intros [Hok Hroles]. pose proof Hok as H. unfold plan_receipt_ok in H.
  apply rbind_Ok in H as (u1 & E1%demand_Ok & H). apply rbind_Ok in H as (u2 & E2%demand_Ok & H).
  apply rbind_Ok in H as (u3 & E3%demand_Ok & H). apply rbind_Ok in H as (u4 & E4%demand_Ok & H).
  apply rbind_Ok in H as (i & Hi & H). apply rbind_Ok in H as (e & He & H).
  apply rbind_Ok in H as (u5 & E5 & H).
  pose proof E1 as E1'. cbn [forallb] in E1'. repeat (apply andb_true_iff in E1' as [? E1']).
  pose proof E4 as [_ E4']%andb_true_iff. unfold plan_receipt_from_dict.
  cbn -[text texts timestamp finite_timestamp made optional option_value num_value frozenset].
  rewrite texts_round_trip by done. rewrite !text_nonblank by done. cbn [rbind integer].
  rewrite (timestamp_value _ _ Hi), (timestamp_value _ _ He). cbn [rbind]. rewrite Hroles.
  assert (Hc : exists c', optional timestamp (option_value num_value (pr_consumed_at r)) = Ok c' /\
    is_some c' = is_some (pr_consumed_at r) /\
    (forall c, c' = Some c -> exists f, c = NFloat f /\ fl_finite f = true /\
       demand (negb (num_lt (NFloat f) (NFloat i) || num_lt (NFloat e) (NFloat f))) = Ok tt)).
  { destruct (pr_consumed_at r) as [c|]; [|by exists None].
    apply rbind_Ok in H as (f & Hf & H). exists (Some (NFloat f)).
    pose proof (timestamp_value _ _ Hf) as Ht. split_and!; [|done|].
    - cbn [option_value]. unfold optional. destruct c; cbn [num_value] in *; by rewrite Ht.
    - intros c0 [= <-]. exists f. eauto using finite_timestamp_float. }
  destruct Hc as (c' & -> & Hsome & Hc). cbn [rbind]. eexists. split.
  - apply made_Ok. split; [done|]. unfold plan_receipt_ok. cbn [pr_approval_id pr_receipt_id pr_plan_id
      pr_step_id pr_action_hash pr_approver_id pr_approver_issuer pr_identity_verification_id
      pr_verification_id pr_state_version pr_approver_roles pr_issued_at pr_expires_at
      pr_consumed_at num_value]. rewrite E1, E2, E3, E4. cbn [demand rbind finite_timestamp].
    rewrite (finite_timestamp_float _ _ Hi), (finite_timestamp_float _ _ He). cbn [rbind].
    rewrite E5. destruct u5. cbn [rbind]. destruct c' as [c|]; [|done].
    destruct (Hc c eq_refl) as (f & -> & Hf & Hd). cbn [num_value finite_timestamp].
    rewrite Hf. cbn [rbind]. done.
  - by split_and!.
Qed.

(** *** The machine accepts what the barrier decides *)
Section Accepted.
Variable sink : option (PlanEvent -> res unit).
Variable p : MultiIntentPlan.
Variable st : PlanExecutionState.
Variable step : PlanStep.
Variable s : PlanStepState.
Hypothesis Hsink : forall e, sink_event sink e = Ok tt.
Hypothesis Hchecked : checked_plan p.
Hypothesis Hst : machine_state p st.
Hypothesis Hin : step ∈ pl_steps p.
Hypothesis Hs : dget (ps_step_id step) (xs_steps st) = Some s.

Lemma transition_Ok ty data s' :
  blank ty = false -> strict_json (VDict data) = true ->
  apply_step_event st step s data ty = Ok s' ->
  exists st' e, transition sink p st ty (ps_step_id step) data = Ok (st', e) /\
                dget (ps_step_id step) (xs_steps st') = Some s'.
Proof.
  intros Hty Hdata Hev. unfold transition.
  set (e := mkPlanEvent (xs_version st + 1) ty (ps_step_id step) data 1).
  assert (He : plan_event_ok e = Ok tt).
  { pose proof (proj2 Hchecked) as Hf. eapply Forall_forall in Hf; [|done].
    unfold plan_step_ok in Hf. apply rbind_Ok in Hf as ([] & Hn & _).
    unfold plan_event_ok. cbn [pe_sequence pe_type pe_step_id pe_schema_version pe_data e].
    rewrite (proj2 (Z.leb_le _ _)) by (pose proof (ms_version _ _ Hst); lia).
    unfold non_empty at 1. rewrite Hty, Hn. cbn [negb demand rbind]. unfold require_json.
    by rewrite Hdata. }
  rewrite (proj2 (made_Ok plan_event_ok e e)) by done. cbn [rbind].
  unfold apply_plan_event. rewrite machine_state_identity by done.
  cbn [rbind e pe_sequence pe_step_id pe_type pe_data]. rewrite Z.eqb_refl. cbn [demand rbind].
  rewrite plan_step_found by done. cbn [rbind]. rewrite (proj2 (step_state_Ok _ _ s) Hs).
  cbn [rbind]. rewrite Hev. cbn [rbind]. rewrite Hsink. cbn [rbind]. eexists _, _. split; [done|]. cbn. apply dget_dset_eq.
Qed.

Variable h : string.
Hypothesis Hhash : is_sha256 h = true.
Hypothesis Hsame : forall h', ss_approval_action_hash s = Some h' -> h' = h.
Hypothesis Hbefore : is_in before_dispatch s = true.

Lemma sha256_read data :
  jget data "actionHash" = VStr h -> plan_event_sha256 data "actionHash" = Ok h.
Proof.
  intros Hj. unfold plan_event_sha256, plan_event_text. rewrite Hj. cbn [text].
  replace (blank h) with false; [cbn [rbind]; unfold sha256_text; by rewrite Hhash|].
  symmetry. apply not_true_iff_false. intros Hb.
  assert (Hc : forall l, forallb is_space l = true -> forallb casefold_hex l = true -> l = []).
  { intros [|c l]; [done|]. cbn [forallb]. rewrite !andb_true_iff. intros [Hsp _] [Hx _].
    exfalso. unfold is_space in Hsp. apply in_chars_spec in Hsp.
    unfold whitespace_chars in Hsp.
    repeat (apply elem_of_cons in Hsp as [->|Hsp]; [by vm_compute in Hx|]).
    by apply elem_of_nil in Hsp. }
  unfold is_sha256 in Hhash. apply andb_true_iff in Hhash as [Hl Hx].
  unfold blank in Hb. unfold all_casefold_hex in Hx. unfold py_len in Hl.
  rewrite (Hc _ Hb Hx) in Hl. done.
Qed.

Lemma expected_hash : expected_action_hash s h = Ok h.
Proof.
  unfold expected_action_hash. replace (or_text (ss_approval_action_hash s) h) with h.
  - by rewrite String.eqb_refl.
  - destruct (ss_approval_action_hash s) as [h'|] eqn:E; [|done]. rewrite (Hsame h' eq_refl).
    cbn [or_text]. by destruct (nonempty h).
Qed.

Lemma waiting_accepted i :
  sr_requires_approval (ps_rules step) = true -> ss_approval_receipt s = None ->
  ss_status s = StepPending -> blank i = false ->
  exists s', on_waiting_approval step s
    [("approvalId", VStr i); ("actionHash", VStr h)] = Ok s' /\ ss_status s' = StepWaitingApproval.
Proof.
  intros Hq Hr Hp Hi. unfold on_waiting_approval, is_in. rewrite Hp, Hq, Hr.
  cbn [status_in existsb andb orb negb is_some demand rbind bool_decide decide_rel].
  rewrite bool_decide_eq_true_2 by done. cbn [andb orb demand rbind].
  rewrite sha256_read by done. cbn [rbind]. unfold plan_event_optional_text.
  cbn -[text]. rewrite text_VStr by done. cbn [rbind]. eexists. split; done.
Qed.

Lemma grant_accepted d r now :
  approved_by_barrier (authorized_step step h) st h d r now ->
  exists s', on_approval_granted st step s (grant_data d) = Ok s' /\ ss_status s' = StepPending.
Proof.
  intros [Hb _ Hr _ [Hdh Hdi] Hpl Hsp Hv Hah Hro (c & Hc & _) Hreq].
  destruct (receipt_reads_back r Hb) as (r' & Hread & Ei & Ep & Es & Eh & Ev & Ero & Ec).
  unfold on_approval_granted. rewrite Hbefore. cbn [demand rbind]. unfold grant_data.
  rewrite Hdh, Hdi, Hr. rewrite sha256_read by done. cbn [rbind]. rewrite expected_hash.
  cbn [rbind].
  assert (Hid : blank (pr_approval_id r) = false).
  { destruct Hb as [Hok _]. unfold plan_receipt_ok in Hok.
    apply rbind_Ok in Hok as (? & Hn%demand_Ok & _). cbn [forallb] in Hn.
    apply andb_true_iff in Hn as [Hn _]. by apply negb_true_iff. }
  unfold plan_event_text. cbn -[text plan_receipt_from_dict plan_receipt_to_dict].
  rewrite text_VStr by done. cbn [rbind]. rewrite Hread. cbn [rbind].
  rewrite Ec, Hc, Ei, Ep, Es, Eh, Ev, Ero, Hpl, Hsp, Hah, Hv, !String.eqb_refl, Z.eqb_refl.
  cbn [is_some andb demand rbind authorized_step ps_step_id].
  destruct (ss_approval_id s) as [i|] eqn:Eai.
  - rewrite (Hreq s i) by done. cbn [demand rbind].
    cbn [authorized_step ps_rules] in Hro. rewrite Hro. eexists. split; done.
  - cbn [demand rbind]. cbn [authorized_step ps_rules] in Hro. rewrite Hro. eexists. split; done.
Qed.

Lemma denial_accepted d reason :
  pd_action_hash d = h -> pd_reason d = Some reason -> blank reason = false ->
  opt_ok (fun i => blank i = false) (pd_approval_id d) ->
  opt_ok (fun i => blank i = false) (ss_approval_id s) ->
  (forall i j, ss_approval_id s = Some i -> pd_approval_id d = Some j -> i = j) ->
  exists s', on_approval_denied s (deny_data d s) = Ok s' /\ ss_status s' = StepFailed.
Proof.
  intros Hdh Hdr Hre Hid Hsid Hij. unfold on_approval_denied. rewrite Hbefore.
  cbn [demand rbind]. unfold deny_data. rewrite Hdh, Hdr. rewrite sha256_read by done.
  cbn [rbind]. rewrite expected_hash. cbn [rbind]. unfold plan_event_optional_text, plan_event_text.
  cbn -[text optional].
  set (o := match pd_approval_id d with
            | Some i => if nonempty i then Some i else ss_approval_id s
            | None => ss_approval_id s end).
  assert (Ho : opt_ok (fun i => blank i = false) o /\
               forall i j, ss_approval_id s = Some i -> o = Some j -> i = j).
  { unfold o. destruct (pd_approval_id d) as [j|]; [|split; [done|congruence]].
    rewrite (blank_nonempty _ Hid). split; [done|]. intros i k Hi [= <-]. auto. }
  destruct Ho as [Ho1 Ho2]. rewrite (optional_round_trip text VStr o)
    by (done || (destruct o; [by apply text_VStr|done])).
  cbn [rbind]. rewrite text_VStr by done.
  replace (match ss_approval_id s with Some i => _ | None => true end) with true.
  - cbn [demand rbind]. eexists. split; done.
  - destruct (ss_approval_id s) as [i|], o as [j|]; try done.
    rewrite (Ho2 i j) by done. by rewrite String.eqb_refl.
Qed.
End Accepted.

Lemma decision_fields_ok d :
  decision_ok d = Ok tt ->
  match pd_approved d with
  | None => exists i, pd_approval_id d = Some i /\ blank i = false
  | Some true => True
  | Some false => (exists r, pd_reason d = Some r /\ blank r = false) /\
                  opt_ok (fun i => blank i = false) (pd_approval_id d)
  end.
Proof.
  unfold decision_ok. intros H. apply rbind_Ok in H as (? & _ & H).
  destruct (pd_approved d) as [[]|]; [done|..].
  - apply rbind_Ok in H as (? & Hr%demand_Ok & H). apply rbind_Ok in H as (? & Hi%demand_Ok & _).
    split.
    + destruct (pd_reason d) as [r|]; [|done]. exists r. split; [done|]. by apply negb_true_iff.
    + destruct (pd_approval_id d); [|done]. by apply negb_true_iff.
  - apply rbind_Ok in H as (? & Hi%demand_Ok & _).
    destruct (pd_approval_id d) as [i|]; [|done]. exists i. split; [done|]. by apply negb_true_iff.
Qed.

Lemma status_of_get st i s : dget i (xs_steps st) = Some s -> status_of st i = Some (ss_status s).
Proof. unfold status_of. by intros ->. Qed.

(** Where a decision takes a step *)
Definition decided_status (d : PlanApprovalDecision) : PlanStepStatus :=
  match pd_approved d with
  | None => StepWaitingApproval | Some true => StepPending | Some false => StepFailed
  end.

(** The plan machine accepts what the barrier decides: a decision returned for
    a step that needs an approval and has none yet is recorded - a grant leaves the
    step ready with its receipt, a pending request leaves it waiting, a denial
    fails it - unless the event sink fails, or a denial answers under another
    approval id than the one the step waits under. *)
Theorem barrier_decision_is_recorded sink p events st step s h resolver consumer clock cancelled ids ids' d :
  (forall e, sink_event sink e = Ok tt) ->
  checked_plan p -> replay_plan p events = Ok st -> step ∈ pl_steps p ->
  dget (ps_step_id step) (xs_steps st) = Some s ->
  is_in before_dispatch s = true -> sr_requires_approval (ps_rules step) = true ->
  ss_approval_receipt s = None -> is_sha256 h = true ->
  (forall h', ss_approval_action_hash s = Some h' -> h' = h) ->
  services_typed resolver consumer ->
  authorize resolver consumer clock cancelled ids (authorized_step step h) st = (ids', Ok d) ->
  (pd_approved d = Some false ->
   forall i j, ss_approval_id s = Some i -> pd_approval_id d = Some j -> i = j) ->
  exists o, apply_decision sink p st step d = Ok o /\
    status_of (match o with Some (st', _) => st' | None => st end) (ps_step_id step)
    = Some (decided_status d).
Proof.
  intros Hsink Hch Hrep Hin Hs Hbefore Hq Hnone Hhash Hsame Htyped Hauth Hdeny.
  pose proof (replay_facts _ _ _ (proj1 Hch) Hrep) as (I & Hty & Hv).
  assert (Hst : machine_state p st) by (split; [apply I|apply I|done]).
  apply authorize_Ok in Hauth as [(Hok & Hdh & _) Happ]; [|done].
  cbn [authorized_step step_action_hash ps_execution_action_hash] in Hdh. injection Hdh as Hdh.
  unfold apply_decision. rewrite (proj2 (step_state_Ok _ _ s) Hs). cbn [rbind].
  unfold decided_status. pose proof (decision_fields_ok d Hok) as Hd.
  destruct (pd_approved d) as [[]|] eqn:Ea.
  - destruct Happ as [[? _]|(r & h' & now & B & _)]; [done|].
    assert (h' = h) as -> by (destruct B as [_ _ _ Hh _ _ _ _ _ _ _ _]; by injection Hh as <-).
    destruct (grant_accepted st step s Hs h Hhash Hsame Hbefore d r now B) as (s' & Hg & Hs').
    destruct (transition_Ok sink p st step s Hsink Hch Hst Hin Hs "step_approval_granted" (grant_data d) s')
      as (st' & e & -> & Hget); [done|..|done|].
    + unfold grant_data. destruct B as [Hb _ Hr _ [_ Hi] _ _ _ _ _ _ _]. rewrite Hr, Hi.
      rewrite !strict_cons. cbn [option_value]. by rewrite (built_receipt_strict r Hb).
    + eexists. split; [done|]. cbn. by rewrite (status_of_get _ _ _ Hget), Hs'.
  - destruct Hd as [(reason & Hr & Hb) Hi].
    destruct (denial_accepted s h Hhash Hsame Hbefore d reason) as (s' & Hg & Hs'); auto.
    { by apply (sy_id _ (Hty _ _ Hs)). }
    destruct (transition_Ok sink p st step s Hsink Hch Hst Hin Hs "step_approval_denied" (deny_data d s) s')
      as (st' & e & -> & Hget); [done|..|done|].
    + unfold deny_data. rewrite Hr. cbn. by destruct (pd_approval_id d), (ss_approval_id s); try destruct (nonempty _).
    + eexists. split; [done|]. cbn. by rewrite (status_of_get _ _ _ Hget), Hs'.
  - destruct (is_in [StepWaitingApproval] s) eqn:Ew.
    { eexists. split; [done|]. cbn. rewrite (status_of_get _ _ _ Hs). by apply is_in_one in Ew as ->. }
    destruct Hd as (i & Hi & Hb).
    destruct (waiting_accepted step s h Hhash i) as (s' & Hg & Hs'); auto.
    { apply is_in_spec in Hbefore. unfold before_dispatch in Hbefore.
      apply elem_of_cons in Hbefore as [?|Hw%list_elem_of_singleton]; [done|].
      apply is_in_one in Hw. congruence. }
    destruct (transition_Ok sink p st step s Hsink Hch Hst Hin Hs "step_waiting_approval"
      [("approvalId", option_value VStr (pd_approval_id d)); ("actionHash", VStr (pd_action_hash d))] s')
      as (st' & e & -> & Hget); [done|by rewrite Hi|by rewrite Hi, <- Hdh|].
    eexists. split; [done|]. cbn. by rewrite (status_of_get _ _ _ Hget), Hs'.
Qed.

(** ** Instances on the sample plan *)

(** The execution after the lookup: the transfer may be authorized. *)
Definition before_transfer : PlanExecutionState := state_after (firstn 3 plan_log).

(** A service that granted the transfer, and one that denied it, with their own ids *)
Definition issued_receipt : PlanApprovalReceipt :=
  mkPlanReceipt "approval-7" "receipt-7" "plan-1" "s2" transfer_digest 3 "mia" ["manager"] "idp"
    "identity-3" "verification-9" (NInt 100) (NInt 400) None.

Definition granting (step : PlanStep) (st : PlanExecutionState) : res (reply PlanApprovalDecision) :=
  Ok (Replied (mkDecision (Some true) transfer_digest (Some "approval-7") None (Some issued_receipt))).

Definition denying (step : PlanStep) (st : PlanExecutionState) : res (reply PlanApprovalDecision) :=
  Ok (Replied (mkDecision (Some false) transfer_digest (Some "approval-7") (Some "over the limit") None)).

Definition consuming (r : PlanApprovalReceipt) (step : PlanStep) (st : PlanExecutionState)
  : res (reply PlanApprovalReceipt) :=
  Ok (match receipt_consumed (NInt 120) issued_receipt with
      | Ok c => Replied c | Err _ => RepliedOther end).

Definition at_125 (n : nat) : pyval := VInt 125.
Definition not_cancelled (n : nat) : bool := false.

Lemma granting_typed : services_typed granting (Some consuming).
Proof.
  split.
  - intros step st d [= <-]. vm_compute. reflexivity.
  - intros consumer r step st c [= <-] Hc. unfold consuming in Hc.
    destruct (receipt_consumed _ _) as [c'|] eqn:E; [|done]. injection Hc as <-.
    vm_compute in E. injection E as <-. split; vm_compute; reflexivity.
Qed.

Lemma receipt_spent_once_witness :
  let call := mkCall granting (Some consuming) at_125 not_cancelled
                (authorized_step transfer_step transfer_digest) before_transfer in
  NoDup (List.flat_map spent_receipt (run_barrier [] [call; call])) /\
  List.flat_map spent_receipt (run_barrier [] [call; call]) = ["receipt-7"].
Proof.
  intros call. split; [|vm_compute; reflexivity].
  refine (receipt_spent_once [call; call] _).
  constructor; [exact granting_typed|]. constructor; [exact granting_typed|constructor].
Defined.

Definition granted_transfer : PlanApprovalDecision :=
  match snd (authorize granting (Some consuming) at_125 not_cancelled []
               (authorized_step transfer_step transfer_digest) before_transfer) with
  | Ok d => d | Err _ => mkDecision None "" None None None end.

Lemma barrier_decision_is_recorded_witness :
  exists o, apply_decision None sample_plan before_transfer transfer_step granted_transfer = Ok o /\
    status_of (match o with Some (st', _) => st' | None => before_transfer end) "s2"
    = Some StepPending.
Proof.
  refine (barrier_decision_is_recorded None sample_plan (firstn 3 plan_log) before_transfer transfer_step
            fresh_step transfer_digest granting (Some consuming) at_125 not_cancelled [] ["receipt-7"]
            granted_transfer (fun _ => eq_refl) sample_plan_checked _ transfer_in_plan _ _ _ _ _ _ granting_typed _ _);
    try (vm_compute; reflexivity).
  - intros h' H. discriminate H.
  - intros H. vm_compute in H. discriminate H.
Defined.

(** The transfer waits under the placeholder id the executor gave it when it had
    no approval service. *)
Definition waiting_for_service : PlanExecutionState := state_after (firstn 4 plan_log).

(** A denial cannot be recorded for a step that waits under the executor's
    placeholder id: the barrier returns the service's denial, which carries the
    service's own id, but the plan machine refuses the event - although it accepts
    a grant with another id in the same state. *)
Theorem denial_of_placeholder_request_is_refused :
  exists current d,
    dget "s2" (xs_steps waiting_for_service) = Some current /\
    ss_status current = StepWaitingApproval /\
    (exists i, ss_approval_id current = Some i /\ placeholder_id i = true) /\
    authorize denying None at_125 not_cancelled [] (authorized_step transfer_step transfer_digest)
      waiting_for_service = ([], Ok d) /\
    pd_approved d = Some false /\
    apply_decision None sample_plan waiting_for_service transfer_step d = Err PlanValidationError.
Proof.
  eexists _, _. split_and!; [vm_compute; reflexivity|reflexivity| |vm_compute; reflexivity
    |reflexivity|vm_compute; reflexivity].
  eexists. split; [reflexivity|vm_compute; reflexivity].
Qed.
