(* ===== verification/Messages.v ===== *)
(** * Texts and messages for the model  (src/.../messages.py)

    What the program shows of an error, and the redaction of structured data.  The
    redaction of a text is a set of regular expressions, which are a parameter. *)

From S2P Require Import Prelude PyDict Text PyVal.
From Stdlib Require Import String Ascii NArith.

#[local] Open Scope string_scope.
#[local] Open Scope bool_scope.
#[local] Open Scope Z_scope.

Definition sensitive_key_names : list string :=
  ["apikey"; "authorization"; "authorizationheader"; "authtoken"; "bearertoken"; "clientsecret";
   "clienttoken"; "cookie"; "credential"; "idempotencykey"; "password"; "privatekey";
   "proxyauthorization"; "refreshtoken"; "secret"; "secretkey"; "sessiontoken"; "token"; "xapikey";
   "accesstoken"].

Definition sensitive_key_suffixes : list string :=
  ["accesstoken"; "apikey"; "authtoken"; "bearertoken"; "clientsecret"; "clienttoken"; "cookie";
   "credential"; "password"; "privatekey"; "refreshtoken"; "secret"; "secretkey"; "sessiontoken"].

(** [_normalized_sensitive_key]; a character outside ASCII counts as alphanumeric. *)
Definition is_ascii (ch : string) : bool :=
  match ch with String c EmptyString => N.ltb (N_of_ascii c) 128 | _ => false end.
Definition normalized_sensitive_key (key : string) : string :=
  String.concat "" (List.filter (fun ch => ascii_alnum ch || negb (is_ascii ch))
                      (utf8_chars (casefold_text key))).

(** [s.endswith(p)] *)
Definition ends_with (p s : string) : bool :=
  let n := String.length s in let m := String.length p in
  Nat.leb m n && String.eqb (String.substring (n - m) m s) p.

(** [is_sensitive_key] *)
Definition is_sensitive_key (key : string) : bool :=
  let k := normalized_sensitive_key key in
  mem_str k sensitive_key_names || existsb (fun p => ends_with p k) sensitive_key_suffixes.

(** [message\[:n\]] *)
Definition first_chars (n : nat) (s : string) : string := String.concat "" (firstn n (utf8_chars s)).

Section Redaction.
(** [redact_sensitive_text] *)
Context (redact : string -> string).

(** [redact_sensitive_data] *)
Fixpoint redact_sensitive_data (v : pyval) : pyval :=
  match v with
  | VDict d =>
      VDict ((fix entries (d : pydict) : pydict :=
                match d with
                | [] => []
                | (k, x) :: d' =>
                    (k, if is_sensitive_key k then VStr "<redacted>" else redact_sensitive_data x)
                    :: entries d'
                end) d)
  | VList l => VList (map redact_sensitive_data l)
  | VStr s => VStr (redact s)
  | _ => v
  end.

Definition redacted_details (d : pydict) : pydict :=
  map (fun kv => (fst kv, if is_sensitive_key (fst kv) then VStr "<redacted>"
                          else redact_sensitive_data (snd kv))) d.

Lemma redact_dict d : redact_sensitive_data (VDict d) = VDict (redacted_details d).
Proof. cbn. f_equal. induction d as [|[k v] d IH]; [done|]. cbn. by rewrite IH. Qed.

Lemma redacted_get d k :
  is_sensitive_key k = false ->
  jget (redacted_details d) k = redact_sensitive_data (jget d k).
Proof.
  intros Hk. unfold jget. induction d as [|[k' v] d IH]; [done|]. cbn.
  destruct (String.eqb_spec k k') as [->|]; [by rewrite Hk|done].
Qed.

(** The text of a candidate that is not empty, redacted and cut to 500 characters *)
Definition public_text (candidate fallback : string) : string :=
  let message := redact (strip candidate) in
  let message := if nonempty message then message else fallback in
  if 500 <? py_len message then first_chars 500 message ++ "<truncated>" else message.

(** [public_error_message] of an exception, by its attribute [public_message], and of a
    text *)
Definition error_text (public_message : option string) (fallback : string) : string :=
  public_text match public_message with
              | Some m => if blank m then fallback else m
              | None => fallback
              end fallback.
Definition message_text (message fallback : string) : string :=
  public_text (if nonempty message then message else fallback) fallback.
End Redaction.
