(* ===== verification/Tasks.v ===== *)
(** * Tasks that share a state

    A coroutine of the program is a [Prog]: it is done, or acts at a point where it may
    be suspended and goes on with the answer.  A batch of tasks is run in any order, one
    action at a time ([run_tasks]): once one has failed, or the wait for the batch was
    cut short, the others are cancelled, each where it meets the cancellation.  What the
    actions do to the shared state is left to the component that uses them. *)

From S2P Require Import Prelude.


#[local] Open Scope bool_scope.
#[local] Open Scope Z_scope.

(** ** Programs *)
Section Programs.
Context {action : Type} {answer : action -> Type}.

Inductive Prog (A : Type) : Type :=
| Done (r : res A)
| Act (a : action) (k : res (answer a) -> Prog A).
Arguments Done {A} r.
Arguments Act {A} a k.

Fixpoint sequel {A B : Type} (p : Prog A) (f : res A -> Prog B) : Prog B :=
  match p with
  | Done r => f r
  | Act a k => Act a (fun x => sequel (k x) f)
  end.

(** Going on after a normal end; [sequel] itself is [try: ... except ...]. *)
Definition then_do {A B : Type} (p : Prog A) (f : A -> Prog B) : Prog B :=
  sequel p (fun r => match r with Ok a => f a | Err e => Done (Err e) end).
Definition do_action (a : action) : Prog (answer a) := Act a (fun r => Done r).
Definition return_value {A : Type} (a : A) : Prog A := Done (Ok a).
Definition throw_error {A : Type} (e : exn) : Prog A := Done (Err e).

(** [for x in l: ...] with a loop variable *)
Fixpoint prog_for_each {A B : Type} (f : A -> B -> Prog B) (l : list A) (b : B) : Prog B :=
  match l with
  | [] => return_value b
  | x :: l' => then_do (f x b) (prog_for_each f l')
  end.

(** *** How many actions a program takes *)
Fixpoint within {A : Type} (p : Prog A) (n : nat) : Prop :=
  match p with
  | Done _ => True
  | Act _ k => match n with O => False | S n' => forall r, within (k r) n' end
  end.

Lemma within_mono {A} (p : Prog A) n m : (n <= m)%nat -> within p n -> within p m.
Proof.
  revert n m. induction p as [r|a k IH]; intros n m Hle H; [done|].
  destruct n as [|n]; [done|]. destruct m as [|m]; [lia|]. intros r. eapply IH; [|apply H]. lia.
Qed.

Lemma within_sequel {A B} n m (p : Prog A) (f : res A -> Prog B) :
  within p n -> (forall r, within (f r) m) -> within (sequel p f) (n + m).
Proof.
  intros H Hf. revert n H. induction p as [r|a k IH]; intros n H.
  - eapply within_mono; [|apply Hf]. lia.
  - destruct n as [|n]; [done|]. intros r. apply IH, H.
Qed.

Lemma within_then {A B} n m (p : Prog A) (f : A -> Prog B) :
  within p n -> (forall v, within (f v) m) -> within (then_do p f) (n + m).
Proof. intros H Hf. apply within_sequel; [done|]. by intros [v|e]. Qed.

Lemma within_act a : within (do_action a) 1.
Proof. done. Qed.

Lemma within_done {A B} n (r : res A) (f : A -> Prog B) :
  (forall v, r = Ok v -> within (f v) n) -> within (then_do (Done r) f) n.
Proof. intros H. destruct r as [v|e]; [by apply H|done]. Qed.

Lemma within_act_then {B} n a (f : answer a -> Prog B) :
  (forall v, within (f v) n) -> within (then_do (do_action a) f) (S n).
Proof. intros H. by apply (within_then 1 n). Qed.

Lemma within_act_sequel {B} n a (f : res (answer a) -> Prog B) :
  (forall r, within (f r) n) -> within (sequel (do_action a) f) (S n).
Proof. intros H. by apply (within_sequel 1 n). Qed.

Lemma within_for_each {A B} n (f : A -> B -> Prog B) l :
  (forall x b, within (f x b) n) -> forall b, within (prog_for_each f l b) (n * List.length l).
Proof.
  intros Hf. induction l as [|x l IH]; intros b; [done|]. cbn [List.length]. rewrite Nat.mul_succ_r.
  rewrite Nat.add_comm. by apply within_then.
Qed.

End Programs.
Arguments Prog {action} answer A.
Arguments Done {action answer A} r.
Arguments Act {action answer A} a k.

(** Bounds, as far as single actions go *)
Ltac act_steps :=
  repeat match goal with
         | |- within (Done _) _ => exact I
         | |- within (return_value _) _ => exact I
         | |- within (throw_error _) _ => exact I
         | |- within (do_action _) (S _) => done
         | |- within (then_do (Done _) _) _ => apply within_done; intros ? _
         | |- within (then_do (do_action _) _) (S _) => apply within_act_then; intros ?
         | |- within (sequel (do_action _) _) (S _) => apply within_act_sequel; intros ?
         | |- within (if ?b then _ else _) _ => destruct b
         | |- within (match ?b with _ => _ end) _ => destruct b
         end.

Declare Scope prog_scope.
Delimit Scope prog_scope with prog.
Notation "'do!' x ':=' p 'in' k" := (then_do p (fun x => k))
  (at level 10, x pattern, p at level 100, k at level 200) : prog_scope.

(** ** Computations over the shared state

    A computation ends with a result or an exception; [None] is a loop whose fuel has
    run out. *)
Section Computations.
Context {S : Type}.

Definition exec (A : Type) : Type := S -> option (res A * S).

Definition xlift {A} (r : res A) : exec A := fun x => Some (r, x).
Definition xret {A} (a : A) : exec A := xlift (Ok a).
Definition xcatch {A B} (m : exec A) (k : res A -> exec B) : exec B :=
  fun x => match m x with Some (r, x') => k r x' | None => None end.
Definition xbind {A B} (m : exec A) (k : A -> exec B) : exec B :=
  xcatch m (fun r => match r with Ok a => k a | Err e => xlift (Err e) end).

(** [for x in l: ...] with a loop variable *)
Definition run_for_each {A B : Type} (f : A -> B -> exec B) : list A -> B -> exec B :=
  fix each (l : list A) (s : B) : exec B :=
    match l with
    | [] => xret s
    | a :: l' => xbind (f a s) (each l')
    end.
End Computations.
Arguments exec S A : clear implicits.

Declare Scope exec_scope.
Delimit Scope exec_scope with exec.
Notation "'run!' x ':=' m 'in' k" := (xbind m (fun x => k))
  (at level 10, x pattern, m at level 100, k at level 200) : exec_scope.

(** ** Batches *)
Section Batches.
Context {action : Type} {answer : action -> Type} {S : Type}.
(** What an action does to the state and what it answers *)
Context (perform : forall a : action, S -> res (answer a) * S).
(** Which unfinished task goes on, whether the wait for the batch is cut short, and
    whether the task meets the cancellation of the batch, which [interrupted] notes *)
Context (schedule : S -> nat) (stops : S -> option exn) (interrupts : S -> bool).
Context (interrupted : nat -> S -> S).

(** A program with nothing in between *)
Fixpoint run_prog {A : Type} (p : Prog answer A) (x : S) : res A * S :=
  match p with
  | Done r => (r, x)
  | Act a k => let (r, x') := perform a x in run_prog (k r) x'
  end.

Section OfTasks.
Context {A : Type}.

Definition unfinished (p : Prog answer A) : bool := match p with Act _ _ => true | Done _ => false end.

(** The indices of the tasks that are not done *)
Definition live_tasks (tasks : list (Prog answer A)) : list nat :=
  List.filter (fun i => match tasks !! i with Some p => unfinished p | None => false end)
    (seq 0 (List.length tasks)).

(** The exception with which a task ended, if it is the first *)
Definition first_failure (failed : option exn) (p : Prog answer A) : option exn :=
  match failed, p with None, Done (Err e) => Some e | _, _ => failed end.

(** The failure with which a batch starts: a task may fail before it acts. *)
Definition failed_first (tasks : list (Prog answer A)) : option exn := fold_left first_failure tasks None.

(** What the tasks returned *)
Definition task_values (tasks : list (Prog answer A)) : list A :=
  omap (fun p => match p with Done (Ok a) => Some a | _ => None end) tasks.

Definition batch_result (failed : option exn) (tasks : list (Prog answer A)) : res (list A) :=
  match failed with None => Ok (task_values tasks) | Some e => Err e end.

(** [asyncio.gather] of the tasks of a batch: they run in any order until all are done.
    Once one has failed, or the wait was cut short, the others are cancelled: each may
    still go on to the point where it meets the cancellation. *)
Fixpoint run_tasks (fuel : nat) (failed : option exn) (tasks : list (Prog answer A))
  : exec S (list A) := fun x =>
  match live_tasks tasks with
  | [] => Some (batch_result failed tasks, x)
  | first :: more =>
      match fuel with
      | O => None
      | Datatypes.S fuel' =>
          match failed, stops x with
          | None, Some e => run_tasks fuel' (Some e) tasks x
          | _, _ =>
              let i := nth (schedule x mod Datatypes.S (List.length more))%nat (first :: more) first in
              match tasks !! i with
              | Some (Act a k) =>
                  if is_some failed && interrupts x then
                    run_tasks fuel' failed (<[i := Done (Err CancelledError)]> tasks) (interrupted i x)
                  else
                    let (r, x') := perform a x in
                    run_tasks fuel' (first_failure failed (k r)) (<[i := k r]> tasks) x'
              | _ => None
              end
          end
      end
  end.

Lemma live_spec tasks i :
  i ∈ live_tasks tasks <-> exists a k, tasks !! i = Some (Act a k).
Proof.
  unfold live_tasks. rewrite list_elem_of_In, List.filter_In, List.in_seq. split.
  - intros [_ H]. destruct (tasks !! i) as [[|a k]|] eqn:E; [done| |done]. by exists a, k.
  - intros (a & k & E). rewrite E. split; [|done]. apply lookup_lt_Some in E. lia.
Qed.

Lemma not_live tasks i p :
  live_tasks tasks = [] -> tasks !! i = Some p -> exists r, p = Done r.
Proof.
  intros El Hi. destruct p as [r|a k]; [by exists r|].
  assert (i ∈ live_tasks tasks) as Hl by (apply live_spec; eauto). rewrite El in Hl.
  by apply elem_of_nil in Hl.
Qed.

Lemma scheduled_live tasks first more n :
  live_tasks tasks = first :: more ->
  exists a k, tasks !! nth (n mod Datatypes.S (List.length more)) (first :: more) first = Some (Act a k).
Proof.
  intros H. apply live_spec. rewrite H. apply list_elem_of_In, nth_In. cbn [List.length].
  apply Nat.mod_upper_bound. lia.
Qed.

Lemma first_failure_none failed q :
  first_failure failed q = None -> failed = None /\ forall e, q <> Done (Err e).
Proof. destruct failed, q as [[]|]; cbn; naive_solver. Qed.

Lemma failed_first_none tasks : failed_first tasks = None -> forall i e, tasks !! i <> Some (Done (Err e)).
Proof.
  assert (H : forall l failed, fold_left first_failure l failed = None ->
                failed = None /\ Forall (fun q => forall e, q <> Done (Err e)) l).
  { induction l as [|q l IH]; intros failed H; [done|]. cbn in H.
    destruct (IH _ H) as [H1 H2]. apply first_failure_none in H1 as [-> H1]. by split; [|constructor]. }
  intros [_ Hall]%H i e Hi. by apply (Forall_lookup_1 _ _ _ _ Hall Hi e).
Qed.

Lemma sum_insert (ns : list nat) i n n' :
  ns !! i = Some n -> (list_sum (<[i := n']> ns) + n = list_sum ns + n')%nat.
Proof.
  unfold list_sum. revert i. induction ns as [|m ns IH]; intros [|i] H; cbn in *; try done.
  - injection H as ->. lia.
  - rewrite <- !Nat.add_assoc. exact (f_equal (Nat.add m) (IH i H)).
Qed.

(** *** A batch ends

    However the tasks are interleaved and wherever the batch is cut short, it ends within
    the bounds of its tasks, and what every action and every cancellation keeps holds at
    the end. *)
Context (Inv : option exn -> list (Prog answer A) -> S -> Prop).
Context (Hstop : forall tasks x e, Inv None tasks x -> stops x = Some e -> Inv (Some e) tasks x).
Context (Hinterrupt : forall failed tasks x i, failed <> None -> (i < List.length tasks)%nat ->
  Inv failed tasks x -> Inv failed (<[i := Done (Err CancelledError)]> tasks) (interrupted i x)).
Context (Hact : forall failed tasks x i a k r x', Inv failed tasks x ->
  tasks !! i = Some (Act a k) -> perform a x = (r, x') ->
  Inv (first_failure failed (k r)) (<[i := k r]> tasks) x').

Lemma run_tasks_ends fuel : forall failed tasks x ns,
  Inv failed tasks x -> Forall2 within tasks ns ->
  (list_sum ns + (if is_some failed then 0 else 1) <= fuel)%nat ->
  exists failed' tasks' x',
    run_tasks fuel failed tasks x = Some (batch_result failed' tasks', x') /\
    live_tasks tasks' = [] /\ Inv failed' tasks' x'.
Proof.
  induction fuel as [|fuel IH]; intros failed tasks x ns Hb Hn Hle.
  - destruct (live_tasks tasks) as [|first more] eqn:El.
    + exists failed, tasks, x. cbn. rewrite El. by split_and!.
    + destruct (scheduled_live _ _ _ 0 El) as (a & k & Hi).
      destruct (Forall2_lookup_l _ _ _ _ _ Hn Hi) as (n & Hni & Hw).
      destruct n as [|n]; [done|]. pose proof (sum_insert ns _ _ O Hni). lia.
  - cbn [run_tasks]. destruct (live_tasks tasks) as [|first more] eqn:El.
    { exists failed, tasks, x. by split_and!. }
    destruct (scheduled_live _ _ _ (schedule x) El) as (a & k & Hi).
    set (i := nth _ _ _) in *.
    destruct (Forall2_lookup_l _ _ _ _ _ Hn Hi) as (n & Hni & Hw).
    destruct n as [|n]; [done|]. cbn [within] in Hw. rewrite Hi.
    assert (Hgo : exists failed' tasks' x',
      (if is_some failed && interrupts x then
         run_tasks fuel failed (<[i := Done (Err CancelledError)]> tasks) (interrupted i x)
       else let (r, x') := perform a x in
            run_tasks fuel (first_failure failed (k r)) (<[i := k r]> tasks) x')
      = Some (batch_result failed' tasks', x') /\ live_tasks tasks' = [] /\ Inv failed' tasks' x').
    { pose proof (sum_insert ns _ _ n Hni) as Hsum.
      destruct (is_some failed && interrupts x) eqn:Eint.
      - apply andb_true_iff in Eint as [Ef _]. apply (IH _ _ _ (<[i := n]> ns)); [| |lia].
        + apply Hinterrupt; [by destruct failed|by eapply lookup_lt_Some|done].
        + by apply Forall2_insert.
      - destruct (perform a x) as [r x1] eqn:Ep. apply (IH _ _ _ (<[i := n]> ns)).
        + by eapply Hact.
        + apply Forall2_insert; [done|apply Hw].
        + destruct failed, (k r) as [[]|]; cbn in *; lia. }
    destruct failed as [e|]; [done|]. destruct (stops x) as [e|] eqn:Es; [|done].
    apply (IH _ _ _ ns); [by apply Hstop|done|cbn in *; lia].
Qed.
End OfTasks.
End Batches.
Arguments unfinished {action answer A} p.

(** * Reasoning about tasks

    The rules for the programs, computations and batches of [Tasks]: what a program does
    under a rule for each of its actions ([prog_ok]), what a computation ends with
    ([ends]), and, for batches whatever the interleaving, what becomes of the traces of
    their tasks ([run_tasks_traces]). *)

(** ** Programs under a rule for their actions *)
Section Rules.
Context {action : Type} {answer : action -> Type} {G : Type}.

(** [allows a g k]: with [g] known, the action [a] may be taken, and whatever it answers,
    [k] holds of the answer and of what is known then. *)
Record ActionRule := mkActionRule {
  allows : forall a : action, G -> (res (answer a) -> G -> Prop) -> Prop;
  allows_mono : forall a g (k k' : res (answer a) -> G -> Prop),
    (forall r g', k r g' -> k' r g') -> allows a g k -> allows a g k'
}.
Context (R : ActionRule).

(** A program keeps to the rule and ends in [post]. *)
Fixpoint prog_ok {A : Type} (post : res A -> G -> Prop) (p : Prog answer A) (g : G) : Prop :=
  match p with
  | Done r => post r g
  | Act a k => allows R a g (fun x g' => prog_ok post (k x) g')
  end.

Lemma prog_ok_sequel {A B} (post : res B -> G -> Prop) (p : Prog answer A)
    (f : res A -> Prog answer B) g :
  prog_ok (fun r g' => prog_ok post (f r) g') p g -> prog_ok post (sequel p f) g.
Proof.
  revert g. induction p as [r|a k IH]; intros g H; [done|]. cbn in *.
  eapply allows_mono; [|exact H]. intros r g' Hr. by apply IH.
Qed.

Lemma prog_ok_mono {A} (post post' : res A -> G -> Prop) (p : Prog answer A) g :
  (forall r g', post r g' -> post' r g') -> prog_ok post p g -> prog_ok post' p g.
Proof.
  intros H. revert g. induction p as [r|a k IH]; intros g Hp; [by apply H|]. cbn in *.
  eapply allows_mono; [|exact Hp]. intros r g' Hr. by apply IH.
Qed.

(** A failure before the end is a failure. *)
Lemma prog_ok_then {A B} (post : res B -> G -> Prop) (p : Prog answer A) (f : A -> Prog answer B) g :
  prog_ok (fun r g' => match r with Ok a => prog_ok post (f a) g' | Err e => post (Err e) g' end) p g ->
  prog_ok post (then_do p f) g.
Proof.
  intros H. apply prog_ok_sequel. eapply prog_ok_mono; [|exact H]. by intros [a|e] g'.
Qed.

(** An action that may answer anything and tells nothing *)
Lemma prog_ok_ask {B} a (post : res B -> G -> Prop) (f : answer a -> Prog answer B) g :
  (forall k, (forall r, k r g) -> allows R a g k) ->
  (forall v, prog_ok post (f v) g) -> (forall e, post (Err e) g) ->
  prog_ok post (then_do (do_action a) f) g.
Proof.
  intros Ha Hv He. apply prog_ok_then. apply Ha. intros [v|e]; [apply Hv|apply He].
Qed.

Lemma prog_ok_done {A B} (post : res B -> G -> Prop) (r : res A) (f : A -> Prog answer B) g :
  match r with Ok a => prog_ok post (f a) g | Err e => post (Err e) g end ->
  prog_ok post (then_do (Done r) f) g.
Proof. intros H. by apply prog_ok_then. Qed.

(** A loop over a list: [I] holds of what is left. *)
Lemma prog_ok_for_each {A B} (f : A -> B -> Prog answer B) (I : list A -> B -> G -> Prop)
    (E : exn -> G -> Prop) :
  (forall a l s g, I (a :: l) s g ->
     prog_ok (fun r g' => match r with Ok s' => I l s' g' | Err e => E e g' end) (f a s) g) ->
  forall l s g, I l s g ->
  prog_ok (fun r g' => match r with Ok s' => I [] s' g' | Err e => E e g' end) (prog_for_each f l s) g.
Proof.
  intros Hf l. induction l as [|a l IH]; intros s g H; [done|].
  cbn [prog_for_each]. apply prog_ok_then. eapply prog_ok_mono; [|by apply Hf].
  intros [s'|e] g' H'; [by apply IH|done].
Qed.
End Rules.
Arguments ActionRule {action} answer G.

(** ** Computations that end *)
Section Computations.
Context {S : Type}.

(** [m] ends, with a result and a state in [Q]. *)
Definition ends {A : Type} (m : exec S A) (x : S) (Q : res A -> S -> Prop) : Prop :=
  exists r x', m x = Some (r, x') /\ Q r x'.

Lemma ends_lift {A} (r : res A) x Q : Q r x -> ends (xlift r) x Q.
Proof. intros H. by exists r, x. Qed.

Lemma ends_catch {A B} (m : exec S A) (k : res A -> exec S B) x Q :
  ends m x (fun r x' => ends (k r) x' Q) -> ends (xcatch m k) x Q.
Proof. intros (r & x' & Hm & r' & x'' & Hk & H). exists r', x''. unfold xcatch. by rewrite Hm. Qed.

Lemma ends_bind {A B} (m : exec S A) (k : A -> exec S B) x Q :
  ends m x (fun r x' => match r with Ok a => ends (k a) x' Q | Err e => Q (Err e) x' end) ->
  ends (xbind m k) x Q.
Proof.
  intros (r & x' & Hm & H). apply ends_catch. exists r, x'. split; [done|].
  destruct r; [done|]. by apply ends_lift.
Qed.

Lemma ends_mono {A} (m : exec S A) x (Q Q' : res A -> S -> Prop) :
  (forall r x', Q r x' -> Q' r x') -> ends m x Q -> ends m x Q'.
Proof. intros H (r & x' & Hm & HQ). exists r, x'. auto. Qed.

Lemma ends_lift_bind {A B} (r : res A) (k : A -> exec S B) x Q :
  match r with Ok a => ends (k a) x Q | Err e => Q (Err e) x end -> ends (xbind (xlift r) k) x Q.
Proof. intros H. apply ends_bind, ends_lift. exact H. Qed.

(** A loop over a list: [I] holds of what is left. *)
Lemma ends_for_each {A B} (f : A -> B -> exec S B) (I : list A -> B -> S -> Prop)
    (E : exn -> S -> Prop) :
  (forall a l s x, I (a :: l) s x ->
     ends (f a s) x (fun r x' => match r with Ok s' => I l s' x' | Err e => E e x' end)) ->
  forall l s x, I l s x ->
  ends (run_for_each f l s) x (fun r x' => match r with Ok s' => I [] s' x' | Err e => E e x' end).
Proof.
  intros Hf l. induction l as [|a l IH]; intros s x H; [by apply ends_lift|].
  cbn [run_for_each]. apply ends_bind. eapply ends_mono; [|by apply Hf].
  intros [s'|e] x' H'; [by apply IH|done].
Qed.
End Computations.

(** ** The traces of programs

    What a program itself has done, newest first, as the only thing that is known of it:
    [I] holds at every point. *)
Section Traces.
Context {action : Type} {answer : action -> Type} {E : Type}.
Context (did : forall a : action, res (answer a) -> E).

Definition trace_rule (I : list E -> Prop) : ActionRule answer (list E).
Proof.
  refine (mkActionRule (fun a t k => forall r, I (did a r :: t) /\ k r (did a r :: t)) _).
  intros a t k k' H Hk r. destruct (Hk r). auto.
Defined.

Lemma traces_mono {A} (I I' : list E -> Prop) (Q : res A -> list E -> Prop) p t :
  (forall t', I t' -> I' t') -> prog_ok (trace_rule I) Q p t -> prog_ok (trace_rule I') Q p t.
Proof.
  intros HI. revert t. induction p as [r|a k IH]; intros t H; [done|].
  intros r. destruct (H r) as [H1 H2]. split; [auto|by apply IH].
Qed.

(** A trace only grows. *)
Lemma traces_grow {A} I (Q : res A -> list E -> Prop) p t :
  prog_ok (trace_rule I) Q p t -> prog_ok (trace_rule I) (fun r t' => Q r t' /\ t ⊆ t') p t.
Proof.
  revert t. induction p as [r|a k IH]; intros t H; [done|]. intros r. destruct (H r) as [H1 H2].
  split; [done|]. eapply prog_ok_mono; [|by apply IH]. intros r' t' [H3 H4]. split; [done|].
  intros e He. apply H4. by right.
Qed.

(** *** Running them *)
Context {S : Type} (perform : forall a : action, S -> res (answer a) * S).

(** The state after the traces of some tasks *)
Context (J : list (list E) -> S -> Prop).
Context (Hperform : forall ts i t x a r x', J ts x -> ts !! i = Some t ->
  perform a x = (r, x') -> J (<[i := did a r :: t]> ts) x').

Lemma run_prog_traces {A} I (Q : res A -> list E -> Prop) p : forall x r x' t,
  run_prog perform p x = (r, x') -> J [t] x -> I t -> prog_ok (trace_rule I) Q p t ->
  exists t', J [t'] x' /\ I t' /\ Q r t'.
Proof.
  induction p as [r0|a k IH]; intros x r x' t Hrun HJ HI Hp; cbn in Hrun, Hp.
  - injection Hrun as <- <-. by exists t.
  - destruct (perform a x) as [r1 x1] eqn:Ep. destruct (Hp r1) as [H1 H2].
    by apply (IH _ _ _ _ _ Hrun (Hperform _ 0 _ _ _ _ _ HJ eq_refl Ep)).
Qed.

Context (schedule : S -> nat) (stops : S -> option exn) (interrupts : S -> bool).
Context (interrupted : nat -> S -> S).
Context (Hinterrupted : forall ts i x, J ts x -> J ts (interrupted i x)).

Section Batch.
Context {A : Type} (I : nat -> list E -> Prop) (Q : nat -> res A -> list E -> Prop).

(** A task is where its trace led it, or was cancelled there. *)
Definition task_at (failed : option exn) (i : nat) (p : Prog answer A) (t : list E) : Prop :=
  I i t /\ (prog_ok (trace_rule (I i)) (Q i) p t
            \/ failed <> None /\ p = Done (Err CancelledError)).

Record traced (failed : option exn) (tasks : list (Prog answer A)) (ts : list (list E)) (x : S)
  : Prop := {
  td_state : J ts x;
  td_length : List.length ts = List.length tasks;
  td_tasks : forall i p t, tasks !! i = Some p -> ts !! i = Some t -> task_at failed i p t;
  td_failed : failed = None -> forall i e, tasks !! i <> Some (Done (Err e))
}.

Lemma traced_acted failed tasks ts x i a k r x' :
  traced failed tasks ts x -> tasks !! i = Some (Act a k) -> perform a x = (r, x') ->
  exists ts', traced (first_failure failed (k r)) (<[i := k r]> tasks) ts' x'.
Proof.
  intros [HJ Hlen Htasks Hf] Hi Ep.
  assert (exists t, ts !! i = Some t) as [t Ht].
  { apply lookup_lt_is_Some. rewrite Hlen. by eapply lookup_lt_Some. }
  exists (<[i := did a r :: t]> ts). constructor.
  - by eapply Hperform.
  - by rewrite !length_insert.
  - intros j p t' Hj Ht'. destruct (decide (i = j)) as [<-|Hne].
    + rewrite list_lookup_insert_eq in Hj by (by eapply lookup_lt_Some).
      rewrite list_lookup_insert_eq in Ht' by (by eapply lookup_lt_Some). simplify_eq.
      destruct (Htasks _ _ _ Hi Ht) as [_ [H|[_ H]]]; [|done].
      destruct (H r) as [H1 H2]. split; [done|by left].
    + rewrite list_lookup_insert_ne in Hj by done. rewrite list_lookup_insert_ne in Ht' by done.
      destruct (Htasks _ _ _ Hj Ht') as [HI [H|[H ->]]]; split; try done; [by left|].
      right. split; [|done]. by destruct failed.
  - intros Hnone j e Hj. apply first_failure_none in Hnone as [Hnone Hk].
    destruct (decide (i = j)) as [<-|Hne].
    + rewrite list_lookup_insert_eq in Hj by (by eapply lookup_lt_Some). injection Hj. apply Hk.
    + rewrite list_lookup_insert_ne in Hj by done. by eapply Hf.
Qed.

Lemma traced_interrupted failed tasks ts x i :
  failed <> None -> traced failed tasks ts x ->
  traced failed (<[i := Done (Err CancelledError)]> tasks) ts (interrupted i x).
Proof.
  intros Hfail [HJ Hlen Htasks Hf]. constructor; [by apply Hinterrupted|by rewrite length_insert| |done].
  intros j p t Hj Ht. apply list_lookup_insert_Some in Hj as [(<- & <- & Hi)|[Hne Hj]].
  - apply lookup_lt_is_Some in Hi as [q Hq]. split; [|by right]. by apply (Htasks _ _ _ Hq Ht).
  - by apply Htasks.
Qed.

(** What the tasks returned *)
Lemma task_values_spec (tasks : list (Prog answer A)) :
  live_tasks tasks = [] -> (forall i e, tasks !! i <> Some (Done (Err e))) ->
  List.length (task_values tasks) = List.length tasks /\
  forall i v, task_values tasks !! i = Some v -> tasks !! i = Some (Done (Ok v)).
Proof.
  intros Hlive Herr.
  assert (Hall : Forall (fun p => exists v, p = Done (Ok v)) tasks).
  { apply Forall_lookup. intros i p Hp. destruct (not_live _ _ _ Hlive Hp) as [[v|e] ->]; [by exists v|].
    by destruct (Herr i e). }
  clear Hlive Herr. unfold task_values. induction Hall as [|p l [v ->] _ IH]; [done|]. cbn.
  destruct IH as [Hn IH]. split; [by f_equal|]. intros [|i] w H; cbn in *; [congruence|by apply IH].
Qed.

(** However the tasks of a batch are interleaved, they end, each with its own trace. *)
Lemma run_tasks_traces fuel (tasks : list (Prog answer A)) x ns :
  Forall2 within tasks ns -> (list_sum ns < fuel)%nat ->
  J (replicate (List.length tasks) []) x ->
  (forall i p, tasks !! i = Some p -> I i [] /\ prog_ok (trace_rule (I i)) (Q i) p []) ->
  ends (run_tasks perform schedule stops interrupts interrupted fuel (failed_first tasks) tasks) x (fun r x' =>
    exists ts, J ts x' /\ List.length ts = List.length tasks /\ (forall i t, ts !! i = Some t -> I i t) /\
      forall vs, r = Ok vs -> List.length vs = List.length tasks /\
        forall i t v, ts !! i = Some t -> vs !! i = Some v -> Q i (Ok v) t).
Proof.
  intros Hns Hfuel HJ Htasks.
  destruct (run_tasks_ends perform schedule stops interrupts interrupted
    (fun failed tasks' x => List.length tasks' = List.length tasks /\ exists ts, traced failed tasks' ts x))
    with (fuel := fuel) (failed := failed_first tasks) (tasks := tasks) (x := x) (ns := ns)
    as (failed' & tasks' & x' & Hrun & Hlive & Hlen & ts & Htraced).
  - intros tasks' x0 e [Hlen (ts & [H1 H2 H3 H4])] _. split; [done|]. exists ts. constructor; [done..| |done].
    intros i p t Hp Ht. destruct (H3 _ _ _ Hp Ht) as [HI [H|[H _]]]; [split; auto|done].
  - intros failed tasks' x0 i Hf _ [Hlen (ts & Ht)]. split; [by rewrite length_insert|].
    exists ts. by apply traced_interrupted.
  - intros failed tasks' x0 i a k r x' [Hlen (ts & Ht)] Hi Ep. split; [by rewrite length_insert|].
    by eapply traced_acted.
  - split; [done|]. exists (replicate (List.length tasks) []). constructor; [done|by rewrite length_replicate| |].
    + intros i p t Hp [-> _]%lookup_replicate. destruct (Htasks _ _ Hp) as (H1 & H2). split; auto.
    + apply failed_first_none.
  - done.
  - destruct (is_some (failed_first tasks)); lia.
  - exists (batch_result failed' tasks'), x'. split; [done|]. exists ts.
    destruct Htraced as [H1 H2 H3 H4]. split_and!; [done|congruence| |].
    + intros i t Ht. assert (exists p, tasks' !! i = Some p) as [p Hp].
      { apply lookup_lt_is_Some. rewrite <- H2. by eapply lookup_lt_Some. }
      by destruct (H3 _ _ _ Hp Ht).
    + intros vs Hvs. destruct failed' as [e|]; [done|]. injection Hvs as <-.
      destruct (task_values_spec tasks' Hlive (H4 eq_refl)) as [Hn Hv]. split; [congruence|].
      intros i t v Ht Hvi%Hv. by destruct (H3 _ _ _ Hvi Ht) as [_ [H|[H _]]].
Qed.
End Batch.
End Traces.
