(* ===== verification/PlanExecutor.v ===== *)
(** * The plan executor  (src/.../planning/executor.py)

    The executor takes a plan through its steps: it skips what failed dependencies
    block, has steps approved, and runs what is ready in batches of concurrent tasks.
    A task is a program over the actions at which it may be suspended ([Prog]), so that
    a batch can interleave its tasks in any order.  Everything outside - the event sink,
    the handler of a step, the approval service, clocks, cancellation and the scheduler -
    is a [PlanWorld], which answers from the history of what has happened so far. *)

From S2P Require Import Prelude Tasks PyDict Text PyVal Messages Json Sha256 OperationStore Service Approvals.
From S2P Require Import PlanTypes PlanGraph PlanValidator PlanState PlanDataflow PlanApproval.
From Stdlib Require Import String.

#[local] Open Scope string_scope.
#[local] Open Scope bool_scope.
#[local] Open Scope Z_scope.
#[local] Open Scope prog_scope.
#[local] Open Scope exec_scope.
#[local] Arguments blank : simpl never.

(** ** Values *)

(** [PlanStepExecutionContext]; the reserver of tool attempts is a closure over the
    number of the step's attempt. *)
Record PlanStepExecutionContext := mkContext {
  pc_plan_id : string;
  pc_step : PlanStep;
  pc_resolved_arguments : pydict;
  pc_dependency_results : pydict;
  pc_approval_receipt : option PlanApprovalReceipt;
  pc_identity : option VerifiedIdentity;
  pc_fencing_token : option Z;
  pc_fencing_scope : option string;
  pc_authorization_action_hash : option string;
  pc_fenced_claim : option ClaimLease;
  pc_fenced_claim_lease_seconds : option pyfloat;
  pc_tool_attempt_reserver : option Z
}.

(** [lease_seconds <= 0] *)
Definition not_positive (f : pyfloat) : bool := num_le (NFloat f) (NInt 0).

(** [PlanStepExecutionContext.__post_init__] *)
Definition context_ok (c : PlanStepExecutionContext) : res unit :=
  check! non_empty (pc_plan_id c) in
  check! require_json (VDict (pc_resolved_arguments c)) in
  check! require_json (VDict (pc_dependency_results c)) in
  check! match pc_fencing_token c with Some n => demand (1 <=? n) | None => Ok tt end in
  check! match pc_fencing_scope c with Some s => non_empty s | None => Ok tt end in
  check! match pc_fenced_claim c, pc_fenced_claim_lease_seconds c with
         | Some claim, lease =>
             check! demand (bool_decide (pc_fencing_token c = Some (cl_generation claim))) in
             demand match lease with Some f => negb (not_positive f) | None => false end
         | None, Some _ => Err PlanValidationError
         | None, None => Ok tt
         end in
  match pc_authorization_action_hash c with
  | Some h => demand (is_sha256 h)
  | None => Ok tt
  end.

(** [replace(context, authorization_action_hash=h)] *)
Definition with_action_hash (h : string) (c : PlanStepExecutionContext) : PlanStepExecutionContext :=
  mkContext (pc_plan_id c) (pc_step c) (pc_resolved_arguments c) (pc_dependency_results c)
    (pc_approval_receipt c) (pc_identity c) (pc_fencing_token c) (pc_fencing_scope c) (Some h)
    (pc_fenced_claim c) (pc_fenced_claim_lease_seconds c) (pc_tool_attempt_reserver c).

(** [replace(context, tool_attempt_reserver=...)] *)
Definition with_reserver (attempt : Z) (c : PlanStepExecutionContext) : PlanStepExecutionContext :=
  mkContext (pc_plan_id c) (pc_step c) (pc_resolved_arguments c) (pc_dependency_results c)
    (pc_approval_receipt c) (pc_identity c) (pc_fencing_token c) (pc_fencing_scope c)
    (pc_authorization_action_hash c) (pc_fenced_claim c) (pc_fenced_claim_lease_seconds c)
    (Some attempt).

(** [replace(step, arguments=..., argument_bindings=(), preconditions=())] *)
Definition resolved_step (step : PlanStep) (arguments : pydict) : PlanStep :=
  mkStep (ps_step_id step) (ps_intent step) arguments (ps_depends_on step) (ps_rules step)
    [] [] (ps_execution_action_hash step).

(** What the step executor is: its signature and its attributes *)
Record StepExecutor := mkStepExecutor {
  se_accepts_execution_context : bool;
  se_accepts_fencing_token : bool;
  se_builds_authorization_action : bool;
  se_counts_as_tool_call : bool;
  se_supports_tool_attempt_admission : bool
}.

(** What is passed to it *)
Record Dispatch := mkDispatch {
  ds_step : PlanStep;
  ds_context : option PlanStepExecutionContext;
  ds_fencing_token : option (option Z)
}.

(** What an exception shows of itself: its class and its cause, and attributes *)
Record ErrorFacts := mkFacts {
  ef_type_name : string;
  ef_cause_type : option string;
  ef_public_message : option string;
  ef_durably_failed : bool;
  ef_definitely_not_committed : bool;
  ef_outcome_unknown : bool
}.

(** ** Programs *)

(** The points at which a task looks at or acts on what others see *)
Inductive action : Type :=
| ReadState
| TransitionTo (type step_id : string) (data : pydict)
| LookAtToken
| ReadClock
| BuildAction (step : PlanStep) (context : PlanStepExecutionContext)
| ReserveResources (step : PlanStep) (step_attempt : Z) (tool_attempt : option Z)
| CallStep (d : Dispatch)
| DescribeError (e : exn).

Definition action_answer (a : action) : Type :=
  match a with
  | ReadState => PlanExecutionState
  | ReadClock | BuildAction _ _ | CallStep _ => pyval
  | DescribeError _ => ErrorFacts
  | TransitionTo _ _ _ | LookAtToken | ReserveResources _ _ _ => unit
  end.

Abbreviation Prog := (Tasks.Prog action_answer).
Abbreviation do_action := (Tasks.do_action (answer := action_answer)).

Definition record_event (ty step_id : string) (data : pydict) : Prog unit :=
  do_action (TransitionTo ty step_id data).

Definition read_step (step_id : string) : Prog PlanStepState :=
  do! st := do_action ReadState in Done (step_state st step_id).

(** ** The executor *)

(** What it is built with *)
Record PlanExecutor := mkExecutor {
  px_plan : MultiIntentPlan;
  px_policies : policy_catalog;
  px_step_executor : StepExecutor;
  px_max_parallel_steps : Z;
  px_fail_fast : bool;
  px_fencing_token : option Z;
  px_fencing_scope : option string;
  px_identity : option VerifiedIdentity;
  px_fenced_claim : option ClaimLease;
  px_fenced_claim_lease_seconds : option pyfloat
}.

Definition argument_check (b : bool) : res unit := if b then Ok tt else Err ValueError.

(** A positive integer that is not a bool *)
Definition positive_integer (v : pyval) : res Z :=
  match v with VInt n => check! argument_check (1 <=? n) in Ok n | _ => Err ValueError end.

(** [float(fenced_claim_lease_seconds)] after its check *)
Definition lease_seconds (v : pyval) : res pyfloat :=
  match v with
  | VInt n => check! argument_check (1 <=? n) in
              match float_of_int n with Some f => Ok f | None => Err OverflowError end
  | VFloat f => check! argument_check (negb (not_positive f)) in Ok f
  | _ => Err ValueError
  end.

(** [PlanExecutor.__init__] *)
Definition plan_executor (plan : MultiIntentPlan) (policies : policy_catalog)
    (step_executor : StepExecutor) (max_parallel_steps : pyval) (fail_fast : bool)
    (fencing_token fencing_scope : pyval) (identity : option VerifiedIdentity)
    (fenced_claim : option ClaimLease) (fenced_claim_lease_seconds : pyval) : res PlanExecutor :=
  let! parallel := positive_integer max_parallel_steps in
  let! _ := validate_plan policies plan in
  let! token := match fencing_token with
                | VNone => Ok None
                | v => let! n := positive_integer v in Ok (Some n)
                end in
  let! scope := match fencing_scope with
                | VNone => Ok None
                | VStr s => check! argument_check (negb (blank s)) in Ok (Some s)
                | _ => Err ValueError
                end in
  let! lease := match fenced_claim, fenced_claim_lease_seconds with
                | Some claim, v =>
                    check! argument_check (bool_decide (token = Some (cl_generation claim))) in
                    let! f := lease_seconds v in Ok (Some f)
                | None, VNone => Ok None
                | None, _ => Err ValueError
                end in
  Ok (mkExecutor plan policies step_executor parallel fail_fast token scope identity
        fenced_claim lease).

Section Tasks.
Context (X : PlanExecutor).
(** [redact_sensitive_text] (messages.py) is a set of regular expressions. *)
Context (redact : string -> string).

(** ** What is recorded of an error *)

(** [public_error_message] (messages.py) of an exception *)
Definition public_error_message (f : ErrorFacts) (fallback : string) : string :=
  error_text redact (ef_public_message f) fallback.

(** [_exception_event_data] *)
Definition exception_event_data (f : ErrorFacts) (code fallback : string) : pydict :=
  ([("errorCode", VStr code); ("error", VStr (public_error_message f fallback));
    ("errorType", VStr (ef_type_name f))]
   ++ match ef_cause_type f with Some c => [("causeType", VStr c)] | None => [] end)%list.

Definition record_error (ty step_id : string) (e : exn) (code fallback : string) : Prog unit :=
  do! facts := do_action (DescribeError e) in
  record_event ty step_id (exception_event_data facts code fallback).

(** [except (PlanExecutionError, PlanValidationError)] *)
Definition plan_error (e : exn) : bool :=
  match e with PlanExecutionError | PlanValidationError => true | _ => false end.

(** [except Exception], after [except (asyncio.CancelledError, OperationCancelledError)] *)
Definition ordinary_error (e : exn) : bool :=
  is_exception e && negb (bool_decide (e = OperationCancelledError)).

(** ** What a step is given *)

(** The payload that is hashed where the step executor builds none *)
Definition authorization_payload (step : PlanStep) (c : PlanStepExecutionContext) : pydict :=
  [("planId", VStr (pl_plan_id (px_plan X))); ("stepId", VStr (ps_step_id step));
   ("intent", VStr (ps_intent step)); ("arguments", VDict (pc_resolved_arguments c));
   ("write", VBool (sr_write (ps_rules step)));
   ("replayPolicy", VStr (replay_policy_str (sr_replay_policy (ps_rules step))));
   ("capabilities", texts_value (sr_capabilities (ps_rules step)))].

(** The hash of a payload *)
Definition payload_hash (payload : pyval) : res string :=
  match payload with VDict _ => result_digest payload | _ => Err PlanExecutionError end.

(** [_authorization_action_hash] where there is no builder *)
Definition plain_action_hash (step : PlanStep) (c : PlanStepExecutionContext) : res string :=
  if is_nil (ps_argument_bindings step)
     && py_eq (VDict (pc_resolved_arguments c)) (VDict (ps_arguments step))
  then step_action_hash step
  else payload_hash (VDict (authorization_payload step c)).

(** [_authorization_action_hash] *)
Definition authorization_action_hash (step : PlanStep) (c : PlanStepExecutionContext) : Prog string :=
  if se_builds_authorization_action (px_step_executor X) then
    do! payload := do_action (BuildAction step c) in Done (payload_hash payload)
  else Done (plain_action_hash step c).

(** The results a step reads and its arguments *)
Definition step_inputs (step : PlanStep) (st : PlanExecutionState) : res (pydict * pydict) :=
  let! results := dependency_results step st in
  let! resolved := resolve_step_arguments step results in
  Ok (results, resolved).

Definition failed_conditions (evaluations : list PlanConditionEvaluation) : list string :=
  map ev_description (List.filter (fun e => negb (ev_passed e)) evaluations).

(** The context before its action is hashed *)
Definition base_context (step : PlanStep) (current : PlanStepState) (results resolved : pydict)
  : res PlanStepExecutionContext :=
  made context_ok
    (mkContext (pl_plan_id (px_plan X)) step resolved results (ss_approval_receipt current)
       (px_identity X) (px_fencing_token X) (px_fencing_scope X) None (px_fenced_claim X)
       (px_fenced_claim_lease_seconds X) None).

Definition hash_context (step : PlanStep) (c : PlanStepExecutionContext)
  : Prog (option PlanStepExecutionContext) :=
  if negb (sr_requires_approval (ps_rules step) || sr_write (ps_rules step)) then return_value (Some c) else
  sequel (authorization_action_hash step c) (fun r =>
    match r with
    | Ok h => do! c' := Done (made context_ok (with_action_hash h c)) in return_value (Some c')
    | Err e =>
        if ordinary_error e then
          do! _ := record_error "step_arguments_invalid" (ps_step_id step) e
                     "step_authorization_action_invalid"
                     "Plan step authorization action is invalid" in
          return_value None
        else throw_error e
    end).

(** [_prepare_context] *)
Definition prepare_context (step : PlanStep) : Prog (option PlanStepExecutionContext) :=
  let id := ps_step_id step in
  do! st := do_action ReadState in
  do! current := Done (step_state st id) in
  if negb (is_in before_dispatch current) then return_value None else
  match step_inputs step st with
  | Err e =>
      if plan_error e then
        do! _ := record_error "step_arguments_invalid" id e "step_arguments_invalid"
                   "Plan step arguments are invalid" in
        return_value None
      else throw_error e
  | Ok (results, resolved) =>
      match evaluate_preconditions step results with
      | Err e =>
          if plan_error e then
            do! _ := record_error "step_precondition_failed" id e
                       "step_precondition_evaluation_failed"
                       "Plan step precondition evaluation failed" in
            return_value None
          else throw_error e
      | Ok evaluations =>
          match failed_conditions evaluations with
          | [] =>
              do! c := Done (base_context step current results resolved) in
              hash_context step c
          | failed =>
              do! _ := record_event "step_not_applicable" id
                         [("reason", VStr ("可信前置条件不满足：" ++ str_join "," failed))] in
              return_value None
          end
      end
  end.

(** ** Running one step *)

(** What [step_started] records of an approved step; the receipt must be for the action
    that is about to run. *)
Definition started_data (step : PlanStep) (c : PlanStepExecutionContext) : Prog pydict :=
  if negb (sr_requires_approval (ps_rules step)) then return_value [] else
  do! current := read_step (ps_step_id step) in
  match ss_approval_receipt current with
  | None => throw_error PlanExecutionError
  | Some receipt =>
      if negb (bool_decide (Some (pr_action_hash receipt) = pc_authorization_action_hash c))
      then throw_error PlanExecutionError else
      do! v := do_action ReadClock in
      do! now := Done (clock_value v) in
      return_value [("approvalReceiptId", VStr (pr_receipt_id receipt)); ("startedAt", VFloat now)]
  end.

(** The reservation of resources, where there is a reserver *)
Definition reserve_resources (reserving : bool) (step : PlanStep) (c : PlanStepExecutionContext)
  : Prog PlanStepExecutionContext :=
  if negb reserving then return_value c else
  do! current := read_step (ps_step_id step) in
  let attempt := ss_attempts current + 1 in
  let counts := se_counts_as_tool_call (px_step_executor X) in
  if counts && negb (se_supports_tool_attempt_admission (px_step_executor X))
  then throw_error PlanExecutionError else
  do! _ := do_action (ReserveResources step attempt None) in
  if counts then Done (made context_ok (with_reserver attempt c)) else return_value c.

(** What the step executor is called with, by its signature *)
Definition step_dispatch (step : PlanStep) (c : PlanStepExecutionContext) : res Dispatch :=
  let e := px_step_executor X in
  if se_accepts_execution_context e then
    Ok (mkDispatch step (Some c)
          (if se_accepts_fencing_token e then Some (px_fencing_token X) else None))
  else if se_accepts_fencing_token e then
    check! require (is_nil (ps_argument_bindings step) && is_nil (ps_preconditions step)) in
    Ok (mkDispatch step None (Some (px_fencing_token X)))
  else
    check! require (negb (unsafe (ps_rules step) && is_some (px_fencing_token X))) in
    let! s := made plan_step_ok (resolved_step step (pc_resolved_arguments c)) in
    Ok (mkDispatch s None None).

Definition call_step (step : PlanStep) (c : PlanStepExecutionContext) : Prog pyval :=
  do! d := Done (step_dispatch step c) in do_action (CallStep d).

(** Whether a raised error leaves the outcome of the step unknown *)
Definition outcome_unknown (step : PlanStep) (f : ErrorFacts) : bool :=
  negb (ef_durably_failed f) && negb (ef_definitely_not_committed f)
  && (ef_outcome_unknown f || unsafe (ps_rules step)).

(** The handler raised. *)
Definition step_raised (step : PlanStep) (e : exn) : Prog unit :=
  if negb (ordinary_error e) then throw_error e else
  do! facts := do_action (DescribeError e) in
  if outcome_unknown step facts then
    record_event "step_outcome_unknown" (ps_step_id step)
      (exception_event_data facts "step_outcome_unknown" "Plan step outcome is unknown")
  else
    record_event "step_failed" (ps_step_id step)
      (exception_event_data facts "step_execution_failed" "Plan step execution failed").

(** Once the result is accepted *)
Definition step_succeeded (step : PlanStep) (result : pyval) : Prog unit :=
  do! _ := do_action LookAtToken in
  record_event "step_succeeded" (ps_step_id step) [("result", result)].

(** The handler returned. *)
Definition step_returned (step : PlanStep) (result : pyval) : Prog unit :=
  let id := ps_step_id step in
  match sr_result_contract (ps_rules step) with
  | None => step_succeeded step result
  | Some contract =>
      match validate_step_result result (Some contract) with
      | Err e =>
          if is_exception e then
            record_error "step_validation_failed" id e "step_result_validation_failed"
              "Plan step result validation failed"
          else throw_error e
      | Ok _ =>
          do! digest := Done (result_digest result) in
          do! _ := record_event "step_validation_passed" id [("resultDigest", VStr digest)] in
          step_succeeded step result
      end
  end.

(** From the start on *)
Definition run_plan_step (step : PlanStep) (c : PlanStepExecutionContext) (started : pydict) : Prog unit :=
  do! _ := record_event "step_started" (ps_step_id step) started in
  sequel (call_step step c) (fun r =>
    match r with Ok result => step_returned step result | Err e => step_raised step e end).

(** [_execute_one] *)
Definition execute_one (reserving : bool) (step : PlanStep) : Prog unit :=
  do! _ := do_action LookAtToken in
  do! _ := Done (validate_step (px_policies X) step) in
  do! prepared := prepare_context step in
  match prepared with
  | None => return_value tt
  | Some c =>
      do! started := started_data step c in
      do! c' := reserve_resources reserving step c in
      run_plan_step step c' started
  end.
End Tasks.

(** ** Executions *)

(** What has happened, newest first: events that were recorded or refused, and every
    action of the executor towards the outside *)
Inductive entry : Type :=
| Recorded (e : PlanEvent)
| Refused (step_id : string)
| Acted (a : action)
| Asked (step : PlanStep) (st : PlanExecutionState)
| Interrupted (task : nat).
Abbreviation history := (list entry).

(** How the wait for a batch is cut short: its token is cancelled, or the task that
    executes the plan is *)
Inductive batch_stop := TokenCancelled | TaskCancelled.

(** The approval barrier's services *)
Record BarrierServices := mkBarrier {
  bs_resolver : history -> PlanStep -> PlanExecutionState -> res (reply PlanApprovalDecision);
  bs_receipt_consumer :
    option (history -> PlanApprovalReceipt -> PlanStep -> PlanExecutionState ->
            res (reply PlanApprovalReceipt));
  bs_clock : history -> nat -> pyval;
  bs_cancelled : history -> nat -> bool
}.

(** Everything outside the executor, as it answers after a history *)
Record PlanWorld := mkPlanWorld {
  wd_event_sink : option (history -> PlanEvent -> res unit);
  wd_barrier : option BarrierServices;
  wd_reserve : option (history -> PlanStep -> Z -> option Z -> res unit);
  wd_cancelled : history -> bool;
  wd_clock : history -> pyval;
  wd_build : history -> PlanStep -> PlanStepExecutionContext -> res pyval;
  wd_call : history -> Dispatch -> res pyval;
  wd_describe : history -> exn -> ErrorFacts;
  (** which unfinished task goes on, and whether it meets the cancellation of its batch *)
  wd_schedule : history -> nat;
  wd_interrupts : history -> bool;
  wd_stops : history -> option batch_stop
}.

(** The executor's state and events, the receipts its barrier has consumed, and the
    history *)
Record PlanRun := mkPlanRun {
  xe_state : PlanExecutionState;
  xe_events : list PlanEvent;
  xe_consumed : list string;
  xe_history : history
}.

Abbreviation exec := (Tasks.exec PlanRun).
Definition xstate : exec PlanExecutionState := fun x => Some (Ok (xe_state x), x).

Section Executions.
Context (X : PlanExecutor) (redact : string -> string) (W : PlanWorld).

Definition with_entry (n : entry) (x : PlanRun) : PlanRun :=
  mkPlanRun (xe_state x) (xe_events x) (xe_consumed x) (n :: xe_history x).

(** The state and the event of a transition *)
Definition with_transition (t : PlanExecutionState * PlanEvent) (x : PlanRun) : PlanRun :=
  mkPlanRun (fst t) (xe_events x ++ [snd t])%list (xe_consumed x) (Recorded (snd t) :: xe_history x).

Definition sink_at (h : history) : option (PlanEvent -> res unit) :=
  option_map (fun sink => sink h) (wd_event_sink W).

(** [_transition] *)
Definition record_transition (ty step_id : string) (data : pydict) (x : PlanRun)
  : res unit * PlanRun :=
  match transition (sink_at (xe_history x)) (px_plan X) (xe_state x) ty step_id data with
  | Ok t => (Ok tt, with_transition t x)
  | Err e => (Err e, with_entry (Refused step_id) x)
  end.

(** One action of a program *)
Definition perform_action (a : action) (x : PlanRun) : res (action_answer a) * PlanRun :=
  let h := xe_history x in
  match a return res (action_answer a) * PlanRun with
  | ReadState => (Ok (xe_state x), with_entry (Acted a) x)
  | TransitionTo ty step_id data => record_transition ty step_id data x
  | LookAtToken =>
      (if wd_cancelled W h then Err OperationCancelledError else Ok tt, with_entry (Acted a) x)
  | ReadClock => (Ok (wd_clock W h), with_entry (Acted a) x)
  | BuildAction s c => (wd_build W h s c, with_entry (Acted a) x)
  | ReserveResources s n m =>
      (match wd_reserve W with Some f => f h s n m | None => Ok tt end, with_entry (Acted a) x)
  | CallStep d => (wd_call W h d, with_entry (Acted a) x)
  | DescribeError e => (Ok (wd_describe W h e), with_entry (Acted a) x)
  end.

(** ** Batches *)

Definition stop_error (s : batch_stop) : exn :=
  match s with TokenCancelled => OperationCancelledError | TaskCancelled => CancelledError end.

(** The tasks of a batch, which runs as [asyncio.gather] does *)
Definition run_steps (fuel : nat) (tasks : list (Prog unit)) : exec (list unit) :=
  run_tasks perform_action (fun x => wd_schedule W (xe_history x))
    (fun x => option_map stop_error (wd_stops W (xe_history x)))
    (fun x => wd_interrupts W (xe_history x)) (fun i x => with_entry (Interrupted i) x)
    fuel None tasks.

(** The actions of one task, and the fuel of a batch *)
Definition task_actions : nat := 14.
Definition batch_fuel (tasks : list (Prog unit)) : nat := S (task_actions * List.length tasks).

(** [_execute_batch] *)
Definition execute_batch (steps : list PlanStep) : exec unit :=
  let tasks := map (execute_one X redact (is_some (wd_reserve W))) steps in
  run! _ := run_steps (batch_fuel tasks) tasks in xret tt.

(** ** The rounds of an execution *)

(** The loop variables: whether this round changed anything, and the steps whose
    approval was asked for *)
Definition Round : Type := bool * list string.

Definition run_event (ty step_id : string) (data : pydict) : exec unit :=
  fun x => Some (record_transition ty step_id data x).

Definition step_now (step_id : string) : exec PlanStepState :=
  run! st := xstate in xlift (step_state st step_id).

(** [_recover_running_steps] *)
Definition recover_running_step (step_id : string) (_ : unit) : exec unit :=
  run! current := step_now step_id in
  if negb (is_in [StepRunning] current) then xret tt else
  run! step := xlift (plan_step (px_plan X) step_id) in
  run_event "step_recovered" step_id
    [("targetStatus", VStr (step_status_str (recovery_status step)))].

(** One step of [_skip_blocked_steps] *)
Definition skip_blocked_step (g : DependencyGraph) (step_id : string) (_ : unit) : exec unit :=
  run! st := xstate in
  let failed := List.filter (has_status st terminal_failures) (set_at step_id (dg_dependencies g)) in
  run_event "step_skipped" step_id
    [("reason", VStr ("依赖未成功：" ++ str_join "," (frozenset failed)))].

(** A step changes status at most four times. *)
Definition round_fuel (g : DependencyGraph) : nat := S (4 * List.length (dg_topological_order g)).

(** [_skip_blocked_steps]; every round skips a step. *)
Fixpoint skip_blocked_steps (fuel : nat) (g : DependencyGraph) (changed : bool) : exec bool :=
  match fuel with
  | O => fun _ => None
  | S fuel' =>
      run! st := xstate in
      run! blocked := xlift (blocked_steps g st) in
      match blocked with
      | [] => xret changed
      | _ :: _ =>
          run! _ := run_for_each (skip_blocked_step g) blocked tt in
          skip_blocked_steps fuel' g true
      end
  end.

(** [_skip_all_pending] *)
Definition skip_pending_step (reason : string) (step_id : string) (changed : bool) : exec bool :=
  run! current := step_now step_id in
  if negb (is_in before_dispatch current) then xret changed else
  run! _ := run_event "step_skipped" step_id [("reason", VStr reason)] in
  xret true.

(** The barrier's answer, which is for the state and the receipts of this moment *)
Definition ask_barrier (services : BarrierServices) (step : PlanStep) : exec PlanApprovalDecision :=
  fun x =>
  let h := xe_history x in
  let '(ids, decision) :=
    authorize (bs_resolver services h)
      (option_map (fun consumer => consumer h) (bs_receipt_consumer services))
      (bs_clock services h) (bs_cancelled services h) (xe_consumed x) step (xe_state x) in
  Some (decision, mkPlanRun (xe_state x) (xe_events x) ids (Asked step (xe_state x) :: h)).

(** Recording a decision; no event for a request that is still pending *)
Definition record_decision (step : PlanStep) (d : PlanApprovalDecision) : exec bool := fun x =>
  match apply_decision (sink_at (xe_history x)) (px_plan X) (xe_state x) step d with
  | Ok None => Some (Ok false, x)
  | Ok (Some t) => Some (Ok true, with_transition t x)
  | Err e => Some (Err e, with_entry (Refused (ps_step_id step)) x)
  end.

(** [_resolve_approval] *)
Definition resolve_approval (step : PlanStep) (c : PlanStepExecutionContext) : exec bool :=
  match wd_barrier W, pc_authorization_action_hash c with
  | Some services, Some h =>
      run! step' := xlift (made plan_step_ok (authorized_step step h)) in
      run! d := ask_barrier services step' in
      record_decision step d
  | _, _ => xlift (Err PlanExecutionError)
  end.

(** [_stable_approval_request_id] *)
Definition stable_approval_request_id (step : PlanStep) (action_hash : option string) : res string :=
  let! h := match action_hash with
            | Some h => if nonempty h then Ok h else step_action_hash step
            | None => step_action_hash step
            end in
  Ok ("plan-approval-request-"
      ++ sha256_hex (str_join (bytes [31%N]) [pl_plan_id (px_plan X); ps_step_id step; h])).

(** Waiting under a stable request id *)
Definition wait_for_step_approval (step : PlanStep) (c : PlanStepExecutionContext) : exec unit :=
  run! id := xlift (stable_approval_request_id step (pc_authorization_action_hash c)) in
  run_event "step_waiting_approval" (ps_step_id step)
    [("approvalId", VStr id);
     ("actionHash", option_value VStr (pc_authorization_action_hash c))].

Definition prepare_step (step : PlanStep) : exec (option PlanStepExecutionContext) :=
  fun x => Some (run_prog perform_action (prepare_context X redact step) x).

(** One step of the loop over the steps that wait *)
Definition ask_waiting_step (step_id : string) (r : Round) : exec Round :=
  let (changed, queries) := r in
  run! current := step_now step_id in
  if negb (is_in [StepWaitingApproval] current) || mem_str step_id queries then xret r else
  run! step := xlift (plan_step (px_plan X) step_id) in
  run! prepared := prepare_step step in
  match prepared with
  | None => xret (true, queries)
  | Some c =>
      run! resolved := resolve_approval step c in
      xret (resolved || changed, step_id :: queries)
  end.

(** A broken answer of the barrier leaves a request to recover from, and is raised. *)
Definition resolve_or_wait (step : PlanStep) (c : PlanStepExecutionContext) : exec bool :=
  xcatch (resolve_approval step c) (fun r =>
    match r with
    | Err PlanExecutionError =>
        run! current := step_now (ps_step_id step) in
        run! _ := (if is_in [StepPending] current then wait_for_step_approval step c else xret tt) in
        xlift (Err PlanExecutionError)
    | _ => xlift r
    end).

(** One step of the loop over the steps that are ready *)
Definition ask_ready_step (step_id : string) (r : Round) : exec Round :=
  let (changed, queries) := r in
  run! step := xlift (plan_step (px_plan X) step_id) in
  run! current := step_now step_id in
  if negb (sr_requires_approval (ps_rules step)) || is_some (ss_approval_receipt current)
  then xret r else
  run! prepared := prepare_step step in
  match prepared with
  | None => xret (true, queries)
  | Some c =>
      if negb (is_some (wd_barrier W)) then
        run! _ := wait_for_step_approval step c in
        xret (true, queries)
      else if mem_str step_id queries then xret r else
      run! resolved := resolve_or_wait step c in
      xret (resolved || changed, step_id :: queries)
  end.

(** The ready steps that need no approval any more *)
Definition executable_step (st : PlanExecutionState) (step_id : string) : res (option PlanStep) :=
  let! step := plan_step (px_plan X) step_id in
  let! current := step_state st step_id in
  Ok (if negb (sr_requires_approval (ps_rules step)) || is_some (ss_approval_receipt current)
      then Some step else None).

Definition executable_steps (g : DependencyGraph) (st : PlanExecutionState) : res (list PlanStep) :=
  let! ready := ready_steps g st in
  let! found := mapR (executable_step st) ready in
  Ok (omap id found).

Definition any_failed (st : PlanExecutionState) : bool :=
  existsb (is_in [StepFailed]) (dvalues (xs_steps st)).

(** A round up to its batch: what is blocked is skipped, and approvals are asked for. *)
Definition ask_round (g : DependencyGraph) (queries : list string) : exec Round :=
  let order := dg_topological_order g in
  run! changed := skip_blocked_steps (round_fuel g) g false in
  run! st := xstate in
  run! changed := (if px_fail_fast X && any_failed st
                   then run_for_each (skip_pending_step "Plan fail_fast") order changed
                   else xret changed) in
  run! r := (if is_some (wd_barrier W)
             then run_for_each ask_waiting_step order (changed, queries)
             else xret (changed, queries)) in
  run! st := xstate in
  run! ready := xlift (ready_steps g st) in
  run_for_each ask_ready_step ready r.

(** The loop of [execute] *)
Fixpoint rounds (fuel : nat) (g : DependencyGraph) (queries : list string) : exec unit :=
  match fuel with
  | O => fun _ => None
  | S fuel' =>
      run! _ := (fun x => Some (perform_action LookAtToken x)) in
      run! r := ask_round g queries in
      run! st := xstate in
      run! executable := xlift (executable_steps g st) in
      match executable with
      | _ :: _ =>
          run! _ := execute_batch (firstn (Z.to_nat (px_max_parallel_steps X)) executable) in
          rounds fuel' g (snd r)
      | [] => if fst r then rounds fuel' g (snd r) else xret tt
      end
  end.

Record PlanExecutionResult := mkPlanResult {
  er_state : PlanExecutionState;
  er_synthesized : SynthesizedPlanResult;
  er_events : list PlanEvent
}.

(** Where an execution starts from *)
Definition starting_state (initial : option PlanExecutionState) : res PlanExecutionState :=
  match initial with
  | None => Ok (initial_state (px_plan X))
  | Some st => let! d := execution_state_to_dict st in state_from_dict (px_plan X) d
  end.

(** The body of [execute], from the starting state on *)
Definition execute_from (g : DependencyGraph) : exec PlanExecutionResult :=
  run! _ := run_for_each recover_running_step (dg_topological_order g) tt in
  run! _ := rounds (round_fuel g) g [] in
  fun x =>
    Some (let! summary := synthesize (px_plan X) (xe_state x) g in
          Ok (mkPlanResult (xe_state x) summary (xe_events x)), x).

(** [execute] *)
Definition execute_plan (initial : option PlanExecutionState) : exec PlanExecutionResult := fun x =>
  match validate_plan (px_policies X) (px_plan X) with
  | Err e => Some (Err e, x)
  | Ok g =>
      let x := mkPlanRun (xe_state x) [] (xe_consumed x) (xe_history x) in
      match starting_state initial with
      | Err e => Some (Err e, x)
      | Ok st => execute_from g (mkPlanRun st [] (xe_consumed x) (xe_history x))
      end
  end.
End Executions.
