(* ===== verification/PlanTasks.v ===== *)
(** * The tasks of a plan execution

    A logic for the programs of the executor.  A task is verified against what it owns,
    the state of its own step ([ghost]): it may read any state that agrees on that
    ([sees]) and must say, before it calls a step, that the step was just started and is
    given what it is due.  [perform_sound] is the rule of each action; [execute_one_ok]
    verifies the program of a step once for every batch it may run in. *)

From S2P Require Import Prelude Tasks PyDict Text PyVal Json Sha256 OperationStore Service Approvals.
From S2P Require Import PlanTypes PlanGraph PlanValidator PlanState PlanSafety PlanDataflow.
From S2P Require Import PlanApproval PlanExecutor.
From Stdlib Require Import String.

#[local] Open Scope string_scope.
#[local] Open Scope bool_scope.
#[local] Open Scope Z_scope.
#[local] Arguments blank : simpl never.

(** ** How far a step has come *)

(** The transitions that a step may still make *)
Definition step_rank (s : PlanStepState) : nat :=
  match ss_status s with
  | StepPending => if is_some (ss_approval_receipt s) then 2 else 4
  | StepWaitingApproval => 3
  | StepRunning => 1
  | _ => 0
  end%nat.

(** The events that bring a step forward *)
Definition advancing (ty : string) : bool :=
  negb (mem_str ty ["step_approval_granted"; "step_validation_passed"; "step_recovered"]).

Lemma before_dispatch_rank s : is_in before_dispatch s = true -> (2 <= step_rank s)%nat.
Proof.
  intros H%is_in_spec. unfold step_rank, before_dispatch in *. revert H.
  rewrite !elem_of_cons. intros [->|[->|H]]; [|lia|by apply elem_of_nil in H].
  destruct (is_some _); lia.
Qed.

Lemma running_rank s : ss_status s = StepRunning -> step_rank s = 1%nat.
Proof. unfold step_rank. by intros ->. Qed.

Lemma settled_rank s : ss_status s ∈ (StepSucceeded :: terminal_failures) -> step_rank s = 0%nat.
Proof.
  unfold step_rank, terminal_failures. rewrite !elem_of_cons.
  intros [->|[->|[->|[->|[->|H]]]]]; try done. by apply elem_of_nil in H.
Qed.

Lemma recovery_cases step : recovery_status step = StepPending \/ recovery_status step = StepManualIntervention.
Proof. unfold recovery_status. case_bool_decide; auto. Qed.

Lemma failure_cases step : failure_status step = StepManualIntervention \/ failure_status step = StepFailed.
Proof. unfold failure_status. destruct (unsafe _); auto. Qed.

#[local] Ltac ranks := split_and!; [lia..|]; try (intros [?|?]; [done|lia]); intros _; lia.

(** No event but a recovery sets a step back, and most bring it forward. *)
Lemma event_rank st step s d ty s' :
  apply_step_event st step s d ty = Ok s' -> ty <> "step_recovered" ->
  (step_rank s' <= 3)%nat /\ (step_rank s' <= step_rank s)%nat /\
  (advancing ty = true \/ (2 < step_rank s)%nat -> (step_rank s' < step_rank s)%nat).
Proof.
  unfold apply_step_event. intros H Hne. eqb_cases H; try subst ty.
  - unfold on_waiting_approval in H. split_checks H. injection H as <-.
    apply andb_true_iff in Hc as [Hs%is_in_one _]. unfold step_rank. rewrite Hs. cbn.
    apply negb_true_iff in Hc0. rewrite Hc0. ranks.
  - unfold on_approval_granted in H. split_checks H. injection H as <-.
    apply before_dispatch_rank in Hc. unfold step_rank at 1 2 5. cbn. ranks.
  - unfold on_approval_denied in H. split_checks H. injection H as <-.
    apply before_dispatch_rank in Hc. unfold step_rank at 1 2 5. cbn. ranks.
  - unfold on_started in H. apply rbind_Ok in H as (? & Hs%demand_Ok & H).
    apply rbind_Ok in H as (? & _ & H). apply rbind_Ok in H as (? & _ & H). injection H as <-.
    assert (Hb : is_in before_dispatch s = true) by (apply is_in_one in Hs; apply is_in_spec; rewrite Hs; left).
    apply before_dispatch_rank in Hb. unfold step_rank at 1 2 5. cbn. ranks.
  - unfold on_validation_passed in H. split_checks H. injection H as <-. apply is_in_one in Hc.
    unfold step_rank. cbn. rewrite Hc. ranks.
  - unfold on_validation_failed in H. split_checks H. injection H as <-. apply is_in_one in Hc.
    rewrite (running_rank s) by done. unfold step_rank. cbn.
    destruct (failure_cases step) as [-> | ->]; ranks.
  - unfold on_succeeded in H. split_checks H. injection H as <-. apply is_in_one in Hc.
    rewrite (running_rank s) by done. unfold step_rank. cbn. ranks.
  - unfold on_failed in H. split_checks H. injection H as <-. apply is_in_one in Hc.
    rewrite (running_rank s) by done. unfold step_rank. cbn. ranks.
  - unfold on_outcome_unknown in H. split_checks H. injection H as <-. apply is_in_one in Hc.
    rewrite (running_rank s) by done. unfold step_rank. cbn. ranks.
  - unfold on_skipped in H. split_checks H. injection H as <-. apply before_dispatch_rank in Hc.
    unfold step_rank at 1 2 5. cbn. ranks.
  - destruct (mem_str ty _) eqn:Em.
    + unfold on_dispatch_failed in H. split_checks H. injection H as <-.
      apply before_dispatch_rank in Hc. unfold step_rank at 1 2 5. cbn. ranks.
    + eqb_cases H; [|done..]. unfold on_not_applicable in H. split_checks H. injection H as <-.
      apply before_dispatch_rank in Hc. unfold step_rank at 1 2 5. cbn. ranks.
Qed.

(** The transitions that a whole plan may still make *)
Definition plan_rank (st : PlanExecutionState) : nat := list_sum (map step_rank (dvalues (xs_steps st))).

Lemma rank_dset d i s s' :
  dget i d = Some s ->
  (list_sum (map step_rank (dvalues (dset i s' d))) + step_rank s
   = list_sum (map step_rank (dvalues d)) + step_rank s')%nat.
Proof.
  unfold dvalues, list_sum.
  induction d as [|[j x] d IH]; cbn [dget dset map foldr snd]; [done|].
  destruct (String.eqb_spec i j) as [->|Hne]; cbn [map foldr snd].
  - intros [= ->]. lia.
  - intros H%IH. lia.
Qed.

Lemma event_plan_rank p st e st' s :
  apply_plan_event p st e = Ok st' -> pe_type e <> "step_recovered" ->
  dget (pe_step_id e) (xs_steps st) = Some s ->
  (plan_rank st' <= plan_rank st)%nat /\
  (advancing (pe_type e) = true \/ (2 < step_rank s)%nat -> (plan_rank st' < plan_rank st)%nat).
Proof.
  intros (step & s0 & s' & _ & _ & Hs & Hev & _ & _ & ->)%apply_plan_event_Ok Hty Hs0.
  simplify_eq. destruct (event_rank _ _ _ _ _ _ Hev Hty) as (_ & H1 & H2).
  unfold plan_rank. cbn [xs_steps]. pose proof (rank_dset _ _ _ s' Hs) as E. split; [lia|]. intros H%H2. lia.
Qed.

(** ** What a state says about a step *)

(** The step's state, and what it reads from its dependencies *)
Definition agrees_with_state (step : PlanStep) (s : PlanStepState) (deps : res pydict) (st : PlanExecutionState)
  : Prop :=
  dget (ps_step_id step) (xs_steps st) = Some s /\ dependency_results step st = deps.

Lemma dependency_results_same step st st' :
  (forall i, i ∈ ps_depends_on step -> dget i (xs_steps st') = dget i (xs_steps st)) ->
  dependency_results step st' = dependency_results step st.
Proof.
  unfold dependency_results. generalize (@nil (string * pyval)) as acc.
  induction (ps_depends_on step) as [|i l IH]; cbn [foldM]; intros acc Hag; [done|].
  unfold add_result at 1 3. rewrite Hag by left.
  destruct (dget i (xs_steps st)) as [s|]; [|done]. destruct (bool_decide _); [|done].
  cbn [rbind]. apply IH. intros j Hj. apply Hag. by right.
Qed.

(** The steps other than [i] are the same in both states. *)
Definition same_but (i : string) (st st' : PlanExecutionState) : Prop :=
  forall j, j <> i -> dget j (xs_steps st') = dget j (xs_steps st).

Lemma agrees_kept i step s deps st st' :
  same_but i st st' -> ps_step_id step <> i -> i ∉ ps_depends_on step ->
  agrees_with_state step s deps st -> agrees_with_state step s deps st'.
Proof.
  intros Hsame Hne Hi [Hs <-]. split; [by rewrite Hsame|].
  apply dependency_results_same. intros j Hj. apply Hsame. by intros ->.
Qed.

(** ** What a call is given *)

(** The context as it was before its action was hashed and its call counted *)
Definition unhashed (c : PlanStepExecutionContext) : PlanStepExecutionContext :=
  mkContext (pc_plan_id c) (pc_step c) (pc_resolved_arguments c) (pc_dependency_results c)
    (pc_approval_receipt c) (pc_identity c) (pc_fencing_token c) (pc_fencing_scope c) None
    (pc_fenced_claim c) (pc_fenced_claim_lease_seconds c) None.

Section Due.
Context (X : PlanExecutor) (step : PlanStep) (deps : res pydict).
(** Which payloads the step executor has built for the step, and for which contexts *)
Context (built : PlanStepExecutionContext -> pyval -> Prop).

(** A context made for the step from these results and arguments *)
Record context_for (results arguments : pydict) (c : PlanStepExecutionContext) : Prop := {
  cf_plan : pc_plan_id c = pl_plan_id (px_plan X);
  cf_step : pc_step c = step;
  cf_arguments : pc_resolved_arguments c = arguments;
  cf_results : pc_dependency_results c = results;
  cf_identity : pc_identity c = px_identity X;
  cf_fencing : pc_fencing_token c = px_fencing_token X /\ pc_fencing_scope c = px_fencing_scope X;
  cf_claim : pc_fenced_claim c = px_fenced_claim X
}.

(** The hash is that of the action the call stands for: of the payload that the step
    executor built for the very context of the call, if it builds one, and of the step's
    own action otherwise. *)
Definition action_hash_of (c : PlanStepExecutionContext) (h : string) : Prop :=
  if se_builds_authorization_action (px_step_executor X)
  then exists payload, built (unhashed c) payload /\ payload_hash payload = Ok h
  else plain_action_hash X step (unhashed c) = Ok h.

(** The context is what the step is due: its arguments are resolved from the results of
    its dependencies, its conditions hold of them, and its action is hashed. *)
Record prepared (c : PlanStepExecutionContext) : Prop := {
  pp_inputs : exists results arguments evaluations,
    deps = Ok results /\ resolve_step_arguments step results = Ok arguments /\
    evaluate_preconditions step results = Ok evaluations /\
    Forall (fun e => ev_passed e = true) evaluations /\ context_for results arguments c;
  pp_hashed : sr_requires_approval (ps_rules step) || sr_write (ps_rules step) = true ->
    exists h, pc_authorization_action_hash c = Some h /\ action_hash_of c h
}.

(** Nothing needs approval, or the step's receipt is for the action in the context. *)
Definition approved_for (s : PlanStepState) (c : PlanStepExecutionContext) : Prop :=
  sr_requires_approval (ps_rules step) = true ->
  exists r, ss_approval_receipt s = Some r /\
            pc_authorization_action_hash c = Some (pr_action_hash r).

(** The call of a running step *)
Definition call_due (d : Dispatch) (s : PlanStepState) : Prop :=
  ss_status s = StepRunning /\
  exists c, prepared c /\ approved_for s c /\ step_dispatch X step c = Ok d.
End Due.

Lemma prepared_mono X step deps (b b' : PlanStepExecutionContext -> pyval -> Prop) c :
  (forall c payload, b c payload -> b' c payload) -> prepared X step deps b c -> prepared X step deps b' c.
Proof.
  intros Hb [Hi Hh]. split; [done|]. intros Hq. destruct (Hh Hq) as (h & Hc & Ha). exists h.
  split; [done|]. unfold action_hash_of in *. destruct (se_builds_authorization_action _); [|done].
  destruct Ha as (payload & Hp & ?). exists payload. auto.
Qed.

(** ** What a history says *)

Definition events_of (h : history) : list PlanEvent :=
  omap (fun n => match n with Recorded e => Some e | _ => None end) h.

(** The state after a history, from the state before *)
Definition history_state (p : MultiIntentPlan) (st0 : PlanExecutionState) (h : history)
  : res PlanExecutionState := foldM (apply_plan_event p) st0 (rev (events_of h)).

(** An entry that is an event or a call of the step *)
Definition concerns (step_id : string) (n : entry) : bool :=
  match n with
  | Recorded e => String.eqb (pe_step_id e) step_id
  | Acted (CallStep d) => String.eqb (ps_step_id (ds_step d)) step_id
  | _ => false
  end.

(** The last of these is the step's start. *)
Definition just_started (step_id : string) (h : history) : Prop :=
  exists mid e before, h = (mid ++ Recorded e :: before)%list /\
    pe_step_id e = step_id /\ pe_type e = "step_started" /\
    Forall (fun n => concerns step_id n = false) mid.

Lemma just_started_cons step_id n h :
  concerns step_id n = false -> just_started step_id h -> just_started step_id (n :: h).
Proof.
  intros Hn (mid & e & before & -> & Hi & Hty & Hm). exists (n :: mid), e, before.
  split_and!; try done. by constructor.
Qed.

Lemma just_started_now e h :
  pe_type e = "step_started" -> just_started (pe_step_id e) (Recorded e :: h).
Proof. intros H. exists [], e, h. by split_and!. Qed.

Section Histories.
Context (X : PlanExecutor) (W : PlanWorld) (st0 : PlanExecutionState) (h0 : history).

(** The step executor built the payload for the context, at some point of the execution
    that started with the history [h0]. *)
Definition built_in (new : history) (step : PlanStep) (c : PlanStepExecutionContext) (payload : pyval)
  : Prop :=
  exists later earlier, new = (later ++ Acted (BuildAction step c) :: earlier)%list /\
    wd_build W (earlier ++ h0)%list step c = Ok payload.

Lemma built_in_app more new step c payload :
  built_in new step c payload -> built_in (more ++ new) step c payload.
Proof. intros (later & earlier & -> & Hb). exists (more ++ later)%list, earlier. by rewrite <- app_assoc. Qed.

(** A call of a step of the plan that is due when it is made, right after the start *)
Definition called_when_due (d : Dispatch) (before : history) : Prop :=
  exists step st s, step ∈ pl_steps (px_plan X) /\
    history_state (px_plan X) st0 before = Ok st /\
    dget (ps_step_id step) (xs_steps st) = Some s /\
    call_due X step (dependency_results step st) (built_in before step) d s /\
    just_started (ps_step_id step) before.

(** The history of such an execution *)
Record follows (new : history) (x : PlanRun) : Prop := {
  fw_history : xe_history x = (new ++ h0)%list;
  fw_events : xe_events x = rev (events_of new);
  fw_state : history_state (px_plan X) st0 new = Ok (xe_state x);
  fw_calls : forall after d before, new = (after ++ Acted (CallStep d) :: before)%list ->
    called_when_due d before
}.
End Histories.

(** ** The logic of tasks *)

(** What a task knows: its step's state, whether its step was just started, whether it
    has recorded anything, and the payloads that were built for it. *)
Record ghost := mkGhost {
  gh_state : PlanStepState;
  gh_armed : bool;
  gh_moved : bool;
  gh_built : list (PlanStepExecutionContext * pyval)
}.

(** What it knows after an event, after a call and after a payload was asked for *)
Definition after_event (ty : string) (s : PlanStepState) (g : ghost) : ghost :=
  mkGhost s (String.eqb ty "step_started") true (gh_built g).
Definition after_call (g : ghost) : ghost := mkGhost (gh_state g) false (gh_moved g) (gh_built g).
Definition after_build (c : PlanStepExecutionContext) (r : res pyval) (g : ghost) : ghost :=
  mkGhost (gh_state g) (gh_armed g) (gh_moved g)
    (match r with Ok payload => (c, payload) :: gh_built g | Err _ => gh_built g end).

Definition known_built (g : ghost) (c : PlanStepExecutionContext) (payload : pyval) : Prop :=
  (c, payload) ∈ gh_built g.

Section Logic.
Context (X : PlanExecutor) (step : PlanStep) (deps : res pydict).

(** What an action needs, and what the task knows when it goes on *)
Definition action_ok (a : action) (g : ghost) : (res (action_answer a) -> ghost -> Prop) -> Prop :=
  match a return (res (action_answer a) -> ghost -> Prop) -> Prop with
  | ReadState => fun k => forall st, agrees_with_state step (gh_state g) deps st -> k (Ok st) g
  | TransitionTo ty id data => fun k =>
      id = ps_step_id step /\ ty <> "step_recovered" /\ (gh_moved g = true \/ advancing ty = true) /\
      (forall st s', agrees_with_state step (gh_state g) deps st ->
         apply_step_event st step (gh_state g) data ty = Ok s' ->
         k (Ok tt) (after_event ty s' g)) /\
      (forall e, k (Err e) g)
  | CallStep d => fun k =>
      gh_armed g = true /\ ps_step_id (ds_step d) = ps_step_id step /\
      call_due X step deps (known_built g) d (gh_state g) /\ forall r, k r (after_call g)
  | BuildAction s c => fun k => s = step /\ forall r, k r (after_build c r g)
  | LookAtToken | ReadClock | ReserveResources _ _ _ | DescribeError _ =>
      fun k => forall r, k r g
  end.

Lemma action_ok_mono a g (k k' : res (action_answer a) -> ghost -> Prop) :
  (forall r g', k r g' -> k' r g') -> action_ok a g k -> action_ok a g k'.
Proof.
  destruct a; cbn; naive_solver.
Qed.

Definition step_rule : ActionRule action_answer ghost := mkActionRule action_ok action_ok_mono.

Lemma prog_ok_read {B} (post : res B -> ghost -> Prop) (f : PlanExecutionState -> Prog B) g :
  (forall st, agrees_with_state step (gh_state g) deps st -> prog_ok step_rule post (f st) g) ->
  prog_ok step_rule post (then_do (do_action ReadState) f) g.
Proof. intros H. by apply prog_ok_then. Qed.

End Logic.

(** ** The program of a step *)
Section Step.
Context (X : PlanExecutor) (redact : string -> string) (step : PlanStep) (deps : res pydict).
Abbreviation ok := (prog_ok (step_rule X step deps)).

(** The step has come to its end. *)
Definition through (g : ghost) : Prop := gh_moved g = true /\ step_rank (gh_state g) = O.

Lemma record_event_ok (post : res unit -> ghost -> Prop) ty data g :
  ty <> "step_recovered" -> gh_moved g = true \/ advancing ty = true ->
  (forall st s', agrees_with_state step (gh_state g) deps st ->
     apply_step_event st step (gh_state g) data ty = Ok s' ->
     post (Ok tt) (after_event ty s' g)) ->
  (forall e, post (Err e) g) ->
  ok post (record_event ty (ps_step_id step) data) g.
Proof. intros. cbn. by split_and!. Qed.

(** The events that end a step *)
Definition closing_events : list string :=
  ["step_validation_failed"; "step_succeeded"; "step_failed"; "step_outcome_unknown"; "step_skipped";
   "step_arguments_invalid"; "step_precondition_failed"; "step_not_applicable"].

Lemma closing_event st s data ty s' :
  mem_str ty closing_events = true -> apply_step_event st step s data ty = Ok s' ->
  ty <> "step_recovered" /\ advancing ty = true /\ step_rank s' = O.
Proof.
  intros Hin%mem_str_spec H. unfold closing_events in Hin.
  repeat (apply elem_of_cons in Hin as [->|Hin]); [..|by apply elem_of_nil in Hin];
    (split; [done|]; split; [done|]); cbn in H.
  - unfold on_validation_failed in H. split_checks H. injection H as <-. unfold step_rank. cbn.
    by destruct (failure_cases step) as [-> | ->].
  - unfold on_succeeded in H. split_checks H. by injection H as <-.
  - unfold on_failed in H. split_checks H. by injection H as <-.
  - unfold on_outcome_unknown in H. split_checks H. by injection H as <-.
  - unfold on_skipped in H. split_checks H. by injection H as <-.
  - change (on_dispatch_failed s data = Ok s') in H. unfold on_dispatch_failed in H.
    split_checks H. by injection H as <-.
  - change (on_dispatch_failed s data = Ok s') in H. unfold on_dispatch_failed in H.
    split_checks H. by injection H as <-.
  - change (on_not_applicable s data = Ok s') in H. unfold on_not_applicable in H. split_checks H. by injection H as <-.
Qed.

Lemma closing_ok (post : res unit -> ghost -> Prop) ty data g :
  mem_str ty closing_events = true ->
  (forall g', through g' -> post (Ok tt) g') -> (forall e, post (Err e) g) ->
  ok post (record_event ty (ps_step_id step) data) g.
Proof.
  intros Hin Hp He. assert (ty <> "step_recovered" /\ advancing ty = true) as [Hr Ha].
  { apply mem_str_spec in Hin. unfold closing_events in Hin.
    repeat (apply elem_of_cons in Hin as [->|Hin]); [done..|]. by apply elem_of_nil in Hin. }
  apply record_event_ok; [done|by right| |done]. intros st s' _ H. apply Hp.
  destruct (closing_event _ _ _ _ _ Hin H) as (_ & _ & Hn). by split.
Qed.

Lemma record_error_ok (post : res unit -> ghost -> Prop) ty e code fallback g :
  mem_str ty closing_events = true ->
  (forall g', through g' -> post (Ok tt) g') -> (forall e, post (Err e) g) ->
  ok post (record_error redact ty (ps_step_id step) e code fallback) g.
Proof.
  intros Hin Hp He. unfold record_error. apply prog_ok_ask; [by cbn| |done].
  intros facts. by apply closing_ok.
Qed.

(** The step is where it was. *)
Definition unmoved (g g' : ghost) : Prop := gh_state g' = gh_state g /\ gh_moved g' = gh_moved g.

(** What [_prepare_context] ends with *)
Definition prepared_or_through (g : ghost) (r : res (option PlanStepExecutionContext)) (g' : ghost)
  : Prop :=
  match r with
  | Ok (Some c) => unmoved g g' /\ prepared X step deps (known_built g') c
  | Ok None => through g' \/ (g' = g /\ is_in before_dispatch (gh_state g) = false)
  | Err _ => True
  end.

(** A hashed context *)
Lemma hashed_ok results arguments evaluations c g g' h :
  deps = Ok results -> resolve_step_arguments step results = Ok arguments ->
  evaluate_preconditions step results = Ok evaluations ->
  Forall (fun e => ev_passed e = true) evaluations -> context_for X step results arguments c ->
  unmoved g g' -> action_hash_of X step (known_built g') c h ->
  ok (prepared_or_through g)
     (then_do (Done (made context_ok (with_action_hash h c))) (fun c' => return_value (Some c'))) g'.
Proof.
  intros Hd Ha Hv Hp Hc Hg Hh. apply prog_ok_then. cbn.
  destruct (made context_ok (with_action_hash h c)) as [c'|] eqn:Em; [|done].
  apply made_Ok in Em as [-> _]. split; [done|]. split; [|intros _; by exists h].
  exists results, arguments, evaluations. split_and!; try done. destruct Hc. by split.
Qed.

Lemma hash_context_ok results arguments evaluations c g :
  deps = Ok results -> resolve_step_arguments step results = Ok arguments ->
  evaluate_preconditions step results = Ok evaluations ->
  Forall (fun e => ev_passed e = true) evaluations -> context_for X step results arguments c ->
  unhashed c = c ->
  ok (prepared_or_through g) (hash_context X redact step c) g.
Proof.
  intros Hd Ha Hv Hp Hc Hun. unfold hash_context.
  destruct (sr_requires_approval (ps_rules step) || sr_write (ps_rules step)) eqn:Eq; cbn [negb].
  2: { cbn. split; [done|]. split; [by exists results, arguments, evaluations|by rewrite Eq]. }
  apply prog_ok_sequel. unfold authorization_action_hash.
  assert (Hhash : forall r g', unmoved g g' ->
    (forall h, r = Ok h -> action_hash_of X step (known_built g') c h) ->
    ok (prepared_or_through g)
      match r with
      | Ok h => then_do (Done (made context_ok (with_action_hash h c)))
                         (fun c' => return_value (Some c'))
      | Err e =>
          if ordinary_error e then
            then_do (record_error redact "step_arguments_invalid" (ps_step_id step) e
                     "step_authorization_action_invalid"
                     "Plan step authorization action is invalid") (fun _ => return_value None)
          else throw_error e
      end g').
  { intros [h|e] g' Hg' Hr; [apply (hashed_ok results arguments evaluations); auto|].
    destruct (ordinary_error e); [|done]. apply prog_ok_then, record_error_ok; [done| |done].
    intros g1 Hg1. by left. }
  unfold action_hash_of in Hhash. rewrite Hun in Hhash.
  destruct (se_builds_authorization_action (px_step_executor X)) eqn:Eb.
  - apply prog_ok_then. split; [done|]. intros [payload|e].
    + apply (Hhash (payload_hash payload)); [done|]. intros h Hh. exists payload. split; [by left|done].
    + by apply (Hhash (Err e)).
  - apply (Hhash (plain_action_hash X step c)); [done|]. by intros h.
Qed.

Lemma failed_none evaluations :
  failed_conditions evaluations = [] -> Forall (fun e => ev_passed e = true) evaluations.
Proof.
  unfold failed_conditions. induction evaluations as [|e l IH]; cbn; [done|].
  destruct (ev_passed e) eqn:E; cbn; [|done]. intros H%IH. by constructor.
Qed.

Lemma prepare_context_ok g : ok (prepared_or_through g) (prepare_context X redact step) g.
Proof.
  unfold prepare_context. apply prog_ok_read. intros st [Hs Hd]. apply prog_ok_done.
  rewrite (proj2 (step_state_Ok _ _ _) Hs).
  destruct (is_in before_dispatch (gh_state g)) eqn:Eb; cbn [negb]; [|by right].
  destruct (step_inputs step st) as [[results arguments]|e] eqn:Ei.
  2: { destruct (plan_error e); [|done]. apply prog_ok_then, record_error_ok; [done| |done].
       intros g' Hg'. by left. }
  unfold step_inputs in Ei. rewrite Hd in Ei.
  apply rbind_Ok in Ei as (rs & Hrs & Ei). apply rbind_Ok in Ei as (args & Hargs & Ei).
  injection Ei as -> ->.
  destruct (evaluate_preconditions step results) as [evaluations|e] eqn:Ev.
  2: { destruct (plan_error e); [|done]. apply prog_ok_then, record_error_ok; [done| |done].
       intros g' Hg'. by left. }
  destruct (failed_conditions evaluations) as [|f fs] eqn:Ef.
  2: { apply prog_ok_then, closing_ok; [done| |done]. intros g' Hg'. by left. }
  apply prog_ok_done. destruct (base_context X step (gh_state g) results arguments) as [c|] eqn:Ec; [|done].
  apply made_Ok in Ec as [-> _].
  eapply hash_context_ok; eauto using failed_none. by split.
Qed.

(** Once a step has moved, it is through when its program returns. *)
Definition ends_through (r : res unit) (g : ghost) : Prop :=
  match r with Ok _ => through g | Err _ => True end.

Lemma step_succeeded_ok result g : ok ends_through (step_succeeded step result) g.
Proof. unfold step_succeeded. apply prog_ok_ask; [by cbn| |done]. intros []. by apply closing_ok. Qed.

Lemma step_returned_ok result g :
  gh_moved g = true -> ok ends_through (step_returned redact step result) g.
Proof.
  intros Hm. unfold step_returned.
  destruct (sr_result_contract (ps_rules step)) as [contract|]; [|apply step_succeeded_ok].
  destruct (validate_step_result result (Some contract)) as [u|e].
  - apply prog_ok_done. destruct (result_digest result) as [digest|]; [|done].
    apply prog_ok_then, record_event_ok; [done|by left| |done]. intros. apply step_succeeded_ok.
  - destruct (is_exception e); [|done]. by apply record_error_ok.
Qed.

Lemma step_raised_ok e g : ok ends_through (step_raised redact step e) g.
Proof.
  unfold step_raised. destruct (ordinary_error e); [|done]. cbn [negb].
  apply prog_ok_ask; [by cbn| |done]. intros facts.
  destruct (outcome_unknown step facts); by apply closing_ok.
Qed.

Lemma dispatch_step c d : step_dispatch X step c = Ok d -> ps_step_id (ds_step d) = ps_step_id step.
Proof.
  unfold step_dispatch. destruct (se_accepts_execution_context _); [by intros [= <-]|].
  destruct (se_accepts_fencing_token _); intros H; apply rbind_Ok in H as ([] & _ & H).
  - by injection H as <-.
  - apply rbind_Ok in H as (s & Hs & [= <-]). by apply made_Ok in Hs as [-> _].
Qed.

Lemma run_step_ok c started g :
  prepared X step deps (known_built g) c -> approved_for step (gh_state g) c ->
  ok ends_through (run_plan_step X redact step c started) g.
Proof.
  intros Hc Hap. unfold run_plan_step. apply prog_ok_then, record_event_ok; [done|by right| |done].
  intros st s' _ H. change (on_started st step (gh_state g) started = Ok s') in H.
  unfold on_started in H. apply rbind_Ok in H as (? & _ & H). apply rbind_Ok in H as (? & _ & H).
  apply rbind_Ok in H as (? & _ & [= <-]).
  apply prog_ok_sequel. unfold call_step. apply prog_ok_done.
  destruct (step_dispatch X step c) as [d|e] eqn:Ed; [|apply step_raised_ok].
  split_and!; [done|by eapply dispatch_step| |].
  - split; [done|]. by exists c.
  - intros [result|e]; [by apply step_returned_ok|apply step_raised_ok].
Qed.

Lemma prepared_reserver b c n : prepared X step deps b c -> prepared X step deps b (with_reserver n c).
Proof.
  intros [(rs & args & evs & ? & ? & ? & ? & [])  Hh]. split; [|done].
  exists rs, args, evs. by split_and!.
Qed.

Lemma started_data_ok c g :
  ok (fun r g' => match r with
                  | Ok _ => g' = g /\ approved_for step (gh_state g) c
                  | Err _ => True
                  end) (started_data step c) g.
Proof.
  unfold started_data, approved_for. destruct (sr_requires_approval (ps_rules step)); [|done].
  cbn [negb]. apply prog_ok_then. unfold read_step. apply prog_ok_read. intros st [Hs _].
  cbn [prog_ok]. rewrite (proj2 (step_state_Ok _ _ _) Hs).
  destruct (ss_approval_receipt (gh_state g)) as [r|] eqn:Er; [|done].
  case_bool_decide as Eh; cbn [negb]; [|done]. apply prog_ok_ask; [by cbn| |done]. intros v.
  apply prog_ok_done. destruct (clock_value v); [|done]. split; [done|]. intros _. by exists r.
Qed.

Lemma reserve_ok reserving c g :
  prepared X step deps (known_built g) c -> approved_for step (gh_state g) c ->
  ok (fun r g' => match r with
                  | Ok c' => g' = g /\ prepared X step deps (known_built g) c' /\ approved_for step (gh_state g) c'
                  | Err _ => True
                  end) (reserve_resources X reserving step c) g.
Proof.
  intros Hc Hap. unfold reserve_resources. destruct reserving; cbn [negb]; [|done].
  apply prog_ok_then. unfold read_step. apply prog_ok_read. intros st [Hs _].
  cbn [prog_ok]. rewrite (proj2 (step_state_Ok _ _ _) Hs).
  destruct (_ && _); [done|]. apply prog_ok_ask; [by cbn| |done]. intros [].
  destruct (se_counts_as_tool_call _); [|done]. cbn [prog_ok].
  destruct (made context_ok _) as [c'|] eqn:Em; [|done]. apply made_Ok in Em as [-> _].
  split; [done|]. split; [by apply prepared_reserver|done].
Qed.

(** The program of a step that has not begun keeps to its step, calls it at most as it
    is due, and is through with it when it returns. *)
Lemma execute_one_ok reserving g :
  is_in before_dispatch (gh_state g) = true ->
  ok ends_through (execute_one X redact reserving step) g.
Proof.
  intros Hb. unfold execute_one. apply prog_ok_ask; [by cbn| |done]. intros [].
  apply prog_ok_done.
  destruct (validate_step (px_policies X) step) as [u|]; [|done].
  apply prog_ok_then. eapply prog_ok_mono; [|apply prepare_context_ok].
  intros [[c|]|e] g' H; cbn [prepared_or_through] in H; [|destruct H as [H|[-> H]]; [done|by rewrite H in Hb]|done].
  destruct H as [_ Hc]. apply prog_ok_then. eapply prog_ok_mono; [|apply started_data_ok].
  intros [started|e] g1 H; [|done]. destruct H as [-> Hap].
  apply prog_ok_then. eapply prog_ok_mono; [|by apply (reserve_ok reserving c g')].
  intros [c'|e] g1 H; [|done]. destruct H as (-> & Hc' & Hap'). by apply run_step_ok.
Qed.
End Step.
