(* ===== verification/PlanBatch.v ===== *)
(** * Batches of a plan execution

    A task takes a bounded number of actions ([execute_one_within]), so a batch always
    ends, however its tasks are interleaved and wherever it is cut short; each keeps to
    its own step, so that what holds of one task alone holds of it in every batch
    ([run_tasks_ok]). *)

From S2P Require Import Prelude Tasks PyDict Text PyVal Json Sha256 OperationStore Service Approvals.
From S2P Require Import PlanTypes PlanGraph PlanValidator PlanState PlanSafety PlanDataflow.
From S2P Require Import PlanApproval PlanExecutor PlanTasks.
From Stdlib Require Import String.

#[local] Open Scope string_scope.
#[local] Open Scope bool_scope.
#[local] Open Scope Z_scope.
#[local] Arguments blank : simpl never.

(** ** How many actions a task takes *)
Section Within.
Context (X : PlanExecutor) (redact : string -> string) (step : PlanStep).

Lemma record_error_within ty e code fallback :
  within (record_error redact ty (ps_step_id step) e code fallback) 2.
Proof. by apply (within_then 1 1). Qed.
#[local] Hint Resolve record_error_within within_act : core.

Lemma hash_context_within c : within (hash_context X redact step c) 3.
Proof.
  unfold hash_context. destruct (negb _); [done|]. apply (within_sequel 1 2).
  - unfold authorization_action_hash. destruct (se_builds_authorization_action _); [|done].
    by apply (within_then 1 0).
  - intros [h|e].
    + apply (within_then 0 2); [done|]. by intros c'.
    + destruct (ordinary_error e); [|done]. by apply (within_then 2 0).
Qed.

Lemma prepare_context_within : within (prepare_context X redact step) 4.
Proof.
  unfold prepare_context. apply (within_then 1 3); [done|]. intros st.
  apply (within_then 0 3); [done|]. intros current. destruct (negb _); [done|].
  destruct (step_inputs step st) as [[results resolved]|e].
  2: { destruct (plan_error e); [|done]. by apply (within_then 2 1). }
  destruct (evaluate_preconditions step results) as [evaluations|e].
  2: { destruct (plan_error e); [|done]. by apply (within_then 2 1). }
  destruct (failed_conditions evaluations); [|by apply (within_then 1 2)].
  apply (within_then 0 3); [done|]. intros c. apply hash_context_within.
Qed.

Lemma started_data_within c : within (started_data step c) 2.
Proof.
  unfold started_data. destruct (negb _); [done|]. apply (within_then 1 1).
  { by apply (within_then 1 0). }
  intros current. destruct (ss_approval_receipt current); [|done]. destruct (negb _); [done|].
  apply (within_then 1 0); [done|]. intros v. by apply (within_then 0 0).
Qed.

Lemma reserve_within reserving c : within (reserve_resources X reserving step c) 2.
Proof.
  unfold reserve_resources. destruct (negb _); [done|]. apply (within_then 1 1).
  { by apply (within_then 1 0). }
  intros current. destruct (_ && _); [done|]. apply (within_then 1 0); [done|].
  intros []. by destruct (se_counts_as_tool_call _).
Qed.

Lemma step_succeeded_within result : within (step_succeeded step result) 2.
Proof. by apply (within_then 1 1). Qed.

Lemma run_step_within c started : within (run_plan_step X redact step c started) 5.
Proof.
  unfold run_plan_step. apply (within_then 1 4); [done|]. intros []. apply (within_sequel 1 3).
  { by apply (within_then 0 1). }
  intros [result|e].
  - unfold step_returned. destruct (sr_result_contract _) as [contract|].
    + destruct (validate_step_result result (Some contract)) as [u|e].
      * apply (within_then 0 3); [done|]. intros digest. apply (within_then 1 2); [done|].
        intros []. apply step_succeeded_within.
      * destruct (is_exception e); [|done]. by apply (within_mono _ 2); [lia|].
    + apply (within_mono _ 2); [lia|]. apply step_succeeded_within.
  - unfold step_raised. destruct (negb _); [done|]. apply (within_then 1 2); [done|].
    intros facts. by destruct (outcome_unknown step facts).
Qed.

Lemma execute_one_within reserving : within (execute_one X redact reserving step) task_actions.
Proof.
  unfold execute_one. apply (within_then 1 13); [done|]. intros [].
  apply (within_then 0 13); [done|]. intros []. apply (within_then 4 9).
  { apply prepare_context_within. }
  intros [c|]; [|done]. apply (within_then 2 7); [apply started_data_within|]. intros started.
  apply (within_then 2 5); [apply reserve_within|]. intros c'. apply run_step_within.
Qed.
End Within.

(** ** One action *)
Section Actions.
Context (X : PlanExecutor) (redact : string -> string) (W : PlanWorld).
Abbreviation p := (px_plan X).
Context (Hplan : NoDup (step_ids p)).

Lemma transition_inv sink st ty id data st' e :
  transition sink p st ty id data = Ok (st', e) ->
  apply_plan_event p st e = Ok st' /\ pe_type e = ty /\ pe_step_id e = id /\ pe_data e = data.
Proof.
  unfold transition. intros H. apply rbind_Ok in H as (e1 & He & H).
  apply made_Ok in He as [-> _]. apply rbind_Ok in H as (st1 & Hst & H).
  apply rbind_Ok in H as ([] & _ & H). by simplify_eq.
Qed.

Lemma apply_same_but st e st' : apply_plan_event p st e = Ok st' -> same_but (pe_step_id e) st st'.
Proof.
  intros (step & s & s' & _ & _ & _ & _ & _ & _ & ->)%apply_plan_event_Ok j Hj. cbn.
  by rewrite dget_dset_ne.
Qed.

(** An event of the step, as the step's state sees it *)
Lemma apply_own st e st' step s :
  step ∈ pl_steps p -> pe_step_id e = ps_step_id step -> dget (ps_step_id step) (xs_steps st) = Some s ->
  apply_plan_event p st e = Ok st' ->
  exists s', apply_step_event st step s (pe_data e) (pe_type e) = Ok s' /\
             dget (ps_step_id step) (xs_steps st') = Some s'.
Proof.
  intros Hin Hid Hs (step1 & s1 & s' & Hin1 & Hid1 & Hs1 & Hev & _ & _ & ->)%apply_plan_event_Ok.
  rewrite Hid in *. assert (step1 = step) as -> by (eapply (NoDup_map_inj ps_step_id); eauto).
  simplify_eq. exists s'. split; [done|]. cbn. by rewrite dget_dset_eq.
Qed.

(** What one task may do to an execution: its history grows by entries about its step
    only, and so does the state. *)
Record steps_by (i : string) (x x' : PlanRun) : Prop := {
  sb_history : exists new, xe_history x' = (new ++ xe_history x)%list /\
    Forall (fun n => forall j, j <> i -> concerns j n = false) new;
  sb_state : same_but i (xe_state x) (xe_state x');
  sb_rank : (plan_rank (xe_state x') <= plan_rank (xe_state x))%nat
}.

Section Task.
Context (st0 : PlanExecutionState) (h0 : history) (step : PlanStep) (deps : res pydict).
Context (Hin : step ∈ pl_steps p) (Hself : ps_step_id step ∉ ps_depends_on step).

(** An execution in which the task stands where it knows *)
Record tied (x : PlanRun) (g : ghost) : Prop := {
  td_new : exists new, follows X W st0 h0 new x /\
    (gh_armed g = true -> just_started (ps_step_id step) new) /\
    (forall c payload, known_built g c payload -> built_in W h0 new step c payload);
  td_agrees : agrees_with_state step (gh_state g) deps (xe_state x)
}.

Lemma follows_note new x n :
  (forall d, n <> Acted (CallStep d)) -> (forall e, n <> Recorded e) ->
  follows X W st0 h0 new x -> follows X W st0 h0 (n :: new) (with_entry n x).
Proof.
  intros Hn He [H1 H2 H3 H4]. split; cbn [xe_history xe_events xe_state with_entry with_transition].
  - by rewrite H1.
  - rewrite H2. destruct n as [e| | | |]; [by destruct (He e)|done..].
  - unfold history_state in *. rewrite <- H3. destruct n as [e| | | |]; [by destruct (He e)|done..].
  - intros [|m after] d before [= E1 E2]; [by destruct (Hn d)|]. by eapply H4.
Qed.

Lemma follows_recorded new x t :
  apply_plan_event p (xe_state x) (snd t) = Ok (fst t) ->
  follows X W st0 h0 new x -> follows X W st0 h0 (Recorded (snd t) :: new) (with_transition t x).
Proof.
  intros Ha [H1 H2 H3 H4]. split; cbn [xe_history xe_events xe_state with_entry with_transition].
  - by rewrite H1.
  - rewrite H2. by change (events_of (Recorded (snd t) :: new)) with (snd t :: events_of new).
  - unfold history_state in *.
    change (rev (events_of (Recorded (snd t) :: new))) with (rev (events_of new) ++ [snd t])%list.
    rewrite foldM_app.
    rewrite H3. cbn. by rewrite Ha.
  - intros [|m after] d before [= E1 E2]. by eapply H4.
Qed.

Lemma tied_note x g n :
  (forall d, n <> Acted (CallStep d)) -> (forall e, n <> Recorded e) ->
  tied x g -> tied (with_entry n x) g.
Proof.
  intros Hn He [(new & Hf & Ha & Hb) Hag]. split; [|done]. exists (n :: new).
  split_and!; [by apply follows_note| |].
  - intros H. apply just_started_cons; [|by apply Ha].
    destruct n as [e| |[]| |]; try done; [by destruct (He e)|by destruct (Hn d)].
  - intros c payload H%Hb. by apply (built_in_app W h0 [n]).
Qed.

(** A payload was built for the step. *)
Lemma tied_built x g c :
  tied x g -> tied (with_entry (Acted (BuildAction step c)) x)
                   (after_build c (wd_build W (xe_history x) step c) g).
Proof.
  intros Ht. destruct (tied_note x g (Acted (BuildAction step c))) as [(new & Hf & Ha & Hb) Hag]; try done.
  split; [|done]. exists new. split_and!; [done|done|]. intros c0 payload. unfold known_built, after_build.
  cbn [gh_built]. destruct (wd_build W (xe_history x) step c) as [v|e] eqn:Ev; [|by apply Hb].
  intros [[= -> ->]|H]%elem_of_cons; [|by apply Hb].
  destruct Ht as [(before & Hf0 & _) _].
  assert (new = Acted (BuildAction step c) :: before) as ->.
  { pose proof (fw_history _ _ _ _ _ _ Hf) as E. cbn [xe_history with_entry] in E.
    rewrite (fw_history _ _ _ _ _ _ Hf0) in E. change (Acted (BuildAction step c) :: before ++ h0)%list
      with ((Acted (BuildAction step c) :: before) ++ h0)%list in E. by apply app_inv_tail in E. }
  exists [], before. split; [done|]. by rewrite <- (fw_history _ _ _ _ _ _ Hf0).
Qed.

Lemma note_steps_by x n : (forall j, j <> ps_step_id step -> concerns j n = false) ->
  steps_by (ps_step_id step) x (with_entry n x).
Proof.
  intros Hn. split; [|by intros j _|done]. exists [n]. split; [done|]. by repeat constructor.
Qed.

(** The rule of every action *)
Lemma perform_sound x g a (k : res (action_answer a) -> ghost -> Prop) r x' :
  tied x g -> action_ok X step deps a g k -> perform_action X W a x = (r, x') ->
  exists g', k r g' /\ tied x' g' /\ steps_by (ps_step_id step) x x' /\
    (gh_moved g = true -> gh_moved g' = true) /\
    (gh_moved g = false -> gh_moved g' = true -> (plan_rank (xe_state x') < plan_rank (xe_state x))%nat) /\
    (gh_moved g' = false -> xe_state x' = xe_state x).
Proof.
  intros Ht Hok Hp.
  assert (Hplain : forall a', (forall d, a' <> CallStep d) -> (forall r, k r g) ->
            x' = with_entry (Acted a') x ->
    exists g', k r g' /\ tied x' g' /\ steps_by (ps_step_id step) x x' /\
      (gh_moved g = true -> gh_moved g' = true) /\
      (gh_moved g = false -> gh_moved g' = true -> (plan_rank (xe_state x') < plan_rank (xe_state x))%nat) /\
      (gh_moved g' = false -> xe_state x' = xe_state x)).
  { intros a' Ha' Hk ->. exists g. split_and!; try done.
    - apply tied_note; [|done|done]. intros d [= ->]. by destruct (Ha' d).
    - apply note_steps_by. intros j Hj. destruct a'; try done. by destruct (Ha' d).
    - intros ->. done. }
  destruct a as [|ty id data| | |s c| |d|]; cbn in Hok, Hp;
    try (injection Hp as <- <-; refine (Hplain _ _ Hok eq_refl); done).
  - injection Hp as <- <-. exists g. split_and!; try done.
    + apply Hok, (td_agrees _ _ Ht).
    + by apply tied_note.
    + by apply note_steps_by.
    + intros ->. done.
  - destruct Hok as (-> & Hty & Hadv & Hev & He). unfold record_transition in Hp.
    destruct (transition _ _ _ _ _ _) as [[st' e]|err] eqn:Et; injection Hp as <- <-.
    + apply transition_inv in Et as (Ha & Hty' & Hid & Hdata).
      destruct Ht as [(new & Hf & Harm & Hb) [Hs Hd]].
      destruct (apply_own _ _ _ _ _ Hin Hid Hs Ha) as (s' & Hev' & Hs').
      pose proof (apply_same_but _ _ _ Ha) as Hsame. rewrite Hid in Hsame.
      destruct (event_plan_rank p _ _ _ (gh_state g) Ha) as [Hr1 Hr2]; [by rewrite Hty'|by rewrite Hid|].
      rewrite Hty', Hdata in *.
      exists (after_event ty s' g). split_and!.
      * apply (Hev (xe_state x)); [by split|done].
      * split; cbn.
        -- exists (Recorded e :: new). split_and!; [by apply (follows_recorded new x (st', e))| |].
           ++ intros Hst%String.eqb_eq. rewrite <- Hid. by apply just_started_now; rewrite Hty'.
           ++ intros c payload H%Hb. by apply (built_in_app W h0 [_]).
        -- split; [done|]. rewrite <- Hd. apply dependency_results_same. intros j Hj.
           apply Hsame. by intros ->.
      * split; cbn; [|done|done]. exists [Recorded e]. split; [done|]. repeat constructor.
        intros j Hj. cbn. rewrite Hid. by apply String.eqb_neq.
      * done.
      * cbn. intros Hm _. apply Hr2. left. destruct Hadv as [Hadv|Hadv]; [congruence|done].
      * done.
    + exists g. split_and!; try done; [by apply tied_note|by apply note_steps_by|].
      intros ->. done.
  - destruct Hok as [-> Hk]. injection Hp as <- <-. eexists. split_and!; [apply Hk|by apply tied_built| |..].
    + by apply note_steps_by.
    + done.
    + cbn. intros ->. done.
    + done.
  - destruct Hok as (Harm & Hid & Hdue & Hk). injection Hp as <- <-.
    destruct Ht as [(new & Hf & Ha & Hb) [Hs Hd]].
    exists (after_call g). split_and!; try done.
    + split; cbn [gh_armed gh_state after_call]; [|by split]. exists (Acted (CallStep d) :: new).
      split_and!; [|done|intros c payload H%Hb; by apply (built_in_app W h0 [_])].
      destruct Hf as [H1 H2 H3 H4]. split; cbn [xe_history xe_events xe_state with_entry]; [by rewrite H1|done|done|].
      intros [|m after] d' before [= E1 E2]; [|by eapply H4]. subst.
      exists step, (xe_state x), (gh_state g). split_and!; try done; [|by apply Ha].
      rewrite Hd. destruct Hdue as [Hrun (c & Hc & Hap & Hdis)]. split; [done|]. exists c.
      split_and!; [|done..]. by eapply prepared_mono.
    + apply note_steps_by. intros j Hj. cbn. rewrite Hid. by apply String.eqb_neq.
    + cbn. intros ->. done.
Qed.
End Task.

(** What a task knows before it acts *)
Definition ghost_of (s : PlanStepState) : ghost := mkGhost s false false [].

Lemma ghost_start st0 h0 new x step s :
  follows X W st0 h0 new x ->
  exists new, follows X W st0 h0 new x /\
    (gh_armed (ghost_of s) = true -> just_started (ps_step_id step) new) /\
    (forall c payload, known_built (ghost_of s) c payload -> built_in W h0 new step c payload).
Proof. intros Hf. exists new. split_and!; [done..|]. intros c payload H. by apply elem_of_nil in H. Qed.

(** Another task's action leaves a task where it stands. *)
Lemma tied_kept st0 h0 step deps i x x' g :
  steps_by i x x' -> (exists new, follows X W st0 h0 new x') ->
  ps_step_id step <> i -> i ∉ ps_depends_on step ->
  tied st0 h0 step deps x g -> tied st0 h0 step deps x' g.
Proof.
  intros [(more & Hmore & Hab) Hsame _] (new' & Hf') Hne Hi [(new & Hf & Ha & Hb) Hag].
  split; [|by eapply agrees_kept].
  assert (new' = more ++ new)%list as ->.
  { rewrite (fw_history _ _ _ _ _ _ Hf'), (fw_history _ _ _ _ _ _ Hf), app_assoc in Hmore.
    by apply app_inv_tail in Hmore. }
  exists (more ++ new)%list. split_and!; [done| |intros c payload H%Hb; by apply built_in_app].
  intros H%Ha.
  clear -H Hab Hne. induction more as [|n more IH]; [done|].
  apply Forall_cons in Hab as [Hn Hab]. apply just_started_cons; [by apply Hn|by apply IH].
Qed.

(** ** Every order of the tasks *)

Section Batch.
Context (st0 : PlanExecutionState) (h0 : history) (steps : list PlanStep) (start : PlanExecutionState).
Context (Hsteps : forall step, step ∈ steps -> step ∈ pl_steps p).
Context (Hids : NoDup (map ps_step_id steps)).
Context (Hfree : forall step i, step ∈ steps -> i ∈ map ps_step_id steps -> i ∉ ps_depends_on step).

(** Where the batch stands: each task where it knows, the others untouched *)
Record batch_at (failed : option exn) (tasks : list (Prog unit)) (x : PlanRun) : Prop := {
  ba_length : List.length tasks = List.length steps;
  ba_follows : exists new, follows X W st0 h0 new x;
  ba_rank : (plan_rank (xe_state x) <= plan_rank start)%nat;
  ba_others : forall j, j ∉ map ps_step_id steps -> dget j (xs_steps (xe_state x)) = dget j (xs_steps start);
  ba_tasks : forall i step, steps !! i = Some step -> exists q g,
    tasks !! i = Some q /\
    prog_ok (step_rule X step (dependency_results step start)) ends_through q g /\
    tied st0 h0 step (dependency_results step start) x g /\
    (gh_moved g = true -> (plan_rank (xe_state x) < plan_rank start)%nat);
  ba_failed : failed = None -> forall i e, tasks !! i <> Some (Done (Err e))
}.

Lemma batch_stopped tasks x e :
  batch_at None tasks x -> option_map stop_error (wd_stops W (xe_history x)) = Some e ->
  batch_at (Some e) tasks x.
Proof. intros [H1 H2 H3 H4 H5 H6] _. by split. Qed.

(** A task that ends without having acted *)
Lemma batch_interrupted failed tasks x i :
  failed <> None -> (i < List.length tasks)%nat -> batch_at failed tasks x ->
  batch_at failed (<[i := Done (Err CancelledError)]> tasks) (with_entry (Interrupted i) x).
Proof.
  intros Hf Hi [H1 [new H2] H3 H4 H5 H6]. split; [by rewrite length_insert| |done|done| |done].
  - exists (Interrupted i :: new). by apply follows_note.
  - intros j step Hj. destruct (H5 j step Hj) as (q & g & Hq & Hok & Ht & Hm).
    assert (Ht' : tied st0 h0 step (dependency_results step start) (with_entry (Interrupted i) x) g)
      by by apply tied_note.
    destruct (decide (j = i)) as [->|Hne].
    + exists (Done (Err CancelledError)), g. split_and!; try done. by apply list_lookup_insert_eq.
    + exists q, g. split_and!; try done. by rewrite list_lookup_insert_ne.
Qed.

(** A task that acts *)
Lemma batch_acted failed tasks x i a k r x' :
  batch_at failed tasks x -> tasks !! i = Some (Act a k) -> perform_action X W a x = (r, x') ->
  batch_at (first_failure failed (k r)) (<[i := k r]> tasks) x'.
Proof.
  intros [H1 H2 H3 H4 H5 H6] Hi Hp.
  assert (Hlt : (i < List.length tasks)%nat) by by eapply lookup_lt_Some.
  destruct (lookup_lt_is_Some_2 steps i) as [step Hstep]; [lia|].
  destruct (H5 i step Hstep) as (q & g & Hq & Hok & Ht & Hm). rewrite Hi in Hq. injection Hq as <-.
  pose proof (list_elem_of_lookup_2 _ _ _ Hstep) as Hin.
  assert (Hself : ps_step_id step ∉ ps_depends_on step).
  { apply Hfree; [done|]. by apply list_elem_of_fmap_2. }
  destruct (perform_sound st0 h0 step _ (Hsteps _ Hin) Hself x g a _ r x' Ht Hok Hp)
    as (g' & Hok' & Ht' & Hby & Hmono & Hless & _).
  assert (Hf' : exists new, follows X W st0 h0 new x').
  { destruct Ht' as [(new & Hf & _) _]. by exists new. }
  split.
  - by rewrite length_insert.
  - done.
  - pose proof (sb_rank _ _ _ Hby). lia.
  - intros j Hj. rewrite <- H4 by done. apply (sb_state _ _ _ Hby). intros ->. apply Hj.
    by apply list_elem_of_fmap_2.
  - intros j step' Hj. destruct (decide (j = i)) as [->|Hne].
    + rewrite Hstep in Hj. injection Hj as <-. exists (k r), g'. split_and!; try done.
      * by apply list_lookup_insert_eq.
      * intros Hm'. destruct (gh_moved g) eqn:Eg.
        -- specialize (Hm eq_refl). pose proof (sb_rank _ _ _ Hby). lia.
        -- specialize (Hless eq_refl Hm'). lia.
    + destruct (H5 j step' Hj) as (q & g1 & Hq & Hok1 & Ht1 & Hm1). exists q, g1.
      pose proof (list_elem_of_lookup_2 _ _ _ Hj) as Hin'. split_and!; try done.
      * by rewrite list_lookup_insert_ne.
      * eapply tied_kept; [exact Hby|done| | |done].
        -- intros E. apply Hne. eapply (NoDup_lookup (map ps_step_id steps)); [done|..].
           ++ rewrite list_lookup_fmap, Hj. cbn. by rewrite E.
           ++ by rewrite list_lookup_fmap, Hstep.
        -- apply Hfree; [done|]. by apply list_elem_of_fmap_2.
      * intros Hmv%Hm1. pose proof (sb_rank _ _ _ Hby). lia.
  - intros [Hn Hk]%first_failure_none j e Hj. destruct (decide (j = i)) as [->|Hne].
    + rewrite list_lookup_insert_eq in Hj by done. injection Hj as Hj. by eapply Hk.
    + rewrite list_lookup_insert_ne in Hj by done. by eapply H6.
Qed.

(** What a batch leaves *)
Record batch_done (r : res unit) (x' : PlanRun) : Prop := {
  bd_follows : exists new, follows X W st0 h0 new x';
  bd_others : forall j, j ∉ map ps_step_id steps -> dget j (xs_steps (xe_state x')) = dget j (xs_steps start);
  bd_rank : (plan_rank (xe_state x') <= plan_rank start)%nat;
  bd_through : r = Ok tt -> forall step, step ∈ steps ->
    (plan_rank (xe_state x') < plan_rank start)%nat /\
    exists s, dget (ps_step_id step) (xs_steps (xe_state x')) = Some s /\ step_rank s = O
}.

Lemma batch_through failed tasks x :
  live_tasks tasks = [] -> batch_at failed tasks x ->
  batch_done (rbind (batch_result failed tasks) (fun _ => Ok tt)) x.
Proof.
  intros El [H1 H2 H3 H4 H5 H6]. split; [done..|]. intros Hr step [i Hi]%list_elem_of_lookup.
  destruct failed as [e|]; [done|]. destruct (H5 i step Hi) as (q & g & Hq & Hok & Ht & Hm).
  destruct q as [[[]|e]|a k].
  - destruct Hok as [Hmv Hs]. split; [by apply Hm|]. exists (gh_state g). split; [|done].
    apply (proj1 (td_agrees _ _ _ _ _ _ Ht)).
  - by destruct (H6 eq_refl i e).
  - assert (i ∈ live_tasks tasks) as Hl by (apply live_spec; eauto). rewrite El in Hl.
    by apply elem_of_nil in Hl.
Qed.

(** A batch of steps that wait to be started: it always ends, every step is called only
    as it is due, and if it returns every step is through. *)
Lemma execute_batch_ok x :
  xe_state x = start -> (exists new, follows X W st0 h0 new x) ->
  (forall step, step ∈ steps -> exists s, dget (ps_step_id step) (xs_steps start) = Some s /\
                                          is_in before_dispatch s = true) ->
  exists r x', execute_batch X redact W steps x = Some (r, x') /\ batch_done r x'.
Proof.
  intros Hx [new Hf] Hb. unfold execute_batch.
  set (tasks := map (execute_one X redact (is_some (wd_reserve W))) steps).
  assert (Hat : batch_at None tasks x).
  { split.
    - unfold tasks. by rewrite length_map.
    - by exists new.
    - by rewrite Hx.
    - by rewrite Hx.
    - intros i step Hi. destruct (Hb step) as (s & Hs & Hbs); [by eapply list_elem_of_lookup_2|].
      exists (execute_one X redact (is_some (wd_reserve W)) step), (ghost_of s).
      split_and!; [| |split; [by eapply ghost_start|by rewrite Hx]|done].
      + unfold tasks. by rewrite list_lookup_fmap, Hi.
      + by apply execute_one_ok.
    - intros _ i e Hi. unfold tasks in Hi. rewrite list_lookup_fmap in Hi.
      by destruct (steps !! i). }
  destruct (run_tasks_ends _ (fun x => wd_schedule W (xe_history x)) _
              (fun x => wd_interrupts W (xe_history x)) _ batch_at batch_stopped batch_interrupted batch_acted
              (batch_fuel tasks) None tasks x
              (repeat task_actions (List.length tasks)) Hat) as (f & ts & x' & Hrun & El & Hat').
  - unfold tasks. clear. induction steps as [|s l IH]; [constructor|].
    constructor; [apply execute_one_within|exact IH].
  - unfold batch_fuel. cbn [is_some]. generalize (List.length tasks). intros n.
    induction n as [|n IH]; [done|]. cbn [repeat list_sum foldr] in *. unfold list_sum in IH. lia.
  - eexists _, _. split; [|by eapply batch_through]. unfold xbind, xcatch, run_steps.
    rewrite Hrun.
    by destruct f.
Qed.
End Batch.
End Actions.
