(* ===== verification/PlanExecution.v ===== *)
(** * Executions of a plan

    The executor's rounds around its batches.  Every piece of a round moves the plan
    forward ([forward]) and says so truthfully, so the rounds end
    ([rounds_end]); whatever an execution does, its events replay and its calls are due
    ([follows]).  [steps_are_called_when_due] and [execution_settles_the_plan] are the
    guarantees. *)

From S2P Require Import Prelude Tasks PyDict Text PyVal Json Sha256 OperationStore Service Approvals.
From S2P Require Import PlanTypes PlanGraph PlanValidator PlanState PlanSafety PlanDataflow.
From S2P Require Import PlanApproval PlanExecutor PlanTasks PlanBatch.
From Stdlib Require Import String.

#[local] Open Scope string_scope.
#[local] Open Scope bool_scope.
#[local] Open Scope Z_scope.
#[local] Arguments blank : simpl never.

(** ** Reading the state *)

Lemma ends_state {B} (k : PlanExecutionState -> exec B) x Q :
  ends (k (xe_state x)) x Q -> ends (xbind xstate k) x Q.
Proof. intros H. apply ends_bind. by exists (Ok (xe_state x)), x. Qed.

(** ** Moving forward *)

(** Neither running nor waiting for its first approval or start *)
Definition resting (s : PlanStepState) : Prop := step_rank s <> 1%nat /\ step_rank s <> 4%nat.

(** Every step is as it was, or rests. *)
Definition forward (st st' : PlanExecutionState) : Prop :=
  (plan_rank st' <= plan_rank st)%nat /\
  forall i s', dget i (xs_steps st') = Some s' -> dget i (xs_steps st) = Some s' \/ resting s'.

#[export] Instance forward_preorder : PreOrder forward.
Proof.
  split; [intros st; split; [lia|by left]|].
  intros st1 st2 st3 [H1 H2] [H3 H4]. split; [lia|].
  intros i s' [Hs|Hr]%H4; [by apply H2|by right].
Qed.

(** The events of the executor outside its batches *)
Definition resting_events : list string :=
  ["step_waiting_approval"; "step_approval_granted"; "step_approval_denied"] ++ closing_events.

Lemma resting_event st step s d ty s' :
  ty ∈ resting_events -> apply_step_event st step s d ty = Ok s' ->
  ty <> "step_recovered" /\ resting s'.
Proof.
  intros Hin H. unfold resting_events in Hin. apply elem_of_app in Hin as [Hin|Hin].
  - assert (Hne : ty <> "step_recovered").
    { intros ->. repeat (apply elem_of_cons in Hin as [Hin|Hin]; [done|]). by apply elem_of_nil in Hin. }
    split; [done|]. destruct (event_rank _ _ _ _ _ _ H Hne) as [Hle _].
    split; [|lia]. repeat (apply elem_of_cons in Hin as [->|Hin]); [..|by apply elem_of_nil in Hin].
    + change (on_waiting_approval step s d = Ok s') in H. unfold on_waiting_approval in H.
      split_checks H. by injection H as <-.
    + change (on_approval_granted st step s d = Ok s') in H. unfold on_approval_granted in H.
      split_checks H. by injection H as <-.
    + change (on_approval_denied s d = Ok s') in H. unfold on_approval_denied in H.
      split_checks H. by injection H as <-.
  - destruct (closing_event step st s d ty s') as (? & _ & Hr); [by apply mem_str_spec|done|].
    split; [done|]. unfold resting. rewrite Hr. by split.
Qed.

Lemma resting_change st st' i s s' :
  same_but i st st' -> dget i (xs_steps st) = Some s -> dget i (xs_steps st') = Some s' -> resting s' ->
  (plan_rank st' <= plan_rank st)%nat -> forward st st'.
Proof.
  intros Hsame Hs Hs' Hr Hle. split; [done|]. intros j t Hj.
  destruct (decide (j = i)) as [->|Hne]; [right; by simplify_eq|]. left. by rewrite <- Hsame.
Qed.

Section Rounds.
Context (X : PlanExecutor) (redact : string -> string) (W : PlanWorld).
Abbreviation p := (px_plan X).
Context (Hchecked : checked_plan p) (prior : list PlanEvent) (st0 : PlanExecutionState) (h0 : history).
Context (Hprior : replay_plan p prior = Ok st0).

Lemma ids_distinct : NoDup (step_ids p).
Proof. apply plan_ids_nodup, Hchecked. Qed.
#[local] Hint Resolve ids_distinct : core.

(** The execution follows from its start. *)
Definition sound (x : PlanRun) : Prop := exists new, follows X W st0 h0 new x.

(** The whole log, from before the execution on, replays to the state. *)
Lemma sound_replay new x :
  follows X W st0 h0 new x -> replay_plan p (prior ++ xe_events x) = Ok (xe_state x).
Proof.
  intros Hf. unfold replay_plan. rewrite foldM_app. unfold replay_plan in Hprior. rewrite Hprior.
  cbn [rbind]. rewrite (fw_events _ _ _ _ _ _ Hf). apply (fw_state _ _ _ _ _ _ Hf).
Qed.

Lemma sound_inv x : sound x -> plan_inv p (xe_state x).
Proof. intros [new Hf%sound_replay]. eapply replay_inv; [apply Hchecked|exact Hf]. Qed.

(** Every step of the plan has a state. *)
Lemma step_has_state x i : sound x -> i ∈ step_ids p ->
  exists step s, step ∈ pl_steps p /\ ps_step_id step = i /\ dget i (xs_steps (xe_state x)) = Some s.
Proof.
  intros Hx%sound_inv Hi. destruct (dget_elem (xs_steps (xe_state x)) i) as [s Hs].
  { by rewrite (vi_keys _ _ Hx). }
  apply step_ids_elem in Hi as (step & Hin & Hid). by exists step, s.
Qed.

Lemma not_self step : step ∈ pl_steps p -> ps_step_id step ∉ ps_depends_on step.
Proof.
  intros Hin Hd. pose proof (proj2 Hchecked) as Hf. rewrite Forall_forall in Hf.
  specialize (Hf step Hin). unfold plan_step_ok in Hf. apply rbind_Ok in Hf as (? & _ & Hf).
  apply rbind_Ok in Hf as (? & _ & Hf). apply rbind_Ok in Hf as (? & Hn%demand_Ok & _).
  apply negb_true_iff, not_true_iff_false in Hn. by apply Hn, mem_str_spec.
Qed.

(** ** The pieces of a round *)

Lemma sound_same x x' n :
  (forall d, n <> Acted (CallStep d)) -> (forall e, n <> Recorded e) ->
  xe_state x' = xe_state x -> xe_events x' = xe_events x -> xe_history x' = n :: xe_history x ->
  sound x -> sound x'.
Proof.
  intros Hn He Hst Hev Hh [new Hf]. exists (n :: new).
  destruct (follows_note X W st0 h0 new x n Hn He Hf) as [H1 H2 H3 H4].
  split; [by rewrite Hh|by rewrite Hev|by rewrite Hst|done].
Qed.

(** What a piece that moves the plan by one step leaves *)
Definition moved_by (step : PlanStep) (s' : PlanStepState) (x x' : PlanRun) : Prop :=
  dget (ps_step_id step) (xs_steps (xe_state x')) = Some s' /\ resting s' /\
  same_but (ps_step_id step) (xe_state x) (xe_state x') /\ forward (xe_state x) (xe_state x').

Lemma recorded_ok x t step s :
  sound x -> step ∈ pl_steps p -> dget (ps_step_id step) (xs_steps (xe_state x)) = Some s ->
  apply_plan_event p (xe_state x) (snd t) = Ok (fst t) -> pe_step_id (snd t) = ps_step_id step ->
  pe_type (snd t) ∈ resting_events ->
  sound (with_transition t x) /\
  (exists s', moved_by step s' x (with_transition t x)) /\
  (advancing (pe_type (snd t)) = true \/ (2 < step_rank s)%nat ->
   (plan_rank (xe_state (with_transition t x)) < plan_rank (xe_state x))%nat).
Proof.
  intros [new Hf] Hin Hs Ha Hid Hty.
  destruct (apply_own X ids_distinct _ _ _ _ _ Hin Hid Hs Ha) as (s' & Hev & Hs').
  destruct (resting_event _ _ _ _ _ _ Hty Hev) as [Hne Hr].
  destruct (event_plan_rank p _ _ _ s Ha Hne) as [Hle Hlt]; [by rewrite Hid|].
  pose proof (apply_same_but X _ _ _ Ha) as Hsame. rewrite Hid in Hsame.
  split; [|split; [|exact Hlt]].
  - exists (Recorded (snd t) :: new). by apply follows_recorded.
  - exists s'. split_and!; try done. by eapply resting_change.
Qed.

Lemma event_ends x ty data step s :
  sound x -> step ∈ pl_steps p -> dget (ps_step_id step) (xs_steps (xe_state x)) = Some s ->
  ty ∈ resting_events -> advancing ty = true ->
  ends (run_event X W ty (ps_step_id step) data) x (fun r x' =>
    sound x' /\ match r with
                | Ok _ => (exists s', moved_by step s' x x') /\
                          (plan_rank (xe_state x') < plan_rank (xe_state x))%nat
                | Err _ => True
                end).
Proof.
  intros Hx Hin Hs Hty Hadv. unfold ends, run_event, record_transition.
  destruct (transition _ _ _ _ _ _) as [[st' e]|err] eqn:Et; eexists _, _; (split; [done|]).
  - apply transition_inv in Et as (Ha & Hty' & Hid & _).
    destruct (recorded_ok x (st', e) step s) as (H1 & H2 & H3); cbn [fst snd]; try done.
    { by rewrite Hty'. }
    split; [done|]. split; [done|]. apply H3. left. change (advancing (pe_type e) = true). by rewrite Hty'.
  - split; [|done]. by apply (sound_same x _ (Refused (ps_step_id step))).
Qed.

(** *** Blocked steps *)

Definition untouched (x : PlanRun) (l : list string) (x' : PlanRun) : Prop :=
  forall i, i ∈ l -> dget i (xs_steps (xe_state x')) = dget i (xs_steps (xe_state x)).

Lemma moved_untouched x0 step s' x x' l :
  moved_by step s' x x' -> ps_step_id step ∉ l -> untouched x0 l x -> untouched x0 l x'.
Proof.
  intros (_ & _ & Hsame & _) Hn Hu i Hi. rewrite Hsame; [by apply Hu|]. by intros ->.
Qed.

(** Where a loop over distinct steps stands that started at [x0] with the flag [before],
    and what it has done *)
Record loop_at (before : bool) (x0 : PlanRun) (l : list string) (changed : bool) (x : PlanRun)
  : Prop := {
  la_sound : sound x;
  la_distinct : NoDup l;
  la_untouched : untouched x0 l x;
  la_forward : forward (xe_state x0) (xe_state x);
  la_changed : changed = true ->
    before = true \/ (plan_rank (xe_state x) < plan_rank (xe_state x0))%nat;
  la_same : changed = false -> before = false /\ xe_state x = xe_state x0
}.

Lemma loop_start before x l : sound x -> NoDup l -> loop_at before x l before x.
Proof. intros Hx Hl. split; try done; by left. Qed.

(** One loop after another *)
Lemma loop_then before x0 changed x changed' x' :
  loop_at before x0 [] changed x -> loop_at changed x [] changed' x' ->
  loop_at before x0 [] changed' x'.
Proof.
  intros [H1 H2 H3 H4 H5 H6] [K1 K2 K3 K4 K5 K6]. split; try done.
  - intros i Hi. by apply elem_of_nil in Hi.
  - by etrans.
  - pose proof (proj1 H4). pose proof (proj1 K4). intros [->|Hlt]%K5; [|right; lia].
    destruct (H5 eq_refl); [by left|right; lia].
  - intros [-> ->]%K6. by apply H6.
Qed.

(** A step of the list is left as it is, or is moved. *)
Lemma loop_skip before x0 i l changed x : loop_at before x0 (i :: l) changed x -> loop_at before x0 l changed x.
Proof.
  intros [H1 [Hi Hl]%NoDup_cons H3 H4 H5 H6]. split; try done. intros j Hj. apply H3. by right.
Qed.

Lemma loop_moved before x0 step s' l changed x x' :
  loop_at before x0 (ps_step_id step :: l) changed x -> sound x' -> moved_by step s' x x' ->
  (plan_rank (xe_state x') < plan_rank (xe_state x))%nat -> loop_at before x0 l true x'.
Proof.
  intros [H1 [Hi Hl]%NoDup_cons H3 H4 H5 H6] Hx' Hm Hlt. split; try done.
  - eapply moved_untouched; [exact Hm|done|]. intros j Hj. apply H3. by right.
  - etrans; [exact H4|]. apply Hm.
  - intros _. right. pose proof (proj1 H4). lia.
Qed.

(** Something was left unchanged. *)
Lemma loop_noted before x0 l changed x x' :
  sound x' -> xe_state x' = xe_state x -> loop_at before x0 l changed x -> loop_at before x0 l changed x'.
Proof. intros Hx' Hst [H1 H2 H3 H4 H5 H6]. split; unfold untouched in *; by rewrite ?Hst. Qed.

(** A piece of a round: it ends with a truthful flag, or fails soundly. *)
Definition piece_done (before : bool) (x0 : PlanRun) (r : res bool) (x' : PlanRun) : Prop :=
  match r with Ok changed => loop_at before x0 [] changed x' | Err _ => sound x' end.

Lemma moved_piece before x0 step l changed x r x' :
  loop_at before x0 (ps_step_id step :: l) changed x ->
  sound x' /\ match r with
              | Ok _ => (exists s', moved_by step s' x x') /\
                        (plan_rank (xe_state x') < plan_rank (xe_state x))%nat
              | Err _ => True
              end ->
  match r : res unit with Ok _ => loop_at before x0 l true x' | Err _ => sound x' end.
Proof.
  intros Hl [Hx' H]. destruct r as [[]|e]; [|done]. destruct H as [[s' Hm] Hlt]. by eapply loop_moved.
Qed.

Context (g : DependencyGraph) (Hg : graph_of p g).

Lemma order_ids i : i ∈ dg_topological_order g <-> i ∈ step_ids p.
Proof. by rewrite (go_order _ _ Hg). Qed.

Lemma order_distinct : NoDup (dg_topological_order g).
Proof. by rewrite (go_order _ _ Hg). Qed.

Lemma all_present x : sound x ->
  forall i, i ∈ dg_topological_order g -> dmem i (xs_steps (xe_state x)) = true.
Proof.
  intros Hx i Hi%order_ids. destruct (step_has_state x i Hx Hi) as (step & s & _ & _ & Hs).
  apply dmem_spec. by exists s.
Qed.

Lemma status_pending st i :
  status_of st i = Some StepPending <-> exists s, dget i (xs_steps st) = Some s /\ ss_status s = StepPending.
Proof.
  unfold status_of. destruct (dget i (xs_steps st)) as [s|]; cbn.
  - split; [intros [= H]; by exists s|]. by intros (s' & [= <-] & ->).
  - split; [done|]. by intros (s' & ? & _).
Qed.

Lemma pending_distinct st test l : pending_steps g st test = Ok l -> NoDup l.
Proof.
  unfold pending_steps. destruct (forallb _ _); [|done]. intros [= <-].
  apply NoDup_ListNoDup, List.NoDup_filter, NoDup_ListNoDup, order_distinct.
Qed.

(** The blocked steps and the ready steps are distinct pending steps. *)
Lemma pending_list x test :
  sound x -> exists l, pending_steps g (xe_state x) test = Ok l /\ NoDup l /\
  forall i, i ∈ l -> test i = true /\
    exists step s, step ∈ pl_steps p /\ ps_step_id step = i /\
                   dget i (xs_steps (xe_state x)) = Some s /\ ss_status s = StepPending.
Proof.
  intros Hx. destruct (pending_steps_spec g (xe_state x) test (all_present x Hx)) as (l & Hl & Hspec).
  exists l. split; [done|]. split; [by eapply pending_distinct|].
  intros i (Ho%order_ids & (s & Hs & Hp)%status_pending & Ht)%Hspec. split; [done|].
  destruct (step_has_state x i Hx Ho) as (step & s1 & Hin & Hid & Hs1). simplify_eq.
  by exists step, s.
Qed.

Lemma pending_before s : ss_status s = StepPending -> is_in before_dispatch s = true.
Proof. intros H. apply is_in_spec. rewrite H. left. Qed.

Lemma skip_event : "step_skipped" ∈ resting_events.
Proof. apply (bool_decide_unpack _). done. Qed.

Lemma skip_blocked_ends fuel : forall before x0 changed x,
  loop_at before x0 [] changed x -> (plan_rank (xe_state x) < fuel)%nat ->
  ends (skip_blocked_steps X W fuel g changed) x (fun r x' =>
    piece_done before x0 r x' /\ (is_ok r = true -> blocked_steps g (xe_state x') = Ok [])).
Proof.
  induction fuel as [|fuel IH]; intros before x0 changed x Hl Hlt; [lia|]. cbn [skip_blocked_steps].
  apply ends_state, ends_lift_bind.
  pose proof (la_sound _ _ _ _ _ Hl) as Hx. unfold blocked_steps.
  destruct (pending_list x (fun i => existsb (has_status (xe_state x) terminal_failures)
              (set_at i (dg_dependencies g))) Hx) as (l & Hbl & Hnd & Hspec).
  rewrite Hbl. destruct l as [|b l]; [by apply ends_lift|].
  apply ends_bind.
  assert (Hstart : loop_at false x (b :: l) false x) by by apply loop_start.
  eapply ends_mono; [|apply (ends_for_each _ (fun l' _ x' =>
    (forall i, i ∈ l' -> i ∈ b :: l) /\ exists ch, loop_at false x l' ch x' /\ (l' = b :: l \/ ch = true))
    (fun _ x' => sound x'))].
  - intros [[]|e] x' H; [|by split]. destruct H as (_ & ch & Hl' & [H| ->]); [done|].
    destruct (la_changed _ _ _ _ _ Hl' eq_refl) as [|Hlt']; [done|]. apply IH; [|lia].
    destruct Hl as [H1 H2 H3 H4 H5 H6]. split; try done.
    + apply Hl'.
    + intros i Hi. by apply elem_of_nil in Hi.
    + etrans; [exact H4|]. apply Hl'.
    + intros _. right. pose proof (proj1 H4). lia.
  - intros i l' [] x1 (Hsub & ch & Hl' & _).
    destruct (Hspec i) as (_ & step & s & Hin & Hid & Hs & Hp); [apply Hsub; left|]. subst i.
    unfold skip_blocked_step. apply ends_state.
    eapply ends_mono; [|eapply (event_ends x1 "step_skipped" _ step s)].
    + intros r x2 Hr%(moved_piece false x _ l' ch _ _ _ Hl'). destruct r as [[]|]; [|done].
      split; [intros i Hi; apply Hsub; by right|]. exists true. split; [done|by right].
    + apply Hl'.
    + done.
    + rewrite (la_untouched _ _ _ _ _ Hl') by left. exact Hs.
    + apply skip_event.
    + done.
  - split; [done|]. exists false. split; [done|by left].
Qed.

Lemma skip_pending_ends reason before x0 x changed :
  loop_at before x0 (dg_topological_order g) changed x ->
  ends (run_for_each (skip_pending_step X W reason) (dg_topological_order g) changed) x (piece_done before x0).
Proof.
  intros Hl. eapply ends_mono; [|apply (ends_for_each _ (fun l ch x' =>
    (forall i, i ∈ l -> i ∈ step_ids p) /\ loop_at before x0 l ch x') (fun _ x' => sound x'))].
  - intros [ch|e] x' H; [by destruct H|done].
  - intros i l ch x1 [Hsub Hl1]. unfold skip_pending_step, step_now.
    destruct (step_has_state x1 i (la_sound _ _ _ _ _ Hl1)) as (step & s & Hin & <- & Hs).
    { apply Hsub. left. }
    apply ends_bind, ends_state, ends_lift. rewrite (proj2 (step_state_Ok _ _ _) Hs).
    assert (Hsub' : forall i, i ∈ l -> i ∈ step_ids p) by (intros i Hi; apply Hsub; by right).
    destruct (is_in before_dispatch s) eqn:Eb; cbn [negb].
    2: { apply ends_lift. split; [done|]. by eapply loop_skip. }
    apply ends_bind. eapply ends_mono; [|eapply (event_ends x1 "step_skipped" _ step s)].
    + intros r x2 Hr%(moved_piece before x0 _ l ch _ _ _ Hl1). destruct r as [[]|]; [|done].
      by apply ends_lift.
    + apply Hl1.
    + done.
    + exact Hs.
    + apply skip_event.
    + done.
  - split; [|done]. intros i. apply order_ids.
Qed.

(** *** Preparing a step between batches *)

Lemma steps_by_trans i x x1 x2 : steps_by i x x1 -> steps_by i x1 x2 -> steps_by i x x2.
Proof.
  intros [(n1 & E1 & A1) S1 R1] [(n2 & E2 & A2) S2 R2]. split; [|intros j Hj; by rewrite S2, S1|lia].
  exists (n2 ++ n1)%list. split; [by rewrite E2, E1, app_assoc|]. by apply Forall_app.
Qed.

Lemma run_prog_sound {A} (q : Prog A) step deps (post : res A -> ghost -> Prop) : forall x gh,
  step ∈ pl_steps p -> tied X W st0 h0 step deps x gh -> prog_ok (step_rule X step deps) post q gh ->
  exists gh', post (fst (run_prog (perform_action X W) q x)) gh' /\
    tied X W st0 h0 step deps (snd (run_prog (perform_action X W) q x)) gh' /\
    steps_by (ps_step_id step) x (snd (run_prog (perform_action X W) q x)) /\
    (gh_moved gh = true -> gh_moved gh' = true) /\
    (gh_moved gh = false -> gh_moved gh' = true ->
     (plan_rank (xe_state (snd (run_prog (perform_action X W) q x))) < plan_rank (xe_state x))%nat) /\
    (gh_moved gh' = false -> xe_state (snd (run_prog (perform_action X W) q x)) = xe_state x).
Proof.
  induction q as [r|a k IH]; intros x gh Hin Ht Hok; cbn [run_prog fst snd].
  - exists gh. split_and!; try done; [|congruence]. split; [by exists []|by intros j _|done].
  - cbn [prog_ok] in Hok. destruct (perform_action X W a x) as [r x1] eqn:Ep.
    destruct (perform_sound X W ids_distinct st0 h0 step deps Hin (not_self _ Hin) _ _ _ _ _ _ Ht Hok Ep)
      as (g1 & Hok1 & Ht1 & Hby1 & Hm1 & Hl1 & He1).
    destruct (IH r x1 g1 Hin Ht1 Hok1) as (g2 & Hp & Ht2 & Hby2 & Hm2 & Hl2 & He2).
    exists g2. split_and!; try done.
    + by eapply steps_by_trans.
    + auto.
    + intros E0 E2. pose proof (sb_rank _ _ _ Hby1). pose proof (sb_rank _ _ _ Hby2).
      destruct (gh_moved g1) eqn:E1; [specialize (Hl1 E0 eq_refl)|specialize (Hl2 eq_refl E2)]; lia.
    + intros E2. rewrite He2 by done. apply He1. destruct (gh_moved g1); [|done].
      by rewrite Hm2 in E2.
Qed.

Lemma prepare_ends x step s :
  sound x -> step ∈ pl_steps p -> dget (ps_step_id step) (xs_steps (xe_state x)) = Some s ->
  is_in before_dispatch s = true ->
  ends (prepare_step X redact W step) x (fun r x' => sound x' /\
    match r with
    | Ok (Some _) => xe_state x' = xe_state x
    | Ok None => (exists s', moved_by step s' x x') /\
                 (plan_rank (xe_state x') < plan_rank (xe_state x))%nat
    | Err _ => True
    end).
Proof.
  intros [new Hf] Hin Hs Hb. unfold prepare_step.
  destruct (run_prog_sound (prepare_context X redact step) step (dependency_results step (xe_state x))
              (prepared_or_through X step (dependency_results step (xe_state x)) (ghost_of s))
              x (ghost_of s) Hin) as (g' & Hp & Ht & Hby & _ & Hl & He).
  { split; [by apply (ghost_start X W st0 h0 new)|by split]. }
  { apply prepare_context_ok. }
  eexists _, _. split; [apply f_equal, surjective_pairing|].
  split; [destruct Ht as [(new' & Hf' & _) _]; by exists new'|].
  destruct (fst (run_prog _ _ _)) as [[c|]|e]; [|..|done].
  - destruct Hp as [[_ Hm] _]. by apply He.
  - destruct Hp as [[Hm Hr]|[-> H]]; [|change (is_in before_dispatch s = false) in H; by rewrite Hb in H]. split; [|by apply Hl].
    exists (gh_state g'). assert (resting (gh_state g')) by (unfold resting; by rewrite Hr).
    split_and!; try done; [apply (td_agrees _ _ _ _ _ _ _ _ Ht)|apply Hby|].
    eapply resting_change; [apply Hby|exact Hs|apply (td_agrees _ _ _ _ _ _ _ _ Ht)|done|apply Hby].
Qed.

(** *** Asking the barrier *)

Lemma decided_event step s d t x :
  apply_decision (sink_at W (xe_history x)) p (xe_state x) step d = Ok (Some t) ->
  dget (ps_step_id step) (xs_steps (xe_state x)) = Some s ->
  apply_plan_event p (xe_state x) (snd t) = Ok (fst t) /\
  pe_step_id (snd t) = ps_step_id step /\ pe_type (snd t) ∈ resting_events.
Proof.
  unfold apply_decision. intros H Hs. rewrite (proj2 (step_state_Ok _ _ _) Hs) in H. cbn [rbind] in H.
  assert (Hc : forall ty data, ty ∈ resting_events ->
    (let! t := transition (sink_at W (xe_history x)) p (xe_state x) ty (ps_step_id step) data in
     Ok (Some t)) = Ok (Some t) ->
    apply_plan_event p (xe_state x) (snd t) = Ok (fst t) /\
    pe_step_id (snd t) = ps_step_id step /\ pe_type (snd t) ∈ resting_events).
  { intros ty data Hty Ht. apply rbind_Ok in Ht as ([st' e] & Ht & [= <-]).
    apply transition_inv in Ht as (Ha & Hty' & Hid & _). cbn. by rewrite Hty'. }
  destruct (pd_approved d) as [[]|].
  - eapply Hc; [|exact H]. apply (bool_decide_unpack _). done.
  - eapply Hc; [|exact H]. apply (bool_decide_unpack _). done.
  - destruct (is_in [StepWaitingApproval] s); [done|]. eapply Hc; [|exact H].
    apply (bool_decide_unpack _). done.
Qed.

Lemma undecided step s d x :
  apply_decision (sink_at W (xe_history x)) p (xe_state x) step d = Ok None ->
  dget (ps_step_id step) (xs_steps (xe_state x)) = Some s -> ss_status s = StepWaitingApproval.
Proof.
  unfold apply_decision. intros H Hs. rewrite (proj2 (step_state_Ok _ _ _) Hs) in H. cbn [rbind] in H.
  destruct (pd_approved d) as [[]|].
  - by apply rbind_Ok in H as (? & _ & H).
  - by apply rbind_Ok in H as (? & _ & H).
  - destruct (is_in [StepWaitingApproval] s) eqn:E; [by apply is_in_one|].
    by apply rbind_Ok in H as (? & _ & H).
Qed.

Lemma resolve_ends x step s c :
  sound x -> step ∈ pl_steps p -> dget (ps_step_id step) (xs_steps (xe_state x)) = Some s ->
  (2 < step_rank s)%nat ->
  ends (resolve_approval X W step c) x (fun r x' => sound x' /\
    match r with
    | Ok true => (exists s', moved_by step s' x x') /\
                 (plan_rank (xe_state x') < plan_rank (xe_state x))%nat
    | Ok false => xe_state x' = xe_state x /\ ss_status s = StepWaitingApproval
    | Err _ => xe_state x' = xe_state x
    end).
Proof.
  intros Hx Hin Hs Hr. unfold resolve_approval.
  destruct (wd_barrier W) as [services|]; [|by apply ends_lift].
  destruct (pc_authorization_action_hash c) as [h|]; [|by apply ends_lift].
  apply ends_lift_bind. destruct (made plan_step_ok (authorized_step step h)) as [step'|]; [|done].
  apply ends_bind. unfold ask_barrier at 1, ends at 1.
  destruct (authorize _ _ _ _ _ _ _) as [ids decision].
  set (x1 := mkPlanRun _ _ ids _).
  assert (Hx1 : sound x1) by by apply (sound_same x x1 (Asked step' (xe_state x))).
  eexists _, _. split; [done|]. destruct decision as [d|e]; [|done].
  unfold ends, record_decision.
  destruct (apply_decision _ _ _ _ _) as [[t|]|e] eqn:Ed; eexists _, _; (split; [done|]).
  - destruct (decided_event step s d t x1 Ed Hs) as (Ha & Hid & Hty).
    destruct (recorded_ok x1 t step s Hx1 Hin Hs Ha Hid Hty) as (H1 & (s' & H2) & H3).
    split; [done|]. split; [by exists s'|]. apply H3. by right.
  - split; [done|]. split; [done|]. by apply (undecided step s d x1 Ed).
  - split; [|done]. by apply (sound_same x1 _ (Refused (ps_step_id step))).
Qed.

Lemma wait_event : "step_waiting_approval" ∈ resting_events.
Proof. apply (bool_decide_unpack _). done. Qed.

Lemma wait_ends x step s c :
  sound x -> step ∈ pl_steps p -> dget (ps_step_id step) (xs_steps (xe_state x)) = Some s ->
  ends (wait_for_step_approval X W step c) x (fun r x' => sound x' /\
    match r with
    | Ok _ => (exists s', moved_by step s' x x') /\
              (plan_rank (xe_state x') < plan_rank (xe_state x))%nat
    | Err _ => True
    end).
Proof.
  intros Hx Hin Hs. unfold wait_for_step_approval. apply ends_lift_bind.
  destruct (stable_approval_request_id _ _ _) as [id|]; [|done].
  eapply event_ends; [done|done|exact Hs|apply wait_event|done].
Qed.

Lemma resolve_or_wait_ends x step s c :
  sound x -> step ∈ pl_steps p -> dget (ps_step_id step) (xs_steps (xe_state x)) = Some s ->
  (2 < step_rank s)%nat ->
  ends (resolve_or_wait X W step c) x (fun r x' => sound x' /\
    match r with
    | Ok true => (exists s', moved_by step s' x x') /\
                 (plan_rank (xe_state x') < plan_rank (xe_state x))%nat
    | Ok false => xe_state x' = xe_state x /\ ss_status s = StepWaitingApproval
    | Err _ => True
    end).
Proof.
  intros Hx Hin Hs Hr. unfold resolve_or_wait. apply ends_catch.
  eapply ends_mono; [|by apply (resolve_ends x step s c)]. intros r x' [Hx' H].
  assert (Hraise : forall e, xe_state x' = xe_state x -> ends
    (match e with
     | PlanExecutionError =>
         xbind (step_now (ps_step_id step)) (fun current =>
         xbind (if is_in [StepPending] current then wait_for_step_approval X W step c else xret tt)
           (fun _ => xlift (Err PlanExecutionError)))
     | _ => xlift (Err e)
     end) x' (fun (r : res bool) x' => sound x' /\ match r with Ok _ => False | Err _ => True end)).
  { intros e Hst. destruct e; try by apply ends_lift.
    unfold step_now. apply ends_bind, ends_state, ends_lift. rewrite Hst.
    rewrite (proj2 (step_state_Ok _ _ _) Hs). apply ends_bind.
    destruct (is_in [StepPending] s); [|by apply ends_lift, ends_lift].
    eapply ends_mono; [|apply (wait_ends x' step s c); [done..|by rewrite Hst]].
    intros [[]|e] x2 [Hx2 _]; [by apply ends_lift|done]. }
  destruct r as [[]|e]; [by apply ends_lift..|].
  eapply ends_mono; [|exact (Hraise e H)]. intros [[]|e'] x2 [Hx2 Hn]; done.
Qed.

(** A step whose approval was asked for is no longer at its beginning. *)
Definition queries_ok (queries : list string) (st : PlanExecutionState) : Prop :=
  forall i s, i ∈ queries -> dget i (xs_steps st) = Some s -> step_rank s <> 4%nat.

Lemma queries_forward queries st st' : forward st st' -> queries_ok queries st -> queries_ok queries st'.
Proof. intros [_ Hf] Hq i s Hi Hs. destruct (Hf i s Hs) as [Hs'|[_ Hr]]; [by eapply Hq|done]. Qed.

Lemma queries_asked queries st i s :
  queries_ok queries st -> dget i (xs_steps st) = Some s -> step_rank s <> 4%nat ->
  queries_ok (i :: queries) st.
Proof. intros Hq Hs Hr j t [->|Hj]%elem_of_cons Ht; [by simplify_eq|by eapply Hq]. Qed.

(** One question more *)
Lemma asked_loop before x0 step s l changed queries x x1 b x2 :
  loop_at before x0 (ps_step_id step :: l) changed x -> queries_ok queries (xe_state x) ->
  dget (ps_step_id step) (xs_steps (xe_state x)) = Some s ->
  xe_state x1 = xe_state x -> sound x2 ->
  match b with
  | true => (exists s', moved_by step s' x1 x2) /\
            (plan_rank (xe_state x2) < plan_rank (xe_state x1))%nat
  | false => xe_state x2 = xe_state x1 /\ ss_status s = StepWaitingApproval
  end ->
  loop_at before x0 l (b || changed) x2 /\ queries_ok (ps_step_id step :: queries) (xe_state x2).
Proof.
  intros Hl Hq Hs Hst Hx2 H. destruct b.
  - destruct H as [[s' Hm] Hlt]. unfold moved_by in Hm. rewrite Hst in Hm, Hlt. split.
    + by eapply loop_moved.
    + destruct Hm as (Hs' & [_ Hr] & _ & Hf). eapply queries_asked; [|exact Hs'|done].
      by eapply queries_forward.
  - destruct H as [Hst2 Hw]. split.
    + apply (loop_noted before x0 l changed x x2); [done|by rewrite Hst2, Hst|]. by eapply loop_skip.
    + rewrite Hst2, Hst. eapply queries_asked; [done|exact Hs|]. unfold step_rank. by rewrite Hw.
Qed.

Lemma plan_step_of step : step ∈ pl_steps p -> plan_step p (ps_step_id step) = Ok step.
Proof. by apply plan_step_found. Qed.

Lemma ask_waiting_ends before x0 queries x changed :
  loop_at before x0 (dg_topological_order g) changed x -> queries_ok queries (xe_state x) ->
  ends (run_for_each (ask_waiting_step X redact W) (dg_topological_order g) (changed, queries)) x
    (fun r x' => match r with
                 | Ok (changed', queries') =>
                     loop_at before x0 [] changed' x' /\ queries_ok queries' (xe_state x')
                 | Err _ => sound x'
                 end).
Proof.
  intros Hl Hq. eapply ends_mono; [|apply (ends_for_each _ (fun l r x' =>
    (forall i, i ∈ l -> i ∈ step_ids p) /\ loop_at before x0 l (fst r) x' /\
    queries_ok (snd r) (xe_state x')) (fun _ x' => sound x'))].
  - intros [[ch qs]|e] x' H; [by destruct H|done].
  - intros i l [ch qs] x1 (Hsub & Hl1 & Hq1). cbn [fst snd] in *. unfold ask_waiting_step, step_now.
    pose proof (la_sound _ _ _ _ _ Hl1) as Hx1.
    destruct (step_has_state x1 i Hx1) as (step & s & Hin & <- & Hs); [apply Hsub; left|].
    assert (Hsub' : forall i, i ∈ l -> i ∈ step_ids p) by (intros i Hi; apply Hsub; by right).
    apply ends_bind, ends_state, ends_lift. rewrite (proj2 (step_state_Ok _ _ _) Hs).
    destruct (negb (is_in [StepWaitingApproval] s) || mem_str (ps_step_id step) qs) eqn:Eskip.
    { apply ends_lift. split_and!; [done|by eapply loop_skip|done]. }
    apply orb_false_iff in Eskip as [Hw%negb_false_iff%is_in_one _].
    apply ends_lift_bind. rewrite plan_step_of by done.
    apply ends_bind. eapply ends_mono; [|apply (prepare_ends x1 step s); try done].
    2: { apply is_in_spec. rewrite Hw. right. left. }
    intros [[c|]|e] x2 [Hx2 H]; [| |done].
    + apply ends_bind. eapply ends_mono; [|apply (resolve_ends x2 step s c); try done].
      2: { by rewrite H. }
      2: { unfold step_rank. rewrite Hw. lia. }
      intros [b|e] x3 [Hx3 H3]; [|done].
      apply ends_lift. split; [done|]. eapply asked_loop; eauto.
    + destruct H as [[s' Hm] Hlt]. apply ends_lift. split; [done|]. split; [by eapply loop_moved|].
      eapply queries_forward; [|exact Hq1]. apply Hm.
  - split; [|done]. intros i. apply order_ids.
Qed.

(** A ready step that needs no approval any more *)
Definition startable (st : PlanExecutionState) (i : string) : Prop :=
  exists step s, step ∈ pl_steps p /\ ps_step_id step = i /\ dget i (xs_steps st) = Some s /\
    negb (sr_requires_approval (ps_rules step)) || is_some (ss_approval_receipt s) = true.

Lemma pending_rank s :
  ss_status s = StepPending -> is_some (ss_approval_receipt s) = false -> step_rank s = 4%nat.
Proof. unfold step_rank. by intros -> ->. Qed.

Lemma ask_ready_ends before x ready queries changed :
  loop_at before x ready changed x -> queries_ok queries (xe_state x) -> before = changed ->
  (forall i, i ∈ ready -> exists step s, step ∈ pl_steps p /\ ps_step_id step = i /\
     dget i (xs_steps (xe_state x)) = Some s /\ ss_status s = StepPending) ->
  ends (run_for_each (ask_ready_step X redact W) ready (changed, queries)) x
    (fun r x' => match r with
                 | Ok (changed', queries') =>
                     loop_at before x [] changed' x' /\ queries_ok queries' (xe_state x') /\
                     (changed' = false -> forall i, i ∈ ready -> startable (xe_state x) i)
                 | Err _ => sound x'
                 end).
Proof.
  intros Hl Hq -> Hpend. eapply ends_mono; [|apply (ends_for_each _ (fun l r x' =>
    (forall i, i ∈ l -> i ∈ ready) /\ loop_at changed x l (fst r) x' /\
    queries_ok (snd r) (xe_state x') /\
    (fst r = false -> forall i, i ∈ ready -> i ∈ l \/ startable (xe_state x) i))
    (fun _ x' => sound x'))].
  - intros [[ch qs]|e] x' H; [|done]. destruct H as (_ & H1 & H2 & H3). split_and!; [done..|].
    intros Hc i Hi. destruct (H3 Hc i Hi) as [Hn|]; [by apply elem_of_nil in Hn|done].
  - intros i l [ch qs] x1 (Hsub & Hl1 & Hq1 & Hd). cbn [fst snd] in *. unfold ask_ready_step, step_now.
    pose proof (la_sound _ _ _ _ _ Hl1) as Hx1.
    destruct (Hpend i) as (step & s & Hin & <- & Hs0 & Hp); [apply Hsub; left|].
    assert (Hs : dget (ps_step_id step) (xs_steps (xe_state x1)) = Some s).
    { rewrite (la_untouched _ _ _ _ _ Hl1) by left. done. }
    assert (Hsub' : forall i, i ∈ l -> i ∈ ready) by (intros i Hi; apply Hsub; by right).
    assert (Hdone : startable (xe_state x) (ps_step_id step) -> ch = false -> forall i, i ∈ ready ->
              i ∈ l \/ startable (xe_state x) i).
    { intros Hst Hc i Hi. destruct (Hd Hc i Hi) as [[->|Hi']%elem_of_cons|]; auto. }
    apply ends_lift_bind. rewrite plan_step_of by done.
    apply ends_bind, ends_state, ends_lift. rewrite (proj2 (step_state_Ok _ _ _) Hs).
    destruct (negb (sr_requires_approval (ps_rules step)) || is_some (ss_approval_receipt s)) eqn:Est.
    { apply ends_lift. split_and!; [done|by eapply loop_skip|done|]. apply Hdone. by exists step, s. }
    apply orb_false_iff in Est as [_ Hrec]. pose proof (pending_rank s Hp Hrec) as Hr.
    apply ends_bind. eapply ends_mono; [|apply (prepare_ends x1 step s); try done].
    2: { by apply pending_before. }
    intros [[c|]|e] x2 [Hx2 H]; [| |done].
    2: { destruct H as [[s' Hm] Hlt]. apply ends_lift.
         split_and!; [done|by eapply loop_moved| |done].
         eapply queries_forward; [|exact Hq1]. apply Hm. }
    destruct (negb (is_some (wd_barrier W))).
    { apply ends_bind. eapply ends_mono; [|apply (wait_ends x2 step s c); [done..|by rewrite H]].
      intros [[]|e] x3 [Hx3 H3]; [|done]. destruct H3 as [[s' Hm] Hlt]. apply ends_lift.
      unfold moved_by in Hm. rewrite H in Hm, Hlt.
      split_and!; [done|by eapply loop_moved| |done]. eapply queries_forward; [|exact Hq1]. apply Hm. }
    destruct (mem_str (ps_step_id step) qs) eqn:Eq.
    { apply mem_str_spec in Eq. by destruct (Hq1 _ _ Eq Hs). }
    apply ends_bind. eapply ends_mono; [|apply (resolve_or_wait_ends x2 step s c); try done].
    2: { by rewrite H. }
    2: { rewrite Hr. lia. }
    intros [b|e] x3 [Hx3 H3]; [|done]. apply ends_lift. split; [done|].
    destruct (asked_loop _ _ _ _ _ _ _ _ _ b x3 Hl1 Hq1 Hs H Hx3 H3) as [K1 K2].
    split_and!; [done..|]. cbn [fst]. destruct b; [done|]. destruct H3 as [_ Hw]. congruence.
  - split_and!; [done..|]. intros _ i Hi. by left.
Qed.

(** ** The rounds *)

(** No step is running. *)
Definition quiet (st : PlanExecutionState) : Prop :=
  forall i s, dget i (xs_steps st) = Some s -> step_rank s <> 1%nat.

Lemma quiet_forward st st' : forward st st' -> quiet st -> quiet st'.
Proof. intros [_ Hf] Hq i s Hs. destruct (Hf i s Hs) as [Hs'|[Hr _]]; [by eapply Hq|done]. Qed.

Lemma rank_bound x : sound x -> (plan_rank (xe_state x) < round_fuel g)%nat.
Proof.
  intros Hx%sound_inv. unfold round_fuel, plan_rank, dvalues.
  assert (Hlen : List.length (dg_topological_order g) = List.length (xs_steps (xe_state x))).
  { rewrite (Permutation_length (go_order _ _ Hg)), <- (vi_keys _ _ Hx). unfold dkeys.
    by rewrite length_map. }
  rewrite Hlen. clear. unfold list_sum. induction (xs_steps (xe_state x)) as [|[i s] l IH]; cbn; [lia|].
  assert (step_rank s <= 4)%nat by (unfold step_rank; destruct (ss_status s); repeat case_match; lia).
  lia.
Qed.

(** The steps that may be started now *)
Lemma executable_spec x :
  sound x -> exists ready l, ready_steps g (xe_state x) = Ok ready /\
  executable_steps X g (xe_state x) = Ok l /\ NoDup ready /\ NoDup (map ps_step_id l) /\
  (forall i, i ∈ ready -> exists step s, step ∈ pl_steps p /\ ps_step_id step = i /\
     dget i (xs_steps (xe_state x)) = Some s /\ ss_status s = StepPending /\
     forallb (has_status (xe_state x) [StepSucceeded]) (set_at i (dg_dependencies g)) = true) /\
  (forall step, step ∈ l -> step ∈ pl_steps p /\ ps_step_id step ∈ ready) /\
  (forall i, i ∈ ready -> startable (xe_state x) i -> i ∈ map ps_step_id l).
Proof.
  intros Hx. unfold executable_steps, ready_steps.
  destruct (pending_list x (fun i => forallb (has_status (xe_state x) [StepSucceeded])
              (set_at i (dg_dependencies g))) Hx) as (ready & -> & Hnd & Hspec).
  cbn [rbind].
  assert (Hex : exists l, (let! found := mapR (executable_step X (xe_state x)) ready in
                           Ok (omap id found)) = Ok l /\ NoDup (map ps_step_id l) /\
    (forall step, step ∈ l -> step ∈ pl_steps p /\ ps_step_id step ∈ ready) /\
    (forall i, i ∈ ready -> startable (xe_state x) i -> i ∈ map ps_step_id l)).
  { induction ready as [|i ready IH].
    - exists []. split_and!; [done|constructor|..]; intros ? H; by apply elem_of_nil in H.
    - apply NoDup_cons in Hnd as [Hi Hnd].
      destruct IH as (l & Hl & Hndl & Hin & Hall); [done|intros j Hj; apply Hspec; by right|].
      destruct (Hspec i) as (_ & step & s & Hst & <- & Hs & Hp); [by left|].
      cbn [mapR]. unfold executable_step at 1. rewrite plan_step_of by done. cbn [rbind].
      rewrite (proj2 (step_state_Ok _ _ _) Hs). cbn [rbind].
      destruct (mapR _ ready) as [found|]; cbn [rbind] in *; [|done]. injection Hl as <-.
      destruct (negb _ || _) eqn:Eb.
      + exists (step :: omap id found). split_and!; [done|..].
        * apply NoDup_cons. split; [|done]. intros (step' & E & Hin')%list_elem_of_fmap.
          apply Hi. rewrite E. by apply Hin.
        * intros step' [->|H]%elem_of_cons; [by split; [|left]|]. destruct (Hin _ H). split; [done|by right].
        * intros j [->|Hj]%elem_of_cons Hstart; [by left|right; by apply Hall].
      + exists (omap id found). split_and!; [done|done|..].
        * intros step' H. destruct (Hin _ H). split; [done|by right].
        * intros j [->|Hj]%elem_of_cons Hstart; [|by apply Hall].
          destruct Hstart as (step' & s' & Hst' & Hid & Hs' & Hb).
          rewrite (NoDup_map_inj ps_step_id (pl_steps p) step' step) in Hb by auto.
          rewrite Hs in Hs'. injection Hs' as <-. by rewrite Eb in Hb. }
  destruct Hex as (l & Hl & H1 & H2 & H3). exists ready, l. split_and!; try done.
  intros i Hi. destruct (Hspec i Hi) as (Ht & step & s & ? & ? & ? & ?). by exists step, s.
Qed.

(** A batch of executable steps *)
Lemma batch_ends x n l :
  sound x -> quiet (xe_state x) -> (0 < n)%nat -> l <> [] -> executable_steps X g (xe_state x) = Ok l ->
  ends (execute_batch X redact W (firstn n l)) x (fun r x' => sound x' /\
    (r = Ok tt -> quiet (xe_state x') /\ (plan_rank (xe_state x') < plan_rank (xe_state x))%nat /\
                  forall queries, queries_ok queries (xe_state x) -> queries_ok queries (xe_state x'))).
Proof.
  intros Hx Hquiet Hn Hne Hl.
  destruct (executable_spec x Hx) as (ready & l' & _ & Hl' & _ & Hnd & Hready & Hin & _).
  rewrite Hl in Hl'. injection Hl' as <-.
  assert (Hsub : forall step, step ∈ firstn n l -> step ∈ l).
  { intros step H. rewrite <- (firstn_skipn n l). apply elem_of_app. by left. }
  destruct (execute_batch_ok X redact W ids_distinct st0 h0 (firstn n l) (xe_state x)) with (x := x)
    as (r & x' & Hrun & Hdone); try done.
  - intros step H. by apply Hin, Hsub.
  - rewrite <- firstn_map. rewrite <- (firstn_skipn n (map ps_step_id l)) in Hnd. by apply NoDup_app in Hnd as (H & _ & _).
  - intros step i H1 H2 Hd. apply list_elem_of_fmap in H2 as (step2 & -> & H2).
    destruct (Hin _ (Hsub _ H1)) as [Hp1 Hr1]. destruct (Hin _ (Hsub _ H2)) as [_ Hr2].
    destruct (Hready _ Hr1) as (_ & _ & _ & _ & _ & _ & Hdeps).
    destruct (Hready _ Hr2) as (_ & s2 & _ & _ & Hs2 & Hp2 & _).
    pose proof (proj1 (forallb_elem _ _) Hdeps (ps_step_id step2)) as Hsucc.
    apply has_status_spec in Hsucc as (q & Hq & ->%list_elem_of_singleton).
    2: { apply (go_dependencies _ _ Hg). by exists step. }
    unfold status_of in Hq. rewrite Hs2 in Hq. cbn in Hq. congruence.
  - intros step H. destruct (Hin _ (Hsub _ H)) as [_ Hr].
    destruct (Hready _ Hr) as (_ & s & _ & _ & Hs & Hp & _). exists s. split; [done|].
    by apply pending_before.
  - exists r, x'. split; [done|]. split; [apply Hdone|]. intros Hr.
    destruct l as [|step0 l]; [done|]. destruct n as [|n]; [lia|].
    assert (Hcases : forall i s, dget i (xs_steps (xe_state x')) = Some s ->
              step_rank s = O \/ dget i (xs_steps (xe_state x)) = Some s).
    { intros i s Hs. destruct (decide (i ∈ map ps_step_id (firstn (S n) (step0 :: l)))) as [Hi|Hi].
      - apply list_elem_of_fmap in Hi as (step & -> & Hi).
        destruct (bd_through _ _ _ _ _ _ _ _ Hdone Hr step Hi) as [_ (s' & Hs' & Hr')]. left. congruence.
      - right. by rewrite <- (bd_others _ _ _ _ _ _ _ _ Hdone). }
    split_and!.
    + intros i s [->|Hs]%Hcases; [done|by eapply Hquiet].
    + apply (bd_through _ _ _ _ _ _ _ _ Hdone Hr step0). by left.
    + intros queries Hq i s Hi [->|Hs]%Hcases; [done|by eapply Hq].
Qed.

(** Nothing is left to do. *)
Definition at_rest (st : PlanExecutionState) : Prop :=
  quiet st /\ ready_steps g st = Ok [] /\ blocked_steps g st = Ok [].

(** The questions and skips of one round *)
Lemma round_ends x queries :
  sound x -> queries_ok queries (xe_state x) ->
  ends (ask_round X redact W g queries) x
  (fun r x' => match r with
               | Ok (changed, queries') =>
                   loop_at false x [] changed x' /\ queries_ok queries' (xe_state x') /\
                   (changed = false -> blocked_steps g (xe_state x') = Ok [] /\
                      forall ready i, ready_steps g (xe_state x') = Ok ready -> i ∈ ready ->
                                      startable (xe_state x') i)
               | Err _ => sound x'
               end).
Proof.
  intros Hx Hq. unfold ask_round. apply ends_bind.
  eapply ends_mono; [|apply (skip_blocked_ends (round_fuel g) false x false x)].
  2: { apply loop_start; [done|constructor]. }
  2: { by apply rank_bound. }
  intros [ch1|e] x1 [H1 Hb]; [|done]. cbn [piece_done is_ok] in *. specialize (Hb eq_refl).
  pose proof (la_sound _ _ _ _ _ H1) as Hx1. apply ends_state. apply ends_bind.
  apply (ends_mono _ _ (piece_done ch1 x1)).
  2: { destruct (px_fail_fast X && _).
       - apply skip_pending_ends, loop_start; [done|apply order_distinct].
       - apply ends_lift. apply loop_start; [done|constructor]. }
  intros [ch2|e] x2 H2; [|done]. cbn [piece_done] in H2. pose proof (la_sound _ _ _ _ _ H2) as Hx2.
  assert (H12 : loop_at false x [] ch2 x2) by by eapply loop_then.
  assert (Hq2 : queries_ok queries (xe_state x2)).
  { eapply queries_forward; [|exact Hq]. apply H12. }
  apply ends_bind. apply (ends_mono _ _ (fun r x' => match r with
                 | Ok (changed', queries') =>
                     loop_at ch2 x2 [] changed' x' /\ queries_ok queries' (xe_state x')
                 | Err _ => sound x'
                 end)).
  2: { destruct (is_some (wd_barrier W)).
       - apply ask_waiting_ends; [|done]. apply loop_start; [done|apply order_distinct].
       - apply ends_lift. split; [|done]. apply loop_start; [done|constructor]. }
  intros [[ch3 qs3]|e] x3 H3; [|done]. destruct H3 as [H3 Hq3].
  pose proof (la_sound _ _ _ _ _ H3) as Hx3. apply ends_state, ends_lift_bind.
  destruct (executable_spec x3 Hx3) as (ready & _ & Hr & _ & Hnd & _ & Hready & _).
  rewrite Hr. eapply ends_mono; [|apply (ask_ready_ends ch3 x3 ready qs3 ch3); try done].
  2: { by apply loop_start. }
  2: { intros i Hi. destruct (Hready i Hi) as (step & s & ? & ? & ? & ? & _). by exists step, s. }
  intros [[ch4 qs4]|e] x4 H4; [|done]. destruct H4 as (H4 & Hq4 & Hst). split_and!; try done.
  - eapply loop_then; [exact H12|]. by eapply loop_then.
  - intros Hc. destruct (la_same _ _ _ _ _ H4 Hc) as [Hc3 E4].
    destruct (la_same _ _ _ _ _ H3 Hc3) as [Hc2 E3]. destruct (la_same _ _ _ _ _ H2 Hc2) as [_ E2].
    rewrite E4. split; [by rewrite E3, E2|]. intros ready' i Hr' Hi. rewrite Hr in Hr'.
    injection Hr' as <-. by apply Hst.
Qed.

(** The rounds end, each having brought the plan forward or being the last. *)
Lemma rounds_end (Hparallel : 1 <= px_max_parallel_steps X) fuel : forall x queries,
  sound x -> quiet (xe_state x) -> queries_ok queries (xe_state x) ->
  (plan_rank (xe_state x) < fuel)%nat ->
  ends (rounds X redact W fuel g queries) x (fun r x' => sound x' /\
    (r = Ok tt -> at_rest (xe_state x'))).
Proof.
  induction fuel as [|fuel IH]; intros x queries Hx Hquiet Hq Hlt; [lia|]. cbn [rounds].
  apply ends_bind. unfold ends at 1.
  assert (Hx1 : sound (snd (perform_action X W LookAtToken x))).
  { by apply (sound_same x _ (Acted LookAtToken)). }
  eexists _, _. split; [apply f_equal, surjective_pairing|].
  set (x1 := snd (perform_action X W LookAtToken x)) in *.
  destruct (fst (perform_action X W LookAtToken x)) as [[]|e]; [|done].
  apply ends_bind. eapply ends_mono; [|by apply (round_ends x1 queries)].
  intros [[changed qs]|e] x2 H2; [|done].
  destruct H2 as (Hl & Hq2 & Hsame). pose proof (la_sound _ _ _ _ _ Hl) as Hx2.
  assert (Hquiet2 : quiet (xe_state x2)) by (eapply quiet_forward; [apply Hl|done]).
  apply ends_state, ends_lift_bind.
  destruct (executable_spec x2 Hx2) as (ready & l & Hr & El & Hnd & _ & _ & _ & Hall).
  rewrite El. destruct l as [|step l].
  - cbn [fst snd]. destruct changed.
    + apply IH; [done..|]. destruct (la_changed _ _ _ _ _ Hl eq_refl) as [|Hless]; [done|].
      change (xe_state x1) with (xe_state x) in Hless. lia.
    + apply ends_lift. split; [done|]. intros _. destruct (Hsame eq_refl) as [Hb Hst].
      split_and!; [done| |done]. destruct ready as [|i ready]; [done|].
      assert (Hi : i ∈ map ps_step_id []) by (apply Hall; [left|by eapply Hst; [|left]]).
      by apply elem_of_nil in Hi.
  - apply ends_bind. eapply ends_mono; [|apply (batch_ends x2 _ (step :: l) Hx2 Hquiet2)].
    + intros [[]|e] x3 [Hx3 H3]; [|done]. destruct (H3 eq_refl) as (Hq3 & Hless & Hqs).
      apply IH; [done|done|by apply Hqs|]. pose proof (proj1 (la_forward _ _ _ _ _ Hl)) as Hle.
      change (xe_state x1) with (xe_state x) in Hle. lia.
    + lia.
    + done.
    + done.
Qed.

(** ** Interrupted steps, and the whole execution *)

Lemma recovered_rank st step s d s' :
  apply_step_event st step s d "step_recovered" = Ok s' -> step_rank s' <> 1%nat.
Proof.
  intros H. change (on_recovered step s d = Ok s') in H. unfold on_recovered in H. split_checks H.
  injection H as <-. unfold step_rank. cbn. destruct (recovery_cases step) as [-> | ->]; [|done].
  by destruct (is_some _).
Qed.

Lemma recover_ends x :
  sound x ->
  ends (run_for_each (recover_running_step X W) (dg_topological_order g) tt) x
    (fun r x' => sound x' /\ (r = Ok tt -> quiet (xe_state x'))).
Proof.
  intros Hx. eapply ends_mono; [|apply (ends_for_each _ (fun l _ x' =>
    sound x' /\ NoDup l /\ (forall i, i ∈ l -> i ∈ step_ids p) /\
    forall i s, dget i (xs_steps (xe_state x')) = Some s -> i ∈ l \/ step_rank s <> 1%nat)
    (fun _ x' => sound x'))].
  - intros [[]|e] x' H; [|done]. destruct H as (Hx' & _ & _ & H). split; [done|].
    intros _ i s [Hi|Hr]%H; [by apply elem_of_nil in Hi|done].
  - intros i l [] x1 (Hx1 & [Hi Hnd]%NoDup_cons & Hsub & Hd). unfold recover_running_step, step_now.
    destruct (step_has_state x1 i Hx1) as (step & s & Hin & <- & Hs); [apply Hsub; left|].
    apply ends_bind, ends_state, ends_lift. rewrite (proj2 (step_state_Ok _ _ _) Hs).
    assert (Hsub' : forall i, i ∈ l -> i ∈ step_ids p) by (intros i Hj; apply Hsub; by right).
    destruct (is_in [StepRunning] s) eqn:Er; cbn [negb].
    2: { apply ends_lift. split_and!; [done..|]. intros j t Hj.
         destruct (Hd j t Hj) as [[->|Hjl]%elem_of_cons|]; [|by left|by right].
         right. simplify_eq. intros Hrk. apply not_true_iff_false in Er. apply Er, is_in_one.
         unfold step_rank in Hrk. destruct (ss_status s); try done. by destruct (is_some _). }
    apply ends_lift_bind. rewrite plan_step_of by done.
    unfold ends, run_event, record_transition.
    destruct (transition _ _ _ _ _ _) as [[st' e]|err] eqn:Et; eexists _, _; (split; [done|]).
    + apply transition_inv in Et as (Ha & Hty & Hid & _). destruct Hx1 as [new Hf].
      destruct (apply_own X ids_distinct _ _ _ _ _ Hin Hid Hs Ha) as (s' & Hev & Hs').
      pose proof (apply_same_but X _ _ _ Ha) as Hsame. rewrite Hid in Hsame. rewrite Hty in Hev.
      split_and!; [|done|done|].
      * exists (Recorded e :: new). by apply (follows_recorded X W st0 h0 new x1 (st', e)).
      * cbn. intros j t Hj. destruct (decide (j = ps_step_id step)) as [->|Hne].
        -- right. simplify_eq. by eapply recovered_rank.
        -- rewrite Hsame in Hj by done. destruct (Hd j t Hj) as [[->|Hjl]%elem_of_cons|]; [done|by left|by right].
    + by apply (sound_same x1 _ (Refused (ps_step_id step))).
  - split_and!; [done|apply order_distinct|intros i; apply order_ids|].
    intros i s Hs. left. apply order_ids. rewrite <- (vi_keys _ _ (sound_inv x Hx)).
    apply dget_Some_elem in Hs. apply list_elem_of_fmap. by exists (i, s).
Qed.

Lemma execute_from_ends (Hparallel : 1 <= px_max_parallel_steps X) x :
  sound x ->
  ends (execute_from X redact W g) x (fun r x' => sound x' /\
    (forall result, r = Ok result -> at_rest (xe_state x') /\
       er_state result = xe_state x' /\ er_events result = xe_events x')).
Proof.
  intros Hx. unfold execute_from. apply ends_bind.
  eapply ends_mono; [|by apply recover_ends]. intros [[]|e] x1 [Hx1 H1]; [|done].
  apply ends_bind. eapply ends_mono; [|apply (rounds_end Hparallel (round_fuel g) x1 [])]; try done.
  - intros [[]|e] x2 [Hx2 H2]; [|done]. eexists _, _. split; [done|]. split; [done|].
    intros result Hr. apply rbind_Ok in Hr as (summary & _ & [= <-]). split_and!; [by apply H2|done|done].
  - by apply H1.
  - intros i s Hi. by apply elem_of_nil in Hi.
  - by apply rank_bound.
Qed.
End Rounds.

(** ** The guarantees *)
Section Guarantees.
Context (X : PlanExecutor) (redact : string -> string) (W : PlanWorld).
Abbreviation p := (px_plan X).

(** However an execution goes, it follows from where it started; and when it returns it
    is at rest. *)
Lemma execute_ends prior initial st0 g x :
  checked_plan p -> 1 <= px_max_parallel_steps X -> validate_plan (px_policies X) p = Ok g ->
  starting_state X initial = Ok st0 -> replay_plan p prior = Ok st0 ->
  graph_of p g /\
  exists r x' new, execute_plan X redact W initial x = Some (r, x') /\
    follows X W st0 (xe_history x) new x' /\
    (forall result, r = Ok result ->
       at_rest g (xe_state x') /\ er_state result = xe_state x' /\ er_events result = xe_events x').
Proof.
  intros Hc Hpar Hv Hst Hprior.
  pose proof (pv_graph _ _ _ (validate_plan_Ok _ _ _ (proj1 Hc) Hv)) as Hg.
  split; [done|]. unfold execute_plan. rewrite Hv, Hst.
  destruct (execute_from_ends X redact W Hc prior st0 (xe_history x) Hprior g Hg Hpar
              (mkPlanRun st0 [] (xe_consumed x) (xe_history x))) as (r & x' & Hrun & [new Hf] & Hok).
  { exists []. split; try done. by intros []. }
  exists r, x', new. by split_and!.
Qed.

(** A step that stands at its end, or before it *)
Definition step_finished (st : PlanExecutionState) (i : string) : Prop :=
  has_status st (StepSucceeded :: terminal_failures) i = true.
Definition step_waits (st : PlanExecutionState) (i : string) : Prop :=
  status_of st i = Some StepWaitingApproval.

(** At rest, a step is finished, waits for approval, or waits for such a step. *)
Lemma at_rest_steps g st :
  NoDup (step_ids p) -> graph_of p g -> (forall j, j ∈ step_ids p -> dmem j (xs_steps st) = true) -> at_rest g st ->
  forall step, step ∈ pl_steps p ->
    step_finished st (ps_step_id step) \/ step_waits st (ps_step_id step) \/
    status_of st (ps_step_id step) = Some StepPending /\
    (exists d, d ∈ ps_depends_on step /\
       (status_of st d = Some StepPending \/ step_waits st d)) /\
    exists w, w ∈ step_ids p /\ step_waits st w.
Proof.
  intros Hnd Hg Hall (Hquiet & Hready & Hblocked) step Hin.
  assert (Hid : ps_step_id step ∈ step_ids p) by (apply step_ids_elem; by exists step).
  assert (Hcase : forall i, i ∈ step_ids p -> step_finished st i \/ step_waits st i \/
                                             status_of st i = Some StepPending).
  { intros i Hi. specialize (Hall i Hi). apply dmem_spec in Hall as [s Hs].
    specialize (Hquiet i s Hs). unfold step_finished, step_waits, has_status, status_of. rewrite Hs. cbn.
    destruct (ss_status s) eqn:E; first [by left|right; by left|right; by right|idtac].
    destruct Hquiet. by apply running_rank. }
  destruct (Hcase _ Hid) as [H|[H|H]]; [by left|by right; left|]. right. right. split; [done|].
  assert (Hord : forall j, j ∈ dg_topological_order g -> dmem j (xs_steps st) = true).
  { intros j Hj. apply Hall. by rewrite <- (go_order _ _ Hg). }
  split.
  - destruct (pending_steps_spec g st (fun i => forallb (has_status st [StepSucceeded])
                (set_at i (dg_dependencies g))) Hord) as (r & Hr & Hrs).
    destruct (pending_steps_spec g st (fun i => existsb (has_status st terminal_failures)
                (set_at i (dg_dependencies g))) Hord) as (b & Hb & Hbs).
    unfold ready_steps in Hready. unfold blocked_steps in Hblocked.
    rewrite Hready in Hr. rewrite Hblocked in Hb. simplify_eq.
    assert (Ho : ps_step_id step ∈ dg_topological_order g) by by rewrite (go_order _ _ Hg).
    destruct (find_first (fun d => negb (has_status st [StepSucceeded] d))
                (set_at (ps_step_id step) (dg_dependencies g))) as [d|] eqn:Ef.
    + apply find_first_Some in Ef as [Hd Hn%negb_true_iff].
      pose proof (proj1 (go_dependencies _ _ Hg _ _) Hd) as Hdep.
      exists d. split.
      { destruct Hdep as (step' & Hin' & Heq & Hd').
        by rewrite (NoDup_map_inj ps_step_id (pl_steps p) step step'). }
      destruct (Hcase d (go_closed _ _ Hg _ _ Hdep)) as [Hf|[Hw|Hp]]; [|by right|by left].
      exfalso. assert (Hn' : ps_step_id step ∈ @nil string); [|by apply elem_of_nil in Hn'].
      apply Hbs. split_and!; [done|done|]. apply existsb_exists. exists d.
      split; [by apply list_elem_of_In|]. unfold step_finished, has_status in *.
      destruct (status_of st d) as [q|]; [|done]. by destruct q.
    + exfalso. assert (Hn' : ps_step_id step ∈ @nil string); [|by apply elem_of_nil in Hn'].
      apply Hrs. split_and!; [done|done|]. apply forallb_forall. intros d Hd%list_elem_of_In.
      by apply negb_false_iff, (proj1 (find_first_None _ _) Ef).
  - destruct (pending_progress p g st (ps_step_id step) Hg Hall Hid H)
      as (r & b & Hr & Hb & [Hn|[Hn|(j & Hj & [Hj'|Hj'])]]).
    + rewrite Hready in Hr. by simplify_eq.
    + rewrite Hblocked in Hb. by simplify_eq.
    + unfold status_of in Hj'. destruct (dget j (xs_steps st)) as [s|] eqn:Es; [|done].
      injection Hj' as Hs. by destruct (Hquiet j s Es (running_rank _ Hs)).
    + by exists j.
Qed.

(** What a step is when its handler is called, in an execution that began with the
    history [h0] *)
Record call_in_order (prior : list PlanEvent) (h0 : history) (d : Dispatch) (before : history) : Prop := {
  co_step : exists step st s c, step ∈ pl_steps p /\ ps_step_id (ds_step d) = ps_step_id step /\
    replay_plan p (prior ++ rev (events_of before)) = Ok st /\
    dget (ps_step_id step) (xs_steps st) = Some s /\
    ss_status s = StepRunning /\ dependencies_succeeded st step = true /\
    prepared X step (dependency_results step st) (built_in W h0 before step) c /\ step_dispatch X step c = Ok d /\
    (sr_requires_approval (ps_rules step) = true -> exists r,
       ss_approval_receipt s = Some r /\ step_granted (pl_plan_id p) step s r /\
       pc_authorization_action_hash c = Some (pr_action_hash r));
  co_started : just_started (ps_step_id (ds_step d)) before
}.

Lemma due_in_order prior st0 h0 d before :
  checked_plan p -> replay_plan p prior = Ok st0 ->
  called_when_due X W st0 h0 d before -> call_in_order prior h0 d before.
Proof.
  intros Hc Hprior (step & st & s & Hin & Hst & Hs & [Hrun (c & Hprep & Hap & Hd)] & Hjs).
  assert (Hreplay : replay_plan p (prior ++ rev (events_of before)) = Ok st).
  { unfold replay_plan in *. by rewrite foldM_app, Hprior. }
  pose proof (dispatch_step X step c d Hd) as Hid.
  destruct (vi_steps _ _ (replay_inv _ _ _ (proj1 Hc) Hreplay) _ _ Hin Hs) as [I Hdeps].
  split; [|by rewrite Hid]. exists step, st, s, c. split_and!; try done.
  - apply Hdeps, (si_executed _ _ _ I). rewrite Hrun. left.
  - intros Hq. destruct (Hap Hq) as (r & Hr & Hh). exists r. split_and!; [done| |done].
    by apply (si_granted _ _ _ I).
Qed.

(** The calls of a step in a history *)
Definition calls (step_id : string) (h : history) : Z :=
  Z.of_nat (List.length (List.filter (fun n => match n with
                                               | Acted (CallStep d) => String.eqb (ps_step_id (ds_step d)) step_id
                                               | _ => false
                                               end) h)).

Lemma just_started_inv step_id n h :
  just_started step_id (n :: h) ->
  (exists e, n = Recorded e /\ pe_step_id e = step_id /\ pe_type e = "step_started") \/
  (concerns step_id n = false /\ just_started step_id h).
Proof.
  intros ([|m mid] & e & before & [= -> ->] & Hi & Hty & Hm); [left; by exists e|right].
  apply Forall_cons in Hm as [Hm1 Hm2]. split; [done|]. by exists mid, e, before.
Qed.

(** Where every call comes right after a start, there are no more calls than starts. *)
Lemma calls_bounded step_id h :
  (forall after d before, h = (after ++ Acted (CallStep d) :: before)%list ->
     just_started (ps_step_id (ds_step d)) before) ->
  calls step_id h <= starts step_id (rev (events_of h)) /\
  (just_started step_id h -> calls step_id h < starts step_id (rev (events_of h))).
Proof.
  induction h as [|n h IH]; intros Hcalls.
  { split; [done|]. intros ([|] & ? & ? & [=] & _). }
  destruct IH as [IH1 IH2].
  { intros after d before ->. by apply (Hcalls (n :: after)). }
  destruct n as [e|i|a|st q|i]; try (split; [exact IH1|]; intros [(? & [=] & _)|[_ Hj]]%just_started_inv; by apply IH2).
  - change (events_of (Recorded e :: h)) with (e :: events_of h). cbn [rev]. rewrite starts_snoc.
    change (calls step_id (Recorded e :: h)) with (calls step_id h). unfold event_of. split.
    + destruct (_ && _); lia.
    + intros [(e' & [= <-] & Hi & Hty)|[Hab Hj]]%just_started_inv.
      * rewrite Hi, Hty, !String.eqb_refl. cbn. lia.
      * apply IH2 in Hj. destruct (_ && _); lia.
  - change (events_of (Acted a :: h)) with (events_of h).
    destruct a as [| | | | | |d|];
      try (split; [exact IH1|]; intros [(? & [=] & _)|[_ Hj]]%just_started_inv; by apply IH2).
    destruct (String.eqb (ps_step_id (ds_step d)) step_id) eqn:Ed.
    + assert (Hc : calls step_id (Acted (CallStep d) :: h) = calls step_id h + 1).
      { unfold calls. cbn [List.filter]. rewrite Ed. cbn [List.length]. lia. }
      rewrite Hc. apply String.eqb_eq in Ed. specialize (Hcalls [] d h eq_refl). rewrite Ed in Hcalls.
      apply IH2 in Hcalls. split; [lia|].
      intros [(? & [=] & _)|[Hab _]]%just_started_inv. cbn in Hab.
      by rewrite Ed, String.eqb_refl in Hab.
    + assert (Hc : calls step_id (Acted (CallStep d) :: h) = calls step_id h).
      { unfold calls. cbn [List.filter]. by rewrite Ed. }
      rewrite Hc. split; [exact IH1|]. intros [(? & [=] & _)|[_ Hj]]%just_started_inv. by apply IH2.
Qed.


(** C18. A step with side effects is called at most once, ever: over the log from before
    this execution, in which each of its earlier calls left a start, and this one. *)
Theorem unsafe_step_is_called_once prior initial st0 g x r x' new step :
  checked_plan p -> 1 <= px_max_parallel_steps X -> validate_plan (px_policies X) p = Ok g ->
  starting_state X initial = Ok st0 -> replay_plan p prior = Ok st0 ->
  execute_plan X redact W initial x = Some (r, x') ->
  xe_history x' = (new ++ xe_history x)%list ->
  step ∈ pl_steps p -> unsafe (ps_rules step) = true ->
  starts (ps_step_id step) prior + calls (ps_step_id step) new <= 1.
Proof.
  intros Hc Hpar Hv Hst Hprior Hrun Hh Hin Hu.
  destruct (execute_ends prior initial st0 g x Hc Hpar Hv Hst Hprior)
    as (_ & r1 & x1 & new1 & Hrun1 & Hf & _).
  rewrite Hrun in Hrun1. injection Hrun1 as <- <-.
  rewrite (fw_history _ _ _ _ _ _ Hf) in Hh. apply app_inv_tail in Hh as ->.
  destruct (starts_spec p _ _ step Hc (sound_replay X W prior st0 _ Hprior _ _ Hf) Hin) as [_ Hone].
  specialize (Hone Hu). rewrite (fw_events _ _ _ _ _ _ Hf) in Hone.
  assert (Hsplit : starts (ps_step_id step) (prior ++ rev (events_of new))
                   = starts (ps_step_id step) prior + starts (ps_step_id step) (rev (events_of new))).
  { unfold starts. rewrite List.filter_app, length_app. lia. }
  destruct (calls_bounded (ps_step_id step) new) as [Hle _]; [|lia].
  intros after d before Hnew. eapply (co_started prior (xe_history x)), due_in_order; [done|exact Hprior|].
  by eapply (fw_calls _ _ _ _ _ _ Hf).
Qed.

(** C19. An execution settles its plan.  Whatever the outside answers, the execution of a
    valid plan ends; the events it recorded replay, after those from before, to the
    state it leaves, also if it failed or was cancelled; and if it returns, no step is
    running, and every step is finished, waits for an approval, or depends on a step
    that is not finished, while some step waits for an approval. *)
Theorem execution_settles_the_plan prior initial st0 g x :
  checked_plan p -> 1 <= px_max_parallel_steps X -> validate_plan (px_policies X) p = Ok g ->
  starting_state X initial = Ok st0 -> replay_plan p prior = Ok st0 ->
  exists r x', execute_plan X redact W initial x = Some (r, x') /\
    replay_plan p (prior ++ xe_events x') = Ok (xe_state x') /\
    forall result, r = Ok result ->
      er_state result = xe_state x' /\ er_events result = xe_events x' /\
      forall step, step ∈ pl_steps p ->
        step_finished (xe_state x') (ps_step_id step) \/ step_waits (xe_state x') (ps_step_id step) \/
        status_of (xe_state x') (ps_step_id step) = Some StepPending /\
        (exists e, e ∈ ps_depends_on step /\
           (status_of (xe_state x') e = Some StepPending \/ step_waits (xe_state x') e)) /\
        exists w, w ∈ step_ids p /\ step_waits (xe_state x') w.
Proof.
  intros Hc Hpar Hv Hst Hprior.
  destruct (execute_ends prior initial st0 g x Hc Hpar Hv Hst Hprior)
    as (Hg & r & x' & new & Hrun & Hf & Hok).
  exists r, x'. split; [done|]. pose proof (sound_replay X W prior st0 _ Hprior _ _ Hf) as Hreplay.
  split; [done|]. intros result Hr. destruct (Hok result Hr) as (Hrest & H1 & H2).
  split_and!; [done..|]. pose proof (plan_ids_nodup _ (proj1 Hc)) as Hnd.
  apply (at_rest_steps g); try done. intros j Hj. apply dmem_spec, dget_elem.
  by rewrite (vi_keys _ _ (replay_inv _ _ _ (proj1 Hc) Hreplay)).
Qed.
End Guarantees.
