(* ===== verification/PlanExecutionExamples.v ===== *)
(** * Runs of the plan executor

    The worked plan - look an invoice up, transfer its amount, notify - executed twice:
    the first run looks the invoice up and leaves the transfer waiting for approval; the
    second, which starts from what the first recorded, has it approved and carries on. *)

From S2P Require Import Prelude Tasks PyDict Text PyVal Json Sha256 OperationStore Service Approvals.
From S2P Require Import PlanTypes PlanPersistence PlanGraph PlanValidator PlanState PlanSafety.
From S2P Require Import PlanDataflow PlanApproval PlanExecutor PlanTasks PlanBatch PlanExecution.
From Stdlib Require Import String.

#[local] Open Scope string_scope.
#[local] Open Scope bool_scope.
#[local] Open Scope Z_scope.

Definition sample_executor : PlanExecutor :=
  mkExecutor sample_plan sample_policies (mkStepExecutor true true false false false) 4 false
    None None None None None.

Definition no_redaction (s : string) : string := s.

(** A tool answers with the amount of the invoice. *)
Definition answering (h : history) (d : Dispatch) : res pyval := Ok (VDict [("amount", VInt 100)]).
Definition no_facts (h : history) (e : exn) : ErrorFacts := mkFacts "Exception" None None false false false.

Definition quiet_world (barrier : option BarrierServices)
    (call : history -> Dispatch -> res pyval) (describe : history -> exn -> ErrorFacts) : PlanWorld :=
  mkPlanWorld None barrier None (fun _ => false) (fun _ => VInt 125) (fun _ _ _ => Err RuntimeError)
    call describe (fun h => List.length h) (fun _ => false) (fun _ => None).

Definition idle : PlanRun := mkPlanRun (initial_state sample_plan) [] [] [].

(** The first run, without an approval service *)
Definition first_run : option (res PlanExecutionResult * PlanRun) :=
  execute_plan sample_executor no_redaction (quiet_world None answering no_facts) None idle.
Definition first_execution : PlanRun := match first_run with Some (_, x) => x | None => idle end.

(** The second run, with a manager who approves *)
Definition manager_receipt (step : PlanStep) (st : PlanExecutionState) (h : string) : PlanApprovalReceipt :=
  mkPlanReceipt "approval-7" "receipt-7" (xs_plan_id st) (ps_step_id step) h (xs_version st) "mia"
    ["manager"] "idp" "identity-3" "verification-9" (NFloat (fl 100 0)) (NFloat (fl 400 0)) None.
Definition approving (_ : history) (step : PlanStep) (st : PlanExecutionState)
  : res (reply PlanApprovalDecision) :=
  let! h := step_action_hash step in
  Ok (Replied (mkDecision (Some true) h (Some "approval-7") None (Some (manager_receipt step st h)))).
Definition consuming_receipt (_ : history) (r : PlanApprovalReceipt) (step : PlanStep)
    (st : PlanExecutionState) : res (reply PlanApprovalReceipt) :=
  Ok (Replied (mkPlanReceipt (pr_approval_id r) (pr_receipt_id r) (pr_plan_id r) (pr_step_id r)
    (pr_action_hash r) (pr_state_version r) (pr_approver_id r) (pr_approver_roles r)
    (pr_approver_issuer r) (pr_identity_verification_id r) (pr_verification_id r) (pr_issued_at r)
    (pr_expires_at r) (Some (NFloat (fl 120 0))))).
Definition manager_service : BarrierServices :=
  mkBarrier approving (Some consuming_receipt) (fun _ _ => VInt 121) (fun _ _ => false).

Definition second_world : PlanWorld := quiet_world (Some manager_service) answering no_facts.
Definition second_run : option (res PlanExecutionResult * PlanRun) :=
  execute_plan sample_executor no_redaction second_world (Some (xe_state first_execution)) idle.
Definition second_execution : PlanRun := match second_run with Some (_, x) => x | None => idle end.

Definition statuses (x : PlanRun) : list (string * string) :=
  map (fun kv => (fst kv, step_status_str (ss_status (snd kv)))) (xs_steps (xe_state x)).

Lemma first_run_waits :
  statuses first_execution = [("s1", "succeeded"); ("s2", "waiting_approval"); ("s3", "pending")].
Proof. vm_compute. reflexivity. Qed.

Lemma second_run_completes :
  statuses second_execution = [("s1", "succeeded"); ("s2", "succeeded"); ("s3", "succeeded")].
Proof. vm_compute. reflexivity. Qed.

(** ** The theorems at these runs *)

Definition lookup_call : Dispatch :=
  match nth_error (xe_history first_execution) 7 with
  | Some (Acted (CallStep d)) => d
  | _ => mkDispatch lookup_step None None
  end.

Lemma sample_valid : validate_plan sample_policies sample_plan = Ok sample_graph.
Proof. vm_compute. reflexivity. Qed.

Lemma sample_parallel : 1 <= px_max_parallel_steps sample_executor.
Proof. cbn. lia. Qed.

Lemma idle_start : starting_state sample_executor None = Ok (initial_state sample_plan).
Proof. reflexivity. Qed.

Lemma resumed_start :
  starting_state sample_executor (Some (xe_state first_execution)) = Ok (xe_state first_execution).
Proof. vm_compute. reflexivity. Qed.

Lemma first_execution_replays :
  replay_plan sample_plan (xe_events first_execution) = Ok (xe_state first_execution).
Proof. vm_compute. reflexivity. Qed.

Definition first_result : res PlanExecutionResult :=
  match first_run with Some (r, _) => r | None => Err ValueError end.
Definition second_result : res PlanExecutionResult :=
  match second_run with Some (r, _) => r | None => Err ValueError end.

Lemma run_first :
  execute_plan sample_executor no_redaction (quiet_world None answering no_facts) None idle
  = Some (first_result, first_execution).
Proof. vm_compute. reflexivity. Qed.

Lemma run_second :
  execute_plan sample_executor no_redaction second_world (Some (xe_state first_execution)) idle
  = Some (second_result, second_execution).
Proof. vm_compute. reflexivity. Qed.

Lemma all_new (h : history) : h = (h ++ xe_history idle)%list.
Proof. by rewrite app_nil_r. Qed.

Lemma lookup_called : xe_history first_execution =
  (firstn 7 (xe_history first_execution)
   ++ Acted (CallStep lookup_call) :: skipn 8 (xe_history first_execution))%list.
Proof. vm_compute. reflexivity. Qed.


(** The transfer, which the second run calls, has not been called before. *)
Lemma unsafe_step_is_called_once_witness :
  starts "s2" (xe_events first_execution) + calls "s2" (xe_history second_execution) <= 1 /\
  calls "s2" (xe_history second_execution) = 1.
Proof.
  split; [|vm_compute; reflexivity].
  exact (unsafe_step_is_called_once sample_executor no_redaction second_world
           (xe_events first_execution) (Some (xe_state first_execution)) (xe_state first_execution)
           sample_graph idle second_result second_execution (xe_history second_execution) transfer_step
           sample_plan_checked sample_parallel sample_valid resumed_start first_execution_replays
           run_second (all_new _) transfer_in_plan eq_refl).
Defined.

(** The second run settles what the first left. *)
Lemma execution_settles_the_plan_witness :
  exists r x',
    execute_plan sample_executor no_redaction second_world (Some (xe_state first_execution)) idle
    = Some (r, x') /\
    replay_plan sample_plan (xe_events first_execution ++ xe_events x') = Ok (xe_state x').
Proof.
  destruct (execution_settles_the_plan sample_executor no_redaction second_world
              (xe_events first_execution) (Some (xe_state first_execution)) (xe_state first_execution)
              sample_graph idle
              sample_plan_checked sample_parallel sample_valid resumed_start first_execution_replays)
    as (r & x' & Hrun & Hreplay & _).
  exists r, x'. by split.
Defined.

(** ** A handler that does not know its outcome *)

Definition timing_out (h : history) (d : Dispatch) : res pyval := Err RuntimeError.
Definition unknown_facts (h : history) (e : exn) : ErrorFacts :=
  mkFacts "GatewayTimeout" None None false false true.

Definition timed_out_run : option (res PlanExecutionResult * PlanRun) :=
  execute_plan sample_executor no_redaction (quiet_world None timing_out unknown_facts) None idle.

(** The look-up may be replayed, so the plan's state machine refuses the event that its
    outcome is unknown: the execution fails, and leaves the look-up running. *)
Lemma unknown_outcome_of_safe_step_is_refused :
  sr_replay_policy (ps_rules lookup_step) = Safe /\
  exists x, timed_out_run = Some (Err PlanValidationError, x) /\
    status_of (xe_state x) "s1" = Some StepRunning.
Proof. split; [reflexivity|]. eexists. vm_compute. split; reflexivity. Qed.
