(* ===== verification/Retry.v ===== *)
(** * Retry policies, delays and classification of model errors

    [retry/types.py], [retry/task.py] (the policy), [retry/backoff.py] and
    [retry/classifier.py]: what the constructors of the policies accept, how long
    the next retry waits, computed in the floats of the interpreter, and which
    model errors may be retried.  A delay never leaves [[0, max_delay_seconds]]. *)

From S2P Require Import Prelude PyDict Text PyVal PyNum.
From Corelib Require Import SpecFloat.

#[local] Open Scope string_scope.
#[local] Open Scope bool_scope.
#[local] Open Scope Z_scope.

(** ** Policies *)

Definition zero : pynum := NInt 0.
Definition fzero : pynum := NFloat (S754_zero false).
Definition fone : pynum := NFloat fl_one.

Definition value_check (b : bool) : res unit := if b then Ok tt else Err ValueError.

(** [math.isfinite(n)] *)
Definition is_finite (n : pynum) : res bool := let! f := num_float n in Ok (fl_finite f).

(** [ToolRetryPolicy] and [TaskRetryPolicy]: the same fields, with their own
    constructors *)
Record RetryPolicy := mkRetryPolicy {
  rp_max_retries : pyval;
  rp_retryable_codes : list string;
  rp_idempotent : bool;
  rp_initial_delay_seconds : pynum;
  rp_max_delay_seconds : pynum;
  rp_jitter_ratio : pynum;
  rp_max_elapsed_seconds : pynum
}.

(** [isinstance(v, int) and not isinstance(v, bool) and v >= n] *)
Definition int_at_least (n : Z) (v : pyval) : bool :=
  match v with VInt z => n <=? z | _ => false end.

(** The two checks of the delays that every policy makes *)
Definition delays_ok (initial maximum : pynum) : res unit :=
  let! a := is_finite initial in
  check! value_check a in
  let! b := is_finite maximum in
  check! value_check b in
  check! value_check (negb (num_lt initial zero) && negb (num_le maximum zero)) in
  value_check (negb (num_lt maximum initial)).

Definition elapsed_ok (elapsed : pynum) : res unit :=
  let! a := is_finite elapsed in
  check! value_check a in
  value_check (negb (num_le elapsed zero)).

Definition jitter_ok (jitter : pynum) : res unit :=
  let! a := is_finite jitter in
  check! value_check a in
  value_check (num_le zero jitter && num_le jitter (NInt 1)).

(** [ToolRetryPolicy.__post_init__] *)
Definition tool_policy_ok (p : RetryPolicy) : res unit :=
  check! value_check (int_at_least 1 (rp_max_retries p)) in
  check! value_check (rp_idempotent p) in
  check! value_check (negb (is_nil (rp_retryable_codes p))
                      && forallb (fun c => negb (blank c)) (rp_retryable_codes p)) in
  check! delays_ok (rp_initial_delay_seconds p) (rp_max_delay_seconds p) in
  check! elapsed_ok (rp_max_elapsed_seconds p) in
  jitter_ok (rp_jitter_ratio p).

(** [TaskRetryPolicy.__post_init__] *)
Definition task_policy_ok (p : RetryPolicy) : res unit :=
  check! value_check (int_at_least 1 (rp_max_retries p)) in
  check! value_check (rp_idempotent p) in
  check! value_check (negb (is_nil (rp_retryable_codes p))) in
  check! delays_ok (rp_initial_delay_seconds p) (rp_max_delay_seconds p) in
  check! jitter_ok (rp_jitter_ratio p) in
  elapsed_ok (rp_max_elapsed_seconds p).

(** [ModelRetryPolicy], without its breaker policy *)
Record ModelRetryPolicy := mkModelRetryPolicy {
  mp_enabled : bool;
  mp_max_retries : pyval;
  mp_initial_delay_seconds : pynum;
  mp_max_delay_seconds : pynum;
  mp_jitter_ratio : pynum;
  mp_retryable_statuses : list pyval;
  mp_max_elapsed_seconds : pynum
}.

Definition default_retryable_statuses : list pyval :=
  map VInt [408; 409; 429; 500; 502; 503; 504].

Definition http_status (v : pyval) : bool :=
  match v with VInt z => (100 <=? z) && (z <=? 599) | _ => false end.

(** [ModelRetryPolicy.__post_init__] *)
Definition model_policy_ok (p : ModelRetryPolicy) : res unit :=
  check! value_check (int_at_least 0 (mp_max_retries p)) in
  check! value_check (negb (mp_enabled p && negb (int_at_least 1 (mp_max_retries p)))) in
  check! delays_ok (mp_initial_delay_seconds p) (mp_max_delay_seconds p) in
  check! elapsed_ok (mp_max_elapsed_seconds p) in
  check! jitter_ok (mp_jitter_ratio p) in
  value_check (forallb http_status (mp_retryable_statuses p)).

(** ** The delay before a retry *)

(** [retry_delay_seconds]; [random] is what [random()] returns. *)
Definition retry_delay_seconds (retry_number : Z) (initial maximum jitter_ratio random : pynum)
    (retry_after : option pynum) : res (option pynum) :=
  match retry_after with
  | Some a => if num_lt maximum a then Ok None else Ok (Some (py_max fzero a))
  | None =>
      let! grown := num_mul initial (NInt (2 ^ Z.max 0 (retry_number - 1))) in
      let exponential := py_min grown maximum in
      let sample := py_min fone (py_max fzero random) in
      let! low := num_sub (NInt 1) jitter_ratio in
      let! width := num_mul (NInt 2) jitter_ratio in
      let! spread := num_mul width sample in
      let! jitter := num_add low spread in
      let! delay := num_mul exponential jitter in
      Ok (Some (py_min delay maximum))
  end.

(** ** Classification of a model error *)
Record ModelRetryDecision := mkRetryDecision {
  rd_retryable : bool;
  rd_code : string;
  rd_status_code : option Z;
  rd_retry_after_seconds : option pynum
}.

Definition retryable_error_codes : list string :=
  ["provider_timeout_error"; "provider_http_error"; "provider_rate_limit_error";
   "provider_transport_error"].

Definition non_retryable_text : list string :=
  ["insufficient_quota"; "quota exceeded"; "billing"; "out of budget"; "context overflow";
   "context length"].

Definition retryable_text : list string :=
  ["rate limit"; "too many requests"; "overloaded"; "service unavailable"; "connection reset";
   "connection refused"; "network error"; "timed out"; "timeout"; "stream ended"].

(** [p in s] *)
Fixpoint contains (p s : string) : bool :=
  String.prefix p s || match s with EmptyString => false | String _ s' => contains p s' end.

(** [s.casefold()] of an ASCII text *)
Definition casefold (s : string) : res string :=
  if forallb (fun c => (Ascii.N_of_ascii c <? 128)%N) (String.list_ascii_of_string s) then Ok (ascii_casefold s)
  else Err OutsideModel.

(** [float(retryAfterMs) / 1000], when it is a number that is not negative *)
Definition retry_after_of (v : pyval) : res (option pynum) :=
  match as_number v with
  | None => Ok None
  | Some n =>
      if num_le zero n then
        let! ms := num_float n in
        let! thousand := num_float (NInt 1000) in
        Ok (Some (NFloat (fl_div ms thousand)))
      else Ok None
  end.

(** [classify_model_error] *)
Definition classify_model_error (message : pydict) (policy : ModelRetryPolicy)
  : res ModelRetryDecision :=
  if negb (is_str (jget message "stopReason") "error")
  then Ok (mkRetryDecision false "not_error" None None) else
  match jget message "providerError" with
  | VDict details =>
      let! code := py_str (jget_or details "code" (VStr "provider_error")) in
      let status_code := match jget details "statusCode" with VInt z => Some z | _ => None end in
      let! retry_after := retry_after_of (jget details "retryAfterMs") in
      let retryable :=
        match jget details "retryable" with
        | VBool b => b
        | _ => match status_code with
               | Some z => existsb (py_eq (VInt z)) (mp_retryable_statuses policy)
               | None => mem_str code retryable_error_codes
               end
        end in
      Ok (mkRetryDecision retryable code status_code retry_after)
  | _ =>
      let! text := py_str (jget_or message "errorMessage" (VStr "")) in
      let! text := casefold text in
      if existsb (fun p => contains p text) non_retryable_text
      then Ok (mkRetryDecision false "non_retryable_provider_limit" None None) else
      if existsb (fun p => contains p text) retryable_text
      then Ok (mkRetryDecision true "legacy_transient_error" None None)
      else Ok (mkRetryDecision false "unclassified_error" None None)
  end.

(** ** Bounds of a delay *)

Lemma value_check_Ok b u : value_check b = Ok u <-> b = true.
Proof. destruct u, b; split; done. Qed.

Lemma is_finite_float f b : is_finite (NFloat f) = Ok b <-> fl_finite f = b.
Proof. unfold is_finite. simpl. split; [by intros [= ->]|by intros ->]. Qed.

Ltac checks H :=
  res_inv H;
  repeat match goal with
  | E : is_finite _ = Ok _ |- _ => apply is_finite_float in E
  | E : value_check _ = Ok _ |- _ => apply value_check_Ok in E
  end.

(** What the checks say of policy fields that are the floats their annotations
    announce *)
Definition finite_nonneg (f : pyfloat) : Prop := fl_finite f = true /\ nonneg f.

Lemma delays_ok_floats f g u :
  delays_ok (NFloat f) (NFloat g) = Ok u ->
  finite_nonneg f /\ finite_nonneg g /\ num_le (NFloat f) (NFloat g) = true.
Proof.
  unfold delays_ok. intros H. checks H. subst. apply andb_prop in E3 as [H1 H2].
  assert (Hf : num_le zero (NFloat f) = true).
  { rewrite num_lt_le_negb in H1 by done. by rewrite negb_involutive in H1. }
  assert (Hg : num_le zero (NFloat g) = true).
  { rewrite <- num_lt_le_negb in H2 by done. by apply num_lt_le. }
  rewrite num_lt_le_negb, negb_involutive in H by done.
  by repeat split; try apply nonneg_spec.
Qed.

Lemma jitter_ok_float f u : jitter_ok (NFloat f) = Ok u -> unit_float f.
Proof.
  unfold jitter_ok. intros H. checks H. subst. apply andb_prop in H as [H1 H2].
  repeat split; [done|by apply nonneg_spec|done].
Qed.

Lemma fzero_lt r : num_lt fzero r = num_lt zero r.
Proof. by destruct r as [|[]]. Qed.
Lemma fzero_le r : num_le fzero r = num_le zero r.
Proof. by destruct r as [|[]]. Qed.

(** The random sample is clamped, whatever [random()] returns. *)
Lemma sample_unit r : exists f, py_min fone (py_max fzero r) = NFloat f /\ unit_float f.
Proof.
  unfold py_min, py_max. rewrite fzero_lt. destruct (num_lt zero r) eqn:E1; [|by exists (S754_zero false)].
  destruct (num_lt r fone) eqn:E2; [|by exists fl_one].
  assert (Hr : num_finite r = true) by (by eapply num_lt_between).
  destruct r as [z|f].
  - unfold zero in E1. rewrite num_lt_int in E1. apply Z.ltb_lt in E1.
    rewrite num_lt_le_negb in E2 by done.
    rewrite (num_le_trans fone (NInt 1) (NInt z)) in E2; try done.
    rewrite num_le_int. apply Z.leb_le. lia.
  - exists f. split; [done|]. apply num_lt_le in E1, E2. repeat split; [done|by apply nonneg_spec|].
    by apply (num_le_trans _ fone).
Qed.

(** [1 - j + 2 * j * sample] of numbers between 0 and 1 *)
Lemma jitter_small j s :
  unit_float j -> unit_float s ->
  exists low width spread f,
    num_sub (NInt 1) (NFloat j) = Ok low /\ num_mul (NInt 2) (NFloat j) = Ok width /\
    num_mul width (NFloat s) = Ok spread /\ num_add low spread = Ok (NFloat f) /\ small 8 f.
Proof.
  intros Hj Hs. pose proof (one_minus_small j Hj) as H1.
  pose proof (small_mul 2 1 (fl 2 0) j ltac:(done) (unit_small j Hj) ltac:(lia)) as H2.
  pose proof (small_mul 4 1 _ s H2 (unit_small s Hs) ltac:(lia)) as H3.
  pose proof (small_add 6 _ _ (small_le 3 6 _ ltac:(lia) H1) H3 ltac:(lia)) as H4.
  eexists _, _, _, _. repeat split; [..|exact H4]; reflexivity.
Qed.

(** [float(2 ** k)] does not overflow below [2 ** 1024]. *)
Lemma power_float k :
  0 <= k < 1024 -> exists f, num_float (NInt (2 ^ k)) = Ok (f) /\ finite_nonneg f.
Proof.
  intros Hk.
  assert (H : forallb (fun n => match float_of_int (2 ^ Z.of_nat n) with
                                | Some f => fl_finite f && num_le zero (NFloat f)
                                | None => false end) (seq 0 1024) = true) by (vm_compute; reflexivity).
  rewrite forallb_elem in H. specialize (H (Z.to_nat k)). rewrite Z2Nat.id in H by lia.
  cbn [num_float]. destruct (float_of_int (2 ^ k)) as [f|].
  - exists f. destruct (andb_prop _ _ (H ltac:(apply elem_of_seq; lia))) as [A B].
    split; [done|]. split; [done|by apply nonneg_spec].
  - discriminate (H ltac:(apply elem_of_seq; lia)).
Qed.

Lemma finite_nonneg_mul x y : finite_nonneg x -> finite_nonneg y -> nonneg (fl_mul x y).
Proof. intros [] []. by apply nonneg_mul. Qed.

(** The smaller of a nonnegative float, possibly infinite, and a finite bound *)
Lemma min_bounded x m :
  nonneg x -> finite_nonneg m ->
  exists f, py_min (NFloat x) (NFloat m) = NFloat f /\ finite_nonneg f /\
            num_le (NFloat f) (NFloat m) = true.
Proof.
  intros Hx [Hm Hm']. unfold py_min. destruct (num_lt (NFloat m) (NFloat x)) eqn:E.
  - exists m. split; [done|]. split; [done|]. unfold num_le.
    by rewrite num_compare_finite, dyadic_compare_refl.
  - assert (Hf : fl_finite x = true) by (destruct x as [|[]| |], m as [|[]| |]; done).
    exists x. split; [done|]. split; [done|].
    rewrite num_lt_le_negb in E by done. by destruct (num_le _ _).
Qed.

(** The delay before a retry, computed in the floats of the interpreter, is a
    finite number between 0 and the policy's maximum, whatever the random source
    returns; only a server that asks for more than the maximum makes it [None].
    The policy has passed its checks with float fields, as annotated, and the
    retry is at most the 1024th: [2 ** 1024] is no float. *)
Theorem retry_delay_is_bounded n f g j random after :
  delays_ok (NFloat f) (NFloat g) = Ok tt -> jitter_ok (NFloat j) = Ok tt -> n <= 1024 ->
  exists o, retry_delay_seconds n (NFloat f) (NFloat g) (NFloat j) random after = Ok o /\
    (o = None <-> exists a, after = Some a /\ num_lt (NFloat g) a = true) /\
    forall d, o = Some d ->
      num_finite d = true /\ num_le zero d = true /\ num_le d (NFloat g) = true.
Proof.
  intros Hd Hj Hn. apply delays_ok_floats in Hd as (Hf & Hg & _). apply jitter_ok_float in Hj.
  destruct after as [a|]; cbn [retry_delay_seconds].
  - destruct (num_lt (NFloat g) a) eqn:E; eexists; (split; [done|]).
    { split; [split; [eauto|done]|done]. }
    split; [split; [done|]|].
    { intros (? & [= <-] & ?). congruence. }
    intros d [= <-]. destruct Hg as [Hg Hg']. apply nonneg_spec in Hg'; [|done].
    unfold py_max. rewrite fzero_lt. destruct (num_lt zero a) eqn:E0.
    + assert (num_finite a = true) by (destruct a as [|[|[]| |]], g as [|[]| |]; done).
      rewrite num_lt_le_negb in E by done. split_and!; [done|by apply num_lt_le|by apply negb_false_iff].
    + by rewrite fzero_le.
  - destruct (power_float (Z.max 0 (n - 1))) as (k & Hk & Hk'); [lia|].
    destruct (sample_unit random) as (s & -> & Hs).
    destruct (jitter_small j s Hj Hs) as (low & width & spread & t & -> & -> & H3 & H4 & Ht).
    destruct (min_bounded (fl_mul f k) g) as (x & Hx & Hx' & _); [by apply finite_nonneg_mul|done|].
    destruct (min_bounded (fl_mul x t) g) as (d & Hd & (Hd1 & Hd2) & Hd3);
      [apply finite_nonneg_mul; [done|split; [by eapply small_finite|by eapply small_nonneg]]|done|].
    eexists. split.
    + unfold num_mul at 1, num_arith at 1. rewrite Hk. cbn [rbind num_float]. rewrite Hx, H3.
      cbn [rbind]. rewrite H4. cbn [rbind num_mul num_arith num_float]. rewrite Hd. reflexivity.
    + split; [split; [done|by intros (? & ? & _)]|]. intros d' [= <-].
      split; [done|]. split; [by apply nonneg_spec|done].
Qed.

(** ** Instances *)

(** The defaults of [ModelRetryPolicy]: 0.5, 30.0 and 0.2 *)
Definition half : pyfloat := fl 1 (-1).
Definition thirty : pyfloat := fl 30 0.
Definition fifth : pyfloat := fl 3602879701896397 (-54).

Lemma retry_delay_is_bounded_witness :
  exists o, retry_delay_seconds 4 (NFloat half) (NFloat thirty) (NFloat fifth) (NFloat half) None
            = Ok o /\
    forall d, o = Some d ->
      num_finite d = true /\ num_le zero d = true /\ num_le d (NFloat thirty) = true.
Proof.
  destruct (retry_delay_is_bounded 4 half thirty fifth (NFloat half) None) as (o & H & _ & B);
    [vm_compute; reflexivity|vm_compute; reflexivity|lia|].
  exists o. split; [exact H|exact B].
Defined.

(** The fourth retry waits 0.5 * 2^3 = 4.0 seconds, jittered by a factor in
    [[0.8, 1.2]]. *)
Example fourth_delay :
  map (fun r => retry_delay_seconds 4 (NFloat half) (NFloat thirty) (NFloat fifth) r None)
    [fone; NFloat half; fzero]
  = [Ok (Some (NFloat (fl 5404319552844596 (-50)))); Ok (Some (NFloat (fl 4 0)));
     Ok (Some (NFloat (fl 7205759403792794 (-51))))].
Proof. vm_compute. reflexivity. Qed.

(** Past the bound of [retry_delay_is_bounded] the delay is not capped: the power
    of two no longer converts to a float. *)
Lemma delay_of_retry_1025_overflows :
  retry_delay_seconds 1025 (NFloat half) (NFloat thirty) (NFloat fifth) fone None
  = Err OverflowError.
Proof. vm_compute. reflexivity. Qed.

(** A structured error decides before any text, and an answer is never retried. *)
Lemma classify_not_error message policy d :
  classify_model_error message policy = Ok d -> rd_retryable d = true ->
  jget message "stopReason" = VStr "error".
Proof.
  unfold classify_model_error. destruct (is_str (jget message "stopReason") "error") eqn:E; cbn [negb].
  - intros _ _. by apply is_str_spec.
  - by intros [= <-].
Qed.

Example structured_error_first :
  classify_model_error
    [("stopReason", VStr "error"); ("errorMessage", VStr "rate limit");
     ("providerError", VDict [("code", VStr "x"); ("statusCode", VInt 503); ("retryAfterMs", VInt 1500)])]
    (mkModelRetryPolicy true (VInt 2) (NFloat half) (NFloat thirty) (NFloat fifth)
       default_retryable_statuses (NInt 120))
  = Ok (mkRetryDecision true "x" (Some 503) (Some (NFloat (fl 3 (-1))))).
Proof. vm_compute. reflexivity. Qed.
