(* ===== verification/CircuitBreaker.v ===== *)
(** * The circuit breaker  (retry/circuit_breaker.py)

    The breaker in front of a model provider, as the sequence of calls that any
    number of concurrent runs make on it: [before_call] admits or rejects,
    [record_success] and [record_failure] report how an admitted call ended.  The
    lock makes each call one step; the clock is what each call reads. *)

From S2P Require Import Prelude PyDict Text PyVal PyNum Retry.

#[local] Open Scope string_scope.
#[local] Open Scope bool_scope.
#[local] Open Scope Z_scope.

(** ** The policy *)
Record CircuitBreakerPolicy := mkCircuitPolicy {
  cb_enabled : bool;
  cb_failure_threshold : Z;
  cb_recovery_timeout_seconds : pynum
}.

(** [CircuitBreakerPolicy(...)] with its checks *)
Definition circuit_policy (enabled failure_threshold recovery_timeout : pyval)
  : res CircuitBreakerPolicy :=
  match enabled, failure_threshold with
  | VBool e, VInt n =>
      check! value_check (1 <=? n) in
      match as_number recovery_timeout with
      | Some t =>
          let! finite := is_finite t in
          check! value_check finite in
          check! value_check (negb (num_le t zero)) in
          Ok (mkCircuitPolicy e n t)
      | None => Err ValueError
      end
  | _, _ => Err ValueError
  end.

(** ** The breaker *)
Inductive CircuitState := CircuitClosed | CircuitOpen | CircuitHalfOpen.

#[export] Instance circuit_state_eq_dec : EqDecision CircuitState.
Proof. solve_decision. Defined.

Record CircuitBreaker := mkBreaker {
  br_state : CircuitState;
  br_failures : Z;
  br_opened_at : pynum;
  br_half_open_in_flight : bool
}.

(** [CircuitBreaker.__init__] *)
Definition new_breaker : CircuitBreaker := mkBreaker CircuitClosed 0 fzero false.

Section Breaker.
Variable policy : CircuitBreakerPolicy.

(** The end of [before_call]: one probe at a time *)
Definition admit_probe (b : CircuitBreaker) : CircuitBreaker * res unit :=
  if br_half_open_in_flight b then (b, Err CircuitOpenError)
  else (mkBreaker (br_state b) (br_failures b) (br_opened_at b) true, Ok tt).

(** [before_call], at the time its clock returns *)
Definition before_call (now : pynum) (b : CircuitBreaker) : CircuitBreaker * res unit :=
  if negb (cb_enabled policy) then (b, Ok tt) else
  match br_state b with
  | CircuitClosed => (b, Ok tt)
  | CircuitOpen =>
      match num_sub now (br_opened_at b) with
      | Err e => (b, Err e)
      | Ok elapsed =>
          if num_lt elapsed (cb_recovery_timeout_seconds policy) then (b, Err CircuitOpenError)
          else admit_probe (mkBreaker CircuitHalfOpen (br_failures b) (br_opened_at b) false)
      end
  | CircuitHalfOpen => admit_probe b
  end.

(** [record_success] *)
Definition record_success (b : CircuitBreaker) : CircuitBreaker :=
  if negb (cb_enabled policy) then b else mkBreaker CircuitClosed 0 (br_opened_at b) false.

(** [record_failure] *)
Definition record_failure (now : pynum) (b : CircuitBreaker) : CircuitBreaker :=
  if negb (cb_enabled policy) then b else
  let failures := br_failures b + 1 in
  if bool_decide (br_state b = CircuitHalfOpen) || (cb_failure_threshold policy <=? failures)
  then mkBreaker CircuitOpen failures now false
  else mkBreaker (br_state b) failures (br_opened_at b) false.

(** ** Runs *)
Inductive breaker_call :=
| BeforeCall (now : pynum)
| RecordSuccess
| RecordFailure (now : pynum).

Definition call_breaker (b : CircuitBreaker) (c : breaker_call) : CircuitBreaker :=
  match c with
  | BeforeCall now => fst (before_call now b)
  | RecordSuccess => record_success b
  | RecordFailure now => record_failure now b
  end.

Definition run_breaker (b : CircuitBreaker) (calls : list breaker_call) : CircuitBreaker :=
  fold_left call_breaker calls b.

(** How many of some [before_call]s in a row are admitted *)
Fixpoint admitted (b : CircuitBreaker) (times : list pynum) : nat :=
  match times with
  | [] => 0
  | t :: times' =>
      let '(b', r) := before_call t b in
      ((if is_ok r then 1 else 0) + admitted b' times')%nat
  end.

(** ** The abstract breaker: failures recorded since the last success *)
Definition count_failure (n : Z) (c : breaker_call) : Z :=
  match c with BeforeCall _ => n | RecordSuccess => 0 | RecordFailure _ => n + 1 end.

Definition failures_since_success (calls : list breaker_call) : Z :=
  fold_left count_failure calls 0.

(** When the last failure was recorded *)
Definition failure_time (t : option pynum) (c : breaker_call) : option pynum :=
  match c with RecordFailure now => Some now | _ => t end.

Definition last_failure (calls : list breaker_call) : option pynum :=
  fold_left failure_time calls None.

Record breaker_inv (calls : list breaker_call) (b : CircuitBreaker) : Prop := {
  bi_failures : br_failures b = failures_since_success calls;
  bi_nonneg : 0 <= br_failures b;
  bi_closed : br_state b = CircuitClosed <-> br_failures b < cb_failure_threshold policy;
  bi_in_flight : br_half_open_in_flight b = true -> br_state b = CircuitHalfOpen;
  bi_opened_at : br_state b <> CircuitClosed -> last_failure calls = Some (br_opened_at b)
}.

Hypothesis Henabled : cb_enabled policy = true.
Hypothesis Hthreshold : 1 <= cb_failure_threshold policy.

Lemma admit_probe_fields b :
  let b' := fst (admit_probe b) in
  br_state b' = br_state b /\ br_failures b' = br_failures b /\ br_opened_at b' = br_opened_at b.
Proof. unfold admit_probe. by destruct (br_half_open_in_flight b). Qed.

(** A [before_call] only ever turns an open breaker half-open. *)
Lemma before_call_fields now b :
  let b' := fst (before_call now b) in
  br_failures b' = br_failures b /\ br_opened_at b' = br_opened_at b /\
  (br_state b' = br_state b \/ br_state b = CircuitOpen /\ br_state b' = CircuitHalfOpen) /\
  (br_half_open_in_flight b' = true -> br_half_open_in_flight b = true \/ br_state b' = CircuitHalfOpen).
Proof.
  unfold before_call. rewrite Henabled. cbn [negb].
  destruct (br_state b) eqn:E.
  - simpl. rewrite E. split_and!; auto.
  - destruct (num_sub now (br_opened_at b)) as [t|]; [|simpl; rewrite E; split_and!; auto].
    destruct (num_lt t _); simpl; rewrite ?E; split_and!; auto.
  - destruct (admit_probe_fields b) as (H1 & H2 & H3). rewrite H1, H2, H3, E. split_and!; auto.
Qed.

Lemma new_breaker_inv : breaker_inv [] new_breaker.
Proof. split; simpl; try done. split; [lia|done]. Qed.

Lemma failures_snoc calls c :
  failures_since_success (calls ++ [c]) = count_failure (failures_since_success calls) c.
Proof. apply fold_left_app. Qed.

Lemma last_failure_snoc calls c :
  last_failure (calls ++ [c]) = failure_time (last_failure calls) c.
Proof. apply fold_left_app. Qed.

Lemma call_inv calls b c : breaker_inv calls b -> breaker_inv (calls ++ [c]) (call_breaker b c).
Proof.
  intros [H1 H2 H3 H4 H5].
  destruct c as [now| |now]; split; rewrite ?failures_snoc, ?last_failure_snoc; simpl;
    unfold record_success, record_failure; rewrite ?Henabled; cbn [negb].
  - by destruct (before_call_fields now b) as (-> & _).
  - by destruct (before_call_fields now b) as (-> & _).
  - destruct (before_call_fields now b) as (-> & _ & [->|[E ->]] & _); [done|].
    rewrite <- H3, E. done.
  - destruct (before_call_fields now b) as (_ & _ & Hs & Hi). intros H.
    destruct (Hi H) as [Hb|]; [|done]. apply H4 in Hb. destruct Hs as [->|[]]; congruence.
  - destruct (before_call_fields now b) as (_ & -> & Hs & _). intros H. apply H5.
    destruct Hs as [<-|[-> _]]; done.
  - done.
  - done.
  - simpl. split; [lia|done].
  - done.
  - done.
  - rewrite <- H1. by case_match.
  - case_match; simpl; lia.
  - case_match eqn:E; simpl.
    + split; [done|]. apply orb_prop in E as [E|E]; [|lia].
      apply bool_decide_eq_true in E. assert (br_state b <> CircuitClosed) by congruence.
      rewrite H3 in H. lia.
    + apply orb_false_elim in E as [_ E]. rewrite H3. lia.
  - by case_match.
  - case_match eqn:E; simpl; [done|]. apply orb_false_elim in E as [_ E].
    intros []. apply H3. lia.
Qed.

Lemma run_snoc b calls c : run_breaker b (calls ++ [c]) = call_breaker (run_breaker b calls) c.
Proof. apply fold_left_app. Qed.

Lemma run_inv calls : breaker_inv calls (run_breaker new_breaker calls).
Proof.
  induction calls as [|c calls IH] using rev_ind; [apply new_breaker_inv|].
  rewrite run_snoc. by apply call_inv.
Qed.

(** The breaker is closed exactly while fewer failures than the threshold were
    recorded since the last success, whatever the calls and their interleaving; once
    it is not closed it remembers when the last failure was recorded. *)
Theorem breaker_opens_at_threshold calls :
  let b := run_breaker new_breaker calls in
  (br_state b = CircuitClosed <-> failures_since_success calls < cb_failure_threshold policy) /\
  br_failures b = failures_since_success calls /\
  (br_state b <> CircuitClosed -> last_failure calls = Some (br_opened_at b)).
Proof. intros b. destruct (run_inv calls) as [<- _ H _ H']. auto. Qed.

(** *** Admissions *)
Lemma probing_rejects b times :
  br_state b = CircuitHalfOpen -> br_half_open_in_flight b = true -> admitted b times = 0%nat.
Proof.
  intros Hs Hi. induction times as [|t times IH]; [done|]. cbn [admitted].
  unfold before_call, admit_probe. rewrite Henabled, Hs, Hi. cbn. exact IH.
Qed.

(** What [before_call] does on a breaker that is not closed *)
Lemma not_closed_call now b :
  br_state b <> CircuitClosed ->
  (exists e, before_call now b = (b, Err e)) \/
  (exists b', before_call now b = (b', Ok tt) /\ br_state b' = CircuitHalfOpen /\
              br_half_open_in_flight b' = true).
Proof.
  intros Hb. unfold before_call, admit_probe. rewrite Henabled. cbn [negb].
  destruct (br_state b) eqn:E; [done| |].
  - destruct (num_sub now (br_opened_at b)); [|eauto]. destruct (num_lt _ _); eauto 10.
  - destruct (br_half_open_in_flight b); eauto 10.
Qed.

Lemma not_closed_admits_one times : forall b,
  br_state b <> CircuitClosed -> (admitted b times <= 1)%nat.
Proof.
  induction times as [|t times IH]; intros b Hb; [simpl; lia|]. cbn [admitted].
  destruct (not_closed_call t b Hb) as [[e ->]|(b' & -> & H1 & H2)]; cbn.
  - by apply IH.
  - rewrite probing_rejects by done. lia.
Qed.

(** [clock() - opened_at < recovery_timeout_seconds] *)
Definition too_early (opened_at now : pynum) : Prop :=
  exists d, num_sub now opened_at = Ok d /\ num_lt d (cb_recovery_timeout_seconds policy) = true.

Lemma early_rejects b times :
  br_state b = CircuitOpen -> Forall (too_early (br_opened_at b)) times -> admitted b times = 0%nat.
Proof.
  intros Hs. induction 1 as [|t times (d & Hd & Hlt) _ IH]; [done|]. cbn [admitted].
  unfold before_call. rewrite Henabled, Hs, Hd, Hlt. cbn. exact IH.
Qed.

(** Once the failures since the last success reach the threshold, at most one
    call is admitted until a result is recorded, however many runs ask; and none
    while the breaker is open and the recovery time since the last recorded failure
    has not passed. *)
Theorem open_breaker_admits_one_probe calls times :
  cb_failure_threshold policy <= failures_since_success calls ->
  let b := run_breaker new_breaker calls in
  (admitted b times <= 1)%nat /\
  (forall t, br_state b = CircuitOpen -> last_failure calls = Some t ->
             Forall (too_early t) times -> admitted b times = 0%nat).
Proof.
  intros Hn b. destruct (run_inv calls) as [H1 _ H2 _ H3]. fold b in H1, H2, H3.
  assert (Hb : br_state b <> CircuitClosed) by (rewrite H2; lia).
  split; [by apply not_closed_admits_one|]. intros t Hs Ht Hf.
  apply early_rejects; [done|]. specialize (H3 Hb). by rewrite H3 in Ht; injection Ht as ->.
Qed.
End Breaker.

(** ** Instances *)
Definition two_failures : CircuitBreakerPolicy := mkCircuitPolicy true 2 (NFloat thirty).

Example sample_policy_accepted :
  circuit_policy (VBool true) (VInt 2) (VFloat thirty) = Ok two_failures.
Proof. vm_compute. reflexivity. Qed.

(** Two failures open the breaker at 10.0. *)
Definition failing_calls : list breaker_call :=
  [BeforeCall (NInt 8); RecordFailure (NInt 9); BeforeCall (NInt 9); RecordFailure (NInt 10)].

Lemma breaker_opens_at_threshold_witness :
  br_state (run_breaker two_failures new_breaker failing_calls) = CircuitOpen /\
  (br_state (run_breaker two_failures new_breaker failing_calls) = CircuitClosed <->
   failures_since_success failing_calls < cb_failure_threshold two_failures).
Proof.
  split; [reflexivity|].
  exact (proj1 (breaker_opens_at_threshold two_failures eq_refl ltac:(simpl; lia) failing_calls)).
Defined.

Lemma open_breaker_admits_one_probe_witness :
  let b := run_breaker two_failures new_breaker failing_calls in
  admitted two_failures b [NInt 20; NInt 39] = 0%nat /\
  admitted two_failures b [NInt 20; NInt 40; NInt 41; NInt 90] = 1%nat.
Proof.
  intros b. split; [|vm_compute; reflexivity].
  refine (proj2 (open_breaker_admits_one_probe two_failures eq_refl ltac:(simpl; lia) failing_calls
                   [NInt 20; NInt 39] ltac:(vm_compute; discriminate)) (NInt 10) eq_refl eq_refl _).
  repeat constructor; eexists; (split; [reflexivity|vm_compute; reflexivity]).
Defined.
