(* ===== verification/RetryLoop.v ===== *)
(** * Retried tools and tasks  (retry/tool.py, retry/task.py)

    [execute_tool_with_retry] and [TaskRetryExecutor.execute] are one loop with two
    shapes of events: run the operation, and while it fails with a retryable code,
    wait and run it again, within the policy's number of retries and its elapsed
    time.  The event of a success is emitted inside the [try]: a sink that raises the
    retryable error there has the operation run again.  The operation, the event sink,
    the clock, the random source and the caller's cancellation are parameters, read at the attempt they belong to; time
    spent asleep is what the clock shows afterwards. *)

From S2P Require Import Prelude PyDict Text PyVal PyNum Retry.
From Corelib Require Import SpecFloat.

#[local] Open Scope string_scope.
#[local] Open Scope bool_scope.
#[local] Open Scope Z_scope.

(** [round(n)]: to the nearest integer, halves to even *)
Definition py_round (n : pynum) : res Z :=
  match n with
  | NInt z => Ok z
  | NFloat S754_nan => Err ValueError
  | NFloat (S754_infinity _) => Err OverflowError
  | NFloat f =>
      let (m, e) := fl_dyadic f in
      if 0 <=? e then Ok (Z.shiftl m e) else
      let d := Z.shiftl 1 (- e) in
      let q := m / d in
      let r := 2 * (m mod d) in
      Ok (if (d <? r) || ((r =? d) && Z.odd q) then q + 1 else q)
  end.

Example rounds_halves_to_even :
  map (fun m => py_round (NFloat (fl m (-1)))) [1; 3; 4; 5; -1; -3]
  = [Ok 0; Ok 2; Ok 2; Ok 2; Ok 0; Ok (-2)].
Proof. vm_compute. reflexivity. Qed.

(** The events a loop emits *)
Record retry_events := mkRetryEvents {
  ev_scheduled : Z -> Z -> string -> pydict;   (** attempt, delay in ms, error code *)
  ev_attempt_start : Z -> pydict;
  ev_succeeded : Z -> pydict;
  ev_failed : Z -> string -> pydict
}.

(** The exception a loop retries: its code and its [retry_after_seconds], if it is one,
    and the same exception with its [attempts] and its [retry_id] set *)
Record retry_class := mkRetryClass {
  rc_caught : exn -> option (string * option pynum);
  rc_marked : exn -> Z -> option string -> exn
}.

Definition tool_retry_class : retry_class :=
  mkRetryClass
    (fun e => match e with RetryableToolError code after _ _ => Some (code, after) | _ => None end)
    (fun e attempts id =>
       match e with RetryableToolError code after _ _ => RetryableToolError code after attempts id
                  | e => e end).

Definition task_retry_class : retry_class :=
  mkRetryClass
    (fun e => match e with RetryableTaskError code after _ _ => Some (code, after) | _ => None end)
    (fun e attempts id =>
       match e with RetryableTaskError code after _ _ => RetryableTaskError code after attempts id
                  | e => e end).

(** The delay in milliseconds before the next run, or [None] when the server or
    the elapsed time forbid one *)
Definition planned_delay (policy : RetryPolicy) (random : nat -> pynum) (started_at : pynum)
    (monotonic : nat -> pynum) (k : nat) (retry_after : option pynum) : res (option Z) :=
  let! delay := retry_delay_seconds (Z.of_nat k + 1) (rp_initial_delay_seconds policy)
                  (rp_max_delay_seconds policy) (rp_jitter_ratio policy) (random k) retry_after in
  let! elapsed := num_sub (monotonic k) started_at in
  match delay with
  | None => Ok None
  | Some d =>
      let! total := num_add elapsed d in
      if num_lt (rp_max_elapsed_seconds policy) total then Ok None else
      let! ms := num_mul d (NInt 1000) in
      let! ms := py_round ms in
      Ok (Some ms)
  end.

Section Loop.
Context {A : Type}.
Variable policy : RetryPolicy.
Variable max_retries : Z.
Variable retry_id : string.
Variable event : retry_events.
Variable class : retry_class.
(** The operation at its n-th run, counted from 0 *)
Variable execute : nat -> res A.
(** Whether the caller has cancelled before the n-th run, and during the sleep
    after it *)
Variable cancelled : nat -> bool.
Variable cancelled_asleep : nat -> bool.
(** [random()] and [time.monotonic()] after the n-th run; the loop started at
    [started_at]. *)
Variable random : nat -> pynum.
Variable started_at : pynum.
Variable monotonic : nat -> pynum.
(** What the caller's event sink does with an event *)
Variable emit : pydict -> res unit.

Abbreviation delay := (planned_delay policy random started_at monotonic).

(** One step: the events handed to the sink, and how the loop goes on *)
Inductive progress := Continue | Done (r : res A).

Definition emitting (e : pydict) (next : list pydict * progress) : list pydict * progress :=
  match emit e with
  | Ok _ => (e :: fst next, snd next)
  | Err x => ([e], Done (Err x))
  end.

(** [error.attempts = ...; error.retry_id = ...; raise] *)
Definition stop_retrying (k : nat) (x : exn) : res A :=
  Err (rc_marked class x (Z.of_nat k + 1) (if Nat.eqb k 0 then None else Some retry_id)).

(** The [except] of the run after [k] retries *)
Definition attempt_failed (k : nat) (x : exn) : list pydict * progress :=
  match rc_caught class x with
  | None => ([], Done (Err x))
  | Some (code, retry_after) =>
      if mem_str code (rp_retryable_codes policy) && (Z.of_nat k <? max_retries) then
        match delay k retry_after with
        | Err e => ([], Done (Err e))
        | Ok None => ([], Done (stop_retrying k x))
        | Ok (Some ms) =>
            emitting (ev_scheduled event (Z.of_nat k + 1) ms code)
              (if cancelled_asleep k then ([], Done (Err OperationCancelledError))
               else emitting (ev_attempt_start event (Z.of_nat k + 1)) ([], Continue))
        end
      else if Nat.eqb k 0 then ([], Done (stop_retrying k x))
      else emitting (ev_failed event (Z.of_nat k) code) ([], Done (stop_retrying k x))
  end.

Definition after_events (events : list pydict) (x : list pydict * progress) : list pydict * progress :=
  ((events ++ fst x)%list, snd x).

(** The body of [while True], after [k] retries *)
Definition attempt (k : nat) : list pydict * progress :=
  if cancelled k then ([], Done (Err OperationCancelledError)) else
  match execute k with
  | Err x => attempt_failed k x
  | Ok a =>
      if Nat.eqb k 0 then ([], Done (Ok a)) else
      match emit (ev_succeeded event (Z.of_nat k)) with
      | Ok _ => ([ev_succeeded event (Z.of_nat k)], Done (Ok a))
      | Err x => after_events [ev_succeeded event (Z.of_nat k)] (attempt_failed k x)
      end
  end.

(** [while True]; [None] when the fuel runs out *)
Fixpoint retry_loop (fuel k : nat) : option (list pydict * res A) :=
  match fuel with
  | O => None
  | S fuel =>
      match attempt k with
      | (events, Done r) => Some (events, r)
      | (events, Continue) =>
          match retry_loop fuel (S k) with
          | Some (more, r) => Some ((events ++ more)%list, r)
          | None => None
          end
      end
  end.

(** ** What the loop does *)

Definition taken (e : pydict) : Prop := exists u, emit e = Ok u.

(** The n-th run returned, and its success was told if it was a retry. *)
Definition run_returned (n : nat) (events : list pydict) (a : A) : Prop :=
  cancelled n = false /\ execute n = Ok a /\
  (n = O /\ events = [] \/
   n <> O /\ events = [ev_succeeded event (Z.of_nat n)] /\ taken (ev_succeeded event (Z.of_nat n))).

(** The n-th run raised: the operation did, or the sink of its success. *)
Definition run_raised (n : nat) (events : list pydict) (x : exn) : Prop :=
  cancelled n = false /\
  (events = [] /\ execute n = Err x \/
   n <> O /\ events = [ev_succeeded event (Z.of_nat n)] /\ (exists a, execute n = Ok a) /\
   emit (ev_succeeded event (Z.of_nat n)) = Err x).

(** It raised an error that may be retried. *)
Definition may_retry (n : nat) (before : list pydict) (x : exn) (code : string)
    (retry_after : option pynum) : Prop :=
  run_raised n before x /\ rc_caught class x = Some (code, retry_after) /\
  code ∈ rp_retryable_codes policy /\ Z.of_nat n < max_retries.

(** The n-th run failed with a declared code and is followed by another. *)
Definition retried (n : nat) (events : list pydict) : Prop :=
  exists before x code retry_after ms,
    may_retry n before x code retry_after /\ delay n retry_after = Ok (Some ms) /\
    taken (ev_scheduled event (Z.of_nat n + 1) ms code) /\ cancelled_asleep n = false /\
    taken (ev_attempt_start event (Z.of_nat n + 1)) /\
    events = (before ++ [ev_scheduled event (Z.of_nat n + 1) ms code;
                         ev_attempt_start event (Z.of_nat n + 1)])%list.

(** How the loop ends at its n-th run, and exactly the events of that run *)
Inductive ended (n : nat) : list pydict -> res A -> Prop :=
| ended_value events a : run_returned n events a -> ended n events (Ok a)
| ended_cancelled : cancelled n = true -> ended n [] (Err OperationCancelledError)
| ended_raised before x :
    run_raised n before x -> rc_caught class x = None -> ended n before (Err x)
| ended_refused before x code retry_after :
    run_raised n before x -> rc_caught class x = Some (code, retry_after) ->
    code ∉ rp_retryable_codes policy \/ max_retries <= Z.of_nat n -> n = O ->
    ended n before (stop_retrying n x)
| ended_chain_refused before x code retry_after :
    run_raised n before x -> rc_caught class x = Some (code, retry_after) ->
    code ∉ rp_retryable_codes policy \/ max_retries <= Z.of_nat n -> n <> O ->
    taken (ev_failed event (Z.of_nat n) code) ->
    ended n (before ++ [ev_failed event (Z.of_nat n) code]) (stop_retrying n x)
| ended_refusal_untold before x code retry_after y :
    run_raised n before x -> rc_caught class x = Some (code, retry_after) ->
    code ∉ rp_retryable_codes policy \/ max_retries <= Z.of_nat n -> n <> O ->
    emit (ev_failed event (Z.of_nat n) code) = Err y ->
    ended n (before ++ [ev_failed event (Z.of_nat n) code]) (Err y)
| ended_bad_delay before x code retry_after y :
    may_retry n before x code retry_after -> delay n retry_after = Err y -> ended n before (Err y)
| ended_out_of_time before x code retry_after :
    may_retry n before x code retry_after -> delay n retry_after = Ok None ->
    ended n before (stop_retrying n x)
| ended_unscheduled before x code retry_after ms y :
    may_retry n before x code retry_after -> delay n retry_after = Ok (Some ms) ->
    emit (ev_scheduled event (Z.of_nat n + 1) ms code) = Err y ->
    ended n (before ++ [ev_scheduled event (Z.of_nat n + 1) ms code]) (Err y)
| ended_asleep before x code retry_after ms :
    may_retry n before x code retry_after -> delay n retry_after = Ok (Some ms) ->
    taken (ev_scheduled event (Z.of_nat n + 1) ms code) -> cancelled_asleep n = true ->
    ended n (before ++ [ev_scheduled event (Z.of_nat n + 1) ms code]) (Err OperationCancelledError)
| ended_unstarted before x code retry_after ms y :
    may_retry n before x code retry_after -> delay n retry_after = Ok (Some ms) ->
    taken (ev_scheduled event (Z.of_nat n + 1) ms code) -> cancelled_asleep n = false ->
    emit (ev_attempt_start event (Z.of_nat n + 1)) = Err y ->
    ended n (before ++ [ev_scheduled event (Z.of_nat n + 1) ms code;
                        ev_attempt_start event (Z.of_nat n + 1)]) (Err y).

Definition attempt_shape (n : nat) (x : list pydict * progress) : Prop :=
  match x with
  | (events, Continue) => retried n events
  | (events, Done r) => ended n events r
  end.

Lemma emitting_shape n before e next :
  (taken e -> attempt_shape n (after_events (before ++ [e]) next)) ->
  (forall y, emit e = Err y -> ended n (before ++ [e]) (Err y)) ->
  attempt_shape n (after_events before (emitting e next)).
Proof.
  unfold emitting, taken, after_events. intros Hok Herr. destruct (emit e) as [u|y] eqn:E; [|by apply Herr].
  cbn. rewrite <- app_assoc in Hok. apply Hok. by exists u.
Qed.

Lemma attempt_failed_shape n before x :
  run_raised n before x -> attempt_shape n (after_events before (attempt_failed n x)).
Proof.
  intros Hx. unfold attempt_failed. destruct (rc_caught class x) as [[code after]|] eqn:Ec.
  2: { unfold after_events. cbn. rewrite app_nil_r. by apply ended_raised. }
  destruct (mem_str code _ && _) eqn:Er.
  - apply andb_prop in Er as [Hc Hk]. apply mem_str_spec in Hc. apply Z.ltb_lt in Hk.
    assert (Hm : may_retry n before x code after) by done.
    destruct (delay n after) as [[ms|]|y] eqn:Ed;
      [|unfold after_events; cbn; rewrite app_nil_r; by econstructor..].
    apply emitting_shape; [intros Hs|intros y Hy; by eapply ended_unscheduled].
    destruct (cancelled_asleep n) eqn:Ea.
    { unfold after_events. cbn. rewrite app_nil_r. by eapply ended_asleep. }
    apply emitting_shape; rewrite <- app_assoc; [intros Ht|intros y Hy; by eapply ended_unstarted].
    unfold after_events. cbn. rewrite app_nil_r. by exists before, x, code, after, ms.
  - assert (Hno : code ∉ rp_retryable_codes policy \/ max_retries <= Z.of_nat n).
    { apply andb_false_iff in Er as [Er|Er]; [left; by apply mem_str_false|right; by apply Z.ltb_ge]. }
    destruct (Nat.eqb_spec n 0) as [Hn|Hn].
    + unfold after_events. cbn. rewrite app_nil_r. by eapply ended_refused.
    + apply emitting_shape; [intros Ht|intros y Hy; by eapply ended_refusal_untold].
      unfold after_events. cbn. rewrite app_nil_r. by eapply ended_chain_refused.
Qed.

Lemma attempt_spec k : attempt_shape k (attempt k).
Proof.
  unfold attempt. destruct (cancelled k) eqn:Ec; [by apply ended_cancelled|].
  destruct (execute k) as [a|x] eqn:Ee.
  - destruct (Nat.eqb_spec k 0) as [Hk|Hk]; [apply ended_value; split_and!; auto|].
    destruct (emit (ev_succeeded event (Z.of_nat k))) as [u|x] eqn:Es.
    + apply ended_value. split_and!; [done..|]. right. split_and!; [done..|by exists u].
    + apply attempt_failed_shape. split; [done|]. right. split_and!; [done..|by exists a|done].
  - pose proof (attempt_failed_shape k [] x) as H. unfold after_events in H.
    destruct (attempt_failed k x) as [events p]. apply H. split; [done|by left].
Qed.

Lemma retry_loop_spec fuel : forall k,
  Z.max 0 max_retries - Z.of_nat k < Z.of_nat fuel -> Z.of_nat k <= Z.max 0 max_retries ->
  exists rounds last r,
    retry_loop fuel k = Some ((concat rounds ++ last)%list, r) /\
    Z.of_nat (k + List.length rounds) <= Z.max 0 max_retries /\
    (forall i events, rounds !! i = Some events -> retried (k + i) events) /\
    ended (k + List.length rounds) last r.
Proof.
  induction fuel as [|fuel IH]; intros k Hf Hk; [lia|]. cbn [retry_loop].
  pose proof (attempt_spec k) as Ha. destruct (attempt k) as [events [|r]].
  - assert (Hlt : Z.of_nat k < max_retries) by (by destruct Ha as (? & ? & ? & ? & ? & (_ & _ & _ & ?) & _)).
    destruct (IH (S k)) as (rounds & last & r & -> & Hn & Hr & He); [lia|lia|].
    exists (events :: rounds), last, r. cbn [concat List.length]. rewrite Nat.add_succ_r.
    split; [by rewrite <- app_assoc|]. split; [lia|]. split; [|done].
    intros [|i] ev; simpl; [intros [= <-]; by rewrite Nat.add_0_r|].
    intros Hi. rewrite Nat.add_succ_r. by apply (Hr i).
  - exists [], events, r. rewrite Nat.add_0_r. split; [done|]. split; [lia|]. by split.
Qed.

(** C37. The loop always returns, after at most [max_retries + 1] runs of the operation,
    and the events it hands to the sink are exactly those of its chain.  Every run but
    the last failed with a declared code - raised by the operation, or by the sink of
    its success - and is followed by the event that schedules the next run and the one
    that starts it.  The last one ends the loop in one of the ways listed, each with its
    events and its result: by its value, told if it was a retry; by a cancellation; by an
    exception of another class; by an error that may not be retried, whose chain is told
    to have failed; by running out of time; or by a delay or a sink that raises. *)
Theorem retries_are_bounded :
  0 <= max_retries ->
  exists rounds last r,
    retry_loop (S (Z.to_nat max_retries)) 0 = Some ((concat rounds ++ last)%list, r) /\
    Z.of_nat (List.length rounds) <= max_retries /\
    (forall k events, rounds !! k = Some events -> retried k events) /\
    ended (List.length rounds) last r.
Proof.
  intros Hmax. destruct (retry_loop_spec (S (Z.to_nat max_retries)) 0)
    as (rounds & last & r & H & Hn & Hr & He); [lia|lia|].
  exists rounds, last, r. rewrite Z.max_r in Hn by done. done.
Qed.
End Loop.

(** ** Tools and tasks *)

Definition retries_of (p : RetryPolicy) : Z := match rp_max_retries p with VInt z => z | _ => 0 end.

(** The events of [execute_tool_with_retry] *)
Definition tool_retry_events (retry_id tool_call_id tool_name : string) (max_retries : Z)
  : retry_events :=
  let event (type : string) (rest : pydict) : pydict :=
    ([("type", VStr type); ("retryId", VStr retry_id); ("toolCallId", VStr tool_call_id);
      ("toolName", VStr tool_name)] ++ rest)%list in
  mkRetryEvents
    (fun n ms code => event "tool_retry_scheduled"
       [("attempt", VInt n); ("maxAttempts", VInt max_retries); ("delayMs", VInt ms);
        ("errorCode", VStr code)])
    (fun n => event "tool_retry_attempt_start" [("attempt", VInt n)])
    (fun n => event "tool_retry_finished" [("success", VBool true); ("attempt", VInt n)])
    (fun n code => event "tool_retry_finished"
       [("success", VBool false); ("attempt", VInt n); ("finalError", VStr code)]).

(** The events of [TaskRetryExecutor.execute] *)
Definition task_retry_events (retry_id task_id : string) (max_retries : Z) : retry_events :=
  let event (type : string) (n : Z) (rest : pydict) : pydict :=
    ([("type", VStr type); ("kind", VStr "task"); ("retryId", VStr retry_id);
      ("taskId", VStr task_id); ("attempt", VInt n)] ++ rest)%list in
  mkRetryEvents
    (fun n ms code => event "task_retry_scheduled" n
       [("maxAttempts", VInt max_retries); ("delayMs", VInt ms); ("errorCode", VStr code)])
    (fun n => event "task_retry_attempt_start" n [])
    (fun n => event "task_retry_finished" n [("success", VBool true)])
    (fun n code => event "task_retry_finished" n
       [("success", VBool false); ("finalError", VStr code)]).

(** [TaskRetryExecutor._emit] *)
Definition task_emit (event_sink event_store : option (pydict -> res unit)) (e : pydict) : res unit :=
  check! match event_sink with Some f => f e | None => Ok tt end in
  match event_store with Some append => append e | None => Ok tt end.

Section Retried.
Context {A : Type}.
Variable retry_id : string.
Variable execute : nat -> res A.
Variable cancelled cancelled_asleep : nat -> bool.
Variable random : nat -> pynum.
Variable started_at : pynum.
Variable monotonic : nat -> pynum.

(** [execute_tool_with_retry]; without a policy the operation runs once. *)
Definition execute_tool_with_retry (policy : option RetryPolicy) (tool_call_id tool_name : string)
    (emit : pydict -> res unit) : option (list pydict * res A) :=
  match policy with
  | None => Some ([], execute 0%nat)
  | Some p =>
      retry_loop p (retries_of p) retry_id
        (tool_retry_events retry_id tool_call_id tool_name (retries_of p)) tool_retry_class
        execute cancelled cancelled_asleep random started_at monotonic emit (S (Z.to_nat (retries_of p))) 0
  end.

(** [TaskRetryExecutor.execute] *)
Definition task_retry_execute (p : RetryPolicy) (task_id : string)
    (event_sink event_store : option (pydict -> res unit)) : option (list pydict * res A) :=
  retry_loop p (retries_of p) retry_id (task_retry_events retry_id task_id (retries_of p))
    task_retry_class execute cancelled cancelled_asleep random started_at monotonic (task_emit event_sink event_store)
    (S (Z.to_nat (retries_of p))) 0.
End Retried.

(** ** Instance: a tool that answers at its second run *)
Definition second_try (n : nat) : res Z :=
  match n with O => Err (RetryableToolError "busy" None 1 None) | _ => Ok 7 end.

Definition retry_twice : RetryPolicy :=
  mkRetryPolicy (VInt 2) ["busy"] true (NFloat half) (NFloat thirty) (NFloat fifth) (NFloat thirty).

Definition sample_run : option (list pydict * res Z) :=
  execute_tool_with_retry "r-1" second_try (fun _ => false) (fun _ => false) (fun _ => fone)
    (NInt 100) (fun _ => NInt 101) (Some retry_twice) "call-1" "fetch" (fun _ => Ok tt).

Lemma retries_are_bounded_witness :
  exists rounds last r,
    sample_run = Some ((concat rounds ++ last)%list, r) /\ r = Ok 7 /\
    Z.of_nat (List.length rounds) <= 2.
Proof.
  destruct (retries_are_bounded retry_twice 2 "r-1" (tool_retry_events "r-1" "call-1" "fetch" 2)
    tool_retry_class second_try (fun _ => false) (fun _ => false) (fun _ => fone) (NInt 100) (fun _ => NInt 101)
    (fun _ => Ok tt) ltac:(lia)) as (rounds & last & r & H & Hn & _).
  exists rounds, last, r. split; [exact H|]. split; [|exact Hn].
  vm_compute in H. injection H as _ <-. reflexivity.
Defined.
