(* ===== verification/RetryEvents.v ===== *)
(** * Retry events and recovery  (retry/events.py)

    The store of retry events as the list of its records, the chains it holds that
    have no final event, and the recovery that runs a handler for each of them. *)

From S2P Require Import Prelude PyDict Text PyVal PyNum Retry RetryLoop.
From Corelib Require Import SpecFloat.

#[local] Open Scope string_scope.
#[local] Open Scope bool_scope.
#[local] Open Scope Z_scope.

Definition terminal_events : list string :=
  ["model_retry_finished"; "tool_retry_finished"; "task_retry_finished"; "retry_recovery_finished"].

Definition sensitive_keys : list string :=
  ["api_key"; "apikey"; "authorization"; "password"; "token"; "cookie"; "idempotency_key"].

(** ** The store *)

(** [s[:n]] *)
Definition str_take (n : nat) (s : string) : string := str_join "" (firstn n (utf8_chars s)).

(** [_sanitize(value, key=key)] *)
Fixpoint sanitize (key : string) (v : pyval) : res pyval :=
  let! folded := casefold key in
  if mem_str folded sensitive_keys then Ok (VStr "<redacted>") else
  match v with
  | VDict d =>
      let! d := mapR (fun '(k, x) => let! x := sanitize k x in Ok (k, x)) d in
      Ok (VDict d)
  | VList l =>
      let! l := mapR (sanitize "") l in
      Ok (VList l)
  | VStr s => Ok (VStr (if 500 <? py_len s then str_take 500 s ++ "<truncated>" else s))
  | _ => Ok v
  end.

(** [JsonlRetryEventStore.append], at the time its clock shows in milliseconds;
    the file keeps the record. *)
Definition append_retry_event (now_ms : Z) (store : list pydict) (event : pydict)
  : res (list pydict) :=
  let! record := sanitize "" (VDict event) in
  match record with
  | VDict d =>
      Ok (store ++ [if dmem "timestamp" d then d else dset "timestamp" (VInt now_ms) d])%list
  | _ => Err OutsideModel
  end.

(** ** Chains without a final event *)
Record RetryChain := mkRetryChain {
  rc_retry_id : string;
  rc_kind : string;
  rc_logical_id : option string;
  rc_last_event : string;
  rc_attempt : Z;
  rc_events : list pydict
}.

(** [_kind_from_event] *)
Definition kind_from_event (event_type : string) : string :=
  if starts_with "model_" event_type then "model" else
  if starts_with "tool_" event_type then "tool" else
  if starts_with "task_" event_type then "task" else "unknown".

(** [_logical_id] *)
Definition logical_id (event : pydict) : option string :=
  match find_first (fun k => match jget event k with VStr s => nonempty s | _ => false end)
          ["logicalId"; "toolCallId"; "taskId"; "turnId"] with
  | Some k => match jget event k with VStr s => Some s | _ => None end
  | None => None
  end.

(** The retry id an event is grouped under *)
Definition event_retry_id (event : pydict) : option string :=
  match jget event "retryId" with
  | VStr s => if nonempty s then Some s else None
  | _ => None
  end.

(** [grouped.setdefault(retry_id, []).append(event)] *)
Definition group_event (grouped : dict (list pydict)) (event : pydict) : dict (list pydict) :=
  match event_retry_id event with
  | Some i => dset i ((match dget i grouped with Some l => l | None => [] end) ++ [event])%list grouped
  | None => grouped
  end.

Definition group_events (store : list pydict) : dict (list pydict) := fold_left group_event store [].

(** The chain of one group, unless its last event is final *)
Definition open_chain (group : string * list pydict) : res (option RetryChain) :=
  match last (snd group) with
  | None => Err OutsideModel
  | Some e =>
      let! last_type := py_str (jget_or e "type" (VStr "")) in
      if mem_str last_type terminal_events then Ok None else
      let! kind := py_str (jget_or e "kind" (VStr (kind_from_event last_type))) in
      let! n := py_int (jget_or e "attempt" (VInt 0)) in
      Ok (Some (mkRetryChain (fst group) kind (logical_id e) last_type n (snd group)))
  end.

(** [incomplete_chains] *)
Definition incomplete_chains (store : list pydict) : res (list RetryChain) :=
  let! chains := mapR open_chain (group_events store) in
  Ok (omap id chains).

(** ** Recovery *)

Definition retry_recovery_event (type : string) (c : RetryChain) (rest : pydict) : pydict :=
  ([("type", VStr type); ("kind", VStr (rc_kind c)); ("retryId", VStr (rc_retry_id c));
    ("logicalId", match rc_logical_id c with Some s => VStr s | None => VNone end);
    ("attempt", VInt (rc_attempt c))] ++ rest)%list.

Section Recovery.
(** The host's handler: what it appends to the store itself, and whether the chain
    succeeded *)
Variable handler : RetryChain -> list pydict * res bool.
Variable now_ms : Z.

(** One chain of [recover] *)
Definition recover_chain (store : list pydict) (c : RetryChain) : list pydict * res unit :=
  match append_retry_event now_ms store (retry_recovery_event "retry_recovery_started" c []) with
  | Err e => (store, Err e)
  | Ok store =>
      let '(extra, reply) := handler c in
      let store := (store ++ extra)%list in
      match reply with
      | Err e => (store, Err e)
      | Ok success =>
          match append_retry_event now_ms store
                  (retry_recovery_event "retry_recovery_finished" c [("success", VBool success)]) with
          | Err e => (store, Err e)
          | Ok store => (store, Ok tt)
          end
      end
  end.

(** The loop of [recover]: the store, the chains recovered, and whether it returned *)
Fixpoint recover_chains (store : list pydict) (chains : list RetryChain)
  : list pydict * list RetryChain * res unit :=
  match chains with
  | [] => (store, [], Ok tt)
  | c :: chains' =>
      match recover_chain store c with
      | (store', Err e) => (store', [], Err e)
      | (store', Ok _) =>
          let '(store'', recovered, r) := recover_chains store' chains' in
          (store'', c :: recovered, r)
      end
  end.

(** [RetryRecoveryManager.recover] *)
Definition recover (store : list pydict) : list pydict * list RetryChain * res unit :=
  match incomplete_chains store with
  | Err e => (store, [], Err e)
  | Ok chains => recover_chains store chains
  end.
End Recovery.

(** ** Which chains are open *)

Definition of_chain (i : string) (event : pydict) : bool := bool_decide (event_retry_id event = Some i).

Definition chain_events (i : string) (store : list pydict) : list pydict :=
  List.filter (of_chain i) store.

(** [str(event.get("type", "")) in _TERMINAL_EVENTS] *)
Definition final_event (event : pydict) : Prop :=
  exists t, py_str (jget_or event "type" (VStr "")) = Ok t /\ t ∈ terminal_events.

(** The last event of the chain is not a final one. *)
Definition chain_open (i : string) (store : list pydict) : Prop :=
  exists e, last (chain_events i store) = Some e /\ ~ final_event e.

Lemma chain_events_app i l l' :
  chain_events i (l ++ l') = (chain_events i l ++ chain_events i l')%list.
Proof. apply List.filter_app. Qed.

Lemma chain_events_other i l :
  (forall e, e ∈ l -> event_retry_id e <> Some i) -> chain_events i l = [].
Proof.
  intros H. apply filter_nil_elem. intros e He. apply bool_decide_eq_false. by apply H.
Qed.

Lemma group_events_get i store :
  dict_wf (group_events store) /\
  dget i (group_events store)
  = match chain_events i store with [] => None | l => Some l end.
Proof.
  unfold group_events. induction store as [|e store [IHw IH]] using rev_ind; [by split; [constructor|]|].
  rewrite fold_left_app, chain_events_app. cbn [fold_left].
  set (g := fold_left group_event store []) in *.
  unfold group_event, chain_events at 2, of_chain. cbn [List.filter].
  destruct (event_retry_id e) as [j|] eqn:Ej.
  - split; [by apply dset_wf|]. destruct (String.eqb_spec i j) as [<-|Hne].
    + rewrite dget_dset_eq, IH, bool_decide_true by done. by destruct (chain_events i store).
    + rewrite dget_dset_ne, IH, bool_decide_false by congruence. by rewrite app_nil_r.
  - rewrite bool_decide_false, app_nil_r by done. done.
Qed.

(** The chains listed are the open ones, each once. *)
Lemma incomplete_chains_spec store chains :
  incomplete_chains store = Ok chains ->
  NoDup (map rc_retry_id chains) /\ forall i, i ∈ map rc_retry_id chains <-> chain_open i store.
Proof.
  unfold incomplete_chains. intros H. apply rbind_Ok in H as (found & Hm & [= <-]).
  apply mapR_Ok in Hm.
  assert (Hopen : forall g o, open_chain g = Ok o ->
            exists e, last (snd g) = Some e /\
              match o with
              | Some c => rc_retry_id c = fst g /\ ~ final_event e
              | None => final_event e
              end).
  { intros g o Hg. unfold open_chain in Hg. destruct (last (snd g)) as [e|]; [|done].
    exists e. split; [done|]. apply rbind_Ok in Hg as (t & Ht & Hg).
    destruct (mem_str t terminal_events) eqn:Em.
    - injection Hg as <-. exists t. by rewrite <- mem_str_spec.
    - res_inv Hg. split; [done|]. intros (t' & Ht' & Hin). apply mem_str_false in Em. congruence. }
  split.
  - destruct (group_events_get "" store) as [Hw _].
    eapply sublist_NoDup; [exact Hw|]. unfold dkeys.
    clear Hw. induction Hm as [|g o l l' Hg _ IH]; [constructor|].
    destruct o as [c|]; cbn; [|by apply sublist_cons].
    destruct (Hopen _ _ Hg) as (_ & _ & -> & _). by apply sublist_skip.
  - intros i. destruct (group_events_get i store) as [Hw Hget]. split.
    + intros (c & -> & (o & Hin & Ho)%list_elem_of_omap)%list_elem_of_fmap. cbn in Ho. subst o.
      apply list_elem_of_lookup in Hin as [n Hn].
      destruct (Forall2_lookup_r _ _ _ _ _ Hm Hn) as ([j l] & Hin' & Hg).
      apply list_elem_of_lookup_2 in Hin'.
      destruct (Hopen _ _ Hg) as (e & He & Hc & Hf). cbn in Hc, He. rewrite Hc in *.
      apply elem_dget in Hin'; [|done]. rewrite Hin' in Hget.
      destruct (chain_events j store) as [|e0 l0] eqn:El; [done|]. injection Hget as ->.
      exists e. by rewrite El.
    + intros (e & He & Hf). destruct (chain_events i store) as [|e0 l] eqn:El; [done|].
      apply dget_Some_elem in Hget. apply list_elem_of_lookup in Hget as [n Hn].
      destruct (Forall2_lookup_l _ _ _ _ _ Hm Hn) as (o & Hin & Hg).
      apply list_elem_of_lookup_2 in Hin.
      destruct (Hopen _ _ Hg) as (e' & He' & Ho). cbn in He'. rewrite He in He'. injection He' as <-.
      destruct o as [c|]; [|done]. destruct Ho as [Hc _].
      apply list_elem_of_fmap. exists c. split; [done|]. apply list_elem_of_omap. by exists (Some c).
Qed.

(** ** Recovery closes what it handles *)

Definition plain_key (k : string) : bool :=
  match casefold k with Ok f => negb (mem_str f sensitive_keys) | Err _ => false end.

Definition shortened (s : string) : string :=
  if 500 <? py_len s then str_take 500 s ++ "<truncated>" else s.

Lemma sanitize_str k s : plain_key k = true -> sanitize k (VStr s) = Ok (VStr (shortened s)).
Proof.
  unfold plain_key. cbn [sanitize]. destruct (casefold k); [|done]. intros H. cbn [rbind].
  by rewrite (proj1 (negb_true_iff _) H).
Qed.

Lemma sanitize_scalar k v :
  plain_key k = true -> match v with VStr _ | VList _ | VDict _ => False | _ => True end ->
  sanitize k v = Ok v.
Proof.
  unfold plain_key. destruct v; cbn [sanitize]; try done; (destruct (casefold k); [|done]);
    intros H _; cbn [rbind]; by rewrite (proj1 (negb_true_iff _) H).
Qed.

Lemma sanitize_dict k d :
  plain_key k = true ->
  sanitize k (VDict d)
  = (let! d := mapR (fun '(k, x) => let! x := sanitize k x in Ok (k, x)) d in Ok (VDict d)).
Proof.
  unfold plain_key. cbn [sanitize]. destruct (casefold k); [|done]. intros H. cbn [rbind].
  by rewrite (proj1 (negb_true_iff _) H).
Qed.

(** The record of a recovery event: an event of the chain, with its type *)
Lemma recovery_append type c rest now_ms store :
  type ∈ ["retry_recovery_started"; "retry_recovery_finished"] ->
  rest = [] \/ (exists b, rest = [("success", VBool b)]) ->
  py_len (rc_retry_id c) <= 500 -> nonempty (rc_retry_id c) = true ->
  exists e, append_retry_event now_ms store (retry_recovery_event type c rest) = Ok (store ++ [e])%list /\
    event_retry_id e = Some (rc_retry_id c) /\ jget_or e "type" (VStr "") = VStr type.
Proof.
  intros Ht Hrest Hlen Hne.
  assert (Hid : shortened (rc_retry_id c) = rc_retry_id c).
  { unfold shortened. by rewrite (proj2 (Z.ltb_ge _ _)). }
  assert (Hty : shortened type = type).
  { apply elem_of_cons in Ht as [->|Ht%list_elem_of_singleton]; [|subst]; vm_compute; reflexivity. }
  unfold append_retry_event, retry_recovery_event.
  assert (Hlog : exists v, sanitize "logicalId"
      (match rc_logical_id c with Some s => VStr s | None => VNone end) = Ok v).
  { destruct (rc_logical_id c); eexists; [by apply sanitize_str|by apply sanitize_scalar]. }
  destruct Hlog as [v Hv].
  assert (Hd : sanitize "" (VDict ([("type", VStr type); ("kind", VStr (rc_kind c));
      ("retryId", VStr (rc_retry_id c));
      ("logicalId", match rc_logical_id c with Some s => VStr s | None => VNone end);
      ("attempt", VInt (rc_attempt c))] ++ rest)%list)
    = Ok (VDict ([("type", VStr type); ("kind", VStr (shortened (rc_kind c)));
      ("retryId", VStr (rc_retry_id c)); ("logicalId", v); ("attempt", VInt (rc_attempt c))] ++ rest)%list)).
  { rewrite sanitize_dict by done. cbn [mapR app].
    rewrite (sanitize_str "type"), (sanitize_str "kind"), (sanitize_str "retryId"), Hv,
      (sanitize_scalar "attempt"), Hid, Hty by done. cbn [rbind].
    destruct Hrest as [->|[b ->]]; [done|].
    cbn [mapR]. by rewrite (sanitize_scalar "success"). }
  rewrite Hd. cbn [rbind].
  assert (Hts : dmem "timestamp" ([("type", VStr type); ("kind", VStr (shortened (rc_kind c)));
      ("retryId", VStr (rc_retry_id c)); ("logicalId", v); ("attempt", VInt (rc_attempt c))] ++ rest)%list
      = false) by (destruct Hrest as [->|[b ->]]; done).
  rewrite Hts. eexists. split; [done|].
  unfold event_retry_id, jget, jget_or. rewrite !dget_dset_ne by done. cbn. by rewrite Hne.
Qed.

Lemma last_chain_event i store e :
  event_retry_id e = Some i -> last (chain_events i (store ++ [e])) = Some e.
Proof.
  intros H. rewrite chain_events_app. cbn [chain_events List.filter]. unfold of_chain.
  rewrite bool_decide_true by done. apply last_snoc.
Qed.

(** The events of other chains are left as they are. *)
Lemma appended_other i j store l :
  i <> j -> (forall e, e ∈ l -> event_retry_id e = Some j) ->
  chain_events i (store ++ l) = chain_events i store.
Proof.
  intros Hne H. rewrite chain_events_app, (chain_events_other i l), app_nil_r; [done|].
  intros e He. rewrite (H e He). congruence.
Qed.

Lemma open_id_nonempty i store : chain_open i store -> nonempty i = true.
Proof.
  intros (e & He & _). apply last_Some_elem_of in He.
  apply list_elem_of_In, filter_In in He as [_ He]. apply bool_decide_eq_true in He.
  unfold event_retry_id in He. destruct (jget e "retryId"); try done.
  by destruct (nonempty s) eqn:E; [injection He as <-|].
Qed.

Section Recovered.
Variable handler : RetryChain -> list pydict * res bool.
Variable now_ms : Z.
(** A handler stores events of its own chain only. *)
Hypothesis Hhandler : forall c e, e ∈ fst (handler c) -> event_retry_id e = Some (rc_retry_id c).

Definition usable (c : RetryChain) : Prop :=
  py_len (rc_retry_id c) <= 500 /\ nonempty (rc_retry_id c) = true.

Lemma recover_chain_spec store c store' r :
  usable c -> recover_chain handler now_ms store c = (store', r) ->
  (forall i, i <> rc_retry_id c -> chain_events i store' = chain_events i store) /\
  (r = Ok tt -> ~ chain_open (rc_retry_id c) store') /\
  (forall e, r = Err e -> snd (handler c) = Err e).
Proof.
  intros [Hlen Hne]. unfold recover_chain.
  destruct (recovery_append "retry_recovery_started" c [] now_ms store) as (e1 & -> & He1 & _);
    [set_solver|by left|done|done|].
  destruct (handler c) as [extra reply] eqn:Eh.
  assert (Hextra : forall e, e ∈ extra -> event_retry_id e = Some (rc_retry_id c)).
  { intros e He. apply Hhandler. by rewrite Eh. }
  assert (H1 : forall i, i <> rc_retry_id c ->
            chain_events i ((store ++ [e1]) ++ extra) = chain_events i store).
  { intros i Hi. rewrite (appended_other i (rc_retry_id c)), (appended_other i (rc_retry_id c));
      try done. intros e ->%list_elem_of_singleton. done. }
  destruct reply as [b|x].
  - destruct (recovery_append "retry_recovery_finished" c [("success", VBool b)] now_ms
                ((store ++ [e1]) ++ extra)) as (e2 & -> & He2 & Ht2);
      [set_solver|right; by exists b|done|done|].
    intros [= <- <-]. split; [|split; [|done]].
    + intros i Hi. rewrite (appended_other i (rc_retry_id c)); [by apply H1|done|].
      by intros e ->%list_elem_of_singleton.
    + intros _ (e & He & Hf). rewrite last_chain_event in He by done. injection He as <-.
      apply Hf. exists "retry_recovery_finished". rewrite Ht2. split; [done|].
      unfold terminal_events. set_solver.
  - intros [= <- <-]. split; [done|]. split; [done|]. by intros e [= <-].
Qed.

Lemma recover_chains_spec chains : forall store store' recovered r,
  Forall usable chains -> NoDup (map rc_retry_id chains) ->
  recover_chains handler now_ms store chains = (store', recovered, r) ->
  recovered `prefix_of` chains /\
  (forall i, i ∉ map rc_retry_id chains -> chain_events i store' = chain_events i store) /\
  (forall c, c ∈ recovered -> ~ chain_open (rc_retry_id c) store') /\
  match r with
  | Ok _ => recovered = chains
  | Err e => exists c rest, chains = (recovered ++ c :: rest)%list /\ snd (handler c) = Err e /\
      forall c', c' ∈ rest -> chain_events (rc_retry_id c') store' = chain_events (rc_retry_id c') store
  end.
Proof.
  induction chains as [|c chains IH]; intros store store' recovered r Hu Hn H; cbn [recover_chains] in H.
  - injection H as <- <- <-. repeat split; try done. intros c Hc. by apply elem_of_nil in Hc.
  - apply Forall_cons in Hu as [Hc Hu]. cbn [map] in Hn. apply NoDup_cons in Hn as [Hnot Hn].
    destruct (recover_chain handler now_ms store c) as [store1 r1] eqn:E1.
    destruct (recover_chain_spec _ _ _ _ Hc E1) as (Hother & Hclosed & Herr).
    destruct r1 as [[]|e].
    + destruct (recover_chains handler now_ms store1 chains) as [[store2 recovered2] r2] eqn:E2.
      injection H as <- <- <-. destruct (IH _ _ _ _ Hu Hn E2) as (Hp & Ho & Hr & Hres).
      split; [by apply prefix_cons|]. split; [|split].
      * intros i Hi. cbn [map] in Hi. apply not_elem_of_cons in Hi as [Hi Hi'].
        rewrite Ho by done. by apply Hother.
      * intros c' [->|Hc']%elem_of_cons; [|by apply Hr]. unfold chain_open.
        rewrite Ho by done. by apply Hclosed.
      * destruct r2 as [u|e]; [by subst|]. destruct Hres as (c1 & rest & -> & H1 & H2).
        exists c1, rest. split; [done|]. split; [done|]. intros c' Hc'. rewrite H2 by done.
        apply Hother. intros Heq. apply Hnot. rewrite <- Heq. apply list_elem_of_fmap.
        exists c'. split; [done|]. set_solver.
    + injection H as <- <- <-. split; [apply prefix_nil|]. split; [|split].
      * intros i Hi. cbn [map] in Hi. apply not_elem_of_cons in Hi as [Hi _]. by apply Hother.
      * intros c' Hc'. by apply elem_of_nil in Hc'.
      * exists c, chains. split; [done|]. split; [by apply Herr|]. intros c' Hc'. apply Hother.
        intros Heq. apply Hnot. rewrite <- Heq. apply list_elem_of_fmap. by exists c'.
Qed.

(** Recovery handles the open chains in turn and closes each one it handled, and
    if it returns no chain is open.  When a handler raises, recovery stops there with
    that exception, and the chains after it are still listed: nothing is lost.
    Retry ids are at most 500 characters long (the code makes them UUIDs), and a
    handler stores events of its own chain only. *)
Theorem recovery_closes_handled_chains store chains store' recovered r :
  incomplete_chains store = Ok chains ->
  Forall (fun c => py_len (rc_retry_id c) <= 500) chains ->
  recover handler now_ms store = (store', recovered, r) ->
  recovered `prefix_of` chains /\
  (forall c, c ∈ recovered -> ~ chain_open (rc_retry_id c) store') /\
  match r with
  | Ok _ => recovered = chains /\ forall i, ~ chain_open i store'
  | Err e => exists c rest, chains = (recovered ++ c :: rest)%list /\ snd (handler c) = Err e /\
      forall c', c' ∈ rest -> chain_open (rc_retry_id c') store'
  end.
Proof.
  intros Hi Hlen H. unfold recover in H. rewrite Hi in H.
  destruct (incomplete_chains_spec _ _ Hi) as [Hn Hopen].
  assert (Hu : Forall usable chains).
  { apply Forall_forall. intros c Hc. split; [by apply (proj1 (Forall_forall _ _) Hlen)|].
    apply (open_id_nonempty _ store). apply Hopen. apply list_elem_of_fmap. by exists c. }
  destruct (recover_chains_spec _ _ _ _ _ Hu Hn H) as (Hp & Ho & Hr & Hres).
  split; [done|]. split; [done|]. destruct r as [u|e].
  - subst recovered. split; [done|]. intros i Hc.
    destruct (decide (i ∈ map rc_retry_id chains)) as [Hin|Hin].
    + apply list_elem_of_fmap in Hin as (c & -> & Hin). by apply (Hr c).
    + apply Hin, Hopen. unfold chain_open in Hc |- *. by rewrite (Ho i Hin) in Hc.
  - destruct Hres as (c & rest & -> & H1 & H2). exists c, rest. split; [done|]. split; [done|].
    intros c' Hc'. unfold chain_open. rewrite H2 by done. apply Hopen.
    apply list_elem_of_fmap. exists c'. split; [done|]. set_solver.
Qed.
End Recovered.

(** ** Instances *)

(** A tool that is retried once and then runs out of time *)
Definition busy_policy : RetryPolicy :=
  mkRetryPolicy (VInt 3) ["busy"] true (NFloat half) (NFloat thirty) (NFloat fifth) (NFloat thirty).

Definition always_busy (n : nat) : res unit := Err (RetryableToolError "busy" None 1 None).

Definition busy_clock (n : nat) : pynum := match n with O => NInt 101 | _ => NInt 140 end.

Definition busy_run : option (list pydict * res unit) :=
  execute_tool_with_retry "r-1" always_busy (fun _ => false) (fun _ => false) (fun _ => fone)
    (NInt 100) busy_clock (Some busy_policy) "call-1" "fetch" (fun _ => Ok tt).

Definition busy_events : list pydict :=
  match busy_run with Some (events, _) => events | None => [] end.

Definition store_events (events : list pydict) : res (list pydict) :=
  foldM (append_retry_event 1000) [] events.

(** When the elapsed time ends the retries, the error is raised without a final
    event: the chain of the failed call is listed as incomplete for ever, and the
    recovery at the next start handles again a call that has already failed. *)
Theorem time_limit_leaves_chain_open :
  exists events store c,
    tool_policy_ok busy_policy = Ok tt /\
    busy_run = Some (events, Err (RetryableToolError "busy" None 2 (Some "r-1"))) /\
    store_events events = Ok store /\ incomplete_chains store = Ok [c] /\
    rc_retry_id c = "r-1" /\ rc_last_event c = "tool_retry_attempt_start".
Proof.
  eexists _, _, _. split; [vm_compute; reflexivity|]. split; [vm_compute; reflexivity|].
  split; [vm_compute; reflexivity|]. split; [vm_compute; reflexivity|]. split; reflexivity.
Qed.

Definition busy_store : list pydict :=
  match store_events busy_events with Ok s => s | Err _ => [] end.

Definition succeeding (c : RetryChain) : list pydict * res bool := ([], Ok true).

Definition busy_chains : list RetryChain :=
  match incomplete_chains busy_store with Ok l => l | Err _ => [] end.

Lemma recovery_closes_handled_chains_witness :
  let '(store', recovered, r) := recover succeeding 2000 busy_store in
  r = Ok tt /\ List.length recovered = 1%nat /\ forall i, ~ chain_open i store'.
Proof.
  assert (Hs : forall c e, e ∈ fst (succeeding c) -> event_retry_id e = Some (rc_retry_id c)).
  { intros c e He. by apply elem_of_nil in He. }
  assert (Hi : incomplete_chains busy_store = Ok busy_chains) by (vm_compute; reflexivity).
  assert (Hlen : Forall (fun c => py_len (rc_retry_id c) <= 500) busy_chains).
  { apply (bool_decide_unpack _). vm_compute. exact I. }
  destruct (recover succeeding 2000 busy_store) as [[store' recovered] r] eqn:E.
  pose proof (recovery_closes_handled_chains succeeding 2000 Hs busy_store busy_chains store' recovered r Hi
    Hlen E) as (_ & _ & H).
  assert (Hr : snd (recover succeeding 2000 busy_store) = Ok tt) by (vm_compute; reflexivity).
  assert (Hn : List.length (snd (fst (recover succeeding 2000 busy_store))) = 1%nat)
    by (vm_compute; reflexivity).
  rewrite E in Hr, Hn. cbn [fst snd] in Hr, Hn. rewrite Hr in H.
  split; [exact Hr|]. split; [exact Hn|exact (proj2 H)].
Defined.
