(* ===== verification/ModelRetry.v ===== *)
(** * Retried model calls  (retry/model.py)

    [RetryingStreamFn._run]: one logical model turn as a sequence of attempts behind
    a circuit breaker that other runs share.  Each attempt is buffered; only the
    events of the last one reach the output, after the events that tell of the
    retries.  The provider's stream, the sink and store of retry events, the clocks
    and the caller's cancellation are parameters, and [others] are the calls that
    other runs make on the breaker before each access of this one. *)

From S2P Require Import Prelude PyDict Text PyVal PyNum Retry CircuitBreaker RetryLoop.
From Corelib Require Import SpecFloat.

#[local] Open Scope string_scope.
#[local] Open Scope bool_scope.
#[local] Open Scope Z_scope.

(** ** Messages *)
Record Model := mkModel { md_api : string; md_provider : string; md_id : string }.

(** [empty_usage()] *)
Definition empty_usage : pydict :=
  [("input", VInt 0); ("output", VInt 0); ("cacheRead", VInt 0); ("cacheWrite", VInt 0);
   ("totalTokens", VInt 0);
   ("cost", VDict (map (fun k => (k, VFloat (S754_zero false)))
                     ["input"; "output"; "cacheRead"; "cacheWrite"; "total"]))].

(** [assistant_message(model=..., stop_reason=..., error_message=...)] for one of the
    fixed texts of this file, which redaction leaves as they are *)
Definition assistant_message (m : Model) (now_ms : Z) (stop_reason error_message : string) : pydict :=
  [("role", VStr "assistant"); ("content", VList []); ("api", VStr (md_api m));
   ("provider", VStr (md_provider m)); ("model", VStr (md_id m)); ("usage", VDict empty_usage);
   ("stopReason", VStr stop_reason); ("timestamp", VInt now_ms);
   ("errorMessage", VStr error_message)].

(** The answer to a call that the breaker rejects *)
Definition circuit_open_message (m : Model) (now_ms : Z) : pydict :=
  dset "providerError"
    (VDict [("code", VStr "provider_circuit_open"); ("statusCode", VNone); ("retryAfterMs", VNone);
            ("retryable", VBool false)])
    (assistant_message m now_ms "error" "Model provider circuit is open").

Definition error_event (reason : string) (message : pydict) : pydict :=
  [("type", VStr "error"); ("reason", VStr reason); ("error", VDict message)].

(** ** The loop *)
Section ModelRetry.
Variable policy : ModelRetryPolicy.
Variable breaker_policy : CircuitBreakerPolicy.
Variable max_retries : Z.
Variable model : Model.
Variable retry_id : string.
(** What the n-th attempt buffers and its final message, or the exception it raises *)
Variable one_attempt : nat -> res (list pydict * pydict).
(** The calls of other runs on the breaker before this one's calls for its n-th
    attempt, [before_call] and the report, and the breaker's clock at these calls *)
Variable others_before others_after : nat -> list breaker_call.
Variable clock_before clock_after : nat -> pynum.
(** Whether the caller cancels the sleep after the n-th attempt *)
Variable cancelled_asleep : nat -> bool.
Variable random : nat -> pynum.
Variable started_at : pynum.
Variable monotonic : nat -> pynum.
Variable now_ms : Z.
(** What the sink and the store do with a retry event *)
Variable emit : pydict -> res unit.

Definition retry_event (type : string) (rest : pydict) : pydict :=
  ([("type", VStr type); ("kind", VStr "model"); ("retryId", VStr retry_id)] ++ rest)%list.

Definition scheduled_event (n ms : Z) (d : ModelRetryDecision) : pydict :=
  retry_event "model_retry_scheduled"
    [("attempt", VInt n); ("maxAttempts", VInt max_retries); ("delayMs", VInt ms);
     ("errorCode", VStr (rd_code d));
     ("statusCode", match rd_status_code d with Some z => VInt z | None => VNone end)].

Definition start_event (n : Z) : pydict :=
  retry_event "model_retry_attempt_start" [("attempt", VInt n)].

Definition cancelled_event (n : Z) : pydict :=
  retry_event "model_retry_finished"
    [("success", VBool false); ("attempt", VInt n); ("finalError", VStr "retry_cancelled")].

Definition finished_event (n : Z) (final : pydict) (d : ModelRetryDecision) : res pydict :=
  let reason := jget final "stopReason" in
  let! unsuccessful := in_str_set reason ["error"; "aborted"] in
  Ok (retry_event "model_retry_finished"
        ([("success", VBool (negb unsuccessful)); ("attempt", VInt n)]
         ++ (if is_str reason "error" then [("finalError", VStr (rd_code d))] else []))%list).

(** How an attempt goes on: another attempt, the end of the output, or its failure *)
Inductive model_progress := ModelAgain | ModelDone | ModelFailed (e : exn).

(** [_emit_retry_event]: the event reaches the output once the sink and the store
    have taken it. *)
Definition emit_retry (e : pydict) (next : list pydict * model_progress)
  : list pydict * model_progress :=
  match emit e with
  | Ok _ => (e :: fst next, snd next)
  | Err x => ([], ModelFailed x)
  end.

(** The delay in milliseconds before another attempt; [None] when the server or the
    elapsed time forbid one *)
Definition model_delay (k : nat) (d : ModelRetryDecision) : res (option Z) :=
  let! delay := retry_delay_seconds (Z.of_nat k + 1) (mp_initial_delay_seconds policy)
                  (mp_max_delay_seconds policy) (mp_jitter_ratio policy) (random k)
                  (rd_retry_after_seconds d) in
  let! elapsed := num_sub (monotonic k) started_at in
  match delay with
  | None => Ok None
  | Some s =>
      let! total := num_add elapsed s in
      if num_le total (mp_max_elapsed_seconds policy) then
        let! ms := num_mul s (NInt 1000) in
        let! ms := py_round ms in
        Ok (Some ms)
      else Ok None
  end.

(** The end of the loop: the attempt's own events are published. *)
Definition publish (k : nat) (buffered : list pydict) (final : pydict) (d : ModelRetryDecision)
  : list pydict * model_progress :=
  if Nat.eqb k 0 then (buffered, ModelDone)
  else match finished_event (Z.of_nat k) final d with
       | Err e => ([], ModelFailed e)
       | Ok e => emit_retry e (buffered, ModelDone)
       end.

(** From [can_retry] on, after [k] retries *)
Definition retry_or_publish (k : nat) (buffered : list pydict) (final : pydict)
    (d : ModelRetryDecision) : list pydict * model_progress :=
  if rd_retryable d && (Z.of_nat k <? max_retries) then
    match model_delay k d with
    | Err e => ([], ModelFailed e)
    | Ok None => publish k buffered final d
    | Ok (Some ms) =>
        emit_retry (scheduled_event (Z.of_nat k + 1) ms d)
          (if cancelled_asleep k then
             emit_retry (cancelled_event (Z.of_nat k + 1))
               ([error_event "aborted"
                   (assistant_message model now_ms "aborted" "Model retry was cancelled")], ModelDone)
           else emit_retry (start_event (Z.of_nat k + 1)) ([], ModelAgain))
    end
  else publish k buffered final d.

(** The report to the breaker *)
Definition report (k : nat) (d : ModelRetryDecision) (b : CircuitBreaker) : CircuitBreaker :=
  let b := run_breaker breaker_policy b (others_after k) in
  if rd_retryable d then record_failure breaker_policy (clock_after k) b
  else record_success breaker_policy b.

(** The body of [while True], after [k] retries *)
Definition model_attempt (k : nat) (b : CircuitBreaker)
  : CircuitBreaker * (list pydict * model_progress) :=
  let b := run_breaker breaker_policy b (others_before k) in
  match before_call breaker_policy (clock_before k) b with
  | (b, Err CircuitOpenError) =>
      let final := circuit_open_message model now_ms in
      match classify_model_error final policy with
      | Err e => (b, ([], ModelFailed e))
      | Ok d => (b, retry_or_publish k [error_event "error" final] final d)
      end
  | (b, Err e) => (b, ([], ModelFailed e))
  | (b, Ok _) =>
      match one_attempt k with
      | Err e => (b, ([], ModelFailed e))
      | Ok (buffered, final) =>
          match classify_model_error final policy with
          | Err e => (b, ([], ModelFailed e))
          | Ok d => (report k d b, retry_or_publish k buffered final d)
          end
      end
  end.

(** [_run]: the breaker, the events pushed to the output, and how it ends; [None]
    when the fuel runs out *)
Fixpoint model_run (fuel k : nat) (b : CircuitBreaker)
  : option (CircuitBreaker * list pydict * option exn) :=
  match fuel with
  | O => None
  | S fuel =>
      match model_attempt k b with
      | (b, (events, ModelDone)) => Some (b, events, None)
      | (b, (events, ModelFailed e)) => Some (b, events, Some e)
      | (b, (events, ModelAgain)) =>
          match model_run fuel (S k) b with
          | Some (b, more, r) => Some (b, (events ++ more)%list, r)
          | None => None
          end
      end
  end.

(** ** What a run does *)

Lemma circuit_open_classified :
  exists d, classify_model_error (circuit_open_message model now_ms) policy = Ok d /\ rd_retryable d = false.
Proof. eexists. split; vm_compute; reflexivity. Qed.

(** The breaker before the n-th attempt, after the calls of other runs, and what it says *)
Definition asked (n : nat) (b : CircuitBreaker) : CircuitBreaker * res unit :=
  before_call breaker_policy (clock_before n) (run_breaker breaker_policy b (others_before n)).

(** What the breaker is told after the n-th attempt, and after the calls of other runs *)
Definition told_breaker (n : nat) (d : ModelRetryDecision) (b : CircuitBreaker) : CircuitBreaker :=
  if rd_retryable d
  then record_failure breaker_policy (clock_after n) (run_breaker breaker_policy b (others_after n))
  else record_success breaker_policy (run_breaker breaker_policy b (others_after n)).

(** What the n-th attempt answers with: its own events and its final message, if the
    breaker admits it, which is told how it went; the rejection, if the breaker is open. *)
Inductive answer (n : nat) (b : CircuitBreaker)
  : CircuitBreaker -> list pydict -> pydict -> ModelRetryDecision -> Prop :=
| answer_own b1 buffered final d :
    asked n b = (b1, Ok tt) -> one_attempt n = Ok (buffered, final) ->
    classify_model_error final policy = Ok d -> answer n b (told_breaker n d b1) buffered final d
| answer_rejected b1 d :
    let final := circuit_open_message model now_ms in
    asked n b = (b1, Err CircuitOpenError) -> classify_model_error final policy = Ok d ->
    answer n b b1 [error_event "error" final] final d.

(** An error that may be retried, and the delay before another attempt *)
Definition may_retry (n : nat) (d : ModelRetryDecision) (delay : res (option Z)) : Prop :=
  rd_retryable d = true /\ Z.of_nat n < max_retries /\ model_delay n d = delay.

Definition no_retry (n : nat) (d : ModelRetryDecision) : Prop :=
  rd_retryable d = false \/ max_retries <= Z.of_nat n \/ model_delay n d = Ok None.

Definition taken (e : pydict) : Prop := exists u, emit e = Ok u.
Abbreviation scheduled n ms d := (scheduled_event (Z.of_nat n + 1) ms d).

(** The n-th attempt, which the breaker admitted, failed with an error that may be
    retried, and another follows: the two events that tell of it, and the breaker after. *)
Definition model_retried (n : nat) (b b' : CircuitBreaker) (events : list pydict) : Prop :=
  exists b1 buffered final d ms,
    asked n b = (b1, Ok tt) /\ one_attempt n = Ok (buffered, final) /\
    classify_model_error final policy = Ok d /\ b' = told_breaker n d b1 /\ may_retry n d (Ok (Some ms)) /\
    taken (scheduled n ms d) /\ cancelled_asleep n = false /\ taken (start_event (Z.of_nat n + 1)) /\
    events = [scheduled n ms d; start_event (Z.of_nat n + 1)].

(** How the run ends at its n-th attempt, with exactly what it publishes and the breaker
    it leaves: with the events of this attempt, or with those of a cancelled sleep; or by an
    exception, which publishes no event of an attempt. *)
Inductive model_ended (n : nat) (b : CircuitBreaker)
  : CircuitBreaker -> list pydict -> option exn -> Prop :=
| ended_at_once b' buffered final d :
    answer n b b' buffered final d -> no_retry n d -> n = 0%nat -> model_ended n b b' buffered None
| ended_published b' buffered final d e :
    answer n b b' buffered final d -> no_retry n d -> n <> 0%nat ->
    finished_event (Z.of_nat n) final d = Ok e -> taken e -> model_ended n b b' (e :: buffered) None
| ended_cancelled b' buffered final d ms :
    answer n b b' buffered final d -> may_retry n d (Ok (Some ms)) -> taken (scheduled n ms d) ->
    cancelled_asleep n = true -> taken (cancelled_event (Z.of_nat n + 1)) ->
    model_ended n b b'
      [scheduled n ms d; cancelled_event (Z.of_nat n + 1);
       error_event "aborted"
         (assistant_message model now_ms "aborted" "Model retry was cancelled")] None
| ended_not_asked b' x :
    asked n b = (b', Err x) -> x <> CircuitOpenError -> model_ended n b b' [] (Some x)
| ended_raised b' x :
    asked n b = (b', Ok tt) -> one_attempt n = Err x -> model_ended n b b' [] (Some x)
| ended_unclassified b' buffered final x :
    asked n b = (b', Ok tt) -> one_attempt n = Ok (buffered, final) ->
    classify_model_error final policy = Err x -> model_ended n b b' [] (Some x)
| ended_unfinished b' buffered final d x :
    answer n b b' buffered final d -> no_retry n d -> n <> 0%nat ->
    finished_event (Z.of_nat n) final d = Err x -> model_ended n b b' [] (Some x)
| ended_unpublished b' buffered final d e x :
    answer n b b' buffered final d -> no_retry n d -> n <> 0%nat ->
    finished_event (Z.of_nat n) final d = Ok e -> emit e = Err x -> model_ended n b b' [] (Some x)
| ended_bad_delay b' buffered final d x :
    answer n b b' buffered final d -> may_retry n d (Err x) -> model_ended n b b' [] (Some x)
| ended_unscheduled b' buffered final d ms x :
    answer n b b' buffered final d -> may_retry n d (Ok (Some ms)) ->
    emit (scheduled n ms d) = Err x -> model_ended n b b' [] (Some x)
| ended_cancel_untold b' buffered final d ms x :
    answer n b b' buffered final d -> may_retry n d (Ok (Some ms)) -> taken (scheduled n ms d) ->
    cancelled_asleep n = true -> emit (cancelled_event (Z.of_nat n + 1)) = Err x ->
    model_ended n b b' [scheduled n ms d] (Some x)
| ended_unstarted b' buffered final d ms x :
    answer n b b' buffered final d -> may_retry n d (Ok (Some ms)) -> taken (scheduled n ms d) ->
    cancelled_asleep n = false -> emit (start_event (Z.of_nat n + 1)) = Err x ->
    model_ended n b b' [scheduled n ms d] (Some x).

(** The attempts from the n-th on that are retried, with the breaker between them *)
Inductive retried_rounds : nat -> CircuitBreaker -> list (list pydict) -> CircuitBreaker -> Prop :=
| no_rounds n b : retried_rounds n b [] b
| one_round n b b1 events rounds b' :
    model_retried n b b1 events -> retried_rounds (S n) b1 rounds b' ->
    retried_rounds n b (events :: rounds) b'.

Definition model_outcome (n : nat) (b b' : CircuitBreaker) (x : list pydict * model_progress) : Prop :=
  match x with
  | (events, ModelAgain) => model_retried n b b' events
  | (events, ModelDone) => model_ended n b b' events None
  | (events, ModelFailed e) => model_ended n b b' events (Some e)
  end.

Lemma emitted n b b' e next :
  (taken e -> model_outcome n b b' (e :: fst next, snd next)) ->
  (forall x, emit e = Err x -> model_ended n b b' [] (Some x)) ->
  model_outcome n b b' (emit_retry e next).
Proof.
  unfold emit_retry, taken. intros Hok Herr. destruct (emit e) as [u|x]; [apply Hok; by exists u|by apply Herr].
Qed.

Lemma publish_ended n b b' buffered final d :
  answer n b b' buffered final d -> no_retry n d -> model_outcome n b b' (publish n buffered final d).
Proof.
  intros Ha Hd. unfold publish. destruct (Nat.eqb_spec n 0) as [Hn|Hn]; [by eapply ended_at_once|].
  destruct (finished_event _ _ _) as [e|x] eqn:Ee; [|by eapply ended_unfinished].
  apply emitted; [intros Ht; by eapply ended_published|intros x Hx; by eapply ended_unpublished].
Qed.

Lemma answer_retryable n b b' buffered final d :
  answer n b b' buffered final d -> rd_retryable d = true ->
  exists b1, asked n b = (b1, Ok tt) /\ one_attempt n = Ok (buffered, final) /\
    classify_model_error final policy = Ok d /\ b' = told_breaker n d b1.
Proof.
  intros [b1 buf fin d' H1 H2 H3|b1 d' fin H1 H2] Hd; [by exists b1|].
  destruct circuit_open_classified as (d0 & H0 & Hr). subst fin. congruence.
Qed.

Lemma retry_or_publish_spec n b b' buffered final d :
  answer n b b' buffered final d -> model_outcome n b b' (retry_or_publish n buffered final d).
Proof.
  intros Ha. unfold retry_or_publish.
  destruct (rd_retryable d && (Z.of_nat n <? max_retries)) eqn:Er.
  2: { apply publish_ended; [done|]. apply andb_false_iff in Er as [Er|Er%Z.ltb_ge]; [by left|by right; left]. }
  apply andb_prop in Er as [Hr Hn%Z.ltb_lt].
  destruct (model_delay n d) as [[ms|]|x] eqn:Ed;
    [|apply publish_ended; [done|by right; right]|by eapply ended_bad_delay].
  assert (Hm : may_retry n d (Ok (Some ms))) by done.
  unfold emit_retry at 1. destruct (emit (scheduled n ms d)) as [u|x] eqn:Es;
    [|by eapply ended_unscheduled].
  assert (Hs : taken (scheduled n ms d)) by by exists u.
  unfold emit_retry. destruct (cancelled_asleep n) eqn:Ec.
  - destruct (emit (cancelled_event _)) as [v|x] eqn:Ee; cbn; [|by eapply ended_cancel_untold].
    eapply ended_cancelled; [done..|]. by exists v.
  - destruct (emit (start_event _)) as [v|x] eqn:Ee; cbn; [|by eapply ended_unstarted].
    destruct (answer_retryable _ _ _ _ _ _ Ha Hr) as (b1 & H1 & H2 & H3 & H4).
    exists b1, buffered, final, d, ms. split_and!; try done. by exists v.
Qed.

Lemma model_attempt_spec n b :
  model_outcome n b (fst (model_attempt n b)) (snd (model_attempt n b)).
Proof.
  unfold model_attempt.
  destruct (before_call breaker_policy (clock_before n) _) as [b1 [[]|e]] eqn:Eb.
  - destruct (one_attempt n) as [[buffered final]|e] eqn:E; [|by apply ended_raised].
    destruct (classify_model_error final policy) as [d|e] eqn:Ed; [|by eapply ended_unclassified].
    apply retry_or_publish_spec. by apply answer_own.
  - destruct circuit_open_classified as (d & Hd & _).
    destruct e; try (by apply ended_not_asked). rewrite Hd. apply retry_or_publish_spec. by apply answer_rejected.
Qed.

Lemma model_run_spec fuel : forall k b,
  Z.max 0 max_retries - Z.of_nat k < Z.of_nat fuel -> Z.of_nat k <= Z.max 0 max_retries ->
  exists b1 b' rounds last r,
    model_run fuel k b = Some (b', (concat rounds ++ last)%list, r) /\
    Z.of_nat (k + List.length rounds) <= Z.max 0 max_retries /\
    retried_rounds k b rounds b1 /\ model_ended (k + List.length rounds) b1 b' last r.
Proof.
  induction fuel as [|fuel IH]; intros k b Hf Hk; [lia|]. cbn [model_run].
  pose proof (model_attempt_spec k b) as Ha. destruct (model_attempt k b) as [b2 [events p]].
  cbn [fst snd model_outcome] in Ha. destruct p as [| |e].
  - assert (Hlt : Z.of_nat k < max_retries).
    { by destruct Ha as (? & ? & ? & ? & ? & _ & _ & _ & _ & (_ & ? & _) & _). }
    destruct (IH (S k) b2) as (b1 & b' & rounds & last & r & -> & Hn & Hr & He); [lia|lia|].
    exists b1, b', (events :: rounds), last, r. cbn [concat List.length]. rewrite Nat.add_succ_r.
    split; [by rewrite <- app_assoc|]. split; [lia|]. split; [by eapply one_round|done].
  - exists b, b2, [], events, None. rewrite Nat.add_0_r. split; [done|]. split; [lia|]. by split; [constructor|].
  - exists b, b2, [], events, (Some e). rewrite Nat.add_0_r. split; [done|]. split; [lia|]. by split; [constructor|].
Qed.

(** C38. A model turn always ends, after at most [max_retries + 1] attempts, and what
    it publishes is, for each failed attempt, the two events that tell of the retry -
    never the failed attempt's own - and then what its last attempt ends with.  An attempt
    is made when the breaker, in the state that the attempts before it, their reports and
    the calls of other runs have left, admits it, and is then told how the attempt went;
    the rejection is published only when the breaker says that it is open; and every other
    end - a cancelled sleep, an exception, a sink that raises - is listed with its events. *)
Theorem only_the_last_attempt_is_published b :
  0 <= max_retries ->
  exists b1 b' rounds last r,
    model_run (S (Z.to_nat max_retries)) 0 b = Some (b', (concat rounds ++ last)%list, r) /\
    Z.of_nat (List.length rounds) <= max_retries /\
    retried_rounds 0 b rounds b1 /\ model_ended (List.length rounds) b1 b' last r.
Proof.
  intros Hmax. destruct (model_run_spec (S (Z.to_nat max_retries)) 0 b)
    as (b1 & b' & rounds & last & r & H & Hn & Hr & He); [lia|lia|].
  exists b1, b', rounds, last, r. rewrite Z.max_r in Hn by done. done.
Qed.
End ModelRetry.

(** ** A turn *)

(** What a turn runs in *)
Record model_env := mkModelEnv {
  me_model : Model;
  me_retry_id : string;
  me_one_attempt : nat -> res (list pydict * pydict);
  me_others_before : nat -> list breaker_call;
  me_others_after : nat -> list breaker_call;
  me_clock_before : nat -> pynum;
  me_clock_after : nat -> pynum;
  me_cancelled_asleep : nat -> bool;
  me_random : nat -> pynum;
  me_started_at : pynum;
  me_monotonic : nat -> pynum;
  me_now_ms : Z;
  me_emit : pydict -> res unit
}.

Definition model_retries_of (p : ModelRetryPolicy) : Z :=
  match mp_max_retries p with VInt z => z | _ => 0 end.

(** [_run] in an environment *)
Definition model_turn (p : ModelRetryPolicy) (bp : CircuitBreakerPolicy) (env : model_env)
    (b : CircuitBreaker) : option (CircuitBreaker * list pydict * option exn) :=
  model_run p bp (model_retries_of p) (me_model env) (me_retry_id env) (me_one_attempt env)
    (me_others_before env) (me_others_after env) (me_clock_before env) (me_clock_after env)
    (me_cancelled_asleep env) (me_random env) (me_started_at env) (me_monotonic env)
    (me_now_ms env) (me_emit env) (S (Z.to_nat (model_retries_of p))) 0 b.

(** The rejection a turn publishes *)
Definition rejection (env : model_env) : list pydict :=
  [error_event "error" (circuit_open_message (me_model env) (me_now_ms env))].

(** ** A probe that raises *)

Definition asks (c : breaker_call) : Prop := match c with BeforeCall _ => True | _ => False end.

Lemma probing_call bp now b :
  cb_enabled bp = true -> br_state b = CircuitHalfOpen -> br_half_open_in_flight b = true ->
  before_call bp now b = (b, Err CircuitOpenError).
Proof. intros He Hs Hi. unfold before_call, admit_probe. by rewrite He, Hs, Hi. Qed.

Lemma probing_asks bp b calls :
  cb_enabled bp = true -> br_state b = CircuitHalfOpen -> br_half_open_in_flight b = true ->
  Forall asks calls -> run_breaker bp b calls = b.
Proof.
  intros He Hs Hi. induction 1 as [|[now| |] calls Hc _ IH]; try done.
  unfold run_breaker in *. cbn [fold_left call_breaker]. by rewrite probing_call.
Qed.

Lemma rejected_turn p bp env b :
  cb_enabled bp = true -> br_state b = CircuitHalfOpen -> br_half_open_in_flight b = true ->
  Forall asks (me_others_before env 0%nat) ->
  model_turn p bp env b = Some (b, rejection env, None).
Proof.
  intros He Hs Hi Ho. unfold model_turn. cbn [model_run]. unfold model_attempt.
  rewrite probing_asks by done. rewrite probing_call by done.
  replace (classify_model_error _ p) with (Ok (mkRetryDecision false "provider_circuit_open" None None))
    by (vm_compute; reflexivity).
  reflexivity.
Qed.

(** A probe whose attempt raises - the provider's stream breaks its contract, or
    the consumer cancels it - reports nothing to the breaker, which waits for ever
    for that probe: from then on every turn is answered with the rejection, whatever
    the provider would do and however long the breaker has been open. *)
Theorem raised_probe_blocks_the_provider p bp env b probing e :
  cb_enabled bp = true -> br_state b <> CircuitClosed ->
  me_others_before env 0%nat = [] -> before_call bp (me_clock_before env 0%nat) b = (probing, Ok tt) ->
  me_one_attempt env 0%nat = Err e ->
  model_turn p bp env b = Some (probing, [], Some e) /\
  forall later, Forall asks (me_others_before later 0%nat) ->
    model_turn p bp later probing = Some (probing, rejection later, None).
Proof.
  intros He Hb Ho Hadmit Hraise. split.
  - unfold model_turn. cbn [model_run]. unfold model_attempt. rewrite Ho. cbn [run_breaker fold_left].
    by rewrite Hadmit, Hraise.
  - intros later Hl. destruct (not_closed_call bp He (me_clock_before env 0%nat) b Hb)
      as [[x Hx]|(b' & Hx & Hs & Hi)]; [congruence|].
    rewrite Hadmit in Hx. injection Hx as <-. by apply rejected_turn.
Qed.

(** ** Instances *)
Definition sample_model : Model := mkModel "openai" "provider" "model-1".

Definition sample_retry_policy : ModelRetryPolicy :=
  mkModelRetryPolicy true (VInt 2) (NFloat half) (NFloat thirty) (NFloat fifth)
    default_retryable_statuses (NInt 120).

Definition final_message (reason : string) (rest : pydict) : pydict :=
  ([("role", VStr "assistant"); ("stopReason", VStr reason)] ++ rest)%list.

Definition overloaded : pydict :=
  final_message "error" [("providerError", VDict [("code", VStr "busy"); ("statusCode", VInt 503)])].

(** The provider is overloaded once and then answers. *)
Definition answers_second (n : nat) : res (list pydict * pydict) :=
  match n with
  | O => Ok ([error_event "error" overloaded], overloaded)
  | _ => let m := final_message "stop" [] in
         Ok ([[("type", VStr "done"); ("message", VDict m)]], m)
  end.

Definition sample_env (one_attempt : nat -> res (list pydict * pydict)) : model_env :=
  mkModelEnv sample_model "r-1" one_attempt (fun _ => []) (fun _ => []) (fun _ => NInt 100)
    (fun _ => NInt 101) (fun _ => false) (fun _ => fone) (NInt 100) (fun _ => NInt 101) 5000
    (fun _ => Ok tt).

Lemma only_the_last_attempt_is_published_witness :
  exists rounds last,
    model_turn sample_retry_policy two_failures (sample_env answers_second) new_breaker
    = Some (new_breaker, (concat rounds ++ last)%list, None) /\
    Z.of_nat (List.length rounds) <= 2.
Proof.
  destruct (only_the_last_attempt_is_published sample_retry_policy two_failures 2 sample_model "r-1"
    answers_second (fun _ => []) (fun _ => []) (fun _ => NInt 100) (fun _ => NInt 101)
    (fun _ => false) (fun _ => fone) (NInt 100) (fun _ => NInt 101) 5000 (fun _ => Ok tt)
    new_breaker ltac:(lia)) as (b1 & b' & rounds & last & r & H & Hn & _).
  exists rounds, last. split; [|exact Hn].
  assert (Hx : option_map (fun x => (fst (fst x), snd x))
      (model_turn sample_retry_policy two_failures (sample_env answers_second) new_breaker)
    = Some (new_breaker, None)) by (vm_compute; reflexivity).
  change (model_turn sample_retry_policy two_failures (sample_env answers_second) new_breaker
    = Some (b', (concat rounds ++ last)%list, r)) in H.
  rewrite H in Hx |- *. cbn in Hx. injection Hx as -> ->. reflexivity.
Defined.

(** The provider's stream breaks its contract while the breaker probes it. *)
Definition broken (n : nat) : res (list pydict * pydict) := Err RuntimeError.

Definition open_breaker : CircuitBreaker := run_breaker two_failures new_breaker failing_calls.

Definition probing_breaker : CircuitBreaker :=
  fst (before_call two_failures (NInt 100) open_breaker).

Lemma raised_probe_blocks_the_provider_witness :
  model_turn sample_retry_policy two_failures (sample_env broken) open_breaker
  = Some (probing_breaker, [], Some RuntimeError) /\
  model_turn sample_retry_policy two_failures (sample_env answers_second) probing_breaker
  = Some (probing_breaker, rejection (sample_env answers_second), None).
Proof.
  destruct (raised_probe_blocks_the_provider sample_retry_policy two_failures (sample_env broken)
    open_breaker probing_breaker RuntimeError eq_refl) as [H1 H2];
    [vm_compute; discriminate|reflexivity|vm_compute; reflexivity|reflexivity|].
  split; [exact H1|]. apply H2. constructor.
Defined.
