(* ===== verification/JsonLines.v ===== *)
(** * JSON lines

    The text of an append-only JSONL file: [json.dumps(v, ensure_ascii=False,
    separators=(",", ":"))] and a line feed per record, read back with
    [str.splitlines] and [json.loads].  Values without floats are read back as they
    were written, unless a text holds one of the line separators that
    [str.splitlines] knows and [json.dumps] does not escape: U+0085, U+2028 and
    U+2029. *)

From S2P Require Import Prelude PyDict Text PyVal Json JsonParse DurableAction Canonical.
From stdpp Require Import pretty.
From Stdlib Require Import String Ascii.
From Corelib Require Import SpecFloat.

#[local] Open Scope string_scope.
#[local] Open Scope bool_scope.
#[local] Open Scope Z_scope.

(** ** Writing *)

(** [json.dumps(v, ensure_ascii=False, separators=(",", ":"))] *)
Fixpoint json_compact (v : pyval) : string :=
  match v with
  | VNone => "null"
  | VBool b => if b then "true" else "false"
  | VInt z => pretty z
  | VFloat f => json_float f
  | VStr s => json_string s
  | VList l => "[" ++ str_join "," (map json_compact l) ++ "]"
  | VDict d => "{" ++ str_join "," (map (fun kv => json_string (fst kv) ++ ":" ++ json_compact (snd kv)) d)
               ++ "}"
  end.

Definition line_feed : string := bytes [10%N].

(** The text of a file of records *)
Definition json_lines (records : list pyval) : string :=
  String.concat "" (map (fun v => json_compact v ++ line_feed) records).

(** ** Reading *)

(** The characters at which [str.splitlines] ends a line *)
Definition wide_breaks : list string :=
  [bytes [0xC2; 0x85]%N; bytes [0xE2; 0x80; 0xA8]%N; bytes [0xE2; 0x80; 0xA9]%N].
Definition line_breaks : list string :=
  (map (fun n => bytes [n]) [10; 11; 12; 13; 28; 29; 30]%N ++ wide_breaks)%list.

(** [splitlines] of the characters of a text, after the start of a line *)
Fixpoint split_chars (line : string) (chars : list string) : list string :=
  match chars with
  | [] => match line with EmptyString => [] | _ => [line] end
  | ch :: chars' =>
      if mem_str ch line_breaks then
        line :: match chars' with
                | ch' :: chars'' =>
                    if String.eqb ch (bytes [13%N]) && String.eqb ch' line_feed
                    then split_chars "" chars'' else split_chars "" chars'
                | [] => split_chars "" chars'
                end
      else split_chars (line ++ ch) chars'
  end.

(** [text.splitlines()] *)
Definition splitlines (text : string) : list string := split_chars "" (utf8_chars text).

(** [for line in text.splitlines(): if not line.strip(): continue] *)
Definition text_lines (text : string) : list string :=
  List.filter (fun line => negb (blank line)) (splitlines text).

(** [json.loads(line)] for each of them *)
Definition read_lines (text : string) : res (list pyval) := mapR json_loads (text_lines text).

Example reads_lines_back :
  read_lines (json_lines [VDict [("b", VInt 1); ("a", VStr "x")]; VDict []])
  = Ok [VDict [("b", VInt 1); ("a", VStr "x")]; VDict []].
Proof. vm_compute. reflexivity. Qed.

(** A record whose text holds U+2028 *)
Definition separator_text : string := "a" ++ bytes [0xE2; 0x80; 0xA8]%N ++ "b".

Example separator_breaks_the_line :
  read_lines (json_lines [VDict [("note", VStr separator_text)]]) = Err ValueError.
Proof. vm_compute. reflexivity. Qed.

(** ** Compact texts *)

Lemma compact_start v : float_free v = true -> text_start (json_compact v).
Proof.
  intros Hf. unfold text_start.
  destruct v as [|[]|z|f|s|l|d]; try (eexists _, _; split_and!; reflexivity); [|done].
  destruct (pretty_start z) as (c & r & Hz & Hc). exists c, r. split; [exact Hz|].
  destruct Hc as [->|Hc]; [done|]. by apply digit_start.
Qed.

Lemma compact_dict d :
  json_compact (VDict d) = "{" ++ str_join "," (map (member_text json_compact) d) ++ "}".
Proof. done. Qed.

Lemma map_values_id {V} (d : dict V) : map_values (fun v => v) d = d.
Proof. unfold map_values. induction d as [|[k v] d IH]; [done|]. simpl. by rewrite IH. Qed.

Lemma compact_reads_back v :
  json_wf v -> float_free v = true -> reads_back json_compact (fun v => v) v.
Proof.
  induction v as [|b|z|f|s|l IH|d IH] using pyval_nested_ind; intros Hwf Hf [|fuel] t Hfuel Ht;
    try lia; try done.
  - apply (drop_literal_Ok "null").
  - destruct b; [apply (drop_literal_Ok "true") | apply (drop_literal_Ok "false")].
  - by apply parse_value_number.
  - unfold json_compact, json_string in *.
    rewrite !append_assoc. change (quote ++ ?x) with (String dq x) at 1. cbn [parse_value].
    change (code dq =? 34) with true. cbn iota. rewrite parse_escaped; [done|].
    simpl. rewrite length_append. pose proof (escape_length s). lia.
  - assert (Hl : Forall (reads_back json_compact (fun v => v)) l /\
                 Forall (fun v => float_free v = true) l).
    { simpl in Hf. rewrite forallb_elem in Hf. apply json_wf_list in Hwf.
      rewrite !Forall_forall in *. split; auto. }
    destruct Hl as [Hr Hff].
    assert (Ht' : json_compact (VList l) ++ t
                  = String "[" (str_join "," (map json_compact l) ++ "]" ++ t)).
    { cbn [json_compact]. by rewrite !append_assoc. }
    rewrite Ht'. rewrite <- (map_id l) at 2. apply parse_value_list; [apply compact_start|done|done|].
    cbn [json_compact] in Hfuel. rewrite !length_append in Hfuel. simpl in Hfuel. lia.
  - assert (Hd : dict_wf d /\ Forall (reads_back json_compact (fun v => v)) (dvalues d)
                 /\ Forall (fun v => float_free v = true) (dvalues d)).
    { simpl in Hf. rewrite forallb_elem in Hf. apply json_wf_dict in Hwf as [Hd Hw].
      split; [done|]. rewrite !Forall_forall in *. split; [intros x Hx; apply IH; auto|];
        intros; unfold dvalues in *; rewrite list_elem_of_fmap in *; naive_solver. }
    destruct Hd as (Hd & Hr & Hff). rewrite compact_dict in *.
    rewrite !append_assoc. rewrite <- (map_values_id d) at 2.
    apply parse_value_dict; [apply compact_start|done|done|done|].
    rewrite !length_append in Hfuel. simpl in Hfuel. lia.
Qed.

(** Reading a compact text returns the value. *)
Lemma json_loads_compact v :
  json_wf v -> float_free v = true -> json_loads (json_compact v) = Ok v.
Proof.
  intros Hwf Hf. unfold json_loads.
  pose proof (skip_text (json_compact v) "" (compact_start v Hf)) as Hs.
  rewrite append_empty in Hs. rewrite Hs.
  rewrite <- (append_empty (json_compact v)) at 2.
  by rewrite compact_reads_back by (done || lia).
Qed.

(** ** Texts that stay on one line *)

Definition line_byte (c : ascii) : bool :=
  existsb (Z.eqb (code c)) [10; 11; 12; 13; 28; 29; 30].

Definition starts_wide (s : string) : bool := existsb (fun w => String.prefix w s) wide_breaks.

(** No separator that [json.dumps] leaves as it is *)
Fixpoint separator_free (s : string) : bool :=
  match s with
  | EmptyString => true
  | String _ s' => negb (starts_wide s) && separator_free s'
  end.

(** No separator at all *)
Fixpoint line_safe (s : string) : bool :=
  match s with
  | EmptyString => true
  | String c s' => negb (line_byte c) && negb (starts_wide s) && line_safe s'
  end.

(** Printable ASCII *)
Fixpoint plain (s : string) : bool :=
  match s with
  | EmptyString => true
  | String c s' => (32 <=? code c) && (code c <? 128) && plain s'
  end.

Definition ascii_start (s : string) : bool :=
  match s with EmptyString => true | String c _ => code c <? 128 end.

Fixpoint high (s : string) : bool :=
  match s with EmptyString => true | String c s' => (128 <=? code c) && high s' end.

Lemma prefix_cons c w d s :
  String.prefix (String c w) (String d s) = true <-> c = d /\ String.prefix w s = true.
Proof. simpl. destruct (ascii_dec c d); split; intros; intuition congruence. Qed.

Lemma prefix_app w : forall a b,
  high w = true -> ascii_start b = true -> String.prefix w (a ++ b) = true ->
  String.prefix w a = true.
Proof.
  induction w as [|c w IH]; intros a b Hw Hb H; [by destruct a|].
  simpl in Hw. apply andb_prop in Hw as [Hc Hw].
  destruct a as [|d a]; [destruct b as [|d b]; [done|]|].
  - apply prefix_cons in H as [-> _]. simpl in Hb. lia.
  - rewrite append_cons in H. apply prefix_cons in H as [-> H]. apply prefix_cons. eauto.
Qed.

Lemma starts_wide_spec s :
  starts_wide s = true <-> exists w, w ∈ wide_breaks /\ String.prefix w s = true.
Proof.
  unfold starts_wide. rewrite List.existsb_exists. by setoid_rewrite list_elem_of_In.
Qed.

Lemma wide_high w : w ∈ wide_breaks -> high w = true /\ exists c r, w = String c r /\ 128 <= code c.
Proof.
  intros H. unfold wide_breaks in H.
  repeat (apply elem_of_cons in H as [->|H]; [split; [done|by eexists _, _]|]).
  by apply elem_of_nil in H.
Qed.

Lemma starts_wide_app a b :
  ascii_start b = true -> starts_wide (a ++ b) = true -> starts_wide a = true.
Proof.
  rewrite !starts_wide_spec. intros Hb (w & Hw & Hp). exists w. split; [done|].
  eapply prefix_app; [by apply wide_high|done|done].
Qed.

Lemma starts_wide_ascii c s : code c < 128 -> starts_wide (String c s) = false.
Proof.
  intros Hc. apply not_true_iff_false. rewrite starts_wide_spec. intros (w & Hw & Hp).
  apply wide_high in Hw as (_ & d & r & -> & Hd). apply prefix_cons in Hp as [-> _]. lia.
Qed.

Lemma line_safe_app a b :
  line_safe a = true -> line_safe b = true -> ascii_start b = true -> line_safe (a ++ b) = true.
Proof.
  intros Ha Hb Hs. induction a as [|c a IH]; [done|]. cbn [line_safe] in Ha.
  apply andb_prop in Ha as [[Hc Hw]%andb_prop Ha]. rewrite append_cons. cbn [line_safe].
  rewrite Hc, IH by done. rewrite andb_true_r. cbn [andb].
  destruct (starts_wide (String c (a ++ b))) eqn:E; [|done].
  rewrite <- append_cons in E. apply starts_wide_app in E; [|done]. by rewrite E in Hw.
Qed.

Lemma line_safe_plain a b : plain a = true -> line_safe b = true -> line_safe (a ++ b) = true.
Proof.
  intros Ha Hb. induction a as [|c a IH]; [done|]. cbn [plain] in Ha.
  apply andb_prop in Ha as [[H1 H2]%andb_prop Ha]. rewrite append_cons. cbn [line_safe].
  rewrite starts_wide_ascii, IH by (done || lia).
  assert (Hc : line_byte c = false).
  { unfold line_byte. cbn [existsb]. rewrite !(proj2 (Z.eqb_neq _ _)) by lia. done. }
  by rewrite Hc.
Qed.

Lemma plain_app a b : plain (a ++ b) = plain a && plain b.
Proof.
  induction a as [|c a IH]; [done|]. rewrite append_cons. cbn [plain]. by rewrite IH, !andb_assoc.
Qed.

Lemma plain_safe a : plain a = true -> line_safe a = true.
Proof. intros H. rewrite <- (append_empty a). by apply line_safe_plain. Qed.

(** *** Escaped strings *)
Lemma escape_char_shape c :
  json_escape_char c = String c "" /\ 32 <= code c \/
  plain (json_escape_char c) = true /\ exists r, json_escape_char c = String "\" r.
Proof.
  destruct c as [[] [] [] [] [] [] [] []];
    (left; split; [reflexivity|vm_compute; discriminate]) ||
    (right; split; [reflexivity|eexists; reflexivity]).
Qed.

Lemma prefix_escape w : forall s,
  high w = true -> String.prefix w (json_escape s) = true -> String.prefix w s = true.
Proof.
  induction w as [|c w IH]; intros s Hw H; [by destruct s|].
  simpl in Hw. apply andb_prop in Hw as [Hc Hw]. destruct s as [|d s]; [done|].
  cbn [json_escape] in H. destruct (escape_char_shape d) as [[Hd _]|[_ [r Hd]]]; rewrite Hd in H.
  - rewrite append_cons in H. apply prefix_cons in H as [-> H]. apply prefix_cons. eauto.
  - rewrite append_cons in H. apply prefix_cons in H as [-> _]. vm_compute in Hc. done.
Qed.

Lemma escape_safe s : separator_free s = true -> line_safe (json_escape s) = true.
Proof.
  induction s as [|c s IH]; [done|]. cbn [separator_free json_escape]. intros [Hw Hs]%andb_prop.
  destruct (escape_char_shape c) as [[Hc H32]|[Hp _]]; [|by apply line_safe_plain, IH].
  rewrite Hc, append_cons. cbn [line_safe]. change ("" ++ ?x) with x. rewrite IH, andb_true_r by done.
  apply andb_true_intro. split.
  - unfold line_byte. cbn [existsb]. rewrite !(proj2 (Z.eqb_neq _ _)) by lia. done.
  - destruct (starts_wide (String c (json_escape s))) eqn:E; [|done].
    apply starts_wide_spec in E as (w & Hin & Hp). destruct (wide_high w Hin) as [Hh _].
    assert (Hx : String.prefix w (json_escape (String c s)) = true).
    { cbn [json_escape]. by rewrite Hc. }
    apply prefix_escape in Hx; [|done].
    assert (starts_wide (String c s) = true) as E by (apply starts_wide_spec; eauto).
    by rewrite E in Hw.
Qed.

Lemma string_safe s : separator_free s = true -> line_safe (json_string s) = true.
Proof.
  intros H. unfold json_string. apply line_safe_plain; [done|].
  apply line_safe_app; [by apply escape_safe|done|done].
Qed.

(** *** Numbers *)
Lemma pretty_go_plain x : forall s, plain s = true -> plain (pretty_N_go x s) = true.
Proof.
  induction (N.lt_wf_0 x) as [x _ IH]. intros s Hs.
  destruct (decide (x = 0)%N) as [->|Hx]; [by rewrite pretty_N_go_0|].
  rewrite pretty_N_go_step by lia. apply IH; [by apply N.div_lt; lia|].
  cbn [plain]. destruct (pretty_char (x mod 10)) as [_ Hc]; [by apply N.mod_lt|].
  rewrite Hs, andb_true_r. apply andb_true_intro. split; lia.
Qed.

Lemma pretty_plain (z : Z) : plain (pretty z) = true.
Proof.
  destruct z as [|p|p]; [done|exact (pretty_go_plain (Npos p) "" eq_refl)|].
  change (pretty (Zneg p)) with (String "-" (pretty_N_go (Npos p) "")). cbn [plain].
  by rewrite pretty_go_plain.
Qed.

(** *** Values *)

(** No text of the value, keys included, holds a separator. *)
Fixpoint separator_free_value (v : pyval) : bool :=
  match v with
  | VStr s => separator_free s
  | VList l => forallb separator_free_value l
  | VDict d => forallb (fun kv => separator_free (fst kv) && separator_free_value (snd kv)) d
  | _ => true
  end.

Lemma join_safe l :
  Forall (fun s => line_safe s = true) l -> line_safe (str_join "," l) = true.
Proof.
  induction 1 as [|x l Hx Hl IH]; [done|]. destruct l as [|y l]; [exact Hx|].
  rewrite str_join_cons. apply line_safe_app; [done| |done]. by apply line_safe_plain.
Qed.

Lemma compact_safe v :
  float_free v = true -> separator_free_value v = true -> line_safe (json_compact v) = true.
Proof.
  induction v as [|b|z|f|s|l IH|d IH] using pyval_nested_ind; intros Hf Hs; try done.
  - by destruct b.
  - apply plain_safe, pretty_plain.
  - by apply string_safe.
  - cbn [json_compact]. apply line_safe_plain; [done|]. apply line_safe_app; [|done|done].
    apply join_safe. rewrite Forall_map. simpl in Hf, Hs. rewrite forallb_elem in Hf, Hs.
    rewrite Forall_forall in *. intros x Hx. apply IH; auto.
  - cbn [json_compact]. apply line_safe_plain; [done|]. apply line_safe_app; [|done|done].
    apply join_safe. rewrite Forall_map. simpl in Hf, Hs. rewrite forallb_elem in Hf, Hs.
    rewrite Forall_forall in IH. rewrite Forall_forall. intros [k x] Hx. cbn [fst snd].
    pose proof (Hs _ Hx) as [Hk Hv]%andb_prop. pose proof (Hf _ Hx) as Hfx. cbn [fst snd] in *.
    apply line_safe_app; [by apply string_safe| |done]. apply line_safe_plain; [done|].
    apply IH; [|done|done]. unfold dvalues. apply list_elem_of_fmap. by exists (k, x).
Qed.

(** ** Lines *)

(** The text goes on with a new character. *)
Definition char_start (s : string) : Prop :=
  match s with EmptyString => True | String c _ => is_continuation c = false end.

Lemma utf8_chars_cons c s :
  utf8_chars (String c s)
  = match s, utf8_chars s with
    | String c' _, x :: xs =>
        if is_continuation c' then String c x :: xs else String c "" :: x :: xs
    | _, _ => [String c ""]
    end.
Proof. destruct s; [done|]. cbn [utf8_chars]. by destruct (utf8_chars _). Qed.

Lemma utf8_chars_nil s : utf8_chars s = [] -> s = "".
Proof.
  destruct s as [|c [|d s]]; try done. rewrite utf8_chars_cons. destruct (utf8_chars (String d s)); [done|].
  by destruct (is_continuation d).
Qed.

Lemma utf8_chars_app a b : char_start b -> utf8_chars (a ++ b) = (utf8_chars a ++ utf8_chars b)%list.
Proof.
  intros Hb. induction a as [|c a IH]; [done|]. rewrite append_cons, !utf8_chars_cons.
  destruct a as [|d a].
  - change ("" ++ b) with b. destruct b as [|e b]; [done|].
    destruct (utf8_chars (String e b)) eqn:E; [by apply utf8_chars_nil in E|]. by rewrite Hb.
  - rewrite append_cons in IH |- *. rewrite IH.
    destruct (utf8_chars (String d a)) as [|x xs] eqn:E; [by apply utf8_chars_nil in E|].
    cbn [app]. by destruct (is_continuation d).
Qed.

Lemma concat_chars s : String.concat "" (utf8_chars s) = s.
Proof.
  induction s as [|c s IH]; [done|]. rewrite utf8_chars_cons.
  destruct s as [|d s]; [done|]. destruct (utf8_chars (String d s)) as [|x xs] eqn:E.
  - by apply utf8_chars_nil in E.
  - destruct (is_continuation d); rewrite <- IH; [by destruct xs|done].
Qed.

Lemma chars_are_substrings s x : x ∈ utf8_chars s -> exists a b, s = a ++ x ++ b.
Proof.
  intros H. enough (exists a b, String.concat "" (utf8_chars s) = a ++ x ++ b) as Hs
    by (by rewrite concat_chars in Hs).
  revert H. induction (utf8_chars s) as [|y l IH]; intros H.
  { by apply elem_of_nil in H. }
  assert (Hc : String.concat "" (y :: l) = y ++ String.concat "" l).
  { destruct l; [by rewrite append_empty|done]. }
  rewrite Hc. apply elem_of_cons in H as [->|H]; [by exists "", (String.concat "" l)|].
  destruct (IH H) as (a & b & ->). exists (y ++ a), b. by rewrite append_assoc.
Qed.

Lemma line_safe_suffix a b : line_safe (a ++ b) = true -> line_safe b = true.
Proof.
  induction a as [|c a IH]; [done|]. rewrite append_cons. cbn [line_safe].
  intros [_ H]%andb_prop. by apply IH.
Qed.

Lemma prefix_self w s : String.prefix w (w ++ s) = true.
Proof. induction w as [|c w IH]; [by destruct s|]. rewrite append_cons. by apply prefix_cons. Qed.

Lemma safe_chars s x : line_safe s = true -> x ∈ utf8_chars s -> mem_str x line_breaks = false.
Proof.
  intros Hs Hx. apply not_true_iff_false. rewrite mem_str_spec. intros Hb.
  apply chars_are_substrings in Hx as (a & b & ->). apply line_safe_suffix in Hs.
  unfold line_breaks in Hb. apply elem_of_app in Hb as [Hb|Hb].
  - cbn [map] in Hb. repeat (apply elem_of_cons in Hb as [->|Hb]; [discriminate Hs|]).
    by apply elem_of_nil in Hb.
  - destruct (wide_high x Hb) as (_ & c & r & Hxc & _).
    assert (Hw : starts_wide (x ++ b) = true).
    { apply starts_wide_spec. exists x. split; [done|]. apply prefix_self. }
    rewrite Hxc, append_cons in Hs, Hw. cbn [line_safe] in Hs. rewrite Hw in Hs.
    by rewrite andb_false_r in Hs.
Qed.

Lemma split_line chars rest : forall line,
  (forall x, x ∈ chars -> mem_str x line_breaks = false) ->
  split_chars line (chars ++ line_feed :: rest)
  = (line ++ String.concat "" chars) :: split_chars "" rest.
Proof.
  induction chars as [|x chars IH]; intros line H; cbn [app split_chars].
  - change (mem_str line_feed line_breaks) with true.
    change (String.eqb line_feed (bytes [13%N])) with false. cbn [andb].
    rewrite append_empty. by destruct rest.
  - rewrite H by left. rewrite IH by (intros; apply H; by right).
    rewrite append_assoc. f_equal. f_equal. destruct chars; [by rewrite append_empty|done].
Qed.

Lemma splitlines_cons l rest :
  line_safe l = true -> char_start rest ->
  splitlines (l ++ line_feed ++ rest) = l :: splitlines rest.
Proof.
  intros Hl Hr. unfold splitlines. rewrite !utf8_chars_app by done.
  change (utf8_chars line_feed) with [line_feed]. cbn [app].
  rewrite split_line by (intros; by eapply safe_chars). by rewrite concat_chars.
Qed.

(** *** Reading a file back *)
Definition storable (v : pyval) : Prop :=
  is_dict v = true /\ json_wf v /\ float_free v = true /\ separator_free_value v = true.

Lemma compact_brace v : is_dict v = true -> exists r, json_compact v = String "{" r.
Proof. destruct v; try done. intros _. by eexists. Qed.

Lemma brace_not_blank r : blank (String "{" r) = false.
Proof.
  unfold blank. rewrite utf8_chars_cons.
  assert (H : forall x, is_space (String "{" x) = false) by reflexivity.
  destruct r as [|c r]; [done|]. destruct (utf8_chars (String c r)); [done|].
  by destruct (is_continuation c); cbn [forallb]; rewrite H.
Qed.

Lemma json_lines_cons v l :
  json_lines (v :: l) = json_compact v ++ line_feed ++ json_lines l.
Proof.
  unfold json_lines. cbn [map]. rewrite <- append_assoc.
  destruct l; [by rewrite append_empty|done].
Qed.

Lemma json_lines_app l l' : json_lines (l ++ l') = json_lines l ++ json_lines l'.
Proof.
  induction l as [|v l IH]; [done|]. cbn [app]. by rewrite !json_lines_cons, IH, !append_assoc.
Qed.

(** The lines of a file of records are the texts of the records. *)
Lemma lines_of_records l : Forall storable l -> text_lines (json_lines l) = map json_compact l.
Proof.
  unfold text_lines. induction 1 as [|v l (Hd & Hwf & Hf & Hs) Hl IH]; [done|].
  rewrite json_lines_cons, splitlines_cons.
  - destruct (compact_brace v Hd) as [r Hr]. cbn [List.filter map]. rewrite Hr at 1.
    rewrite brace_not_blank. cbn [negb]. by rewrite IH.
  - by apply compact_safe.
  - destruct l as [|w l]; [done|]. rewrite json_lines_cons.
    inversion Hl as [|? ? (Hdw & _)]; subst. by destruct (compact_brace w Hdw) as [r ->].
Qed.

(** A file of records is read back as it was written. *)
Lemma read_json_lines l : Forall storable l -> read_lines (json_lines l) = Ok l.
Proof.
  intros Hl. unfold read_lines. rewrite lines_of_records by done. apply mapR_Ok.
  induction Hl as [|v l (_ & Hwf & Hf & _) _ IH]; constructor; [by apply json_loads_compact|done].
Qed.

(** ** A separator ends the line

    The text of a value up to the first separator in one of its texts is a line of its
    own, and no JSON. *)

(** The texts and keys of a value *)
Fixpoint texts_of (v : pyval) : list string :=
  match v with
  | VStr s => [s]
  | VList l => List.concat (map texts_of l)
  | VDict d => List.concat (map (fun kv => fst kv :: texts_of (snd kv)) d)
  | _ => []
  end.

(** A separator in the text is a character of its own, as in every UTF-8 text. *)
Definition whole_text (s : string) : Prop :=
  forall a w b, s = a ++ w ++ b -> w ∈ wide_breaks -> char_start b.
Definition whole_value (v : pyval) : Prop := forall s, s ∈ texts_of v -> whole_text s.

(** The beginning of a value's text, to which the parser objects *)
Definition unfinished (p : string) : Prop :=
  forall fuel, (2 * String.length p < fuel)%nat -> parse_value fuel p = Err ValueError.

(** The text starts with a new character. *)
Definition new_char (s : string) : Prop := exists c r, s = String c r /\ is_continuation c = false.

Lemma new_char_app s t : new_char s -> new_char (s ++ t).
Proof. intros (c & r & -> & H). rewrite append_cons. by eexists _, _. Qed.

(** What stands before and after the first separator of a text *)
Record torn (text p w rest : string) : Prop := {
  tn_text : text = p ++ w ++ rest;
  tn_separator : w ∈ wide_breaks;
  tn_rest : new_char rest;
  tn_safe : line_safe p = true;
  tn_start : text_start p;
  tn_unfinished : unfinished p
}.

Lemma first_separator s :
  separator_free s = false ->
  exists a w b, s = a ++ w ++ b /\ w ∈ wide_breaks /\ separator_free a = true.
Proof.
  induction s as [|c s IH]; [done|]. cbn [separator_free]. intros H.
  destruct (starts_wide (String c s)) eqn:Es.
  - apply starts_wide_spec in Es as (w & Hw & Hp). exists "", w.
    assert (Hb : exists b, String c s = w ++ b).
    { clear -Hp. revert Hp. generalize (String c s). induction w as [|d w IHw]; intros x Hp.
      - by exists x.
      - destruct x as [|e x]; [done|]. apply prefix_cons in Hp as [-> Hp].
        destruct (IHw x Hp) as [b ->]. by exists b. }
    destruct Hb as [b Hb]. by exists b.
  - destruct (IH H) as (a & w & b & -> & Hw & Ha). exists (String c a), w, b. split; [done|]. split; [done|].
    cbn [separator_free]. rewrite Ha, andb_true_r. apply negb_true_iff, not_true_iff_false.
    intros Hs. apply not_true_iff_false in Es. apply Es. rewrite <- append_cons.
    apply starts_wide_spec in Hs as (x & Hx & Hp). apply starts_wide_spec. exists x. split; [done|].
    clear -Hp. revert Hp. generalize (String c a) as y. induction x as [|d x IHx]; intros y Hp.
    + by destruct (y ++ w ++ b).
    + destruct y as [|e y]; [done|]. apply prefix_cons in Hp as [-> Hp]. rewrite append_cons.
      apply prefix_cons. split; [done|by apply IHx].
Qed.

Lemma wide_start w b : w ∈ wide_breaks -> char_start (w ++ b).
Proof.
  unfold wide_breaks. intros H.
  repeat (apply elem_of_cons in H as [->|H]; [reflexivity|]). by apply elem_of_nil in H.
Qed.

Lemma escape_wide w b : w ∈ wide_breaks -> json_escape (w ++ b) = w ++ json_escape b.
Proof.
  unfold wide_breaks. intros H.
  repeat (apply elem_of_cons in H as [->|H]; [reflexivity|]). by apply elem_of_nil in H.
Qed.

Lemma escape_app a b : json_escape (a ++ b) = json_escape a ++ json_escape b.
Proof.
  induction a as [|c a IH]; [done|]. rewrite append_cons. cbn [json_escape].
  by rewrite IH, append_assoc.
Qed.

Lemma escape_start b t : char_start b -> new_char t -> new_char (json_escape b ++ t).
Proof.
  destruct b as [|c b]; [done|]. intros Hc _. cbn [json_escape]. rewrite append_assoc.
  destruct (escape_char_shape c) as [[-> _]|[_ [r ->]]]; rewrite append_cons; by eexists _, _.
Qed.

(** A string literal without its end *)
Lemma parse_open_string a : forall fuel, parse_string fuel (json_escape a) = Err ValueError.
Proof.
  induction a as [|c a IH]; intros [|fuel]; try done.
  cbn [json_escape]. by rewrite parse_escaped_char, IH.
Qed.

(** A text that is torn, as a literal *)
Lemma torn_string s t :
  whole_text s -> separator_free s = false ->
  exists a w b, torn (json_string s ++ t) (quote ++ json_escape a) w (json_escape b ++ quote ++ t).
Proof.
  intros Hs (a & w & b & -> & Hw & Ha)%first_separator. exists a, w, b. split.
  - unfold json_string. by rewrite (escape_app a), escape_wide, !append_assoc.
  - done.
  - apply escape_start; [by eapply Hs|]. by eexists _, _.
  - apply line_safe_plain; [done|]. by apply escape_safe.
  - by eexists _, _.
  - intros [|fuel] Hf; [lia|]. change (quote ++ json_escape a) with (String dq (json_escape a)).
    cbn [parse_value]. change (code dq =? 34) with true. cbn iota. by rewrite parse_open_string.
Qed.

(** *** Lists and objects *)

(** Texts that are followed by a comma each *)
Fixpoint commas (l : list string) (p : string) : string :=
  match l with [] => p | s :: l' => s ++ "," ++ commas l' p end.

Lemma join_split l1 x l2 :
  exists rest, str_join "," (l1 ++ x :: l2)%list = commas l1 (x ++ rest).
Proof.
  assert (Hx : exists rest, str_join "," (x :: l2) = x ++ rest).
  { destruct l2 as [|y l2]; [exists ""|by exists ("," ++ str_join "," (y :: l2))].
    unfold str_join. cbn. by rewrite append_empty. }
  destruct Hx as [rest Hx]. exists rest.
  induction l1 as [|y l1 IH]; [exact Hx|]. cbn [app commas] in *.
  destruct (l1 ++ x :: l2)%list as [|z l] eqn:E; [by destruct l1|]. by rewrite str_join_cons, IH.
Qed.

Lemma commas_app l p t : commas l p ++ t = commas l (p ++ t).
Proof. induction l as [|s l IH]; [done|]. cbn [commas]. by rewrite !append_assoc, IH. Qed.

Lemma commas_safe l p :
  Forall (fun s => line_safe s = true) l -> line_safe p = true -> line_safe (commas l p) = true.
Proof.
  intros Hl Hp. induction Hl as [|s l Hs Hl IH]; [done|]. cbn [commas].
  apply line_safe_app; [done| |done]. by apply line_safe_plain.
Qed.

Lemma commas_start l p : Forall text_start l -> text_start p -> text_start (commas l p).
Proof.
  intros Hl Hp. destruct Hl as [|s l Hs Hl]; [done|]. cbn [commas].
  destruct Hs as (c & r & -> & H). rewrite append_cons. by eexists _, _.
Qed.

(** The first element that is not what it should be *)
Lemma first_false {A : Type} (p : A -> bool) l :
  forallb p l = false ->
  exists l1 x l2, l = (l1 ++ x :: l2)%list /\ Forall (fun y => p y = true) l1 /\ p x = false.
Proof.
  induction l as [|y l IH]; [done|]. cbn. destruct (p y) eqn:E; cbn.
  - intros (l1 & x & l2 & -> & H & Hx)%IH. exists (y :: l1), x, l2. split_and!; [done|by constructor|done].
  - intros _. exists [], y, l. by split_and!.
Qed.

Definition readable (v : pyval) : Prop := json_wf v /\ float_free v = true /\ whole_value v.

Section Tearing.
Context (p : string) (Hstart : text_start p) (Hp : unfinished p).

Lemma skip_torn l : Forall text_start l -> skip_space (commas l p) = commas l p.
Proof.
  intros Hl. pose proof (skip_text (commas l p) "" (commas_start _ _ Hl Hstart)) as H.
  by rewrite append_empty in H.
Qed.

Lemma compact_starts l : Forall (fun v => float_free v = true) l -> Forall text_start (map json_compact l).
Proof. intros H. rewrite Forall_map. eapply Forall_impl; [exact H|]. intros v. apply compact_start. Qed.

Lemma elements_unfinished l : forall acc fuel,
  Forall json_wf l -> Forall (fun v => float_free v = true) l ->
  (2 * String.length (commas (map json_compact l) p) + 1 < fuel)%nat ->
  parse_elements fuel acc (commas (map json_compact l) p) = Err ValueError.
Proof.
  induction l as [|v l IH]; intros acc [|fuel] Hwf Hf Hfuel; try done.
  - cbn [map commas parse_elements] in *. by rewrite Hp by lia.
  - apply Forall_cons in Hwf as [Hw Hwf]. apply Forall_cons in Hf as [Hv Hf].
    cbn [map commas] in *. rewrite !length_append in Hfuel.
    change (String.length ",") with 1%nat in Hfuel. cbn [parse_elements].
    rewrite compact_reads_back by (done || lia || left). cbn [rbind fst snd].
    change ("," ++ ?x) with (String "," x). cbn [skip_space].
    change (json_space ",") with false. cbn iota.
    change (code "," =? 93) with false. change (code "," =? 44) with true. cbn iota.
    rewrite skip_torn by by apply compact_starts. apply IH; [done|done|lia].
Qed.

Lemma list_unfinished l :
  Forall json_wf l -> Forall (fun v => float_free v = true) l ->
  unfinished ("[" ++ commas (map json_compact l) p).
Proof.
  intros Hwf Hf [|fuel] Hfuel; [lia|]. rewrite length_append in Hfuel.
  change (String.length "[") with 1%nat in Hfuel.
  change ("[" ++ ?x) with (String "[" x). cbn [parse_value].
  change (code "[" =? 34) with false. change (code "[" =? 123) with false.
  change (code "[" =? 91) with true. cbn iota.
  pose proof (commas_start _ _ (compact_starts l Hf) Hstart) as (c & r & Hc & _ & H93 & _).
  rewrite skip_torn by by apply compact_starts. rewrite Hc, H93, <- Hc.
  by rewrite elements_unfinished by (done || lia).
Qed.

(** A member whose value is torn *)
Lemma member_unfinished k fuel acc :
  (2 * String.length (json_string k ++ ":" ++ p) + 1 < fuel)%nat ->
  parse_members fuel acc (json_string k ++ ":" ++ p) = Err ValueError.
Proof.
  destruct fuel as [|fuel]; [done|]. intros Hfuel. unfold json_string in *.
  rewrite !length_append in Hfuel. change (quote ++ ?x) with (String dq x) at 1.
  rewrite append_cons, !append_assoc. cbn [parse_members]. change (code dq =? 34) with true. cbn [negb].
  rewrite parse_escaped.
  2:{ simpl. rewrite length_append. pose proof (escape_length k). lia. }
  cbn [rbind fst snd]. change (":" ++ p) with (String ":" p). cbn [skip_space].
  change (json_space ":") with false. cbn iota. change (code ":" =? 58) with true. cbn [negb].
  pose proof (skip_torn [] (Forall_nil_2 _)) as Hs. cbn [commas] in Hs. rewrite Hs.
  by rewrite Hp by lia.
Qed.
End Tearing.

(** The rest of an object's members, to which the parser objects *)
Definition bad_members (q : string) : Prop :=
  forall fuel acc, (2 * String.length q + 1 < fuel)%nat -> parse_members fuel acc q = Err ValueError.

Lemma key_unfinished a : bad_members (quote ++ json_escape a).
Proof.
  intros [|fuel] acc Hfuel; [lia|]. change (quote ++ json_escape a) with (String dq (json_escape a)).
  cbn [parse_members]. change (code dq =? 34) with true. cbn [negb]. by rewrite parse_open_string.
Qed.

Lemma members_unfinished q d : forall acc fuel,
  text_start q -> bad_members q ->
  NoDup (dkeys acc ++ dkeys d) -> Forall json_wf (dvalues d) ->
  Forall (fun v => float_free v = true) (dvalues d) ->
  (2 * String.length (commas (map (member_text json_compact) d) q) + 1 < fuel)%nat ->
  parse_members fuel acc (commas (map (member_text json_compact) d) q) = Err ValueError.
Proof.
  induction d as [|[k v] d IH]; intros acc fuel Hq Hbad Hnd Hwf Hf Hfuel; [by apply Hbad|].
  destruct fuel as [|fuel]; [done|].
  apply Forall_cons in Hwf as [Hw Hwf]. apply Forall_cons in Hf as [Hv Hf].
  cbn [map commas] in *. rewrite !length_append in Hfuel. change (String.length ",") with 1%nat in Hfuel.
  assert (Hlen : (String.length (json_compact v) < fuel)%nat).
  { unfold member_text at 1 in Hfuel. rewrite !length_append in Hfuel. simpl snd in Hfuel. lia. }
  assert (Hk : k ∉ dkeys acc).
  { apply NoDup_app in Hnd as (_ & Hdis & _). intros Hin. apply (Hdis _ Hin). left. }
  eapply (parse_member json_compact (fun v => v));
    [apply compact_start|by apply compact_reads_back|done|done|left|done|reflexivity|].
  change ("," ++ ?x) with (String "," x). cbn [skip_space].
  change (json_space ",") with false. cbn iota.
  change (code "," =? 125) with false. change (code "," =? 44) with true. cbn iota.
  pose proof (skip_text (commas (map (member_text json_compact) d) q) "") as Hs.
  rewrite !append_empty in Hs. rewrite Hs.
  - apply IH; try done; [|lia]. unfold dkeys in *. rewrite map_app. cbn in *.
    by rewrite <- app_assoc.
  - apply commas_start; [|done]. rewrite Forall_map. apply Forall_forall. intros kv _. apply member_start.
Qed.

Lemma dict_unfinished q d :
  text_start q -> bad_members q -> NoDup (dkeys d) -> Forall json_wf (dvalues d) ->
  Forall (fun v => float_free v = true) (dvalues d) ->
  unfinished ("{" ++ commas (map (member_text json_compact) d) q).
Proof.
  intros Hq Hbad Hnd Hwf Hf [|fuel] Hfuel; [lia|]. rewrite length_append in Hfuel.
  change (String.length "{") with 1%nat in Hfuel.
  change ("{" ++ ?x) with (String "{" x). cbn [parse_value].
  change (code "{" =? 34) with false. change (code "{" =? 123) with true. cbn iota.
  assert (Hs : text_start (commas (map (member_text json_compact) d) q)).
  { apply commas_start; [|done]. rewrite Forall_map. apply Forall_forall. intros kv _. apply member_start. }
  pose proof (skip_text _ "" Hs) as Hskip. rewrite append_empty in Hskip. rewrite Hskip.
  rewrite (members_unfinished q d []) by (done || lia).
  by destruct Hs as (c & r & -> & _ & _ & ->).
Qed.

(** ** Every value with a separator is torn *)

Lemma whole_element (v : pyval) l : v ∈ l -> whole_value (VList l) -> whole_value v.
Proof.
  intros Hv Hw s Hs. apply Hw. cbn [texts_of]. apply elem_of_concat. exists (texts_of v).
  split; [|done]. by apply list_elem_of_fmap_2.
Qed.

Lemma whole_member (kv : string * pyval) d :
  kv ∈ d -> whole_value (VDict d) -> whole_text (fst kv) /\ whole_value (snd kv).
Proof.
  intros Hkv Hw.
  assert (Hin : forall s, s ∈ fst kv :: texts_of (snd kv) -> whole_text s).
  { intros s Hs. apply Hw. cbn [texts_of]. apply elem_of_concat. exists (fst kv :: texts_of (snd kv)).
    split; [|done]. by apply (list_elem_of_fmap_2 (fun kv => fst kv :: texts_of (snd kv))). }
  split; [apply Hin; left|]. intros s Hs. apply Hin. by right.
Qed.

(** What precedes the torn part, in a list and in an object *)
Lemma torn_list l1 x l2 p w rest :
  Forall json_wf l1 -> Forall (fun v => float_free v = true) l1 ->
  Forall (fun v => separator_free_value v = true) l1 ->
  torn (json_compact x) p w rest ->
  exists rest', torn (json_compact (VList (l1 ++ x :: l2))) ("[" ++ commas (map json_compact l1) p) w rest'.
Proof.
  intros Hwf Hf Hs [Ht Hw Hr Hsafe Hstart Hun].
  destruct (join_split (map json_compact l1) (json_compact x) (map json_compact l2)) as [r Hj].
  exists (rest ++ r ++ "]"). split; [|done|by apply new_char_app| |by eexists _, _|by apply list_unfinished].
  - cbn [json_compact]. rewrite map_app. cbn [map]. rewrite Hj, Ht, !append_assoc, commas_app.
    by rewrite commas_app, !append_assoc.
  - apply line_safe_plain; [done|]. apply commas_safe; [|done].
    rewrite Forall_map. rewrite Forall_forall in *. intros v Hv. apply compact_safe; auto.
Qed.

Lemma torn_dict d1 k x d2 q w rest :
  NoDup (dkeys d1) -> Forall json_wf (dvalues d1) -> Forall (fun v => float_free v = true) (dvalues d1) ->
  Forall (fun kv => separator_free (fst kv) && separator_free_value (snd kv) = true) d1 ->
  member_text json_compact (k, x) = q ++ w ++ rest -> w ∈ wide_breaks -> new_char rest ->
  line_safe q = true -> text_start q -> bad_members q ->
  exists rest', torn (json_compact (VDict (d1 ++ (k, x) :: d2)))
                     ("{" ++ commas (map (member_text json_compact) d1) q) w rest'.
Proof.
  intros Hnd Hwf Hf Hs Ht Hw Hr Hsafe Hstart Hbad.
  destruct (join_split (map (member_text json_compact) d1) (member_text json_compact (k, x))
              (map (member_text json_compact) d2)) as [r Hj].
  exists (rest ++ r ++ "}"). split; [|done|by apply new_char_app| |by eexists _, _|by apply dict_unfinished].
  - rewrite compact_dict, map_app. cbn [map]. rewrite Hj, Ht, !append_assoc, commas_app.
    by rewrite commas_app, !append_assoc.
  - apply line_safe_plain; [done|]. apply commas_safe; [|done]. rewrite Forall_map.
    rewrite Forall_forall in Hs. rewrite Forall_forall in Hf. rewrite Forall_forall. intros [k' v] Hv.
    pose proof (Hs _ Hv) as [Hk Hv']%andb_prop. cbn [fst snd] in *. unfold member_text. cbn [fst snd].
    apply line_safe_app; [by apply string_safe| |done]. apply line_safe_plain; [done|].
    apply compact_safe; [|done]. apply Hf. unfold dvalues. apply list_elem_of_fmap. by exists (k', v).
Qed.

Lemma separator_tears v :
  json_wf v -> float_free v = true -> whole_value v -> separator_free_value v = false ->
  exists p w rest, torn (json_compact v) p w rest.
Proof.
  induction v as [|b|z|f|s|l IH|d IH] using pyval_nested_ind; intros Hwf Hf Hw Hs; try done.
  - cbn [json_compact]. destruct (torn_string s "") as (a & w & b & Ht); [apply Hw; left|done|].
    rewrite append_empty in Ht. eauto.
  - simpl in Hs. apply first_false in Hs as (l1 & x & l2 & -> & Hclean & Hx).
    apply json_wf_list in Hwf. apply Forall_app in Hwf as [Hwf1 [Hwfx _]%Forall_cons].
    simpl in Hf. rewrite forallb_app in Hf. apply andb_prop in Hf as [Hf1 [Hfx _]%andb_prop].
    apply Forall_app in IH as [_ [IHx _]%Forall_cons].
    destruct IHx as (p & w & rest & Ht); [done|done| |done|].
    { eapply whole_element; [|exact Hw]. apply elem_of_app. right. left. }
    destruct (torn_list l1 x l2 p w rest Hwf1) as [rest' Ht']; [|done|done|eauto].
    rewrite forallb_elem in Hf1. by apply Forall_forall.
  - simpl in Hs. apply first_false in Hs as (d1 & [k x] & d2 & -> & Hclean & Hx).
    apply json_wf_dict in Hwf as [Hd Hwf]. unfold dict_wf, dkeys, dvalues in *.
    rewrite map_app in Hd, Hwf, IH. cbn [map fst snd] in Hd, Hwf, IH.
    apply NoDup_app in Hd as (Hd & _). apply Forall_app in Hwf as [Hwf1 [Hwfx _]%Forall_cons].
    simpl in Hf. rewrite forallb_app in Hf. apply andb_prop in Hf as [Hf1 [Hfx _]%andb_prop].
    apply Forall_app in IH as [_ [IHx _]%Forall_cons].
    destruct (whole_member (k, x) _ (proj2 (elem_of_app _ _ _) (or_intror (list_elem_of_here _ _))) Hw)
      as [Hwk Hwx]. cbn [fst snd] in *.
    assert (Hf1' : Forall (fun v => float_free v = true) (map snd d1)).
    { rewrite Forall_map. rewrite forallb_elem in Hf1. by apply Forall_forall. }
    destruct (separator_free k) eqn:Ek.
    + destruct IHx as (p & w & rest & [Ht Hw' Hr Hsafe Hstart Hun]); [done..|].
      destruct (torn_dict d1 k x d2 (json_string k ++ ":" ++ p) w rest) as [rest' Ht']; try done; [|..|eauto].
      * unfold member_text. cbn [fst snd]. by rewrite Ht, !append_assoc.
      * apply line_safe_app; [by apply string_safe| |done]. by apply line_safe_plain.
      * by eexists _, _.
      * intros fuel acc Hfuel. by apply member_unfinished.
    + destruct (torn_string k (":" ++ json_compact x) Hwk Ek) as (a & w & b & [Ht Hw' Hr Hsafe Hstart Hun]).
      destruct (torn_dict d1 k x d2 (quote ++ json_escape a) w (json_escape b ++ quote ++ ":" ++ json_compact x))
        as [rest' Ht']; try done; [apply key_unfinished|eauto].
Qed.

(** ** Reading a file with such a record *)

Lemma split_at_wide chars w rest : forall line,
  (forall x, x ∈ chars -> mem_str x line_breaks = false) -> w ∈ wide_breaks ->
  split_chars line (chars ++ w :: rest) = (line ++ String.concat "" chars) :: split_chars "" rest.
Proof.
  induction chars as [|x chars IH]; intros line H Hw; cbn [app split_chars].
  - rewrite append_empty. unfold wide_breaks in Hw.
    repeat (apply elem_of_cons in Hw as [->|Hw]; [by destruct rest|]). by apply elem_of_nil in Hw.
  - rewrite H by left. rewrite IH by (done || (intros; apply H; by right)).
    rewrite append_assoc. f_equal. f_equal. destruct chars; [by rewrite append_empty|done].
Qed.

Lemma wide_char w : w ∈ wide_breaks -> utf8_chars w = [w].
Proof.
  unfold wide_breaks. intros H.
  repeat (apply elem_of_cons in H as [->|H]; [reflexivity|]). by apply elem_of_nil in H.
Qed.

Lemma splitlines_torn p w rest :
  line_safe p = true -> w ∈ wide_breaks -> new_char rest ->
  splitlines (p ++ w ++ rest) = p :: splitlines rest.
Proof.
  intros Hp Hw (c & r & -> & Hc). unfold splitlines. rewrite utf8_chars_app by by apply wide_start.
  rewrite utf8_chars_app by exact Hc. rewrite (wide_char w) by done. cbn [app].
  rewrite split_at_wide by (done || (intros; by eapply safe_chars)). by rewrite concat_chars.
Qed.

(** Records that are read back, and then the rest of the file *)
Lemma text_lines_app l t :
  Forall storable l -> char_start t ->
  text_lines (json_lines l ++ t) = (map json_compact l ++ text_lines t)%list.
Proof.
  unfold text_lines. intros Hl Ht. induction Hl as [|v l (Hd & Hwf & Hf & Hs) Hl IH]; [done|].
  rewrite json_lines_cons, !append_assoc, splitlines_cons.
  - destruct (compact_brace v Hd) as [r Hr]. cbn [List.filter map]. rewrite Hr at 1.
    rewrite brace_not_blank. cbn [negb]. by rewrite IH.
  - by apply compact_safe.
  - destruct l as [|w l]; [exact Ht|]. rewrite json_lines_cons.
    inversion Hl as [|? ? (Hdw & _)]; subst. by destruct (compact_brace w Hdw) as [r ->].
Qed.

(** A record with a separator: its first line is the beginning of its text, and is no
    JSON. *)
Lemma text_lines_torn v t :
  is_dict v = true -> readable v -> separator_free_value v = false ->
  exists p more, text_lines (json_compact v ++ t) = p :: more /\ json_loads p = Err ValueError.
Proof.
  intros Hd (Hwf & Hf & Hw) Hs. destruct (separator_tears v Hwf Hf Hw Hs) as (p & w & rest & [Ht Hw' Hr Hsafe Hstart Hun]).
  unfold text_lines.
  rewrite Ht, !append_assoc, (splitlines_torn p w (rest ++ t) Hsafe Hw' (new_char_app _ _ Hr)).
  destruct (compact_brace v Hd) as [r0 Hr0]. destruct Hstart as (c & r & -> & Hc).
  rewrite Hr0 in Ht. rewrite append_cons in Ht. injection Ht as <- _.
  exists (String "{" r), (List.filter (fun line => negb (blank line)) (splitlines (rest ++ t))).
  split; [cbn [List.filter]; by rewrite brace_not_blank|]. unfold json_loads.
  cbn [skip_space]. change (json_space "{") with false. cbn iota. by rewrite Hun by lia.
Qed.
