(* ===== verification/JsonlStore.v ===== *)
(** * The JSONL operation event store
    (session/operation_store.py, [JsonlOperationEventStore])

    The same contract as [InMemoryOperationEventStore] over the text of a file: every
    append reads the whole file, checks against what it read, and writes the new
    events as lines.  The store of [OperationStore] is its specification.  The write
    of the file and its [fsync] are one step that succeeds; what a crash or a full
    disk leaves is not modelled, and the class promises nothing for it. *)

From S2P Require Import Prelude PyDict Text PyVal Json JsonParse DurableAction Canonical.
From S2P Require Import OperationTypes OperationStore JsonLines Runtime.
From stdpp Require Import gmap.
From Stdlib Require Import String.

#[local] Open Scope string_scope.
#[local] Open Scope bool_scope.
#[local] Open Scope Z_scope.

(** The file's text, the next sequence number once an append has counted, and the
    claims *)
Record JsonlStore := mkJsonl {
  jl_text : string;
  jl_next_sequence : option Z;
  jl_claims : gmap (string * string) Claim
}.

(** [JsonlOperationEventStore(path)] on a file with this text, empty if missing *)
Definition open_jsonl (text : string) : JsonlStore := mkJsonl text None ∅.

(** ** Reading *)

(** [except (json.JSONDecodeError, TypeError, ValueError): raise ValueError] *)
Definition invalid_line {A : Type} (m : res A) : res A :=
  match m with Err (TypeError | ValueError) => Err ValueError | _ => m end.

(** One line of [_load_sync] *)
Definition load_line (events : list OperationEvent) (line : string) : res (list OperationEvent) :=
  let! e := invalid_line (let! raw := json_loads line in operation_event_from_dict raw) in
  if oe_sequence e <=? operation_last_sequence events then Err ValueError
  else Ok (events ++ [e])%list.

(** [_load_sync] *)
Definition load_sync (text : string) : res (list OperationEvent) :=
  foldM load_line [] (text_lines text).

(** [load] *)
Definition jsonl_load (js : JsonlStore) (session_id operation_id : option string)
  : res (list OperationEvent) :=
  let! events := load_sync (jl_text js) in
  Ok (store_load (mkStore events (jl_claims js)) session_id operation_id).

(** ** Appending *)

(** The loop over the batch: the sequence number it reaches, also when the
    constructor of an event raises, and the events *)
Fixpoint number_events (session_id operation_id : string) (now_ms next : Z) (specs : list EventSpec)
  : Z * res (list OperationEvent) :=
  match specs with
  | [] => (next, Ok [])
  | (ty, data) :: specs' =>
      match operation_event ty session_id operation_id next now_ms data with
      | Err e => (next, Err e)
      | Ok e =>
          let '(n, r) := number_events session_id operation_id now_ms (next + 1) specs' in
          (n, let! es := r in Ok (e :: es))
      end
  end.

(** [_append_many_sync] *)
Definition append_many (text : string) (events : list OperationEvent) : string :=
  text ++ json_lines (map (fun e => VDict (operation_event_to_dict e)) events).

(** The part both appends share, under the lock: the store, also when it raises, and
    the appended events *)
Definition append_locked (js : JsonlStore) (session_id operation_id : string)
    (specs : list EventSpec) (expected_last_sequence deadline_ms : option Z) (now_ms : Z)
  : JsonlStore * res (list OperationEvent) :=
  match (let! existing := load_sync (jl_text js) in
         let current := last_operation_sequence existing session_id operation_id in
         check! check_expected current expected_last_sequence in
         check! check_deadline now_ms deadline_ms in
         check! check_unique_operation_facts existing specs in
         Ok existing) with
  | Err e => (js, Err e)
  | Ok existing =>
      let next := match jl_next_sequence js with
                  | Some n => n
                  | None => match last existing with Some e => oe_sequence e + 1 | None => 0 end
                  end in
      let '(n, r) := number_events session_id operation_id now_ms next specs in
      match r with
      | Err e => (mkJsonl (jl_text js) (Some n) (jl_claims js), Err e)
      | Ok es => (mkJsonl (append_many (jl_text js) es) (Some n) (jl_claims js), Ok es)
      end
  end.

(** [append_batch] *)
Definition jsonl_append_batch (js : JsonlStore) (session_id operation_id : string)
    (specs : list EventSpec) (expected_last_sequence deadline_ms : option Z) (now_ms : Z)
  : JsonlStore * res (list OperationEvent) :=
  match validate_batch specs with
  | Err e => (js, Err e)
  | Ok _ => append_locked js session_id operation_id specs expected_last_sequence deadline_ms now_ms
  end.

(** [append] *)
Definition jsonl_append_event (js : JsonlStore) (ty session_id operation_id : string) (data : pydict)
    (now_ms : Z) : JsonlStore * res (list OperationEvent) :=
  jsonl_append_batch js session_id operation_id [(ty, data)] None None now_ms.

Definition set_jsonl_claims (js : JsonlStore) (claims : gmap (string * string) Claim) : JsonlStore :=
  mkJsonl (jl_text js) (jl_next_sequence js) claims.

(** [append_batch_if_fenced_claim] *)
Definition jsonl_append_batch_if_fenced_claim (js : JsonlStore) (session_id operation_id : string)
    (specs : list EventSpec) (lease : ClaimLease) (renew_lease_seconds : Z)
    (expected_last_sequence deadline_ms : option Z) (expected_claim_entity_id : option string)
    (now now_ms : Z) : JsonlStore * res (list OperationEvent) :=
  match (check! validate_batch specs in
         check! validate_claim (cl_claim_type lease) (cl_resource_id lease) (cl_owner_token lease)
                  renew_lease_seconds in
         check! validate_fenced_claim_scope lease session_id operation_id expected_claim_entity_id in
         if negb (claim_current (jl_claims js !! lease_key lease) lease now) then claim_lost
         else Ok tt) with
  | Err e => (js, Err e)
  | Ok _ =>
      match append_locked js session_id operation_id specs expected_last_sequence deadline_ms now_ms with
      | (js, Err e) => (js, Err e)
      | (js, Ok es) =>
          (set_jsonl_claims js
             (<[lease_key lease := mkClaim (cl_owner_token lease) (now + renew_lease_seconds)
                                     (cl_generation lease)]> (jl_claims js)), Ok es)
      end
  end.

(** ** Claims: the methods of [InMemoryOperationEventStore] word for word *)

Definition claims_of (js : JsonlStore) : Store := mkStore [] (jl_claims js).

Definition jsonl_acquire_fenced_claim (js : JsonlStore) (now : Z)
    (claim_type resource_id owner_token : string) (lease_seconds : Z)
  : res (option ClaimLease * JsonlStore) :=
  let! r := acquire_fenced_claim (claims_of js) now claim_type resource_id owner_token lease_seconds in
  Ok (fst r, set_jsonl_claims js (st_claims (snd r))).

Definition jsonl_try_acquire_claim (js : JsonlStore) (now : Z)
    (claim_type resource_id owner_token : string) (lease_seconds : Z) : res (bool * JsonlStore) :=
  let! r := try_acquire_claim (claims_of js) now claim_type resource_id owner_token lease_seconds in
  Ok (fst r, set_jsonl_claims js (st_claims (snd r))).

Definition jsonl_release_claim (js : JsonlStore) (claim_type resource_id owner_token : string)
  : JsonlStore :=
  set_jsonl_claims js (st_claims (release_claim (claims_of js) claim_type resource_id owner_token)).

Definition jsonl_renew_fenced_claim (js : JsonlStore) (now : Z) (lease : ClaimLease)
    (lease_seconds : Z) : res (bool * JsonlStore) :=
  let! r := renew_fenced_claim (claims_of js) now lease lease_seconds in
  Ok (fst r, set_jsonl_claims js (st_claims (snd r))).

Definition jsonl_verify_fenced_claim (js : JsonlStore) (now : Z) (lease : ClaimLease) : bool :=
  verify_fenced_claim (claims_of js) now lease.

Definition jsonl_release_fenced_claim (js : JsonlStore) (lease : ClaimLease) : JsonlStore :=
  set_jsonl_claims js (st_claims (release_fenced_claim (claims_of js) lease)).

(** One call of the interface *)
Definition run_jsonl_call (js : JsonlStore) (now now_ms : Z) (c : store_call) : JsonlStore :=
  let after {A : Type} (r : res (A * JsonlStore)) :=
    match r with Ok (_, js') => js' | Err _ => js end in
  match c with
  | CallAcquire ct r o secs => after (jsonl_acquire_fenced_claim js now ct r o secs)
  | CallTryAcquire ct r o secs => after (jsonl_try_acquire_claim js now ct r o secs)
  | CallRelease ct r o => jsonl_release_claim js ct r o
  | CallRenew l secs => after (jsonl_renew_fenced_claim js now l secs)
  | CallReleaseFenced l => jsonl_release_fenced_claim js l
  | CallAppend sid oid specs e d => fst (jsonl_append_batch js sid oid specs e d now_ms)
  | CallAppendFenced sid oid specs l renew e d entity =>
      fst (jsonl_append_batch_if_fenced_claim js sid oid specs l renew e d entity now now_ms)
  end.

Definition run_jsonl_calls (js : JsonlStore) (calls : list (Z * Z * store_call)) : JsonlStore :=
  fold_left (fun js '(now, now_ms, c) => run_jsonl_call js now now_ms c) calls js.

(** ** Files that hold a log *)

Definition event_value (e : OperationEvent) : pyval := VDict (operation_event_to_dict e).

(** An event its constructor accepts and a line can hold *)
Definition event_ok (e : OperationEvent) : Prop :=
  operation_event (oe_type e) (oe_session_id e) (oe_operation_id e) (oe_sequence e)
    (oe_timestamp e) (oe_data e) = Ok e /\ storable (event_value e).

Lemma event_round_trip e :
  operation_event (oe_type e) (oe_session_id e) (oe_operation_id e) (oe_sequence e)
    (oe_timestamp e) (oe_data e) = Ok e ->
  operation_event_from_dict (event_value e) = Ok e.
Proof.
  intros H. unfold event_value, operation_event_from_dict. simpl.
  unfold operation_event in H |- *. by destruct (negb _).
Qed.

Lemma last_sequence_positional events :
  positional events -> operation_last_sequence events = Z.of_nat (List.length events) - 1.
Proof.
  intros Hp. unfold operation_last_sequence. destruct (last events) as [e|] eqn:E.
  - rewrite last_lookup in E. rewrite (Hp _ _ E). apply lookup_lt_Some in E. lia.
  - apply last_None in E as ->. done.
Qed.

Lemma positional_prefix events more : positional (events ++ more) -> positional events.
Proof. intros H i e Hi. apply H. by apply lookup_app_l_Some. Qed.

Lemma load_lines events :
  Forall event_ok events -> positional events ->
  foldM load_line [] (map json_compact (map event_value events)) = Ok events.
Proof.
  induction events as [|e events IH] using rev_ind; intros Hok Hp; [done|].
  apply Forall_app in Hok as [Hok [He Hs]%Forall_singleton].
  pose proof (positional_prefix _ _ Hp) as Hp'.
  rewrite !map_app, foldM_app, IH by done. cbn [map foldM rbind]. unfold load_line at 1.
  destruct Hs as (_ & Hwf & Hf & _). rewrite json_loads_compact by done. cbn [rbind].
  rewrite event_round_trip by done. cbn [invalid_line rbind].
  rewrite last_sequence_positional by done.
  rewrite (Hp (List.length events) e); [|by rewrite lookup_app_r, Nat.sub_diag].
  rewrite (proj2 (Z.leb_gt _ _)) by lia. done.
Qed.

Lemma load_written events :
  Forall event_ok events -> positional events ->
  load_sync (json_lines (map event_value events)) = Ok events.
Proof.
  intros Hok Hp. unfold load_sync. rewrite lines_of_records.
  - by apply load_lines.
  - rewrite Forall_map. eapply Forall_impl; [exact Hok|]. by intros e [_ H].
Qed.

(** ** The file implements the list of events *)
Record jsonl_inv (js : JsonlStore) (s : Store) : Prop := {
  ji_text : jl_text js = json_lines (map event_value (st_events s));
  ji_ok : Forall event_ok (st_events s);
  ji_positional : positional (st_events s);
  ji_next : forall n, jl_next_sequence js = Some n -> n = Z.of_nat (List.length (st_events s));
  ji_claims : jl_claims js = st_claims s
}.

Lemma jsonl_loads js s : jsonl_inv js s -> load_sync (jl_text js) = Ok (st_events s).
Proof. intros [-> Hok Hp _ _]. by apply load_written. Qed.

(** What an event may hold to be read back *)
Definition spec_ok (spec : EventSpec) : Prop :=
  separator_free (fst spec) = true /\ storable (VDict (snd spec)).

Lemma created_ok sid oid n now_ms spec e :
  separator_free sid = true -> separator_free oid = true -> spec_ok spec ->
  operation_event (fst spec) sid oid n now_ms (snd spec) = Ok e -> event_ok e.
Proof.
  intros Hs Ho (Ht & _ & Hwf & Hf & Hd) H.
  assert (e = mkOperationEvent (fst spec) sid oid n now_ms (snd spec)) as ->.
  { unfold operation_event in H. by res_inv H. }
  split; [done|]. unfold event_value, operation_event_to_dict. cbn [oe_type oe_session_id
    oe_operation_id oe_sequence oe_timestamp oe_data]. split; [done|].
  split; [|split].
  - constructor; [apply (bool_decide_unpack _); vm_compute; done|].
    unfold dvalues. cbn [map snd]. apply json_wf_dict in Hwf as [Hw1 Hw2].
    repeat first [exact Hw1|exact Hw2|constructor].
  - simpl in Hf |- *. by rewrite Hf.
  - simpl in Hd |- *. by rewrite Hs, Ho, Ht, Hd.
Qed.

Lemma number_events_spec sid oid now_ms specs : forall events acc n r,
  separator_free sid = true -> separator_free oid = true -> Forall spec_ok specs ->
  forallb (fun spec => nonempty (fst spec)) specs = true ->
  number_events sid oid now_ms (Z.of_nat (List.length events)) specs = (n, r) ->
  match r with
  | Ok es => foldM (append_one sid oid now_ms) (events, acc) specs
             = Ok ((events ++ es)%list, (acc ++ es)%list) /\
             n = Z.of_nat (List.length (events ++ es)) /\ Forall event_ok es
  | Err e => foldM (append_one sid oid now_ms) (events, acc) specs = Err e /\
             n = Z.of_nat (List.length events)
  end.
Proof.
  induction specs as [|[ty data] specs IH]; intros events acc n r Hs Ho Hok Hty H;
    cbn [number_events] in H.
  { injection H as <- <-. by rewrite !app_nil_r. }
  apply Forall_cons in Hok as [Hsp Hok]. simpl in Hty. apply andb_prop in Hty as [Hty Htys].
  assert (Ha : append_one sid oid now_ms (events, acc) (ty, data)
    = let! e := operation_event ty sid oid (Z.of_nat (List.length events)) now_ms data in
      Ok ((events ++ [e])%list, (acc ++ [e])%list)) by reflexivity.
  cbn [foldM]. rewrite !Ha.
  destruct (operation_event ty sid oid _ now_ms data) as [e|x] eqn:E.
  - cbn [rbind]. replace (Z.of_nat (List.length events) + 1)
      with (Z.of_nat (List.length (events ++ [e]))) in H by (rewrite length_app; simpl; lia).
    destruct (number_events sid oid now_ms (Z.of_nat (List.length (events ++ [e]))) specs)
      as [n' r'] eqn:En. injection H as <- <-.
    specialize (IH (events ++ [e])%list (acc ++ [e])%list n' r' Hs Ho Hok Htys En).
    destruct r' as [es|x]; cbn [rbind].
    + destruct IH as (Hf & Hn & Hes). rewrite <- !app_assoc in Hf. cbn [app] in Hf.
      rewrite <- app_assoc in Hn. split; [done|]. split; [done|]. constructor; [|done].
      by apply (created_ok sid oid _ now_ms (ty, data)) in E.
    + exfalso. destruct IH as [Hf _].
      assert (Ho' : nonempty sid = true /\ nonempty oid = true).
      { unfold operation_event in E. destruct (nonempty ty), (nonempty sid), (nonempty oid); done. }
      destruct Ho' as [H1 H2].
      pose proof (append_loop_total sid oid now_ms specs (events ++ [e], acc ++ [e])%list H1 H2 Htys) as Ht.
      by rewrite Hf in Ht.
  - injection H as <- <-. done.
Qed.

(** The next sequence number is that of the list. *)
Lemma next_sequence js s :
  jsonl_inv js s ->
  match jl_next_sequence js with
  | Some n => n
  | None => match last (st_events s) with Some e => oe_sequence e + 1 | None => 0 end
  end = Z.of_nat (List.length (st_events s)).
Proof.
  intros [_ _ Hp Hn _]. destruct (jl_next_sequence js) as [n|]; [by apply Hn|].
  pose proof (last_sequence_positional _ Hp) as Hl. unfold operation_last_sequence in Hl.
  destruct (last (st_events s)); lia.
Qed.

(** An append of the file does what an append of the list does. *)
Lemma append_locked_refines js s sid oid specs expected deadline now_ms :
  jsonl_inv js s -> separator_free sid = true -> separator_free oid = true ->
  Forall spec_ok specs -> validate_batch specs = Ok tt ->
  exists js',
    match append_events (st_events s) sid oid specs expected deadline now_ms with
    | Ok (events, es) =>
        append_locked js sid oid specs expected deadline now_ms = (js', Ok es) /\
        jsonl_inv js' (mkStore events (st_claims s))
    | Err e => append_locked js sid oid specs expected deadline now_ms = (js', Err e) /\
               jsonl_inv js' s
    end.
Proof.
  intros Hi Hs Ho Hok Hv. unfold append_events, append_locked.
  rewrite (jsonl_loads js s Hi). cbn [rbind].
  destruct (check_expected _ expected) as [[]|e]; [|by exists js]. cbn [rbind].
  destruct (check_deadline now_ms deadline) as [[]|e]; [|by exists js]. cbn [rbind].
  destruct (check_unique_operation_facts _ specs) as [[]|e]; [|by exists js]. cbn [rbind].
  rewrite (next_sequence js s Hi). destruct Hi as [Htext Hev Hp Hn Hc].
  destruct (number_events sid oid now_ms (Z.of_nat (List.length (st_events s))) specs) as [n r] eqn:En.
  assert (Hty : forallb (fun spec => nonempty (fst spec)) specs = true).
  { unfold validate_batch in Hv. destruct (bool_decide _); [done|]. by destruct (forallb _ _). }
  pose proof (number_events_spec sid oid now_ms specs (st_events s) [] n r Hs Ho Hok Hty En) as Hr.
  destruct r as [es|e].
  - destruct Hr as (Hf & -> & Hes). rewrite Hf. cbn [app].
    eexists. split; [reflexivity|].
    apply append_loop_exact in Hf as [Hf _]. apply app_inv_head in Hf.
    split; cbn [jl_text jl_next_sequence jl_claims st_events st_claims].
    + unfold append_many. by rewrite Htext, <- json_lines_app, map_app.
    + by apply Forall_app.
    + rewrite Hf. by apply positional_append.
    + by intros n' [= <-].
    + done.
  - destruct Hr as [-> ->]. eexists. split; [reflexivity|]. split; try done. by intros n [= <-].
Qed.

(** ** Every call keeps the correspondence *)

(** The texts of a call can be written on one line and contain no float. *)
Definition storable_batch (session_id operation_id : string) (specs : list EventSpec) : Prop :=
  separator_free session_id = true /\ separator_free operation_id = true /\ Forall spec_ok specs.

Definition storable_call (c : store_call) : Prop :=
  match c with
  | CallAppend sid oid specs _ _ | CallAppendFenced sid oid specs _ _ _ _ _ =>
      storable_batch sid oid specs
  | _ => True
  end.

Lemma claims_changed js s claims :
  jsonl_inv js s -> jsonl_inv (set_jsonl_claims js claims) (mkStore (st_events s) claims).
Proof. by intros [? ? ? ? _]. Qed.

Lemma inv_same_store js s s' :
  jsonl_inv js s -> st_events s' = st_events s -> jsonl_inv (set_jsonl_claims js (st_claims s')) s'.
Proof. destruct s' as [ev c]. simpl. intros Hi ->. by apply claims_changed. Qed.

Lemma append_batch_refines js s sid oid specs e d now_ms :
  jsonl_inv js s -> storable_batch sid oid specs ->
  snd (jsonl_append_batch js sid oid specs e d now_ms)
  = (let! r := append_batch s sid oid specs e d now_ms in Ok (fst r)) /\
  jsonl_inv (fst (jsonl_append_batch js sid oid specs e d now_ms))
    (store_after s (append_batch s sid oid specs e d now_ms)).
Proof.
  intros Hi (Hs & Ho & Hok). unfold jsonl_append_batch, append_batch.
  destruct (validate_batch specs) as [[]|x] eqn:Ev; [|done]. cbn [rbind].
  destruct (append_locked_refines js s sid oid specs e d now_ms Hi Hs Ho Hok Ev) as (js' & H).
  destruct (append_events (st_events s) sid oid specs e d now_ms) as [[events es]|x];
    destruct H as [-> H]; split; done.
Qed.

Lemma fenced_append_refines js s sid oid specs lease renew e d entity now now_ms :
  jsonl_inv js s -> storable_batch sid oid specs ->
  snd (jsonl_append_batch_if_fenced_claim js sid oid specs lease renew e d entity now now_ms)
  = (let! r := append_batch_if_fenced_claim s sid oid specs lease renew e d entity now now_ms in
     Ok (fst r)) /\
  jsonl_inv (fst (jsonl_append_batch_if_fenced_claim js sid oid specs lease renew e d entity now now_ms))
    (store_after s (append_batch_if_fenced_claim s sid oid specs lease renew e d entity now now_ms)).
Proof.
  intros Hi (Hs & Ho & Hok).
  unfold jsonl_append_batch_if_fenced_claim, append_batch_if_fenced_claim.
  destruct (validate_batch specs) as [[]|x] eqn:Ev; [|done]. cbn [rbind].
  destruct (validate_claim _ _ _ renew) as [[]|x]; [|done]. cbn [rbind].
  destruct (validate_fenced_claim_scope _ _ _ _) as [[]|x]; [|done]. cbn [rbind].
  rewrite (ji_claims _ _ Hi). destruct (negb (claim_current _ lease now)); [done|].
  destruct (append_locked_refines js s sid oid specs e d now_ms Hi Hs Ho Hok Ev) as (js' & H).
  destruct (append_events (st_events s) sid oid specs e d now_ms) as [[events es]|x];
    destruct H as [-> H]; [|by split].
  split; [done|]. cbn [fst store_after snd rbind].
  rewrite (ji_claims _ _ H). by apply (claims_changed js' _ _).
Qed.

Lemma jsonl_call_refines js s now now_ms c :
  jsonl_inv js s -> storable_call c ->
  jsonl_inv (run_jsonl_call js now now_ms c) (run_store_call s now now_ms c).
Proof.
  intros Hi Hc. pose proof (ji_claims _ _ Hi) as Hcl.
  destruct c as [ct r o secs|ct r o secs|ct r o|l secs|l|sid oid specs e d
    |sid oid specs l renew e d entity]; cbn [run_jsonl_call run_store_call].
  - unfold jsonl_acquire_fenced_claim, acquire_fenced_claim, claims_of, set_claim. cbn [st_claims].
    rewrite Hcl. destruct (validate_claim _ _ _ _) as [[]|]; [|done]. cbn [rbind].
    assert (Hg : forall g, jsonl_inv
      match (let! r0 := (let! lease := claim_lease ct r o g in
               Ok (Some lease, mkStore [] (<[(ct, r):=mkClaim o (now + secs) g]> (st_claims s)))) in
             Ok (fst r0, set_jsonl_claims js (st_claims (snd r0)))) with
      | Ok (_, js') => js' | Err _ => js end
      (store_after s (let! lease := claim_lease ct r o g in
         Ok (Some lease, mkStore (st_events s) (<[(ct, r):=mkClaim o (now + secs) g]> (st_claims s)))))).
    { intros g. destruct (claim_lease ct r o g); [|done]. by apply claims_changed. }
    destruct (st_claims s !! (ct, r)) as [c|]; [|apply Hg].
    destruct (now <? cm_expiry c); [|apply Hg]. destruct (negb _); [|apply Hg].
    cbn. rewrite <- Hcl. by destruct js, Hi.
  - unfold jsonl_try_acquire_claim, try_acquire_claim, claims_of, set_claim. cbn [st_claims].
    rewrite Hcl. destruct (validate_claim _ _ _ _) as [[]|]; [|done]. cbn [rbind].
    destruct (st_claims s !! (ct, r)) as [c|]; [|by apply claims_changed].
    destruct (negb _ && _); [|by apply claims_changed]. cbn. rewrite <- Hcl. by destruct js, Hi.
  - unfold jsonl_release_claim, release_claim, claims_of, set_claim. cbn [st_claims]. rewrite Hcl.
    destruct (st_claims s !! (ct, r)) as [c|]; [|exact (inv_same_store js s s Hi eq_refl)].
    destruct (String.eqb _ _); [by apply claims_changed|exact (inv_same_store js s s Hi eq_refl)].
  - unfold jsonl_renew_fenced_claim, renew_fenced_claim, claims_of, set_claim. cbn [st_claims].
    rewrite Hcl. destruct (validate_claim _ _ _ _) as [[]|]; [|done]. cbn [rbind].
    destruct (negb _); [|by apply claims_changed]. cbn. rewrite <- Hcl. by destruct js, Hi.
  - unfold jsonl_release_fenced_claim, release_fenced_claim, claims_of, set_claim. cbn [st_claims].
    rewrite Hcl. destruct (st_claims s !! lease_key l) as [c|]; [|exact (inv_same_store js s s Hi eq_refl)].
    destruct (_ && _); [by apply claims_changed|exact (inv_same_store js s s Hi eq_refl)].
  - by apply append_batch_refines.
  - by apply fenced_append_refines.
Qed.

Lemma empty_file_inv : jsonl_inv (open_jsonl "") empty_store.
Proof. split; try done. Qed.

Lemma jsonl_calls_refine calls : forall js s,
  jsonl_inv js s -> Forall (fun c => storable_call (snd c)) calls ->
  jsonl_inv (run_jsonl_calls js calls) (run_store_calls s calls).
Proof.
  induction calls as [|[[now now_ms] c] calls IH]; intros js s Hi Hc; [done|].
  apply Forall_cons in Hc as [Hc Hcs]. apply IH; [|done]. by apply jsonl_call_refines.
Qed.

(** C36. The JSONL store implements the in-memory one: after any calls with texts
    free of line separators and data free of floats, reading the file returns the
    events the in-memory store holds - also for a store opened again on the file -,
    leases have the same standing, and the next append returns the same events or
    raises the same exception. *)
Theorem jsonl_store_refines_memory calls :
  Forall (fun c => storable_call (snd c)) calls ->
  let js := run_jsonl_calls (open_jsonl "") calls in
  let s := run_store_calls empty_store calls in
  (forall sid oid, jsonl_load js sid oid = Ok (store_load s sid oid) /\
                   jsonl_load (open_jsonl (jl_text js)) sid oid = Ok (store_load s sid oid)) /\
  (forall now lease, jsonl_verify_fenced_claim js now lease = verify_fenced_claim s now lease) /\
  (forall sid oid specs e d now_ms, storable_batch sid oid specs ->
     snd (jsonl_append_batch js sid oid specs e d now_ms)
     = let! r := append_batch s sid oid specs e d now_ms in Ok (fst r)).
Proof.
  intros Hc js s. pose proof (jsonl_calls_refine calls _ _ empty_file_inv Hc) as Hi.
  fold js s in Hi. split_and!.
  - intros sid oid. unfold jsonl_load. cbn [jl_text open_jsonl].
    by rewrite (jsonl_loads _ _ Hi).
  - intros now lease. unfold jsonl_verify_fenced_claim, verify_fenced_claim, claims_of. cbn [st_claims].
    by rewrite (ji_claims _ _ Hi).
  - intros sid oid specs e d now_ms Hb. by apply append_batch_refines.
Qed.

(** ** Instances *)
Definition tool_call (note : string) : EventSpec :=
  ("tool_finished", [("toolCallId", VStr "call-1"); ("note", VStr note)]).

Definition start_call : EventSpec := ("operation_started", [("kind", VStr "agent")]).

Definition two_appends : list (Z * Z * store_call) :=
  [(0, 1000, CallAppend "session-1" "op-1" [start_call] None None);
   (1, 1001, CallAppend "session-1" "op-1" [tool_call "done"] (Some 0) None)].

Lemma tool_call_ok note : separator_free note = true -> spec_ok (tool_call note).
Proof.
  intros H. split; [reflexivity|]. split; [reflexivity|]. split; [|split; [reflexivity|]].
  - constructor; [apply (bool_decide_unpack _); vm_compute; exact I|repeat constructor].
  - simpl. by rewrite H.
Qed.

Lemma start_call_ok : spec_ok start_call.
Proof.
  split; [reflexivity|]. split; [reflexivity|]. split; [|split; reflexivity].
  constructor; [apply (bool_decide_unpack _); vm_compute; exact I|repeat constructor].
Qed.

Lemma jsonl_store_refines_memory_witness :
  jsonl_load (run_jsonl_calls (open_jsonl "") two_appends) (Some "session-1") None
  = Ok (store_load (run_store_calls empty_store two_appends) (Some "session-1") None) /\
  List.length (st_events (run_store_calls empty_store two_appends)) = 2%nat.
Proof.
  split; [|vm_compute; reflexivity].
  refine (proj1 (proj1 (jsonl_store_refines_memory two_appends _) (Some "session-1") None)).
  constructor; [|constructor; [|constructor]]; (split; [reflexivity|]; split; [reflexivity|]);
    (constructor; [|constructor]); [exact start_call_ok|apply tool_call_ok; reflexivity].
Defined.

(** ** An unreadable file stays unreadable *)

Lemma unreadable_append js sid oid specs e d now_ms :
  load_sync (jl_text js) = Err ValueError ->
  append_locked js sid oid specs e d now_ms = (js, Err ValueError).
Proof. intros H. unfold append_locked. by rewrite H. Qed.

Lemma unreadable_batch js sid oid specs e d now_ms :
  load_sync (jl_text js) = Err ValueError ->
  jsonl_append_batch js sid oid specs e d now_ms = (js, Err ValueError).
Proof.
  intros H. unfold jsonl_append_batch, validate_batch. repeat case_match; simplify_eq; try done.
  by apply unreadable_append.
Qed.

Lemma unreadable_call js now now_ms c :
  load_sync (jl_text js) = Err ValueError -> jl_text (run_jsonl_call js now now_ms c) = jl_text js.
Proof.
  intros H. destruct c; cbn [run_jsonl_call].
  - unfold jsonl_acquire_fenced_claim. by destruct (acquire_fenced_claim _ _ _ _ _ _).
  - unfold jsonl_try_acquire_claim. by destruct (try_acquire_claim _ _ _ _ _ _).
  - done.
  - unfold jsonl_renew_fenced_claim. by destruct (renew_fenced_claim _ _ _ _).
  - done.
  - by rewrite unreadable_batch.
  - unfold jsonl_append_batch_if_fenced_claim. case_match; [|done]. by rewrite unreadable_append.
Qed.

Lemma unreadable_calls later : forall js,
  load_sync (jl_text js) = Err ValueError -> jl_text (run_jsonl_calls js later) = jl_text js.
Proof.
  induction later as [|[[now now_ms] c] later IH]; intros js H; [done|].
  cbn [run_jsonl_calls fold_left]. pose proof (unreadable_call js now now_ms c H) as E.
  etrans; [|exact E]. apply IH. by rewrite E.
Qed.

(** What an append writes, whatever its texts hold *)
Lemma number_events_exact sid oid now_ms specs : forall next n es,
  number_events sid oid now_ms next specs = (n, Ok es) ->
  Forall (fun e => operation_event (oe_type e) (oe_session_id e) (oe_operation_id e) (oe_sequence e)
                     (oe_timestamp e) (oe_data e) = Ok e) es /\
  forall i e, es !! i = Some e -> oe_sequence e = next + Z.of_nat i.
Proof.
  induction specs as [|[ty data] specs IH]; intros next n es H; cbn [number_events] in H.
  - by injection H as <- <-.
  - destruct (operation_event ty sid oid next now_ms data) as [e|] eqn:E; [|done].
    destruct (number_events _ _ _ _ specs) as [n' [es'|]] eqn:En; [|done]. injection H as <- <-.
    destruct (IH _ _ _ En) as [Hok Hseq].
    assert (e = mkOperationEvent ty sid oid next now_ms data) as -> by (unfold operation_event in E; by res_inv E).
    split; [by constructor|]. intros [|i] x Hx; cbn in Hx; [injection Hx as <-; cbn; lia|].
    rewrite (Hseq i x Hx). lia.
Qed.

(** A file whose last append holds an event with a separator *)
Lemma torn_file old es :
  Forall event_ok old -> positional (old ++ es) ->
  Forall (fun e => operation_event (oe_type e) (oe_session_id e) (oe_operation_id e) (oe_sequence e)
                     (oe_timestamp e) (oe_data e) = Ok e) es ->
  Forall (fun e => readable (event_value e)) es ->
  Exists (fun e => separator_free_value (event_value e) = false) es ->
  load_sync (json_lines (map event_value (old ++ es))) = Err ValueError.
Proof.
  intros Hold Hpos Hes Hr Hx.
  assert (Hb : forallb (fun e => separator_free_value (event_value e)) es = false).
  { apply not_true_iff_false. rewrite forallb_elem. intros H. apply Exists_exists in Hx as (e & He & Hs).
    specialize (H e He). congruence. }
  apply first_false in Hb as (es1 & e & es2 & -> & Hclean & He).
  apply Forall_app in Hes as [Hes1 _]. apply Forall_app in Hr as [Hr1 [Hre _]%Forall_cons].
  assert (Hgood : Forall event_ok (old ++ es1)).
  { apply Forall_app. split; [done|]. rewrite !Forall_forall in *. intros x Hx1.
    destruct (Hr1 x Hx1) as (Hwf & Hf & _). split; [by apply Hes1|]. split_and!; auto. }
  assert (Hst : Forall storable (map event_value (old ++ es1))).
  { rewrite Forall_map. eapply Forall_impl; [exact Hgood|]. by intros x [_ H]. }
  unfold load_sync. rewrite app_assoc, map_app, json_lines_app. cbn [map]. rewrite json_lines_cons.
  destruct (text_lines_torn (event_value e) (line_feed ++ json_lines (map event_value es2)))
    as (p & more & Hlines & Hp); [done..|].
  rewrite text_lines_app, Hlines; [|done|by destruct (compact_brace (event_value e) eq_refl) as [r ->]].
  rewrite foldM_app, load_lines; [|done|].
  - cbn [rbind foldM]. unfold load_line at 1. by rewrite Hp.
  - rewrite app_assoc in Hpos. by apply positional_prefix in Hpos.
Qed.

(** C40. One event whose text holds a line separator - U+0085, U+2028 or U+2029, in its
    data, its type or an identifier - makes the store unreadable for ever: whatever was
    in the store, such an event is accepted and written, but from then on, whatever calls
    follow, nothing more is written and every load and every append raises, on the events
    of all operations, and also after a restart. *)
Theorem line_separator_makes_store_unreadable calls sid oid specs expected deadline now_ms js es later :
  Forall (fun c => storable_call (snd c)) calls ->
  jsonl_append_batch (run_jsonl_calls (open_jsonl "") calls) sid oid specs expected deadline now_ms
  = (js, Ok es) ->
  Forall (fun e => readable (event_value e)) es ->
  Exists (fun e => separator_free_value (event_value e) = false) es ->
  let js' := run_jsonl_calls js later in
  jl_text js' = jl_text js /\
  (forall s o, jsonl_load js' s o = Err ValueError /\
               jsonl_load (open_jsonl (jl_text js')) s o = Err ValueError) /\
  (forall s o specs' e d now_ms', jsonl_append_batch js' s o specs' e d now_ms' = (js', Err ValueError)).
Proof.
  intros Hcalls Happ Hr Hx js'.
  pose proof (jsonl_calls_refine calls _ _ empty_file_inv Hcalls) as Hi.
  set (js0 := run_jsonl_calls (open_jsonl "") calls) in *.
  set (st := run_store_calls empty_store calls) in *.
  assert (Hbad : load_sync (jl_text js) = Err ValueError).
  { unfold jsonl_append_batch in Happ. destruct (validate_batch specs); [|done].
    unfold append_locked in Happ. rewrite (jsonl_loads js0 st Hi) in Happ. cbn [rbind] in Happ.
    destruct (check_expected _ _); [|done]. cbn [rbind] in Happ.
    destruct (check_deadline _ _); [|done]. cbn [rbind] in Happ.
    destruct (check_unique_operation_facts _ _); [|done]. cbn [rbind] in Happ.
    rewrite (next_sequence js0 st Hi) in Happ.
    destruct (number_events _ _ _ _ specs) as [n [es'|]] eqn:En; [|done]. injection Happ as <- <-.
    apply number_events_exact in En as [Hok Hseq]. destruct Hi as [Htext Hev Hp _ _].
    cbn [jl_text]. unfold append_many. rewrite Htext, <- json_lines_app.
    change (map (fun e => VDict (operation_event_to_dict e)) es') with (map event_value es').
    rewrite <- map_app. apply torn_file; try done. intros i e Hie.
    apply lookup_app_Some in Hie as [Hie|[Hle Hie]]; [by apply Hp|]. rewrite (Hseq _ _ Hie). lia. }
  pose proof (unreadable_calls later js Hbad) as Htext. fold js' in Htext.
  assert (Hbad' : load_sync (jl_text js') = Err ValueError) by by rewrite Htext.
  split; [done|]. split; [|intros; by apply unreadable_batch].
  intros s o. unfold jsonl_load. cbn [open_jsonl jl_text]. by rewrite Hbad'.
Qed.

Definition broken_append : JsonlStore * res (list OperationEvent) :=
  jsonl_append_batch (run_jsonl_calls (open_jsonl "") two_appends) "session-1" "op-1"
    [tool_call separator_text] None None 1002.

(** A text without separators is whole, and so is the one with U+2028. *)
Lemma separator_free_whole s : separator_free s = true -> whole_text s.
Proof.
  intros Hs a w b -> Hw. exfalso. induction a as [|c a IH].
  - change ("" ++ ?x) with x in Hs. assert (Hp : starts_wide (w ++ b) = true).
    { apply starts_wide_spec. exists w. split; [done|]. apply prefix_self. }
    destruct (w ++ b) as [|c r] eqn:E; [by vm_compute in Hp|]. cbn [separator_free] in Hs. by rewrite Hp in Hs.
  - rewrite append_cons in Hs. cbn [separator_free] in Hs. apply andb_prop in Hs as [_ Hs]. by apply IH.
Qed.

Lemma separator_is_whole : whole_text separator_text.
Proof.
  intros a w b Ht Hw. unfold wide_breaks in Hw.
  apply elem_of_cons in Hw as [->|[->|[->|Hw]%elem_of_cons]%elem_of_cons]; [..|by apply elem_of_nil in Hw];
    destruct a as [|a1 [|a2 [|a3 [|a4 [|a5 a]]]]]; vm_compute in Ht; try discriminate Ht.
  all: try (injection Ht; intros; subst; reflexivity).
  all: destruct a; discriminate Ht.
Qed.

Lemma line_separator_makes_store_unreadable_witness :
  is_ok (snd broken_append) = true /\
  jsonl_load (run_jsonl_calls (fst broken_append) two_appends) None None = Err ValueError.
Proof.
  split; [vm_compute; reflexivity|].
  refine (proj1 (proj1 (proj2 (line_separator_makes_store_unreadable two_appends "session-1" "op-1"
    [tool_call separator_text] None None 1002 (fst broken_append)
    [mkOperationEvent "tool_finished" "session-1" "op-1" 2 1002
       [("toolCallId", VStr "call-1"); ("note", VStr separator_text)]] two_appends _ _ _ _)) None None)).
  - constructor; [|constructor; [|constructor]]; (split; [reflexivity|]; split; [reflexivity|]);
      (constructor; [|constructor]); [exact start_call_ok|apply tool_call_ok; reflexivity].
  - vm_compute. reflexivity.
  - constructor; [|constructor]. split; [|split; [reflexivity|]].
    + constructor; [apply (bool_decide_unpack _); vm_compute; exact I|].
      repeat constructor; apply (bool_decide_unpack _); vm_compute; exact I.
    + intros s. revert s. apply Forall_forall.
      repeat (apply Forall_cons; split; [first [apply separator_free_whole; reflexivity|exact separator_is_whole]|]).
      constructor.
  - constructor. vm_compute. reflexivity.
Defined.

(** * The JSONL runtime event store  (session/jsonl.py)

    [JsonlRuntimeEventStore]: the runtime log of [Runtime] over the text of a file,
    read in full before every append. *)

(** One line of [_load_sync] *)
Definition load_runtime_line (line : string) : res RuntimeEvent :=
  invalid_line (let! value := json_loads line in runtime_event_from_dict value).

(** [_load_sync], and [load] *)
Definition runtime_load_sync (text : string) : res (list RuntimeEvent) :=
  mapR load_runtime_line (text_lines text).

(** [append_cas]: the file's text after the append *)
Definition jsonl_append_cas (text : string) (e : RuntimeEvent) (expected : Z) : res string :=
  let! events := runtime_load_sync text in
  let current := last_sequence events in
  if negb (current =? expected) || negb (re_sequence e =? current + 1)
  then Err RuntimeStoreConflictError
  else Ok (text ++ json_lines [VDict (runtime_event_to_dict e)]).

(** [append] *)
Definition jsonl_runtime_append (text : string) (e : RuntimeEvent) : res string :=
  let! events := runtime_load_sync text in
  jsonl_append_cas text e (last_sequence events).

(** ** The file implements the list of events *)

Definition runtime_value (e : RuntimeEvent) : pyval := VDict (runtime_event_to_dict e).

(** An event of a known type that its constructor accepts and a line can hold *)
Definition runtime_event_ok (e : RuntimeEvent) : Prop :=
  runtime_event (re_type e) (re_run_id e) (re_sequence e) (re_timestamp e) (re_data e) = Ok e /\
  known_event_type (re_type e) = true /\ storable (runtime_value e).

Lemma load_runtime_value e :
  runtime_event_ok e -> load_runtime_line (json_compact (runtime_value e)) = Ok e.
Proof.
  intros (He & Hty & _ & Hwf & Hf & _). unfold load_runtime_line.
  rewrite json_loads_compact by done. cbn [rbind]. unfold runtime_value, runtime_event_from_dict.
  simpl. rewrite Hty. cbn [negb]. by rewrite He.
Qed.

Lemma runtime_load_written events :
  Forall runtime_event_ok events ->
  runtime_load_sync (json_lines (map runtime_value events)) = Ok events.
Proof.
  intros Hok. unfold runtime_load_sync. rewrite lines_of_records.
  - apply mapR_Ok. rewrite map_map. induction Hok as [|e events He _ IH]; constructor; [|done].
    by apply load_runtime_value.
  - rewrite Forall_map. eapply Forall_impl; [exact Hok|]. by intros e (_ & _ & H).
Qed.

Lemma jsonl_append_refines events e expected :
  Forall runtime_event_ok events -> runtime_event_ok e ->
  match append_cas events e expected with
  | Ok events' =>
      jsonl_append_cas (json_lines (map runtime_value events)) e expected
      = Ok (json_lines (map runtime_value events')) /\ Forall runtime_event_ok events'
  | Err x => jsonl_append_cas (json_lines (map runtime_value events)) e expected = Err x
  end.
Proof.
  intros Hok He. unfold append_cas, jsonl_append_cas. rewrite runtime_load_written by done.
  cbn [rbind]. destruct (negb _ || negb _); [done|]. split.
  - by rewrite map_app, json_lines_app.
  - apply Forall_app. split; [done|]. by constructor.
Qed.

(** A sequence of conditional appends, those that conflict leaving the store as it
    is: on the list, and on the file *)
Definition run_appends (events : list RuntimeEvent) (l : list (RuntimeEvent * Z)) : list RuntimeEvent :=
  fold_left (fun s '(e, n) => match append_cas s e n with Ok s' => s' | Err _ => s end) l events.

Definition run_file_appends (text : string) (l : list (RuntimeEvent * Z)) : string :=
  fold_left (fun t '(e, n) => match jsonl_append_cas t e n with Ok t' => t' | Err _ => t end) l text.

(** After any conditional appends of events whose texts are free of line separators
    and whose data is free of floats, the file is read back as the list that the
    in-memory store holds. *)
Theorem runtime_file_refines_memory l :
  Forall (fun x => runtime_event_ok (fst x)) l ->
  runtime_load_sync (run_file_appends "" l) = Ok (run_appends [] l).
Proof.
  intros Hl.
  assert (H : forall events, Forall runtime_event_ok events ->
    exists events', run_appends events l = events' /\ Forall runtime_event_ok events' /\
      run_file_appends (json_lines (map runtime_value events)) l
      = json_lines (map runtime_value events')).
  { induction Hl as [|[e n] l He _ IH]; intros events Hok; [by exists events|].
    cbn [run_appends run_file_appends fold_left]. cbn [fst] in He.
    pose proof (jsonl_append_refines events e n Hok He) as Ha.
    destruct (append_cas events e n) as [events'|x].
    - destruct Ha as [-> Hok']. by apply IH.
    - rewrite Ha. by apply IH. }
  destruct (H [] (Forall_nil_2 _)) as (events' & -> & Hok & Ht).
  change (json_lines (map runtime_value [])) with "" in Ht. rewrite Ht.
  by apply runtime_load_written.
Qed.
