(* ===== verification/SseDecoder.v ===== *)
(** * Server-sent events  (src/.../providers/sse.py)

    The decoder takes the bytes of a response in chunks of any size and gives the data
    of its events.  Bytes are lists of characters; a decoded line is the bytes it was
    decoded from.  An exception ends the stream: the decoder is not used after one, so
    its state is then dropped. *)

From S2P Require Import Prelude PyVal.
From Stdlib Require Import String Ascii.

#[local] Open Scope bool_scope.
#[local] Open Scope Z_scope.

Definition Bytes : Type := list ascii.

Definition CR : ascii := ascii_of_N 13.
Definition LF : ascii := ascii_of_N 10.
Definition COLON : ascii := ":"%char.
Definition SPACE : ascii := " "%char.

(** [len] of bytes *)
Definition size (b : Bytes) : Z := Z.of_nat (List.length b).

Definition is_newline (c : ascii) : bool := Ascii.eqb c CR || Ascii.eqb c LF.

(** [_NEWLINE_RE.search(b, start)] *)
Fixpoint newline_index (b : Bytes) : option nat :=
  match b with
  | [] => None
  | c :: b' => if is_newline c then Some O else option_map S (newline_index b')
  end.
Definition find_newline (b : Bytes) (start : nat) : option nat :=
  option_map (Nat.add start) (newline_index (skipn start b)).

(** [b.endswith(b"\r")] *)
Definition ends_with_cr (b : Bytes) : bool :=
  match last b with Some c => Ascii.eqb c CR | None => false end.

(** ** Strict UTF-8 *)

Definition in_range (low high : N) (c : ascii) : bool :=
  (N.leb low (N_of_ascii c) && N.leb (N_of_ascii c) high)%bool.
Definition tail_byte : ascii -> bool := in_range 128 191.

(** What may follow a lead byte of three or four bytes *)
Definition second_byte (lead next : ascii) : bool :=
  let n := N_of_ascii lead in
  if N.eqb n 224 then in_range 160 191 next
  else if N.eqb n 237 then in_range 128 159 next
  else if N.eqb n 240 then in_range 144 191 next
  else if N.eqb n 244 then in_range 128 143 next
  else tail_byte next.

(** [line.decode("utf-8", errors="strict")] succeeds. *)
Fixpoint valid_utf8 (b : Bytes) : bool :=
  match b with
  | [] => true
  | c :: b1 =>
      if in_range 0 127 c then valid_utf8 b1
      else match b1 with
           | [] => false
           | c1 :: b2 =>
               if in_range 194 223 c then tail_byte c1 && valid_utf8 b2
               else match b2 with
                    | [] => false
                    | c2 :: b3 =>
                        if in_range 224 239 c
                        then second_byte c c1 && tail_byte c2 && valid_utf8 b3
                        else match b3 with
                             | [] => false
                             | c3 :: b4 =>
                                 in_range 240 244 c && second_byte c c1 && tail_byte c2
                                 && tail_byte c3 && valid_utf8 b4
                             end
                    end
           end
  end.

(** ** The limits *)

Record SSELimits := mkLimits {
  max_line_bytes : Z;
  max_event_bytes : Z;
  max_total_bytes : Z;
  max_events : Z
}.

(** [_positive_limit] *)
Definition positive_limit (value : pyval) : res Z :=
  match value with
  | VInt n => if 0 <? n then Ok n else Err ValueError
  | _ => Err ValueError
  end.

(** The checks of the constructor *)
Definition sse_limits (line event total events : pyval) : res SSELimits :=
  let! line := positive_limit line in
  let! event := positive_limit event in
  let! total := positive_limit total in
  let! events := positive_limit events in
  if total <? event then Err ValueError else
  if total <? line then Err ValueError else
  Ok (mkLimits line event total events).

Definition DEFAULT_MAX_SSE_LINE_BYTES : Z := 2 * 1024 * 1024.
Definition DEFAULT_MAX_SSE_EVENT_BYTES : Z := 4 * 1024 * 1024.
Definition DEFAULT_MAX_SSE_TOTAL_BYTES : Z := 64 * 1024 * 1024.
Definition DEFAULT_MAX_SSE_EVENTS : Z := 100000.

(** ** The decoder *)

(** The event being collected, and how many were given *)
Record Pending := mkPending {
  pn_data_lines : list Bytes;
  pn_event_bytes : Z;
  pn_events_emitted : Z
}.

Record SSEDecoder := mkDecoder {
  sd_buffer : Bytes;
  sd_line_start : nat;
  sd_search_from : nat;
  sd_total_bytes : Z;
  sd_pending : Pending
}.

Definition initial_pending : Pending := mkPending [] 0 0.
Definition initial_decoder : SSEDecoder := mkDecoder [] 0 0 0 initial_pending.

(** ["\n".join(lines)] *)
Fixpoint join_lines (lines : list Bytes) : Bytes :=
  match lines with
  | [] => []
  | [l] => l
  | l :: lines' => (l ++ LF :: join_lines lines')%list
  end.

Section Decoding.
Context (L : SSELimits).

(** The pending event and the events of this call *)
Definition Decoded : Type := Pending * list Bytes.

Definition protocol_error {A : Type} : res A := Err ProviderProtocolError.

(** [_emit_pending_event] *)
Definition emit_pending_event (s : Decoded) : res Decoded :=
  let (p, events) := s in
  let emitted := pn_events_emitted p + 1 in
  if max_events L <? emitted then protocol_error else
  Ok (mkPending [] 0 emitted, (events ++ [join_lines (pn_data_lines p)])%list).

(** [line.partition(":")]: the field, and the value after a separator *)
Fixpoint partition_colon (line : Bytes) : Bytes * option Bytes :=
  match line with
  | [] => ([], None)
  | c :: line' =>
      if Ascii.eqb c COLON then ([], Some line')
      else let (field, value) := partition_colon line' in (c :: field, value)
  end.

(** The value of a data line, without one leading space *)
Definition field_value (value : option Bytes) : Bytes :=
  match value with
  | Some (c :: v) => if Ascii.eqb c SPACE then v else c :: v
  | Some [] | None => []
  end.

(** [_process_line] *)
Definition process_line (line : Bytes) (s : Decoded) : res Decoded :=
  let (p, events) := s in
  match line with
  | [] => if bool_decide (pn_data_lines p = []) then Ok s else emit_pending_event s
  | c :: _ =>
      if Ascii.eqb c COLON then Ok s else
      let (field, value) := partition_colon line in
      if negb (bool_decide (field = list_ascii_of_string "data")) then Ok s else
      let value := field_value value in
      let candidate := pn_event_bytes p + size value
                       + (if bool_decide (pn_data_lines p = []) then 0 else 1) in
      if max_event_bytes L <? candidate then protocol_error else
      Ok (mkPending (pn_data_lines p ++ [value])%list candidate (pn_events_emitted p), events)
  end.

(** [_assert_line_limit], [_decode_line] and [_process_line] *)
Definition take_line (s : Decoded) (line : Bytes) : res Decoded :=
  if max_line_bytes L <? size line then protocol_error else
  if negb (valid_utf8 line) then protocol_error else
  process_line line s.

(** [_assert_pending_line_limit] on the whole buffer *)
Definition assert_pending_line_limit (buffer : Bytes) : res unit :=
  if max_line_bytes L <? size buffer - (if ends_with_cr buffer then 1 else 0)
  then protocol_error else Ok tt.

Definition byte_at (b : Bytes) (i : nat) : option ascii := nth_error b i.

(** The loop of [_consume_complete_lines]: the cursors and what was decoded *)
Fixpoint consume_loop (fuel : nat) (final : bool) (buffer : Bytes) (start from : nat)
    (s : Decoded) : res (nat * nat * Decoded) :=
  match fuel with
  | O => Err OutsideModel
  | S fuel' =>
      if negb (start <? List.length buffer)%nat then Ok (start, from, s) else
      match find_newline buffer from with
      | None =>
          if final then
            let! s' := take_line s (skipn start buffer) in
            Ok (List.length buffer, List.length buffer, s')
          else Ok (start, List.length buffer, s)
      | Some at_ =>
          let cr := bool_decide (byte_at buffer at_ = Some CR) in
          if cr && Nat.eqb at_ (List.length buffer - 1) && negb final then
            check! assert_pending_line_limit buffer in
            Ok (start, at_, s)
          else
            let newline_size :=
              if cr && bool_decide (byte_at buffer (at_ + 1) = Some LF) then 2%nat else 1%nat in
            let line := skipn start (firstn at_ buffer) in
            let! s' := take_line s line in
            consume_loop fuel' final buffer (at_ + newline_size) (at_ + newline_size) s'
      end
  end.

(** [_compact_processed_bytes] *)
Definition compact (d : SSEDecoder) : SSEDecoder :=
  if Nat.eqb (sd_line_start d) 0 then d else
  mkDecoder (skipn (sd_line_start d) (sd_buffer d)) 0 (sd_search_from d - sd_line_start d)
    (sd_total_bytes d) (sd_pending d).

(** [_consume_complete_lines]; every round passes a newline, so as many rounds as there
    are bytes, and one more, are enough. *)
Definition consume_complete_lines (final : bool) (d : SSEDecoder) : res (SSEDecoder * list Bytes) :=
  let! out := consume_loop (S (List.length (sd_buffer d))) final (sd_buffer d) (sd_line_start d)
                (sd_search_from d) (sd_pending d, []) in
  let '(start, from, (p, events)) := out in
  Ok (compact (mkDecoder (sd_buffer d) start from (sd_total_bytes d) p), events).

(** [feed] *)
Definition feed (d : SSEDecoder) (chunk : Bytes) : res (SSEDecoder * list Bytes) :=
  let total := sd_total_bytes d + size chunk in
  if max_total_bytes L <? total then protocol_error else
  let! out := consume_complete_lines false
                (mkDecoder (sd_buffer d ++ chunk)%list (sd_line_start d) (sd_search_from d) total
                   (sd_pending d)) in
  check! assert_pending_line_limit (sd_buffer (fst out)) in
  Ok out.

(** [finalize] *)
Definition finalize (d : SSEDecoder) : res (list Bytes) :=
  let! out := consume_complete_lines true d in
  let (d', events) := out in
  if bool_decide (pn_data_lines (sd_pending d') = []) then Ok events else
  let! s := emit_pending_event (sd_pending d', events) in
  Ok (snd s).

(** [iter_sse_data]: what is yielded, and how the stream ends *)
Fixpoint iter_sse_data (d : SSEDecoder) (chunks : list Bytes) : list Bytes * res unit :=
  match chunks with
  | [] => match finalize d with
          | Ok events => (events, Ok tt)
          | Err e => ([], Err e)
          end
  | chunk :: chunks' =>
      match feed d chunk with
      | Ok (d', events) =>
          let (more, r) := iter_sse_data d' chunks' in ((events ++ more)%list, r)
      | Err e => ([], Err e)
      end
  end.

Definition sse_data (chunks : list Bytes) : list Bytes * res unit :=
  iter_sse_data initial_decoder chunks.
End Decoding.
