(* ===== verification/SseStream.v ===== *)
(** * The lines of an event stream

    A reference decoder reads the whole response at once: it splits it into lines and
    interprets them in order.  The loop of the incremental decoder reads the lines of its
    buffer in the same order. *)

From S2P Require Import Prelude PyVal SseDecoder.
From Stdlib Require Import String Ascii.

#[local] Open Scope bool_scope.
#[local] Open Scope Z_scope.

(** ** The lines of a stream *)

(** The complete lines, and the rest; a carriage return at the end may still be the
    first half of a line break. *)
Fixpoint split_lines (b : Bytes) : list Bytes * Bytes :=
  match b with
  | [] => ([], [])
  | c :: b1 =>
      if Ascii.eqb c LF then let (ls, r) := split_lines b1 in ([] :: ls, r)
      else if Ascii.eqb c CR then
        match b1 with
        | [] => ([], [c])
        | c1 :: b2 =>
            if Ascii.eqb c1 LF then let (ls, r) := split_lines b2 in ([] :: ls, r)
            else let (ls, r) := split_lines b1 in ([] :: ls, r)
        end
      else match split_lines b1 with
           | ([], r) => ([], c :: r)
           | (l :: ls, r) => ((c :: l) :: ls, r)
           end
  end.

(** A rest, without the carriage return at its end *)
Definition payload (r : Bytes) : Bytes := if ends_with_cr r then removelast r else r.

(** All lines of a stream that has ended *)
Definition stream_lines (b : Bytes) : list Bytes :=
  let (ls, r) := split_lines b in
  (ls ++ if bool_decide (r = []) then [] else [payload r])%list.

Section Reference.
Context (L : SSELimits).

(** The reference decoder *)
Definition decode_stream (b : Bytes) : res (list Bytes) :=
  let! s := foldM (take_line L) (initial_pending, []) (stream_lines b) in
  if bool_decide (pn_data_lines (fst s) = []) then Ok (snd s) else
  let! s' := emit_pending_event L s in Ok (snd s').

End Reference.

(** ** Splitting *)

Lemma newline_cases c : is_newline c = false -> Ascii.eqb c LF = false /\ Ascii.eqb c CR = false.
Proof. unfold is_newline. by intros [-> ->]%orb_false_iff. Qed.

Definition unbroken (b : Bytes) : Prop := newline_index b = None.

Lemma unbroken_cons c b : unbroken (c :: b) <-> is_newline c = false /\ unbroken b.
Proof.
  unfold unbroken. cbn. destruct (is_newline c); [by split; [|intros []]|].
  destruct (newline_index b); cbn; by split; [|intros []].
Qed.

Lemma unbroken_app b b' : unbroken (b ++ b') <-> unbroken b /\ unbroken b'.
Proof.
  induction b as [|c b IH]; [by split; [|intros []]|]. cbn [app]. rewrite !unbroken_cons, IH. tauto.
Qed.

Definition prepend (p : Bytes) (out : list Bytes * Bytes) : list Bytes * Bytes :=
  match out with
  | ([], r) => ([], (p ++ r)%list)
  | (l :: ls, r) => ((p ++ l)%list :: ls, r)
  end.

Lemma split_plain p b : unbroken p -> split_lines (p ++ b) = prepend p (split_lines b).
Proof.
  induction p as [|c p IH]; intros Hp; [cbn [app]; by destruct (split_lines b) as [[] ?]|].
  apply unbroken_cons in Hp as [Hc Hp]. apply newline_cases in Hc as [Hl Hr].
  cbn [app split_lines]. rewrite Hl, Hr, IH by done. by destruct (split_lines b) as [[] ?].
Qed.

Lemma split_lf b : split_lines (LF :: b) = let (ls, r) := split_lines b in ([] :: ls, r).
Proof. done. Qed.

Lemma split_cr c b :
  split_lines (CR :: c :: b)
  = let (ls, r) := split_lines (if Ascii.eqb c LF then b else c :: b) in ([] :: ls, r).
Proof.
  change (split_lines (CR :: c :: b)) with
    (if Ascii.eqb c LF then let (ls, r) := split_lines b in ([] :: ls, r)
     else let (ls, r) := split_lines (c :: b) in ([] :: ls, r)).
  by destruct (Ascii.eqb c LF).
Qed.

Lemma split_nonplain b k :
  newline_index b = Some k ->
  exists p c b', b = (p ++ c :: b')%list /\ unbroken p /\ is_newline c = true /\ List.length p = k.
Proof.
  revert k. induction b as [|c b IH]; intros k H; [done|]. cbn in H.
  destruct (is_newline c) eqn:Hc.
  - injection H as <-. by exists [], c, b.
  - destruct (newline_index b) as [k'|]; [|done]. injection H as <-.
    destruct (IH k' eq_refl) as (p & c' & b' & -> & Hp & Hc' & Hk).
    exists (c :: p), c', b'. split_and!; try done; [by apply unbroken_cons|cbn; by rewrite Hk].
Qed.

(** A stream is cut at its first newline. *)
Inductive cut : Bytes -> list Bytes -> Bytes -> Prop :=
| cut_rest p : unbroken p -> cut p [] p
| cut_cr p : unbroken p -> cut (p ++ [CR]) [] (p ++ [CR])
| cut_line p nl b ls r :
    unbroken p -> (nl = [LF] \/ nl = [CR; LF] \/ nl = [CR] /\ exists c b', b = c :: b' /\ c <> LF) ->
    cut b ls r -> cut (p ++ nl ++ b) (p :: ls) r.

Lemma cut_split b ls r : cut b ls r -> split_lines b = (ls, r).
Proof.
  induction 1 as [p Hp|p Hp|p nl b ls r Hp Hnl _ IH].
  - rewrite <- (app_nil_r p) at 1. rewrite split_plain by done. cbn. by rewrite app_nil_r.
  - by rewrite split_plain.
  - rewrite split_plain by done.
    assert (Hs : split_lines (nl ++ b) = ([] :: ls, r)).
    { destruct Hnl as [->|[->|[-> (c & b' & -> & Hc)]]]; cbn [app].
      - rewrite split_lf, IH. done.
      - rewrite split_cr. cbn. by rewrite IH.
      - rewrite split_cr. apply Ascii.eqb_neq in Hc as ->. by rewrite IH. }
    rewrite Hs. cbn. by rewrite app_nil_r.
Qed.

Lemma newline_is c : is_newline c = true -> c = CR \/ c = LF.
Proof. unfold is_newline. by intros [H|H]%orb_true_iff; apply Ascii.eqb_eq in H; [left|right]. Qed.

Lemma cut_exists b : exists ls r, cut b ls r.
Proof.
  remember (List.length b) as n eqn:Hn. revert b Hn.
  induction n as [n IH] using lt_wf_ind. intros b ->.
  destruct (newline_index b) as [k|] eqn:Hk; [|by exists [], b; constructor].
  apply split_nonplain in Hk as (p & c & b' & -> & Hp & Hc & _).
  destruct (newline_is c Hc) as [->| ->].
  - destruct b' as [|c b']; [by exists [], (p ++ [CR])%list; constructor|].
    destruct (Ascii.eqb_spec c LF) as [->|Hne].
    + destruct (IH (List.length b')) with (b := b') as (ls & r & H); [|done|].
      { rewrite length_app. cbn. lia. }
      exists (p :: ls), r. change (CR :: LF :: b')%list with ([CR; LF] ++ b')%list.
      by constructor; [|right; left|].
    + destruct (IH (List.length (c :: b'))) with (b := (c :: b')%list) as (ls & r & H); [|done|].
      { rewrite length_app. cbn. lia. }
      exists (p :: ls), r. change (CR :: c :: b')%list with ([CR] ++ c :: b')%list.
      constructor; [done| |done]. right; right. split; [done|]. by exists c, b'.
  - destruct (IH (List.length b')) with (b := b') as (ls & r & H); [|done|].
    { rewrite length_app. cbn. lia. }
    exists (p :: ls), r. change (LF :: b')%list with ([LF] ++ b')%list.
    by constructor; [|left|].
Qed.

Lemma split_cut b : cut b (fst (split_lines b)) (snd (split_lines b)).
Proof. destruct (cut_exists b) as (ls & r & H). by rewrite (cut_split _ _ _ H). Qed.

(** The rest is unbroken, but for a carriage return at its end. *)
Lemma cut_rest_plain b ls r : cut b ls r -> unbroken (payload r) /\
  (ends_with_cr r = true -> r = (payload r ++ [CR])%list).
Proof.
  induction 1 as [p Hp|p Hp|]; [..|done]; unfold payload.
  - assert (Hcr : ends_with_cr p = false).
    { unfold ends_with_cr. destruct (last p) as [c|] eqn:Hl; [|done].
      apply last_Some in Hl as [p' ->]. apply unbroken_app in Hp as [_ Hc].
      apply unbroken_cons in Hc as [Hc _]. by apply newline_cases in Hc as [_ Hc]. }
    by rewrite Hcr.
  - assert (Hcr : ends_with_cr (p ++ [CR]) = true) by (unfold ends_with_cr; by rewrite last_snoc).
    rewrite Hcr, removelast_last. done.
Qed.

(** Cutting a stream in two *)
Lemma cut_app u ls r v : cut u ls r ->
  split_lines (u ++ v)
  = ((ls ++ fst (split_lines (r ++ v)))%list, snd (split_lines (r ++ v))).
Proof.
  induction 1 as [p Hp|p Hp|p nl b ls r Hp Hnl Hb IH];
    [by destruct (split_lines _)|by destruct (split_lines _)|].
  rewrite <- !app_assoc, split_plain by done.
  assert (Hs : split_lines (nl ++ b ++ v)
    = ([] :: (ls ++ fst (split_lines (r ++ v)))%list, snd (split_lines (r ++ v)))).
  { destruct Hnl as [->|[->|[-> (c & b' & -> & Hc)]]]; cbn [app].
    - by rewrite split_lf, IH.
    - rewrite split_cr. cbn. by rewrite IH.
    - rewrite split_cr. apply Ascii.eqb_neq in Hc as ->. cbn [app] in IH. by rewrite IH. }
  rewrite Hs. cbn. by rewrite app_nil_r.
Qed.

Lemma split_app u v :
  split_lines (u ++ v)
  = ((fst (split_lines u) ++ fst (split_lines (snd (split_lines u) ++ v)))%list,
     snd (split_lines (snd (split_lines u) ++ v))).
Proof. apply cut_app, split_cut. Qed.

(** ** The loop of the decoder *)

Lemma newline_index_at p c b : unbroken p -> is_newline c = true ->
  newline_index (p ++ c :: b) = Some (List.length p).
Proof.
  intros Hp Hc. induction p as [|d p IH]; cbn; [by rewrite Hc|].
  apply unbroken_cons in Hp as [Hd Hp]. by rewrite Hd, IH.
Qed.

Lemma newline_index_skip k b : unbroken (firstn k b) ->
  newline_index b = option_map (Nat.add k) (newline_index (skipn k b)).
Proof.
  revert b. induction k as [|k IH]; intros b H; [rewrite skipn_O; by destruct (newline_index b) as [[]|]|].
  destruct b as [|c b]; [done|]. cbn in H. apply unbroken_cons in H as [Hc H]. cbn. rewrite Hc, (IH b H).
  by destruct (newline_index (skipn k b)).
Qed.

Lemma unbroken_no_cr p : unbroken p -> ends_with_cr p = false.
Proof.
  intros Hp. unfold ends_with_cr. destruct (last p) as [c|] eqn:Hl; [|done].
  apply last_Some in Hl as [p' ->]. apply unbroken_app in Hp as [_ Hc].
  apply unbroken_cons in Hc as [Hc _]. by apply newline_cases in Hc as [_ Hc].
Qed.

Lemma cut_fewer b ls r : cut b ls r -> (List.length ls <= List.length b)%nat.
Proof.
  induction 1 as [| |p nl b ls r _ Hnl _ IH]; cbn; [lia..|]. rewrite !length_app.
  destruct Hnl as [->|[->|[-> _]]]; cbn; lia.
Qed.

Section Loop.
Context (L : SSELimits) (before u : Bytes).
(** The cursors: [before] was consumed, and the first [k] bytes of [u] searched. *)
Context (k : nat).
Hypothesis Hk : (k <= List.length u)%nat.
Hypothesis Hsearched : unbroken (firstn k u).

#[local] Abbreviation buffer := (before ++ u)%list.
#[local] Abbreviation start := (List.length before).

Lemma found_newline :
  find_newline buffer (start + k) = option_map (Nat.add start) (newline_index u).
Proof.
  unfold find_newline. rewrite skipn_app, (newline_index_skip k u Hsearched).
  rewrite (skipn_all2 before) by lia. replace (start + k - start)%nat with k by lia. cbn [app].
  destruct (newline_index (skipn k u)); cbn; [f_equal; lia|done].
Qed.

Lemma loop_ends fuel final s :
  u = [] -> consume_loop L (S fuel) final buffer start (start + k) s = Ok (start, (start + k)%nat, s).
Proof. intros Hu. rewrite Hu, app_nil_r. cbn [consume_loop]. by rewrite Nat.ltb_irrefl. Qed.

Lemma in_buffer : u <> [] -> (start <? List.length buffer)%nat = true.
Proof. intros Hu. apply Nat.ltb_lt. rewrite length_app. destruct u; [done|]. cbn. lia. Qed.

(** The last line without a newline *)
Lemma loop_rest fuel final s : unbroken u -> u <> [] ->
  consume_loop L (S fuel) final buffer start (start + k) s
  = if final then let! s' := take_line L s u in
                  Ok (List.length buffer, List.length buffer, s')
    else Ok (start, List.length buffer, s).
Proof.
  intros Hp Hu. cbn [consume_loop]. rewrite in_buffer by done. cbn [negb].
  rewrite found_newline, Hp. cbn [option_map]. rewrite skipn_app, skipn_all, Nat.sub_diag.
  done.
Qed.

(** A carriage return at the end of a chunk is left for later. *)
Lemma loop_cr fuel p s : u = (p ++ [CR])%list -> unbroken p ->
  consume_loop L (S fuel) false buffer start (start + k) s
  = check! assert_pending_line_limit L buffer in
    Ok (start, (List.length buffer - 1)%nat, s).
Proof.
  intros Hu Hp. cbn [consume_loop]. rewrite in_buffer by (rewrite Hu; by destruct p). cbn [negb].
  rewrite found_newline, Hu, newline_index_at by done. cbn [option_map].
  unfold byte_at. rewrite nth_error_app2 by lia.
  replace (start + List.length p - start)%nat with (List.length p) by lia.
  rewrite nth_error_app2, Nat.sub_diag by lia. cbn [nth_error].
  rewrite bool_decide_true by done. rewrite !length_app. cbn [List.length].
  replace (start + List.length p)%nat with (start + (List.length p + 1) - 1)%nat by lia.
  by rewrite Nat.eqb_refl.
Qed.

(** One whole line *)
Lemma loop_line fuel final p nl b s : u = (p ++ nl ++ b)%list -> unbroken p ->
  nl = [LF] \/ nl = [CR; LF] \/
  nl = [CR] /\ (final = true /\ b = [] \/ exists c b', b = c :: b' /\ c <> LF) ->
  consume_loop L (S fuel) final buffer start (start + k) s
  = let! s' := take_line L s p in
    consume_loop L fuel final buffer (List.length (before ++ p ++ nl))
      (List.length (before ++ p ++ nl)) s'.
Proof.
  intros Hu Hp Hnl. cbn [consume_loop]. rewrite in_buffer by (rewrite Hu; destruct p; [|done];
    by destruct Hnl as [->|[->|[-> _]]]). cbn [negb].
  assert (Hfind : newline_index u = Some (List.length p)).
  { rewrite Hu. destruct Hnl as [->|[->|[-> _]]]; by apply newline_index_at. }
  rewrite found_newline, Hfind. cbn [option_map]. set (at_ := (start + List.length p)%nat).
  assert (Hat : forall i, byte_at buffer (at_ + i) = nth_error (nl ++ b) i).
  { intros i. unfold byte_at, at_. rewrite nth_error_app2 by lia. rewrite Hu, nth_error_app2 by lia.
    f_equal. lia. }
  pose proof (Hat 0%nat) as H0. rewrite Nat.add_0_r in H0. rewrite H0, (Hat 1%nat).
  assert (Hline : skipn start (firstn at_ buffer) = p).
  { unfold at_. rewrite Hu. rewrite firstn_app, firstn_all2 by lia.
    replace (start + List.length p - start)%nat with (List.length p) by lia.
    rewrite firstn_app, Nat.sub_diag, firstn_all2 by lia. cbn. rewrite app_nil_r.
    by rewrite skipn_app, skipn_all, Nat.sub_diag. }
  rewrite Hline.
  assert (Hlen : List.length buffer = (at_ + List.length (nl ++ b))%nat)
    by (unfold at_; rewrite length_app, Hu, length_app; lia).
  assert (Hskip : bool_decide (nth_error (nl ++ b) 0 = Some CR)
      && Nat.eqb at_ (List.length buffer - 1) && negb final = false).
  { rewrite Hlen. destruct Hnl as [->|[->|[-> [[-> ->]|(c & b' & -> & Hc)]]]]; cbn.
    - done.
    - apply andb_false_iff. left. apply Nat.eqb_neq. cbn [app List.length]. lia.
    - apply andb_false_r.
    - apply andb_false_iff. left. apply Nat.eqb_neq. cbn [app List.length]. lia. }
  rewrite Hskip.
  assert (Hsize : (at_ + (if bool_decide (nth_error (nl ++ b) 0 = Some CR)
      && bool_decide (nth_error (nl ++ b) 1 = Some LF) then 2 else 1))%nat
    = List.length (before ++ p ++ nl)).
  { unfold at_. rewrite !length_app.
    destruct Hnl as [->|[->|[-> [[-> ->]|(c & b' & -> & Hc)]]]]; cbn [app nth_error List.length].
    - rewrite bool_decide_false by done. cbn. lia.
    - rewrite !bool_decide_true by done. cbn. lia.
    - rewrite bool_decide_true, bool_decide_false by done. cbn. lia.
    - rewrite bool_decide_true by done. rewrite bool_decide_false by congruence. cbn. lia. }
  by rewrite Hsize.
Qed.
End Loop.

Lemma loop_false L u ls r : cut u ls r -> forall before k fuel s,
  (k <= List.length u)%nat -> unbroken (firstn k u) -> (List.length ls < fuel)%nat ->
  let buffer := (before ++ u)%list in
  consume_loop L fuel false buffer (List.length before) (List.length before + k) s
  = let! s' := foldM (take_line L) s ls in
    check! (if ends_with_cr r then assert_pending_line_limit L buffer else Ok tt) in
    Ok ((List.length buffer - List.length r)%nat,
        if ends_with_cr r then (List.length buffer - 1)%nat else List.length buffer, s').
Proof.
  induction 1 as [p Hp|p Hp|p nl b ls r Hp Hnl Hb IH]; intros before k fuel s Hk Hs Hf buffer;
    (destruct fuel as [|fuel]; [lia|]).
  - rewrite (unbroken_no_cr p Hp). cbn [foldM rbind]. destruct (decide (p = [])) as [->|Hne].
    + unfold buffer. rewrite loop_ends by done. rewrite app_nil_r. cbn in Hk |- *. f_equal.
      f_equal; f_equal; lia.
    + unfold buffer. rewrite loop_rest by done. rewrite length_app. f_equal. f_equal. f_equal. lia.
  - assert (Hcr : ends_with_cr (p ++ [CR]) = true) by (unfold ends_with_cr; by rewrite last_snoc).
    rewrite Hcr. unfold buffer. rewrite (loop_cr _ _ _ _ Hk Hs _ p) by done. cbn [foldM rbind].
    destruct (assert_pending_line_limit L _); [|done]. cbn [rbind]. f_equal. f_equal. f_equal.
    rewrite !length_app. cbn. lia.
  - unfold buffer. rewrite (loop_line _ _ _ _ Hk Hs _ _ p nl b) by
      (try done; destruct Hnl as [?|[?|[? ?]]]; auto).
    cbn [foldM]. destruct (take_line L s p) as [s'|]; [|done]. cbn [rbind].
    replace (before ++ p ++ nl ++ b)%list with ((before ++ p ++ nl) ++ b)%list
      by (by rewrite <- !app_assoc).
    rewrite <- (Nat.add_0_r (List.length (before ++ p ++ nl))) at 2.
    apply IH; [lia|done|cbn in Hf; lia].
Qed.

Lemma stream_lines_cut u ls r : cut u ls r ->
  stream_lines u = (ls ++ if bool_decide (r = []) then [] else [payload r])%list.
Proof. intros H. unfold stream_lines. by rewrite (cut_split _ _ _ H). Qed.

Lemma stream_lines_line p nl b : unbroken p ->
  (nl = [LF] \/ nl = [CR; LF] \/ nl = [CR] /\ exists c b', b = c :: b' /\ c <> LF) ->
  stream_lines (p ++ nl ++ b) = p :: stream_lines b.
Proof.
  intros Hp Hnl. pose proof (split_cut b) as Hb.
  rewrite (stream_lines_cut _ _ _ (cut_line p nl b _ _ Hp Hnl Hb)).
  by rewrite (stream_lines_cut _ _ _ Hb).
Qed.

Lemma loop_true L u ls r : cut u ls r -> forall before k fuel s,
  (k <= List.length u)%nat -> unbroken (firstn k u) -> (List.length u < fuel)%nat ->
  let buffer := (before ++ u)%list in
  consume_loop L fuel true buffer (List.length before) (List.length before + k) s
  = let! s' := foldM (take_line L) s (stream_lines u) in
    Ok (List.length buffer, List.length buffer, s').
Proof.
  induction 1 as [p Hp|p Hp|p nl b ls r Hp Hnl Hb IH]; intros before k fuel s Hk Hs Hf buffer;
    (destruct fuel as [|fuel]; [lia|]).
  - rewrite (stream_lines_cut _ _ _ (cut_rest p Hp)). unfold payload. rewrite (unbroken_no_cr p Hp).
    destruct (bool_decide_reflect (p = [])) as [->|Hne]; cbn [app foldM rbind].
    + unfold buffer. rewrite loop_ends by done. rewrite app_nil_r. cbn in Hk. f_equal.
      f_equal; f_equal; lia.
    + unfold buffer. rewrite loop_rest by done. by destruct (take_line L s p).
  - rewrite (stream_lines_cut _ _ _ (cut_cr p Hp)).
    rewrite bool_decide_false by (by destruct p). cbn [app foldM].
    assert (Hcr : ends_with_cr (p ++ [CR]) = true) by (unfold ends_with_cr; by rewrite last_snoc).
    unfold payload. rewrite Hcr, removelast_last. unfold buffer.
    rewrite (loop_line _ _ _ _ Hk Hs _ _ p [CR] []) by (try done; right; right; split; auto).
    destruct (take_line L s p) as [s'|]; [|done]. cbn [rbind].
    destruct fuel as [|fuel]; [rewrite length_app in Hf; cbn in Hf; lia|].
    pose proof (loop_ends L (before ++ p ++ [CR]) [] 0 fuel true s' eq_refl) as He.
    rewrite !app_nil_r, !Nat.add_0_r in He. exact He.
  - rewrite stream_lines_line by done. unfold buffer.
    rewrite (loop_line _ _ _ _ Hk Hs _ _ p nl b) by
      (try done; destruct Hnl as [?|[?|[? ?]]]; auto).
    cbn [foldM]. destruct (take_line L s p) as [s'|]; [|done]. cbn [rbind].
    replace (before ++ p ++ nl ++ b)%list with ((before ++ p ++ nl) ++ b)%list
      by (by rewrite <- !app_assoc).
    rewrite <- (Nat.add_0_r (List.length (before ++ p ++ nl))) at 2.
    apply IH; [lia|done|]. rewrite !length_app in Hf. destruct Hnl as [->|[->|[-> _]]]; cbn in Hf; lia.
Qed.
