(* ===== verification/SseChunks.v ===== *)
(** * Event streams do not depend on their chunks

    The incremental decoder gives the same events as the reference however the response
    is cut, and its limits hold whatever it is fed. *)

From S2P Require Import Prelude PyVal SseDecoder SseStream.
From Stdlib Require Import String Ascii.

#[local] Open Scope bool_scope.
#[local] Open Scope Z_scope.

(** ** Feeding *)

(** A decoder between two calls: the buffer holds the rest of the last line, searched
    up to the cursor. *)
Record between (d : SSEDecoder) : Prop := {
  bw_start : sd_line_start d = 0%nat;
  bw_searched : (sd_search_from d <= List.length (sd_buffer d))%nat;
  bw_unbroken : unbroken (firstn (sd_search_from d) (sd_buffer d))
}.

Lemma cut_suffix u ls r : cut u ls r -> exists before, u = (before ++ r)%list.
Proof.
  induction 1 as [p _|p _|p nl b ls r _ _ _ [before ->]]; [by exists []|by exists []|].
  exists (p ++ nl ++ before)%list. by rewrite !app_assoc.
Qed.

Lemma payload_searched r :
  unbroken (payload r) -> (ends_with_cr r = true -> r = (payload r ++ [CR])%list) ->
  unbroken (firstn (if ends_with_cr r then List.length r - 1 else List.length r) r).
Proof.
  intros Hp Hcr. destruct (ends_with_cr r) eqn:He.
  - rewrite (Hcr eq_refl). rewrite length_app, firstn_app. cbn [List.length].
    replace (_ + 1 - 1)%nat with (List.length (payload r)) by lia.
    by rewrite firstn_all, Nat.sub_diag, app_nil_r.
  - rewrite firstn_all. unfold payload in Hp. by rewrite He in Hp.
Qed.

Section Feeding.
Context (L : SSELimits).

(** What is left of a call, once its lines were read *)
Definition rest_decoder (total : Z) (r : Bytes) (p : Pending) : SSEDecoder :=
  mkDecoder r 0 (if ends_with_cr r then List.length r - 1 else List.length r) total p.

Lemma rest_between total u ls r p : cut u ls r -> between (rest_decoder total r p).
Proof.
  intros [Hp Hcr]%cut_rest_plain. split; cbn; [done| |by apply payload_searched].
  destruct (ends_with_cr r); lia.
Qed.

Lemma feed_spec d chunk ls r :
  between d -> cut (sd_buffer d ++ chunk) ls r ->
  feed L d chunk
  = let total := sd_total_bytes d + size chunk in
    if max_total_bytes L <? total then protocol_error else
    let! s := foldM (take_line L) (sd_pending d, []) ls in
    check! (if ends_with_cr r then assert_pending_line_limit L (sd_buffer d ++ chunk) else Ok tt) in
    check! assert_pending_line_limit L r in
    Ok (rest_decoder total r (fst s), snd s).
Proof.
  intros [Hstart Hle Hp] Hcut. unfold feed. cbv zeta. destruct (_ <? _); [done|].
  unfold consume_complete_lines. cbn [sd_buffer sd_line_start sd_search_from sd_pending sd_total_bytes].
  rewrite Hstart.
  pose proof (loop_false L _ _ _ Hcut [] (sd_search_from d)
    (S (List.length (sd_buffer d ++ chunk))) (sd_pending d, [])) as Hloop. cbn [app] in Hloop.
  cbv zeta in Hloop. cbn [List.length Nat.add] in Hloop. rewrite Hloop; clear Hloop.
  2:{ rewrite length_app. lia. }
  2:{ rewrite firstn_app. replace (_ - _)%nat with 0%nat by lia. by rewrite app_nil_r. }
  2:{ pose proof (cut_fewer _ _ _ Hcut). lia. }
  destruct (foldM _ _ ls) as [[p events]|]; [|done]. cbn [rbind].
  destruct (if ends_with_cr r then _ else _); [|done]. cbn [rbind fst snd].
  assert (Hc : forall total', compact (mkDecoder (sd_buffer d ++ chunk)
      (List.length (sd_buffer d ++ chunk) - List.length r)
      (if ends_with_cr r then List.length (sd_buffer d ++ chunk) - 1
       else List.length (sd_buffer d ++ chunk)) total' p) = rest_decoder total' r p).
  { intros total'. destruct (cut_suffix _ _ _ Hcut) as [before Hb]. rewrite Hb, length_app.
    replace (_ + _ - _)%nat with (List.length before) by lia. unfold compact, rest_decoder.
    cbn [sd_line_start sd_buffer sd_search_from sd_total_bytes sd_pending].
    destruct before as [|c before]; [done|]. cbn [List.length Nat.eqb]. f_equal.
    - change (S (List.length before)) with (List.length (c :: before)).
      by rewrite skipn_app, skipn_all, Nat.sub_diag.
    - assert (ends_with_cr r = true -> List.length r <> 0%nat) by (intros H; by destruct r).
      destruct (ends_with_cr r); [|lia]. specialize (H eq_refl). lia. }
  by rewrite Hc.
Qed.

(** Closing the pending event *)
Definition flush (s : Decoded) : res (list Bytes) :=
  if bool_decide (pn_data_lines (fst s) = []) then Ok (snd s) else
  let! s' := emit_pending_event L s in Ok (snd s').

Lemma finalize_spec d :
  between d ->
  finalize L d
  = let! s := foldM (take_line L) (sd_pending d, []) (stream_lines (sd_buffer d)) in flush s.
Proof.
  intros [Hstart Hle Hp]. unfold finalize, consume_complete_lines. rewrite Hstart.
  pose proof (loop_true L _ _ _ (split_cut (sd_buffer d)) [] (sd_search_from d)
    (S (List.length (sd_buffer d))) (sd_pending d, []) Hle Hp (Nat.lt_succ_diag_r _)) as Hloop.
  cbn [app List.length Nat.add] in Hloop. rewrite Hloop. clear Hloop.
  destruct (foldM _ _ _) as [[p events]|]; [|done]. cbn [rbind].
  assert (Hc : forall start from total, sd_pending (compact (mkDecoder (sd_buffer d) start from total p)) = p)
    by (intros start from total; unfold compact; by destruct (Nat.eqb _ _)).
  rewrite Hc. unfold flush. cbn [fst snd]. by destruct (bool_decide _).
Qed.

(** ** Events and earlier events *)

Lemma emit_after p before events :
  emit_pending_event L (p, (before ++ events)%list)
  = let! s := emit_pending_event L (p, events) in Ok (fst s, (before ++ snd s)%list).
Proof.
  unfold emit_pending_event. destruct (_ <? _); [done|]. cbn. by rewrite app_assoc.
Qed.

Lemma take_line_after p before events line :
  take_line L (p, (before ++ events)%list) line
  = let! s := take_line L (p, events) line in Ok (fst s, (before ++ snd s)%list).
Proof.
  unfold take_line. destruct (_ <? _); [done|]. destruct (negb _); [done|].
  unfold process_line. destruct line as [|c line].
  - destruct (bool_decide _); [done|apply emit_after].
  - destruct (Ascii.eqb c COLON); [done|]. destruct (partition_colon _) as [field value].
    destruct (negb _); [done|]. by destruct (_ <? _).
Qed.

Lemma take_lines_after ls p before events :
  foldM (take_line L) (p, (before ++ events)%list) ls
  = let! s := foldM (take_line L) (p, events) ls in Ok (fst s, (before ++ snd s)%list).
Proof.
  revert p events. induction ls as [|l ls IH]; intros p events; [done|]. cbn [foldM].
  rewrite take_line_after. destruct (take_line L (p, events) l) as [[p' events']|]; [|done].
  cbn [rbind fst snd]. apply IH.
Qed.

Lemma flush_after p before events :
  flush (p, (before ++ events)%list) = let! out := flush (p, events) in Ok (before ++ out)%list.
Proof.
  unfold flush. cbn [fst snd]. destruct (bool_decide _); [done|]. rewrite emit_after.
  by destruct (emit_pending_event L (p, events)).
Qed.

(** Decoding on from a pending event *)
Definition decode_on (p : Pending) (b : Bytes) : res (list Bytes) :=
  let! s := foldM (take_line L) (p, []) (stream_lines b) in flush s.

Lemma decode_on_lines p u ls r v : cut u ls r ->
  decode_on p (u ++ v)
  = let! s := foldM (take_line L) (p, []) ls in
    let! out := decode_on (fst s) (r ++ v) in Ok (snd s ++ out)%list.
Proof.
  intros Hcut. unfold decode_on.
  assert (Hl : stream_lines (u ++ v) = (ls ++ stream_lines (r ++ v))%list).
  { unfold stream_lines at 1. rewrite (cut_app _ _ _ v Hcut). unfold stream_lines.
    destruct (split_lines (r ++ v)) as [ls2 r2]. cbn. by rewrite app_assoc. }
  rewrite Hl, foldM_app. destruct (foldM _ _ ls) as [[p' events]|]; [|done]. cbn [rbind fst snd].
  pose proof (take_lines_after (stream_lines (r ++ v)) p' events []) as Ha.
  rewrite app_nil_r in Ha. rewrite Ha.
  destruct (foldM (take_line L) (p', []) (stream_lines (r ++ v))) as [[p2 events2]|]; [|done]. cbn [rbind fst snd]. apply flush_after.
Qed.

(** What the incremental decoder yields is what the reference yields. *)
Lemma chunks_sound chunks d events :
  between d -> iter_sse_data L d chunks = (events, Ok tt) ->
  decode_on (sd_pending d) (sd_buffer d ++ List.concat chunks) = Ok events.
Proof.
  revert d events. induction chunks as [|chunk chunks IH]; intros d events Hd H; cbn in H.
  - rewrite finalize_spec in H by done. rewrite app_nil_r. unfold decode_on.
    destruct (foldM _ _ _) as [s|]; [|done]. cbn [rbind] in *.
    by destruct (flush s) as [out|]; simplify_eq.
  - pose proof (split_cut (sd_buffer d ++ chunk)) as Hcut.
    rewrite (feed_spec d chunk _ _ Hd Hcut) in H. cbv zeta in H. destruct (_ <? _); [done|].
    cbn [List.concat]. rewrite app_assoc, (decode_on_lines _ _ _ _ _ Hcut).
    destruct (foldM _ _ _) as [s|]; [|done]. cbn [rbind] in *.
    destruct (if ends_with_cr _ then _ else _); [|done]. cbn [rbind] in H.
    destruct (assert_pending_line_limit _ _); [|done]. cbn [rbind] in H.
    destruct (iter_sse_data _ _ chunks) as [more r] eqn:Hi. injection H as <- ->.
    apply IH in Hi; [|by eapply rest_between]. cbn [rest_decoder sd_pending sd_buffer] in Hi.
    rewrite Hi. done.
Qed.

Lemma first_line r v : unbroken r -> r <> [] ->
  exists l ls, stream_lines (r ++ v) = (r ++ l)%list :: ls.
Proof.
  intros Hp Hne. unfold stream_lines. rewrite split_plain by done.
  pose proof (split_cut v) as Hv. destruct (split_lines v) as [[|l ls] r2] eqn:Hs; cbn in Hv.
  2:{ cbn. by eexists l, _. }
  cbn [prepend]. rewrite bool_decide_false by (by destruct r). cbn [app].
  unfold payload at 1. destruct (ends_with_cr (r ++ r2)) eqn:He; [|by exists r2, []].
  destruct r2 as [|c r2]; [rewrite app_nil_r, unbroken_no_cr in He; done|].
  exists (removelast (c :: r2)), []. by rewrite removelast_app.
Qed.

Lemma chunks_complete chunks d events :
  0 < max_line_bytes L -> between d -> ends_with_cr (sd_buffer d) = false ->
  Forall (fun chunk => ends_with_cr chunk = false) chunks ->
  sd_total_bytes d + size (List.concat chunks) <= max_total_bytes L ->
  decode_on (sd_pending d) (sd_buffer d ++ List.concat chunks) = Ok events ->
  iter_sse_data L d chunks = (events, Ok tt).
Proof.
  intros Hpos. revert d events.
  induction chunks as [|chunk chunks IH]; intros d events Hd Hcr Hall Ht H; cbn.
  - rewrite finalize_spec by done. rewrite app_nil_r in H. unfold decode_on in H. by rewrite H.
  - apply Forall_cons in Hall as [Hc Hall]. cbn [List.concat] in *.
    pose proof (split_cut (sd_buffer d ++ chunk)) as Hcut.
    set (ls := fst (split_lines (sd_buffer d ++ chunk))) in *.
    set (r := snd (split_lines (sd_buffer d ++ chunk))) in *.
    clearbody ls r.
    rewrite (feed_spec d chunk _ _ Hd Hcut). cbv zeta.
    unfold size in Ht. rewrite length_app in Ht. unfold size at 1.
    destruct (Z.ltb_spec (max_total_bytes L) (sd_total_bytes d + Z.of_nat (List.length chunk)));
      [lia|].
    rewrite app_assoc, (decode_on_lines _ _ _ _ _ Hcut) in H.
    destruct (foldM _ _ _) as [s|]; [|done]. cbn [rbind] in *.
    assert (Hbuf : ends_with_cr (sd_buffer d ++ chunk) = false).
    { destruct chunk as [|c chunk]; [by rewrite app_nil_r|]. unfold ends_with_cr in *.
      by rewrite last_app_cons. }
    assert (Hr : ends_with_cr r = false).
    { destruct (cut_suffix _ _ _ Hcut) as [before Hb]. rewrite Hb in Hbuf.
      destruct r as [|c r']; [done|]. unfold ends_with_cr in *. rewrite last_app_cons in Hbuf.
      exact Hbuf. }
    rewrite Hr. cbn [rbind].
    destruct (decode_on (fst s) (r ++ List.concat chunks)) as [out|] eqn:Hout; [|done].
    cbn [rbind] in H. injection H as <-.
    assert (Hlim : assert_pending_line_limit L r = Ok tt).
    { destruct (cut_rest_plain _ _ _ Hcut) as [Hp _]. unfold payload in Hp. rewrite Hr in Hp.
      unfold assert_pending_line_limit. rewrite Hr.
      destruct (decide (r = [])) as [Hnil|Hne].
      - rewrite Hnil. change (size [] - 0) with 0.
        by destruct (Z.ltb_spec (max_line_bytes L) 0); [lia|].
      - destruct (first_line r (List.concat chunks) Hp Hne) as (l & rest & Hl).
        unfold decode_on in Hout. rewrite Hl in Hout. cbn [foldM] in Hout.
        unfold take_line at 1 in Hout.
        destruct (Z.ltb_spec (max_line_bytes L) (size (r ++ l))) as [|Hle]; [done|].
        unfold size in *. rewrite length_app in Hle.
        destruct (Z.ltb_spec (max_line_bytes L) (Z.of_nat (List.length r) - 0)); [lia|done]. }
    rewrite Hlim. cbn [rbind].
    rewrite (IH _ out); [done|by eapply rest_between|done|done| |done].
    cbn. unfold size. lia.
Qed.
End Feeding.

(** ** The limits *)

Section Limits.
Context (L : SSELimits).
Hypothesis Hevent : 0 <= max_event_bytes L.

Lemma join_snoc ls v :
  size (join_lines (ls ++ [v]))
  = size (join_lines ls) + size v + (if bool_decide (ls = []) then 0 else 1).
Proof.
  unfold size. induction ls as [|l ls IH]; [cbn; lia|].
  destruct ls as [|l' ls]; [cbn; rewrite length_app; cbn; lia|].
  change (join_lines ((l :: l' :: ls) ++ [v])) with (l ++ LF :: join_lines ((l' :: ls) ++ [v]))%list.
  change (join_lines (l :: l' :: ls)) with (l ++ LF :: join_lines (l' :: ls))%list.
  rewrite !length_app. cbn [List.length].
  rewrite bool_decide_false in IH |- * by done. lia.
Qed.

(** What was decoded so far, [n] events ago *)
Record limited (n : Z) (s : Decoded) : Prop := {
  lm_pending : pn_event_bytes (fst s) = size (join_lines (pn_data_lines (fst s)));
  lm_event : pn_event_bytes (fst s) <= max_event_bytes L;
  lm_count : pn_events_emitted (fst s) = n + Z.of_nat (List.length (snd s));
  lm_emitted : pn_events_emitted (fst s) <= max_events L;
  lm_events : Forall (fun e => size e <= max_event_bytes L) (snd s)
}.

Lemma emit_limited n s s' : limited n s -> emit_pending_event L s = Ok s' -> limited n s'.
Proof.
  intros [Hp He Hc Hm Hall] H. destruct s as [p events]. unfold emit_pending_event in H.
  destruct (Z.ltb_spec (max_events L) (pn_events_emitted p + 1)); [done|]. injection H as <-.
  cbn in *. split; cbn; try lia.
  - done.
  - rewrite length_app. cbn. lia.
  - apply Forall_app. split; [done|]. constructor; [lia|constructor].
Qed.

Lemma take_line_limited n s line s' : limited n s -> take_line L s line = Ok s' -> limited n s'.
Proof.
  intros Hs H. unfold take_line in H. destruct (_ <? _); [done|]. destruct (negb _); [done|].
  destruct s as [p events]. unfold process_line in H. destruct line as [|c line].
  { destruct (bool_decide _); [by injection H as <-|by eapply emit_limited]. }
  destruct (Ascii.eqb c COLON); [by injection H as <-|].
  destruct (partition_colon _) as [field value]. destruct (negb _); [by injection H as <-|].
  match type of H with (if ?b <? ?c then _ else _) = _ => destruct (Z.ltb_spec b c); [done|] end.
  injection H as <-. destruct Hs as [Hp He Hc Hm Hall]. cbn in *. split; cbn; try done; try lia.
  rewrite join_snoc, Hp. lia.
Qed.

Lemma take_lines_limited ls n s s' :
  limited n s -> foldM (take_line L) s ls = Ok s' -> limited n s'.
Proof.
  intros Hs. apply (foldM_invariant (take_line L) (limited n)); [|exact Hs].
  intros a l b Ha. by apply take_line_limited.
Qed.

(** The pending event and the count are within the limits. *)
Definition pending_limited (p : Pending) : Prop := limited (pn_events_emitted p) (p, []).

Lemma limited_pending n s : limited n s -> pending_limited (fst s).
Proof. intros [Hp He _ Hm _]. split; cbn; try done. lia. Qed.

Lemma iter_limited chunks d :
  between d -> pending_limited (sd_pending d) ->
  let events := fst (iter_sse_data L d chunks) in
  Forall (fun e => size e <= max_event_bytes L) events /\
  pn_events_emitted (sd_pending d) + Z.of_nat (List.length events) <= max_events L.
Proof.
  revert d. induction chunks as [|chunk chunks IH]; intros d Hd Hp; cbn.
  - rewrite finalize_spec by done.
    destruct (foldM _ _ _) as [s|] eqn:Hs; cbn [rbind].
    2:{ split; [constructor|]. destruct Hp as [_ _ _ Hm _]. cbn in *. lia. }
    apply (take_lines_limited _ (pn_events_emitted (sd_pending d))) in Hs; [|exact Hp]. unfold flush.
    destruct (bool_decide _); cbn [fst].
    { destruct Hs as [_ _ Hc Hm Hall]. split; [done|lia]. }
    destruct (emit_pending_event L s) as [s'|] eqn:He; cbn [rbind fst].
    + eapply emit_limited in He; [|exact Hs]. destruct He as [_ _ Hc Hm Hall]. split; [done|lia].
    + split; [constructor|]. destruct Hp as [_ _ _ Hm _]. cbn in *. lia.
  - pose proof (split_cut (sd_buffer d ++ chunk)) as Hcut.
    pose proof (feed_spec L d chunk _ _ Hd Hcut) as Hf. cbv zeta in Hf.
    assert (Hnone : Forall (fun e => size e <= max_event_bytes L) ([] : list Bytes) /\
      pn_events_emitted (sd_pending d) + Z.of_nat 0 <= max_events L).
    { split; [constructor|]. destruct Hp as [_ _ _ Hm _]. cbn in *. lia. }
    rewrite Hf. destruct (_ <? _); [exact Hnone|].
    destruct (foldM _ _ _) as [s|] eqn:Hs; [|exact Hnone]. cbn [rbind].
    destruct (if ends_with_cr _ then _ else _); [|exact Hnone]. cbn [rbind].
    destruct (assert_pending_line_limit _ _); [|exact Hnone]. cbn [rbind].
    apply (take_lines_limited _ (pn_events_emitted (sd_pending d))) in Hs; [|exact Hp].
    match goal with |- context [iter_sse_data L ?d' chunks] => specialize (IH d') end.
    destruct (iter_sse_data _ _ chunks) as [more r]. cbn [fst] in *.
    destruct IH as [Hall Hc]; [by eapply rest_between|by eapply limited_pending|].
    cbn in Hc. destruct Hs as [_ _ Hs _ Hev]. rewrite length_app. split; [by apply Forall_app|lia].
Qed.
End Limits.

Lemma positive_limit_ok value n : positive_limit value = Ok n -> 0 < n.
Proof.
  unfold positive_limit. destruct value; try done.
  match goal with |- context [0 <? ?k] => destruct (Z.ltb_spec 0 k) end; [by intros [= <-]|done].
Qed.

Lemma initial_between : between initial_decoder.
Proof. by split. Qed.

(** ** Properties *)

(** C39. A response is decoded the same however it is cut.  If the incremental decoder
    reaches the end of the stream, the events it yielded are those of the whole response
    read at once, whatever the chunks were; and every response that the reference
    decoder accepts within the total limit is decoded so, unless a chunk ends in a
    carriage return. *)
Theorem events_do_not_depend_on_chunks L chunks events :
  (sse_data L chunks = (events, Ok tt) -> decode_stream L (List.concat chunks) = Ok events) /\
  (0 < max_line_bytes L -> size (List.concat chunks) <= max_total_bytes L ->
   Forall (fun chunk => ends_with_cr chunk = false) chunks ->
   decode_stream L (List.concat chunks) = Ok events -> sse_data L chunks = (events, Ok tt)).
Proof.
  split.
  - intros H. exact (chunks_sound L chunks initial_decoder events initial_between H).
  - intros Hpos Ht Hall H.
    exact (chunks_complete L chunks initial_decoder events Hpos initial_between eq_refl Hall Ht H).
Qed.

(** The limits hold.  Whatever a response holds and however it is cut, and also if
    decoding it fails half way: no more than [max_events] events are yielded, none of
    them longer than [max_event_bytes]. *)
Theorem decoded_events_are_limited line event total events L chunks :
  sse_limits line event total events = Ok L ->
  let out := fst (sse_data L chunks) in
  Forall (fun e => size e <= max_event_bytes L) out /\
  Z.of_nat (List.length out) <= max_events L.
Proof.
  intros HL. assert (Hpos : 0 < max_event_bytes L /\ 0 < max_events L).
  { unfold sse_limits in HL.
    destruct (positive_limit line) as [l|]; [|done]. cbn [rbind] in HL.
    destruct (positive_limit event) as [e|] eqn:He; [|done]. cbn [rbind] in HL.
    destruct (positive_limit total) as [t|]; [|done]. cbn [rbind] in HL.
    destruct (positive_limit events) as [n|] eqn:Hn; [|done]. cbn [rbind] in HL.
    destruct (_ <? _); [done|]. destruct (_ <? _); [done|]. injection HL as <-. cbn.
    split; [apply (positive_limit_ok event)|apply (positive_limit_ok events)]; done. }
  destruct Hpos as [He Hn].
  apply (iter_limited L (Z.lt_le_incl _ _ He) chunks initial_decoder initial_between).
  split; cbn; try done; lia.
Qed.

(** ** Examples *)

Definition text_bytes (s : string) : Bytes := list_ascii_of_string s.
Definition crlf : Bytes := [CR; LF].
Definition sample_limits : SSELimits := mkLimits 8 16 64 4.
Definition sample_stream : Bytes :=
  (text_bytes "data: a" ++ crlf ++ text_bytes "data:b" ++ crlf ++ crlf
   ++ text_bytes "data: c" ++ [CR; CR])%list.
(** Cut after every byte but the carriage returns *)
Definition sample_chunks : list Bytes :=
  [firstn 3 sample_stream; firstn 14 (skipn 3 sample_stream); skipn 17 sample_stream; []].

Lemma events_do_not_depend_on_chunks_witness :
  sse_data sample_limits [sample_stream ++ [LF]]%list
  = ([(text_bytes "a" ++ LF :: text_bytes "b")%list; text_bytes "c"], Ok tt).
Proof.
  apply (proj2 (events_do_not_depend_on_chunks sample_limits [sample_stream ++ [LF]]%list _));
    [reflexivity|vm_compute; discriminate|by repeat constructor|vm_compute; reflexivity].
Defined.

Lemma decoded_events_are_limited_witness :
  sse_limits (VInt 8) (VInt 16) (VInt 64) (VInt 4) = Ok sample_limits /\
  (Z.of_nat (List.length (fst (sse_data sample_limits sample_chunks))) <= 4)%Z.
Proof.
  split; [reflexivity|].
  exact (proj2 (decoded_events_are_limited (VInt 8) (VInt 16) (VInt 64) (VInt 4) sample_limits
                  sample_chunks eq_refl)).
Defined.

(** A chunk that ends in a carriage return makes the decoder count the lines that it has
    already read: a response without any line that is too long is refused, although the
    reference accepts it, and so does the decoder if it is cut elsewhere. *)
Theorem carriage_return_at_chunk_end_refused :
  let stream := (text_bytes "data: a" ++ LF :: LF :: text_bytes "data: b" ++ [CR])%list in
  sse_data sample_limits [stream; [LF; LF]] = ([], Err ProviderProtocolError) /\
  sse_data sample_limits [removelast stream; [CR; LF; LF]] = ([text_bytes "a"; text_bytes "b"], Ok tt) /\
  decode_stream sample_limits (stream ++ [LF; LF]) = Ok [text_bytes "a"; text_bytes "b"].
Proof. split_and!; vm_compute; reflexivity. Qed.
