(* ===== verification/AgentTypes.v ===== *)
(** * Tools and contexts of an agent  (types.py, tool_contract.py)

    The tool definitions an agent is given, the context of a dispatch, the results of
    tools and of the hooks around them, and the contract that a runtime seals when it
    registers a tool.  The functions of a tool are calls to the outside; its record says
    which of them it has.  A tool object is its fields and its identity. *)

From S2P Require Import Prelude PyDict Text PyVal PyNum Json Sha256 Retry Approvals PlanTypes PlanDataflow Messages.
From Stdlib Require Import String.

#[local] Open Scope string_scope.
#[local] Open Scope bool_scope.
#[local] Open Scope Z_scope.

(** ** Tools *)

Inductive ExecutionMode := Parallel | Exclusive | ResourceLocked | Sequential.
#[export] Instance ExecutionMode_eq_dec : EqDecision ExecutionMode.
Proof. solve_decision. Defined.

Definition execution_mode_str (m : ExecutionMode) : string :=
  match m with
  | Parallel => "parallel"
  | Exclusive => "exclusive"
  | ResourceLocked => "resource_locked"
  | Sequential => "sequential"
  end.

Inductive ResourceAccess := ReadAccess | WriteAccess.
#[export] Instance ResourceAccess_eq_dec : EqDecision ResourceAccess.
Proof. solve_decision. Defined.

Definition access_str (a : ResourceAccess) : string :=
  match a with ReadAccess => "read" | WriteAccess => "write" end.

(** [AgentTool]; the callables are the identities of the functions it has. *)
Record AgentTool := mkTool {
  at_object : Z;
  at_name : string;
  at_description : string;
  at_parameters : pydict;
  at_execute : option Z;
  at_execute_with_context : option Z;
  at_validate_args : Z;
  at_prepare_arguments : option Z;
  at_resolve_resource_keys : option Z;
  at_resolve_tenant_id : option Z;
  at_execution_mode : option ExecutionMode;
  at_timeout_seconds : option pynum;
  at_retry_policy : option RetryPolicy;
  at_replay_policy : PlanReplayPolicy;
  at_priority : Z;
  at_resource_access : ResourceAccess;
  at_lock_timeout_seconds : option pynum;
  at_requires_approval : bool;
  at_implementation_version : string;
  at_security_policy_version : string;
  at_supports_resource_fencing : bool
}.

Definition positive_number (n : option pynum) : bool :=
  match n with Some x => negb (num_le x (NInt 0)) | None => true end.

(** [AgentTool.__post_init__] *)
Definition agent_tool_ok (t : AgentTool) : res unit :=
  let mode := at_execution_mode t in
  check! value_check (is_some (at_execute t) || is_some (at_execute_with_context t)) in
  check! value_check (positive_number (at_timeout_seconds t)) in
  check! value_check (negb (at_supports_resource_fencing t) || is_some (at_execute_with_context t)) in
  check! value_check (negb (at_supports_resource_fencing t)
                      || (bool_decide (mode = Some ResourceLocked)
                          && bool_decide (at_resource_access t = WriteAccess))) in
  check! value_check (negb (blank (at_implementation_version t))
                      && negb (blank (at_security_policy_version t))) in
  check! value_check (positive_number (at_lock_timeout_seconds t)) in
  check! value_check (negb (bool_decide (mode = Some ResourceLocked))
                      || is_some (at_resolve_resource_keys t)) in
  check! value_check (bool_decide (mode = Some ResourceLocked)
                      || negb (is_some (at_resolve_resource_keys t))) in
  value_check (bool_decide (mode = Some ResourceLocked)
               || bool_decide (at_resource_access t = WriteAccess)).

(** ** The sealed contract of a tool *)

Record ToolSecurityContract := mkContract {
  tc_name : string;
  tc_replay_policy : PlanReplayPolicy;
  tc_requires_approval : bool;
  tc_implementation_version : string;
  tc_security_policy_version : string;
  tc_execution_mode : option ExecutionMode;
  tc_resource_access : ResourceAccess;
  tc_supports_resource_fencing : bool;
  tc_handler_mode : string;
  tc_timeout_seconds : option pynum;
  tc_lock_timeout_seconds : option pynum;
  tc_priority : Z;
  tc_retry_policy : option RetryPolicy
}.

(** [tuple(sorted(codes))] of a set of codes *)
Definition sorted_codes (p : RetryPolicy) : RetryPolicy :=
  mkRetryPolicy (rp_max_retries p) (frozenset (rp_retryable_codes p)) (rp_idempotent p)
    (rp_initial_delay_seconds p) (rp_max_delay_seconds p) (rp_jitter_ratio p)
    (rp_max_elapsed_seconds p).

(** [ToolSecurityContract.capture] *)
Definition capture_contract (t : AgentTool) : ToolSecurityContract :=
  mkContract (at_name t) (at_replay_policy t) (at_requires_approval t)
    (at_implementation_version t) (at_security_policy_version t) (at_execution_mode t)
    (at_resource_access t) (at_supports_resource_fencing t)
    (if is_some (at_execute_with_context t) then "context" else "legacy")
    (at_timeout_seconds t) (at_lock_timeout_seconds t) (at_priority t)
    (option_map sorted_codes (at_retry_policy t)).

Definition retry_policy_dict (p : RetryPolicy) : pydict :=
  [("maxRetries", rp_max_retries p); ("retryableCodes", texts_value (rp_retryable_codes p));
   ("idempotent", VBool (rp_idempotent p));
   ("initialDelaySeconds", num_value (rp_initial_delay_seconds p));
   ("maxDelaySeconds", num_value (rp_max_delay_seconds p));
   ("jitterRatio", num_value (rp_jitter_ratio p));
   ("maxElapsedSeconds", num_value (rp_max_elapsed_seconds p))].

(** [ToolSecurityContract.to_dict] *)
Definition security_contract_dict (c : ToolSecurityContract) : pydict :=
  [("name", VStr (tc_name c)); ("replayPolicy", VStr (replay_policy_str (tc_replay_policy c)));
   ("requiresApproval", VBool (tc_requires_approval c));
   ("implementationVersion", VStr (tc_implementation_version c));
   ("securityPolicyVersion", VStr (tc_security_policy_version c));
   ("executionMode", opt_value (fun m => VStr (execution_mode_str m)) (tc_execution_mode c));
   ("resourceAccess", VStr (access_str (tc_resource_access c)));
   ("supportsResourceFencing", VBool (tc_supports_resource_fencing c));
   ("handlerMode", VStr (tc_handler_mode c));
   ("timeoutSeconds", opt_value num_value (tc_timeout_seconds c));
   ("lockTimeoutSeconds", opt_value num_value (tc_lock_timeout_seconds c));
   ("priority", VInt (tc_priority c));
   ("retryPolicy", opt_value (fun p => VDict (retry_policy_dict p)) (tc_retry_policy c))].

(** [ToolSecurityContract.digest] *)
Definition contract_digest (c : ToolSecurityContract) : res string :=
  let v := VDict (security_contract_dict c) in
  if strict_json v then Ok (json_digest v) else Err ValueError.

(** [c == c']: numbers compare by their value. *)
Definition same_contract (c c' : ToolSecurityContract) : bool :=
  py_eq (VDict (security_contract_dict c)) (VDict (security_contract_dict c')).

(** [tool_callable_identity] *)
Definition tool_callable_identity (t : AgentTool) : list (option Z) :=
  [at_execute t; at_execute_with_context t; Some (at_validate_args t); at_prepare_arguments t;
   at_resolve_resource_keys t; at_resolve_tenant_id t].

(** ** The context of a dispatch *)

Record ToolDispatchContext := mkDispatchContext {
  dc_identity : option VerifiedIdentity;
  dc_approval : pyval;
  dc_tenant_id : option string;
  dc_fencing_token : option Z;
  dc_fencing_scope : option string;
  dc_resource_fencing_token : option Z;
  dc_resource_fencing_scope : option string
}.

(** A fencing token with its scope, or neither *)
Definition fencing_pair_ok (token : option Z) (scope : option string) : res unit :=
  match token, scope with
  | Some n, Some s => value_check ((1 <=? n) && negb (blank s))
  | None, None => Ok tt
  | _, _ => Err ValueError
  end.

(** [ToolDispatchContext.__post_init__] *)
Definition dispatch_context (c : ToolDispatchContext) : res ToolDispatchContext :=
  check! value_check match dc_tenant_id c with Some s => negb (blank s) | None => true end in
  check! fencing_pair_ok (dc_fencing_token c) (dc_fencing_scope c) in
  check! fencing_pair_ok (dc_resource_fencing_token c) (dc_resource_fencing_scope c) in
  Ok (mkDispatchContext (dc_identity c) (dc_approval c) (option_map strip (dc_tenant_id c))
        (dc_fencing_token c) (dc_fencing_scope c) (dc_resource_fencing_token c)
        (dc_resource_fencing_scope c)).

(** ** Results *)

Record BeforeToolCallResult := mkBefore {
  bt_block : bool;
  bt_reason : option string;
  bt_terminate : bool
}.

(** [AfterToolCallResult]; [None] is a field left unset. *)
Record AfterToolCallResult := mkAfter {
  af_content : option pyval;
  af_details : option pyval;
  af_is_error : option pyval;
  af_usage : option pyval;
  af_terminate : option pyval
}.

(** [AgentContext] *)
Record AgentContext := mkAgentContext {
  ac_system_prompt : string;
  ac_messages : list pydict;
  ac_tools : list AgentTool
}.

Section ErrorResults.
Context (redact : string -> string).

Definition error_result (text : string) (terminate : bool) (details : pydict) : AgentToolResult :=
  mkToolResult (VList [VDict [("type", VStr "text"); ("text", VStr text)]])
    (redact_sensitive_data redact (VDict details)) VNone VNone
    (if terminate then VBool true else VNone).

(** [error_tool_result] (messages.py) of a text and of an exception *)
Definition error_tool_result (message : string) (terminate : bool) (details : pydict)
  : AgentToolResult :=
  error_result (message_text redact message "工具执行失败") terminate details.
Definition exception_tool_result (public_message : option string) (details : pydict)
  : AgentToolResult :=
  error_result (error_text redact public_message "工具执行失败") false details.
End ErrorResults.
