(* ===== verification/AgentWorld.v ===== *)
(** * The world of an agent run

    The points at which the agent loop (loop.py) and the tool runtime (tool_runtime.py)
    look at or act on what is outside of them: observers, hooks, the model, the tools,
    the scheduler of tools, clocks and cancellation.  An [AgentWorld] answers from the
    history of the run so far; only the budget of the run is a state of the program. *)

From S2P Require Import Prelude Tasks PyDict Text PyVal PyNum Retry Approvals PlanTypes AgentTypes.
From Stdlib Require Import String.

#[local] Open Scope string_scope.
#[local] Open Scope bool_scope.
#[local] Open Scope Z_scope.

(** A lease of the scheduler of tools, with its fencing token and whether it is kept by
    a heartbeat *)
Record ScheduleLease := mkLease {
  sl_resource_fencing_token : option Z;
  sl_resource_fencing_scope : option string;
  sl_heartbeat : bool
}.

(** Why the runtime stops waiting for an execution *)
Inductive interruption := TimedOut | CallCancelled (reason : string).

(** The events of one call that later code asks about *)
Inductive signal := ExecutionStarted | HandlerDispatched.

(** A model's response: its events, how their iteration ends, and the result *)
Record ModelResponse := mkResponse {
  mr_events : list pydict;
  mr_iteration : res unit;
  mr_result : res pydict
}.

(** [TurnCompletedContext], [AgentLoopTurnUpdate] *)
Record TurnCompletedContext := mkTurn {
  tu_message : pydict;
  tu_tool_results : list pydict;
  tu_context : AgentContext;
  tu_new_messages : list pydict
}.
Record AgentLoopTurnUpdate := mkUpdate {
  up_context : option AgentContext;
  up_model : option pydict;
  up_thinking_level : option string;
  up_stream_options : option pydict
}.

Inductive agent_action : Type :=
(** observers *)
| Emit (event : pydict)
| SinkRetryEvent (event : pydict)
(** the interpreter *)
| NowMs
| FreshId
| ReadMonotonic
| ReadRandom
(** cancellation *)
| LookCancelled
| LookCallToken (call_id : string)
| Sleep (call_id : string) (milliseconds : Z)
| WatchCall (call_id : string)
| CallTokenReason (call_id : string)
(** the functions of a tool *)
| PrepareArguments (tool : AgentTool) (args : pyval)
| ValidateArguments (tool : AgentTool) (args : pyval)
| ResolveResourceKeys (tool : AgentTool) (args : pyval)
| CallHandler (tool : AgentTool) (call_id : string) (args : pyval)
    (context : option ToolDispatchContext) (attempt : Z)
| SettleUpdates (call_id : string)
| Signal (call_id : string) (s : signal)
(** the guards and hooks around a tool *)
| Authorize (tool : AgentTool) (args : pyval) (context : ToolDispatchContext)
| AuthorizeLegacy (tool : AgentTool) (args : pyval) (context : ToolDispatchContext)
| BeforeToolCall (call : pydict) (args : pyval)
| AfterToolCall (call : pydict) (args : pyval) (result : AgentToolResult) (is_error : bool)
(** the scheduler of tools *)
| AcquireLease (tool : AgentTool) (args : pyval) (tenant_id : option string)
| LookHeartbeat (call_id : string)
| ReleaseLease (call_id : string)
(** the budget of the run *)
| ChargeRetry (limit : Z)
(** the hooks of the loop and the model *)
| GetSteeringMessages
| GetFollowUpMessages
| TransformContext (messages : list pydict)
| InspectModelInput (messages : list pydict)
| ConvertToLlm (messages : list pydict)
| GetApiKey (provider : pyval)
| DurableMetadata
| StreamModel (model : pydict) (context options : pydict)
| InspectModelOutput (message : pydict)
| PrepareNextTurn (turn : TurnCompletedContext)
| ShouldStopAfterTurn (turn : TurnCompletedContext).

Definition agent_answer (a : agent_action) : Type :=
  match a with
  | Emit _ | SinkRetryEvent _ | Sleep _ _ | SettleUpdates _ | Signal _ _ | ReleaseLease _ => unit
  | NowMs => Z
  | FreshId | CallTokenReason _ => string
  | ReadMonotonic | ReadRandom => pynum
  | LookCancelled | LookCallToken _ | LookHeartbeat _ | Authorize _ _ _ | AuthorizeLegacy _ _ _
  | ShouldStopAfterTurn _ => bool
  | WatchCall _ => option interruption
  | PrepareArguments _ _ | ValidateArguments _ _ | ResolveResourceKeys _ _ | InspectModelInput _
  | GetApiKey _ | DurableMetadata | InspectModelOutput _ => pyval
  | CallHandler _ _ _ _ _ => AgentToolResult
  | BeforeToolCall _ _ => option BeforeToolCallResult
  | AfterToolCall _ _ _ _ => option AfterToolCallResult
  | AcquireLease _ _ _ => ScheduleLease
  | ChargeRetry _ => bool * Z * bool
  | GetSteeringMessages | GetFollowUpMessages | TransformContext _ | ConvertToLlm _ => list pydict
  | StreamModel _ _ _ => ModelResponse
  | PrepareNextTurn _ => option AgentLoopTurnUpdate
  end.

Abbreviation Prog := (Tasks.Prog agent_answer).
Abbreviation do_action := (Tasks.do_action (answer := agent_answer)).

(** What has happened, newest first *)
Inductive agent_entry : Type :=
| Acted (a : agent_action) (r : res (agent_answer a))
| Interrupted (task : nat).
Abbreviation history := (list agent_entry).

Record AgentWorld := mkWorld {
  aw_answer : history -> forall a : agent_action, res (agent_answer a);
  (** which unfinished task of a batch goes on, whether it meets the cancellation of its
      batch, and whether the wait for the batch is cut short *)
  aw_schedule : history -> nat;
  aw_interrupts : history -> bool;
  aw_stops : history -> option exn
}.

(** [_RunBudgetState] *)
Record RunBudget := mkBudget {
  rb_turns_used : Z;
  rb_tool_calls_used : Z;
  rb_tool_budget_exceeded : bool
}.

Record AgentRun := mkRun { ru_budget : RunBudget; ru_history : history }.

(** [try_consume_retry_attempt]: whether the attempt is admitted, the calls used, and
    whether this is the first denial *)
Definition try_consume_retry_attempt (limit : Z) (b : RunBudget) : (bool * Z * bool) * RunBudget :=
  let used := rb_tool_calls_used b in
  if rb_tool_budget_exceeded b then ((false, used, false), b) else
  if limit <=? used then ((false, used, true), mkBudget (rb_turns_used b) used true) else
  ((true, used + 1, false), mkBudget (rb_turns_used b) (used + 1) false).

Abbreviation exec := (Tasks.exec AgentRun).

Section Running.
Context (W : AgentWorld).

Definition noting (n : agent_entry) (x : AgentRun) : AgentRun :=
  mkRun (ru_budget x) (n :: ru_history x).

(** One action *)
Definition perform_agent (a : agent_action) (x : AgentRun) : res (agent_answer a) * AgentRun :=
  match a return res (agent_answer a) * AgentRun with
  | ChargeRetry limit =>
      let (v, b) := try_consume_retry_attempt limit (ru_budget x) in
      (Ok v, mkRun b (Acted (ChargeRetry limit) (Ok v) :: ru_history x))
  | a => let r := aw_answer W (ru_history x) a in (r, noting (Acted a r) x)
  end.

(** A program with nothing in between *)
Definition run {A : Type} (p : Prog A) : exec A := fun x => Some (run_prog perform_agent p x).

(** Tasks that run at the same time, as [asyncio.gather] runs them *)
Definition gather {A : Type} (fuel : nat) (tasks : list (Prog A)) : exec (list A) :=
  run_tasks perform_agent (fun x => aw_schedule W (ru_history x))
    (fun x => aw_stops W (ru_history x)) (fun x => aw_interrupts W (ru_history x))
    (fun i x => noting (Interrupted i) x) fuel (failed_first tasks) tasks.
End Running.
