(* ===== verification/AgentTraces.v ===== *)
(** * The traces of an agent's run

    What a history says of handlers, retries and requests; programs that do none of these
    ([calm_to]); and how a run grows the history by the traces of its programs
    ([run_ok], [gather_ok]), whatever the world answers and in whatever order tasks go. *)

From S2P Require Import Prelude PyDict Text PyVal PyNum Retry Approvals Service Tasks.
From S2P Require Import AgentTypes AgentWorld.
From Stdlib Require Import String.

#[local] Open Scope string_scope.
#[local] Open Scope bool_scope.
#[local] Open Scope Z_scope.

(** ** What a trace says *)

Definition is_handler_call (e : agent_entry) : bool :=
  match e with Acted (CallHandler _ _ _ _ _) _ => true | _ => false end.
Definition is_grant (e : agent_entry) : bool :=
  match e with Acted (ChargeRetry _) (Ok (admitted, _, _)) => admitted | _ => false end.
Definition is_model_request (e : agent_entry) : bool :=
  match e with Acted (StreamModel _ _ _) _ => true | _ => false end.

Definition count_of (f : agent_entry -> bool) (h : history) : nat := List.length (List.filter f h).
Abbreviation handlers := (count_of is_handler_call).
Abbreviation grants := (count_of is_grant).
Abbreviation requests := (count_of is_model_request).

Lemma count_cons f e h : count_of f (e :: h) = ((if f e then 1 else 0) + count_of f h)%nat.
Proof. unfold count_of. cbn. by destruct (f e). Qed.

Lemma count_of_app f h h' : count_of f (h ++ h')%list = (count_of f h + count_of f h')%nat.
Proof. unfold count_of. by rewrite List.filter_app, length_app. Qed.

Lemma count_permutation f h h' : h ≡ₚ h' -> count_of f h = count_of f h'.
Proof. induction 1; rewrite ?count_cons; lia. Qed.

Lemma count_concat f ts : count_of f (List.concat ts) = list_sum (map (count_of f) ts).
Proof.
  induction ts as [|t ts IH]; [done|]. rewrite List.concat_cons, count_of_app, IH. done.
Qed.

(** An exception that the runtime takes to say that nothing was committed, or that the
    call may be repeated: whoever raises one of these is believed. *)
Definition denies (e : exn) : bool :=
  match e with
  | DefinitelyNotCommittedToolError _ _ | RetryableToolError _ _ _ _ | ToolAttemptAdmissionDenied _
  | ResourceLockTimeoutError | ResourceLeaseLostError false | TenantContextError _ => true
  | _ => false
  end.

(** Something outside - the handler, a hook, an observer, the scheduler - raised one. *)
Definition excuses (e : agent_entry) : bool :=
  match e with Acted a (Err e) => denies e | _ => false end.

Definition is_signal (s : signal) (e : agent_entry) : bool :=
  match e with
  | Acted (Signal _ s') _ =>
      match s, s' with
      | ExecutionStarted, ExecutionStarted | HandlerDispatched, HandlerDispatched => true
      | _, _ => false
      end
  | _ => false
  end.

Abbreviation dispatched := (existsb is_handler_call).
Abbreviation excused := (existsb excuses).
Abbreviation told s := (existsb (is_signal s)).

Lemma not_dispatched t : handlers t = O -> dispatched t = false.
Proof.
  induction t as [|e t IH]; [done|]. rewrite count_cons. cbn. destruct (is_handler_call e); [lia|done].
Qed.

(** The actions that the run of a call may take: they name it, or no call at all. *)
Definition of_call (tool : AgentTool) (id : string) (a : agent_action) : bool :=
  match a with
  | Emit event | SinkRetryEvent event =>
      match jget event "toolCallId" with VStr i => String.eqb i id | _ => true end
  | LookCallToken i | Sleep i _ | WatchCall i | CallTokenReason i | SettleUpdates i | Signal i _
  | LookHeartbeat i | ReleaseLease i | CallHandler _ i _ _ _ => String.eqb i id
  | AcquireLease t _ _ => at_object t =? at_object tool
  | AfterToolCall _ _ _ _ | ChargeRetry _ | NowMs | FreshId | ReadMonotonic | ReadRandom => true
  | _ => false
  end.

(** ** Quiet programs

    They take only some actions - those that call no handler, charge no retry and ask no
    model, or fewer; what is known of them is whether an exception they raise that
    denies a commit was raised to them. *)
Definition quiet_action (a : agent_action) : Prop :=
  match a with
  | CallHandler _ _ _ _ _ | ChargeRetry _ | StreamModel _ _ _ | WatchCall _ => False
  | _ => True
  end.

Definition raises_denial {A} (r : res A) : bool := match r with Err e => denies e | Ok _ => false end.

Definition sincere {A} (r : res A) (g : bool) : Prop := raises_denial r = true -> g = true.

Lemma sincere_or {A} (r : res A) g : sincere r (g || raises_denial r).
Proof. intros ->. by destruct g. Qed.

Definition quiet_rule_in (allowed : agent_action -> Prop) : ActionRule agent_answer bool.
Proof.
  refine (mkActionRule (fun a g k => allowed a /\ forall r, k r (g || raises_denial r)) _).
  intros a g k k' H [Ha Hk]. auto.
Defined.

(** Programs of which only the value they return is asked *)
Definition calm_in (allowed : agent_action -> Prop) {A} (F : A -> Prop) (q : Prog A) : Prop :=
  forall g, prog_ok (quiet_rule_in allowed) (fun r _ => match r with Ok v => F v | Err _ => True end) q g.

Section Quiet.
Context {allowed : agent_action -> Prop}.
Abbreviation quiet_prog p := (forall g, prog_ok (quiet_rule_in allowed) sincere p g).
Abbreviation calm_to := (calm_in allowed).
Abbreviation calm q := (calm_in allowed (fun _ => True) q).

Lemma quiet_done {A} (r : res A) : raises_denial r = false -> quiet_prog (Done r).
Proof. intros H g. cbn. unfold sincere. by rewrite H. Qed.

Lemma quiet_act a : allowed a -> quiet_prog (do_action a).
Proof. intros H g. split; [done|]. intros r. apply sincere_or. Qed.

Lemma quiet_sequel {A B} (p : Prog A) (f : res A -> Prog B) :
  quiet_prog p -> (forall r g, sincere r g -> prog_ok (quiet_rule_in allowed) sincere (f r) g) ->
  quiet_prog (sequel p f).
Proof.
  intros Hp Hf g. apply prog_ok_sequel. eapply prog_ok_mono; [|apply Hp]. intros r g'. apply Hf.
Qed.

Lemma quiet_then {A B} (p : Prog A) (f : A -> Prog B) :
  quiet_prog p -> (forall v, quiet_prog (f v)) -> quiet_prog (then_do p f).
Proof. intros Hp Hf. apply quiet_sequel; [done|]. intros [v|e] g H; [apply Hf|exact H]. Qed.

Lemma quiet_for_each {A B} (f : A -> B -> Prog B) l :
  (forall a b, quiet_prog (f a b)) -> forall b, quiet_prog (prog_for_each f l b).
Proof. intros Hf. induction l as [|a l IH]; intros b; [by apply quiet_done|]. by apply quiet_then. Qed.

Lemma calm_done {A} (F : A -> Prop) (r : res A) :
  (forall v, r = Ok v -> F v) -> calm_to F (Done r).
Proof. intros H g. destruct r; [by apply H|done]. Qed.

Lemma calm_value {A} (F : A -> Prop) v : F v -> calm_to F (return_value v).
Proof. by intros H g. Qed.

Lemma calm_ends {A} (r : res A) : calm (Done r).
Proof. by apply calm_done. Qed.

Lemma calm_act a : allowed a -> calm (do_action a).
Proof. intros H g. split; [done|]. by intros [v|e]. Qed.

Lemma calm_then {A B} F F' (q : Prog A) (f : A -> Prog B) :
  calm_to F q -> (forall v, F v -> calm_to F' (f v)) -> calm_to F' (then_do q f).
Proof.
  intros Hq Hf g. apply prog_ok_then. eapply prog_ok_mono; [|apply Hq].
  intros [v|e] g' H; [by apply Hf|done].
Qed.

Lemma calm_sequel {A B} F (q : Prog A) (f : res A -> Prog B) :
  calm q -> (forall r, calm_to F (f r)) -> calm_to F (sequel q f).
Proof.
  intros Hq Hf g. apply prog_ok_sequel. eapply prog_ok_mono; [|apply Hq]. intros r g' _. apply Hf.
Qed.

Lemma calm_bind {A B} F (q : Prog A) (f : A -> Prog B) :
  calm q -> (forall v, calm_to F (f v)) -> calm_to F (then_do q f).
Proof. intros Hq Hf. by eapply calm_then. Qed.

Lemma calm_for_each {A B} (F : list A -> B -> Prop) (f : A -> B -> Prog B) :
  (forall a l b, F (a :: l) b -> calm_to (F l) (f a b)) ->
  forall l b, F l b -> calm_to (F []) (prog_for_each f l b).
Proof.
  intros Hf. induction l as [|a l IH]; intros b H; [by apply calm_value|].
  eapply calm_then; [by apply Hf|]. apply IH.
Qed.

Lemma calm_wider (wider : agent_action -> Prop) {A} (F : A -> Prop) (q : Prog A) :
  (forall a, allowed a -> wider a) -> calm_to F q -> calm_in wider F q.
Proof.
  intros H Hq g. specialize (Hq g). revert g Hq. induction q as [r|a k IH]; intros g; [done|].
  intros [Ha Hk]. split; [by apply H|]. intros r. apply IH, Hk.
Qed.
End Quiet.

Abbreviation quiet_rule := (quiet_rule_in quiet_action).
Abbreviation quiet_prog p := (forall g, prog_ok quiet_rule sincere p g).
Abbreviation calm_to := (calm_in quiet_action).
Abbreviation calm q := (calm_in quiet_action (fun _ => True) q).

Create HintDb calm.
#[export] Hint Resolve calm_ends calm_act calm_bind : calm.
#[export] Hint Extern 0 (quiet_action _) => exact I : calm.

(** A calm program adds no call of a handler, no retry and no request. *)
Definition quiet_entry (e : agent_entry) : Prop :=
  match e with Acted a _ => quiet_action a | Interrupted _ => True end.
Abbreviation quiet_trace := (Forall quiet_entry).

(** ** What a run adds *)

Definition charges (limit : Z) (e : agent_entry) : Prop :=
  match e with Acted (ChargeRetry l) _ => l = limit | _ => True end.

(** The state after [new] has happened: the budget counts the retries it admitted, and
    stays within the limit they were charged to. *)
Record extends (new : history) (x x' : AgentRun) : Prop := {
  ex_history : ru_history x' = (new ++ ru_history x)%list;
  ex_turns : rb_turns_used (ru_budget x') = rb_turns_used (ru_budget x);
  ex_calls : rb_tool_calls_used (ru_budget x')
             = rb_tool_calls_used (ru_budget x) + Z.of_nat (grants new);
  ex_limit : forall limit, Forall (charges limit) new ->
    rb_tool_calls_used (ru_budget x) <= limit -> rb_tool_calls_used (ru_budget x') <= limit
}.

Lemma extends_refl x : extends [] x x.
Proof. constructor; [done..|cbn; lia|done]. Qed.

Lemma extends_trans new new' x y z :
  extends new x y -> extends new' y z -> extends (new' ++ new)%list x z.
Proof.
  intros [H1 H2 H3 H4] [H5 H6 H7 H8]. constructor.
  - by rewrite H5, H1, app_assoc.
  - congruence.
  - rewrite count_of_app. lia.
  - intros limit [Hn' Hn]%Forall_app Hle. auto.
Qed.

Section Running.
Context (W : AgentWorld).

Lemma perform_extends a x r x' : perform_agent W a x = (r, x') -> extends [Acted a r] x x'.
Proof.
  destruct a; cbn; try by (intros [= <- <-]; constructor; [done..|cbn; lia|done]).
  unfold try_consume_retry_attempt.
  destruct (rb_tool_budget_exceeded (ru_budget x)); [|destruct (Z.leb_spec limit (rb_tool_calls_used (ru_budget x)))];
    intros [= <- <-]; constructor; cbn; try done; try lia.
  intros l [-> _]%Forall_cons _. lia.
Qed.

Lemma interrupted_extends i x : extends [Interrupted i] x (noting (Interrupted i) x).
Proof. constructor; [done..|cbn; lia|done]. Qed.

(** A program with nothing in between adds its trace. *)
Lemma run_ok {A} I (Q : res A -> history -> Prop) q x :
  I [] -> prog_ok (trace_rule Acted I) Q q [] ->
  ends (run W q) x (fun r x' => exists t, extends t x x' /\ I t /\ Q r t).
Proof.
  intros HI Hq. unfold run, ends. destruct (run_prog (perform_agent W) q x) as [r x'] eqn:E.
  exists r, x'. split; [done|].
  set (J ts y := exists t, ts = [t] /\ extends t x y).
  assert (Hp : forall ts i t y a r y', J ts y -> ts !! i = Some t -> perform_agent W a y = (r, y') ->
             J (<[i := Acted a r :: t]> ts) y').
  { intros ts i t y a v y' (t0 & -> & Ht0) Hi Ha. destruct i as [|i]; [|done]. injection Hi as <-.
    exists (Acted a v :: t0). split; [done|]. apply (extends_trans t0 [Acted a v] x y y'); [done|].
    by apply perform_extends. }
  destruct (run_prog_traces Acted (perform_agent W) J Hp I Q q x r x' [] E) as (t & (t' & [= <-] & Ht) & H);
    [by exists []; split; [|apply extends_refl]|done..|by exists t].
Qed.

Definition uninterrupted (h : history) : history :=
  List.filter (fun e => match e with Interrupted _ => false | Acted _ _ => true end) h.

(** What holds of the state while tasks run, given their traces *)
Definition tasks_added (x : AgentRun) (ts : list history) (y : AgentRun) : Prop :=
  exists new, extends new x y /\ uninterrupted new ≡ₚ List.concat ts.

Lemma concat_insert (ts : list history) i t e :
  ts !! i = Some t -> List.concat (<[i := e :: t]> ts) ≡ₚ e :: List.concat ts.
Proof.
  revert i. induction ts as [|t0 ts IH]; intros [|i] H; cbn in *; [done..|by simplify_eq|].
  rewrite (IH _ H). symmetry. apply Permutation_middle.
Qed.

(** Concurrent tasks add their traces, interleaved. *)
Lemma gather_ok {A} fuel (tasks : list (Prog A)) x ns I Q :
  Forall2 within tasks ns -> (list_sum ns < fuel)%nat ->
  (forall i q, tasks !! i = Some q -> I i [] /\ prog_ok (trace_rule Acted (I i)) (Q i) q []) ->
  ends (gather W fuel tasks) x (fun r x' => exists ts,
    tasks_added x ts x' /\ List.length ts = List.length tasks /\ (forall i t, ts !! i = Some t -> I i t) /\
    forall vs, r = Ok vs -> List.length vs = List.length tasks /\
      forall i t v, ts !! i = Some t -> vs !! i = Some v -> Q i (Ok v) t).
Proof.
  intros Hns Hfuel Htasks. unfold gather. eapply run_tasks_traces; try done.
  - intros ts i t y a r y' (new & Hy & Hnew) Hi Ha. exists (Acted a r :: new). split.
    + apply (extends_trans new [Acted a r] x y y'); [done|by apply perform_extends].
    + rewrite (concat_insert _ _ _ _ Hi), <- Hnew. done.
  - intros ts i y (new & Hy & Hnew). exists (Interrupted i :: new). split; [|done].
    apply (extends_trans new [Interrupted i] x y _); [done|apply interrupted_extends].
  - exists []. split; [apply extends_refl|]. clear. by induction (List.length tasks).
Qed.

Lemma calm_traces {A} (post : res A -> bool -> Prop) (q : Prog A) g t :
  prog_ok quiet_rule post q g -> quiet_trace t ->
  prog_ok (trace_rule Acted quiet_trace) (fun r t' => quiet_trace t' /\ exists g', post r g') q t.
Proof.
  revert g t. induction q as [r|a k IH]; intros g t Hq Ht; [by split; [|exists g]|].
  destruct Hq as [Ha Hk]. intros r. assert (quiet_trace (Acted a r :: t)) by by constructor.
  split; [done|]. eapply IH; [apply Hk|done].
Qed.

Lemma run_calm {A} F (q : Prog A) x :
  calm_to F q ->
  ends (run W q) x (fun r x' => exists t, extends t x x' /\ quiet_trace t /\ forall v, r = Ok v -> F v).
Proof.
  intros Hq. eapply ends_mono; [|apply (run_ok quiet_trace); [constructor|by eapply calm_traces; [apply (Hq false)|]]].
  intros r x' (t & H1 & H2 & _ & g & H3). exists t. split_and!; [done..|]. by intros v ->.
Qed.
End Running.
