(* ===== verification/ToolDispatch.v ===== *)
(** * The dispatch of tools  (src/.../tool_runtime.py, [ToolDispatchRuntime])

    The one boundary through which an agent runs tools: calls are made canonical, all of
    a batch before any of them is authorised; guards and hooks decide on each; what they
    let through runs one after the other or in groups of concurrent tasks, each attempt
    under a lease of the scheduler; and what an execution ends with is classified, so
    that a side effect that may have happened is never reported as one that did not. *)

From S2P Require Import Prelude PyDict Text PyVal PyNum Json Retry RetryLoop Approvals Service.
From S2P Require Import PlanTypes Messages Tasks AgentTypes AgentWorld.
From stdpp Require Import pretty.
From Stdlib Require Import String.

#[local] Open Scope string_scope.
#[local] Open Scope bool_scope.
#[local] Open Scope Z_scope.
#[local] Open Scope prog_scope.
#[local] Open Scope exec_scope.
#[local] Arguments blank : simpl never.

(** ** The runtime *)

(** [_RegisteredTool]; [self.tools] holds the same objects. *)
Record RegisteredTool := mkRegistered {
  rg_object : Z;
  rg_contract : ToolSecurityContract;
  rg_callable_identity : list (option Z);
  rg_generation : Z
}.

Record ToolDispatchRuntime := mkRuntime {
  td_registrations : dict RegisteredTool;
  td_registration_id : string;
  td_next_tool_generation : Z;
  td_before_tool_call : bool;
  td_after_tool_call : bool;
  td_authorization : bool;
  td_require_identity : bool;
  td_authorize : bool;
  td_retry_event_sink : bool;
  td_default_tool_timeout_seconds : option pynum;
  td_default_tenant_id : option string
}.

Definition with_registration (name : string) (g : RegisteredTool) (r : ToolDispatchRuntime)
  : ToolDispatchRuntime :=
  mkRuntime (dset name g (td_registrations r)) (td_registration_id r)
    (td_next_tool_generation r + 1) (td_before_tool_call r) (td_after_tool_call r)
    (td_authorization r) (td_require_identity r) (td_authorize r) (td_retry_event_sink r)
    (td_default_tool_timeout_seconds r) (td_default_tenant_id r).

(** [ToolDispatchError], which is a [RuntimeError] *)
Definition dispatch_require (b : bool) : res unit := if b then Ok tt else Err RuntimeError.

(** What [assert_registered_tool] compares with the registration *)
Definition assert_sealed (g : RegisteredTool) (t : AgentTool) : res unit :=
  check! dispatch_require (rg_object g =? at_object t) in
  dispatch_require (same_contract (capture_contract t) (rg_contract g)
                    && bool_decide (tool_callable_identity t = rg_callable_identity g)).

(** [assert_registered_tool] *)
Definition assert_registered_tool (r : ToolDispatchRuntime) (t : AgentTool)
    (expected_contract_digest : option string) : res ToolSecurityContract :=
  match dget (at_name t) (td_registrations r) with
  | None => Err RuntimeError
  | Some g =>
      check! assert_sealed g t in
      check! match expected_contract_digest with
             | None => Ok tt
             | Some d => let! d' := contract_digest (rg_contract g) in
                         dispatch_require (String.eqb d' d)
             end in
      Ok (rg_contract g)
  end.

(** [register_tools], one tool *)
Definition register_tool (r : ToolDispatchRuntime) (t : AgentTool) : res ToolDispatchRuntime :=
  match dget (at_name t) (td_registrations r) with
  | Some g =>
      check! dispatch_require (rg_object g =? at_object t) in
      let! _ := assert_registered_tool r t None in Ok r
  | None =>
      Ok (with_registration (at_name t)
            (mkRegistered (at_object t) (capture_contract t) (tool_callable_identity t)
               (td_next_tool_generation r)) r)
  end.
Definition register_tools (r : ToolDispatchRuntime) (tools : list AgentTool)
  : res ToolDispatchRuntime := foldM register_tool r tools.

(** ** Calls *)

Record PreparedToolCall := mkPrepared {
  pt_tool_call : pydict;
  pt_tool : AgentTool;
  pt_args : pyval;
  pt_dispatch_context : ToolDispatchContext;
  pt_trusted_tenant_id : option string;
  pt_runtime_registration_id : string;
  pt_tool_contract_digest : string;
  pt_tool_registration_generation : Z
}.

Definition with_context (context : ToolDispatchContext) (p : PreparedToolCall) : PreparedToolCall :=
  mkPrepared (pt_tool_call p) (pt_tool p) (pt_args p) context (pt_trusted_tenant_id p)
    (pt_runtime_registration_id p) (pt_tool_contract_digest p) (pt_tool_registration_generation p).

Definition with_tenant (tenant_id : option string) (p : PreparedToolCall) : PreparedToolCall :=
  mkPrepared (pt_tool_call p) (pt_tool p) (pt_args p) (pt_dispatch_context p) tenant_id
    (pt_runtime_registration_id p) (pt_tool_contract_digest p) (pt_tool_registration_generation p).

Record ImmediateToolCall := mkImmediate {
  im_result : AgentToolResult;
  im_tool_call : option pydict;
  im_args : pyval;
  im_batch_reject : bool
}.

Inductive preparation :=
| CallPrepared (p : PreparedToolCall)
| CallImmediate (i : ImmediateToolCall).

(** [ToolDispatchOutcome], and with the message that is built for it once *)
Record ToolDispatchOutcome := mkOutcome {
  to_tool_call : pydict;
  to_result : AgentToolResult;
  to_is_error : bool;
  to_args : pyval
}.
Definition completed : Type := ToolDispatchOutcome * pydict.

Record ToolDispatchBatch := mkBatch {
  tb_outcomes : list ToolDispatchOutcome;
  tb_messages : list pydict;
  tb_terminate : bool
}.

(** [str(call.get(key, ""))] *)
Definition text_of (call : pydict) (key : string) : res string := py_str (jget_or call key (VStr "")).

Definition emit (event : pydict) : Prog unit := do_action (Emit event).

(** [_emit_tool_start] *)
Definition emit_tool_start (call : pydict) : Prog unit :=
  do! id := Done (text_of call "id") in
  do! name := Done (text_of call "name") in
  emit [("type", VStr "tool_execution_start"); ("toolCallId", VStr id); ("toolName", VStr name);
        ("args", jget_or call "arguments" (VDict []))].

(** The entries of a result that are there only when they are set *)
Definition usage_entry (r : AgentToolResult) : pydict :=
  if is_none (tr_usage r) then [] else [("usage", tr_usage r)].
Definition added_names_entry (r : AgentToolResult) : res pydict :=
  if truthy (tr_added_tool_names r)
  then let! l := py_list (tr_added_tool_names r) in Ok [("addedToolNames", VList l)]
  else Ok [].

(** [_tool_result_message] *)
Definition tool_result_message (o : ToolDispatchOutcome) : Prog pydict :=
  let r := to_result o in
  do! id := Done (text_of (to_tool_call o) "id") in
  do! name := Done (text_of (to_tool_call o) "name") in
  do! now := do_action NowMs in
  do! names := Done (added_names_entry r) in
  return_value
    ([("role", VStr "toolResult"); ("toolCallId", VStr id); ("toolName", VStr name);
      ("content", if truthy (tr_content r) then tr_content r else VList []);
      ("details", tr_details r); ("isError", VBool (to_is_error o)); ("timestamp", VInt now)]
     ++ usage_entry r ++ names)%list.

(** [_result_payload] *)
Definition result_payload (r : AgentToolResult) : res pydict :=
  let! names := added_names_entry r in
  Ok ([("content", tr_content r); ("details", tr_details r)] ++ usage_entry r ++ names
      ++ if is_none (tr_terminate r) then [] else [("terminate", tr_terminate r)])%list.

(** [_emit_tool_end], and the message it builds *)
Definition emit_tool_end (o : ToolDispatchOutcome) : Prog completed :=
  do! message := tool_result_message o in
  do! id := Done (text_of (to_tool_call o) "id") in
  do! name := Done (text_of (to_tool_call o) "name") in
  do! payload := Done (result_payload (to_result o)) in
  do! _ := emit [("type", VStr "tool_execution_end"); ("toolCallId", VStr id); ("toolName", VStr name);
                 ("result", VDict payload); ("isError", VBool (to_is_error o));
                 ("toolResultMessage", VDict message)] in
  return_value (o, message).

(** [_emit_result_message] *)
Definition emit_result_message (message : pydict) : Prog unit :=
  do! _ := emit [("type", VStr "message_start"); ("message", VDict message)] in
  emit [("type", VStr "message_end"); ("message", VDict message)].

Section Dispatch.
(** [redact_sensitive_text], the attribute [public_message] of an exception, and the
    format [:g] of a number *)
Context (redact : string -> string) (public_message : exn -> option string).
Context (format_g : pynum -> string).
Context (R : ToolDispatchRuntime).

Abbreviation error_tool_result := (error_tool_result redact).
Abbreviation exception_tool_result := (exception_tool_result redact).

Definition not_retryable (code : string) : pydict :=
  [("code", VStr code); ("retryable", VBool false)].

(** ** Canonical calls *)

Definition rejected (r : AgentToolResult) : preparation := CallImmediate (mkImmediate r None VNone true).
Definition policy_invalid (text : string) : preparation :=
  rejected (error_tool_result text false (not_retryable "tool_policy_invalid")).

(** [_canonicalize] once the tool is found: its arguments, as its own functions see
    them, are the only ones that later code gets. *)
Definition canonical_arguments (tool : AgentTool) (raw : pyval) : Prog pyval :=
  do! args := (if is_some (at_prepare_arguments tool) then do_action (PrepareArguments tool raw)
               else return_value raw) in
  do! args := do_action (ValidateArguments tool args) in
  match args with VDict _ => return_value args | _ => throw_error TypeError end.

Definition canonical_call (tool : AgentTool) (g : RegisteredTool) (call : pydict) (args : pyval)
  : Prog preparation :=
  do! digest := Done (contract_digest (rg_contract g)) in
  return_value (CallPrepared
    (mkPrepared (dset "arguments" args (dset "name" (VStr (at_name tool)) call)) tool args
       (mkDispatchContext None VNone None None None None None) None (td_registration_id R) digest
       (rg_generation g))).

Definition arguments_invalid (r : AgentToolResult) : preparation := rejected r.

(** The tool that a call names, among those of the context *)
Definition called_tool (call : pydict) (tools : list AgentTool)
  : preparation + (AgentTool * RegisteredTool) :=
  let name := match jget call "name" with VStr s => strip s | _ => "" end in
  let allowed := map at_name tools in
  if negb (distinct allowed) then inl (policy_invalid "当前轮 Tool 白名单包含重复名称") else
  if negb (nonempty name) || negb (mem_str name allowed) then
    inl (rejected (error_tool_result ("当前轮不允许工具：" ++ (if nonempty name then name else "<empty>"))
                     false (not_retryable "tool_not_allowed")))
  else match dget name (td_registrations R),
             find_first (fun t => String.eqb (at_name t) name) tools with
  | None, _ => inl (rejected (error_tool_result ("工具不存在：" ++ name) false
                                (not_retryable "tool_not_found")))
  | Some _, None => inl (policy_invalid ("工具 " ++ name ++ " 与当前轮受信注册实例不一致"))
  | Some g, Some t =>
      if negb (rg_object g =? at_object t)
      then inl (policy_invalid ("工具 " ++ name ++ " 与当前轮受信注册实例不一致")) else
      match assert_registered_tool R t None with
      | Ok _ => inr (t, g)
      | Err e => inl (rejected (exception_tool_result (public_message e)
                                  (not_retryable "tool_policy_invalid")))
      end
  end.

(** [_canonicalize] *)
Definition canonicalize (call : pydict) (tools : list AgentTool) : Prog preparation :=
  match called_tool call tools with
  | inl i => return_value i
  | inr (tool, g) =>
      match jget_or call "arguments" (VDict []) with
      | VDict raw =>
          sequel (canonical_arguments tool (VDict raw)) (fun r =>
            match r with
            | Ok args => canonical_call tool g call args
            | Err e =>
                if is_exception e then
                  return_value (arguments_invalid (exception_tool_result (public_message e)
                                  (not_retryable "tool_arguments_invalid")))
                else throw_error e
            end)
      | _ => return_value (arguments_invalid
               (error_tool_result ("工具 " ++ at_name tool ++ " 的 arguments 必须是对象") false
                  (not_retryable "tool_arguments_invalid")))
      end
  end.

(** ** Guards *)

Definition guard (b : bool) : Prog unit := if b then return_value tt else throw_error PermissionError.

Definition consulted (there : bool) (a : Prog bool) : Prog bool := if there then a else return_value true.

Definition immediate (p : PreparedToolCall) (r : AgentToolResult) : preparation :=
  CallImmediate (mkImmediate r (Some (pt_tool_call p)) (pt_args p) false).

(** [_cancelled_before_dispatch] *)
Definition cancelled_before_dispatch (name : string) : AgentToolResult :=
  error_tool_result ("工具 " ++ name ++ " 调用在执行前因 Agent 取消而跳过。") false
    [("code", VStr "tool_aborted_before_dispatch"); ("synthetic", VBool true)].

(** The body of [_apply_dispatch_guards] *)
Definition dispatch_guards (p : PreparedToolCall) (context : ToolDispatchContext) : Prog preparation :=
  let tool := pt_tool p in
  do! _ := guard (negb (at_requires_approval tool && negb (td_authorization R) && negb (td_authorize R))) in
  do! _ := guard (negb ((td_require_identity R || td_authorization R || at_requires_approval tool)
                        && negb (is_some (dc_identity context)))) in
  do! allowed := consulted (td_authorization R) (do_action (Authorize tool (pt_args p) context)) in
  do! _ := guard allowed in
  do! allowed := consulted (td_authorize R) (do_action (AuthorizeLegacy tool (pt_args p) context)) in
  do! _ := guard allowed in
  do! before := (if td_before_tool_call R
                 then do_action (BeforeToolCall (pt_tool_call p) (pt_args p))
                 else return_value None) in
  match before with
  | Some b =>
      if bt_block b then
        let reason := match bt_reason b with Some s => s | None => "" end in
        return_value (immediate p (error_tool_result
          (if nonempty reason then reason else "工具执行已被阻止") (bt_terminate b) []))
      else
        do! cancelled := do_action LookCancelled in
        return_value (if cancelled then immediate p (cancelled_before_dispatch (at_name tool))
                      else CallPrepared (with_context context p))
  | None =>
      do! cancelled := do_action LookCancelled in
      return_value (if cancelled then immediate p (cancelled_before_dispatch (at_name tool))
                    else CallPrepared (with_context context p))
  end.

(** [_apply_dispatch_guards] *)
Definition apply_dispatch_guards (p : PreparedToolCall) (context : ToolDispatchContext)
  : Prog preparation :=
  sequel (dispatch_guards p context) (fun r =>
    match r with
    | Ok v => return_value v
    | Err PermissionError =>
        return_value (immediate p (error_tool_result "工具未通过执行授权" false
                                     (not_retryable "permission_denied")))
    | Err e => if is_exception e
               then return_value (immediate p (exception_tool_result (public_message e) []))
               else throw_error e
    end).

(** [_validate_prepared_registration] *)
Definition validate_prepared_registration (p : PreparedToolCall) : res unit :=
  let tool := pt_tool p in
  match dget (at_name tool) (td_registrations R) with
  | None => Err RuntimeError
  | Some g =>
      check! dispatch_require (String.eqb (pt_runtime_registration_id p) (td_registration_id R)) in
      check! dispatch_require (pt_tool_registration_generation p =? rg_generation g) in
      let! digest := contract_digest (rg_contract g) in
      check! dispatch_require (String.eqb (pt_tool_contract_digest p) digest) in
      let! _ := assert_registered_tool R tool (Some (pt_tool_contract_digest p)) in
      if negb (at_requires_approval tool) then Ok tt else
      check! dispatch_require (td_authorization R || td_authorize R) in
      dispatch_require (is_some (dc_identity (pt_dispatch_context p)))
  end.

(** ** One attempt *)

(** [_tool_may_have_side_effect] *)
Definition may_have_side_effect (tool : AgentTool) : bool :=
  bool_decide (at_replay_policy tool = Never) || at_requires_approval tool
  || at_supports_resource_fencing tool.

Definition never_replayed (tool : AgentTool) : bool := bool_decide (at_replay_policy tool = Never).

Section Execution.
(** The admission of an attempt, which denies it with an exception *)
Context (admission : option (AgentTool -> Z -> Prog unit)).
Context (p : PreparedToolCall) (call_id : string).
Abbreviation tool := (pt_tool p).

(** The context a handler is called with, which carries the fencing of its lease *)
Definition fenced_context (lease : ScheduleLease) : res ToolDispatchContext :=
  let c := pt_dispatch_context p in
  let! c := match sl_resource_fencing_token lease with
            | None => Ok c
            | Some token =>
                match sl_resource_fencing_scope lease with
                | None => Err RuntimeError
                | Some scope =>
                    dispatch_context
                      (mkDispatchContext (dc_identity c) (dc_approval c) (dc_tenant_id c)
                         (dc_fencing_token c) (dc_fencing_scope c) (Some token) (Some scope))
                end
            end in
  check! dispatch_require (negb (at_supports_resource_fencing tool)
                           || is_some (dc_resource_fencing_token c)) in
  Ok c.

(** What a handler is called with *)
Definition handler_context (lease : ScheduleLease) : res (option ToolDispatchContext) :=
  if is_some (at_execute_with_context tool)
  then let! c := fenced_context lease in Ok (Some c)
  else check! dispatch_require (is_some (at_execute tool)) in Ok None.

Definition handler_call (context : option ToolDispatchContext) (attempt : Z) : Prog AgentToolResult :=
  do! _ := do_action (Signal call_id HandlerDispatched) in
  do_action (CallHandler tool call_id (pt_args p) context attempt).

(** The lease was lost while the attempt ran, before or after its handler ended. *)
Definition lease_lost (returned : bool) : Prog AgentToolResult :=
  let crossed := never_replayed tool || returned in
  do! _ := emit [("type", VStr "tool_resource_lease_lost"); ("toolCallId", VStr call_id);
                 ("toolName", VStr (at_name tool)); ("outcomeUnknown", VBool crossed)] in
  throw_error (ResourceLeaseLostError crossed).

Definition lease_interrupted (lease : ScheduleLease) : Prog bool :=
  if sl_heartbeat lease then do_action (LookHeartbeat call_id) else return_value false.

(** [invoke_tool]; [None] when the lost lease cancels it before its handler is called *)
Definition invoke_tool (lease : ScheduleLease) (attempt : Z) : Prog (option AgentToolResult) :=
  do! _ := emit [("type", VStr "tool_execution_dispatch_start"); ("toolCallId", VStr call_id);
                 ("toolName", VStr (at_name tool)); ("attempt", VInt attempt)] in
  do! lost := lease_interrupted lease in
  if lost then return_value None else
  do! context := Done (handler_context lease) in
  do! v := handler_call context attempt in
  return_value (Some v).

(** Waiting for [invoke_tool] and for the heartbeat of the lease *)
Definition leased_call (lease : ScheduleLease) (attempt : Z) : Prog AgentToolResult :=
  sequel (invoke_tool lease attempt) (fun r =>
    match r with
    | Ok None => lease_lost false
    | Ok (Some v) =>
        do! lost := lease_interrupted lease in
        if lost then lease_lost true else return_value v
    | Err e =>
        do! lost := lease_interrupted lease in
        if lost then lease_lost false else throw_error e
    end).

Definition lease_was_lost (e : exn) : bool :=
  match e with ResourceLeaseLostError _ => true | _ => false end.

(** The lease turns out to be lost at its release; the observer's failure is dropped. *)
Definition lost_at_release (unknown : bool) : Prog AgentToolResult :=
  sequel (emit [("type", VStr "tool_resource_lease_lost"); ("toolCallId", VStr call_id);
                ("toolName", VStr (at_name tool)); ("outcomeUnknown", VBool unknown);
                ("detectedDuring", VStr "release")])
    (fun _ => throw_error (ResourceLeaseLostError unknown)).

(** The release of the lease, in [finally] *)
Definition release_lease (r : res AgentToolResult) : Prog AgentToolResult :=
  sequel (do_action (ReleaseLease call_id)) (fun released =>
    match released, r with
    | Ok _, _ => Done r
    | Err cleanup, Err primary =>
        if negb (lease_was_lost cleanup) || lease_was_lost primary then Done r else
        lost_at_release (never_replayed tool)
    | Err cleanup, Ok _ =>
        if lease_was_lost cleanup then lost_at_release true else throw_error cleanup
    end).

(** The attempt is not admitted: its lease is given back.  Two failures are raised as a
    group, which is an [Exception] if both are. *)
Definition not_admitted (e : exn) : Prog AgentToolResult :=
  sequel (do_action (ReleaseLease call_id)) (fun released =>
    match released with
    | Ok _ => throw_error e
    | Err e' => if is_exception e && is_exception e' then throw_error RuntimeError
                else throw_error OutsideModel
    end).

(** [except (TimeoutError, asyncio.TimeoutError)] around the acquisition *)
Definition acquisition_error (e : exn) : exn :=
  match e with TimeoutError => ResourceLockTimeoutError | e => e end.

(** [execute_once] *)
Definition execute_once (attempt : Z) : Prog AgentToolResult :=
  sequel (do_action (AcquireLease tool (pt_args p) (pt_trusted_tenant_id p))) (fun acquired =>
    match acquired with
    | Err e => throw_error (acquisition_error e)
    | Ok lease =>
        sequel (match admission with Some f => f tool attempt | None => return_value tt end)
          (fun admitted =>
             match admitted with
             | Err e => not_admitted e
             | Ok _ =>
                 do! _ := do_action (Signal call_id ExecutionStarted) in
                 sequel (leased_call lease attempt) release_lease
             end)
    end).

(** ** Retries  (retry/tool.py) *)

Definition show_retry (event : pydict) : Prog unit :=
  do! _ := (if td_retry_event_sink R then do_action (SinkRetryEvent event) else return_value tt) in
  emit event.

Definition retry_fields (type retry_id : string) : pydict :=
  [("type", VStr type); ("retryId", VStr retry_id); ("toolCallId", VStr call_id);
   ("toolName", VStr (at_name tool))].

Definition finished_retry (retry_id : string) (k : Z) (outcome : pydict) : Prog unit :=
  if k =? 0 then return_value tt else
  show_retry (retry_fields "tool_retry_finished" retry_id ++ outcome)%list.

Definition outcome_of_retries (k : Z) (code : option string) : pydict :=
  match code with
  | None => [("success", VBool true); ("attempt", VInt k)]
  | Some c => [("success", VBool false); ("attempt", VInt k); ("finalError", VStr c)]
  end.

Definition gave_up_retrying (k : Z) (retry_id code : string) (after : option pynum) : exn :=
  RetryableToolError code after (k + 1) (if k =? 0 then None else Some retry_id).

(** An attempt and, inside the same [try], the event of its success *)
Definition told_attempt (retry_id : string) (k : Z) : Prog AgentToolResult :=
  do! v := execute_once (k + 1) in
  do! _ := finished_retry retry_id k (outcome_of_retries k None) in
  return_value v.

(** [execute_tool_with_retry] after [k] retries, with [left] more that the policy allows *)
Fixpoint retry_tool (policy : RetryPolicy) (retry_id : string) (started_at : pynum) (left : nat) (k : Z)
  : Prog AgentToolResult :=
  do! cancelled := do_action (LookCallToken call_id) in
  if cancelled then throw_error OperationCancelledError else
  sequel (told_attempt retry_id k) (fun r =>
    match r with
    | Err (RetryableToolError code after _ _) =>
        let refused :=
          do! _ := finished_retry retry_id k (outcome_of_retries k (Some code)) in
          throw_error (gave_up_retrying k retry_id code after) in
        match left with
        | S left' =>
            if negb (mem_str code (rp_retryable_codes policy)) then refused else
            do! random := do_action ReadRandom in
            do! now := do_action ReadMonotonic in
            do! delay := Done (planned_delay policy (fun _ => random) started_at (fun _ => now)
                                 (Z.to_nat k) after) in
            match delay with
            | None => throw_error (gave_up_retrying k retry_id code after)
            | Some ms =>
                do! _ := show_retry (retry_fields "tool_retry_scheduled" retry_id
                           ++ [("attempt", VInt (k + 1)); ("maxAttempts", rp_max_retries policy);
                               ("delayMs", VInt ms); ("errorCode", VStr code)])%list in
                do! _ := do_action (Sleep call_id ms) in
                do! _ := show_retry (retry_fields "tool_retry_attempt_start" retry_id
                           ++ [("attempt", VInt (k + 1))])%list in
                retry_tool policy retry_id started_at left' (k + 1)
            end
        | O => refused
        end
    | r => Done r
    end).

(** The retries that a policy allows *)
Definition retries_allowed (policy : RetryPolicy) : nat :=
  match rp_max_retries policy with VInt n => Z.to_nat n | _ => O end.

(** [execute_tool_with_retry] *)
Definition execute_with_retry : Prog AgentToolResult :=
  match at_retry_policy tool with
  | None => execute_once 1
  | Some policy =>
      do! retry_id := do_action FreshId in
      do! started_at := do_action ReadMonotonic in
      retry_tool policy retry_id started_at (retries_allowed policy) 0
  end.
End Execution.

(** ** Watching an execution *)

(** Whether an attempt was started, and whether a handler was called *)
Record execution_progress := mkProgress { pg_started : bool; pg_dispatched : bool }.

Definition after_signal (a : agent_action) (g : execution_progress) : execution_progress :=
  match a with
  | Signal _ ExecutionStarted => mkProgress true (pg_dispatched g)
  | Signal _ HandlerDispatched => mkProgress (pg_started g) true
  | _ => g
  end.

Inductive watched := Finished (r : res AgentToolResult) | CutShort (c : interruption).

(** Which cut is taken: a timeout runs only from the first start. *)
Definition effective_cut (timed : bool) (g : execution_progress) (c : option interruption) : option interruption :=
  match c with
  | Some TimedOut => if timed && pg_started g then Some TimedOut else None
  | c => c
  end.

(** [asyncio.wait] on the execution, the timeout and the cancellation of the call; what
    is cut short is cancelled where it stands. *)
Fixpoint watch (call_id : string) (timed : bool) (g : execution_progress) (q : Prog AgentToolResult)
  : Prog (watched * execution_progress) :=
  match q with
  | Done r => return_value (Finished r, g)
  | Act a k =>
      do! c := do_action (WatchCall call_id) in
      match effective_cut timed g c with
      | Some c => return_value (CutShort c, g)
      | None => Act a (fun r => watch call_id timed (after_signal a g) (k r))
      end
  end.

(** ** Classifying what an execution ended with *)
Section Classification.
Context (tool : AgentTool) (call_id : string).

Definition call_entries : pydict := [("toolCallId", VStr call_id); ("toolName", VStr (at_name tool))].

(** [_outcome_unknown_result] *)
Definition outcome_unknown_result (reason message : string) (timeout : option pynum) : AgentToolResult :=
  error_tool_result message false
    ([("code", VStr "outcome_unknown"); ("outcomeUnknown", VBool true); ("reason", VStr reason)]
     ++ call_entries ++ [("retryable", VBool false)]
     ++ match timeout with Some n => [("timeoutSeconds", num_value n)] | None => [] end)%list.

Definition unknown_after_cancel : AgentToolResult :=
  outcome_unknown_result "tool_cancelled_after_dispatch"
    ("工具 " ++ at_name tool ++ " 已进入执行后被取消，无法确认外部副作用是否已经提交。") None.

(** [getattr(error, "outcome_unknown", False) is True] *)
Definition claims_unknown (e : exn) : bool :=
  match e with HandlerError u _ _ _ => u | WriteOutcomeUnknownError _ => true | _ => false end.

Definition optional_text (key : string) (s : option string) : pydict :=
  match s with Some t => if nonempty t then [(key, VStr t)] else [] | None => [] end.

Definition lease_lost_result (unknown : bool) : AgentToolResult :=
  error_tool_result (if unknown then "工具资源租约丢失，执行结果未知，需要协调核对"
                     else "工具执行已因资源租约丢失而终止") false
    ([("code", VStr (if unknown then "outcome_unknown" else "resource_lease_lost"));
      ("reason", VStr "resource_lease_lost")] ++ call_entries
     ++ [("outcomeUnknown", VBool unknown); ("retryable", VBool false)])%list.

(** The last branch, [except Exception] *)
Definition classify_other (g : execution_progress) (e : exn) : AgentToolResult :=
  if claims_unknown e then
    outcome_unknown_result "business_exception" "工具执行结果未知，需要协调核对" None
  else if may_have_side_effect tool && pg_dispatched g then
    outcome_unknown_result "tool_exception_after_dispatch"
      ("工具 " ++ at_name tool ++ " 已进入执行后发生异常，无法确认外部副作用是否已经提交。") None
  else exception_tool_result (public_message e) [("code", VStr "tool_execution_error")].

(** The branches of [except] around the execution *)
Definition classify_error (g : execution_progress) (e : exn) : Prog (AgentToolResult * bool) :=
  match e with
  | CancelledError | OperationCancelledError =>
      if never_replayed tool && pg_started g then return_value (unknown_after_cancel, true) else
      do! reason := do_action (CallTokenReason call_id) in
      return_value (error_tool_result ("工具 " ++ at_name tool ++ " 已取消：" ++ reason) false
                      [("code", VStr "tool_cancelled")], true)
  | OutcomeUnknownToolError operation_id _ reconciliation_name =>
      return_value (error_tool_result "工具执行结果未知，需要协调核对" false
        ([("code", VStr "outcome_unknown"); ("operationId", VStr operation_id);
          ("reconciliationName", VStr reconciliation_name)]
         ++ call_entries ++ [("outcomeUnknown", VBool true); ("retryable", VBool false)])%list, true)
  | ToolAttemptAdmissionDenied result => return_value (result, true)
  | DefinitelyNotCommittedToolError code text =>
      return_value (exception_tool_result (Some text)
        ([("code", VStr code)] ++ call_entries
         ++ [("definitelyNotCommitted", VBool true); ("retryable", VBool false)])%list, true)
  | RetryableToolError code _ attempts retry_id =>
      return_value (exception_tool_result (public_message e)
        ([("code", VStr code); ("retryable", VBool true); ("attempts", VInt attempts)]
         ++ optional_text "retryId" retry_id)%list, true)
  | ResourceLockTimeoutError =>
      return_value (exception_tool_result (public_message e) [("code", VStr "resource_lock_timeout")], true)
  | ResourceLeaseLostError unknown => return_value (lease_lost_result unknown, true)
  | TenantContextError code =>
      return_value (exception_tool_result (public_message e) (not_retryable code), true)
  | _ => if is_exception e then return_value (classify_other g e, true) else throw_error e
  end.

Definition classify_cut (timeout : option pynum) (g : execution_progress) (c : interruption) : AgentToolResult * bool :=
  match c with
  | TimedOut =>
      let seconds := match timeout with Some n => n | None => NInt 0 end in
      (if never_replayed tool && pg_started g then
         outcome_unknown_result "tool_timeout_after_dispatch"
           ("工具 " ++ at_name tool ++ " 已进入执行后超时，无法确认外部副作用是否已经提交。") timeout
       else error_tool_result
              ("工具 " ++ at_name tool ++ " 执行超时（限制 " ++ format_g seconds ++ " 秒）") false
              [("code", VStr "tool_timeout"); ("toolName", VStr (at_name tool));
               ("timeoutSeconds", num_value seconds)], true)
  | CallCancelled reason =>
      (if never_replayed tool && pg_started g then unknown_after_cancel
       else error_tool_result ("工具 " ++ at_name tool ++ " 已取消：" ++ reason) false
              [("code", VStr "tool_cancelled"); ("toolName", VStr (at_name tool));
               ("reason", VStr reason)], true)
  end.

Definition classify (timeout : option pynum) (w : watched * execution_progress) : Prog (AgentToolResult * bool) :=
  match w with
  | (Finished (Ok v), _) => return_value (v, false)
  | (Finished (Err e), g) => classify_error g e
  | (CutShort c, g) => return_value (classify_cut timeout g c)
  end.
End Classification.

(** [tool.timeout_seconds or self.default_tool_timeout_seconds] *)
Definition call_timeout (tool : AgentTool) : option pynum :=
  match at_timeout_seconds tool with
  | Some n => if num_eq n (NInt 0) then td_default_tool_timeout_seconds R else Some n
  | None => td_default_tool_timeout_seconds R
  end.

Section Dispatching.
Context (admission : option (AgentTool -> Z -> Prog unit)).

(** [_execute]; an observer of updates that failed is raised only if nothing else is. *)
Definition execute_call (p : PreparedToolCall) : Prog (AgentToolResult * bool) :=
  do! call_id := Done (text_of (pt_tool_call p) "id") in
  let timeout := call_timeout (pt_tool p) in
  sequel (do! w := watch call_id (is_some timeout) (mkProgress false false)
                     (execute_with_retry admission p call_id) in
          classify (pt_tool p) call_id timeout w) (fun r =>
    sequel (do_action (SettleUpdates call_id)) (fun settled =>
      match r, settled with
      | Ok _, Err e => throw_error e
      | _, _ => Done r
      end)).

(** ** After the execution *)

(** [_result_is_outcome_unknown] *)
Definition result_is_outcome_unknown (r : AgentToolResult) : bool :=
  match tr_details r with
  | VDict d => is_str (jget d "code") "outcome_unknown"
               && match jget d "outcomeUnknown" with VBool b => b | _ => false end
  | _ => false
  end.

(** [_committed_tool_output_unavailable] *)
Definition committed_output_unavailable (tool : AgentTool) (call_id : string) (r : AgentToolResult)
  : AgentToolResult :=
  mkToolResult
    (VList [VDict [("type", VStr "text");
                   ("text", VStr "工具已执行成功，但结果后处理未完成；原始输出未公开，已停止后续自动执行。")]])
    (VDict [("code", VStr "tool_output_unavailable_after_commit"); ("toolCallId", VStr call_id);
            ("toolName", VStr (at_name tool)); ("effectCommitted", VBool true);
            ("retryable", VBool false)])
    (tr_usage r) VNone (VBool true).

(** What an [AfterToolCallResult] replaces *)
Definition overridden (o : AfterToolCallResult) (r : AgentToolResult) (is_error : bool)
  : res (AgentToolResult * bool) :=
  let field (v : option pyval) (old : pyval) := match v with Some x => x | None => old end in
  let! content := match af_content o with
                  | Some v => let! l := py_list v in Ok (VList l)
                  | None => Ok (tr_content r)
                  end in
  Ok (mkToolResult content (field (af_details o) (tr_details r)) (field (af_usage o) (tr_usage r))
        (tr_added_tool_names r) (field (af_terminate o) (tr_terminate r)),
      match af_is_error o with Some v => truthy v | None => is_error end).

(** [_after] *)
Definition after_call (p : PreparedToolCall) (call_id : string) (r : AgentToolResult) (is_error : bool)
  : Prog (AgentToolResult * bool) :=
  if negb (td_after_tool_call R) then return_value (r, is_error) else
  sequel (do! o := do_action (AfterToolCall (pt_tool_call p) (pt_args p) r is_error) in
          match o with
          | Some o => Done (overridden o r is_error)
          | None => return_value (r, is_error)
          end) (fun result =>
    match result with
    | Ok v => return_value v
    | Err e =>
        if negb (is_exception e) then throw_error e else
        if negb is_error && may_have_side_effect (pt_tool p)
        then return_value (committed_output_unavailable (pt_tool p) call_id r, false)
        else return_value (exception_tool_result (public_message e) [], true)
    end).

(** What hooks cannot change: an unknown outcome, and a commit *)
Definition protected (p : PreparedToolCall) (call_id : string) (executed reviewed : AgentToolResult * bool)
  : AgentToolResult * bool :=
  let (result, is_error) := executed in
  if result_is_outcome_unknown result then (result, true) else
  if negb is_error && may_have_side_effect (pt_tool p) && snd reviewed
  then (committed_output_unavailable (pt_tool p) call_id result, false)
  else reviewed.

(** [dispatch_prepared] *)
Definition dispatch_prepared (p : PreparedToolCall) : Prog ToolDispatchOutcome :=
  do! _ := Done (validate_prepared_registration p) in
  do! call_id := Done (text_of (pt_tool_call p) "id") in
  do! executed := execute_call p in
  do! reviewed := after_call p call_id (fst executed) (snd executed) in
  let final := protected p call_id executed reviewed in
  return_value (mkOutcome (pt_tool_call p) (fst final) (snd final) (pt_args p)).

(** ** Batches *)

(** [_trusted_tenant_id]; a tenant that is not a text is refused where it enters. *)
Definition trusted_tenant_id (tenant_id : option string) : res (option string) :=
  match (match tenant_id with Some s => Some s | None => td_default_tenant_id R end) with
  | Some s => if blank s then Err RuntimeError else Ok (Some (strip s))
  | None => Ok None
  end.

(** [_resolve_dispatch_context] of a given context *)
Definition resolve_dispatch_context (c : ToolDispatchContext) (tenant_id : option string)
  : res ToolDispatchContext :=
  match tenant_id, dc_tenant_id c with
  | Some s, Some t => if String.eqb (strip s) t then Ok c else Err RuntimeError
  | Some s, None =>
      dispatch_context (mkDispatchContext (dc_identity c) (dc_approval c) (Some s) (dc_fencing_token c)
        (dc_fencing_scope c) (dc_resource_fencing_token c) (dc_resource_fencing_scope c))
  | None, _ => Ok c
  end.

(** The calls of an assistant message's content; a content that is no list is iterated *)
Definition tool_call_blocks (content : list pyval) : list pydict :=
  omap (fun b => match b with
                 | VDict d => if is_str (jget d "type") "toolCall" then Some d else None
                 | _ => None
                 end) content.

(** The identifiers of a message's calls, stripped *)
Definition call_identifiers (calls : list pydict) : list string :=
  omap (fun c => match jget c "id" with
                 | VStr s => if blank s then None else Some (strip s)
                 | _ => None
                 end) calls.

(** [_historical_tool_call_ids]; [messages] are those before the assistant message at
    hand, which is excluded by its identity. *)
Definition historical_tool_call_ids (messages : list pydict) : res (list string) :=
  let! ids := mapR (fun m =>
    if is_str (jget m "role") "assistant" then
      let! content := py_list (jget_or m "content" (VList [])) in
      Ok (call_identifiers (tool_call_blocks content))
    else Ok []) messages in
  Ok (List.concat ids).

(** Why a call of a batch is rejected, if it is *)
Definition id_problem (historical current : list string) (call : pydict) : option string :=
  let id := match jget call "id" with VStr s => strip s | _ => "" end in
  if negb (nonempty id) then Some "ID 为空或不是字符串" else
  if mem_str id historical then Some "ID 已在历史中使用" else
  if mem_str id current then Some "ID 在当前批次中重复" else None.

Definition replacement_id (fresh : string) : string := "rejected-tool-call-" ++ fresh.

Definition nth_call_text (index : nat) (reason : string) : string :=
  "第 " ++ pretty (Z.of_nat index + 1) ++ " 个 Tool Call " ++ reason.

(** [_validate_tool_call_batch] on one call: the identifiers so far, the calls with
    their identifiers, and the errors *)
Definition Checking : Type := list string * list pydict * list string.
Definition check_call (historical : list string) (indexed : nat * pydict) (s : Checking) : Prog Checking :=
  let '(current, calls, errors) := s in
  let (index, call) := indexed in
  match id_problem historical current call with
  | None =>
      let id := match jget call "id" with VStr t => strip t | _ => "" end in
      return_value (id :: current, (calls ++ [dset "id" (VStr id) call])%list, errors)
  | Some reason =>
      do! fresh := do_action FreshId in
      let id := replacement_id fresh in
      return_value (id :: current, (calls ++ [dset "id" (VStr id) call])%list,
                    (errors ++ [nth_call_text index reason])%list)
  end.

(** [_validate_tool_call_batch]; its calls are dictionaries, as its type says and as the
    loop, which takes them from the blocks of a message, passes them. *)
Definition validate_tool_call_batch (historical : list string) (calls : list pydict)
  : Prog (list pydict * option string) :=
  do! s := prog_for_each (check_call historical) (combine (seq 0 (List.length calls)) calls) ([], [], []) in
  let '(_, checked, errors) := s in
  return_value (checked, match errors with [] => None | _ => Some (str_join "；" errors) end).

(** [_reject_tool_call_batch], one call *)
Definition reject_call (reason : string) (call : pydict) (done : list completed) : Prog (list completed) :=
  do! _ := emit_tool_start call in
  do! o := emit_tool_end (mkOutcome call
    (error_tool_result ("整批工具均未执行：" ++ reason) false
       [("code", VStr "tool_call_batch_rejected"); ("synthetic", VBool true); ("retryable", VBool false)])
    true VNone) in
  do! _ := emit_result_message (snd o) in
  return_value (done ++ [o])%list.

Definition batch_of (done : list completed) (terminate : bool) : ToolDispatchBatch :=
  mkBatch (map fst done) (map snd done) terminate.

(** [_reject_tool_call_batch] *)
Definition reject_tool_call_batch (calls : list pydict) (reason : string) : Prog ToolDispatchBatch :=
  do! done := prog_for_each (reject_call reason) calls [] in
  return_value (batch_of done false).

(** The first phase: every call is made canonical, with no guard and no hook. [None] is
    a batch with a call that cannot be. *)
Fixpoint canonical_batch (calls : list pydict) (tools : list AgentTool)
  : Prog (option (list PreparedToolCall)) :=
  match calls with
  | [] => return_value (Some [])
  | call :: calls' =>
      do! c := canonicalize call tools in
      match c with
      | CallImmediate _ => return_value None
      | CallPrepared p =>
          do! more := canonical_batch calls' tools in
          return_value (option_map (cons p) more)
      end
  end.

(** [_execution_mode] *)
Definition execution_mode (tool : AgentTool) (sequential : bool) : ExecutionMode :=
  if sequential then Exclusive else
  match at_execution_mode tool with
  | Some Sequential => Exclusive
  | Some m => m
  | None => Parallel
  end.

(** [_resource_keys] *)
Definition resource_keys (tool : AgentTool) (args : pyval) : Prog (list string) :=
  if negb (bool_decide (at_execution_mode tool = Some ResourceLocked)) then return_value [] else
  if negb (is_some (at_resolve_resource_keys tool)) then throw_error RuntimeError else
  do! raw := do_action (ResolveResourceKeys tool args) in
  do! values := Done match raw with VStr s => Ok [raw] | _ => py_list raw end in
  match mapM (fun v => match v with VStr s => if blank s then None else Some (strip s) | _ => None end)
          values with
  | Some (k :: ks) => return_value (frozenset (k :: ks))
  | _ => throw_error RuntimeError
  end.

(** A call of the second phase: decided at once, or queued *)
Definition slot : Type := completed + PreparedToolCall.

Definition enqueue_call (context : ToolDispatchContext) (tenant_id : option string) (sequential : bool)
    (p : PreparedToolCall) (slots : list slot) : Prog (list slot) :=
  do! guarded := apply_dispatch_guards p context in
  match guarded with
  | CallImmediate i =>
      let call := match im_tool_call i with
                  | Some c => if is_nil c then pt_tool_call p else c
                  | None => pt_tool_call p
                  end in
      do! _ := emit_tool_start call in
      do! o := emit_tool_end (mkOutcome call (im_result i) true (im_args i)) in
      return_value (slots ++ [inl o])%list
  | CallPrepared p' =>
      do! _ := emit_tool_start (pt_tool_call p') in
      let p' := with_tenant tenant_id p' in
      do! id := Done (text_of (pt_tool_call p') "id") in
      do! keys := resource_keys (pt_tool p') (pt_args p') in
      do! _ := emit [("type", VStr "tool_execution_queued"); ("toolCallId", VStr id);
                     ("toolName", VStr (at_name (pt_tool p')));
                     ("executionMode", VStr (execution_mode_str (execution_mode (pt_tool p') sequential)));
                     ("resourceKeyCount", VInt (Z.of_nat (List.length keys)));
                     ("priority", VInt (at_priority (pt_tool p')))] in
      return_value (slots ++ [inr p'])%list
  end.

(** The calls that are queued, with their places *)
Definition queued (slots : list slot) : list (nat * PreparedToolCall) :=
  omap (fun ip => match snd ip with inr p => Some (fst ip, p) | inl _ => None end)
    (combine (seq 0 (List.length slots)) slots).

(** [run_one]: a call, and the end of it *)
Definition run_one (ip : nat * PreparedToolCall) : Prog (nat * completed) :=
  do! o := dispatch_prepared (snd ip) in
  do! o := emit_tool_end o in
  return_value (fst ip, o).

Definition fill (slots : list slot) (io : nat * completed) : list slot :=
  <[fst io := inl (snd io)]> slots.

(** A call that is skipped because the agent was cancelled *)
Definition skip_call (ip : nat * PreparedToolCall) (slots : list slot) : Prog (list slot) :=
  do! o := emit_tool_end (mkOutcome (pt_tool_call (snd ip))
    (error_tool_result "工具调用在执行前因 Agent 取消而跳过。" false
       [("code", VStr "tool_aborted_before_dispatch"); ("synthetic", VBool true)]) true VNone) in
  return_value (fill slots (fst ip, o)).

(** [_run_sequential] *)
Fixpoint run_sequential (scheduled : list (nat * PreparedToolCall)) (slots : list slot)
  : Prog (list slot) :=
  match scheduled with
  | [] => return_value slots
  | ip :: rest =>
      do! cancelled := do_action LookCancelled in
      if cancelled then prog_for_each skip_call scheduled slots else
      do! o := run_one ip in
      run_sequential rest (fill slots o)
  end.

(** How many actions a call may take: those of its attempts, each watched, and those of
    its end *)
Definition attempt_actions : nat := 22.
Definition task_bound (p : PreparedToolCall) : nat :=
  let retries := match at_retry_policy (pt_tool p) with Some q => retries_allowed q | None => O end in
  (2 * (2 + attempt_actions * S retries) + 5)%nat.
Definition group_fuel (group : list (nat * PreparedToolCall)) : nat :=
  S (list_sum (map (fun ip => task_bound (snd ip)) group)).

(** [_run_group]: its tasks are created by priority, and then by place. *)
Definition by_priority (group : list (nat * PreparedToolCall)) : list (nat * PreparedToolCall) :=
  sort_by (fun ip => - at_priority (pt_tool (snd ip))) group.
Definition run_group (W : AgentWorld) (group : list (nat * PreparedToolCall)) (slots : list slot)
  : exec (list slot) :=
  match group with
  | [] => xret slots
  | _ :: _ =>
      let ordered := by_priority group in
      run! results := gather W (group_fuel ordered) (map run_one ordered) in
      xret (fold_left fill results slots)
  end.

(** The groups of a batch: an exclusive call runs alone, between those before and those
    after it. *)
Fixpoint run_groups (W : AgentWorld) (pending scheduled : list (nat * PreparedToolCall))
    (slots : list slot) : exec (list slot) :=
  match scheduled with
  | [] => run_group W pending slots
  | ip :: rest =>
      if bool_decide (execution_mode (pt_tool (snd ip)) false = Exclusive) then
        run! slots := run_group W pending slots in
        run! slots := run_group W [ip] slots in
        run_groups W [] rest slots
      else run_groups W (pending ++ [ip])%list rest slots
  end.

Definition filled (slots : list slot) : list completed :=
  omap (fun s => match s with inl o => Some o | inr _ => None end) slots.

Definition publish_result (o : completed) (_ : unit) : Prog unit := emit_result_message (snd o).

Definition is_true (v : pyval) : bool := match v with VBool b => b | _ => false end.

(** The end of [dispatch_many] *)
Definition publish_batch (slots : list slot) : Prog ToolDispatchBatch :=
  let done := filled slots in
  do! _ := prog_for_each publish_result done tt in
  return_value (batch_of done (negb (is_nil done)
                               && forallb (fun o => is_true (tr_terminate (to_result (fst o)))) done)).

(** [dispatch_many], from the canonical calls on *)
Definition dispatch_canonical (W : AgentWorld) (context : ToolDispatchContext) (sequential : bool)
    (calls : list PreparedToolCall) : exec ToolDispatchBatch :=
  run! tenant_id := xlift (trusted_tenant_id (dc_tenant_id context)) in
  run! slots := run W (prog_for_each (enqueue_call context tenant_id sequential) calls []) in
  run! slots := (if sequential then run W (run_sequential (queued slots) slots)
                 else run_groups W [] (queued slots) slots) in
  run W (publish_batch slots).

(** [dispatch_many]; [messages] are those of the context before the assistant message. *)
Definition dispatch_many (W : AgentWorld) (calls : list pydict) (messages : list pydict)
    (tools : list AgentTool) (sequential : bool) (context : ToolDispatchContext)
    (tenant_id : option string) : exec ToolDispatchBatch :=
  run! context := xlift (resolve_dispatch_context context
                           match tenant_id with Some s => Some s | None => td_default_tenant_id R end) in
  run! historical := xlift (historical_tool_call_ids messages) in
  run! checked := run W (validate_tool_call_batch historical calls) in
  match checked with
  | (calls, Some reason) => run W (reject_tool_call_batch calls reason)
  | (calls, None) =>
      run! canonical := run W (canonical_batch calls tools) in
      match canonical with
      | None => run W (reject_tool_call_batch calls
                         "至少一个 Tool Call 未通过名称、当前轮白名单或 canonical 参数校验")
      | Some prepared => dispatch_canonical W context sequential prepared
      end
  end.
End Dispatching.
End Dispatch.
