(* ===== verification/AgentLoop.v ===== *)
(** * The agent loop  (src/.../loop.py)

    A run of an agent: the model is consulted, its tool calls are checked as a whole and
    dispatched, their results go back to it, and so on until it stops, a budget is used
    up, or a response fails; in between, messages that were queued are taken in.
    Observers get copies of what they are shown, so that they cannot change the run; the
    hooks are taken not to change the objects they are given in place. *)

From S2P Require Import Prelude PyDict Text PyVal PyNum Json Transcript ModelPolicy Service.
From S2P Require Import Messages Tasks AgentTypes AgentWorld ToolDispatch.
From stdpp Require Import pretty.
From Stdlib Require Import String.

#[local] Open Scope string_scope.
#[local] Open Scope bool_scope.
#[local] Open Scope Z_scope.
#[local] Open Scope prog_scope.
#[local] Open Scope exec_scope.
#[local] Arguments blank : simpl never.

(** ** The configuration of a run *)

(** [AgentLoopConfig]; a hook is there or not. *)
Record AgentLoopConfig := mkConfig {
  cf_model : pydict;
  cf_stream_options : pydict;
  cf_thinking_level : string;
  cf_sequential_tools : bool;
  cf_default_tool_timeout_seconds : option pynum;
  cf_max_tool_calls : option Z;
  cf_max_turns : option Z;
  cf_tool_runtime : option ToolDispatchRuntime;
  cf_tenant_id : option string;
  cf_tool_dispatch_context : ToolDispatchContext;
  cf_retry_event_sink : bool;
  cf_durable_metadata_provider : bool;
  cf_inspect_model_input : bool;
  cf_inspect_model_output : bool;
  cf_transform_context : bool;
  cf_get_api_key : bool;
  cf_should_stop_after_turn : bool;
  cf_prepare_next_turn : bool;
  cf_get_steering_messages : bool;
  cf_get_follow_up_messages : bool;
  cf_before_tool_call : bool;
  cf_after_tool_call : bool
}.

(** [AgentLoopConfig.__post_init__] *)
Definition loop_config_ok (c : AgentLoopConfig) : res unit :=
  let at_least_one (n : option Z) := match n with Some z => 1 <=? z | None => true end in
  let check (b : bool) : res unit := if b then Ok tt else Err ValueError in
  check! check (at_least_one (cf_max_tool_calls c) && at_least_one (cf_max_turns c)) in
  check! check (positive_number (cf_default_tool_timeout_seconds c)) in
  check match cf_tenant_id c with Some s => negb (blank s) | None => true end.

(** [replace(config, model=..., thinking_level=..., stream_options=...)] *)
Definition with_update (u : AgentLoopTurnUpdate) (c : AgentLoopConfig) : AgentLoopConfig :=
  mkConfig
    (match up_model u with Some m => m | None => cf_model c end)
    (match up_stream_options u with Some o => o | None => cf_stream_options c end)
    (match up_thinking_level u with Some t => t | None => cf_thinking_level c end)
    (cf_sequential_tools c) (cf_default_tool_timeout_seconds c) (cf_max_tool_calls c)
    (cf_max_turns c) (cf_tool_runtime c) (cf_tenant_id c) (cf_tool_dispatch_context c)
    (cf_retry_event_sink c) (cf_durable_metadata_provider c) (cf_inspect_model_input c)
    (cf_inspect_model_output c) (cf_transform_context c) (cf_get_api_key c)
    (cf_should_stop_after_turn c) (cf_prepare_next_turn c) (cf_get_steering_messages c)
    (cf_get_follow_up_messages c) (cf_before_tool_call c) (cf_after_tool_call c).

(** The runtime of the configuration after it registered tools *)
Definition with_runtime (r : ToolDispatchRuntime) (c : AgentLoopConfig) : AgentLoopConfig :=
  mkConfig (cf_model c) (cf_stream_options c) (cf_thinking_level c) (cf_sequential_tools c)
    (cf_default_tool_timeout_seconds c) (cf_max_tool_calls c) (cf_max_turns c) (Some r)
    (cf_tenant_id c) (cf_tool_dispatch_context c) (cf_retry_event_sink c)
    (cf_durable_metadata_provider c) (cf_inspect_model_input c) (cf_inspect_model_output c)
    (cf_transform_context c) (cf_get_api_key c) (cf_should_stop_after_turn c)
    (cf_prepare_next_turn c) (cf_get_steering_messages c) (cf_get_follow_up_messages c)
    (cf_before_tool_call c) (cf_after_tool_call c).

Definition with_messages (messages : list pydict) (c : AgentContext) : AgentContext :=
  mkAgentContext (ac_system_prompt c) messages (ac_tools c).

Definition model_retry_event_types : list string :=
  ["model_retry_scheduled"; "model_retry_attempt_start"; "model_retry_finished";
   "context_compaction_started"; "context_compaction_finished"].
Definition assistant_update_types : list string :=
  ["text_start"; "text_delta"; "text_end"; "thinking_start"; "thinking_delta"; "thinking_end";
   "toolcall_start"; "toolcall_delta"; "toolcall_end"].

(** ** Checking a batch of tool calls before the message is committed *)

(** [_assistant_tool_calls] *)
Definition message_tool_calls (message : pydict) : list pydict :=
  match jget message "content" with VList content => tool_call_blocks content | _ => [] end.

(** [_prior_tool_call_ids] *)
Definition prior_tool_call_ids (messages : list pydict) : list string :=
  messages ≫= (fun m => if is_str (jget m "role") "assistant"
                        then call_identifiers (message_tool_calls m) else []).

(** The loop over the calls: how many so far, their identifiers, the content with them,
    what was rewritten, and the errors *)
Record Preflight := mkPreflight {
  pf_index : nat;
  pf_current_ids : list string;
  pf_content : list pyval;
  pf_rewritten : list pyval;
  pf_errors : list string
}.

Definition preflight_problem (prior current : list string) (call : pydict) : option string :=
  let id := match jget call "id" with VStr s => strip s | _ => "" end in
  if negb (nonempty id) then Some "ID 为空或不是字符串" else
  if mem_str id prior then Some "ID 已在当前 Session 历史中使用" else
  if mem_str id current then Some "ID 在当前 Assistant 批次中重复" else None.

Definition preflight_block (prior : list string) (block : pyval) (s : Preflight) : Prog Preflight :=
  match is_tool_call_block block with
  | None => return_value (mkPreflight (pf_index s) (pf_current_ids s) (pf_content s ++ [block])%list
                            (pf_rewritten s) (pf_errors s))
  | Some call =>
      match preflight_problem prior (pf_current_ids s) call with
      | None =>
          let id := match jget call "id" with VStr t => strip t | _ => "" end in
          return_value (mkPreflight (S (pf_index s)) (id :: pf_current_ids s)
            (pf_content s ++ [VDict (dset "id" (VStr id) call)])%list (pf_rewritten s) (pf_errors s))
      | Some reason =>
          do! fresh := do_action FreshId in
          let id := replacement_id fresh in
          return_value (mkPreflight (S (pf_index s)) (id :: pf_current_ids s)
            (pf_content s ++ [VDict (dset "id" (VStr id) call)])%list
            (pf_rewritten s ++
               [VDict [("index", VInt (Z.of_nat (pf_index s)));
                       ("originalId", match jget call "id" with VStr t => VStr t | _ => VNone end);
                       ("replacementId", VStr id); ("reason", VStr reason)]])%list
            (pf_errors s ++ [nth_call_text (pf_index s) reason])%list)
      end
  end.

(** Names that are registered twice *)
Fixpoint duplicate_names (seen names : list string) : list string :=
  match names with
  | [] => []
  | n :: names' => if mem_str n seen then n :: duplicate_names seen names'
                   else duplicate_names (n :: seen) names'
  end.

(** [type(error).__name__] of what a policy can raise *)
Definition policy_error_name (e : exn) : string :=
  match e with TypeError => "TypeError" | KeyError => "KeyError" | ValueError => "ValueError" | _ => "Exception" end.

(** The policy of the request against the message *)
Definition policy_errors (names : list string) (options message : pydict) : res (list string) :=
  match (let! policy := capture_model_request_policy (VList (map VStr names)) options in
         validate_model_response_policy message policy) with
  | Ok _ => Ok []
  | Err ModelRequestPolicyError => Ok ["当前模型请求策略拒绝该批调用 [ModelRequestPolicyError]"]
  | Err e => if is_exception e
             then Ok ["当前模型请求策略验证失败 [" ++ policy_error_name e ++ "]"] else Err e
  end.

(** What is wrong with the name and the arguments of a call *)
Definition call_structure_errors (names : list string) (indexed : nat * pydict) : list string :=
  let (index, call) := indexed in
  match jget call "name" with
  | VStr name =>
      if blank name then [nth_call_text index "的工具名无效"] else
      if negb (mem_str name names) then [nth_call_text index ("工具不存在：" ++ name)] else
      if is_dict (jget call "arguments") then [] else [nth_call_text index "的 arguments 必须是对象"]
  | _ => [nth_call_text index "的工具名无效"]
  end.

(** The checks that a truncated response does not get *)
Definition batch_structure_errors (tools : list AgentTool) (options message : pydict)
  : res (list string) :=
  let names := map at_name tools in
  let calls := message_tool_calls message in
  let! policy := policy_errors names options message in
  Ok (map (String.append "Runtime 注册了重复工具名：") (duplicate_names [] names) ++ policy
      ++ (combine (seq 0 (List.length calls)) calls ≫= call_structure_errors names))%list.

Definition batch_error (errors : list string) (rewritten : list pyval) : pyval :=
  VDict [("code", VStr "tool_call_batch_rejected"); ("message", VStr (str_join "；" errors));
         ("rewrittenIds", VList rewritten)].

(** [_preflight_assistant_tool_batch]: the message with its identifiers, and marked if
    its batch is rejected *)
Definition preflight_assistant_tool_batch (prior : list pydict) (message : pydict)
    (tools : list AgentTool) (options : pydict) : Prog pydict :=
  let message := dpop "toolCallBatchError" message in
  match jget message "content" with
  | VList content =>
      if is_nil (tool_call_blocks content) then return_value message else
      do! s := prog_for_each (preflight_block (prior_tool_call_ids prior)) content
                 (mkPreflight 0 [] [] [] []) in
      let message := dset "content" (VList (pf_content s)) message in
      do! more := (if is_str (jget message "stopReason") "length" then return_value []
                   else Done (batch_structure_errors tools options message)) in
      let errors := (pf_errors s ++ more)%list in
      return_value (if is_nil errors then message
                    else dset "toolCallBatchError" (batch_error errors (pf_rewritten s)) message)
  | _ => return_value message
  end.

(** [_mark_truncated_model_response] *)
Definition mark_truncated_model_response (message : pydict) : pydict :=
  if is_str (jget message "stopReason") "length"
  then dset "errorMessage" (VStr "模型响应达到长度上限，结果不完整，已拒绝作为成功响应。") message
  else message.

(** ** Rejected batches *)
Section Loop.
Context (redact : string -> string) (public_message : exn -> option string).
Context (format_g : pynum -> string).

Abbreviation error_tool_result := (AgentTypes.error_tool_result redact).

Definition ExecutedToolBatch : Type := list pydict * bool.

(** A call that is not dispatched: its start, its end and its result are shown. *)
Definition answer_undispatched (result : pydict -> res AgentToolResult) (call : pydict) (done : list pydict)
  : Prog (list pydict) :=
  do! _ := emit_tool_start call in
  do! r := Done (result call) in
  do! o := emit_tool_end (mkOutcome call r true VNone) in
  do! _ := emit_result_message (snd o) in
  return_value (done ++ [snd o])%list.

(** [_emit_budget_exceeded] *)
Definition emit_budget_exceeded (budget : string) (limit used requested : Z) : Prog unit :=
  let label := if String.eqb budget "turns" then "Turn" else "Tool Call" in
  let remaining := Z.max 0 (limit - used) in
  emit [("type", VStr "budget_exceeded"); ("budget", VStr budget); ("limit", VInt limit);
        ("used", VInt used); ("requested", VInt requested); ("remaining", VInt remaining);
        ("message", VStr (label ++ " 预算不足：限制 " ++ pretty limit ++ "，已使用 " ++ pretty used
                          ++ "，本次请求 " ++ pretty requested ++ "，剩余 " ++ pretty remaining))].

Definition budget_details (limit used requested : Z) : pydict :=
  [("code", VStr "tool_call_budget_exceeded"); ("limit", VInt limit); ("used", VInt used);
   ("requested", VInt requested); ("remaining", VInt (Z.max 0 (limit - used)))].

(** [_fail_tool_call_budget] *)
Definition fail_tool_call_budget (calls : list pydict) (limit used : Z) : Prog ExecutedToolBatch :=
  let requested := Z.of_nat (List.length calls) in
  let result call :=
    let! name := text_of call "name" in
    Ok (error_tool_result ("工具 " ++ name ++ " 未执行：Tool Call 预算不足。限制 " ++ pretty limit
          ++ "，已使用 " ++ pretty used ++ "，本批请求 " ++ pretty requested ++ "，剩余 "
          ++ pretty (Z.max 0 (limit - used)) ++ "。") true (budget_details limit used requested)) in
  do! messages := prog_for_each (answer_undispatched result) calls [] in
  return_value (messages, true).

(** [_fail_truncated_tool_calls] *)
Definition fail_truncated_tool_calls (calls : list pydict) : Prog ExecutedToolBatch :=
  let result call :=
    let! name := text_of call "name" in
    Ok (error_tool_result ("工具 " ++ quote ++ name ++ quote ++ " 未执行：模型输出达到长度上限，参数可能被截断。请使用完整参数重新发起工具调用。")
          true [("code", VStr "model_output_truncated"); ("synthetic", VBool true)]) in
  do! messages := prog_for_each (answer_undispatched result) calls [] in
  return_value (messages, true).

(** [_append_skipped_tool_results] *)
Definition append_skipped_tool_results (calls : list pydict) (code reason : string)
  : Prog (list pydict) :=
  prog_for_each (answer_undispatched (fun _ =>
    Ok (error_tool_result reason false [("code", VStr code); ("synthetic", VBool true)]))) calls [].

(** [admit_retry_attempt]: the first attempt of a call was charged with its batch. *)
Definition admit_retry_attempt (limit : Z) (tool : AgentTool) (attempt : Z)
  : Prog unit :=
  if attempt <=? 1 then return_value tt else
  do! charged := do_action (ChargeRetry limit) in
  let '(admitted, used, first_denial) := charged in
  if (admitted : bool) then return_value tt else
  do! _ := (if (first_denial : bool) then emit_budget_exceeded "tool_calls" limit used 1
            else return_value tt) in
  let remaining := Z.max 0 (limit - used) in
  throw_error (ToolAttemptAdmissionDenied (error_tool_result
    ("工具 " ++ at_name tool ++ " 第 " ++ pretty attempt ++ " 次执行未开始：Tool Call 预算不足。限制 "
     ++ pretty limit ++ "，已使用 " ++ pretty used ++ "，本次请求 1，剩余 " ++ pretty remaining ++ "。") true
    (budget_details limit used 1
     ++ [("attempt", VInt attempt); ("toolName", VStr (at_name tool))])%list)).

(** ** The state of a run *)

Record LoopState := mkLoop {
  lo_context : AgentContext;
  lo_new_messages : list pydict;
  lo_config : AgentLoopConfig
}.

(** [messages.append(message)] on the context and on the new messages *)
Definition add_message (message : pydict) (s : LoopState) : LoopState :=
  mkLoop (with_messages (ac_messages (lo_context s) ++ [message])%list (lo_context s))
    (lo_new_messages s ++ [message])%list (lo_config s).

Section Run.
Context (W : AgentWorld).

Definition budget_now : exec RunBudget := fun x => Some (Ok (ru_budget x), x).
Definition change_budget (f : RunBudget -> RunBudget) : exec unit :=
  fun x => Some (Ok tt, mkRun (f (ru_budget x)) (ru_history x)).

Definition use_turn (b : RunBudget) : RunBudget :=
  mkBudget (rb_turns_used b + 1) (rb_tool_calls_used b) (rb_tool_budget_exceeded b).
Definition use_tool_calls (n : Z) (b : RunBudget) : RunBudget :=
  mkBudget (rb_turns_used b) (rb_tool_calls_used b + n) (rb_tool_budget_exceeded b).

Definition show (event : pydict) : exec unit := run W (emit event).

(** A message, as it starts and as it ends *)
Definition show_message (message : pydict) : exec unit := run W (emit_result_message message).

(** [_emit_model_policy_selected] *)
Definition emit_model_policy_selected (c : AgentContext) (config : AgentLoopConfig) : exec unit :=
  run! policy := xlift (capture_model_request_policy (VList (map (fun t => VStr (at_name t)) (ac_tools c)))
                          (cf_stream_options config)) in
  show [("type", VStr "model_policy_selected"); ("policy", VDict (policy_to_dict policy))].

(** ** Tool calls *)

(** The runtime of a batch: that of the configuration, with the tools of the context
    registered, or one of its own *)
Definition own_runtime (config : AgentLoopConfig) (registration_id : string) : ToolDispatchRuntime :=
  mkRuntime [] registration_id 1 (cf_before_tool_call config) (cf_after_tool_call config) false false
    false (cf_retry_event_sink config) (cf_default_tool_timeout_seconds config) None.

Definition batch_runtime (s : LoopState) : exec (ToolDispatchRuntime * LoopState) :=
  let tools := ac_tools (lo_context s) in
  match cf_tool_runtime (lo_config s) with
  | Some r =>
      run! r' := xlift (register_tools r tools) in
      xret (r', mkLoop (lo_context s) (lo_new_messages s) (with_runtime r' (lo_config s)))
  | None =>
      run! id := run W (do_action FreshId) in
      run! r := xlift (register_tools (own_runtime (lo_config s) id) tools) in
      xret (r, s)
  end.

(** [_execute_tool_calls]; [prior] are the messages before the assistant message. *)
Definition dispatch_tool_calls (prior calls : list pydict) (s : LoopState)
  : exec (ExecutedToolBatch * LoopState) :=
  let config := lo_config s in
  run! rs := batch_runtime s in
  let (runtime, s) := rs in
  run! batch := dispatch_many redact public_message format_g runtime
                  (option_map admit_retry_attempt (cf_max_tool_calls config)) W calls prior
                  (ac_tools (lo_context s)) (cf_sequential_tools config)
                  (cf_tool_dispatch_context config) (cf_tenant_id config) in
  run! b := budget_now in
  xret ((tb_messages batch, tb_terminate batch || rb_tool_budget_exceeded b), s).
Definition execute_tool_calls (prior : list pydict) (message : pydict) (s : LoopState)
  : exec (ExecutedToolBatch * LoopState) :=
  let calls := message_tool_calls message in
  match jget message "toolCallBatchError" with
  | VDict d =>
      run! reason := xlift (py_str (jget_or d "message" (VStr "Tool Call 批次未通过执行前安全校验。"))) in
      run! messages := run W (append_skipped_tool_results calls "tool_call_batch_rejected"
                                ("整批工具均未执行：" ++ reason)) in
      xret ((messages, false), s)
  | _ => dispatch_tool_calls prior calls s
  end.

(** A batch within the budget, or refused as a whole: whether the run must stop after
    it, its messages, and whether it ends the tools' part *)
Definition run_charged_batch (prior : list pydict) (message : pydict) (s : LoopState)
  : exec (bool * ExecutedToolBatch * LoopState) :=
  let calls := message_tool_calls message in
  run! _ := change_budget (use_tool_calls (Z.of_nat (List.length calls))) in
  if is_str (jget message "stopReason") "length" then
    run! batch := run W (fail_truncated_tool_calls calls) in
    xret (false, batch, s)
  else
    run! done := execute_tool_calls prior message s in
    run! b := budget_now in
    xret (rb_tool_budget_exceeded b, fst done, snd done).
Definition run_batch (prior : list pydict) (message : pydict) (s : LoopState)
  : exec (bool * ExecutedToolBatch * LoopState) :=
  let calls := message_tool_calls message in
  let requested := Z.of_nat (List.length calls) in
  run! b := budget_now in
  match cf_max_tool_calls (lo_config s) with
  | Some limit =>
      if limit <? rb_tool_calls_used b + requested then
        let used := rb_tool_calls_used b in
        run! _ := run W (emit_budget_exceeded "tool_calls" limit used requested) in
        run! batch := run W (fail_tool_call_budget calls limit used) in
        xret (true, batch, s)
      else run_charged_batch prior message s
  | None => run_charged_batch prior message s
  end.

(** ** Asking the model *)

Definition repair_text : string := "此前工具调用没有结果，系统已补写错误结果以恢复协议完整性。".

(** [repair_unresolved_tool_calls], and [_emit_transcript_repairs] *)
Definition repaired (messages : list pydict) : exec (list pydict * list pydict) :=
  run! now := run W (do_action NowMs) in
  xlift (repair_unresolved_tool_calls now "tool_result_missing_repaired" repair_text messages).

Definition show_repairs (messages inserted : list pydict) (reason : string) : exec unit :=
  run_for_each (fun message (_ : unit) =>
    show [("type", VStr "transcript_repaired"); ("message", VDict message);
          ("contextMessages", VList (map VDict messages)); ("reason", VStr reason)]) inserted tt.

Definition serialize_tools (tools : list AgentTool) : pyval :=
  VList (map (fun t => VDict [("name", VStr (at_name t)); ("description", VStr (at_description t));
                              ("parameters", VDict (at_parameters t))]) tools).

Definition as_dict (v : pyval) : option pydict := match v with VDict d => Some d | _ => None end.

(** What the model is shown of the context *)
Definition model_input (c : AgentContext) (config : AgentLoopConfig) : exec (list pydict) :=
  run! messages := (if cf_transform_context config
                    then run W (do_action (TransformContext (ac_messages c)))
                    else xret (ac_messages c)) in
  run! messages := (if cf_inspect_model_input config then
                      run! inspected := run W (do_action (InspectModelInput messages)) in
                      xlift match inspected with
                            | VList l => match mapM as_dict l with Some ms => Ok ms | None => Err TypeError end
                            | _ => Err TypeError
                            end
                    else xret messages) in
  run! messages := run W (do_action (ConvertToLlm messages)) in
  run! _ := xlift (validate_closed_tool_call_transcript messages) in
  xret messages.

(** The identifiers that the host binds to a request *)
Definition metadata_names : list string := ["sessionId"; "operationId"; "runId"].
Definition bound_metadata (supplied : pyval) : res pydict :=
  match supplied with
  | VDict d =>
      if negb (forallb (fun k => mem_str k metadata_names) (dkeys d)) then Err ValueError else
      if forallb (fun v => match v with VStr s => nonempty s | _ => false end) (dvalues d)
      then Ok (omap (fun name => option_map (pair name) (dget name d)) metadata_names)
      else Err TypeError
  | _ => Err TypeError
  end.

(** The options of a request, less the objects among them *)
Definition request_options (config : AgentLoopConfig) (api_key : pyval) (request_id : string)
    (bound : pydict) : res pydict :=
  let options := cf_stream_options config in
  let options := dset "api_key" api_key options in
  let options := dset "reasoning" (if String.eqb (cf_thinking_level config) "off" then VNone
                                   else VStr (cf_thinking_level config)) options in
  let options := dset "model_request_id" (VStr request_id) options in
  if is_nil bound then Ok options else
  match jget options "durable_metadata" with
  | VNone => Ok (dset "durable_metadata" (VDict bound) options)
  | VDict configured => Ok (dset "durable_metadata" (VDict (dmerge configured bound)) options)
  | _ => Err TypeError
  end.

(** A request: its response, its id, and the identifiers bound to it *)
Definition ask_model (c : AgentContext) (config : AgentLoopConfig)
  : exec (ModelResponse * string * pydict) :=
  run! messages := model_input c config in
  run! key := (if cf_get_api_key config
               then run W (do_action (GetApiKey (jget (cf_model config) "provider"))) else xret VNone
               : exec pyval) in
  let api_key := if truthy key then key else jget (cf_stream_options config) "api_key" in
  run! request_id := (run W (do_action FreshId) : exec string) in
  run! policy := xlift (capture_model_request_policy (VList (map (fun t => VStr (at_name t)) (ac_tools c)))
                          (cf_stream_options config)) in
  run! bound := (if cf_durable_metadata_provider config then
                   run! supplied := run W (do_action DurableMetadata) in xlift (bound_metadata supplied)
                 else xret []) in
  run! _ := show ([("type", VStr "model_request_start"); ("requestId", VStr request_id);
                   ("requestPolicy", VDict (policy_to_dict policy))] ++ bound)%list in
  run! options := xlift (request_options config api_key request_id bound) in
  run! response := (run W (do_action (StreamModel (cf_model config)
    [("systemPrompt", VStr (ac_system_prompt c)); ("messages", VList (map VDict messages));
     ("tools", serialize_tools (ac_tools c))] options)) : exec ModelResponse) in
  xret (response, request_id, bound).

(** ** Taking a response in *)

(** [_inspect_terminal_model_output] *)
Definition inspect_terminal_model_output (config : AgentLoopConfig) (message : pydict) : exec pydict :=
  if negb (cf_inspect_model_output config) then xret message else
  run! inspected := run W (do_action (InspectModelOutput message)) in
  match inspected with
  | VDict d =>
      match jget d "content" with
      | VList _ => if is_str (jget d "role") "assistant"
                   then xlift (sanitize_terminal_assistant_tool_calls d) else xlift (Err TypeError)
      | _ => xlift (Err TypeError)
      end
  | _ => xlift (Err TypeError)
  end.

Section Response.
Context (config : AgentLoopConfig) (response : ModelResponse) (request_id : string) (bound : pydict).

(** The end of a response, when the partial message was put in the context or not *)
Definition take_message (c : AgentContext) (added : bool) : exec (pydict * AgentContext) :=
  run! final := xlift (let! m := mr_result response in sanitize_terminal_assistant_tool_calls m) in
  run! final := inspect_terminal_model_output config final in
  let final := mark_truncated_model_response final in
  let prior := if added then removelast (ac_messages c) else ac_messages c in
  run! final := run W (preflight_assistant_tool_batch prior final (ac_tools c) (cf_stream_options config)) in
  run! _ := (if added then xret tt
             else show [("type", VStr "message_start"); ("message", VDict final)]) in
  run! _ := show ([("type", VStr "message_end"); ("message", VDict final);
                   ("requestId", VStr request_id)] ++ bound)%list in
  xret (final, with_messages (prior ++ [final])%list c).

Definition partial_of (event : pydict) : res pydict :=
  match dget "partial" event with
  | None => Err KeyError
  | Some (VDict m) => Ok m
  | Some _ => Err OutsideModel
  end.

(** [async for event in response]; [partial] says whether a message was started. *)
Fixpoint take_events (events : list pydict) (c : AgentContext) (partial added : bool)
  : exec (pydict * AgentContext) :=
  match events with
  | [] => run! _ := xlift (mr_iteration response) in take_message c added
  | event :: events =>
      let type := jget event "type" in
      if is_str type "start" then
        run! m := xlift (partial_of event) in
        if cf_inspect_model_output config then take_events events c true added else
        run! _ := show [("type", VStr "message_start"); ("message", VDict m)] in
        take_events events (with_messages (ac_messages c ++ [m])%list c) true true
      else
      run! retry := xlift (in_str_set type model_retry_event_types) in
      if (retry : bool) then run! _ := show event in take_events events c partial added else
      run! update := xlift (in_str_set type assistant_update_types) in
      if (update : bool) then
        if negb partial then take_events events c partial added else
        run! m := xlift (partial_of event) in
        if cf_inspect_model_output config then take_events events c partial added else
        run! _ := show [("type", VStr "message_update"); ("message", VDict m);
                        ("assistantMessageEvent", VDict event)] in
        take_events events (with_messages (removelast (ac_messages c) ++ [m])%list c) partial added
      else
      run! final := xlift (in_str_set type ["done"; "error"]) in
      if (final : bool) then take_message c added else take_events events c partial added
  end.
End Response.

(** [_stream_assistant_response] *)
Definition stream_assistant_response (c : AgentContext) (config : AgentLoopConfig)
  : exec (pydict * AgentContext) :=
  run! r := repaired (ac_messages c) in
  let c := with_messages (fst r) c in
  run! _ := show_repairs (fst r) (snd r) "model_request" in
  run! req := ask_model c config in
  let '(response, request_id, bound) := req in
  take_events config response request_id bound (mr_events response) c false false.

(** ** Turns *)

Definition agent_end (s : LoopState) : exec unit :=
  show [("type", VStr "agent_end"); ("messages", VList (map VDict (lo_new_messages s)))].

Definition over_turns (config : AgentLoopConfig) (b : RunBudget) : option Z :=
  match cf_max_turns config with
  | Some limit => if limit <=? rb_turns_used b then Some limit else None
  | None => None
  end.

(** How a turn ends: the run is over, or it goes on with whether the tools want another
    turn and the messages that were queued *)
Inductive turn_end :=
| RunOver
| GoOn (more_tools : bool) (pending : list pydict) (s : LoopState).

Definition run_over (s : LoopState) : exec (turn_end * LoopState) :=
  run! _ := agent_end s in xret (RunOver, s).

(** [_get_messages] *)
Definition steering_messages (config : AgentLoopConfig) : exec (list pydict) :=
  if cf_get_steering_messages config then run W (do_action GetSteeringMessages) else xret [].
Definition follow_up_messages (config : AgentLoopConfig) : exec (list pydict) :=
  if cf_get_follow_up_messages config then run W (do_action GetFollowUpMessages) else xret [].

Definition take_pending (message : pydict) (s : LoopState) : exec LoopState :=
  run! _ := show_message message in xret (add_message message s).

(** The next turn as the product prepares it *)
Definition prepare_next (turn : TurnCompletedContext) (s : LoopState) : exec LoopState :=
  if negb (cf_prepare_next_turn (lo_config s)) then xret s else
  run! update := run W (do_action (PrepareNextTurn turn)) in
  xret match update with
       | None => s
       | Some u => mkLoop (match up_context u with Some c => c | None => lo_context s end)
                     (lo_new_messages s) (with_update u (lo_config s))
       end.

(** After the tools of a turn *)
Definition finish_turn (message : pydict) (results : list pydict) (more_tools : bool) (s : LoopState)
  : exec (turn_end * LoopState) :=
  let turn := mkTurn message results (lo_context s) (lo_new_messages s) in
  run! s := prepare_next turn s in
  run! _ := (if more_tools then emit_model_policy_selected (lo_context s) (lo_config s) else xret tt) in
  run! stop := (if cf_should_stop_after_turn (lo_config s)
                then run W (do_action (ShouldStopAfterTurn turn)) else xret false) in
  if (stop : bool) then run_over s else
  run! b := budget_now in
  match over_turns (lo_config s) b with
  | Some limit =>
      run! _ := (if more_tools then run W (emit_budget_exceeded "turns" limit (rb_turns_used b) 1)
                 else xret tt) in
      run_over s
  | None =>
      run! pending := steering_messages (lo_config s) in
      xret (GoOn more_tools pending s, s)
  end.

(** The tools of a turn: whether they stop the run, their results, and whether they want
    another turn *)
Definition turn_tools (prior : list pydict) (message : pydict) (s : LoopState)
  : exec (bool * list pydict * bool * LoopState) :=
  if is_nil (message_tool_calls message) then xret (false, [], false, s) else
  run! done := run_batch prior message s in
  let '(stop, (results, terminate), s) := done in
  xret (stop, results, negb terminate, fold_left (fun s m => add_message m s) results s).

(** One turn of the inner loop: what is done with a response, ... *)
Definition answer_turn (prior : list pydict) (message : pydict) (s : LoopState)
  : exec (turn_end * LoopState) :=
  run! failed := xlift (in_str_set (jget message "stopReason") ["error"; "aborted"]) in
  if (failed : bool) then
    run! _ := show [("type", VStr "turn_end"); ("message", VDict message); ("toolResults", VList [])] in
    run_over s
  else
  run! tools := turn_tools prior message s in
  let '(stop, results, more_tools, s) := tools in
  run! _ := show [("type", VStr "turn_end"); ("message", VDict message);
                  ("toolResults", VList (map VDict results))] in
  if is_str (jget message "stopReason") "length" || stop then run_over s
  else finish_turn message results more_tools s.

(** ... how it is asked for, ... *)
Definition counted_turn (pending : list pydict) (s : LoopState) : exec (turn_end * LoopState) :=
  run! s := run_for_each take_pending pending s in
  run! answer := stream_assistant_response (lo_context s) (lo_config s) in
  let (message, c) := answer in
  answer_turn (removelast (ac_messages c)) message
    (mkLoop c (lo_new_messages s ++ [message])%list (lo_config s)).

(** ... and whether there is a turn left. *)
Definition turn (first : bool) (pending : list pydict) (s : LoopState) : exec (turn_end * LoopState) :=
  run! b := budget_now in
  match (if first then None else over_turns (lo_config s) b) with
  | Some limit =>
      run! _ := run W (emit_budget_exceeded "turns" limit (rb_turns_used b) 1) in
      run_over s
  | None =>
      run! _ := (if first then xret tt else show [("type", VStr "turn_start")]) in
      run! _ := change_budget use_turn in
      counted_turn pending s
  end.

(** [_run_loop]: the inner loop goes on while there are tool calls or queued messages,
    and the outer one while there are follow-ups. *)
Fixpoint run_loop (fuel : nat) (first : bool) (pending : list pydict) (s : LoopState) : exec LoopState :=
  match fuel with
  | O => fun _ => None
  | S fuel' =>
      run! ended := turn first pending s in
      match fst ended with
      | RunOver => xret (snd ended)
      | GoOn more_tools pending s =>
          if more_tools || negb (is_nil pending) then run_loop fuel' false pending s else
          run! follow_ups := follow_up_messages (lo_config s) in
          if is_nil follow_ups then run! _ := agent_end s in xret s
          else run_loop fuel' false follow_ups s
      end
  end.

(** The part that [run_agent_loop] and [run_agent_loop_continue] share *)
Definition run_from (fuel : nat) (prompts : list pydict) (c : AgentContext) (config : AgentLoopConfig)
    (reason : string) : exec LoopState :=
  run! r := repaired (ac_messages c) in
  let s := mkLoop (with_messages (fst r ++ prompts)%list c) prompts config in
  run! _ := show [("type", VStr "agent_start")] in
  run! _ := show_repairs (fst r) (snd r) reason in
  run! _ := show [("type", VStr "turn_start")] in
  run! _ := emit_model_policy_selected (lo_context s) config in
  run! _ := run_for_each (fun prompt (_ : unit) => show_message prompt) prompts tt in
  run! pending := steering_messages config in
  run_loop fuel true pending s.

Definition fresh_budget : exec unit := change_budget (fun _ => mkBudget 0 0 false).

(** [run_agent_loop] *)
Definition run_agent_loop (fuel : nat) (prompts : list pydict) (c : AgentContext)
    (config : AgentLoopConfig) : exec LoopState :=
  run! _ := fresh_budget in run_from fuel prompts c config "run_start".

(** [_validate_continuation_context] *)
Definition validate_continuation_context (c : AgentContext) : res unit :=
  match last (ac_messages c) with
  | None => Err ValueError
  | Some m => if is_str (jget m "role") "assistant" then Err ValueError else Ok tt
  end.

(** [run_agent_loop_continue] *)
Definition run_agent_loop_continue (fuel : nat) (c : AgentContext) (config : AgentLoopConfig)
  : exec LoopState :=
  run! _ := xlift (validate_continuation_context c) in
  run! _ := fresh_budget in run_from fuel [] c config "continue_start".
End Run.
End Loop.
