(* ===== verification/ToolTraces.v ===== *)
(** * What the dispatch of a tool does

    The trace of one prepared call: its handler is called for that call only, each time
    at the cost of its batch or of a retry that the budget admitted, and only after the
    watch was told; and what an execution ends with says whether the handler was called.
    [dispatch_prepared_ok] sums it up. *)

From S2P Require Import Prelude PyDict Text PyVal PyNum Retry RetryLoop Approvals Service Tasks.
From S2P Require Import Messages AgentTypes AgentWorld AgentTraces ToolDispatch AgentLoop.
From Stdlib Require Import String.

#[local] Open Scope string_scope.
#[local] Open Scope bool_scope.
#[local] Open Scope Z_scope.

(** ** One call *)
Section Call.
Context (redact : string -> string) (public_message : exn -> option string).
Context (format_g : pynum -> string) (R : ToolDispatchRuntime) (max_calls : option Z).
Context (p : PreparedToolCall) (call_id : string).
Abbreviation admission := (option_map (admit_retry_attempt redact) max_calls).
Abbreviation tool := (pt_tool p).

(** What the trace of a call may hold: its handler is called for it alone, with its
    arguments and on behalf of its caller. *)
Definition own_entry (e : agent_entry) : Prop :=
  match e with
  | Acted (CallHandler t id args context _) _ =>
      t = tool /\ id = call_id /\ args = pt_args p /\
      forall c, context = Some c -> dc_identity c = dc_identity (pt_dispatch_context p) /\
                                    dc_approval c = dc_approval (pt_dispatch_context p)
  | Acted (ChargeRetry limit) _ => max_calls = Some limit
  | Acted (StreamModel _ _ _) _ | Acted (WatchCall _) _ | Interrupted _ => False
  | Acted a _ => of_call tool call_id a = true
  end.

(** The quiet actions of the run of this call *)
Definition own_quiet (a : agent_action) : Prop := quiet_action a /\ of_call tool call_id a = true.
Abbreviation quiet_rule := (quiet_rule_in own_quiet).
Abbreviation quiet_prog p := (forall g, prog_ok quiet_rule sincere p g).
Abbreviation calm_to := (calm_in own_quiet).
Abbreviation calm q := (calm_in own_quiet (fun _ => True) q).

#[local] Ltac own_act :=
  split; [exact I|]; cbn; rewrite ?String.eqb_refl, ?Z.eqb_refl; reflexivity.
#[local] Hint Extern 0 (own_quiet _) => own_act : core.

Record sound_call (credit : nat) (t : history) : Prop := {
  sc_own : Forall own_entry t;
  sc_paid : max_calls <> None -> (handlers t + credit <= 1 + grants t)%nat;
  sc_told : dispatched t = true -> told ExecutionStarted t = true /\ told HandlerDispatched t = true
}.

Abbreviation call_rule := (trace_rule Acted (sound_call 0)).

Lemma sound_mono c c' t : (c' <= c)%nat -> sound_call c t -> sound_call c' t.
Proof. intros Hle [H1 H2 H3]. constructor; [done| |done]. intros H%H2. lia. Qed.

Lemma quiet_counts a r : own_quiet a ->
  is_handler_call (Acted a r) = false /\ is_grant (Acted a r) = false /\ own_entry (Acted a r).
Proof. intros [H1 H2]. by destruct a. Qed.

Lemma told_mono s e t : told s t = true -> told s (e :: t) = true.
Proof. cbn. intros ->. apply orb_true_r. Qed.

Lemma sound_quiet c a r t : own_quiet a -> sound_call c t -> sound_call c (Acted a r :: t).
Proof.
  intros (H1 & H2 & H3)%(quiet_counts a r) [S1 S2 S3]. constructor.
  - by constructor.
  - intros H%S2. rewrite !count_cons, H1, H2. done.
  - cbn [existsb]. rewrite H1. intros [H H']%S3. split; by apply told_mono.
Qed.

(** What a quiet program leaves: the same calls, and more excuses *)
Record calm_after (c : nat) (t t' : history) : Prop := {
  ca_sound : sound_call c t';
  ca_dispatched : dispatched t' = dispatched t;
  ca_excused : excused t = true -> excused t' = true;
  ca_told : forall s, told s t = true -> told s t' = true
}.

Lemma calm_refl c t : sound_call c t -> calm_after c t t.
Proof. by intros H. Qed.

Lemma calm_quiet c a r t t' : own_quiet a -> calm_after c t t' -> calm_after c t (Acted a r :: t').
Proof.
  intros Hq [H1 H2 H3 H4]. constructor; [by apply sound_quiet| | |].
  - cbn [existsb]. destruct (quiet_counts a r Hq) as (-> & _). exact H2.
  - intros H. cbn [existsb]. rewrite (H3 H). apply orb_true_r.
  - intros s H. by apply told_mono, H4.
Qed.

Lemma excuse_denial a (r : res (agent_answer a)) t :
  raises_denial r = true -> excused (Acted a r :: t) = true.
Proof. destruct r as [v|e]; [done|]. cbn. by intros ->. Qed.

Lemma quiet_traces {A} (post : res A -> bool -> Prop) (q : Prog A) c t t0 : forall g,
  prog_ok quiet_rule post q g -> calm_after c t0 t -> (g = true -> excused t = true) ->
  prog_ok call_rule (fun r t' => calm_after c t0 t' /\ exists g', post r g' /\ (g' = true -> excused t' = true))
    q t.
Proof.
  revert t. induction q as [r|a k IH]; intros t g Hq Ht Hg; [split; [done|by exists g]|].
  destruct Hq as [Ha Hk]. intros r.
  assert (Hc : calm_after c t0 (Acted a r :: t)) by by apply calm_quiet.
  split; [eapply sound_mono; [|apply Hc]; lia|].
  apply (IH _ _ (g || raises_denial r)); [apply Hk|done|].
  intros [H|H]%orb_true_iff; [|by apply excuse_denial].
  cbn [existsb]. rewrite (Hg H). apply orb_true_r.
Qed.

(** A quiet program, and what is left to show after it *)
Lemma after_quiet {A} (q : Prog A) c t (post : res A -> history -> Prop) :
  quiet_prog q -> sound_call c t ->
  (forall r t', calm_after c t t' -> (raises_denial r = true -> excused t' = true) -> post r t') ->
  prog_ok call_rule post q t.
Proof.
  intros Hq Ht Hpost. eapply prog_ok_mono; [|apply (quiet_traces _ _ c t t false (Hq false));
    [by apply calm_refl|done]].
  intros r t' (Hc & g' & Hs & Hg). apply Hpost; [done|]. intros H. by apply Hg, Hs.
Qed.

Lemma then_quiet {A B} (q : Prog A) (f : A -> Prog B) c t (post : res B -> history -> Prop) :
  quiet_prog q -> sound_call c t ->
  (forall v t', calm_after c t t' -> prog_ok call_rule post (f v) t') ->
  (forall e t', calm_after c t t' -> (denies e = true -> excused t' = true) -> post (Err e) t') ->
  prog_ok call_rule post (then_do q f) t.
Proof.
  intros Hq Ht Hok Herr. apply prog_ok_then. apply (after_quiet _ c); [done..|].
  intros [v|e] t' Hc Hd; [by apply Hok|by apply Herr].
Qed.

Lemma sequel_quiet {A B} (q : Prog A) (f : res A -> Prog B) c t (post : res B -> history -> Prop) :
  quiet_prog q -> sound_call c t ->
  (forall r t', calm_after c t t' -> (raises_denial r = true -> excused t' = true) ->
     prog_ok call_rule post (f r) t') ->
  prog_ok call_rule post (sequel q f) t.
Proof. intros Hq Ht H. apply prog_ok_sequel. by apply (after_quiet _ c). Qed.

(** *** An attempt *)

(** If the handler of a tool that must not be replayed was called, something said that
    nothing was committed. *)
Definition fresh_start (t : history) : Prop :=
  dispatched t = true -> never_replayed tool = true -> excused t = true.

(** An attempt raises an error that denies a commit only with a reason for it. *)
Definition attempt_done {A} (r : res A) (t : history) : Prop :=
  sound_call 0 t /\ (raises_denial r = true -> fresh_start t).

Lemma fresh_calm c t t' : fresh_start t -> calm_after c t t' -> fresh_start t'.
Proof. intros H [_ Hd He _]. unfold fresh_start. rewrite Hd. auto. Qed.

Lemma fresh_excused t : excused t = true -> fresh_start t.
Proof. by intros H _ _. Qed.

Lemma attempt_calm {A} c (r : res A) t t' : attempt_done r t -> calm_after c t t' -> attempt_done r t'.
Proof.
  intros [_ H] Hc. split; [eapply sound_mono; [|apply Hc]; lia|].
  intros Hr. by eapply fresh_calm; [apply H|].
Qed.

Lemma calm_sound c t t' : calm_after c t t' -> sound_call 0 t'.
Proof. intros [H _ _ _]. eapply sound_mono; [|exact H]. lia. Qed.
#[local] Hint Resolve calm_sound : core.

Lemma attempt_failed {A} c t t' e :
  calm_after c t t' -> (denies e = true -> excused t' = true) -> attempt_done (Err e : res A) t'.
Proof. intros Hc H. split; [by eapply calm_sound|]. intros Hd. by apply fresh_excused, H. Qed.
#[local] Hint Resolve attempt_failed : core.

(** The program raises an error of its own, which denies a commit only at a fresh start. *)
Lemma attempt_raised {A} e t : sound_call 0 t -> fresh_start t -> attempt_done (Err e : res A) t.
Proof. by split. Qed.

(** The events of the call name it. *)
Lemma emit_quiet event : of_call tool call_id (Emit event) = true -> quiet_prog (emit event).
Proof. intros H. by apply quiet_act. Qed.

Lemma lease_interrupted_quiet lease : quiet_prog (lease_interrupted call_id lease).
Proof. unfold lease_interrupted. destruct (sl_heartbeat lease); [by apply quiet_act|by apply quiet_done]. Qed.

(** A lost lease is an unknown outcome where it has to be one. *)
Lemma lease_unknown {A} returned t :
  sound_call 0 t -> attempt_done (Err (ResourceLeaseLostError (never_replayed tool || returned)) : res A) t.
Proof. intros Ht. split; [done|]. intros Hd _ Hn. cbn in Hd. by rewrite Hn in Hd. Qed.

Lemma lease_lost_ok returned t c :
  sound_call c t -> prog_ok call_rule attempt_done (lease_lost p call_id returned) t.
Proof.
  intros Ht. unfold lease_lost. apply (then_quiet _ _ c); [apply emit_quiet, String.eqb_refl|done| |eauto].
  intros _ t' Hc. apply lease_unknown. eauto.
Qed.

Lemma lost_at_release_ok unknown t :
  sound_call 0 t -> (never_replayed tool = true -> unknown = true) ->
  prog_ok call_rule attempt_done (lost_at_release p call_id unknown) t.
Proof.
  intros Ht Hu. unfold lost_at_release. apply (sequel_quiet _ _ 0); [apply emit_quiet, String.eqb_refl|done|].
  intros _ t' Hc _. split; [eauto|]. intros Hd _ Hn. by rewrite (Hu Hn) in Hd.
Qed.

Lemma release_lease_ok r t : attempt_done r t -> prog_ok call_rule attempt_done (release_lease p call_id r) t.
Proof.
  intros Hr. unfold release_lease. apply (sequel_quiet _ _ 0); [by apply quiet_act|apply Hr|].
  intros [u|e] t' Hc Hd; [by eapply attempt_calm|]. destruct r as [v|x].
  - destruct (lease_was_lost e); [apply lost_at_release_ok; eauto; done|eapply attempt_failed; [exact Hc|exact Hd]].
  - destruct (_ || _); [by eapply attempt_calm|]. apply lost_at_release_ok; eauto.
Qed.

(** The context a handler gets is its caller's. *)
Lemma dispatch_context_caller c c' :
  dispatch_context c = Ok c' -> dc_identity c' = dc_identity c /\ dc_approval c' = dc_approval c.
Proof.
  unfold dispatch_context. intros H. do 3 apply rbind_Ok in H as (? & _ & H). by injection H as <-.
Qed.

Lemma fenced_context_caller lease c :
  fenced_context p lease = Ok c ->
  dc_identity c = dc_identity (pt_dispatch_context p) /\ dc_approval c = dc_approval (pt_dispatch_context p).
Proof.
  unfold fenced_context. intros (c' & Hc & H)%rbind_Ok. apply rbind_Ok in H as (? & _ & [= <-]).
  destruct (sl_resource_fencing_token lease); [|by injection Hc as <-].
  destruct (sl_resource_fencing_scope lease); [|done]. by apply dispatch_context_caller in Hc.
Qed.

Lemma fenced_context_denial lease : raises_denial (fenced_context p lease) = false.
Proof.
  assert (Hv : forall b, raises_denial (value_check b) = false) by by intros [].
  assert (Hp : forall t s, raises_denial (fencing_pair_ok t s) = false) by by intros [] []; cbn.
  assert (Hb : forall (m : res unit) A (k : unit -> res A),
    raises_denial m = false -> raises_denial (k tt) = false -> raises_denial (rbind m k) = false).
  { by intros [[]|] A k. }
  assert (Hc : forall c, raises_denial (dispatch_context c) = false).
  { intros c. unfold dispatch_context. by repeat apply Hb. }
  unfold fenced_context.
  destruct (sl_resource_fencing_token lease), (sl_resource_fencing_scope lease); cbn [rbind]; try done.
  2,3: by apply Hb; [destruct (_ || _)|].
  destruct (dispatch_context _) as [c|e] eqn:E; cbn [rbind].
  - by apply Hb; [destruct (_ || _)|].
  - specialize (Hc (mkDispatchContext (dc_identity (pt_dispatch_context p))
      (dc_approval (pt_dispatch_context p)) (dc_tenant_id (pt_dispatch_context p))
      (dc_fencing_token (pt_dispatch_context p)) (dc_fencing_scope (pt_dispatch_context p)) (Some z) (Some s))).
    rewrite E in Hc. exact Hc.
Qed.

Lemma handler_context_denial lease : raises_denial (handler_context p lease) = false.
Proof.
  unfold handler_context. destruct (is_some _); [|by destruct (is_some _)].
  pose proof (fenced_context_denial lease) as H. by destruct (fenced_context p lease).
Qed.

Lemma handler_context_caller lease context c :
  handler_context p lease = Ok context -> context = Some c ->
  dc_identity c = dc_identity (pt_dispatch_context p) /\ dc_approval c = dc_approval (pt_dispatch_context p).
Proof.
  unfold handler_context. intros H ->. destruct (is_some (at_execute_with_context _)).
  - apply rbind_Ok in H as (c' & H & [= <-]). by apply fenced_context_caller in H.
  - by apply rbind_Ok in H as (? & _ & ?).
Qed.

(** The call itself uses up a credit. *)
Lemma sound_handler_call context attempt r t :
  sound_call 1 t -> told ExecutionStarted t = true -> told HandlerDispatched t = true ->
  (forall c, context = Some c -> dc_identity c = dc_identity (pt_dispatch_context p) /\
                                 dc_approval c = dc_approval (pt_dispatch_context p)) ->
  sound_call 0 (Acted (CallHandler tool call_id (pt_args p) context attempt) r :: t).
Proof.
  intros [H1 H2 _] Hs Hd Hc. constructor.
  - by constructor.
  - intros H%H2. rewrite !count_cons. cbn. lia.
  - intros _. split; by apply told_mono.
Qed.

Lemma handler_call_ok context attempt t (post : res AgentToolResult -> history -> Prop) :
  sound_call 1 t -> told ExecutionStarted t = true ->
  (forall c, context = Some c -> dc_identity c = dc_identity (pt_dispatch_context p) /\
                                 dc_approval c = dc_approval (pt_dispatch_context p)) ->
  (forall r t', sound_call 0 t' -> (raises_denial r = true -> excused t' = true) -> post r t') ->
  prog_ok call_rule post (handler_call p call_id context attempt) t.
Proof.
  intros Ht Hs Hc Hpost. unfold handler_call.
  intros [[]|e]; cbn [prog_ok then_do sequel do_action].
  - assert (Ht1 : sound_call 1 (Acted (Signal call_id HandlerDispatched) (Ok tt) :: t)) by by apply sound_quiet.
    split; [by eapply sound_mono; [|exact Ht1]; lia|]. intros r.
    assert (H : sound_call 0 (Acted (CallHandler tool call_id (pt_args p) context attempt) r
                                :: Acted (Signal call_id HandlerDispatched) (Ok tt) :: t)).
    { apply sound_handler_call; [done|by apply told_mono|done|done]. }
    split; [exact H|]. apply Hpost; [exact H|].
    exact (excuse_denial (CallHandler tool call_id (pt_args p) context attempt) r _).
  - assert (H : sound_call 0 (Acted (Signal call_id HandlerDispatched) (Err e) :: t)).
    { apply sound_quiet; [done|]. eapply sound_mono; [|exact Ht]. lia. }
    split; [exact H|]. apply Hpost; [exact H|]. exact (excuse_denial (Signal call_id HandlerDispatched) (Err e) t).
Qed.

Lemma invoke_tool_ok lease attempt t :
  sound_call 1 t -> told ExecutionStarted t = true ->
  prog_ok call_rule (fun r t' => sound_call 0 t' /\ (raises_denial r = true -> excused t' = true))
    (invoke_tool p call_id lease attempt) t.
Proof.
  intros Ht Hs. unfold invoke_tool. apply (then_quiet _ _ 1); [apply emit_quiet, String.eqb_refl|done| |by eauto].
  intros [] t1 Hc1. apply (then_quiet _ _ 1); [apply lease_interrupted_quiet|apply Hc1| |by eauto].
  intros lost t2 Hc2. destruct lost; [split; [by eauto|done]|].
  apply prog_ok_done. destruct (handler_context p lease) as [context|e] eqn:Ec.
  2: { split; [by eauto|]. intros He. pose proof (handler_context_denial lease) as H.
       rewrite Ec in H. cbn in H, He. congruence. }
  apply prog_ok_then, handler_call_ok; [apply Hc2|by apply (ca_told _ _ _ Hc2), (ca_told _ _ _ Hc1)
    |intros c; by apply (handler_context_caller lease)|].
  intros [v|e] t3 Ht3 He; by split.
Qed.

Lemma leased_call_ok lease attempt t :
  sound_call 1 t -> told ExecutionStarted t = true ->
  prog_ok call_rule attempt_done (leased_call p call_id lease attempt) t.
Proof.
  intros Ht Hs. unfold leased_call. apply prog_ok_sequel.
  eapply prog_ok_mono; [|by apply invoke_tool_ok]. intros r t1 [Ht1 Hd].
  destruct r as [[v|]|e]; [|by eapply lease_lost_ok|];
    (apply (then_quiet _ _ 0); [apply lease_interrupted_quiet|done| |by eauto]);
    intros lost t2 Hc; (destruct lost; [by eapply lease_lost_ok, Hc|]).
  - split; [by eauto|done].
  - split; [by eauto|]. intros He. apply fresh_excused, (ca_excused _ _ _ Hc), Hd, He.
Qed.

(** *** Attempts and their admission *)

(** The credit an attempt starts with: the first is paid with its batch. *)
Definition credit_of (attempt : Z) : nat := if attempt <=? 1 then 1 else 0.

Definition admitted_after (t : history) (r : res unit) (t' : history) : Prop :=
  match r with
  | Ok _ => calm_after 1 t t'
  | Err _ => attempt_done r t'
  end.

Lemma charge_counts limit r t : is_grant (Acted (ChargeRetry limit) r) = true ->
  max_calls = Some limit -> sound_call 0 t -> calm_after 1 t (Acted (ChargeRetry limit) r :: t).
Proof.
  intros Hg Hm [H1 H2 H3]. constructor.
  - constructor; [by constructor| |].
    + intros H%H2. rewrite !count_cons, Hg. cbn. lia.
    + intros H. destruct (H3 H). split; by apply told_mono.
  - done.
  - intros H. cbn [existsb]. rewrite H. apply orb_true_r.
  - intros s. apply told_mono.
Qed.

Lemma charge_denied limit r t : max_calls = Some limit -> sound_call 0 t ->
  calm_after 0 t (Acted (ChargeRetry limit) r :: t).
Proof.
  intros Hm [H1 H2 H3]. constructor.
  - constructor; [by constructor| |].
    + intros H%H2. rewrite !count_cons. cbn [is_handler_call]. lia.
    + intros H. destruct (H3 H). split; by apply told_mono.
  - done.
  - intros H. cbn [existsb]. rewrite H. apply orb_true_r.
  - intros s. apply told_mono.
Qed.

Lemma calm_trans c c' t1 t2 t3 : calm_after c t1 t2 -> calm_after c' t2 t3 -> calm_after c' t1 t3.
Proof.
  intros [_ H2 H3 H4] [H5 H6 H7 H8]. constructor; [done|congruence|auto|auto].
Qed.

Lemma admission_ok attempt t :
  sound_call (credit_of attempt) t -> fresh_start t ->
  prog_ok call_rule (admitted_after t)
    match admission with Some f => f tool attempt | None => return_value tt end t.
Proof.
  unfold credit_of. intros Ht Hf. destruct max_calls as [limit|] eqn:Em; cbn [option_map].
  2: { apply calm_refl. destruct Ht as [H1 _ H3]. by constructor. }
  unfold admit_retry_attempt. destruct (attempt <=? 1); [by apply calm_refl|].
  intros r. pose proof (charge_denied limit r t Em Ht) as Hc.
  split; [by eauto|]. destruct r as [[[admitted used] first]|e].
  2: { eapply attempt_failed; [exact Hc|]. exact (excuse_denial (ChargeRetry limit) (Err e) t). }
  destruct admitted; [by apply charge_counts|].
  apply (then_quiet _ _ 0); [|by eauto| |].
  - destruct first; [by apply emit_quiet|by apply quiet_done].
  - intros [] t' Hc'. apply attempt_raised; [by eauto|].
    eapply fresh_calm; [|exact Hc']. by eapply fresh_calm.
  - intros e t' Hc' He. by eapply attempt_failed.
Qed.

Lemma not_admitted_ok e t :
  attempt_done (Err e : res unit) t -> prog_ok call_rule attempt_done (not_admitted call_id e) t.
Proof.
  intros [Ht He]. unfold not_admitted. apply (sequel_quiet _ _ 0); [by apply quiet_act|done|].
  intros released t' Hc _. destruct released as [u|x]; [|by destruct (_ && _); split; eauto].
  split; [by eauto|]. intros Hd. eapply fresh_calm; [|exact Hc]. by apply He.
Qed.

Lemma execute_once_ok attempt t :
  sound_call (credit_of attempt) t -> fresh_start t ->
  prog_ok call_rule attempt_done (execute_once admission p call_id attempt) t.
Proof.
  intros Ht Hf. unfold execute_once. apply (sequel_quiet _ _ (credit_of attempt)); [by apply quiet_act|done|].
  intros acquired t1 Hc1 _. pose proof (fresh_calm _ _ _ Hf Hc1) as Hf1.
  destruct acquired as [lease|e]; [|apply attempt_raised; [by eauto|done]].
  apply prog_ok_sequel. eapply prog_ok_mono; [|apply admission_ok; [apply Hc1|done]].
  intros [[]|e] t2 H2; cbn in H2; [|by apply not_admitted_ok].
  intros r. pose proof (calm_quiet 1 (Signal call_id ExecutionStarted) r t2 t2 (conj I (String.eqb_refl call_id)) (calm_refl _ _ (ca_sound _ _ _ H2))) as Hc3.
  split; [by eauto|]. destruct r as [[]|e].
  - apply (prog_ok_sequel _ _ (leased_call p call_id lease attempt) (release_lease p call_id)).
    eapply prog_ok_mono; [|apply leased_call_ok; [apply Hc3|done]].
    intros r t4 H. by apply release_lease_ok.
  - eapply attempt_failed; [exact Hc3|]. exact (excuse_denial (Signal call_id ExecutionStarted) (Err e) t2).
Qed.

Lemma show_retry_quiet event : of_call tool call_id (Emit event) = true -> quiet_prog (show_retry R event).
Proof.
  intros H. unfold show_retry. apply quiet_then; [|intros; by apply emit_quiet].
  destruct (td_retry_event_sink R); [by apply quiet_act|by apply quiet_done].
Qed.

Lemma finished_retry_quiet retry_id k outcome : quiet_prog (finished_retry R p call_id retry_id k outcome).
Proof. unfold finished_retry. destruct (k =? 0); [by apply quiet_done|apply show_retry_quiet, String.eqb_refl]. Qed.

(** The chain of a call that gave up is told, and its error raised. *)
Lemma refused_retry_ok retry_id k outcome e t :
  sound_call 0 t -> fresh_start t ->
  prog_ok call_rule (attempt_done (A := AgentToolResult))
    (then_do (finished_retry R p call_id retry_id k outcome) (fun _ => throw_error e)) t.
Proof.
  intros Ht Hf. apply (then_quiet _ _ 0); [apply finished_retry_quiet|done| |by eauto].
  intros [] t' Hc. apply attempt_raised; [by eauto|by eapply fresh_calm].
Qed.

Lemma told_attempt_ok retry_id k t :
  sound_call (credit_of (k + 1)) t -> fresh_start t ->
  prog_ok call_rule attempt_done (told_attempt R admission p call_id retry_id k) t.
Proof.
  intros Ht Hf. unfold told_attempt. apply prog_ok_then.
  eapply prog_ok_mono; [|by apply execute_once_ok]. intros [v|e] t1 H1; [|exact H1].
  apply (then_quiet _ _ 0); [apply finished_retry_quiet|apply H1| |by eauto].
  intros [] t2 Hc2. split; [by eauto|done].
Qed.

Lemma retry_tool_ok policy retry_id started_at left : forall k t,
  0 <= k -> sound_call (credit_of (k + 1)) t -> fresh_start t ->
  prog_ok call_rule attempt_done (retry_tool R admission p call_id policy retry_id started_at left k) t.
Proof.
  induction left as [|left IH]; intros k t Hk Ht Hf; cbn [retry_tool].
  all: apply (then_quiet _ _ (credit_of (k + 1))); [by apply quiet_act|done| |by eauto].
  all: intros cancelled t1 Hc1; destruct cancelled; [by split; [by eauto|]|].
  all: apply prog_ok_sequel; eapply prog_ok_mono;
    [|apply told_attempt_ok; [apply Hc1|by eapply fresh_calm]].
  all: intros [v|e] t2 [Ht2 H2]; [by split|]; destruct e; try (by split); specialize (H2 eq_refl).
  { by apply refused_retry_ok. }
  destruct (negb _); [by apply refused_retry_ok|].
  apply (then_quiet _ _ 0); [by apply quiet_act|done| |by eauto]. intros random t3 Hc3.
  apply (then_quiet _ _ 0); [by apply quiet_act|apply Hc3| |by eauto]. intros now t4 Hc4.
  assert (Hf4 : fresh_start t4) by (eapply fresh_calm; [|exact Hc4]; by eapply fresh_calm).
  apply prog_ok_done. destruct (planned_delay _ _ _ _ _ _) as [[ms|]|e];
    [|apply attempt_raised; by eauto..].
  apply (then_quiet _ _ 0); [apply show_retry_quiet, String.eqb_refl|apply Hc4| |by eauto]. intros [] t5 Hc5.
  apply (then_quiet _ _ 0); [by apply quiet_act|apply Hc5| |by eauto]. intros [] t6 Hc6.
  apply (then_quiet _ _ 0); [apply show_retry_quiet, String.eqb_refl|apply Hc6| |by eauto]. intros [] t7 Hc7.
  apply IH; [lia| |].
  - unfold credit_of. destruct (Z.leb_spec (k + 1 + 1) 1); [lia|apply Hc7].
  - eapply fresh_calm; [|exact Hc7]. eapply fresh_calm; [|exact Hc6]. by eapply fresh_calm.
Qed.

Lemma execute_with_retry_ok :
  prog_ok call_rule attempt_done (execute_with_retry R admission p call_id) [].
Proof.
  assert (Hnil : sound_call 1 []) by (constructor; [done|cbn; lia|done]).
  unfold execute_with_retry. destruct (at_retry_policy tool) as [policy|].
  - apply (then_quiet _ _ 1); [by apply quiet_act|done| |by eauto]. intros id t1 Hc1.
    apply (then_quiet _ _ 1); [by apply quiet_act|apply Hc1| |by eauto]. intros now t2 Hc2.
    apply retry_tool_ok; [done|apply Hc2|].
    eapply fresh_calm; [|exact Hc2]. by eapply fresh_calm; [|exact Hc1].
  - by apply execute_once_ok.
Qed.

(** *** The watch over an execution *)

Definition is_watch (e : agent_entry) : bool :=
  match e with Acted (WatchCall _) _ => true | _ => false end.
Definition unwatched (t : history) : history := List.filter (fun e => negb (is_watch e)) t.

(** What holds of the trace without the watch *)
Abbreviation watched_rule := (trace_rule Acted (fun t => sound_call 0 (unwatched t))).

Lemma own_not_watch e : own_entry e -> is_watch e = false.
Proof. by destruct e as [[]|]. Qed.

Lemma sound_unwatched a r t : sound_call 0 (Acted a r :: unwatched t) ->
  unwatched (Acted a r :: t) = Acted a r :: unwatched t.
Proof.
  intros H. pose proof (sc_own _ _ H) as [Ho%own_not_watch _]%Forall_cons.
  unfold unwatched. cbn [List.filter]. by rewrite Ho.
Qed.

Lemma unwatched_ok {A} (post : res A -> history -> Prop) q : forall t,
  prog_ok call_rule post q (unwatched t) ->
  prog_ok watched_rule (fun r t' => post r (unwatched t')) q t.
Proof.
  induction q as [r|a k IH]; intros t H; [done|]. intros r. destruct (H r) as [H1 H2].
  pose proof (sound_unwatched _ _ _ H1) as E. split; [by rewrite E|]. apply IH. by rewrite E.
Qed.

Definition tracks (g : execution_progress) (t : history) : Prop :=
  pg_started g = told ExecutionStarted t /\ pg_dispatched g = told HandlerDispatched t.

Lemma tracks_after a r g t : tracks g t -> tracks (after_signal a g) (Acted a r :: t).
Proof. intros [H1 H2]. destruct a; try done. by destruct s. Qed.

Definition watch_done (r : res (watched * execution_progress)) (t : history) : Prop :=
  sound_call 0 t /\
  match r with
  | Ok (w, g) => tracks g t /\ match w with Finished x => attempt_done x t | CutShort _ => True end
  | Err _ => True
  end.

Lemma watch_ok timed q : forall g t,
  prog_ok call_rule attempt_done q (unwatched t) -> sound_call 0 (unwatched t) -> tracks g (unwatched t) ->
  prog_ok watched_rule (fun r t' => watch_done r (unwatched t')) (watch call_id timed g q) t.
Proof.
  induction q as [x|a k IH]; intros g t Hq Ht Hg; [done|]. cbn [watch]. intros r.
  change (unwatched (Acted (WatchCall call_id) r :: t)) with (unwatched t). split; [done|].
  destruct r as [c|e]; cbn [sequel do_action then_do]; [|done].
  destruct (effective_cut timed g c) as [c'|]; [done|]. intros r. destruct (Hq r) as [H1 H2].
  set (t1 := Acted (WatchCall call_id) (Ok c) :: t).
  pose proof (sound_unwatched a r t1 H1) as E. change (unwatched t1) with (unwatched t) in E.
  split; [by rewrite E|]. apply IH; rewrite E; [done..|by apply tracks_after].
Qed.

Lemma after_calm {A} F (q : Prog A) c t :
  calm_to F q -> sound_call c t ->
  prog_ok call_rule (fun r t' => calm_after c t t' /\ forall v, r = Ok v -> F v) q t.
Proof.
  intros Hq Ht. eapply prog_ok_mono; [|eapply (quiet_traces _ _ c t t false (Hq false));
    [by apply calm_refl|done]]. intros r t' (H & g' & Hr & _). split; [done|]. by intros v ->.
Qed.

(** *** What a call is reported as *)
(** The redaction of texts leaves the code of an unknown outcome as it is. *)
Definition keeps_code : Prop := redact "outcome_unknown" = "outcome_unknown".

Definition report_ok (v : AgentToolResult) (is_error : bool) (t : history) : Prop :=
  keeps_code -> never_replayed tool = true -> dispatched t = true -> is_error = true ->
  result_is_outcome_unknown v = true \/ excused t = true.

Definition reported (r : res (AgentToolResult * bool)) (t : history) : Prop :=
  sound_call 0 t /\ match r with Ok (v, is_error) => report_ok v is_error t | Err _ => True end.

(** The details that say that the outcome is unknown are not redacted. *)
Lemma unknown_details text terminate details :
  keeps_code ->
  jget details "code" = VStr "outcome_unknown" -> jget details "outcomeUnknown" = VBool true ->
  result_is_outcome_unknown (AgentTypes.error_tool_result redact text terminate details) = true.
Proof.
  intros Hk H1 H2. unfold result_is_outcome_unknown, AgentTypes.error_tool_result, error_result.
  cbn [tr_details]. rewrite redact_dict, !redacted_get by (by vm_compute). rewrite H1, H2. cbn.
  by rewrite Hk.
Qed.

Lemma outcome_unknown_unknown reason text timeout :
  keeps_code ->
  result_is_outcome_unknown (outcome_unknown_result redact tool call_id reason text timeout) = true.
Proof. intros Hk. by apply unknown_details. Qed.

Lemma side_effect_of_never : never_replayed tool = true -> may_have_side_effect tool = true.
Proof. unfold never_replayed, may_have_side_effect. by intros ->. Qed.

Lemma classify_other_ok g e t :
  sound_call 0 t -> tracks g t ->
  reported (Ok (classify_other redact public_message tool call_id g e, true)) t.
Proof.
  intros Ht [_ Hd]. split; [done|]. intros Hk Hn Hdis _. left. unfold classify_other.
  destruct (claims_unknown e); [by apply outcome_unknown_unknown|].
  rewrite (side_effect_of_never Hn), Hd, (proj2 (sc_told _ _ Ht Hdis)). by apply outcome_unknown_unknown.
Qed.

Lemma classify_cancelled_ok g t (v : string -> AgentToolResult * bool) :
  sound_call 0 t -> tracks g t ->
  prog_ok call_rule reported
    (if never_replayed tool && pg_started g then return_value (unknown_after_cancel redact tool call_id, true)
     else then_do (do_action (CallTokenReason call_id)) (fun s => return_value (v s))) t.
Proof.
  intros Ht [Hs _]. destruct (never_replayed tool && pg_started g) eqn:En.
  - split; [done|]. intros Hk _ _ _. left. by apply outcome_unknown_unknown.
  - eapply prog_ok_mono; [|apply (after_calm (fun _ => True) _ 0); [|done]].
    + intros r t' [Hc _]. split; [apply Hc|]. destruct r as [[v' ie]|]; [|done].
      intros Hk Hn Hd. exfalso. rewrite (ca_dispatched _ _ _ Hc) in Hd.
      destruct (sc_told _ _ Ht Hd) as [Hst _]. rewrite Hn, Hs, Hst in En. done.
    + apply calm_bind; [by apply calm_act|]. intros r. apply calm_ends.
Qed.

(** An error that denies a commit is believed; every other one leaves the outcome unknown. *)
Lemma classify_error_ok g e t :
  attempt_done (Err e : res AgentToolResult) t -> tracks g t ->
  prog_ok call_rule reported (classify_error redact public_message tool call_id g e) t.
Proof.
  intros [Ht He] Hg.
  assert (Hdenied : forall v, denies e = true -> reported (Ok (v, true)) t).
  { intros v Hd. split; [done|]. intros _ Hn Hdis _. right. by apply (He Hd). }
  pose proof (classify_other_ok g e t Ht Hg) as Hother.
  destruct e; try exact Hother; try (by apply Hdenied); try (by apply classify_cancelled_ok); try (by split).
  - split; [done|]. intros Hk _ _ _. left. by apply unknown_details.
  - destruct outcome_unknown; [|by apply Hdenied]. split; [done|]. intros Hk _ _ _. left. by apply unknown_details.
Qed.

Lemma classify_cut_ok timeout g c t :
  sound_call 0 t -> tracks g t -> reported (Ok (classify_cut redact format_g tool call_id timeout g c)) t.
Proof.
  intros Ht [Hs _].
  destruct c; (split; [done|]); cbn [classify_cut]; intros Hk Hn Hd _;
    destruct (sc_told _ _ Ht Hd) as [Hst _]; rewrite Hn, Hs, Hst; left; by apply outcome_unknown_unknown.
Qed.

Lemma classify_ok timeout w t :
  watch_done (Ok w) t ->
  prog_ok call_rule reported (classify redact public_message format_g tool call_id timeout w) t.
Proof.
  destruct w as [[[v|e]|c] g]; intros (Ht & Hg & Hw).
  - by split.
  - by apply classify_error_ok.
  - by apply classify_cut_ok.
Qed.

Lemma reported_calm r t t' : reported r t -> calm_after 0 t t' -> reported r t'.
Proof.
  intros [Ht H] [H1 H2 H3 H4]. split; [done|]. destruct r as [[v ie]|]; [|done].
  intros Hk Hn Hd He. rewrite H2 in Hd. destruct (H Hk Hn Hd He); auto.
Qed.

(** Programs under the watch, and calm ones after it *)
Lemma watched_then {A B} (q : Prog A) (f : A -> Prog B) (mid : res A -> history -> Prop)
    (post : res B -> history -> Prop) t :
  prog_ok watched_rule (fun r t' => mid r (unwatched t')) q t ->
  (forall v t', mid (Ok v) t' -> prog_ok call_rule post (f v) t') ->
  (forall e t', mid (Err e) t' -> post (Err e) t') ->
  prog_ok watched_rule (fun r t' => post r (unwatched t')) (then_do q f) t.
Proof.
  intros Hq Hok Herr. apply prog_ok_then. eapply prog_ok_mono; [|exact Hq].
  intros [v|e] t' H; [|by apply Herr]. by apply unwatched_ok, Hok.
Qed.

Lemma settled_ok r t :
  reported r t ->
  prog_ok call_rule reported
    (sequel (do_action (SettleUpdates call_id)) (fun settled =>
       match r, settled with Ok _, Err e => throw_error e | _, _ => Done r end)) t.
Proof.
  intros Hr. apply prog_ok_sequel. eapply prog_ok_mono; [|apply (after_calm (fun _ => True) _ 0); [by apply calm_act|apply Hr]].
  intros settled t' [Hc _]. pose proof (reported_calm _ _ _ Hr Hc) as H.
  destruct r as [v|e], settled; try exact H. by destruct H.
Qed.

Lemma execute_call_ok t :
  text_of (pt_tool_call p) "id" = Ok call_id -> unwatched t = [] ->
  prog_ok watched_rule (fun r t' => reported r (unwatched t'))
    (execute_call redact public_message format_g R admission p) t.
Proof.
  intros Hid Ht. unfold execute_call. rewrite Hid. apply prog_ok_done, prog_ok_sequel.
  eapply prog_ok_mono.
  - intros r t' Hr. apply (unwatched_ok reported), settled_ok. exact Hr.
  - apply (watched_then _ _ watch_done).
    + apply watch_ok; rewrite Ht; [apply execute_with_retry_ok|by constructor; [|cbn; lia|]|done].
    + intros w t' Hw. by apply classify_ok.
    + intros e t' [Hw _]. done.
Qed.

Lemma after_call_calm r is_error : calm (after_call redact public_message R p call_id r is_error).
Proof.
  unfold after_call. destruct (negb _); [apply calm_ends|]. apply calm_sequel.
  - apply calm_bind; [by apply calm_act|]. intros [o|]; apply calm_ends.
  - intros [v|e]; [apply calm_ends|]. destruct (negb (is_exception e)); [apply calm_ends|].
    destruct (_ && _); apply calm_ends.
Qed.

(** Neither a hook nor its failure changes an unknown outcome or a commit. *)
Lemma protected_ok executed reviewed t :
  report_ok (fst executed) (snd executed) t ->
  report_ok (fst (protected p call_id executed reviewed)) (snd (protected p call_id executed reviewed)) t.
Proof.
  destruct executed as [v ie], reviewed as [v' ie']. unfold protected, report_ok. cbn [fst snd].
  intros H Hk Hn Hd. destruct (result_is_outcome_unknown v) eqn:Eu; [by left|].
  rewrite (side_effect_of_never Hn), andb_true_r. destruct ie; cbn [negb andb].
  - intros _. right. by destruct (H Hk Hn Hd eq_refl).
  - destruct ie'; by cbn.
Qed.

(** What a dispatched call leaves *)
Definition dispatch_done (r : res ToolDispatchOutcome) (t : history) : Prop :=
  sound_call 0 t /\
  forall o, r = Ok o -> to_tool_call o = pt_tool_call p /\ report_ok (to_result o) (to_is_error o) t.

Lemma dispatch_prepared_ok t :
  text_of (pt_tool_call p) "id" = Ok call_id -> unwatched t = [] ->
  prog_ok watched_rule (fun r t' => dispatch_done r (unwatched t'))
    (dispatch_prepared redact public_message format_g R admission p) t.
Proof.
  intros Hid Ht. unfold dispatch_prepared.
  assert (Hnil : sound_call 0 (unwatched t)) by (rewrite Ht; by constructor; [|cbn; lia|]).
  apply prog_ok_done. destruct (validate_prepared_registration R p) as [[]|e]; [|by split].
  rewrite Hid. apply prog_ok_done, (watched_then _ _ reported); [by apply execute_call_ok| |].
  - intros [v ie] t1 H1. apply prog_ok_then. eapply prog_ok_mono; [|apply (after_calm (fun _ => True) _ 0 t1);
      [apply after_call_calm|apply H1]].
    intros [reviewed|e] t2 [Hc _]; [|by split; [apply Hc|]]. split; [apply Hc|].
    intros o [= <-]. split; [done|].
    destruct (reported_calm _ _ _ H1 Hc) as [_ H2]. by apply (protected_ok (v, ie)).
  - intros e t1 [H1 _]. by split.
Qed.
End Call.
