(* ===== verification/ToolBatches.v ===== *)
(** * Batches of tool calls

    The dispatch of a batch as a whole: every call is answered by one message that carries
    its identifier, in the order of the calls; a handler is called only for a call that
    was made canonical and admitted before anything ran; and together the calls cost no
    more than the batch and the retries that the budget admitted. *)

From S2P Require Import Prelude PyDict Text PyVal PyNum Retry RetryLoop Approvals Service Tasks.
From S2P Require Import Messages AgentTypes AgentWorld AgentTraces ToolDispatch AgentLoop.
From S2P Require Import ToolTraces.
From Stdlib Require Import String.

#[local] Open Scope string_scope.
#[local] Open Scope bool_scope.
#[local] Open Scope Z_scope.

(** * How long the dispatch of a tool takes

    Every part of a dispatch takes finitely many actions, whatever its surroundings
    answer: an attempt, the attempts that a retry policy allows, the watch over them, and
    the end of a call.  [run_one_within] is the bound that a group of tasks is run with. *)

Lemma emit_within event : within (emit event) 1.
Proof. done. Qed.

Lemma emit_tool_start_within call : within (emit_tool_start call) 1.
Proof. unfold emit_tool_start. act_steps. apply emit_within. Qed.

Lemma tool_result_message_within o : within (tool_result_message o) 1.
Proof. unfold tool_result_message. act_steps. Qed.

Lemma emit_tool_end_within o : within (emit_tool_end o) 2.
Proof.
  unfold emit_tool_end. apply (within_then 1 1); [apply tool_result_message_within|intros m].
  act_steps. by apply (within_then 1 0).
Qed.

Section Bounds.
Context (redact : string -> string) (public_message : exn -> option string).
Context (format_g : pynum -> string) (R : ToolDispatchRuntime).
Context (admission : option (AgentTool -> Z -> Prog unit)).
(** An admission takes at most two actions. *)
Context (Hadmission : forall f tool attempt, admission = Some f -> within (f tool attempt) 2).

Lemma lease_interrupted_within call_id lease : within (lease_interrupted call_id lease) 1.
Proof. unfold lease_interrupted. act_steps. Qed.

Lemma lease_lost_within p call_id returned : within (lease_lost p call_id returned) 1.
Proof. unfold lease_lost. by apply (within_then 1 0). Qed.

Lemma invoke_tool_within p call_id lease attempt : within (invoke_tool p call_id lease attempt) 4.
Proof.
  unfold invoke_tool. apply (within_then 1 3); [apply emit_within|intros _].
  apply (within_then 1 2); [apply lease_interrupted_within|intros lost].
  destruct lost; [done|]. apply within_done. intros context _.
  apply (within_then 2 0); [unfold handler_call; act_steps|done].
Qed.

Lemma leased_call_within p call_id lease attempt : within (leased_call p call_id lease attempt) 6.
Proof.
  unfold leased_call. apply (within_sequel 4 2); [apply invoke_tool_within|].
  intros [[v|]|e]; [|by apply (within_mono _ 1); [lia|apply lease_lost_within]|];
    (apply (within_then 1 1); [apply lease_interrupted_within|intros lost]);
    (destruct lost; [apply lease_lost_within|done]).
Qed.

Lemma release_lease_within p call_id r : within (release_lease p call_id r) 2.
Proof.
  assert (H : forall unknown, within (lost_at_release p call_id unknown) 1)
    by (intros unknown; by apply (within_sequel 1 0)).
  unfold release_lease. apply within_act_sequel. intros [u|e]; [done|]. destruct r as [v|x].
  - by destruct (lease_was_lost e).
  - by destruct (_ || _).
Qed.

Lemma execute_once_within p call_id attempt : within (execute_once admission p call_id attempt) 12.
Proof.
  unfold execute_once. apply within_act_sequel. intros [lease|e]; [|done].
  apply (within_sequel 2 9).
  - destruct admission as [f|] eqn:E; [by apply Hadmission|done].
  - intros [[]|e].
    + apply within_act_then. intros [].
      eapply within_mono; [|apply (within_sequel 6 2); [apply leased_call_within|intros r;
        apply release_lease_within]]. lia.
    + unfold not_admitted. apply within_act_sequel. intros [u|x]; [done|]. by destruct (_ && _).
Qed.

Lemma show_retry_within event : within (show_retry R event) 2.
Proof. unfold show_retry. apply (within_then 1 1); [act_steps|intros; apply emit_within]. Qed.

Lemma finished_retry_within p call_id retry_id k outcome :
  within (finished_retry R p call_id retry_id k outcome) 2.
Proof. unfold finished_retry. destruct (k =? 0); [done|apply show_retry_within]. Qed.

Lemma refused_retry_within p call_id retry_id k outcome e :
  within (then_do (finished_retry R p call_id retry_id k outcome) (fun _ => throw_error e : Prog AgentToolResult)) 2.
Proof. apply (within_then 2 0); [apply finished_retry_within|done]. Qed.

Lemma told_attempt_within p call_id retry_id k :
  within (told_attempt R admission p call_id retry_id k) 14.
Proof.
  unfold told_attempt. apply (within_then 12 2); [apply execute_once_within|intros v].
  apply (within_then 2 0); [apply finished_retry_within|done].
Qed.

Lemma retry_tool_within p call_id policy retry_id started_at left : forall k,
  within (retry_tool R admission p call_id policy retry_id started_at left k) (22 * S left).
Proof.
  induction left as [|left IH]; intros k; cbn [retry_tool].
  - apply (within_mono _ (S (14 + 2))); [lia|]. apply within_act_then. intros [|]; [done|].
    apply within_sequel; [apply told_attempt_within|intros [v|e]; [done|]].
    destruct e; try exact I. apply refused_retry_within.
  - apply (within_mono _ (S (14 + (7 + 22 * S left)))); [lia|]. apply within_act_then. intros [|]; [done|].
    apply within_sequel; [apply told_attempt_within|intros [v|e]; [done|]]. destruct e; try exact I.
    destruct (negb _); [apply (within_mono _ 2); [lia|apply refused_retry_within]|].
    do 2 (apply within_act_then; intros ?). apply within_done. intros [ms|] _; [|done].
    apply (within_then 2 (3 + 22 * S left)); [apply show_retry_within|intros _].
    apply within_act_then. intros [].
    apply (within_then 2 (22 * S left)); [apply show_retry_within|intros _]. apply IH.
Qed.

Lemma execute_with_retry_within p call_id :
  within (execute_with_retry R admission p call_id)
    (2 + 22 * S match at_retry_policy (pt_tool p) with Some q => retries_allowed q | None => O end).
Proof.
  unfold execute_with_retry. destruct (at_retry_policy (pt_tool p)) as [policy|].
  - do 2 (apply within_act_then; intros ?). apply retry_tool_within.
  - apply (within_mono _ 12); [lia|apply execute_once_within].
Qed.

(** A watch looks once before each action. *)
Lemma watch_within call_id timed q n : within q n -> forall g, within (watch call_id timed g q) (2 * n).
Proof.
  revert n. induction q as [r|a k IH]; intros n H g; [done|]. destruct n as [|n]; [done|].
  replace (2 * S n)%nat with (S (S (2 * n))) by lia. apply within_act_then. intros c.
  destruct (effective_cut timed g c); [done|]. intros r. by apply IH, H.
Qed.

Lemma classify_within tool call_id timeout w :
  within (classify redact public_message format_g tool call_id timeout w) 1.
Proof. unfold classify, classify_error. act_steps. Qed.

Lemma execute_call_within p n :
  (forall call_id, within (execute_with_retry R admission p call_id) n) ->
  within (execute_call redact public_message format_g R admission p) (2 * n + 2).
Proof.
  intros H. unfold execute_call. apply within_done. intros call_id _.
  replace (2 * n + 2)%nat with ((2 * n + 1) + 1)%nat by lia. apply within_sequel.
  - apply within_then; [by apply watch_within|intros w; apply classify_within].
  - intros r. apply within_act_sequel. intros settled. act_steps.
Qed.

Lemma after_call_within p call_id r is_error :
  within (after_call redact public_message R p call_id r is_error) 1.
Proof.
  unfold after_call. destruct (negb _); [done|]. apply (within_sequel 1 0); [|intros; act_steps].
  apply within_act_then. intros o. act_steps.
Qed.

Lemma dispatch_prepared_within p n :
  (forall call_id, within (execute_with_retry R admission p call_id) n) ->
  within (dispatch_prepared redact public_message format_g R admission p) (2 * n + 3).
Proof.
  intros H. unfold dispatch_prepared. do 2 (apply within_done; intros ? _).
  replace (2 * n + 3)%nat with ((2 * n + 2) + (1 + 0))%nat by lia.
  apply within_then; [by apply execute_call_within|intros executed].
  apply within_then; [apply after_call_within|done].
Qed.

Lemma run_one_within ip :
  within (run_one redact public_message format_g R admission ip) (task_bound (snd ip)).
Proof.
  unfold run_one, task_bound, attempt_actions.
  set (retries := match at_retry_policy _ with Some _ => _ | None => _ end).
  apply (within_mono _ ((2 * (2 + 22 * S retries) + 3) + (2 + 0))); [lia|].
  apply within_then; [apply dispatch_prepared_within; intros; apply execute_with_retry_within|intros o].
  by apply within_then; [apply emit_tool_end_within|].
Qed.
End Bounds.

(** ** Messages and identifiers *)

(** The result message of the call with this identifier *)
Definition message_for (id : string) (m : pydict) : Prop :=
  jget m "role" = VStr "toolResult" /\ jget m "toolCallId" = VStr id.

Lemma text_of_str call key s : jget call key = VStr s -> text_of call key = Ok s.
Proof. unfold text_of, jget, jget_or. by destruct (dget key call) as [v|]; [intros ->|]. Qed.

Lemma emit_calm event : calm (emit event).
Proof. by apply calm_act. Qed.

Lemma emit_tool_start_calm call : calm (emit_tool_start call).
Proof.
  unfold emit_tool_start. do 2 (apply calm_bind; [apply calm_ends|intros ?]). apply emit_calm.
Qed.

Lemma emit_result_message_calm m : calm (emit_result_message m).
Proof. unfold emit_result_message. apply calm_bind; [apply emit_calm|intros _; apply emit_calm]. Qed.

Lemma tool_result_message_calm {allowed : agent_action -> Prop} o : allowed NowMs ->
  calm_in allowed (fun m => exists id, text_of (to_tool_call o) "id" = Ok id /\ message_for id m) (tool_result_message o).
Proof.
  intros Hnow. unfold tool_result_message.
  apply (calm_then (fun id => text_of (to_tool_call o) "id" = Ok id)); [by apply calm_done|intros id Hid].
  apply calm_bind; [apply calm_ends|intros name]. apply calm_bind; [by apply calm_act|intros now].
  apply calm_bind; [apply calm_ends|intros names]. apply calm_value. by exists id.
Qed.

(** What is built for an outcome once *)
Definition ends_call (o : ToolDispatchOutcome) (c : completed) : Prop :=
  fst c = o /\ exists id, text_of (to_tool_call o) "id" = Ok id /\ message_for id (snd c).

(** The end of a call tells of this call alone. *)
Lemma emit_tool_end_in (allowed : agent_action -> Prop) o :
  allowed NowMs ->
  (forall id event, text_of (to_tool_call o) "id" = Ok id -> jget event "toolCallId" = VStr id -> allowed (Emit event)) ->
  calm_in allowed (ends_call o) (emit_tool_end o).
Proof.
  intros Hnow Hemit. unfold emit_tool_end.
  eapply calm_then; [by apply tool_result_message_calm|intros m Hm].
  apply (calm_then (fun id => text_of (to_tool_call o) "id" = Ok id)); [by apply calm_done|intros id Hid].
  do 2 (apply calm_bind; [apply calm_ends|intros ?]).
  apply calm_bind; [apply calm_act; by eapply Hemit|intros _]. by apply calm_value.
Qed.

Lemma emit_tool_end_calm o : calm_to (ends_call o) (emit_tool_end o).
Proof. by apply emit_tool_end_in. Qed.

(** The identifier of a prepared call *)
Definition id_of (p : PreparedToolCall) : string :=
  match jget (pt_tool_call p) "id" with VStr s => s | _ => "" end.
Definition has_id (p : PreparedToolCall) : Prop := jget (pt_tool_call p) "id" = VStr (id_of p).

Lemma has_id_text p : has_id p -> text_of (pt_tool_call p) "id" = Ok (id_of p).
Proof. apply text_of_str. Qed.

(** ** Calls that run *)
Section Batch.
Context (redact : string -> string) (public_message : exn -> option string).
Context (format_g : pynum -> string) (R : ToolDispatchRuntime) (max_calls : option Z) (W : AgentWorld).
Abbreviation admission := (option_map (admit_retry_attempt redact) max_calls).
Abbreviation run_one := (run_one redact public_message format_g R admission).

(** What became of a call that ran with this trace *)
Record call_result (p : PreparedToolCall) (c : completed) (t : history) : Prop := {
  rs_call : to_tool_call (fst c) = pt_tool_call p;
  rs_message : message_for (id_of p) (snd c);
  rs_report : report_ok redact p (to_result (fst c)) (to_is_error (fst c)) (unwatched t)
}.

Abbreviation sound_run p t := (sound_call max_calls p (id_of p) 0 (unwatched t)).

Lemma run_one_ok ip : has_id (snd ip) ->
  prog_ok (trace_rule Acted (fun t => sound_run (snd ip) t))
    (fun r t => sound_run (snd ip) t /\
       forall v, r = Ok v -> fst v = fst ip /\ call_result (snd ip) (snd v) t)
    (run_one ip) [].
Proof.
  intros Hid%has_id_text. unfold ToolDispatch.run_one. set (p := snd ip) in *.
  assert (H : prog_ok (trace_rule Acted (fun t => sound_run p t))
    (fun r t => dispatch_done redact max_calls p (id_of p) r (unwatched t))
    (dispatch_prepared redact public_message format_g R admission p) []) by by apply dispatch_prepared_ok.
  apply prog_ok_then. eapply prog_ok_mono; [|exact H].
  intros [o|e] t [Ht Ho]; [|by split]. destruct (Ho o eq_refl) as [Hcall Hreport].
  apply prog_ok_then. eapply prog_ok_mono; [|apply (unwatched_ok max_calls p (id_of p)
    (fun r t' => calm_after max_calls p (id_of p) 0 (unwatched t) t' /\ forall c, r = Ok c -> ends_call o c)),
    (after_calm max_calls p (id_of p) (ends_call o) _ 0); [|done]].
  2: { apply emit_tool_end_in; [done|]. intros i event Hi He. split; [done|]. cbn. rewrite He.
       rewrite Hcall, Hid in Hi. injection Hi as <-. apply String.eqb_refl. }
  intros [c|e] t' [Hc Hend]; [|by split; [apply Hc|]]. split; [apply Hc|]. intros v [= <-]. split; [done|].
  destruct (Hend c eq_refl) as [Hfst (id & Hid' & Hm)]. rewrite Hcall, Hid in Hid'. injection Hid' as <-.
  constructor; cbn; [by rewrite Hfst|done|]. rewrite Hfst.
  pose proof (reported_calm redact max_calls p (id_of p) (Ok (to_result o, to_is_error o)) _ _ (conj Ht Hreport) Hc)
    as [_ H']. exact H'.
Qed.

(** The calls that ran, each with its trace, and nothing else that matters *)
Record calls_ran (runs : list (PreparedToolCall * history)) (new : history) : Prop := {
  cr_traces : exists rest, quiet_trace rest /\
                uninterrupted new ≡ₚ (rest ++ List.concat (map snd runs))%list;
  cr_sound : Forall (fun pt => sound_run (fst pt) (snd pt)) runs
}.

Lemma uninterrupted_app h h' : uninterrupted (h ++ h') = (uninterrupted h ++ uninterrupted h')%list.
Proof. apply List.filter_app. Qed.

Lemma calls_ran_app runs new runs' new' :
  calls_ran runs new -> calls_ran runs' new' -> calls_ran (runs ++ runs') (new' ++ new).
Proof.
  intros [(rest & Hq & Hp) Hs] [(rest' & Hq' & Hp') Hs']. constructor; [|by apply Forall_app].
  exists (rest ++ rest')%list. split; [by apply Forall_app|].
  rewrite uninterrupted_app, Hp, Hp', map_app, List.concat_app. solve_Permutation.
Qed.

Lemma calls_ran_quiet t : quiet_trace t -> calls_ran [] t.
Proof.
  intros H. constructor; [|done]. exists (uninterrupted t). rewrite app_nil_r. split; [|done].
  unfold uninterrupted. rewrite Forall_forall in *. intros e He. apply H.
  apply list_elem_of_In, List.filter_In in He as [He _]. by apply list_elem_of_In.
Qed.

(** The places of some calls are filled, and the others left as they were. *)
Record filled_in (ips : list (nat * PreparedToolCall)) (runs : list (PreparedToolCall * history))
    (slots slots' : list slot) : Prop := {
  fi_length : List.length slots' = List.length slots;
  fi_others : forall i, i ∉ map fst ips -> slots' !! i = slots !! i;
  fi_filled : forall ip, ip ∈ ips -> (fst ip < List.length slots)%nat ->
    exists c t, slots' !! fst ip = @Some slot (inl c) /\ (snd ip, t) ∈ runs /\ call_result (snd ip) c t
}.

Lemma filled_nil slots : filled_in [] [] slots slots.
Proof. constructor; [done..|]. intros ip H. by apply elem_of_nil in H. Qed.

Lemma filled_app ips ips' runs runs' s s1 s2 :
  NoDup (map fst (ips ++ ips')) -> filled_in ips runs s s1 -> filled_in ips' runs' s1 s2 ->
  filled_in (ips ++ ips') (runs ++ runs') s s2.
Proof.
  rewrite map_app. intros (_ & Hd & _)%NoDup_app [L1 O1 F1] [L2 O2 F2]. constructor.
  - congruence.
  - intros i Hi. rewrite map_app, not_elem_of_app in Hi. rewrite O2, O1 by tauto. done.
  - intros ip [Hip|Hip]%elem_of_app Hlt.
    + destruct (F1 ip Hip Hlt) as (c & t & H1 & H2 & H3). exists c, t.
      rewrite O2; [split_and!; [done|apply elem_of_app; by left|done]|].
      apply Hd. apply list_elem_of_In, in_map, list_elem_of_In, Hip.
    + rewrite <- L1 in Hlt. destruct (F2 ip Hip Hlt) as (c & t & H1 & H2 & H3). exists c, t.
      split_and!; [done|apply elem_of_app; by right|done].
Qed.

(** Filling one place after the other *)
Lemma fill_all (results : list (nat * completed)) : forall slots,
  NoDup (map fst results) ->
  List.length (fold_left fill results slots) = List.length slots /\
  (forall i, i ∉ map fst results -> fold_left fill results slots !! i = slots !! i) /\
  (forall i c, (i, c) ∈ results -> (i < List.length slots)%nat ->
     fold_left fill results slots !! i = @Some slot (inl c)).
Proof.
  induction results as [|[j d] results IH]; intros slots Hd.
  { split_and!; [done..|]. intros i c H. by apply elem_of_nil in H. }
  cbn [map fst fold_left] in *. apply NoDup_cons in Hd as [Hj Hd].
  assert (El : List.length (fill slots (j, d)) = List.length slots) by apply length_insert.
  destruct (IH (fill slots (j, d)) Hd) as (L & O & F). rewrite El in L, F. split_and!; [done| |].
  - intros i [Hne Hi]%not_elem_of_cons. rewrite O by done. unfold fill. by rewrite list_lookup_insert_ne.
  - intros i c [[= -> ->]|Hi]%elem_of_cons Hlt.
    + rewrite O by done. unfold fill. by rewrite list_lookup_insert_eq.
    + by apply F.
Qed.

Lemma filled_perm ips ips' runs slots slots' :
  ips ≡ₚ ips' -> filled_in ips runs slots slots' -> filled_in ips' runs slots slots'.
Proof.
  intros Hp [L O F]. constructor; [done| |].
  - intros i Hi. apply O. by rewrite Hp.
  - intros ip Hip. apply F. by rewrite Hp.
Qed.

(** The results of a group, each in its place *)
Lemma group_filled ips ts vs slots :
  List.length ts = List.length ips -> List.length vs = List.length ips ->
  (forall i t ip v, ts !! i = Some t -> ips !! i = Some ip -> vs !! i = Some v ->
     fst v = fst ip /\ call_result (snd ip) (snd v) t) ->
  NoDup (map fst ips) ->
  filled_in ips (zip (map snd ips) ts) slots (fold_left fill vs slots).
Proof.
  intros Hts Hvs Hres Hd.
  assert (Hfst : map fst vs = map fst ips).
  { apply list_eq_same_length with (List.length ips); [by rewrite length_map..|].
    intros i a b Hi Ha Hb. rewrite list_lookup_fmap in Ha. rewrite list_lookup_fmap in Hb.
    destruct (vs !! i) as [v|] eqn:Ev, (ips !! i) as [ip|] eqn:Ei; try done.
    assert (exists t, ts !! i = Some t) as [t Ht] by (apply lookup_lt_is_Some; lia).
    injection Ha as <-. injection Hb as <-. by apply (Hres i t). }
  rewrite <- Hfst in Hd. destruct (fill_all vs slots Hd) as (L & O & F). constructor; [done| |].
  - intros i Hi. apply O. by rewrite Hfst.
  - intros ip (i & Hi)%list_elem_of_lookup Hlt.
    assert (exists t, ts !! i = Some t) as [t Ht].
    { apply lookup_lt_is_Some. rewrite Hts. by eapply lookup_lt_Some. }
    assert (exists v, vs !! i = Some v) as [v Hv].
    { apply lookup_lt_is_Some. rewrite Hvs. by eapply lookup_lt_Some. }
    destruct (Hres i t ip v Ht Hi Hv) as [Hf Hr]. exists (snd v), t. split_and!; [|..|done].
    + apply F; [|done]. rewrite <- Hf, <- surjective_pairing. by eapply list_elem_of_lookup_2.
    + apply list_elem_of_lookup. exists i. apply lookup_zip_Some. split; [|done].
      rewrite list_lookup_fmap, Hi. done.
Qed.

(** *** A group of calls *)

(** A part of a batch, whatever its result: none but its calls ran, and if it ends well
    their places are filled. *)
Definition part (ips : list (nat * PreparedToolCall)) (slots : list slot) (r : res (list slot))
    (new : history) : Prop :=
  exists runs, calls_ran runs new /\ map fst runs ⊆+ map snd ips /\
    forall slots', r = Ok slots' -> filled_in ips runs slots slots'.

Lemma part_nothing slots new : quiet_trace new -> part [] slots (Ok slots) new.
Proof.
  intros H. exists []. split_and!; [by apply calls_ran_quiet|done|]. intros ? [= <-]. apply filled_nil.
Qed.

Lemma part_then ips ips' s s1 r new new' :
  NoDup (map fst (ips ++ ips')) -> part ips s (Ok s1) new -> part ips' s1 r new' ->
  part (ips ++ ips') s r (new' ++ new).
Proof.
  intros Hd (runs & H1 & H2 & H3) (runs' & H4 & H5 & H6). exists (runs ++ runs')%list.
  split_and!; [by apply calls_ran_app|rewrite !map_app; by apply submseteq_app|].
  intros s2 Hs. eapply filled_app; [done|by apply H3|by apply H6].
Qed.

Lemma part_failed ips ips' s e new : part ips s (Err e) new -> part (ips ++ ips') s (Err e) new.
Proof.
  intros (runs & H1 & H2 & _). exists runs. split_and!; [done| |done].
  rewrite map_app. by apply submseteq_inserts_r.
Qed.

Lemma part_perm ips ips' s r new : ips ≡ₚ ips' -> part ips s r new -> part ips' s r new.
Proof.
  intros Hp (runs & H1 & H2 & H3). exists runs. split_and!; [done| |].
  - by rewrite <- Hp.
  - intros s' Hs. eapply filled_perm; [exact Hp|by apply H3].
Qed.

Definition part_done (ips : list (nat * PreparedToolCall)) (x : AgentRun) (slots : list slot)
    (r : res (list slot)) (x' : AgentRun) : Prop :=
  exists new, extends new x x' /\ part ips slots r new.

Lemma admission_within f tool attempt : admission = Some f -> within (f tool attempt) 2.
Proof.
  destruct max_calls as [limit|]; [|done]. intros [= <-]. unfold admit_retry_attempt.
  destruct (attempt <=? 1); [done|]. apply within_act_then. intros [[admitted used] first].
  destruct admitted; [done|]. destruct first; by apply (within_then 1 0).
Qed.

Lemma run_group_ok group slots x :
  Forall (fun ip => has_id (snd ip)) group -> NoDup (map fst group) ->
  ends (run_group redact public_message format_g R admission W group slots) x (part_done group x slots).
Proof.
  intros Hids Hplaces. destruct group as [|ip0 group0] eqn:Eg.
  { apply ends_lift. exists []. split; [apply extends_refl|by apply part_nothing]. }
  unfold run_group. rewrite <- Eg in *. clear Eg ip0 group0.
  set (ordered := by_priority group).
  assert (Hperm : ordered ≡ₚ group) by apply sort_by_perm.
  rewrite <- Hperm in Hids. apply ends_bind.
  eapply ends_mono; [|apply (gather_ok W _ _ x (map (fun ip => task_bound (snd ip)) ordered)
    (fun i t => forall ip, ordered !! i = Some ip -> sound_run (snd ip) t)
    (fun i r t => forall ip, ordered !! i = Some ip -> forall v, r = Ok v ->
       fst v = fst ip /\ call_result (snd ip) (snd v) t))].
  - intros r x' (ts & (new & Hnew & Hperm') & Hlen & Hsound & Hres). rewrite length_map in Hlen, Hres.
    set (runs := zip (map snd ordered) ts).
    assert (Hfst : map fst runs = map snd ordered) by (apply fst_zip; rewrite length_map; lia).
    assert (Hsnd : map snd runs = ts) by (apply snd_zip; rewrite length_map; lia).
    assert (Hran : calls_ran runs new).
    { constructor; [by exists []; rewrite Hsnd|]. apply Forall_lookup. intros i [p t] Hi.
      apply lookup_zip_Some in Hi as [Hp Ht]. rewrite list_lookup_fmap in Hp.
      destruct (ordered !! i) as [ip|] eqn:Ei; [|done]. injection Hp as <-. by apply (Hsound _ _ Ht). }
    assert (Hsub : map fst runs ⊆+ map snd group) by (rewrite Hfst, Hperm; done).
    destruct r as [vs|e]; [|exists new; split; [done|by exists runs]].
    apply ends_lift. exists new. split; [done|]. exists runs. split_and!; [done..|].
    intros slots' [= <-]. destruct (Hres vs eq_refl) as [Hvs HQ].
    eapply filled_perm; [exact Hperm|]. apply group_filled; [congruence..| |by rewrite Hperm].
    intros i t ip v Ht Hip Hv. by apply (HQ i t v Ht Hv ip Hip).
  - apply Forall2_fmap. apply Forall_Forall2_diag, Forall_true. intros ip.
    apply run_one_within. apply admission_within.
  - unfold group_fuel. lia.
  - intros i q Hq. rewrite list_lookup_fmap in Hq. destruct (ordered !! i) as [ip|] eqn:Ei; [|done].
    injection Hq as <-. split.
    + intros ip' [= <-]. constructor; [done|cbn; lia|done].
    + pose proof (Forall_lookup_1 _ _ _ _ Hids Ei) as Hid.
      eapply prog_ok_mono; [|eapply traces_mono; [|by apply run_one_ok]].
      * intros r t [_ H] ip' [= <-]. exact H.
      * intros t Ht ip' [= <-]. exact Ht.
Qed.

Lemma run_groups_ok scheduled : forall pending slots x,
  Forall (fun ip => has_id (snd ip)) (pending ++ scheduled) -> NoDup (map fst (pending ++ scheduled)) ->
  ends (run_groups redact public_message format_g R admission W pending scheduled slots) x
    (part_done (pending ++ scheduled) x slots).
Proof.
  induction scheduled as [|ip rest IH]; intros pending slots x Hids Hd; cbn [run_groups].
  - rewrite app_nil_r in *. by apply run_group_ok.
  - case_bool_decide as Ex.
    2: { replace (pending ++ ip :: rest)%list with ((pending ++ [ip]) ++ rest)%list in * by by rewrite <- app_assoc.
         by apply IH. }
    apply Forall_app in Hids as [Hp Hr]. apply Forall_cons in Hr as [Hip Hr].
    pose proof Hd as Hd'. rewrite map_app in Hd'. apply NoDup_app in Hd' as (Hdp & _ & Hdr).
    apply ends_bind. eapply ends_mono; [|by apply run_group_ok].
    intros [s1|e] x1 (new1 & Hx1 & H1); [|by exists new1; split; [|apply part_failed]].
    apply ends_bind. eapply ends_mono; [|apply (run_group_ok [ip]); [by constructor|apply NoDup_singleton]].
    intros [s2|e] x2 (new2 & Hx2 & H2).
    2: { exists (new2 ++ new1)%list. split; [by eapply extends_trans|].
         eapply part_then; [exact Hd|exact H1|]. apply (part_failed [ip] rest). exact H2. }
    eapply ends_mono; [|apply (IH []); [done|by apply NoDup_cons in Hdr as [_ ?]]].
    intros r x3 (new3 & Hx3 & H3). exists (new3 ++ new2 ++ new1)%list.
    split; [eapply extends_trans; [by eapply extends_trans|done]|].
    rewrite app_assoc. eapply part_then; [exact Hd|exact H1|]. by apply (part_then [ip] rest _ s2).
Qed.

(** *** One call after the other *)

(** A program after what was done before it *)
Lemma after_trace {A} I (Q : res A -> history -> Prop) q t0 : forall t,
  prog_ok (trace_rule Acted I) Q q t ->
  prog_ok (trace_rule Acted (fun _ => True)) (fun r t' => exists u, t' = (u ++ t0)%list /\ Q r u) q (t ++ t0)%list.
Proof.
  induction q as [r|a k IH]; intros t H; [by exists t|]. intros r. destruct (H r) as [_ Hk].
  split; [done|]. apply (IH r (Acted a r :: t) Hk).
Qed.

Lemma quiet_after {A} F (q : Prog A) t0 :
  calm_to F q ->
  prog_ok (trace_rule Acted (fun _ => True))
    (fun r t' => exists u, t' = (u ++ t0)%list /\ quiet_trace u /\ forall v, r = Ok v -> F v) q t0.
Proof.
  intros Hq. eapply prog_ok_mono; [|eapply (after_trace quiet_trace _ q t0 []), (calm_traces _ q false);
    [apply Hq|constructor]].
  intros r t' (u & -> & Hu & g & H). exists u. split_and!; [done..|]. by intros v ->.
Qed.

Definition part_after ips slots t (r : res (list slot)) (t' : history) : Prop :=
  exists u, t' = (u ++ t)%list /\ part ips slots r u.

Abbreviation any_rule := (trace_rule Acted (fun _ => True)).

(** A call that is put in its place with a result it was not run for *)
Lemma skip_part ip slots u c :
  has_id (snd ip) -> quiet_trace u -> to_tool_call (fst c) = pt_tool_call (snd ip) ->
  ends_call (fst c) c -> part [ip] slots (Ok (fill slots (fst ip, c))) u.
Proof.
  intros Hid Hu Hc [_ (id & Hid' & Hm)]. rewrite Hc, has_id_text in Hid' by done. injection Hid' as <-.
  exists [(snd ip, [])]. split_and!; [|done|].
  - destruct (calls_ran_quiet u Hu) as [(rest & H1 & H2) _]. constructor.
    + exists rest. split; [done|]. by rewrite H2.
    + apply Forall_singleton. constructor; [done|cbn; lia|done].
  - intros s [= <-]. apply (group_filled [ip] [[]] [(fst ip, c)]); [done..| |apply NoDup_singleton].
    intros [|i] t ip' v Ht Hip Hv; [|done]. injection Ht as <-. injection Hip as <-. injection Hv as <-.
    split; [done|]. constructor; [done..|]. by intros _ H.
Qed.

Lemma part_after_then ips ips' s s1 t t1 r t2 :
  NoDup (map fst (ips ++ ips')) -> part_after ips s t (Ok s1) t1 -> part_after ips' s1 t1 r t2 ->
  part_after (ips ++ ips') s t r t2.
Proof.
  intros Hd (u & -> & H1) (u' & -> & H2). exists (u' ++ u)%list. rewrite app_assoc. split; [done|].
  by eapply part_then.
Qed.

Lemma skip_call_ok ip slots t :
  has_id (snd ip) -> prog_ok any_rule (part_after [ip] slots t) (skip_call redact ip slots) t.
Proof.
  intros Hid. unfold skip_call. apply prog_ok_then.
  eapply prog_ok_mono; [|apply quiet_after, emit_tool_end_calm].
  intros [c|e] t' (u & -> & Hu & Hc); exists u; (split; [done|]).
  - destruct (Hc c eq_refl) as [Hfst Hex]. apply skip_part; [done..|by rewrite Hfst|by rewrite Hfst].
  - exists []. split_and!; [by apply calls_ran_quiet|apply submseteq_nil_l|done].
Qed.

Lemma skip_calls_ok ips : forall slots t,
  Forall (fun ip => has_id (snd ip)) ips -> NoDup (map fst ips) ->
  prog_ok any_rule (part_after ips slots t) (prog_for_each (skip_call redact) ips slots) t.
Proof.
  induction ips as [|ip ips IH]; intros slots t Hids Hd; cbn [prog_for_each].
  { exists []. split; [done|by apply part_nothing]. }
  apply Forall_cons in Hids as [Hip Hids]. apply prog_ok_then.
  eapply prog_ok_mono; [|by apply skip_call_ok]. intros [s1|e] t1 H1.
  - eapply prog_ok_mono; [|apply IH; [done|by apply NoDup_cons in Hd as [_ ?]]].
    intros r t2 H2. by apply (part_after_then [ip] ips _ s1 t t1).
  - destruct H1 as (u & -> & H1). exists u. split; [done|]. by apply (part_failed [ip] ips).
Qed.

Lemma sound_uninterrupted p u : sound_run p u -> uninterrupted u = u.
Proof.
  intros [H _ _]. induction u as [|e u IH]; [done|]. unfold unwatched in H. cbn [List.filter] in H.
  assert (Forall (own_entry max_calls p (id_of p)) (unwatched u)).
  { destruct (negb (is_watch e)); [by apply Forall_cons in H as [_ H]|done]. }
  unfold uninterrupted in *. cbn [List.filter]. destruct e as [a r|i]; [by rewrite IH|].
  cbn in H. by apply Forall_cons in H as [H _].
Qed.

Lemma run_one_part ip slots t :
  has_id (snd ip) ->
  prog_ok any_rule (fun r t' => part_after [ip] slots t (let! v := r in Ok (fill slots v)) t') (run_one ip) t.
Proof.
  intros Hid. eapply prog_ok_mono; [|eapply (after_trace _ _ _ t []), run_one_ok, Hid].
  intros r t' (u & -> & Hs & Hr). exists u. split; [done|].
  exists [(snd ip, u)]. split_and!; [|done|].
  - constructor; [|by apply Forall_singleton]. exists []. split; [done|].
    rewrite (sound_uninterrupted _ _ Hs). cbn. by rewrite app_nil_r.
  - intros s Hs'. destruct r as [v|e]; [|done]. injection Hs' as <-. destruct (Hr v eq_refl) as [Hf Hc].
    apply (group_filled [ip] [u] [v]); [done..| |apply NoDup_singleton].
    intros [|i] t' ip' v' Ht Hip Hv; [|done]. injection Ht as <-. injection Hip as <-. by injection Hv as <-.
Qed.

Lemma run_sequential_ok scheduled : forall slots t,
  Forall (fun ip => has_id (snd ip)) scheduled -> NoDup (map fst scheduled) ->
  prog_ok any_rule (part_after scheduled slots t)
    (run_sequential redact public_message format_g R admission scheduled slots) t.
Proof.
  induction scheduled as [|ip rest IH]; intros slots t Hids Hd; cbn [run_sequential].
  { exists []. split; [done|by apply part_nothing]. }
  assert (Hlook : forall (q : bool -> Prog (list slot)),
    (forall b t', prog_ok any_rule (part_after (ip :: rest) slots t') (q b) t') ->
    prog_ok any_rule (part_after (ip :: rest) slots t) (then_do (do_action LookCancelled) q) t).
  { intros q Hq r. split; [done|].
    assert (Hu : quiet_trace [Acted LookCancelled r]) by by constructor.
    destruct r as [b|e]; cbn [then_do sequel do_action].
    - eapply prog_ok_mono; [|apply Hq]. intros r t' (u & -> & H).
      exists (u ++ [Acted LookCancelled (Ok b)])%list. rewrite <- app_assoc. split; [done|].
      apply (part_then [] (ip :: rest) _ slots); [done|by apply part_nothing|done].
    - exists [Acted LookCancelled (Err e)]. split; [done|]. apply (part_failed [] (ip :: rest)).
      exists []. by split_and!; [apply calls_ran_quiet| |]. }
  apply Hlook. intros cancelled t'. destruct cancelled; [by apply skip_calls_ok|].
  apply Forall_cons in Hids as [Hip Hids]. apply prog_ok_then.
  eapply prog_ok_mono; [|by apply run_one_part]. intros [v|e] t1 H1; cbn [rbind] in H1.
  - eapply prog_ok_mono; [|apply IH; [done|by apply NoDup_cons in Hd as [_ ?]]].
    intros r t2 H2. by apply (part_after_then [ip] rest _ (fill slots v) t' t1).
  - destruct H1 as (u & -> & H1). exists u. split; [done|]. by apply (part_failed [ip] rest).
Qed.
End Batch.
