(* ===== verification/ToolAdmission.v ===== *)
(** * The admission of tool calls

    Before anything runs, a batch is made canonical, and each of its calls is admitted:
    by the approval and identity its tool asks for, by the authorizers of the runtime
    and by the hook of the product.  What a queued call owes to this is in the trace. *)

From S2P Require Import Prelude PyDict Text PyVal PyNum Retry RetryLoop Approvals Service Tasks.
From S2P Require Import Messages AgentTypes AgentWorld AgentTraces ToolDispatch AgentLoop ToolBatches.
From Stdlib Require Import String.

#[local] Open Scope string_scope.
#[local] Open Scope bool_scope.
#[local] Open Scope Z_scope.

(** ** Quiet traces with what they hold *)

Abbreviation quiet_only := (trace_rule Acted quiet_trace).

Lemma ask_ok {B} a (f : agent_answer a -> Prog B) (post : res B -> history -> Prop) t :
  quiet_action a -> quiet_trace t ->
  (forall v, prog_ok quiet_only post (f v) (Acted a (Ok v) :: t)) ->
  (forall e, post (Err e) (Acted a (Err e) :: t)) ->
  prog_ok quiet_only post (then_do (do_action a) f) t.
Proof.
  intros Ha Ht Hv He r. split; [by constructor|]. destruct r as [v|e]; [apply Hv|apply He].
Qed.

(** A calm program adds to a quiet trace. *)
Lemma calm_adds {A} F (q : Prog A) t :
  calm_to F q -> quiet_trace t ->
  prog_ok quiet_only (fun r t' => quiet_trace t' /\ t ⊆ t' /\ forall v, r = Ok v -> F v) q t.
Proof.
  intros Hq Ht. generalize (Hq false). generalize false as g. revert t Ht. clear Hq.
  induction q as [r|a k IH]; intros t Ht g H; [split_and!; [done..|by intros v ->]|].
  destruct H as [Ha Hk]. intros r. assert (Hc : quiet_trace (Acted a r :: t)) by by constructor.
  split; [done|]. eapply prog_ok_mono; [|eapply IH; [done|apply Hk]].
  intros r' t' (H1 & H2 & H3). split_and!; [done| |done]. intros e He. apply H2. by right.
Qed.

Lemma jget_dset_ne k k' v d : k <> k' -> jget (dset k v d) k' = jget d k'.
Proof. intros H. unfold jget. by rewrite dget_dset_ne. Qed.

Section Admission.
Context (redact : string -> string) (public_message : exn -> option string).
Context (R : ToolDispatchRuntime).

(** ** Canonical calls *)

(** The prepared call is the given one with its name and its arguments made canonical, for
    a tool of this turn that the runtime sealed, with the arguments that the tool itself
    returned. *)
Record canonical (tools : list AgentTool) (call : pydict) (p : PreparedToolCall) (t : history) : Prop := {
  cn_tool : pt_tool p ∈ tools;
  cn_named : exists s, jget call "name" = VStr s /\ strip s = at_name (pt_tool p);
  cn_sealed : exists c, assert_registered_tool R (pt_tool p) None = Ok c;
  cn_validated : exists raw, Acted (ValidateArguments (pt_tool p) raw) (Ok (pt_args p)) ∈ t;
  cn_object : exists d, pt_args p = VDict d;
  cn_call : pt_tool_call p = dset "arguments" (pt_args p) (dset "name" (VStr (at_name (pt_tool p))) call)
}.

Lemma cn_id tools call p t : canonical tools call p t -> jget (pt_tool_call p) "id" = jget call "id".
Proof. intros [_ _ _ _ _ ->]. by rewrite !jget_dset_ne. Qed.

Lemma canonical_mono tools call p t t' : t ⊆ t' -> canonical tools call p t -> canonical tools call p t'.
Proof. intros Hs [H1 H2 H3 [raw H4] H5 H6]. constructor; try done. exists raw. by apply Hs. Qed.

Lemma called_tool_spec call tools t g :
  called_tool redact public_message R call tools = inr (t, g) ->
  t ∈ tools /\ (exists s, jget call "name" = VStr s /\ strip s = at_name t) /\
  exists c, assert_registered_tool R t None = Ok c.
Proof.
  unfold called_tool. destruct (negb (distinct _)); [done|].
  set (name := match jget call "name" with VStr s => strip s | _ => "" end).
  destruct (nonempty name) eqn:En; [|done]. destruct (mem_str name _); [|done]. cbn [negb orb].
  destruct (dget name (td_registrations R)) as [g'|]; [|done].
  destruct (find_first _ tools) as [t'|] eqn:Ef; [|done].
  destruct (negb (rg_object g' =? at_object t')); [done|].
  destruct (assert_registered_tool R t' None) as [c|e] eqn:Es; [|done]. intros [= <- <-].
  apply find_first_Some in Ef as [Ht Hn%String.eqb_eq]. split_and!; [done| |by exists c].
  rewrite Hn. subst name. destruct (jget call "name") as [| | | |s| |]; try done. by exists s.
Qed.

Definition now_canonical tools call (r : res preparation) (t : history) : Prop :=
  quiet_trace t /\ forall p, r = Ok (CallPrepared p) -> canonical tools call p t.

Lemma canonical_arguments_ok tool raw t :
  quiet_trace t ->
  prog_ok quiet_only (fun r t' => quiet_trace t' /\ forall args, r = Ok args ->
    (exists d, args = VDict d) /\ exists raw', Acted (ValidateArguments tool raw') (Ok args) ∈ t')
    (canonical_arguments tool raw) t.
Proof.
  intros Ht. unfold canonical_arguments. apply prog_ok_then.
  eapply prog_ok_mono; [|apply (calm_adds (fun _ => True)); [|exact Ht]].
  2: { destruct (is_some _); [by apply calm_act|apply calm_ends]. }
  intros [args|e] t1 (Ht1 & _); [|done]. apply ask_ok; [done|done| |].
  - intros args' . assert (Hq : quiet_trace (Acted (ValidateArguments tool args) (Ok args') :: t1)) by by constructor.
    destruct args'; split; try done. intros v [= <-]. split; [by eexists|]. exists args. by left.
  - intros e. split; [by constructor|done].
Qed.

Lemma canonicalize_ok call tools t :
  quiet_trace t ->
  prog_ok quiet_only (now_canonical tools call) (canonicalize redact public_message R call tools) t.
Proof.
  intros Ht. unfold canonicalize. destruct (called_tool redact public_message R call tools) as [i|[tool g]] eqn:Ec.
  - split; [done|]. intros p [= ->]. exfalso. revert Ec. unfold called_tool, policy_invalid, rejected.
    repeat case_match; congruence.
  - destruct (called_tool_spec _ _ _ _ Ec) as (Hin & Hname & Hsealed).
    assert (Hbad : forall r, prog_ok quiet_only (now_canonical tools call) (return_value (arguments_invalid r)) t) by done.
    destruct (jget_or call "arguments" (VDict [])); try apply Hbad.
    apply prog_ok_sequel. eapply prog_ok_mono; [|by apply canonical_arguments_ok].
    intros [args|e] t' [Ht' Hargs]; [|by destruct (is_exception e)].
    destruct (Hargs args eq_refl) as [Hd Hv]. unfold canonical_call. apply prog_ok_done.
    destruct (contract_digest (rg_contract g)) as [digest|e]; [|done]. split; [done|].
    intros p [= <-]. by constructor.
Qed.

Definition batch_canonical tools calls (r : res (option (list PreparedToolCall))) (t : history) : Prop :=
  quiet_trace t /\ forall ps, r = Ok (Some ps) -> Forall2 (fun call p => canonical tools call p t) calls ps.

Lemma canonical_batch_ok tools calls : forall t,
  quiet_trace t ->
  prog_ok quiet_only (batch_canonical tools calls) (canonical_batch redact public_message R calls tools) t.
Proof.
  induction calls as [|call calls IH]; intros t Ht; cbn [canonical_batch].
  { split; [done|]. intros ps [= <-]. constructor. }
  apply prog_ok_then. eapply prog_ok_mono; [|by apply canonicalize_ok].
  intros [[p|i]|e] t1 [Ht1 Hp]; [|done..]. apply prog_ok_then.
  eapply prog_ok_mono; [|by apply traces_grow, IH]. intros [[ps|]|e] t2 [[Ht2 Hps] Hsub]; [|done..].
  split; [done|]. intros ps' [= <-]. constructor; [|by apply Hps]. eapply canonical_mono; [done|by apply Hp].
Qed.

(** ** Admitted calls *)

(** What admits this call, for this caller: the authorizers agreed to its tool and its
    arguments, and the hook was asked about the call itself and did not block it. *)
Record call_admitted (p : PreparedToolCall) (context : ToolDispatchContext) (t : history) : Prop := {
  ad_approval : at_requires_approval (pt_tool p) = true -> td_authorization R || td_authorize R = true;
  ad_identity : td_require_identity R || td_authorization R || at_requires_approval (pt_tool p) = true ->
                is_some (dc_identity context) = true;
  ad_authorized : td_authorization R = true -> Acted (Authorize (pt_tool p) (pt_args p) context) (Ok true) ∈ t;
  ad_legacy : td_authorize R = true -> 
    Acted (AuthorizeLegacy (pt_tool p) (pt_args p) context) (Ok true) ∈ t;
  ad_hook : td_before_tool_call R = true -> exists o,
    Acted (BeforeToolCall (pt_tool_call p) (pt_args p)) (Ok o) ∈ t /\ forall b, o = Some b -> bt_block b = false;
  ad_live : Acted LookCancelled (Ok false) ∈ t
}.

Lemma admitted_mono p context t t' : t ⊆ t' -> call_admitted p context t -> call_admitted p context t'.
Proof.
  intros Hs [H1 H2 H3 H4 H5 H6]. constructor; auto.
  intros H. destruct (H5 H) as (o & Ho & Hb). exists o. auto.
Qed.

(** How the guards end for a call *)
Definition guarded (p : PreparedToolCall) (context : ToolDispatchContext) (v : preparation) (t : history) : Prop :=
  match v with
  | CallPrepared p' => p' = with_context context p /\ call_admitted p context t
  | CallImmediate i => im_tool_call i = Some (pt_tool_call p)
  end.

Definition now_guarded p context (r : res preparation) (t : history) : Prop :=
  quiet_trace t /\ forall v, r = Ok v -> guarded p context v t.

Lemma guard_ok {B} b (f : unit -> Prog B) (post : res B -> history -> Prop) t :
  (b = true -> prog_ok quiet_only post (f tt) t) -> (forall e, post (Err e) t) ->
  prog_ok quiet_only post (then_do (guard b) f) t.
Proof. intros H He. destruct b; [by apply H|apply He]. Qed.

(** An authorizer that is there is asked, and has to agree. *)
Lemma consulted_ok {B} there (q : Prog bool) (agreed : agent_entry) (f : Prog B)
    (post : res B -> history -> Prop) t :
  quiet_trace t ->
  prog_ok quiet_only (fun r t' => quiet_trace t' /\ (r = Ok true -> agreed ∈ t')) q t ->
  (forall t', quiet_trace t' -> t ⊆ t' -> (there = true -> agreed ∈ t') -> prog_ok quiet_only post f t') ->
  (forall e t', quiet_trace t' -> post (Err e) t') ->
  prog_ok quiet_only post
    (then_do (consulted there q) (fun allowed => then_do (guard allowed) (fun _ => f))) t.
Proof.
  intros Ht Hq Hf He. destruct there; [|by apply Hf]. cbn [consulted]. apply prog_ok_then.
  eapply prog_ok_mono; [|by apply traces_grow, Hq]. intros [b|e] t' [[Ht' Hb] Hsub]; [|by apply He].
  apply guard_ok; [|intros e; by apply He]. intros ->. apply Hf; auto.
Qed.

Lemma asked_ok a t (agreed : res (agent_answer a) -> Prop) (e : agent_entry) :
  quiet_action a -> quiet_trace t -> (forall r, agreed r -> Acted a r = e) ->
  prog_ok quiet_only (fun r t' => quiet_trace t' /\ (agreed r -> e ∈ t')) (do_action a) t.
Proof.
  intros Ha Ht He r. assert (quiet_trace (Acted a r :: t)) by by constructor.
  split; [done|]. split; [done|]. intros <-%He. by left.
Qed.

Lemma live_ok p context t (H : forall t', t ⊆ t' -> Acted LookCancelled (Ok false) ∈ t' ->
    call_admitted p context t') :
  quiet_trace t ->
  prog_ok quiet_only (now_guarded p context)
    (then_do (do_action LookCancelled) (fun cancelled =>
       return_value (if cancelled then immediate p (cancelled_before_dispatch redact (at_name (pt_tool p)))
                     else CallPrepared (with_context context p)))) t.
Proof.
  intros Ht. apply ask_ok; [done|done| |].
  - intros cancelled. split; [by constructor|]. intros v [= <-]. destruct cancelled; [done|].
    split; [done|]. apply H; [|by left]. intros e He. by right.
  - intros e. split; [by constructor|done].
Qed.

Lemma dispatch_guards_ok p context t :
  quiet_trace t -> prog_ok quiet_only (now_guarded p context) (dispatch_guards redact R p context) t.
Proof.
  intros Ht. assert (Herr : forall e t', quiet_trace t' -> now_guarded p context (Err e) t') by done.
  unfold dispatch_guards. apply guard_ok; [intros Hap|by intros; apply Herr].
  apply guard_ok; [intros Hid|by intros; apply Herr].
  apply (consulted_ok _ _ (Acted (Authorize (pt_tool p) (pt_args p) context) (Ok true))); [done| | |done].
  { apply (asked_ok (Authorize _ _ _)); [done..|]. by intros r ->. }
  intros t1 Ht1 Hs1 Hauth.
  apply (consulted_ok _ _ (Acted (AuthorizeLegacy (pt_tool p) (pt_args p) context) (Ok true))); [done| | |done].
  { apply (asked_ok (AuthorizeLegacy _ _ _)); [done..|]. by intros r ->. }
  intros t2 Ht2 Hs2 Hlegacy.
  assert (Hadmit : forall t', t2 ⊆ t' -> (td_before_tool_call R = true -> exists o,
    Acted (BeforeToolCall (pt_tool_call p) (pt_args p)) (Ok o) ∈ t' /\ forall b, o = Some b -> bt_block b = false) ->
    Acted LookCancelled (Ok false) ∈ t' -> call_admitted p context t').
  { intros t' Hs Hhook Hlive. constructor; auto.
    - intros H. rewrite H in Hap. by destruct (td_authorization R), (td_authorize R).
    - intros H. rewrite H in Hid. by destruct (is_some (dc_identity context)). }
  destruct (td_before_tool_call R) eqn:Eb.
  2: { apply prog_ok_done. apply live_ok; [|done]. intros t' Hs Hl. by apply Hadmit. }
  apply ask_ok; [done|done| |by intros e; apply Herr; constructor].
  intros o. assert (Ht3 : quiet_trace (Acted (BeforeToolCall (pt_tool_call p) (pt_args p)) (Ok o) :: t2)) by by constructor.
  assert (Hlive : (forall b, o = Some b -> bt_block b = false) -> forall t',
    Acted (BeforeToolCall (pt_tool_call p) (pt_args p)) (Ok o) :: t2 ⊆ t' ->
    Acted LookCancelled (Ok false) ∈ t' -> call_admitted p context t').
  { intros Hb t' Hs Hl. apply Hadmit; [|intros _; exists o; split; [apply Hs; by left|done]|done].
    intros e He. apply Hs. by right. }
  destruct o as [b|]; [|by apply live_ok; [apply Hlive|]].
  destruct (bt_block b) eqn:Ebl; [|apply live_ok; [apply Hlive; by intros ? [= <-]|done]].
  split; [done|]. by intros v [= <-].
Qed.

Lemma apply_dispatch_guards_ok p context t :
  quiet_trace t ->
  prog_ok quiet_only (now_guarded p context) (apply_dispatch_guards redact public_message R p context) t.
Proof.
  intros Ht. unfold apply_dispatch_guards. apply prog_ok_sequel.
  eapply prog_ok_mono; [|by apply dispatch_guards_ok]. intros [v|e] t' [Ht' Hv]; [done|].
  assert (Himm : forall r, prog_ok quiet_only (now_guarded p context) (return_value (immediate p r)) t')
    by (intros r; split; [done|]; by intros v [= <-]).
  destruct e; try apply Himm; by destruct (is_exception _).
Qed.

(** ** Queued calls *)

(** A call is decided at once, or queued as it was admitted. *)
Definition slot_for context tenant_id (p : PreparedToolCall) (s : slot) (t : history) : Prop :=
  match s with
  | inl c => to_tool_call (fst c) = pt_tool_call p /\ message_for (id_of p) (snd c)
  | inr p' => p' = with_tenant tenant_id (with_context context p) /\
              call_admitted p context t
  end.

Lemma slot_for_mono context tenant_id p s t t' :
  t ⊆ t' -> slot_for context tenant_id p s t -> slot_for context tenant_id p s t'.
Proof. intros Hs. destruct s; [done|]. intros [H1 H2]. split; [done|by eapply admitted_mono]. Qed.

Lemma resource_keys_calm tool args : calm (resource_keys tool args).
Proof.
  unfold resource_keys. destruct (negb _); [apply calm_ends|]. destruct (negb _); [apply calm_ends|].
  apply calm_bind; [by apply calm_act|intros raw]. apply calm_bind; [apply calm_ends|intros values].
  repeat case_match; apply calm_ends.
Qed.

Lemma enqueue_call_ok context tenant_id sequential p slots t :
  quiet_trace t -> has_id p ->
  prog_ok quiet_only (fun r t' => quiet_trace t' /\ forall slots', r = Ok slots' ->
      exists s, slots' = (slots ++ [s])%list /\ slot_for context tenant_id p s t')
    (enqueue_call redact public_message R context tenant_id sequential p slots) t.
Proof.
  intros Ht Hid. unfold enqueue_call. apply prog_ok_then.
  eapply prog_ok_mono; [|by apply apply_dispatch_guards_ok].
  intros [v|e] t1 [Ht1 Hv]; [|done]. specialize (Hv v eq_refl). destruct v as [p'|i].
  - destruct Hv as [-> Had].
    eapply prog_ok_mono; [|apply (calm_adds (fun slots' =>
      slots' = (slots ++ [inr (with_tenant tenant_id (with_context context p))])%list)); [|exact Ht1]].
    + intros r t2 (Ht2 & Hs & Hr). split; [done|]. intros slots' Hok.
      exists (inr (with_tenant tenant_id (with_context context p))). split; [by apply Hr|].
      split; [done|by eapply admitted_mono].
    + apply calm_bind; [apply emit_tool_start_calm|intros _]. apply calm_bind; [apply calm_ends|intros id].
      apply calm_bind; [apply resource_keys_calm|intros keys]. apply calm_bind; [apply emit_calm|intros _].
      by apply calm_value.
  - cbn in Hv. rewrite Hv. set (call := if is_nil (pt_tool_call p) then pt_tool_call p else pt_tool_call p).
    assert (Ecall : call = pt_tool_call p) by (subst call; by destruct (is_nil _)). clearbody call. subst call.
    eapply prog_ok_mono; [|apply (calm_adds (fun slots' => exists c, slots' = (slots ++ [inl c])%list /\
      ends_call (mkOutcome (pt_tool_call p) (im_result i) true (im_args i)) c)); [|exact Ht1]].
    + intros r t2 (Ht2 & Hs & Hr). split; [done|]. intros slots' Hok.
      destruct (Hr _ Hok) as (c & -> & Hfst & id & Hid' & Hm). exists (inl c). split; [done|].
      cbn in Hid'. rewrite has_id_text in Hid' by done. injection Hid' as <-. cbn. by rewrite Hfst.
    + apply calm_bind; [apply emit_tool_start_calm|intros _].
      eapply calm_then; [apply emit_tool_end_calm|intros c Hc]. apply calm_value. by exists c.
Qed.

(** The calls so far, each in its slot *)
Definition slots_for context tenant_id (ps : list PreparedToolCall) (slots : list slot) (t : history) : Prop :=
  quiet_trace t /\ Forall2 (fun p s => slot_for context tenant_id p s t) ps slots.

Lemma enqueue_ok context tenant_id sequential ps t :
  quiet_trace t -> Forall has_id ps ->
  prog_ok quiet_only (fun r t' => match r with Ok slots => slots_for context tenant_id ps slots t'
                                             | Err _ => quiet_trace t' end)
    (prog_for_each (enqueue_call redact public_message R context tenant_id sequential) ps []) t.
Proof.
  intros Ht Hids.
  eapply prog_ok_mono; [|apply (prog_ok_for_each quiet_only _
    (fun rest slots t' => exists before, ps = (before ++ rest)%list /\ slots_for context tenant_id before slots t')
    (fun _ => quiet_trace))].
  - intros [slots|e] t' H; [|done]. destruct H as (before & -> & H). by rewrite app_nil_r.
  - intros p rest slots t1 (before & -> & Ht1 & Hslots). apply Forall_app in Hids as [_ Hids].
    apply Forall_cons in Hids as [Hid _].
    eapply prog_ok_mono; [|by apply traces_grow, enqueue_call_ok].
    intros [slots'|e] t2 [[Ht2 Hs] Hsub]; [|done]. destruct (Hs _ eq_refl) as (s & -> & Hslot).
    exists (before ++ [p])%list. rewrite <- app_assoc. split; [done|]. split; [done|].
    apply Forall2_app; [|by repeat constructor].
    eapply Forall2_impl; [exact Hslots|]. intros p' s'. by apply slot_for_mono.
  - exists []. repeat split; [done|constructor].
Qed.
End Admission.
