(* ===== verification/ToolSafety.v ===== *)
(** * What the dispatch of tools guarantees

    [dispatch_many] as a whole, for any answers of the world and any interleaving of its
    tasks: it ends; it answers every call; its handlers run only for calls of a batch that
    was canonical, each admitted before any of them ran; and it never reports as undone
    what a handler may have done. *)

From S2P Require Import Prelude PyDict Text PyVal PyNum Retry RetryLoop Approvals Service Tasks.
From S2P Require Import Messages AgentTypes AgentWorld AgentTraces ToolDispatch AgentLoop ToolTraces.
From S2P Require Import ToolBatches ToolAdmission.
From Stdlib Require Import String.

#[local] Open Scope string_scope.
#[local] Open Scope bool_scope.
#[local] Open Scope Z_scope.

(** ** The slots of a batch *)

Definition queued_from (n : nat) (slots : list slot) : list (nat * PreparedToolCall) :=
  omap (fun ip => match snd ip with inr p => Some (fst ip, p) | inl _ => None end)
    (combine (seq n (List.length slots)) slots).

Lemma queued_places slots : forall n i p,
  (i, p) ∈ queued_from n slots <-> exists j, i = (n + j)%nat /\ slots !! j = @Some slot (inr p).
Proof.
  induction slots as [|s slots IH]; intros n i p.
  - split; [intros H; by apply elem_of_nil in H|]. by intros (j & _ & H).
  - assert (Hrest : (i, p) ∈ queued_from (S n) slots <->
      exists j, i = (n + S j)%nat /\ (s :: slots) !! S j = @Some slot (inr p)).
    { rewrite IH. by setoid_rewrite Nat.add_succ_comm. }
    unfold queued_from in *. cbn [List.length seq combine omap list_omap snd fst].
    destruct s as [c|q].
    + rewrite Hrest. split; intros (j & Hj & Hs); [by exists (S j)|]. destruct j; [done|by exists j].
    + rewrite elem_of_cons, Hrest. split.
      * intros [[= -> ->]|(j & Hj & Hs)]; [exists 0%nat; split; [lia|done]|by exists (S j)].
      * intros ([|j] & Hj & Hs); [left; cbn in Hs; f_equal; [lia|congruence]|right; by exists j].
Qed.

Lemma queued_distinct slots : forall n, NoDup (map fst (queued_from n slots)).
Proof.
  induction slots as [|s slots IH]; intros n; [constructor|].
  unfold queued_from in *. cbn [List.length seq combine omap list_omap snd fst].
  destruct s as [c|q]; [apply IH|]. cbn [map fst]. constructor; [|apply IH].
  intros ([i p] & Hi & Hip)%list_elem_of_fmap. cbn in Hi. subst i.
  apply (queued_places slots (S n)) in Hip as (j & Hj & _). lia.
Qed.

Lemma queued_calls (f : PreparedToolCall -> PreparedToolCall) ps slots : forall n,
  Forall2 (fun p s => match s with inl _ => True | inr p' => p' = f p end) ps slots ->
  map snd (queued_from n slots) ⊆+ map f ps.
Proof.
  intros n H. revert n. induction H as [|p s ps slots Hs H IH]; intros n; [done|].
  unfold queued_from in *. cbn [List.length seq combine omap list_omap snd fst map].
  destruct s as [c|q]; [by apply submseteq_cons|]. subst q. by apply submseteq_skip.
Qed.

Lemma filled_spec (F : PreparedToolCall -> completed -> Prop) ps slots :
  Forall2 (fun p (s : slot) => exists c, s = inl c /\ F p c) ps slots -> Forall2 F ps (filled slots).
Proof. induction 1 as [|p s ps slots (c & -> & H) _ IH]; cbn; by constructor. Qed.

Lemma submseteq_distinct {A} (l k : list A) : l ⊆+ k -> NoDup k -> NoDup l.
Proof. intros [k' Hk]%submseteq_Permutation. rewrite Hk. by intros [H _]%NoDup_app. Qed.

(** ** The identifiers of a batch *)

Definition raw_id (call : pydict) : string := match jget call "id" with VStr s => s | _ => "" end.
Definition stripped_id (call : pydict) : string := match jget call "id" with VStr s => strip s | _ => "" end.
Definition stripped (call : pydict) : pydict := dset "id" (VStr (stripped_id call)) call.

(** Identifiers that need no replacement *)
Record clean (historical : list string) (calls : list pydict) : Prop := {
  cl_distinct : NoDup (map stripped_id calls);
  cl_new : Forall (fun c => nonempty (stripped_id c) = true /\ (stripped_id c ∉ historical)) calls
}.

(** The checked calls are the given ones but for their identifiers, which are replaced only
    when they have to. *)
Record checked_as (historical : list string) (calls checked : list pydict) : Prop := {
  ch_same : Forall2 (fun call call' => exists id, call' = dset "id" (VStr id) call) calls checked;
  ch_clean : clean historical calls -> checked = map stripped calls
}.

Lemma jget_dset_eq k v d : jget (dset k v d) k = v.
Proof. unfold jget. by rewrite dget_dset_eq. Qed.

Lemma id_problem_spec historical current call :
  id_problem historical current call = None <->
  nonempty (stripped_id call) = true /\ (stripped_id call ∉ historical) /\ (stripped_id call ∉ current).
Proof.
  unfold id_problem. fold (stripped_id call). rewrite <- !mem_str_false.
  destruct (nonempty (stripped_id call)), (mem_str (stripped_id call) historical),
    (mem_str (stripped_id call) current); naive_solver.
Qed.

Lemma clean_snoc historical calls call :
  clean historical (calls ++ [call]) <->
  clean historical calls /\ id_problem historical (map stripped_id calls) call = None.
Proof.
  rewrite id_problem_spec. split.
  - intros [Hd Hn]. rewrite map_app in Hd. apply NoDup_app in Hd as (Hd & Hnot & _).
    apply Forall_app in Hn as [Hn [[H1 H2] _]%Forall_cons]. split; [by constructor|].
    split_and!; [done..|]. intros Hin. apply (Hnot _ Hin). by left.
  - intros [[Hd Hn] (H1 & H2 & H3)]. constructor.
    + rewrite map_app. apply NoDup_app. split_and!; [done| |apply NoDup_singleton].
      intros id Hid ->%list_elem_of_singleton. done.
    + apply Forall_app. split; [done|by constructor].
Qed.

Lemma id_problem_perm historical current current' call :
  current ≡ₚ current' -> id_problem historical current call = id_problem historical current' call.
Proof.
  intros Hp. unfold id_problem. assert (H : forall s, mem_str s current = mem_str s current').
  { intros s. destruct (mem_str s current') eqn:E.
    - rewrite mem_str_spec in *. by rewrite Hp.
    - rewrite mem_str_false in *. by rewrite Hp. }
  by rewrite H.
Qed.

(** What the loop over the calls has so far *)
Record checking (historical : list string) (before : list pydict) (s : Checking) : Prop := {
  ck_same : Forall2 (fun call call' => exists id, call' = dset "id" (VStr id) call) before (snd (fst s));
  ck_errors : snd s = [] <-> clean historical before;
  ck_clean : snd s = [] -> fst (fst s) ≡ₚ map stripped_id before /\ snd (fst s) = map stripped before
}.

Lemma check_call_calm historical before index call s :
  checking historical before s ->
  calm_to (checking historical (before ++ [call])) (check_call historical (index, call) s).
Proof.
  destruct s as [[current cs] errors]. intros [H1 H2 H3]. cbn [fst snd] in *. unfold check_call.
  fold (stripped_id call).
  destruct (id_problem historical current call) as [reason|] eqn:Ei.
  - apply calm_bind; [by apply calm_act|intros fresh]. apply calm_value. constructor; cbn [fst snd].
    + apply Forall2_app; [done|]. constructor; [by eexists|constructor].
    + split; [by intros []%app_eq_nil|]. intros [Hc Hn]%clean_snoc.
      apply H2 in Hc. destruct (H3 Hc) as [Hp _]. rewrite (id_problem_perm _ _ _ _ Hp) in Ei. congruence.
    + by intros []%app_eq_nil.
  - apply calm_value. constructor; cbn [fst snd].
    + apply Forall2_app; [done|]. constructor; [by eexists|constructor].
    + rewrite H2, clean_snoc. split; [|tauto]. intros Hc. split; [done|].
      destruct (H3 (proj2 H2 Hc)) as [Hp _]. by rewrite <- (id_problem_perm _ _ _ _ Hp).
    + intros He. destruct (H3 He) as [Hp Hcs]. rewrite !map_app, <- Hcs. split; [|done].
      rewrite <- Hp. apply Permutation_cons_append.
Qed.

Lemma validate_calm historical calls :
  calm_to (fun v => checked_as historical calls (fst v) /\ (snd v = None <-> clean historical calls))
    (validate_tool_call_batch historical calls).
Proof.
  unfold validate_tool_call_batch.
  assert (Hnil : checking historical [] ([], [], [])).
  { constructor; cbn; [constructor|split; [|done]|done]. intros _. constructor; constructor. }
  assert (Hsnd : forall n, map snd (combine (seq n (List.length calls)) calls) = calls).
  { induction calls as [|c l IH]; intros n; [done|]. cbn. by rewrite IH. }
  apply (calm_then (checking historical calls)).
  - intros g. eapply prog_ok_mono; [|apply (calm_for_each (fun rest s => exists before,
      (before ++ map snd rest)%list = calls /\ checking historical before s))].
    + intros [s|e] g' H; [|done]. destruct H as (before & <- & H). by rewrite app_nil_r.
    + intros [index call] rest s (before & Hb & Hs) g'.
      eapply prog_ok_mono; [|by apply (check_call_calm _ before)]. intros [s'|e] g'' H; [|done].
      exists (before ++ [call])%list. rewrite <- app_assoc. by split.
    + exists []. split; [apply Hsnd|done].
  - intros [[current checked] errors] [H1 H2 H3]. cbn [fst snd] in *. apply calm_value. cbn [fst snd].
    split; [constructor; [done|]|].
    + intros Hc. by apply H3, H2.
    + rewrite <- H2. by destruct errors.
Qed.

Section Safety.
Context (redact : string -> string) (public_message : exn -> option string).
Context (format_g : pynum -> string) (R : ToolDispatchRuntime) (max_calls : option Z) (W : AgentWorld).
Abbreviation admission := (option_map (admit_retry_attempt redact) max_calls).

(** A queued call *)
Definition sent (context : ToolDispatchContext) (tenant_id : option string) (p : PreparedToolCall)
  : PreparedToolCall := with_tenant tenant_id (with_context context p).

(** What the batch says of a call, and what it does not hide of its run *)
Record call_settled (runs : list (PreparedToolCall * history)) (p : PreparedToolCall) (c : completed) : Prop := {
  st_call : to_tool_call (fst c) = pt_tool_call p;
  st_message : message_for (id_of p) (snd c);
  st_report : forall p' t, (p', t) ∈ runs -> id_of p' = id_of p ->
                report_ok redact p' (to_result (fst c)) (to_is_error (fst c)) (unwatched t)
}.

(** Distinct identifiers tell the runs apart. *)
Lemma same_run (runs : list (PreparedToolCall * history)) p t p' t' :
  NoDup (map id_of (map fst runs)) -> (p, t) ∈ runs -> (p', t') ∈ runs -> id_of p = id_of p' ->
  p = p' /\ t = t'.
Proof.
  intros Hd (i & Hi)%list_elem_of_lookup (j & Hj)%list_elem_of_lookup He.
  assert (i = j) as <-.
  { rewrite map_map in Hd.
    apply (NoDup_lookup _ i j (id_of p) Hd); rewrite list_lookup_fmap; [by rewrite Hi|by rewrite Hj, He]. }
  split; congruence.
Qed.

Lemma all_settled context tenant_id ps slots slots' runs t0 :
  slots_for R context tenant_id ps slots t0 -> NoDup (map id_of ps) ->
  map fst runs ⊆+ map snd (queued slots) -> filled_in redact (queued slots) runs slots slots' ->
  Forall2 (call_settled runs) ps (filled slots').
Proof.
  intros [_ Hslots] Hd Hruns [Hlen Hothers Hfill]. apply filled_spec.
  apply Forall2_same_length_lookup_2.
  { etransitivity; [by eapply Forall2_length|]. symmetry. exact Hlen. }
  intros i p s Hp Hs'.
  assert (exists s0, slots !! i = Some s0) as [s0 Hs0].
  { apply lookup_lt_is_Some. rewrite <- Hlen. by eapply lookup_lt_Some. }
  pose proof (Forall2_lookup_lr _ _ _ _ _ _ Hslots Hp Hs0) as Hslot.
  assert (Hids : map id_of (map fst runs) ⊆+ map id_of ps).
  { replace (map id_of ps) with (map id_of (map (sent context tenant_id) ps)) by by rewrite map_map.
    apply fmap_submseteq. etransitivity; [exact Hruns|]. apply queued_calls.
    eapply Forall2_impl; [exact Hslots|]. intros q [c|q']; [done|by intros [-> _]]. }
  assert (Hdr : NoDup (map id_of (map fst runs))) by by eapply submseteq_distinct.
  destruct s0 as [c|p'].
  - exists c. rewrite (Hothers i) in Hs'.
    2: { intros ([j q] & Hj & Hq)%list_elem_of_fmap. cbn in Hj. subst j.
         apply (queued_places slots 0) in Hq as (j & Hj & Hq). cbn in Hj. subst j.
         by rewrite Hs0 in Hq. }
    split; [congruence|]. destruct Hslot as [Hcall Hmsg]. constructor; [done..|].
    intros p' t Hin Hid. exfalso.
    assert (Hq : p' ∈ map snd (queued slots)).
    { eapply elem_of_submseteq; [|exact Hruns]. apply list_elem_of_fmap. by exists (p', t). }
    apply list_elem_of_fmap in Hq as ([j q] & Hj & Hq). cbn in Hj. subst q.
    apply (queued_places slots 0) in Hq as (j' & Hj & Hq). cbn in Hj. subst j'.
    destruct (Forall2_lookup_r _ _ _ _ _ Hslots Hq) as (p0 & Hp0 & -> & _).
    assert (i = j) as <-; [|congruence].
    apply (NoDup_lookup _ i j (id_of p) Hd); rewrite list_lookup_fmap; [by rewrite Hp|].
    rewrite Hp0. cbn. f_equal. exact Hid.
  - destruct Hslot as [-> _].
    assert (Hq : (i, sent context tenant_id p) ∈ queued slots) by (apply (queued_places slots 0); by exists i).
    destruct (Hfill _ Hq) as (c & t & Hc & Hrun & [H1 H2 H3]); [by eapply lookup_lt_Some|].
    exists c. split; [cbn in Hc; congruence|]. constructor; [done..|].
    intros p' t' Hin Hid. by destruct (same_run _ _ _ _ _ Hdr Hin Hrun Hid) as [-> ->].
Qed.

(** ** From the canonical calls on *)

Definition batch_settled ps runs (batch : ToolDispatchBatch) : Prop :=
  exists done, Forall2 (call_settled runs) ps done /\
    tb_outcomes batch = map fst done /\ tb_messages batch = map snd done.

Lemma publish_batch_calm slots :
  calm_to (fun b => tb_outcomes b = map fst (filled slots) /\ tb_messages b = map snd (filled slots))
    (publish_batch slots).
Proof.
  unfold publish_batch. apply calm_bind; [|intros _; by apply calm_value].
  intros g. eapply prog_ok_mono; [|apply (calm_for_each (fun _ _ => True)); [|done]].
  - by intros [v|e] g' _.
  - intros a l b _. apply emit_result_message_calm.
Qed.

(** What was done for some prepared calls *)
Record canonical_done context ps (r : res ToolDispatchBatch) (tenant_id : option string)
    (before after : history) (runs : list (PreparedToolCall * history)) : Prop := {
  cd_before : quiet_trace before;
  cd_runs : calls_ran max_calls runs after;
  cd_calls : map fst runs ⊆+ map (sent context tenant_id) ps;
  cd_admitted : Forall (fun pt => call_admitted R (fst pt) context before) runs;
  cd_settled : forall batch, r = Ok batch -> batch_settled ps runs batch
}.

(** The hook was asked about the call itself, which queueing does not change. *)
Lemma admitted_sent context' tenant_id p context t :
  call_admitted R p context t -> call_admitted R (sent context' tenant_id p) context t.
Proof. by intros [H1 H2 H3 H4 H5 H6]. Qed.

Lemma queued_admitted context tenant_id ps slots t (runs : list (PreparedToolCall * history)) :
  slots_for R context tenant_id ps slots t -> map fst runs ⊆+ map snd (queued slots) ->
  Forall (fun pt => call_admitted R (fst pt) context t) runs.
Proof.
  intros [_ Hslots] Hruns. apply Forall_forall. intros [p u] Hin.
  assert (Hq : p ∈ map snd (queued slots)).
  { eapply elem_of_submseteq; [|exact Hruns]. apply list_elem_of_fmap. by exists (p, u). }
  apply list_elem_of_fmap in Hq as ([j q] & Hj & Hq). cbn in Hj. subst q.
  apply (queued_places slots 0) in Hq as (j' & Hj & Hq).
  destruct (Forall2_lookup_r _ _ _ _ _ Hslots Hq) as (p0 & _ & -> & H). by apply admitted_sent.
Qed.

Lemma queued_sent context tenant_id ps slots t :
  slots_for R context tenant_id ps slots t -> map snd (queued slots) ⊆+ map (sent context tenant_id) ps.
Proof.
  intros [_ H]. apply queued_calls. eapply Forall2_impl; [exact H|].
  intros q [c|q']; [done|by intros [-> _]].
Qed.

Lemma queued_ids context tenant_id ps slots t :
  Forall has_id ps -> slots_for R context tenant_id ps slots t ->
  Forall (fun ip => has_id (snd ip)) (queued slots).
Proof.
  intros Hids H%queued_sent. apply Forall_forall. intros ip Hip.
  assert (Hin : snd ip ∈ map (sent context tenant_id) ps).
  { eapply elem_of_submseteq; [|exact H]. by apply list_elem_of_fmap_2. }
  apply list_elem_of_fmap in Hin as (p & -> & Hp). exact (proj1 (Forall_forall has_id ps) Hids p Hp).
Qed.

Lemma dispatch_canonical_ok context sequential ps x :
  Forall has_id ps -> NoDup (map id_of ps) ->
  ends (dispatch_canonical redact public_message format_g R admission W context sequential ps) x
    (fun r x' => exists tenant_id before after runs, extends (after ++ before) x x' /\
       canonical_done context ps r tenant_id before after runs).
Proof.
  intros Hids Hd. unfold dispatch_canonical. apply ends_lift_bind.
  destruct (trusted_tenant_id R (dc_tenant_id context)) as [tenant_id|e].
  2: { exists None, [], [], []. split; [apply extends_refl|].
       constructor; [constructor|by apply calls_ran_quiet|apply submseteq_nil_l|constructor|done]. }
  apply ends_bind. eapply ends_mono; [|apply (run_ok W quiet_trace); [constructor|by apply enqueue_ok]].
  intros [slots|e] x1 (before & Hx1 & Hq & Hslots).
  2: { exists tenant_id, before, [], []. split; [exact Hx1|].
       constructor; [done|by apply calls_ran_quiet|apply submseteq_nil_l|constructor|done]. }
  pose proof (queued_ids _ _ _ _ _ Hids Hslots) as Hqids.
  assert (Hfail : forall e after x', extends after x1 x' ->
    part redact max_calls (queued slots) slots (Err e) after -> exists tenant_id before after runs, extends (after ++ before) x x' /\
       canonical_done context ps (Err e) tenant_id before after runs).
  { intros e after x' Hx' (runs & H1 & H2 & _). exists tenant_id, before, after, runs.
    split; [by eapply extends_trans|]. constructor; [done|done| |by eapply queued_admitted|done].
    etransitivity; [exact H2|]. by eapply queued_sent. }
  apply ends_bind. eapply (ends_mono _ _ (part_done redact max_calls (queued slots) x1 slots)).
  - intros [slots'|e] x2 (after & Hx2 & Hpart); [|by eapply Hfail].
    eapply ends_mono; [|apply run_calm, publish_batch_calm].
    intros r x3 (t & Hx3 & Ht & Hr). destruct Hpart as (runs & H1 & H2 & H3).
    exists tenant_id, before, (t ++ after)%list, runs.
    split; [eapply extends_trans; [exact Hx1|by eapply extends_trans]|]. constructor; [done| | |by eapply queued_admitted|].
    + replace runs with (runs ++ [])%list by apply app_nil_r. apply calls_ran_app; [done|by apply calls_ran_quiet].
    + etransitivity; [exact H2|]. by eapply queued_sent.
    + intros batch Hb. destruct (Hr batch Hb) as [Ho Hm]. exists (filled slots').
      split; [by eapply all_settled; [| | |apply H3]|done].
  - destruct sequential.
    + eapply ends_mono; [|apply (run_ok W (fun _ => True)); [done|by apply run_sequential_ok; [|apply queued_distinct]]].
      intros r x2 (t & Hx2 & _ & u & -> & Hp). rewrite app_nil_r in Hx2. by exists u.
    + apply run_groups_ok; [done..|apply queued_distinct].
Qed.

(** ** The whole dispatch *)

(** What a run owes to what came before it: a context that was resolved, calls that were
    all canonical, and its own admission. *)
Record run_due (calls : list pydict) (tools : list AgentTool) (context : ToolDispatchContext)
    (p : PreparedToolCall) (before : history) : Prop := {
  rd_context : pt_dispatch_context p = context;
  rd_call : exists call, call ∈ map stripped calls /\ canonical R tools call p before;
  rd_batch : Forall (fun call => exists p', canonical R tools (stripped call) p' before) calls;
  rd_admitted : call_admitted R p context before
}.

(** The batch answers the checked calls one by one. *)
Record answers (runs : list (PreparedToolCall * history)) (checked : list pydict) (batch : ToolDispatchBatch) : Prop := {
  an_messages : Forall2 (fun call m => message_for (raw_id call) m) checked (tb_messages batch);
  an_outcomes : Forall2 (fun call o => jget (to_tool_call o) "id" = VStr (raw_id call) /\
      forall p t, (p, t) ∈ runs -> id_of p = raw_id call ->
        report_ok redact p (to_result o) (to_is_error o) (unwatched t)) checked (tb_outcomes batch)
}.

Record many_done calls messages tools context tenant_id (r : res ToolDispatchBatch)
    (before after : history) (runs : list (PreparedToolCall * history)) : Prop := {
  md_before : quiet_trace before;
  md_runs : calls_ran max_calls runs after;
  md_count : (List.length runs <= List.length calls)%nat;
  md_distinct : NoDup (map id_of (map fst runs));
  md_due : Forall (fun pt => exists c, resolve_dispatch_context context
      match tenant_id with Some s => Some s | None => td_default_tenant_id R end = Ok c /\
      run_due calls tools c (fst pt) before) runs;
  md_clean : runs <> [] -> exists historical,
      historical_tool_call_ids messages = Ok historical /\ clean historical calls;
  md_answers : forall batch, r = Ok batch -> exists historical checked,
      historical_tool_call_ids messages = Ok historical /\
      checked_as historical calls checked /\ answers runs checked batch
}.

Definition many_ended calls messages tools context tenant_id x (r : res ToolDispatchBatch) (x' : AgentRun) : Prop :=
  exists before after runs, extends (after ++ before) x x' /\
    many_done calls messages tools context tenant_id r before after runs.

(** A dispatch in which nothing was run *)
Lemma nothing_ran calls messages tools context tenant_id x r x' t :
  extends t x x' -> quiet_trace t ->
  (forall batch, r = Ok batch -> exists historical checked,
      historical_tool_call_ids messages = Ok historical /\
      checked_as historical calls checked /\ answers [] checked batch) ->
  many_ended calls messages tools context tenant_id x r x'.
Proof.
  intros Hx Ht Hr. exists t, [], []. split; [done|].
  constructor; [done|by apply calls_ran_quiet|cbn; lia|constructor|constructor|done|exact Hr].
Qed.

(** A call that is refused with its batch *)
Definition refused (call : pydict) (c : completed) : Prop :=
  to_tool_call (fst c) = call /\ jget call "id" = VStr (raw_id call) /\ message_for (raw_id call) (snd c).

Lemma reject_call_calm reason call done :
  jget call "id" = VStr (raw_id call) ->
  calm_to (fun done' => exists c, done' = (done ++ [c])%list /\ refused call c) (reject_call redact reason call done).
Proof.
  intros Hid. unfold reject_call. apply calm_bind; [apply emit_tool_start_calm|intros _].
  eapply calm_then; [apply emit_tool_end_calm|intros c (Hfst & id & Hid' & Hm)].
  apply calm_bind; [apply emit_result_message_calm|intros _]. apply calm_value. exists c. split; [done|].
  cbn [to_tool_call] in Hid'. rewrite (text_of_str _ _ _ Hid) in Hid'. injection Hid' as <-.
  unfold refused. by rewrite Hfst.
Qed.

Lemma reject_calm reason calls :
  Forall (fun c => jget c "id" = VStr (raw_id c)) calls ->
  calm_to (answers [] calls) (reject_tool_call_batch redact calls reason).
Proof.
  intros Hids. unfold reject_tool_call_batch. apply (calm_then (Forall2 refused calls)).
  - intros g. eapply prog_ok_mono; [|apply (calm_for_each (fun rest cs => exists before, calls = (before ++ rest)%list /\
      Forall2 refused before cs))].
    + intros [cs|e] g' H; [|done]. destruct H as (before & -> & H). by rewrite app_nil_r.
    + intros call rest cs (before & -> & Hcs) g'. apply Forall_app in Hids as [_ [Hid _]%Forall_cons].
      eapply prog_ok_mono; [|by apply reject_call_calm]. intros [cs'|e] g'' H; [|done].
      destruct H as (c & -> & Hc). exists (before ++ [call])%list. rewrite <- app_assoc. split; [done|].
      apply Forall2_app; [done|by constructor].
    + exists []. split; [done|constructor].
  - intros cs H. apply calm_value. constructor; cbn [tb_messages tb_outcomes batch_of].
    + apply Forall2_fmap_r. eapply Forall2_impl; [exact H|]. by intros call c (_ & _ & ?).
    + apply Forall2_fmap_r. eapply Forall2_impl; [exact H|]. intros call c (Hc & Hid & _). cbn. rewrite Hc. split; [done|].
      intros p t Hin. by apply elem_of_nil in Hin.
Qed.

(** The checked calls, once they are all canonical *)
Lemma canonical_ids tools calls ps t :
  Forall (fun c => nonempty (stripped_id c) = true) calls ->
  Forall2 (fun call p => canonical R tools call p t) (map stripped calls) ps ->
  Forall has_id ps /\ map id_of ps = map stripped_id calls.
Proof.
  intros Hne H. apply Forall2_fmap_l in H. clear Hne. induction H as [|call p calls ps Hc _ [IH1 IH2]]; [done|].
  pose proof (cn_id _ _ _ _ _ Hc) as Hid. unfold stripped in Hid. rewrite jget_dset_eq in Hid.
  split; [constructor; [|done]|cbn; f_equal; [|done]]; unfold has_id, id_of; by rewrite Hid.
Qed.

Lemma settled_answers runs tools calls ps batch t :
  Forall2 (fun call p => canonical R tools call p t) (map stripped calls) ps ->
  batch_settled ps runs batch -> answers runs (map stripped calls) batch.
Proof.
  intros Hc (cs & Hs & Ho & Hm).
  assert (H : Forall2 (fun call c => jget (to_tool_call (fst c)) "id" = VStr (raw_id call) /\
     message_for (raw_id call) (snd c) /\ forall p t, (p, t) ∈ runs -> id_of p = raw_id call ->
     report_ok redact p (to_result (fst c)) (to_is_error (fst c)) (unwatched t)) (map stripped calls) cs).
  { apply Forall2_fmap_l in Hc. apply Forall2_fmap_l. clear Ho Hm. revert cs Hs.
    induction Hc as [|call p calls ps Hcall _ IH]; intros cs Hs; inversion Hs as [|? c ? cs' H1 H2]; subst; [constructor|].
    constructor; [|by apply IH]. pose proof (cn_id _ _ _ _ _ Hcall) as Hid. destruct H1 as [H3 H4 H5].
    assert (Hraw : id_of p = raw_id (stripped call)) by (unfold id_of, raw_id; by rewrite Hid).
    unfold compose. rewrite H3, <- Hraw. split_and!; [|done|].
    - rewrite Hid. unfold stripped. rewrite jget_dset_eq. unfold id_of. rewrite Hid.
      unfold stripped. by rewrite jget_dset_eq.
    - intros p' t' Hin He. apply (H5 p' t' Hin). congruence. }
  constructor.
  - rewrite Hm. apply Forall2_fmap_r. eapply Forall2_impl; [exact H|]. by intros call c (_ & ? & _).
  - rewrite Ho. apply Forall2_fmap_r. eapply Forall2_impl; [exact H|]. by intros call c (? & _ & ?).
Qed.

Lemma checked_raw_ids historical calls checked :
  checked_as historical calls checked -> Forall (fun c => jget c "id" = VStr (raw_id c)) checked.
Proof.
  intros [H _]. induction H as [|call call' calls checked [id ->] _ IH]; constructor; [|done].
  unfold raw_id. by rewrite jget_dset_eq.
Qed.

Lemma canonical_sent context tenant_id tools call p t :
  canonical R tools call p t -> canonical R tools call (sent context tenant_id p) t.
Proof. by intros [H1 H2 H3 H4 H5 H6]. Qed.

Lemma quiet_then_canonical calls messages tools context tenant_id c historical ps r before0 before after runs tid :
  resolve_dispatch_context context
    match tenant_id with Some s => Some s | None => td_default_tenant_id R end = Ok c ->
  historical_tool_call_ids messages = Ok historical -> clean historical calls ->
  quiet_trace before0 ->
  Forall2 (fun call p => canonical R tools call p before0) (map stripped calls) ps ->
  canonical_done c ps r tid before after runs ->
  many_done calls messages tools context tenant_id r (before ++ before0) after runs.
Proof.
  intros Hc Hh Hcl Hq0 Hps [H1 H2 H3 H4 H5].
  destruct (canonical_ids tools calls ps before0) as [Hids Hmap]; [eapply Forall_impl; [apply Hcl|]; by intros ? [? _]|done|].
  assert (Hlen : List.length ps = List.length calls).
  { rewrite <- (Forall2_length _ _ _ Hps). apply length_map. }
  assert (Hidsent : map id_of (map (sent c tid) ps) = map id_of ps) by by rewrite map_map.
  constructor; [by apply Forall_app|done| | | |by exists historical|].
  - apply submseteq_length in H3. rewrite !length_map in H3. lia.
  - assert (Hd : NoDup (map id_of (map (sent c tid) ps))) by (rewrite Hidsent, Hmap; apply Hcl).
    eapply submseteq_distinct; [apply fmap_submseteq, H3|exact Hd].
  - apply Forall_forall. intros [p t] Hin. exists c. split; [done|].
    pose proof (proj1 (Forall_forall _ _) H4 _ Hin) as Had. cbn [fst] in *.
    assert (Hp : p ∈ map (sent c tid) ps).
    { eapply elem_of_submseteq; [|exact H3]. apply list_elem_of_fmap. by exists (p, t). }
    apply list_elem_of_fmap in Hp as (q & -> & Hq). constructor; [done| | |].
    + apply list_elem_of_lookup in Hq as (i & Hi).
      destruct (Forall2_lookup_r _ _ _ _ _ Hps Hi) as (call & Hcall & Hcan). exists call.
      split; [by eapply list_elem_of_lookup_2|]. apply canonical_sent. eapply canonical_mono; [|done].
      intros e He. apply elem_of_app. by right.
    + apply Forall_forall. intros call (i & Hi)%list_elem_of_lookup.
      assert (Hi' : map stripped calls !! i = Some (stripped call)) by (rewrite list_lookup_fmap, Hi; done).
      destruct (Forall2_lookup_l _ _ _ _ _ Hps Hi') as (p' & _ & Hcan). exists p'.
      eapply canonical_mono; [|done]. intros e He. apply elem_of_app. by right.
    + eapply admitted_mono; [|done]. intros e He. apply elem_of_app. by left.
  - intros batch Hb. exists historical, (map stripped calls). split_and!; [done| |].
    + constructor; [|done]. apply Forall2_fmap_r, Forall_Forall2_diag, Forall_true. intros call. by eexists.
    + eapply settled_answers; [done|by apply H5].
Qed.

Lemma dispatch_many_ok calls messages tools sequential context tenant_id x :
  ends (dispatch_many redact public_message format_g R admission W calls messages tools sequential context tenant_id)
    x (many_ended calls messages tools context tenant_id x).
Proof.
  unfold dispatch_many. apply ends_lift_bind.
  destruct (resolve_dispatch_context _ _) as [c|e] eqn:Ec; [|by eapply nothing_ran; [apply extends_refl| |]].
  apply ends_lift_bind.
  destruct (historical_tool_call_ids messages) as [historical|e] eqn:Eh;
    [|by eapply nothing_ran; [apply extends_refl| |]].
  apply ends_bind. eapply ends_mono; [|apply run_calm, validate_calm].
  intros [[checked problem]|e] x1 (t1 & Hx1 & Ht1 & Hv); [|by eapply nothing_ran].
  destruct (Hv _ eq_refl) as [Hch Hcl]. cbn [fst snd] in *. pose proof (checked_raw_ids _ _ _ Hch) as Hids.
  assert (Hreject : forall reason y t, extends t x y -> quiet_trace t ->
    ends (run W (reject_tool_call_batch redact checked reason)) y
      (many_ended calls messages tools context tenant_id x)).
  { intros reason y t Hy Ht. eapply ends_mono; [|by apply run_calm, reject_calm].
    intros r x2 (t2 & Hx2 & Ht2 & Hr). apply (nothing_ran _ _ _ _ _ _ _ _ (t2 ++ t)%list);
      [by eapply extends_trans|by apply Forall_app|]. intros batch Hb. exists historical, checked. auto. }
  destruct problem as [reason|]; [by eapply Hreject|].
  assert (Hclean : clean historical calls) by by apply Hcl. rewrite (ch_clean _ _ _ Hch Hclean) in *.
  apply ends_bind. eapply ends_mono; [|apply (run_ok W quiet_trace); [constructor|by apply canonical_batch_ok]].
  intros [[ps|]|e] x2 (t2 & Hx2 & _ & Ht2 & Hps).
  - specialize (Hps ps eq_refl).
    destruct (canonical_ids tools calls ps t2) as [Hpid Hmap]; [eapply Forall_impl; [apply Hclean|]; by intros ? [? _]|done|].
    eapply ends_mono; [|apply dispatch_canonical_ok; [done|rewrite Hmap; apply Hclean]].
    intros r x3 (tid & before & after & runs & Hx3 & Hdone).
    exists (before ++ t2 ++ t1)%list, after, runs. split.
    + rewrite app_assoc. eapply extends_trans; [by eapply extends_trans|done].
    + eapply quiet_then_canonical; [done..|by apply Forall_app| |done].
      eapply Forall2_impl; [exact Hps|]. intros call p. apply canonical_mono.
      intros e He. apply elem_of_app. by left.
  - eapply (Hreject _ x2 (t2 ++ t1)%list); [by eapply extends_trans|by apply Forall_app].
  - eapply (nothing_ran _ _ _ _ _ _ _ _ (t2 ++ t1)%list); [by eapply extends_trans|by apply Forall_app|done].
Qed.

(** ** What runs add to a history *)

Lemma in_uninterrupted e h : e ∈ uninterrupted h <-> e ∈ h /\ (forall i, e <> Interrupted i).
Proof.
  unfold uninterrupted. rewrite !list_elem_of_In, List.filter_In. destruct e; naive_solver.
Qed.

Lemma in_unwatched e t : e ∈ unwatched t <-> e ∈ t /\ is_watch e = false.
Proof. unfold unwatched. rewrite !list_elem_of_In, List.filter_In. destruct (is_watch e); naive_solver. Qed.

(** An entry is quiet, or belongs to the run of a call. *)
Lemma ran_entry runs after e :
  calls_ran max_calls runs after -> e ∈ after ->
  quiet_entry e \/ is_watch e = true \/
  exists p t, (p, t) ∈ runs /\ e ∈ unwatched t /\ own_entry max_calls p (id_of p) e.
Proof.
  intros [(rest & Hq & Hp) Hs] He. destruct e as [a r|i]; [|by left].
  assert (Hin : Acted a r ∈ uninterrupted after) by (apply in_uninterrupted; by split).
  rewrite Hp in Hin. apply elem_of_app in Hin as [Hin|Hin]; [left; by apply (Forall_forall quiet_entry rest)|].
  right. destruct (is_watch (Acted a r)) eqn:Ew; [by left|]. right.
  apply list_elem_of_In, in_concat in Hin as (t & Ht & Hin). apply list_elem_of_In in Ht, Hin.
  apply list_elem_of_fmap in Ht as ([p t'] & -> & Hrun). exists p, t'. cbn in Hin.
  assert (Hin' : Acted a r ∈ unwatched t') by (apply in_unwatched; by split).
  split_and!; [done..|]. pose proof (proj1 (Forall_forall _ _) Hs _ Hrun) as Hsound. cbn in Hsound.
  by apply (Forall_forall (own_entry max_calls p (id_of p)) (unwatched t')), Hin'; apply Hsound.
Qed.

Lemma ran_handler runs after tool id args context n a :
  calls_ran max_calls runs after -> Acted (CallHandler tool id args context n) a ∈ after ->
  exists p t, (p, t) ∈ runs /\ Acted (CallHandler tool id args context n) a ∈ unwatched t /\
    tool = pt_tool p /\ id = id_of p /\ args = pt_args p /\
    forall c, context = Some c -> dc_identity c = dc_identity (pt_dispatch_context p) /\
                                  dc_approval c = dc_approval (pt_dispatch_context p).
Proof.
  intros Hr Hin. destruct (ran_entry _ _ _ Hr Hin) as [[]|[Hw|(p & t & H1 & H2 & H3)]]; [done|].
  destruct H3 as (-> & -> & -> & H3). exists p, t. by split_and!.
Qed.

(** No model is asked, and retries are charged to the limit of the run. *)
Lemma ran_requests runs after : calls_ran max_calls runs after -> requests after = O.
Proof.
  intros Hr. unfold count_of. assert (H : forall e, e ∈ after -> is_model_request e = false).
  { intros e [Hq|[Hw|(p & t & _ & _ & Ho)]]%(ran_entry _ _ _ Hr).
    - destruct e as [[] r|i]; done.
    - by destruct e as [[] r|i].
    - by destruct e as [[] r|i]. }
  clear Hr. induction after as [|e after IH]; [done|]. cbn. rewrite (H e) by left. apply IH.
  intros e' He'. apply H. by right.
Qed.

Lemma ran_charges limit runs after :
  max_calls = Some limit -> calls_ran max_calls runs after -> Forall (charges limit) after.
Proof.
  intros Hm Hr. apply Forall_forall.
  intros e [Hq|[Hw|(p & t & _ & _ & Ho)]]%(ran_entry _ _ _ Hr); destruct e as [[] r|i]; try done.
  cbn in *. congruence.
Qed.

Lemma count_uninterrupted f h :
  (forall i, f (Interrupted i) = false) -> count_of f (uninterrupted h) = count_of f h.
Proof.
  intros Hf. unfold count_of, uninterrupted. induction h as [|[a r|i] h IH]; cbn; [done| |by rewrite Hf].
  destruct (f (Acted a r)); cbn; by rewrite IH.
Qed.

Lemma count_unwatched f t :
  (forall e, is_watch e = true -> f e = false) -> count_of f (unwatched t) = count_of f t.
Proof.
  intros Hf. unfold count_of, unwatched. induction t as [|e t IH]; cbn; [done|].
  destruct (is_watch e) eqn:Ew; cbn; [by rewrite Hf|]. destruct (f e); cbn; by rewrite IH.
Qed.

Lemma quiet_no_handlers t : quiet_trace t -> handlers t = O.
Proof.
  induction 1 as [|e t He _ IH]; [done|]. rewrite count_cons, IH.
  destruct e as [[] r|i]; done.
Qed.

(** Each run costs one call, and one more for each retry that the budget admitted. *)
Lemma ran_handlers runs after :
  max_calls <> None -> calls_ran max_calls runs after ->
  (handlers after <= List.length runs + grants after)%nat.
Proof.
  intros Hm [(rest & Hq & Hp) Hs].
  rewrite <- (count_uninterrupted is_handler_call after), <- (count_uninterrupted is_grant after) by done.
  rewrite !(count_permutation _ _ _ Hp), !count_of_app, !count_concat, (quiet_no_handlers _ Hq).
  assert (H : (list_sum (map handlers (map snd runs)) <= List.length runs + list_sum (map grants (map snd runs)))%nat);
    [|lia].
  clear Hp. induction Hs as [|[p t] runs H _ IH]; [done|]. cbn [map snd list_sum fold_right List.length].
  pose proof (sc_paid _ _ _ _ _ H Hm) as H1. cbn [snd] in H1. rewrite !count_unwatched in H1;
    [|by intros [[]|]..]. unfold list_sum in *. cbn [foldr] in *. lia.
Qed.
End Safety.
