(* ===== verification/AgentMessages.v ===== *)
(** * The messages of an agent's run

    What the loop's checks leave of an assistant message: its calls carry identifiers,
    and unless the message is marked as rejected these are new and distinct, so that the
    dispatch has nothing to replace.  A failed response keeps no calls. *)

From S2P Require Import Prelude PyDict Text PyVal PyNum Json Transcript ModelPolicy Retry RetryLoop.
From S2P Require Import Approvals Service JsonLines Tasks Messages AgentTypes AgentWorld.
From S2P Require Import AgentTraces ToolDispatch AgentLoop ToolBatches ToolAdmission ToolSafety.
From S2P Require Import Canonical.
From Stdlib Require Import String.
From Stdlib Require Import String Ascii.

#[local] Open Scope string_scope.
#[local] Open Scope bool_scope.
#[local] Open Scope Z_scope.

(** * Stripping twice

    [s.strip()] takes whole characters away from both ends, so that it changes nothing
    the second time. *)

(** Bytes that belong to one character *)
Fixpoint continued (s : string) : bool :=
  match s with EmptyString => true | String c s' => is_continuation c && continued s' end.
Definition one_char (x : string) : Prop :=
  match x with EmptyString => False | String _ r => continued r = true end.

(** Characters that [utf8_chars] finds again *)
Definition separate (l : list string) : Prop :=
  Forall one_char l /\ Forall char_start (tail l).

Lemma utf8_chars_separate s : separate (utf8_chars s).
Proof.
  induction s as [|c s [H1 H2]]; [split; constructor|]. rewrite utf8_chars_cons.
  destruct s as [|d s]; [split; [by repeat constructor|constructor]|].
  destruct (utf8_chars (String d s)) as [|x xs] eqn:E; [by apply utf8_chars_nil in E|].
  assert (Hx : exists r, x = String d r).
  { rewrite utf8_chars_cons in E. destruct s as [|e s]; [injection E as <- <-; by exists ""|].
    destruct (utf8_chars (String e s)) as [|y ys]; [injection E as <- <-; by exists ""|].
    destruct (is_continuation e); injection E as <- <-; by eexists. }
  destruct Hx as [r ->]. apply Forall_cons in H1 as [Hr Hxs]. cbn [tail] in H2.
  destruct (is_continuation d) eqn:Ed.
  - split; [|done]. constructor; [|done]. cbn in *. by rewrite Ed.
  - split; [by repeat constructor|]. by constructor.
Qed.

Lemma concat_cons x l : String.concat "" (x :: l) = x ++ String.concat "" l.
Proof. destruct l; [by rewrite append_empty|done]. Qed.

Lemma utf8_chars_one x : one_char x -> utf8_chars x = [x].
Proof.
  destruct x as [|c r]; [done|]. cbn [one_char]. revert c. induction r as [|d r IH]; intros c H; [done|].
  cbn [continued] in H. apply andb_true_iff in H as [Hd Hr]. by rewrite utf8_chars_cons, (IH d Hr), Hd.
Qed.

Lemma separate_chars l : separate l -> utf8_chars (String.concat "" l) = l.
Proof.
  induction l as [|x l IH]; intros [H1 H2]; [done|]. apply Forall_cons in H1 as [Hx H1].
  rewrite concat_cons, utf8_chars_app.
  - rewrite (utf8_chars_one _ Hx), IH; [done|]. split; [done|]. cbn [tail] in H2.
    destruct l; [done|]. by apply Forall_cons in H2 as [_ H2].
  - cbn [tail] in H2. destruct l as [|y l]; [done|]. rewrite concat_cons.
    apply Forall_cons in H2 as [H2 _]. apply Forall_cons in H1 as [Hy _]. by destruct y.
Qed.

Lemma separate_app l l' : separate (l ++ l') -> separate l /\ separate l'.
Proof.
  destruct l as [|x l]; [intros H; split; [split; constructor|exact H]|]. intros [H1 H2].
  apply Forall_app in H1 as [H1 H1']. cbn [app tail] in H2. apply Forall_app in H2 as [H2 H2'].
  split; [by split|]. split; [done|]. destruct l'; [constructor|]. by apply Forall_cons in H2' as [_ H2'].
Qed.

Lemma drop_spaces_suffix l : exists spaces, l = (spaces ++ drop_spaces l)%list.
Proof.
  induction l as [|x l [sp H]]; [by exists []|]. cbn [drop_spaces].
  destruct (is_space x); [|by exists []]. exists (x :: sp). cbn [app]. by rewrite <- H.
Qed.

(** No space comes first. *)
Definition starts_plain (l : list string) : Prop := match l with x :: _ => is_space x = false | [] => True end.

Lemma drop_starts_plain l : starts_plain (drop_spaces l).
Proof.
  induction l as [|x l IH]; [done|]. cbn [drop_spaces]. destruct (is_space x) eqn:E; [done|exact E].
Qed.

Lemma plain_drop l : starts_plain l -> drop_spaces l = l.
Proof. destruct l as [|x l]; [done|]. cbn [starts_plain drop_spaces]. by intros ->. Qed.

Lemma strip_strip s : strip (strip s) = strip s.
Proof.
  unfold strip at 1 2. set (l1 := drop_spaces (utf8_chars s)). set (l2 := rev (drop_spaces (rev l1))).
  destruct (drop_spaces_suffix (utf8_chars s)) as [sp1 H1]. fold l1 in H1.
  destruct (drop_spaces_suffix (rev l1)) as [sp2 H2].
  assert (Hl1 : l1 = (l2 ++ rev sp2)%list).
  { apply (f_equal (@rev string)) in H2. by rewrite rev_involutive, rev_app_distr in H2. }
  assert (Hsep : separate l2).
  { pose proof (utf8_chars_separate s) as H. rewrite H1 in H. apply separate_app in H as [_ H].
    rewrite Hl1 in H. by apply separate_app in H as [H _]. }
  rewrite (separate_chars _ Hsep).
  assert (Hfirst : starts_plain l2).
  { pose proof (drop_starts_plain (utf8_chars s)) as H. fold l1 in H. rewrite Hl1 in H. by destruct l2. }
  rewrite (plain_drop _ Hfirst). unfold strip. fold l1. f_equal. f_equal.
  assert (E : rev l2 = drop_spaces (rev l1)) by (unfold l2; apply rev_involutive).
  rewrite E. apply plain_drop, drop_starts_plain.
Qed.

Lemma blocks_app l l' : tool_call_blocks (l ++ l') = (tool_call_blocks l ++ tool_call_blocks l')%list.
Proof. apply omap_app. Qed.

Lemma blocks_one b : tool_call_blocks [b] = match is_tool_call_block b with Some c => [c] | None => [] end.
Proof. unfold tool_call_blocks, is_tool_call_block. cbn. by repeat case_match. Qed.

(** ** Checked identifiers *)

(** The identifiers of calls are as the check leaves them. *)
Record checked_ids (prior : list string) (calls : list pydict) : Prop := {
  ci_clean : clean prior calls;
  ci_stripped : Forall (fun c => strip (raw_id c) = raw_id c) calls
}.

Definition string_id (c : pydict) : Prop := jget c "id" = VStr (raw_id c).

Lemma stripped_raw c : string_id c -> stripped_id c = strip (raw_id c).
Proof. unfold string_id, stripped_id. by intros ->. Qed.

Record preflighting (prior : list string) (s : Preflight) : Prop := {
  pi_ids : Forall string_id (tool_call_blocks (pf_content s));
  pi_clean : pf_errors s = [] -> checked_ids prior (tool_call_blocks (pf_content s)) /\
             pf_current_ids s ≡ₚ map stripped_id (tool_call_blocks (pf_content s))
}.

Lemma preflight_problem_spec prior current call :
  preflight_problem prior current call = None ->
  nonempty (stripped_id call) = true /\ (stripped_id call ∉ prior) /\ (stripped_id call ∉ current).
Proof.
  unfold preflight_problem. fold (stripped_id call). rewrite <- !mem_str_false.
  destruct (nonempty (stripped_id call)), (mem_str (stripped_id call) prior),
    (mem_str (stripped_id call) current); naive_solver.
Qed.

(** A call with its identifier in place *)
Lemma with_id_call block call id :
  is_tool_call_block block = Some call -> is_tool_call_block (VDict (dset "id" (VStr id) call)) = Some (dset "id" (VStr id) call).
Proof.
  destruct block as [| | | | | |d]; try done. cbn.
  destruct (is_str (jget d "type") "toolCall") eqn:E; [|done]. intros [= <-].
  by rewrite jget_dset_ne, E.
Qed.

Lemma raw_id_dset id call : raw_id (dset "id" (VStr id) call) = id.
Proof. unfold raw_id. by rewrite jget_dset_eq. Qed.

Lemma string_id_dset id call : string_id (dset "id" (VStr id) call).
Proof. unfold string_id. by rewrite raw_id_dset, jget_dset_eq. Qed.

Lemma preflight_block_calm prior block s :
  preflighting prior s -> calm_to (preflighting prior) (preflight_block prior block s).
Proof.
  intros [H1 H2]. unfold preflight_block. destruct (is_tool_call_block block) as [call|] eqn:Eb.
  2: { apply calm_value. constructor; cbn [pf_content pf_errors pf_current_ids];
         rewrite blocks_app, blocks_one, Eb, app_nil_r; done. }
  destruct (preflight_problem prior (pf_current_ids s) call) as [reason|] eqn:Ep.
  - apply calm_bind; [by apply calm_act|intros fresh]. apply calm_value.
    constructor; cbn [pf_content pf_errors pf_current_ids].
    + rewrite blocks_app, blocks_one, (with_id_call _ _ _ Eb). apply Forall_app. split; [done|].
      constructor; [apply string_id_dset|constructor].
    + by intros []%app_eq_nil.
  - apply calm_value. fold (stripped_id call).
    apply preflight_problem_spec in Ep as (Hne & Hprior & Hcur).
    set (call' := dset "id" (VStr (stripped_id call)) call).
    assert (Hraw : raw_id call' = stripped_id call) by apply raw_id_dset.
    assert (Hstr : strip (raw_id call') = raw_id call').
    { rewrite Hraw. unfold stripped_id. destruct (jget call "id"); try done. apply strip_strip. }
    assert (Hsid : stripped_id call' = stripped_id call).
    { rewrite stripped_raw by apply string_id_dset. congruence. }
    pose proof (with_id_call _ _ (stripped_id call) Eb) as Hw. fold call' in Hw.
    constructor; cbn [pf_content pf_errors pf_current_ids]; rewrite blocks_app, blocks_one, Hw.
    + apply Forall_app. split; [done|]. constructor; [apply string_id_dset|constructor].
    + intros He. destruct (H2 He) as [[[Hd Hn] Hs] Hp]. split; [constructor; [constructor|]|].
      * rewrite map_app. apply NoDup_app. split_and!; [done| |apply NoDup_singleton].
        intros id Hid ->%list_elem_of_singleton. rewrite Hsid, <- Hp in Hid. done.
      * apply Forall_app. split; [done|]. constructor; [by rewrite Hsid|constructor].
      * apply Forall_app. split; [done|by constructor].
      * rewrite map_app, <- Hp. cbn [map]. rewrite Hsid. apply Permutation_cons_append.
Qed.

(** ** Checked messages *)

Record preflighted (ids : list string) (message m : pydict) : Prop := {
  pr_ids : Forall string_id (message_tool_calls m);
  pr_clean : (forall d, jget m "toolCallBatchError" <> VDict d) -> checked_ids ids (message_tool_calls m);
  pr_stop : jget m "stopReason" = jget message "stopReason";
  pr_role : jget m "role" = jget message "role";
  pr_none : message_tool_calls message = [] -> message_tool_calls m = []
}.

Lemma jget_dpop_ne k k' d : k <> k' -> jget (dpop k d) k' = jget d k'.
Proof.
  intros Hne. unfold jget. induction d as [|[k0 v] d IH]; [done|]. cbn [dpop dget].
  destruct (String.eqb_spec k k0) as [<-|Hk].
  - by destruct (String.eqb_spec k' k).
  - cbn [dget]. by destruct (String.eqb k' k0).
Qed.

Lemma no_calls_checked ids calls : calls = [] -> Forall string_id calls /\ checked_ids ids calls.
Proof. intros ->. by repeat constructor. Qed.

Lemma calls_of_content m l : jget m "content" = VList l -> message_tool_calls m = tool_call_blocks l.
Proof. unfold message_tool_calls. by intros ->. Qed.

Lemma preflight_calm prior message tools options :
  calm_to (preflighted (prior_tool_call_ids prior) message)
    (preflight_assistant_tool_batch prior message tools options).
Proof.
  unfold preflight_assistant_tool_batch. set (m := dpop "toolCallBatchError" message).
  assert (Hcontent : jget m "content" = jget message "content") by by apply jget_dpop_ne.
  assert (Hstop : jget m "stopReason" = jget message "stopReason") by by apply jget_dpop_ne.
  assert (Hrole : jget m "role" = jget message "role") by by apply jget_dpop_ne.
  assert (Hnone : message_tool_calls m = [] -> calm_to (preflighted (prior_tool_call_ids prior) message) (return_value m)).
  { intros H. destruct (no_calls_checked (prior_tool_call_ids prior) _ H). apply calm_value. by constructor. }
  destruct (jget m "content") as [| | | | |content|] eqn:Ec; try (apply Hnone; unfold message_tool_calls; by rewrite Ec).
  destruct (tool_call_blocks content) as [|c0 cs] eqn:Eb; cbn [is_nil].
  { apply Hnone. by rewrite (calls_of_content _ _ Ec). }
  apply (calm_then (preflighting (prior_tool_call_ids prior))).
  - intros g. eapply prog_ok_mono; [|apply (calm_for_each (fun _ => preflighting (prior_tool_call_ids prior)))].
    + by intros [s|e].
    + intros block rest s. apply preflight_block_calm.
    + constructor; cbn; [constructor|]. by repeat constructor.
  - intros s [H1 H2]. apply calm_bind.
    { destruct (is_str _ _); [by apply calm_ends|apply calm_ends]. }
    intros more. apply calm_value. set (m1 := dset "content" (VList (pf_content s)) m).
    assert (Hcalls : forall k v, k <> "content" -> message_tool_calls (dset k v m1) = tool_call_blocks (pf_content s)).
    { intros k v Hk. apply calls_of_content. rewrite jget_dset_ne by done. apply jget_dset_eq. }
    assert (Hcalls1 : message_tool_calls m1 = tool_call_blocks (pf_content s)) by apply calls_of_content, jget_dset_eq.
    assert (Hsome : message_tool_calls message <> []).
    { rewrite (calls_of_content message content) by congruence. by rewrite Eb. }
    destruct (pf_errors s ++ more)%list as [|e es] eqn:Ee; cbn [is_nil].
    + apply app_eq_nil in Ee as [Ee _]. constructor; rewrite ?Hcalls1; [done|by intros _; apply H2| | |done];
        unfold m1; by rewrite jget_dset_ne.
    + constructor; rewrite ?Hcalls by done; [done| | | |done].
      * intros Hd. by destruct (Hd _ (jget_dset_eq _ _ _)).
      * unfold m1. by rewrite !jget_dset_ne.
      * unfold m1. by rewrite !jget_dset_ne.
Qed.

Lemma blocks_texts l : tool_call_blocks (map VStr l) = [].
Proof. by induction l. Qed.

(** The identifiers that the dispatch compares with are among those of the check. *)
Lemma historical_prior messages ids :
  historical_tool_call_ids messages = Ok ids -> ids ⊆ prior_tool_call_ids messages.
Proof.
  unfold historical_tool_call_ids, prior_tool_call_ids. intros (idss & H & [= <-])%rbind_Ok.
  apply mapR_Ok in H. induction H as [|m l ms ls Hm _ IH]; [done|]. rewrite List.concat_cons. cbn.
  assert (Hl : l = if is_str (jget m "role") "assistant" then call_identifiers (message_tool_calls m) else []).
  { destruct (is_str (jget m "role") "assistant"); [|congruence]. unfold message_tool_calls.
    unfold jget, jget_or in *. destruct (dget "content" m) as [[| | | |s|l0|d]|]; cbn in Hm; try done.
    - injection Hm as <-. by rewrite blocks_texts.
    - by injection Hm as <-.
    - injection Hm as <-. by rewrite blocks_texts.
    - by injection Hm as <-. }
  rewrite <- Hl. intros id [Hid|Hid]%elem_of_app; apply elem_of_app; [by left|right; by apply IH].
Qed.

(** ** Failed responses *)

Definition failed_response (m : pydict) : Prop :=
  is_str (jget m "role") "assistant" = true /\
  is_str (jget m "stopReason") "error" || is_str (jget m "stopReason") "aborted" = true.

Lemma filter_no_calls l :
  tool_call_blocks (List.filter (fun b => match is_tool_call_block b with Some _ => false | None => true end) l) = [].
Proof.
  induction l as [|b l IH]; [done|]. cbn [List.filter]. destruct (is_tool_call_block b) eqn:E; [done|].
  change (?b :: ?l) with ([b] ++ l)%list. by rewrite blocks_app, blocks_one, E.
Qed.

Lemma sanitized_no_calls message m :
  sanitize_terminal_assistant_tool_calls message = Ok m -> failed_response m -> message_tool_calls m = [].
Proof.
  unfold sanitize_terminal_assistant_tool_calls. intros H [Hr Hs].
  destruct (is_str (jget message "role") "assistant") eqn:Er; cbn [negb] in H.
  2: { injection H as <-. by rewrite Hr in Er. }
  apply rbind_Ok in H as ([|] & Hfailed & H); cbn [negb] in H.
  2: { injection H as <-. unfold in_str_set, mem_str in Hfailed. destruct (jget message "stopReason"); try done.
       cbn in Hs, Hfailed. injection Hfailed as Hfailed. by rewrite orb_false_r, Hs in Hfailed. }
  - apply rbind_Ok in H as (blocks & _ & [= <-]). rewrite (calls_of_content _ _ (jget_dset_eq _ _ _)).
    apply filter_no_calls.
Qed.

(** A message as the loop takes it in *)
Record taken (prior : list pydict) (m : pydict) : Prop := {
  tk_ids : Forall string_id (message_tool_calls m);
  tk_clean : (forall d, jget m "toolCallBatchError" <> VDict d) ->
             checked_ids (prior_tool_call_ids prior) (message_tool_calls m);
  tk_failed : failed_response m -> message_tool_calls m = []
}.

Lemma preflighted_taken prior message m :
  (failed_response message -> message_tool_calls message = []) ->
  preflighted (prior_tool_call_ids prior) (mark_truncated_model_response message) m -> taken prior m.
Proof.
  intros Hf [H1 H2 H3 H4 H5].
  assert (Hmark : forall k, k <> "errorMessage" -> jget (mark_truncated_model_response message) k = jget message k).
  { intros k Hk. unfold mark_truncated_model_response. destruct (is_str _ _); [by rewrite jget_dset_ne|done]. }
  rewrite Hmark in H3, H4 by done. constructor; [done..|]. intros [Hr Hs]. apply H5.
  unfold message_tool_calls. rewrite Hmark by done. apply Hf. split; congruence.
Qed.
