(* ===== verification/AgentLoopSafety.v ===== *)
(** * What a run of the agent guarantees

    Whatever the model, the tools, the hooks and the host answer: a run with a limit of
    turns ends; it asks the model at most once a turn and calls handlers at most as often
    as its budget of tool calls says; and the messages it adds are closed: every assistant
    message is followed by the results of its calls, in their order. *)

From S2P Require Import Prelude PyDict Text PyVal PyNum Json Transcript ModelPolicy Retry RetryLoop Approvals Service.
From S2P Require Import Tasks Messages AgentTypes AgentWorld AgentTraces.
From S2P Require Import ToolDispatch AgentLoop ToolTraces ToolBatches ToolAdmission ToolSafety AgentMessages.
From Stdlib Require Import String.

#[local] Open Scope string_scope.
#[local] Open Scope bool_scope.
#[local] Open Scope Z_scope.

(** ** Computations that do little *)

(** At most [k] requests, and no handler or retry *)
Definition no_call (e : agent_entry) : Prop :=
  match e with Acted (CallHandler _ _ _ _ _) _ | Acted (ChargeRetry _) _ => False | _ => True end.
Definition modest_trace (k : nat) (t : history) : Prop := (requests t <= k)%nat /\ Forall no_call t.

Lemma no_call_counts t :
  Forall no_call t -> handlers t = O /\ grants t = O /\ forall limit, Forall (charges limit) t.
Proof.
  induction 1 as [|e t He _ (IH1 & IH2 & IH3)]; [by split_and!; [..|constructor]|].
  rewrite !count_cons, IH1, IH2. destruct e as [[] r|i]; try done; split_and!; try done; by constructor.
Qed.

Lemma quiet_modest t : quiet_trace t -> modest_trace 0 t.
Proof.
  unfold modest_trace. induction 1 as [|e t He _ [IH1 IH2]]; [done|].
  rewrite count_cons. destruct e as [[] r|i]; try done; (split; [cbn; lia|by constructor]).
Qed.

Lemma modest_app j k t t' : modest_trace j t -> modest_trace k t' -> modest_trace (j + k) (t' ++ t).
Proof.
  intros [H1 H2] [H3 H4]. unfold modest_trace. rewrite count_of_app. split; [lia|by apply Forall_app].
Qed.

Definition modest {A} (k : nat) (m : exec A) (F : A -> Prop) : Prop :=
  forall x, ends m x (fun r x' => exists t, extends t x x' /\ modest_trace k t /\ forall v, r = Ok v -> F v).

Lemma modest_lift {A} (r : res A) (F : A -> Prop) : (forall v, r = Ok v -> F v) -> modest 0 (xlift r) F.
Proof.
  intros H x. apply ends_lift. exists []. split_and!; [apply extends_refl|done|done].
Qed.

Lemma modest_ret {A} (v : A) (F : A -> Prop) : F v -> modest 0 (xret v) F.
Proof. intros H. apply modest_lift. by intros ? [= <-]. Qed.

Lemma modest_mono {A} j k (m : exec A) (F F' : A -> Prop) :
  (j <= k)%nat -> (forall v, F v -> F' v) -> modest j m F -> modest k m F'.
Proof.
  intros Hle HF H x. eapply ends_mono; [|apply H]. intros r x' (t & Hx & (H1 & H2) & Hr).
  exists t. split_and!; [done|split; [lia|done]|auto].
Qed.

Lemma modest_bind {A B} j k (m : exec A) (f : A -> exec B) F F' :
  modest j m F -> (forall v, F v -> modest k (f v) F') -> modest (j + k) (xbind m f) F'.
Proof.
  intros Hm Hf x. apply ends_bind. eapply ends_mono; [|apply Hm].
  intros [v|e] x' (t & Hx & Ht & Hr).
  - eapply ends_mono; [|by apply Hf, Hr]. intros r x'' (t' & Hx' & Ht' & Hr').
    exists (t' ++ t)%list. split_and!; [by eapply extends_trans|by apply modest_app|done].
  - exists t. destruct Ht as [H1 H2]. split_and!; [done|split; [lia|done]|done].
Qed.

Abbreviation calmly m := (modest 0 m (fun _ => True)).

Lemma calmly_bind {A B} k (m : exec A) (f : A -> exec B) F :
  calmly m -> (forall v, modest k (f v) F) -> modest k (xbind m f) F.
Proof. intros Hm Hf. by apply (modest_bind 0 k _ _ (fun _ => True)). Qed.

Lemma calmly_lift {A} (r : res A) : calmly (xlift r).
Proof. by apply modest_lift. Qed.

Lemma lift_bind {A B} k (r : res A) (f : A -> exec B) F :
  (forall v, r = Ok v -> modest k (f v) F) -> modest k (xbind (xlift r) f) F.
Proof.
  intros H. apply (modest_bind 0 k _ _ (fun v => r = Ok v)); [|exact H]. by apply modest_lift.
Qed.

Lemma modest_for_each {A B} (f : A -> B -> exec B) l :
  (forall a b, calmly (f a b)) -> forall b, calmly (run_for_each f l b).
Proof. intros Hf. induction l as [|a l IH]; intros b; [by apply modest_lift|]. by apply calmly_bind. Qed.

Section Loop.
Context (redact : string -> string) (public_message : exn -> option string).
Context (format_g : pynum -> string) (W : AgentWorld).

Lemma modest_run {A} (q : Prog A) F : calm_to F q -> modest 0 (run W q) F.
Proof.
  intros Hq x. eapply ends_mono; [|by apply run_calm]. intros r x' (t & Hx & Ht & Hr).
  exists t. split_and!; [done|by apply quiet_modest|done].
Qed.

Lemma calmly_act a : quiet_action a -> calmly (run W (do_action a)).
Proof. intros H. by apply modest_run, calm_act. Qed.

Lemma show_calmly event : calmly (show W event).
Proof. apply modest_run, emit_calm. Qed.

Lemma show_message_calmly m : calmly (show_message W m).
Proof. apply modest_run, emit_result_message_calm. Qed.

Lemma emit_policy_calmly c config : calmly (emit_model_policy_selected W c config).
Proof. unfold emit_model_policy_selected. apply calmly_bind; [apply calmly_lift|intros; apply show_calmly]. Qed.

(** ** Asking the model *)

Lemma model_input_calmly c config : calmly (model_input W c config).
Proof.
  unfold model_input. apply calmly_bind.
  { destruct (cf_transform_context config); [by apply calmly_act|by apply modest_ret]. }
  intros messages. apply calmly_bind.
  { destruct (cf_inspect_model_input config); [|by apply modest_ret].
    apply calmly_bind; [by apply calmly_act|intros; apply calmly_lift]. }
  intros messages'. apply calmly_bind; [by apply calmly_act|intros converted].
  apply calmly_bind; [apply calmly_lift|intros; by apply modest_ret].
Qed.

(** The one place where the model is asked *)
Lemma ask_model_modest c config : modest 1 (ask_model W c config) (fun _ => True).
Proof.
  unfold ask_model. apply calmly_bind; [apply model_input_calmly|intros messages].
  apply calmly_bind; [destruct (cf_get_api_key config); [by apply calmly_act|by apply modest_ret]|intros key].
  apply calmly_bind; [by apply (calmly_act FreshId)|intros id].
  apply calmly_bind; [apply calmly_lift|intros policy].
  apply calmly_bind.
  { destruct (cf_durable_metadata_provider config); [|by apply modest_ret].
    apply calmly_bind; [by apply calmly_act|intros; apply calmly_lift]. }
  intros bound. apply calmly_bind; [apply show_calmly|intros _].
  apply calmly_bind; [apply calmly_lift|intros options].
  apply (modest_bind 1 0 _ _ (fun _ => True)); [|intros; by apply modest_ret].
  intros x. eapply ends_mono; [|apply (run_ok W (fun t => modest_trace 1 t))].
  - intros r x' (t & Hx & Ht & _). exists t. by split_and!.
  - split; [cbn; lia|constructor].
  - instantiate (1 := fun _ _ => True). intros r. split; [|done]. split; [cbn; lia|by constructor].
Qed.

(** ** Taking a response in *)

Lemma inspect_ok config message :
  (failed_response message -> message_tool_calls message = []) ->
  modest 0 (inspect_terminal_model_output W config message)
    (fun m => failed_response m -> message_tool_calls m = []).
Proof.
  intros H. unfold inspect_terminal_model_output. destruct (negb _); [by apply modest_ret|].
  apply calmly_bind; [by apply calmly_act|intros v].
  destruct v as [| | | | | |d]; try (by apply modest_lift).
  destruct (jget d "content"); try (by apply modest_lift).
  destruct (is_str _ _); [|by apply modest_lift]. apply modest_lift. intros m Hm. by eapply sanitized_no_calls.
Qed.

(** The context with the message at its end *)
Definition took (c : AgentContext) (v : pydict * AgentContext) : Prop :=
  exists prior, taken prior (fst v) /\ snd v = with_messages (prior ++ [fst v])%list c.

Lemma take_message_ok config response request_id bound c added :
  modest 0 (take_message W config response request_id bound c added) (took c).
Proof.
  unfold take_message. apply lift_bind. intros m0 Hm0.
  assert (Hf0 : failed_response m0 -> message_tool_calls m0 = []).
  { apply rbind_Ok in Hm0 as (m & _ & Hm0). by eapply sanitized_no_calls. }
  apply (modest_bind 0 0 _ _ _ _ (inspect_ok config m0 Hf0)). intros m1 Hf1.
  set (prior := if added then removelast (ac_messages c) else ac_messages c).
  apply (modest_bind 0 0 _ _ (preflighted (prior_tool_call_ids prior) (mark_truncated_model_response m1))).
  { apply modest_run, preflight_calm. }
  intros final Hfinal. apply calmly_bind; [destruct added; [by apply modest_ret|apply show_calmly]|intros _].
  apply calmly_bind; [apply show_calmly|intros _]. apply modest_ret. exists prior.
  split; [by eapply preflighted_taken|done].
Qed.

Lemma take_events_ok config response request_id bound events : forall c partial added,
  modest 0 (take_events W config response request_id bound events c partial added)
    (fun v => exists c', ac_tools c' = ac_tools c /\ ac_system_prompt c' = ac_system_prompt c /\ took c' v).
Proof.
  assert (Htake : forall c added, modest 0 (take_message W config response request_id bound c added)
    (fun v => exists c', ac_tools c' = ac_tools c /\ ac_system_prompt c' = ac_system_prompt c /\ took c' v)).
  { intros c added. eapply modest_mono; [| |apply take_message_ok]; [done|]. intros v Hv. by exists c. }
  induction events as [|event events IH]; intros c partial added; cbn [take_events].
  - apply calmly_bind; [apply calmly_lift|intros _; apply Htake].
  - destruct (is_str (jget event "type") "start").
    { apply lift_bind. intros m _. destruct (cf_inspect_model_output config); [apply IH|].
      apply calmly_bind; [apply show_calmly|intros _]. apply (IH (with_messages _ c)). }
    apply lift_bind. intros retry _. destruct retry; [apply calmly_bind; [apply show_calmly|intros _; apply IH]|].
    apply lift_bind. intros update _. destruct update.
    { destruct (negb partial); [apply IH|]. apply lift_bind. intros m _.
      destruct (cf_inspect_model_output config); [apply IH|].
      apply calmly_bind; [apply show_calmly|intros _]. apply (IH (with_messages _ c)). }
    apply lift_bind. intros final _. destruct final; [apply Htake|apply IH].
Qed.

Lemma repaired_calmly messages : calmly (repaired W messages).
Proof. unfold repaired. apply calmly_bind; [by apply calmly_act|intros; apply calmly_lift]. Qed.

Lemma show_repairs_calmly messages inserted reason : calmly (show_repairs W messages inserted reason).
Proof. unfold show_repairs. apply modest_for_each. intros; apply show_calmly. Qed.

(** One request, and a message that was checked against those before it *)
Lemma stream_ok c config :
  modest 1 (stream_assistant_response W c config)
    (fun v => exists prior, taken prior (fst v) /\ ac_messages (snd v) = (prior ++ [fst v])%list).
Proof.
  unfold stream_assistant_response. apply calmly_bind; [apply repaired_calmly|intros r].
  apply calmly_bind; [apply show_repairs_calmly|intros _].
  apply (modest_bind 1 0 _ _ (fun _ => True)); [apply ask_model_modest|].
  intros [[response id] bound] _. eapply modest_mono; [| |apply take_events_ok]; [done|].
  intros v (c' & _ & _ & prior & Ht & ->). by exists prior.
Qed.

(** ** Results for calls that are not dispatched *)

Definition calls_answered (calls results : list pydict) : Prop :=
  Forall2 (fun call m => message_for (raw_id call) m) calls results.

Lemma answer_calm result call done :
  string_id call ->
  calm_to (fun done' => exists m, done' = (done ++ [m])%list /\ message_for (raw_id call) m)
    (answer_undispatched result call done).
Proof.
  intros Hid. unfold answer_undispatched. apply calm_bind; [apply emit_tool_start_calm|intros _].
  apply calm_bind; [apply calm_ends|intros r].
  eapply calm_then; [apply emit_tool_end_calm|intros c (_ & id & Hid' & Hm)].
  apply calm_bind; [apply emit_result_message_calm|intros _]. apply calm_value. exists (snd c). split; [done|].
  cbn [to_tool_call] in Hid'. rewrite (text_of_str _ _ _ Hid) in Hid'. by injection Hid' as <-.
Qed.

Lemma answer_all_calm result calls :
  Forall string_id calls -> calm_to (calls_answered calls) (prog_for_each (answer_undispatched result) calls []).
Proof.
  intros Hids g. eapply prog_ok_mono; [|apply (calm_for_each (fun rest ms => exists before,
    calls = (before ++ rest)%list /\ calls_answered before ms))].
  - intros [ms|e] g' H; [|done]. destruct H as (before & -> & H). by rewrite app_nil_r.
  - intros call rest ms (before & -> & Hms) g'. apply Forall_app in Hids as [_ [Hid _]%Forall_cons].
    eapply prog_ok_mono; [|by apply answer_calm]. intros [ms'|e] g'' H; [|done].
    destruct H as (m & -> & Hm). exists (before ++ [call])%list. rewrite <- app_assoc. split; [done|].
    apply Forall2_app; [done|by constructor].
  - exists []. split; [done|constructor].
Qed.

Lemma emit_budget_calm budget limit used requested : calm (emit_budget_exceeded budget limit used requested).
Proof. apply emit_calm. Qed.

Lemma fail_budget_calm calls limit used :
  Forall string_id calls ->
  calm_to (fun v => calls_answered calls (fst v)) (fail_tool_call_budget redact calls limit used).
Proof.
  intros H. unfold fail_tool_call_budget. eapply calm_then; [by apply answer_all_calm|].
  intros ms Hms. by apply calm_value.
Qed.

Lemma fail_truncated_calm calls :
  Forall string_id calls -> calm_to (fun v => calls_answered calls (fst v)) (fail_truncated_tool_calls redact calls).
Proof.
  intros H. unfold fail_truncated_tool_calls. eapply calm_then; [by apply answer_all_calm|].
  intros ms Hms. by apply calm_value.
Qed.

(** ** Dispatched calls *)

(** The identifiers passed the check of the loop, so the dispatch keeps them. *)
Lemma checked_stripped ids calls : Forall string_id calls -> checked_ids ids calls -> map stripped calls = calls.
Proof.
  intros Hids [_ Hs]. induction Hids as [|c calls Hid _ IH]; [done|].
  apply Forall_cons in Hs as [Hc Hs]. cbn [map]. rewrite IH by done. f_equal.
  unfold stripped. rewrite (stripped_raw _ Hid), Hc. apply dset_same. unfold string_id, jget in Hid.
  destruct (dget "id" c); [by f_equal|done].
Qed.

Lemma clean_mono ids ids' calls : ids ⊆ ids' -> clean ids' calls -> clean ids calls.
Proof.
  intros Hs [H1 H2]. constructor; [done|]. eapply Forall_impl; [exact H2|]. intros c [Hn Hi]. split; [done|].
  intros H. by apply Hi, Hs.
Qed.

(** ** The budget of a run *)
Section Budget.
Context (max_turns max_calls : option Z) (x0 : AgentRun).

(** Since [x0], requests and calls are paid: [k] requests and [j] calls are still due. *)
Record budgeted (k j : nat) (x : AgentRun) : Prop := {
  bg_run : exists new, ru_history x = (new ++ ru_history x0)%list /\
    Z.of_nat (requests new + k) <= rb_turns_used (ru_budget x) /\
    forall n, max_calls = Some n -> Z.of_nat (handlers new + j) <= rb_tool_calls_used (ru_budget x);
  bg_turns : forall n, max_turns = Some n -> rb_turns_used (ru_budget x) <= n;
  bg_calls : forall n, max_calls = Some n -> rb_tool_calls_used (ru_budget x) <= n
}.

Lemma budgeted_mono k j k' j' x : (k' <= k)%nat -> (j' <= j)%nat -> budgeted k j x -> budgeted k' j' x.
Proof.
  intros Hk Hj [(new & H1 & H2 & H3) H4 H5]. constructor; [|done..]. exists new.
  split_and!; [done|lia|]. intros n Hn. specialize (H3 n Hn). lia.
Qed.

(** What a stretch of the run takes from what is due *)
Lemma budgeted_extends k j k' j' t x x' :
  budgeted k j x -> extends t x x' -> (requests t + k' <= k)%nat ->
  (forall n, max_calls = Some n -> (handlers t + j' <= j + grants t)%nat /\ Forall (charges n) t) ->
  budgeted k' j' x'.
Proof.
  intros [(new & H1 & H2 & H3) H4 H5] [E1 E2 E3 E4] Hk Hj. constructor.
  - exists (t ++ new)%list. rewrite E1, H1, app_assoc, E2, E3, !count_of_app. split_and!; [done|lia|].
    intros n Hn. destruct (Hj n Hn) as [Hj' _]. specialize (H3 n Hn). lia.
  - intros n Hn. rewrite E2. by apply H4.
  - intros n Hn. destruct (Hj n Hn) as [_ Hc]. apply (E4 n Hc). by apply H5.
Qed.

Lemma budgeted_modest k j i k' t x x' :
  budgeted k j x -> extends t x x' -> modest_trace i t -> (i + k' <= k)%nat -> budgeted k' j x'.
Proof.
  intros H Hx [H1 H2] Hk. destruct (no_call_counts _ H2) as (H3 & H4 & H5).
  eapply budgeted_extends; [done|done|lia|]. intros n _. split; [lia|apply H5].
Qed.

(** What a computation that does little leaves of the budget *)
Lemma modest_ends {A} i k k' j (m : exec A) F x :
  modest i m F -> budgeted k j x -> (i + k' <= k)%nat ->
  ends m x (fun r x' => budgeted k' j x' /\ (exists t, extends t x x') /\ forall v, r = Ok v -> F v).
Proof.
  intros Hm Hb Hk. eapply ends_mono; [|apply Hm]. intros r x' (t & Hx & Ht & Hr).
  split_and!; [by eapply budgeted_modest|by exists t|done].
Qed.

(** The run went on within a turn. *)
Record grew (x x' : AgentRun) : Prop := {
  gr_history : exists new, ru_history x' = (new ++ ru_history x)%list;
  gr_turns : rb_turns_used (ru_budget x') = rb_turns_used (ru_budget x)
}.

Lemma grew_refl x : grew x x.
Proof. by constructor; [exists []|]. Qed.

Lemma grew_trans x y z : grew x y -> grew y z -> grew x z.
Proof.
  intros [[n1 H1] T1] [[n2 H2] T2]. constructor; [|congruence].
  exists (n2 ++ n1)%list. by rewrite H2, H1, app_assoc.
Qed.

Lemma extends_grew t x x' : extends t x x' -> grew x x'.
Proof. intros [H T _ _]. constructor; [by exists t|done]. Qed.

(** The state is the same but for the configuration, and its limits are those of the run. *)
Definition limits (config : AgentLoopConfig) : Prop :=
  cf_max_turns config = max_turns /\ cf_max_tool_calls config = max_calls.
Record kept (s s' : LoopState) : Prop := {
  kp_context : lo_context s' = lo_context s;
  kp_messages : lo_new_messages s' = lo_new_messages s;
  kp_limits : limits (lo_config s')
}.

Lemma kept_refl s : limits (lo_config s) -> kept s s.
Proof. by intros H. Qed.

Lemma ends_now {B} (k : RunBudget -> exec B) x Q : ends (k (ru_budget x)) x Q -> ends (xbind budget_now k) x Q.
Proof. intros H. apply ends_bind. by exists (Ok (ru_budget x)), x. Qed.

Lemma batch_runtime_ok s : limits (lo_config s) -> modest 0 (batch_runtime W s) (fun v => kept s (snd v)).
Proof.
  intros Hl. unfold batch_runtime. destruct (cf_tool_runtime (lo_config s)) as [r|].
  - apply lift_bind. intros r' _. apply modest_ret. by split.
  - apply calmly_bind; [by apply (calmly_act FreshId)|intros id]. apply lift_bind. intros r _. by apply modest_ret.
Qed.

(** Everything that a dispatch adds is paid with its batch or its retries. *)
Lemma dispatch_budgeted R calls messages tools context tenant_id r before after runs x x' :
  budgeted 0 (List.length calls) x -> extends (after ++ before) x x' ->
  many_done redact R max_calls calls messages tools context tenant_id r before after runs ->
  budgeted 0 0 x'.
Proof.
  intros Hb Hx [H1 H2 H3 _ _ _]. apply quiet_modest in H1 as [Hq1 Hq2].
  destruct (no_call_counts _ Hq2) as (Hh & Hg & Hc).
  eapply budgeted_extends; [exact Hb|exact Hx| |].
  - rewrite count_of_app, (ran_requests _ _ _ H2). lia.
  - intros n Hn. rewrite !count_of_app, Hh, Hg. split.
    + assert (Hne : max_calls <> None) by congruence. pose proof (ran_handlers _ _ _ Hne H2). lia.
    + apply Forall_app. split; [by eapply ran_charges|apply Hc].
Qed.

(** What the tools of a message leave: a budget that is paid, and its calls answered *)
Definition tools_done {A} (s : LoopState) (calls : list pydict) (x : AgentRun) (f : A -> ExecutedToolBatch * LoopState)
    (r : res A) (x' : AgentRun) : Prop :=
  budgeted 0 0 x' /\ grew x x' /\
  forall v, r = Ok v -> calls_answered calls (fst (fst (f v))) /\ kept s (snd (f v)).

Lemma dispatch_tool_calls_ok prior calls s x :
  Forall string_id calls -> checked_ids (prior_tool_call_ids prior) calls -> limits (lo_config s) ->
  budgeted 0 (List.length calls) x ->
  ends (dispatch_tool_calls redact public_message format_g W prior calls s) x
    (tools_done s calls x (fun v => v)).
Proof.
  intros Hids Hchecked Hl Hb. unfold dispatch_tool_calls. apply ends_bind.
  eapply ends_mono; [|apply (modest_ends 0 0 0 (List.length calls) _ _ _ (batch_runtime_ok s Hl) Hb); lia].
  intros [[R s1]|e] x1 (Hb1 & (t1 & Hx1) & Hr).
  2: { split_and!; [by eapply budgeted_mono; [| |exact Hb1]; lia|by eapply extends_grew|done]. }
  destruct (Hr _ eq_refl) as [Hc Hm Hl1]. cbn [snd] in *. rewrite (proj2 Hl). apply ends_bind.
  eapply ends_mono; [|apply dispatch_many_ok].
  intros r x2 (before & after & runs & Hx2 & Hdone).
  pose proof (dispatch_budgeted _ _ _ _ _ _ _ _ _ _ _ _ Hb1 Hx2 Hdone) as Hb2.
  assert (Hg : grew x x2) by (eapply grew_trans; eapply extends_grew; eassumption).
  destruct r as [batch|e]; [|by split_and!]. apply ends_now, ends_lift. split_and!; [done..|].
  intros v [= <-]. split; [|done]. cbn [fst].
  destruct (md_answers _ _ _ _ _ _ _ _ _ _ _ _ Hdone batch eq_refl) as (historical & checked & Hh & Hch & Ha).
  rewrite (ch_clean _ _ _ Hch), (checked_stripped _ _ Hids Hchecked) in Ha.
  - apply Ha.
  - eapply clean_mono; [by apply historical_prior|apply Hchecked].
Qed.

Lemma execute_tool_calls_ok prior message s x :
  taken prior message -> limits (lo_config s) ->
  budgeted 0 (List.length (message_tool_calls message)) x ->
  ends (execute_tool_calls redact public_message format_g W prior message s) x
    (tools_done s (message_tool_calls message) x (fun v => v)).
Proof.
  intros [Hids Hclean _] Hl Hb. unfold execute_tool_calls. set (calls := message_tool_calls message) in *.
  destruct (jget message "toolCallBatchError") as [| | | | | |d];
    try (by apply dispatch_tool_calls_ok; [|apply Hclean| |]).
  assert (Hm : modest 0
    (run! reason := xlift (py_str (jget_or d "message" (VStr "Tool Call 批次未通过执行前安全校验。"))) in
     run! messages := run W (append_skipped_tool_results redact calls "tool_call_batch_rejected"
                                ("整批工具均未执行：" ++ reason)) in
     xret ((messages, false), s))%exec
    (fun v => calls_answered calls (fst (fst v)) /\ kept s (snd v))).
  { apply calmly_bind; [apply calmly_lift|intros reason].
    apply (modest_bind 0 0 _ _ (calls_answered calls)); [by apply modest_run, answer_all_calm|].
    intros ms Hms. apply modest_ret. by split; [|apply kept_refl]. }
  eapply ends_mono; [|apply (modest_ends 0 0 0 (List.length calls) _ _ _ Hm Hb); lia].
  intros r x' (Hb' & (t & Hx) & Hr).
  split_and!; [by eapply budgeted_mono; [| |exact Hb']; lia|by eapply extends_grew|done].
Qed.

Lemma budgeted_change f k j k' j' x :
  budgeted k j x ->
  rb_turns_used (ru_budget x) + Z.of_nat k' <= rb_turns_used (f (ru_budget x)) + Z.of_nat k ->
  (forall n, max_calls = Some n ->
     rb_tool_calls_used (ru_budget x) + Z.of_nat j' <= rb_tool_calls_used (f (ru_budget x)) + Z.of_nat j /\
     rb_tool_calls_used (f (ru_budget x)) <= n) ->
  (forall n, max_turns = Some n -> rb_turns_used (f (ru_budget x)) <= n) ->
  budgeted k' j' (mkRun (f (ru_budget x)) (ru_history x)).
Proof.
  intros [(new & H1 & H2 & H3) H4 H5] Hk Hj Ht. constructor; cbn [ru_budget ru_history]; [|done|by intros n Hn; apply Hj].
  exists new. split_and!; [done|lia|]. intros n Hn. specialize (H3 n Hn). destruct (Hj n Hn). lia.
Qed.

Lemma run_charged_batch_ok prior message s x :
  taken prior message -> limits (lo_config s) -> budgeted 0 0 x ->
  (forall n, max_calls = Some n ->
     rb_tool_calls_used (ru_budget x) + Z.of_nat (List.length (message_tool_calls message)) <= n) ->
  ends (run_charged_batch redact public_message format_g W prior message s) x
    (tools_done s (message_tool_calls message) x (fun v => (snd (fst v), snd v))).
Proof.
  intros Ht Hl Hb Hfits. unfold run_charged_batch. set (calls := message_tool_calls message) in *.
  set (f := use_tool_calls (Z.of_nat (List.length calls))).
  apply ends_bind. exists (Ok tt), (mkRun (f (ru_budget x)) (ru_history x)). split; [done|].
  assert (Hb1 : budgeted 0 (List.length calls) (mkRun (f (ru_budget x)) (ru_history x))).
  { apply (budgeted_change f 0 0); [done|cbn; lia| |by intros n Hn; cbn; apply (bg_turns _ _ _ Hb)].
    intros n Hn. cbn [f use_tool_calls rb_tool_calls_used]. specialize (Hfits n Hn). lia. }
  set (x1 := mkRun (f (ru_budget x)) (ru_history x)) in *. assert (Hg1 : grew x x1) by by constructor; [exists []|].
  destruct (is_str (jget message "stopReason") "length").
  - assert (Hm : modest 0 (run! batch := run W (fail_truncated_tool_calls redact calls) in xret (false, batch, s))%exec
      (fun v => calls_answered calls (fst (snd (fst v))) /\ kept s (snd v))).
    { apply (modest_bind 0 0 _ _ (fun v => calls_answered calls (fst v))); [by apply modest_run, fail_truncated_calm, Ht|].
      intros v Hv. apply modest_ret. by split; [|apply kept_refl]. }
    eapply ends_mono; [|apply (modest_ends 0 0 0 (List.length calls) _ _ _ Hm Hb1); lia].
    intros r x' (Hb' & (t & Hx) & Hr). split_and!; [|eapply grew_trans; [exact Hg1|by eapply extends_grew]|done].
    eapply budgeted_mono; [| |exact Hb']; lia.
  - apply ends_bind. eapply ends_mono; [|by apply execute_tool_calls_ok].
    intros [v|e] x2 (Hb2 & Hg2 & Hr); [|split_and!; [done|exact (grew_trans _ _ _ Hg1 Hg2)|done]].
    apply ends_now, ends_lift. split_and!; [done|exact (grew_trans _ _ _ Hg1 Hg2)|]. intros w [= <-]. exact (Hr v eq_refl).
Qed.

Lemma run_batch_ok prior message s x :
  taken prior message -> limits (lo_config s) -> budgeted 0 0 x ->
  ends (run_batch redact public_message format_g W prior message s) x
    (tools_done s (message_tool_calls message) x (fun v => (snd (fst v), snd v))).
Proof.
  intros Ht Hl Hb. unfold run_batch. set (calls := message_tool_calls message) in *. apply ends_now.
  destruct (cf_max_tool_calls (lo_config s)) as [limit|] eqn:Em; pose proof (proj2 Hl) as Hm; rewrite Em in Hm.
  2: { apply run_charged_batch_ok; [done..|]. intros n Hn. congruence. }
  destruct (Z.ltb_spec limit (rb_tool_calls_used (ru_budget x) + Z.of_nat (List.length calls))).
  - assert (Hrefuse : modest 0
      (run! _ := run W (emit_budget_exceeded "tool_calls" limit (rb_tool_calls_used (ru_budget x))
                          (Z.of_nat (List.length calls))) in
       run! batch := run W (fail_tool_call_budget redact calls limit (rb_tool_calls_used (ru_budget x))) in
       xret (true, batch, s))%exec
      (fun v => calls_answered calls (fst (snd (fst v))) /\ kept s (snd v))).
    { apply calmly_bind; [apply modest_run, emit_budget_calm|intros _].
      apply (modest_bind 0 0 _ _ (fun v => calls_answered calls (fst v))); [by apply modest_run, fail_budget_calm, Ht|].
      intros v Hv. apply modest_ret. by split; [|apply kept_refl]. }
    eapply ends_mono; [|apply (modest_ends 0 0 0 0 _ _ _ Hrefuse Hb); lia].
    intros r x' (Hb' & (t & Hx) & Hr). split_and!; [done|by eapply extends_grew|done].
  - apply run_charged_batch_ok; [done..|]. intros n Hn. assert (n = limit) as -> by congruence. done.
Qed.

(** *** The messages of a run *)
Section Closed.
Context (prompts : list pydict).

(** A message that the host gave *)
Definition hosted (x : AgentRun) (m : pydict) : Prop :=
  m ∈ prompts \/ exists ms, m ∈ ms /\ (Acted GetSteeringMessages (Ok ms) ∈ ru_history x \/
                                      Acted GetFollowUpMessages (Ok ms) ∈ ru_history x).

(** Every message of the model is followed by the results of its calls; those of a failed
    response are gone.  The identifiers of a message that is not rejected are distinct. *)
Inductive closed (x : AgentRun) : list pydict -> Prop :=
| closed_nil : closed x []
| closed_host l m : closed x l -> hosted x m -> closed x (l ++ [m])
| closed_failed l m : closed x l ->
    is_str (jget m "stopReason") "error" || is_str (jget m "stopReason") "aborted" = true ->
    (is_str (jget m "role") "assistant" = true -> message_tool_calls m = []) ->
    closed x (l ++ [m])
| closed_turn l m results : closed x l ->
    calls_answered (message_tool_calls m) results ->
    ((forall d, jget m "toolCallBatchError" <> VDict d) -> NoDup (map raw_id (message_tool_calls m))) ->
    closed x (l ++ m :: results).

Lemma hosted_grew x x' m : grew x x' -> hosted x m -> hosted x' m.
Proof.
  intros [[new Hn] _] [H|(ms & Hm & H)]; [by left|right]. exists ms. split; [done|].
  rewrite Hn. destruct H as [H|H]; [left|right]; apply elem_of_app; by right.
Qed.

Lemma closed_mono x x' l : (forall m, hosted x m -> hosted x' m) -> closed x l -> closed x' l.
Proof. intros Hh. induction 1; by econstructor; auto. Qed.

Lemma taken_distinct prior m :
  taken prior m -> (forall d, jget m "toolCallBatchError" <> VDict d) -> NoDup (map raw_id (message_tool_calls m)).
Proof.
  intros [Hids Hc _] He. destruct (Hc He) as [[Hd _] Hs].
  replace (map raw_id (message_tool_calls m)) with (map stripped_id (message_tool_calls m)); [done|].
  clear Hc Hd. induction Hids as [|c l Hid _ IH]; [done|]. apply Forall_cons in Hs as [Hc Hs]. cbn.
  rewrite IH by done. f_equal. by rewrite (stripped_raw _ Hid).
Qed.

(** *** Tools of a turn *)

Lemma add_messages results : forall s,
  let s' := fold_left (fun s m => add_message m s) results s in
  lo_new_messages s' = (lo_new_messages s ++ results)%list /\ lo_config s' = lo_config s.
Proof.
  induction results as [|m results IH]; intros s; cbn [fold_left]; [by rewrite app_nil_r|].
  destruct (IH (add_message m s)) as [H1 H2]. cbn in *. rewrite H1, H2, <- app_assoc. done.
Qed.

Definition turn_tools_done (calls : list pydict) (s : LoopState) (x : AgentRun)
    (r : res (bool * list pydict * bool * LoopState)) (x' : AgentRun) : Prop :=
  budgeted 0 0 x' /\ grew x x' /\
  forall stop results more s', r = Ok (stop, results, more, s') ->
    calls_answered calls results /\ lo_new_messages s' = (lo_new_messages s ++ results)%list /\
    limits (lo_config s').

Lemma turn_tools_ok prior message s x :
  taken prior message -> limits (lo_config s) -> budgeted 0 0 x ->
  ends (turn_tools redact public_message format_g W prior message s) x
    (turn_tools_done (message_tool_calls message) s x).
Proof.
  intros Ht Hl Hb. unfold turn_tools. destruct (message_tool_calls message) as [|c calls] eqn:Ec; cbn [is_nil].
  - apply ends_lift. split_and!; [done|apply grew_refl|]. intros stop results more s' [= <- <- <- <-].
    rewrite app_nil_r. by split_and!; [constructor| |].
  - rewrite <- Ec. apply ends_bind. eapply ends_mono; [|by apply run_batch_ok].
    intros [[[stop [results more]] s1]|e] x' (Hb' & Hg & Hr); [|by split_and!].
    apply ends_lift. split_and!; [done..|]. intros stop' results' more' s' [= <- <- <- <-].
    destruct (Hr _ eq_refl) as [Ha [_ Hm Hl']]. cbn in *. destruct (add_messages results s1) as [H1 H2].
    by rewrite H1, H2, Hm.
Qed.

(** *** The end of a turn *)

Definition turn_used (x x' : AgentRun) : Prop :=
  (exists new, ru_history x' = (new ++ ru_history x)%list) /\
  rb_turns_used (ru_budget x') = rb_turns_used (ru_budget x) + 1.

(** Where a turn leaves the run, when it began with these new messages *)
Definition turn_done (x : AgentRun) (r : res (turn_end * LoopState)) (x' : AgentRun) : Prop :=
  budgeted 0 0 x' /\ (exists new, ru_history x' = (new ++ ru_history x)%list) /\
  forall e s', r = Ok (e, s') ->
    limits (lo_config s') /\ closed x' (lo_new_messages s') /\
    forall more pending s'', e = GoOn more pending s'' ->
      s'' = s' /\ Forall (hosted x') pending /\
      rb_turns_used (ru_budget x') = rb_turns_used (ru_budget x) + 1 /\
      forall n, max_turns = Some n -> rb_turns_used (ru_budget x') < n.

Lemma act_ends a x : ends (run W (do_action a)) x (fun r x' => extends [Acted a r] x x').
Proof.
  unfold run, ends. cbn [run_prog do_action]. destruct (perform_agent W a x) as [r x'] eqn:E.
  exists r, x'. split; [done|by apply (perform_extends W)].
Qed.

Lemma steering_ends config x :
  budgeted 0 0 x -> ends (steering_messages W config) x (fun r x' =>
    budgeted 0 0 x' /\ grew x x' /\ forall ms, r = Ok ms -> Forall (hosted x') ms).
Proof.
  intros Hb. unfold steering_messages. destruct (cf_get_steering_messages config).
  - eapply ends_mono; [|apply (act_ends GetSteeringMessages)]. intros r x' Hx. cbn beta in Hx. split_and!; [|by eapply extends_grew|].
    + eapply budgeted_modest; [done|done|apply quiet_modest|done]. by repeat constructor.
    + intros ms ->. apply Forall_forall. intros m Hm. right. exists ms. split; [done|]. left.
      rewrite (ex_history _ _ _ Hx). left.
  - apply ends_lift. split_and!; [done|apply grew_refl|]. by intros ms [= <-].
Qed.

Lemma follow_up_ends config x :
  budgeted 0 0 x -> ends (follow_up_messages W config) x (fun r x' =>
    budgeted 0 0 x' /\ grew x x' /\ forall ms, r = Ok ms -> Forall (hosted x') ms).
Proof.
  intros Hb. unfold follow_up_messages. destruct (cf_get_follow_up_messages config).
  - eapply ends_mono; [|apply (act_ends GetFollowUpMessages)]. intros r x' Hx. cbn beta in Hx. split_and!; [|by eapply extends_grew|].
    + eapply budgeted_modest; [done|done|apply quiet_modest|done]. by repeat constructor.
    + intros ms ->. apply Forall_forall. intros m Hm. right. exists ms. split; [done|]. right.
      rewrite (ex_history _ _ _ Hx). left.
  - apply ends_lift. split_and!; [done|apply grew_refl|]. by intros ms [= <-].
Qed.

(** Little is done between what matters: the budget and the turn stay. *)
Lemma little {A} (m : exec A) F x :
  modest 0 m F -> budgeted 0 0 x ->
  ends m x (fun r x' => budgeted 0 0 x' /\ grew x x' /\ forall v, r = Ok v -> F v).
Proof.
  intros Hm Hb. eapply ends_mono; [|apply (modest_ends 0 0 0 0 _ _ _ Hm Hb); done].
  intros r x' (H1 & (t & H2) & H3). by split_and!; [|eapply extends_grew|].
Qed.

Lemma prepare_next_ok turn s :
  limits (lo_config s) ->
  modest 0 (prepare_next W turn s) (fun s' => lo_new_messages s' = lo_new_messages s /\ limits (lo_config s')).
Proof.
  intros Hl. unfold prepare_next. destruct (negb _); [by apply modest_ret|].
  apply (calmly_bind 0 (run W (do_action (PrepareNextTurn turn)))); [by apply calmly_act|].
  intros [u|]; apply modest_ret; by split.
Qed.

Lemma run_over_ok s : modest 0 (run_over W s) (fun v => v = (RunOver, s)).
Proof. unfold run_over. apply calmly_bind; [apply show_calmly|intros _]. by apply modest_ret. Qed.

(** How a turn ends after its tools, with the new messages [l] *)
Definition finished (l : list pydict) (x : AgentRun) (r : res (turn_end * LoopState)) (x' : AgentRun) : Prop :=
  budgeted 0 0 x' /\ grew x x' /\
  forall e s', r = Ok (e, s') ->
    limits (lo_config s') /\ lo_new_messages s' = l /\
    forall more pending s'', e = GoOn more pending s'' ->
      s'' = s' /\ Forall (hosted x') pending /\ forall n, max_turns = Some n -> rb_turns_used (ru_budget x') < n.

Lemma run_over_finished s x :
  limits (lo_config s) -> budgeted 0 0 x -> ends (run_over W s) x (finished (lo_new_messages s) x).
Proof.
  intros Hl Hb. eapply ends_mono; [|apply (little _ _ _ (run_over_ok s) Hb)].
  intros r x' (H1 & H2 & H3). split_and!; [done..|]. intros e s' Hr. pose proof (H3 _ Hr) as [= -> ->].
  by split_and!.
Qed.

(** A step before the end, and then the end *)
Lemma little_finished {A} l (m : exec A) F (k : A -> exec (turn_end * LoopState)) x :
  modest 0 m F -> budgeted 0 0 x ->
  (forall v y, F v -> budgeted 0 0 y -> ends (k v) y (finished l y)) ->
  ends (xbind m k) x (finished l x).
Proof.
  intros Hm Hb Hk. apply ends_bind. eapply ends_mono; [|by apply (little _ _ _ Hm)].
  intros [v|e] y (Hy & Hg & Hr); [|by split_and!].
  eapply ends_mono; [|apply Hk; [by apply Hr|done]].
  intros r z (H1 & H2 & H3). split_and!; [done|by eapply grew_trans|done].
Qed.

Lemma finish_turn_ok message results more s x :
  limits (lo_config s) -> budgeted 0 0 x ->
  ends (finish_turn W message results more s) x (finished (lo_new_messages s) x).
Proof.
  intros Hl Hb. unfold finish_turn.
  eapply little_finished; [by apply prepare_next_ok|done|]. intros s1 x1 [Hm Hl1] Hb1.
  eapply (little_finished _ _ (fun _ => True)); [|done|].
  { destruct more; [apply emit_policy_calmly|by apply modest_ret]. }
  intros _ x2 _ Hb2. eapply (little_finished _ _ (fun _ => True)); [|done|].
  { destruct (cf_should_stop_after_turn (lo_config s1)); [|by apply modest_ret].
    by apply (calmly_act (ShouldStopAfterTurn _)). }
  intros stop x3 _ Hb3. rewrite <- Hm. destruct stop; [by apply run_over_finished|].
  apply ends_now. destruct (over_turns (lo_config s1) (ru_budget x3)) as [limit|] eqn:Eo.
  - eapply (little_finished _ _ (fun _ => True)); [|done|intros _ x4 _ Hb4; by apply run_over_finished].
    destruct more; [apply modest_run, emit_budget_calm|by apply modest_ret].
  - apply ends_bind. eapply ends_mono; [|by apply steering_ends].
    intros [pending|e] x4 (Hb4 & Hg4 & Hp); [|by split_and!].
    apply ends_lift. split_and!; [done..|]. intros e s' [= <- <-]. split_and!; [done..|].
    intros more' pending' s'' [= <- <- <-]. split_and!; [done|by apply Hp|].
    intros n Hn. rewrite (gr_turns _ _ Hg4). unfold over_turns in Eo. rewrite (proj1 Hl1), Hn in Eo.
    destruct (Z.leb_spec n (rb_turns_used (ru_budget x3))); [done|lia].
Qed.

(** *** A turn *)

Lemma take_pending_ok pending : forall s,
  modest 0 (run_for_each (take_pending W) pending s)
    (fun s' => lo_new_messages s' = (lo_new_messages s ++ pending)%list /\ lo_config s' = lo_config s).
Proof.
  induction pending as [|m pending IH]; intros s; cbn [run_for_each].
  { apply modest_ret. by rewrite app_nil_r. }
  apply (modest_bind 0 0 _ _ (fun s' => s' = add_message m s)).
  - unfold take_pending. apply calmly_bind; [apply show_message_calmly|intros _]. by apply modest_ret.
  - intros s' ->. eapply modest_mono; [| |apply IH]; [done|]. intros s'' [H1 H2]. rewrite H1, H2. cbn.
    by rewrite <- app_assoc.
Qed.

Lemma closed_hosts x l pending : closed x l -> Forall (hosted x) pending -> closed x (l ++ pending).
Proof.
  intros Hl Hp. revert l Hl. induction Hp as [|m pending Hm _ IH]; intros l Hl; [by rewrite app_nil_r|].
  change (m :: pending) with ([m] ++ pending)%list. rewrite app_assoc. by apply IH, closed_host.
Qed.

Lemma in_str_set_true v l : in_str_set v l = Ok true -> exists s, v = VStr s /\ s ∈ l.
Proof. destruct v; try done. cbn. intros [= H%mem_str_spec]. by eexists. Qed.

(** Where a turn leaves the run *)
Definition turn_ended (x : AgentRun) (r : res (turn_end * LoopState)) (x' : AgentRun) : Prop :=
  budgeted 0 0 x' /\ grew x x' /\ forall e s', r = Ok (e, s') ->
    limits (lo_config s') /\ closed x' (lo_new_messages s') /\
    forall more pending s'', e = GoOn more pending s'' -> s'' = s' /\ Forall (hosted x') pending /\
      forall n, max_turns = Some n -> rb_turns_used (ru_budget x') < n.

Lemma finished_ended l x y r y' :
  closed y l -> grew x y -> finished l y r y' -> turn_ended x r y'.
Proof.
  intros Hcl Hg (H1 & H2 & H3). split_and!; [done|by eapply grew_trans|].
  intros e s' Hr. destruct (H3 e s' Hr) as (H4 & H5 & H6). split_and!; [done| |done].
  rewrite H5. eapply closed_mono; [|exact Hcl]. intros m. by apply hosted_grew.
Qed.

(** The response of a turn, its tools and its end *)
Lemma answer_turn_ok prior message l s x :
  taken prior message -> limits (lo_config s) -> budgeted 0 0 x -> closed x l ->
  lo_new_messages s = (l ++ [message])%list ->
  ends (answer_turn redact public_message format_g W prior message s) x (turn_ended x).
Proof.
  intros Ht Hl Hb Hc Hnew. unfold answer_turn. apply ends_lift_bind.
  destruct (in_str_set (jget message "stopReason") ["error"; "aborted"]) as [failed|e] eqn:Ef;
    [|by split_and!; [|apply grew_refl|]].
  destruct failed.
  - eapply ends_mono; [|eapply (little_finished (lo_new_messages s)); [apply show_calmly|done|]].
    + intros r y Hf. eapply finished_ended; [|apply grew_refl|exact Hf]. rewrite Hnew.
      apply closed_failed; [done| |].
      * apply in_str_set_true in Ef as (t & -> & Hin). cbn.
        apply elem_of_cons in Hin as [->|Hin%list_elem_of_singleton]; [done|]. by subst t.
      * intros Hr. apply (tk_failed _ _ Ht). split; [done|].
        apply in_str_set_true in Ef as (t & -> & Hin). cbn.
        apply elem_of_cons in Hin as [->|Hin%list_elem_of_singleton]; [done|]. by subst t.
    + intros _ y _ Hy. by apply run_over_finished.
  - apply ends_bind. eapply ends_mono; [|by apply (turn_tools_ok prior message s)].
    intros [[[[stop results] more] s2]|e] y (Hy & Hg & Hr); [|by split_and!].
    destruct (Hr _ _ _ _ eq_refl) as (Ha & Hm & Hl2).
    eapply ends_mono; [|eapply (little_finished (lo_new_messages s2)); [apply show_calmly|done|]].
    + intros r z Hf. eapply finished_ended; [|exact Hg|exact Hf]. rewrite Hm, Hnew, <- app_assoc. apply closed_turn; [|done|by eapply taken_distinct].
      eapply closed_mono; [|exact Hc]. intros m. by apply hosted_grew.
    + intros _ z _ Hz. destruct (_ || stop); [by apply run_over_finished|by apply finish_turn_ok].
Qed.

(** A turn that may begin *)
Record ready (first : bool) (pending : list pydict) (s : LoopState) (x : AgentRun) : Prop := {
  rd_budget : budgeted 0 0 x;
  rd_limits : limits (lo_config s);
  rd_closed : closed x (lo_new_messages s);
  rd_pending : Forall (hosted x) pending;
  rd_first : first = true -> forall n, max_turns = Some n -> rb_turns_used (ru_budget x) < n
}.

(** After the turn was counted *)
Lemma counted_turn_ok pending s x :
  budgeted 1 0 x -> limits (lo_config s) -> closed x (lo_new_messages s) -> Forall (hosted x) pending ->
  ends (counted_turn redact public_message format_g W pending s) x (turn_ended x).
Proof.
  intros Hb Hl Hc Hp. unfold counted_turn. apply ends_bind.
  eapply ends_mono; [|apply (modest_ends 0 1 1 0 _ _ _ (take_pending_ok pending s) Hb); done].
  intros [s1|e] x1 (Hb1 & (t1 & Hx1%extends_grew) & Hr1).
  2: { split_and!; [by eapply budgeted_mono; [| |exact Hb1]; lia|done|done]. }
  destruct (Hr1 _ eq_refl) as [Hm1 Hl1]. apply ends_bind.
  eapply ends_mono; [|apply (modest_ends 1 1 0 0 _ _ _ (stream_ok (lo_context s1) (lo_config s1)) Hb1); done].
  intros [[message c]|e] x2 (Hb2 & (t2 & Hx2%extends_grew) & Hr2).
  2: { split_and!; [done|by eapply grew_trans|done]. }
  destruct (Hr2 _ eq_refl) as (prior & Ht & Hprior). cbn [fst snd] in *.
  rewrite Hprior, removelast_last. pose proof (grew_trans _ _ _ Hx1 Hx2) as Hg.
  eapply ends_mono; [|apply (answer_turn_ok prior message (lo_new_messages s1)); [done| |done| |done]].
  - intros r x3 (H1 & H2 & H3). split_and!; [done|by eapply grew_trans|done].
  - cbn. by rewrite Hl1.
  - rewrite Hm1. apply closed_hosts.
    + eapply closed_mono; [|exact Hc]. intros m. by apply hosted_grew.
    + eapply Forall_impl; [exact Hp|]. intros m. by apply hosted_grew.
Qed.

Lemma turn_ok first pending s x :
  ready first pending s x ->
  ends (turn redact public_message format_g W first pending s) x (turn_done x).
Proof.
  intros [Hb Hl Hc Hp Hfirst]. unfold turn. apply ends_now.
  destruct (if first then None else over_turns (lo_config s) (ru_budget x)) as [limit|] eqn:Eo.
  { assert (Hm : modest 0 (run! _ := run W (emit_budget_exceeded "turns" limit (rb_turns_used (ru_budget x)) 1) in
                           run_over W s)%exec (fun v => v = (RunOver, s))).
    { apply calmly_bind; [apply modest_run, emit_budget_calm|intros _; apply run_over_ok]. }
    eapply ends_mono; [|apply (little _ _ _ Hm Hb)]. intros r x' (H1 & H2 & H3).
    split_and!; [done|apply H2|]. intros e s' Hr. pose proof (H3 _ Hr) as [= -> ->]. split_and!; [done| |done].
    eapply closed_mono; [|exact Hc]. intros m. by apply hosted_grew. }
  assert (Hleft : forall n, max_turns = Some n -> rb_turns_used (ru_budget x) < n).
  { intros n Hn. destruct first; [by apply Hfirst|]. unfold over_turns in Eo. rewrite (proj1 Hl), Hn in Eo.
    destruct (Z.leb_spec n (rb_turns_used (ru_budget x))); [done|lia]. }
  apply ends_bind. eapply ends_mono; [|apply (little (if first then xret tt else show W _) (fun _ => True)); [|done]].
  2: { destruct first; [by apply modest_ret|apply show_calmly]. }
  intros [u|e] x1 (Hb1 & Hg1 & _); [|by split_and!; [|apply Hg1|]].
  apply ends_bind. exists (Ok tt), (mkRun (use_turn (ru_budget x1)) (ru_history x1)). split; [done|].
  set (x2 := mkRun (use_turn (ru_budget x1)) (ru_history x1)).
  assert (Hb2 : budgeted 1 0 x2).
  { apply (budgeted_change use_turn 0 0); [done|cbn; lia| |].
    - intros n Hn. cbn. split; [lia|by apply (bg_calls _ _ _ Hb1)].
    - intros n Hn. cbn. rewrite (gr_turns _ _ Hg1). specialize (Hleft n Hn). lia. }
  assert (Hh : forall m, hosted x m -> hosted x2 m) by (intros m Hm; apply (hosted_grew x x1) in Hm; [exact Hm|done]).
  eapply ends_mono; [|apply counted_turn_ok; [exact Hb2|done| |]].
  - intros r x3 (H1 & [[new H2] H2'] & H3). split_and!; [done| |].
    + destruct Hg1 as [[new1 Hn1] _]. exists (new ++ new1)%list. rewrite H2. cbn. by rewrite Hn1, app_assoc.
    + intros e s' Hr. destruct (H3 e s' Hr) as (H4 & H5 & H6). split_and!; [done..|].
      intros more p s'' He. destruct (H6 more p s'' He) as (H7 & H8 & H9). split_and!; [done..| |done].
      rewrite H2'. cbn. by rewrite (gr_turns _ _ Hg1).
  - by eapply closed_mono.
  - eapply Forall_impl; [exact Hp|exact Hh].
Qed.

(** *** The loop *)

(** The computation ends as [Q] says, or there is a reason why it did not. *)
Definition ends_or {A} (P : Prop) (m : exec A) (x : AgentRun) (Q : res A -> AgentRun -> Prop) : Prop :=
  match m x with Some (r, x') => Q r x' | None => P end.

Lemma ends_or_ends {A} P (m : exec A) x Q : ends m x Q -> ends_or P m x Q.
Proof. intros (r & x' & Hm & H). unfold ends_or. by rewrite Hm. Qed.

Lemma ends_or_bind {A B} P (m : exec A) (k : A -> exec B) x Q :
  ends m x (fun r x' => match r with Ok v => ends_or P (k v) x' Q | Err e => Q (Err e) x' end) ->
  ends_or P (xbind m k) x Q.
Proof.
  intros (r & x' & Hm & H). unfold ends_or, xbind, xcatch. rewrite Hm. destruct r; exact H.
Qed.

Lemma ends_or_mono {A} (P P' : Prop) (m : exec A) x Q : (P -> P') -> ends_or P m x Q -> ends_or P' m x Q.
Proof. unfold ends_or. destruct (m x) as [[r x']|]; auto. Qed.

Definition loop_done (r : res LoopState) (x' : AgentRun) : Prop :=
  budgeted 0 0 x' /\ forall s', r = Ok s' -> closed x' (lo_new_messages s').

Definition turns_left (n : Z) (x : AgentRun) : nat := Z.to_nat (n - rb_turns_used (ru_budget x)).

(** The fuel was not enough for the turns that were left. *)
Definition too_little (fuel : nat) (x : AgentRun) : Prop :=
  forall n, max_turns = Some n -> (fuel <= turns_left n x)%nat.

(** A turn that went on has used one of the turns that were left. *)
Lemma one_turn_less fuel x x' y :
  (forall n, max_turns = Some n -> rb_turns_used (ru_budget x') < n) ->
  rb_turns_used (ru_budget x') = rb_turns_used (ru_budget x) + 1 -> grew x' y ->
  too_little fuel y -> too_little (S fuel) x.
Proof.
  intros Hlt Hused Hg H n Hn. specialize (H n Hn). specialize (Hlt n Hn).
  unfold turns_left in *. rewrite (gr_turns _ _ Hg) in H. lia.
Qed.

Lemma next_ready pending s x y :
  budgeted 0 0 y -> grew x y -> limits (lo_config s) -> closed x (lo_new_messages s) ->
  Forall (hosted y) pending -> ready false pending s y.
Proof.
  intros Hb Hg Hl Hc Hp. constructor; [done|done| |done|done].
  eapply closed_mono; [|exact Hc]. intros m. by apply hosted_grew.
Qed.

Lemma run_loop_ok fuel : forall first pending s x,
  ready first pending s x ->
  ends_or (too_little fuel x) (run_loop redact public_message format_g W fuel first pending s) x loop_done.
Proof.
  induction fuel as [|fuel IH]; intros first pending s x Hready; cbn [run_loop].
  { intros n _. lia. }
  apply ends_or_bind. eapply ends_mono; [|by apply turn_ok].
  intros [[e s1]|e] x1 (Hb1 & _ & Hr); [|by split].
  destruct (Hr e s1 eq_refl) as (Hl1 & Hc1 & Hgo). cbn [fst snd].
  destruct e as [|more pending' s']; [by apply ends_or_ends, ends_lift; split; [|intros s' [= <-]]|].
  destruct (Hgo _ _ _ eq_refl) as (-> & Hp & Hused & Hlt).
  destruct (more || negb (is_nil pending')).
  { eapply ends_or_mono; [|by apply IH, (next_ready _ _ x1); [|apply grew_refl| | |]].
    by apply (one_turn_less _ _ _ _ Hlt Hused), grew_refl. }
  apply ends_or_bind. eapply ends_mono; [|by apply follow_up_ends].
  intros [follow_ups|e] x2 (Hb2 & Hg2 & Hf); [|by split].
  destruct (is_nil follow_ups).
  - apply ends_or_ends, ends_bind. eapply ends_mono; [|by apply (little _ _ _ (show_calmly _))].
    intros r x3 (Hb3 & Hg3 & _). destruct r; [|by split]. apply ends_lift. split; [done|].
    intros s' [= <-]. eapply closed_mono; [|exact Hc1]. intros m Hm. by do 2 (eapply hosted_grew; [done|]).
  - eapply ends_or_mono; [|apply IH, (next_ready _ _ x1); [done..|by apply Hf]].
    by apply (one_turn_less _ _ _ _ Hlt Hused).
Qed.
End Closed.
End Budget.

(** ** A run *)

Definition fresh_run (x : AgentRun) : AgentRun := mkRun (mkBudget 0 0 false) (ru_history x).

(** What a run that began at [x] with these prompts leaves *)
Definition run_done (config : AgentLoopConfig) (prompts : list pydict) (x : AgentRun) : res LoopState -> AgentRun -> Prop :=
  loop_done (cf_max_turns config) (cf_max_tool_calls config) (fresh_run x) prompts.

(** Less fuel than turns *)
Definition out_of_fuel (config : AgentLoopConfig) (fuel : nat) : Prop :=
  forall n, cf_max_turns config = Some n -> (fuel <= Z.to_nat n)%nat.

Lemma loop_config_positive config :
  loop_config_ok config = Ok tt ->
  (forall n, cf_max_turns config = Some n -> 1 <= n) /\ (forall n, cf_max_tool_calls config = Some n -> 1 <= n).
Proof.
  unfold loop_config_ok. destruct (_ && _) eqn:E; [|done]. intros _. apply andb_prop in E as [H1 H2].
  split; intros n Hn; rewrite Hn in *; lia.
Qed.

Lemma fresh_budgeted config x :
  loop_config_ok config = Ok tt ->
  budgeted (cf_max_turns config) (cf_max_tool_calls config) (fresh_run x) 0 0 (fresh_run x).
Proof.
  intros [Ht Hc]%loop_config_positive. constructor; cbn.
  - exists []. by split_and!.
  - intros n Hn. specialize (Ht n Hn). lia.
  - intros n Hn. specialize (Hc n Hn). lia.
Qed.

(** A step of the start of a run *)
Lemma start_step {A} config prompts x fuel (m : exec A) F (k : A -> exec LoopState) y :
  modest 0 m F -> grew (fresh_run x) y ->
  budgeted (cf_max_turns config) (cf_max_tool_calls config) (fresh_run x) 0 0 y ->
  (forall v z, F v -> grew (fresh_run x) z ->
     budgeted (cf_max_turns config) (cf_max_tool_calls config) (fresh_run x) 0 0 z ->
     ends_or (out_of_fuel config fuel) (k v) z (run_done config prompts x)) ->
  ends_or (out_of_fuel config fuel) (xbind m k) y (run_done config prompts x).
Proof.
  intros Hm Hg Hb Hk. apply ends_or_bind. eapply ends_mono; [|by apply (little _ _ _ _ _ _ Hm Hb)].
  intros [v|e] z (Hb' & Hg' & Hv); [|by split]. apply Hk; [by apply Hv|by eapply grew_trans|done].
Qed.

Lemma prompts_calmly prompts :
  calmly (run_for_each (fun prompt (_ : unit) => show_message W prompt) prompts tt).
Proof. apply modest_for_each. intros. apply show_message_calmly. Qed.

Lemma run_from_ok fuel prompts c config reason x :
  loop_config_ok config = Ok tt ->
  ends_or (out_of_fuel config fuel) (run_from redact public_message format_g W fuel prompts c config reason)
    (fresh_run x) (run_done config prompts x).
Proof.
  intros Hok. unfold run_from.
  eapply start_step; [apply repaired_calmly|apply grew_refl|by apply fresh_budgeted|]. intros r x1 _ Hg1 Hb1.
  do 2 (eapply start_step; [first [apply show_calmly|apply show_repairs_calmly]|eassumption..|];
        clear dependent x1; intros _ x1 _ Hg1 Hb1).
  do 2 (eapply start_step; [first [apply show_calmly|apply emit_policy_calmly]|eassumption..|];
        clear dependent x1; intros _ x1 _ Hg1 Hb1).
  eapply start_step; [apply prompts_calmly|eassumption..|]. clear dependent x1. intros _ x1 _ Hg1 Hb1.
  apply ends_or_bind. eapply ends_mono; [|exact (steering_ends _ _ _ prompts config x1 Hb1)].
  intros [pending|e] x2 (Hb2 & Hg2 & Hp); [|by split].
  assert (Hused : rb_turns_used (ru_budget x2) = 0) by (rewrite (gr_turns _ _ Hg2), (gr_turns _ _ Hg1); done).
  eapply ends_or_mono; [|apply run_loop_ok].
  - intros H n Hn. specialize (H n Hn). unfold turns_left in H. rewrite Hused in H. lia.
  - constructor; [done|done| |by apply Hp|].
    + apply (closed_hosts prompts x2 [] prompts); [constructor|].
      apply Forall_forall. intros m Hm. by left.
    + intros _ n Hn. rewrite Hused. destruct (loop_config_positive _ Hok) as [Ht _]. specialize (Ht n Hn). lia.
Qed.

Lemma run_agent_loop_ok fuel prompts c config x :
  loop_config_ok config = Ok tt ->
  ends_or (out_of_fuel config fuel) (run_agent_loop redact public_message format_g W fuel prompts c config) x
    (run_done config prompts x).
Proof. intros Hok. by apply (run_from_ok fuel prompts c config "run_start" x). Qed.

Lemma run_agent_loop_continue_ok fuel c config x :
  loop_config_ok config = Ok tt -> validate_continuation_context c = Ok tt ->
  ends_or (out_of_fuel config fuel) (run_agent_loop_continue redact public_message format_g W fuel c config) x
    (run_done config [] x).
Proof.
  intros Hok Hc. unfold run_agent_loop_continue. rewrite Hc.
  by apply (run_from_ok fuel [] c config "continue_start" x).
Qed.
End Loop.
