(* ===== verification/AgentGuarantees.v ===== *)
(** * The guarantees of an agent's run

    What the dispatch of a batch and a whole run promise, for any answers of the model,
    the tools, the hooks and the host, and any interleaving of the tasks of a batch. *)

From S2P Require Import Prelude PyDict Text PyVal PyNum Retry RetryLoop Approvals Service PlanTypes.
From S2P Require Import Tasks Messages AgentTypes AgentWorld AgentTraces ToolDispatch AgentLoop.
From S2P Require Import ToolTraces ToolBatches ToolAdmission ToolSafety AgentMessages.
From S2P Require Import AgentLoopSafety.
From Stdlib Require Import String.

#[local] Open Scope string_scope.
#[local] Open Scope bool_scope.
#[local] Open Scope Z_scope.

(** ** The dispatch of a batch *)

(** An entry of the run of a call that says that nothing was committed: an action of this
    call raised an exception that the runtime takes to say so. *)
Definition excuses_call (tool : AgentTool) (id : string) (e : agent_entry) : bool :=
  excuses e && match e with Acted a _ => of_call tool id a | Interrupted _ => false end.

Section Dispatch.
Context (redact : string -> string) (public_message : exn -> option string).
Context (format_g : pynum -> string) (R : ToolDispatchRuntime) (max_calls : option Z) (W : AgentWorld).
Abbreviation dispatch_many :=
  (dispatch_many redact public_message format_g R (option_map (admit_retry_attempt redact) max_calls) W).

(** What a run holds is in the history. *)
Lemma run_entry_in runs after p t e :
  calls_ran max_calls runs after -> (p, t) ∈ runs -> e ∈ unwatched t -> e ∈ after.
Proof.
  intros [(rest & _ & Hp) Hs] Hrun [He _]%in_unwatched.
  assert (Hin : e ∈ uninterrupted after); [|by apply in_uninterrupted in Hin as [H _]].
  rewrite Hp. apply elem_of_app. right. apply list_elem_of_In, in_concat. exists t.
  split; [|by apply list_elem_of_In]. apply list_elem_of_In, list_elem_of_fmap. by exists (p, t).
Qed.

(** The excuse of a run names its own call. *)
Lemma run_excuse runs after p t :
  calls_ran max_calls runs after -> (p, t) ∈ runs -> excused (unwatched t) = true ->
  existsb (excuses_call (pt_tool p) (id_of p)) after = true.
Proof.
  intros Hr Hrun (e & He & Hx)%existsb_exists. apply existsb_exists. apply list_elem_of_In in He.
  pose proof (proj1 (Forall_forall _ _) (cr_sound _ _ _ Hr) _ Hrun) as Hs. cbn in Hs.
  pose proof (proj1 (Forall_forall _ _) (sc_own _ _ _ _ _ Hs) _ He) as Hown.
  exists e. split; [by apply list_elem_of_In; eapply run_entry_in|]. unfold excuses_call. rewrite Hx.
  destruct e as [[] r|i]; try exact Hown; try done. cbn in *. destruct Hown as (_ & -> & _). apply String.eqb_refl.
Qed.

(** A run in which the handler was called *)
Lemma run_dispatched tool id args context n a t :
  Acted (CallHandler tool id args context n) a ∈ t -> dispatched t = true.
Proof. intros Hin. apply existsb_exists. eexists. split; [by apply list_elem_of_In|done]. Qed.

(** C6. A dispatch of tool calls always ends.  If it returns, it has one result message and
    one outcome for each call, in the order of the calls and under its identifier; the calls
    are the given ones, and their identifiers are replaced only when some of them are
    empty, already used, or used twice. *)
Theorem dispatch_answers_every_call calls messages tools sequential context tenant_id x :
  exists r x', dispatch_many calls messages tools sequential context tenant_id x = Some (r, x') /\
  forall batch, r = Ok batch -> exists historical checked,
    historical_tool_call_ids messages = Ok historical /\
    checked_as historical calls checked /\
    Forall2 (fun call m => message_for (raw_id call) m) checked (tb_messages batch) /\
    Forall2 (fun call o => jget (to_tool_call o) "id" = VStr (raw_id call)) checked (tb_outcomes batch).
Proof.
  destruct (dispatch_many_ok redact public_message format_g R max_calls W calls messages tools sequential
              context tenant_id x) as (r & x' & He & before & after & runs & _ & H).
  exists r, x'. split; [done|]. intros batch Hb.
  destruct (md_answers _ _ _ _ _ _ _ _ _ _ _ _ H batch Hb) as (historical & checked & H1 & H2 & [H3 H4]).
  exists historical, checked. split_and!; [done..|]. eapply Forall2_impl; [exact H4|]. by intros call o [? _].
Qed.

(** C1. A handler is called only if the identifiers of its batch were new and distinct,
    and for one of its calls, with the tool that the call names and the arguments that
    this tool validated, after every call of the batch was made canonical and this one
    was admitted: by the authorizers and the hook that the runtime has, asked about this
    very call and its arguments, with the identity
    and the approval check that its tool asks for, and before the agent was cancelled.
    It sees the identity and the approval that were admitted. *)
Theorem handlers_run_only_when_admitted calls messages tools sequential context tenant_id x :
  exists r x' before after,
    dispatch_many calls messages tools sequential context tenant_id x = Some (r, x') /\
    ru_history x' = (after ++ before ++ ru_history x)%list /\ quiet_trace before /\
    forall tool id args context' n a, Acted (CallHandler tool id args context' n) a ∈ after ->
      (exists historical, historical_tool_call_ids messages = Ok historical /\ clean historical calls) /\
      exists c p,
        resolve_dispatch_context context
          match tenant_id with Some s => Some s | None => td_default_tenant_id R end = Ok c /\
        run_due R calls tools c p before /\
        pt_tool p = tool /\ id_of p = id /\ pt_args p = args /\
        forall c', context' = Some c' -> dc_identity c' = dc_identity c /\ dc_approval c' = dc_approval c.
Proof.
  destruct (dispatch_many_ok redact public_message format_g R max_calls W calls messages tools sequential
              context tenant_id x) as (r & x' & He & before & after & runs & Hx & [H1 H2 _ _ H5 H6 _]).
  exists r, x', before, after. split_and!; [done|by rewrite (ex_history _ _ _ Hx), app_assoc|done|].
  intros tool id args context' n a Hin.
  destruct (ran_handler _ _ _ _ _ _ _ _ _ H2 Hin) as (p & t & Hrun & _ & -> & -> & -> & Hc).
  split; [apply H6; by intros ->; apply elem_of_nil in Hrun|].
  destruct (proj1 (Forall_forall _ _) H5 _ Hrun) as (c & Hres & Hdue). exists c, p.
  split_and!; [done..|]. by rewrite <- (rd_context _ _ _ _ _ _ Hdue).
Qed.

(** C2. An effect that may have happened is not reported as one that did not: if the handler
    of a tool that must not be replayed was called, then its outcome is a success, or says
    that the outcome is unknown, unless an action of this very call - its handler, its
    lease, an observer of its events - raised one of the exceptions that the runtime takes
    to say that nothing was committed or that the call may be repeated: a definite denial,
    a retryable error, a denied admission, a lock that timed out, a lease lost with a known
    outcome, a rejected tenant.  Every other exception, a timeout, a cancellation and a
    lost lease leave the outcome unknown. *)
Theorem unknown_effects_are_reported calls messages tools sequential context tenant_id x batch x' :
  keeps_code redact ->
  dispatch_many calls messages tools sequential context tenant_id x = Some (Ok batch, x') ->
  exists new, ru_history x' = (new ++ ru_history x)%list /\
  forall tool id args context' n a, Acted (CallHandler tool id args context' n) a ∈ new ->
    at_replay_policy tool = Never -> existsb (excuses_call tool id) new = false ->
    exists o, o ∈ tb_outcomes batch /\ jget (to_tool_call o) "id" = VStr id /\
      (to_is_error o = true -> result_is_outcome_unknown (to_result o) = true).
Proof.
  intros Hkeep He.
  destruct (dispatch_many_ok redact public_message format_g R max_calls W calls messages tools sequential
              context tenant_id x) as (r & y & He' & before & after & runs & Hx & H).
  rewrite He in He'. injection He' as <- <-.
  exists (after ++ before)%list. split; [apply (ex_history _ _ _ Hx)|].
  intros tool id args context' n a Hin Hnever Hexc.
  apply elem_of_app in Hin as [Hin|Hin];
    [|by apply (proj1 (Forall_forall _ _) (md_before _ _ _ _ _ _ _ _ _ _ _ _ H)) in Hin].
  pose proof (md_runs _ _ _ _ _ _ _ _ _ _ _ _ H) as Hr.
  destruct (ran_handler _ _ _ _ _ _ _ _ _ Hr Hin) as (p & t & Hrun & Hint & -> & -> & -> & _).
  destruct (md_answers _ _ _ _ _ _ _ _ _ _ _ _ H batch eq_refl) as (historical & checked & Hh & Hch & [_ Ho]).
  destruct (md_clean _ _ _ _ _ _ _ _ _ _ _ _ H) as (h & Hh' & Hcl); [by intros ->; apply elem_of_nil in Hrun|].
  rewrite Hh in Hh'. injection Hh' as <-. rewrite (ch_clean _ _ _ Hch Hcl) in Ho.
  destruct (proj1 (Forall_forall _ _) (md_due _ _ _ _ _ _ _ _ _ _ _ _ H) _ Hrun) as (c & _ & Hdue).
  destruct (rd_call _ _ _ _ _ _ Hdue) as (call & (i & Hi)%list_elem_of_lookup & Hcan).
  destruct (Forall2_lookup_l _ _ _ _ _ Ho Hi) as (o & Hoi & Hid & Hrep).
  assert (Hraw : id_of p = raw_id call) by (pose proof (cn_id _ _ _ _ _ Hcan) as E; cbn in E; unfold id_of, raw_id; by rewrite E).
  exists o. split_and!; [by eapply list_elem_of_lookup_2|by rewrite Hraw|]. intros Herr.
  destruct (Hrep p t Hrun Hraw Hkeep) as [Hu|Hx']; [|by eapply run_dispatched|done|done|].
  - unfold never_replayed. by rewrite bool_decide_eq_true.
  - exfalso. pose proof (run_excuse _ _ _ _ Hr Hrun Hx') as Hbad. rewrite existsb_app, Hbad in Hexc. done.
Qed.
End Dispatch.

(** ** A run *)

Section Run.
Context (redact : string -> string) (public_message : exn -> option string).
Context (format_g : pynum -> string) (W : AgentWorld).
Abbreviation run_agent_loop := (run_agent_loop redact public_message format_g W).
Abbreviation run_agent_loop_continue := (run_agent_loop_continue redact public_message format_g W).

(** C5. With a limit of turns, fuel for one turn more is enough for a run to end, whatever
    the model and the tools answer. *)
Theorem limited_run_ends fuel prompts c config n x :
  loop_config_ok config = Ok tt -> cf_max_turns config = Some n -> (Z.to_nat n < fuel)%nat ->
  (exists r x', run_agent_loop fuel prompts c config x = Some (r, x')) /\
  (exists r x', run_agent_loop_continue fuel c config x = Some (r, x')).
Proof.
  intros Hok Hn Hfuel.
  assert (H : forall m Q, ends_or (out_of_fuel config fuel) m x Q -> exists (r : res LoopState) x', m x = Some (r, x')).
  { intros m Q. unfold ends_or. destruct (m x) as [[r x']|]; [by exists r, x'|]. intros H%(fun H => H n Hn). lia. }
  split; [by eapply H, run_agent_loop_ok|].
  destruct (validate_continuation_context c) as [[]|e] eqn:Ec; [by eapply H, run_agent_loop_continue_ok|].
  exists (Err e), x. unfold AgentLoop.run_agent_loop_continue. by rewrite Ec.
Qed.

Lemma run_agent_loop_done fuel prompts c config x r x' :
  loop_config_ok config = Ok tt -> run_agent_loop fuel prompts c config x = Some (r, x') ->
  run_done config prompts x r x'.
Proof.
  intros Hok He. pose proof (run_agent_loop_ok redact public_message format_g W fuel prompts c config x Hok) as H.
  unfold ends_or in H. by rewrite He in H.
Qed.

(** C4. A run, however it ends, asks the model at most once a turn and calls handlers, over
    all its batches and their retries, at most as often as its limit of tool calls. *)
Theorem run_stays_within_budgets fuel prompts c config x r x' :
  loop_config_ok config = Ok tt -> run_agent_loop fuel prompts c config x = Some (r, x') ->
  exists new, ru_history x' = (new ++ ru_history x)%list /\
    (forall n, cf_max_turns config = Some n -> Z.of_nat (requests new) <= n) /\
    (forall n, cf_max_tool_calls config = Some n -> Z.of_nat (handlers new) <= n).
Proof.
  intros Hok [[(new & H1 & H2 & H3) H4 H5] _]%run_agent_loop_done; [|done]. exists new. split_and!; [done|..].
  - intros n Hn. specialize (H4 n Hn). lia.
  - intros n Hn. specialize (H3 n Hn). specialize (H5 n Hn). lia.
Qed.

(** C3. The messages that a run adds are closed: they are what the host gave, and messages
    of the model, each followed by one result for each of its calls, in their order and
    under their identifiers; a failed response has no calls, and the identifiers of a
    batch that was not rejected are distinct. *)
Theorem run_answers_every_call fuel prompts c config x s x' :
  loop_config_ok config = Ok tt -> run_agent_loop fuel prompts c config x = Some (Ok s, x') ->
  closed prompts x' (lo_new_messages s).
Proof. intros Hok [_ H]%run_agent_loop_done; [by apply H|done]. Qed.
End Run.

(** * A run of an agent

    A model asks for a payment, whose handler fails after it was called; the second
    response ends the run.  The guarantees of a run hold of it, and are not empty. *)

Definition payment : AgentTool :=
  mkTool 1 "pay" "Pays" [] (Some 2) None 3 None None None None None None Never 0 WriteAccess None
    false "v1" "v1" false.

Definition payment_call : pydict :=
  [("type", VStr "toolCall"); ("id", VStr "call-1"); ("name", VStr "pay"); ("arguments", VDict [("amount", VInt 5)])].
Definition first_response : pydict :=
  [("role", VStr "assistant"); ("content", VList [VDict payment_call]); ("stopReason", VStr "toolUse")].
Definition second_response : pydict :=
  [("role", VStr "assistant"); ("content", VList [VDict [("type", VStr "text"); ("text", VStr "done")]]);
   ("stopReason", VStr "stop")].

(** The model's first response asks for the payment; every handler fails. *)
Definition example_answer (h : history) (a : agent_action) : res (agent_answer a) :=
  match a return res (agent_answer a) with
  | Emit _ | SinkRetryEvent _ | Sleep _ _ | SettleUpdates _ | Signal _ _ | ReleaseLease _ => Ok tt
  | NowMs => Ok 7
  | FreshId => Ok "fresh"
  | CallTokenReason _ => Ok "stopped"
  | ReadMonotonic | ReadRandom => Ok (NInt 0)
  | LookCancelled | LookCallToken _ | LookHeartbeat _ | ShouldStopAfterTurn _ => Ok false
  | Authorize _ _ _ | AuthorizeLegacy _ _ _ => Ok true
  | WatchCall _ => Ok None
  | PrepareArguments _ args | ValidateArguments _ args | ResolveResourceKeys _ args => Ok args
  | InspectModelInput _ | GetApiKey _ | DurableMetadata | InspectModelOutput _ => Ok VNone
  | CallHandler _ _ _ _ _ => Err RuntimeError
  | BeforeToolCall _ _ => Ok None
  | AfterToolCall _ _ _ _ => Ok None
  | AcquireLease _ _ _ => Ok (mkLease None None false)
  | ChargeRetry _ => Err OutsideModel
  | GetSteeringMessages | GetFollowUpMessages => Ok []
  | TransformContext ms | ConvertToLlm ms => Ok ms
  | StreamModel _ _ _ =>
      Ok (mkResponse [] (Ok tt) (Ok (if Nat.eqb (requests h) 0 then first_response else second_response)))
  | PrepareNextTurn _ => Ok None
  end.
Definition example_world : AgentWorld :=
  mkWorld example_answer (fun _ => 0%nat) (fun _ => false) (fun _ => None).

Definition plain_redaction (s : string) : string := s.
Definition no_public_message (e : exn) : option string := None.
Definition plain_format (n : pynum) : string := "".

Definition no_caller : ToolDispatchContext := mkDispatchContext None VNone None None None None None.
Definition example_config : AgentLoopConfig :=
  mkConfig [] [] "off" false None (Some 1) (Some 2) None None no_caller false false false false false
    false false false false false false false.
Definition example_context : AgentContext := mkAgentContext "You pay." [] [payment].
Definition example_prompt : pydict := [("role", VStr "user"); ("content", VStr "pay 5")].
Definition example_start : AgentRun := mkRun (mkBudget 0 0 false) [].

Abbreviation example_run :=
  (run_agent_loop plain_redaction no_public_message plain_format example_world 3 [example_prompt]
     example_context example_config example_start).

(** What a computation returned, if it did *)
Definition returned {A} (otherwise : A) (o : option (res A * AgentRun)) : A * AgentRun :=
  match o with Some (Ok v, x) => (v, x) | _ => (otherwise, example_start) end.

Definition example_end : LoopState * AgentRun :=
  returned (mkLoop example_context [] example_config) example_run.

Lemma example_run_returns : example_run = Some (Ok (fst example_end), snd example_end).
Proof. vm_compute. reflexivity. Qed.

Lemma example_end_messages :
  map (fun m => jget m "role") (lo_new_messages (fst example_end))
  = [VStr "user"; VStr "assistant"; VStr "toolResult"; VStr "assistant"].
Proof. vm_compute. reflexivity. Qed.

(** The model was asked twice, and the payment tried once. *)
Lemma example_end_budget : requests (ru_history (snd example_end)) = 2%nat /\ handlers (ru_history (snd example_end)) = 1%nat.
Proof. vm_compute. done. Qed.

Lemma limited_run_ends_witness :
  (exists r x', run_agent_loop plain_redaction no_public_message plain_format example_world 3 [example_prompt]
     example_context example_config example_start = Some (r, x')) /\
  (exists r x', run_agent_loop_continue plain_redaction no_public_message plain_format example_world 3
     example_context example_config example_start = Some (r, x')).
Proof.
  exact (limited_run_ends plain_redaction no_public_message plain_format example_world 3 [example_prompt]
           example_context example_config 2 example_start eq_refl eq_refl (le_n 3)).
Defined.

Lemma run_stays_within_budgets_witness :
  (requests (ru_history (snd example_end)) = 2%nat /\ handlers (ru_history (snd example_end)) = 1%nat) /\
  exists new, ru_history (snd example_end) = (new ++ ru_history example_start)%list /\
    (forall n, Some 2 = Some n -> Z.of_nat (requests new) <= n) /\
    (forall n, Some 1 = Some n -> Z.of_nat (handlers new) <= n).
Proof.
  exact (conj example_end_budget
    (run_stays_within_budgets plain_redaction no_public_message plain_format example_world 3 [example_prompt]
       example_context example_config example_start (Ok (fst example_end)) (snd example_end)
       eq_refl example_run_returns)).
Defined.

Lemma run_answers_every_call_witness :
  map (fun m => jget m "role") (lo_new_messages (fst example_end))
    = [VStr "user"; VStr "assistant"; VStr "toolResult"; VStr "assistant"] /\
  closed [example_prompt] (snd example_end) (lo_new_messages (fst example_end)).
Proof.
  exact (conj example_end_messages
    (run_answers_every_call plain_redaction no_public_message plain_format example_world 3 [example_prompt]
       example_context example_config example_start (fst example_end) (snd example_end)
       eq_refl example_run_returns)).
Defined.

(** ** One batch, dispatched *)

Definition example_runtime : ToolDispatchRuntime :=
  match register_tools (own_runtime example_config "runtime") [payment] with
  | Ok r => r
  | Err _ => own_runtime example_config "runtime"
  end.

Abbreviation example_dispatch :=
  (dispatch_many plain_redaction no_public_message plain_format example_runtime
     (option_map (admit_retry_attempt plain_redaction) (Some 1)) example_world [payment_call] [] [payment] false
     no_caller None example_start).
Definition example_batch : ToolDispatchBatch * AgentRun :=
  returned (mkBatch [] [] false) example_dispatch.

Lemma example_dispatch_returns : example_dispatch = Some (Ok (fst example_batch), snd example_batch).
Proof. vm_compute. reflexivity. Qed.

(** The handler was called and failed; nothing denies that the payment was made. *)
Lemma example_batch_uncertain :
  existsb is_handler_call (ru_history (snd example_batch)) = true /\
  existsb (excuses_call payment "call-1") (ru_history (snd example_batch)) = false /\
  map (fun o => (to_is_error o, result_is_outcome_unknown (to_result o))) (tb_outcomes (fst example_batch))
    = [(true, true)].
Proof. vm_compute. done. Qed.

Lemma unknown_effects_are_reported_witness :
  (existsb is_handler_call (ru_history (snd example_batch)) = true /\
   existsb (excuses_call payment "call-1") (ru_history (snd example_batch)) = false /\
   map (fun o => (to_is_error o, result_is_outcome_unknown (to_result o))) (tb_outcomes (fst example_batch))
     = [(true, true)]) /\
  exists new, ru_history (snd example_batch) = (new ++ ru_history example_start)%list /\
  forall tool id args context n a, Acted (CallHandler tool id args context n) a ∈ new ->
    at_replay_policy tool = Never -> existsb (excuses_call tool id) new = false ->
    exists o, o ∈ tb_outcomes (fst example_batch) /\ jget (to_tool_call o) "id" = VStr id /\
      (to_is_error o = true -> result_is_outcome_unknown (to_result o) = true).
Proof.
  exact (conj example_batch_uncertain
    (unknown_effects_are_reported plain_redaction no_public_message plain_format example_runtime (Some 1)
       example_world [payment_call] [] [payment] false no_caller None example_start (fst example_batch)
       (snd example_batch) eq_refl example_dispatch_returns)).
Defined.

(** ** A call without a name

    The checks reject it and keep it, with a result under an empty name, and the next
    request finds the transcript broken: the run raises instead of going on. *)
Definition nameless_response : pydict :=
  dset "content" (VList [VDict (dset "name" (VStr "") payment_call)]) first_response.
Definition nameless_answer (h : history) (a : agent_action) : res (agent_answer a) :=
  match a return res (agent_answer a) with
  | StreamModel _ _ _ => Ok (mkResponse [] (Ok tt) (Ok nameless_response))
  | a => example_answer h a
  end.
Definition nameless_world : AgentWorld :=
  mkWorld nameless_answer (fun _ => 0%nat) (fun _ => false) (fun _ => None).

Lemma nameless_call_ends_the_run :
  option_map fst (run_agent_loop plain_redaction no_public_message plain_format nameless_world 3
                    [example_prompt] example_context example_config example_start)
  = Some (Err (TranscriptIntegrityError "invalid_tool_call")).
Proof. vm_compute. reflexivity. Qed.
